(* ===== verification/_CoqProject ===== *)
-Q . S2P
Prelude.v
Parser.v
Formats.v
FormatsProps.v
Compress.v
Vnode.v
Process.v
Sched.v
SchedProps.v
YieldProps.v
Ipc.v
IpcProps.v
Pmm.v
PmmProps.v
SlabProps.v
Vmm.v
VmmProps.v
VmmThms.v
ReclaimProps.v
Heap.v
HeapProps.v
Onyxfs.v
Fat32.v
Net.v
NetProps.v
Machine.v
Procfs.v
Vfs.v
VfsProps.v
Lifecycle.v
Onx.v
Syscall.v
Trap.v
ProcProps.v
HandlerProps.v
CallProps.v
DispatchProps.v
ExitProps.v
OnyxfsProps.v
JournalProps.v
DirProps.v
FsThms.v
TrapThms.v
MemThms.v
Sha256.v
Auth.v
AuthProps.v
AuthThms.v
Text.v
TextProps.v
Elf2onx.v
Elf2onxProps.v
Mkimage.v
MkimageProps.v
MkimageThms.v
Fdt.v
FdtProps.v
Bus.v
Virtio.v
VirtioProps.v
VirtioDevs.v
Input.v
Rand.v
Usb.v
DriverProps.v
Font.v
ScreenProps.v
Psfgen.v
FontProps.v
Stubs.v
StubProps.v
Shell.v
ShellProps.v
Console.v
ConsoleProps.v
Soc.v
Buses.v
Sdhci.v
Asm.v
Boot.v
