(* ===== verification/Prelude.v ===== *)
(** * OnyxKernel: a verification development

    OnyxKernel is a small RISC-V (RV64, Sv39) operating system in Rust.  The
    repository has four crates: [core] (error codes, formats, parser, text), [kernel],
    [init] (the first process, a shell, the account tools and the stubs of the system
    calls) and [tools] (programs of the host that build executables, file-system
    images and the console font).  This library models them function by function and
    proves what makes them correct.

    ** How the program is put together, and how the model follows it

    A trap ([kernel/src/srv/trap.rs]) enters the kernel with a frame of registers.  A
    system call goes through the access list of the process to a handler
    ([kernel/src/syscall]); handlers use the file layer ([fs/vfs]), which dispatches
    to OnyxFS, FAT32, the generated files of procfs and the channels of ipcfs; the
    memory calls edit the page tables ([mm/vmm]) with pages of the page allocator
    ([mm/pmm]); a call that blocks ends in the scheduler ([proc/scheduler]).  Every
    such component keeps global variables.  Here a component is a file: its globals
    are a [Record], its functions are definitions with the names of the source, which
    take the globals and return them: [result] is the outcome of a fallible function
    ([Ok], [Err] with its code, [Panic] for what panics or is undefined in the
    source), [SM] adds the state that a function changes.  Integers are [Z], with the wrap-around of their width
    written where the source computes ([w64], [w32], ...).  [Machine.v] puts the
    globals of the kernel's components in one record, and [Trap.v] composes them as
    the kernel does.

    Drivers are modelled over [Bus.v]: code over its own globals, RAM and a device.
    The device is not code of the repository: it is a parameter, and theorems that
    need to know how it behaves have that as a class ([BlkDevice], [Serial], [Clock])
    whose laws are those of its standard, with an instance that is a concrete device.
    The programs of [init] are modelled over classes that list the system calls they
    make ([Auth.Os], [Shell.Sys]).

    ** Files and the code they model

    - core: [Prelude.v] (errno.rs and the shared monads, tactics and lemmas),
      [Parser.v] (parser.rs), [Formats.v] (formats/), [Text.v] (fmt/, string.rs,
      types.rs); theorems in [FormatsProps.v], [TextProps.v].
    - kernel/src/mm: [Pmm.v] (pmm/), [Vmm.v] (vmm/), [Heap.v] (heap.rs, kalloc.rs);
      theorems in [PmmProps.v], [SlabProps.v], [VmmProps.v], [VmmThms.v],
      [ReclaimProps.v], [HeapProps.v].
    - kernel/src/proc: [Process.v] (process/, arch/trap_frame.rs), [Sched.v]
      (scheduler/), [Lifecycle.v] (lifecycle.rs, signals.rs), [Onx.v] (onx/, spawn.rs);
      theorems in [SchedProps.v], [YieldProps.v], [ExitProps.v].
    - kernel/src/ipc and fs: [Ipc.v] (ipc/, fs/ipcfs), [Vnode.v] and [Vfs.v] (vfs/),
      [Procfs.v], [Compress.v] and [Onyxfs.v] (onyxfs/), [Fat32.v]; theorems in
      [IpcProps.v], [VfsProps.v], [OnyxfsProps.v], [JournalProps.v], [DirProps.v],
      [FsThms.v].
    - kernel/src/net: [Net.v], [NetProps.v].
    - kernel/src/syscall and srv: [Syscall.v] (syscall/, syscall_dispatch.rs),
      [Trap.v] (trap.rs, timer.rs), [Console.v] (klog.rs, kdump.rs, the panic handler,
      timer.rs over its registers, arch/smp.rs); theorems in [ProcProps.v],
      [HandlerProps.v], [CallProps.v], [DispatchProps.v], [TrapThms.v], [MemThms.v],
      [ConsoleProps.v].
    - kernel/src/libfdt: [Fdt.v], [FdtProps.v].
    - kernel/src/drivers and font: [Bus.v] (arch/mmio.rs), [Virtio.v] (virtio/,
      virtio_req.rs), [VirtioDevs.v] (virtio_rng, virtio_console, virtio_net,
      virtio_input), [Input.v] (input.rs, ps2.rs), [Rand.v] (rtc.rs, hwrand.rs,
      entropy.rs), [Usb.v] (usb.rs), [Font.v] (font/, fb/, fb_term/), [Console.v]
      (uart.rs), [Soc.v] (gpio/, led.rs, pinctrl.rs, otp.rs, dma.rs, plic.rs,
      watchdog.rs, syscon.rs, power.rs, cpufreq.rs, pwm.rs), [Buses.v] (i2c/, spi/,
      i2s.rs, mipi_dsi.rs, pci.rs, pcie.rs, canaan_eth.rs), [Sdhci.v] (sdhci/);
      theorems in [VirtioProps.v], [DriverProps.v], [ScreenProps.v], [FontProps.v].
    - kernel/src/arch and srv/main: [Asm.v] (asm/, csr.rs, smp.rs, idle.rs: the entry and
      exit of a trap instruction by instruction, the boot code), [Boot.v] (srv/main: the
      order of initialisation, the search for devices, the first process).
    - init: [Sha256.v] and [Auth.v] (auth.rs, login.rs, passwd.rs, useradd.rs,
      userdel.rs), [Stubs.v] (syscalls.rs), [Shell.v] (main.rs, osh.rs, hello.rs,
      argv_test.rs); theorems in [Sha256.v], [AuthProps.v], [AuthThms.v],
      [StubProps.v], [ShellProps.v].
    - tools: [Elf2onx.v], [Mkimage.v], [Psfgen.v]; theorems in [Elf2onxProps.v],
      [MkimageProps.v], [MkimageThms.v], [FontProps.v].

    ** What the theorems show

    - Processes: whatever a trap asks, if its outcome is defined, every process record
      stays well formed ([process_records_well_formed]) and, the two calls that create a
      process and rings above 2 apart, no process gains privilege
      ([privilege_never_rises]); a killed process stays killed ([kill_is_final]), [exit]
      returns to the process that called it ([exit_call_returns]), a signal handler gets
      back the frame it interrupted but for two registers ([signal_handler_roundtrip]),
      an access list stops a call before it has an effect ([acl_refuses]).
    - Entry and exit: the assembly around a trap restores every register but t0 and t1
      ([trap_roundtrip]); the boot ends in the program of [/bin/init] as process 1
      ([launch_starts_init]).
    - Scheduling: the linked run queues implement FIFO queues
      ([runqueue_refines_fifo]); a yield of a process that may run on its hart neither
      loses nor duplicates a process ([sched_yield_conserves]) and a hart's queue is
      served in order
      ([sched_yield_round_robin]).
    - Memory: the page allocator implements a table of flags ([alloc_free_inverse]);
      [translate] walks the page tables as the privileged architecture says the hardware
      does ([translate_is_sv39]),
      mapping changes the requested pages only ([map_range_exact]), destroying an
      address space returns exactly its pages ([destroy_root_reclaims]); the heap is a
      tiling ([kmalloc_kfree_inverse]); the memory calls ([brk_provides_heap],
      [map_anon_private]).
    - Files: a directory block refines a finite map ([directory_refines_map]), inodes
      are stored and found ([inode_store]), the journal redoes what was committed
      ([journal_redoes_committed]); descriptors carry rights ([descriptor_rights]) and
      a closed token stays dead ([closed_token_stays_closed]); a channel is a byte
      stream with an access list ([channel_stream_integrity]).
    - Network: TCP delivers a stream in order ([tcp_stream_order]).
    - Devices: the block driver refines a disk ([driver_refines_disk]), the frame
      buffer a text terminal ([screen_is_terminal]); a line of the log is sent
      ([log_line_is_sent]), the timer fires after its period ([timer_arms_next]), random
      draws are unbiased ([below_unbiased]), a walk visits the device tree
      ([walk_visits_tree]).
    - Programs: a stub reaches the handler of its call ([wrapper_reaches_handler]);
      [sha256] is the standard's ([sha256_is_fips]), the contents that a password update
      writes verify it ([password_update_verifies]), [login] starts a shell only for a
      name and a password that were typed and verify ([login_authenticates]).
    - Tools: the kernel mounts an image that [mkimage] builds and finds the tree of the
      manifest in it ([image_mounts]); [elf2onx] keeps the program
      ([elf2onx_keeps_program]); a compressed segment decompresses to itself
      ([rle_roundtrip]).
    - Text: the printf engine prints what a format means ([vformat_renders]) and the
      cursor of the parser is a stream, for lengths up to [isize::MAX]
      ([cursor_refines_stream]).

    ** Bounds and fuel

    A loop of the source that is not structural runs under fuel.  Where the code
    bounds the loop, the entry point passes that bound: the length of the input
    ([Compress], [Onx.unpack], [Text], [Fdt]), the number of pages or blocks
    ([Pmm], [Vmm], [Onyxfs]), the number of processes or channels ([Sched], [Ipc]),
    the frames the device still has ([Net]).  That these are enough is part of the
    theorems, which state the result of the call and not only what holds if it
    returns.  Loops over links that the code does not bound (a cluster chain of FAT32,
    a queue of processes) have as fuel more than the number of objects; running out
    means a cycle, on which the source does not return, and is [Panic].  Loops that
    wait for a device have the number of looks as an argument, and the class that
    describes the device says how many are enough ([busy]).

    ** Not modelled

    - Physical memory is one byte-addressed space in the machine, and a part of it holds
      the kernel's own data, which the model keeps as records beside it.  A load or store
      through a pointer of a call that reaches that part ([Machine.kernel_owned]) is
      undefined here, [Panic]; the source does it ([sigaction_stores_unchecked]).  The
      theorems on traps are about those whose outcome is defined.
    - The number of the hart is what [tp] holds ([m_hart]).  A program can put another
      number there ([forged_hart]); the theorems on one call or one trap are about the
      hart that [tp] names.
    - [satp], fences and interrupt masking have no effect in the model; harts other than
      the running one are seen through the queues and the lock they share, and the
      interleaving of harts is modelled for the spin lock only.
    - The SD host driver is modelled without theorems: its register offsets are not those
      of the standard, so there is no documented device to state them over.
    - Frames of the network come in finite bursts.
    - The messages that kernel code logs and that programs and tools print, except for
      the logger itself.
    - Tests, build scripts and Cargo files.
    - Memory: RAM of a user program is what its page table maps; the program that runs
      between two traps is not modelled, a trap starts from any frame. *)

From stdpp Require Import base list numbers strings gmap.
From Stdlib Require Import ZArith Lia.

Open Scope Z_scope.

(** ** Error codes and outcomes *)

Inductive Errno :=
  | EOk | NoMem | Inval | NoEnt | Io | Perm | Range | NoSys | Busy | NoSpace
  | NotDir | IsDir | BadFd | Exist | Pipe | Overflow.

#[global] Instance Errno_eq_dec : EqDecision Errno.
Proof. solve_decision. Defined.

Definition as_i64 (e : Errno) : Z :=
  match e with
  | EOk => 0 | NoMem => -1 | Inval => -2 | NoEnt => -3 | Io => -4 | Perm => -5
  | Range => -6 | NoSys => -7 | Busy => -8 | NoSpace => -9 | NotDir => -10
  | IsDir => -11 | BadFd => -12 | Exist => -13 | Pipe => -14 | Overflow => -15
  end.

Definition as_str (e : Errno) : string :=
  match e with
  | EOk => "OK" | NoMem => "ENOMEM" | Inval => "EINVAL" | NoEnt => "ENOENT"
  | Io => "EIO" | Perm => "EPERM" | Range => "ERANGE" | NoSys => "ENOSYS"
  | Busy => "EBUSY" | NoSpace => "ENOSPC" | NotDir => "ENOTDIR"
  | IsDir => "EISDIR" | BadFd => "EBADF" | Exist => "EEXIST" | Pipe => "EPIPE"
  | Overflow => "EOVERFLOW"
  end.

(** The outcome of a Rust computation: a value, an [Errno] propagated with [?],
    or a panic (an out-of-range index or slice), which aborts the kernel. *)
Inductive result (A : Type) :=
  | Ok (a : A)
  | Err (e : Errno)
  | Panic.
Arguments Ok {A} a.
Arguments Err {A} e.
Arguments Panic {A}.

#[global] Instance result_ret : MRet result := λ A a, Ok a.
#[global] Instance result_bind : MBind result := λ A B f r,
  match r with Ok a => f a | Err e => Err e | Panic => Panic end.
#[global] Instance result_fmap : FMap result := λ A B f r,
  match r with Ok a => Ok (f a) | Err e => Err e | Panic => Panic end.

#[global] Instance result_eq_dec {A} `{EqDecision A} : EqDecision (result A).
Proof. solve_decision. Defined.

Definition ok_or {A} (o : option A) (e : Errno) : result A :=
  match o with Some a => Ok a | None => Err e end.

Definition is_ok {A} (r : result A) : bool :=
  match r with Ok _ => true | _ => false end.

(** Stateful fallible code.  The state survives an [Err]: a Rust function that
    returns early keeps the side effects it has already made. *)
Definition SM (S A : Type) : Type := S → result A * S.

#[global] Instance SM_ret {S} : MRet (SM S) := λ A a s, (Ok a, s).
#[global] Instance SM_bind {S} : MBind (SM S) := λ A B f m s,
  match m s with
  | (Ok a, s') => f a s'
  | (Err e, s') => (Err e, s')
  | (Panic, s') => (Panic, s')
  end.
#[global] Instance SM_fmap {S} : FMap (SM S) := λ A B f m, m ≫= (λ a, mret (f a)).

Definition fail {S A} (e : Errno) : SM S A := λ s, (Err e, s).
Definition panic {S A} : SM S A := λ s, (Panic, s).
Definition gets {S A} (f : S → A) : SM S A := λ s, (Ok (f s), s).
Definition modify {S} (f : S → S) : SM S unit := λ s, (Ok tt, f s).
Definition lift {S A} (r : result A) : SM S A := λ s, (r, s).

(** ** Machine integers *)

Definition u8 (z : Z) : Prop := 0 ≤ z < 256.
Definition u16 (z : Z) : Prop := 0 ≤ z < 65536.
Definition u32 (z : Z) : Prop := 0 ≤ z < 4294967296.
Definition u64 (z : Z) : Prop := 0 ≤ z < 18446744073709551616.

(** The build sets [overflow-checks = false], so [+], [-] and [*] wrap. *)
Definition w8 (z : Z) : Z := z mod 256.
Definition w32 (z : Z) : Z := z mod 4294967296.
Definition w64 (z : Z) : Z := z mod 18446744073709551616.
Definition to_i64 (z : Z) : Z :=
  let u := w64 z in
  if u <? 9223372036854775808 then u else u - 18446744073709551616.

(** [saturating_sub] of an unsigned type. *)
Definition sat_sub (a b : Z) : Z := Z.max 0 (a - b).

(** [div_ceil]. *)
Definition div_ceil (a b : Z) : Z := (a + b - 1) / b.

Definition len {A} (l : list A) : Z := Z.of_nat (length l).

(** ** Byte strings: indices, slices and in-place copies

    [rd a n l] is the [n] bytes at offset [a]; [wr a bs l] overwrites the bytes
    at offset [a] with [bs].  The partial operations below are the Rust ones:
    they panic exactly when the index or range is out of bounds. *)
Definition rd {A} (a n : Z) (l : list A) : list A :=
  take (Z.to_nat n) (drop (Z.to_nat a) l).
Definition wr {A} (a : Z) (bs l : list A) : list A :=
  take (Z.to_nat a) l ++ bs ++ drop (Z.to_nat a + length bs) l.

(** [l[i]] *)
Definition idx {A} (l : list A) (i : Z) : result A :=
  if i <? 0 then Panic else
  match l !! Z.to_nat i with Some x => Ok x | None => Panic end.
(** [l[i] = x] *)
Definition set_idx {A} (l : list A) (i : Z) (x : A) : result (list A) :=
  if (0 <=? i) && (i <? len l) then Ok (<[Z.to_nat i := x]> l) else Panic.
(** [&l[a..b]] *)
Definition slice {A} (l : list A) (a b : Z) : result (list A) :=
  if (0 <=? a) && (a <=? b) && (b <=? len l) then Ok (rd a (b - a) l) else Panic.
(** [l[a..b].copy_from_slice(src)] *)
Definition put {A} (l : list A) (a b : Z) (src : list A) : result (list A) :=
  if (0 <=? a) && (a <=? b) && (b <=? len l) && (len src =? b - a)
  then Ok (wr a src l) else Panic.

Definition zeros (n : Z) : list Z := replicate (Z.to_nat n) 0.

(** The bytes of a text *)
Definition txt (s : string) : list Z := (λ c, Z.of_nat (Ascii.nat_of_ascii c)) <$> String.list_ascii_of_string s.

(** ** Little-endian encodings ([to_le_bytes], [from_le_bytes]) *)
Fixpoint le_bytes (n : nat) (z : Z) : list Z :=
  match n with
  | O => []
  | S n => z mod 256 :: le_bytes n (z / 256)
  end.
Fixpoint le_val (l : list Z) : Z :=
  match l with
  | [] => 0
  | b :: t => b + 256 * le_val t
  end.

(** Big-endian: [to_be_bytes], [from_be_bytes] *)
Definition be_bytes (n : nat) (z : Z) : list Z := reverse (le_bytes n z).
Definition be_val (l : list Z) : Z := le_val (reverse l).

(** ** Automation *)

Create HintDb onyx.

#[export] Hint Unfold u8 u16 u32 u64 : onyx.

(** Reduce a monadic chain whose head is known. *)
Ltac mred :=
  cbv [mbind mret fmap result_bind result_ret result_fmap
       SM_bind SM_ret SM_fmap fail panic gets modify lift] in *.

(** Turn the boolean guards of the code into linear arithmetic. *)
Ltac bool_prop :=
  repeat match goal with
  | H : _ && _ = true |- _ => apply andb_true_iff in H as [? ?]
  | H : _ || _ = false |- _ => apply orb_false_iff in H as [? ?]
  | H : negb _ = true |- _ => apply negb_true_iff in H
  | H : negb _ = false |- _ => apply negb_false_iff in H
  | H : (_ <? _) = true |- _ => apply Z.ltb_lt in H
  | H : (_ <? _) = false |- _ => apply Z.ltb_ge in H
  | H : (_ <=? _) = true |- _ => apply Z.leb_le in H
  | H : (_ <=? _) = false |- _ => apply Z.leb_gt in H
  | H : (_ =? _) = true |- _ => apply Z.eqb_eq in H
  | H : (_ =? _) = false |- _ => apply Z.eqb_neq in H
  end.

(** Case on the first test the goal depends on. *)
Ltac case_if E :=
  match goal with |- context [if ?b then _ else _] => destruct b eqn:E end.
Ltac case_if_in H E :=
  match type of H with context [if ?b then _ else _] => destruct b eqn:E end.

Lemma w64_small z : 0 ≤ z < 18446744073709551616 → w64 z = z.
Proof. apply Z.mod_small. Qed.

Lemma bind_ok {A B} (a : A) (f : A → result B) : (Ok a ≫= f) = f a.
Proof. done. Qed.

Lemma bind_Ok_inv {A B} (r : result A) (f : A → result B) b :
  (r ≫= f) = Ok b → ∃ a, r = Ok a ∧ f a = Ok b.
Proof. destruct r; simpl; try done. eauto. Qed.

Lemma sm_bind_ok {S A B} (m : SM S A) (f : A → SM S B) s a s' :
  m s = (Ok a, s') → (m ≫= f) s = f a s'.
Proof. unfold mbind, SM_bind. by intros ->. Qed.

Lemma sm_bind_err {S A B} (m : SM S A) (f : A → SM S B) s e s' :
  m s = (Err e, s') → (m ≫= f) s = (Err e, s').
Proof. unfold mbind, SM_bind. by intros ->. Qed.

Lemma lift_bind {S A B} (a : A) (f : A → SM S B) s : (lift (Ok a) ≫= f) s = f a s.
Proof. done. Qed.

Lemma gets_bind {S A B} (g : S → A) (f : A → SM S B) s : (gets g ≫= f) s = f (g s) s.
Proof. done. Qed.

Lemma modify_bind {S B} (g : S → S) (f : unit → SM S B) s : (modify g ≫= f) s = f tt (g s).
Proof. done. Qed.

Lemma sm_bind_Ok_inv {S A B} (m : SM S A) (f : A → SM S B) s b s' :
  (m ≫= f) s = (Ok b, s') → ∃ a s1, m s = (Ok a, s1) ∧ f a s1 = (Ok b, s').
Proof. unfold mbind, SM_bind. destruct (m s) as [[a|e|] s1]; try done. eauto. Qed.

(** ** Total-correctness triples for [SM]

    [wp m Q s]: from [s], [m] returns a value (no error, no panic) and [Q] holds
    of the value and the final state. *)
Definition wp {S A} (m : SM S A) (Q : A → S → Prop) (s : S) : Prop :=
  match m s with (Ok a, s') => Q a s' | _ => False end.

Section Wp.
Context {S : Type}.

Lemma wp_bind {A B} (m : SM S A) (f : A → SM S B) Q s :
  wp m (λ a, wp (f a) Q) s → wp (m ≫= f) Q s.
Proof. unfold wp, mbind, SM_bind. by destruct (m s) as [[a|e|] s']. Qed.

Lemma wp_ret {A} (a : A) (Q : A → S → Prop) s : Q a s → wp (mret a) Q s.
Proof. done. Qed.

Lemma wp_gets {A} (f : S → A) (Q : A → S → Prop) s : Q (f s) s → wp (gets f) Q s.
Proof. done. Qed.

Lemma wp_modify (f : S → S) (Q : unit → S → Prop) s : Q tt (f s) → wp (modify f) Q s.
Proof. done. Qed.

Lemma wp_mono {A} (m : SM S A) (P Q : A → S → Prop) s :
  wp m P s → (∀ a s', P a s' → Q a s') → wp m Q s.
Proof. unfold wp. destruct (m s) as [[a|e|] s']; auto. Qed.

Lemma wp_Ok {A} (m : SM S A) (Q : A → S → Prop) s a s' :
  m s = (Ok a, s') → Q a s' → wp m Q s.
Proof. unfold wp. by intros ->. Qed.

Lemma wp_elim {A} (m : SM S A) (Q : A → S → Prop) s :
  wp m Q s → ∃ a s', m s = (Ok a, s') ∧ Q a s'.
Proof. unfold wp. destruct (m s) as [[a|e|] s']; try done. eauto. Qed.
End Wp.

(** ** Effects

    [effect R n m]: whatever [m] answers, the states before and after it are
    related by [R n]; [n] bounds how often something may have happened. *)
Class Graded {S} (R : nat → S → S → Prop) : Prop := {
  graded_refl s : R 0%nat s s;
  graded_trans n k s1 s2 s3 : R n s1 s2 → R k s2 s3 → R (n + k)%nat s1 s3;
  graded_mono n k s1 s2 : (n ≤ k)%nat → R n s1 s2 → R k s1 s2 }.

Definition effect {S} (R : nat → S → S → Prop) (n : nat) {A} (m : SM S A) : Prop := ∀ s, R n s (m s).2.

Section Effect.
Context {S : Type} (R : nat → S → S → Prop) `{!Graded R}.

Lemma effect_pure {A} (m : SM S A) n : (∀ s, (m s).2 = s) → effect R n m.
Proof. intros H s. rewrite H. apply (graded_mono 0); [lia|]. apply graded_refl. Qed.

Lemma effect_ret {A} (a : A) n : effect R n (mret a).
Proof. by apply effect_pure. Qed.
Lemma effect_fail {A} e n : effect R n (fail e : SM S A).
Proof. by apply effect_pure. Qed.
Lemma effect_panic {A} n : effect R n (panic : SM S A).
Proof. by apply effect_pure. Qed.
Lemma effect_gets {A} (f : S → A) n : effect R n (gets f).
Proof. by apply effect_pure. Qed.
Lemma effect_lift {A} (r : result A) n : effect R n (lift r : SM S A).
Proof. by apply effect_pure. Qed.

Lemma effect_mono {A} (m : SM S A) n k : (n ≤ k)%nat → effect R n m → effect R k m.
Proof. intros Hk H s. by apply (graded_mono n). Qed.

Lemma effect_bind {A B} (m : SM S A) (f : A → SM S B) n k :
  effect R n m → (∀ a, effect R k (f a)) → effect R (n + k) (m ≫= f).
Proof.
  intros Hm Hf s. specialize (Hm s). unfold mbind, SM_bind. destruct (m s) as [[a|e|] s']; simpl in *.
  - eapply graded_trans; [exact Hm|apply Hf].
  - eapply graded_mono; [|exact Hm]. lia.
  - eapply graded_mono; [|exact Hm]. lia.
Qed.

(** The first part does not count. *)
Lemma effect_seq {A B} (m : SM S A) (f : A → SM S B) k :
  effect R 0 m → (∀ a, effect R k (f a)) → effect R k (m ≫= f).
Proof. apply (effect_bind m f 0 k). Qed.
Lemma effect_tick {A B} (m : SM S A) (f : A → SM S B) k :
  effect R 1 m → (∀ a, effect R k (f a)) → effect R (Datatypes.S k) (m ≫= f).
Proof. apply (effect_bind m f 1 k). Qed.
End Effect.

Create HintDb effects discriminated.
#[export] Hint Resolve effect_ret effect_fail effect_panic effect_gets effect_lift : effects.

(** Walk through the code of an operation. *)
Ltac effect_step :=
  cbv beta;
  lazymatch goal with
  | |- effect _ _ (match ?x with _ => _ end) => destruct x
  | |- effect _ _ (let _ := _ in _) => cbv zeta
  | |- effect _ _ (_ ≫= _) =>
      apply effect_seq; [apply _|try solve [auto 3 with effects typeclass_instances]|intros ?]
  | |- _ => solve [auto 3 with effects typeclass_instances]
  end.
Ltac effect_tac := repeat effect_step.

(** ** Lists, slices *)

Section Slices.
Context {A : Type}.
Implicit Types (l bs : list A) (a n : Z).

Lemma len_nonneg l : 0 ≤ len l.
Proof. unfold len; lia. Qed.

Lemma len_app l1 l2 : len (l1 ++ l2 : list A) = len l1 + len l2.
Proof. unfold len. rewrite length_app. lia. Qed.

Lemma len_cons x l : len (x :: l) = 1 + len l.
Proof. unfold len. simpl length. lia. Qed.

Lemma len_insert l i x : len (<[i:=x]> l) = len l.
Proof. unfold len. by rewrite length_insert. Qed.

Lemma len_replicate (n : Z) (x : A) : 0 ≤ n → len (replicate (Z.to_nat n) x) = n.
Proof. intros. unfold len. rewrite length_replicate. lia. Qed.

Lemma len_rd a n l : 0 ≤ a → 0 ≤ n → a + n ≤ len l → len (rd a n l) = n.
Proof. unfold len, rd. intros. rewrite length_take, length_drop. lia. Qed.

Lemma len_wr a bs l : 0 ≤ a → a + len bs ≤ len l → len (wr a bs l) = len l.
Proof.
  unfold len, wr. intros. rewrite !length_app, length_take, length_drop. lia.
Qed.

Lemma lookup_rd a n l (i : nat) :
  0 ≤ a → Z.of_nat i < n → rd a n l !! i = l !! (Z.to_nat a + i)%nat.
Proof.
  intros. unfold rd. rewrite lookup_take_lt by lia. by rewrite lookup_drop.
Qed.

Lemma lookup_wr_in a bs l (i : nat) :
  0 ≤ a → a ≤ len l → a ≤ Z.of_nat i < a + len bs →
  wr a bs l !! i = bs !! (i - Z.to_nat a)%nat.
Proof.
  unfold len, wr. intros.
  rewrite lookup_app_r by (rewrite length_take; lia).
  rewrite length_take, lookup_app_l by lia. f_equal. lia.
Qed.

Lemma lookup_wr_lt a bs l (i : nat) :
  a ≤ len l → Z.of_nat i < a → wr a bs l !! i = l !! i.
Proof.
  unfold len, wr. intros. rewrite lookup_app_l by (rewrite length_take; lia).
  rewrite lookup_take_lt by lia. done.
Qed.

Lemma lookup_wr_ge a bs l (i : nat) :
  0 ≤ a → a + len bs ≤ len l → a + len bs ≤ Z.of_nat i →
  wr a bs l !! i = l !! i.
Proof.
  unfold len, wr. intros.
  rewrite lookup_app_r by (rewrite length_take; lia).
  rewrite length_take, lookup_app_r by lia.
  rewrite lookup_drop. f_equal. lia.
Qed.

(** A slice equals another list when it has its length and its elements. *)
Lemma rd_ext a n l bs :
  0 ≤ a → 0 ≤ n → a + n ≤ len l → len bs = n →
  (∀ i : nat, Z.of_nat i < n → l !! (Z.to_nat a + i)%nat = bs !! i) →
  rd a n l = bs.
Proof.
  intros Ha Hn Hl Hb H. apply list_eq. intros i.
  destruct (decide (Z.of_nat i < n)).
  - rewrite lookup_rd by lia. auto.
  - rewrite !lookup_ge_None_2; [done| |].
    + unfold len in Hb. lia.
    + pose proof (len_rd a n l Ha Hn Hl). unfold len in *. lia.
Qed.

Lemma rd_wr_eq a n bs l :
  0 ≤ a → n = len bs → a + n ≤ len l → rd a n (wr a bs l) = bs.
Proof.
  intros Ha -> Hl. pose proof (len_nonneg bs).
  apply rd_ext; [lia..| rewrite len_wr; lia | done |].
  intros i Hi. rewrite lookup_wr_in by lia. f_equal; lia.
Qed.

Lemma rd_wr_ne a n b bs l :
  0 ≤ a → 0 ≤ n → 0 ≤ b → b + len bs ≤ len l → a + n ≤ len l →
  (a + n ≤ b ∨ b + len bs ≤ a) →
  rd a n (wr b bs l) = rd a n l.
Proof.
  intros ? ? ? ? ? Hd. pose proof (len_nonneg bs). apply rd_ext; [lia..| rewrite len_wr; lia | by apply len_rd |].
  intros i Hi. rewrite lookup_rd by lia.
  destruct Hd; [rewrite lookup_wr_lt by lia|rewrite lookup_wr_ge by lia]; done.
Qed.

Lemma rd_all l : rd 0 (len l) l = l.
Proof. unfold rd, len. rewrite drop_0, Nat2Z.id. by rewrite firstn_all. Qed.

Lemma rd_rd a n b m l :
  0 ≤ a → 0 ≤ b → 0 ≤ m → b + m ≤ n → rd b m (rd a n l) = rd (a + b) m l.
Proof.
  intros. unfold rd. rewrite skipn_firstn_comm, take_take, drop_drop.
  f_equal; [lia|]. f_equal. lia.
Qed.

Lemma idx_ok l i x : l !! Z.to_nat i = Some x → 0 ≤ i → idx l i = Ok x.
Proof.
  unfold idx. intros -> ?. rewrite (proj2 (Z.ltb_ge i 0)) by lia. done.
Qed.

Lemma idx_nth l i (d : A) : 0 ≤ i < len l → idx l i = Ok (nth (Z.to_nat i) l d).
Proof.
  intros H. destruct (lookup_lt_is_Some_2 l (Z.to_nat i)) as [x Hx]; [unfold len in H; lia|].
  rewrite (nth_lookup_Some _ _ d _ Hx). unfold idx. rewrite Hx. by rewrite (proj2 (Z.ltb_ge i 0)) by lia.
Qed.

Lemma idx_Some l i : 0 ≤ i < len l → ∃ x, l !! Z.to_nat i = Some x.
Proof. unfold len. intros. apply lookup_lt_is_Some_2. lia. Qed.

Lemma slice_ok l a b : 0 ≤ a → a ≤ b → b ≤ len l → slice l a b = Ok (rd a (b - a) l).
Proof.
  intros. unfold slice.
  rewrite (proj2 (Z.leb_le 0 a)), (proj2 (Z.leb_le a b)), (proj2 (Z.leb_le b (len l)))
    by lia. done.
Qed.

Lemma put_ok l a b src :
  0 ≤ a → a ≤ b → b ≤ len l → len src = b - a → put l a b src = Ok (wr a src l).
Proof.
  intros. unfold put.
  rewrite (proj2 (Z.leb_le 0 a)), (proj2 (Z.leb_le a b)), (proj2 (Z.leb_le b (len l))),
    (proj2 (Z.eqb_eq (len src) (b - a))) by lia. done.
Qed.

Lemma set_idx_ok l i x :
  0 ≤ i < len l → set_idx l i x = Ok (<[Z.to_nat i := x]> l).
Proof.
  intros. unfold set_idx.
  rewrite (proj2 (Z.leb_le 0 i)), (proj2 (Z.ltb_lt i (len l))) by lia. done.
Qed.

(** Writing one element is the one-element case of [wr]. *)
Lemma insert_wr l i x :
  0 ≤ i < len l → <[Z.to_nat i := x]> l = wr i [x] l.
Proof.
  intros H. unfold len in H. rewrite insert_take_drop by lia.
  unfold wr. simpl. do 3 f_equal. lia.
Qed.

(** Two adjacent writes are one. *)
Lemma wr_wr a bs cs l :
  0 ≤ a → a + len bs + len cs ≤ len l →
  wr (a + len bs) cs (wr a bs l) = wr a (bs ++ cs) l.
Proof.
  intros Ha H. pose proof (len_nonneg bs). pose proof (len_nonneg cs).
  assert (len (wr a bs l) = len l) as Hl by (apply len_wr; lia).
  apply list_eq. intros i. pose proof (len_app bs cs) as Happ.
  destruct (decide (Z.of_nat i < a)).
  { rewrite !lookup_wr_lt by lia. done. }
  destruct (decide (Z.of_nat i < a + len bs)).
  { rewrite lookup_wr_lt, !lookup_wr_in by lia.
    rewrite lookup_app_l; [done|]. unfold len in *. lia. }
  destruct (decide (Z.of_nat i < a + len bs + len cs)).
  { rewrite !lookup_wr_in by lia. rewrite lookup_app_r by (unfold len in *; lia).
    f_equal. unfold len in *. lia. }
  rewrite !lookup_wr_ge by lia. done.
Qed.

Lemma wr_nil a l : 0 ≤ a → a ≤ len l → wr a [] l = l.
Proof.
  intros. unfold wr. simpl. rewrite Nat.add_0_r. apply take_drop.
Qed.

(** A one-element write followed by an adjacent one. *)
Lemma wr_cons a x cs l :
  0 ≤ a → a + 1 + len cs ≤ len l → wr (a + 1) cs (wr a [x] l) = wr a (x :: cs) l.
Proof. intros. apply (wr_wr a [x] cs l); [done|]. unfold len at 1. simpl. lia. Qed.

Lemma set_idx_wr l i x : 0 ≤ i < len l → set_idx l i x = Ok (wr i [x] l).
Proof. intros. rewrite set_idx_ok by done. by rewrite insert_wr. Qed.

Lemma idx_drop l i x r : 0 ≤ i → drop (Z.to_nat i) l = x :: r → idx l i = Ok x.
Proof.
  intros Hi H. apply idx_ok; [|done].
  rewrite <- (Nat.add_0_r (Z.to_nat i)), <- lookup_drop, H. done.
Qed.

Lemma drop_cons_lt l i : 0 ≤ i < len l →
  ∃ x r, drop (Z.to_nat i) l = x :: r ∧ drop (Z.to_nat (i + 1)) l = r.
Proof.
  intros H. destruct (idx_Some l i H) as [x Hx].
  exists x, (drop (S (Z.to_nat i)) l). split; [by apply drop_S|].
  f_equal. lia.
Qed.

Lemma drop_ge_nil l i : len l ≤ i → drop (Z.to_nat i) l = [].
Proof. intros. apply drop_ge. unfold len in *. lia. Qed.
End Slices.

Lemma len_zeros n : 0 ≤ n → len (zeros n) = n.
Proof. apply len_replicate. Qed.

(** A boolean fact about every value below a bound, by evaluation. *)
Lemma below_by_eval (P : Z → bool) (n : nat) :
  forallb (λ k, P (Z.of_nat k)) (seq 0 n) = true → ∀ z, 0 ≤ z < Z.of_nat n → P z = true.
Proof.
  intros H z Hz. rewrite forallb_forall in H.
  specialize (H (Z.to_nat z)). rewrite Z2Nat.id in H by lia. apply H.
  apply in_seq. lia.
Qed.

(** ** Bits *)

Lemma land_bit b k : 0 ≤ k → negb (Z.land b (Z.shiftl 1 k) =? 0) = Z.testbit b k.
Proof.
  intros Hk. rewrite Z.shiftl_1_l. destruct (Z.testbit b k) eqn:E.
  - apply negb_true_iff, Z.eqb_neq. intros H0. apply (f_equal (λ z, Z.testbit z k)) in H0.
    rewrite Z.land_spec, E, Z.pow2_bits_true, Z.bits_0 in H0 by done. done.
  - apply negb_false_iff, Z.eqb_eq, Z.bits_inj'. intros j Hj.
    rewrite Z.land_spec, Z.pow2_bits_eqb, Z.bits_0 by done.
    destruct (Z.eqb_spec k j) as [->|]; [by rewrite E|apply andb_false_r].
Qed.

Lemma testbit_high b n k : 0 ≤ b < 2 ^ n → 0 ≤ n ≤ k → Z.testbit b k = false.
Proof.
  intros Hb Hk. rewrite <- (Z.mod_small b (2 ^ n)) by done.
  apply Z.mod_pow2_bits_high. lia.
Qed.

Lemma land_mul_pow2_low a b n : 0 ≤ n → 0 ≤ b < 2 ^ n → Z.land (a * 2 ^ n) b = 0.
Proof.
  intros Hn Hb. apply Z.bits_inj'. intros k Hk. rewrite Z.land_spec, Z.bits_0.
  destruct (Z.lt_ge_cases k n).
  - by rewrite Z.mul_pow2_bits_low.
  - rewrite (testbit_high b n k) by lia. apply andb_false_r.
Qed.

(** A shifted value and a low field do not overlap: [|] is [+]. *)
Lemma lor_mul_pow2 a b n : 0 ≤ n → 0 ≤ b < 2 ^ n → Z.lor (a * 2 ^ n) b = a * 2 ^ n + b.
Proof.
  intros Hn Hb. pose proof (Z.add_lor_land (a * 2 ^ n) b) as H.
  rewrite land_mul_pow2_low in H by done. lia.
Qed.

(** [x & !(2^n - 1)] rounds down to a multiple of [2^n]. *)
Lemma land_align_mask x n :
  0 ≤ n ≤ 64 → u64 x → Z.land x (Z.shiftl (Z.ones (64 - n)) n) = x - x mod 2 ^ n.
Proof.
  intros Hn Hx. transitivity (Z.shiftl (Z.shiftr x n) n).
  - apply Z.bits_inj'. intros j Hj. rewrite Z.land_spec, !Z.shiftl_spec by done.
    destruct (Z.le_gt_cases n j) as [Hle|Hgt].
    + rewrite Z.shiftr_spec by lia. replace (j - n + n) with j by lia.
      destruct (Z.le_gt_cases 64 j) as [Hj'|Hj'].
      * by rewrite (testbit_high x 64 j) by (unfold u64 in Hx; lia).
      * rewrite Z.ones_spec_low by lia. apply andb_true_r.
    + rewrite !(Z.testbit_neg_r _ (j - n)) by lia. apply andb_false_r.
  - rewrite Z.shiftl_mul_pow2, Z.shiftr_div_pow2 by lia.
    pose proof (Z.div_mod x (2 ^ n)). lia.
Qed.

(** [x & !(PAGE_SIZE - 1)] rounds down to a page. *)
Lemma land_page_mask x : u64 x → Z.land x (18446744073709551615 - 4095) = x - x mod 4096.
Proof. intros Hx. apply (land_align_mask x 12); [lia|done]. Qed.

(** ** Lists of lists: one member and the [others] *)

Definition others {A} (h : nat) (Q : list (list A)) : list A := concat (<[h := []]> Q).

Lemma concat_insert_perm {A} (Q : list (list A)) h q' :
  (h < length Q)%nat → concat (<[h := q']> Q) ≡ₚ q' ++ others h Q.
Proof.
  intros H. unfold others. revert h H. induction Q as [|q Q IH]; intros [|h] H; simpl in *; try lia.
  - done.
  - rewrite IH by lia. by rewrite !app_assoc, (Permutation_app_comm q q').
Qed.

Lemma concat_perm {A} (Q : list (list A)) h q :
  Q !! h = Some q → concat Q ≡ₚ q ++ others h Q.
Proof.
  intros H. rewrite <- (concat_insert_perm Q h q) by (by eapply lookup_lt_Some).
  by rewrite list_insert_id.
Qed.

Lemma elem_of_others {A} (Q : list (list A)) h j q p :
  Q !! j = Some q → j ≠ h → p ∈ q → p ∈ others h Q.
Proof.
  intros Hj Hne Hp. unfold others.
  apply list_elem_of_In, in_concat. exists q. split; [|by apply list_elem_of_In].
  apply list_elem_of_In, (list_elem_of_lookup_2 _ j). by rewrite list_lookup_insert_ne.
Qed.

Lemma concat_elem {A} (Fs : list (list A)) i Fi x : Fs !! i = Some Fi → x ∈ Fi → x ∈ concat Fs.
Proof.
  intros Hi Hx. rewrite (concat_perm _ _ _ Hi). apply elem_of_app. by left.
Qed.

(** ** Little-endian round trips *)

Lemma length_le_bytes n z : length (le_bytes n z) = n.
Proof. revert z. induction n; simpl; intros; auto. Qed.

Lemma len_le_bytes n z : len (le_bytes n z) = Z.of_nat n.
Proof. unfold len. by rewrite length_le_bytes. Qed.

Lemma le_val_le_bytes n z : le_val (le_bytes n z) = z mod 256 ^ Z.of_nat n.
Proof.
  revert z. induction n as [|n IH]; intros z; simpl le_val.
  - by rewrite Z.mod_1_r.
  - rewrite IH, Nat2Z.inj_succ, Z.pow_succ_r by lia.
    rewrite Z.rem_mul_r by (try apply Z.pow_pos_nonneg; lia). lia.
Qed.

Lemma le_val_bytes_id n z : 0 ≤ z < 256 ^ Z.of_nat n → le_val (le_bytes n z) = z.
Proof. intros. rewrite le_val_le_bytes. by apply Z.mod_small. Qed.

Lemma le_bytes_u8 n z : Forall u8 (le_bytes n z).
Proof.
  revert z. induction n; simpl; intros; constructor; auto.
  unfold u8. apply Z.mod_pos_bound. lia.
Qed.

Lemma le_bytes_val l : Forall u8 l → le_bytes (length l) (le_val l) = l.
Proof.
  induction 1 as [|b l Hb Hl IH]; simpl; [done|]. unfold u8 in Hb. f_equal.
  - rewrite Z.mul_comm, Z_mod_plus_full. apply Z.mod_small. lia.
  - rewrite Z.mul_comm, Z.div_add, (Z.div_small b), Z.add_0_l by lia. done.
Qed.

Lemma le_val_bound l : Forall u8 l → 0 ≤ le_val l < 256 ^ len l.
Proof.
  unfold len. induction 1 as [|b l Hb Hl IH]; [simpl; lia|].
  simpl length. simpl le_val. rewrite Nat2Z.inj_succ, Z.pow_succ_r by lia.
  unfold u8 in Hb. lia.
Qed.

Lemma rd_app_l {A} a n (l1 l2 : list A) : 0 ≤ a → 0 ≤ n → a + n ≤ len l1 → rd a n (l1 ++ l2) = rd a n l1.
Proof.
  intros Ha Hn Hl. unfold rd, len in *. rewrite drop_app_le by lia. rewrite take_app_le; [done|].
  rewrite length_drop. lia.
Qed.

Lemma rd_app_r {A} a n (l1 l2 : list A) : len l1 ≤ a → rd a n (l1 ++ l2) = rd (a - len l1) n l2.
Proof.
  intros Ha. unfold rd, len in *. rewrite drop_app_ge by lia. do 2 f_equal. lia.
Qed.

Lemma rd_middle {A} (a b c : list A) n m : n = len a → m = len b → rd n m (a ++ b ++ c) = b.
Proof.
  intros -> ->. unfold rd, len. rewrite !Nat2Z.id, drop_app_length. apply take_app_length.
Qed.

Lemma Forall_rd {A} (P : A → Prop) a n l : Forall P l → Forall P (rd a n l).
Proof. intros. unfold rd. by apply Forall_take, Forall_drop. Qed.

Lemma Forall_wr {A} (P : A → Prop) a bs l :
  Forall P l → Forall P bs → Forall P (wr a bs l).
Proof.
  intros. unfold wr. apply Forall_app; split; [by apply Forall_take|].
  apply Forall_app; split; [done|by apply Forall_drop].
Qed.

Lemma Forall_zeros n : Forall u8 (zeros n).
Proof. unfold zeros. apply Forall_replicate. unfold u8; lia. Qed.

#[export] Hint Resolve len_nonneg le_bytes_u8 Forall_zeros Forall_rd Forall_wr : onyx.

#[global] Arguments le_bytes : simpl never.
#[global] Arguments le_val : simpl never.
#[global] Arguments zeros : simpl never.
