(* ===== verification/Parser.v ===== *)
(** * core/src/parser.rs: fixed-width reads and the bounds-checked [Cursor]

    [le32] .. [be64] read the first bytes of a slice and panic when it is too
    short.  A [Cursor] walks a byte slice; every read returns [None] at the end
    of the data and leaves the position where it was.  The refinement theorem
    views a cursor as the list of bytes it has not consumed yet. *)

From S2P Require Import Prelude.
From stdpp Require Import base list numbers.
From Stdlib Require Import ZArith Lia.

Open Scope Z_scope.

(** ** Fixed-width reads *)

Definition le32 (p : list Z) : result Z :=
  b0 ← idx p 0; b1 ← idx p 1; b2 ← idx p 2; b3 ← idx p 3;
  mret (le_val [b0; b1; b2; b3]).

Definition le64 (p : list Z) : result Z :=
  b0 ← idx p 0; b1 ← idx p 1; b2 ← idx p 2; b3 ← idx p 3;
  b4 ← idx p 4; b5 ← idx p 5; b6 ← idx p 6; b7 ← idx p 7;
  mret (le_val [b0; b1; b2; b3; b4; b5; b6; b7]).

Definition be32 (p : list Z) : result Z :=
  b0 ← idx p 0; b1 ← idx p 1; b2 ← idx p 2; b3 ← idx p 3;
  mret (le_val (reverse [b0; b1; b2; b3])).

Definition be64 (p : list Z) : result Z :=
  b0 ← idx p 0; b1 ← idx p 1; b2 ← idx p 2; b3 ← idx p 3;
  b4 ← idx p 4; b5 ← idx p 5; b6 ← idx p 6; b7 ← idx p 7;
  mret (le_val (reverse [b0; b1; b2; b3; b4; b5; b6; b7])).

(** ** The cursor *)

Module Cursor.

Record Cursor := mkCursor { buf : list Z; pos : Z }.

Definition new (b : list Z) : Cursor := mkCursor b 0.

Definition remaining (c : Cursor) : Z := sat_sub (len (buf c)) (pos c).

Definition eof (c : Cursor) : bool := len (buf c) <=? pos c.

Definition read_u8 (c : Cursor) : option Z * Cursor :=
  match (if pos c <? 0 then None else buf c !! Z.to_nat (pos c)) with
  | None => (None, c)
  | Some v => (Some v, mkCursor (buf c) (w64 (pos c + 1)))
  end.

(** The common shape of [read_le32] .. [read_be64]: [n] bytes decoded by [dec]. *)
Definition read_fixed (n : Z) (dec : list Z → result Z) (c : Cursor)
  : result (option Z * Cursor) :=
  if len (buf c) <? w64 (pos c + n) then mret (None, c)
  else
    s ← slice (buf c) (pos c) (len (buf c));
    v ← dec s;
    mret (Some v, mkCursor (buf c) (w64 (pos c + n))).

Definition read_le32 := read_fixed 4 le32.
Definition read_le64 := read_fixed 8 le64.
Definition read_be32 := read_fixed 4 be32.
Definition read_be64 := read_fixed 8 be64.

Definition read_bytes (n : Z) (c : Cursor) : result (option (list Z) * Cursor) :=
  if len (buf c) <? w64 (pos c + n) then mret (None, c)
  else
    s ← slice (buf c) (pos c) (w64 (pos c + n));
    mret (Some s, mkCursor (buf c) (w64 (pos c + n))).

Definition skip (n : Z) (c : Cursor) : option () * Cursor :=
  if len (buf c) <? w64 (pos c + n) then (None, c)
  else (Some (), mkCursor (buf c) (w64 (pos c + n))).

(** ** Specification: a cursor is a stream of unread bytes *)

(** A slice holds at most [isize::MAX] bytes. *)
Definition ISIZE_MAX : Z := 9223372036854775807.

Definition wf (c : Cursor) : Prop :=
  0 ≤ pos c ≤ len (buf c) ∧ len (buf c) ≤ ISIZE_MAX.

Definition rest (c : Cursor) : list Z := drop (Z.to_nat (pos c)) (buf c).

(** The operations a client performs. *)
Inductive op :=
  | ReadU8 | ReadLe32 | ReadLe64 | ReadBe32 | ReadBe64
  | ReadBytes (n : Z) | Skip (n : Z).

(** What an operation returns: the bytes it consumed, or [None]. *)
Definition run (o : op) (c : Cursor) : result (option (list Z) * Cursor) :=
  let one r := match r with (ov, c') => (option_map (λ v : Z, [v]) ov, c') end in
  match o with
  | ReadU8 => mret (one (read_u8 c))
  | ReadLe32 => one <$> read_le32 c
  | ReadLe64 => one <$> read_le64 c
  | ReadBe32 => one <$> read_be32 c
  | ReadBe64 => one <$> read_be64 c
  | ReadBytes n => read_bytes n c
  | Skip n => mret (match skip n c with (ov, c') => (option_map (λ _, []) ov, c') end)
  end.

(** Bytes consumed, and how they are decoded. *)
Definition width (o : op) : Z :=
  match o with
  | ReadU8 => 1 | ReadLe32 | ReadBe32 => 4 | ReadLe64 | ReadBe64 => 8
  | ReadBytes n | Skip n => n
  end.

Definition decode (o : op) (bs : list Z) : list Z :=
  match o with
  | ReadU8 | ReadBytes _ => bs
  | ReadLe32 | ReadLe64 => [le_val bs]
  | ReadBe32 | ReadBe64 => [le_val (reverse bs)]
  | Skip _ => []
  end.

(** The abstract machine: take [width o] bytes off the stream, or refuse. *)
Definition spec (o : op) (s : list Z) : option (list Z) * list Z :=
  if len s <? width o then (None, s)
  else (Some (decode o (take (Z.to_nat (width o)) s)), drop (Z.to_nat (width o)) s).

End Cursor.

(** ** Lemmas *)

Lemma idx_cons0 {A} (x : A) l : idx (x :: l) 0 = Ok x.
Proof. done. Qed.

Lemma idx_consS {A} (x : A) l i : 0 < i → idx (x :: l) i = idx l (i - 1).
Proof.
  intros. unfold idx. rewrite !(proj2 (Z.ltb_ge _ 0)) by lia.
  replace (Z.to_nat i) with (S (Z.to_nat (i - 1))) by lia. done.
Qed.

(** The reads succeed exactly when the slice is long enough, and then decode
    its first bytes. *)
Lemma le32_ok p : 4 ≤ len p → le32 p = Ok (le_val (take 4 p)).
Proof.
  intros H. do 4 (destruct p as [|? p]; [unfold len in H; simpl in H; lia|]). done.
Qed.

Lemma le64_ok p : 8 ≤ len p → le64 p = Ok (le_val (take 8 p)).
Proof.
  intros H. do 8 (destruct p as [|? p]; [unfold len in H; simpl in H; lia|]). done.
Qed.

Lemma be32_ok p : 4 ≤ len p → be32 p = Ok (le_val (reverse (take 4 p))).
Proof.
  intros H. do 4 (destruct p as [|? p]; [unfold len in H; simpl in H; lia|]). done.
Qed.

Lemma be64_ok p : 8 ≤ len p → be64 p = Ok (le_val (reverse (take 8 p))).
Proof.
  intros H. do 8 (destruct p as [|? p]; [unfold len in H; simpl in H; lia|]). done.
Qed.


Module CursorFacts.
Import Cursor.

Lemma len_rest c : wf c → len (rest c) = len (buf c) - pos c.
Proof. unfold wf, rest, len. intros. rewrite length_drop. lia. Qed.

Lemma rest_advance c n :
  wf c → 0 ≤ n → n ≤ len (rest c) →
  wf (mkCursor (buf c) (pos c + n)) ∧
  rest (mkCursor (buf c) (pos c + n)) = drop (Z.to_nat n) (rest c).
Proof.
  intros Hwf Hn Hle. rewrite len_rest in Hle by done. unfold wf in *. simpl.
  split; [lia|]. unfold rest; simpl. rewrite drop_drop. f_equal. lia.
Qed.

Lemma read_fixed_spec n dec f c :
  wf c → 0 ≤ n ≤ 8 →
  (∀ p, n ≤ len p → dec p = Ok (f (take (Z.to_nat n) p))) →
  read_fixed n dec c =
    Ok (if len (rest c) <? n then (None, c)
        else (Some (f (take (Z.to_nat n) (rest c))), mkCursor (buf c) (pos c + n))).
Proof.
  intros Hwf Hn Hdec. unfold read_fixed.
  pose proof (len_rest c Hwf) as Hr. unfold wf, ISIZE_MAX in Hwf.
  rewrite w64_small by (unfold u64; lia). rewrite Hr.
  replace (len (buf c) <? pos c + n) with (len (buf c) - pos c <? n)
    by (destruct (Z.ltb_spec (len (buf c) - pos c) n), (Z.ltb_spec (len (buf c)) (pos c + n)); lia).
  case_if E; bool_prop; [done|].
  rewrite slice_ok by lia. mred. fold (rest c).
  assert (rd (pos c) (len (buf c) - pos c) (buf c) = rest c) as ->.
  { unfold rd, rest. apply take_ge. rewrite length_drop. unfold len. lia. }
  rewrite Hdec by lia. done.
Qed.

End CursorFacts.

Module CursorProps.
Import Cursor CursorFacts.

(** Both sides of the refinement on the branch that has enough bytes. *)
Definition refines_at (o : op) (c : Cursor) : Prop :=
  ∃ c', run o c = Ok ((spec o (rest c)).1, c') ∧ wf c' ∧
        buf c' = buf c ∧ rest c' = (spec o (rest c)).2.

Lemma refines_fixed o n dec f c :
  wf c → 0 ≤ n ≤ 8 → width o = n →
  (∀ p, n ≤ len p → dec p = Ok (f (take (Z.to_nat n) p))) →
  (∀ bs, decode o bs = [f bs]) →
  run o c = (λ r : option Z * Cursor, (option_map (λ v, [v]) r.1, r.2)) <$> read_fixed n dec c →
  refines_at o c.
Proof.
  intros Hwf Hn Hw Hdec Hd Hrun. unfold refines_at. rewrite Hrun.
  rewrite (read_fixed_spec n dec f c Hwf Hn Hdec). unfold spec. rewrite Hw.
  destruct (len (rest c) <? n) eqn:E; mred; simpl; [eauto|]. bool_prop.
  pose proof (rest_advance c n Hwf) as [? ?]; [lia..|].
  eexists. rewrite Hd. eauto.
Qed.

Lemma refines_u8 c : wf c → refines_at ReadU8 c.
Proof.
  intros Hwf. unfold refines_at, run, read_u8, spec; simpl.
  pose proof (len_rest c Hwf) as Hr.
  destruct Hwf as [Hp Hb]. rewrite (proj2 (Z.ltb_ge _ 0)) by lia.
  assert (buf c !! Z.to_nat (pos c) = rest c !! 0%nat) as ->.
  { unfold rest. rewrite lookup_drop. f_equal. lia. }
  destruct (rest c) as [|b r] eqn:E; simpl.
  - exists c. repeat split; try lia. done.
  - rewrite len_cons in *. pose proof (len_nonneg r).
    rewrite (proj2 (Z.ltb_ge _ _)) by lia. simpl. unfold ISIZE_MAX in Hb.
    rewrite w64_small by (unfold u64; lia).
    destruct (rest_advance c 1) as [? Ha]; [done|lia|rewrite E, len_cons; lia|].
    eexists. split; [done|]. rewrite Ha, E. done.
Qed.

Lemma length_guard (c : Cursor) n :
  wf c → 0 ≤ n ≤ ISIZE_MAX →
  w64 (pos c + n) = pos c + n ∧
  (len (buf c) <? pos c + n) = (len (rest c) <? n).
Proof.
  intros Hwf Hn. pose proof (len_rest c Hwf) as Hr. unfold wf, ISIZE_MAX in *.
  split; [apply w64_small; unfold u64; lia|]. rewrite Hr.
  destruct (Z.ltb_spec (len (buf c) - pos c) n), (Z.ltb_spec (len (buf c)) (pos c + n)); lia.
Qed.

Lemma refines_bytes n c : wf c → 0 ≤ n ≤ ISIZE_MAX → refines_at (ReadBytes n) c.
Proof.
  intros Hwf Hn. destruct (length_guard c n Hwf Hn) as [Hw Hg].
  unfold refines_at, run, read_bytes, spec; simpl. rewrite Hw, Hg.
  destruct (len (rest c) <? n) eqn:E; mred; simpl; [eauto|]. bool_prop.
  destruct (rest_advance c n Hwf) as [Hwf' Hr']; [lia..|].
  rewrite len_rest in E by done.
  rewrite slice_ok by (unfold wf in Hwf; lia). simpl.
  eexists. split; [|eauto]. do 3 f_equal. unfold rd, rest. f_equal. lia.
Qed.

Lemma refines_skip n c : wf c → 0 ≤ n ≤ ISIZE_MAX → refines_at (Skip n) c.
Proof.
  intros Hwf Hn. destruct (length_guard c n Hwf Hn) as [Hw Hg].
  unfold refines_at, run, skip, spec; simpl. rewrite Hw, Hg.
  destruct (len (rest c) <? n) eqn:E; mred; simpl; [eauto|]. bool_prop.
  destruct (rest_advance c n Hwf) as [Hwf' Hr']; [lia..|]. eauto.
Qed.

(** C37. A [Cursor] refines a stream of unread bytes: on a well-formed cursor
    every operation whose length does not exceed [isize::MAX] returns without
    a panic what the stream machine returns (the decoded next bytes, or [None]
    without moving when too few are left), consumes exactly those bytes, and
    leaves a well-formed cursor on the same buffer. (Longer lengths are not safe:
    [cursor_length_wraps].) *)
Theorem cursor_refines_stream (o : op) (c : Cursor) :
  wf c → 0 ≤ width o ≤ ISIZE_MAX →
  ∃ c', run o c = Ok ((spec o (rest c)).1, c') ∧ wf c' ∧
        buf c' = buf c ∧ rest c' = (spec o (rest c)).2.
Proof.
  intros Hwf Hw. change (refines_at o c).
  destruct o as [| | | | | n | n].
  - by apply refines_u8.
  - apply (refines_fixed ReadLe32 4 le32 le_val); try done; [apply le32_ok|].
    unfold run, read_le32. by destruct (read_fixed _ _ c) as [[]| |].
  - apply (refines_fixed ReadLe64 8 le64 le_val); try done; [apply le64_ok|].
    unfold run, read_le64. by destruct (read_fixed _ _ c) as [[]| |].
  - apply (refines_fixed ReadBe32 4 be32 (λ bs, le_val (reverse bs))); try done; [apply be32_ok|].
    unfold run, read_be32. by destruct (read_fixed _ _ c) as [[]| |].
  - apply (refines_fixed ReadBe64 8 be64 (λ bs, le_val (reverse bs))); try done; [apply be64_ok|].
    unfold run, read_be64. by destruct (read_fixed _ _ c) as [[]| |].
  - by apply refines_bytes.
  - by apply refines_skip.
Qed.

Lemma cursor_refines_stream_witness :
  ∃ c', run ReadLe32 (mkCursor [0; 1; 2; 3; 4] 1) = Ok (Some [67305985], c') ∧ rest c' = [].
Proof.
  destruct (cursor_refines_stream ReadLe32 (mkCursor [0; 1; 2; 3; 4] 1))
    as (c' & Hr & _ & _ & Hs); [repeat split; vm_compute; discriminate|split; vm_compute; discriminate|].
  exists c'. split; [exact Hr|exact Hs].
Defined.

(** The length checks of [skip] and [read_bytes] use wrapping addition: at
    position [p > 0] a length that wraps past [usize::MAX] passes the check,
    so [skip] reports success while it moves the cursor backwards, and
    [read_bytes] panics on an inverted range. *)
Theorem cursor_length_wraps (b : list Z) (p n : Z) :
  0 < p ≤ len b → len b ≤ ISIZE_MAX → 2 ^ 64 - p ≤ n < 2 ^ 64 →
  skip n (mkCursor b p) = (Some (), mkCursor b (p + n - 2 ^ 64)) ∧
  p + n - 2 ^ 64 < p ∧
  read_bytes n (mkCursor b p) = Panic.
Proof.
  intros Hp Hb Hn. unfold ISIZE_MAX in Hb.
  assert (w64 (p + n) = p + n - 2 ^ 64) as E.
  { unfold w64. symmetry. apply (Z.mod_unique _ _ 1); lia. }
  unfold skip, read_bytes; simpl. rewrite E, (proj2 (Z.ltb_ge _ _)) by lia.
  split; [done|]. split; [lia|]. unfold slice.
  rewrite (proj2 (Z.leb_gt p _)) by lia. rewrite andb_false_r. done.
Qed.

Lemma cursor_length_wraps_witness :
  skip (2 ^ 64 - 1) (mkCursor [7; 8; 9] 2) = (Some (), mkCursor [7; 8; 9] 1).
Proof.
  destruct (cursor_length_wraps [7; 8; 9] 2 (2 ^ 64 - 1)) as [H _];
    [vm_compute; split; [done|discriminate]|vm_compute; discriminate|lia|exact H].
Defined.

End CursorProps.
