(* ===== verification/Formats.v ===== *)
(** * core/src/formats: the on-disk and executable formats

    OnyxExec headers and segments ([header.rs], [segment.rs]), the OnyxFS
    superblock, inode and directory entry ([onyxfs_fmt/]), snapshot metadata
    ([snapshot.rs]) and the FAT32 parameter block with the 8.3 names
    ([misc.rs]).  Readers return [Ok None] for the [Option::None] of the source
    and [Panic] where an index or slice is out of range; writers fill a zeroed
    buffer with a sequence of [copy_from_slice] calls. *)

From S2P Require Import Prelude Parser.
From stdpp Require Import base list numbers.
From Stdlib Require Import ZArith Lia.

Open Scope Z_scope.

(** ** Sequences of [b[a..e].copy_from_slice(src)] *)

Fixpoint puts (fs : list (Z * Z * list Z)) (b : list Z) : result (list Z) :=
  match fs with
  | [] => mret b
  | (a, e, src) :: fs => b ← put b a e src; puts fs b
  end.

(** [le32(&buf[a..e])], [le64(&buf[a..e])] *)
Definition le32_at (b : list Z) (a e : Z) : result Z := s ← slice b a e; le32 s.
Definition le64_at (b : list Z) (a e : Z) : result Z := s ← slice b a e; le64 s.

(** ** OnyxExec segments *)

Definition ONX_MAX_SEGS : Z := 256.

Record OnxSegment := mkOnxSegment {
  seg_vaddr : Z; seg_filesz : Z; seg_memsz : Z; seg_offset : Z; seg_flags : Z;
  seg_align : Z; seg_reserved : Z; seg_compressed_size : Z }.

Definition SEG_SIZE_V1 : Z := 40.
Definition SEG_SIZE_V2 : Z := 48.

Definition seg_from_bytes_v1 (buf : list Z) : result (option OnxSegment) :=
  if len buf <? SEG_SIZE_V1 then mret None else
  vaddr ← le64_at buf 0 8; filesz ← le64_at buf 8 16; memsz ← le64_at buf 16 24;
  offset ← le32_at buf 24 28; flags ← le32_at buf 28 32; align ← le32_at buf 32 36;
  reserved ← le32_at buf 36 40;
  mret (Some (mkOnxSegment vaddr filesz memsz offset flags align reserved 0)).

Definition seg_from_bytes_v2 (buf : list Z) : result (option OnxSegment) :=
  if len buf <? SEG_SIZE_V2 then mret None else
  vaddr ← le64_at buf 0 8; filesz ← le64_at buf 8 16; memsz ← le64_at buf 16 24;
  offset ← le32_at buf 24 28; flags ← le32_at buf 28 32; align ← le32_at buf 32 36;
  reserved ← le32_at buf 36 40; compressed_size ← le32_at buf 40 44;
  mret (Some (mkOnxSegment vaddr filesz memsz offset flags align reserved compressed_size)).

Definition seg_fields (s : OnxSegment) : list (Z * Z * list Z) :=
  [(0, 8, le_bytes 8 (seg_vaddr s)); (8, 16, le_bytes 8 (seg_filesz s));
   (16, 24, le_bytes 8 (seg_memsz s)); (24, 28, le_bytes 4 (seg_offset s));
   (28, 32, le_bytes 4 (seg_flags s)); (32, 36, le_bytes 4 (seg_align s));
   (36, 40, le_bytes 4 (seg_reserved s))].

Definition seg_to_bytes_v1 (s : OnxSegment) : result (list Z) :=
  puts (seg_fields s) (zeros 40).

Definition seg_to_bytes_v2 (s : OnxSegment) : result (list Z) :=
  puts (seg_fields s ++ [(40, 44, le_bytes 4 (seg_compressed_size s))]) (zeros 48).

(** ** OnyxExec headers *)

Definition ONX_MAGIC : Z := 0x31584E4F.
Definition ONX_FLAGS_RING1 : Z := 0x2.
Definition ONX_FLAGS_COMPRESSED : Z := 0x4.

Record OnxHeader := mkOnxHeader {
  onx_magic : Z; onx_version : Z; onx_entry : Z; onx_nsegs : Z; onx_flags : Z;
  onx_segs : list OnxSegment }.

Definition V1_HEADER_SIZE : Z := 344.
Definition V2_HEADER_SIZE : Z := 32.

(** [for i in i0..i0+n { segs.push(parse(&buf[base+i*size..base+(i+1)*size])?) }] *)
Fixpoint read_segs (parse : list Z → result (option OnxSegment)) (base size : Z)
    (buf : list Z) (i : Z) (n : nat) (segs : list OnxSegment)
    : result (option (list OnxSegment)) :=
  match n with
  | O => mret (Some segs)
  | S n =>
      let off := base + i * size in
      s ← slice buf off (off + size);
      o ← parse s;
      match o with
      | None => mret None
      | Some seg => read_segs parse base size buf (i + 1) n (segs ++ [seg])
      end
  end.

Definition onx_from_bytes (buf : list Z) : result (option OnxHeader) :=
  if len buf <? 24 then mret None else
  magic ← le32_at buf 0 4;
  if negb (magic =? ONX_MAGIC) then mret None else
  version ← le32_at buf 4 8;
  entry ← le64_at buf 8 16;
  nsegs ← le32_at buf 16 20;
  flags ← le32_at buf 20 24;
  if version =? 1 then
    if len buf <? V1_HEADER_SIZE then mret None else
    if 8 <? nsegs then mret None else
    segs ← read_segs seg_from_bytes_v1 24 SEG_SIZE_V1 buf 0 (Z.to_nat nsegs) [];
    mret (option_map (mkOnxHeader magic version entry nsegs flags) segs)
  else if version =? 2 then
    if len buf <? V2_HEADER_SIZE then mret None else
    if ONX_MAX_SEGS <? nsegs then mret None else
    let seg_table_offset := V2_HEADER_SIZE in
    let seg_table_size := nsegs * SEG_SIZE_V2 in
    if len buf <? seg_table_offset + seg_table_size then mret None else
    segs ← read_segs seg_from_bytes_v2 seg_table_offset SEG_SIZE_V2 buf 0 (Z.to_nat nsegs) [];
    mret (option_map (mkOnxHeader magic version entry nsegs flags) segs)
  else mret None.

(** [for (i, s) in segs.iter().enumerate() { b[off..off+size].copy_from_slice(..) }] *)
Fixpoint write_segs (ser : OnxSegment → result (list Z)) (base size : Z) (i : Z)
    (segs : list OnxSegment) (b : list Z) : result (list Z) :=
  match segs with
  | [] => mret b
  | s :: segs =>
      let off := base + i * size in
      sb ← ser s;
      b ← put b off (off + size) sb;
      write_segs ser base size (i + 1) segs b
  end.

Definition onx_fields (h : OnxHeader) (version : Z) : list (Z * Z * list Z) :=
  [(0, 4, le_bytes 4 (onx_magic h)); (4, 8, le_bytes 4 version);
   (8, 16, le_bytes 8 (onx_entry h)); (16, 20, le_bytes 4 (onx_nsegs h));
   (20, 24, le_bytes 4 (onx_flags h))].

Definition onx_to_bytes_v1 (h : OnxHeader) : result (list Z) :=
  b ← puts (onx_fields h 1) (zeros V1_HEADER_SIZE);
  write_segs seg_to_bytes_v1 24 SEG_SIZE_V1 0 (take 8 (onx_segs h)) b.

Definition onx_to_bytes_v2 (h : OnxHeader) : result (list Z) :=
  let total := V2_HEADER_SIZE + onx_nsegs h * SEG_SIZE_V2 in
  b ← puts (onx_fields h 2) (zeros total);
  write_segs seg_to_bytes_v2 V2_HEADER_SIZE SEG_SIZE_V2 0 (onx_segs h) b.

(** ** OnyxFS superblock *)

Definition ONYFS_MAGIC : Z := 0x32594E4F.
Definition ONYFS_MAGIC_V1 : Z := 0x31594E4F.
Definition ONYFS_BLOCK_SIZE : Z := 4096.
Definition ONYFS_NAME_MAX : Z := 32.
Definition ONYFS_DIRECT_BLKS : Z := 10.
Definition ONYFS_ROOT_INO : Z := 1.
Definition ONYFS_DT_REG : Z := 33261.  (* 0o100755 *)
Definition ONYFS_DT_DIR : Z := 16877.  (* 0o040755 *)
Definition ONYFS_FEAT_SNAPSHOTS : Z := 2.

Record OnyfsSuper := mkOnyfsSuper {
  sb_magic : Z; sb_version : Z; sb_block_size : Z; sb_total_blocks : Z;
  sb_inode_count : Z; sb_inode_table_start : Z; sb_data_bitmap_start : Z;
  sb_data_blocks_start : Z; sb_root_inode : Z; sb_snapshot_area_start : Z;
  sb_snapshot_count : Z; sb_journal_start : Z; sb_journal_size : Z;
  sb_feature_flags : Z; sb_creation_time : Z; sb_last_mount_time : Z;
  sb_reserved : list Z }.

Definition SUPER_SIZE : Z := 128.

Definition super_from_bytes (buf : list Z) : result (option OnyfsSuper) :=
  if len buf <? SUPER_SIZE then mret None else
  magic ← le32_at buf 0 4;
  if negb (magic =? ONYFS_MAGIC) && negb (magic =? ONYFS_MAGIC_V1) then mret None else
  version ← le32_at buf 4 8; block_size ← le32_at buf 8 12;
  total_blocks ← le32_at buf 12 16; inode_count ← le32_at buf 16 20;
  inode_table_start ← le32_at buf 20 24; data_bitmap_start ← le32_at buf 24 28;
  data_blocks_start ← le32_at buf 28 32; root_inode ← le32_at buf 32 36;
  snapshot_area_start ← le32_at buf 36 40; snapshot_count ← le32_at buf 40 44;
  journal_start ← le32_at buf 44 48; journal_size ← le32_at buf 48 52;
  feature_flags ← le32_at buf 52 56; creation_time ← le64_at buf 56 64;
  last_mount_time ← le64_at buf 64 72;
  mret (Some (mkOnyfsSuper magic version block_size total_blocks inode_count
    inode_table_start data_bitmap_start data_blocks_start root_inode
    snapshot_area_start snapshot_count journal_start journal_size feature_flags
    creation_time last_mount_time (replicate 10 0))).

Definition super_to_bytes (s : OnyfsSuper) : result (list Z) :=
  puts
    [(0, 4, le_bytes 4 (sb_magic s)); (4, 8, le_bytes 4 (sb_version s));
     (8, 12, le_bytes 4 (sb_block_size s)); (12, 16, le_bytes 4 (sb_total_blocks s));
     (16, 20, le_bytes 4 (sb_inode_count s)); (20, 24, le_bytes 4 (sb_inode_table_start s));
     (24, 28, le_bytes 4 (sb_data_bitmap_start s)); (28, 32, le_bytes 4 (sb_data_blocks_start s));
     (32, 36, le_bytes 4 (sb_root_inode s)); (36, 40, le_bytes 4 (sb_snapshot_area_start s));
     (40, 44, le_bytes 4 (sb_snapshot_count s)); (44, 48, le_bytes 4 (sb_journal_start s));
     (48, 52, le_bytes 4 (sb_journal_size s)); (52, 56, le_bytes 4 (sb_feature_flags s));
     (56, 64, le_bytes 8 (sb_creation_time s)); (64, 72, le_bytes 8 (sb_last_mount_time s))]
    (zeros SUPER_SIZE).

(** ** OnyxFS inode *)

Record OnyfsInode := mkOnyfsInode {
  i_mode : Z; i_size : Z; i_uid : Z; i_gid : Z; i_nlink : Z; i_blocks : list Z;
  i_indirect : Z; i_double_indirect : Z; i_crtime : Z; i_mtime : Z; i_atime : Z;
  i_ctime : Z; i_flags : Z; i_reserved : Z }.

Definition INODE_SIZE : Z := 128.

(** [for (i, b) in blocks.iter_mut().enumerate() { *b = le32(&buf[16+i*4..16+(i+1)*4]) }] *)
Fixpoint read_blocks (buf : list Z) (i : Z) (n : nat) : result (list Z) :=
  match n with
  | O => mret []
  | S n =>
      b ← le32_at buf (16 + i * 4) (16 + (i + 1) * 4);
      bs ← read_blocks buf (i + 1) n;
      mret (b :: bs)
  end.

Definition inode_from_bytes (buf : list Z) : result (option OnyfsInode) :=
  if len buf <? INODE_SIZE then mret None else
  blocks ← read_blocks buf 0 (Z.to_nat ONYFS_DIRECT_BLKS);
  mode ← le32_at buf 0 4; size ← le64_at buf 8 16; uid ← le32_at buf 56 60;
  gid ← le32_at buf 60 64; nlink ← le32_at buf 64 68; indirect ← le32_at buf 96 100;
  double_indirect ← le32_at buf 100 104; crtime ← le64_at buf 104 112;
  mtime ← le64_at buf 112 120; atime ← le64_at buf 120 128;
  flags ← le32_at buf 68 72; reserved ← le32_at buf 72 76;
  mret (Some (mkOnyfsInode mode size uid gid nlink blocks indirect double_indirect
    crtime mtime atime 0 flags reserved)).

(** [for (i, &bl) in self.blocks.iter().enumerate() { b[off..off + 4] = bl }] *)
Fixpoint block_fields (i : Z) (bls : list Z) : list (Z * Z * list Z) :=
  match bls with
  | [] => []
  | bl :: bls => (16 + i * 4, 16 + i * 4 + 4, le_bytes 4 bl) :: block_fields (i + 1) bls
  end.

Definition inode_to_bytes (n : OnyfsInode) : result (list Z) :=
  puts
    ([(0, 4, le_bytes 4 (i_mode n)); (4, 8, le_bytes 4 0); (8, 16, le_bytes 8 (i_size n))]
     ++ block_fields 0 (i_blocks n) ++
     [(56, 60, le_bytes 4 (i_uid n)); (60, 64, le_bytes 4 (i_gid n));
      (64, 68, le_bytes 4 (i_nlink n)); (68, 72, le_bytes 4 (i_flags n));
      (72, 76, le_bytes 4 (i_reserved n)); (96, 100, le_bytes 4 (i_indirect n));
      (100, 104, le_bytes 4 (i_double_indirect n)); (104, 112, le_bytes 8 (i_crtime n));
      (112, 120, le_bytes 8 (i_mtime n)); (120, 128, le_bytes 8 (i_atime n))])
    (zeros INODE_SIZE).

(** ** OnyxFS directory entry *)

Record OnyfsDirent := mkOnyfsDirent {
  d_name : list Z; d_inode : Z; d_dtype : Z; d_name_len : Z; d_reserved : list Z }.

Definition DIRENT_SIZE : Z := 40.

Definition dirent_from_bytes (buf : list Z) : result (option OnyfsDirent) :=
  if len buf <? DIRENT_SIZE then mret None else
  name ← slice buf 0 ONYFS_NAME_MAX;
  inode ← le32_at buf 32 36;
  dtype ← idx buf 36; name_len ← idx buf 37; r0 ← idx buf 38; r1 ← idx buf 39;
  mret (Some (mkOnyfsDirent name inode dtype name_len [r0; r1])).

Definition dirent_to_bytes (d : OnyfsDirent) : result (list Z) :=
  r0 ← idx (d_reserved d) 0; r1 ← idx (d_reserved d) 1;
  puts
    [(0, ONYFS_NAME_MAX, d_name d); (32, 36, le_bytes 4 (d_inode d));
     (36, 37, [d_dtype d]); (37, 38, [d_name_len d]); (38, 39, [r0]); (39, 40, [r1])]
    (zeros DIRENT_SIZE).

(** [iter().position(|&b| b == c)] *)
Fixpoint position (c : Z) (l : list Z) : option Z :=
  match l with
  | [] => None
  | b :: l => if b =? c then Some 0 else option_map (Z.add 1) (position c l)
  end.

(** The length rule shared by [name_str], [lookup_in] and [readdir_entry]:
    [name_len] when it is in range, else up to the first NUL. *)
Definition name_length (name : list Z) (name_len : Z) : Z :=
  if (0 <? name_len) && (name_len <=? ONYFS_NAME_MAX) then name_len
  else match position 0 name with Some n => n | None => ONYFS_NAME_MAX end.

Definition name_str (d : OnyfsDirent) : result (list Z) :=
  slice (d_name d) 0 (name_length (d_name d) (d_name_len d)).

(** ** Snapshot metadata *)

Record SnapshotMeta := mkSnapshotMeta {
  sn_id : Z; sn_timestamp : Z; sn_root_inode_snapshot : Z; sn_block_count : Z;
  sn_name : list Z; sn_parent_id : Z; sn_flags : Z; sn_reserved : list Z }.

Definition SNAPMETA_SIZE : Z := 64.

Definition snapmeta_from_bytes (buf : list Z) : result (option SnapshotMeta) :=
  if len buf <? SNAPMETA_SIZE then mret None else
  name ← slice buf 16 48;
  id ← le32_at buf 0 4; timestamp ← le64_at buf 4 12; root ← le32_at buf 12 16;
  block_count ← le32_at buf 48 52; parent_id ← le32_at buf 52 56; flags ← le32_at buf 56 60;
  mret (Some (mkSnapshotMeta id timestamp root block_count name parent_id flags (replicate 4 0))).

Definition snapmeta_to_bytes (m : SnapshotMeta) : result (list Z) :=
  puts
    [(0, 4, le_bytes 4 (sn_id m)); (4, 12, le_bytes 8 (sn_timestamp m));
     (12, 16, le_bytes 4 (sn_root_inode_snapshot m)); (16, 48, sn_name m);
     (48, 52, le_bytes 4 (sn_block_count m)); (52, 56, le_bytes 4 (sn_parent_id m));
     (56, 60, le_bytes 4 (sn_flags m))]
    (zeros SNAPMETA_SIZE).

(** ** FAT32 parameter block and 8.3 names *)

Record Fat32Bpb := mkFat32Bpb {
  bytes_per_sector : Z; sectors_per_cluster : Z; reserved_sectors : Z;
  num_fats : Z; fat_size : Z; root_cluster : Z }.

(** [u16::from_le_bytes([buf[i], buf[i + 1]])], and the [u32] form. *)
Definition le16_idx (buf : list Z) (i : Z) : result Z :=
  b0 ← idx buf i; b1 ← idx buf (i + 1); mret (le_val [b0; b1]).
Definition le32_idx (buf : list Z) (i : Z) : result Z :=
  b0 ← idx buf i; b1 ← idx buf (i + 1); b2 ← idx buf (i + 2); b3 ← idx buf (i + 3);
  mret (le_val [b0; b1; b2; b3]).

Definition bpb_from_bytes (buf : list Z) : result (option Fat32Bpb) :=
  if len buf <? 90 then mret None else
  s0 ← idx buf 510;
  sig_bad ← (if negb (s0 =? 0x55) then mret true
             else s1 ← idx buf 511; mret (negb (s1 =? 0xAA)));
  if (sig_bad : bool) then mret None else
  bps ← le16_idx buf 11;
  if negb (bps =? 512) then mret None else
  spc ← idx buf 13;
  if (spc =? 0) || negb (Z.land spc (spc - 1) =? 0) then mret None else
  fat16_sz ← le16_idx buf 22;
  fat_sz ← (if fat16_sz =? 0 then le32_idx buf 36 else mret fat16_sz);
  rsv ← le16_idx buf 14; nf ← idx buf 16; rc ← le32_idx buf 44;
  mret (Some (mkFat32Bpb bps spc rsv nf fat_sz rc)).

(** [u8::to_ascii_uppercase] *)
Definition to_upper (b : Z) : Z := if (97 <=? b) && (b <=? 122) then b - 32 else b.
(** [u8::to_ascii_lowercase] *)
Definition to_lower (b : Z) : Z := if (65 <=? b) && (b <=? 90) then b + 32 else b.

(** [for (i, &b) in part.iter().enumerate() { out[off + i] = b.to_ascii_uppercase() }] *)
Fixpoint put_upper (off : Z) (part : list Z) (out : list Z) : result (list Z) :=
  match part with
  | [] => mret out
  | b :: part => out ← set_idx out off (to_upper b); put_upper (off + 1) part out
  end.

Definition DOT : Z := 46.
Definition SPACE : Z := 32.

Definition name_to_83 (name : list Z) : result (option (list Z)) :=
  let out := replicate 11 SPACE in
  '(name_part, ext_part) ←
    match position DOT name with
    | Some i => np ← slice name 0 i; ep ← slice name (i + 1) (len name); mret (np, Some ep)
    | None => mret (name, None)
    end;
  if (8 <? len name_part) || match ext_part with Some e => 3 <? len e | None => false end
  then mret None else
  out ← put_upper 0 name_part out;
  out ← match ext_part with Some e => put_upper 8 e out | None => mret out end;
  mret (Some out).

(** [u8::eq_ignore_ascii_case] *)
Definition eq_ignore_case (a b : Z) : bool := to_lower a =? to_lower b.

(** [for i in i0..i0+n { if !dirent11[i].eq_ignore_ascii_case(&expected[i]) return false }] *)
Fixpoint match_from (dirent11 expected : list Z) (i : Z) (n : nat) : result bool :=
  match n with
  | O => mret true
  | S n =>
      a ← idx dirent11 i; b ← idx expected i;
      if eq_ignore_case a b then match_from dirent11 expected (i + 1) n else mret false
  end.

Definition matches_83 (dirent11 name : list Z) : result bool :=
  e ← name_to_83 name;
  match e with
  | None => mret false
  | Some expected => match_from dirent11 expected 0 11
  end.
