(* ===== verification/FormatsProps.v ===== *)
(** * Round trips and panic-freedom of the formats

    [puts_asc] is the shared lemma: a sequence of [copy_from_slice] calls with
    ascending, in-range, correctly sized ranges succeeds, and each range then
    reads back what was stored.  Every writer of [Formats] is such a sequence. *)

From S2P Require Import Prelude Parser Formats.
From stdpp Require Import base list numbers.
From Stdlib Require Import ZArith Lia.

Open Scope Z_scope.

(** ** Ascending layouts *)

Fixpoint asc (lo hi : Z) (fs : list (Z * Z * list Z)) : Prop :=
  match fs with
  | [] => lo ≤ hi
  | (a, e, src) :: fs => lo ≤ a ∧ a ≤ e ∧ len src = e - a ∧ asc e hi fs
  end.

Definition stored (b : list Z) (f : Z * Z * list Z) : Prop :=
  let '(a, e, src) := f in rd a (e - a) b = src.

Lemma asc_le lo hi fs : asc lo hi fs → lo ≤ hi.
Proof.
  revert lo. induction fs as [|[[a e] src] fs IH]; simpl; intros lo H; [done|].
  destruct H as (?&?&?&?%IH). lia.
Qed.

Lemma asc_app lo mid hi fs gs :
  asc lo mid fs → asc mid hi gs → asc lo hi (fs ++ gs).
Proof.
  revert lo. induction fs as [|[[a e] src] fs IH]; simpl; intros lo H Hg.
  - destruct gs as [|[[a e] src] gs]; simpl in *; [lia|].
    destruct Hg as (?&?&?&?). repeat split; auto; lia.
  - destruct H as (?&?&?&?). repeat split; auto.
Qed.

Lemma puts_asc fs b lo :
  0 ≤ lo → asc lo (len b) fs →
  ∃ b', puts fs b = Ok b' ∧ len b' = len b ∧
    (∀ a n, 0 ≤ a → 0 ≤ n → a + n ≤ lo → rd a n b' = rd a n b) ∧
    Forall (stored b') fs.
Proof.
  revert b lo. induction fs as [|[[a e] src] fs IH]; intros b lo Hlo H; simpl in H.
  - exists b. repeat split; auto.
  - destruct H as (H1 & H2 & H3 & H4). pose proof (asc_le _ _ _ H4).
    simpl. rewrite put_ok by lia. simpl.
    assert (len (wr a src b) = len b) as Hl by (rewrite len_wr; lia).
    destruct (IH (wr a src b) e) as (b' & Hp & Hl' & Hrd & Hst); [lia|by rewrite Hl|].
    exists b'. split; [done|]. split; [lia|]. split.
    + intros x n Hx Hn Hxn. rewrite Hrd by lia. apply rd_wr_ne; lia.
    + constructor; [|done]. simpl. rewrite Hrd by lia. apply rd_wr_eq; lia.
Qed.

Lemma puts_u8 fs b b' :
  puts fs b = Ok b' → Forall u8 b → Forall (λ f, Forall u8 f.2) fs → Forall u8 b'.
Proof.
  revert b. induction fs as [|[[a e] src] fs IH]; simpl; intros b H Hb Hf.
  - by injection H as ->.
  - inversion Hf; subst. unfold put in H. case_if_in H E; [|done].
    eapply IH; eauto with onyx.
Qed.

(** A buffer with the same bytes below [hi] stores the same fields. *)
Lemma stored_keep b b' lo hi fs : 0 ≤ lo → asc lo hi fs →
  (∀ a n, 0 ≤ a → 0 ≤ n → a + n ≤ hi → rd a n b' = rd a n b) →
  Forall (stored b) fs → Forall (stored b') fs.
Proof.
  intros Hlo Ha Hrd Hst. revert lo Hlo Ha.
  induction Hst as [|[[a e] src] fs Hs _ IH]; intros lo Hlo Ha; constructor; simpl in Ha; destruct Ha as (?&?&?&Ha).
  - simpl in Hs |- *. pose proof (asc_le _ _ _ Ha). rewrite Hrd by lia. done.
  - apply (IH e); [lia|done].
Qed.

(** Fields that were stored decode to the values that were encoded. *)
Lemma le32_at_stored b a e v :
  stored b (a, e, le_bytes 4 v) → 0 ≤ a → e = a + 4 → e ≤ len b → u32 v →
  le32_at b a e = Ok v.
Proof.
  intros Hs Ha -> He Hv. unfold le32_at. rewrite slice_ok by lia. mred.
  simpl in Hs. rewrite Hs, le32_ok by by rewrite len_le_bytes.
  rewrite take_ge by by rewrite length_le_bytes.
  rewrite le_val_bytes_id; [done|]. exact Hv.
Qed.

Lemma le64_at_stored b a e v :
  stored b (a, e, le_bytes 8 v) → 0 ≤ a → e = a + 8 → e ≤ len b → u64 v →
  le64_at b a e = Ok v.
Proof.
  intros Hs Ha -> He Hv. unfold le64_at. rewrite slice_ok by lia. mred.
  simpl in Hs. rewrite Hs, le64_ok by by rewrite len_le_bytes.
  rewrite take_ge by by rewrite length_le_bytes.
  rewrite le_val_bytes_id; [done|]. exact Hv.
Qed.

Lemma idx_stored b a e v :
  stored b (a, e, [v]) → 0 ≤ a → e = a + 1 → e ≤ len b → idx b a = Ok v.
Proof.
  intros Hs Ha -> He. simpl in Hs. apply idx_ok; [|done].
  assert (rd a (a + 1 - a) b !! 0%nat = Some v) as H by by rewrite Hs.
  rewrite lookup_rd in H by lia. by rewrite Nat.add_0_r in H.
Qed.

(** Discharge an [asc] goal of a concrete layout. *)
Ltac solve_asc :=
  simpl; rewrite ?len_le_bytes, ?len_zeros by lia;
  repeat (first [split; [try lia; try (simpl; lia)|]
                | progress simpl]); try lia.

Ltac split_stored :=
  repeat match goal with
  | H : Forall (stored _) (_ ++ _) |- _ => apply Forall_app in H as [? ?]
  | H : Forall (stored _) (_ :: _) |- _ =>
      let H1 := fresh "Hst" in
      apply Forall_cons_1 in H; destruct H as [H1 H]
  end.

(** Decode every field of a buffer whose fields are known. *)
Ltac decode_fields :=
  repeat first
    [ erewrite le32_at_stored by (first [eassumption | lia | done])
    | erewrite le64_at_stored by (first [eassumption | lia | done])
    | erewrite idx_stored by (first [eassumption | lia])
    | rewrite bind_ok ].

(** ** Well-formed values: every field fits its Rust type *)

Definition seg_wf (s : OnxSegment) : Prop :=
  u64 (seg_vaddr s) ∧ u64 (seg_filesz s) ∧ u64 (seg_memsz s) ∧ u32 (seg_offset s) ∧
  u32 (seg_flags s) ∧ u32 (seg_align s) ∧ u32 (seg_reserved s) ∧ u32 (seg_compressed_size s).

Definition super_wf (s : OnyfsSuper) : Prop :=
  u32 (sb_magic s) ∧ u32 (sb_version s) ∧ u32 (sb_block_size s) ∧ u32 (sb_total_blocks s) ∧
  u32 (sb_inode_count s) ∧ u32 (sb_inode_table_start s) ∧ u32 (sb_data_bitmap_start s) ∧
  u32 (sb_data_blocks_start s) ∧ u32 (sb_root_inode s) ∧ u32 (sb_snapshot_area_start s) ∧
  u32 (sb_snapshot_count s) ∧ u32 (sb_journal_start s) ∧ u32 (sb_journal_size s) ∧
  u32 (sb_feature_flags s) ∧ u64 (sb_creation_time s) ∧ u64 (sb_last_mount_time s).

Definition inode_wf (n : OnyfsInode) : Prop :=
  u32 (i_mode n) ∧ u64 (i_size n) ∧ u32 (i_uid n) ∧ u32 (i_gid n) ∧ u32 (i_nlink n) ∧
  len (i_blocks n) = ONYFS_DIRECT_BLKS ∧ Forall u32 (i_blocks n) ∧ u32 (i_indirect n) ∧
  u32 (i_double_indirect n) ∧ u64 (i_crtime n) ∧ u64 (i_mtime n) ∧ u64 (i_atime n) ∧
  u64 (i_ctime n) ∧ u32 (i_flags n) ∧ u32 (i_reserved n).

Definition dirent_wf (d : OnyfsDirent) : Prop :=
  len (d_name d) = ONYFS_NAME_MAX ∧ Forall u8 (d_name d) ∧ u32 (d_inode d) ∧
  u8 (d_dtype d) ∧ u8 (d_name_len d) ∧ len (d_reserved d) = 2 ∧ Forall u8 (d_reserved d).

Definition snapmeta_wf (m : SnapshotMeta) : Prop :=
  u32 (sn_id m) ∧ u64 (sn_timestamp m) ∧ u32 (sn_root_inode_snapshot m) ∧
  u32 (sn_block_count m) ∧ len (sn_name m) = 32 ∧ Forall u8 (sn_name m) ∧
  u32 (sn_parent_id m) ∧ u32 (sn_flags m).

(** ** Segments *)

Lemma seg_fields_asc s : asc 0 40 (seg_fields s).
Proof. unfold seg_fields. solve_asc. Qed.

Lemma seg_v2_rt s :
  seg_wf s →
  ∃ b, seg_to_bytes_v2 s = Ok b ∧ len b = 48 ∧ seg_from_bytes_v2 b = Ok (Some s).
Proof.
  intros (?&?&?&?&?&?&?&?). unfold seg_to_bytes_v2.
  destruct (puts_asc (seg_fields s ++ [(40, 44, le_bytes 4 (seg_compressed_size s))])
              (zeros 48) 0) as (b & Hp & Hl & _ & Hst); [lia| |].
  { eapply asc_app; [apply seg_fields_asc|]. solve_asc. }
  exists b. rewrite len_zeros in Hl by lia. split; [done|]. split; [done|].
  unfold seg_fields in Hst. split_stored.
  unfold seg_from_bytes_v2, SEG_SIZE_V2. rewrite (proj2 (Z.ltb_ge _ _)) by lia.
  decode_fields. by destruct s.
Qed.

Lemma seg_v1_rt s :
  seg_wf s → seg_compressed_size s = 0 →
  ∃ b, seg_to_bytes_v1 s = Ok b ∧ len b = 40 ∧ seg_from_bytes_v1 b = Ok (Some s).
Proof.
  intros (?&?&?&?&?&?&?&?) Hc. unfold seg_to_bytes_v1.
  destruct (puts_asc (seg_fields s) (zeros 40) 0) as (b & Hp & Hl & _ & Hst);
    [lia|apply seg_fields_asc|].
  exists b. rewrite len_zeros in Hl by lia. split; [done|]. split; [done|].
  unfold seg_fields in Hst. split_stored.
  unfold seg_from_bytes_v1, SEG_SIZE_V1. rewrite (proj2 (Z.ltb_ge _ _)) by lia.
  decode_fields. destruct s; simpl in *; by subst.
Qed.

(** ** Segment tables *)

Section SegTable.
Context (ser : OnxSegment → result (list Z)) (parse : list Z → result (option OnxSegment)).
Context (base size : Z).
Hypothesis base_nonneg : 0 ≤ base.
Hypothesis size_nonneg : 0 ≤ size.

Definition ser_ok (s : OnxSegment) : Prop :=
  ∃ sb, ser s = Ok sb ∧ len sb = size ∧ parse sb = Ok (Some s).

Lemma write_segs_ok segs b i :
  0 ≤ i → Forall ser_ok segs → base + (i + len segs) * size ≤ len b →
  ∃ b', write_segs ser base size i segs b = Ok b' ∧ len b' = len b ∧
    (∀ a n, 0 ≤ a → 0 ≤ n → a + n ≤ base + i * size → rd a n b' = rd a n b) ∧
    (∀ (k : nat) s, segs !! k = Some s →
       ∃ sb, parse sb = Ok (Some s) ∧ rd (base + (i + Z.of_nat k) * size) size b' = sb).
Proof.
  revert b i. induction segs as [|s segs IH]; intros b i Hi Hser Hlen.
  - exists b. repeat split; auto. intros k s Hk. done.
  - apply Forall_cons_1 in Hser as [(sb & Hs & Hsl & Hps) Hser].
    rewrite len_cons in Hlen. pose proof (len_nonneg segs) as Hn.
    assert (0 ≤ len segs * size) by (apply Z.mul_nonneg_nonneg; lia).
    assert (0 ≤ i * size) by (apply Z.mul_nonneg_nonneg; lia).
    simpl. rewrite Hs. simpl. rewrite put_ok by lia. simpl.
    destruct (IH (wr (base + i * size) sb b) (i + 1)) as (b' & Hw & Hl & Hrd & Hk);
      [lia|done|rewrite len_wr; lia|].
    rewrite len_wr in Hl by lia.
    exists b'. split; [done|]. split; [done|]. split.
    + intros a n Ha Hn' Han. rewrite Hrd by lia. apply rd_wr_ne; lia.
    + intros [|k] s' Hs'; simpl in Hs'.
      * injection Hs' as <-. exists sb. split; [done|].
        rewrite Hrd by lia. replace (base + (i + Z.of_nat 0) * size) with (base + i * size) by lia.
        apply rd_wr_eq; lia.
      * destruct (Hk k s' Hs') as (sb' & ? & Hr). exists sb'. split; [done|].
        rewrite <- Hr. f_equal. lia.
Qed.

Lemma read_segs_ok segs buf i acc :
  0 ≤ i → base + (i + len segs) * size ≤ len buf →
  (∀ (k : nat) s, segs !! k = Some s →
     ∃ sb, parse sb = Ok (Some s) ∧ rd (base + (i + Z.of_nat k) * size) size buf = sb) →
  read_segs parse base size buf i (length segs) acc = Ok (Some (acc ++ segs)).
Proof.
  revert i acc. induction segs as [|s segs IH]; intros i acc Hi Hlen Hk; simpl.
  - by rewrite app_nil_r.
  - rewrite len_cons in Hlen. pose proof (len_nonneg segs).
    assert (0 ≤ len segs * size) by (apply Z.mul_nonneg_nonneg; lia).
    assert (0 ≤ i * size) by (apply Z.mul_nonneg_nonneg; lia).
    rewrite slice_ok by lia. simpl.
    destruct (Hk 0%nat s eq_refl) as (sb & Hp & Hr).
    replace (base + (i + Z.of_nat 0) * size) with (base + i * size) in Hr by lia.
    replace (base + i * size + size - (base + i * size)) with size by lia.
    rewrite Hr, Hp. simpl. rewrite IH; [by rewrite <- app_assoc|lia|lia|].
    intros k s' Hs'. destruct (Hk (S k) s' Hs') as (sb' & ? & Hr').
    exists sb'. split; [done|]. rewrite <- Hr'. f_equal. lia.
Qed.

(** Parsing a table never panics when the table fits the buffer. *)
Lemma read_segs_no_panic buf i n acc :
  (∀ sb, parse sb ≠ Panic) → (∀ sb e, parse sb ≠ Err e) →
  0 ≤ i → base + (i + Z.of_nat n) * size ≤ len buf →
  ∃ r, read_segs parse base size buf i n acc = Ok r.
Proof.
  intros HP HE. revert i acc. induction n as [|n IH]; intros i acc Hi Hlen; simpl; [eauto|].
  assert (0 ≤ Z.of_nat n * size) by (apply Z.mul_nonneg_nonneg; lia).
  assert (0 ≤ i * size) by (apply Z.mul_nonneg_nonneg; lia).
  rewrite slice_ok by lia. simpl.
  destruct (parse _) as [[seg|]|e|] eqn:E; simpl; [|eauto|by apply HE in E|by apply HP in E].
  apply IH; lia.
Qed.
End SegTable.

(** ** Executable headers *)

Definition onx_wf (h : OnxHeader) : Prop :=
  onx_magic h = ONX_MAGIC ∧ u64 (onx_entry h) ∧ u32 (onx_flags h) ∧
  onx_nsegs h = len (onx_segs h) ∧ Forall seg_wf (onx_segs h).

Lemma onx_fields_asc h v : asc 0 24 (onx_fields h v).
Proof. unfold onx_fields. solve_asc. Qed.

(** The header words survive the segment writes behind them. *)
Lemma onx_head_decode h v b b' :
  onx_wf h → u32 v → len (onx_segs h) ≤ ONX_MAX_SEGS →
  Forall (stored b) (onx_fields h v) → len b' = len b → 24 ≤ len b →
  (∀ a n, 0 ≤ a → 0 ≤ n → a + n ≤ 24 → rd a n b' = rd a n b) →
  le32_at b' 0 4 = Ok ONX_MAGIC ∧ le32_at b' 4 8 = Ok v ∧
  le64_at b' 8 16 = Ok (onx_entry h) ∧ le32_at b' 16 20 = Ok (onx_nsegs h) ∧
  le32_at b' 20 24 = Ok (onx_flags h).
Proof.
  intros (Hm & He & Hf & Hn & _) Hv Hmax Hst Hl H24 Hrd. unfold ONX_MAX_SEGS in Hmax.
  pose proof (len_nonneg (onx_segs h)).
  assert (u32 (onx_nsegs h)) by (unfold u32; lia).
  assert (u32 ONX_MAGIC) by (unfold u32, ONX_MAGIC; lia).
  assert (Forall (stored b') (onx_fields h v)) as Hst'.
  { unfold onx_fields in *. rewrite Hm in *. split_stored.
    repeat constructor; simpl in *; rewrite Hrd by lia; done. }
  unfold onx_fields in Hst'. rewrite Hm in Hst'. split_stored.
  repeat split; first [eapply le32_at_stored; first [eassumption|lia]
                      |eapply le64_at_stored; first [eassumption|lia]].
Qed.

Lemma seg_ser_ok_v2 segs :
  Forall seg_wf segs → Forall (ser_ok seg_to_bytes_v2 seg_from_bytes_v2 48) segs.
Proof. intros H. eapply Forall_impl; [|exact H]. apply seg_v2_rt. Qed.

(** ** Inode block tables *)

Lemma block_fields_asc i bls :
  0 ≤ i → asc (16 + i * 4) (16 + (i + len bls) * 4) (block_fields i bls).
Proof.
  revert i. induction bls as [|b bls IH]; intros i Hi; simpl.
  - unfold len. simpl. lia.
  - rewrite len_le_bytes, len_cons. repeat split; try lia.
    specialize (IH (i + 1)). replace (16 + i * 4 + 4) with (16 + (i + 1) * 4) by lia.
    replace (i + (1 + len bls)) with (i + 1 + len bls) by lia. apply IH. lia.
Qed.

Lemma read_blocks_ok b i bls :
  0 ≤ i → Forall u32 bls → Forall (stored b) (block_fields i bls) →
  16 + (i + len bls) * 4 ≤ len b → read_blocks b i (length bls) = Ok bls.
Proof.
  revert i. induction bls as [|bl bls IH]; intros i Hi Hu Hst Hl; simpl; [done|].
  rewrite len_cons in Hl. pose proof (len_nonneg bls).
  apply Forall_cons_1 in Hu as [Hbl Hu]. simpl in Hst. split_stored.
  rewrite (le32_at_stored b _ _ bl);
    [|by replace (16 + (i + 1) * 4) with (16 + i * 4 + 4) by lia|lia|lia|lia|done].
  simpl. rewrite IH; [done|lia|done|done|lia].
Qed.

Ltac fields_u8 :=
  repeat (apply Forall_cons_2; [apply le_bytes_u8|]); apply Forall_nil_2.

Lemma block_fields_u8 i bls : Forall (λ f, Forall u8 f.2) (block_fields i bls).
Proof.
  revert i. induction bls as [|x xs IH]; intros i; simpl; [by apply Forall_nil_2|].
  apply Forall_cons_2; [apply le_bytes_u8|apply IH].
Qed.

Definition without_ctime (n : OnyfsInode) : OnyfsInode :=
  mkOnyfsInode (i_mode n) (i_size n) (i_uid n) (i_gid n) (i_nlink n) (i_blocks n)
    (i_indirect n) (i_double_indirect n) (i_crtime n) (i_mtime n) (i_atime n) 0
    (i_flags n) (i_reserved n).

Lemma inode_rt n :
  inode_wf n →
  ∃ b, inode_to_bytes n = Ok b ∧ len b = 128 ∧ Forall u8 b ∧
       inode_from_bytes b = Ok (Some (without_ctime n)).
Proof.
  intros (?&?&?&?&?&Hbl&Hbu&?&?&?&?&?&?&?&?). unfold inode_to_bytes, INODE_SIZE, ONYFS_DIRECT_BLKS in *.
  match goal with |- context [puts ?fs _] =>
    destruct (puts_asc fs (zeros 128) 0) as (b & Hp & Hl & _ & Hst) end; [lia| |].
  { rewrite len_zeros by lia. apply (asc_app _ 16); [solve_asc|].
    apply (asc_app _ 56); [|solve_asc].
    pose proof (block_fields_asc 0 (i_blocks n)) as Hb. rewrite Hbl in Hb. apply Hb. lia. }
  exists b. rewrite len_zeros in Hl by lia. split; [done|]. split; [done|].
  assert (Forall u8 b) as Hu8.
  { eapply puts_u8; [exact Hp|apply Forall_zeros|].
    rewrite !Forall_app. repeat split; [fields_u8|apply block_fields_u8|fields_u8]. }
  split; [done|]. split_stored. unfold inode_from_bytes, INODE_SIZE, ONYFS_DIRECT_BLKS.
  rewrite (proj2 (Z.ltb_ge _ _)) by lia.
  replace (Z.to_nat 10) with (length (i_blocks n)) by (unfold len in Hbl; lia).
  rewrite (read_blocks_ok b 0 (i_blocks n)) by (try done; lia). rewrite bind_ok.
  decode_fields. done.
Qed.

(** ** Directory entries and snapshot records *)

Lemma dirent_rt d :
  dirent_wf d →
  ∃ b, dirent_to_bytes d = Ok b ∧ len b = DIRENT_SIZE ∧ dirent_from_bytes b = Ok (Some d).
Proof.
  intros (Hn&_&?&?&?&Hr&_). destruct d as [name ino dt nl rsv]; simpl in *.
  destruct rsv as [|r0 [|r1 [|]]]; try (unfold len in Hr; simpl in Hr; lia).
  unfold dirent_to_bytes, DIRENT_SIZE, ONYFS_NAME_MAX in *; simpl d_reserved; simpl d_name.
  change (idx [r0; r1] 0) with (Ok r0). change (idx [r0; r1] 1) with (Ok r1). rewrite !bind_ok.
  match goal with |- context [puts ?fs _] =>
    destruct (puts_asc fs (zeros 40) 0) as (b & Hp & Hl & _ & Hst) end;
    [lia|simpl; rewrite len_zeros, len_le_bytes, Hn by lia; unfold len; simpl; lia|].
  exists b. rewrite len_zeros in Hl by lia. split; [done|]. split; [done|].
  split_stored. unfold dirent_from_bytes, DIRENT_SIZE, ONYFS_NAME_MAX.
  rewrite (proj2 (Z.ltb_ge _ _)), slice_ok by lia. rewrite bind_ok.
  decode_fields. by match goal with H : stored _ (0, _, _) |- _ => simpl in H; simpl; rewrite H end.
Qed.

Lemma snapmeta_rt m :
  snapmeta_wf m → sn_reserved m = replicate 4 0 →
  ∃ b, snapmeta_to_bytes m = Ok b ∧ len b = SNAPMETA_SIZE ∧
       snapmeta_from_bytes b = Ok (Some m).
Proof.
  intros (?&?&?&?&Hn&_&?&?) Hr. unfold snapmeta_to_bytes, SNAPMETA_SIZE.
  match goal with |- context [puts ?fs _] =>
    destruct (puts_asc fs (zeros 64) 0) as (b & Hp & Hl & _ & Hst) end;
    [lia|simpl; rewrite len_zeros, !len_le_bytes, Hn by lia; lia|].
  exists b. rewrite len_zeros in Hl by lia. split; [done|]. split; [done|].
  split_stored. unfold snapmeta_from_bytes, SNAPMETA_SIZE.
  rewrite (proj2 (Z.ltb_ge _ _)), slice_ok by lia. rewrite bind_ok.
  decode_fields.
  match goal with H : stored _ (16, _, _) |- _ => simpl in H; simpl; rewrite H end.
  destruct m; simpl in *; by subst.
Qed.

(** ** Parsing arbitrary bytes *)

Lemma le32_at_ok b a e :
  0 ≤ a → e = a + 4 → e ≤ len b → Forall u8 b →
  ∃ v, le32_at b a e = Ok v ∧ u32 v.
Proof.
  intros Ha -> He Hu. unfold le32_at. rewrite slice_ok by lia.
  replace (a + 4 - a) with 4 by lia. rewrite bind_ok.
  assert (len (rd a 4 b) = 4) as Hl by (apply len_rd; lia).
  rewrite le32_ok by lia. eexists. split; [done|].
  rewrite take_ge by (unfold len in Hl; lia).
  pose proof (le_val_bound (rd a 4 b) (Forall_rd _ _ _ _ Hu)) as Hb.
  rewrite Hl in Hb. exact Hb.
Qed.

Lemma le64_at_ok b a e :
  0 ≤ a → e = a + 8 → e ≤ len b → ∃ v, le64_at b a e = Ok v.
Proof.
  intros Ha -> He. unfold le64_at. rewrite slice_ok by lia.
  replace (a + 8 - a) with 8 by lia. rewrite bind_ok.
  rewrite le64_ok by (rewrite len_rd; lia). eauto.
Qed.

Lemma le32_at_total b a e :
  0 ≤ a → e = a + 4 → e ≤ len b → ∃ v, le32_at b a e = Ok v.
Proof.
  intros Ha -> He. unfold le32_at. rewrite slice_ok by lia.
  replace (a + 4 - a) with 4 by lia. rewrite bind_ok.
  rewrite le32_ok by (rewrite len_rd; lia). eauto.
Qed.

(** Name the value of every fixed-width read of the goal, outermost first. *)
Ltac name_reads :=
  repeat match goal with
  | |- context [le64_at ?b ?a ?e ≫= _] =>
      let v := fresh "v" in let E := fresh "E" in
      destruct (le64_at_ok b a e ltac:(lia) ltac:(lia) ltac:(lia)) as [v E];
      rewrite E, bind_ok
  | |- context [le32_at ?b ?a ?e ≫= _] =>
      let v := fresh "v" in let E := fresh "E" in
      destruct (le32_at_total b a e ltac:(lia) ltac:(lia) ltac:(lia)) as [v E];
      rewrite E, bind_ok
  end.

Lemma seg_v1_total b : ∃ r, seg_from_bytes_v1 b = Ok r.
Proof.
  unfold seg_from_bytes_v1, SEG_SIZE_V1. case_if E; bool_prop; [eauto|].
  name_reads. eauto.
Qed.

Lemma seg_v2_total b : ∃ r, seg_from_bytes_v2 b = Ok r.
Proof.
  unfold seg_from_bytes_v2, SEG_SIZE_V2. case_if E; bool_prop; [eauto|].
  name_reads. eauto.
Qed.

Lemma read_segs_length parse base size buf i n acc segs :
  read_segs parse base size buf i n acc = Ok (Some segs) →
  length segs = (length acc + n)%nat.
Proof.
  revert i acc. induction n as [|n IH]; intros i acc H; simpl in H.
  - injection H as <-. lia.
  - apply bind_Ok_inv in H as (s & _ & H). apply bind_Ok_inv in H as ([o|] & _ & H); [|done].
    apply IH in H. rewrite length_app in H. simpl in H. lia.
Qed.

Lemma onx_total buf : Forall u8 buf → ∃ r, onx_from_bytes buf = Ok r.
Proof.
  intros Hu. unfold onx_from_bytes, V1_HEADER_SIZE, V2_HEADER_SIZE, SEG_SIZE_V1, SEG_SIZE_V2.
  case_if E0; bool_prop; [eauto|].
  destruct (le32_at_total buf 0 4) as [m Em]; [lia..|]. rewrite Em, bind_ok.
  case_if E1; [eauto|].
  destruct (le32_at_total buf 4 8) as [v Ev]; [lia..|]. rewrite Ev, bind_ok.
  destruct (le64_at_ok buf 8 16) as [en Een]; [lia..|]. rewrite Een, bind_ok.
  destruct (le32_at_ok buf 16 20) as (n & En & Hn); [lia..|done|]. rewrite En, bind_ok.
  destruct (le32_at_total buf 20 24) as [fl Ef]; [lia..|]. rewrite Ef, bind_ok.
  unfold u32 in Hn. destruct (v =? 1); [|destruct (v =? 2); [|eauto]].
  - case_if E2; bool_prop; [eauto|]. case_if E3; bool_prop; [eauto|].
    destruct (read_segs_no_panic seg_from_bytes_v1 24 40 ltac:(lia) ltac:(lia) buf 0
                (Z.to_nat n) []) as [r ->]; [..|eauto]; try lia;
      intros sb; destruct (seg_v1_total sb) as [? ->]; done.
  - case_if E2; bool_prop; [eauto|]. case_if E3; bool_prop; [eauto|].
    case_if E4; bool_prop; [eauto|].
    destruct (read_segs_no_panic seg_from_bytes_v2 32 48 ltac:(lia) ltac:(lia) buf 0
                (Z.to_nat n) []) as [r ->]; [..|eauto]; try lia;
      intros sb; destruct (seg_v2_total sb) as [? ->]; done.
Qed.

(** Peel one guard or one read off a successful parse. *)
Ltac parse_step H :=
  first
    [ let E := fresh "E" in case_if_in H E; [discriminate H|]
    | let v := fresh "v" in let E := fresh "E" in
      apply bind_Ok_inv in H as (v & E & H) ].

Lemma option_map_Some_inv {A B} (f : A → B) (o : option A) b :
  option_map f o = Some b → ∃ a, o = Some a ∧ f a = b.
Proof. destruct o; simpl; intros H; [injection H as <-; eauto|done]. Qed.

Lemma onx_accepts buf h :
  Forall u8 buf → onx_from_bytes buf = Ok (Some h) →
  onx_magic h = ONX_MAGIC ∧ len (onx_segs h) = onx_nsegs h ∧
  ((onx_version h = 1 ∧ onx_nsegs h ≤ 8 ∧ V1_HEADER_SIZE ≤ len buf) ∨
   (onx_version h = 2 ∧ onx_nsegs h ≤ ONX_MAX_SEGS ∧
    V2_HEADER_SIZE + onx_nsegs h * SEG_SIZE_V2 ≤ len buf)).
Proof.
  intros Hu H. unfold onx_from_bytes in H. do 7 parse_step H.
  destruct (le32_at_ok buf 16 20) as (n & En & Hn); [lia|lia|bool_prop; lia|done|].
  match goal with E : le32_at buf 16 20 = Ok ?v |- _ =>
    rewrite En in E; injection E as E; subst v end. unfold u32 in Hn.
  case_if_in H E9; [|case_if_in H E10; [|done]];
    repeat parse_step H; injection H as H; apply option_map_Some_inv in H as (segs & -> & <-);
    bool_prop; simpl;
    match goal with E : read_segs _ _ _ _ _ _ _ = _ |- _ =>
      apply read_segs_length in E; simpl in E end;
    (split; [done|]); (split; [unfold len; lia|]); [left|right]; auto.
Qed.

(** ** Buffers that hold a header and its segment table *)

Lemma onx_v2_decode h buf : onx_wf h → onx_nsegs h ≤ ONX_MAX_SEGS →
  Forall (stored buf) (onx_fields h 2) → 32 + 48 * onx_nsegs h ≤ len buf →
  (∀ (k : nat) s, onx_segs h !! k = Some s →
     ∃ sb, seg_from_bytes_v2 sb = Ok (Some s) ∧ rd (32 + (0 + Z.of_nat k) * 48) 48 buf = sb) →
  onx_from_bytes buf =
    Ok (Some (mkOnxHeader ONX_MAGIC 2 (onx_entry h) (onx_nsegs h) (onx_flags h) (onx_segs h))).
Proof.
  intros Hwf Hmax Hst Hl Hk. pose proof Hwf as (Hm & He & Hf & Hn & Hsegs).
  pose proof (len_nonneg (onx_segs h)) as Hnn.
  destruct (onx_head_decode h 2 buf buf Hwf) as (E1 & E2 & E3 & E4 & E5);
    [unfold u32; lia|lia|done|done|lia|done|].
  unfold onx_from_bytes, V2_HEADER_SIZE, SEG_SIZE_V2.
  rewrite (proj2 (Z.ltb_ge _ 24)) by lia. rewrite E1; simpl. rewrite E2; simpl.
  rewrite E3; simpl. rewrite E4; simpl. rewrite E5; simpl.
  rewrite !(proj2 (Z.ltb_ge _ _)) by lia. rewrite Hn.
  replace (Z.to_nat (len (onx_segs h))) with (length (onx_segs h)) by (unfold len; lia).
  rewrite (read_segs_ok _ 32 48 ltac:(lia) ltac:(lia) (onx_segs h)); [done|lia|lia|exact Hk].
Qed.

Lemma onx_v1_decode h buf : onx_wf h → onx_nsegs h ≤ 8 →
  Forall (stored buf) (onx_fields h 1) → 344 ≤ len buf →
  (∀ (k : nat) s, onx_segs h !! k = Some s →
     ∃ sb, seg_from_bytes_v1 sb = Ok (Some s) ∧ rd (24 + (0 + Z.of_nat k) * 40) 40 buf = sb) →
  onx_from_bytes buf =
    Ok (Some (mkOnxHeader ONX_MAGIC 1 (onx_entry h) (onx_nsegs h) (onx_flags h) (onx_segs h))).
Proof.
  intros Hwf Hmax Hst Hl Hk. pose proof Hwf as (Hm & He & Hf & Hn & Hsegs).
  pose proof (len_nonneg (onx_segs h)) as Hnn.
  destruct (onx_head_decode h 1 buf buf Hwf) as (E1 & E2 & E3 & E4 & E5);
    [unfold u32; lia|unfold ONX_MAX_SEGS; lia|done|done|lia|done|].
  unfold onx_from_bytes, V1_HEADER_SIZE, SEG_SIZE_V1.
  rewrite (proj2 (Z.ltb_ge _ 24)) by lia. rewrite E1; simpl. rewrite E2; simpl.
  rewrite E3; simpl. rewrite E4; simpl. rewrite E5; simpl.
  rewrite !(proj2 (Z.ltb_ge _ _)) by lia. rewrite Hn.
  replace (Z.to_nat (len (onx_segs h))) with (length (onx_segs h)) by (unfold len; lia).
  rewrite (read_segs_ok _ 24 40 ltac:(lia) ltac:(lia) (onx_segs h)); [done|lia|lia|exact Hk].
Qed.

Module FormatTheorems.

(** Serialising a well-formed OnyxExec header in the v2 layout and parsing
    the result gives the header back (with the version word set to 2), for any
    number of segments up to [ONX_MAX_SEGS]. *)
Theorem onx_v2_roundtrip (h : OnxHeader) :
  onx_wf h → onx_nsegs h ≤ ONX_MAX_SEGS →
  ∃ b, onx_to_bytes_v2 h = Ok b ∧ len b = 32 + 48 * onx_nsegs h ∧
    onx_from_bytes b =
      Ok (Some (mkOnxHeader ONX_MAGIC 2 (onx_entry h) (onx_nsegs h) (onx_flags h) (onx_segs h))).
Proof.
  intros Hwf Hmax. pose proof Hwf as (Hm & He & Hf & Hn & Hsegs).
  pose proof (len_nonneg (onx_segs h)) as Hnn.
  unfold onx_to_bytes_v2, V2_HEADER_SIZE, SEG_SIZE_V2.
  destruct (puts_asc (onx_fields h 2) (zeros (32 + onx_nsegs h * 48)) 0)
    as (b & Hp & Hl & _ & Hst); [lia| |].
  { rewrite len_zeros by lia. rewrite <- (app_nil_r (onx_fields h 2)).
    eapply asc_app; [apply onx_fields_asc|simpl; lia]. }
  rewrite len_zeros in Hl by lia. rewrite Hp. simpl.
  destruct (write_segs_ok seg_to_bytes_v2 seg_from_bytes_v2 32 48 ltac:(lia) ltac:(lia)
              (onx_segs h) b 0) as (b' & Hw & Hl' & Hrd & Hk);
    [lia|by apply seg_ser_ok_v2|lia|].
  exists b'. split; [done|]. split; [lia|]. apply onx_v2_decode; try done; [|lia].
  apply (stored_keep b b' 0 24); [lia|apply onx_fields_asc| |done]. intros; apply Hrd; lia.
Qed.

Lemma onx_v2_roundtrip_witness :
  ∃ b, onx_to_bytes_v2 (mkOnxHeader ONX_MAGIC 2 0x10000 1 2
         [mkOnxSegment 0x10000 4 4096 80 10 4096 0 0]) = Ok b ∧ len b = 80.
Proof.
  destruct (onx_v2_roundtrip (mkOnxHeader ONX_MAGIC 2 0x10000 1 2
         [mkOnxSegment 0x10000 4 4096 80 10 4096 0 0])) as (b & Hb & Hl & _);
    [repeat (constructor; simpl); unfold u32, u64; lia|unfold ONX_MAX_SEGS; simpl; lia|].
  exists b. split; [exact Hb|exact Hl].
Defined.

(** A well-formed OnyxFS superblock with a known magic survives being
    written to a block and read back, the reserved words apart: those are
    written as zero and read as zero. *)
Theorem super_roundtrip (s : OnyfsSuper) :
  super_wf s → sb_magic s = ONYFS_MAGIC ∨ sb_magic s = ONYFS_MAGIC_V1 →
  sb_reserved s = replicate 10 0 →
  ∃ b, super_to_bytes s = Ok b ∧ len b = 128 ∧ super_from_bytes b = Ok (Some s).
Proof.
  intros (?&?&?&?&?&?&?&?&?&?&?&?&?&?&?&?) Hm Hr.
  unfold super_to_bytes, SUPER_SIZE.
  match goal with |- context [puts ?fs _] =>
    destruct (puts_asc fs (zeros 128) 0) as (b & Hp & Hl & _ & Hst) end; [lia|solve_asc|].
  exists b. rewrite len_zeros in Hl by lia. split; [done|]. split; [done|].
  split_stored. unfold super_from_bytes, SUPER_SIZE. rewrite (proj2 (Z.ltb_ge _ _)) by lia.
  rewrite (le32_at_stored b 0 4 (sb_magic s)) by (first [eassumption | lia]). rewrite bind_ok.
  assert (negb (sb_magic s =? ONYFS_MAGIC) && negb (sb_magic s =? ONYFS_MAGIC_V1) = false) as ->.
  { destruct Hm as [-> | ->]; done. }
  decode_fields. rewrite <- Hr. by destruct s.
Qed.

Lemma super_roundtrip_witness :
  ∃ b, super_to_bytes (mkOnyfsSuper ONYFS_MAGIC 2 4096 1024 64 2 6 7 1 900 0 500 32 15 7 8
         (replicate 10 0)) = Ok b ∧ len b = 128.
Proof.
  destruct (super_roundtrip (mkOnyfsSuper ONYFS_MAGIC 2 4096 1024 64 2 6 7 1 900 0 500 32 15 7 8
         (replicate 10 0))) as (b & Hb & Hl & _);
    [unfold super_wf, u32, u64, ONYFS_MAGIC; simpl; lia|by left|done|].
  exists b. split; [exact Hb|exact Hl].
Defined.

(** A well-formed inode survives a write to the inode table and a read
    back in every field but [ctime], which the 128-byte layout does not hold:
    it always reads as zero. *)
Theorem inode_roundtrip (n : OnyfsInode) :
  inode_wf n →
  ∃ b, inode_to_bytes n = Ok b ∧ len b = INODE_SIZE ∧
       inode_from_bytes b = Ok (Some (without_ctime n)).
Proof. intros H. destruct (inode_rt n H) as (b & ? & ? & _ & ?). eauto. Qed.

Lemma inode_roundtrip_witness :
  ∃ b, inode_to_bytes (mkOnyfsInode 33261 5 0 0 1 (7 :: replicate 9 0) 0 0 1 2 3 4 0 0) = Ok b
       ∧ len b = INODE_SIZE.
Proof.
  destruct (inode_roundtrip (mkOnyfsInode 33261 5 0 0 1 (7 :: replicate 9 0) 0 0 1 2 3 4 0 0))
    as (b & Hb & Hl & _); [unfold inode_wf; simpl; repeat split; try (unfold u32, u64; lia);
      repeat constructor; unfold u32; lia|].
  exists b. split; [exact Hb|exact Hl].
Defined.

(** Directory entries and snapshot records survive a write and a read back
    in full (the reserved words of a snapshot record are zero). *)
Theorem dirent_snapmeta_roundtrip (d : OnyfsDirent) (m : SnapshotMeta) :
  dirent_wf d → snapmeta_wf m → sn_reserved m = replicate 4 0 →
  (∃ b, dirent_to_bytes d = Ok b ∧ len b = DIRENT_SIZE ∧ dirent_from_bytes b = Ok (Some d)) ∧
  (∃ b, snapmeta_to_bytes m = Ok b ∧ len b = SNAPMETA_SIZE ∧
        snapmeta_from_bytes b = Ok (Some m)).
Proof.
  intros Hd Hm Hr. split; [by apply dirent_rt|by apply snapmeta_rt].
Qed.

Lemma dirent_snapmeta_roundtrip_witness :
  ∃ b, dirent_to_bytes (mkOnyfsDirent (replicate 32 65) 3 8 32 [0; 0]) = Ok b ∧ len b = 40.
Proof.
  destruct (dirent_snapmeta_roundtrip (mkOnyfsDirent (replicate 32 65) 3 8 32 [0; 0])
              (mkSnapshotMeta 1 2 1 4 (replicate 32 66) 0 0 (replicate 4 0)))
    as [(b & Hb & Hl & _) _].
  - unfold dirent_wf; simpl; repeat split; try (unfold u8, u32; lia);
      repeat constructor; unfold u8; lia.
  - unfold snapmeta_wf; simpl; repeat split; try (unfold u32, u64; lia);
      repeat constructor; unfold u8; lia.
  - reflexivity.
  - exists b. split; [exact Hb|exact Hl].
Defined.

(** [OnxHeader::from_bytes] is total on arbitrary bytes: it never panics,
    and a header it accepts has the magic, a known version and exactly
    [nsegs] segments, at most 8 in version 1 and at most [ONX_MAX_SEGS] in
    version 2, all of them inside the buffer. *)
Theorem onx_parse_total (buf : list Z) :
  Forall u8 buf →
  ∃ r, onx_from_bytes buf = Ok r ∧
  (∀ h, r = Some h →
     onx_magic h = ONX_MAGIC ∧ len (onx_segs h) = onx_nsegs h ∧
     ((onx_version h = 1 ∧ onx_nsegs h ≤ 8 ∧ V1_HEADER_SIZE ≤ len buf) ∨
      (onx_version h = 2 ∧ onx_nsegs h ≤ ONX_MAX_SEGS ∧
       V2_HEADER_SIZE + onx_nsegs h * SEG_SIZE_V2 ≤ len buf))).
Proof.
  intros Hu. destruct (onx_total buf Hu) as [r E].
  exists r. split; [done|]. intros h ->. by apply onx_accepts.
Qed.

Lemma onx_parse_total_witness :
  ∃ r, onx_from_bytes (replicate 30 0x4F) = Ok r.
Proof.
  destruct (onx_parse_total (replicate 30 0x4F)) as (r & Hr & _);
    [repeat constructor; unfold u8; lia|].
  exists r. exact Hr.
Defined.

(** [Fat32Bpb::from_bytes] checks for 90 bytes but reads byte 510: every
    buffer of 90 to 510 bytes makes it panic instead of returning [None]. *)
Theorem bpb_short_buffer_panics (buf : list Z) :
  90 ≤ len buf ≤ 510 → bpb_from_bytes buf = Panic.
Proof.
  intros H. unfold bpb_from_bytes. rewrite (proj2 (Z.ltb_ge _ _)) by lia.
  assert (idx buf 510 = Panic) as ->; [|done]. unfold idx.
  rewrite lookup_ge_None_2; [done|]. unfold len in H. lia.
Qed.

Lemma bpb_short_buffer_panics_witness : bpb_from_bytes (zeros 128) = Panic.
Proof. apply bpb_short_buffer_panics. vm_compute. split; discriminate. Defined.

End FormatTheorems.
