(* ===== verification/Compress.v ===== *)
(** * kernel/src/fs/onyxfs/compress.rs: the RLE codec of the snapshot area

    [rle_compress] and [rle_decompress] are the loops of the source with their
    index arithmetic: [src] and [dst] are the slices, the returned pair is the
    [usize] result and the contents of [dst] afterwards.  Loop bodies run under
    fuel; the fuel passed by the entry points is the length of [src] (every
    iteration consumes input), which the equivalence theorems show is enough.
    [encode] and [decode] are the reference definitions on whole lists. *)

From S2P Require Import Prelude.
From stdpp Require Import base list numbers.
From Stdlib Require Import ZArith Lia.

Open Scope Z_scope.

(** ** The source's loops *)

(** [while i + run < n && src[i + run] == cur && run < 128 { run += 1 }];
    the literal scan uses the same loop from [k = 0] up to 3. *)
Fixpoint count_run (fuel : nat) (src : list Z) (i run cur max : Z) : result Z :=
  match fuel with
  | O => mret run
  | S fuel =>
      if i + run <? len src then
        b ← idx src (i + run);
        if (b =? cur) && (run <? max) then count_run fuel src i (run + 1) cur max
        else mret run
      else mret run
  end.

(** [while i + lit_len < n && lit_len < 128 { .. if k >= 3 { break } lit_len += 1 }] *)
Fixpoint count_lit (fuel : nat) (src : list Z) (i lit_len : Z) : result Z :=
  match fuel with
  | O => mret lit_len
  | S fuel =>
      if (i + lit_len <? len src) && (lit_len <? 128) then
        b ← idx src (i + lit_len);
        k ← count_run 4 src (i + lit_len) 0 b 3;
        if 3 <=? k then mret lit_len
        else count_lit fuel src i (lit_len + 1)
      else mret lit_len
  end.

(** [for j in j0..j0+n { dst[out + 1 + j] = src[lit_start + j] }] *)
Fixpoint copy_bytes (n : nat) (src : list Z) (from : Z) (dst : list Z) (to : Z)
    : result (list Z) :=
  match n with
  | O => mret dst
  | S n =>
      b ← idx src from;
      dst ← set_idx dst to b;
      copy_bytes n src (from + 1) dst (to + 1)
  end.

(** [for j in 0..count { dst[out + j] = val }] *)
Fixpoint fill_bytes (n : nat) (v : Z) (dst : list Z) (to : Z) : result (list Z) :=
  match n with
  | O => mret dst
  | S n => dst ← set_idx dst to v; fill_bytes n v dst (to + 1)
  end.

Fixpoint rle_compress_loop (fuel : nat) (src dst : list Z) (i out : Z)
    : result (Z * list Z) :=
  match fuel with
  | O => mret (out, dst)
  | S fuel =>
      if i <? len src then
        cur ← idx src i;
        run ← count_run 128 src i 1 cur 128;
        if 3 <=? run then
          if len dst <? out + 2 then mret (0, dst) else
          dst ← set_idx dst out (Z.lor 0x80 (w8 (run - 1)));
          dst ← set_idx dst (out + 1) cur;
          rle_compress_loop fuel src dst (i + run) (out + 2)
        else
          lit_len ← count_lit 129 src i 0;
          let lit_len := if lit_len =? 0 then 1 else lit_len in
          if len dst <? out + 1 + lit_len then mret (0, dst) else
          dst ← set_idx dst out (w8 (lit_len - 1));
          dst ← copy_bytes (Z.to_nat lit_len) src i dst (out + 1);
          rle_compress_loop fuel src dst (i + lit_len) (out + (1 + lit_len))
      else mret (out, dst)
  end.

Definition rle_compress (src dst : list Z) : result (Z * list Z) :=
  rle_compress_loop (S (length src)) src dst 0 0.

Fixpoint rle_decompress_loop (fuel : nat) (src dst : list Z) (i out : Z)
    : result (Z * list Z) :=
  match fuel with
  | O => mret (out, dst)
  | S fuel =>
      if (i <? len src) && (out <? len dst) then
        tag ← idx src i;
        let i := i + 1 in
        if negb (Z.land tag 0x80 =? 0) then
          let count := Z.land tag 0x7F + 1 in
          if (len src <=? i) || (len dst <? out + count) then mret (0, dst) else
          v ← idx src i;
          dst ← fill_bytes (Z.to_nat count) v dst out;
          rle_decompress_loop fuel src dst (i + 1) (out + count)
        else
          let count := tag + 1 in
          if (len src <? i + count) || (len dst <? out + count) then mret (0, dst) else
          dst ← copy_bytes (Z.to_nat count) src i dst out;
          rle_decompress_loop fuel src dst (i + count) (out + count)
      else mret (out, dst)
  end.

Definition rle_decompress (src dst : list Z) : result (Z * list Z) :=
  rle_decompress_loop (S (length src)) src dst 0 0.

(** ** Reference definitions *)

(** Leading elements equal to [c], at most [m]. *)
Fixpoint prefix_eq (m : nat) (c : Z) (l : list Z) : nat :=
  match m, l with
  | S m, b :: l => if b =? c then S (prefix_eq m c l) else O
  | _, _ => O
  end.

(** Leading elements before the first run of three, at most [m]. *)
Fixpoint lit_run (m : nat) (l : list Z) : nat :=
  match m, l with
  | S m, b :: l' => if (3 <=? prefix_eq 3 b l)%nat then O else S (lit_run m l')
  | _, _ => O
  end.

Definition packet (l : list Z) : nat * list Z :=
  match l with
  | [] => (O, [])
  | b :: _ =>
      let run := prefix_eq 128 b l in
      if (3 <=? run)%nat then (run, [128 + Z.of_nat run - 1; b])
      else let m := lit_run 128 l in (m, (Z.of_nat m - 1) :: take m l)
  end.

Fixpoint encode_fuel (fuel : nat) (l : list Z) : list Z :=
  match fuel with
  | O => []
  | S fuel =>
      match l with
      | [] => []
      | _ => let '(n, p) := packet l in p ++ encode_fuel fuel (drop n l)
      end
  end.

Definition encode (l : list Z) : list Z := encode_fuel (S (length l)) l.

(** ** The loops compute the reference definitions *)

Lemma prefix_eq_le m c l : (prefix_eq m c l ≤ m)%nat.
Proof. revert l. induction m; intros [|b l]; simpl; try lia. case_match; [|lia]. specialize (IHm l). lia. Qed.

Lemma prefix_eq_le_length m c l : (prefix_eq m c l ≤ length l)%nat.
Proof. revert l. induction m; intros [|b l]; simpl; try lia. case_match; [|lia]. specialize (IHm l). lia. Qed.

Lemma prefix_eq_take m c l : take (prefix_eq m c l) l = replicate (prefix_eq m c l) c.
Proof.
  revert l. induction m as [|m IH]; intros [|b l]; simpl; try done.
  case_match; [|done]. bool_prop. subst. simpl. by rewrite IH.
Qed.

Lemma prefix_eq_mono m m' c l : (m ≤ m')%nat → (prefix_eq m c l ≤ prefix_eq m' c l)%nat.
Proof.
  revert m' l. induction m as [|m IH]; intros [|m'] [|b l] H; simpl; try lia.
  case_match; [|lia]. specialize (IH m' l). lia.
Qed.

Lemma lit_run_le m l : (lit_run m l ≤ m)%nat.
Proof. revert l. induction m; intros [|b l]; simpl lit_run; try lia. case_match; [lia|]. specialize (IHm l). lia. Qed.

Lemma lit_run_le_length m l : (lit_run m l ≤ length l)%nat.
Proof. revert l. induction m; intros [|b l]; simpl lit_run; try lia. case_match; [lia|]. specialize (IHm l). simpl. lia. Qed.

Lemma count_run_spec fuel src i run cur mx :
  0 ≤ i → 0 ≤ run ≤ mx → (Z.to_nat (mx - run) < fuel)%nat →
  count_run fuel src i run cur mx =
    Ok (run + Z.of_nat (prefix_eq (Z.to_nat (mx - run)) cur (drop (Z.to_nat (i + run)) src))).
Proof.
  intros Hi. revert run. induction fuel as [|fuel IH]; intros run Hr Hf; [lia|]. simpl.
  destruct (Z.ltb_spec (i + run) (len src)).
  - destruct (drop_cons_lt src (i + run)) as (b & r & Hd & Hd'); [lia|].
    rewrite (idx_drop src (i + run) b r) by (done || lia). rewrite bind_ok, Hd.
    destruct (Z.ltb_spec run mx).
    + replace (Z.to_nat (mx - run)) with (S (Z.to_nat (mx - (run + 1)))) by lia. simpl.
      destruct (b =? cur) eqn:E; simpl; [|f_equal; lia].
      rewrite IH by lia. replace (i + (run + 1)) with (i + run + 1) by lia.
      rewrite Hd'. f_equal. lia.
    + rewrite andb_false_r. replace (Z.to_nat (mx - run)) with 0%nat by lia.
      simpl. f_equal. lia.
  - rewrite drop_ge_nil by lia.
    destruct (Z.to_nat (mx - run)); simpl; f_equal; lia.
Qed.

Lemma count_lit_spec fuel src i lit :
  0 ≤ i → 0 ≤ lit ≤ 128 → (Z.to_nat (128 - lit) < fuel)%nat →
  count_lit fuel src i lit =
    Ok (lit + Z.of_nat (lit_run (Z.to_nat (128 - lit)) (drop (Z.to_nat (i + lit)) src))).
Proof.
  intros Hi. revert lit. induction fuel as [|fuel IH]; intros lit Hr Hf; [lia|].
  cbn [count_lit].
  destruct (Z.ltb_spec (i + lit) (len src)); destruct (Z.ltb_spec lit 128); cbn [andb];
    [| replace (Z.to_nat (128 - lit)) with 0%nat by lia; simpl; f_equal; lia
     | rewrite drop_ge_nil by lia; destruct (Z.to_nat (128 - lit)); simpl; f_equal; lia
     | rewrite drop_ge_nil by lia; destruct (Z.to_nat (128 - lit)); simpl; f_equal; lia].
  destruct (drop_cons_lt src (i + lit)) as (b & r & Hd & Hd'); [lia|].
  rewrite (idx_drop src (i + lit) b r) by (done || lia). rewrite bind_ok.
  rewrite count_run_spec by lia. rewrite bind_ok, !Z.add_0_l, Z.add_0_r, Z.sub_0_r, Hd.
  replace (Z.to_nat (128 - lit)) with (S (Z.to_nat (128 - (lit + 1)))) by lia.
  cbn [lit_run]. change (Z.to_nat 3) with 3%nat.
  destruct (Nat.leb_spec 3 (prefix_eq 3 b (b :: r))), (Z.leb_spec 3 (Z.of_nat (prefix_eq 3 b (b :: r))));
    try lia; [simpl; f_equal; lia|].
  rewrite IH by lia. replace (i + (lit + 1)) with (i + lit + 1) by lia. rewrite Hd'.
  f_equal. lia.
Qed.

Lemma copy_bytes_spec n src from dst to :
  0 ≤ from → 0 ≤ to → from + Z.of_nat n ≤ len src → to + Z.of_nat n ≤ len dst →
  copy_bytes n src from dst to = Ok (wr to (rd from (Z.of_nat n) src) dst).
Proof.
  revert from dst to. induction n as [|n IH]; intros from dst to Hf Ht Hs Hd; simpl copy_bytes.
  - change (rd from (Z.of_nat 0) src) with (@nil Z). by rewrite wr_nil by lia.
  - destruct (drop_cons_lt src from) as (b & r & E & E'); [lia|].
    rewrite (idx_drop src from b r) by (done || lia). rewrite bind_ok.
    rewrite set_idx_wr by lia. rewrite bind_ok.
    assert (len [b] = 1) by done.
    rewrite IH by (try rewrite len_wr; lia). f_equal.
    rewrite wr_cons by (rewrite ?len_rd by lia; lia). f_equal.
    unfold rd. rewrite E, E'. rewrite Nat2Z.inj_succ, Z2Nat.inj_succ by lia. simpl.
    by rewrite Nat2Z.id.
Qed.

Lemma fill_bytes_spec n v dst to :
  0 ≤ to → to + Z.of_nat n ≤ len dst →
  fill_bytes n v dst to = Ok (wr to (replicate n v) dst).
Proof.
  revert dst to. induction n as [|n IH]; intros dst to Ht Hd; simpl fill_bytes.
  - simpl. by rewrite wr_nil by lia.
  - rewrite set_idx_wr by lia. rewrite bind_ok. assert (len [v] = 1) by done.
    rewrite IH by (try rewrite len_wr; lia). f_equal.
    rewrite wr_cons; [done|lia|]. unfold len at 1. rewrite length_replicate. lia.
Qed.

(** ** Packets *)

Lemma lit_run_pos b l :
  (prefix_eq 128 b (b :: l) < 3)%nat → (1 ≤ lit_run 128 (b :: l))%nat.
Proof.
  intros H. cbn [lit_run].
  pose proof (prefix_eq_mono 3 128 b (b :: l)).
  destruct (Nat.leb_spec 3 (prefix_eq 3 b (b :: l))); lia.
Qed.

(** The two shapes of the packet at the head of a non-empty input. *)
Lemma packet_cases b l :
  (∃ run : nat, packet (b :: l) = (run, [128 + Z.of_nat run - 1; b]) ∧
     run = prefix_eq 128 b (b :: l) ∧ (3 ≤ run ≤ 128)%nat ∧ (run ≤ length (b :: l))%nat ∧
     take run (b :: l) = replicate run b) ∨
  (∃ m : nat, packet (b :: l) = (m, (Z.of_nat m - 1) :: take m (b :: l)) ∧
     (prefix_eq 128 b (b :: l) < 3)%nat ∧ m = lit_run 128 (b :: l) ∧
     (1 ≤ m ≤ 128)%nat ∧ (m ≤ length (b :: l))%nat).
Proof.
  unfold packet. destruct (Nat.leb_spec 3 (prefix_eq 128 b (b :: l))).
  - left. eexists. split; [done|]. split; [done|].
    pose proof (prefix_eq_le 128 b (b :: l)).
    split; [lia|]. split; [apply prefix_eq_le_length|apply prefix_eq_take].
  - right. eexists. split; [done|]. split; [done|]. split; [done|].
    pose proof (lit_run_le 128 (b :: l)). pose proof (lit_run_pos b l).
    split; [lia|]. apply lit_run_le_length.
Qed.

Lemma packet_pos b l n p :
  packet (b :: l) = (n, p) → (1 ≤ n)%nat ∧ (n ≤ length (b :: l))%nat.
Proof.
  intros H. destruct (packet_cases b l) as [(r & E & _ & ? & ? & _)|(m & E & _ & _ & ? & ?)];
    rewrite E in H; injection H as <- <-; lia.
Qed.

Lemma packet_bytes_pos b l : 0 < len (packet (b :: l)).2.
Proof.
  destruct (packet_cases b l) as [(?&->&_)|(m&->&_)]; cbn [snd]; rewrite len_cons;
    [done|]. pose proof (len_nonneg (take m (b :: l))). lia.
Qed.

Lemma encode_fuel_enough f f' l :
  (length l < f)%nat → (length l < f')%nat → encode_fuel f l = encode_fuel f' l.
Proof.
  revert f' l. induction f as [|f IH]; intros [|f'] l Hf Hf'; try lia.
  destruct l as [|b l]; [done|]. cbn [encode_fuel].
  destruct (packet (b :: l)) as [n p] eqn:E. apply packet_pos in E as [? ?].
  f_equal. apply IH; rewrite length_drop; lia.
Qed.

Lemma encode_cons b l :
  encode (b :: l) = (packet (b :: l)).2 ++ encode (drop (packet (b :: l)).1 (b :: l)).
Proof.
  unfold encode at 1. cbn [encode_fuel].
  destruct (packet (b :: l)) as [n p] eqn:E. cbn [fst snd]. apply packet_pos in E as [? ?].
  f_equal. apply encode_fuel_enough; [rewrite length_drop; lia|lia].
Qed.

Lemma w8_small z : 0 ≤ z < 256 → w8 z = z.
Proof. apply Z.mod_small. Qed.

Lemma tag_run run : 0 ≤ run < 128 → Z.lor 0x80 run = 128 + run.
Proof.
  intros H. apply Z.eqb_eq.
  exact (below_by_eval (λ r, Z.lor 0x80 r =? 128 + r) 128 eq_refl run H).
Qed.

(** How the decompressor reads a run tag and a literal tag back. *)
Lemma untag_run run :
  0 ≤ run < 128 → Z.land (128 + run) 0x80 = 128 ∧ Z.land (128 + run) 0x7F = run.
Proof.
  intros H. split; apply Z.eqb_eq.
  - exact (below_by_eval (λ r, Z.land (128 + r) 0x80 =? 128) 128 eq_refl run H).
  - exact (below_by_eval (λ r, Z.land (128 + r) 0x7F =? r) 128 eq_refl run H).
Qed.

Lemma untag_lit m : 0 ≤ m < 128 → Z.land m 0x80 = 0.
Proof.
  intros H. apply Z.eqb_eq.
  exact (below_by_eval (λ r, Z.land r 0x80 =? 0) 128 eq_refl m H).
Qed.

Lemma drop_step (l : list Z) i (n : nat) :
  0 ≤ i → drop n (drop (Z.to_nat i) l) = drop (Z.to_nat (i + Z.of_nat n)) l.
Proof. intros. rewrite drop_drop. f_equal. lia. Qed.

(** What the compressor returns from output position [out] when [e] is the
    encoding of the rest of the input: [e] appended, or 0 if it does not fit. *)
Definition compress_post (dst : list Z) (out : Z) (e : list Z) (r : result (Z * list Z)) : Prop :=
  ∃ dst', r = Ok (if out + len e <=? len dst then (out + len e, wr out e dst) else (0, dst')).

Lemma compress_post_app dst out p e r :
  0 ≤ out → out + len p ≤ len dst →
  compress_post (wr out p dst) (out + len p) e r → compress_post dst out (p ++ e) r.
Proof.
  intros Ho Hp [dst' ->]. pose proof (len_nonneg p). pose proof (len_nonneg e).
  exists dst'. rewrite len_wr, len_app by lia.
  rewrite (Z.add_assoc out (len p) (len e)). case_if Ele; [|done]. bool_prop.
  by rewrite wr_wr by lia.
Qed.

Lemma compress_post_full dst out p e :
  len dst < out + len p → compress_post dst out (p ++ e) (Ok (0, dst)).
Proof.
  intros H. pose proof (len_nonneg e). exists dst.
  rewrite len_app. by rewrite (proj2 (Z.leb_gt _ _)) by lia.
Qed.

Lemma len1 (x : Z) : len [x] = 1.
Proof. done. Qed.

(** One iteration: the packet at the head of the input is appended. *)
Lemma rle_compress_step fuel src dst i out b r n p :
  0 ≤ i → drop (Z.to_nat i) src = b :: r → packet (b :: r) = (n, p) →
  0 ≤ out ≤ len dst →
  rle_compress_loop (S fuel) src dst i out =
    if len dst <? out + len p then Ok (0, dst)
    else rle_compress_loop fuel src (wr out p dst) (i + Z.of_nat n) (out + len p).
Proof.
  intros Hi Hd Hp Hout. cbn [rle_compress_loop].
  assert (len src - i = Z.of_nat (length (b :: r))) as Hlen.
  { rewrite <- Hd, length_drop. assert (i < len src); [|unfold len in *; lia].
    destruct (Z.lt_ge_cases i (len src)); [done|]. by rewrite drop_ge_nil in Hd. }
  assert (i < len src) by (simpl length in Hlen; lia).
  rewrite (proj2 (Z.ltb_lt i _)) by lia.
  rewrite (idx_drop src i b r) by (done || lia). rewrite bind_ok.
  rewrite count_run_spec by lia. rewrite bind_ok.
  assert (drop (Z.to_nat (i + 1)) src = r) as ->.
  { destruct (drop_cons_lt src i) as (b' & r' & E1 & E2); [lia|]. congruence. }
  replace (1 + Z.of_nat (prefix_eq (Z.to_nat (128 - 1)) b r))
    with (Z.of_nat (prefix_eq 128 b (b :: r))) by (simpl; rewrite Z.eqb_refl; lia).
  destruct (packet_cases b r) as [(run & E & Hrun & Hr1 & Hr2 & _)|(m & E & Hpr & Hm & Hm1 & Hm2)];
    rewrite Hp in E; injection E as -> ->.
  - rewrite <- Hrun, (proj2 (Z.leb_le 3 _)) by lia.
    change (len [128 + Z.of_nat run - 1; b]) with 2.
    case_if E; [done|]. bool_prop. rewrite w8_small, tag_run by lia.
    rewrite set_idx_wr by lia. rewrite bind_ok.
    rewrite set_idx_wr by (rewrite len_wr; rewrite ?len1; lia). rewrite bind_ok.
    rewrite wr_cons by (rewrite ?len1; lia). do 3 f_equal. lia.
  - rewrite (proj2 (Z.leb_gt 3 _)) by lia.
    rewrite count_lit_spec by lia. rewrite bind_ok, !Z.add_0_r, Z.add_0_l, Hd.
    change (Z.to_nat (128 - 0)) with 128%nat. rewrite <- Hm.
    rewrite (proj2 (Z.eqb_neq _ 0)), len_cons by lia.
    assert (len (take m (b :: r)) = Z.of_nat m) as Lt by (unfold len; rewrite length_take; lia).
    rewrite Lt, <- Z.add_assoc. case_if E; [done|]. bool_prop.
    rewrite w8_small by lia. rewrite set_idx_wr by lia. rewrite bind_ok.
    rewrite copy_bytes_spec by (rewrite ?len_wr, ?len1; rewrite ?len1; lia).
    rewrite bind_ok, !Nat2Z.id. rewrite wr_cons by (rewrite ?len_rd; lia).
    assert (rd i (Z.of_nat m) src = take m (b :: r)) as ->; [|done].
    unfold rd. by rewrite Hd, Nat2Z.id.
Qed.

Lemma rle_compress_loop_spec fuel src dst i out :
  0 ≤ i ≤ len src → 0 ≤ out ≤ len dst → (length (drop (Z.to_nat i) src) < fuel)%nat →
  compress_post dst out (encode (drop (Z.to_nat i) src)) (rle_compress_loop fuel src dst i out).
Proof.
  revert dst i out. induction fuel as [|fuel IH]; intros dst i out Hi Hout Hf; [lia|].
  destruct (drop (Z.to_nat i) src) as [|b r] eqn:Hd.
  - simpl. assert (len src ≤ i).
    { apply (f_equal length) in Hd. rewrite length_drop in Hd. unfold len in *. simpl in Hd. lia. }
    rewrite (proj2 (Z.ltb_ge _ _)) by lia. exists dst. change (encode []) with (@nil Z).
    change (len (@nil Z)) with 0. rewrite Z.add_0_r, (proj2 (Z.leb_le _ _)), wr_nil by lia. done.
  - rewrite encode_cons. destruct (packet (b :: r)) as [n p] eqn:Hp; cbn [fst snd].
    rewrite (rle_compress_step fuel src dst i out b r n p) by (done || lia).
    pose proof (packet_pos _ _ _ _ Hp) as [Hn1 Hn2]. pose proof (len_nonneg p).
    case_if E; bool_prop; [by apply compress_post_full|].
    apply compress_post_app; [lia|lia|]. rewrite <- Hd, drop_step by lia.
    assert (Z.of_nat (length (b :: r)) = len src - i) as Hl.
    { rewrite <- Hd, length_drop. unfold len in *. lia. }
    apply IH; [lia|rewrite len_wr; lia|].
    rewrite <- drop_step, Hd, length_drop by lia. lia.
Qed.

Lemma rle_compress_spec src dst :
  ∃ dst', rle_compress src dst =
    Ok (if len (encode src) <=? len dst
        then (len (encode src), wr 0 (encode src) dst) else (0, dst')).
Proof.
  pose proof (len_nonneg src). pose proof (len_nonneg dst).
  destruct (rle_compress_loop_spec (S (length src)) src dst 0 0) as [dst' H'];
    [lia|lia|change (drop (Z.to_nat 0) src) with src; lia|].
  exists dst'. exact H'.
Qed.

(** ** Decompression *)

Lemma drop_app_len (l p q : list Z) i :
  0 ≤ i → drop (Z.to_nat i) l = p ++ q → drop (Z.to_nat (i + len p)) l = q.
Proof.
  intros Hi H. replace (Z.to_nat (i + len p)) with (Z.to_nat i + length p)%nat
    by (unfold len; lia).
  rewrite <- drop_drop, H. by rewrite drop_app_length.
Qed.

Lemma rd_app_len (l p q : list Z) i :
  0 ≤ i → drop (Z.to_nat i) l = p ++ q → rd i (len p) l = p.
Proof.
  intros Hi H. unfold rd, len. rewrite H, Nat2Z.id. by rewrite take_app_length.
Qed.

Lemma drop_len (l q : list Z) i :
  0 ≤ i → drop (Z.to_nat i) l = q → q ≠ [] → i + len q = len l.
Proof.
  intros Hi H Hq. assert (length q = length l - Z.to_nat i)%nat as E
    by (rewrite <- H; apply length_drop).
  unfold len. destruct q; [done|]. simpl length in *. lia.
Qed.

(** One iteration: the packet at the head of the encoding is expanded. *)
Lemma rle_decompress_step fuel src dst i out b r :
  0 ≤ i → 0 ≤ out → out + len (b :: r) ≤ len dst →
  drop (Z.to_nat i) src = encode (b :: r) →
  let n := (packet (b :: r)).1 in
  let p := (packet (b :: r)).2 in
  rle_decompress_loop (S fuel) src dst i out =
    rle_decompress_loop fuel src (wr out (take n (b :: r)) dst) (i + len p) (out + Z.of_nat n).
Proof.
  intros Hi Ho Hfit Hd. rewrite encode_cons in Hd.
  assert (i + len ((packet (b :: r)).2 ++ encode (drop (packet (b :: r)).1 (b :: r))) = len src) as Hl.
  { apply drop_len; [lia|done|].
    destruct (packet_cases b r) as [(?&->&_)|(?&->&_)]; simpl; done. }
  rewrite len_app in Hl. rewrite len_cons in Hfit.
  pose proof (len_nonneg (encode (drop (packet (b :: r)).1 (b :: r)))).
  pose proof (len_nonneg r). cbn [rle_decompress_loop].
  destruct (packet_cases b r) as [(run & E & Hrun & Hr1 & Hr2 & Ht)|(m & E & _ & Hm & Hm1 & Hm2)];
    rewrite E in *; cbn [fst snd] in *.
  - change (len [128 + Z.of_nat run - 1; b]) with 2 in *.
    rewrite (proj2 (Z.ltb_lt i _)), (proj2 (Z.ltb_lt out _)) by lia. cbn [andb].
    rewrite (idx_drop src i _ _ Hi Hd), bind_ok.
    replace (128 + Z.of_nat run - 1) with (128 + (Z.of_nat run - 1)) by lia.
    destruct (untag_run (Z.of_nat run - 1)) as [-> ->]; [lia|]. cbn [negb Z.eqb].
    simpl length in Hr2. unfold len in Hfit.
    rewrite (proj2 (Z.leb_gt _ (i + 1))), (proj2 (Z.ltb_ge _ (out + _))) by (unfold len in *; lia).
    cbn [orb]. assert (drop (Z.to_nat (i + 1)) src = b :: encode (drop run (b :: r))) as Hd1.
    { exact (drop_app_len src [128 + Z.of_nat run - 1] _ i Hi Hd). }
    rewrite (idx_drop src (i + 1) _ _ ltac:(lia) Hd1), bind_ok.
    replace (Z.of_nat run - 1 + 1) with (Z.of_nat run) by lia. rewrite Nat2Z.id.
    rewrite fill_bytes_spec by (unfold len; lia). rewrite bind_ok, Ht. f_equal. lia.
  - rewrite len_cons in *.
    assert (len (take m (b :: r)) = Z.of_nat m) as Lt by (unfold len; rewrite length_take; lia).
    rewrite Lt in *. simpl length in Hm2.
    rewrite (proj2 (Z.ltb_lt i _)), (proj2 (Z.ltb_lt out _)) by lia. cbn [andb].
    rewrite (idx_drop src i _ _ Hi Hd), bind_ok.
    rewrite untag_lit by lia. cbn [negb Z.eqb].
    unfold len in Hfit.
    rewrite (proj2 (Z.ltb_ge _ (i + 1 + _))), (proj2 (Z.ltb_ge _ (out + _))) by (unfold len in *; lia).
    cbn [orb].
    assert (drop (Z.to_nat (i + 1)) src = take m (b :: r) ++ encode (drop m (b :: r))) as Hd1.
    { exact (drop_app_len src [Z.of_nat m - 1] _ i Hi Hd). }
    replace (Z.to_nat (Z.of_nat m - 1 + 1)) with m by lia.
    rewrite copy_bytes_spec by (unfold len in *; lia). rewrite bind_ok.
    assert (rd (i + 1) (Z.of_nat m) src = take m (b :: r)) as Hrd.
    { rewrite <- Lt at 1. apply (rd_app_len src _ (encode (drop m (b :: r)))); [lia|done]. }
    rewrite Hrd. f_equal; lia.
Qed.

Lemma rle_decompress_loop_spec fuel src dst i out l :
  0 ≤ i ≤ len src → 0 ≤ out → out + len l ≤ len dst →
  drop (Z.to_nat i) src = encode l → (length (encode l) < fuel)%nat →
  rle_decompress_loop fuel src dst i out = Ok (out + len l, wr out l dst).
Proof.
  revert dst i out l. induction fuel as [|fuel IH]; intros dst i out l Hi Ho Hfit Hd Hf; [lia|].
  destruct l as [|b r].
  - change (encode []) with (@nil Z) in Hd. cbn [rle_decompress_loop].
    apply (f_equal length) in Hd. rewrite length_drop in Hd. simpl in Hd.
    rewrite (proj2 (Z.ltb_ge i _)) by (unfold len in *; lia). cbn [andb].
    change (len (@nil Z)) with 0 in *. by rewrite Z.add_0_r, wr_nil by lia.
  - rewrite rle_decompress_step with (b := b) (r := r) by (done || lia).
    pose proof (packet_bytes_pos b r) as Hpp. rewrite encode_cons in Hd, Hf.
    destruct (packet (b :: r)) as [n p] eqn:Hp; cbn [fst snd] in *.
    pose proof (packet_pos _ _ _ _ Hp) as [Hn1 Hn2].
    assert (len (take n (b :: r)) = Z.of_nat n) as Lt by (unfold len; rewrite length_take; lia).
    assert (len (take n (b :: r)) + len (drop n (b :: r)) = len (b :: r)) as Ltd
      by (rewrite <- len_app, take_drop; done).
    pose proof (len_nonneg (drop n (b :: r))).
    rewrite (IH _ _ _ (drop n (b :: r))).
    + rewrite <- Lt at 2. rewrite wr_wr, take_drop by lia. do 2 f_equal. lia.
    + split; [lia|]. apply (f_equal len) in Hd. rewrite len_app in Hd.
      pose proof (len_nonneg (encode (drop n (b :: r)))).
      unfold len in Hd at 1. rewrite length_drop in Hd. unfold len in *. lia.
    + lia.
    + rewrite len_wr by lia. lia.
    + apply drop_app_len; [lia|done].
    + rewrite length_app in Hf. unfold len in Hpp. lia.
Qed.

(** ** Size bound *)

(** The encoding of an input that is empty or starts with a run is at most
    [n + n/128] bytes long, of any other input at most one byte longer. *)
Definition starts_run (l : list Z) : Prop :=
  match l with [] => True | b :: _ => (3 ≤ prefix_eq 3 b l)%nat end.

(** A literal packet shorter than 128 bytes stops at a run or at the end. *)
Lemma lit_run_stops m l :
  (lit_run m l < m)%nat → starts_run (drop (lit_run m l) l).
Proof.
  revert l. induction m as [|m IH]; intros l H; [lia|].
  destruct l as [|b l]; [done|]. cbn [lit_run] in *.
  destruct (Nat.leb_spec 3 (prefix_eq 3 b (b :: l))); [done|].
  simpl. apply IH. lia.
Qed.

Lemma encode_size (n : nat) (l : list Z) :
  (length l < n)%nat →
  len (encode l) ≤ len l + len l / 128 + 1 ∧
  (starts_run l → len (encode l) ≤ len l + len l / 128).
Proof.
  revert l. induction n as [|n IH]; intros l Hn; [lia|].
  destruct l as [|b r]; [split; [done|intros; done]|].
  rewrite encode_cons, len_app.
  destruct (packet_cases b r) as [(run & E & Hrun & Hr1 & Hr2 & _)|(m & E & Hpr & Hm & Hm1 & Hm2)];
    rewrite E; cbn [fst snd].
  - change (len [128 + Z.of_nat run - 1; b]) with 2.
    destruct (IH (drop run (b :: r))) as [IH1 _]; [rewrite length_drop; lia|].
    assert (len (b :: r) = Z.of_nat run + len (drop run (b :: r))) as ->
      by (unfold len; rewrite length_drop; lia).
    split; intros; Z.to_euclidean_division_equations; lia.
  - assert (len ((Z.of_nat m - 1) :: take m (b :: r)) = 1 + Z.of_nat m) as ->
      by (rewrite len_cons; unfold len; rewrite length_take; lia).
    destruct (IH (drop m (b :: r))) as [IH1 IH2]; [rewrite length_drop; lia|].
    assert (len (b :: r) = Z.of_nat m + len (drop m (b :: r))) as ->
      by (unfold len; rewrite length_drop; lia).
    split.
    + destruct (decide (m = 128%nat)) as [->|].
      * Z.to_euclidean_division_equations; lia.
      * specialize (IH2 ltac:(rewrite Hm; apply lit_run_stops; lia)).
        Z.to_euclidean_division_equations; lia.
    + intros Hs. change (3 ≤ prefix_eq 3 b (b :: r))%nat in Hs. pose proof (prefix_eq_mono 3 128 b (b :: r)). lia.
Qed.

Lemma encode_nonempty b r : 0 < len (encode (b :: r)).
Proof.
  rewrite encode_cons, len_app. pose proof (packet_bytes_pos b r).
  pose proof (len_nonneg (encode (drop (packet (b :: r)).1 (b :: r)))). lia.
Qed.

(** ** Decompression of arbitrary bytes *)

Lemma rle_decompress_loop_safe fuel src dst i out :
  Forall u8 src → 0 ≤ i → 0 ≤ out ≤ len dst →
  ∃ n dst', rle_decompress_loop fuel src dst i out = Ok (n, dst') ∧
    0 ≤ n ≤ len dst ∧ len dst' = len dst.
Proof.
  intros Hu. revert dst i out. induction fuel as [|fuel IH]; intros dst i out Hi Ho.
  - exists out, dst. done.
  - cbn [rle_decompress_loop]. case_if E; [|exists out, dst; done].
    bool_prop. destruct (idx_Some src i) as [tag Ht]; [lia|].
    assert (u8 tag) as Htag by (eapply Forall_lookup_1; eauto). unfold u8 in Htag.
    rewrite (idx_ok _ _ _ Ht) by lia. rewrite bind_ok.
    assert (0 ≤ Z.land tag 0x7F) as Hland by (apply Z.land_nonneg; lia).
    case_if E1; case_if E2; try (exists 0, dst; split; [done|]; split; [lia|done]); bool_prop.
    + destruct (idx_Some src (i + 1)) as [v Hv]; [lia|].
      rewrite (idx_ok _ _ _ Hv) by lia. rewrite bind_ok.
      rewrite fill_bytes_spec by lia. rewrite bind_ok.
      assert (len (wr out (replicate (Z.to_nat (Z.land tag 127 + 1)) v) dst) = len dst) as Hl.
      { apply len_wr; [lia|]. rewrite len_replicate; lia. }
      destruct (IH (wr out (replicate (Z.to_nat (Z.land tag 127 + 1)) v) dst) (i + 1 + 1)
                  (out + (Z.land tag 127 + 1))) as (n & dst' & -> & ? & ?); [lia|lia|].
      exists n, dst'. rewrite Hl in *. done.
    + rewrite copy_bytes_spec by lia. rewrite bind_ok.
      set (d := wr _ _ dst). assert (len d = len dst) as Hl.
      { apply len_wr; [lia|]. rewrite len_rd; lia. }
      destruct (IH d (i + 1 + (tag + 1)) (out + (tag + 1))) as (n & dst' & -> & ? & ?); [lia|lia|].
      exists n, dst'. rewrite Hl in *. done.
Qed.

Module CompressTheorems.

(** [rle_compress] computes the reference encoding: when the encoding of
    [src] fits in [dst] it returns its length and stores it at the front of
    [dst]; otherwise it returns 0.  It never panics and its loops terminate. *)
Theorem rle_compress_equiv (src dst : list Z) :
  ∃ dst', rle_compress src dst =
    Ok (if len (encode src) <=? len dst
        then (len (encode src), wr 0 (encode src) dst) else (0, dst')).
Proof.
  exact (rle_compress_spec src dst).
Qed.

(** C40. Round trip: with an output buffer of the documented size
    ([n + n/128 + 2] bytes) every non-empty block compresses to a positive
    size within the buffer, and decompressing exactly that many bytes into a
    buffer of the original size restores the block. *)
Theorem rle_roundtrip (src dst out : list Z) :
  src ≠ [] → len src + len src / 128 + 2 ≤ len dst → len out = len src →
  ∃ n dst', rle_compress src dst = Ok (n, dst') ∧ 0 < n ≤ len src + len src / 128 + 1 ∧
    ∃ s, slice dst' 0 n = Ok s ∧ rle_decompress s out = Ok (len src, src).
Proof.
  intros Hne Hd Ho. destruct (rle_compress_spec src dst) as [dst' H].
  destruct (encode_size (S (length src)) src) as [Hsz _]; [lia|].
  assert (0 < len (encode src)) by (destruct src; [done|apply encode_nonempty]).
  rewrite (proj2 (Z.leb_le _ _)) in H by lia.
  exists (len (encode src)), (wr 0 (encode src) dst). split; [exact H|]. split; [lia|].
  exists (encode src). rewrite slice_ok by (rewrite ?len_wr; lia).
  rewrite Z.sub_0_r, rd_wr_eq by lia. split; [done|]. unfold rle_decompress.
  rewrite (rle_decompress_loop_spec _ (encode src) out 0 0 src); [|lia|lia|lia|done|lia].
  rewrite Z.add_0_l, <- (rd_all (wr 0 src out)), len_wr, Ho, rd_wr_eq by lia. done.
Qed.

Lemma rle_roundtrip_witness :
  ∃ n dst', rle_compress [5; 5; 5; 5; 9; 7] (zeros 10) = Ok (n, dst') ∧ 0 < n ≤ 7.
Proof.
  destruct (rle_roundtrip [5; 5; 5; 5; 9; 7] (zeros 10) (zeros 6)) as (n & d & H & Hn & _);
    [discriminate|vm_compute; discriminate|reflexivity|].
  exists n, d. split; [exact H|exact Hn].
Defined.

(** [rle_decompress] is safe on arbitrary (corrupt) input: it terminates
    without a panic, reports at most [dst.len()] bytes and keeps the size of
    [dst]. *)
Theorem rle_decompress_safe (src dst : list Z) :
  Forall u8 src →
  ∃ n dst', rle_decompress src dst = Ok (n, dst') ∧ 0 ≤ n ≤ len dst ∧ len dst' = len dst.
Proof.
  intros Hu. apply rle_decompress_loop_safe; [done|lia|].
  split; [lia|apply len_nonneg].
Qed.

Lemma rle_decompress_safe_witness :
  ∃ n dst', rle_decompress [255; 1; 200] (zeros 4) = Ok (n, dst') ∧ len dst' = 4.
Proof.
  destruct (rle_decompress_safe [255; 1; 200] (zeros 4)) as (n & d & H & _ & Hl);
    [repeat constructor; unfold u8; lia|].
  exists n, d. split; [exact H|exact Hl].
Defined.

End CompressTheorems.
