(* ===== verification/Vnode.v ===== *)
(** * kernel/src/fs/vfs/vnode.rs: file descriptors and capability tokens *)

From S2P Require Import Prelude.
From stdpp Require Import base list numbers.
From Stdlib Require Import ZArith Lia.

Open Scope Z_scope.

Definition VFS_MAX_FDS : Z := 16.
Definition MAX_MOUNTS : Z := 5.

Inductive Fs := FsNone | FsOnyx | FsFat32 | FsProc | FsIpc.

#[global] Instance Fs_eq_dec : EqDecision Fs.
Proof. solve_decision. Defined.

Definition PERM_READ : Z := 1.
Definition PERM_WRITE : Z := 2.
Definition PERM_SEEK : Z := 4.
Definition PERM_EXEC : Z := 8.

Record VfsFd := mkVfsFd {
  fd_ino : Z; fd_size : Z; fd_pos : Z; fd_fs : Fs; fd_used : bool;
  fd_perms : Z; fd_epoch : Z }.

Definition VfsFd_default : VfsFd := mkVfsFd 0 0 0 FsNone false 0 0.

Definition fd_token (idx epoch : Z) : Z := Z.lor (w64 (Z.shiftl idx 32)) epoch.
Definition fd_token_idx (token : Z) : Z := Z.shiftr token 32.
Definition fd_token_epoch (token : Z) : Z := w32 token.

(** ** Tokens *)

Lemma fd_token_add idx epoch :
  0 ≤ idx < 4294967296 → u32 epoch → fd_token idx epoch = idx * 4294967296 + epoch.
Proof.
  intros Hi He. unfold fd_token, w64. rewrite Z.shiftl_mul_pow2 by lia.
  change (2 ^ 32) with 4294967296.
  rewrite Z.mod_small by lia. apply (lor_mul_pow2 idx epoch 32); [lia|exact He].
Qed.

Lemma fd_token_idx_token idx epoch :
  0 ≤ idx < 4294967296 → u32 epoch → fd_token_idx (fd_token idx epoch) = idx.
Proof.
  intros Hi He. rewrite fd_token_add by done. unfold fd_token_idx, u32 in *.
  rewrite Z.shiftr_div_pow2 by lia. change (2 ^ 32) with 4294967296.
  rewrite Z.add_comm, Z.div_add by lia. rewrite Z.div_small by lia. done.
Qed.

Lemma fd_token_epoch_token idx epoch :
  0 ≤ idx < 4294967296 → u32 epoch → fd_token_epoch (fd_token idx epoch) = epoch.
Proof.
  intros Hi He. rewrite fd_token_add by done. unfold fd_token_epoch, w32, u32 in *.
  rewrite Z.add_comm, Z_mod_plus_full. by apply Z.mod_small.
Qed.
