(* ===== verification/Process.v ===== *)
(** * kernel/src/proc/process, kernel/src/arch/trap_frame.rs: processes

    The process table is the kernel heap as far as processes are concerned: a
    finite map from the address of a [Proc] to its contents, threaded by the
    intrusive links [all_next] (all processes), [next] (a run queue) and
    [wait_next] (a channel's wait list).  Dereferencing an address that holds
    no process is [Panic].  [hart] arguments are the value of [hart_id()]. *)

From S2P Require Import Prelude Vnode.
From stdpp Require Import base list numbers gmap.
From Stdlib Require Import ZArith Lia.

Open Scope Z_scope.

(** ** Trap frames *)

Record TrapFrame := mkTrapFrame {
  tf_ra : Z; tf_sp : Z; tf_gp : Z; tf_tp : Z; tf_t0 : Z; tf_t1 : Z; tf_t2 : Z; tf_s0 : Z;
  tf_s1 : Z; tf_a0 : Z; tf_a1 : Z; tf_a2 : Z; tf_a3 : Z; tf_a4 : Z; tf_a5 : Z; tf_a6 : Z;
  tf_a7 : Z; tf_s2 : Z; tf_s3 : Z; tf_s4 : Z; tf_s5 : Z; tf_s6 : Z; tf_s7 : Z; tf_s8 : Z;
  tf_s9 : Z; tf_s10 : Z; tf_s11 : Z; tf_t3 : Z; tf_t4 : Z; tf_t5 : Z; tf_t6 : Z;
  tf_sepc : Z; tf_sstatus : Z; tf_scause : Z; tf_stval : Z; tf_satp : Z }.

Definition TrapFrame_zero : TrapFrame :=
  mkTrapFrame
    0 0 0 0 0 0 0 0 0 0 0 0 0 0 0 0 0 0 0 0 0 0 0 0 0 0 0 0 0 0 0 0 0 0 0 0.

Definition set_tf_sepc (v : Z) (x : TrapFrame) : TrapFrame :=
  mkTrapFrame
    (tf_ra x) (tf_sp x) (tf_gp x) (tf_tp x) (tf_t0 x) (tf_t1 x) (tf_t2 x) (tf_s0 x)
    (tf_s1 x) (tf_a0 x) (tf_a1 x) (tf_a2 x) (tf_a3 x) (tf_a4 x) (tf_a5 x) (tf_a6 x)
    (tf_a7 x) (tf_s2 x) (tf_s3 x) (tf_s4 x) (tf_s5 x) (tf_s6 x) (tf_s7 x) (tf_s8 x)
    (tf_s9 x) (tf_s10 x) (tf_s11 x) (tf_t3 x) (tf_t4 x) (tf_t5 x) (tf_t6 x) v
    (tf_sstatus x) (tf_scause x) (tf_stval x) (tf_satp x).

Definition set_tf_sp (v : Z) (x : TrapFrame) : TrapFrame :=
  mkTrapFrame
    (tf_ra x) v (tf_gp x) (tf_tp x) (tf_t0 x) (tf_t1 x) (tf_t2 x) (tf_s0 x) (tf_s1 x)
    (tf_a0 x) (tf_a1 x) (tf_a2 x) (tf_a3 x) (tf_a4 x) (tf_a5 x) (tf_a6 x) (tf_a7 x)
    (tf_s2 x) (tf_s3 x) (tf_s4 x) (tf_s5 x) (tf_s6 x) (tf_s7 x) (tf_s8 x) (tf_s9 x)
    (tf_s10 x) (tf_s11 x) (tf_t3 x) (tf_t4 x) (tf_t5 x) (tf_t6 x) (tf_sepc x)
    (tf_sstatus x) (tf_scause x) (tf_stval x) (tf_satp x).

Definition set_tf_a0 (v : Z) (x : TrapFrame) : TrapFrame :=
  mkTrapFrame
    (tf_ra x) (tf_sp x) (tf_gp x) (tf_tp x) (tf_t0 x) (tf_t1 x) (tf_t2 x) (tf_s0 x)
    (tf_s1 x) v (tf_a1 x) (tf_a2 x) (tf_a3 x) (tf_a4 x) (tf_a5 x) (tf_a6 x) (tf_a7 x)
    (tf_s2 x) (tf_s3 x) (tf_s4 x) (tf_s5 x) (tf_s6 x) (tf_s7 x) (tf_s8 x) (tf_s9 x)
    (tf_s10 x) (tf_s11 x) (tf_t3 x) (tf_t4 x) (tf_t5 x) (tf_t6 x) (tf_sepc x)
    (tf_sstatus x) (tf_scause x) (tf_stval x) (tf_satp x).

Definition set_tf_a1 (v : Z) (x : TrapFrame) : TrapFrame :=
  mkTrapFrame
    (tf_ra x) (tf_sp x) (tf_gp x) (tf_tp x) (tf_t0 x) (tf_t1 x) (tf_t2 x) (tf_s0 x)
    (tf_s1 x) (tf_a0 x) v (tf_a2 x) (tf_a3 x) (tf_a4 x) (tf_a5 x) (tf_a6 x) (tf_a7 x)
    (tf_s2 x) (tf_s3 x) (tf_s4 x) (tf_s5 x) (tf_s6 x) (tf_s7 x) (tf_s8 x) (tf_s9 x)
    (tf_s10 x) (tf_s11 x) (tf_t3 x) (tf_t4 x) (tf_t5 x) (tf_t6 x) (tf_sepc x)
    (tf_sstatus x) (tf_scause x) (tf_stval x) (tf_satp x).

Definition set_tf_sstatus (v : Z) (x : TrapFrame) : TrapFrame :=
  mkTrapFrame
    (tf_ra x) (tf_sp x) (tf_gp x) (tf_tp x) (tf_t0 x) (tf_t1 x) (tf_t2 x) (tf_s0 x)
    (tf_s1 x) (tf_a0 x) (tf_a1 x) (tf_a2 x) (tf_a3 x) (tf_a4 x) (tf_a5 x) (tf_a6 x)
    (tf_a7 x) (tf_s2 x) (tf_s3 x) (tf_s4 x) (tf_s5 x) (tf_s6 x) (tf_s7 x) (tf_s8 x)
    (tf_s9 x) (tf_s10 x) (tf_s11 x) (tf_t3 x) (tf_t4 x) (tf_t5 x) (tf_t6 x) (tf_sepc x) v
    (tf_scause x) (tf_stval x) (tf_satp x).

Definition set_tf_satp (v : Z) (x : TrapFrame) : TrapFrame :=
  mkTrapFrame
    (tf_ra x) (tf_sp x) (tf_gp x) (tf_tp x) (tf_t0 x) (tf_t1 x) (tf_t2 x) (tf_s0 x)
    (tf_s1 x) (tf_a0 x) (tf_a1 x) (tf_a2 x) (tf_a3 x) (tf_a4 x) (tf_a5 x) (tf_a6 x)
    (tf_a7 x) (tf_s2 x) (tf_s3 x) (tf_s4 x) (tf_s5 x) (tf_s6 x) (tf_s7 x) (tf_s8 x)
    (tf_s9 x) (tf_s10 x) (tf_s11 x) (tf_t3 x) (tf_t4 x) (tf_t5 x) (tf_t6 x) (tf_sepc x)
    (tf_sstatus x) (tf_scause x) (tf_stval x) v.

(** ** Processes ([proc/process/types.rs]) *)

Definition PROC_RING_KERNEL : Z := 0.
Definition PROC_RING_ROOT : Z := 1.
Definition PROC_RING_USER : Z := 2.
Definition PROC_PID_INIT : Z := 1.

Inductive ProcState := Free | Ready | Running | Exited | Waiting.

#[global] Instance ProcState_eq_dec : EqDecision ProcState.
Proof. solve_decision. Defined.

(** Pointers are addresses, [0] is null; [p_kstack_tf] is the trap frame last
    stored at the top of the kernel stack, the only part of it the code reads. *)
Record Proc := mkProc {
  p_pid : Z; p_ring : Z; p_state : ProcState; p_parent_pid : Z; p_exit_code : Z;
  p_root_pa : Z; p_entry : Z; p_ustack : Z; p_heap_brk : Z; p_mmap_brk : Z; p_cwd : list Z;
  p_cwd_len : Z; p_uid : Z; p_gid : Z; p_tf : TrapFrame; p_kstack_tf : TrapFrame;
  p_pending_signals : Z; p_signal_mask : Z; p_signal_handlers : list Z;
  p_saved_tf : TrapFrame; p_in_signal_handler : bool; p_fds : list VfsFd; p_all_next : Z;
  p_next : Z; p_wait_next : Z; p_affinity : Z; p_on_rq : bool }.

Definition set_p_pid (v : Z) (x : Proc) : Proc :=
  mkProc
    v (p_ring x) (p_state x) (p_parent_pid x) (p_exit_code x) (p_root_pa x) (p_entry x)
    (p_ustack x) (p_heap_brk x) (p_mmap_brk x) (p_cwd x) (p_cwd_len x) (p_uid x) (p_gid x)
    (p_tf x) (p_kstack_tf x) (p_pending_signals x) (p_signal_mask x) (p_signal_handlers x)
    (p_saved_tf x) (p_in_signal_handler x) (p_fds x) (p_all_next x) (p_next x)
    (p_wait_next x) (p_affinity x) (p_on_rq x).

Definition set_p_ring (v : Z) (x : Proc) : Proc :=
  mkProc
    (p_pid x) v (p_state x) (p_parent_pid x) (p_exit_code x) (p_root_pa x) (p_entry x)
    (p_ustack x) (p_heap_brk x) (p_mmap_brk x) (p_cwd x) (p_cwd_len x) (p_uid x) (p_gid x)
    (p_tf x) (p_kstack_tf x) (p_pending_signals x) (p_signal_mask x) (p_signal_handlers x)
    (p_saved_tf x) (p_in_signal_handler x) (p_fds x) (p_all_next x) (p_next x)
    (p_wait_next x) (p_affinity x) (p_on_rq x).

Definition set_p_state (v : ProcState) (x : Proc) : Proc :=
  mkProc
    (p_pid x) (p_ring x) v (p_parent_pid x) (p_exit_code x) (p_root_pa x) (p_entry x)
    (p_ustack x) (p_heap_brk x) (p_mmap_brk x) (p_cwd x) (p_cwd_len x) (p_uid x) (p_gid x)
    (p_tf x) (p_kstack_tf x) (p_pending_signals x) (p_signal_mask x) (p_signal_handlers x)
    (p_saved_tf x) (p_in_signal_handler x) (p_fds x) (p_all_next x) (p_next x)
    (p_wait_next x) (p_affinity x) (p_on_rq x).

Definition set_p_parent_pid (v : Z) (x : Proc) : Proc :=
  mkProc
    (p_pid x) (p_ring x) (p_state x) v (p_exit_code x) (p_root_pa x) (p_entry x)
    (p_ustack x) (p_heap_brk x) (p_mmap_brk x) (p_cwd x) (p_cwd_len x) (p_uid x) (p_gid x)
    (p_tf x) (p_kstack_tf x) (p_pending_signals x) (p_signal_mask x) (p_signal_handlers x)
    (p_saved_tf x) (p_in_signal_handler x) (p_fds x) (p_all_next x) (p_next x)
    (p_wait_next x) (p_affinity x) (p_on_rq x).

Definition set_p_exit_code (v : Z) (x : Proc) : Proc :=
  mkProc
    (p_pid x) (p_ring x) (p_state x) (p_parent_pid x) v (p_root_pa x) (p_entry x)
    (p_ustack x) (p_heap_brk x) (p_mmap_brk x) (p_cwd x) (p_cwd_len x) (p_uid x) (p_gid x)
    (p_tf x) (p_kstack_tf x) (p_pending_signals x) (p_signal_mask x) (p_signal_handlers x)
    (p_saved_tf x) (p_in_signal_handler x) (p_fds x) (p_all_next x) (p_next x)
    (p_wait_next x) (p_affinity x) (p_on_rq x).

Definition set_p_root_pa (v : Z) (x : Proc) : Proc :=
  mkProc
    (p_pid x) (p_ring x) (p_state x) (p_parent_pid x) (p_exit_code x) v (p_entry x)
    (p_ustack x) (p_heap_brk x) (p_mmap_brk x) (p_cwd x) (p_cwd_len x) (p_uid x) (p_gid x)
    (p_tf x) (p_kstack_tf x) (p_pending_signals x) (p_signal_mask x) (p_signal_handlers x)
    (p_saved_tf x) (p_in_signal_handler x) (p_fds x) (p_all_next x) (p_next x)
    (p_wait_next x) (p_affinity x) (p_on_rq x).

Definition set_p_entry (v : Z) (x : Proc) : Proc :=
  mkProc
    (p_pid x) (p_ring x) (p_state x) (p_parent_pid x) (p_exit_code x) (p_root_pa x) v
    (p_ustack x) (p_heap_brk x) (p_mmap_brk x) (p_cwd x) (p_cwd_len x) (p_uid x) (p_gid x)
    (p_tf x) (p_kstack_tf x) (p_pending_signals x) (p_signal_mask x) (p_signal_handlers x)
    (p_saved_tf x) (p_in_signal_handler x) (p_fds x) (p_all_next x) (p_next x)
    (p_wait_next x) (p_affinity x) (p_on_rq x).

Definition set_p_ustack (v : Z) (x : Proc) : Proc :=
  mkProc
    (p_pid x) (p_ring x) (p_state x) (p_parent_pid x) (p_exit_code x) (p_root_pa x)
    (p_entry x) v (p_heap_brk x) (p_mmap_brk x) (p_cwd x) (p_cwd_len x) (p_uid x) (p_gid x)
    (p_tf x) (p_kstack_tf x) (p_pending_signals x) (p_signal_mask x) (p_signal_handlers x)
    (p_saved_tf x) (p_in_signal_handler x) (p_fds x) (p_all_next x) (p_next x)
    (p_wait_next x) (p_affinity x) (p_on_rq x).

Definition set_p_heap_brk (v : Z) (x : Proc) : Proc :=
  mkProc
    (p_pid x) (p_ring x) (p_state x) (p_parent_pid x) (p_exit_code x) (p_root_pa x)
    (p_entry x) (p_ustack x) v (p_mmap_brk x) (p_cwd x) (p_cwd_len x) (p_uid x) (p_gid x)
    (p_tf x) (p_kstack_tf x) (p_pending_signals x) (p_signal_mask x) (p_signal_handlers x)
    (p_saved_tf x) (p_in_signal_handler x) (p_fds x) (p_all_next x) (p_next x)
    (p_wait_next x) (p_affinity x) (p_on_rq x).

Definition set_p_mmap_brk (v : Z) (x : Proc) : Proc :=
  mkProc
    (p_pid x) (p_ring x) (p_state x) (p_parent_pid x) (p_exit_code x) (p_root_pa x)
    (p_entry x) (p_ustack x) (p_heap_brk x) v (p_cwd x) (p_cwd_len x) (p_uid x) (p_gid x)
    (p_tf x) (p_kstack_tf x) (p_pending_signals x) (p_signal_mask x) (p_signal_handlers x)
    (p_saved_tf x) (p_in_signal_handler x) (p_fds x) (p_all_next x) (p_next x)
    (p_wait_next x) (p_affinity x) (p_on_rq x).

Definition set_p_cwd (v : list Z) (x : Proc) : Proc :=
  mkProc
    (p_pid x) (p_ring x) (p_state x) (p_parent_pid x) (p_exit_code x) (p_root_pa x)
    (p_entry x) (p_ustack x) (p_heap_brk x) (p_mmap_brk x) v (p_cwd_len x) (p_uid x)
    (p_gid x) (p_tf x) (p_kstack_tf x) (p_pending_signals x) (p_signal_mask x)
    (p_signal_handlers x) (p_saved_tf x) (p_in_signal_handler x) (p_fds x) (p_all_next x)
    (p_next x) (p_wait_next x) (p_affinity x) (p_on_rq x).

Definition set_p_cwd_len (v : Z) (x : Proc) : Proc :=
  mkProc
    (p_pid x) (p_ring x) (p_state x) (p_parent_pid x) (p_exit_code x) (p_root_pa x)
    (p_entry x) (p_ustack x) (p_heap_brk x) (p_mmap_brk x) (p_cwd x) v (p_uid x) (p_gid x)
    (p_tf x) (p_kstack_tf x) (p_pending_signals x) (p_signal_mask x) (p_signal_handlers x)
    (p_saved_tf x) (p_in_signal_handler x) (p_fds x) (p_all_next x) (p_next x)
    (p_wait_next x) (p_affinity x) (p_on_rq x).

Definition set_p_uid (v : Z) (x : Proc) : Proc :=
  mkProc
    (p_pid x) (p_ring x) (p_state x) (p_parent_pid x) (p_exit_code x) (p_root_pa x)
    (p_entry x) (p_ustack x) (p_heap_brk x) (p_mmap_brk x) (p_cwd x) (p_cwd_len x) v
    (p_gid x) (p_tf x) (p_kstack_tf x) (p_pending_signals x) (p_signal_mask x)
    (p_signal_handlers x) (p_saved_tf x) (p_in_signal_handler x) (p_fds x) (p_all_next x)
    (p_next x) (p_wait_next x) (p_affinity x) (p_on_rq x).

Definition set_p_gid (v : Z) (x : Proc) : Proc :=
  mkProc
    (p_pid x) (p_ring x) (p_state x) (p_parent_pid x) (p_exit_code x) (p_root_pa x)
    (p_entry x) (p_ustack x) (p_heap_brk x) (p_mmap_brk x) (p_cwd x) (p_cwd_len x)
    (p_uid x) v (p_tf x) (p_kstack_tf x) (p_pending_signals x) (p_signal_mask x)
    (p_signal_handlers x) (p_saved_tf x) (p_in_signal_handler x) (p_fds x) (p_all_next x)
    (p_next x) (p_wait_next x) (p_affinity x) (p_on_rq x).

Definition set_p_tf (v : TrapFrame) (x : Proc) : Proc :=
  mkProc
    (p_pid x) (p_ring x) (p_state x) (p_parent_pid x) (p_exit_code x) (p_root_pa x)
    (p_entry x) (p_ustack x) (p_heap_brk x) (p_mmap_brk x) (p_cwd x) (p_cwd_len x)
    (p_uid x) (p_gid x) v (p_kstack_tf x) (p_pending_signals x) (p_signal_mask x)
    (p_signal_handlers x) (p_saved_tf x) (p_in_signal_handler x) (p_fds x) (p_all_next x)
    (p_next x) (p_wait_next x) (p_affinity x) (p_on_rq x).

Definition set_p_kstack_tf (v : TrapFrame) (x : Proc) : Proc :=
  mkProc
    (p_pid x) (p_ring x) (p_state x) (p_parent_pid x) (p_exit_code x) (p_root_pa x)
    (p_entry x) (p_ustack x) (p_heap_brk x) (p_mmap_brk x) (p_cwd x) (p_cwd_len x)
    (p_uid x) (p_gid x) (p_tf x) v (p_pending_signals x) (p_signal_mask x)
    (p_signal_handlers x) (p_saved_tf x) (p_in_signal_handler x) (p_fds x) (p_all_next x)
    (p_next x) (p_wait_next x) (p_affinity x) (p_on_rq x).

Definition set_p_pending_signals (v : Z) (x : Proc) : Proc :=
  mkProc
    (p_pid x) (p_ring x) (p_state x) (p_parent_pid x) (p_exit_code x) (p_root_pa x)
    (p_entry x) (p_ustack x) (p_heap_brk x) (p_mmap_brk x) (p_cwd x) (p_cwd_len x)
    (p_uid x) (p_gid x) (p_tf x) (p_kstack_tf x) v (p_signal_mask x) (p_signal_handlers x)
    (p_saved_tf x) (p_in_signal_handler x) (p_fds x) (p_all_next x) (p_next x)
    (p_wait_next x) (p_affinity x) (p_on_rq x).

Definition set_p_signal_mask (v : Z) (x : Proc) : Proc :=
  mkProc
    (p_pid x) (p_ring x) (p_state x) (p_parent_pid x) (p_exit_code x) (p_root_pa x)
    (p_entry x) (p_ustack x) (p_heap_brk x) (p_mmap_brk x) (p_cwd x) (p_cwd_len x)
    (p_uid x) (p_gid x) (p_tf x) (p_kstack_tf x) (p_pending_signals x) v
    (p_signal_handlers x) (p_saved_tf x) (p_in_signal_handler x) (p_fds x) (p_all_next x)
    (p_next x) (p_wait_next x) (p_affinity x) (p_on_rq x).

Definition set_p_signal_handlers (v : list Z) (x : Proc) : Proc :=
  mkProc
    (p_pid x) (p_ring x) (p_state x) (p_parent_pid x) (p_exit_code x) (p_root_pa x)
    (p_entry x) (p_ustack x) (p_heap_brk x) (p_mmap_brk x) (p_cwd x) (p_cwd_len x)
    (p_uid x) (p_gid x) (p_tf x) (p_kstack_tf x) (p_pending_signals x) (p_signal_mask x) v
    (p_saved_tf x) (p_in_signal_handler x) (p_fds x) (p_all_next x) (p_next x)
    (p_wait_next x) (p_affinity x) (p_on_rq x).

Definition set_p_saved_tf (v : TrapFrame) (x : Proc) : Proc :=
  mkProc
    (p_pid x) (p_ring x) (p_state x) (p_parent_pid x) (p_exit_code x) (p_root_pa x)
    (p_entry x) (p_ustack x) (p_heap_brk x) (p_mmap_brk x) (p_cwd x) (p_cwd_len x)
    (p_uid x) (p_gid x) (p_tf x) (p_kstack_tf x) (p_pending_signals x) (p_signal_mask x)
    (p_signal_handlers x) v (p_in_signal_handler x) (p_fds x) (p_all_next x) (p_next x)
    (p_wait_next x) (p_affinity x) (p_on_rq x).

Definition set_p_in_signal_handler (v : bool) (x : Proc) : Proc :=
  mkProc
    (p_pid x) (p_ring x) (p_state x) (p_parent_pid x) (p_exit_code x) (p_root_pa x)
    (p_entry x) (p_ustack x) (p_heap_brk x) (p_mmap_brk x) (p_cwd x) (p_cwd_len x)
    (p_uid x) (p_gid x) (p_tf x) (p_kstack_tf x) (p_pending_signals x) (p_signal_mask x)
    (p_signal_handlers x) (p_saved_tf x) v (p_fds x) (p_all_next x) (p_next x)
    (p_wait_next x) (p_affinity x) (p_on_rq x).

Definition set_p_fds (v : list VfsFd) (x : Proc) : Proc :=
  mkProc
    (p_pid x) (p_ring x) (p_state x) (p_parent_pid x) (p_exit_code x) (p_root_pa x)
    (p_entry x) (p_ustack x) (p_heap_brk x) (p_mmap_brk x) (p_cwd x) (p_cwd_len x)
    (p_uid x) (p_gid x) (p_tf x) (p_kstack_tf x) (p_pending_signals x) (p_signal_mask x)
    (p_signal_handlers x) (p_saved_tf x) (p_in_signal_handler x) v (p_all_next x)
    (p_next x) (p_wait_next x) (p_affinity x) (p_on_rq x).

Definition set_p_all_next (v : Z) (x : Proc) : Proc :=
  mkProc
    (p_pid x) (p_ring x) (p_state x) (p_parent_pid x) (p_exit_code x) (p_root_pa x)
    (p_entry x) (p_ustack x) (p_heap_brk x) (p_mmap_brk x) (p_cwd x) (p_cwd_len x)
    (p_uid x) (p_gid x) (p_tf x) (p_kstack_tf x) (p_pending_signals x) (p_signal_mask x)
    (p_signal_handlers x) (p_saved_tf x) (p_in_signal_handler x) (p_fds x) v (p_next x)
    (p_wait_next x) (p_affinity x) (p_on_rq x).

Definition set_p_next (v : Z) (x : Proc) : Proc :=
  mkProc
    (p_pid x) (p_ring x) (p_state x) (p_parent_pid x) (p_exit_code x) (p_root_pa x)
    (p_entry x) (p_ustack x) (p_heap_brk x) (p_mmap_brk x) (p_cwd x) (p_cwd_len x)
    (p_uid x) (p_gid x) (p_tf x) (p_kstack_tf x) (p_pending_signals x) (p_signal_mask x)
    (p_signal_handlers x) (p_saved_tf x) (p_in_signal_handler x) (p_fds x) (p_all_next x) v
    (p_wait_next x) (p_affinity x) (p_on_rq x).

Definition set_p_wait_next (v : Z) (x : Proc) : Proc :=
  mkProc
    (p_pid x) (p_ring x) (p_state x) (p_parent_pid x) (p_exit_code x) (p_root_pa x)
    (p_entry x) (p_ustack x) (p_heap_brk x) (p_mmap_brk x) (p_cwd x) (p_cwd_len x)
    (p_uid x) (p_gid x) (p_tf x) (p_kstack_tf x) (p_pending_signals x) (p_signal_mask x)
    (p_signal_handlers x) (p_saved_tf x) (p_in_signal_handler x) (p_fds x) (p_all_next x)
    (p_next x) v (p_affinity x) (p_on_rq x).

Definition set_p_affinity (v : Z) (x : Proc) : Proc :=
  mkProc
    (p_pid x) (p_ring x) (p_state x) (p_parent_pid x) (p_exit_code x) (p_root_pa x)
    (p_entry x) (p_ustack x) (p_heap_brk x) (p_mmap_brk x) (p_cwd x) (p_cwd_len x)
    (p_uid x) (p_gid x) (p_tf x) (p_kstack_tf x) (p_pending_signals x) (p_signal_mask x)
    (p_signal_handlers x) (p_saved_tf x) (p_in_signal_handler x) (p_fds x) (p_all_next x)
    (p_next x) (p_wait_next x) v (p_on_rq x).

Definition set_p_on_rq (v : bool) (x : Proc) : Proc :=
  mkProc
    (p_pid x) (p_ring x) (p_state x) (p_parent_pid x) (p_exit_code x) (p_root_pa x)
    (p_entry x) (p_ustack x) (p_heap_brk x) (p_mmap_brk x) (p_cwd x) (p_cwd_len x)
    (p_uid x) (p_gid x) (p_tf x) (p_kstack_tf x) (p_pending_signals x) (p_signal_mask x)
    (p_signal_handlers x) (p_saved_tf x) (p_in_signal_handler x) (p_fds x) (p_all_next x)
    (p_next x) (p_wait_next x) (p_affinity x) v.

Definition PROC_MAX_FDS : nat := 16.

Definition Proc_new : Proc :=
  mkProc 0 PROC_RING_KERNEL Free 0 0 0 0 0 0 0x30000000 (replicate 256 0) 0 0 0
    TrapFrame_zero TrapFrame_zero 0 0 (replicate 32 0) TrapFrame_zero false
    (replicate PROC_MAX_FDS VfsFd_default) 0 0 0 (-1) false.

(** ** Kernel globals ([proc/process/globals.rs], [proc/scheduler/runqueue.rs]) *)

Definition MAX_HARTS : Z := 8.

Record RunQueue := mkRunQueue { rq_lock_held : bool; rq_head : Z; rq_tail : Z; rq_nr_ready : Z }.

Record Kernel := mkKernel {
  g_procs : gmap Z Proc; g_all_procs : Z; g_hart_current : list Z; g_current : Z; g_hart_idle_tf : list TrapFrame; g_need_resched : list bool; g_next_pid : Z; g_rq : list RunQueue }.

Definition set_g_procs (v : gmap Z Proc) (x : Kernel) : Kernel :=
  mkKernel v (g_all_procs x) (g_hart_current x) (g_current x) (g_hart_idle_tf x) (g_need_resched x) (g_next_pid x) (g_rq x).
Definition set_g_all_procs (v : Z) (x : Kernel) : Kernel :=
  mkKernel (g_procs x) v (g_hart_current x) (g_current x) (g_hart_idle_tf x) (g_need_resched x) (g_next_pid x) (g_rq x).
Definition set_g_hart_current (v : list Z) (x : Kernel) : Kernel :=
  mkKernel (g_procs x) (g_all_procs x) v (g_current x) (g_hart_idle_tf x) (g_need_resched x) (g_next_pid x) (g_rq x).
Definition set_g_current (v : Z) (x : Kernel) : Kernel :=
  mkKernel (g_procs x) (g_all_procs x) (g_hart_current x) v (g_hart_idle_tf x) (g_need_resched x) (g_next_pid x) (g_rq x).
Definition set_g_hart_idle_tf (v : list TrapFrame) (x : Kernel) : Kernel :=
  mkKernel (g_procs x) (g_all_procs x) (g_hart_current x) (g_current x) v (g_need_resched x) (g_next_pid x) (g_rq x).
Definition set_g_need_resched (v : list bool) (x : Kernel) : Kernel :=
  mkKernel (g_procs x) (g_all_procs x) (g_hart_current x) (g_current x) (g_hart_idle_tf x) v (g_next_pid x) (g_rq x).
Definition set_g_next_pid (v : Z) (x : Kernel) : Kernel :=
  mkKernel (g_procs x) (g_all_procs x) (g_hart_current x) (g_current x) (g_hart_idle_tf x) (g_need_resched x) v (g_rq x).
Definition set_g_rq (v : list RunQueue) (x : Kernel) : Kernel :=
  mkKernel (g_procs x) (g_all_procs x) (g_hart_current x) (g_current x) (g_hart_idle_tf x) (g_need_resched x) (g_next_pid x) v.

Abbreviation KM := (SM Kernel).

(** [p->..] and [p->field = v] through a raw pointer. *)
Definition deref (p : Z) : KM Proc := λ k,
  match g_procs k !! p with Some x => (Ok x, k) | None => (Panic, k) end.
Definition update (p : Z) (f : Proc → Proc) : KM unit := λ k,
  match g_procs k !! p with
  | Some x => (Ok tt, set_g_procs (<[p := f x]> (g_procs k)) k)
  | None => (Panic, k)
  end.

(** [ARR[i]] and [ARR[i] = v] for a static array. *)
Definition at_ {A} (arr : Kernel → list A) (i : Z) : KM A := λ k, (idx (arr k) i, k).
Definition at_set {A} (arr : Kernel → list A) (set : list A → Kernel → Kernel)
    (i : Z) (v : A) : KM unit := λ k,
  match set_idx (arr k) i v with
  | Ok l => (Ok tt, set l k)
  | Err e => (Err e, k)
  | Panic => (Panic, k)
  end.

Definition rq_at (h : Z) : KM RunQueue := at_ g_rq h.
Definition rq_update (h : Z) (f : RunQueue → RunQueue) : KM unit :=
  r ← rq_at h; at_set g_rq set_g_rq h (f r).

Definition proc_init (k : Kernel) : Kernel :=
  mkKernel (g_procs k) 0 (replicate 8 0) 0 (g_hart_idle_tf k) (replicate 8 false)
    PROC_PID_INIT (g_rq k).

Definition alloc_pid : KM Z := λ k,
  (Ok (g_next_pid k), set_g_next_pid (w32 (g_next_pid k + 1)) k).

Definition current_for_hart (hart : Z) : KM Z :=
  if hart <? MAX_HARTS then at_ g_hart_current hart else mret 0.

Definition set_current_for_hart (hart p : Z) : KM unit :=
  if hart <? MAX_HARTS then
    at_set g_hart_current set_g_hart_current hart p;;
    if hart =? 0 then modify (set_g_current p) else mret tt
  else mret tt.

(** ** Current process ([proc/process/current.rs]) *)

Definition current_pid (hart : Z) : KM Z :=
  p ← at_ g_hart_current hart;
  if p =? 0 then mret 0 else
  x ← deref p;
  mret (if decide (p_state x = Running) then p_pid x else 0).

Definition current_ring (hart : Z) : KM Z :=
  p ← at_ g_hart_current hart;
  if p =? 0 then mret PROC_RING_KERNEL else
  x ← deref p; mret (p_ring x).

(** [current()]: the address of the current process, dereferenced by callers. *)
Definition current_ptr (hart : Z) : KM Z := at_ g_hart_current hart.

Definition set_cwd (hart : Z) (path : list Z) : KM unit :=
  p ← current_ptr hart;
  x ← deref p;
  let n := Z.min (len path) 255 in
  s ← lift (slice path 0 n);
  c ← lift (put (p_cwd x) 0 n s);
  c ← lift (set_idx c n 0);
  update p (λ x, set_p_cwd_len n (set_p_cwd c x)).

(** [while !cur.is_null() { if test(cur) { return cur } cur = cur->all_next }] *)
Fixpoint find_all (fuel : nat) (test : Proc → bool) (cur : Z) : KM Z :=
  match fuel with
  | O => panic
  | S fuel =>
      if cur =? 0 then mret 0 else
      x ← deref cur;
      if test x then mret cur else find_all fuel test (p_all_next x)
  end.

(** A list of [n] distinct processes is walked in [n + 1] steps. *)
Definition walk_fuel (k : Kernel) : nat := S (size (g_procs k)).

Definition find_proc (test : Proc → bool) : KM Z := λ k,
  find_all (walk_fuel k) test (g_all_procs k) k.

Definition by_pid (pid : Z) : KM Z :=
  find_proc (λ x, (p_pid x =? pid) && negb (bool_decide (p_state x = Free))).
