(* ===== verification/Sched.v ===== *)
(** * kernel/src/proc/scheduler: run queues and the context-switch decision

    [runqueue.rs] keeps one FIFO per hart, linked through [Proc.next] with head
    and tail pointers; [sched.rs] picks the next process on a yield, stealing
    from the other harts when the own queue is empty.  [sched_yield] does not
    return to its caller when it switches, so its outcome says how it ended. *)

From S2P Require Import Prelude Vnode Process.
From stdpp Require Import base list numbers gmap.
From Stdlib Require Import ZArith Lia.

Open Scope Z_scope.

(** ** runqueue.rs *)

(** [rq_lock] spins until the lock is free.  The model runs one hart at a time:
    a lock that is already held is never released, which is [false]. *)
Definition rq_lock (hart : Z) : KM bool :=
  r ← rq_at hart;
  if rq_lock_held r then mret false
  else rq_update hart (λ r, mkRunQueue true (rq_head r) (rq_tail r) (rq_nr_ready r));; mret true.

Definition rq_unlock (hart : Z) : KM unit :=
  rq_update hart (λ r, mkRunQueue false (rq_head r) (rq_tail r) (rq_nr_ready r)).

Definition enqueue (hart p : Z) : KM unit :=
  x ← deref p;
  if p_on_rq x then mret tt else
  update p (set_p_on_rq true);;
  update p (set_p_next 0);;
  r ← rq_at hart;
  (if rq_tail r =? 0 then
     rq_update hart (λ r, mkRunQueue (rq_lock_held r) p p (rq_nr_ready r))
   else
     update (rq_tail r) (set_p_next p);;
     rq_update hart (λ r, mkRunQueue (rq_lock_held r) (rq_head r) p (rq_nr_ready r)));;
  rq_update hart (λ r, mkRunQueue (rq_lock_held r) (rq_head r) (rq_tail r)
                         (w64 (rq_nr_ready r + 1))).

Definition enqueue_affine (hart p : Z) : KM unit :=
  x ← deref p;
  let target := if (0 <=? p_affinity x) && (p_affinity x <? MAX_HARTS)
                then p_affinity x else hart in
  enqueue target p.

Definition dequeue (hart : Z) : KM Z :=
  r ← rq_at hart;
  let p := rq_head r in
  if p =? 0 then mret p else
  x ← deref p;
  rq_update hart (λ r, mkRunQueue (rq_lock_held r) (p_next x)
                         (if p_next x =? 0 then 0 else rq_tail r) (rq_nr_ready r));;
  update p (set_p_next 0);;
  update p (set_p_on_rq false);;
  rq_update hart (λ r, mkRunQueue (rq_lock_held r) (rq_head r) (rq_tail r)
                         (w64 (rq_nr_ready r - 1)));;
  mret p.

(** The search loop of [remove], from [cur] with predecessor [prev]. *)
Fixpoint remove_loop (fuel : nat) (hart p prev cur : Z) : KM bool :=
  match fuel with
  | O => panic
  | S fuel =>
      if cur =? 0 then mret false else
      x ← deref cur;
      if cur =? p then
        (if prev =? 0 then
           rq_update hart (λ r, mkRunQueue (rq_lock_held r) (p_next x) (rq_tail r) (rq_nr_ready r))
         else update prev (set_p_next (p_next x)));;
        rq_update hart (λ r, mkRunQueue (rq_lock_held r) (rq_head r)
                               (if rq_tail r =? p then prev else rq_tail r) (rq_nr_ready r));;
        update p (set_p_next 0);;
        update p (set_p_on_rq false);;
        rq_update hart (λ r, mkRunQueue (rq_lock_held r) (rq_head r) (rq_tail r)
                               (w64 (rq_nr_ready r - 1)));;
        mret true
      else remove_loop fuel hart p cur (p_next x)
  end.

Definition remove (hart p : Z) : KM bool :=
  x ← deref p;
  if negb (p_on_rq x) then mret false else
  r ← rq_at hart;
  fuel ← gets walk_fuel;
  remove_loop fuel hart p 0 (rq_head r).

(** ** sched.rs *)

Definition set_need_resched (hartid : Z) (v : bool) : KM unit :=
  if hartid <? MAX_HARTS then at_set g_need_resched set_g_need_resched hartid v else mret tt.

Definition sched_tick (hartid : Z) : KM unit :=
  cur ← current_for_hart hartid;
  if cur =? 0 then mret tt else
  x ← deref cur;
  if bool_decide (p_state x = Free) then mret tt
  else at_set g_need_resched set_g_need_resched hartid true.

(** [for i in i0..i0+n] of [steal]. *)
Fixpoint steal_loop (n : nat) (hartid i : Z) : KM Z :=
  match n with
  | O => mret 0
  | S n =>
      let victim := (hartid + i) mod MAX_HARTS in
      if victim =? hartid then steal_loop n hartid (i + 1) else
      free ← rq_lock victim;
      if negb free then steal_loop n hartid (i + 1) else
      p ← dequeue victim;
      rq_unlock victim;;
      if p =? 0 then steal_loop n hartid (i + 1) else
      x ← deref p;
      if (0 <=? p_affinity x) && negb (p_affinity x =? hartid)
      then enqueue victim p;; steal_loop n hartid (i + 1)
      else mret p
  end.

Definition steal (hartid : Z) : KM Z := steal_loop 7 hartid 1.

(** How [sched_yield] ends: it returns to its caller, jumps to another process
    or to the idle frame, halts the machine, or spins on a held lock. *)
Inductive outcome := Returned | SwitchTo (p : Z) | SwitchIdle | Halted | Spins.

(** Make [p] current on [hartid] and jump to its saved frame. *)
Definition run_stolen (hartid p : Z) : KM outcome :=
  update p (set_p_state Running);;
  set_current_for_hart hartid p;;
  at_set g_need_resched set_g_need_resched hartid false;;
  x ← deref p;
  update p (set_p_kstack_tf (p_tf x));;
  mret (SwitchTo p).

Definition run_next (hartid p : Z) : KM outcome :=
  update p (set_p_state Running);;
  set_current_for_hart hartid p;;
  rq_unlock hartid;;
  at_set g_need_resched set_g_need_resched hartid false;;
  x ← deref p;
  update p (set_p_kstack_tf (p_tf x));;
  mret (SwitchTo p).

(** Nothing else can run. *)
Definition run_nothing (hartid current : Z) : KM outcome :=
  if current =? 0 then
    rq_unlock hartid;;
    at_set g_need_resched set_g_need_resched hartid false;;
    mret Returned
  else
    c ← deref current;
    if bool_decide (p_state c = Exited) then
      set_current_for_hart hartid 0;;
      rq_unlock hartid;;
      at_set g_need_resched set_g_need_resched hartid false;;
      mret (if hartid =? 0 then Halted else SwitchIdle)
    else
      update current (set_p_state Running);;
      rq_unlock hartid;;
      at_set g_need_resched set_g_need_resched hartid false;;
      mret Returned.

(** Save the interrupted frame and requeue a process that is still runnable. *)
Definition save_current (hartid current : Z) (tf : TrapFrame) : KM unit :=
  if current =? 0 then at_set g_hart_idle_tf set_g_hart_idle_tf hartid tf
  else
    update current (set_p_tf tf);;
    c ← deref current;
    if bool_decide (p_state c = Running)
    then update current (set_p_state Ready);; enqueue hartid current
    else mret tt.

(** The head of the own queue; one that is pinned elsewhere is handed over. *)
Definition pick_next (hartid : Z) : KM Z :=
  next ← dequeue hartid;
  if next =? 0 then mret next else
  x ← deref next;
  if (0 <=? p_affinity x) && negb (p_affinity x =? hartid)
  then enqueue (p_affinity x) next;; dequeue hartid
  else mret next.

Definition sched_yield (hartid : Z) (tf : TrapFrame) : KM outcome :=
  current ← current_for_hart hartid;
  free ← rq_lock hartid;
  if negb free then mret Spins else
  save_current hartid current tf;;
  next ← pick_next hartid;
  if negb (next =? 0) then run_next hartid next else
  rq_unlock hartid;;
  stolen ← steal hartid;
  if negb (stolen =? 0) then run_stolen hartid stolen else
  free ← rq_lock hartid;
  if negb free then mret Spins else
  next ← dequeue hartid;
  if next =? 0 then run_nothing hartid current else run_next hartid next.
