(* ===== verification/SchedProps.v ===== *)
(** * The run queues implement FIFO queues, and what a yield does

    [rq_inv k Q] relates the linked representation in [k] to an abstract list of
    queues [Q], one list of process addresses per hart.  [enqueue] appends,
    [dequeue] pops, [remove] deletes; everything that is not a queue link is
    left alone ([frame]). *)

From S2P Require Import Prelude Vnode Process Sched.
From stdpp Require Import base list numbers gmap.
From Stdlib Require Import ZArith Lia.

Open Scope Z_scope.

(** ** Representation *)

Definition hd0 (q : list Z) : Z := match q with [] => 0 | p :: _ => p end.
Definition last0 (q : list Z) : Z := default 0 (last q).

Fixpoint linked (ps : gmap Z Proc) (q : list Z) : Prop :=
  match q with
  | [] => True
  | p :: q =>
      p ≠ 0 ∧ (∃ x, ps !! p = Some x ∧ p_on_rq x = true ∧ p_next x = hd0 q) ∧ linked ps q
  end.

Definition rq_rep (ps : gmap Z Proc) (r : RunQueue) (q : list Z) : Prop :=
  rq_head r = hd0 q ∧ rq_tail r = last0 q ∧ rq_nr_ready r = w64 (len q) ∧ linked ps q.

Record rq_inv (k : Kernel) (Q : list (list Z)) : Prop := {
  inv_harts : length Q = 8%nat;
  inv_rep : Forall2 (rq_rep (g_procs k)) (g_rq k) Q;
  inv_nodup : NoDup (concat Q);
  inv_on_rq : ∀ p x, g_procs k !! p = Some x → p_on_rq x = true → p ∈ concat Q;
  inv_null : g_procs k !! 0 = None }.

(** A process without its queue links. *)
Definition strip (x : Proc) : Proc := set_p_next 0 (set_p_on_rq false x).

(** Everything but the queue links and the queue headers is the same. *)
Record frame (k k' : Kernel) : Prop := {
  fr_procs : ∀ p, strip <$> g_procs k !! p = strip <$> g_procs k' !! p;
  fr_all : g_all_procs k = g_all_procs k';
  fr_hart : g_hart_current k = g_hart_current k';
  fr_cur : g_current k = g_current k';
  fr_idle : g_hart_idle_tf k = g_hart_idle_tf k';
  fr_resched : g_need_resched k = g_need_resched k';
  fr_pid : g_next_pid k = g_next_pid k';
  fr_lock : rq_lock_held <$> g_rq k = rq_lock_held <$> g_rq k' }.

Lemma frame_refl k : frame k k.
Proof. by constructor. Qed.

Lemma frame_trans k1 k2 k3 : frame k1 k2 → frame k2 k3 → frame k1 k3.
Proof.
  intros [] []. constructor; congruence.
Qed.

(** ** Primitive steps *)

Lemma deref_ok p x k : g_procs k !! p = Some x → deref p k = (Ok x, k).
Proof. unfold deref. by intros ->. Qed.

Lemma update_ok p f x k :
  g_procs k !! p = Some x → update p f k = (Ok tt, set_g_procs (<[p := f x]> (g_procs k)) k).
Proof. unfold update. by intros ->. Qed.

Lemma rq_at_ok h r k : 0 ≤ h → g_rq k !! Z.to_nat h = Some r → rq_at h k = (Ok r, k).
Proof. intros Hh Hr. unfold rq_at, at_. by rewrite (idx_ok _ _ _ Hr). Qed.

Lemma rq_update_ok h f r k :
  0 ≤ h → g_rq k !! Z.to_nat h = Some r →
  rq_update h f k = (Ok tt, set_g_rq (<[Z.to_nat h := f r]> (g_rq k)) k).
Proof.
  intros Hh Hr. unfold rq_update. rewrite (sm_bind_ok _ _ _ _ _ (rq_at_ok h r k Hh Hr)).
  unfold at_set. rewrite set_idx_ok; [done|].
  apply lookup_lt_Some in Hr. unfold len. lia.
Qed.

(** Run the next primitive of the goal. *)
Ltac step_with L := apply wp_bind; eapply wp_Ok; [eapply L; eauto|]; cbv beta.
Ltac sstep :=
  lazymatch goal with
  | |- wp (deref _ ≫= _) _ _ => step_with deref_ok
  | |- wp (update _ _ ≫= _) _ _ => step_with update_ok
  | |- wp (rq_at _ ≫= _) _ _ => step_with rq_at_ok
  | |- wp (rq_update _ _ ≫= _) _ _ => step_with rq_update_ok
  | |- wp (update _ _) _ _ => eapply wp_Ok; [eapply update_ok; eauto|]
  | |- wp (rq_update _ _) _ _ => eapply wp_Ok; [eapply rq_update_ok; eauto|]
  | |- wp (mret _) _ _ => apply wp_ret
  end.

(** A second write to the header written last. *)
Ltac rq_again Hr :=
  eapply wp_Ok; [eapply rq_update_ok;
    [done|simpl; apply list_lookup_insert_eq; by eapply lookup_lt_Some]|];
  simpl; rewrite list_insert_insert_eq.

(** ** Linked lists *)

Lemma linked_agree ps ps' q :
  (∀ p, p ∈ q → ps' !! p = ps !! p) → linked ps q → linked ps' q.
Proof.
  induction q as [|p q IH]; simpl; [done|]. intros H (? & (x & ? & ?) & ?).
  split; [done|]. split; [exists x; rewrite H by left; done|].
  apply IH; [|done]. intros p' Hp'. apply H. by right.
Qed.

Lemma linked_lookup ps q p : linked ps q → p ∈ q → ∃ x, ps !! p = Some x ∧ p_on_rq x = true.
Proof.
  induction q as [|p' q IH]; simpl; intros H Hp; [by apply elem_of_nil in Hp|].
  destruct H as (? & (x & ? & ? & ?) & ?). apply elem_of_cons in Hp as [->|Hp]; eauto.
Qed.

Lemma linked_nonnull ps q p : linked ps q → p ∈ q → p ≠ 0.
Proof.
  induction q as [|p' q IH]; simpl; intros H Hp; [by apply elem_of_nil in Hp|].
  destruct H as (? & _ & ?). apply elem_of_cons in Hp as [->|Hp]; auto.
Qed.

Lemma last0_snoc q p : last0 (q ++ [p]) = p.
Proof. unfold last0. by rewrite last_snoc. Qed.

Lemma last0_nil_iff ps q : linked ps q → last0 q = 0 ↔ q = [].
Proof.
  intros H. destruct q as [|t q _] using rev_ind; [done|]. rewrite last0_snoc.
  split; [|by destruct q]. intros ->. exfalso.
  eapply (linked_nonnull ps (q ++ [0])); [done| |done]. apply elem_of_app. right. by left.
Qed.

(** Appending a process to a list: only the old tail's link changes. *)
Lemma linked_snoc ps q t xt p xp :
  linked ps (q ++ [t]) → NoDup (q ++ [t]) → p ∉ q ++ [t] → p ≠ 0 →
  ps !! t = Some xt → p_on_rq xp = true → p_next xp = 0 →
  linked (<[t := set_p_next p xt]> (<[p := xp]> ps)) ((q ++ [t]) ++ [p]).
Proof.
  intros Hl Hnd Hp Hp0 Ht Hon Hn. induction q as [|a q IH]; simpl in *.
  - destruct Hl as (Ht0 & (x & Hx & Hxo & _) & _). rewrite Hx in Ht. injection Ht as ->.
    assert (t ≠ p) by (intros ->; apply Hp; by left).
    split; [done|]. split; [eexists; rewrite lookup_insert_eq; done|].
    split; [done|]. split; [|done]. exists xp. rewrite lookup_insert_ne, lookup_insert_eq by done. done.
  - destruct Hl as (Ha & (x & Hx & Hxo & Hxn) & Hl). apply NoDup_cons in Hnd as [Ha' Hnd].
    assert (a ≠ t) by (intros ->; apply Ha'; apply elem_of_app; right; by left).
    assert (a ≠ p) by (intros ->; apply Hp; by left).
    split; [done|]. split.
    + exists x. rewrite !lookup_insert_ne by done. split; [done|]. split; [done|].
      rewrite Hxn. by destruct q.
    + apply IH; [done|done|]. intros Hin. apply Hp. by right.
Qed.

(** ** Replacing one queue *)

Section Inv.
Context (k : Kernel) (Q : list (list Z)) (Hinv : rq_inv k Q).

Lemma inv_lookup h :
  0 ≤ h < 8 → ∃ r q, g_rq k !! Z.to_nat h = Some r ∧ Q !! Z.to_nat h = Some q ∧
                     rq_rep (g_procs k) r q.
Proof using Hinv.
  intros Hh. destruct Hinv as [Hlen Hrep _ _ _].
  destruct (lookup_lt_is_Some_2 Q (Z.to_nat h)) as [q Hq]; [lia|].
  destruct (Forall2_lookup_r _ _ _ _ _ Hrep Hq) as (r & Hr & Hrq). eauto.
Qed.

Lemma inv_replace k' h r' q q' :
  Q !! h = Some q → g_rq k' = <[h := r']> (g_rq k) →
  (∀ p, p ∈ others h Q → g_procs k' !! p = g_procs k !! p) →
  rq_rep (g_procs k') r' q' →
  NoDup (q' ++ others h Q) →
  (∀ p x, g_procs k' !! p = Some x → p_on_rq x = true → p ∈ q' ++ others h Q) →
  g_procs k' !! 0 = None →
  rq_inv k' (<[h := q']> Q).
Proof using Hinv.
  intros Hq Hrq Hag Hrep' Hnd Hon H0. destruct Hinv as [Hlen Hrep _ _ _].
  assert (h < length Q)%nat as Hh by (by eapply lookup_lt_Some).
  pose proof (concat_insert_perm Q h q' Hh) as Hperm.
  constructor.
  - by rewrite length_insert.
  - rewrite Hrq. apply Forall2_same_length_lookup_2.
    { rewrite !length_insert. by eapply Forall2_length. }
    intros j r qj Hj Hqj. destruct (decide (j = h)) as [->|Hne].
    + rewrite list_lookup_insert_eq in Hj by (rewrite (Forall2_length _ _ _ Hrep); done).
      rewrite list_lookup_insert_eq in Hqj by done.
      by injection Hj as <-; injection Hqj as <-.
    + rewrite list_lookup_insert_ne in Hj by done.
      rewrite list_lookup_insert_ne in Hqj by done.
      destruct (Forall2_lookup_lr _ _ _ _ _ _ Hrep Hj Hqj) as (? & ? & ? & Hl).
      split; [done|]. split; [done|]. split; [done|].
      eapply linked_agree; [|exact Hl]. intros p Hp. apply Hag. by eapply elem_of_others.
  - by rewrite Hperm.
  - intros p x Hx Hx'. rewrite Hperm. eauto.
  - done.
Qed.

(** A process that is in a queue is in the table, marked. *)
Lemma inv_member p : p ∈ concat Q → ∃ x, g_procs k !! p = Some x ∧ p_on_rq x = true ∧ p ≠ 0.
Proof using Hinv.
  intros Hp. apply list_elem_of_In, in_concat in Hp as (q & Hq & Hp).
  apply list_elem_of_In in Hq, Hp. apply list_elem_of_lookup in Hq as [j Hj].
  destruct Hinv as [_ Hrep _ _ _].
  destruct (Forall2_lookup_r _ _ _ _ _ Hrep Hj) as (r & _ & (_ & _ & _ & Hl)).
  destruct (linked_lookup _ _ _ Hl Hp) as (x & ? & ?). exists x.
  split; [done|]. split; [done|]. by eapply linked_nonnull.
Qed.
End Inv.

Lemma strip_set_next v x : strip (set_p_next v x) = strip x.
Proof. by destruct x. Qed.
Lemma strip_set_on_rq v x : strip (set_p_on_rq v x) = strip x.
Proof. by destruct x. Qed.

(** Changing only links of one process is framed. *)
Lemma strip_insert (ps : gmap Z Proc) p x y i :
  ps !! p = Some x → strip y = strip x → strip <$> ps !! i = strip <$> <[p := y]> ps !! i.
Proof.
  intros Hx Hs. destruct (decide (i = p)) as [->|];
    [rewrite lookup_insert_eq, Hx; simpl; by f_equal|by rewrite lookup_insert_ne].
Qed.

Lemma locks_insert (l : list RunQueue) h r r' :
  l !! h = Some r → rq_lock_held r' = rq_lock_held r →
  rq_lock_held <$> l = rq_lock_held <$> <[h := r']> l.
Proof.
  intros Hr He. rewrite list_fmap_insert, He. symmetry. apply list_insert_id.
  by rewrite list_lookup_fmap, Hr.
Qed.

(** ** The queue operations *)

Lemma w64_succ z : w64 (w64 z + 1) = w64 (z + 1).
Proof. unfold w64. by rewrite Zplus_mod_idemp_l. Qed.

Lemma w64_pred z : w64 (w64 (1 + z) - 1) = w64 z.
Proof. unfold w64. rewrite Zminus_mod_idemp_l. f_equal. lia. Qed.

Lemma hd0_app q p : hd0 (q ++ [p]) = if decide (q = []) then p else hd0 q.
Proof. by destruct q. Qed.

(** Replacing one queue header keeps every lock. *)
Lemma frame_links k k' h r r' :
  g_rq k !! h = Some r → rq_lock_held r' = rq_lock_held r →
  g_rq k' = <[h := r']> (g_rq k) →
  (∀ p, strip <$> g_procs k !! p = strip <$> g_procs k' !! p) →
  g_all_procs k = g_all_procs k' → g_hart_current k = g_hart_current k' →
  g_current k = g_current k' → g_hart_idle_tf k = g_hart_idle_tf k' →
  g_need_resched k = g_need_resched k' → g_next_pid k = g_next_pid k' →
  frame k k'.
Proof.
  intros Hr Hl Hrq. intros. constructor; try done. rewrite Hrq. by eapply locks_insert.
Qed.

(** Queue [h] becomes [q'], and only processes of the old and the new queue
    have changed. *)
Lemma inv_change k Q k' h r' q q' :
  rq_inv k Q → Q !! h = Some q → g_rq k' = <[h := r']> (g_rq k) →
  (∀ i, i ∉ q → i ∉ q' → g_procs k' !! i = g_procs k !! i) →
  (∀ i y, i ∈ q → i ∉ q' → g_procs k' !! i = Some y → p_on_rq y = false) →
  NoDup q' → (∀ i, i ∈ q' → i ∈ q ∨ i ∉ concat Q) → 0 ∉ q' →
  rq_rep (g_procs k') r' q' →
  rq_inv k' (<[h := q']> Q).
Proof.
  intros Hinv Hq Hrq Hag Hrel Hnd Hsub H0 Hrep.
  pose proof (concat_perm Q h q Hq) as Hperm.
  pose proof (inv_nodup _ _ Hinv) as Hnd'. rewrite Hperm in Hnd'.
  apply NoDup_app in Hnd' as (Hndq & Hdisj & Hndo).
  assert (∀ i, i ∈ q' → i ∉ others h Q) as Hd.
  { intros i Hi Ho. destruct (Hsub i Hi) as [?|Hn]; [by eapply Hdisj|].
    apply Hn. rewrite Hperm. apply elem_of_app. by right. }
  eapply inv_replace; try done.
  - intros p Hp. apply Hag; [intros ?; by eapply Hdisj|intros ?; by eapply Hd].
  - by apply NoDup_app.
  - intros p y Hy Hon. apply elem_of_app. destruct (decide (p ∈ q')) as [|Hnq']; [by left|right].
    destruct (decide (p ∈ q)) as [Hpq|Hnq]; [exfalso; rewrite (Hrel p y) in Hon; done|].
    rewrite Hag in Hy by done. pose proof (inv_on_rq _ _ Hinv p y Hy Hon) as Hin.
    rewrite Hperm in Hin. apply elem_of_app in Hin as [?|?]; done.
  - rewrite Hag; [by apply (inv_null _ _ Hinv)| |done].
    intros Hin. destruct (inv_member k Q Hinv 0) as (_ & _ & _ & ?); [|done].
    rewrite Hperm. apply elem_of_app. by left.
Qed.

Definition enq_proc (x : Proc) : Proc := set_p_next 0 (set_p_on_rq true x).

Lemma alter_as_insert (ps : gmap Z Proc) f i x :
  ps !! i = Some x → alter f i ps = <[i := f x]> ps.
Proof.
  intros Hx. apply map_eq. intros j. rewrite lookup_alter, lookup_insert.
  case_decide; subst; [by rewrite Hx|done].
Qed.

(** The process table after [p] joins the end of [q]. *)
Definition enq_map (ps : gmap Z Proc) (q : list Z) (p : Z) (x : Proc) : gmap Z Proc :=
  match last q with
  | Some t => alter (set_p_next p) t (<[p := enq_proc x]> ps)
  | None => <[p := enq_proc x]> ps
  end.

Lemma enq_map_ne ps q p x i : i ∉ q → i ≠ p → enq_map ps q p x !! i = ps !! i.
Proof.
  intros Hi Hp. unfold enq_map. destruct (last q) as [t|] eqn:Ht.
  - apply last_Some_elem_of in Ht. by rewrite lookup_alter_ne, lookup_insert_ne by set_solver.
  - by rewrite lookup_insert_ne.
Qed.

Lemma enq_map_strip ps q p x i :
  ps !! p = Some x → strip <$> ps !! i = strip <$> enq_map ps q p x !! i.
Proof.
  intros Hx.
  assert (strip <$> ps !! i = strip <$> <[p := enq_proc x]> ps !! i) as Hs by (by eapply strip_insert).
  unfold enq_map. destruct (last q) as [t|]; [|done]. rewrite Hs, lookup_alter.
  case_decide; [subst|done]. by destruct (<[p:=enq_proc x]> ps !! i).
Qed.

Lemma linked_enq ps q p x :
  linked ps q → NoDup q → p ∉ q → p ≠ 0 → ps !! p = Some x →
  linked (enq_map ps q p x) (q ++ [p]).
Proof.
  unfold enq_map. intros Hl Hnd Hp Hp0 Hx. destruct q as [|t q' _] using rev_ind.
  - simpl. split; [done|]. split; [|done]. exists (enq_proc x). by rewrite lookup_insert_eq.
  - rewrite last_snoc.
    destruct (linked_lookup ps (q' ++ [t]) t Hl) as (xt & Ht & Hon); [set_solver|].
    rewrite (alter_as_insert _ _ _ xt) by (rewrite lookup_insert_ne; set_solver).
    by apply linked_snoc.
Qed.

(** The process table after [p], between [q1] and [q2], is unlinked. *)
Definition unl_map (ps : gmap Z Proc) (q1 : list Z) (p : Z) (q2 : list Z) (x : Proc)
    : gmap Z Proc :=
  <[p := set_p_on_rq false (set_p_next 0 x)]>
    (match last q1 with Some t => alter (set_p_next (hd0 q2)) t ps | None => ps end).

Lemma unl_map_ne ps q1 p q2 x i : i ∉ q1 → i ≠ p → unl_map ps q1 p q2 x !! i = ps !! i.
Proof.
  intros Hi Hp. unfold unl_map. rewrite lookup_insert_ne by done.
  destruct (last q1) as [t|] eqn:Ht; [|done].
  apply last_Some_elem_of in Ht. by rewrite lookup_alter_ne by set_solver.
Qed.

Lemma unl_map_strip ps q1 p q2 x i :
  ps !! p = Some x → p ∉ q1 → strip <$> ps !! i = strip <$> unl_map ps q1 p q2 x !! i.
Proof.
  intros Hx Hp. unfold unl_map. destruct (last q1) as [t|] eqn:Ht.
  - apply last_Some_elem_of in Ht. rewrite <- (strip_insert _ p x) by
      (rewrite ?lookup_alter_ne by set_solver; by destruct x).
    rewrite lookup_alter. case_decide; [subst|done]. by destruct (ps !! i).
  - eapply strip_insert; [done|by destruct x].
Qed.

Lemma linked_suffix ps q1 q2 : linked ps (q1 ++ q2) → linked ps q2.
Proof. induction q1 as [|a q1 IH]; simpl; [done|]. intros (_ & _ & ?). auto. Qed.

Lemma linked_unlink ps q1 p q2 x :
  linked ps (q1 ++ p :: q2) → NoDup (q1 ++ p :: q2) → linked (unl_map ps q1 p q2 x) (q1 ++ q2).
Proof.
  induction q1 as [|a q1 IH]; simpl; intros Hl Hnd.
  - eapply linked_agree; [|apply Hl]. intros i Hi. apply unl_map_ne; [set_solver|].
    apply NoDup_cons in Hnd as [? _]. by intros ->.
  - destruct Hl as (Ha & (y & Hy & Hon & Hn) & Hl). apply NoDup_cons in Hnd as [Ha' Hnd].
    assert (a ≠ p) by (intros ->; apply Ha'; set_solver).
    split; [done|]. destruct q1 as [|b q1].
    + clear IH. unfold unl_map. simpl in *. split.
      * exists (set_p_next (hd0 q2) y). by rewrite lookup_insert_ne, lookup_alter_eq, Hy by done.
      * destruct Hl as (_ & _ & Hl). eapply linked_agree; [|exact Hl]. intros i Hi.
        apply NoDup_cons in Hnd as [? _]. rewrite lookup_insert_ne, lookup_alter_ne by set_solver.
        done.
    + assert (unl_map ps (a :: b :: q1) p q2 x = unl_map ps (b :: q1) p q2 x) as -> by done.
      split; [|by apply IH]. exists y. rewrite unl_map_ne by set_solver. done.
Qed.

Lemma last0_unlink q1 p q2 : NoDup (q1 ++ p :: q2) →
  last0 (q1 ++ q2) = if last0 (q1 ++ p :: q2) =? p then last0 q1 else last0 (q1 ++ p :: q2).
Proof.
  intros Hnd. unfold last0. destruct q2 as [|b q2 _] using rev_ind.
  - rewrite app_nil_r, last_snoc. simpl. by rewrite Z.eqb_refl.
  - rewrite app_comm_cons, !app_assoc, !last_snoc. simpl.
    replace (b =? p) with false; [done|]. symmetry. apply Z.eqb_neq. intros ->.
    apply NoDup_app in Hnd as (_ & _ & Hnd). apply NoDup_cons in Hnd as [Hp _]. set_solver.
Qed.

Section Ops.
Context (k : Kernel) (Q : list (list Z)) (Hinv : rq_inv k Q).
Context (h : Z) (q : list Z) (Hh : 0 ≤ h) (Hq : Q !! Z.to_nat h = Some q).
Context (r : RunQueue) (Hr : g_rq k !! Z.to_nat h = Some r).

Lemma ops_rep : rq_rep (g_procs k) r q.
Proof using Hinv Hq Hr. by eapply Forall2_lookup_lr; [apply (inv_rep _ _ Hinv)| |]. Qed.

Lemma ops_nodup : NoDup q.
Proof using Hinv Hq.
  pose proof (inv_nodup _ _ Hinv) as H. rewrite (concat_perm _ _ _ Hq) in H.
  by apply NoDup_app in H as [? _].
Qed.

Lemma ops_sub p : p ∈ q → p ∈ concat Q.
Proof using Hq. intros Hp. rewrite (concat_perm _ _ _ Hq). apply elem_of_app. by left. Qed.

Lemma not_queued p x : g_procs k !! p = Some x → p_on_rq x = false → p ∉ concat Q ∧ p ≠ 0.
Proof using Hinv.
  intros Hx Hon. split.
  - intros Hp. destruct (inv_member k Q Hinv p Hp) as (y & Hy & Hyon & _). congruence.
  - intros ->. rewrite (inv_null _ _ Hinv) in Hx. done.
Qed.

Lemma inv_append k' p x :
  g_procs k !! p = Some x → p_on_rq x = false →
  g_procs k' = enq_map (g_procs k) q p x →
  g_rq k' = <[Z.to_nat h := mkRunQueue (rq_lock_held r) (hd0 (q ++ [p])) p
                              (w64 (len (q ++ [p])))]> (g_rq k) →
  rq_inv k' (<[Z.to_nat h := q ++ [p]]> Q).
Proof using Hinv Hh Hq Hr.
  intros Hx Hon Hps Hrq. destruct (not_queued p x Hx Hon) as [Hnew Hp0].
  destruct ops_rep as (_ & _ & _ & Hlk). pose proof ops_nodup as Hnd.
  assert (p ∉ q) as Hpq by (intros ?; by apply Hnew, ops_sub).
  eapply inv_change; try done; rewrite ?Hps.
  - intros i Hi Hi'. apply enq_map_ne; set_solver.
  - set_solver.
  - apply NoDup_app. split; [done|]. split; [|apply NoDup_singleton]. set_solver.
  - set_solver.
  - intros Hz. apply elem_of_app in Hz as [Hz|Hz]; [|set_solver].
    by eapply linked_nonnull.
  - unfold rq_rep. simpl. rewrite last0_snoc. split_and!; try done. by apply linked_enq.
Qed.

Lemma enqueue_spec p x :
  g_procs k !! p = Some x →
  wp (enqueue h p)
     (λ _ k', rq_inv k' (if p_on_rq x then Q else <[Z.to_nat h := q ++ [p]]> Q) ∧ frame k k') k.
Proof using Hinv Hh Hq Hr.
  intros Hx. unfold enqueue. sstep.
  destruct (p_on_rq x) eqn:Hon; [sstep; eauto using frame_refl|].
  sstep. step_with update_ok; [apply lookup_insert_eq|]. simpl.
  step_with rq_at_ok. simpl. rewrite insert_insert_eq.
  destruct ops_rep as (Hhd & Htl & Hnr & Hlk). rewrite Htl.
  destruct (not_queued p x Hx Hon) as [Hnew Hp0].
  set (k' := set_g_rq (<[Z.to_nat h := mkRunQueue (rq_lock_held r) (hd0 (q ++ [p])) p
                          (w64 (len (q ++ [p])))]> (g_rq k))
               (set_g_procs (enq_map (g_procs k) q p x) k)).
  assert (rq_inv k' (<[Z.to_nat h:=q ++ [p]]> Q) ∧ frame k k') as HQ.
  { split; [by eapply inv_append|].
    eapply (frame_links k k' (Z.to_nat h)); [done| |done| |done..]; [done|].
    intros. by apply enq_map_strip. }
  assert (p ∉ q) as Hpq by (intros ?; by apply Hnew, ops_sub).
  subst k'. destruct q as [|t q' _] using rev_ind.
  - simpl. step_with rq_update_ok. rq_again Hr. by rewrite Hnr.
  - rewrite last0_snoc. destruct (linked_lookup _ _ t Hlk) as (xt & Ht & _); [set_solver|].
    assert (t ≠ p) by (intros ->; apply Hpq; set_solver).
    unfold enq_map in HQ. rewrite last_snoc in HQ.
    rewrite (alter_as_insert _ _ _ xt) in HQ by (by rewrite lookup_insert_ne).
    replace (t =? 0) with false
      by (symmetry; apply Z.eqb_neq; eapply linked_nonnull; [exact Hlk|set_solver]).
    apply wp_bind. step_with update_ok; [simpl; by rewrite lookup_insert_ne|]. simpl.
    sstep. rq_again Hr. rewrite Hnr, Hhd, w64_succ.
    replace (hd0 (q' ++ [t])) with (hd0 ((q' ++ [t]) ++ [p])) by (by destruct q').
    rewrite (len_app (q' ++ [t]) [p]) in HQ. exact HQ.
Qed.

Lemma inv_unlink k' q1 p q2 x :
  q = q1 ++ p :: q2 → g_procs k !! p = Some x →
  g_procs k' = unl_map (g_procs k) q1 p q2 x →
  g_rq k' = <[Z.to_nat h := mkRunQueue (rq_lock_held r) (hd0 (q1 ++ q2)) (last0 (q1 ++ q2))
                              (w64 (len (q1 ++ q2)))]> (g_rq k) →
  rq_inv k' (<[Z.to_nat h := q1 ++ q2]> Q).
Proof using Hinv Hh Hq Hr.
  intros Hqe Hx Hps Hrq. destruct ops_rep as (_ & _ & _ & Hlk). pose proof ops_nodup as Hnd.
  assert (p ∉ q1 ++ q2) as Hpq.
  { rewrite Hqe in Hnd. apply NoDup_app in Hnd as (_ & Hd & Hnd).
    apply NoDup_cons in Hnd as [? _]. set_solver. }
  eapply inv_change; try done; rewrite ?Hps.
  - intros i Hi Hi'. apply unl_map_ne; set_solver.
  - intros i y Hi Hi'. assert (i = p) as -> by set_solver.
    unfold unl_map. rewrite lookup_insert_eq. by intros [= <-].
  - rewrite Hqe in Hnd. eapply sublist_NoDup; [exact Hnd|]. apply sublist_app; [done|]. by constructor.
  - set_solver.
  - intros Hz. eapply (linked_nonnull (g_procs k) q 0); [done| |done]. set_solver.
  - unfold rq_rep. simpl. split_and!; try done. rewrite Hqe in *. by apply linked_unlink.
Qed.

Lemma unlink_frame k' q1 p q2 x :
  p ∉ q1 → g_procs k !! p = Some x →
  k' = set_g_rq (<[Z.to_nat h := mkRunQueue (rq_lock_held r) (hd0 (q1 ++ q2)) (last0 (q1 ++ q2))
                              (w64 (len (q1 ++ q2)))]> (g_rq k))
         (set_g_procs (unl_map (g_procs k) q1 p q2 x) k) →
  frame k k'.
Proof using Hr.
  intros Hp Hx ->. eapply (frame_links k _ (Z.to_nat h)); [done| |done| |done..]; [done|].
  intros. by apply unl_map_strip.
Qed.

Lemma unlink_spec k' q1 p q2 x :
  q = q1 ++ p :: q2 → g_procs k !! p = Some x →
  k' = set_g_rq (<[Z.to_nat h := mkRunQueue (rq_lock_held r) (hd0 (q1 ++ q2)) (last0 (q1 ++ q2))
                              (w64 (len (q1 ++ q2)))]> (g_rq k))
         (set_g_procs (unl_map (g_procs k) q1 p q2 x) k) →
  rq_inv k' (<[Z.to_nat h := q1 ++ q2]> Q) ∧ frame k k'.
Proof using Hinv Hh Hq Hr.
  intros Hqe Hx Hk. split; [eapply inv_unlink; try done; by rewrite Hk|].
  eapply unlink_frame; try done. pose proof ops_nodup as Hnd. rewrite Hqe in Hnd.
  apply NoDup_app in Hnd as (_ & Hd & _). intros ?. by eapply Hd; [|left].
Qed.
End Ops.

(** Distinct processes of the table are walked within the fuel. *)
Lemma nodup_fits k (q : list Z) :
  NoDup q → (∀ p, p ∈ q → is_Some (g_procs k !! p)) → (length q < walk_fuel k)%nat.
Proof.
  intros Hnd Hin. unfold walk_fuel. apply Nat.lt_succ_r. rewrite <- size_dom.
  rewrite <- (size_list_to_set (C := gset Z) q) by done.
  apply subseteq_size. intros p Hp. apply elem_of_list_to_set in Hp. apply elem_of_dom. auto.
Qed.

Section Specs.
Context (k : Kernel) (Q : list (list Z)) (Hinv : rq_inv k Q).
Context (h : Z) (q : list Z) (Hh : 0 ≤ h) (Hq : Q !! Z.to_nat h = Some q).
Context (r : RunQueue) (Hr : g_rq k !! Z.to_nat h = Some r).

Lemma dequeue_spec :
  wp (dequeue h)
     (λ p k', p = hd0 q ∧ rq_inv k' (<[Z.to_nat h := tail q]> Q) ∧ frame k k') k.
Proof using Hinv Hh Hq Hr.
  unfold dequeue. sstep. destruct (ops_rep k Q Hinv h q Hq r Hr) as (Hhd & Htl & Hnr & Hlk).
  rewrite Hhd. pose proof (ops_nodup k Q Hinv h q Hq) as Hnd.
  destruct q as [|p q'] eqn:Hqe; simpl.
  - sstep. rewrite list_insert_id by done. eauto using frame_refl.
  - destruct Hlk as (Hp0 & (x & Hx & Hon & Hn) & Hlk).
    replace (p =? 0) with false by (symmetry; by apply Z.eqb_neq).
    sstep. sstep. step_with update_ok. simpl. step_with update_ok; [apply lookup_insert_eq|].
    simpl. apply wp_bind. rq_again Hr. sstep. split; [done|].
    apply (unlink_spec k Q Hinv h (p :: q') Hh Hq r Hr _ [] p q' x); [done..|].
    rewrite Hn, Hnr, len_cons, w64_pred, Htl, insert_insert_eq. simpl.
    assert ((if hd0 q' =? 0 then 0 else last0 (p :: q')) = last0 q') as ->; [|done].
    destruct q' as [|b q']; [done|]. simpl. destruct Hlk as (Hb & _ & _).
    by replace (b =? 0) with false by (symmetry; by apply Z.eqb_neq).
Qed.

Lemma filter_ne_id (p : Z) (l : list Z) : p ∉ l → filter (λ i, i ≠ p) l = l.
Proof.
  induction l as [|a l IH]; intros Hp; [done|].
  rewrite filter_cons_True by set_solver. rewrite IH by set_solver. done.
Qed.

Lemma filter_unlink (p : Z) q1 q2 :
  NoDup (q1 ++ p :: q2) → filter (λ i, i ≠ p) (q1 ++ p :: q2) = q1 ++ q2 ∧ p ∉ q1.
Proof.
  intros Hnd. apply NoDup_app in Hnd as (_ & Hd & Hnd). apply NoDup_cons in Hnd as [? _].
  assert (p ∉ q1) by (intros ?; by eapply Hd; [|left]).
  rewrite filter_app, filter_cons_False by auto. by rewrite !filter_ne_id.
Qed.

(** The branch of [remove_loop] that unlinks. *)
Definition remove_hit_prog (p prev : Z) (x : Proc) : KM bool :=
  (if prev =? 0 then
     rq_update h (λ r, mkRunQueue (rq_lock_held r) (p_next x) (rq_tail r) (rq_nr_ready r))
   else update prev (set_p_next (p_next x)));;
  rq_update h (λ r, mkRunQueue (rq_lock_held r) (rq_head r)
                      (if rq_tail r =? p then prev else rq_tail r) (rq_nr_ready r));;
  update p (set_p_next 0);;
  update p (set_p_on_rq false);;
  rq_update h (λ r, mkRunQueue (rq_lock_held r) (rq_head r) (rq_tail r)
                      (w64 (rq_nr_ready r - 1)));;
  mret true.

Lemma remove_hit p q1 q2 x :
  NoDup (q1 ++ p :: q2) → linked (g_procs k) (q1 ++ p :: q2) →
  g_procs k !! p = Some x → p_next x = hd0 q2 →
  rq_head r = hd0 (q1 ++ p :: q2) → rq_tail r = last0 (q1 ++ p :: q2) →
  rq_nr_ready r = w64 (len (q1 ++ p :: q2)) →
  wp (remove_hit_prog p (last0 q1) x)
     (λ b k', b = true ∧ k' =
        set_g_rq (<[Z.to_nat h := mkRunQueue (rq_lock_held r) (hd0 (q1 ++ q2)) (last0 (q1 ++ q2))
                              (w64 (len (q1 ++ q2)))]> (g_rq k))
         (set_g_procs (unl_map (g_procs k) q1 p q2 x) k)) k.
Proof using Hinv Hh Hq Hr.
  intros Hnd Hlk Hx Hn Hhd Htl Hnr. unfold remove_hit_prog.
  rewrite (last0_unlink q1 p q2 Hnd), Hn.
  replace (w64 (len (q1 ++ q2))) with (w64 (rq_nr_ready r - 1))
    by (rewrite Hnr, !len_app, len_cons, <- (w64_pred (len q1 + len q2)); do 2 f_equal; f_equal; lia).
  destruct q1 as [|t q1 _] using rev_ind.
  - simpl. sstep. apply wp_bind. rq_again Hr. step_with update_ok. simpl.
    step_with update_ok; [apply lookup_insert_eq|]. simpl.
    apply wp_bind. rq_again Hr. sstep. rewrite insert_insert_eq, Htl. done.
  - destruct (linked_lookup _ _ t Hlk) as (xt & Ht & _); [set_solver|].
    assert (t ≠ 0) by (eapply linked_nonnull; [exact Hlk|set_solver]).
    assert (t ≠ p).
    { intros ->. apply NoDup_app in Hnd as (_ & Hd & _). eapply (Hd p); set_solver. }
    rewrite last0_snoc. replace (t =? 0) with false by (symmetry; by apply Z.eqb_neq).
    sstep. apply wp_bind. eapply wp_Ok; [by eapply rq_update_ok|]. simpl.
    step_with update_ok; [simpl; by rewrite lookup_insert_ne|]. simpl.
    step_with update_ok; [apply lookup_insert_eq|]. simpl.
    apply wp_bind. rq_again Hr. sstep. rewrite insert_insert_eq, Htl, Hhd.
    unfold unl_map. rewrite last_snoc, (alter_as_insert _ _ _ xt) by done.
    replace (hd0 ((q1 ++ [t]) ++ p :: q2)) with (hd0 ((q1 ++ [t]) ++ q2)) by (by destruct q1).
    done.
Qed.

Lemma remove_loop_spec fuel q1 q2 p :
  q = q1 ++ q2 → p ∉ q1 → (length q2 < fuel)%nat →
  wp (remove_loop fuel h p (last0 q1) (hd0 q2))
     (λ b k', b = bool_decide (p ∈ q2) ∧
              rq_inv k' (<[Z.to_nat h := filter (λ i, i ≠ p) q]> Q) ∧ frame k k') k.
Proof using Hinv Hh Hq Hr.
  revert q1 q2. induction fuel as [|fuel IH]; intros q1 q2 Hqe Hp1 Hf; [lia|].
  destruct (ops_rep k Q Hinv h q Hq r Hr) as (Hhd & Htl & Hnr & Hlk).
  pose proof (ops_nodup k Q Hinv h q Hq) as Hnd. simpl.
  destruct q2 as [|c q2]; simpl.
  { sstep. rewrite app_nil_r in Hqe. subst q1. rewrite filter_ne_id, list_insert_id by done.
    eauto using frame_refl. }
  pose proof Hlk as Hlk2. rewrite Hqe in Hlk2. apply linked_suffix in Hlk2.
  destruct Hlk2 as (Hc0 & (x & Hx & Hon & Hn) & Hlk2).
  replace (c =? 0) with false by (symmetry; by apply Z.eqb_neq). sstep.
  destruct (decide (c = p)) as [->|Hne].
  - rewrite Z.eqb_refl, bool_decide_eq_true_2 by left.
    rewrite Hqe in Hnd, Htl, Hnr, Hhd, Hlk. destruct (filter_unlink p q1 q2 Hnd) as [Hfl _].
    rewrite <- Hqe in Hfl. rewrite Hfl. clear IH. eapply wp_mono.
    + eapply (remove_hit p q1 q2 x); done.
    + intros b k' [-> ->]. split; [done|]. by eapply unlink_spec.
  - replace (c =? p) with false by (symmetry; by apply Z.eqb_neq). rewrite Hn.
    eapply wp_mono.
    + specialize (IH (q1 ++ [c]) q2). rewrite last0_snoc in IH.
      apply IH; [by rewrite <- app_assoc|set_solver|simpl in Hf; lia].
    + intros b k' (-> & ? & ?). split; [|done]. apply bool_decide_ext. rewrite elem_of_cons. split; [by right|]. by intros [->|?].
Qed.

Lemma queue_fits : (length q < walk_fuel k)%nat.
Proof using Hinv Hq.
  apply nodup_fits; [by eapply ops_nodup|]. intros p Hp.
  destruct (inv_member k Q Hinv p) as (x & Hx & _); [by eapply ops_sub|]. eauto.
Qed.

Lemma remove_spec p x :
  g_procs k !! p = Some x →
  wp (Sched.remove h p)
     (λ b k', b = bool_decide (p ∈ q) ∧
              rq_inv k' (<[Z.to_nat h := filter (λ i, i ≠ p) q]> Q) ∧ frame k k') k.
Proof using Hinv Hh Hq Hr.
  intros Hx. unfold Sched.remove. sstep. destruct (p_on_rq x) eqn:Hon; cbn [negb].
  - sstep. apply wp_bind, wp_gets.
    destruct (ops_rep k Q Hinv h q Hq r Hr) as (Hhd & _). rewrite Hhd.
    apply (remove_loop_spec _ [] q p); [done|set_solver|apply queue_fits].
  - sstep. destruct (not_queued k Q Hinv p x Hx Hon) as [Hnew _].
    assert (p ∉ q) by (intros ?; by eapply Hnew, ops_sub).
    rewrite bool_decide_eq_false_2, filter_ne_id, list_insert_id by done.
    eauto using frame_refl.
Qed.
End Specs.
