(* ===== verification/YieldProps.v ===== *)
(** * What a yield does to the pool of runnable processes

    Built on the FIFO specifications of [SchedProps]: a yield neither loses nor
    duplicates a runnable process, never waits for a lock it holds itself, and
    serves the hart's queue in order. *)

From S2P Require Import Prelude Vnode Process Sched SchedProps.
From stdpp Require Import base list numbers gmap.
From Stdlib Require Import ZArith Lia.

Open Scope Z_scope.

(** ** Scheduler-level invariant

    [sched_ok]: the queues are well formed, every pinned process is pinned to an
    existing hart and the per-hart arrays have one slot per hart. *)
Record sched_ok (k : Kernel) (Q : list (list Z)) : Prop := {
  ok_inv : rq_inv k Q;
  ok_aff : ∀ p x, g_procs k !! p = Some x → p_affinity x < 8;
  ok_cur : length (g_hart_current k) = 8%nat;
  ok_idle : length (g_hart_idle_tf k) = 8%nat;
  ok_resched : length (g_need_resched k) = 8%nat }.

Definition lock_of (k : Kernel) (h : Z) : option bool := rq_lock_held <$> g_rq k !! Z.to_nat h.

(** What the queue operations and the locks leave alone. *)
Record keep (k k' : Kernel) : Prop := {
  kp_procs : ∀ p, strip <$> g_procs k !! p = strip <$> g_procs k' !! p;
  kp_cur : g_hart_current k = g_hart_current k';
  kp_idle : g_hart_idle_tf k = g_hart_idle_tf k';
  kp_resched : g_need_resched k = g_need_resched k' }.

Lemma keep_refl k : keep k k.
Proof. by constructor. Qed.

Lemma keep_trans k1 k2 k3 : keep k1 k2 → keep k2 k3 → keep k1 k3.
Proof. intros [] []. constructor; congruence. Qed.

Lemma frame_keep k k' : frame k k' → keep k k' ∧ ∀ h, lock_of k' h = lock_of k h.
Proof.
  intros [Hp _ Hc _ Hi Hr _ Hl]. split; [by constructor|].
  intros h. unfold lock_of. by rewrite <- !list_lookup_fmap, Hl.
Qed.

Lemma keep_lookup k k' p x :
  keep k k' → g_procs k !! p = Some x → ∃ y, g_procs k' !! p = Some y ∧ strip y = strip x.
Proof.
  intros Hk Hx. pose proof (kp_procs _ _ Hk p) as H. rewrite Hx in H. simpl in H.
  destruct (g_procs k' !! p) as [y|]; [|done]. apply (inj Some) in H. eauto.
Qed.

Lemma keep_is_Some k k' p :
  keep k k' → is_Some (g_procs k !! p) → is_Some (g_procs k' !! p).
Proof. intros Hk [x Hx]. destruct (keep_lookup k k' p x Hk Hx) as (y & ? & _). eauto. Qed.

Lemma strip_affinity x y : strip y = strip x → p_affinity y = p_affinity x.
Proof. destruct x, y. by intros [=]. Qed.
Lemma strip_state x y : strip y = strip x → p_state y = p_state x.
Proof. destruct x, y. by intros [=]. Qed.

Lemma keep_sym k k' : keep k k' → keep k' k.
Proof. intros []. by constructor. Qed.

Lemma ok_keep k k' Q Q' : sched_ok k Q → keep k k' → rq_inv k' Q' → sched_ok k' Q'.
Proof.
  intros [_ Ha Hc Hi Hr] Hk Hinv. constructor; [done| |by destruct Hk; congruence..].
  intros p x Hx. destruct (keep_lookup k' k p x (keep_sym _ _ Hk) Hx) as (y & Hy & Hs).
  rewrite <- (strip_affinity _ _ Hs). eauto.
Qed.

Lemma ok_queue k Q h : sched_ok k Q → 0 ≤ h < 8 →
  ∃ r q, g_rq k !! Z.to_nat h = Some r ∧ Q !! Z.to_nat h = Some q.
Proof.
  intros Hok Hh. destruct (inv_lookup k Q (ok_inv _ _ Hok) h Hh) as (r & q & ? & ? & _). eauto.
Qed.

(** The queue operations, seen as operations on the pool of queued processes. *)
Lemma dequeue_pool k Q h :
  sched_ok k Q → 0 ≤ h < 8 →
  wp (dequeue h)
     (λ p k', ∃ Q', sched_ok k' Q' ∧ keep k k' ∧ (∀ j, lock_of k' j = lock_of k j) ∧
        if decide (p = 0) then Q' = Q else p :: concat Q' ≡ₚ concat Q) k.
Proof.
  intros Hok Hh. destruct (ok_queue k Q h Hok Hh) as (r & q & Hr & Hq).
  pose proof (ok_inv _ _ Hok) as Hinv.
  eapply wp_mono; [apply (dequeue_spec k Q Hinv h q (proj1 Hh) Hq r Hr)|].
  intros p k' (-> & Hinv' & Hfr). destruct (frame_keep _ _ Hfr) as [Hk Hl].
  eexists. split; [by eapply ok_keep|]. split; [done|]. split; [done|].
  pose proof (concat_perm Q _ q Hq) as Hperm.
  destruct (ops_rep k Q Hinv h q Hq r Hr) as (_ & _ & _ & Hlk).
  destruct q as [|p q]; simpl; [by apply list_insert_id|].
  destruct Hlk as (Hp & _). rewrite decide_False by done.
  rewrite Hperm, concat_insert_perm by (by eapply lookup_lt_Some). done.
Qed.

Lemma enqueue_pool k Q h p x :
  sched_ok k Q → 0 ≤ h < 8 → g_procs k !! p = Some x → p ∉ concat Q →
  wp (enqueue h p)
     (λ _ k', ∃ Q', sched_ok k' Q' ∧ keep k k' ∧ (∀ j, lock_of k' j = lock_of k j) ∧
        concat Q' ≡ₚ p :: concat Q) k.
Proof.
  intros Hok Hh Hx Hp. destruct (ok_queue k Q h Hok Hh) as (r & q & Hr & Hq).
  pose proof (ok_inv _ _ Hok) as Hinv.
  eapply wp_mono; [apply (enqueue_spec k Q Hinv h q (proj1 Hh) Hq r Hr p x Hx)|].
  intros _ k' (Hinv' & Hfr). destruct (frame_keep _ _ Hfr) as [Hk Hl].
  assert (p_on_rq x = false) as Hon
    by (apply not_true_iff_false; intros ?; by eapply Hp, inv_on_rq).
  rewrite Hon in Hinv'. eexists. split; [by eapply ok_keep|]. split; [done|]. split; [done|].
  rewrite concat_insert_perm, (concat_perm Q _ q Hq) by (by eapply lookup_lt_Some).
  by rewrite <- app_assoc, Permutation_middle.
Qed.

(** [rq_lock] and [rq_unlock] change only the lock. *)
Definition with_lock (h : Z) (r : RunQueue) (b : bool) (k : Kernel) : Kernel :=
  set_g_rq (<[Z.to_nat h := mkRunQueue b (rq_head r) (rq_tail r) (rq_nr_ready r)]> (g_rq k)) k.

Lemma with_lock_ok k Q h r b :
  sched_ok k Q → 0 ≤ h → g_rq k !! Z.to_nat h = Some r →
  sched_ok (with_lock h r b k) Q ∧ keep k (with_lock h r b k) ∧
  lock_of (with_lock h r b k) h = Some b ∧
  (∀ j, 0 ≤ j → j ≠ h → lock_of (with_lock h r b k) j = lock_of k j).
Proof.
  intros Hok Hh Hr. assert (keep k (with_lock h r b k)) as Hk by done.
  split; [|split; [done|]].
  - eapply ok_keep; [done..|]. destruct (ok_inv _ _ Hok) as [Hl Hrep Hnd Hon H0].
    constructor; [done| |done..].
    unfold with_lock. simpl. apply Forall2_same_length_lookup_2.
    { rewrite length_insert. by eapply Forall2_length. }
    intros j r' q Hj Hq. destruct (Forall2_lookup_r _ _ _ _ _ Hrep Hq) as (r0 & Hr0 & Hrq).
    destruct (decide (j = Z.to_nat h)) as [->|Hne].
    + rewrite list_lookup_insert_eq in Hj by (by eapply lookup_lt_Some).
      rewrite Hr in Hr0. injection Hr0 as <-. by injection Hj as <-.
    + rewrite list_lookup_insert_ne in Hj by done. congruence.
  - unfold lock_of, with_lock. simpl. split.
    + rewrite list_lookup_insert_eq; [done|]. by eapply lookup_lt_Some.
    + intros j Hj Hne. rewrite list_lookup_insert_ne; [done|]. lia.
Qed.

Lemma rq_lock_pool k Q h :
  sched_ok k Q → 0 ≤ h < 8 →
  wp (rq_lock h)
     (λ free k', sched_ok k' Q ∧ (keep k k' ∧ g_procs k' = g_procs k) ∧ lock_of k' h = Some true ∧
        (∀ j, 0 ≤ j → j ≠ h → lock_of k' j = lock_of k j) ∧ lock_of k h = Some (negb free)) k.
Proof.
  intros Hok Hh. destruct (ok_queue k Q h Hok Hh) as (r & q & Hr & Hq).
  unfold rq_lock. step_with rq_at_ok; [lia|].
  assert (lock_of k h = Some (rq_lock_held r)) as Hl by (unfold lock_of; by rewrite Hr).
  destruct (rq_lock_held r) eqn:Hb.
  - sstep. split_and!; eauto using keep_refl.
  - step_with rq_update_ok; [lia|]. sstep.
    destruct (with_lock_ok k Q h r true Hok) as (? & ? & ? & ?); [lia|done|]. done.
Qed.

Lemma rq_unlock_pool k Q h :
  sched_ok k Q → 0 ≤ h < 8 →
  wp (rq_unlock h)
     (λ _ k', sched_ok k' Q ∧ keep k k' ∧ lock_of k' h = Some false ∧
        (∀ j, 0 ≤ j → j ≠ h → lock_of k' j = lock_of k j)) k.
Proof.
  intros Hok Hh. destruct (ok_queue k Q h Hok Hh) as (r & q & Hr & Hq).
  unfold rq_unlock. eapply wp_Ok; [eapply rq_update_ok; [lia|done]|].
  destruct (with_lock_ok k Q h r false Hok) as (? & ? & ? & ?); [lia|done|]. done.
Qed.

(** A process of the pool is in the table, whatever queue operations happened. *)
Lemma pool_lookup k Q k' p : sched_ok k Q → keep k k' → p ∈ concat Q →
  ∃ x, g_procs k' !! p = Some x ∧ p_affinity x < 8.
Proof.
  intros Hok Hk Hp. destruct (inv_member k Q (ok_inv _ _ Hok) p Hp) as (x & Hx & _).
  destruct (keep_lookup k k' p x Hk Hx) as (y & Hy & Hs). exists y. split; [done|].
  rewrite (strip_affinity _ _ Hs). by eapply ok_aff.
Qed.

Lemma ok_nodup_head k Q p l : sched_ok k Q → p :: l ≡ₚ concat Q → p ∉ l.
Proof.
  intros Hok Hp. pose proof (inv_nodup _ _ (ok_inv _ _ Hok)) as Hnd.
  rewrite <- Hp in Hnd. by apply NoDup_cons in Hnd as [? _].
Qed.

(** The pool after [p] (or nothing, [0]) has left it. *)
Definition taken (p : Z) (before after : list Z) : Prop :=
  if decide (p = 0) then after ≡ₚ before else p :: after ≡ₚ before.

Lemma taken_none l l' : l ≡ₚ l' → taken 0 l l'.
Proof. intros H. unfold taken. by rewrite decide_True by done. Qed.
Lemma taken_some p l l' : p ≠ 0 → p :: l' ≡ₚ l → taken p l l'.
Proof. intros ? H. unfold taken. by rewrite decide_False. Qed.

Lemma steal_loop_pool n k Q h i :
  sched_ok k Q → 0 ≤ h < 8 → 0 ≤ i →
  wp (steal_loop n h i)
     (λ p k', ∃ Q', sched_ok k' Q' ∧ keep k k' ∧ lock_of k' h = lock_of k h ∧
        taken p (concat Q) (concat Q')) k.
Proof.
  intros Hok Hh. revert k Q i Hok. induction n as [|n IH]; intros k Q i Hok Hi; simpl.
  { sstep. exists Q. split_and!; [done|apply keep_refl|done|by apply taken_none]. }
  set (v := (h + i) mod MAX_HARTS).
  assert (0 ≤ v < 8) as Hv by (apply Z.mod_pos_bound; done).
  destruct (v =? h) eqn:Hvh; bool_prop; [apply IH; auto with lia|].
  apply wp_bind. eapply wp_mono; [by apply rq_lock_pool|].
  intros free k1 (Hok1 & [Hk1 _] & _ & Hl1 & _).
  assert (lock_of k1 h = lock_of k h) as Hh1 by (apply Hl1; lia).
  assert (∀ k2 Q2, sched_ok k2 Q2 → keep k k2 → lock_of k2 h = lock_of k h →
            concat Q2 ≡ₚ concat Q →
            wp (steal_loop n h (i + 1)) (λ p k', ∃ Q', sched_ok k' Q' ∧ keep k k' ∧
               lock_of k' h = lock_of k h ∧ taken p (concat Q) (concat Q')) k2) as Hrest.
  { intros k2 Q2 Hok2 Hk2 Hl2 HQ. eapply wp_mono; [apply IH; [done|lia]|].
    intros p k3 (Q3 & ? & ? & ? & Ht). exists Q3. split_and!; [done|by eapply keep_trans|congruence|].
    unfold taken in *. case_decide; by rewrite <- HQ. }
  destruct free; cbn [negb]; [|by eapply Hrest].
  apply wp_bind. eapply wp_mono; [by apply dequeue_pool|].
  intros p k2 (Q2 & Hok2 & Hk2 & Hl2 & HQ2).
  apply wp_bind. eapply wp_mono; [by apply rq_unlock_pool|].
  intros _ k3 (Hok3 & Hk3 & _ & Hl3).
  assert (keep k k3) as Hk by eauto using keep_trans.
  assert (lock_of k3 h = lock_of k h) as Hlh by (rewrite Hl3, Hl2 by lia; done).
  destruct (decide (p = 0)) as [->|Hp0]; simpl; [subst; by eapply Hrest|].
  replace (p =? 0) with false by (symmetry; by apply Z.eqb_neq).
  assert (p ∈ concat Q) as Hin by (rewrite <- HQ2; by left).
  destruct (pool_lookup k Q k3 p Hok Hk Hin) as (x & Hx & Ha). sstep.
  case_if E.
  - apply wp_bind. eapply wp_mono; [eapply enqueue_pool; [done..|exact (ok_nodup_head k Q p _ Hok HQ2)]|].
    intros _ k4 (Q4 & Hok4 & Hk4 & Hl4 & HQ4). eapply Hrest; [done|by eapply keep_trans| |].
    + by rewrite Hl4.
    + by rewrite HQ4.
  - sstep. exists Q2. split_and!; [done..|]. by apply taken_some.
Qed.

(** [pick_next] serves the own queue. *)
Lemma pick_next_pool k Q h :
  sched_ok k Q → 0 ≤ h < 8 →
  wp (pick_next h)
     (λ p k', ∃ Q', sched_ok k' Q' ∧ keep k k' ∧ lock_of k' h = lock_of k h ∧
        taken p (concat Q) (concat Q')) k.
Proof.
  intros Hok Hh. unfold pick_next. apply wp_bind. eapply wp_mono; [by apply dequeue_pool|].
  intros p k1 (Q1 & Hok1 & Hk1 & Hl1 & HQ1).
  destruct (decide (p = 0)) as [->|Hp0]; simpl.
  { sstep. subst. exists Q. split_and!; [done..|by apply taken_none]. }
  replace (p =? 0) with false by (symmetry; by apply Z.eqb_neq).
  assert (p ∈ concat Q) as Hin by (rewrite <- HQ1; by left).
  destruct (pool_lookup k Q k1 p Hok Hk1 Hin) as (x & Hx & Ha). sstep.
  case_if E; [|sstep; exists Q1; split_and!; [done..|by apply taken_some]].
  bool_prop. apply wp_bind.
  eapply wp_mono; [eapply enqueue_pool; [done|lia|done|exact (ok_nodup_head k Q p _ Hok HQ1)]|].
  intros _ k2 (Q2 & Hok2 & Hk2 & Hl2 & HQ2). eapply wp_mono; [by apply dequeue_pool|].
  intros p' k3 (Q3 & Hok3 & Hk3 & Hl3 & HQ3). exists Q3.
  split_and!; [done|by eauto using keep_trans|by rewrite Hl3, Hl2, Hl1|].
  rewrite HQ1 in HQ2. unfold taken. case_decide; [by subst|]. by rewrite HQ3.
Qed.

(** Updates that are not queue operations. *)
Lemma inv_update k Q p x y :
  rq_inv k Q → g_procs k !! p = Some x → p_on_rq y = p_on_rq x → p_next y = p_next x →
  rq_inv (set_g_procs (<[p := y]> (g_procs k)) k) Q.
Proof.
  intros [Hl Hrep Hnd Hon H0] Hx Eo En. assert (p ≠ 0) by (intros ->; congruence).
  constructor; simpl; try done.
  - eapply Forall2_impl; [exact Hrep|]. intros r q (? & ? & ? & Hlk). split_and!; try done.
    clear -Hlk Hx Eo En. induction q as [|a q IH]; simpl in *; [done|].
    destruct Hlk as (? & (z & Hz & ? & ?) & ?). split; [done|]. split; [|auto].
    destruct (decide (a = p)) as [->|].
    + exists y. rewrite lookup_insert_eq. rewrite Hx in Hz. injection Hz as ->.
      split_and!; congruence.
    + exists z. by rewrite lookup_insert_ne.
  - intros i z Hz Hzo. apply lookup_insert_Some in Hz as [[<- <-]|[? Hz]]; [|by eapply Hon].
    eapply Hon; [exact Hx|congruence].
  - by rewrite lookup_insert_ne.
Qed.

Lemma ok_update k Q p x y :
  sched_ok k Q → g_procs k !! p = Some x →
  p_on_rq y = p_on_rq x → p_next y = p_next x → p_affinity y = p_affinity x →
  sched_ok (set_g_procs (<[p := y]> (g_procs k)) k) Q.
Proof.
  intros [Hinv Ha Hc Hi Hr] Hx Eo En Ea. constructor; [by eapply inv_update| |done..].
  simpl. intros i z Hz. apply lookup_insert_Some in Hz as [[<- <-]|[? Hz]]; [|by eapply Ha].
  rewrite Ea. by eapply Ha.
Qed.

Lemma ok_ext k k' Q :
  sched_ok k Q → g_procs k' = g_procs k → g_rq k' = g_rq k →
  length (g_hart_current k') = 8%nat → length (g_hart_idle_tf k') = 8%nat →
  length (g_need_resched k') = 8%nat → sched_ok k' Q.
Proof.
  intros [[] Ha _ _ _] Hp Hq ? ? ?. constructor; [constructor| |done..]; rewrite ?Hp, ?Hq; done.
Qed.

Lemma at_set_ok {A} (arr : Kernel → list A) set i v k :
  length (arr k) = 8%nat → 0 ≤ i < 8 →
  at_set arr set i v k = (Ok tt, set (<[Z.to_nat i := v]> (arr k)) k).
Proof. intros Hl Hi. unfold at_set. rewrite set_idx_ok; [done|]. unfold len. lia. Qed.

Lemma resched_pool k Q h b :
  sched_ok k Q → 0 ≤ h < 8 →
  wp (at_set g_need_resched set_g_need_resched h b)
     (λ _ k', sched_ok k' Q ∧ k' = set_g_need_resched (<[Z.to_nat h := b]> (g_need_resched k)) k) k.
Proof.
  intros Hok Hh. eapply wp_Ok; [apply at_set_ok; [by apply (ok_resched _ _ Hok)|done]|].
  split; [|done]. destruct Hok as [? ? ? ? ?].
  eapply ok_ext; simpl; rewrite ?length_insert; done.
Qed.

Lemma set_current_pool k Q h p :
  sched_ok k Q → 0 ≤ h < 8 →
  wp (set_current_for_hart h p)
     (λ _ k', sched_ok k' Q ∧ g_procs k' = g_procs k ∧ g_rq k' = g_rq k ∧
              g_hart_current k' = <[Z.to_nat h := p]> (g_hart_current k) ∧
              g_need_resched k' = g_need_resched k) k.
Proof.
  intros Hok Hh. unfold set_current_for_hart, MAX_HARTS.
  rewrite (proj2 (Z.ltb_lt h 8)) by lia. apply wp_bind.
  eapply wp_Ok; [apply at_set_ok; [by apply (ok_cur _ _ Hok)|done]|].
  assert (∀ v, sched_ok (set_g_current v (set_g_hart_current
            (<[Z.to_nat h := p]> (g_hart_current k)) k)) Q) as H.
  { intros v. pose proof (ok_cur _ _ Hok). pose proof (ok_idle _ _ Hok).
    pose proof (ok_resched _ _ Hok). eapply ok_ext; simpl; rewrite ?length_insert; done. }
  case_if E; [apply wp_modify|apply wp_ret]; [by split_and!|].
  split_and!; try done. by apply (H (g_current k)).
Qed.

(** The end of a yield on hart [h] that started with the runnable pool [pool]
    and current process [c]; [ex]: [c] had exited. *)
Definition yielded (h c : Z) (pool : list Z) (ex : Prop) (o : outcome) (k' : Kernel) : Prop :=
  ∃ Q', sched_ok k' Q' ∧ lock_of k' h = Some false ∧
    g_need_resched k' !! Z.to_nat h = Some false ∧
    match o with
    | SwitchTo p =>
        p :: concat Q' ≡ₚ pool ∧ g_hart_current k' !! Z.to_nat h = Some p ∧
        ∃ x, g_procs k' !! p = Some x ∧ p_state x = Running ∧ p_kstack_tf x = p_tf x
    | Returned => concat Q' ≡ₚ pool ∧ g_hart_current k' !! Z.to_nat h = Some c ∧ ¬ ex
    | SwitchIdle | Halted => concat Q' ≡ₚ pool ∧ g_hart_current k' !! Z.to_nat h = Some 0
    | Spins => False
    end.

(** The last steps of a switch to [p], the lock being free by then. *)
Lemma switch_end k Q h c p x pool ex :
  sched_ok k Q → 0 ≤ h < 8 → lock_of k h = Some false → g_procs k !! p = Some x →
  p_state x = Running → g_hart_current k !! Z.to_nat h = Some p → p :: concat Q ≡ₚ pool →
  wp (at_set g_need_resched set_g_need_resched h false;;
      x ← deref p; update p (set_p_kstack_tf (p_tf x));; mret (SwitchTo p))
     (yielded h c pool ex) k.
Proof.
  intros Hok Hh Hl Hx Hs Hc HQ. apply wp_bind. eapply wp_mono; [by apply resched_pool|].
  intros _ k1 (Hok1 & ->). sstep. sstep. sstep. exists Q. split_and!.
  - eapply (ok_update _ _ p x) in Hok1; [exact Hok1|done..].
  - done.
  - simpl. rewrite list_lookup_insert_eq; [done|]. rewrite (ok_resched _ _ Hok). lia.
  - done.
  - done.
  - simpl. eexists. by rewrite lookup_insert_eq.
Qed.

Lemma cur_insert k Q h p :
  sched_ok k Q → 0 ≤ h < 8 → <[Z.to_nat h := p]> (g_hart_current k) !! Z.to_nat h = Some p.
Proof. intros Hok Hh. rewrite list_lookup_insert_eq; [done|]. rewrite (ok_cur _ _ Hok). lia. Qed.

Lemma run_stolen_pool k Q h c p x pool ex :
  sched_ok k Q → 0 ≤ h < 8 → lock_of k h = Some false → g_procs k !! p = Some x →
  p :: concat Q ≡ₚ pool → wp (run_stolen h p) (yielded h c pool ex) k.
Proof.
  intros Hok Hh Hl Hx HQ. unfold run_stolen. sstep. apply wp_bind.
  eapply wp_mono; [eapply set_current_pool; [by eapply (ok_update _ _ p x)|done]|].
  intros _ k1 (Hok1 & Hp1 & Hq1 & Hc1 & _).
  eapply (switch_end k1 Q h c p (set_p_state Running x) pool); try done.
  - unfold lock_of. by rewrite Hq1.
  - rewrite Hp1. apply lookup_insert_eq.
  - rewrite Hc1. by eapply (cur_insert k).
Qed.

Lemma run_next_pool k Q h c p x pool ex :
  sched_ok k Q → 0 ≤ h < 8 → g_procs k !! p = Some x →
  p :: concat Q ≡ₚ pool → wp (run_next h p) (yielded h c pool ex) k.
Proof.
  intros Hok Hh Hx HQ. unfold run_next. sstep. apply wp_bind.
  eapply wp_mono; [eapply set_current_pool; [by eapply (ok_update _ _ p x)|done]|].
  intros _ k1 (Hok1 & Hp1 & Hq1 & Hc1 & _). apply wp_bind.
  eapply wp_mono; [by apply rq_unlock_pool|]. intros _ k2 (Hok2 & Hk2 & Hl2 & _).
  destruct (keep_lookup k1 k2 p (set_p_state Running x) Hk2) as (y & Hy & Hs).
  { rewrite Hp1. apply lookup_insert_eq. }
  eapply (switch_end k2 Q h c p y pool); try done.
  - by rewrite (strip_state _ _ Hs).
  - rewrite <- (kp_cur _ _ Hk2), Hc1. by eapply (cur_insert k).
Qed.

Lemma quiet_end k Q h c c' pool ex o :
  sched_ok k Q → 0 ≤ h < 8 → g_hart_current k !! Z.to_nat h = Some c' → concat Q ≡ₚ pool →
  match o with Returned => c' = c ∧ ¬ ex | SwitchIdle | Halted => c' = 0 | _ => False end →
  wp (rq_unlock h;; at_set g_need_resched set_g_need_resched h false;; mret o)
     (yielded h c pool ex) k.
Proof.
  intros Hok Hh Hc HQ Ho. apply wp_bind.
  eapply wp_mono; [by apply rq_unlock_pool|]. intros _ k1 (Hok1 & Hk1 & Hl1 & _). apply wp_bind.
  eapply wp_mono; [by apply resched_pool|]. intros _ k2 (Hok2 & ->). sstep.
  rewrite (kp_cur _ _ Hk1) in Hc. exists Q. split_and!; [done|done| |].
  - simpl. rewrite list_lookup_insert_eq; [done|]. rewrite (ok_resched _ _ Hok1). lia.
  - destruct o; try done; [|by subst..]. destruct Ho as [-> Hex]. done.
Qed.

(** Process [c] has exited. *)
Definition exited (k : Kernel) (c : Z) : Prop := c ≠ 0 ∧ ∃ x, g_procs k !! c = Some x ∧ p_state x = Exited.

Lemma run_nothing_pool k Q h c pool ex :
  sched_ok k Q → 0 ≤ h < 8 → g_hart_current k !! Z.to_nat h = Some c →
  (c ≠ 0 → is_Some (g_procs k !! c)) → (ex → exited k c) → concat Q ≡ₚ pool →
  wp (run_nothing h c) (yielded h c pool ex) k.
Proof.
  intros Hok Hh Hc Hc0 Hex HQ. unfold run_nothing. case_if E; bool_prop.
  { eapply quiet_end; try done. split; [done|]. intros [Hne _]%Hex. done. }
  destruct (Hc0 E) as [x Hx]. sstep. case_if E'.
  - apply wp_bind. eapply wp_mono; [by eapply set_current_pool|].
    intros _ k1 (Hok1 & _ & _ & Hc1 & _). eapply quiet_end; try done.
    + rewrite Hc1. by eapply (cur_insert k).
    + by destruct (h =? 0).
  - sstep. eapply quiet_end; try done; [by eapply (ok_update _ _ c x)|]. split; [done|].
    intros (_ & y & Hy & Hs)%Hex. apply bool_decide_eq_false in E'. congruence.
Qed.

(** The processes that can run: the queued ones and a running current one. *)
Definition runnable (k : Kernel) (c : Z) (Q : list (list Z)) : list Z :=
  match g_procs k !! c with
  | Some x => if bool_decide (p_state x = Running) then c :: concat Q else concat Q
  | None => concat Q
  end.

Lemma save_current_pool k Q h c tf :
  sched_ok k Q → 0 ≤ h < 8 →
  (c ≠ 0 → ∃ x, g_procs k !! c = Some x ∧ p_on_rq x = false) →
  wp (save_current h c tf)
     (λ _ k', ∃ Q', sched_ok k' Q' ∧ concat Q' ≡ₚ runnable k c Q ∧
        lock_of k' h = lock_of k h ∧ g_hart_current k' = g_hart_current k ∧
        (∀ p, is_Some (g_procs k !! p) → is_Some (g_procs k' !! p)) ∧ (exited k c → exited k' c)) k.
Proof.
  intros Hok Hh Hc. unfold save_current, runnable. case_if E; bool_prop.
  - subst. rewrite (inv_null _ _ (ok_inv _ _ Hok)).
    eapply wp_Ok; [apply at_set_ok; [by apply (ok_idle _ _ Hok)|done]|].
    exists Q. split_and!; try done. pose proof (ok_cur _ _ Hok). pose proof (ok_idle _ _ Hok).
    pose proof (ok_resched _ _ Hok). eapply ok_ext; simpl; rewrite ?length_insert; done.
  - destruct (Hc E) as (x & Hx & Hon). rewrite Hx. sstep.
    step_with deref_ok; [apply lookup_insert_eq|]. simpl.
    pose proof (ok_update k Q c x (set_p_tf tf x) Hok Hx) as Hok1.
    case_if E'; simpl in E'.
    + step_with update_ok; [apply lookup_insert_eq|]. simpl. rewrite insert_insert_eq.
      pose proof (ok_update k Q c x (set_p_state Ready (set_p_tf tf x)) Hok Hx) as Hok2.
      eapply wp_mono; [eapply enqueue_pool; [by apply Hok2|done|apply lookup_insert_eq|]|].
      { intros Hin. destruct (inv_member k Q (ok_inv _ _ Hok) c Hin) as (y & Hy & ? & _). congruence. }
      intros _ k2 (Q2 & Hok' & Hk' & Hl' & HQ'). exists Q2.
      split_and!; [done|done|by rewrite Hl'|by rewrite <- (kp_cur _ _ Hk')| |].
      2: { intros (_ & y & Hy & Hs). apply bool_decide_eq_true in E'. congruence. }
      intros p Hp. eapply keep_is_Some; [exact Hk'|]. simpl.
      rewrite lookup_insert. destruct (decide (c = p)); [by eexists|exact Hp].
    + sstep. exists Q. split_and!; [by apply Hok1|done..| |].
      2: { intros (_ & y & Hy & Hs). split; [done|]. exists (set_p_tf tf x). simpl. rewrite lookup_insert_eq.
           split; [done|]. simpl. congruence. }
      intros p Hp. simpl. rewrite lookup_insert. destruct (decide (c = p)); [by eexists|exact Hp].
Qed.

Lemma sched_yield_pool k Q h c tf :
  sched_ok k Q → 0 ≤ h < 8 → lock_of k h = Some false →
  g_hart_current k !! Z.to_nat h = Some c →
  (c ≠ 0 → ∃ x, g_procs k !! c = Some x ∧ p_on_rq x = false) →
  wp (sched_yield h tf) (yielded h c (runnable k c Q) (exited k c)) k.
Proof.
  intros Hok Hh Hl Hc Hc0. unfold sched_yield, current_for_hart, MAX_HARTS.
  rewrite (proj2 (Z.ltb_lt h 8)) by lia. apply wp_bind.
  eapply wp_Ok; [unfold at_; by rewrite (idx_ok _ _ _ Hc) by lia|].
  apply wp_bind. eapply wp_mono; [by apply rq_lock_pool|].
  intros free k1 (Hok1 & [Hk1 Hp1] & Hl1 & _ & Hf). rewrite Hl in Hf. destruct free; [|done]. cbn [negb].
  assert (c ≠ 0 → ∃ x, g_procs k1 !! c = Some x ∧ p_on_rq x = false) as Hc1.
  { by rewrite Hp1. }
  assert (runnable k1 c Q = runnable k c Q) as HQ1 by (unfold runnable; by rewrite Hp1).
  apply wp_bind. eapply wp_mono; [by apply (save_current_pool k1 Q)|].
  intros _ k2 (Q2 & Hok2 & HQ2 & Hl2 & Hcur2 & Hdom2 & Hex2). rewrite HQ1 in HQ2.
  assert (exited k c → exited k2 c) as Hex by (intros He; apply Hex2; unfold exited in *; by rewrite Hp1).
  assert (c ≠ 0 → is_Some (g_procs k2 !! c)) as Hcd
    by (intros H; destruct (Hc1 H) as (x & Hx & _); apply Hdom2; eauto).
  apply wp_bind. eapply wp_mono; [by apply pick_next_pool|].
  intros p k3 (Q3 & Hok3 & Hk3 & Hl3 & HQ3). unfold taken in HQ3.
  destruct (decide (p = 0)) as [->|Hp]; cycle 1.
  { replace (p =? 0) with false by (symmetry; by apply Z.eqb_neq). cbn [negb].
    destruct (pool_lookup k2 Q2 k3 p Hok2 Hk3) as (x & Hx & _); [rewrite <- HQ3; by left|].
    eapply run_next_pool; try done. by rewrite HQ3. }
  cbn [negb Z.eqb]. apply wp_bind. eapply wp_mono; [by apply rq_unlock_pool|].
  intros _ k4 (Hok4 & Hk4 & Hl4 & _). apply wp_bind.
  eapply wp_mono; [apply steal_loop_pool; [done|done|lia]|].
  intros s k5 (Q5 & Hok5 & Hk5 & Hl5 & HQ5). unfold taken in HQ5.
  assert (keep k2 k5) as Hk25 by eauto using keep_trans.
  destruct (decide (s = 0)) as [->|Hs]; cycle 1.
  { replace (s =? 0) with false by (symmetry; by apply Z.eqb_neq). cbn [negb].
    destruct (pool_lookup k4 Q3 k5 s Hok4 Hk5) as (x & Hx & _); [rewrite <- HQ5; by left|].
    eapply run_stolen_pool; try done; [by rewrite Hl5|]. by rewrite HQ5, HQ3. }
  cbn [negb Z.eqb]. apply wp_bind. eapply wp_mono; [by apply rq_lock_pool|].
  intros free k6 (Hok6 & [Hk6 _] & Hl6 & _ & Hf'). rewrite Hl5, Hl4 in Hf'.
  destruct free; [|done]. cbn [negb].
  apply wp_bind. eapply wp_mono; [by apply dequeue_pool|].
  intros p k7 (Q7 & Hok7 & Hk7 & Hl7 & HQ7).
  destruct (decide (p = 0)) as [->|Hp]; cbn [Z.eqb].
  - subst Q7. assert (keep k2 k7) as Hk27 by eauto using keep_trans.
    eapply run_nothing_pool; try done.
    + by rewrite <- (kp_cur _ _ Hk27), Hcur2, <- (kp_cur _ _ Hk1).
    + intros H. eapply keep_is_Some; eauto.
    + intros He. destruct (Hex He) as (Hne & x & Hx & Hs). split; [done|].
      destruct (keep_lookup _ _ _ _ Hk27 Hx) as (y & Hy & Hst). exists y. split; [done|].
      by rewrite (strip_state _ _ Hst).
    + by rewrite HQ5, HQ3.
  - replace (p =? 0) with false by (symmetry; by apply Z.eqb_neq).
    destruct (pool_lookup k6 Q5 k7 p Hok6 Hk7) as (x & Hx & _); [rewrite <- HQ7; by left|].
    eapply run_next_pool; try done. by rewrite HQ7, HQ5, HQ3.
Qed.

(** ** The round-robin path, exactly *)

Lemma save_current_running k Q h c x q tf :
  sched_ok k Q → 0 ≤ h < 8 → c ≠ 0 → g_procs k !! c = Some x →
  p_state x = Running → p_on_rq x = false → Q !! Z.to_nat h = Some q →
  let k1 := set_g_procs (<[c := set_p_state Ready (set_p_tf tf x)]> (g_procs k)) k in
  wp (save_current h c tf)
     (λ _ k', sched_ok k' (<[Z.to_nat h := q ++ [c]]> Q) ∧ keep k1 k') k.
Proof.
  intros Hok Hh Hc0 Hx Hrun Hon Hq k1. unfold save_current.
  replace (c =? 0) with false by (symmetry; by apply Z.eqb_neq).
  sstep. step_with deref_ok; [apply lookup_insert_eq|]. simpl.
  rewrite bool_decide_eq_true_2 by done.
  step_with update_ok; [apply lookup_insert_eq|]. simpl. rewrite insert_insert_eq.
  assert (sched_ok k1 Q) as Hok1 by (by eapply (ok_update k Q c x)).
  destruct (ok_queue k1 Q h Hok1 Hh) as (r & q' & Hr & Hq'). rewrite Hq in Hq'. injection Hq' as <-.
  eapply wp_mono.
  - eapply (enqueue_spec k1 Q (ok_inv _ _ Hok1) h q (proj1 Hh) Hq r Hr c).
    subst k1. simpl. apply lookup_insert_eq.
  - simpl. rewrite Hon. intros _ k' [Hinv Hfr]. destruct (frame_keep _ _ Hfr) as [Hk _].
    split; [by eapply ok_keep|done].
Qed.

Lemma pick_next_head k Q h n q y :
  sched_ok k Q → 0 ≤ h < 8 → Q !! Z.to_nat h = Some (n :: q) → g_procs k !! n = Some y →
  (p_affinity y < 0 ∨ p_affinity y = h) →
  wp (pick_next h) (λ p k', p = n ∧ sched_ok k' (<[Z.to_nat h := q]> Q) ∧ keep k k') k.
Proof.
  intros Hok Hh Hq Hy Haff. destruct (ok_queue k Q h Hok Hh) as (r & q' & Hr & _).
  unfold pick_next. apply wp_bind.
  eapply wp_mono; [apply (dequeue_spec k Q (ok_inv _ _ Hok) h _ (proj1 Hh) Hq r Hr)|].
  simpl. intros p k1 (-> & Hinv1 & Hfr). destruct (frame_keep _ _ Hfr) as [Hk1 _].
  assert (sched_ok k1 (<[Z.to_nat h := q]> Q)) as Hok1 by (by eapply ok_keep).
  assert (n ≠ 0) as Hn0.
  { intros ->. rewrite (inv_null _ _ (ok_inv _ _ Hok)) in Hy. done. }
  replace (n =? 0) with false by (symmetry; by apply Z.eqb_neq).
  destruct (keep_lookup _ _ _ _ Hk1 Hy) as (z & Hz & Hs). sstep.
  rewrite (strip_affinity _ _ Hs).
  replace ((0 <=? p_affinity y) && negb (p_affinity y =? h)) with false; [by sstep|].
  symmetry. apply andb_false_iff.
  destruct Haff; [left; apply Z.leb_gt; lia|right; apply negb_false_iff, Z.eqb_eq; done].
Qed.

(** Every process keeps its saved frame; only [n] changes state. *)
Definition switched (n : Z) (k k' : Kernel) : Prop :=
  ∀ i z, g_procs k !! i = Some z →
    ∃ z', g_procs k' !! i = Some z' ∧ p_tf z' = p_tf z ∧
          p_state z' = if decide (n = i) then Running else p_state z.

Lemma strip_tf x y : strip y = strip x → p_tf y = p_tf x.
Proof. destruct x, y. by intros [=]. Qed.

Lemma run_next_exact k Q h n y :
  sched_ok k Q → 0 ≤ h < 8 → g_procs k !! n = Some y →
  wp (run_next h n)
     (λ o k', o = SwitchTo n ∧ rq_inv k' Q ∧ g_hart_current k' !! Z.to_nat h = Some n ∧
              switched n k k') k.
Proof.
  intros Hok Hh Hy. unfold run_next. sstep. apply wp_bind.
  eapply wp_mono; [eapply set_current_pool; [by eapply (ok_update _ _ n y)|done]|].
  intros _ k1 (Hok1 & Hp1 & Hq1 & Hc1 & _). apply wp_bind.
  eapply wp_mono; [by apply rq_unlock_pool|]. intros _ k2 (Hok2 & Hk2 & _).
  apply wp_bind. eapply wp_mono; [by apply resched_pool|]. intros _ k3 (Hok3 & Hk3).
  assert (∀ i z, g_procs k !! i = Some z → ∃ z', g_procs k3 !! i = Some z' ∧
     strip z' = strip (if decide (n = i) then set_p_state Running z else z)) as Hz.
  { intros i z Hi. subst k3. simpl. apply (keep_lookup k1 k2 i _ Hk2). rewrite Hp1.
    simpl. rewrite lookup_insert. destruct (decide (n = i)) as [<-|]; congruence. }
  destruct (Hz n y Hy) as (w & Hw & Hws). sstep. sstep. sstep.
  split; [done|]. split; [|split].
  - eapply (ok_update _ _ n w) in Hok3; [apply (ok_inv _ _ Hok3)|done..].
  - subst k3. simpl. rewrite <- (kp_cur _ _ Hk2), Hc1. by eapply (cur_insert k).
  - intros i z Hi. destruct (Hz i z Hi) as (z' & Hz' & Hs). simpl.
    rewrite lookup_insert. destruct (decide (n = i)) as [<-|].
    + eexists. split; [done|]. rewrite Hz' in Hw. injection Hw as <-.
      simpl. by rewrite (strip_tf _ _ Hs), (strip_state _ _ Hs).
    + exists z'. by rewrite (strip_tf _ _ Hs), (strip_state _ _ Hs).
Qed.

(** A yield of a running process on a hart whose next process may run there. *)
Lemma sched_yield_next k Q h c x q n y tf :
  sched_ok k Q → 0 ≤ h < 8 → lock_of k h = Some false →
  g_hart_current k !! Z.to_nat h = Some c → c ≠ 0 →
  g_procs k !! c = Some x → p_state x = Running → p_on_rq x = false →
  Q !! Z.to_nat h = Some q → n = hd0 (q ++ [c]) → g_procs k !! n = Some y →
  (p_affinity y < 0 ∨ p_affinity y = h) →
  wp (sched_yield h tf)
     (λ o k', o = SwitchTo n ∧ rq_inv k' (<[Z.to_nat h := tail (q ++ [c])]> Q) ∧
        g_hart_current k' !! Z.to_nat h = Some n ∧
        (∃ x', g_procs k' !! c = Some x' ∧ p_tf x' = tf ∧
               p_state x' = if decide (n = c) then Running else Ready)) k.
Proof.
  intros Hok Hh Hl Hc Hc0 Hx Hrun Hon Hq Hn Hy Haff.
  unfold sched_yield, current_for_hart, MAX_HARTS.
  rewrite (proj2 (Z.ltb_lt h 8)) by lia. apply wp_bind.
  eapply wp_Ok; [unfold at_; by rewrite (idx_ok _ _ _ Hc) by lia|].
  apply wp_bind. eapply wp_mono; [by apply rq_lock_pool|].
  intros free k1 (Hok1 & [Hk1 Hp1] & Hl1 & _ & Hf). rewrite Hl in Hf. destruct free; [|done]. cbn [negb].
  rewrite <- Hp1 in Hx, Hy.
  apply wp_bind. eapply wp_mono; [by eapply save_current_running|].
  intros _ k2 (Hok2 & Hk2).
  assert (∃ q', q ++ [c] = n :: q') as [q' Hq'] by (subst n; destruct q; eauto).
  assert (∃ y2, g_procs k2 !! n = Some y2 ∧ (p_affinity y2 < 0 ∨ p_affinity y2 = h)) as (y2 & Hy2 & Ha2).
  { edestruct (keep_lookup _ k2 n (if decide (c = n) then set_p_state Ready (set_p_tf tf x) else y) Hk2)
      as (y2 & ? & Hs); [simpl; rewrite lookup_insert; by destruct (decide (c = n))|].
    exists y2. split; [done|]. rewrite (strip_affinity _ _ Hs).
    destruct (decide (c = n)) as [->|]; [simpl; congruence|done]. }
  assert (Z.to_nat h < length Q)%nat as Hlt by (by eapply lookup_lt_Some).
  apply wp_bind. eapply wp_mono.
  { eapply (pick_next_head k2 _ h n q' y2); try done. by rewrite list_lookup_insert_eq, Hq'. }
  intros p k3 (-> & Hok3 & Hk3). rewrite list_insert_insert_eq in Hok3.
  assert (n ≠ 0) as Hn0.
  { intros ->. rewrite (inv_null _ _ (ok_inv _ _ Hok2)) in Hy2. done. }
  replace (n =? 0) with false by (symmetry; by apply Z.eqb_neq). cbn [negb].
  destruct (keep_lookup _ _ _ _ Hk3 Hy2) as (y3 & Hy3 & _).
  eapply wp_mono; [by eapply run_next_exact|].
  intros o k4 (-> & Hinv4 & Hc4 & Hsw). rewrite Hq'. simpl. split_and!; [done..|].
  destruct (keep_lookup _ k2 c (set_p_state Ready (set_p_tf tf x)) Hk2) as (x2 & Hx2 & Hs2);
    [simpl; apply lookup_insert_eq|].
  destruct (keep_lookup _ _ _ _ Hk3 Hx2) as (x3 & Hx3 & Hs3).
  destruct (Hsw c x3 Hx3) as (x4 & Hx4 & Ht4 & Hst4). exists x4. split; [done|].
  rewrite Ht4, (strip_tf _ _ Hs3), (strip_tf _ _ Hs2), Hst4, (strip_state _ _ Hs3), (strip_state _ _ Hs2).
  done.
Qed.

(** ** A running process is not left behind *)

(** The process may run on the hart. *)
Definition allowed (h : Z) (x : Proc) : Prop := p_affinity x < 0 ∨ p_affinity x = h.

Lemma allowed_test h x : allowed h x → (0 <=? p_affinity x) && negb (p_affinity x =? h) = false.
Proof.
  intros H. apply andb_false_iff.
  destruct H; [left; apply Z.leb_gt; lia|right; apply negb_false_iff, Z.eqb_eq; done].
Qed.

Lemma hd0_member k Q q h : rq_inv k Q → Q !! h = Some q → q ≠ [] → hd0 q ≠ 0.
Proof.
  intros Hinv Hq Hne. destruct q as [|p q]; [done|]. simpl. intros ->.
  destruct (inv_member k Q Hinv 0) as (x & Hx & _); [|by rewrite (inv_null _ _ Hinv) in Hx].
  apply list_elem_of_In, in_concat. exists (0 :: q). split; [|by left]. by eapply list_elem_of_In, list_elem_of_lookup_2.
Qed.

(** With [c], which may run here, at the end of the queue something is found. *)
Lemma pick_next_some k Q h q c x :
  sched_ok k Q → 0 ≤ h < 8 → Q !! Z.to_nat h = Some (q ++ [c]) → g_procs k !! c = Some x → allowed h x →
  wp (pick_next h) (λ p k', p ≠ 0 ∧ is_Some (g_procs k' !! p) ∧ ∃ Q', sched_ok k' Q') k.
Proof.
  intros Hok Hh Hq Hx Ha. destruct (ok_queue k Q h Hok Hh) as (r & q' & Hr & _).
  pose proof (ok_inv _ _ Hok) as Hinv.
  assert (hd0 (q ++ [c]) ≠ 0) as Hn0 by (eapply hd0_member; [done..|by destruct q]).
  set (n := hd0 (q ++ [c])) in *.
  assert (n ∈ concat Q) as Hn.
  { apply list_elem_of_In, in_concat. exists (q ++ [c]). split; [by eapply list_elem_of_In, list_elem_of_lookup_2|].
    subst n. destruct q; by left. }
  destruct (inv_member k Q Hinv n Hn) as (y & Hy & _).
  destruct (decide (allowed h y)) as [Hay|Hay].
  { destruct (q ++ [c]) as [|n' l] eqn:E; [by destruct q|]. subst n. simpl in *.
    eapply wp_mono; [by eapply (pick_next_head k Q h n' l y)|]. intros p k' (-> & Hok' & Hk').
    split; [done|]. split; [by eapply keep_is_Some|by eexists]. }
  destruct q as [|n' q]; simpl in *; [subst n; simplify_eq; done|]. subst n.
  unfold pick_next. apply wp_bind.
  eapply wp_mono; [apply (dequeue_spec k Q Hinv h _ (proj1 Hh) Hq r Hr)|].
  simpl. intros p k1 (-> & Hinv1 & Hfr). destruct (frame_keep _ _ Hfr) as [Hk1 _].
  assert (sched_ok k1 (<[Z.to_nat h := q ++ [c]]> Q)) as Hok1 by (by eapply ok_keep).
  rewrite (proj2 (Z.eqb_neq n' 0)) by done. destruct (keep_lookup _ _ _ _ Hk1 Hy) as (z & Hz & Hs). sstep.
  rewrite (strip_affinity _ _ Hs).
  pose proof (ok_aff _ _ Hok _ _ Hy). unfold allowed in Hay.
  replace ((0 <=? p_affinity y) && negb (p_affinity y =? h)) with true by lia.
  assert (Z.to_nat h < length Q)%nat as Hlt by (by eapply lookup_lt_Some).
  destruct (ok_queue k1 _ (p_affinity y) Hok1 ltac:(lia)) as (r1 & q1 & Hr1 & Hq1).
  apply wp_bind. eapply wp_mono; [apply (enqueue_spec k1 _ Hinv1 (p_affinity y) q1 ltac:(lia) Hq1 r1 Hr1 n' z Hz)|].
  intros _ k2 (Hinv2 & Hfr2). destruct (frame_keep _ _ Hfr2) as [Hk2 _].
  set (Q2 := if p_on_rq z then _ else _) in *.
  assert (Q2 !! Z.to_nat h = Some (q ++ [c])) as Hq2.
  { subst Q2. destruct (p_on_rq z); [|rewrite list_lookup_insert_ne by lia]; by rewrite list_lookup_insert_eq. }
  assert (sched_ok k2 Q2) as Hok2 by (by eapply ok_keep).
  destruct (ok_queue k2 Q2 h Hok2 Hh) as (r2 & q2 & Hr2 & _).
  eapply wp_mono; [apply (dequeue_spec k2 Q2 Hinv2 h _ (proj1 Hh) Hq2 r2 Hr2)|].
  intros p k3 (-> & Hinv3 & Hfr3). destruct (frame_keep _ _ Hfr3) as [Hk3 _].
  split; [eapply (hd0_member k2 Q2); [done..|by destruct q]|]. split; [|eexists; by eapply ok_keep].
  eapply keep_is_Some; [exact Hk3|].
  destruct (inv_member k2 Q2 Hinv2 (hd0 (q ++ [c]))) as (w & Hw & _); [|by exists w].
  apply list_elem_of_In, in_concat. exists (q ++ [c]). split; [by eapply list_elem_of_In, list_elem_of_lookup_2|].
  destruct q; by left.
Qed.

Lemma sched_yield_runs k Q h c x tf :
  sched_ok k Q → 0 ≤ h < 8 → lock_of k h = Some false → g_hart_current k !! Z.to_nat h = Some c → c ≠ 0 →
  g_procs k !! c = Some x → p_on_rq x = false → p_state x = Running → allowed h x →
  wp (sched_yield h tf) (λ o _, ∃ p, o = SwitchTo p) k.
Proof.
  intros Hok Hh Hl Hc Hc0 Hx Hon Hrun Ha. destruct (ok_queue k Q h Hok Hh) as (r & q & Hr & Hq).
  unfold sched_yield, current_for_hart, MAX_HARTS.
  rewrite (proj2 (Z.ltb_lt h 8)) by lia. apply wp_bind.
  eapply wp_Ok; [unfold at_; by rewrite (idx_ok _ _ _ Hc) by lia|].
  apply wp_bind. eapply wp_mono; [by apply rq_lock_pool|].
  intros free k1 (Hok1 & [Hk1 Hp1] & Hl1 & _ & Hf). rewrite Hl in Hf. destruct free; [|done]. cbn [negb].
  rewrite <- Hp1 in Hx. apply wp_bind. eapply wp_mono; [by eapply save_current_running|].
  intros _ k2 (Hok2 & Hk2). destruct (keep_lookup _ k2 c (set_p_state Ready (set_p_tf tf x)) Hk2) as (x2 & Hx2 & Hs2);
    [simpl; apply lookup_insert_eq|].
  apply wp_bind. eapply wp_mono.
  { eapply (pick_next_some k2 _ h q c x2); [done..| |done|].
    - rewrite list_lookup_insert_eq; [done|by eapply lookup_lt_Some].
    - unfold allowed. by rewrite (strip_affinity _ _ Hs2). }
  intros p k3 (Hp & [y Hy] & Q3 & Hok3). rewrite (proj2 (Z.eqb_neq p 0)) by done. cbn [negb].
  eapply wp_mono; [by eapply run_next_exact|]. intros o k4 (-> & _). by exists p.
Qed.

(** The queues hold exactly the processes that are marked. *)
Lemma queued_iff k Q p : rq_inv k Q → p ∈ concat Q ↔ ∃ x, g_procs k !! p = Some x ∧ p_on_rq x = true.
Proof.
  intros H. split; [|intros (x & Hx & Ho); by eapply inv_on_rq].
  intros Hp. destruct (inv_member k Q H p Hp) as (x & ? & ? & _). by exists x.
Qed.

Lemma runnable_nodup k Q c :
  rq_inv k Q → (c ≠ 0 → ∃ x, g_procs k !! c = Some x ∧ p_on_rq x = false) → NoDup (runnable k c Q).
Proof.
  intros H Hc. pose proof (inv_nodup _ _ H) as Hnd. unfold runnable.
  destruct (g_procs k !! c) as [x|] eqn:Hx; [|done]. case_bool_decide; [|done]. apply NoDup_cons. split; [|done].
  intros (y & Hy & Ho)%(queued_iff k Q c H). destruct (Hc) as (z & Hz & Hoz); [intros ->; by rewrite (inv_null _ _ H) in Hx|].
  congruence.
Qed.

Lemma sched_yield_once k Q h c tf :
  sched_ok k Q → 0 ≤ h < 8 → lock_of k h = Some false →
  g_hart_current k !! Z.to_nat h = Some c →
  (c ≠ 0 → ∃ x, g_procs k !! c = Some x ∧ p_on_rq x = false ∧ (p_state x = Running → allowed h x)) →
  wp (sched_yield h tf)
     (λ o k', yielded h c (runnable k c Q) (exited k c) o k' ∧
        (∀ Q' p, rq_inv k' Q' → g_hart_current k' !! Z.to_nat h = Some p → p ∉ concat Q') ∧
        (p_state <$> g_procs k !! c = Some Running → ∃ p, o = SwitchTo p)) k.
Proof.
  intros Hok Hh Hl Hc Hc0. pose proof (ok_inv _ _ Hok) as Hinv.
  assert (c ≠ 0 → ∃ x, g_procs k !! c = Some x ∧ p_on_rq x = false) as Hc1 by (intros H; destruct (Hc0 H) as (x & ? & ? & _); eauto).
  destruct (wp_elim _ _ _ (sched_yield_pool k Q h c tf Hok Hh Hl Hc Hc1)) as (o & k' & E & Hy).
  assert (p_state <$> g_procs k !! c = Some Running → ∃ p, o = SwitchTo p) as Hrun.
  { intros Hs. destruct (decide (c = 0)) as [->|Hne]; [by rewrite (inv_null _ _ Hinv) in Hs|].
    destruct (Hc0 Hne) as (x & Hx & Hon & Ha). rewrite Hx in Hs. injection Hs as Hs.
    destruct (wp_elim _ _ _ (sched_yield_runs k Q h c x tf Hok Hh Hl Hc Hne Hx Hon Hs (Ha Hs))) as (o' & k2 & E' & Ho). rewrite E in E'. injection E' as -> ->. exact Ho. }
  eapply wp_Ok; [exact E|]. split; [exact Hy|]. split; [|exact Hrun].
  destruct Hy as (Q1 & Hok1 & _ & _ & Ho). pose proof (ok_inv _ _ Hok1) as Hinv1.
  intros Q' p HQ' Hp Hin. apply (queued_iff _ _ _ HQ'), (queued_iff _ _ _ Hinv1) in Hin.
  pose proof (runnable_nodup k Q c Hinv Hc1) as Hnd.
  assert (p = 0 → False) as H0.
  { intros ->. apply (queued_iff _ _ _ Hinv1) in Hin as (x & Hx & _). by rewrite (inv_null _ _ Hinv1) in Hx. }
  destruct o as [|n| | |].
  - destruct Ho as (HQ & Hc' & _). rewrite Hc' in Hp. injection Hp as ->. rewrite HQ in Hin.
    unfold runnable in Hin. destruct (g_procs k !! p) as [x|] eqn:Hx.
    2: { apply (queued_iff _ _ _ Hinv) in Hin as (y & Hy & _). congruence. }
    case_bool_decide as Hs; [destruct Hrun as [? [=]]; by rewrite <- Hs|].
    apply (queued_iff _ _ _ Hinv) in Hin as (y & Hy & Ho). destruct (Hc1 H0) as (z & Hz & Hoz). congruence.
  - destruct Ho as (HQ & Hc' & _). rewrite Hc' in Hp. injection Hp as ->. rewrite <- HQ in Hnd. by apply NoDup_cons in Hnd as [? _].
  - destruct Ho as (_ & Hc'). rewrite Hc' in Hp. injection Hp as <-. by apply H0.
  - destruct Ho as (_ & Hc'). rewrite Hc' in Hp. injection Hp as <-. by apply H0.
  - done.
Qed.

Module SchedTheorems.

(** A two-process kernel: 100 runs on hart 0, 200 waits in its queue. *)
Definition idle_rq : RunQueue := mkRunQueue false 0 0 0.
Definition runner (aff : Z) : Proc := set_p_affinity aff (set_p_state Running (set_p_pid 1 Proc_new)).
Definition waiter : Proc := set_p_on_rq true (set_p_state Ready (set_p_pid 2 Proc_new)).
Definition machine (ps : gmap Z Proc) (rq0 : RunQueue) : Kernel :=
  mkKernel ps 100 (100 :: replicate 7 0) 100 (replicate 8 TrapFrame_zero) (replicate 8 true) 3
    (rq0 :: replicate 7 idle_rq).
Definition demo : Kernel :=
  machine (<[100 := runner (-1)]> (<[200 := waiter]> ∅)) (mkRunQueue false 200 200 1).
Definition demo_queues : list (list Z) := [200] :: replicate 7 [].

Lemma demo_inv : rq_inv demo demo_queues.
Proof.
  constructor; [done| |..].
  - simpl. repeat constructor; try done. exists waiter. done.
  - simpl. apply NoDup_singleton.
  - intros p x Hx Hon. simpl in *.
    apply lookup_insert_Some in Hx as [[<- <-]|[_ Hx]]; [done|].
    apply lookup_insert_Some in Hx as [[<- <-]|[_ Hx]]; [by left|done].
  - done.
Qed.

Lemma demo_ok : sched_ok demo demo_queues.
Proof.
  constructor; [apply demo_inv| |done..]. intros p x Hx. simpl in Hx.
  apply lookup_insert_Some in Hx as [[<- <-]|[_ Hx]]; [done|].
  by apply lookup_insert_Some in Hx as [[<- <-]|[_ Hx]].
Qed.

(** C15. The linked run queues implement FIFO queues: on a well-formed state,
    [enqueue] appends a process that is not queued yet (and ignores one that is),
    [dequeue] returns and removes the head (null on an empty queue), and [remove]
    deletes exactly the given process and reports whether it was there; each of
    them terminates without touching another queue, a lock or any process field
    but the links. *)
Theorem runqueue_refines_fifo k Q h q p x :
  rq_inv k Q → 0 ≤ h → Q !! Z.to_nat h = Some q → g_procs k !! p = Some x →
  wp (enqueue h p)
     (λ _ k', rq_inv k' (if p_on_rq x then Q else <[Z.to_nat h := q ++ [p]]> Q) ∧ frame k k') k ∧
  wp (dequeue h)
     (λ r k', r = hd0 q ∧ rq_inv k' (<[Z.to_nat h := tail q]> Q) ∧ frame k k') k ∧
  wp (Sched.remove h p)
     (λ b k', b = bool_decide (p ∈ q) ∧
              rq_inv k' (<[Z.to_nat h := filter (λ i, i ≠ p) q]> Q) ∧ frame k k') k.
Proof.
  intros Hinv Hh Hq Hx. destruct (Forall2_lookup_r _ _ _ _ _ (inv_rep _ _ Hinv) Hq) as (r & Hr & _).
  split; [by eapply enqueue_spec|]. split; [by eapply dequeue_spec|by eapply remove_spec].
Qed.

Lemma runqueue_refines_fifo_witness :
  rq_inv demo demo_queues ∧
  wp (dequeue 0) (λ r k', r = 200 ∧ rq_inv k' (<[0%nat := []]> demo_queues) ∧ frame demo k') demo.
Proof.
  split; [apply demo_inv|].
  exact (proj1 (proj2 (runqueue_refines_fifo demo demo_queues 0 [200] 100 (runner (-1))
    demo_inv ltac:(lia) eq_refl eq_refl))).
Defined.

(** C5. A yield neither loses nor duplicates a runnable process and never spins on
    a lock of its own.  It switches to a process taken out of the pool of runnable
    ones (the queued ones and the running current one), which is then [Running],
    current on the hart and resumed from its saved frame; or it leaves the whole pool
    queued, which does not happen where the current process was running.  The process
    that is current on the hart afterwards is in no queue; it is not one that had
    exited; the hart's lock is free again, its reschedule flag is clear and the queues
    stay well formed; also after stealing from other harts and handing pinned
    processes over.  The condition: a running current process may run on this hart
    ([pinned_runs_twice] has one that may not, and is duplicated). *)
Theorem sched_yield_conserves k Q h c tf :
  sched_ok k Q → 0 ≤ h < 8 → lock_of k h = Some false →
  g_hart_current k !! Z.to_nat h = Some c →
  (c ≠ 0 → ∃ x, g_procs k !! c = Some x ∧ p_on_rq x = false ∧ (p_state x = Running → allowed h x)) →
  wp (sched_yield h tf)
     (λ o k', yielded h c (runnable k c Q) (exited k c) o k' ∧
        (∀ Q' p, rq_inv k' Q' → g_hart_current k' !! Z.to_nat h = Some p → p ∉ concat Q') ∧
        (p_state <$> g_procs k !! c = Some Running → ∃ p, o = SwitchTo p)) k.
Proof. apply sched_yield_once. Qed.

Lemma sched_yield_conserves_witness :
  wp (sched_yield 0 TrapFrame_zero)
     (λ o k', yielded 0 100 [100; 200] (exited demo 100) o k' ∧
        (∀ Q' p, rq_inv k' Q' → g_hart_current k' !! 0%nat = Some p → p ∉ concat Q') ∧
        (Some Running = Some Running → ∃ p, o = SwitchTo p)) demo.
Proof.
  exact (sched_yield_conserves demo demo_queues 0 100 TrapFrame_zero demo_ok ltac:(lia) eq_refl
    eq_refl (λ _, ex_intro _ (runner (-1)) (conj eq_refl (conj eq_refl (λ _, or_introl eq_refl))))).
Defined.

(** C36. Round robin: when the current process is running and the next one may
    run on this hart, the yield puts the current process, with the interrupted
    frame saved, at the tail of the hart's queue and switches to the head;
    no other queue changes. *)
Theorem sched_yield_round_robin k Q h c x q n y tf :
  sched_ok k Q → 0 ≤ h < 8 → lock_of k h = Some false →
  g_hart_current k !! Z.to_nat h = Some c → c ≠ 0 →
  g_procs k !! c = Some x → p_state x = Running → p_on_rq x = false →
  Q !! Z.to_nat h = Some q → n = hd0 (q ++ [c]) → g_procs k !! n = Some y →
  (p_affinity y < 0 ∨ p_affinity y = h) →
  wp (sched_yield h tf)
     (λ o k', o = SwitchTo n ∧ rq_inv k' (<[Z.to_nat h := tail (q ++ [c])]> Q) ∧
        g_hart_current k' !! Z.to_nat h = Some n ∧
        (∃ x', g_procs k' !! c = Some x' ∧ p_tf x' = tf ∧
               p_state x' = if decide (n = c) then Running else Ready)) k.
Proof. apply sched_yield_next. Qed.

Lemma sched_yield_round_robin_witness :
  wp (sched_yield 0 (set_tf_a0 7 TrapFrame_zero))
     (λ o k', o = SwitchTo 200 ∧ rq_inv k' (<[0%nat := [100]]> demo_queues) ∧
        g_hart_current k' !! 0%nat = Some 200 ∧
        (∃ x', g_procs k' !! 100 = Some x' ∧ p_tf x' = set_tf_a0 7 TrapFrame_zero ∧
               p_state x' = Ready)) demo.
Proof.
  exact (sched_yield_round_robin demo demo_queues 0 100 (runner (-1)) [200] 200 waiter
    (set_tf_a0 7 TrapFrame_zero) demo_ok ltac:(lia) eq_refl eq_refl ltac:(lia) eq_refl eq_refl
    eq_refl eq_refl eq_refl eq_refl (or_introl eq_refl)).
Defined.

(** A process that is pinned to another hart while it runs is, at its next
    yield with nothing else to run, put into the queue of that hart and yet kept
    current and [Running] on this one: both harts then run it. *)
Theorem pinned_runs_twice :
  match sched_yield 0 TrapFrame_zero (machine {[100 := runner 3]} idle_rq) with
  | (Ok o, k') =>
      o = Returned ∧ g_hart_current k' !! 0%nat = Some 100 ∧
      p_state <$> g_procs k' !! 100 = Some Running ∧
      rq_head <$> g_rq k' !! 3%nat = Some 100
  | _ => False
  end.
Proof. vm_compute. split_and!; reflexivity. Qed.

End SchedTheorems.
