(* ===== verification/Ipc.v ===== *)
(** * kernel/src/ipc/channel, kernel/src/fs/ipcfs: message channels

    A channel is a 4096-byte ring with free-running 32-bit head and tail
    counters, an owner, up to four clients, an optional name and two lists of
    blocked processes threaded through [Proc.wait_next].  User buffers are the
    lists of bytes they hold.  A blocking call ends in [sched_yield], which may
    switch away and then never comes back to the call: that is [Away]. *)

From S2P Require Import Prelude Formats Vnode Process Sched.
From stdpp Require Import base list numbers gmap.
From Stdlib Require Import ZArith Lia.

Open Scope Z_scope.

(** ** types.rs *)

Definition CHAN_MAX : Z := 32.
Definition CHAN_BUF_SIZE : Z := 4096.
Definition CHAN_NAME_MAX : Z := 32.
Definition CHAN_MAX_CLIENTS : Z := 4.

Record Channel := mkChannel {
  ch_buf : list Z; ch_head : Z; ch_tail : Z; ch_owner_pid : Z; ch_clients : list Z;
  ch_num_clients : Z; ch_name : list Z; ch_name_len : Z; ch_used : bool; ch_closed : bool;
  ch_send_wait : Z; ch_recv_wait : Z }.

Definition set_ring (buf : list Z) (head tail : Z) (c : Channel) : Channel :=
  mkChannel buf head tail (ch_owner_pid c) (ch_clients c) (ch_num_clients c) (ch_name c)
    (ch_name_len c) (ch_used c) (ch_closed c) (ch_send_wait c) (ch_recv_wait c).
Definition set_clients (cl : list Z) (n : Z) (c : Channel) : Channel :=
  mkChannel (ch_buf c) (ch_head c) (ch_tail c) (ch_owner_pid c) cl n (ch_name c)
    (ch_name_len c) (ch_used c) (ch_closed c) (ch_send_wait c) (ch_recv_wait c).
Definition set_name (name : list Z) (n : Z) (c : Channel) : Channel :=
  mkChannel (ch_buf c) (ch_head c) (ch_tail c) (ch_owner_pid c) (ch_clients c)
    (ch_num_clients c) name n (ch_used c) (ch_closed c) (ch_send_wait c) (ch_recv_wait c).
Definition set_flags (used closed : bool) (c : Channel) : Channel :=
  mkChannel (ch_buf c) (ch_head c) (ch_tail c) (ch_owner_pid c) (ch_clients c)
    (ch_num_clients c) (ch_name c) (ch_name_len c) used closed (ch_send_wait c)
    (ch_recv_wait c).
Definition set_send_wait (p : Z) (c : Channel) : Channel :=
  mkChannel (ch_buf c) (ch_head c) (ch_tail c) (ch_owner_pid c) (ch_clients c)
    (ch_num_clients c) (ch_name c) (ch_name_len c) (ch_used c) (ch_closed c) p
    (ch_recv_wait c).
Definition set_recv_wait (p : Z) (c : Channel) : Channel :=
  mkChannel (ch_buf c) (ch_head c) (ch_tail c) (ch_owner_pid c) (ch_clients c)
    (ch_num_clients c) (ch_name c) (ch_name_len c) (ch_used c) (ch_closed c)
    (ch_send_wait c) p.

Definition Channel_fresh (owner_pid : Z) (used : bool) : Channel :=
  mkChannel (replicate 4096 0) 0 0 owner_pid (replicate 4 0) 0 (replicate 32 0) 0 used false 0 0.

(** [G_CHANNELS] at boot. *)
Definition G_CHANNELS_init : list Channel := replicate 32 (Channel_fresh 0 false).

(** The kernel together with the channel table. *)
Record Ipc := mkIpc { ipc_k : Kernel; ipc_chans : list Channel }.

Abbreviation IM := (SM Ipc).

Definition onk {A} (m : KM A) : IM A := λ s,
  let '(r, k) := m (ipc_k s) in (r, mkIpc k (ipc_chans s)).

(** [G_CHANNELS[i]] and [G_CHANNELS[i] = c]. *)
Definition chan_at (i : Z) : IM Channel := λ s, (idx (ipc_chans s) i, s).
Definition chan_set (i : Z) (c : Channel) : IM unit := λ s,
  match set_idx (ipc_chans s) i c with
  | Ok l => (Ok tt, mkIpc (ipc_k s) l)
  | Err e => (Err e, s)
  | Panic => (Panic, s)
  end.

(** ** channel.rs *)

(** The first index from [i] on whose channel satisfies [test]. *)
Fixpoint first_chan (test : Channel → result bool) (i : Z) (chs : list Channel)
    : result (option Z) :=
  match chs with
  | [] => mret None
  | c :: chs => b ← test c; if b : bool then mret (Some i) else first_chan test (i + 1) chs
  end.

Definition create (owner_pid : Z) : IM Z :=
  chs ← gets ipc_chans;
  slot ← lift (first_chan (λ c, Ok (negb (ch_used c))) 0 chs);
  match slot with
  | Some i => chan_set i (Channel_fresh owner_pid true);; mret i
  | None => fail NoMem
  end.

(** [&ch.name[..ch.name_len]] *)
Definition chan_name (c : Channel) : result (list Z) := slice (ch_name c) 0 (ch_name_len c).

Definition has_name (name : list Z) (c : Channel) : result bool :=
  if ch_used c && (ch_name_len c =? len name)
  then n ← chan_name c; mret (bool_decide (n = name))
  else mret false.

Definition find_by_name (name : list Z) : IM (option Z) :=
  chs ← gets ipc_chans;
  lift (first_chan (has_name name) 0 chs).

Definition create_named (name : list Z) (owner_pid : Z) : IM Z :=
  if (len name =? 0) || (CHAN_NAME_MAX - 1 <? len name) then fail Inval else
  found ← find_by_name name;
  match found with
  | Some _ => fail Exist
  | None =>
      id ← create owner_pid;
      ch ← chan_at id;
      let nlen := Z.min (len name) (CHAN_NAME_MAX - 1) in
      src ← lift (slice name 0 nlen);
      nm ← lift (put (ch_name ch) 0 nlen src);
      chan_set id (set_name nm (w8 nlen) ch);;
      mret id
  end.

(** [for &c in ch.clients[..ch.num_clients].iter() { if c == pid .. }] *)
Definition is_client (c : Channel) (pid : Z) : result bool :=
  cl ← slice (ch_clients c) 0 (ch_num_clients c);
  mret (existsb (λ x, x =? pid) cl).

(** [ch.clients[ch.num_clients] = pid; ch.num_clients += 1] *)
Definition push_client (id : Z) (ch : Channel) (pid : Z) : IM unit :=
  cl ← lift (set_idx (ch_clients ch) (ch_num_clients ch) pid);
  chan_set id (set_clients cl (w32 (ch_num_clients ch + 1)) ch).

Definition open_by_name (name : list Z) (client_pid : Z) : IM Z :=
  found ← find_by_name name;
  match found with
  | None => fail NoEnt
  | Some id =>
      ch ← chan_at id;
      if CHAN_MAX_CLIENTS <=? ch_num_clients ch then fail NoMem else
      known ← lift (is_client ch client_pid);
      if known : bool then mret id else
      push_client id ch client_pid;;
      mret id
  end.

(** [for i in i0..num_clients] of [disconnect]. *)
Fixpoint disconnect_loop (n : nat) (i : Z) (ch : Channel) (pid : Z) : result Channel :=
  match n with
  | O => mret ch
  | S n =>
      c ← idx (ch_clients ch) i;
      if c =? pid then
        l ← idx (ch_clients ch) (ch_num_clients ch - 1);
        cl ← set_idx (ch_clients ch) i l;
        mret (set_clients cl (w32 (ch_num_clients ch - 1)) ch)
      else disconnect_loop n (i + 1) ch pid
  end.

Definition disconnect (chan_id pid : Z) : IM unit :=
  if CHAN_MAX <=? chan_id then mret tt else
  ch ← chan_at chan_id;
  if negb (ch_used ch) then mret tt else
  ch' ← lift (disconnect_loop (Z.to_nat (ch_num_clients ch)) 0 ch pid);
  chan_set chan_id ch'.

Definition connect (chan_id client_pid : Z) : IM unit :=
  if CHAN_MAX <=? chan_id then fail Inval else
  ch ← chan_at chan_id;
  if negb (ch_used ch) then fail NoEnt else
  if CHAN_MAX_CLIENTS <=? ch_num_clients ch then fail NoMem else
  push_client chan_id ch client_pid.

Definition close (chan_id : Z) : IM unit :=
  if CHAN_MAX <=? chan_id then fail Inval else
  ch ← chan_at chan_id;
  if negb (ch_used ch) then fail NoEnt else
  chan_set chan_id (set_flags false true ch).

Definition is_named (c : Channel) : bool := ch_used c && (0 <? ch_name_len c).

Definition named_count : IM Z := gets (λ s, len (filter (λ c, is_named c = true) (ipc_chans s))).

Fixpoint named_from (chs : list Channel) (i n want : Z) : result (option (list Z * Z)) :=
  match chs with
  | [] => mret None
  | c :: chs =>
      if is_named c then
        if n =? want then nm ← chan_name c; mret (Some (nm, i))
        else named_from chs (i + 1) (n + 1) want
      else named_from chs (i + 1) n want
  end.

Definition named_by_index (want : Z) : IM (option (list Z * Z)) := λ s,
  (named_from (ipc_chans s) 0 0 want, s).

(** ** ringbuf.rs *)

Definition pid_allowed (ch : Channel) (pid : Z) : result bool :=
  if pid =? ch_owner_pid ch then mret true else is_client ch pid.

(** [wait_enqueue]: the new head of the wait list whose head is [wait_head]. *)
Definition wait_enqueue (hart wait_head : Z) : KM Z :=
  p ← current_ptr hart;
  update p (set_p_state Waiting);;
  update p (set_p_wait_next wait_head);;
  mret p.

Fixpoint wake_loop (fuel : nat) (cur : Z) : KM unit :=
  match fuel with
  | O => panic
  | S fuel =>
      if cur =? 0 then mret tt else
      x ← deref cur;
      update cur (set_p_state Ready);;
      update cur (set_p_wait_next 0);;
      wake_loop fuel (p_wait_next x)
  end.

(** [wait_wake_all]; the caller resets the list head. *)
Definition wait_wake_all (wait_head : Z) : KM unit :=
  fuel ← gets walk_fuel;
  wake_loop fuel wait_head.

(** [while written < len { .. }] *)
Fixpoint write_loop (src : list Z) (ch : Channel) : result Channel :=
  match src with
  | [] => mret ch
  | b :: src =>
      buf ← set_idx (ch_buf ch) (ch_tail ch mod CHAN_BUF_SIZE) b;
      write_loop src (set_ring buf (ch_head ch) (w32 (ch_tail ch + 1)) ch)
  end.

(** [while read < to_read { .. }]: the bytes stored in the user's buffer. *)
Fixpoint read_loop (n : nat) (ch : Channel) : result (list Z * Channel) :=
  match n with
  | O => mret ([], ch)
  | S n =>
      b ← idx (ch_buf ch) (ch_head ch mod CHAN_BUF_SIZE);
      r ← read_loop n (set_ring (ch_buf ch) (w32 (ch_head ch + 1)) (ch_tail ch) ch);
      mret (b :: r.1, r.2)
  end.

(** How a channel call ends, if not with an error: a value, or a switch away. *)
Inductive reply (A : Type) := Reply (a : A) | Away (o : outcome).
Arguments Reply {A} a.
Arguments Away {A} o.

(** The guards shared by [send] and [recv]. *)
Definition chan_guard (hart chan_id : Z) : IM Channel :=
  if CHAN_MAX <=? chan_id then fail Inval else
  ch ← chan_at chan_id;
  if negb (ch_used ch) || ch_closed ch then fail Pipe else
  cur_pid ← onk (current_pid hart);
  ok ← lift (pid_allowed ch cur_pid);
  if negb ok then fail Perm else mret ch.

(** Block the caller: reschedule, and run [back] if the yield comes back. *)
Definition block {A} (hart : Z) (tf : TrapFrame) (back : IM (reply A)) : IM (reply A) :=
  onk (set_need_resched hart true);;
  o ← onk (sched_yield hart tf);
  match o with
  | Returned => back
  | o => mret (Away o)
  end.

Definition send (hart chan_id : Z) (src : list Z) (tf : option TrapFrame) : IM (reply Z) :=
  ch ← chan_guard hart chan_id;
  let available := w32 (CHAN_BUF_SIZE - w32 (ch_tail ch - ch_head ch)) in
  if available <? len src then
    match tf with
    | Some tf =>
        p ← onk (wait_enqueue hart (ch_send_wait ch));
        chan_set chan_id (set_send_wait p ch);;
        block hart tf (fail Busy)
    | None => fail Busy
    end
  else
    ch ← lift (write_loop src ch);
    chan_set chan_id ch;;
    (if negb (ch_recv_wait ch =? 0) then
       onk (wait_wake_all (ch_recv_wait ch));;
       chan_set chan_id (set_recv_wait 0 ch);;
       onk (set_need_resched hart true)
     else mret tt);;
    mret (Reply (len src)).

Definition recv (hart chan_id n : Z) (tf : option TrapFrame) : IM (reply (list Z)) :=
  ch ← chan_guard hart chan_id;
  let available := w32 (ch_tail ch - ch_head ch) in
  if available =? 0 then
    match tf with
    | Some tf =>
        p ← onk (wait_enqueue hart (ch_recv_wait ch));
        chan_set chan_id (set_recv_wait p ch);;
        block hart tf (mret (Reply []))
    | None => mret (Reply [])
    end
  else
    r ← lift (read_loop (Z.to_nat (Z.min n available)) ch);
    let ch := r.2 in
    chan_set chan_id ch;;
    (if negb (ch_send_wait ch =? 0) then
       onk (wait_wake_all (ch_send_wait ch));;
       chan_set chan_id (set_send_wait 0 ch);;
       onk (set_need_resched hart true)
     else mret tt);;
    mret (Reply r.1).

(** ** ipcfs *)

Module Ipcfs.

Definition IPCFS_ROOT_INO : Z := ONYFS_ROOT_INO.
Definition IPCFS_MAX_SIZE : Z := 4096.

Record IpcfsStat := mkIpcfsStat { st_ino : Z; st_size : Z; st_mode : Z }.

Definition ipcfs_lookup (hart : Z) (name : list Z) : IM Z :=
  if (len name =? 0) || bool_decide (name = [DOT]) then mret IPCFS_ROOT_INO else
  pid ← onk (current_pid hart);
  id ← open_by_name name pid;
  mret (w32 (id + 2)).

Definition ipcfs_stat (ino : Z) : result IpcfsStat :=
  if ino =? IPCFS_ROOT_INO then Ok (mkIpcfsStat ino 0 0x41ed) else
  if ino <? 2 then Err NoEnt else
  if 32 <=? ino - 2 then Err NoEnt else
  Ok (mkIpcfsStat ino IPCFS_MAX_SIZE 0x81b6).

Definition ipcfs_read (hart ino n : Z) : IM (reply (list Z)) :=
  if ino <? 2 then fail Inval else recv hart (ino - 2) n None.

Definition ipcfs_write (hart ino : Z) (src : list Z) : IM (reply Z) :=
  if ino <? 2 then fail Inval else send hart (ino - 2) src None.

(** [copy_name]: the bytes written to the caller's buffer. *)
Definition copy_name (name : list Z) (max_len : Z) : list Z :=
  rd 0 (Z.min (len name) (sat_sub max_len 1)) name ++ [0].

Definition ipcfs_readdir_entry (i name_len : Z) : IM (option (Z * list Z)) :=
  if i =? 0 then mret (Some (IPCFS_ROOT_INO, copy_name [DOT] name_len)) else
  if i =? 1 then mret (Some (IPCFS_ROOT_INO, copy_name [DOT; DOT] name_len)) else
  e ← named_by_index (i - 2);
  mret (match e with
        | Some (name, chan_id) => Some (w32 (chan_id + 2), copy_name name name_len)
        | None => None
        end).

End Ipcfs.
