(* ===== verification/IpcProps.v ===== *)
(** * Channels are byte FIFOs with an access list

    [pending ch] is the byte string a channel holds.  The ring operations are
    the FIFO operations on it, for every position of the wrapping counters. *)

From S2P Require Import Prelude Formats Vnode Process Sched SchedProps YieldProps Ipc.
From stdpp Require Import base list numbers gmap.
From Stdlib Require Import ZArith Lia.

Open Scope Z_scope.

(** ** The ring *)

Definition count (ch : Channel) : Z := w32 (ch_tail ch - ch_head ch).

Definition ring_at (ch : Channel) (j : Z) : Z := nth (Z.to_nat (j mod 4096)) (ch_buf ch) 0.

Definition pending (ch : Channel) : list Z :=
  map (λ i : nat, ring_at ch (ch_head ch + Z.of_nat i)) (seq 0 (Z.to_nat (count ch))).

Record ring_wf (ch : Channel) : Prop := {
  rw_buf : len (ch_buf ch) = 4096;
  rw_head : u32 (ch_head ch);
  rw_tail : u32 (ch_tail ch);
  rw_count : count ch ≤ 4096 }.

(** Everything but the ring is the same. *)
Definition same_meta (ch ch' : Channel) : Prop :=
  ch' = set_ring (ch_buf ch') (ch_head ch') (ch_tail ch') ch.

Lemma count_nonneg ch : 0 ≤ count ch.
Proof. apply Z.mod_pos_bound. done. Qed.

Lemma len_pending ch : len (pending ch) = count ch.
Proof. unfold len, pending. rewrite length_map, length_seq. pose proof (count_nonneg ch). lia. Qed.

Lemma w32_u32 z : u32 (w32 z).
Proof. unfold u32, w32. by apply Z.mod_pos_bound. Qed.

(** The 32-bit counters wrap at a multiple of the ring size. *)
Lemma w32_mod_ring z : w32 z mod 4096 = z mod 4096.
Proof.
  unfold w32. apply Z.mod_mod_divide. by exists 1048576.
Qed.

Lemma ring_at_w32 ch z i : ring_at ch (w32 z + i) = ring_at ch (z + i).
Proof.
  unfold ring_at. f_equal. f_equal. rewrite Zplus_mod, w32_mod_ring, <- Zplus_mod. done.
Qed.

Lemma count_succ t h : w32 (t - h) < 4096 → w32 (w32 (t + 1) - h) = w32 (t - h) + 1.
Proof.
  intros H. unfold w32 in *. rewrite Zminus_mod_idemp_l.
  replace (t + 1 - h) with (t - h + 1) by lia. rewrite <- Zplus_mod_idemp_l.
  pose proof (Z.mod_pos_bound (t - h) 4294967296). apply Z.mod_small. lia.
Qed.

Lemma count_pred t h : 0 < w32 (t - h) → w32 (t - w32 (h + 1)) = w32 (t - h) - 1.
Proof.
  intros H. unfold w32 in *. rewrite Zminus_mod_idemp_r.
  replace (t - (h + 1)) with (t - h - 1) by lia. rewrite <- Zminus_mod_idemp_l.
  pose proof (Z.mod_pos_bound (t - h) 4294967296). apply Z.mod_small. lia.
Qed.

(** The tail is [count] bytes after the head, modulo the ring. *)
Lemma tail_mod ch : ch_tail ch mod 4096 = (ch_head ch + count ch) mod 4096.
Proof.
  unfold count. rewrite Z.add_comm, Zplus_mod, w32_mod_ring, <- Zplus_mod. f_equal. lia.
Qed.

Lemma slots_differ a i n :
  0 ≤ i < n → n < 4096 → (a + i) mod 4096 ≠ (a + n) mod 4096.
Proof.
  intros Hi Hn E. pose proof (Z.div_mod (a + i) 4096). pose proof (Z.div_mod (a + n) 4096). lia.
Qed.

Lemma push_spec ch b :
  ring_wf ch → count ch < 4096 →
  set_idx (ch_buf ch) (ch_tail ch mod CHAN_BUF_SIZE) b =
    Ok (<[Z.to_nat (ch_tail ch mod 4096) := b]> (ch_buf ch)) ∧
  let ch' := set_ring (<[Z.to_nat (ch_tail ch mod 4096) := b]> (ch_buf ch)) (ch_head ch)
               (w32 (ch_tail ch + 1)) ch in
  ring_wf ch' ∧ count ch' = count ch + 1 ∧ pending ch' = pending ch ++ [b].
Proof.
  intros [Hb Hh Ht Hc] Hlt. pose proof (Z.mod_pos_bound (ch_tail ch) 4096 ltac:(lia)) as Hm.
  pose proof (count_nonneg ch) as H0.
  split; [by rewrite set_idx_ok by (unfold CHAN_BUF_SIZE; lia)|]. intros ch'.
  assert (count ch' = count ch + 1) as Hcount by (by apply count_succ).
  split; [|split; [done|]].
  - constructor; [unfold ch'; simpl; by rewrite len_insert|done|apply w32_u32|lia].
  - unfold pending. rewrite Hcount. replace (Z.to_nat (count ch + 1)) with (S (Z.to_nat (count ch))) by lia.
    rewrite seq_S, map_app. unfold len in Hb. f_equal.
    + apply map_ext_in. intros i Hi%in_seq. unfold ring_at, ch'. simpl.
      rewrite !nth_lookup, list_lookup_insert_ne; [done|].
      rewrite tail_mod. intros E. apply (slots_differ (ch_head ch) (Z.of_nat i) (count ch)); [lia..|].
      pose proof (Z.mod_pos_bound (ch_head ch + Z.of_nat i) 4096).
      pose proof (Z.mod_pos_bound (ch_head ch + count ch) 4096). lia.
    + simpl. f_equal. unfold ring_at, ch'. simpl. rewrite Z2Nat.id by lia.
      rewrite <- tail_mod, nth_lookup, list_lookup_insert_eq by lia. done.
Qed.

Lemma pop_spec ch :
  ring_wf ch → 0 < count ch →
  ∃ b, idx (ch_buf ch) (ch_head ch mod CHAN_BUF_SIZE) = Ok b ∧
  let ch' := set_ring (ch_buf ch) (w32 (ch_head ch + 1)) (ch_tail ch) ch in
  ring_wf ch' ∧ count ch' = count ch - 1 ∧ pending ch = b :: pending ch'.
Proof.
  intros [Hb Hh Ht Hc] Hlt. pose proof (Z.mod_pos_bound (ch_head ch) 4096 ltac:(lia)) as Hm.
  exists (ring_at ch (ch_head ch)). split.
  { apply idx_ok; [|unfold CHAN_BUF_SIZE; lia]. unfold ring_at, CHAN_BUF_SIZE. rewrite nth_lookup.
    destruct (lookup_lt_is_Some_2 (ch_buf ch) (Z.to_nat (ch_head ch mod 4096))) as [x Hx];
      [unfold len in Hb; lia|]. by rewrite Hx. }
  intros ch'. assert (count ch' = count ch - 1) as Hcount by (by apply count_pred).
  split; [|split; [done|]].
  - constructor; [done|apply w32_u32|done|lia].
  - unfold pending. rewrite Hcount.
    replace (Z.to_nat (count ch)) with (S (Z.to_nat (count ch - 1))) by lia. simpl. f_equal.
    + f_equal. lia.
    + rewrite <- seq_shift, map_map. apply map_ext. intros i. simpl.
      unfold ch'. simpl. rewrite ring_at_w32. unfold ring_at. simpl. do 3 f_equal. lia.
Qed.

Lemma write_loop_spec src ch :
  ring_wf ch → count ch + len src ≤ 4096 →
  ∃ ch', write_loop src ch = Ok ch' ∧ ring_wf ch' ∧ same_meta ch ch' ∧
         pending ch' = pending ch ++ src.
Proof.
  revert ch. induction src as [|b src IH]; intros ch Hwf Hn; simpl.
  - exists ch. rewrite app_nil_r. split_and!; [done|done|by destruct ch|done].
  - rewrite len_cons in Hn. pose proof (len_nonneg src).
    destruct (push_spec ch b Hwf) as (-> & Hwf' & Hc & Hp); [lia|]. simpl.
    destruct (IH _ Hwf') as (ch' & Hw & ? & Hm & Hp'); [lia|].
    exists ch'. split_and!; [done|done|exact Hm|].
    by rewrite Hp', Hp, <- app_assoc.
Qed.

Lemma read_loop_spec n ch :
  ring_wf ch → Z.of_nat n ≤ count ch →
  ∃ ch', read_loop n ch = Ok (take n (pending ch), ch') ∧ ring_wf ch' ∧ same_meta ch ch' ∧
         pending ch' = drop n (pending ch).
Proof.
  revert ch. induction n as [|n IH]; intros ch Hwf Hn; simpl.
  - exists ch. split_and!; [done|done|by destruct ch|done].
  - destruct (pop_spec ch Hwf) as (b & Hb & Hwf' & Hc & Hp); [lia|]. rewrite Hb. simpl.
    destruct (IH _ Hwf') as (ch' & Hr & ? & Hm & Hp'); [lia|]. rewrite Hr. simpl. rewrite Hp. simpl.
    exists ch'. split_and!; [done|done|exact Hm|done].
Qed.

(** ** Access *)

Definition allowed (ch : Channel) (pid : Z) : Prop :=
  pid = ch_owner_pid ch ∨ pid ∈ take (Z.to_nat (ch_num_clients ch)) (ch_clients ch).

#[global] Instance allowed_dec ch pid : Decision (allowed ch pid).
Proof. unfold allowed. apply _. Defined.

Record chan_ok (ch : Channel) : Prop := {
  co_ring : ring_wf ch;
  co_clients : len (ch_clients ch) = 4;
  co_num : 0 ≤ ch_num_clients ch ≤ 4;
  co_name : len (ch_name ch) = 32;
  co_name_len : 0 ≤ ch_name_len ch ≤ 31 }.

Lemma existsb_elem (pid : Z) l : existsb (λ x, x =? pid) l = bool_decide (pid ∈ l).
Proof.
  apply eq_bool_prop_intro. rewrite bool_decide_spec, Is_true_true, existsb_exists.
  rewrite list_elem_of_In. split.
  - intros (x & Hx & E). bool_prop. by subst.
  - intros H. exists pid. split; [done|]. apply Z.eqb_refl.
Qed.

Lemma is_client_spec ch pid :
  chan_ok ch →
  is_client ch pid = Ok (bool_decide (pid ∈ take (Z.to_nat (ch_num_clients ch)) (ch_clients ch))).
Proof.
  intros [_ Hc Hn _ _]. unfold is_client. rewrite slice_ok by lia. simpl.
  rewrite existsb_elem. unfold rd. simpl. rewrite drop_0, Z.sub_0_r. done.
Qed.

Lemma pid_allowed_spec ch pid :
  chan_ok ch → pid_allowed ch pid = Ok (bool_decide (allowed ch pid)).
Proof.
  intros Hok. unfold pid_allowed, allowed. destruct (Z.eqb_spec pid (ch_owner_pid ch)) as [->|Hne].
  - rewrite bool_decide_eq_true_2 by (by left). done.
  - rewrite is_client_spec by done. f_equal. apply bool_decide_ext. naive_solver.
Qed.

Lemma chan_at_ok i ch s : 0 ≤ i → ipc_chans s !! Z.to_nat i = Some ch → chan_at i s = (Ok ch, s).
Proof. intros Hi Hc. unfold chan_at. by rewrite (idx_ok _ _ _ Hc). Qed.

Lemma chan_set_ok i ch c s :
  0 ≤ i → ipc_chans s !! Z.to_nat i = Some ch →
  chan_set i c s = (Ok tt, mkIpc (ipc_k s) (<[Z.to_nat i := c]> (ipc_chans s))).
Proof.
  intros Hi Hc. unfold chan_set. rewrite set_idx_ok; [done|].
  apply lookup_lt_Some in Hc. unfold len. lia.
Qed.

Lemma onk_ok {A} (m : KM A) s a k :
  m (ipc_k s) = (Ok a, k) → onk m s = (Ok a, mkIpc k (ipc_chans s)).
Proof. unfold onk. by intros ->. Qed.

(** The state in which process [pid] runs on [hart] and channel [i] is [ch]. *)
Record caller (s : Ipc) (hart pid i : Z) (ch : Channel) : Prop := {
  ca_pid : current_pid hart (ipc_k s) = (Ok pid, ipc_k s);
  ca_idx : 0 ≤ i < 32;
  ca_chan : ipc_chans s !! Z.to_nat i = Some ch;
  ca_ok : chan_ok ch }.

(** The guards of [send] and [recv], in the order of the code. *)
Definition guard_error (ch : Channel) (pid : Z) : option Errno :=
  if negb (ch_used ch) || ch_closed ch then Some Pipe
  else if bool_decide (allowed ch pid) then None else Some Perm.

Lemma chan_guard_spec s hart pid i ch :
  caller s hart pid i ch →
  chan_guard hart i s = (match guard_error ch pid with Some e => Err e | None => Ok ch end, s).
Proof.
  intros [Hp Hi Hc Hok]. unfold chan_guard, guard_error, CHAN_MAX.
  rewrite (proj2 (Z.leb_gt 32 i)) by lia.
  rewrite (sm_bind_ok _ _ _ _ _ (chan_at_ok i ch s ltac:(lia) Hc)).
  case_if E; [done|].
  rewrite (sm_bind_ok _ _ _ _ _ (onk_ok _ _ _ _ Hp)). destruct s as [k chs]; simpl.
  rewrite pid_allowed_spec, lift_bind by done. by destruct (bool_decide _).
Qed.

(** ** Wait lists *)

Fixpoint waiting (ps : gmap Z Proc) (ws : list Z) : Prop :=
  match ws with
  | [] => True
  | p :: ws => p ≠ 0 ∧ (∃ x, ps !! p = Some x ∧ p_wait_next x = hd0 ws) ∧ waiting ps ws
  end.

Definition awake (x : Proc) : Proc := set_p_wait_next 0 (set_p_state Ready x).

Definition wake (ws : list Z) (ps : gmap Z Proc) : gmap Z Proc :=
  foldl (λ ps p, alter awake p ps) ps ws.

Lemma waiting_alter ps p ws f : p ∉ ws → waiting ps ws → waiting (alter f p ps) ws.
Proof.
  induction ws as [|a ws IH]; simpl; [done|]. intros Hp (? & (x & Hx & ?) & ?).
  split; [done|]. split; [|apply IH; set_solver]. exists x. rewrite lookup_alter_ne by set_solver. done.
Qed.

Lemma wake_loop_spec fuel ws k :
  NoDup ws → waiting (g_procs k) ws → (length ws < fuel)%nat →
  wake_loop fuel (hd0 ws) k = (Ok tt, set_g_procs (wake ws (g_procs k)) k).
Proof.
  revert ws k. induction fuel as [|fuel IH]; intros ws k Hnd Hw Hf; [lia|].
  destruct ws as [|p ws]; [simpl; by destruct k|]. destruct Hw as (Hp & (x & Hx & Hn) & Hw).
  apply NoDup_cons in Hnd as [Hnp Hnd]. simpl.
  replace (p =? 0) with false by (symmetry; by apply Z.eqb_neq).
  rewrite (sm_bind_ok _ _ _ _ _ (deref_ok p x k Hx)).
  rewrite (sm_bind_ok _ _ _ _ _ (update_ok p _ x k Hx)).
  erewrite sm_bind_ok; [|apply update_ok; simpl; apply lookup_insert_eq].
  simpl. rewrite insert_insert_eq, Hn.
  assert (<[p := set_p_wait_next 0 (set_p_state Ready x)]> (g_procs k) = alter awake p (g_procs k))
    as -> by (symmetry; apply (alter_as_insert _ awake _ _ Hx)).
  rewrite IH; [done|done|by apply waiting_alter|simpl in Hf; lia].
Qed.

Lemma waiting_dom ps ws p : waiting ps ws → p ∈ ws → is_Some (ps !! p).
Proof.
  induction ws as [|a ws IH]; simpl; intros H Hp; [by apply elem_of_nil in Hp|].
  destruct H as (_ & (x & ? & _) & ?). apply elem_of_cons in Hp as [->|Hp]; eauto.
Qed.

Lemma wait_wake_all_spec ws k :
  NoDup ws → waiting (g_procs k) ws →
  wait_wake_all (hd0 ws) k = (Ok tt, set_g_procs (wake ws (g_procs k)) k).
Proof.
  intros Hnd Hw. unfold wait_wake_all. apply wake_loop_spec; [done..|].
  apply nodup_fits; [done|]. intros. by eapply waiting_dom.
Qed.

Lemma wake_lookup ws ps p :
  NoDup ws → wake ws ps !! p = if decide (p ∈ ws) then awake <$> ps !! p else ps !! p.
Proof.
  unfold wake. revert ps. induction ws as [|a ws IH]; intros ps Hnd; cbn [foldl].
  { by rewrite decide_False by set_solver. }
  apply NoDup_cons in Hnd as [Ha Hnd]. rewrite IH by done.
  destruct (decide (p = a)) as [->|Hne].
  - rewrite decide_False by done. rewrite decide_True by set_solver. by rewrite lookup_alter_eq.
  - rewrite lookup_alter_ne by done. destruct (decide (p ∈ ws)).
    + by rewrite decide_True by set_solver.
    + by rewrite decide_False by set_solver.
Qed.

(** ** The calls *)

Section Calls.
Context (s : Ipc) (hart pid i : Z) (ch : Channel) (Hcall : caller s hart pid i ch).
Context (Hfree : guard_error ch pid = None).
Context (ws : list Z) (Hnd : NoDup ws) (Hws : waiting (g_procs (ipc_k s)) ws).
Context (Hres : length (g_need_resched (ipc_k s)) = 8%nat) (Hhart : 0 ≤ hart < 8).

(** What a call that changed the ring to [ch'] does besides: the processes of
    the opposite wait list [ws] are woken and the hart is asked to reschedule. *)
Definition after (ch' : Channel) : Ipc :=
  match ws with
  | [] => mkIpc (ipc_k s) (<[Z.to_nat i := ch']> (ipc_chans s))
  | _ =>
      mkIpc (set_g_need_resched (<[Z.to_nat hart := true]> (g_need_resched (ipc_k s)))
               (set_g_procs (wake ws (g_procs (ipc_k s))) (ipc_k s)))
        (<[Z.to_nat i := ch']> (ipc_chans s))
  end.

Lemma wake_tail (head : Z) (ch1 ch2 : Channel) {A} (a : A) :
  head = hd0 ws → (ws = [] → ch2 = ch1) →
  ((chan_set i ch1;;
    (if negb (head =? 0) then
       onk (wait_wake_all head);; chan_set i ch2;; onk (set_need_resched hart true)
     else mret tt);;
    mret (Reply a)) : IM (reply A)) s = (Ok (Reply a), after ch2).
Proof using Hcall Hnd Hws Hres Hhart.
  intros -> He. destruct Hcall as [_ Hi Hc _].
  rewrite (sm_bind_ok _ _ _ _ _ (chan_set_ok i ch ch1 s ltac:(lia) Hc)).
  unfold after. destruct ws as [|p ws'] eqn:E; [by rewrite He|].
  pose proof (proj1 Hws) as Hp. change (hd0 (p :: ws')) with p.
  replace (p =? 0) with false by (symmetry; by apply Z.eqb_neq). cbn [negb].
  rewrite <- (list_insert_insert_eq (ipc_chans s) (Z.to_nat i) ch2 ch1).
  erewrite sm_bind_ok; [done|].
  erewrite sm_bind_ok; [|eapply onk_ok; apply (wait_wake_all_spec (p :: ws')); done].
  erewrite sm_bind_ok;
    [|eapply chan_set_ok; [lia|]; simpl; apply list_lookup_insert_eq; by eapply lookup_lt_Some].
  unfold set_need_resched, MAX_HARTS. rewrite (proj2 (Z.ltb_lt hart 8)) by lia.
  etrans; [eapply onk_ok, at_set_ok; [exact Hres|done]|done].
Qed.

Lemma send_spec src tf :
  ch_recv_wait ch = hd0 ws → len (pending ch) + len src ≤ 4096 →
  ∃ ch', send hart i src tf s = (Ok (Reply (len src)), after ch') ∧ chan_ok ch' ∧
         pending ch' = pending ch ++ src ∧
         same_meta (set_recv_wait 0 ch) ch'.
Proof using Hcall Hfree Hnd Hws Hres Hhart.
  intros Hw Hn. rewrite len_pending in Hn. destruct (ca_ok _ _ _ _ _ Hcall) as [Hr Hcl Hnc Hnm Hnl].
  pose proof (len_nonneg src). pose proof (count_nonneg ch).
  destruct (write_loop_spec src ch Hr) as (ch1 & Hwr & Hr1 & Hm & Hp); [lia|].
  assert (set_recv_wait 0 ch1 = set_ring (ch_buf ch1) (ch_head ch1) (ch_tail ch1) (set_recv_wait 0 ch))
    as Hs by (rewrite Hm; done).
  exists (set_recv_wait 0 ch1). split_and!.
  - unfold send. rewrite (sm_bind_ok _ _ _ ch s)
      by (rewrite (chan_guard_spec _ _ _ _ _ Hcall), Hfree; done).
    unfold CHAN_BUF_SIZE. fold (count ch). unfold w32 at 1.
    rewrite (Z.mod_small (4096 - count ch)) by lia.
    rewrite (proj2 (Z.ltb_ge (4096 - count ch) (len src))) by lia.
    rewrite Hwr, lift_bind. apply wake_tail.
    + by rewrite Hm.
    + intros E. rewrite Hm, E in *. simpl in *. destruct ch. simpl in *. by subst.
  - rewrite Hs. destruct Hr1. constructor; [constructor|..]; done.
  - done.
  - done.
Qed.

Lemma recv_spec n :
  ch_send_wait ch = hd0 ws → 0 ≤ n → pending ch ≠ [] → 
  ∀ tf, ∃ ch', recv hart i n tf s = (Ok (Reply (take (Z.to_nat n) (pending ch))), after ch') ∧
         chan_ok ch' ∧ pending ch' = drop (Z.to_nat n) (pending ch) ∧
         same_meta (set_send_wait 0 ch) ch'.
Proof using Hcall Hfree Hnd Hws Hres Hhart.
  intros Hw Hn Hne tf. destruct (ca_ok _ _ _ _ _ Hcall) as [Hr Hcl Hnc Hnm Hnl].
  assert (0 < count ch) as Hc0.
  { rewrite <- len_pending. unfold len. destruct (pending ch); [done|]. simpl. lia. }
  set (m := Z.to_nat (Z.min n (count ch))).
  destruct (read_loop_spec m ch Hr) as (ch1 & Hrd & Hr1 & Hm & Hp); [lia|].
  pose proof (len_pending ch) as Hlp. unfold len in Hlp.
  assert (take m (pending ch) = take (Z.to_nat n) (pending ch)) as Htk.
  { destruct (Z.min_spec n (count ch)) as [[? E]|[? E]]; subst m; rewrite E; [done|].
    rewrite !take_ge by lia. done. }
  assert (drop m (pending ch) = drop (Z.to_nat n) (pending ch)) as Hdr.
  { destruct (Z.min_spec n (count ch)) as [[? E]|[? E]]; subst m; rewrite E; [done|].
    rewrite !drop_ge by lia. done. }
  assert (set_send_wait 0 ch1 = set_ring (ch_buf ch1) (ch_head ch1) (ch_tail ch1) (set_send_wait 0 ch))
    as Hs by (rewrite Hm; done).
  exists (set_send_wait 0 ch1). split_and!.
  - unfold recv. rewrite (sm_bind_ok _ _ _ ch s)
      by (rewrite (chan_guard_spec _ _ _ _ _ Hcall), Hfree; done).
    fold (count ch). rewrite (proj2 (Z.eqb_neq (count ch) 0)) by lia.
    fold m. rewrite Hrd, lift_bind, Htk. cbn [fst snd]. apply wake_tail.
    + by rewrite Hm.
    + intros E. rewrite Hm, E in *. simpl in *. destruct ch. simpl in *. by subst.
  - rewrite Hs. destruct Hr1. constructor; [constructor|..]; done.
  - by rewrite <- Hdr.
  - done.
Qed.
End Calls.

Lemma send_full s hart pid i ch src :
  caller s hart pid i ch → guard_error ch pid = None → 4096 < len (pending ch) + len src →
  send hart i src None s = (Err Busy, s).
Proof.
  intros Hcall Hfree Hn. rewrite len_pending in Hn. unfold send.
  rewrite (sm_bind_ok _ _ _ ch s) by (rewrite (chan_guard_spec _ _ _ _ _ Hcall), Hfree; done).
  destruct (ca_ok _ _ _ _ _ Hcall) as [[_ _ _ Hc] _ _ _ _]. pose proof (count_nonneg ch).
  unfold CHAN_BUF_SIZE. fold (count ch). unfold w32 at 1.
  rewrite (Z.mod_small (4096 - count ch)) by lia.
  by rewrite (proj2 (Z.ltb_lt (4096 - count ch) (len src))) by lia.
Qed.

Lemma recv_empty s hart pid i ch n :
  caller s hart pid i ch → guard_error ch pid = None → pending ch = [] →
  recv hart i n None s = (Ok (Reply []), s).
Proof.
  intros Hcall Hfree Hp. unfold recv.
  rewrite (sm_bind_ok _ _ _ ch s) by (rewrite (chan_guard_spec _ _ _ _ _ Hcall), Hfree; done).
  fold (count ch). by rewrite <- len_pending, Hp.
Qed.

Lemma call_denied s hart pid i ch src n tf e :
  caller s hart pid i ch → guard_error ch pid = Some e →
  send hart i src tf s = (Err e, s) ∧ recv hart i n tf s = (Err e, s).
Proof.
  intros Hcall He. pose proof (chan_guard_spec _ _ _ _ _ Hcall) as Hg. rewrite He in Hg.
  unfold send, recv, mbind, SM_bind. by rewrite Hg.
Qed.

(** ** Streams

    A run of non-blocking calls on one channel: what was accepted and what was
    delivered, in order. *)
Inductive chan_op := OpSend (src : list Z) | OpRecv (n : Z).

Definition op_ok (o : chan_op) : Prop :=
  match o with OpSend _ => True | OpRecv n => u32 n end.

Definition chan_step (hart i : Z) (o : chan_op) (s : Ipc) : list Z * list Z * Ipc :=
  match o with
  | OpSend src =>
      match send hart i src None s with
      | (Ok (Reply _), s') => (src, [], s')
      | (_, s') => ([], [], s')
      end
  | OpRecv n =>
      match recv hart i n None s with
      | (Ok (Reply out), s') => ([], out, s')
      | (_, s') => ([], [], s')
      end
  end.

Fixpoint chan_run (hart i : Z) (ops : list chan_op) (s : Ipc) : list Z * list Z * Ipc :=
  match ops with
  | [] => ([], [], s)
  | o :: ops =>
      let '(a, d, s) := chan_step hart i o s in
      let '(a', d', s) := chan_run hart i ops s in
      (a ++ a', d ++ d', s)
  end.

(** A channel a process may use and nobody waits on. *)
Record usable (s : Ipc) (hart pid i : Z) (ch : Channel) : Prop := {
  us_caller : caller s hart pid i ch;
  us_free : guard_error ch pid = None;
  us_send : ch_send_wait ch = 0;
  us_recv : ch_recv_wait ch = 0;
  us_hart : 0 ≤ hart < 8;
  us_resched : length (g_need_resched (ipc_k s)) = 8%nat }.

Lemma usable_after s hart pid i ch ch' :
  usable s hart pid i ch → chan_ok ch' → same_meta (set_send_wait 0 (set_recv_wait 0 ch)) ch' →
  usable (mkIpc (ipc_k s) (<[Z.to_nat i := ch']> (ipc_chans s))) hart pid i ch'.
Proof.
  intros [[Hp Hi Hc _] Hf Hs Hr Hh Hn] Hok Hm.
  constructor; [constructor; [done|done| |done]|..]; try done.
  - apply list_lookup_insert_eq. by eapply lookup_lt_Some.
  - rewrite Hm. exact Hf.
  - by rewrite Hm.
  - by rewrite Hm.
Qed.

Lemma no_wait_meta ch : ch_send_wait ch = 0 → ch_recv_wait ch = 0 →
  set_recv_wait 0 ch = ch ∧ set_send_wait 0 ch = ch.
Proof. destruct ch; simpl. by intros -> ->. Qed.

Lemma chan_step_spec s hart pid i ch o :
  usable s hart pid i ch → op_ok o →
  ∃ ch', let '(a, d, s') := chan_step hart i o s in
    usable s' hart pid i ch' ∧ pending ch ++ a = d ++ pending ch'.
Proof.
  intros Hu Ho. destruct (no_wait_meta ch (us_send _ _ _ _ _ Hu) (us_recv _ _ _ _ _ Hu)) as [Er Es].
  pose proof (us_caller _ _ _ _ _ Hu) as Hcall. pose proof (us_free _ _ _ _ _ Hu) as Hf.
  destruct o as [src|n]; simpl.
  - destruct (Z.le_gt_cases (len (pending ch) + len src) 4096) as [Hle|Hgt].
    + destruct (send_spec s hart pid i ch Hcall Hf [] (NoDup_nil_2) I
                  (us_resched _ _ _ _ _ Hu) (us_hart _ _ _ _ _ Hu) src None) as (ch' & Hs & Hok & Hp & Hm);
        [apply Hu|done|].
      exists ch'. rewrite Hs. split; [|by rewrite Hp].
      eapply usable_after; [done..|]. by rewrite Er, Es in *.
    + exists ch. rewrite (send_full _ _ _ _ _ _ Hcall Hf Hgt). by rewrite app_nil_r.
  - destruct (decide (pending ch = [])) as [He|Hne].
    + exists ch. by rewrite (recv_empty _ _ _ _ _ _ Hcall Hf He), app_nil_r.
    + destruct (recv_spec s hart pid i ch Hcall Hf [] (NoDup_nil_2) I
                  (us_resched _ _ _ _ _ Hu) (us_hart _ _ _ _ _ Hu) n) with (tf := @None TrapFrame)
        as (ch' & Hs & Hok & Hp & Hm); [apply Hu|apply Ho|done|].
      exists ch'. rewrite Hs. split.
      * eapply usable_after; [done..|]. by rewrite Er, Es in *.
      * by rewrite Hp, app_nil_r, take_drop.
Qed.

Lemma chan_run_spec ops s hart pid i ch :
  usable s hart pid i ch → Forall op_ok ops →
  ∃ ch', let '(a, d, s') := chan_run hart i ops s in
    usable s' hart pid i ch' ∧ pending ch ++ a = d ++ pending ch'.
Proof.
  revert s ch. induction ops as [|o ops IH]; intros s ch Hu Ho; simpl.
  { exists ch. by rewrite app_nil_r. }
  apply Forall_cons in Ho as [Ho Hos].
  destruct (chan_step_spec s hart pid i ch o Hu Ho) as (ch1 & H1).
  destruct (chan_step hart i o s) as [[a d] s1]. destruct H1 as [Hu1 E1].
  destruct (IH s1 ch1 Hu1 Hos) as (ch2 & H2).
  destruct (chan_run hart i ops s1) as [[a' d'] s2]. destruct H2 as [Hu2 E2].
  exists ch2. split; [done|]. by rewrite app_assoc, E1, <- !app_assoc, E2.
Qed.

(** ** The channel table *)

Definition table_ok (chs : list Channel) : Prop := len chs = 32 ∧ Forall chan_ok chs.

Lemma chan_fresh_ok pid used : chan_ok (Channel_fresh pid used).
Proof. constructor; [constructor|..]; done. Qed.

(** The result of a linear search with a total test. *)
Lemma first_chan_spec (test : Channel → bool) f chs i :
  (∀ c, c ∈ chs → f c = Ok (test c)) →
  (first_chan f i chs = Ok None ∧ Forall (λ c, test c = false) chs) ∨
  (∃ n c, first_chan f i chs = Ok (Some (i + Z.of_nat n)) ∧ chs !! n = Some c ∧ test c = true ∧
          ∀ m c', (m < n)%nat → chs !! m = Some c' → test c' = false).
Proof.
  revert i. induction chs as [|c chs IH]; intros i Hf; simpl; [by left|].
  rewrite Hf by left. simpl. destruct (test c) eqn:Et.
  - right. exists 0%nat, c. split_and!; [do 2 f_equal; lia|done|done|]. intros; lia.
  - destruct (IH (i + 1)) as [[H1 H2]|(n & c1 & H1 & H2 & H3 & H4)]; [by intros; apply Hf; right|..].
    + left. split; [done|]. by constructor.
    + right. exists (S n), c1. split_and!; [rewrite H1; do 2 f_equal; lia|done|done|].
      intros [|m] c' Hm Hc'; [by injection Hc' as <-|]. eapply H4; [|done]. lia.
Qed.

Definition named (name : list Z) (c : Channel) : bool :=
  ch_used c && bool_decide (take (Z.to_nat (ch_name_len c)) (ch_name c) = name).

Lemma chan_name_spec c :
  chan_ok c → chan_name c = Ok (take (Z.to_nat (ch_name_len c)) (ch_name c)).
Proof.
  intros [_ _ _ Hn Hl]. unfold chan_name. rewrite slice_ok by lia.
  unfold rd. simpl. by rewrite drop_0, Z.sub_0_r.
Qed.

Lemma has_name_spec name c : chan_ok c → has_name name c = Ok (named name c).
Proof.
  intros Hok. unfold has_name, named. destruct (ch_used c); simpl; [|done].
  destruct (Z.eqb_spec (ch_name_len c) (len name)) as [E|E]; simpl.
  - by rewrite chan_name_spec.
  - rewrite bool_decide_eq_false_2; [done|]. intros <-. apply E.
    destruct Hok as [_ _ _ Hn Hl]. unfold len in *. rewrite length_take. lia.
Qed.

Lemma find_by_name_spec name s :
  table_ok (ipc_chans s) →
  (find_by_name name s = (Ok None, s) ∧ Forall (λ c, named name c = false) (ipc_chans s)) ∨
  (∃ n c, find_by_name name s = (Ok (Some (Z.of_nat n)), s) ∧ ipc_chans s !! n = Some c ∧
          named name c = true ∧
          ∀ m c', (m < n)%nat → ipc_chans s !! m = Some c' → named name c' = false).
Proof.
  intros [_ Hok]. unfold find_by_name, mbind, SM_bind, gets, lift.
  destruct (first_chan_spec (named name) (has_name name) (ipc_chans s) 0)
    as [[H1 H2]|(n & c & H1 & H2)].
  - intros c Hc. apply has_name_spec. by eapply Forall_forall.
  - left. by rewrite H1.
  - right. exists n, c. by rewrite H1.
Qed.

(** A call that does not panic and keeps the table well formed. *)
Definition safe {A} (m : IM A) (s : Ipc) : Prop :=
  match m s with (Panic, _) => False | (_, s') => table_ok (ipc_chans s') end.

Lemma table_insert chs n c : table_ok chs → chan_ok c → table_ok (<[n := c]> chs).
Proof. intros [Hl Hf] Hc. split; [by rewrite len_insert|]. by apply Forall_insert. Qed.

Lemma chan_set_safe s n ch c :
  table_ok (ipc_chans s) → ipc_chans s !! n = Some ch → chan_ok c →
  chan_set (Z.of_nat n) c s = (Ok tt, mkIpc (ipc_k s) (<[n := c]> (ipc_chans s))) ∧
  table_ok (<[n := c]> (ipc_chans s)).
Proof.
  intros Ht Hn Hc. split; [|by apply table_insert].
  rewrite (chan_set_ok _ ch) by (rewrite ?Nat2Z.id; (done || lia)). by rewrite Nat2Z.id.
Qed.

Lemma create_spec pid s :
  table_ok (ipc_chans s) →
  (create pid s = (Err NoMem, s) ∧ Forall (λ c, ch_used c = true) (ipc_chans s)) ∨
  (∃ n c, ipc_chans s !! n = Some c ∧ ch_used c = false ∧
     create pid s = (Ok (Z.of_nat n),
                     mkIpc (ipc_k s) (<[n := Channel_fresh pid true]> (ipc_chans s)))).
Proof.
  intros Ht. unfold create, mbind, SM_bind, gets, lift.
  destruct (first_chan_spec (λ c, negb (ch_used c)) (λ c, Ok (negb (ch_used c))) (ipc_chans s) 0)
    as [[H1 H2]|(n & c & H1 & Hn & Hc & _)]; [done|..].
  - left. rewrite H1. split; [done|]. eapply Forall_impl; [exact H2|]. intros c Hc.
    by apply negb_false_iff.
  - right. exists n, c. rewrite H1. apply negb_true_iff in Hc. split_and!; [done|done|].
    rewrite Z.add_0_l. destruct (chan_set_safe s n c (Channel_fresh pid true) Ht Hn) as [-> _];
      [apply chan_fresh_ok|done].
Qed.

Definition with_name (name : list Z) (c : Channel) : Channel :=
  set_name (wr 0 name (ch_name c)) (len name) c.

Lemma with_name_ok name pid : 0 < len name ≤ 31 → chan_ok (with_name name (Channel_fresh pid true)).
Proof.
  intros Hn. constructor; [constructor|..]; try done.
  - change (len (wr 0 name (ch_name (Channel_fresh pid true))) = 32).
    assert (len (ch_name (Channel_fresh pid true)) = 32) as H32 by done. rewrite len_wr; lia.
  - change (0 ≤ len name ≤ 31). lia.
Qed.

Lemma named_with_name name name' pid :
  0 < len name ≤ 31 → named name' (with_name name (Channel_fresh pid true)) = bool_decide (name = name').
Proof.
  intros Hn. set (nm := ch_name (Channel_fresh pid true)).
  change (bool_decide (take (Z.to_nat (len name)) (wr 0 name nm) = name') = bool_decide (name = name')).
  assert (len nm = 32) as H32 by done.
  pose proof (rd_wr_eq 0 (len name) name nm ltac:(lia) eq_refl ltac:(lia)) as H.
  unfold rd in H. rewrite drop_0 in H. by rewrite H.
Qed.

Lemma create_named_spec name pid s :
  table_ok (ipc_chans s) → 0 < len name ≤ 31 →
  (∃ n, find_by_name name s = (Ok (Some n), s) ∧ create_named name pid s = (Err Exist, s)) ∨
  (find_by_name name s = (Ok None, s) ∧
   ((create_named name pid s = (Err NoMem, s) ∧ Forall (λ c, ch_used c = true) (ipc_chans s)) ∨
    (∃ n c, ipc_chans s !! n = Some c ∧ ch_used c = false ∧
       create_named name pid s =
         (Ok (Z.of_nat n),
          mkIpc (ipc_k s) (<[n := with_name name (Channel_fresh pid true)]> (ipc_chans s)))))).
Proof.
  intros Ht Hn. assert (create_named name pid s =
    ('found ← find_by_name name;
     match found with
     | Some _ => fail Exist
     | None => id ← create pid; ch ← chan_at id;
               let nlen := Z.min (len name) 31 in
               src ← lift (slice name 0 nlen); nm ← lift (put (ch_name ch) 0 nlen src);
               chan_set id (set_name nm (w8 nlen) ch);; mret id
     end) s) as ->.
  { unfold create_named, CHAN_NAME_MAX.
    rewrite (proj2 (Z.eqb_neq (len name) 0)), (proj2 (Z.ltb_ge (32 - 1) (len name))) by lia. done. }
  destruct (find_by_name_spec name s Ht) as [[Hf _]|(n & c & Hf & _)]; cycle 1.
  { left. exists (Z.of_nat n). split; [done|]. by rewrite (sm_bind_ok _ _ _ _ _ Hf). }
  right. split; [done|]. rewrite (sm_bind_ok _ _ _ _ _ Hf).
  destruct (create_spec pid s Ht) as [[Hc Hu]|(n & c & Hn' & Hu & Hc)].
  { left. split; [|done]. unfold mbind, SM_bind. by rewrite Hc. }
  right. exists n, c. split_and!; [done|done|].
  rewrite (sm_bind_ok _ _ _ _ _ Hc).
  pose proof (lookup_lt_Some _ _ _ Hn') as Hlt.
  assert ((<[n:=Channel_fresh pid true]> (ipc_chans s)) !! n = Some (Channel_fresh pid true)) as Hat
    by (by apply list_lookup_insert_eq).
  erewrite sm_bind_ok; [|apply chan_at_ok; [lia|]; rewrite Nat2Z.id; exact Hat].
  cbv zeta. rewrite Z.min_l by lia. rewrite slice_ok, lift_bind by lia.
  assert (len (ch_name (Channel_fresh pid true)) = 32) as H32 by done.
  rewrite Z.sub_0_r, rd_all, put_ok, lift_bind by lia.
  destruct (chan_set_safe (mkIpc (ipc_k s) (<[n:=Channel_fresh pid true]> (ipc_chans s))) n
              (Channel_fresh pid true) (with_name name (Channel_fresh pid true)))
    as [Hset _]; [by apply table_insert, chan_fresh_ok|done|by apply with_name_ok|].
  unfold w8. rewrite Z.mod_small by lia. erewrite sm_bind_ok by exact Hset. simpl.
  by rewrite list_insert_insert_eq.
Qed.

Lemma first_chan_insert f chs n c c' i :
  chs !! n = Some c → f c' = f c → first_chan f i (<[n := c']> chs) = first_chan f i chs.
Proof.
  revert n i. induction chs as [|a chs IH]; intros [|n] i Hn Hf; simpl in *; try done.
  - injection Hn as ->. by rewrite Hf.
  - destruct (f a) as [[]| |]; simpl; try done. by apply IH.
Qed.

Lemma find_insert name s n c c' :
  ipc_chans s !! n = Some c → has_name name c' = has_name name c →
  (find_by_name name (mkIpc (ipc_k s) (<[n := c']> (ipc_chans s)))).1 = (find_by_name name s).1.
Proof.
  intros Hn Hf. unfold find_by_name, mbind, SM_bind, gets, lift. simpl.
  by erewrite first_chan_insert.
Qed.

Lemma safe_create pid s : table_ok (ipc_chans s) → safe (create pid) s.
Proof.
  intros Ht. unfold safe. destruct (create_spec pid s Ht) as [[-> _]|(n & c & _ & _ & ->)]; [done|].
  by apply table_insert, chan_fresh_ok.
Qed.

Lemma safe_create_named name pid s : table_ok (ipc_chans s) → safe (create_named name pid) s.
Proof.
  intros Ht. destruct (decide (0 < len name ≤ 31)) as [Hn|Hn]; unfold safe.
  - destruct (create_named_spec name pid s Ht Hn)
      as [(n & _ & ->)|(_ & [[-> _]|(n & c & _ & _ & ->)])]; [done..|].
    by apply table_insert, with_name_ok.
  - unfold create_named, CHAN_NAME_MAX. pose proof (len_nonneg name).
    replace ((len name =? 0) || (32 - 1 <? len name)) with true; [done|].
    symmetry. apply orb_true_iff. rewrite Z.eqb_eq, Z.ltb_lt. lia.
Qed.

(** Changing the client list keeps a channel well formed. *)
Lemma set_clients_ok ch cl n :
  chan_ok ch → len cl = 4 → 0 ≤ n ≤ 4 → chan_ok (set_clients cl n ch).
Proof. intros [[] _ _ ? ?] ? ?. constructor; [constructor|..]; done. Qed.

Lemma safe_push s n ch pid :
  table_ok (ipc_chans s) → ipc_chans s !! n = Some ch → ch_num_clients ch < 4 →
  ∃ c, push_client (Z.of_nat n) ch pid s =
         (Ok tt, mkIpc (ipc_k s) (<[n := c]> (ipc_chans s))) ∧ chan_ok c.
Proof.
  intros Ht Hn Hlt. pose proof (Forall_lookup_1 _ _ _ _ (proj2 Ht) Hn) as Hok.
  destruct Hok as [Hr Hcl Hnc Hnm Hnl] eqn:E. clear E.
  set (c := set_clients (<[Z.to_nat (ch_num_clients ch) := pid]> (ch_clients ch))
              (ch_num_clients ch + 1) ch).
  assert (chan_ok c) as Hc.
  { apply set_clients_ok; [by eapply (Forall_lookup_1 _ _ _ _ (proj2 Ht) Hn)|by rewrite len_insert|lia]. }
  exists c. split; [|done]. unfold push_client. rewrite set_idx_ok, lift_bind by lia.
  unfold w32. rewrite Z.mod_small by lia. by apply (chan_set_safe s n ch c).
Qed.

Lemma table_lookup chs i : table_ok chs → 0 ≤ i < 32 → ∃ ch, chs !! Z.to_nat i = Some ch ∧ chan_ok ch.
Proof.
  intros [Hl Hf] Hi. destruct (idx_Some chs i) as [ch Hch]; [lia|]. exists ch.
  split; [done|]. by eapply Forall_lookup_1.
Qed.

Lemma safe_open name pid s : table_ok (ipc_chans s) → safe (open_by_name name pid) s.
Proof.
  intros Ht. unfold safe, open_by_name.
  destruct (find_by_name_spec name s Ht) as [[Hf _]|(n & ch & Hf & Hn & _)];
    rewrite (sm_bind_ok _ _ _ _ _ Hf); [done|].
  erewrite sm_bind_ok; [|apply chan_at_ok; [lia|]; rewrite Nat2Z.id; exact Hn].
  unfold CHAN_MAX_CLIENTS. case_if E; [done|]. bool_prop.
  pose proof (Forall_lookup_1 _ _ _ _ (proj2 Ht) Hn) as Hok.
  rewrite is_client_spec, lift_bind by done. case_if E'; [done|].
  destruct (safe_push s n ch pid Ht Hn E) as (c & Hp & Hc). rewrite (sm_bind_ok _ _ _ _ _ Hp).
  by apply table_insert.
Qed.

Lemma safe_connect id pid s : table_ok (ipc_chans s) → 0 ≤ id → safe (connect id pid) s.
Proof.
  intros Ht Hid. unfold safe, connect, CHAN_MAX, CHAN_MAX_CLIENTS. case_if E; [done|]. bool_prop.
  destruct (table_lookup _ id Ht) as (ch & Hch & Hok); [lia|].
  rewrite (sm_bind_ok _ _ _ _ _ (chan_at_ok id ch s Hid Hch)).
  case_if E1; [done|]. case_if E2; [done|]. bool_prop.
  destruct (safe_push s (Z.to_nat id) ch pid Ht Hch E2) as (c & Hp & Hc).
  rewrite Z2Nat.id in Hp by done. rewrite Hp. by apply table_insert.
Qed.

Lemma safe_close id s : table_ok (ipc_chans s) → 0 ≤ id → safe (close id) s.
Proof.
  intros Ht Hid. unfold safe, close, CHAN_MAX. case_if E; [done|]. bool_prop.
  destruct (table_lookup _ id Ht) as (ch & Hch & Hok); [lia|].
  rewrite (sm_bind_ok _ _ _ _ _ (chan_at_ok id ch s Hid Hch)). case_if E1; [done|].
  rewrite (chan_set_ok id ch) by done. apply table_insert; [done|].
  destruct Hok as [[] ? ? ? ?]. constructor; [constructor|..]; done.
Qed.

Lemma disconnect_loop_spec n i ch pid :
  chan_ok ch → 0 ≤ i → i + Z.of_nat n = ch_num_clients ch →
  ∃ ch', disconnect_loop n i ch pid = Ok ch' ∧ chan_ok ch'.
Proof.
  intros Hok. revert i. induction n as [|n IH]; intros i Hi Hn; simpl; [by exists ch|].
  pose proof (co_clients _ Hok) as Hcl. pose proof (co_num _ Hok) as Hnum.
  destruct (idx_Some (ch_clients ch) i) as [x Hx]; [lia|]. rewrite (idx_ok _ _ _ Hx) by done. simpl.
  case_if E; [|apply IH; lia].
  destruct (idx_Some (ch_clients ch) (ch_num_clients ch - 1)) as [y Hy]; [lia|].
  rewrite (idx_ok _ _ _ Hy) by lia. simpl. rewrite set_idx_ok by lia. simpl.
  eexists. split; [done|]. unfold w32. rewrite Z.mod_small by lia.
  apply set_clients_ok; [done|by rewrite len_insert|lia].
Qed.

Lemma safe_disconnect id pid s : table_ok (ipc_chans s) → 0 ≤ id → safe (disconnect id pid) s.
Proof.
  intros Ht Hid. unfold safe, disconnect, CHAN_MAX. case_if E; [done|]. bool_prop.
  destruct (table_lookup _ id Ht) as (ch & Hch & Hok); [lia|].
  rewrite (sm_bind_ok _ _ _ _ _ (chan_at_ok id ch s Hid Hch)). case_if E1; [done|].
  pose proof (co_num _ Hok).
  destruct (disconnect_loop_spec (Z.to_nat (ch_num_clients ch)) 0 ch pid Hok) as (c & -> & Hc); [lia..|].
  rewrite lift_bind, (chan_set_ok id ch) by done. by apply table_insert.
Qed.

(** Waking changes neither the queue links nor the queues. *)
Lemma inv_wake k Q ws : rq_inv k Q → rq_inv (set_g_procs (wake ws (g_procs k)) k) Q.
Proof.
  revert k. induction ws as [|p ws IH]; intros k Hinv; [by destruct k|].
  change (rq_inv (set_g_procs (wake ws (alter awake p (g_procs k))) k) Q).
  destruct (g_procs k !! p) as [x|] eqn:Hx.
  - rewrite (alter_as_insert _ awake _ _ Hx).
    pose proof (IH _ (inv_update k Q p x (awake x) Hinv Hx eq_refl eq_refl)) as H. exact H.
  - rewrite alter_id'; [|done]. by apply IH.
Qed.

Lemma inv_resched k Q v : rq_inv k Q → rq_inv (set_g_need_resched v k) Q.
Proof. intros []. by constructor. Qed.

Module IpcTheorems.

Definition demo_ipc : Ipc :=
  mkIpc SchedTheorems.demo (Channel_fresh 1 true :: replicate 31 (Channel_fresh 0 false)).

Lemma demo_caller : caller demo_ipc 0 1 0 (Channel_fresh 1 true).
Proof. constructor; [done|lia|done|apply chan_fresh_ok]. Qed.

Lemma demo_usable : usable demo_ipc 0 1 0 (Channel_fresh 1 true).
Proof. by constructor; [apply demo_caller|..]. Qed.

Lemma demo_table : table_ok (ipc_chans demo_ipc).
Proof.
  split; [done|]. apply Forall_cons. split; [apply chan_fresh_ok|].
  apply Forall_replicate, chan_fresh_ok.
Qed.

(** C13. A channel is a lossless FIFO byte stream: over any sequence of
    non-blocking sends and receives on it, the bytes accepted are delivered
    completely, once and in order; what is not delivered yet is still in the
    ring.  This holds across every wrap of the ring and of its 32-bit
    counters. *)
Theorem channel_stream_integrity s hart pid i ch ops :
  usable s hart pid i ch → Forall op_ok ops →
  ∃ ch', let '(accepted, delivered, s') := chan_run hart i ops s in
    usable s' hart pid i ch' ∧ pending ch ++ accepted = delivered ++ pending ch'.
Proof. apply chan_run_spec. Qed.

Lemma channel_stream_integrity_witness :
  ∃ ch', let '(accepted, delivered, s') :=
           chan_run 0 0 [OpSend [1; 2; 3]; OpRecv 2; OpSend [4]; OpRecv 9] demo_ipc in
    usable s' 0 1 0 ch' ∧ [] ++ accepted = delivered ++ pending ch'.
Proof.
  apply (channel_stream_integrity demo_ipc 0 1 0 (Channel_fresh 1 true)).
  - apply demo_usable.
  - repeat constructor; done.
Defined.

(** A call that is refused has no effect: a closed or freed channel gives
    EPIPE and a process that is neither the owner nor a client gets EPERM, for
    sending and receiving, blocking or not; a message that does not fit is
    refused with EBUSY as a whole, never sent in part. *)
Theorem channel_refusals s hart pid i ch src n tf :
  caller s hart pid i ch →
  (ch_used ch = false ∨ ch_closed ch = true →
     send hart i src tf s = (Err Pipe, s) ∧ recv hart i n tf s = (Err Pipe, s)) ∧
  (ch_used ch = true → ch_closed ch = false → ¬ allowed ch pid →
     send hart i src tf s = (Err Perm, s) ∧ recv hart i n tf s = (Err Perm, s)) ∧
  (ch_used ch = true → ch_closed ch = false → allowed ch pid →
     4096 < len (pending ch) + len src → send hart i src None s = (Err Busy, s)).
Proof.
  intros Hcall. split; [|split].
  - intros Hcl. eapply call_denied; [done|]. unfold guard_error.
    by destruct Hcl as [-> | ->]; [|rewrite orb_true_r].
  - intros Hu Hcl Ha. eapply call_denied; [done|]. unfold guard_error.
    by rewrite Hu, Hcl, bool_decide_eq_false_2.
  - intros Hu Hcl Ha Hn. eapply send_full; [done| |done]. unfold guard_error.
    by rewrite Hu, Hcl, bool_decide_eq_true_2.
Qed.

Lemma channel_refusals_witness :
  send 0 0 (replicate 4097 7) None demo_ipc = (Err Busy, demo_ipc).
Proof.
  refine (proj2 (proj2 (channel_refusals demo_ipc 0 1 0 (Channel_fresh 1 true) (replicate 4097 7) 0
    None demo_caller)) eq_refl eq_refl _ _).
  - by left.
  - vm_compute. done.
Defined.

(** The processes blocked on a channel are woken by the opposite call in
    state only: they become [Ready] and leave the wait list, but they enter no
    run queue, so that no later yield can pick them. *)
Theorem woken_not_queued s hart pid i ch src ws Q :
  caller s hart pid i ch → guard_error ch pid = None → 0 ≤ hart < 8 →
  length (g_need_resched (ipc_k s)) = 8%nat →
  rq_inv (ipc_k s) Q → NoDup ws → waiting (g_procs (ipc_k s)) ws →
  ch_recv_wait ch = hd0 ws → len (pending ch) + len src ≤ 4096 →
  (∀ p, p ∈ ws → p ∉ concat Q) →
  ∃ s', send hart i src None s = (Ok (Reply (len src)), s') ∧
    rq_inv (ipc_k s') Q ∧
    (∀ p, p ∈ ws → p ∉ concat Q ∧
       ∃ x, g_procs (ipc_k s') !! p = Some x ∧ p_state x = Ready ∧ p_wait_next x = 0).
Proof.
  intros Hcall Hfree Hh Hr Hinv Hnd Hws Hhd Hn Hq.
  destruct (send_spec s hart pid i ch Hcall Hfree ws Hnd Hws Hr Hh src None Hhd Hn)
    as (ch' & Hs & _). eexists. split; [exact Hs|]. unfold after. destruct ws as [|p0 ws'] eqn:E.
  { split; [done|]. intros p Hp. by apply elem_of_nil in Hp. }
  rewrite <- E in *. split; [by apply inv_resched, inv_wake|]. intros p Hp. split; [by apply Hq|].
  destruct (waiting_dom _ _ p Hws Hp) as [x Hx]. exists (awake x). simpl.
  rewrite wake_lookup, decide_True, Hx by done. done.
Qed.

(** 100 runs; 300 waits for a message on channel 0. *)
Definition sleepy : Ipc :=
  mkIpc (SchedTheorems.machine
           (<[100 := SchedTheorems.runner (-1)]> {[300 := set_p_state Waiting Proc_new]})
           SchedTheorems.idle_rq)
    (set_recv_wait 300 (Channel_fresh 1 true) :: replicate 31 (Channel_fresh 0 false)).

Lemma sleepy_inv : rq_inv (ipc_k sleepy) (replicate 8 []).
Proof.
  constructor; [done| |constructor| |done].
  - simpl. repeat constructor; done.
  - intros p x Hx Hon. simpl in Hx. apply lookup_insert_Some in Hx as [[<- <-]|[_ Hx]]; [done|].
    by apply lookup_singleton_Some in Hx as [<- <-].
Qed.

Lemma woken_not_queued_witness :
  ∃ s', send 0 0 [5] None sleepy = (Ok (Reply 1), s') ∧ rq_inv (ipc_k s') (replicate 8 []) ∧
    (∀ p, p ∈ [300] → p ∉ concat (replicate 8 []) ∧
       ∃ x, g_procs (ipc_k s') !! p = Some x ∧ p_state x = Ready ∧ p_wait_next x = 0).
Proof.
  apply (woken_not_queued sleepy 0 1 0 (set_recv_wait 300 (Channel_fresh 1 true)) [5] [300]
           (replicate 8 [])).
  - constructor; [done|lia|done|]. constructor; [constructor|..]; done.
  - done.
  - lia.
  - done.
  - apply sleepy_inv.
  - apply NoDup_singleton.
  - simpl. split; [done|]. split; [|done]. by eexists.
  - done.
  - vm_compute. done.
  - intros p _. by apply not_elem_of_nil.
Defined.

(** The name registry: creating a channel under a valid name succeeds only
    if the name is free and a slot is left, and from then on looking the name up
    finds the new channel; it does not change what any other name resolves to.
    A refused creation changes nothing. *)
Theorem create_named_registers name pid s :
  table_ok (ipc_chans s) → 0 < len name ≤ 31 →
  match create_named name pid s with
  | (Ok id, s') =>
      find_by_name name s = (Ok None, s) ∧ find_by_name name s' = (Ok (Some id), s') ∧
      ∀ name', name' ≠ name → name' ≠ [] → (find_by_name name' s').1 = (find_by_name name' s).1
  | (Err Exist, s') => s' = s ∧ ∃ id, find_by_name name s = (Ok (Some id), s)
  | (Err NoMem, s') => s' = s ∧ Forall (λ c, ch_used c = true) (ipc_chans s)
  | _ => False
  end.
Proof.
  intros Ht Hn. destruct (create_named_spec name pid s Ht Hn)
    as [(n & Hf & ->)|(Hf & [[-> Hu]|(n & c & Hc & Hu & ->)])]; [by eauto|done|].
  split; [done|]. pose proof (with_name_ok name pid Hn) as Hok.
  set (c' := with_name name (Channel_fresh pid true)) in *.
  set (s' := mkIpc (ipc_k s) (<[n := c']> (ipc_chans s))).
  assert (ipc_chans s' !! n = Some c') as Hc'
    by (apply list_lookup_insert_eq; by eapply lookup_lt_Some).
  split.
  - destruct (find_by_name_spec name s) as [[_ Hall]|(? & ? & Hf' & _)]; [done| |congruence].
    destruct (find_by_name_spec name s') as [[_ Hall']|(m & d & Hf' & Hm & Hd & _)];
      [by apply table_insert| |].
    + pose proof (Forall_lookup_1 _ _ _ _ Hall' Hc') as E. simpl in E.
      unfold c' in E. rewrite named_with_name, bool_decide_eq_true_2 in E by done. done.
    + rewrite Hf'. do 3 f_equal. f_equal. destruct (decide (m = n)) as [->|Hne]; [done|].
      simpl in Hm. rewrite list_lookup_insert_ne in Hm by done.
      pose proof (Forall_lookup_1 _ _ _ _ Hall Hm) as E. simpl in E. congruence.
  - intros name' Hne Hne0. apply (find_insert name' s n c c' Hc).
    rewrite !has_name_spec; [|by eapply Forall_lookup_1; [apply Ht|]|done].
    unfold c'. rewrite named_with_name, bool_decide_eq_false_2 by congruence.
    unfold named. by rewrite Hu.
Qed.

Lemma create_named_registers_witness :
  match create_named [97; 98] 7 demo_ipc with
  | (Ok id, s') =>
      find_by_name [97; 98] demo_ipc = (Ok None, demo_ipc) ∧
      find_by_name [97; 98] s' = (Ok (Some id), s') ∧
      ∀ name', name' ≠ [97; 98] → name' ≠ [] →
        (find_by_name name' s').1 = (find_by_name name' demo_ipc).1
  | (Err Exist, s') => s' = demo_ipc ∧ ∃ id, find_by_name [97; 98] demo_ipc = (Ok (Some id), demo_ipc)
  | (Err NoMem, s') => s' = demo_ipc ∧ Forall (λ c, ch_used c = true) (ipc_chans demo_ipc)
  | _ => False
  end.
Proof. apply (create_named_registers [97; 98] 7 demo_ipc); [apply demo_table|done]. Defined.

(** Whatever the arguments, no operation on the channel table panics, and
    every one of them keeps it well formed: 32 channels, each with a ring of
    4096 bytes holding at most that many, at most four clients and a name that
    fits. *)
Theorem channel_table_invariant s name id pid :
  table_ok (ipc_chans s) → 0 ≤ id →
  safe (create pid) s ∧ safe (create_named name pid) s ∧ safe (open_by_name name pid) s ∧
  safe (connect id pid) s ∧ safe (disconnect id pid) s ∧ safe (close id) s.
Proof.
  intros Ht Hid. split_and!; [by apply safe_create|by apply safe_create_named|by apply safe_open
    |by apply safe_connect|by apply safe_disconnect|by apply safe_close].
Qed.

Lemma channel_table_invariant_witness :
  safe (create 7) demo_ipc ∧ safe (create_named [97] 7) demo_ipc ∧ safe (open_by_name [97] 7) demo_ipc ∧
  safe (connect 0 7) demo_ipc ∧ safe (disconnect 0 7) demo_ipc ∧ safe (close 0) demo_ipc.
Proof. apply (channel_table_invariant demo_ipc [97] 0 7); [apply demo_table|done]. Defined.

End IpcTheorems.
