(* ===== verification/Pmm.v ===== *)
(** * kernel/src/mm/pmm: the physical page allocator and the slab pools

    The bitmap is a list of bytes, one bit per page.  Of the memory the pages
    hold, the model keeps what the code reads back: the slab header at the start
    of a page ([pm_slabs], by page address); zeroing a page removes it.  A byte
    outside the bitmap is [Panic]. *)

From S2P Require Import Prelude.
From stdpp Require Import base list numbers gmap.
From Stdlib Require Import ZArith Lia.

Open Scope Z_scope.

Definition PAGE_SIZE : Z := 4096.
Definition KERNEL_HEAP_RESERVE : Z := 4 * 1024 * 1024.
Definition SLAB_SIZES : list Z := [64; 256; 1024].
Definition SLAB_MAGIC : Z := 0x534C4142.

Record SlabHeader := mkSlabHeader {
  sl_magic : Z; sl_size_idx : Z; sl_free_bits : Z; sl_capacity : Z; sl_free_count : Z;
  sl_next : Z }.

Record Pmm := mkPmm {
  pm_base : Z; pm_total_pages : Z; pm_free_pages : Z; pm_bitmap : list Z;
  pm_slab_heads : list Z; pm_slabs : gmap Z SlabHeader }.

Definition set_bitmap (bm : list Z) (free : Z) (p : Pmm) : Pmm :=
  mkPmm (pm_base p) (pm_total_pages p) free bm (pm_slab_heads p) (pm_slabs p).
Definition set_slab_heads (h : list Z) (p : Pmm) : Pmm :=
  mkPmm (pm_base p) (pm_total_pages p) (pm_free_pages p) (pm_bitmap p) h (pm_slabs p).
Definition set_slabs (s : gmap Z SlabHeader) (p : Pmm) : Pmm :=
  mkPmm (pm_base p) (pm_total_pages p) (pm_free_pages p) (pm_bitmap p) (pm_slab_heads p) s.

Abbreviation PM := (SM Pmm).

(** ** bitmap.rs *)

Definition bm_get (bit : Z) : PM bool := λ p,
  match idx (pm_bitmap p) (bit / 8) with
  | Ok b => (Ok (negb (Z.land b (Z.shiftl 1 (bit mod 8)) =? 0)), p)
  | _ => (Panic, p)
  end.

Definition bm_set (bit : Z) : PM unit := λ p,
  match idx (pm_bitmap p) (bit / 8) with
  | Ok b =>
      (Ok tt, set_bitmap (<[Z.to_nat (bit / 8) := Z.lor b (Z.shiftl 1 (bit mod 8))]> (pm_bitmap p))
                (w64 (pm_free_pages p - 1)) p)
  | _ => (Panic, p)
  end.

Definition bm_clr (bit : Z) : PM unit := λ p,
  match idx (pm_bitmap p) (bit / 8) with
  | Ok b =>
      (Ok tt, set_bitmap (<[Z.to_nat (bit / 8) :=
                             Z.land b (Z.lxor 255 (Z.shiftl 1 (bit mod 8)))]> (pm_bitmap p))
                (w64 (pm_free_pages p + 1)) p)
  | _ => (Panic, p)
  end.

Definition pa_to_idx (p : Pmm) (pa : Z) : Z := w64 (pa - pm_base p) / PAGE_SIZE.
Definition idx_to_pa (p : Pmm) (i : Z) : Z := w64 (pm_base p + w64 (i * PAGE_SIZE)).

(** [ptr::write_bytes(pa, 0, PAGE_SIZE)] *)
Definition zero_page (pa : Z) : PM unit := modify (λ p, set_slabs (delete pa (pm_slabs p)) p).

(** [while i < total], [n] iterations before the end. *)
Fixpoint alloc_loop (n : nat) (i : Z) : PM Z :=
  match n with
  | O => fail NoMem
  | S n =>
      used ← bm_get i;
      if negb used then
        bm_set i;;
        pa ← gets (λ p, idx_to_pa p i);
        zero_page pa;;
        mret pa
      else alloc_loop n (i + 1)
  end.

Definition alloc : PM Z := n ← gets pm_total_pages; alloc_loop (Z.to_nat n) 0.

(** [for k in k0..k0+n { bm_set(k) }] *)
Fixpoint set_run (n : nat) (k : Z) : PM unit :=
  match n with
  | O => mret tt
  | S n => bm_set k;; set_run n (k + 1)
  end.

Fixpoint alloc_n_loop (rem : nat) (n i run start : Z) : PM Z :=
  match rem with
  | O => fail NoMem
  | S rem =>
      used ← bm_get i;
      if negb used then
        let start := if run =? 0 then i else start in
        let run := run + 1 in
        if run =? n then
          set_run (Z.to_nat n) start;;
          gets (λ p, idx_to_pa p start)
        else alloc_n_loop rem n (i + 1) run start
      else alloc_n_loop rem n (i + 1) 0 start
  end.

Definition alloc_n (n : Z) : PM Z :=
  if n =? 0 then fail Inval else
  total ← gets pm_total_pages;
  alloc_n_loop (Z.to_nat total) n 0 0 0.

Definition free (pa : Z) : PM unit :=
  i ← gets (λ p, pa_to_idx p pa);
  total ← gets pm_total_pages;
  if i <? total then
    used ← bm_get i;
    if used : bool then bm_clr i else mret tt
  else mret tt.

Definition alloc_zero : PM Z := alloc.

(** ** mod.rs *)

Definition pmm_init (kernel_end_pa dram_base dram_size : Z) : result Pmm :=
  let heap_end_pa := w64 (kernel_end_pa + KERNEL_HEAP_RESERVE) in
  let managed_base := Z.max heap_end_pa dram_base in
  let managed_base := Z.land (w64 (managed_base + PAGE_SIZE - 1)) (18446744073709551615 - 4095) in
  let managed_end := w64 (dram_base + dram_size) in
  let managed_size := sat_sub managed_end managed_base in
  let pages := managed_size / PAGE_SIZE in
  let bitmap_bytes := div_ceil pages 8 in
  let bitmap_pages := div_ceil bitmap_bytes PAGE_SIZE in
  let data_base := w64 (managed_base + w64 (bitmap_pages * PAGE_SIZE)) in
  let data_pages := sat_sub pages bitmap_pages in
  let p := mkPmm data_base data_pages data_pages (zeros bitmap_bytes) [0; 0; 0] ∅ in
  match set_run (Z.to_nat bitmap_pages) 0 p with
  | (Ok _, p) => Ok p
  | (Err e, _) => Err e
  | (Panic, _) => Panic
  end.

(** ** slab.rs *)

Definition SLAB_HDR : Z := 32.

Fixpoint class_from (i size : Z) (sizes : list Z) : option Z :=
  match sizes with
  | [] => None
  | s :: sizes => if size <=? s then Some i else class_from (i + 1) size sizes
  end.

Definition slab_class_for (size : Z) : option Z := class_from 0 size SLAB_SIZES.

Definition hdr_at (page : Z) : PM SlabHeader := λ p,
  match pm_slabs p !! page with Some h => (Ok h, p) | None => (Panic, p) end.
Definition hdr_set (page : Z) (h : SlabHeader) : PM unit :=
  modify (λ p, set_slabs (<[page := h]> (pm_slabs p)) p).

(** [1u64 << slot] and [!x] on 64 bits. *)
Definition bit64 (slot : Z) : Z := w64 (Z.shiftl 1 (slot mod 64)).
Definition not64 (z : Z) : Z := Z.lxor 18446744073709551615 z.

Definition take_slot (h : SlabHeader) (slot : Z) : SlabHeader :=
  mkSlabHeader (sl_magic h) (sl_size_idx h) (Z.land (sl_free_bits h) (not64 (bit64 slot)))
    (sl_capacity h) (w32 (sl_free_count h - 1)) (sl_next h).

(** [while slot < hdr.capacity]: the first free slot. *)
Fixpoint slot_loop (n : nat) (slot : Z) (h : SlabHeader) : option Z :=
  match n with
  | O => None
  | S n =>
      if negb (Z.land (sl_free_bits h) (bit64 slot) =? 0) then Some slot
      else slot_loop n (slot + 1) h
  end.

(** The first page of the class with a free slot takes the object. *)
Fixpoint page_loop (fuel : nat) (obj_size page : Z) : PM (option Z) :=
  match fuel with
  | O => panic
  | S fuel =>
      if page =? 0 then mret None else
      h ← hdr_at page;
      if 0 <? sl_free_count h then
        match slot_loop (Z.to_nat (sl_capacity h)) 0 h with
        | Some slot =>
            hdr_set page (take_slot h slot);;
            mret (Some (w64 (page + SLAB_HDR + slot * obj_size)))
        | None => page_loop fuel obj_size (sl_next h)
        end
      else page_loop fuel obj_size (sl_next h)
  end.

Definition slab_fuel (p : Pmm) : nat := S (size (pm_slabs p)).

(** [alloc().ok()?] *)
Definition alloc_ok : PM (option Z) := λ p,
  match alloc p with
  | (Ok pa, p) => (Ok (Some pa), p)
  | (Err _, p) => (Ok None, p)
  | (Panic, p) => (Panic, p)
  end.

Definition new_slab (class obj_size : Z) : PM (option Z) :=
  r ← alloc_ok;
  match r with
  | None => mret None
  | Some new_page =>
      let capacity := w32 ((PAGE_SIZE - SLAB_HDR) / obj_size) in
      let all_free := if capacity =? 64 then 18446744073709551615 else bit64 capacity - 1 in
      heads ← gets pm_slab_heads;
      next ← lift (idx heads class);
      heads ← lift (set_idx heads class new_page);
      modify (set_slab_heads heads);;
      hdr_set new_page
        (mkSlabHeader SLAB_MAGIC class (Z.land all_free (not64 1)) capacity (w32 (capacity - 1)) next);;
      mret (Some (w64 (new_page + SLAB_HDR)))
  end.

Definition slab_alloc (size : Z) : PM (option Z) :=
  match slab_class_for size with
  | None => mret None
  | Some class =>
      obj_size ← lift (idx SLAB_SIZES class);
      if PAGE_SIZE - SLAB_HDR <? obj_size then mret None else
      heads ← gets pm_slab_heads;
      head ← lift (idx heads class);
      fuel ← gets slab_fuel;
      r ← page_loop fuel obj_size head;
      match r with
      | Some _ => mret r
      | None => new_slab class obj_size
      end
  end.

(** Unlink [page] from its class list. *)
Fixpoint unlink_loop (fuel : nat) (class page prev cur : Z) : PM unit :=
  match fuel with
  | O => panic
  | S fuel =>
      if cur =? 0 then mret tt else
      h ← hdr_at cur;
      if cur =? page then
        if prev =? 0 then
          heads ← gets pm_slab_heads;
          heads ← lift (set_idx heads class (sl_next h));
          modify (set_slab_heads heads)
        else
          hp ← hdr_at prev;
          hdr_set prev (mkSlabHeader (sl_magic hp) (sl_size_idx hp) (sl_free_bits hp)
                          (sl_capacity hp) (sl_free_count hp) (sl_next h))
      else unlink_loop fuel class page cur (sl_next h)
  end.

(** [pm_slabs] holds the pages that [slab_alloc] made slabs of.  The source goes by the
    first word of the page instead: a page that is not a slab but begins with
    [SLAB_MAGIC], such as a block of the heap with that content, is taken for one there. *)
Definition slab_free (ptr : Z) : PM bool :=
  let page := Z.land ptr (18446744073709551615 - 4095) in
  if page =? 0 then mret false else
  slabs ← gets pm_slabs;
  match slabs !! page with
  | None => mret false
  | Some h =>
      if negb (sl_magic h =? SLAB_MAGIC) then mret false else
      obj_size ← lift (idx SLAB_SIZES (sl_size_idx h));
      let offset := w64 (ptr - page - SLAB_HDR) in
      if negb (offset mod obj_size =? 0) then mret false else
      let slot := w32 (offset / obj_size) in
      if sl_capacity h <=? slot then mret false else
      let h := mkSlabHeader (sl_magic h) (sl_size_idx h) (Z.lor (sl_free_bits h) (bit64 slot))
                 (sl_capacity h) (w32 (sl_free_count h + 1)) (sl_next h) in
      hdr_set page h;;
      (if sl_free_count h =? sl_capacity h then
         heads ← gets pm_slab_heads;
         cur ← lift (idx heads (sl_size_idx h));
         fuel ← gets slab_fuel;
         unlink_loop fuel (sl_size_idx h) page 0 cur;;
         free page
       else mret tt);;
      mret true
  end.
