(* ===== verification/PmmProps.v ===== *)
(** * The page allocator implements a table of page flags

    [pmm_rep p l]: the allocator [p] represents the flags [l], one per managed
    page ([true] = in use), and its free counter is exact. *)

From S2P Require Import Prelude Pmm.
From stdpp Require Import base list numbers gmap.
From Stdlib Require Import ZArith Lia.

Open Scope Z_scope.

(** ** Bits *)

Definition bit_of (bm : list Z) (i : Z) : bool :=
  Z.testbit (nth (Z.to_nat (i / 8)) bm 0) (i mod 8).

Lemma testbit_lor_bit b k j :
  0 ≤ k → 0 ≤ j → Z.testbit (Z.lor b (Z.shiftl 1 k)) j = Z.testbit b j || (k =? j).
Proof. intros. by rewrite Z.lor_spec, Z.shiftl_1_l, Z.pow2_bits_eqb. Qed.

Lemma testbit_255 j : 0 ≤ j < 8 → Z.testbit 255 j = true.
Proof.
  intros Hj. assert (j = 0 ∨ j = 1 ∨ j = 2 ∨ j = 3 ∨ j = 4 ∨ j = 5 ∨ j = 6 ∨ j = 7) as H by lia.
  by repeat destruct H as [-> | H]; [..|subst].
Qed.

Lemma testbit_clr_bit b k j :
  0 ≤ k → 0 ≤ j < 8 →
  Z.testbit (Z.land b (Z.lxor 255 (Z.shiftl 1 k))) j = Z.testbit b j && negb (k =? j).
Proof.
  intros Hk Hj. rewrite Z.land_spec, Z.lxor_spec, Z.shiftl_1_l, Z.pow2_bits_eqb, testbit_255 by lia.
  by destruct (k =? j).
Qed.

(** Updating one byte, seen bit by bit. *)
Lemma bit_of_update bm i j b v :
  0 ≤ i → 0 ≤ j → bm !! Z.to_nat (i / 8) = Some b →
  (∀ t, 0 ≤ t < 8 → t ≠ i mod 8 → Z.testbit v t = Z.testbit b t) →
  bit_of (<[Z.to_nat (i / 8) := v]> bm) j = if j =? i then Z.testbit v (i mod 8) else bit_of bm j.
Proof.
  intros Hi Hj Hb Hv. unfold bit_of. pose proof (lookup_lt_Some _ _ _ Hb) as Hlt.
  pose proof (Z.div_mod i 8). pose proof (Z.div_mod j 8).
  pose proof (Z.mod_pos_bound j 8). pose proof (Z.mod_pos_bound i 8).
  pose proof (Z.div_pos i 8). pose proof (Z.div_pos j 8).
  rewrite !nth_lookup. destruct (Z.eqb_spec j i) as [->|Hne].
  { by rewrite list_lookup_insert_eq. }
  destruct (decide (j / 8 = i / 8)) as [E|E].
  - rewrite E, list_lookup_insert_eq, Hb by done. simpl. apply Hv; lia.
  - rewrite list_lookup_insert_ne; [done|]. lia.
Qed.

(** ** Representation *)

Definition free_count (l : list bool) : Z := len (filter (λ b, b = false) l).

Record pmm_rep (p : Pmm) (l : list bool) : Prop := {
  pr_total : pm_total_pages p = len l;
  pr_room : len l ≤ 8 * len (pm_bitmap p);
  pr_bits : ∀ i b, l !! i = Some b → bit_of (pm_bitmap p) (Z.of_nat i) = b;
  pr_free : pm_free_pages p = free_count l;
  pr_base : 0 ≤ pm_base p;
  pr_end : pm_base p + 4096 * len l < 18446744073709551616 }.

Lemma free_count_take l i :
  l !! i = Some false → free_count (<[i := true]> l) = free_count l - 1.
Proof.
  unfold free_count, len. revert i. induction l as [|b l IH]; intros [|i] Hi; simpl in *; try done.
  - injection Hi as ->. rewrite !filter_cons. simpl. lia.
  - rewrite !filter_cons. destruct (decide (b = false)); simpl; specialize (IH i Hi); lia.
Qed.

Lemma free_count_give l i :
  l !! i = Some true → free_count (<[i := false]> l) = free_count l + 1.
Proof.
  unfold free_count, len. revert i. induction l as [|b l IH]; intros [|i] Hi; simpl in *; try done.
  - injection Hi as ->. rewrite !filter_cons. simpl. lia.
  - rewrite !filter_cons. destruct (decide (b = false)); simpl; specialize (IH i Hi); lia.
Qed.

Lemma free_count_fresh n : free_count (replicate n false) = len (replicate n false).
Proof.
  unfold free_count, len. f_equal. induction n as [|n IH]; [done|]. cbn [replicate].
  rewrite filter_cons_True by done. cbn [length]. by rewrite IH.
Qed.

Lemma free_count_bound l : 0 ≤ free_count l ≤ len l.
Proof. unfold free_count, len. pose proof (length_filter (λ b, b = false) l). lia. Qed.

(** A page taken or given back. *)
Definition flagged (p : Pmm) (l : list bool) (i : Z) (b : bool) (p' : Pmm) : Prop :=
  pmm_rep p' (<[Z.to_nat i := b]> l) ∧ pm_base p' = pm_base p ∧ pm_total_pages p' = pm_total_pages p ∧
  pm_slab_heads p' = pm_slab_heads p ∧ pm_slabs p' = pm_slabs p.

Section Bits.
Context (p : Pmm) (l : list bool) (Hrep : pmm_rep p l) (i : Z) (Hi : 0 ≤ i).

Lemma byte_at b : l !! Z.to_nat i = Some b →
  ∃ x, idx (pm_bitmap p) (i / 8) = Ok x ∧ pm_bitmap p !! Z.to_nat (i / 8) = Some x ∧
       Z.testbit x (i mod 8) = b.
Proof using Hrep Hi.
  intros Hl. pose proof (lookup_lt_Some _ _ _ Hl) as Hlt. pose proof (pr_room _ _ Hrep) as Hr.
  pose proof (Z.div_mod i 8). pose proof (Z.mod_pos_bound i 8). pose proof (Z.div_pos i 8).
  destruct (idx_Some (pm_bitmap p) (i / 8)) as [x Hx]; [unfold len in *; lia|].
  exists x. split; [apply idx_ok; [done|lia]|]. split; [done|].
  pose proof (pr_bits _ _ Hrep _ _ Hl) as Hb. rewrite Z2Nat.id in Hb by done.
  unfold bit_of in Hb. by rewrite nth_lookup, Hx in Hb.
Qed.

Lemma bm_get_spec b : l !! Z.to_nat i = Some b → bm_get i p = (Ok b, p).
Proof using Hrep Hi.
  intros Hl. destruct (byte_at b Hl) as (x & Hx & _ & Hb). unfold bm_get. rewrite Hx.
  rewrite land_bit by (apply Z.mod_pos_bound; lia). by rewrite Hb.
Qed.

(** Writing bit [i] as [b'], whatever byte operation does it. *)
Lemma flag_rep b b' x v fr :
  l !! Z.to_nat i = Some b → pm_bitmap p !! Z.to_nat (i / 8) = Some x →
  Z.testbit v (i mod 8) = b' →
  (∀ t, 0 ≤ t < 8 → t ≠ i mod 8 → Z.testbit v t = Z.testbit x t) →
  fr = free_count (<[Z.to_nat i := b']> l) →
  flagged p l i b' (set_bitmap (<[Z.to_nat (i / 8) := v]> (pm_bitmap p)) fr p).
Proof using Hrep Hi.
  intros Hl Hx Hv Ht ->. destruct Hrep as [H1 H2 H3 H4 H5 H6].
  split; [|done]. constructor; simpl; rewrite ?len_insert; try done.
  intros j c Hj. rewrite (bit_of_update _ i _ x) by (done || lia).
  destruct (Z.eqb_spec (Z.of_nat j) i) as [E|E].
  - assert (j = Z.to_nat i) as -> by lia.
    rewrite list_lookup_insert_eq in Hj by (by eapply lookup_lt_Some). injection Hj as <-. done.
  - rewrite list_lookup_insert_ne in Hj by lia. by apply H3.
Qed.

Lemma bm_set_spec : l !! Z.to_nat i = Some false →
  ∃ p', bm_set i p = (Ok tt, p') ∧ flagged p l i true p'.
Proof using Hrep Hi.
  intros Hl. destruct (byte_at false Hl) as (x & Hx & Hx' & _). unfold bm_set. rewrite Hx.
  eexists. split; [done|]. pose proof (Z.mod_pos_bound i 8 ltac:(lia)).
  eapply flag_rep; [done|done|rewrite testbit_lor_bit, Z.eqb_refl by lia; apply orb_true_r| |].
  - intros t Ht Hne. rewrite testbit_lor_bit by lia.
    rewrite (proj2 (Z.eqb_neq (i mod 8) t)) by lia. apply orb_false_r.
  - rewrite free_count_take, (pr_free _ _ Hrep) by done. unfold w64. apply Z.mod_small.
    pose proof (free_count_bound (<[Z.to_nat i := true]> l)) as Hb.
    rewrite free_count_take, len_insert in Hb by done.
    pose proof (pr_end _ _ Hrep). pose proof (pr_base _ _ Hrep). lia.
Qed.

Lemma bm_clr_spec : l !! Z.to_nat i = Some true →
  ∃ p', bm_clr i p = (Ok tt, p') ∧ flagged p l i false p'.
Proof using Hrep Hi.
  intros Hl. destruct (byte_at true Hl) as (x & Hx & Hx' & _). unfold bm_clr. rewrite Hx.
  eexists. split; [done|]. pose proof (Z.mod_pos_bound i 8 ltac:(lia)).
  eapply flag_rep; [done|done|rewrite testbit_clr_bit, Z.eqb_refl by lia; apply andb_false_r| |].
  - intros t Ht Hne. rewrite testbit_clr_bit by lia.
    rewrite (proj2 (Z.eqb_neq (i mod 8) t)) by lia. apply andb_true_r.
  - rewrite free_count_give, (pr_free _ _ Hrep) by done. unfold w64. apply Z.mod_small.
    pose proof (free_count_bound (<[Z.to_nat i := false]> l)) as Hb.
    rewrite free_count_give, len_insert in Hb by done.
    pose proof (pr_end _ _ Hrep). pose proof (pr_base _ _ Hrep).
    pose proof (free_count_bound l). lia.
Qed.
End Bits.

(** ** Allocation *)

(** Page [i] is the first free one. *)
Definition first_free (l : list bool) (i : nat) : Prop :=
  l !! i = Some false ∧ ∀ j, (j < i)%nat → l !! j = Some true.

Definition page_addr (p : Pmm) (i : nat) : Z := pm_base p + 4096 * Z.of_nat i.

Lemma idx_to_pa_spec p l i :
  pmm_rep p l → (i < length l)%nat → idx_to_pa p (Z.of_nat i) = page_addr p i.
Proof.
  intros Hrep Hi. unfold idx_to_pa, page_addr, PAGE_SIZE, w64.
  pose proof (pr_base _ _ Hrep). pose proof (pr_end _ _ Hrep). unfold len in *.
  rewrite (Z.mod_small (Z.of_nat i * 4096)), Z.mod_small by lia. lia.
Qed.

Lemma pa_to_idx_spec p l i :
  pmm_rep p l → (i < length l)%nat → pa_to_idx p (page_addr p i) = Z.of_nat i.
Proof.
  intros Hrep Hi. unfold pa_to_idx, page_addr, PAGE_SIZE, w64.
  pose proof (pr_base _ _ Hrep). pose proof (pr_end _ _ Hrep). unfold len in *.
  rewrite Z.mod_small by lia.
  replace (pm_base p + 4096 * Z.of_nat i - pm_base p) with (Z.of_nat i * 4096) by lia.
  by rewrite Z.div_mul.
Qed.

Lemma rep_slabs p l s : pmm_rep p l → pmm_rep (set_slabs s p) l.
Proof. intros []. by constructor. Qed.

(** The state after page [i] was allocated and zeroed. *)
Definition allocated (p : Pmm) (l : list bool) (i : nat) (p' : Pmm) : Prop :=
  pmm_rep p' (<[i := true]> l) ∧ pm_base p' = pm_base p ∧
  pm_slab_heads p' = pm_slab_heads p ∧ pm_slabs p' = delete (page_addr p i) (pm_slabs p).

Lemma alloc_loop_spec p l n i :
  pmm_rep p l → (i + n = length l)%nat → (∀ j, (j < i)%nat → l !! j = Some true) →
  (alloc_loop n (Z.of_nat i) p = (Err NoMem, p) ∧ Forall (λ b, b = true) l) ∨
  (∃ j p', first_free l j ∧ alloc_loop n (Z.of_nat i) p = (Ok (page_addr p j), p') ∧
           allocated p l j p').
Proof.
  intros Hrep. revert i. induction n as [|n IH]; intros i Hn Hlt; simpl.
  - left. split; [done|]. apply Forall_lookup. intros j b Hj.
    pose proof (lookup_lt_Some _ _ _ Hj). rewrite Hlt in Hj by lia. congruence.
  - destruct (lookup_lt_is_Some_2 l i) as [b Hb]; [lia|].
    pose proof (bm_get_spec p l Hrep (Z.of_nat i) ltac:(lia) b) as Hg. rewrite Nat2Z.id in Hg.
    rewrite (sm_bind_ok _ _ _ _ _ (Hg Hb)). destruct b; cbn [negb].
    + replace (Z.of_nat i + 1) with (Z.of_nat (S i)) by lia. apply IH; [lia|].
      intros j Hj. destruct (decide (j = i)) as [->|]; [done|]. apply Hlt. lia.
    + right. destruct (bm_set_spec p l Hrep (Z.of_nat i) ltac:(lia)) as (p1 & Hs & Hf);
        [by rewrite Nat2Z.id|]. destruct Hf as (Hr1 & Hb1 & Ht1 & Hh1 & Hs1). rewrite Nat2Z.id in Hr1.
      exists i, (set_slabs (delete (page_addr p i) (pm_slabs p1)) p1). split; [done|]. split.
      * rewrite (sm_bind_ok _ _ _ _ _ Hs). unfold gets, zero_page, modify, mbind, SM_bind, mret, SM_ret.
        assert (idx_to_pa p1 (Z.of_nat i) = page_addr p i) as ->; [|done].
        rewrite (idx_to_pa_spec p1 _ _ Hr1) by (rewrite length_insert; lia).
        unfold page_addr. by rewrite Hb1.
      * split; [by apply rep_slabs|]. simpl. by rewrite Hs1.
Qed.

Lemma alloc_spec p l :
  pmm_rep p l →
  (alloc p = (Err NoMem, p) ∧ Forall (λ b, b = true) l) ∨
  (∃ i p', first_free l i ∧ alloc p = (Ok (page_addr p i), p') ∧ allocated p l i p').
Proof.
  intros Hrep. unfold alloc, gets, mbind, SM_bind. rewrite (pr_total _ _ Hrep).
  unfold len. rewrite Nat2Z.id. apply (alloc_loop_spec p l (length l) 0); [done..|]. intros; lia.
Qed.

Lemma free_spec p l i b :
  pmm_rep p l → l !! i = Some b →
  ∃ p', free (page_addr p i) p = (Ok tt, p') ∧ flagged p l (Z.of_nat i) false p'.
Proof.
  intros Hrep Hl. pose proof (lookup_lt_Some _ _ _ Hl) as Hlt.
  unfold free, gets, mbind, SM_bind. rewrite (pa_to_idx_spec p l i Hrep Hlt).
  rewrite (pr_total _ _ Hrep). unfold len. rewrite (proj2 (Z.ltb_lt (Z.of_nat i) (Z.of_nat (length l)))) by lia.
  pose proof (bm_get_spec p l Hrep (Z.of_nat i) ltac:(lia) b) as Hg. rewrite Nat2Z.id in Hg.
  rewrite (Hg Hl). destruct b.
  - apply (bm_clr_spec p l Hrep); [lia|]. by rewrite Nat2Z.id.
  - exists p. split; [done|]. rewrite <- (list_insert_id l i false) in Hrep by done.
    unfold flagged. by rewrite Nat2Z.id.
Qed.

(** A foreign address is ignored. *)
Lemma free_foreign p l pa :
  pmm_rep p l → u64 pa → ¬ (pm_base p ≤ pa < pm_base p + 4096 * len l) →
  free pa p = (Ok tt, p).
Proof.
  intros Hrep Hpa Hout. unfold free, gets, mbind, SM_bind.
  assert (len l ≤ pa_to_idx p pa) as Hge; [|rewrite (pr_total _ _ Hrep), (proj2 (Z.ltb_ge _ _)) by done; done].
  pose proof (pr_base _ _ Hrep). pose proof (pr_end _ _ Hrep). pose proof (len_nonneg l).
  unfold pa_to_idx, PAGE_SIZE, w64, u64 in *. apply Z.div_le_lower_bound; [lia|].
  destruct (Z.le_gt_cases (pm_base p) pa) as [Hle|Hgt].
  - rewrite Z.mod_small by lia. lia.
  - rewrite <- (Z_mod_plus_full _ 1), Z.mod_small by lia. lia.
Qed.

(** ** Contiguous allocation *)

(** [n] free pages from [s] on. *)
Definition free_run (l : list bool) (n s : nat) : Prop :=
  ∀ j, (s ≤ j < s + n)%nat → l !! j = Some false.

Definition first_run (l : list bool) (n s : nat) : Prop :=
  free_run l n s ∧ ∀ s', (s' < s)%nat → ¬ free_run l n s'.

(** Pages [s .. s+n) are taken; nothing else changes. *)
Definition run_taken (p : Pmm) (l : list bool) (n s : nat) (p' : Pmm) : Prop :=
  pmm_rep p' (wr (Z.of_nat s) (replicate n true) l) ∧ pm_base p' = pm_base p ∧
  pm_slab_heads p' = pm_slab_heads p ∧ pm_slabs p' = pm_slabs p.

Lemma set_run_spec p l n s :
  pmm_rep p l → free_run l n s → (s + n ≤ length l)%nat →
  ∃ p', set_run n (Z.of_nat s) p = (Ok tt, p') ∧ run_taken p l n s p'.
Proof.
  revert p l s. induction n as [|n IH]; intros p l s Hrep Hrun Hlen; simpl.
  - exists p. split; [done|]. unfold run_taken. simpl. rewrite wr_nil by (unfold len; lia). done.
  - destruct (bm_set_spec p l Hrep (Z.of_nat s) ltac:(lia)) as (p1 & Hs & Hr1 & Hb1 & _ & Hh1 & Hs1).
    { rewrite Nat2Z.id. apply Hrun. lia. }
    rewrite (sm_bind_ok _ _ _ _ _ Hs). rewrite Nat2Z.id in Hr1.
    replace (Z.of_nat s + 1) with (Z.of_nat (S s)) by lia.
    destruct (IH p1 (<[s := true]> l) (S s) Hr1) as (p2 & Hs2 & Hr2 & Hb2 & Hh2 & Hsl2).
    { intros j Hj. rewrite list_lookup_insert_ne by lia. apply Hrun. lia. }
    { rewrite length_insert. lia. }
    exists p2. split; [done|]. unfold run_taken. split; [|by rewrite Hb2, Hh2, Hsl2].
    pose proof (insert_wr l (Z.of_nat s) true) as Hi. rewrite Nat2Z.id in Hi.
    rewrite Hi in Hr2 by (unfold len; lia).
    replace (Z.of_nat (S s)) with (Z.of_nat s + 1) in Hr2 by lia.
    rewrite wr_cons in Hr2; [done|lia|]. unfold len. rewrite length_replicate. lia.
Qed.

(** The search: [run] free pages end at [i], preceded by a used one, and no run
    of [n] lies before [i]. *)
Record searching (l : list bool) (n i run : nat) : Prop := {
  se_run : (run ≤ i)%nat ∧ (run < n)%nat;
  se_free : free_run l run (i - run);
  se_edge : (i - run = 0)%nat ∨ l !! (i - run - 1)%nat = Some true;
  se_none : ∀ s', (s' + n ≤ i)%nat → ¬ free_run l n s' }.

Lemma searching_free l n i run :
  searching l n i run → l !! i = Some false →
  (S run = n → first_run l n (S i - n)) ∧ ((S run < n)%nat → searching l n (S i) (S run)).
Proof.
  intros [[Hri Hrn] Hf He Hn] Hl.
  assert (free_run l (S run) (i - run)) as Hf'.
  { intros j Hj. destruct (decide (j = i)) as [->|]; [done|]. apply Hf. lia. }
  assert (∀ s', (s' < i - run)%nat → (i - run - 1 < s' + n)%nat → ¬ free_run l n s') as Hedge.
  { intros s' Hs' Hsn Hr. destruct He as [He|He]; [lia|].
    rewrite (Hr (i - run - 1)%nat) in He by lia. done. }
  split.
  - intros Hn'. replace (S i - n)%nat with (i - run)%nat by lia. rewrite <- Hn' in *. split; [done|].
    intros s' Hs'. destruct (decide (s' + S run ≤ i)%nat); [by apply Hn|]. apply Hedge; lia.
  - intros Hlt. constructor; [lia|replace (S i - S run)%nat with (i - run)%nat by lia; done| |].
    + replace (S i - S run)%nat with (i - run)%nat by lia. done.
    + intros s' Hs'. destruct (decide (s' + n ≤ i)%nat); [by apply Hn|]. apply Hedge; lia.
Qed.

Lemma searching_used l n i run :
  (0 < n)%nat → searching l n i run → l !! i = Some true → searching l n (S i) 0.
Proof.
  intros Hn0 [_ _ _ Hn] Hl. constructor; [lia|intros j Hj; lia| |].
  - right. by replace (S i - 0 - 1)%nat with i by lia.
  - intros s' Hs' Hr. destruct (decide (s' + n ≤ i)%nat); [by eapply Hn|].
    rewrite (Hr i) in Hl by lia. done.
Qed.

Lemma alloc_n_loop_spec p l n rem i run start :
  pmm_rep p l → (0 < n)%nat → (i + rem = length l)%nat → searching l n i run →
  (run ≠ 0%nat → start = Z.of_nat (i - run)) →
  (alloc_n_loop rem (Z.of_nat n) (Z.of_nat i) (Z.of_nat run) start p = (Err NoMem, p) ∧
   ∀ s, ¬ free_run l n s) ∨
  (∃ s p', first_run l n s ∧
     alloc_n_loop rem (Z.of_nat n) (Z.of_nat i) (Z.of_nat run) start p = (Ok (page_addr p s), p') ∧
     run_taken p l n s p').
Proof.
  intros Hrep Hn. revert i run start. induction rem as [|rem IH]; intros i run start Hrem Hse Hst; simpl.
  - left. split; [done|]. intros s Hr. apply (se_none _ _ _ _ Hse s); [|done].
    assert (is_Some (l !! (s + n - 1)%nat)) as Hs by (rewrite Hr by lia; done).
    apply lookup_lt_is_Some in Hs. lia.
  - destruct (lookup_lt_is_Some_2 l i) as [b Hb]; [lia|].
    pose proof (bm_get_spec p l Hrep (Z.of_nat i) ltac:(lia) b) as Hg. rewrite Nat2Z.id in Hg.
    rewrite (sm_bind_ok _ _ _ _ _ (Hg Hb)). replace (Z.of_nat i + 1) with (Z.of_nat (S i)) by lia.
    destruct b; cbn [negb].
    + apply (IH (S i) 0%nat); [lia|by eapply searching_used|done].
    + destruct (searching_free _ _ _ _ Hse Hb) as [Hhit Hnext].
      destruct (se_run _ _ _ _ Hse) as [Hri Hrn].
      set (start' := if Z.of_nat run =? 0 then Z.of_nat i else start).
      assert (start' = Z.of_nat (i - run)) as Est.
      { subst start'. destruct (Z.eqb_spec (Z.of_nat run) 0); [f_equal; lia|]. apply Hst. lia. }
      replace (Z.of_nat run + 1) with (Z.of_nat (S run)) by lia.
      destruct (Z.eqb_spec (Z.of_nat (S run)) (Z.of_nat n)) as [E|E].
      * right. assert (S run = n) as En by lia. specialize (Hhit En).
        replace (S i - n)%nat with (i - run)%nat in Hhit by lia.
        destruct (set_run_spec p l n (i - run)) as (p' & Hs & Ht); [done|apply Hhit|lia|].
        exists (i - run)%nat, p'. split; [done|]. split; [|done].
        rewrite Est, Nat2Z.id, (sm_bind_ok _ _ _ _ _ Hs). unfold gets.
        destruct Ht as (Hr' & Hb' & _). rewrite (idx_to_pa_spec p' _ _ Hr').
        { unfold page_addr. by rewrite Hb'. }
        pose proof (len_wr (Z.of_nat (i - run)) (replicate n true) l) as Hw.
        unfold len in Hw. rewrite length_replicate in Hw. lia.
      * apply (IH (S i) (S run)); [lia|apply Hnext|].
        { lia. }
        intros _. rewrite Est. lia.
Qed.

Lemma alloc_n_spec p l n :
  pmm_rep p l → (0 < n)%nat →
  (alloc_n (Z.of_nat n) p = (Err NoMem, p) ∧ ∀ s, ¬ free_run l n s) ∨
  (∃ s p', first_run l n s ∧ alloc_n (Z.of_nat n) p = (Ok (page_addr p s), p') ∧
           run_taken p l n s p').
Proof.
  intros Hrep Hn. unfold alloc_n. rewrite (proj2 (Z.eqb_neq (Z.of_nat n) 0)) by lia.
  unfold gets, mbind, SM_bind. rewrite (pr_total _ _ Hrep). unfold len. rewrite Nat2Z.id.
  apply (alloc_n_loop_spec p l n (length l) 0 0 0); [done..| |done].
  constructor; [lia|intros j Hj; lia|by left|]. intros s' Hs' Hr. lia.
Qed.

(** ** Initialisation *)

Section Init.
Context (kernel_end dram_base dram_size : Z).
Let top := dram_base + dram_size.
Let start := Z.max (kernel_end + KERNEL_HEAP_RESERVE) dram_base.
(** The first managed address, a page boundary. *)
Definition managed_base : Z := start + 4095 - (start + 4095) mod 4096.
Definition managed_pages : Z := (top - managed_base) / 4096.
Definition bitmap_pages : Z := div_ceil (div_ceil managed_pages 8) 4096.
Hypothesis Hk : 0 ≤ kernel_end.
Hypothesis Hd : 0 ≤ dram_base.
Hypothesis Hs : 2 ≤ managed_pages.
Hypothesis Ht : top < 9223372036854775808.
Hypothesis Hke : kernel_end < 9223372036854775808.

Definition init_flags : list bool :=
  replicate (Z.to_nat bitmap_pages) true ++
  replicate (Z.to_nat (managed_pages - bitmap_pages - bitmap_pages)) false.

Lemma div_ceil_bounds a b : 0 ≤ a → 0 < b → a ≤ b * div_ceil a b < a + b.
Proof.
  intros Ha Hb. unfold div_ceil. pose proof (Z.div_mod (a + b - 1) b).
  pose proof (Z.mod_pos_bound (a + b - 1) b). lia.
Qed.

Lemma bitmap_pages_bounds : 1 ≤ bitmap_pages ∧ 2 * bitmap_pages ≤ managed_pages.
Proof using Hs.
  unfold bitmap_pages. pose proof (div_ceil_bounds managed_pages 8).
  pose proof (div_ceil_bounds (div_ceil managed_pages 8) 4096). lia.
Qed.

Lemma managed_bounds :
  0 ≤ start ≤ managed_base ∧ managed_base + 4096 * managed_pages ≤ top ∧
  kernel_end + KERNEL_HEAP_RESERVE ≤ start ≤ top.
Proof using Hk Hd Hs.
  unfold managed_pages in *. pose proof (Z.div_mod (top - managed_base) 4096).
  pose proof (Z.mod_pos_bound (top - managed_base) 4096).
  pose proof (Z.mod_pos_bound (start + 4095) 4096).
  assert (start ≤ managed_base) by (unfold managed_base; lia).
  assert (0 ≤ start ∧ kernel_end + KERNEL_HEAP_RESERVE ≤ start) by (unfold start, KERNEL_HEAP_RESERVE; lia).
  lia.
Qed.

Lemma pmm_init_spec :
  ∃ p, pmm_init kernel_end dram_base dram_size = Ok p ∧ pmm_rep p init_flags ∧
       pm_base p = managed_base + 4096 * bitmap_pages ∧ pm_slab_heads p = [0; 0; 0] ∧
       pm_slabs p = ∅.
Proof using Hk Hd Hs Ht Hke.
  pose proof bitmap_pages_bounds as Hbp. pose proof managed_bounds as (Hm1 & Hm2 & Hm3).
  set (p0 := mkPmm (managed_base + 4096 * bitmap_pages) (managed_pages - bitmap_pages)
               (managed_pages - bitmap_pages) (zeros (div_ceil managed_pages 8)) [0; 0; 0] ∅).
  assert (pmm_init kernel_end dram_base dram_size =
          match set_run (Z.to_nat bitmap_pages) 0 p0 with
          | (Ok _, p) => Ok p | (Err e, _) => Err e | (Panic, _) => Panic end) as ->.
  { unfold pmm_init, PAGE_SIZE, sat_sub. fold top.
    rewrite (w64_small (kernel_end + KERNEL_HEAP_RESERVE)) by (unfold KERNEL_HEAP_RESERVE; lia).
    fold start. rewrite (w64_small (start + 4096 - 1)) by lia.
    rewrite land_page_mask by (unfold u64; lia).
    replace (start + 4096 - 1) with (start + 4095) by lia. fold managed_base.
    rewrite (w64_small top), (Z.max_r 0 (top - managed_base)) by lia. fold managed_pages.
    fold bitmap_pages. rewrite (w64_small (bitmap_pages * 4096)), w64_small by lia.
    rewrite Z.max_r by lia. by rewrite (Z.mul_comm bitmap_pages 4096). }
  set (l0 := replicate (Z.to_nat (managed_pages - bitmap_pages)) false).
  assert (len l0 = managed_pages - bitmap_pages) as Hl0
    by (unfold l0, len; rewrite length_replicate; lia).
  pose proof (div_ceil_bounds managed_pages 8 ltac:(lia) ltac:(lia)) as Hdc.
  destruct (set_run_spec p0 l0 (Z.to_nat bitmap_pages) 0) as (p & Hrun & Hr & Hb & Hh & Hsl).
  - constructor; simpl; try lia.
    + unfold zeros. rewrite len_replicate; lia.
    + intros i b Hi. apply lookup_replicate in Hi as [-> _]. unfold bit_of, zeros.
      rewrite nth_lookup. destruct (replicate _ 0 !! _) eqn:E;
        [apply lookup_replicate in E as [-> _]|]; apply Z.bits_0.
    + rewrite <- Hl0. unfold l0. by rewrite free_count_fresh.
  - intros j Hj. apply lookup_replicate. lia.
  - unfold len in Hl0. lia.
  - change (Z.of_nat 0) with 0 in Hrun. rewrite Hrun. exists p. split; [done|]. split; [|done].
    enough (wr (Z.of_nat 0) (replicate (Z.to_nat bitmap_pages) true) l0 = init_flags) as <- by done.
    unfold wr, init_flags, l0. simpl. rewrite length_replicate, drop_replicate.
    do 2 f_equal. lia.
Qed.
End Init.
