(* ===== verification/SlabProps.v ===== *)
(** * The slab pools hand out each slot once

    A slab page is, like the page bitmap, a table of flags: [slots h] says for
    every slot whether it is in use.  The pages of a size class form a list
    threaded through [sl_next]. *)

From S2P Require Import Prelude Pmm PmmProps.
From stdpp Require Import base list numbers gmap.
From Stdlib Require Import ZArith Lia.

Open Scope Z_scope.

(** ** One slab page *)

Definition obj_size (class : Z) : Z := nth (Z.to_nat class) SLAB_SIZES 0.
Definition slab_cap (class : Z) : Z := (PAGE_SIZE - SLAB_HDR) / obj_size class.

Definition slots (h : SlabHeader) : list bool :=
  map (λ i : nat, negb (Z.testbit (sl_free_bits h) (Z.of_nat i))) (seq 0 (Z.to_nat (sl_capacity h))).

Record hdr_ok (class : Z) (h : SlabHeader) : Prop := {
  ho_magic : sl_magic h = SLAB_MAGIC;
  ho_class : sl_size_idx h = class;
  ho_cap : sl_capacity h = slab_cap class;
  ho_count : sl_free_count h = free_count (slots h) }.

Lemma class_cases class : 0 ≤ class < 3 → class = 0 ∨ class = 1 ∨ class = 2.
Proof. lia. Qed.

Lemma slab_cap_bound class :
  0 ≤ class < 3 → 0 < slab_cap class < 64 ∧ 0 < obj_size class ∧
  slab_cap class * obj_size class ≤ 4064.
Proof. intros [-> | [-> | ->]]%class_cases; vm_compute; intuition congruence. Qed.

Lemma slots_lookup h i :
  (i < Z.to_nat (sl_capacity h))%nat →
  slots h !! i = Some (negb (Z.testbit (sl_free_bits h) (Z.of_nat i))).
Proof. intros Hi. unfold slots. rewrite list_lookup_fmap, lookup_seq_lt by done. done. Qed.

Lemma length_slots h : length (slots h) = Z.to_nat (sl_capacity h).
Proof. unfold slots. by rewrite length_map, length_seq. Qed.

Lemma bit64_spec s : 0 ≤ s < 64 → bit64 s = Z.shiftl 1 s.
Proof.
  intros Hs. unfold bit64. rewrite (Z.mod_small s) by lia. apply w64_small.
  rewrite Z.shiftl_1_l. split; [apply Z.pow_nonneg; lia|].
  apply (Z.pow_lt_mono_r 2 s 64); lia.
Qed.

Lemma testbit_not64 s j : 0 ≤ s < 64 → 0 ≤ j < 64 → Z.testbit (not64 (bit64 s)) j = negb (s =? j).
Proof.
  intros Hs Hj. rewrite bit64_spec by done. unfold not64.
  change 18446744073709551615 with (Z.ones 64).
  by rewrite Z.lxor_spec, Z.ones_spec_low, Z.shiftl_1_l, Z.pow2_bits_eqb by lia.
Qed.

Lemma slots_take h s :
  0 < sl_capacity h < 64 → (s < Z.to_nat (sl_capacity h))%nat →
  slots (take_slot h (Z.of_nat s)) = <[s := true]> (slots h).
Proof.
  intros Hc Hs. apply list_eq. intros i.
  destruct (decide (i < Z.to_nat (sl_capacity h))%nat) as [Hi|Hi].
  - rewrite slots_lookup by done. simpl. rewrite Z.land_spec, testbit_not64 by lia.
    destruct (decide (i = s)) as [->|Hne].
    + rewrite list_lookup_insert_eq by (by rewrite length_slots). by rewrite Z.eqb_refl, andb_false_r.
    + rewrite list_lookup_insert_ne, slots_lookup by done.
      by rewrite (proj2 (Z.eqb_neq (Z.of_nat s) (Z.of_nat i))), andb_true_r by lia.
  - rewrite !lookup_ge_None_2; [done|rewrite length_insert|]; rewrite length_slots; simpl; lia.
Qed.

Lemma hdr_ok_take class h s :
  0 ≤ class < 3 → hdr_ok class h → slots h !! s = Some false →
  hdr_ok class (take_slot h (Z.of_nat s)).
Proof.
  intros Hcl [Hm Hc Hcap Hn] Hs. destruct (slab_cap_bound class Hcl) as [Hb _].
  pose proof (lookup_lt_Some _ _ _ Hs) as Hlt. rewrite length_slots in Hlt.
  constructor; simpl; try done. rewrite slots_take by (done || lia).
  rewrite free_count_take, Hn by done. apply Z.mod_small.
  pose proof (free_count_bound (<[s := true]> (slots h))) as Hf.
  rewrite free_count_take, len_insert in Hf by done. unfold len in Hf. rewrite length_slots in Hf. lia.
Qed.

(** The slot search finds the first free slot. *)
Lemma slot_loop_spec n i h :
  0 < sl_capacity h < 64 → (i + n = Z.to_nat (sl_capacity h))%nat →
  (∀ j, (j < i)%nat → slots h !! j = Some true) →
  (slot_loop n (Z.of_nat i) h = None ∧ Forall (λ b, b = true) (slots h)) ∨
  (∃ s, slot_loop n (Z.of_nat i) h = Some (Z.of_nat s) ∧ first_free (slots h) s).
Proof.
  intros Hc. revert i. induction n as [|n IH]; intros i Hn Hlt; simpl.
  - left. split; [done|]. apply Forall_lookup. intros j b Hj.
    pose proof (lookup_lt_Some _ _ _ Hj) as Hl. rewrite length_slots in Hl.
    rewrite Hlt in Hj by lia. congruence.
  - rewrite bit64_spec, land_bit by lia.
    pose proof (slots_lookup h i ltac:(lia)) as Hi. destruct (Z.testbit _ (Z.of_nat i)) eqn:E.
    + right. exists i. split; [done|]. split; [done|done].
    + replace (Z.of_nat i + 1) with (Z.of_nat (S i)) by lia. apply IH; [lia|].
      intros j Hj. destruct (decide (j = i)) as [->|]; [done|]. apply Hlt. lia.
Qed.

Lemma free_count_none l : Forall (λ b, b = true) l ↔ free_count l = 0.
Proof.
  unfold free_count, len. induction l as [|b l IH]; [done|]. rewrite Forall_cons, IH, filter_cons.
  destruct (decide (b = false)) as [->|Hb]; simpl; [split; [by intros []|lia]|].
  destruct b; [tauto|done].
Qed.

(** ** The pages of a class *)

Definition head0 (q : list Z) : Z := match q with [] => 0 | n :: _ => n end.

Fixpoint slab_list (ss : gmap Z SlabHeader) (class : Z) (q : list Z) : Prop :=
  match q with
  | [] => True
  | pg :: q =>
      pg ≠ 0 ∧ (∃ h, ss !! pg = Some h ∧ hdr_ok class h ∧ sl_next h = head0 q) ∧
      slab_list ss class q
  end.

(** The outcome of an allocation from an existing page: slot [s] of page [pg]
    was free and is now in use; no other header changes. *)
Definition slot_taken (p : Pmm) (class pg : Z) (s : nat) (p' : Pmm) : Prop :=
  ∃ h, pm_slabs p !! pg = Some h ∧ hdr_ok class h ∧ first_free (slots h) s ∧
       p' = set_slabs (<[pg := take_slot h (Z.of_nat s)]> (pm_slabs p)) p.

Lemma page_loop_spec p class fuel q :
  0 ≤ class < 3 → slab_list (pm_slabs p) class q → (length q < fuel)%nat →
  (page_loop fuel (obj_size class) (head0 q) p = (Ok None, p) ∧
   ∀ pg h, pg ∈ q → pm_slabs p !! pg = Some h → Forall (λ b, b = true) (slots h)) ∨
  (∃ pg s p', pg ∈ q ∧ slot_taken p class pg s p' ∧
     page_loop fuel (obj_size class) (head0 q) p =
       (Ok (Some (w64 (pg + 32 + Z.of_nat s * obj_size class))), p')).
Proof.
  intros Hcl. destruct (slab_cap_bound class Hcl) as [Hcb _].
  revert q. induction fuel as [|fuel IH]; intros q Hq Hf; [lia|].
  destruct q as [|pg q]; [left; split; [done|]; intros ? ? H; by apply elem_of_nil in H|].
  destruct Hq as (Hp & (h & Hh & Hok & Hn) & Hq). change (head0 (pg :: q)) with pg. cbn [page_loop].
  replace (pg =? 0) with false by (symmetry; by apply Z.eqb_neq).
  assert (hdr_at pg p = (Ok h, p)) as Hat by (unfold hdr_at; by rewrite Hh).
  rewrite (sm_bind_ok _ _ _ _ _ Hat).
  pose proof (ho_cap _ _ Hok) as Hcap. rewrite Hn.
  assert (Forall (λ b, b = true) (slots h) →
    (page_loop fuel (obj_size class) (head0 q) p = (Ok None, p) ∧
     ∀ pg' h', pg' ∈ pg :: q → pm_slabs p !! pg' = Some h' → Forall (λ b, b = true) (slots h')) ∨
    (∃ pg' s p', pg' ∈ pg :: q ∧ slot_taken p class pg' s p' ∧
       page_loop fuel (obj_size class) (head0 q) p =
         (Ok (Some (w64 (pg' + 32 + Z.of_nat s * obj_size class))), p'))) as Hskip.
  { intros Hall. destruct (IH q Hq) as [[E Hno]|(pg' & s & p' & Hin & Ht & E)];
      [simpl in Hf; lia|left|right].
    - split; [done|]. intros pg' h' Hin Hh'. apply elem_of_cons in Hin as [->|Hin]; [|by eapply Hno].
      rewrite Hh in Hh'. by injection Hh' as <-.
    - exists pg', s, p'. split; [by right|done]. }
  destruct (0 <? sl_free_count h) eqn:Ec; bool_prop.
  - destruct (slot_loop_spec (Z.to_nat (sl_capacity h)) 0 h) as [[E Hall]|(s & E & Hs)];
      [lia|lia|intros; lia| |]; change (Z.of_nat 0) with 0 in E; rewrite E.
    + by apply Hskip.
    + right. exists pg, s. eexists. split; [by left|]. split; [|done]. by exists h.
  - apply Hskip, free_count_none.
    rewrite <- (ho_count _ _ Hok). pose proof (free_count_bound (slots h)).
    rewrite (ho_count _ _ Hok) in *. lia.
Qed.

(** Every slab page of class [class], listed in [q], is a page in use. *)
Record pool_ok (p : Pmm) (l : list bool) (class : Z) (q : list Z) : Prop := {
  po_rep : pmm_rep p l;
  po_class : 0 ≤ class < 3;
  po_heads : length (pm_slab_heads p) = 3%nat;
  po_head : pm_slab_heads p !! Z.to_nat class = Some (head0 q);
  po_list : slab_list (pm_slabs p) class q;
  po_nodup : NoDup q;
  po_used : ∀ pg, pg ∈ q → ∃ j, pg = page_addr p j ∧ l !! j = Some true }.

Lemma slab_list_dom ss class q pg : slab_list ss class q → pg ∈ q → is_Some (ss !! pg).
Proof.
  induction q as [|a q IH]; simpl; intros H Hp; [by apply elem_of_nil in Hp|].
  destruct H as (_ & (h & ? & _) & ?). apply elem_of_cons in Hp as [->|Hp]; eauto.
Qed.

Lemma slab_list_agree ss ss' class q :
  (∀ pg, pg ∈ q → ss' !! pg = ss !! pg) → slab_list ss class q → slab_list ss' class q.
Proof.
  induction q as [|a q IH]; simpl; [done|]. intros H (? & (h & ? & ?) & ?).
  split; [done|]. split; [exists h; rewrite H by left; done|].
  apply IH; [|done]. intros pg Hpg. apply H. by right.
Qed.

Lemma pool_fuel p l class q : pool_ok p l class q → (length q < slab_fuel p)%nat.
Proof.
  intros Hok. unfold slab_fuel. apply Nat.lt_succ_r. rewrite <- size_dom.
  rewrite <- (size_list_to_set (C := gset Z) q) by apply Hok.
  apply subseteq_size. intros pg Hp. apply elem_of_list_to_set in Hp.
  apply elem_of_dom. eapply slab_list_dom; [apply Hok|done].
Qed.

Lemma page_addr_inj p i j : page_addr p i = page_addr p j → i = j.
Proof. unfold page_addr. lia. Qed.

Lemma page_addr_pos p l i :
  pmm_rep p l → 0 < pm_base p → 0 < page_addr p i.
Proof. intros Hrep Hb. unfold page_addr. lia. Qed.

(** A fresh slab page: slot 0 in use, the others free. *)
Definition fresh_hdr (class next : Z) : SlabHeader :=
  mkSlabHeader SLAB_MAGIC class (bit64 (slab_cap class) - 2) (slab_cap class) (slab_cap class - 1) next.

Lemma fresh_hdr_ok class next :
  0 ≤ class < 3 → hdr_ok class (fresh_hdr class next) ∧
  slots (fresh_hdr class next) = true :: replicate (Z.to_nat (slab_cap class) - 1) false.
Proof. intros [-> | [-> | ->]]%class_cases; (split; [constructor|]); vm_compute; reflexivity. Qed.

Lemma new_slab_spec p l class q :
  pool_ok p l class q → 0 < pm_base p →
  (new_slab class (obj_size class) p = (Ok None, p) ∧ Forall (λ b, b = true) l) ∨
  (∃ i p', first_free l i ∧
     new_slab class (obj_size class) p = (Ok (Some (page_addr p i + 32)), p') ∧
     pm_slabs p' = <[page_addr p i := fresh_hdr class (head0 q)]> (pm_slabs p) ∧
     pool_ok p' (<[i := true]> l) class (page_addr p i :: q)).
Proof.
  intros Hok Hb0. pose proof (po_rep _ _ _ _ Hok) as Hrep. unfold new_slab.
  destruct (alloc_spec p l Hrep) as [[Ha Hall]|(i & p1 & Hff & Ha & Hr1 & Hb1 & Hh1 & Hs1)].
  { left. split; [|done]. erewrite sm_bind_ok; [|unfold alloc_ok; by rewrite Ha]. done. }
  right. set (pg := page_addr p i) in *.
  set (p2 := set_slab_heads (<[Z.to_nat class := pg]> (pm_slab_heads p)) p1).
  set (p3 := set_slabs (<[pg := fresh_hdr class (head0 q)]> (pm_slabs p1)) p2).
  pose proof (po_class _ _ _ _ Hok) as Hcl.
  assert (pg ∉ q) as Hnew.
  { intros Hin. destruct (po_used _ _ _ _ Hok pg Hin) as (j & Hj & Hlj).
    apply page_addr_inj in Hj as <-. destruct Hff. congruence. }
  assert (i < length l)%nat as Hil by (destruct Hff as [Hfi _]; by eapply lookup_lt_Some).
  assert (pm_slabs p3 = <[pg := fresh_hdr class (head0 q)]> (pm_slabs p)) as Hsl
    by (unfold p3; simpl; rewrite Hs1; apply insert_delete_eq).
  exists i, p3. split_and!; [done| |done|].
  - erewrite sm_bind_ok; [|unfold alloc_ok; by rewrite Ha]. cbv beta iota zeta.
    rewrite gets_bind, Hh1, (idx_ok _ _ _ (po_head _ _ _ _ Hok)), lift_bind by lia.
    rewrite set_idx_ok, lift_bind by (unfold len; rewrite (po_heads _ _ _ _ Hok); lia).
    rewrite modify_bind. unfold hdr_set. rewrite modify_bind. unfold mret, SM_ret.
    rewrite w64_small by (pose proof (pr_end _ _ Hrep); pose proof (pr_base _ _ Hrep);
      unfold pg, page_addr, SLAB_HDR, len in *; lia).
    assert (mkSlabHeader SLAB_MAGIC class _ _ _ (head0 q) = fresh_hdr class (head0 q)) as ->; [|done].
    destruct (class_cases class Hcl) as [-> | [-> | ->]]; done.
  - destruct (fresh_hdr_ok class (head0 q) Hcl) as [Hfo _].
    constructor; [destruct Hr1; by constructor|done|by rewrite <- (po_heads _ _ _ _ Hok); apply length_insert| | | |].
    + simpl. apply list_lookup_insert_eq. rewrite (po_heads _ _ _ _ Hok). lia.
    + rewrite Hsl. simpl. split; [unfold pg; pose proof (page_addr_pos p l i Hrep Hb0); lia|].
      split; [eexists; rewrite lookup_insert_eq; done|].
      eapply slab_list_agree; [|apply Hok]. intros pg' Hpg'. apply lookup_insert_ne. set_solver.
    + apply NoDup_cons. split; [done|apply Hok].
    + intros pg' Hpg'. apply elem_of_cons in Hpg' as [->|Hpg'].
      * exists i. rewrite list_lookup_insert_eq by done. split; [|done].
        unfold pg, page_addr. simpl. by rewrite Hb1.
      * destruct (po_used _ _ _ _ Hok pg' Hpg') as (j & -> & Hj). exists j.
        split; [unfold page_addr; simpl; by rewrite Hb1|].
        rewrite list_lookup_insert_ne; [done|]. intros ->. destruct Hff. congruence.
Qed.

(** ** The allocator *)

Lemma slab_class_spec size class :
  slab_class_for size = Some class → 0 ≤ class < 3 ∧ size ≤ obj_size class ∧
  idx SLAB_SIZES class = Ok (obj_size class).
Proof.
  unfold slab_class_for, SLAB_SIZES, class_from. intros H.
  destruct (size <=? 64) eqn:E1, (size <=? 256) eqn:E2, (size <=? 1024) eqn:E3; try done;
    injection H as <-; bool_prop; split_and!; done.
Qed.

(** What a slot of a page is worth: it holds the object and lies in the page. *)
Lemma slot_fits class s :
  0 ≤ class < 3 → (s < Z.to_nat (slab_cap class))%nat →
  32 + Z.of_nat s * obj_size class + obj_size class ≤ 4096.
Proof.
  intros Hcl Hs. destruct (slab_cap_bound class Hcl) as (Hc & Ho & Hm). nia.
Qed.

Lemma slab_alloc_spec p l class q size :
  pool_ok p l class q → 0 < pm_base p → slab_class_for size = Some class →
  (slab_alloc size p = (Ok None, p) ∧ Forall (λ b, b = true) l ∧
   ∀ pg h, pg ∈ q → pm_slabs p !! pg = Some h → Forall (λ b, b = true) (slots h)) ∨
  (∃ pg s p', pg ∈ q ∧ slot_taken p class pg s p' ∧
     slab_alloc size p = (Ok (Some (pg + 32 + Z.of_nat s * obj_size class)), p')) ∨
  (∃ i p', first_free l i ∧
     slab_alloc size p = (Ok (Some (page_addr p i + 32)), p') ∧
     pm_slabs p' = <[page_addr p i := fresh_hdr class (head0 q)]> (pm_slabs p) ∧
     pool_ok p' (<[i := true]> l) class (page_addr p i :: q)).
Proof.
  intros Hok Hb Hc. destruct (slab_class_spec _ _ Hc) as (Hcl & _ & Hidx).
  unfold slab_alloc. rewrite Hc, Hidx, lift_bind.
  destruct (slab_cap_bound class Hcl) as (Hcb & Ho & Hm).
  assert (obj_size class ≤ 4064) as Hol by nia.
  rewrite (proj2 (Z.ltb_ge (PAGE_SIZE - SLAB_HDR) (obj_size class))) by (unfold PAGE_SIZE, SLAB_HDR; lia).
  rewrite gets_bind, (idx_ok _ _ _ (po_head _ _ _ _ Hok)), lift_bind, gets_bind by lia.
  destruct (page_loop_spec p class (slab_fuel p) q Hcl (po_list _ _ _ _ Hok) (pool_fuel _ _ _ _ Hok))
    as [[E Hfull]|(pg & s & p' & Hin & Ht & E)]; rewrite (sm_bind_ok _ _ _ _ _ E).
  - destruct (new_slab_spec p l class q Hok Hb) as [[En Hall]|Hnew]; [left|by right; right].
    by rewrite En.
  - right. left. exists pg, s, p'. split_and!; [done|done|]. unfold mret, SM_ret.
    destruct (po_used _ _ _ _ Hok pg Hin) as (j & -> & Hj).
    pose proof (lookup_lt_Some _ _ _ Hj) as Hlt. destruct Ht as (h & _ & Hho & [Hs _] & _).
    pose proof (lookup_lt_Some _ _ _ Hs) as Hsl. rewrite length_slots, (ho_cap _ _ Hho) in Hsl.
    pose proof (slot_fits class s Hcl Hsl). pose proof (po_rep _ _ _ _ Hok) as Hrep.
    rewrite w64_small; [done|]. pose proof (pr_end _ _ Hrep). pose proof (pr_base _ _ Hrep).
    unfold page_addr, len in *. lia.
Qed.

Module MemTheorems.

(** Sixteen pages at 2 GiB, the first two in use. *)
Definition demo_pmm : Pmm := mkPmm 0x80000000 16 14 [3; 0] [0; 0; 0] ∅.
Definition demo_flags : list bool := true :: true :: replicate 14 false.

Lemma demo_rep : pmm_rep demo_pmm demo_flags.
Proof.
  constructor; try done. intros i b Hi. simpl.
  assert (i < 16)%nat as Hlt by (by apply lookup_lt_Some in Hi).
  do 16 (destruct i as [|i]; [vm_compute in Hi |- *; congruence|]). lia.
Qed.

Lemma demo_pool : pool_ok demo_pmm demo_flags 2 [].
Proof.
  constructor; try done; [apply demo_rep|constructor|]. intros pg H. by apply elem_of_nil in H.
Qed.

(** Page allocation implements first fit on the table of page flags: it
    takes the first free page, marks it used, zeroes it (no slab header is left
    there) and keeps the free counter exact; it fails with ENOMEM exactly when
    every page is in use, and then changes nothing. *)
Theorem alloc_first_fit p l :
  pmm_rep p l →
  (alloc p = (Err NoMem, p) ∧ Forall (λ b, b = true) l) ∨
  (∃ i p', first_free l i ∧ alloc p = (Ok (page_addr p i), p') ∧ allocated p l i p').
Proof. apply alloc_spec. Qed.

Lemma alloc_first_fit_witness :
  (alloc demo_pmm = (Err NoMem, demo_pmm) ∧ Forall (λ b, b = true) demo_flags) ∨
  (∃ i p', first_free demo_flags i ∧ alloc demo_pmm = (Ok (page_addr demo_pmm i), p') ∧
           allocated demo_pmm demo_flags i p').
Proof. apply (alloc_first_fit demo_pmm demo_flags demo_rep). Defined.

(** Contiguous allocation takes the lowest run of [n] free pages, exactly
    those, and fails with ENOMEM exactly when there is no such run. *)
Theorem alloc_n_first_run p l n :
  pmm_rep p l → (0 < n)%nat →
  (alloc_n (Z.of_nat n) p = (Err NoMem, p) ∧ ∀ s, ¬ free_run l n s) ∨
  (∃ s p', first_run l n s ∧ alloc_n (Z.of_nat n) p = (Ok (page_addr p s), p') ∧
           run_taken p l n s p').
Proof. apply alloc_n_spec. Qed.

Lemma alloc_n_first_run_witness :
  (alloc_n 4 demo_pmm = (Err NoMem, demo_pmm) ∧ ∀ s, ¬ free_run demo_flags 4 s) ∨
  (∃ s p', first_run demo_flags 4 s ∧ alloc_n 4 demo_pmm = (Ok (page_addr demo_pmm s), p') ∧
           run_taken demo_pmm demo_flags 4 s p').
Proof. apply (alloc_n_first_run demo_pmm demo_flags 4 demo_rep). lia. Defined.

(** C32. Freeing undoes allocation: after allocating a page and freeing it the
    flags and the free counter are the ones before; freeing a free page or an
    address outside the managed range changes nothing. *)
Theorem alloc_free_inverse p l pa :
  pmm_rep p l → u64 pa → ¬ (pm_base p ≤ pa < pm_base p + 4096 * len l) →
  free pa p = (Ok tt, p) ∧
  (∀ i, l !! i = Some false → ∃ p', free (page_addr p i) p = (Ok tt, p') ∧ pmm_rep p' l) ∧
  (∀ a p1, alloc p = (Ok a, p1) →
     ∃ p2, free a p1 = (Ok tt, p2) ∧ pmm_rep p2 l ∧ pm_free_pages p2 = pm_free_pages p).
Proof.
  intros Hrep Hpa Hout. split; [by eapply free_foreign|]. split.
  - intros i Hi. destruct (free_spec p l i false Hrep Hi) as (p' & Hf & Hr & _).
    rewrite Nat2Z.id, list_insert_id in Hr by done. eauto.
  - intros a p1 Ha. destruct (alloc_spec p l Hrep) as [[E _]|(i & p' & [Hi _] & E & Hr & Hb & _)];
      [congruence|]. rewrite E in Ha. injection Ha as <- <-.
    destruct (free_spec p' _ i true Hr) as (p2 & Hf & Hr2 & _).
    { apply list_lookup_insert_eq. by eapply lookup_lt_Some. }
    unfold page_addr in *. rewrite Hb in Hf. rewrite Nat2Z.id, list_insert_insert_eq, list_insert_id in Hr2 by done.
    exists p2. split_and!; [done|done|]. by rewrite (pr_free _ _ Hr2), (pr_free _ _ Hrep).
Qed.

Lemma alloc_free_inverse_witness :
  ∃ p2, free 0x80002000 (alloc demo_pmm).2 = (Ok tt, p2) ∧ pmm_rep p2 demo_flags ∧
        pm_free_pages p2 = 14.
Proof.
  apply (proj2 (proj2 (alloc_free_inverse demo_pmm demo_flags 0 demo_rep ltac:(done) ltac:(vm_compute; intuition congruence)))
           0x80002000 (alloc demo_pmm).2). vm_compute. reflexivity.
Defined.

(** Initialisation establishes the allocator's invariant.  The bitmap lies
    in the pages below the first managed one, yet as many pages again are marked
    used at the start of the managed range and can never be allocated. *)
Theorem pmm_init_leaks kernel_end dram_base dram_size :
  0 ≤ kernel_end < 9223372036854775808 → 0 ≤ dram_base →
  2 ≤ managed_pages kernel_end dram_base dram_size →
  dram_base + dram_size < 9223372036854775808 →
  let n := bitmap_pages kernel_end dram_base dram_size in
  ∃ p, pmm_init kernel_end dram_base dram_size = Ok p ∧
       pmm_rep p (init_flags kernel_end dram_base dram_size) ∧
       pm_base p = managed_base kernel_end dram_base + 4096 * n ∧ 1 ≤ n ∧
       ∀ i, (i < Z.to_nat n)%nat → init_flags kernel_end dram_base dram_size !! i = Some true.
Proof.
  intros Hk Hd Hs Ht n. pose proof (bitmap_pages_bounds _ _ _ Hs) as [Hn _].
  destruct (pmm_init_spec kernel_end dram_base dram_size) as (p & Hp & Hrep & Hb & _); [lia..|].
  exists p. split_and!; [done|done|done|done|]. intros i Hi. unfold init_flags. fold n.
  rewrite lookup_app_l by (rewrite length_replicate; lia). by apply lookup_replicate.
Qed.

Lemma pmm_init_leaks_witness :
  ∃ p, pmm_init 0x80200000 0x80000000 0x8000000 = Ok p ∧
       pmm_rep p (init_flags 0x80200000 0x80000000 0x8000000) ∧
       pm_base p = managed_base 0x80200000 0x80000000 +
                   4096 * bitmap_pages 0x80200000 0x80000000 0x8000000 ∧
       1 ≤ bitmap_pages 0x80200000 0x80000000 0x8000000 ∧
       ∀ i, (i < Z.to_nat (bitmap_pages 0x80200000 0x80000000 0x8000000))%nat →
            init_flags 0x80200000 0x80000000 0x8000000 !! i = Some true.
Proof. apply (pmm_init_leaks 0x80200000 0x80000000 0x8000000); vm_compute; intuition congruence. Defined.

(** A small allocation never returns memory that is in use: it takes the
    first free slot of the first page of its size class that has one, or slot 0
    of a newly allocated page, whose pool then stays well formed; the object
    fits into the slot and the slot into the page; it fails only when the class
    and the page allocator are both exhausted. *)
Theorem slab_alloc_fresh p l class q size :
  pool_ok p l class q → 0 < pm_base p → slab_class_for size = Some class →
  size ≤ obj_size class ∧
  ((slab_alloc size p = (Ok None, p) ∧ Forall (λ b, b = true) l ∧
    ∀ pg h, pg ∈ q → pm_slabs p !! pg = Some h → Forall (λ b, b = true) (slots h)) ∨
   (∃ pg s p', pg ∈ q ∧ slot_taken p class pg s p' ∧
      32 + Z.of_nat s * obj_size class + obj_size class ≤ 4096 ∧
      slab_alloc size p = (Ok (Some (pg + 32 + Z.of_nat s * obj_size class)), p')) ∨
   (∃ i p', first_free l i ∧ slab_alloc size p = (Ok (Some (page_addr p i + 32)), p') ∧
      pm_slabs p' = <[page_addr p i := fresh_hdr class (head0 q)]> (pm_slabs p) ∧
      pool_ok p' (<[i := true]> l) class (page_addr p i :: q))).
Proof.
  intros Hok Hb Hc. destruct (slab_class_spec _ _ Hc) as (Hcl & Hsz & _). split; [done|].
  destruct (slab_alloc_spec p l class q size Hok Hb Hc) as [H|[(pg & s & p' & Hin & Ht & E)|H]];
    [by left|right; left|by right; right].
  exists pg, s, p'. split_and!; [done|done| |done]. destruct Ht as (h & _ & Hho & [Hs _] & _).
  apply slot_fits; [done|]. rewrite <- (ho_cap _ _ Hho), <- length_slots. by eapply lookup_lt_Some.
Qed.

Lemma slab_alloc_fresh_witness :
  1000 ≤ obj_size 2 ∧
  ((slab_alloc 1000 demo_pmm = (Ok None, demo_pmm) ∧ Forall (λ b, b = true) demo_flags ∧
    ∀ pg h, pg ∈ [] → pm_slabs demo_pmm !! pg = Some h → Forall (λ b, b = true) (slots h)) ∨
   (∃ pg s p', pg ∈ [] ∧ slot_taken demo_pmm 2 pg s p' ∧
      32 + Z.of_nat s * obj_size 2 + obj_size 2 ≤ 4096 ∧
      slab_alloc 1000 demo_pmm = (Ok (Some (pg + 32 + Z.of_nat s * obj_size 2)), p')) ∨
   (∃ i p', first_free demo_flags i ∧
      slab_alloc 1000 demo_pmm = (Ok (Some (page_addr demo_pmm i + 32)), p') ∧
      pm_slabs p' = <[page_addr demo_pmm i := fresh_hdr 2 (head0 [])]> (pm_slabs demo_pmm) ∧
      pool_ok p' (<[i := true]> demo_flags) 2 [page_addr demo_pmm i])).
Proof. exact (slab_alloc_fresh demo_pmm demo_flags 2 [] 1000 demo_pool ltac:(done) eq_refl). Defined.

(** Freeing the same slab object twice is not detected: with three
    1024-byte slots to a page, two objects allocated and one of them freed twice,
    the page goes back to the page allocator although the other object is
    live, and the next allocation hands the page out again. *)
Theorem double_free_releases_live_page :
  let '(a, p1) := slab_alloc 1024 demo_pmm in
  let '(b, p2) := slab_alloc 1024 p1 in
  let '(f1, p3) := slab_free 0x80002420 p2 in
  let '(f2, p4) := slab_free 0x80002420 p3 in
  let '(c, _) := alloc p4 in
  a = Ok (Some 0x80002020) ∧ b = Ok (Some 0x80002420) ∧ f1 = Ok true ∧ f2 = Ok true ∧
  c = Ok 0x80002000.
Proof. vm_compute. split_and!; reflexivity. Qed.

End MemTheorems.
