(* ===== verification/Vmm.v ===== *)
(** * kernel/src/mm/vmm: Sv39 page tables

    A page table is the list of the 512 words of its page; [vm_tabs] maps the
    physical address of a page to its words.  A pointer to a page-table entry is
    the pair of its table and index.  Reading a page that is not in [vm_tabs] is
    [Panic].  Pages come from the page allocator, which zeroes them. *)

From S2P Require Import Prelude Pmm.
From stdpp Require Import base list numbers gmap.
From Stdlib Require Import ZArith Lia.

Open Scope Z_scope.

(** ** arch/regs.rs *)

Definition PTE_V : Z := 1.
Definition PTE_R : Z := 2.
Definition PTE_W : Z := 4.
Definition PTE_X : Z := 8.
Definition PTE_U : Z := 16.
Definition PTE_A : Z := 64.
Definition PTE_D : Z := 128.
Definition PTE_LEAF : Z := Z.lor PTE_R PTE_X.
Definition PTE_PPN_SHIFT : Z := 10.
Definition PTE_PPN_MASK : Z := Z.shiftl (Z.shiftl 1 44 - 1) 10.
Definition PTE_FLAGS_MASK : Z := 0x3FF.

(** [sv39_l2_idx], [sv39_l1_idx], [sv39_l0_idx]. *)
Definition sv39_idx (level : nat) (va : Z) : Z :=
  match level with
  | 2%nat => Z.land (Z.shiftr va 30) 0x1FF
  | 1%nat => Z.land (Z.shiftr va 21) 0x1FF
  | _ => Z.land (Z.shiftr va 12) 0x1FF
  end.

(** ** Memory *)

Record Vm := mkVm { vm_pmm : Pmm; vm_tabs : gmap Z (list Z) }.

Abbreviation VM := (SM Vm).

Definition onp {A} (m : PM A) : VM A := λ s,
  let '(r, p) := m (vm_pmm s) in (r, mkVm p (vm_tabs s)).

(** [pmm::alloc_zero()]: the page reads as zeroes. *)
Definition vm_alloc_zero : VM Z :=
  pa ← onp alloc_zero;
  modify (λ s, mkVm (vm_pmm s) (<[pa := replicate 512 0]> (vm_tabs s)));;
  mret pa.

Definition table_at (t : Z) : VM (list Z) := λ s,
  match vm_tabs s !! t with Some tbl => (Ok tbl, s) | None => (Panic, s) end.
Definition table_set (t : Z) (tbl : list Z) : VM unit :=
  modify (λ s, mkVm (vm_pmm s) (<[t := tbl]> (vm_tabs s))).

(** [ptr::read_volatile] and [ptr::write_volatile] of entry [i] of table [t]. *)
Definition read_pte (t i : Z) : VM Z := tbl ← table_at t; lift (idx tbl i).
Definition write_pte (t i pte : Z) : VM unit :=
  tbl ← table_at t;
  tbl ← lift (set_idx tbl i pte);
  table_set t tbl.

Definition pte_valid (pte : Z) : bool := negb (Z.land pte PTE_V =? 0).
Definition pte_leaf (pte : Z) : bool := negb (Z.land pte PTE_LEAF =? 0).
Definition pte_user (pte : Z) : bool := negb (Z.land pte PTE_U =? 0).
(** [(pte & PTE_PPN_MASK) >> PTE_PPN_SHIFT << 12] *)
Definition pte_pa (pte : Z) : Z :=
  Z.shiftl (Z.shiftr (Z.land pte PTE_PPN_MASK) PTE_PPN_SHIFT) 12.
(** [PTE_V | flags | ((pa >> 12) << PTE_PPN_SHIFT)] *)
Definition mk_pte (flags pa : Z) : Z :=
  Z.lor (Z.lor PTE_V flags) (w64 (Z.shiftl (Z.shiftr pa 12) PTE_PPN_SHIFT)).

(** ** walk.rs *)

Definition split_shift (level : nat) : Z := match level with 2%nat => 21 | _ => 12 end.

(** The 512 entries [split_leaf] writes. *)
Definition split_table (pte : Z) (level : nat) : list Z :=
  map (λ i : nat,
         mk_pte (Z.land pte PTE_FLAGS_MASK)
                (w64 (pte_pa pte + w64 (Z.of_nat i * Z.shiftl 1 (split_shift level)))))
      (seq 0 512).

Definition split_leaf (t i pte : Z) (level : nat) : VM unit :=
  new_pa ← vm_alloc_zero;
  if (level =? 2)%nat || (level =? 1)%nat then
    table_set new_pa (split_table pte level);;
    write_pte t i (mk_pte 0 new_pa)
  else fail Inval.

(** [(k+1..=n).rev()] *)
Fixpoint down (n k : nat) : list nat :=
  match n with
  | O => []
  | S m => if (k <? S m)%nat then S m :: down m k else []
  end.

Fixpoint walk_loop (levels : list nat) (table_pa va : Z) (create : bool) : VM Z :=
  match levels with
  | [] => mret table_pa
  | level :: levels =>
      let i := sv39_idx level va in
      pte ← read_pte table_pa i;
      if negb (pte_valid pte) then
        if negb create then fail NoEnt else
        new_pa ← vm_alloc_zero;
        write_pte table_pa i (mk_pte 0 new_pa);;
        walk_loop levels new_pa va create
      else if pte_leaf pte then
        if negb create then fail Inval else
        split_leaf table_pa i pte level;;
        new_pte ← read_pte table_pa i;
        walk_loop levels (pte_pa new_pte) va create
      else walk_loop levels (pte_pa pte) va create
  end.

Definition walk (root_pa va : Z) (leaf_level : nat) (create : bool) : VM (Z * Z) :=
  t ← walk_loop (down 2 leaf_level) root_pa va create;
  if (2 <? leaf_level)%nat then fail Inval else mret (t, sv39_idx leaf_level va).

(** ** map.rs *)

Definition map_one (root_pa va pa flags : Z) (level : nat) : VM unit :=
  slot ← walk root_pa va level true;
  write_pte slot.1 slot.2 (mk_pte flags pa).

Definition low_zero (z k : Z) : bool := Z.land z (Z.shiftl 1 k - 1) =? 0.

Definition best_level (va pa remaining : Z) : nat :=
  if (Z.shiftl 1 30 <=? remaining) && low_zero va 30 && low_zero pa 30 then 2%nat
  else if (Z.shiftl 1 21 <=? remaining) && low_zero va 21 && low_zero pa 21 then 1%nat
  else 0%nat.

Definition level_size (level : nat) : Z :=
  match level with 2%nat => Z.shiftl 1 30 | 1%nat => Z.shiftl 1 21 | _ => Z.shiftl 1 12 end.

Definition AD (flags : Z) : Z := Z.lor (Z.lor flags PTE_A) PTE_D.

(** Every chunk but the last is at least a page, so [size / 4096] iterations,
    rounded up, are always enough. *)
Fixpoint map_loop (fuel : nat) (root_pa va pa remaining flags : Z) : VM unit :=
  if remaining <=? 0 then mret tt else
  match fuel with
  | O => panic
  | S fuel =>
      let level := best_level va pa remaining in
      let chunk := Z.min (level_size level) remaining in
      map_one root_pa va pa (AD flags) level;;
      map_loop fuel root_pa (w64 (va + chunk)) (w64 (pa + chunk)) (remaining - chunk) flags
  end.

Definition map (root_pa va pa size flags : Z) : VM unit :=
  map_loop (Z.to_nat (div_ceil size 4096)) root_pa va pa size flags.

(** [while remaining > 0] with a wrapping [remaining -= 4096]. *)
Fixpoint map_anon (fuel : nat) (root_pa va remaining flags : Z) : VM unit :=
  if remaining =? 0 then mret tt else
  match fuel with
  | O => panic
  | S fuel =>
      page_pa ← vm_alloc_zero;
      map_one root_pa va page_pa (AD flags) 0;;
      map_anon fuel root_pa (w64 (va + 4096)) (w64 (remaining - 4096)) flags
  end.

(** ** unmap.rs *)

Fixpoint unmap (fuel : nat) (root_pa va remaining : Z) : VM unit :=
  if remaining =? 0 then mret tt else
  match fuel with
  | O => panic
  | S fuel =>
      slot ← walk root_pa va 0 false;
      pte ← read_pte slot.1 slot.2;
      (if pte_valid pte && pte_user pte then onp (free (pte_pa pte)) else mret tt);;
      write_pte slot.1 slot.2 0;;
      unmap fuel root_pa (w64 (va + 4096)) (w64 (remaining - 4096))
  end.

(** ** mod.rs *)

Definition new_root : VM Z := vm_alloc_zero.

(** [vmm::init]: an identity map of the first three gigabytes. *)
Definition kernel_leaf (i : Z) : Z :=
  mk_pte (Z.lor (Z.lor (Z.lor (Z.lor (Z.lor PTE_V PTE_R) PTE_W) PTE_X) PTE_A) PTE_D) (Z.shiftl i 30).

Definition vmm_init : VM Z :=
  root_pa ← new_root;
  write_pte root_pa 0 (kernel_leaf 0);;
  write_pte root_pa 1 (kernel_leaf 1);;
  write_pte root_pa 2 (kernel_leaf 2);;
  mret root_pa.

(** The loop of [free_subtree] over the entries of a table; [rec] frees the
    subtree of a child, absent at level 0. *)
Fixpoint free_entries (rec : option (Z → VM unit)) (es : list Z) : VM unit :=
  match es with
  | [] => mret tt
  | pte :: es =>
      (if negb (pte_valid pte) then mret tt
       else if pte_leaf pte then
         if pte_user pte then onp (free (pte_pa pte)) else mret tt
       else match rec with
            | Some rec => rec (pte_pa pte);; onp (free (pte_pa pte))
            | None => mret tt
            end);;
      free_entries rec es
  end.

Fixpoint free_subtree (level : nat) (table : Z) : VM unit :=
  es ← table_at table;
  free_entries (match level with O => None | S l => Some (free_subtree l) end) es.

Definition destroy_root (root_pa : Z) : VM unit :=
  free_subtree 2 root_pa;;
  onp (free root_pa).

(** The offset within a leaf of a level. *)
Definition page_off (level : nat) (va : Z) : Z := Z.land va (level_size level - 1).

(** [translate] and [translate_user], from [level] down. *)
Fixpoint translate_from (level : nat) (user : bool) (pa va : Z) : VM Z :=
  pte ← read_pte pa (sv39_idx level va);
  if negb (pte_valid pte) then mret 0 else
  if pte_leaf pte then
    if user && negb (pte_user pte) then mret 0
    else mret (w64 (pte_pa pte + page_off level va))
  else match level with
       | O => mret 0
       | S l => translate_from l user (pte_pa pte) va
       end.

Definition translate (root_pa va : Z) : VM Z := translate_from 2 false root_pa va.
Definition translate_user (root_pa va : Z) : VM Z := translate_from 2 true root_pa va.
