(* ===== verification/VmmProps.v ===== *)
(** * Page tables: mapping changes exactly the pages it is asked to

    [resolve] is the meaning of a page table: physical address and flags of a
    virtual address.  [tree] says that the tables below a root form a tree of
    distinct pages.  Walking a tree, with table creation and superpage
    splitting, never changes its meaning; writing the entry found changes it
    for that one page. *)

From S2P Require Import Prelude Pmm PmmProps SlabProps Vmm.
From stdpp Require Import base list numbers gmap.
From Stdlib Require Import ZArith Lia.

Open Scope Z_scope.

(** ** Entries *)

Lemma land_low n g m : 0 ≤ g < 1024 → 0 ≤ m < 1024 → Z.land (n * 1024 + g) m = Z.land g m.
Proof.
  intros Hg Hm. change 1024 with (2 ^ 10). rewrite <- (lor_mul_pow2 n g 10) by lia.
  rewrite Z.land_lor_distr_l, land_mul_pow2_low by lia. done.
Qed.

Lemma pte_split e : 0 ≤ e → e = (e / 1024) * 1024 + e mod 1024.
Proof. intros. pose proof (Z.div_mod e 1024). lia. Qed.

Lemma pte_pa_eq e : 0 ≤ e → pte_pa e = 4096 * ((e / 1024) mod 2 ^ 44).
Proof.
  intros He. unfold pte_pa, PTE_PPN_MASK, PTE_PPN_SHIFT. rewrite Z.shiftr_land.
  change (Z.shiftr (Z.shiftl (Z.shiftl 1 44 - 1) 10) 10) with (Z.ones 44).
  rewrite Z.land_ones by lia. rewrite Z.shiftr_div_pow2, Z.shiftl_mul_pow2 by lia.
  change (2 ^ 10) with 1024. change (2 ^ 12) with 4096. lia.
Qed.

Lemma pte_bits_mod e m : 0 ≤ e → 0 ≤ m < 1024 → Z.land e m = Z.land (e mod 1024) m.
Proof.
  intros He Hm. rewrite (pte_split e He) at 1. apply land_low; [|done]. by apply Z.mod_pos_bound.
Qed.

(** Entries with the same flag bits have the same kind. *)
Lemma pte_kind_mod e e' :
  0 ≤ e → 0 ≤ e' → e mod 1024 = e' mod 1024 →
  pte_valid e = pte_valid e' ∧ pte_leaf e = pte_leaf e' ∧ pte_user e = pte_user e'.
Proof.
  intros He He' E. unfold pte_valid, pte_leaf, pte_user, PTE_V, PTE_LEAF, PTE_U.
  rewrite !(pte_bits_mod e), !(pte_bits_mod e'), E by (done || lia). done.
Qed.

Lemma lor_range f : 0 ≤ f < 1024 → 0 ≤ Z.lor 1 f < 1024.
Proof.
  intros Hf. split; [apply Z.lor_nonneg; lia|].
  destruct (Z.eq_dec (Z.lor 1 f) 0) as [E|E]; [lia|]. change 1024 with (2 ^ 10).
  apply Z.log2_lt_pow2; [pose proof (proj2 (Z.lor_nonneg 1 f)); lia|].
  rewrite Z.log2_lor by lia. change (Z.log2 1) with 0.
  destruct (Z.eq_dec f 0) as [->|]; [done|]. apply Z.max_lub_lt; [lia|]. apply Z.log2_lt_pow2; lia.
Qed.

(** A page-aligned address of the 56-bit physical space. *)
Definition page_pa (pa : Z) : Prop := pa mod 4096 = 0 ∧ 0 ≤ pa < 2 ^ 56.

Lemma mk_pte_eq f pa :
  0 ≤ f < 1024 → page_pa pa → mk_pte f pa = (pa / 4096) * 1024 + Z.lor 1 f.
Proof.
  intros Hf [Hm Hp]. unfold mk_pte, PTE_V, PTE_PPN_SHIFT.
  rewrite Z.shiftr_div_pow2, Z.shiftl_mul_pow2 by lia. change (2 ^ 12) with 4096.
  change (2 ^ 10) with 1024 in *. change (2 ^ 56) with (4096 * 17592186044416) in Hp.
  assert (0 ≤ pa / 4096 < 17592186044416) as Hd by (pose proof (Z.div_mod pa 4096); lia).
  rewrite w64_small by lia. rewrite Z.lor_comm. change 1024 with (2 ^ 10).
  apply lor_mul_pow2; [lia|]. by apply lor_range.
Qed.

Lemma mk_pte_spec f pa :
  0 ≤ f < 1024 → page_pa pa →
  0 ≤ mk_pte f pa ∧ pte_pa (mk_pte f pa) = pa ∧ pte_valid (mk_pte f pa) = true ∧
  pte_leaf (mk_pte f pa) = pte_leaf f ∧ mk_pte f pa mod 1024 = Z.lor 1 f.
Proof.
  intros Hf Hp. pose proof (lor_range f Hf) as Hr. rewrite (mk_pte_eq f pa Hf Hp).
  destruct Hp as [Hm Hp]. change (2 ^ 56) with (4096 * 17592186044416) in Hp.
  pose proof (Z.div_mod pa 4096). pose proof (Z.div_pos pa 4096).
  assert (0 ≤ pa / 4096 < 17592186044416) as Hd by lia.
  set (n := pa / 4096) in *. set (g := Z.lor 1 f) in *.
  assert ((n * 1024 + g) / 1024 = n) as Ed.
  { rewrite Z.add_comm, Z.div_add by lia. rewrite Z.div_small by lia. lia. }
  assert ((n * 1024 + g) mod 1024 = g) as Em.
  { rewrite Z.add_comm, Z.mod_add by lia. by apply Z.mod_small. }
  split_and!; [lia| | | |done].
  - rewrite pte_pa_eq, Ed by lia. rewrite (Z.mod_small n (2 ^ 44)) by (change (2 ^ 44) with 17592186044416; lia). lia.
  - unfold pte_valid, PTE_V. rewrite land_low by lia. unfold g.
    rewrite Z.land_comm, Z.land_lor_distr_r. apply negb_true_iff, Z.eqb_neq.
    intros E0. apply Z.lor_eq_0_iff in E0 as [E0 _]. done.
  - unfold pte_leaf. change PTE_LEAF with 10. rewrite land_low by lia. unfold g.
    rewrite Z.land_lor_distr_l. done.
Qed.

(** ** Addresses *)

Definition span (level : nat) : Z := match level with 2%nat => 2 ^ 30 | 1%nat => 2 ^ 21 | _ => 2 ^ 12 end.

Lemma level_span level : level_size level = span level.
Proof. by destruct level as [|[|[|]]]. Qed.

Lemma sv39_idx_eq level va : (level ≤ 2)%nat → sv39_idx level va = (va / span level) mod 512.
Proof.
  intros Hl. destruct level as [|[|[|]]]; [..|lia]; unfold sv39_idx, span;
    change 0x1FF with (Z.ones 9); rewrite Z.land_ones, Z.shiftr_div_pow2 by lia; done.
Qed.

Lemma sv39_idx_range level va : (level ≤ 2)%nat → 0 ≤ sv39_idx level va < 512.
Proof. intros. rewrite sv39_idx_eq by done. by apply Z.mod_pos_bound. Qed.

Lemma page_off_eq level va : page_off level va = va mod span level.
Proof.
  unfold page_off. rewrite level_span.
  destruct level as [|[|[|]]]; unfold span;
    match goal with |- Z.land va (2 ^ ?k - 1) = _ =>
      change (2 ^ k - 1) with (Z.ones k); by rewrite Z.land_ones end.
Qed.

Lemma span_pos level : 0 < span level.
Proof. by destruct level as [|[|[|]]]. Qed.

Lemma span_S level : (level < 2)%nat → span (S level) = 512 * span level.
Proof. by destruct level as [|[|]]; intros; [..|lia]. Qed.

(** The offset in a large page is the index one level down and the rest. *)
Lemma page_off_S level va :
  (level < 2)%nat → page_off (S level) va = sv39_idx level va * span level + page_off level va.
Proof.
  intros Hl. rewrite !page_off_eq, sv39_idx_eq, span_S by lia.
  pose proof (span_pos level). rewrite Z.mul_comm, Z.rem_mul_r by lia. lia.
Qed.

(** ** The meaning of a table *)

(** Physical address and flag bits for [va]. *)
Fixpoint resolve (level : nat) (tabs : gmap Z (list Z)) (pa va : Z) : option (Z * Z) :=
  match tabs !! pa with
  | None => None
  | Some tbl =>
      match tbl !! Z.to_nat (sv39_idx level va) with
      | None => None
      | Some e =>
          if negb (pte_valid e) then None else
          if pte_leaf e then Some (pte_pa e + page_off level va, e mod 1024)
          else match level with O => None | S l => resolve l tabs (pte_pa e) va end
      end
  end.

(** The well-formed entries of a table at a level, with the pages below them. *)
Definition entry_ok (sub : Z → list Z → Prop) (level : nat) (e : Z) (F : list Z) : Prop :=
  0 ≤ e ∧
  if negb (pte_valid e) then F = []
  else if pte_leaf e then F = [] ∧ pte_pa e + span level ≤ 2 ^ 56
  else match level with O => False | S _ => sub (pte_pa e) F end.

Fixpoint tree (level : nat) (tabs : gmap Z (list Z)) (pa : Z) (F : list Z) : Prop :=
  ∃ tbl Fs, tabs !! pa = Some tbl ∧ length tbl = 512%nat ∧ F = pa :: concat Fs ∧
    Forall2 (entry_ok (match level with O => λ _ _, False | S l => tree l tabs end) level) tbl Fs.

Lemma tree_unfold level tabs pa F :
  tree level tabs pa F ↔
  ∃ tbl Fs, tabs !! pa = Some tbl ∧ length tbl = 512%nat ∧ F = pa :: concat Fs ∧
    Forall2 (entry_ok (match level with O => λ _ _, False | S l => tree l tabs end) level) tbl Fs.
Proof. by destruct level. Qed.

Lemma entry_ok_mono (P Q : Z → list Z → Prop) level e F :
  (∀ pa, P pa F → Q pa F) → entry_ok P level e F → entry_ok Q level e F.
Proof.
  unfold entry_ok. intros H [He Hk]. split; [done|].
  destruct (negb (pte_valid e)); [done|]. destruct (pte_leaf e); [done|]. destruct level; auto.
Qed.

(** A tree and its meaning depend only on its own pages. *)
Lemma tree_agree level tabs tabs' pa F :
  (∀ pg, pg ∈ F → tabs' !! pg = tabs !! pg) → tree level tabs pa F → tree level tabs' pa F.
Proof.
  revert pa F. induction level as [|l IH]; intros pa F Hag (tbl & Fs & Ht & Hl & -> & Hes);
    apply tree_unfold; exists tbl, Fs; (split; [rewrite Hag by left; done|]); (split; [done|]);
    (split; [done|]).
  - done.
  - apply Forall2_same_length_lookup_2; [by eapply Forall2_length|].
    intros i e Fi He HFi. eapply entry_ok_mono; [|by eapply Forall2_lookup_lr].
    intros pa'. apply IH. intros pg Hpg. apply Hag. right. by eapply concat_elem.
Qed.

Lemma resolve_agree level tabs tabs' pa F va :
  (∀ pg, pg ∈ F → tabs' !! pg = tabs !! pg) → tree level tabs pa F →
  resolve level tabs' pa va = resolve level tabs pa va.
Proof.
  revert pa F. induction level as [|l IH]; intros pa F Hag (tbl & Fs & Ht & Hl & -> & Hes); simpl;
    rewrite Hag, Ht by left; [done|].
  destruct (tbl !! _) as [e|] eqn:He; [|done]. destruct (pte_valid e) eqn:Hv; [|done].
  destruct (pte_leaf e) eqn:Hlf; [done|]. cbn [negb].
  destruct (Forall2_lookup_l _ _ _ _ _ Hes He) as (Fi & HFi & _ & Hok).
  rewrite Hv, Hlf in Hok. simpl in Hok. apply (IH _ Fi); [|done].
  intros pg Hpg. apply Hag. right. by eapply concat_elem.
Qed.

(** ** Replacing one entry of the root table *)

Definition sub_tree (level : nat) (tabs : gmap Z (list Z)) : Z → list Z → Prop :=
  match level with O => λ _ _, False | S l => tree l tabs end.

Definition entry_resolve (level : nat) (tabs : gmap Z (list Z)) (e va : Z) : option (Z * Z) :=
  if negb (pte_valid e) then None else
  if pte_leaf e then Some (pte_pa e + page_off level va, e mod 1024)
  else match level with O => None | S l => resolve l tabs (pte_pa e) va end.

Lemma resolve_entry level tabs pa va tbl e :
  tabs !! pa = Some tbl → tbl !! Z.to_nat (sv39_idx level va) = Some e →
  resolve level tabs pa va = entry_resolve level tabs e va.
Proof. intros Ht He. destruct level; cbn [resolve]; by rewrite Ht, He. Qed.

Section Replace.
Context (level : nat) (tabs tabs' : gmap Z (list Z)) (pa : Z) (tbl : list Z) (Fs : list (list Z)).
Context (i : nat) (e' : Z) (Fi' : list Z).
Hypothesis Hlev : (level ≤ 2)%nat.
Hypothesis Ht : tabs !! pa = Some tbl.
Hypothesis Hlen : length tbl = 512%nat.
Hypothesis Hes : Forall2 (entry_ok (sub_tree level tabs) level) tbl Fs.
Hypothesis Ht' : tabs' !! pa = Some (<[i := e']> tbl).
Hypothesis Hag : ∀ j Fj pg, j ≠ i → Fs !! j = Some Fj → pg ∈ Fj → tabs' !! pg = tabs !! pg.

Lemma entries_replace :
  entry_ok (sub_tree level tabs') level e' Fi' →
  Forall2 (entry_ok (sub_tree level tabs') level) (<[i := e']> tbl) (<[i := Fi']> Fs).
Proof using Hlev Ht Hlen Hes Ht' Hag.
  intros He'. pose proof (Forall2_length _ _ _ Hes) as Hl.
  apply Forall2_same_length_lookup_2; [by rewrite !length_insert|].
  intros j e Fj He HFj. destruct (decide (j = i)) as [->|Hne].
  - pose proof (lookup_lt_Some _ _ _ He) as Hlt. rewrite length_insert in Hlt.
    rewrite list_lookup_insert_eq in He by done. rewrite list_lookup_insert_eq in HFj by lia.
    by injection He as <-; injection HFj as <-.
  - rewrite list_lookup_insert_ne in He by done. rewrite list_lookup_insert_ne in HFj by done.
    eapply entry_ok_mono; [|by eapply Forall2_lookup_lr].
    unfold sub_tree. destruct level as [|l]; [done|]. intros c. apply tree_agree.
    intros pg Hpg. by eapply Hag.
Qed.

Lemma tree_replace :
  entry_ok (sub_tree level tabs') level e' Fi' →
  tree level tabs' pa (pa :: concat (<[i := Fi']> Fs)).
Proof using Hlev Ht Hlen Hes Ht' Hag.
  intros He'. apply tree_unfold. exists (<[i := e']> tbl), (<[i := Fi']> Fs).
  split; [done|]. split; [by rewrite length_insert|]. split; [done|]. by apply entries_replace.
Qed.

Lemma resolve_replace va :
  resolve level tabs' pa va =
  if decide (Z.to_nat (sv39_idx level va) = i) then entry_resolve level tabs' e' va
  else resolve level tabs pa va.
Proof using Hlev Ht Hlen Hes Ht' Hag.
  pose proof (sv39_idx_range level va Hlev) as Hr.
  destruct (decide (Z.to_nat (sv39_idx level va) = i)) as [E|Hne].
  - apply (resolve_entry _ _ _ _ _ _ Ht'). rewrite E. apply list_lookup_insert_eq. lia.
  - destruct (lookup_lt_is_Some_2 tbl (Z.to_nat (sv39_idx level va))) as [e He]; [lia|].
    rewrite (resolve_entry _ _ _ _ _ e Ht') by (by rewrite list_lookup_insert_ne).
    rewrite (resolve_entry _ _ _ _ _ e Ht He).
    destruct (Forall2_lookup_l _ _ _ _ _ Hes He) as (Fj & HFj & _ & Hok).
    unfold entry_resolve. destruct (pte_valid e); [|done]. destruct (pte_leaf e); [done|].
    destruct level as [|l]; [done|]. simpl in Hok. eapply resolve_agree; [|exact Hok].
    intros pg Hpg. eapply Hag; [|exact HFj|done]. done.
Qed.
End Replace.

(** ** Machine states *)

(** The tables below [pa] form a tree of distinct pages in use. *)
Record vm_ok (level : nat) (s : Vm) (pa : Z) (F : list Z) (fl : list bool) : Prop := {
  vo_rep : pmm_rep (vm_pmm s) fl;
  vo_base : pm_base (vm_pmm s) mod 4096 = 0;
  vo_end : pm_base (vm_pmm s) + 4096 * len fl ≤ 2 ^ 56;
  vo_tree : tree level (vm_tabs s) pa F;
  vo_nodup : NoDup F;
  vo_used : ∀ pg, pg ∈ F → ∃ j, pg = page_addr (vm_pmm s) j ∧ fl !! j = Some true }.

(** [s'] extends [s]: some pages were taken and turned into tables of the tree,
    the rest of the memory and the meaning of the tree are the same. *)
Record ext (level : nat) (pa : Z) (s : Vm) (F : list Z) (fl : list bool)
    (s' : Vm) (F' : list Z) (fl' : list bool) : Prop := {
  ex_base : pm_base (vm_pmm s') = pm_base (vm_pmm s);
  ex_len : length fl' = length fl;
  ex_used : ∀ j, fl !! j = Some true → fl' !! j = Some true;
  ex_new : ∀ pg, pg ∈ F' → pg ∈ F ∨ ∃ j, pg = page_addr (vm_pmm s) j ∧ fl !! j = Some false;
  ex_sub : ∀ pg, pg ∈ F → pg ∈ F';
  ex_tabs : ∀ pg, pg ∉ F' → vm_tabs s' !! pg = vm_tabs s !! pg;
  ex_same : ∀ va, resolve level (vm_tabs s') pa va = resolve level (vm_tabs s) pa va }.

Lemma ext_refl level pa s F fl : ext level pa s F fl s F fl.
Proof. constructor; try done. by left. Qed.

Lemma ext_trans level pa s F fl s1 F1 fl1 s2 F2 fl2 :
  ext level pa s F fl s1 F1 fl1 → ext level pa s1 F1 fl1 s2 F2 fl2 →
  ext level pa s F fl s2 F2 fl2.
Proof.
  intros [B1 L1 U1 N1 C1 T1 S1] [B2 L2 U2 N2 C2 T2 S2].
  assert (∀ j, page_addr (vm_pmm s1) j = page_addr (vm_pmm s) j) as Ea
    by (intros; unfold page_addr; by rewrite B1).
  assert (∀ j, fl1 !! j = Some false → fl !! j = Some false) as Hback.
  { intros j Hj. destruct (fl !! j) as [[]|] eqn:E; [by rewrite (U1 j E) in Hj|done|].
    apply lookup_ge_None in E. apply lookup_lt_Some in Hj. lia. }
  constructor; [congruence|congruence|auto| |auto| |congruence].
  - intros pg Hpg. destruct (N2 pg Hpg) as [H|(j & -> & Hj)]; [auto|].
    right. exists j. split; [apply Ea|auto].
  - intros pg Hpg. rewrite T2, T1; auto.
Qed.

Lemma vm_alloc_zero_spec s fl :
  pmm_rep (vm_pmm s) fl →
  vm_alloc_zero s = (Err NoMem, s) ∨
  ∃ i p', fl !! i = Some false ∧ pmm_rep p' (<[i := true]> fl) ∧
    pm_base p' = pm_base (vm_pmm s) ∧
    vm_alloc_zero s = (Ok (page_addr (vm_pmm s) i),
      mkVm p' (<[page_addr (vm_pmm s) i := replicate 512 0]> (vm_tabs s))).
Proof.
  intros Hrep. unfold vm_alloc_zero, onp, alloc_zero.
  destruct (alloc_spec (vm_pmm s) fl Hrep) as [[E _]|(i & p' & [Hi _] & E & Hr & Hb & _)].
  - left. unfold mbind, SM_bind. rewrite E. by destruct s.
  - right. exists i, p'. split_and!; [done..|]. unfold mbind, SM_bind. by rewrite E.
Qed.

(** ** Linking a new table *)

(** A table whose entries are leaves or invalid. *)
Definition flat (level : nat) (e : Z) : Prop :=
  0 ≤ e ∧ (pte_valid e = false ∨
           pte_valid e = true ∧ pte_leaf e = true ∧ pte_pa e + span level ≤ 2 ^ 56).

Lemma concat_nils {A} n : concat (replicate n ([] : list A)) = [].
Proof. by induction n. Qed.

Lemma flat_tree level tabs n ct :
  tabs !! n = Some ct → length ct = 512%nat → Forall (flat level) ct → tree level tabs n [n].
Proof.
  intros Ht Hl Hf. apply tree_unfold. exists ct, (replicate 512 []). rewrite concat_nils.
  split_and!; [done..|]. apply Forall2_same_length_lookup_2; [by rewrite length_replicate|].
  intros i e Fi He HFi. apply lookup_replicate in HFi as [-> _].
  destruct (Forall_lookup_1 _ _ _ _ Hf He) as [H0 [Hv|(Hv & Hlf & Hb)]]; (split; [done|]).
  - by rewrite Hv.
  - by rewrite Hv, Hlf.
Qed.

Lemma page_addr_page p fl i :
  pmm_rep p fl → pm_base p mod 4096 = 0 → pm_base p + 4096 * len fl ≤ 2 ^ 56 →
  (i < length fl)%nat → page_pa (page_addr p i).
Proof.
  intros Hrep Hb He Hi. pose proof (pr_base _ _ Hrep). unfold page_pa, page_addr, len in *. split; [|lia].
  rewrite Z.add_comm, Z.mul_comm, Z.add_comm, Z.mod_add by lia. done.
Qed.

Lemma link_table l s pa tbl Fs fl i e j p' ct :
  (S l ≤ 2)%nat → vm_ok (S l) s pa (pa :: concat Fs) fl →
  vm_tabs s !! pa = Some tbl → length tbl = 512%nat →
  Forall2 (entry_ok (sub_tree (S l) (vm_tabs s)) (S l)) tbl Fs →
  tbl !! i = Some e → Fs !! i = Some [] →
  fl !! j = Some false → pmm_rep p' (<[j := true]> fl) → pm_base p' = pm_base (vm_pmm s) →
  length ct = 512%nat → Forall (flat l) ct →
  (∀ va tabs, tabs !! page_addr (vm_pmm s) j = Some ct → Z.to_nat (sv39_idx (S l) va) = i →
     resolve l tabs (page_addr (vm_pmm s) j) va = entry_resolve (S l) (vm_tabs s) e va) →
  let n := page_addr (vm_pmm s) j in
  let s' := mkVm p' (<[pa := <[i := mk_pte 0 n]> tbl]> (<[n := ct]> (vm_tabs s))) in
  let Fs' := <[i := [n]]> Fs in
  vm_ok (S l) s' pa (pa :: concat Fs') (<[j := true]> fl) ∧
  ext (S l) pa s (pa :: concat Fs) fl s' (pa :: concat Fs') (<[j := true]> fl) ∧
  Forall2 (entry_ok (sub_tree (S l) (vm_tabs s')) (S l)) (<[i := mk_pte 0 n]> tbl) Fs'.
Proof.
  intros Hl Hok Ht Hlen Hes He HFi Hj Hrep' Hbase Hct Hflat Hres n s' Fs'.
  destruct Hok as [Hrep Hb Hend Htree Hnd Hused].
  pose proof (lookup_lt_Some _ _ _ Hj) as Hjl.
  assert (n ∉ pa :: concat Fs) as Hfresh.
  { intros Hin. destruct (Hused n Hin) as (j' & Ej & Hj'). unfold n in Ej.
    assert (j = j') as <- by (unfold page_addr in Ej; lia). congruence. }
  assert (n ≠ pa) as Hnpa by (intros ->; apply Hfresh; by left).
  assert (i < length Fs)%nat as Hil by (by eapply lookup_lt_Some).
  assert (concat Fs' ≡ₚ n :: concat Fs) as Hperm.
  { unfold Fs'. rewrite concat_insert_perm, (concat_perm Fs i []) by done. done. }
  destruct (mk_pte_spec 0 n) as (H0 & Hpa & Hv & Hlf & _); [lia|by eapply page_addr_page|].
  assert (vm_tabs s' !! n = Some ct) as Hn by (simpl; rewrite lookup_insert_ne by done; apply lookup_insert_eq).
  assert (∀ k Fj pg, k ≠ i → Fs !! k = Some Fj → pg ∈ Fj → vm_tabs s' !! pg = vm_tabs s !! pg) as Hag.
  { intros k Fj pg Hk HFj Hpg. simpl.
    assert (pg ∈ concat Fs) as Hin by (by eapply concat_elem).
    apply NoDup_cons in Hnd as [Hnd _]. rewrite !lookup_insert_ne; [done|set_solver..]. }
  assert (vm_tabs s' !! pa = Some (<[i := mk_pte 0 n]> tbl)) as Ht' by apply lookup_insert_eq.
  assert (NoDup (pa :: concat Fs')) as Hnd'.
  { rewrite Hperm. apply NoDup_cons in Hnd as [? ?]. apply NoDup_cons. split; [set_solver|].
    apply NoDup_cons. set_solver. }
  assert (entry_ok (sub_tree (S l) (vm_tabs s')) (S l) (mk_pte 0 n) [n]) as Hne.
  { split; [done|]. rewrite Hv, Hlf. change (pte_leaf 0) with false. simpl. rewrite Hpa.
    by eapply flat_tree. }
  split_and!; [| |by eapply entries_replace; [exact Hl|exact Ht|done|exact Hes|exact Ht'|exact Hag|]].
  - constructor; [done|simpl; by rewrite Hbase|simpl; rewrite len_insert, Hbase; done| |done|].
    + eapply tree_replace; [exact Hl|exact Ht|done|exact Hes|exact Ht'|exact Hag|done].
    + intros pg Hpg. rewrite Hperm in Hpg.
      assert (pg = n ∨ pg ∈ pa :: concat Fs) as [->|Hin] by set_solver.
      * exists j. rewrite list_lookup_insert_eq by done. split; [|done]. unfold n, page_addr. simpl. by rewrite Hbase.
      * destruct (Hused pg Hin) as (j' & -> & Hj'). exists j'.
        split; [unfold page_addr; simpl; by rewrite Hbase|].
        rewrite list_lookup_insert_ne; [done|]. intros ->. congruence.
  - constructor; [done|by rewrite length_insert| | | | |].
    + intros j' Hj'. rewrite list_lookup_insert_ne; [done|]. intros ->. congruence.
    + intros pg Hpg. rewrite Hperm in Hpg.
      assert (pg = n ∨ pg ∈ pa :: concat Fs) as [->|Hin] by set_solver; [right; eauto|by left].
    + intros pg Hpg. rewrite Hperm. set_solver.
    + intros pg Hpg. rewrite Hperm in Hpg. simpl. rewrite !lookup_insert_ne by set_solver. done.
    + intros va. rewrite (resolve_replace (S l) (vm_tabs s) _ pa tbl Fs i (mk_pte 0 n) Hl Ht Hlen Hes Ht' Hag).
      destruct (decide _) as [E|]; [|done].
      rewrite (resolve_entry (S l) (vm_tabs s) pa va tbl e Ht) by (by rewrite E).
      rewrite <- (Hres va (vm_tabs s') Hn E). unfold entry_resolve. rewrite Hv, Hlf, Hpa. done.
Qed.

Lemma zero_table_flat l : Forall (flat l) (replicate 512 0).
Proof. apply Forall_replicate. split; [done|]. by left. Qed.

Lemma zero_table_resolve l tabs n va :
  (l ≤ 2)%nat → tabs !! n = Some (replicate 512 0) → resolve l tabs n va = None.
Proof.
  intros Hl Ht. pose proof (sv39_idx_range l va Hl).
  rewrite (resolve_entry l tabs n va _ 0 Ht); [done|]. apply lookup_replicate. lia.
Qed.

(** The sub-pages of a leaf. *)
Lemma split_entry l e i :
  (l < 2)%nat → 0 ≤ e → pte_valid e = true → pte_pa e + span (S l) ≤ 2 ^ 56 → (i < 512)%nat →
  ∃ e', split_table e (S l) !! i = Some e' ∧ 0 ≤ e' ∧ pte_valid e' = true ∧
        pte_leaf e' = pte_leaf e ∧ e' mod 1024 = e mod 1024 ∧
        pte_pa e' = pte_pa e + Z.of_nat i * span l.
Proof.
  intros Hl He Hv Hb Hi. pose proof (span_S l Hl) as Hs. pose proof (span_pos l) as Hp.
  assert (Z.shiftl 1 (split_shift (S l)) = span l) as Esh by (destruct l as [|[|]]; [done|done|lia]).
  assert (span l mod 4096 = 0) as Hsm by (by destruct l as [|[|[|]]]).
  pose proof (pte_pa_eq e He) as Epa. pose proof (Z.mod_pos_bound (e / 1024) (2 ^ 44) ltac:(done)) as Hpb.
  assert (0 ≤ Z.of_nat i * span l < span (S l)) as Hoff by nia.
  set (f := Z.land e PTE_FLAGS_MASK).
  assert (f = e mod 1024) as Ef
    by (unfold f, PTE_FLAGS_MASK; change 0x3FF with (Z.ones 10); by rewrite Z.land_ones).
  pose proof (Z.mod_pos_bound e 1024 ltac:(lia)) as Hf.
  set (sub := pte_pa e + Z.of_nat i * span l).
  assert (page_pa sub) as Hsub.
  { split; [|unfold sub; lia]. unfold sub. rewrite Epa, Z.add_comm, Z.mul_comm, (Z.mul_comm 4096).
    rewrite Z.mod_add by lia. rewrite <- Zmult_mod_idemp_l, Hsm. done. }
  destruct (mk_pte_spec f sub) as (H0 & Hpa & Hv' & Hlf & Hm); [lia|done|].
  exists (mk_pte f sub). split_and!; [|done|done| | |done].
  - unfold split_table. rewrite Esh, list_lookup_fmap, lookup_seq_lt by done. simpl. fold f.
    do 2 f_equal. rewrite (w64_small (Z.of_nat i * span l)), w64_small; [done|..];
      change (2 ^ 56) with 72057594037927936 in *; unfold sub in *; lia.
  - rewrite Hlf. destruct (pte_kind_mod f e) as (_ & -> & _); [lia|done| |done].
    rewrite Ef. by apply Z.mod_mod.
  - rewrite Hm, <- Ef. unfold pte_valid, PTE_V in Hv.
    rewrite (pte_bits_mod e) in Hv by lia. rewrite <- Ef in Hv.
    apply negb_true_iff, Z.eqb_neq in Hv. apply Z.bits_inj'. intros k Hk. rewrite Z.lor_spec.
    destruct (Z.eq_dec k 0) as [->|Hk0].
    + change 1 with (Z.ones 1) in Hv. rewrite Z.land_ones in Hv by lia.
      destruct (Z.testbit f 0) eqn:Eb; [apply orb_true_r|].
      pose proof (Z.bit0_mod f) as E0. rewrite Eb in E0. simpl in E0. change (2 ^ 1) with 2 in Hv. lia.
    + change 1 with (2 ^ 0). by rewrite Z.pow2_bits_false by lia.
Qed.

Lemma split_table_flat l e :
  (l < 2)%nat → 0 ≤ e → pte_valid e = true → pte_leaf e = true → pte_pa e + span (S l) ≤ 2 ^ 56 →
  length (split_table e (S l)) = 512%nat ∧ Forall (flat l) (split_table e (S l)).
Proof.
  intros Hl He Hv Hlf Hb. assert (length (split_table e (S l)) = 512%nat) as Hlen
    by (unfold split_table; by rewrite length_map, length_seq).
  split; [done|]. apply Forall_lookup. intros i x Hx.
  pose proof (lookup_lt_Some _ _ _ Hx) as Hi. rewrite Hlen in Hi.
  destruct (split_entry l e i Hl He Hv Hb Hi) as (e' & He' & H0 & Hv' & Hlf' & _ & Hpa).
  rewrite He' in Hx. injection Hx as <-. split; [done|]. right. split; [done|]. split; [congruence|].
  rewrite Hpa. pose proof (span_S l Hl). pose proof (span_pos l). nia.
Qed.

Lemma split_table_resolve l e tabs tabs0 n va :
  (l < 2)%nat → 0 ≤ e → pte_valid e = true → pte_leaf e = true → pte_pa e + span (S l) ≤ 2 ^ 56 →
  tabs !! n = Some (split_table e (S l)) →
  resolve l tabs n va = entry_resolve (S l) tabs0 e va.
Proof.
  intros Hl He Hv Hlf Hb Ht. pose proof (sv39_idx_range l va ltac:(lia)) as Hr.
  destruct (split_entry l e (Z.to_nat (sv39_idx l va)) Hl He Hv Hb) as (e' & He' & H0 & Hv' & Hlf' & Hm & Hpa);
    [lia|].
  rewrite (resolve_entry l tabs n va _ e' Ht He'). unfold entry_resolve.
  rewrite Hv, Hlf, Hv', Hlf', Hlf, Hm, Hpa, page_off_S by done. cbn [negb].
  do 2 f_equal. rewrite Z2Nat.id by lia. lia.
Qed.

(** ** Reading and writing entries *)

Lemma read_pte_ok s t tbl i e :
  vm_tabs s !! t = Some tbl → 0 ≤ i → tbl !! Z.to_nat i = Some e → read_pte t i s = (Ok e, s).
Proof.
  intros Ht Hi He. unfold read_pte, table_at, mbind, SM_bind, lift. rewrite Ht.
  by rewrite (idx_ok _ _ _ He).
Qed.

Lemma write_pte_ok s t tbl i e :
  vm_tabs s !! t = Some tbl → 0 ≤ i < len tbl →
  write_pte t i e s = (Ok tt, mkVm (vm_pmm s) (<[t := <[Z.to_nat i := e]> tbl]> (vm_tabs s))).
Proof.
  intros Ht Hi. unfold write_pte, table_at, mbind, SM_bind, lift. rewrite Ht.
  by rewrite set_idx_ok.
Qed.

(** The entry of [va] in the root table of a tree. *)
Lemma vm_entry level s pa F fl va :
  (level ≤ 2)%nat → vm_ok level s pa F fl →
  ∃ tbl Fs e Fi, vm_tabs s !! pa = Some tbl ∧ length tbl = 512%nat ∧ F = pa :: concat Fs ∧
    Forall2 (entry_ok (sub_tree level (vm_tabs s)) level) tbl Fs ∧
    tbl !! Z.to_nat (sv39_idx level va) = Some e ∧ Fs !! Z.to_nat (sv39_idx level va) = Some Fi ∧
    entry_ok (sub_tree level (vm_tabs s)) level e Fi ∧
    read_pte pa (sv39_idx level va) s = (Ok e, s).
Proof.
  intros Hl Hok. pose proof (sv39_idx_range level va Hl) as Hr.
  destruct (proj1 (tree_unfold _ _ _ _) (vo_tree _ _ _ _ _ Hok)) as (tbl & Fs & Ht & Hlen & -> & Hes).
  destruct (lookup_lt_is_Some_2 tbl (Z.to_nat (sv39_idx level va))) as [e He]; [lia|].
  destruct (Forall2_lookup_l _ _ _ _ _ Hes He) as (Fi & HFi & Hei).
  exists tbl, Fs, e, Fi. split_and!; try done. eapply read_pte_ok; [done|lia|done].
Qed.

(** The child of a pointer entry is a tree of its own. *)
Lemma vm_child l s pa Fs fl i tbl e Fi :
  vm_ok (S l) s pa (pa :: concat Fs) fl → 
  Forall2 (entry_ok (sub_tree (S l) (vm_tabs s)) (S l)) tbl Fs →
  tbl !! i = Some e → Fs !! i = Some Fi → pte_valid e = true → pte_leaf e = false →
  vm_ok l s (pte_pa e) Fi fl.
Proof.
  intros [Hrep Hb Hend Htree Hnd Hused] Hes He HFi Hv Hlf.
  pose proof (concat_perm Fs i Fi HFi) as Hperm. constructor; try done.
  - destruct (Forall2_lookup_lr _ _ _ _ _ _ Hes He HFi) as [_ Hk]. by rewrite Hv, Hlf in Hk.
  - apply NoDup_cons in Hnd as [_ Hnd]. rewrite Hperm in Hnd. by apply NoDup_app in Hnd as [? _].
  - intros pg Hpg. apply Hused. right. by eapply concat_elem.
Qed.

(** What happens below the child happens to the whole tree. *)
Lemma vm_lift l s s' pa Fs fl fl' i tbl e Fi Fi' :
  (S l ≤ 2)%nat → vm_ok (S l) s pa (pa :: concat Fs) fl →
  vm_tabs s !! pa = Some tbl → length tbl = 512%nat →
  Forall2 (entry_ok (sub_tree (S l) (vm_tabs s)) (S l)) tbl Fs →
  tbl !! i = Some e → Fs !! i = Some Fi → pte_valid e = true → pte_leaf e = false → 
  vm_ok l s' (pte_pa e) Fi' fl' → ext l (pte_pa e) s Fi fl s' Fi' fl' →
  vm_ok (S l) s' pa (pa :: concat (<[i := Fi']> Fs)) fl' ∧
  ext (S l) pa s (pa :: concat Fs) fl s' (pa :: concat (<[i := Fi']> Fs)) fl' ∧
  vm_tabs s' !! pa = Some tbl.
Proof.
  intros Hl Hok Ht Hlen Hes He HFi Hv Hlf Hok' [B L U N C T Sm].
  pose proof (concat_perm Fs i Fi HFi) as Hperm.
  pose proof (concat_insert_perm Fs i Fi' ltac:(by eapply lookup_lt_Some)) as Hperm'.
  destruct Hok as [Hrep Hb Hend Htree Hnd Hused].
  assert (∀ pg, pg ∈ pa :: others i Fs → pg ∉ Fi') as Hsep.
  { intros pg Hpg Hin. destruct (N pg Hin) as [Hold|(j & -> & Hj)].
    - rewrite Hperm in Hnd. apply NoDup_cons in Hnd as [Hn1 Hnd]. apply NoDup_app in Hnd as (_ & Hd & _).
      apply elem_of_cons in Hpg as [->|Hpg]; [apply Hn1; set_solver|by eapply Hd].
    - destruct (Hused (page_addr (vm_pmm s) j)) as (j' & Ej & Hj'); [rewrite Hperm; set_solver|].
      assert (j = j') as <- by (unfold page_addr in Ej; lia). congruence. }
  assert (vm_tabs s' !! pa = Some tbl) as Ht' by (rewrite T; [done|apply Hsep; by left]).
  assert (<[i := e]> tbl = tbl) as Eid by (by apply list_insert_id).
  assert (vm_tabs s' !! pa = Some (<[i := e]> tbl)) as Ht'' by (by rewrite Eid).
  assert (∀ k Fj pg, k ≠ i → Fs !! k = Some Fj → pg ∈ Fj → vm_tabs s' !! pg = vm_tabs s !! pg) as Hag.
  { intros k Fj pg Hk HFj Hpg. apply T, Hsep. right. by eapply elem_of_others. }
  split_and!; [| |done].
  - destruct Hok' as [Hrep' Hb' Hend' Htree' Hnd' Hused']. constructor; try done.
    + eapply tree_replace; [exact Hl|exact Ht|done|exact Hes|exact Ht''|exact Hag|].
      destruct (Forall2_lookup_lr _ _ _ _ _ _ Hes He HFi) as [H0 _].
      split; [done|]. by rewrite Hv, Hlf.
    + rewrite Hperm'. rewrite Hperm in Hnd. apply NoDup_cons in Hnd as [Hn1 Hnd].
      apply NoDup_app in Hnd as (_ & _ & Hnd). apply NoDup_cons. split.
      * intros Hin. apply elem_of_app in Hin as [Hin|Hin]; [|set_solver].
        by apply (Hsep pa); [left|].
      * apply NoDup_app. split; [done|]. split; [|done]. intros pg Hpg Ho. by apply (Hsep pg); [right|].
    + intros pg Hpg. rewrite Hperm' in Hpg.
      destruct (decide (pg ∈ Fi')) as [Hin|Hout]; [by apply Hused'|].
      destruct (Hused pg) as (j & -> & Hj); [rewrite Hperm; set_solver|].
      exists j. split; [unfold page_addr; by rewrite B|auto].
  - constructor; [done|done|done| | | |].
    + intros pg Hpg. rewrite Hperm' in Hpg. rewrite Hperm.
      destruct (decide (pg ∈ Fi')) as [Hin|Hout]; [|left; set_solver].
      destruct (N pg Hin) as [?|?]; [left; set_solver|by right].
    + intros pg Hpg. rewrite Hperm in Hpg. rewrite Hperm'. set_solver.
    + intros pg Hpg. rewrite Hperm' in Hpg. apply T. set_solver.
    + intros va. rewrite (resolve_replace (S l) (vm_tabs s) _ pa tbl Fs i e Hl Ht Hlen Hes Ht'' Hag).
      destruct (decide _) as [E|]; [|done].
      rewrite (resolve_entry (S l) (vm_tabs s) pa va tbl e Ht) by (by rewrite E).
      unfold entry_resolve. rewrite Hv, Hlf. cbn [negb]. apply Sm.
Qed.

(** ** The walk *)

(** [t] is the table at level [k] on the path of [va]. *)
Fixpoint slot (level k : nat) (tabs : gmap Z (list Z)) (pa va t : Z) : Prop :=
  if decide (level = k) then t = pa else
  match level with
  | O => False
  | S l =>
      ∃ tbl e, tabs !! pa = Some tbl ∧ tbl !! Z.to_nat (sv39_idx level va) = Some e ∧
        pte_valid e = true ∧ pte_leaf e = false ∧ slot l k tabs (pte_pa e) va t
  end.

Lemma slot_here k tabs pa va : slot k k tabs pa va pa.
Proof. destruct k; cbn [slot]; by rewrite decide_True. Qed.

Lemma slot_S l k tabs pa va t tbl e :
  (k ≤ l)%nat → tabs !! pa = Some tbl → tbl !! Z.to_nat (sv39_idx (S l) va) = Some e →
  pte_valid e = true → pte_leaf e = false → slot l k tabs (pte_pa e) va t →
  slot (S l) k tabs pa va t.
Proof.
  intros Hk Ht He Hv Hlf Hs. cbn [slot]. rewrite decide_False by lia. by exists tbl, e.
Qed.

(** The outcome of a walk that may create tables. *)
Definition walked (level k : nat) (pa va : Z) (s : Vm) (F : list Z) (fl : list bool)
    (r : result Z * Vm) : Prop :=
  ∃ F' fl', vm_ok level r.2 pa F' fl' ∧ ext level pa s F fl r.2 F' fl' ∧
    match r.1 with
    | Ok t => slot level k (vm_tabs r.2) pa va t
    | Err e => e = NoMem
    | Panic => False
    end.

(** After its entry points to a table, a walk continues below it. *)
Lemma walked_below l k s pa Fs fl va tbl e Fi :
  (S l ≤ 2)%nat → (k ≤ l)%nat → vm_ok (S l) s pa (pa :: concat Fs) fl →
  vm_tabs s !! pa = Some tbl → length tbl = 512%nat →
  Forall2 (entry_ok (sub_tree (S l) (vm_tabs s)) (S l)) tbl Fs →
  tbl !! Z.to_nat (sv39_idx (S l) va) = Some e → Fs !! Z.to_nat (sv39_idx (S l) va) = Some Fi →
  pte_valid e = true → pte_leaf e = false →
  (∀ s F fl pa, vm_ok l s pa F fl → walked l k pa va s F fl (walk_loop (down l k) pa va true s)) →
  walked (S l) k pa va s (pa :: concat Fs) fl (walk_loop (down l k) (pte_pa e) va true s).
Proof.
  intros Hl Hk Hok Ht Hlen Hes He HFi Hv Hlf IH.
  pose proof (vm_child l s pa Fs fl _ tbl e Fi Hok Hes He HFi Hv Hlf) as Hc.
  destruct (IH _ _ _ _ Hc) as (Fi' & fl' & Hok' & Hext & Hr).
  destruct (vm_lift l s _ pa Fs fl fl' _ tbl e Fi Fi' Hl Hok Ht Hlen Hes He HFi Hv Hlf Hok' Hext)
    as (Hok1 & Hext1 & Ht1).
  exists (pa :: concat (<[Z.to_nat (sv39_idx (S l) va) := Fi']> Fs)), fl'. split_and!; [done|done|].
  destruct (walk_loop (down l k) (pte_pa e) va true s) as [[t|err|] s']; simpl in *; try done.
  by eapply slot_S.
Qed.

Lemma walked_trans level k pa va s F fl s1 F1 fl1 r :
  ext level pa s F fl s1 F1 fl1 → walked level k pa va s1 F1 fl1 r → walked level k pa va s F fl r.
Proof.
  intros He (F' & fl' & Hok & Hext & Hr). exists F', fl'. split_and!; [done|by eapply ext_trans|done].
Qed.

(** A walk that links a new table at the entry of [va] and continues there. *)
Lemma walked_linked l k s pa tbl Fs fl va e j p' ct :
  (S l ≤ 2)%nat → (k ≤ l)%nat → vm_ok (S l) s pa (pa :: concat Fs) fl →
  vm_tabs s !! pa = Some tbl → length tbl = 512%nat →
  Forall2 (entry_ok (sub_tree (S l) (vm_tabs s)) (S l)) tbl Fs →
  let i := Z.to_nat (sv39_idx (S l) va) in
  tbl !! i = Some e → Fs !! i = Some [] →
  fl !! j = Some false → pmm_rep p' (<[j := true]> fl) → pm_base p' = pm_base (vm_pmm s) →
  length ct = 512%nat → Forall (flat l) ct →
  let n := page_addr (vm_pmm s) j in
  (∀ va' tabs, tabs !! n = Some ct → Z.to_nat (sv39_idx (S l) va') = i →
     resolve l tabs n va' = entry_resolve (S l) (vm_tabs s) e va') →
  (∀ s F fl pa, vm_ok l s pa F fl → walked l k pa va s F fl (walk_loop (down l k) pa va true s)) →
  let s' := mkVm p' (<[pa := <[i := mk_pte 0 n]> tbl]> (<[n := ct]> (vm_tabs s))) in
  n ≠ pa ∧ vm_tabs s !! pa = Some tbl ∧
  read_pte pa (sv39_idx (S l) va) s' = (Ok (mk_pte 0 n), s') ∧ pte_pa (mk_pte 0 n) = n ∧
  walked (S l) k pa va s (pa :: concat Fs) fl (walk_loop (down l k) n va true s').
Proof.
  intros Hl Hk Hok Ht Hlen Hes i He HFi Hj Hrep' Hb' Hct Hflat n Hres IH s'.
  destruct (link_table l s pa tbl Fs fl i e j p' ct) as (Hok' & Hext & Hes'); try done.
  assert (i < 512)%nat as Hi by (rewrite <- Hlen; by eapply lookup_lt_Some).
  destruct (mk_pte_spec 0 n) as (H0 & Hpa & Hv & Hlf & _); [lia| |].
  { destruct Hok. eapply page_addr_page; try done. by eapply lookup_lt_Some. }
  change (pte_leaf 0) with false in Hlf.
  assert (n ≠ pa) as Hnpa.
  { intros E. destruct (vo_used _ _ _ _ _ Hok pa) as (j' & Ej & Hj'); [by left|].
    assert (j = j') as <- by (unfold n, page_addr in *; lia). congruence. }
  assert (vm_tabs s' !! pa = Some (<[i := mk_pte 0 n]> tbl)) as Ht' by apply lookup_insert_eq.
  assert ((<[i := mk_pte 0 n]> tbl) !! i = Some (mk_pte 0 n)) as He'
    by (apply list_lookup_insert_eq; lia).
  pose proof (sv39_idx_range (S l) va Hl).
  split_and!; [done|done|by eapply read_pte_ok; [|lia|]|done|].
  eapply walked_trans; [exact Hext|].
  pose proof (walked_below l k s' pa (<[i := [n]]> Fs) (<[j := true]> fl) va (<[i := mk_pte 0 n]> tbl)
                (mk_pte 0 n) [n] Hl Hk Hok' Ht') as Hw. rewrite Hpa in Hw.
  apply Hw; try done; [by rewrite length_insert|].
  apply list_lookup_insert_eq. by eapply lookup_lt_Some.
Qed.

Lemma split_leaf_ok s pa tbl i e l j p' :
  (S l ≤ 2)%nat → vm_tabs s !! pa = Some tbl → 0 ≤ i < len tbl →
  page_addr (vm_pmm s) j ≠ pa →
  vm_alloc_zero s = (Ok (page_addr (vm_pmm s) j),
    mkVm p' (<[page_addr (vm_pmm s) j := replicate 512 0]> (vm_tabs s))) →
  split_leaf pa i e (S l) s =
    (Ok tt, mkVm p' (<[pa := <[Z.to_nat i := mk_pte 0 (page_addr (vm_pmm s) j)]> tbl]>
                       (<[page_addr (vm_pmm s) j := split_table e (S l)]> (vm_tabs s)))).
Proof.
  intros Hl Ht Hi Hne Ha. unfold split_leaf. rewrite (sm_bind_ok _ _ _ _ _ Ha).
  replace ((S l =? 2)%nat || (S l =? 1)%nat) with true by (by destruct l as [|[|]]; [..|lia]).
  unfold table_set. rewrite modify_bind. simpl. rewrite insert_insert_eq.
  rewrite (write_pte_ok _ pa tbl); [done| |done]. simpl. by rewrite lookup_insert_ne.
Qed.

Lemma walk_loop_spec level k va s F fl pa :
  (level ≤ 2)%nat → (k ≤ level)%nat → vm_ok level s pa F fl →
  walked level k pa va s F fl (walk_loop (down level k) pa va true s).
Proof.
  revert s F fl pa. induction level as [|l IH]; intros s F fl pa Hl Hk Hok.
  { assert (k = 0)%nat as -> by lia. exists F, fl. split_and!; [done|apply ext_refl|apply slot_here]. }
  destruct (decide (k = S l)) as [->|Hne].
  { exists F, fl. cbn [down]. rewrite Nat.ltb_irrefl. split_and!; [done|apply ext_refl|apply slot_here]. }
  cbn [down]. rewrite (proj2 (Nat.ltb_lt k (S l))) by lia. cbn [walk_loop].
  pose proof (sv39_idx_range (S l) va Hl) as Hr.
  destruct (vm_entry (S l) s pa F fl va Hl Hok)
    as (tbl & Fs & e & Fi & Ht & Hlen & -> & Hes & He & HFi & [H0 Hk'] & Hrd).
  rewrite (sm_bind_ok _ _ _ _ _ Hrd).
  assert (0 ≤ sv39_idx (S l) va < len tbl) as Hri by (unfold len; lia).
  assert (∀ s F fl pa, vm_ok l s pa F fl → walked l k pa va s F fl (walk_loop (down l k) pa va true s))
    as IH' by (intros; apply IH; [lia|lia|done]).
  assert (walked (S l) k pa va s (pa :: concat Fs) fl (Err NoMem, s)) as Hfail
    by (exists (pa :: concat Fs), fl; split_and!; [done|apply ext_refl|done]).
  destruct (pte_valid e) eqn:Hv; cbn [negb] in *; [destruct (pte_leaf e) eqn:Hlf|].
  - destruct Hk' as [-> Hsp]. destruct (vm_alloc_zero_spec s fl (vo_rep _ _ _ _ _ Hok))
      as [Ea|(j & p' & Hj & Hrep' & Hb' & Ea)].
    { unfold split_leaf, mbind, SM_bind. by rewrite Ea. }
    destruct (split_table_flat l e) as [Hsl Hsf]; [lia|done..|].
    edestruct (walked_linked l k s pa tbl Fs fl va e j p' (split_table e (S l)))
      as (Hnp & _ & Hrd' & Hpa & Hw); try done; [lia| |].
    { intros va' tabs' Hn _. apply split_table_resolve; [lia|done..]. }
    rewrite (sm_bind_ok _ _ _ _ _ (split_leaf_ok s pa tbl _ e l j p' Hl Ht Hri Hnp Ea)).
    rewrite (sm_bind_ok _ _ _ _ _ Hrd'), Hpa. exact Hw.
  - eapply (walked_below l k s pa Fs fl va tbl e Fi); try done. lia.
  - subst Fi. destruct (vm_alloc_zero_spec s fl (vo_rep _ _ _ _ _ Hok))
      as [Ea|(j & p' & Hj & Hrep' & Hb' & Ea)].
    { unfold mbind, SM_bind. by rewrite Ea. }
    rewrite (sm_bind_ok _ _ _ _ _ Ea).
    edestruct (walked_linked l k s pa tbl Fs fl va e j p' (replicate 512 0))
      as (Hnp & _ & _ & _ & Hw); try done; [lia|apply zero_table_flat| |].
    { intros va' tabs' Hn _. rewrite zero_table_resolve by (done || lia). unfold entry_resolve. by rewrite Hv. }
    erewrite sm_bind_ok; [exact Hw|]. rewrite (write_pte_ok _ pa tbl); [done| |unfold len; lia].
    simpl. by rewrite lookup_insert_ne.
Qed.

(** ** Writing the entry *)

(** [va] and [va'] use the same entries from [level] down to [k]. *)
Fixpoint same_path (level k : nat) (va va' : Z) : bool :=
  (sv39_idx level va' =? sv39_idx level va) &&
  match level with
  | O => true
  | S l => if decide (level = k) then true else same_path l k va va'
  end.

Definition leaf_resolve (k : nat) (e va : Z) : option (Z * Z) :=
  if pte_valid e then Some (pte_pa e + page_off k va, e mod 1024) else None.

Lemma flat_resolve k tabs e va : flat k e → entry_resolve k tabs e va = leaf_resolve k e va.
Proof. unfold entry_resolve, leaf_resolve. by intros [_ [-> | (-> & -> & _)]]. Qed.

Lemma flat_entry sub k e : flat k e → entry_ok sub k e [].
Proof. intros [H0 [Hv|(Hv & Hlf & Hb)]]; (split; [done|]); [by rewrite Hv|by rewrite Hv, Hlf]. Qed.

(** The tree after entry [e] was written into table [t] on the path of [va]. *)
Definition written (level k : nat) (tabs tabs' : gmap Z (list Z)) (pa va e : Z) (F : list Z) : Prop :=
  ∃ F', tree level tabs' pa F' ∧ NoDup F' ∧ (∀ pg, pg ∈ F' → pg ∈ F) ∧
    (∀ va', resolve level tabs' pa va' =
       if same_path level k va va' then leaf_resolve k e va' else resolve level tabs pa va').

Lemma idx_decide level va va' {A} (a b : A) :
  (level ≤ 2)%nat →
  (if decide (Z.to_nat (sv39_idx level va') = Z.to_nat (sv39_idx level va)) then a else b) =
  if sv39_idx level va' =? sv39_idx level va then a else b.
Proof.
  intros Hl. pose proof (sv39_idx_range level va Hl). pose proof (sv39_idx_range level va' Hl).
  destruct (decide _), (Z.eqb_spec (sv39_idx level va') (sv39_idx level va)); try done; lia.
Qed.

Lemma nodup_replace {A} (pa : A) Fs i Fi Fi' :
  NoDup (pa :: concat Fs) → Fs !! i = Some Fi → NoDup Fi' → (∀ pg, pg ∈ Fi' → pg ∈ Fi) →
  NoDup (pa :: concat (<[i := Fi']> Fs)) ∧
  ∀ pg, pg ∈ pa :: concat (<[i := Fi']> Fs) → pg ∈ pa :: concat Fs.
Proof.
  intros Hnd HFi Hnd' Hsub. pose proof (concat_perm Fs i Fi HFi) as Hp.
  pose proof (concat_insert_perm Fs i Fi' ltac:(by eapply lookup_lt_Some)) as Hp'.
  rewrite Hp in Hnd. apply NoDup_cons in Hnd as [Hn1 Hnd].
  apply NoDup_app in Hnd as (Hn2 & Hd & Hn3). split.
  - rewrite Hp'. apply NoDup_cons. split.
    + intros Hin. apply Hn1. apply elem_of_app in Hin as [Hin|Hin]; apply elem_of_app; auto.
    + apply NoDup_app. split; [done|]. split; [|done]. intros pg Hpg. auto.
  - intros pg Hpg. rewrite Hp' in Hpg. rewrite Hp.
    apply elem_of_cons in Hpg as [->|Hpg]; [by left|]. right.
    apply elem_of_app in Hpg as [Hpg|Hpg]; apply elem_of_app; auto.
Qed.

Lemma write_here level tabs pa F va e :
  (level ≤ 2)%nat → tree level tabs pa F → NoDup F → flat level e →
  ∃ tbl, tabs !! pa = Some tbl ∧ length tbl = 512%nat ∧ pa ∈ F ∧
    written level level tabs (<[pa := <[Z.to_nat (sv39_idx level va) := e]> tbl]> tabs) pa va e F.
Proof.
  intros Hl Htree Hnd Hflat.
  destruct (proj1 (tree_unfold _ _ _ _) Htree) as (tbl & Fs & Ht & Hlen & -> & Hes).
  exists tbl. split_and!; [done|done|by left|]. set (i := Z.to_nat (sv39_idx level va)).
  set (tabs' := <[pa := <[i := e]> tbl]> tabs).
  pose proof (sv39_idx_range level va Hl) as Hr.
  destruct (lookup_lt_is_Some_2 Fs i) as [Fi HFi];
    [rewrite <- (Forall2_length _ _ _ Hes), Hlen; lia|].
  assert (tabs' !! pa = Some (<[i := e]> tbl)) as Ht' by apply lookup_insert_eq.
  assert (∀ j Fj pg, j ≠ i → Fs !! j = Some Fj → pg ∈ Fj → tabs' !! pg = tabs !! pg) as Hag.
  { intros j Fj pg _ HFj Hpg. apply lookup_insert_ne. intros <-.
    apply NoDup_cons in Hnd as [Hn _]. apply Hn. by eapply concat_elem. }
  destruct (nodup_replace pa Fs i Fi [] Hnd HFi) as [Hnd' Hsub]; [constructor|set_solver|].
  exists (pa :: concat (<[i := []]> Fs)). split_and!; [|done|done|].
  - eapply tree_replace; [exact Hl|exact Ht|done|exact Hes|exact Ht'|exact Hag|]. by apply flat_entry.
  - intros va'. rewrite (resolve_replace level tabs tabs' pa tbl Fs i e Hl Ht Hlen Hes Ht' Hag).
    rewrite flat_resolve by done. unfold i. rewrite idx_decide by done.
    replace (same_path level level va va') with (sv39_idx level va' =? sv39_idx level va); [done|].
    destruct level; cbn [same_path]; [|rewrite decide_True by done]; by rewrite andb_true_r.
Qed.

Lemma write_slot level k tabs pa F va t e :
  (k ≤ level ≤ 2)%nat → tree level tabs pa F → NoDup F → slot level k tabs pa va t → flat k e →
  ∃ tbl, tabs !! t = Some tbl ∧ length tbl = 512%nat ∧ t ∈ F ∧
    written level k tabs (<[t := <[Z.to_nat (sv39_idx k va) := e]> tbl]> tabs) pa va e F.
Proof.
  revert pa F. induction level as [|l IH]; intros pa F Hk Htree Hnd Hslot Hflat;
    [assert (k = 0)%nat as -> by lia; cbn [slot] in Hslot; rewrite decide_True in Hslot by done;
     subst t; apply write_here; [lia|done..]|].
  destruct (decide (S l = k)) as [<-|Hne].
  { cbn [slot] in Hslot. rewrite decide_True in Hslot by done. subst t. apply write_here; [lia|done..]. }
  cbn [slot] in Hslot. rewrite decide_False in Hslot by done.
  destruct Hslot as (tbl0 & e0 & Ht0 & He0 & Hv & Hlf & Hslot).
  destruct (proj1 (tree_unfold _ _ _ _) Htree) as (tbl & Fs & Ht & Hlen & -> & Hes).
  rewrite Ht in Ht0. injection Ht0 as <-. set (i := Z.to_nat (sv39_idx (S l) va)) in *.
  destruct (Forall2_lookup_l _ _ _ _ _ Hes He0) as (Fi & HFi & H0 & Hk0).
  rewrite Hv, Hlf in Hk0. cbn [negb] in Hk0.
  assert (NoDup Fi ∧ pa ∉ Fi ∧ ∀ j Fj pg, j ≠ i → Fs !! j = Some Fj → pg ∈ Fj → pg ∉ Fi) as (HndF & Hpa & Hdis).
  { pose proof Hnd as Hnd0. rewrite (concat_perm Fs i Fi HFi) in Hnd0.
    apply NoDup_cons in Hnd0 as [Hn1 Hnd0]. apply NoDup_app in Hnd0 as (Hn2 & Hd & _).
    split_and!; [done|intros ?; apply Hn1; apply elem_of_app; by left|].
    intros j Fj pg Hj HFj Hpg Hin. eapply Hd; [exact Hin|]. by eapply elem_of_others. }
  destruct (IH (pte_pa e0) Fi) as (tblt & Htt & Hlt & HtF & F' & Htr' & Hnd' & Hsub & Hres);
    [lia|exact Hk0|done..|].
  exists tblt. split_and!; [done|done|right; by eapply concat_elem|].
  set (tabs' := <[t := <[Z.to_nat (sv39_idx k va) := e]> tblt]> tabs) in *.
  assert (tabs' !! pa = Some (<[i := e0]> tbl)) as Ht'.
  { unfold tabs'. rewrite (list_insert_id tbl i e0) by done. rewrite lookup_insert_ne; [done|]. by intros ->. }
  assert (∀ j Fj pg, j ≠ i → Fs !! j = Some Fj → pg ∈ Fj → tabs' !! pg = tabs !! pg) as Hag.
  { intros j Fj pg Hj HFj Hpg. apply lookup_insert_ne. intros <-. by eapply Hdis. }
  destruct (nodup_replace pa Fs i Fi F' Hnd HFi Hnd' Hsub) as [Hnd2 Hsub2].
  exists (pa :: concat (<[i := F']> Fs)). split_and!; [|done|done|].
  - eapply tree_replace; [lia|exact Ht|done|exact Hes|exact Ht'|exact Hag|].
    split; [done|]. by rewrite Hv, Hlf.
  - intros va'. rewrite (resolve_replace (S l) tabs tabs' pa tbl Fs i e0 ltac:(lia) Ht Hlen Hes Ht' Hag).
    unfold i. rewrite idx_decide by lia. cbn [same_path]. rewrite (decide_False (P := S l = k)) by done.
    destruct (Z.eqb_spec (sv39_idx (S l) va') (sv39_idx (S l) va)) as [E|E]; cbn [andb]; [|done].
    rewrite (resolve_entry (S l) tabs pa va' tbl e0 Ht) by (by rewrite E).
    unfold entry_resolve. rewrite Hv, Hlf. cbn [negb]. apply Hres.
Qed.

(** Pages in use stay in use and keep their contents, the pages of the tree
    apart; the tree grows by free pages only. *)
Record grows (s : Vm) (F : list Z) (fl : list bool) (s' : Vm) (F' : list Z) (fl' : list bool) : Prop := {
  gr_base : pm_base (vm_pmm s') = pm_base (vm_pmm s);
  gr_len : length fl' = length fl;
  gr_used : ∀ j, fl !! j = Some true → fl' !! j = Some true;
  gr_new : ∀ pg, pg ∈ F' → pg ∈ F ∨ ∃ j, pg = page_addr (vm_pmm s) j ∧ fl !! j = Some false;
  gr_frame : ∀ j, fl !! j = Some true → page_addr (vm_pmm s) j ∉ F →
    vm_tabs s' !! page_addr (vm_pmm s) j = vm_tabs s !! page_addr (vm_pmm s) j }.

Lemma grows_refl s F fl : grows s F fl s F fl.
Proof. constructor; try done. by left. Qed.

Lemma grows_outside s F fl s' F' fl' j :
  grows s F fl s' F' fl' → fl !! j = Some true → page_addr (vm_pmm s) j ∉ F →
  page_addr (vm_pmm s) j ∉ F'.
Proof.
  intros Hg Hj Hn Hin. destruct (gr_new _ _ _ _ _ _ Hg _ Hin) as [H|(i & Hi & Hf)]; [done|].
  apply page_addr_inj in Hi as <-. congruence.
Qed.

Lemma grows_trans s F fl s1 F1 fl1 s2 F2 fl2 :
  grows s F fl s1 F1 fl1 → grows s1 F1 fl1 s2 F2 fl2 → grows s F fl s2 F2 fl2.
Proof.
  intros Hg1 Hg2. pose proof Hg1 as [B1 L1 U1 N1 T1]. pose proof Hg2 as [B2 L2 U2 N2 T2].
  assert (∀ j, page_addr (vm_pmm s1) j = page_addr (vm_pmm s) j) as Ea
    by (intros; unfold page_addr; by rewrite B1).
  constructor; [congruence|congruence|auto| |].
  - intros pg Hpg. destruct (N2 pg Hpg) as [H|(j & -> & Hj)]; [auto|].
    right. exists j. split; [apply Ea|].
    destruct (fl !! j) as [[]|] eqn:E; [by rewrite (U1 j E) in Hj|done|].
    apply lookup_ge_None in E. apply lookup_lt_Some in Hj. lia.
  - intros j Hj Hn. rewrite <- (T1 j Hj Hn). specialize (T2 j (U1 j Hj)). rewrite !Ea in T2.
    apply T2. by eapply grows_outside.
Qed.

Lemma grows_ext level pa s F fl s' F' fl' : ext level pa s F fl s' F' fl' → grows s F fl s' F' fl'.
Proof.
  intros [B L U N C T S]. constructor; try done. intros j Hj Hn. apply T. intros Hin.
  destruct (N _ Hin) as [H|(i & Hi & Hf)]; [done|]. apply page_addr_inj in Hi as <-. congruence.
Qed.

Lemma vm_written k s root F fl va e t :
  (k ≤ 2)%nat → vm_ok 2 s root F fl → slot 2 k (vm_tabs s) root va t → flat k e →
  ∃ s' F', write_pte t (sv39_idx k va) e s = (Ok tt, s') ∧ vm_ok 2 s' root F' fl ∧
    grows s F fl s' F' fl ∧
    ∀ va', resolve 2 (vm_tabs s') root va' =
      if same_path 2 k va va' then leaf_resolve k e va' else resolve 2 (vm_tabs s) root va'.
Proof.
  intros Hk [Hrep Hb Hend Htree Hnd Hused] Hslot Hflat.
  destruct (write_slot 2 k (vm_tabs s) root F va t e) as (tbl & Ht & Hlen & HtF & F' & Htr & Hnd' & Hsub & Hres);
    [lia|done..|].
  pose proof (sv39_idx_range k va Hk).
  eexists _, F'. split; [apply (write_pte_ok s t tbl); [done|unfold len; lia]|].
  split; [|split; [|exact Hres]].
  - constructor; try done. intros pg Hpg. by apply Hused, Hsub.
  - constructor; try done; [intros pg Hpg; left; by apply Hsub|].
    intros j _ Hn. apply lookup_insert_ne. intros ->; by apply Hn.
Qed.

Lemma map_one_spec k s root F fl va pa flags :
  (k ≤ 2)%nat → vm_ok 2 s root F fl → 0 ≤ flags < 1024 → pte_leaf flags = true →
  page_pa pa → pa + span k ≤ 2 ^ 56 →
  let r := map_one root va pa flags k s in
  ∃ F' fl', vm_ok 2 r.2 root F' fl' ∧ grows s F fl r.2 F' fl' ∧
    match r.1 with
    | Ok _ => ∀ va', resolve 2 (vm_tabs r.2) root va' =
        if same_path 2 k va va' then Some (pa + page_off k va', Z.lor 1 flags)
        else resolve 2 (vm_tabs s) root va'
    | Err e => e = NoMem ∧ ∀ va', resolve 2 (vm_tabs r.2) root va' = resolve 2 (vm_tabs s) root va'
    | Panic => False
    end.
Proof.
  intros Hk Hok Hf Hlf Hpa Hsp. cbv zeta.
  destruct (walk_loop_spec 2 k va s F fl root ltac:(lia) Hk Hok) as (F1 & fl1 & Hok1 & Hext & Hr).
  assert (walk root va k true s = match walk_loop (down 2 k) root va true s with
          | (Ok t, s1) => (Ok (t, sv39_idx k va), s1) | (Err e, s1) => (Err e, s1)
          | (Panic, s1) => (Panic, s1) end) as Hw.
  { unfold walk. rewrite (proj2 (Nat.ltb_ge 2 k)) by done. unfold mbind, SM_bind.
    by destruct (walk_loop _ _ _ _ _) as [[]]. }
  destruct (walk_loop (down 2 k) root va true s) as [[t|e|] s1]; cbn [fst snd] in *; [| |done].
  - destruct (mk_pte_spec flags pa Hf Hpa) as (H0 & Hp & Hv & Hl & Hm).
    destruct (vm_written k s1 root F1 fl1 va (mk_pte flags pa) t Hk Hok1 Hr)
      as (s2 & F2 & Hw2 & Hok2 & Hb2 & Hres).
    { split; [done|]. right. rewrite Hl, Hp. done. }
    assert (map_one root va pa flags k s = (Ok tt, s2)) as ->
      by (unfold map_one; rewrite (sm_bind_ok _ _ _ _ _ Hw); exact Hw2).
    exists F2, fl1. split; [done|]. split.
    { eapply grows_trans; [by eapply grows_ext|exact Hb2]. }
    intros va'. rewrite Hres. unfold leaf_resolve.
    rewrite Hv, Hp, Hm, (ex_same _ _ _ _ _ _ _ _ Hext). done.
  - assert (map_one root va pa flags k s = (Err e, s1)) as ->
      by (unfold map_one, mbind, SM_bind; by rewrite Hw).
    exists F1, fl1. split; [done|]. split; [by eapply grows_ext|].
    split; [done|]. apply Hext.
Qed.

(** ** Translation *)

(** What [translate] returns for a resolved address. *)
Definition answer (user : bool) (r : option (Z * Z)) : Z :=
  match r with
  | Some (pa, flags) => if user && negb (pte_user flags) then 0 else pa
  | None => 0
  end.

Lemma leaf_answer level user e va :
  0 ≤ e → pte_pa e + span level ≤ 2 ^ 56 →
  (if user && negb (pte_user e) then 0 else w64 (pte_pa e + page_off level va)) =
  answer user (Some (pte_pa e + page_off level va, e mod 1024)).
Proof.
  intros He Hb. unfold answer. destruct (pte_kind_mod (e mod 1024) e) as (_ & _ & ->);
    [apply Z.mod_pos_bound; lia|done|by apply Z.mod_mod|].
  rewrite w64_small; [done|]. rewrite page_off_eq, pte_pa_eq in * by done.
  pose proof (Z.mod_pos_bound va (span level) (span_pos level)).
  pose proof (Z.mod_pos_bound (e / 1024) (2 ^ 44) ltac:(done)).
  change (2 ^ 56) with 72057594037927936 in Hb. lia.
Qed.

Lemma translate_from_spec level user s pa F va :
  (level ≤ 2)%nat → tree level (vm_tabs s) pa F →
  translate_from level user pa va s = (Ok (answer user (resolve level (vm_tabs s) pa va)), s).
Proof.
  intros Hl. revert pa F. induction level as [|l IH]; intros pa F Htree;
    destruct (proj1 (tree_unfold _ _ _ _) Htree) as (tbl & Fs & Ht & Hlen & -> & Hes);
    pose proof (sv39_idx_range _ va Hl) as Hr.
  - destruct (lookup_lt_is_Some_2 tbl (Z.to_nat (sv39_idx 0 va))) as [e He]; [lia|].
    destruct (Forall2_lookup_l _ _ _ _ _ Hes He) as (Fi & HFi & H0 & Hk).
    cbn [translate_from]. rewrite (sm_bind_ok _ _ _ _ _ (read_pte_ok s pa tbl _ e Ht (proj1 Hr) He)).
    rewrite (resolve_entry _ _ _ _ _ _ Ht He). unfold entry_resolve.
    destruct (pte_valid e); cbn [negb] in *; [|done]. destruct (pte_leaf e); [|done].
    rewrite <- leaf_answer by (done || apply Hk). by destruct (_ && _).
  - destruct (lookup_lt_is_Some_2 tbl (Z.to_nat (sv39_idx (S l) va))) as [e He]; [lia|].
    destruct (Forall2_lookup_l _ _ _ _ _ Hes He) as (Fi & HFi & H0 & Hk).
    cbn [translate_from]. rewrite (sm_bind_ok _ _ _ _ _ (read_pte_ok s pa tbl _ e Ht (proj1 Hr) He)).
    rewrite (resolve_entry _ _ _ _ _ _ Ht He). unfold entry_resolve.
    destruct (pte_valid e); cbn [negb] in *; [|done]. destruct (pte_leaf e).
    + rewrite <- leaf_answer by (done || apply Hk). by destruct (_ && _).
    + apply (IH ltac:(lia) _ Fi). exact Hk.
Qed.

(** Two addresses use the same entry at level [k] when they lie in the same
    page of that size of the 39-bit space. *)
Definition vpage (k : nat) (va : Z) : Z := (va mod 2 ^ 39) / span k.

Lemma mod_div x s t : 0 < s → 0 < t → (x mod (s * t)) / s = (x / s) mod t.
Proof.
  intros Hs Ht. rewrite Z.rem_mul_r by lia. pose proof (Z.mod_pos_bound x s Hs).
  rewrite (Z.mul_comm s), Z.div_add, Z.div_small by lia. lia.
Qed.

Lemma vpage_top va : vpage 2 va = sv39_idx 2 va.
Proof. rewrite sv39_idx_eq by lia. unfold vpage, span. by apply (mod_div va (2 ^ 30) 512). Qed.

Lemma vpage_step k va : (k < 2)%nat → vpage k va = sv39_idx k va + 512 * vpage (S k) va.
Proof.
  intros Hk. rewrite sv39_idx_eq by lia. unfold vpage. rewrite (span_S k Hk).
  pose proof (span_pos k) as Hp.
  assert (∃ t, 0 < t ∧ 2 ^ 39 = span k * (512 * t)) as (t & Ht & ->).
  { destruct k as [|[|]]; [by exists 262144|by exists 512|lia]. }
  rewrite mod_div, Z.rem_mul_r by lia. rewrite Z.mul_assoc, (Z.mul_comm (span k) 512).
  rewrite mod_div by lia. rewrite Z.div_div, (Z.mul_comm (span k) 512) by lia. done.
Qed.

Lemma same_path_page k va va' :
  (k ≤ 2)%nat → same_path 2 k va va' = (vpage k va' =? vpage k va).
Proof.
  intros Hk. apply eq_true_iff_eq. rewrite Z.eqb_eq.
  pose proof (vpage_top va). pose proof (vpage_top va'). 
  pose proof (vpage_step 1 va ltac:(lia)). pose proof (vpage_step 1 va' ltac:(lia)).
  pose proof (vpage_step 0 va ltac:(lia)). pose proof (vpage_step 0 va' ltac:(lia)).
  pose proof (sv39_idx_range 0 va ltac:(lia)). pose proof (sv39_idx_range 0 va' ltac:(lia)).
  pose proof (sv39_idx_range 1 va ltac:(lia)). pose proof (sv39_idx_range 1 va' ltac:(lia)).
  destruct k as [|[|[|]]]; [..|lia]; cbn [same_path];
    repeat first [rewrite decide_True by done|rewrite decide_False by done];
    rewrite ?andb_true_iff, ?Z.eqb_eq; intuition lia.
Qed.
