(* ===== verification/VmmThms.v ===== *)
(** * Mapping ranges: what the callers of the page-table code rely on

    [resolve 2 tabs root va] is the meaning of a page table: the physical address
    and the flag bits of a virtual address.  The lemmas of this file lift the
    exact effect of [map_one] to ranges; module [VmmTheorems] states the
    properties. *)

From S2P Require Import Prelude Pmm PmmProps SlabProps Vmm VmmProps.
From stdpp Require Import base list numbers gmap.
From Stdlib Require Import ZArith Lia.

Open Scope Z_scope.

(** ** Aligned addresses *)

Lemma low_zero_mod z k : 0 ≤ k → low_zero z k = true → z mod 2 ^ k = 0.
Proof.
  intros Hk H. unfold low_zero in H. apply Z.eqb_eq in H.
  rewrite Z.shiftl_1_l in H. by rewrite <- (Z.land_ones z k Hk), Z.ones_equiv, <- Z.sub_1_r.
Qed.

Lemma vpage_aligned k va va' :
  (k ≤ 2)%nat → 0 ≤ va → va mod span k = 0 → va + span k ≤ 2 ^ 39 → 0 ≤ va' < 2 ^ 39 →
  (vpage k va' =? vpage k va) = (va <=? va') && (va' <? va + span k).
Proof.
  intros Hk H0 Hal Hend Hva'. pose proof (span_pos k) as Hp. unfold vpage.
  rewrite !Z.mod_small by lia. apply eq_true_iff_eq.
  rewrite andb_true_iff, Z.eqb_eq, Z.leb_le, Z.ltb_lt.
  pose proof (Z.div_mod va (span k)). pose proof (Z.div_mod va' (span k)).
  pose proof (Z.mod_pos_bound va' (span k)). split; [nia|].
  intros [Hle Hlt]. assert (va = span k * (va / span k)) as Hva by lia.
  symmetry. apply (Z.div_unique va' (span k) _ (va' - va)); lia.
Qed.

Lemma aligned_off k va va' :
  0 ≤ va → va mod span k = 0 → va ≤ va' < va + span k → page_off k va' = va' - va.
Proof.
  intros H0 Hal Hr. rewrite page_off_eq. pose proof (span_pos k).
  pose proof (Z.div_mod va (span k)). symmetry.
  apply (Z.mod_unique va' (span k) (va / span k)); lia.
Qed.

Lemma best_level_spec va pa remaining :
  va mod 4096 = 0 → pa mod 4096 = 0 → 0 < remaining →
  let k := best_level va pa remaining in
  (k ≤ 2)%nat ∧ va mod span k = 0 ∧ pa mod span k = 0 ∧
  (span k ≤ remaining ∨ k = 0%nat ∧ remaining < 4096).
Proof.
  intros Hva Hpa Hr. cbv zeta. unfold best_level.
  destruct ((Z.shiftl 1 30 <=? remaining) && low_zero va 30 && low_zero pa 30) eqn:E1.
  { rewrite !andb_true_iff, Z.leb_le in E1. destruct E1 as [[E1 E2] E3].
    split_and!; [lia|by apply low_zero_mod|by apply low_zero_mod|by left]. }
  destruct ((Z.shiftl 1 21 <=? remaining) && low_zero va 21 && low_zero pa 21) eqn:E4.
  { rewrite !andb_true_iff, Z.leb_le in E4. destruct E4 as [[E2 E3] E5].
    split_and!; [lia|by apply low_zero_mod|by apply low_zero_mod|by left]. }
  split_and!; [lia|done|done|]. change (span 0) with 4096. lia.
Qed.

Lemma lor_10 a b : 0 ≤ a < 1024 → 0 ≤ b < 1024 → 0 ≤ Z.lor a b < 1024.
Proof.
  intros Ha Hb. split; [apply Z.lor_nonneg; lia|]. change 1024 with (2 ^ 10).
  destruct (decide (Z.lor a b = 0)) as [->|Hn]; [done|].
  pose proof (proj2 (Z.lor_nonneg a b) ltac:(lia)).
  apply Z.log2_lt_pow2; [lia|]. rewrite Z.log2_lor by lia.
  destruct (decide (a = 0)) as [->|Ha0], (decide (b = 0)) as [->|Hb0];
    rewrite ?Z.max_lub_lt_iff; (split || idtac);
    try (by cbn); try (apply Z.log2_lt_pow2; lia).
Qed.

Lemma AD_flags f :
  0 ≤ f < 1024 → pte_leaf f = true → 0 ≤ AD f < 1024 ∧ pte_leaf (AD f) = true.
Proof.
  intros Hf Hl. split; [unfold AD; apply lor_10; [by apply lor_10|done]|].
  unfold pte_leaf, AD in *. rewrite !Z.land_lor_distr_l.
  change (Z.land PTE_A PTE_LEAF) with 0. change (Z.land PTE_D PTE_LEAF) with 0.
  by rewrite !Z.lor_0_r.
Qed.

(** ** One page *)

(** The meaning [f] with [\[va, va+n)] sent to [pa] onwards. *)
Definition remap (f : Z → option (Z * Z)) (va n pa flags va' : Z) : option (Z * Z) :=
  if (va <=? va') && (va' <? va + n) then Some (pa + (va' - va), flags) else f va'.

(** Same meaning on the 39-bit address space. *)
Definition same_on (f g : Z → option (Z * Z)) : Prop := ∀ va, 0 ≤ va < 2 ^ 39 → f va = g va.

Definition meaning (s : Vm) (root : Z) : Z → option (Z * Z) := resolve 2 (vm_tabs s) root.

Lemma map_one_aligned k s root F fl va pa flags :
  (k ≤ 2)%nat → vm_ok 2 s root F fl → 0 ≤ flags < 1024 → pte_leaf flags = true →
  0 ≤ va → va mod span k = 0 → va + span k ≤ 2 ^ 39 → page_pa pa → pa + span k ≤ 2 ^ 56 →
  let r := map_one root va pa flags k s in
  ∃ F' fl', vm_ok 2 r.2 root F' fl' ∧ grows s F fl r.2 F' fl' ∧
    match r.1 with
    | Ok _ => same_on (meaning r.2 root) (remap (meaning s root) va (span k) pa (Z.lor 1 flags))
    | Err e => e = NoMem ∧ same_on (meaning r.2 root) (meaning s root)
    | Panic => False
    end.
Proof.
  intros Hk Hok Hf Hl H0 Hal Hend Hpa Hpe. cbv zeta.
  destruct (map_one_spec k s root F fl va pa flags Hk Hok Hf Hl Hpa Hpe) as (F' & fl' & Hok' & Hg & Hr).
  exists F', fl'. split_and!; [done..|]. destruct (map_one root va pa flags k s) as [[[]|e|] s']; cbn [fst snd] in *.
  - intros va' Hva'. unfold meaning, remap. rewrite Hr, same_path_page, vpage_aligned by done.
    destruct (Z.leb_spec va va'), (Z.ltb_spec va' (va + span k)); cbn [andb]; [|done..].
    by rewrite (aligned_off k va va').
  - split; [apply Hr|]. intros va' _. apply Hr.
  - done.
Qed.

(** ** A range *)

Lemma remap_remap f va n m pa flags va' :
  0 ≤ n → 0 ≤ m →
  remap (remap f va n pa flags) (va + n) m (pa + n) flags va' = remap f va (n + m) pa flags va'.
Proof.
  intros Hn Hm. unfold remap.
  destruct (Z.leb_spec va va'), (Z.leb_spec (va + n) va'), (Z.ltb_spec va' (va + n)),
    (Z.ltb_spec va' (va + n + m)), (Z.ltb_spec va' (va + (n + m))); cbn [andb]; try done; try lia.
  all: do 2 f_equal; lia.
Qed.

(** Only addresses of the range were touched. *)
Definition outside (f g : Z → option (Z * Z)) (va n : Z) : Prop :=
  ∀ va', 0 ≤ va' < 2 ^ 39 → ¬ (va ≤ va' < va + n) → f va' = g va'.

Definition pages_up (n : Z) : Z := 4096 * ((n + 4095) / 4096).

Lemma pages_up_sub n k : 4096 * k ≤ n → pages_up (n - 4096 * k) = pages_up n - 4096 * k.
Proof.
  intros Hn. unfold pages_up.
  replace (n - 4096 * k + 4095) with (n + 4095 + (- k) * 4096) by lia. rewrite Z.div_add by done. lia.
Qed.

Lemma pages_up_bounds n : n ≤ pages_up n < n + 4096.
Proof.
  unfold pages_up. pose proof (Z.div_mod (n + 4095) 4096). pose proof (Z.mod_pos_bound (n + 4095) 4096). lia.
Qed.

Lemma span_pages k : (k ≤ 2)%nat → span k = 4096 * (span k / 4096) ∧ 4096 ≤ span k.
Proof. intros Hk. destruct k as [|[|[|]]]; [done..|lia]. Qed.

(** The chunk of one iteration, rounded up to whole pages, is the leaf's size. *)
Lemma chunk_spec va pa n :
  va mod 4096 = 0 → pa mod 4096 = 0 → 0 < n →
  let k := best_level va pa n in let c := Z.min (level_size k) n in
  0 < c ≤ n ∧ pages_up n = span k + pages_up (n - c) ∧ (c = n ∨ c = span k) ∧
  (n - c = 0 ∨ c mod 4096 = 0).
Proof.
  intros Hva Hpa Hn. cbv zeta. rewrite level_span.
  destruct (best_level_spec va pa n Hva Hpa Hn) as (Hk & _ & _ & Hs). set (k := best_level va pa n) in *.
  destruct (span_pages k Hk) as [Hsp Hs4]. pose proof (span_pos k).
  destruct Hs as [Hs|[Hk0 Hs]].
  - rewrite Z.min_l by done. split_and!; [lia..| |by right|].
    + rewrite Hsp at 2. rewrite pages_up_sub by lia. lia.
    + right. rewrite Hsp, Z.mul_comm. apply Z.mod_mul. done.
  - rewrite Hk0 in *. change (span 0) with 4096 in *. rewrite Z.min_r by lia.
    split_and!; [lia..| |by left|left; lia]. rewrite Z.sub_diag. change (pages_up 0) with 0.
    unfold pages_up. replace ((n + 4095) / 4096) with 1; [done|].
    apply (Z.div_unique _ _ _ (n - 1)); lia.
Qed.

Definition mapped_range (s s' : Vm) (root va n pa flags : Z) (r : result unit) : Prop :=
  match r with
  | Ok _ => same_on (meaning s' root) (remap (meaning s root) va (pages_up n) pa (Z.lor 1 flags))
  | Err e => e = NoMem ∧ outside (meaning s' root) (meaning s root) va (pages_up n)
  | Panic => False
  end.

Lemma mapped_range_step s s1 s2 root va pa flags m n r :
  0 ≤ m → 0 ≤ n →
  same_on (meaning s1 root) (remap (meaning s root) va m pa (Z.lor 1 flags)) →
  mapped_range s1 s2 root (va + m) n (pa + m) flags r →
  (∀ n', pages_up n' = m + pages_up n → mapped_range s s2 root va n' pa flags r).
Proof.
  intros Hm Hn H1 H2 n' Hn'. pose proof (pages_up_bounds n).
  destruct r as [[]|e|]; cbn [mapped_range] in *; [|destruct H2 as [-> H2]; split; [done|]|done].
  - intros va' Hva'. rewrite (H2 va' Hva'), Hn'. rewrite <- remap_remap by lia.
    unfold remap at 1 2. by rewrite (H1 va' Hva').
  - intros va' Hva' Ho. rewrite Hn' in Ho. rewrite (H2 va' Hva') by lia. rewrite (H1 va' Hva').
    unfold remap. destruct (Z.leb_spec va va'), (Z.ltb_spec va' (va + m)); try done. lia.
Qed.

Lemma map_loop_spec fuel : ∀ s root F fl va pa n flags,
  vm_ok 2 s root F fl → 0 ≤ flags < 1024 → pte_leaf flags = true →
  0 ≤ va → va mod 4096 = 0 → 0 ≤ pa → pa mod 4096 = 0 → 0 ≤ n ≤ 4096 * Z.of_nat fuel →
  va + pages_up n ≤ 2 ^ 39 → pa + pages_up n ≤ 2 ^ 56 →
  let r := map_loop fuel root va pa n flags s in
  ∃ F' fl', vm_ok 2 r.2 root F' fl' ∧ grows s F fl r.2 F' fl' ∧
    mapped_range s r.2 root va n pa (AD flags) r.1.
Proof.
  induction fuel as [|fuel IH]; intros s root F fl va pa n flags Hok Hf Hl Hva Hvm Hpa Hpm Hn Hve Hpe; cbv zeta.
  all: pose proof (pages_up_bounds n) as Hpn; destruct (decide (n = 0)) as [->|Hn0]; [|try lia].
  1, 2: exists F, fl; cbn [map_loop]; rewrite (proj2 (Z.leb_le 0 0)) by done; cbn [fst snd];
    split_and!; [done|apply grows_refl|intros va' _; unfold remap; change (pages_up 0) with 0;
      destruct (Z.leb_spec va va'), (Z.ltb_spec va' (va + 0)); first [done|lia]].
  cbn [map_loop]. rewrite (proj2 (Z.leb_gt n 0)) by lia.
  destruct (chunk_spec va pa n Hvm Hpm ltac:(lia)) as (Hc & Hup & Hcs & Hc4).
  destruct (best_level_spec va pa n Hvm Hpm ltac:(lia)) as (Hk & Hak & Hpk & _).
  set (k := best_level va pa n) in *. set (c := Z.min (level_size k) n) in *.
  pose proof (pages_up_bounds (n - c)) as Hpc. pose proof (span_pos k) as Hspk.
  destruct (AD_flags flags Hf Hl) as [HfA HlA].
  destruct (map_one_aligned k s root F fl va pa (AD flags)) as (F1 & fl1 & Hok1 & Hg1 & H1);
    [done..|lia|split; [done|change (2 ^ 56) with 72057594037927936 in *; lia]|lia|].
  destruct (map_one root va pa (AD flags) k s) as [[[]|e|] s1] eqn:E; cbn [fst snd] in *.
  - rewrite (sm_bind_ok _ _ _ _ _ E).
    assert (n - c = 0 ∨ c = span k) as Hcase by lia.
    change (2 ^ 56) with 72057594037927936 in *. change (2 ^ 39) with 549755813888 in *.
    rewrite !w64_small by lia. destruct Hcase as [Hz|Hcs'].
    + rewrite Hz in *. exists F1, fl1. destruct fuel; cbn [map_loop]; rewrite (proj2 (Z.leb_le 0 0)) by done;
        unfold mret, SM_ret; cbn [fst snd]; (split; [done|]); (split; [done|]); change (pages_up 0) with 0 in Hup;
        cbn [mapped_range]; rewrite Hup, Z.add_0_r; done.
    + destruct (span_pages k Hk) as [Hsp Hs4].
      destruct (IH s1 root F1 fl1 (va + c) (pa + c) (n - c) flags) as (F2 & fl2 & Hok2 & Hg2 & H2); try done; try lia.
      * rewrite Hcs', Hsp, Z.mul_comm, Z.mod_add by done. done.
      * rewrite Hcs', Hsp, Z.mul_comm, Z.mod_add by done. done.
      * exists F2, fl2. split_and!; [done|by eapply grows_trans|].
        rewrite Hcs' in *. eapply mapped_range_step; [| |exact H1|exact H2|exact Hup]; lia.
  - unfold mbind, SM_bind. rewrite E. cbn [fst snd]. exists F1, fl1. split_and!; [done..|].
    destruct H1 as [-> H1]. split; [done|]. intros va' Hva' _. by apply H1.
  - done.
Qed.

(** ** Anonymous memory *)

(** A page taken for data: in use, zeroed, and not a page of the tree. *)
Lemma anon_page s root F fl :
  vm_ok 2 s root F fl →
  vm_alloc_zero s = (Err NoMem, s) ∨
  ∃ i s1, fl !! i = Some false ∧ vm_alloc_zero s = (Ok (page_addr (vm_pmm s) i), s1) ∧
    vm_ok 2 s1 root F (<[i := true]> fl) ∧ grows s F fl s1 F (<[i := true]> fl) ∧
    page_addr (vm_pmm s) i ∉ F ∧ page_pa (page_addr (vm_pmm s) i) ∧
    page_addr (vm_pmm s) i + 4096 ≤ 2 ^ 56 ∧
    vm_tabs s1 !! page_addr (vm_pmm s) i = Some (replicate 512 0) ∧
    ∀ va, meaning s1 root va = meaning s root va.
Proof.
  intros [Hrep Hb Hend Htree Hnd Hused].
  destruct (vm_alloc_zero_spec s fl Hrep) as [E|(i & p' & Hi & Hr & Hb' & E)]; [by left|right].
  pose proof (lookup_lt_Some _ _ _ Hi) as Hlt.
  assert (page_addr (vm_pmm s) i ∉ F) as Hnew.
  { intros Hin. destruct (Hused _ Hin) as (j & Hj & Hfj). apply page_addr_inj in Hj as <-. congruence. }
  set (pg := page_addr (vm_pmm s) i) in *.
  assert (∀ pg', pg' ∈ F → <[pg := replicate 512 0]> (vm_tabs s) !! pg' = vm_tabs s !! pg') as Hag.
  { intros pg' Hin. apply lookup_insert_ne. by intros ->. }
  exists i, (mkVm p' (<[pg := replicate 512 0]> (vm_tabs s))).
  split_and!; [done|done| | |done|by eapply page_addr_page| |apply lookup_insert_eq|].
  - constructor; cbn [vm_pmm vm_tabs]; [done|by rewrite Hb'|rewrite Hb'; unfold len in *; by rewrite length_insert| |done|].
    + eapply tree_agree; [|done]. done.
    + intros pg' Hin. destruct (Hused _ Hin) as (j & -> & Hj). exists j.
      split; [unfold page_addr; by rewrite Hb'|].
      rewrite list_lookup_insert_ne; [done|]. intros ->. congruence.
  - constructor; cbn [vm_pmm vm_tabs]; [done|apply length_insert| |by left|].
    + intros j Hj. rewrite list_lookup_insert_ne; [done|]. intros ->. congruence.
    + intros j Hj _. apply lookup_insert_ne. intros H. apply page_addr_inj in H as ->. congruence.
  - unfold pg, page_addr. unfold len in Hend. change (2 ^ 56) with 72057594037927936 in *. lia.
  - intros va. unfold meaning. cbn [vm_tabs]. by eapply resolve_agree.
Qed.

(** The meaning [f] with the pages [pgs] at [va], [va + 4096], ... *)
Definition backed (f : Z → option (Z * Z)) (va : Z) (pgs : list Z) (flags va' : Z) : option (Z * Z) :=
  if (va <=? va') && (va' <? va + 4096 * len pgs) then
    match pgs !! Z.to_nat ((va' - va) / 4096) with
    | Some pg => Some (pg + (va' - va) mod 4096, flags)
    | None => None
    end
  else f va'.

Lemma backed_cons f g va pg pgs flags :
  0 ≤ va → same_on g (remap f va 4096 pg flags) →
  same_on (backed g (va + 4096) pgs flags) (backed f va (pg :: pgs) flags).
Proof.
  intros Hva Hg va' Hva'. unfold backed, remap in *. specialize (Hg va' Hva'). cbv beta in Hg.
  change (len (pg :: pgs)) with (Z.of_nat (S (length pgs))). unfold len.
  destruct (Z.leb_spec (va + 4096) va') as [H1|H1]; cbn [andb].
  - assert ((va' <? va + 4096) = false) as E by (apply Z.ltb_ge; lia).
    assert ((va <=? va') = true) as E' by (apply Z.leb_le; lia). rewrite E, E' in Hg. rewrite E'. clear E E'.
    cbn [andb] in *. replace (va + 4096 * Z.of_nat (S (length pgs))) with (va + 4096 + 4096 * Z.of_nat (length pgs)) by lia.
    destruct (va' <? _); [|done].
    replace (va' - va) with ((va' - (va + 4096)) + 1 * 4096) by lia.
    rewrite Z.div_add, Z.mod_add by done.
    replace (Z.to_nat (_ / _ + 1)) with (S (Z.to_nat ((va' - (va + 4096)) / 4096))); [done|].
    pose proof (Z.div_pos (va' - (va + 4096)) 4096). lia.
  - rewrite Hg. destruct (Z.leb_spec va va'); cbn [andb]; [|done].
    rewrite (proj2 (Z.ltb_lt va' (va + 4096))) by lia. rewrite (proj2 (Z.ltb_lt va' (va + 4096 * Z.of_nat (S (length pgs))))) by lia.
    rewrite Z.div_small, Z.mod_small by lia. done.
Qed.

(** What anonymous mapping of [m] pages at [va] leaves: distinct zeroed pages
    that were free, none of them a page table. *)
Record anon_ok (s : Vm) (fl : list bool) (s' : Vm) (F' : list Z) (fl' : list bool)
    (root va flags : Z) (m : nat) (pgs : list Z) : Prop := {
  an_len : length pgs = m;
  an_nodup : NoDup pgs;
  an_fresh : ∀ pg, pg ∈ pgs → ∃ j, pg = page_addr (vm_pmm s) j ∧ fl !! j = Some false ∧ fl' !! j = Some true;
  an_zero : ∀ pg, pg ∈ pgs → pg ∉ F' ∧ vm_tabs s' !! pg = Some (replicate 512 0);
  an_same : same_on (meaning s' root) (backed (meaning s root) va pgs flags) }.

Definition anon_result (s : Vm) (fl : list bool) (s' : Vm) (F' : list Z) (fl' : list bool)
    (root va flags : Z) (m : nat) (r : result unit) : Prop :=
  match r with
  | Ok _ => ∃ pgs, anon_ok s fl s' F' fl' root va flags m pgs
  | Err e => e = NoMem ∧ outside (meaning s' root) (meaning s root) va (4096 * Z.of_nat m)
  | Panic => False
  end.

Lemma grows_free s F fl s' F' fl' j :
  grows s F fl s' F' fl' → fl' !! j = Some false → fl !! j = Some false.
Proof.
  intros [_ L U _ _] Hj. destruct (fl !! j) as [[]|] eqn:E; [by rewrite (U j E) in Hj|done|].
  apply lookup_ge_None in E. apply lookup_lt_Some in Hj. lia.
Qed.

Lemma grows_page s F fl s' F' fl' j :
  grows s F fl s' F' fl' → page_addr (vm_pmm s') j = page_addr (vm_pmm s) j.
Proof. intros [B _ _ _ _]. unfold page_addr. by rewrite B. Qed.

Lemma anon_ok_cons s F fl i s1 s2 F2 fl2 s3 F3 fl3 root va flags m pgs :
  let pg := page_addr (vm_pmm s) i in
  0 ≤ va → fl !! i = Some false → grows s F fl s1 F (<[i := true]> fl) → pg ∉ F →
  vm_tabs s1 !! pg = Some (replicate 512 0) →
  grows s1 F (<[i := true]> fl) s2 F2 fl2 → grows s2 F2 fl2 s3 F3 fl3 →
  same_on (meaning s2 root) (remap (meaning s root) va 4096 pg flags) →
  anon_ok s2 fl2 s3 F3 fl3 root (va + 4096) flags m pgs →
  anon_ok s fl s3 F3 fl3 root va flags (S m) (pg :: pgs).
Proof.
  intros pg Hva Hi Hg1 Hn Hz Hg2 Hg3 Hm [Hl Hnd Hfr Hze Hs].
  assert (<[i := true]> fl !! i = Some true) as Hi1
    by (apply list_lookup_insert_eq; by eapply lookup_lt_Some).
  pose proof (grows_trans _ _ _ _ _ _ _ _ _ Hg2 Hg3) as Hg13.
  pose proof (grows_trans _ _ _ _ _ _ _ _ _ Hg1 Hg2) as Hg02.
  assert (pg = page_addr (vm_pmm s1) i) as Hpg by (unfold pg; symmetry; by eapply grows_page).
  constructor.
  - simpl. lia.
  - apply NoDup_cons. split; [|done]. intros Hin. destruct (Hfr _ Hin) as (j & Hj & Hf & _).
    rewrite (grows_page _ _ _ _ _ _ _ Hg02) in Hj. apply page_addr_inj in Hj as <-.
    rewrite (gr_used _ _ _ _ _ _ Hg2 i Hi1) in Hf. done.
  - intros pg' [->|Hin]%elem_of_cons.
    + exists i. split_and!; [done|done|]. by apply (gr_used _ _ _ _ _ _ Hg13).
    + destruct (Hfr _ Hin) as (j & -> & Hf & Ht). exists j.
      split_and!; [by eapply grows_page|by eapply grows_free|done].
  - intros pg' [->|Hin]%elem_of_cons; [|by apply Hze]. rewrite Hpg in *.
    split; [by eapply grows_outside|]. by rewrite (gr_frame _ _ _ _ _ _ Hg13).
  - intros va' Hva'. rewrite (Hs va' Hva'). by apply backed_cons.
Qed.

Lemma map_anon_spec fuel : ∀ m s root F fl va flags,
  vm_ok 2 s root F fl → 0 ≤ flags < 1024 → pte_leaf flags = true →
  0 ≤ va → va mod 4096 = 0 → va + 4096 * Z.of_nat m ≤ 2 ^ 39 → (m ≤ fuel)%nat →
  let r := map_anon fuel root va (4096 * Z.of_nat m) flags s in
  ∃ F' fl', vm_ok 2 r.2 root F' fl' ∧ grows s F fl r.2 F' fl' ∧
    anon_result s fl r.2 F' fl' root va (Z.lor 1 (AD flags)) m r.1.
Proof.
  induction fuel as [|fuel IH]; intros [|m] s root F fl va flags Hok Hf Hl Hva Hal Hend Hfu; cbv zeta;
    [| lia| |]; cbn [map_anon].
  1, 2: exists F, fl; change (4096 * Z.of_nat 0 =? 0) with true; unfold mret, SM_ret; cbn [fst snd];
    (split; [done|]); (split; [apply grows_refl|]); exists [];
    (constructor; [done|apply NoDup_nil_2|intros ? H%elem_of_nil; done..|]); intros va' _; unfold backed;
    destruct (Z.leb_spec va va'), (Z.ltb_spec va' (va + 4096 * @len Z [])); try done; unfold len in *; simpl in *; lia.
  rewrite (proj2 (Z.eqb_neq (4096 * Z.of_nat (S m)) 0)) by lia.
  change (2 ^ 39) with 549755813888 in *.
  destruct (AD_flags flags Hf Hl) as [HfA HlA].
  destruct (anon_page s root F fl Hok) as [E|(i & s1 & Hi & E & Hok1 & Hg1 & Hn & Hpp & Hpe & Hz & Hm1)].
  { unfold mbind, SM_bind. rewrite E. cbn [fst snd]. exists F, fl.
    split; [done|]. split; [apply grows_refl|]. by split. }
  rewrite (sm_bind_ok _ _ _ _ _ E).
  destruct (map_one_aligned 0 s1 root F (<[i:=true]> fl) va (page_addr (vm_pmm s) i) (AD flags))
    as (F2 & fl2 & Hok2 & Hg2 & H2); [lia|done..|change (span 0) with 4096; change (2 ^ 39) with 549755813888; lia|done|done|].
  change (span 0) with 4096 in H2.
  destruct (map_one root va (page_addr (vm_pmm s) i) (AD flags) 0 s1) as [[[]|e|] s2] eqn:E2; cbn [fst snd] in *; [| |done].
  - rewrite (sm_bind_ok _ _ _ _ _ E2). rewrite !w64_small by lia.
    assert (same_on (meaning s2 root) (remap (meaning s root) va 4096 (page_addr (vm_pmm s) i) (Z.lor 1 (AD flags)))) as H2'.
    { intros va' Hva'. rewrite (H2 va' Hva'). unfold remap. by rewrite Hm1. }
    replace (4096 * Z.of_nat (S m) - 4096) with (4096 * Z.of_nat m) by lia.
    destruct (IH m s2 root F2 fl2 (va + 4096) flags) as (F3 & fl3 & Hok3 & Hg3 & H3); try done; try lia.
    { replace (va + 4096) with (va + 1 * 4096) by lia. by rewrite Z.mod_add. }
    exists F3, fl3. split; [done|].
    split; [by eapply grows_trans; [|eapply grows_trans]|].
    destruct (map_anon fuel root (va + 4096) (4096 * Z.of_nat m) flags s2) as [[[]|e|] s3]; cbn [fst snd anon_result] in *; [| |done].
    + destruct H3 as [pgs Ho]. exists (page_addr (vm_pmm s) i :: pgs). by eapply anon_ok_cons.
    + destruct H3 as [-> Ho]. split; [done|]. intros va' Hva' Hout. rewrite (Ho va' Hva') by lia.
      rewrite (H2' va' Hva'). unfold remap.
      destruct (Z.leb_spec va va'), (Z.ltb_spec va' (va + 4096)); cbn [andb]; done || lia.
  - unfold mbind, SM_bind. rewrite E2. cbn [fst snd]. exists F2, fl2.
    split; [done|]. split; [by eapply grows_trans|]. destruct H2 as [-> H2]. split; [done|].
    intros va' Hva' _. rewrite (H2 va' Hva'). apply Hm1.
Qed.

(** ** Sizes that are not whole pages *)

Lemma free_count_cons b l : free_count (b :: l) = (if b then 0 else 1) + free_count l.
Proof.
  unfold free_count, len. destruct b; [by rewrite filter_cons_False by done|].
  rewrite filter_cons_True by done. cbn [length]. lia.
Qed.

Lemma free_count_mono l l' :
  length l' = length l → (∀ j, l !! j = Some true → l' !! j = Some true) → free_count l' ≤ free_count l.
Proof.
  revert l'. induction l as [|b l IH]; intros [|b' l'] Hl Hu; try done.
  rewrite !free_count_cons. injection Hl as Hl.
  assert (free_count l' ≤ free_count l) by (apply IH; [done|]; intros j; apply (Hu (S j))).
  destruct b; [specialize (Hu 0%nat eq_refl); injection Hu as ->; lia|destruct b'; lia].
Qed.

Lemma wrapped_rest n : n mod 4096 ≠ 0 → w64 (n - 4096) mod 4096 ≠ 0.
Proof.
  intros Hn. unfold w64. rewrite Z.mod_mod_divide by (by exists 4503599627370496).
  replace (n - 4096) with (n + (-1) * 4096) by lia. by rewrite Z.mod_add.
Qed.

Lemma map_anon_odd fuel : ∀ s root F fl va n flags,
  vm_ok 2 s root F fl → 0 ≤ flags < 1024 → pte_leaf flags = true → n mod 4096 ≠ 0 →
  free_count fl < Z.of_nat fuel → (map_anon fuel root va n flags s).1 = Err NoMem.
Proof.
  induction fuel as [|fuel IH]; intros s root F fl va n flags Hok Hf Hl Hn Hfu;
    [pose proof (free_count_bound fl); lia|].
  cbn [map_anon]. destruct (Z.eqb_spec n 0) as [->|_]; [done|].
  destruct (AD_flags flags Hf Hl) as [HfA HlA].
  destruct (anon_page s root F fl Hok) as [E|(i & s1 & Hi & E & Hok1 & _ & _ & Hpp & Hpe & _)].
  { unfold mbind, SM_bind. by rewrite E. }
  rewrite (sm_bind_ok _ _ _ _ _ E).
  destruct (map_one_spec 0 s1 root F (<[i:=true]> fl) va (page_addr (vm_pmm s) i) (AD flags))
    as (F2 & fl2 & Hok2 & Hg2 & H2); [lia|done..|].
  destruct (map_one root va (page_addr (vm_pmm s) i) (AD flags) 0 s1) as [[[]|e|] s2] eqn:E2;
    cbn [fst snd] in *; [| |done].
  - rewrite (sm_bind_ok _ _ _ _ _ E2). eapply IH; [exact Hok2|done|done|by apply wrapped_rest|].
    pose proof (free_count_mono _ _ (gr_len _ _ _ _ _ _ Hg2) (gr_used _ _ _ _ _ _ Hg2)) as Hfc.
    rewrite free_count_take in Hfc by done. lia.
  - unfold mbind, SM_bind. rewrite E2. destruct H2 as [-> _]. done.
Qed.

(** ** The kernel's root table *)

Definition kernel_flags : Z := 207.

Lemma kernel_leaf_spec i :
  0 ≤ i < 3 → flat 2 (kernel_leaf i) ∧ pte_valid (kernel_leaf i) = true ∧ pte_leaf (kernel_leaf i) = true ∧
  pte_pa (kernel_leaf i) = i * 2 ^ 30 ∧ kernel_leaf i mod 1024 = kernel_flags.
Proof.
  intros Hi. assert (i = 0 ∨ i = 1 ∨ i = 2) as [-> | [-> | ->]] by lia;
    (split; [split; [done|]; right|]; by split_and!).
Qed.

Definition kernel_table : list Z :=
  [kernel_leaf 0; kernel_leaf 1; kernel_leaf 2] ++ replicate 509 0.

Lemma vmm_init_spec s fl :
  pmm_rep (vm_pmm s) fl → pm_base (vm_pmm s) mod 4096 = 0 →
  pm_base (vm_pmm s) + 4096 * len fl ≤ 2 ^ 56 → ¬ Forall (λ b, b = true) fl →
  ∃ i s' fl', fl !! i = Some false ∧ vmm_init s = (Ok (page_addr (vm_pmm s) i), s') ∧
    vm_tabs s' !! page_addr (vm_pmm s) i = Some kernel_table ∧
    vm_ok 2 s' (page_addr (vm_pmm s) i) [page_addr (vm_pmm s) i] fl'.
Proof.
  intros Hrep Hb Hend Hfree. unfold vmm_init, new_root.
  destruct (alloc_spec (vm_pmm s) fl Hrep) as [[_ H]|(i & p' & [Hi _] & Ea & Hr & Hb' & _)]; [done|].
  set (pg := page_addr (vm_pmm s) i).
  assert (vm_alloc_zero s = (Ok pg, mkVm p' (<[pg := replicate 512 0]> (vm_tabs s)))) as E.
  { unfold vm_alloc_zero, onp, alloc_zero, mbind, SM_bind. by rewrite Ea. }
  exists i, (mkVm p' (<[pg := kernel_table]> (vm_tabs s))), (<[i := true]> fl).
  split; [done|]. split.
  { rewrite (sm_bind_ok _ _ _ _ _ E).
    do 3 (erewrite sm_bind_ok; [|apply write_pte_ok; [apply lookup_insert_eq|done]];
          cbn [vm_tabs vm_pmm]; rewrite insert_insert_eq).
    reflexivity. }
  cbn [vm_tabs]. split; [apply lookup_insert_eq|].
  pose proof (lookup_lt_Some _ _ _ Hi) as Hlt.
  constructor; cbn [vm_pmm vm_tabs]; [done|by rewrite Hb'|rewrite Hb'; unfold len in *; by rewrite length_insert| | |].
  - apply (flat_tree 2 _ _ kernel_table); [apply lookup_insert_eq|done|].
    apply Forall_app. split; [|by apply Forall_replicate; split; [done|left]].
    apply Forall_forall. intros e He. repeat (apply elem_of_cons in He as [->|He]; [by apply kernel_leaf_spec|]).
    by apply elem_of_nil in He.
  - apply NoDup_singleton.
  - intros pg' ->%list_elem_of_singleton. exists i. unfold pg, page_addr. rewrite Hb'.
    split; [done|]. by apply list_lookup_insert_eq.
Qed.

Lemma kernel_resolve tabs root va :
  tabs !! root = Some kernel_table → 0 ≤ va < 2 ^ 39 →
  resolve 2 tabs root va = if va <? 3 * 2 ^ 30 then Some (va, kernel_flags) else None.
Proof.
  intros Ht Hva. pose proof (sv39_idx_eq 2 va ltac:(lia)) as Hidx. change (span 2) with (2 ^ 30) in Hidx.
  assert (0 ≤ va / 2 ^ 30 < 512) as Hd.
  { split; [apply Z.div_pos; lia|]. apply Z.div_lt_upper_bound; [done|]. change (2 ^ 30 * 512) with (2 ^ 39). lia. }
  rewrite Z.mod_small in Hidx by done. pose proof (Z.div_mod va (2 ^ 30) ltac:(done)) as Hdm.
  pose proof (Z.mod_pos_bound va (2 ^ 30) ltac:(done)) as Hmp.
  destruct (Z.ltb_spec va (3 * 2 ^ 30)) as [Hlt|Hge].
  - assert (0 ≤ va / 2 ^ 30 < 3) as Hd3 by lia.
    destruct (kernel_leaf_spec _ Hd3) as (_ & Hv & Hl & Hp & Hf).
    rewrite (resolve_entry 2 tabs root va kernel_table (kernel_leaf (va / 2 ^ 30)) Ht).
    + unfold entry_resolve. rewrite Hv, Hl, Hp, Hf, page_off_eq. cbn [negb]. change (span 2) with (2 ^ 30).
      do 2 f_equal. lia.
    + rewrite Hidx. assert (va / 2 ^ 30 = 0 ∨ va / 2 ^ 30 = 1 ∨ va / 2 ^ 30 = 2) as [-> | [-> | ->]] by lia; done.
  - rewrite (resolve_entry 2 tabs root va kernel_table 0 Ht); [done|]. rewrite Hidx.
    unfold kernel_table. rewrite lookup_app_r by (cbn [length]; lia). apply lookup_replicate. cbn [length]. lia.
Qed.


(** ** Sv39 in the privileged architecture *)

(** Address translation as the manual gives it: fields are ranges of bits, a page table is
    words of physical memory, and the three levels are three reads. An encoding that the
    manual reserves, and a superpage that is not aligned, is [Reserved]. *)
Module Sv39.

Definition bits (hi lo x : Z) : Z := x / 2 ^ lo mod 2 ^ (hi + 1 - lo).
Definition vpn (i va : Z) : Z := bits (12 + 9 * i + 8) (12 + 9 * i) va.
Definition ppn (pte : Z) : Z := bits 53 10 pte.
Definition V (pte : Z) : bool := Z.testbit pte 0.
Definition R (pte : Z) : bool := Z.testbit pte 1.
Definition W (pte : Z) : bool := Z.testbit pte 2.
Definition X (pte : Z) : bool := Z.testbit pte 3.
Definition U (pte : Z) : bool := Z.testbit pte 4.

(** Bits 63 to 39 of an address repeat bit 38. *)
Definition canonical (va : Z) : bool := (bits 63 38 va =? 0) || (bits 63 38 va =? 2 ^ 26 - 1).

(** The word at a physical address *)
Definition word (s : Vm) (a : Z) : option Z :=
  tbl ← vm_tabs s !! (a - a mod 4096); tbl !! Z.to_nat (a mod 4096 / 8).

Inductive outcome := PageFault | Reserved | Translated (pa pte : Z).

(** A leaf at level [i]: the low [i] parts of the page number come from the address. *)
Definition leaf (i va pte : Z) : outcome :=
  if bits (9 * i - 1) 0 (ppn pte) =? 0
  then Translated (2 ^ (12 + 9 * i) * bits 43 (9 * i) (ppn pte) + bits (12 + 9 * i - 1) 0 va) pte
  else Reserved.
Definition entry (i va pte : Z) (next : Z → outcome) : outcome :=
  if negb (V pte) then PageFault
  else if negb (R pte) && W pte then Reserved
  else if R pte || X pte then leaf i va pte
  else next (ppn pte * 4096).
Definition read (s : Vm) (table i va : Z) (next : Z → outcome) : outcome :=
  match word s (table + 8 * vpn i va) with Some pte => entry i va pte next | None => PageFault end.

Definition translation (s : Vm) (root va : Z) : outcome :=
  if canonical va then read s root 2 va (λ t1, read s t1 1 va (λ t0, read s t0 0 va (λ _, PageFault)))
  else PageFault.
End Sv39.

Lemma land_pow2_bit e n : 0 ≤ n → negb (Z.land e (2 ^ n) =? 0) = Z.testbit e n.
Proof.
  intros Hn. destruct (Z.testbit e n) eqn:E.
  - apply negb_true_iff, Z.eqb_neq. intros H. assert (Z.testbit (Z.land e (2 ^ n)) n = false) as Hb by (by rewrite H, Z.bits_0).
    rewrite Z.land_spec, Z.pow2_bits_true, E in Hb by done. done.
  - apply negb_false_iff, Z.eqb_eq, Z.bits_inj'. intros i Hi. rewrite Z.land_spec, Z.bits_0.
    destruct (decide (i = n)) as [->|Hne]; [by rewrite E|]. by rewrite Z.pow2_bits_false, andb_false_r by lia.
Qed.

Lemma sv39_flags e : pte_valid e = Sv39.V e ∧ pte_leaf e = Sv39.R e || Sv39.X e ∧ pte_user e = Sv39.U e.
Proof.
  unfold pte_valid, pte_leaf, pte_user, Sv39.V, Sv39.R, Sv39.X, Sv39.U.
  rewrite <- !land_pow2_bit by lia. split_and!; [done| |done].
  change PTE_LEAF with (Z.lor (2 ^ 1) (2 ^ 3)). rewrite Z.land_lor_distr_r.
  destruct (Z.eqb_spec (Z.land e (2 ^ 1)) 0) as [->|H1]; [by rewrite Z.lor_0_l|]. simpl.
  apply negb_true_iff, Z.eqb_neq. intros [H _]%Z.lor_eq_0_iff. done.
Qed.

Lemma sv39_ppn e : 0 ≤ e → pte_pa e = 4096 * Sv39.ppn e.
Proof. intros He. by rewrite pte_pa_eq. Qed.
Lemma sv39_span l : (l ≤ 2)%nat → span l = 2 ^ (12 + 9 * Z.of_nat l).
Proof. intros Hl. by destruct l as [|[|[|]]]; [..|lia]. Qed.
Lemma sv39_vpn l va : (l ≤ 2)%nat → sv39_idx l va = Sv39.vpn (Z.of_nat l) va.
Proof.
  intros Hl. rewrite sv39_idx_eq, sv39_span by done. unfold Sv39.vpn, Sv39.bits.
  by replace (12 + 9 * Z.of_nat l + 8 + 1 - (12 + 9 * Z.of_nat l)) with 9 by lia.
Qed.

Lemma sv39_word s t tbl i : t mod 4096 = 0 → 0 ≤ i < 512 → vm_tabs s !! t = Some tbl →
  Sv39.word s (t + 8 * i) = tbl !! Z.to_nat i.
Proof.
  intros Ht Hi E. unfold Sv39.word. assert ((t + 8 * i) mod 4096 = 8 * i) as -> by (rewrite Z.add_mod, Ht, Z.add_0_l, Z.mod_mod, Z.mod_small; lia).
  replace (t + 8 * i - 8 * i) with t by lia. rewrite E. simpl. by rewrite Z.mul_comm, Z.div_mul.
Qed.

(** What the software says about an address that the architecture has an answer for *)
Definition agrees (o : Sv39.outcome) (r : option (Z * Z)) : Prop :=
  match o with
  | Sv39.PageFault => r = None
  | Sv39.Reserved => True
  | Sv39.Translated pa pte => r = Some (pa, pte mod 1024)
  end.

Lemma sv39_leaf l e va : (l ≤ 2)%nat → 0 ≤ e → agrees (Sv39.leaf (Z.of_nat l) va e) (Some (pte_pa e + page_off l va, e mod 1024)).
Proof.
  intros Hl He. unfold Sv39.leaf. destruct (Z.eqb_spec (Sv39.bits (9 * Z.of_nat l - 1) 0 (Sv39.ppn e)) 0) as [H|]; [|done].
  cbn [agrees]. do 2 f_equal. rewrite page_off_eq, sv39_ppn, sv39_span by done. unfold Sv39.bits in *.
  assert (0 ≤ Sv39.ppn e < 2 ^ 44) as Hp by (apply Z.mod_pos_bound; done).
  replace (9 * Z.of_nat l - 1 + 1 - 0) with (9 * Z.of_nat l) in H by lia.
  replace (12 + 9 * Z.of_nat l - 1 + 1 - 0) with (12 + 9 * Z.of_nat l) by lia.
  change (2 ^ 0) with 1 in *. rewrite !Z.div_1_r in *. f_equal.
  rewrite Z.pow_add_r by lia. change (2 ^ 12) with 4096. rewrite <- Z.mul_assoc. f_equal.
  rewrite (Z.mod_small (Sv39.ppn e / _)).
  - pose proof (Z.div_mod (Sv39.ppn e) (2 ^ (9 * Z.of_nat l))). lia.
  - split; [apply Z.div_pos; lia|]. apply Z.div_lt_upper_bound; [lia|]. rewrite <- Z.pow_add_r by lia.
    replace (9 * Z.of_nat l + (43 + 1 - 9 * Z.of_nat l)) with 44 by lia. apply Hp.
Qed.

Lemma sv39_entry l e va next r : (l ≤ 2)%nat → 0 ≤ e →
  (pte_valid e = true → pte_leaf e = false → agrees (next (pte_pa e)) r) →
  agrees (Sv39.entry (Z.of_nat l) va e next)
    (if negb (pte_valid e) then None else if pte_leaf e then Some (pte_pa e + page_off l va, e mod 1024) else r).
Proof.
  intros Hl He Hn. destruct (sv39_flags e) as (Ev & El & _). unfold Sv39.entry. rewrite <- Ev, <- El.
  destruct (pte_valid e); cbn [negb]; [|done]. destruct (negb (Sv39.R e) && Sv39.W e); [done|].
  destruct (pte_leaf e); [by apply sv39_leaf|]. rewrite Z.mul_comm, <- sv39_ppn by done. by apply Hn.
Qed.

Lemma sv39_read l s t F va next : (l ≤ 2)%nat → t mod 4096 = 0 → tree l (vm_tabs s) t F →
  (∀ e F', match l with O => False | S l' => tree l' (vm_tabs s) (pte_pa e) F' end →
     0 ≤ e → agrees (next (pte_pa e)) (match l with O => None | S l' => resolve l' (vm_tabs s) (pte_pa e) va end)) →
  (∀ x, l = O → agrees (next x) None) →
  agrees (Sv39.read s t (Z.of_nat l) va next) (resolve l (vm_tabs s) t va).
Proof.
  intros Hl Ha Ht Hn H0. destruct (proj1 (tree_unfold _ _ _ _) Ht) as (tbl & Fs & E & Hlen & -> & Hes).
  pose proof (sv39_idx_range l va Hl) as Hr. unfold Sv39.read. rewrite <- sv39_vpn by done.
  rewrite (sv39_word s t tbl _ Ha Hr E). destruct (lookup_lt_is_Some_2 tbl (Z.to_nat (sv39_idx l va))) as [e He]; [lia|].
  rewrite He, (resolve_entry _ _ _ _ _ _ E He). destruct (Forall2_lookup_l _ _ _ _ _ Hes He) as (Fi & HFi & Hp & Hk).
  unfold entry_resolve. apply sv39_entry; [done|done|]. intros Hv Hlf. rewrite Hv, Hlf in Hk. cbn [negb] in Hk.
  destruct l as [|l']; [done|]. by apply (Hn e Fi).
Qed.

Lemma pte_pa_aligned e : 0 ≤ e → pte_pa e mod 4096 = 0.
Proof. intros He. rewrite sv39_ppn, Z.mul_comm by done. by apply Z.mod_mul. Qed.

Lemma sv39_agrees s root F fl va : vm_ok 2 s root F fl → Sv39.canonical va = true → agrees (Sv39.translation s root va) (meaning s root va).
Proof.
  intros Hok Hc. pose proof (vo_tree _ _ _ _ _ Hok) as Ht. unfold Sv39.translation, meaning. rewrite Hc.
  assert (root mod 4096 = 0) as Hroot.
  { destruct (proj1 (tree_unfold _ _ _ _) Ht) as (tbl & Fs & _ & _ & -> & _).
    destruct (vo_used _ _ _ _ _ Hok root) as (j & -> & _); [by left|]. unfold page_addr.
    rewrite Z.mul_comm, Z.mod_add by done. by apply (vo_base _ _ _ _ _ Hok). }
  apply (sv39_read 2 s root F); [lia|done|done| |done]. intros e1 F1 H1 He1.
  apply (sv39_read 1 s _ F1); [lia|by apply pte_pa_aligned|done| |done]. intros e0 F0 H0 He0.
  apply (sv39_read 0 s _ F0); [lia|by apply pte_pa_aligned|done|done|done].
Qed.

Module VmmTheorems.

(** Sixteen pages at 2 GiB, three in use: the third holds the kernel's root. *)
Definition demo_root : Z := 0x80002000.
Definition demo_vm : Vm := mkVm (mkPmm 0x80000000 16 13 [7; 0] [0; 0; 0] ∅) {[ demo_root := kernel_table ]}.
Definition demo_fl : list bool := true :: true :: true :: replicate 13 false.

Lemma demo_vm_rep : pmm_rep (vm_pmm demo_vm) demo_fl.
Proof.
  constructor; try done. intros i b Hi. simpl.
  assert (i < 16)%nat as Hlt by (by apply lookup_lt_Some in Hi).
  do 16 (destruct i as [|i]; [vm_compute in Hi |- *; congruence|]). lia.
Qed.

Lemma demo_vm_ok : vm_ok 2 demo_vm demo_root [demo_root] demo_fl.
Proof.
  constructor; [apply demo_vm_rep|done|done| |apply NoDup_singleton|].
  - apply (flat_tree 2 _ _ kernel_table); [apply lookup_insert_eq|done|].
    apply Forall_app. split; [|by apply Forall_replicate; split; [done|left]].
    apply Forall_forall. intros e He. repeat (apply elem_of_cons in He as [->|He]; [by apply kernel_leaf_spec|]).
    by apply elem_of_nil in He.
  - intros pg ->%list_elem_of_singleton. by exists 2%nat.
Qed.

(** C7. Mapping a range is exact.  On success every address of the range,
    rounded up to whole pages, resolves to the physical address at the same
    distance from [pa], with the flags asked for plus V, A and D, whichever
    mixture of 1 GiB, 2 MiB and 4 KiB leaves was used and whatever leaves had to
    be split on the way; every other address keeps its meaning.  It fails only
    with ENOMEM, with nothing changed outside the range, never panics, and keeps
    the page tables a tree of distinct pages in use. *)
Theorem map_range_exact s root F fl va pa size flags :
  vm_ok 2 s root F fl → 0 ≤ flags < 1024 → pte_leaf flags = true →
  0 ≤ va → va mod 4096 = 0 → 0 ≤ pa → pa mod 4096 = 0 → 0 ≤ size →
  va + pages_up size ≤ 2 ^ 39 → pa + pages_up size ≤ 2 ^ 56 →
  let r := Vmm.map root va pa size flags s in
  ∃ F' fl', vm_ok 2 r.2 root F' fl' ∧ grows s F fl r.2 F' fl' ∧
    match r.1 with
    | Ok _ => same_on (meaning r.2 root) (remap (meaning s root) va (pages_up size) pa (Z.lor 1 (AD flags)))
    | Err e => e = NoMem ∧ outside (meaning r.2 root) (meaning s root) va (pages_up size)
    | Panic => False
    end.
Proof.
  intros Hok Hf Hl Hva Hal Hpa Hpl Hsz Hve Hpe. apply map_loop_spec; try done.
  split; [done|]. pose proof (pages_up_bounds size) as Hup. unfold div_ceil.
  unfold pages_up in Hup. replace (size + 4096 - 1) with (size + 4095) by lia.
  rewrite Z2Nat.id by (apply Z.div_pos; lia). lia.
Qed.

Lemma map_range_exact_witness :
  let r := Vmm.map demo_root 0x100000000 0x80000000 0x201000 6 demo_vm in
  r.1 = Ok tt ∧
  ∃ F' fl', vm_ok 2 r.2 demo_root F' fl' ∧ grows demo_vm [demo_root] demo_fl r.2 F' fl' ∧
    match r.1 with
    | Ok _ => same_on (meaning r.2 demo_root)
        (remap (meaning demo_vm demo_root) 0x100000000 (pages_up 0x201000) 0x80000000 (Z.lor 1 (AD 6)))
    | Err e => e = NoMem ∧ outside (meaning r.2 demo_root) (meaning demo_vm demo_root) 0x100000000 (pages_up 0x201000)
    | Panic => False
    end.
Proof.
  split; [vm_compute; reflexivity|].
  apply (map_range_exact demo_vm demo_root [demo_root] demo_fl); try done. apply demo_vm_ok.
Defined.

(** C21. The software page walk does what the hardware does. For every well-formed
    table and every canonical address, where Sv39 as the privileged architecture defines
    it faults, [translate] and [translate_user] return 0; where it translates, [translate]
    returns its physical address and [translate_user] returns it exactly when the entry
    has the U bit. Neither changes memory or panics, also on the entries that the
    architecture reserves, of which the statement says no more. *)
Theorem translate_is_sv39 s root F fl va :
  vm_ok 2 s root F fl → Sv39.canonical va = true →
  ∃ a u, translate root va s = (Ok a, s) ∧ translate_user root va s = (Ok u, s) ∧
    match Sv39.translation s root va with
    | Sv39.PageFault => a = 0 ∧ u = 0
    | Sv39.Translated pa pte => a = pa ∧ u = if Sv39.U pte then pa else 0
    | Sv39.Reserved => True
    end.
Proof.
  intros Hok Hc. pose proof (vo_tree _ _ _ _ _ Hok) as Ht. unfold translate, translate_user.
  rewrite !(translate_from_spec 2 _ s root F va (le_n 2) Ht). eexists _, _. split_and!; [done..|].
  pose proof (sv39_agrees s root F fl va Hok Hc) as H. unfold meaning in H.
  destruct (Sv39.translation s root va) as [| |pa pte]; cbn [agrees] in H; [by rewrite H|done|]. rewrite H. split; [done|].
  cbn [answer andb]. unfold pte_user, Sv39.U. change PTE_U with (2 ^ 4). rewrite land_pow2_bit by done.
  change 1024 with (2 ^ 10). rewrite Z.mod_pow2_bits_low by done. by destruct (Z.testbit pte 4).
Qed.

(** A machine with a user page at 16 GiB, and an address in the gigabytes of the kernel *)
Definition user_vm : Vm := (map_one demo_root 0x400000000 0x80005000 22 0 demo_vm).2.
Lemma translate_is_sv39_witness :
  Sv39.translation demo_vm demo_root 0x40001234 = Sv39.Translated 0x40001234 (kernel_leaf 1) ∧
  translate demo_root 0x40001234 demo_vm = (Ok 0x40001234, demo_vm) ∧
  translate_user demo_root 0x40001234 demo_vm = (Ok 0, demo_vm).
Proof.
  assert (Sv39.translation demo_vm demo_root 0x40001234 = Sv39.Translated 0x40001234 (kernel_leaf 1)) as E by (vm_compute; reflexivity).
  split; [exact E|].
  destruct (translate_is_sv39 demo_vm demo_root [demo_root] demo_fl 0x40001234 demo_vm_ok eq_refl) as (a & u & Ha & Hu & H).
  rewrite E in H. destruct H as [-> ->]. split; [exact Ha|]. exact Hu.
Defined.

(** The pages of the user translate the same way. *)
Example user_page :
  Sv39.translation user_vm demo_root 0x400000abc = Sv39.Translated 0x80005abc 0x20001417 ∧
  (translate_user demo_root 0x400000abc user_vm).1 = Ok 0x80005abc.
Proof. split; vm_compute; reflexivity. Qed.

(** An address that is not canonical faults in hardware; the software drops its high bits. *)
Example not_canonical :
  Sv39.translation user_vm demo_root 0x8400000abc = Sv39.PageFault ∧
  (translate_user demo_root 0x8400000abc user_vm).1 = Ok 0x80005abc.
Proof. split; vm_compute; reflexivity. Qed.

(** C22. Anonymous mappings are private.  Mapping [m] pages at an aligned address
    succeeds with [m] distinct pages that were free before, are zeroed, and are
    not part of the page tables; the range resolves to them in order and every
    other address keeps its meaning.  It fails only with ENOMEM and then changes
    nothing outside the range. *)
Theorem map_anon_private m s root F fl va flags :
  vm_ok 2 s root F fl → 0 ≤ flags < 1024 → pte_leaf flags = true →
  0 ≤ va → va mod 4096 = 0 → va + 4096 * Z.of_nat m ≤ 2 ^ 39 →
  let r := map_anon m root va (4096 * Z.of_nat m) flags s in
  ∃ F' fl', vm_ok 2 r.2 root F' fl' ∧ grows s F fl r.2 F' fl' ∧
    anon_result s fl r.2 F' fl' root va (Z.lor 1 (AD flags)) m r.1.
Proof. intros. by apply map_anon_spec. Qed.

Lemma map_anon_private_witness :
  let r := map_anon 3 demo_root 0x100000000 (4096 * Z.of_nat 3) 22 demo_vm in
  r.1 = Ok tt ∧
  ∃ F' fl', vm_ok 2 r.2 demo_root F' fl' ∧ grows demo_vm [demo_root] demo_fl r.2 F' fl' ∧
    anon_result demo_vm demo_fl r.2 F' fl' demo_root 0x100000000 (Z.lor 1 (AD 22)) 3 r.1.
Proof.
  split; [vm_compute; reflexivity|].
  apply (map_anon_private 3 demo_vm demo_root [demo_root] demo_fl); try done. apply demo_vm_ok.
Defined.

(** A size that is not a multiple of the page size never ends the loop of
    [map_anon]: the remaining size wraps below zero, and whatever the size the
    call keeps mapping pages until memory runs out and returns ENOMEM. *)
Theorem map_anon_partial_page_exhausts fuel s root F fl va size flags :
  vm_ok 2 s root F fl → 0 ≤ flags < 1024 → pte_leaf flags = true →
  size mod 4096 ≠ 0 → free_count fl < Z.of_nat fuel →
  (map_anon fuel root va size flags s).1 = Err NoMem.
Proof. apply map_anon_odd. Qed.

Lemma map_anon_partial_page_exhausts_witness :
  (map_anon 14 demo_root 0x100000000 100 22 demo_vm).1 = Err NoMem.
Proof.
  apply (map_anon_partial_page_exhausts 14 demo_vm demo_root [demo_root] demo_fl); try done.
  apply demo_vm_ok.
Defined.

(** The kernel's boot page table is the identity on the first three
    gigabytes and maps nothing else of the 39-bit address space. *)
Theorem vmm_init_identity s fl :
  pmm_rep (vm_pmm s) fl → pm_base (vm_pmm s) mod 4096 = 0 →
  pm_base (vm_pmm s) + 4096 * len fl ≤ 2 ^ 56 → ¬ Forall (λ b, b = true) fl →
  ∃ root s' fl', vmm_init s = (Ok root, s') ∧ vm_ok 2 s' root [root] fl' ∧
    ∀ va, 0 ≤ va < 2 ^ 39 →
      translate root va s' = (Ok (if va <? 3 * 2 ^ 30 then va else 0), s') ∧
      translate_user root va s' = (Ok 0, s').
Proof.
  intros Hrep Hb Hend Hfree.
  destruct (vmm_init_spec s fl Hrep Hb Hend Hfree) as (i & s' & fl' & _ & Hi & Ht & Hok).
  exists (page_addr (vm_pmm s) i), s', fl'. split_and!; [done|done|]. intros va Hva.
  unfold translate, translate_user.
  rewrite !(translate_from_spec 2 _ s' _ _ va (le_n 2) (vo_tree _ _ _ _ _ Hok)).
  rewrite (kernel_resolve _ _ _ Ht Hva). by destruct (va <? _).
Qed.

Lemma vmm_init_identity_witness :
  ∃ root s' fl', vmm_init demo_vm = (Ok root, s') ∧ vm_ok 2 s' root [root] fl' ∧
    ∀ va, 0 ≤ va < 2 ^ 39 →
      translate root va s' = (Ok (if va <? 3 * 2 ^ 30 then va else 0), s') ∧
      translate_user root va s' = (Ok 0, s').
Proof.
  apply (vmm_init_identity demo_vm demo_fl demo_vm_rep); [done|done|].
  intros H. by apply Forall_forall with (x := false) in H; [|right; right; right; left].
Defined.

End VmmTheorems.
