(* ===== verification/ReclaimProps.v ===== *)
(** * Tearing an address space down

    [destroy_root] gives back the tables of an address space and the pages of
    its user leaves (the first page of a superpage), and nothing else. *)

From S2P Require Import Prelude Pmm PmmProps Vmm VmmProps VmmThms.
From stdpp Require Import base list numbers gmap.
From Stdlib Require Import ZArith Lia.

Open Scope Z_scope.

(** ** Releasing pages *)

(** [fl'] is [fl] with the managed pages of [pgs] free. *)
Definition released (base : Z) (fl : list bool) (pgs : list Z) (fl' : list bool) : Prop :=
  length fl' = length fl ∧
  ∀ j b, fl !! j = Some b → fl' !! j = Some (if decide (base + 4096 * Z.of_nat j ∈ pgs) then false else b).

Lemma released_nil base fl : released base fl [] fl.
Proof. split; [done|]. intros j b Hj. by rewrite decide_False by set_solver. Qed.

Lemma released_app base fl1 fl2 fl3 l1 l2 :
  released base fl1 l1 fl2 → released base fl2 l2 fl3 → released base fl1 (l1 ++ l2) fl3.
Proof.
  intros [E1 H1] [E2 H2]. split; [lia|]. intros j b Hj. rewrite (H2 _ _ (H1 _ _ Hj)).
  repeat case_decide; set_solver.
Qed.

Lemma free_page p fl pa :
  pmm_rep p fl → pm_base p mod 4096 = 0 → page_pa pa →
  ∃ p' fl', free pa p = (Ok tt, p') ∧ pmm_rep p' fl' ∧ pm_base p' = pm_base p ∧ released (pm_base p) fl [pa] fl'.
Proof.
  intros Hrep Hb [Ha Hpa]. destruct (decide (pm_base p ≤ pa < pm_base p + 4096 * len fl)) as [Hin|Hout].
  - set (i := Z.to_nat ((pa - pm_base p) / 4096)).
    assert (pa = page_addr p i) as Hi by (unfold page_addr, i; Z.to_euclidean_division_equations; lia).
    destruct (lookup_lt_is_Some_2 fl i) as [b Hl]; [unfold i, len in *; Z.to_euclidean_division_equations; lia|].
    rewrite Hi. destruct (free_spec p fl i b Hrep Hl) as (p' & Hf & Hr & Hbase & _). rewrite Nat2Z.id in Hr.
    exists p', (<[i := false]> fl). split_and!; [done..|]. split; [apply length_insert|]. intros j c Hj.
    destruct (decide (i = j)) as [<-|Hne].
    + rewrite list_lookup_insert_eq by (by eapply lookup_lt_Some). unfold page_addr. by rewrite decide_True by set_solver.
    + rewrite list_lookup_insert_ne by done. rewrite Hj. rewrite decide_False; [done|].
      intros E%list_elem_of_singleton. unfold page_addr in *. lia.
  - rewrite (free_foreign p fl pa Hrep ltac:(unfold u64; lia) Hout). exists p, fl. split_and!; [done..|].
    split; [done|]. intros j b Hj. rewrite decide_False; [done|]. intros E%list_elem_of_singleton.
    apply lookup_lt_Some in Hj. unfold len in Hout. lia.
Qed.

(** ** What a table holds *)

Fixpoint reclaimed (level : nat) (tabs : gmap Z (list Z)) (pa : Z) : list Z :=
  mjoin ((λ e,
    if negb (pte_valid e) then [] else
    if pte_leaf e then if pte_user e then [pte_pa e] else []
    else match level with O => [] | S l => reclaimed l tabs (pte_pa e) ++ [pte_pa e] end) <$> default [] (tabs !! pa)).

Definition entry_reclaimed (level : nat) (tabs : gmap Z (list Z)) (e : Z) : list Z :=
  if negb (pte_valid e) then [] else
  if pte_leaf e then if pte_user e then [pte_pa e] else []
  else match level with O => [] | S l => reclaimed l tabs (pte_pa e) ++ [pte_pa e] end.

Lemma reclaimed_eq level tabs pa : reclaimed level tabs pa = mjoin (entry_reclaimed level tabs <$> default [] (tabs !! pa)).
Proof. by destruct level. Qed.

(** The pages of the user leaves below a table. *)
Fixpoint user_leaves (level : nat) (tabs : gmap Z (list Z)) (pa : Z) : list Z :=
  mjoin ((λ e,
    if negb (pte_valid e) then [] else
    if pte_leaf e then if pte_user e then [pte_pa e] else []
    else match level with O => [] | S l => user_leaves l tabs (pte_pa e) end) <$> default [] (tabs !! pa)).

Definition frees (m : VM unit) (s : Vm) (fl : list bool) (pgs : list Z) : Prop :=
  ∃ p' fl', m s = (Ok tt, mkVm p' (vm_tabs s)) ∧ pmm_rep p' fl' ∧ pm_base p' = pm_base (vm_pmm s) ∧
    released (pm_base (vm_pmm s)) fl pgs fl'.

Lemma frees_nil s fl : pmm_rep (vm_pmm s) fl → frees (mret tt) s fl [].
Proof. intros H. exists (vm_pmm s), fl. destruct s. split_and!; [done..|apply released_nil]. Qed.

Lemma frees_page s fl pa :
  pmm_rep (vm_pmm s) fl → pm_base (vm_pmm s) mod 4096 = 0 → page_pa pa → frees (onp (free pa)) s fl [pa].
Proof.
  intros H1 H2 H3. destruct (free_page _ _ _ H1 H2 H3) as (p' & fl' & E & Hr & Hb & Hrel).
  exists p', fl'. split_and!; [|done..]. unfold onp. by rewrite E.
Qed.

Lemma frees_seq (m1 m2 : VM unit) s fl l1 l2 :
  frees m1 s fl l1 →
  (∀ p' fl', pmm_rep p' fl' → pm_base p' = pm_base (vm_pmm s) → frees m2 (mkVm p' (vm_tabs s)) fl' l2) →
  frees (m1;; m2) s fl (l1 ++ l2).
Proof.
  intros (p1 & fl1 & E1 & R1 & B1 & D1) H2. destruct (H2 p1 fl1 R1 B1) as (p2 & fl2 & E2 & R2 & B2 & D2). simpl in *.
  exists p2, fl2. split_and!; [|done|congruence|].
  - unfold mbind, SM_bind. by rewrite E1.
  - eapply released_app; [done|]. by rewrite <- B1.
Qed.

Lemma entry_page e : 0 ≤ e → page_pa (pte_pa e).
Proof.
  intros He. rewrite pte_pa_eq by done. pose proof (Z.mod_pos_bound (e / 1024) (2 ^ 44) ltac:(lia)).
  split; [by rewrite Z.mul_comm, Z_mod_mult|lia].
Qed.

Lemma free_entries_spec level tabs rec es Fs : ∀ s fl,
  vm_tabs s = tabs → pmm_rep (vm_pmm s) fl → pm_base (vm_pmm s) mod 4096 = 0 →
  Forall2 (entry_ok (sub_tree level tabs) level) es Fs →
  match level with
  | O => rec = None
  | S l => ∃ r, rec = Some r ∧ ∀ pa F s fl, vm_tabs s = tabs → pmm_rep (vm_pmm s) fl →
             pm_base (vm_pmm s) mod 4096 = 0 → tree l tabs pa F → frees (r pa) s fl (reclaimed l tabs pa)
  end →
  frees (free_entries rec es) s fl (mjoin (entry_reclaimed level tabs <$> es)).
Proof.
  revert Fs. induction es as [|e es IH]; intros Fs s fl Ht Hr Hb Hes Hrec; [by apply frees_nil|].
  inversion Hes as [|? F ? Fs' [He0 He] Hes']; subst. cbn [free_entries fmap list_fmap mjoin list_join]. simpl.
  apply frees_seq; [|intros p' fl' Hr' Hb'; apply (IH Fs'); simpl; rewrite ?Hb'; done]. unfold entry_reclaimed.
  destruct (pte_valid e); [|by apply frees_nil]. simpl in *.
  destruct (pte_leaf e).
  - destruct (pte_user e); [|by apply frees_nil]. apply frees_page; [done..|by apply entry_page].
  - destruct level as [|l]; [done|]. destruct Hrec as (r & -> & Hrec).
    apply frees_seq; [by apply (Hrec _ F)|]. intros p' fl' Hr' Hb'. apply frees_page; simpl; rewrite ?Hb'; [done..|by apply entry_page].
Qed.

Lemma free_subtree_spec level : ∀ tabs pa F s fl,
  vm_tabs s = tabs → pmm_rep (vm_pmm s) fl → pm_base (vm_pmm s) mod 4096 = 0 → tree level tabs pa F →
  frees (free_subtree level pa) s fl (reclaimed level tabs pa).
Proof.
  induction level as [|l IH]; intros tabs pa F s fl Ht Hr Hb (tbl & Fs & E & _ & _ & Hes); subst tabs; rewrite reclaimed_eq, E; simpl.
  - assert (frees (free_entries None tbl) s fl (mjoin (entry_reclaimed 0 (vm_tabs s) <$> tbl))) as H by (by apply (free_entries_spec 0 (vm_tabs s) None tbl Fs)).
    destruct H as (p' & fl' & H). exists p', fl'. cbn [free_subtree]. unfold table_at, mbind, SM_bind. rewrite E. exact H.
  - assert (frees (free_entries (Some (free_subtree l)) tbl) s fl (mjoin (entry_reclaimed (S l) (vm_tabs s) <$> tbl))) as H.
    { apply (free_entries_spec (S l) (vm_tabs s) _ tbl Fs); [done..|]. exists (free_subtree l). split; [done|]. intros; by eapply IH. }
    destruct H as (p' & fl' & H). exists p', fl'. cbn [free_subtree]. unfold table_at, mbind, SM_bind. rewrite E. exact H.
Qed.

Definition entry_leaves (level : nat) (tabs : gmap Z (list Z)) (e : Z) : list Z :=
  if negb (pte_valid e) then [] else
  if pte_leaf e then if pte_user e then [pte_pa e] else []
  else match level with O => [] | S l => user_leaves l tabs (pte_pa e) end.

Lemma user_leaves_eq level tabs pa : user_leaves level tabs pa = mjoin (entry_leaves level tabs <$> default [] (tabs !! pa)).
Proof. by destruct level. Qed.

(** An entry gives back its tables and its leaves; lifted to a whole table. *)
Lemma entries_elem level tabs es Fs pg :
  Forall2 (λ e F, pg ∈ entry_reclaimed level tabs e ↔ pg ∈ F ∨ pg ∈ entry_leaves level tabs e) es Fs →
  pg ∈ mjoin (entry_reclaimed level tabs <$> es) ↔ pg ∈ concat Fs ∨ pg ∈ mjoin (entry_leaves level tabs <$> es).
Proof.
  induction 1 as [|e F es Fs He Hes IH]; simpl; [set_solver|]. rewrite !elem_of_app, He, IH. tauto.
Qed.

Lemma reclaimed_elem level : ∀ tabs pa F, tree level tabs pa F →
  ∀ pg, pg ∈ reclaimed level tabs pa ++ [pa] ↔ pg ∈ F ∨ pg ∈ user_leaves level tabs pa.
Proof.
  induction level as [|l IH]; intros tabs pa F (tbl & Fs & E & _ & -> & Hes) pg;
    rewrite reclaimed_eq, user_leaves_eq, E; cbn [default from_option]; simpl;
    rewrite elem_of_app, list_elem_of_singleton, elem_of_cons, entries_elem with (Fs := Fs); try tauto;
    (eapply Forall2_impl; [exact Hes|]); intros e F [He0 He]; unfold entry_reclaimed, entry_leaves;
    (destruct (pte_valid e); [|simpl in *; subst; set_solver]); simpl in *;
    (destruct (pte_leaf e); [destruct He as [-> _]; set_solver|]); [done|by apply IH].
Qed.

Lemma destroy_root_spec s root F fl :
  vm_ok 2 s root F fl →
  ∃ p' fl', destroy_root root s = (Ok tt, mkVm p' (vm_tabs s)) ∧ pmm_rep p' fl' ∧ length fl' = length fl ∧
    ∀ j b, fl !! j = Some b →
      fl' !! j = Some (if decide (page_addr (vm_pmm s) j ∈ F ++ user_leaves 2 (vm_tabs s) root) then false else b).
Proof.
  intros [Hrep Hb Hend Htree Hnd Hused].
  assert (page_pa root) as Hroot.
  { destruct (Hused root) as (j & -> & Hj); [destruct Htree as (tbl & Fs & _ & _ & -> & _); left|].
    apply (page_addr_page _ fl); try done. by eapply lookup_lt_Some. }
  assert (frees (destroy_root root) s fl (reclaimed 2 (vm_tabs s) root ++ [root])) as (p' & fl' & E & Hr & _ & Hl & Hrel).
  { apply frees_seq; [by eapply free_subtree_spec|]. intros p' fl' Hr' Hb'. apply frees_page; simpl; rewrite ?Hb'; done. }
  exists p', fl'. split_and!; [done..|]. intros j b Hj. rewrite (Hrel _ _ Hj). f_equal.
  pose proof (reclaimed_elem 2 _ _ _ Htree (pm_base (vm_pmm s) + 4096 * Z.of_nat j)) as Hel.
  unfold page_addr. apply decide_ext. by rewrite Hel, elem_of_app.
Qed.

Module ReclaimTheorems.

(** C17. Tearing an address space down succeeds and reclaims it exactly: afterwards
    the pages of its page tables and of its user leaves (the first page of a
    superpage) are free, every other page is as free as it was, and memory is
    unchanged; kernel leaves are not given back. *)
Theorem destroy_root_reclaims s root F fl :
  vm_ok 2 s root F fl →
  ∃ p' fl', destroy_root root s = (Ok tt, mkVm p' (vm_tabs s)) ∧ pmm_rep p' fl' ∧ length fl' = length fl ∧
    ∀ j b, fl !! j = Some b →
      fl' !! j = Some (if decide (page_addr (vm_pmm s) j ∈ F ++ user_leaves 2 (vm_tabs s) root) then false else b).
Proof. apply destroy_root_spec. Qed.

Lemma destroy_root_reclaims_witness :
  ∃ p' fl', destroy_root VmmTheorems.demo_root VmmTheorems.demo_vm = (Ok tt, mkVm p' (vm_tabs VmmTheorems.demo_vm)) ∧
    pmm_rep p' fl' ∧ fl' !! 2%nat = Some false ∧ fl' !! 1%nat = Some true.
Proof.
  destruct (destroy_root_reclaims VmmTheorems.demo_vm VmmTheorems.demo_root [VmmTheorems.demo_root] VmmTheorems.demo_fl
    VmmTheorems.demo_vm_ok) as (p' & fl' & E & Hr & _ & H).
  exists p', fl'. split; [exact E|]. split; [exact Hr|]. split.
  - rewrite (H 2%nat true eq_refl). rewrite decide_True; [reflexivity|]. apply elem_of_app. left. left.
  - rewrite (H 1%nat true eq_refl). rewrite decide_False; [reflexivity|].
    assert (user_leaves 2 (vm_tabs VmmTheorems.demo_vm) VmmTheorems.demo_root = []) as -> by (vm_compute; reflexivity).
    rewrite app_nil_r. intros Hin%list_elem_of_singleton. vm_compute in Hin. discriminate Hin.
Defined.

End ReclaimTheorems.
