(* ===== verification/Heap.v ===== *)
(** * kernel/src/mm/heap.rs and kalloc.rs: the kernel heap

    The heap is the memory that follows the kernel image: [hp_blocks] maps the
    address of a block header to the header, [hp_mem] the bytes.  Reading a
    header that was never written is [Panic].  Objects that fit a size class
    come from the slab allocator first. *)

From S2P Require Import Prelude Pmm.
From stdpp Require Import base list numbers gmap.
From Stdlib Require Import ZArith Lia.

Open Scope Z_scope.

Definition HEAP_SIZE : Z := 4194304.
Definition MIN_BLOCK : Z := 16.

(** Addresses; [0] is null. *)
Record Block := mkBlock { b_size : Z; b_free : bool; b_next : Z; b_prev : Z }.

Definition BLOCK_HDR : Z := 32.

Record Heap := mkHeap {
  hp_pmm : Pmm; hp_used : Z; hp_free_list : Z; hp_blocks : gmap Z Block; hp_mem : Z → Z }.

Abbreviation HM := (SM Heap).

Definition set_hp_pmm (p : Pmm) (h : Heap) : Heap :=
  mkHeap p (hp_used h) (hp_free_list h) (hp_blocks h) (hp_mem h).
Definition set_hp_blocks (b : gmap Z Block) (h : Heap) : Heap :=
  mkHeap (hp_pmm h) (hp_used h) (hp_free_list h) b (hp_mem h).
Definition add_used (n : Z) (h : Heap) : Heap :=
  mkHeap (hp_pmm h) (w64 (hp_used h + n)) (hp_free_list h) (hp_blocks h) (hp_mem h).

Definition on_pmm {A} (m : PM A) : HM A := λ h,
  let '(r, p) := m (hp_pmm h) in (r, set_hp_pmm p h).

Definition blk_at (a : Z) : HM Block := λ h,
  match hp_blocks h !! a with Some b => (Ok b, h) | None => (Panic, h) end.
Definition set_block (a : Z) (b : Block) : HM unit :=
  modify (λ h, set_hp_blocks (<[a := b]> (hp_blocks h)) h).

Definition set_b_size (z : Z) (b : Block) : Block := mkBlock z (b_free b) (b_next b) (b_prev b).
Definition set_b_free (f : bool) (b : Block) : Block := mkBlock (b_size b) f (b_next b) (b_prev b).
Definition set_b_next (n : Z) (b : Block) : Block := mkBlock (b_size b) (b_free b) n (b_prev b).
Definition set_b_prev (p : Z) (b : Block) : Block := mkBlock (b_size b) (b_free b) (b_next b) p.

(** [(x.field = v)] on the header at [a]. *)
Definition upd_block (a : Z) (f : Block → Block) : HM unit := b ← blk_at a; set_block a (f b).

Definition heap_init (kernel_end_pa : Z) (pmm : Pmm) (mem : Z → Z) : Heap :=
  mkHeap pmm 0 kernel_end_pa {[ kernel_end_pa := mkBlock (HEAP_SIZE - BLOCK_HDR) true 0 0 ]} mem.

(** [(size + 15) & !15] *)
Definition round16 (size : Z) : Z := Z.land (w64 (size + 15)) (18446744073709551615 - 15).

(** Taking the free block [cur]: split it when the rest can hold a block. *)
Definition take_block (cur needed total : Z) (blk : Block) : HM Z :=
  (if w64 (total + MIN_BLOCK + BLOCK_HDR) <=? b_size blk then
     let new_addr := w64 (cur + BLOCK_HDR + needed) in
     set_block new_addr (mkBlock (w64 (b_size blk - needed - BLOCK_HDR)) true (b_next blk) cur);;
     (if negb (b_next blk =? 0) then upd_block (b_next blk) (set_b_prev new_addr) else mret tt);;
     upd_block cur (set_b_next new_addr);;
     upd_block cur (set_b_size needed)
   else mret tt);;
  upd_block cur (set_b_free false);;
  modify (add_used needed);;
  mret (w64 (cur + BLOCK_HDR)).

Fixpoint fit_loop (fuel : nat) (cur needed total : Z) : HM Z :=
  if cur =? 0 then fail NoMem else
  match fuel with
  | O => panic
  | S fuel =>
      blk ← blk_at cur;
      if b_free blk && (total <=? b_size blk) then take_block cur needed total blk
      else fit_loop fuel (b_next blk) needed total
  end.

Definition list_fuel (h : Heap) : nat := S (size (hp_blocks h)).

Definition kmalloc (size : Z) : HM Z :=
  if size =? 0 then fail Inval else
  sl ← on_pmm (slab_alloc size);
  match sl with
  | Some p => modify (add_used size);; mret p
  | None =>
      let needed := round16 size in
      let total := w64 (needed + BLOCK_HDR) in
      start ← gets hp_free_list;
      fuel ← gets list_fuel;
      fit_loop fuel start needed total
  end.

(** Merge with the next block when it is free. *)
Definition merge_next (a : Z) : HM unit :=
  blk ← blk_at a;
  if b_next blk =? 0 then mret tt else
  next ← blk_at (b_next blk);
  if negb (b_free next) then mret tt else
  upd_block a (λ b, set_b_size (w64 (b_size b + (BLOCK_HDR + b_size next))) b);;
  upd_block a (set_b_next (b_next next));;
  (if negb (b_next next =? 0) then upd_block (b_next next) (set_b_prev a) else mret tt).

(** Merge into the previous block when it is free. *)
Definition merge_prev (a : Z) : HM unit :=
  blk ← blk_at a;
  if b_prev blk =? 0 then mret tt else
  prev ← blk_at (b_prev blk);
  if negb (b_free prev) then mret tt else
  upd_block (b_prev blk) (λ b, set_b_size (w64 (b_size b + (BLOCK_HDR + b_size blk))) b);;
  upd_block (b_prev blk) (set_b_next (b_next blk));;
  (if negb (b_next blk =? 0) then upd_block (b_next blk) (set_b_prev (b_prev blk)) else mret tt).

Definition kfree (p : Z) : HM unit :=
  if p =? 0 then mret tt else
  sl ← on_pmm (slab_free p);
  if (sl : bool) then mret tt else
  let a := w64 (p - BLOCK_HDR) in
  upd_block a (set_b_free true);;
  merge_next a;;
  merge_prev a.

(** [copy_nonoverlapping(p, new, n)] *)
Definition copy_mem (p new n : Z) (h : Heap) : Heap :=
  mkHeap (hp_pmm h) (hp_used h) (hp_free_list h) (hp_blocks h)
    (λ a, if (new <=? a) && (a <? new + n) then hp_mem h (p + (a - new)) else hp_mem h a).

Definition krealloc (p new_size : Z) : HM Z :=
  if p =? 0 then kmalloc new_size else
  if new_size =? 0 then kfree p;; fail Inval else
  new ← kmalloc new_size;
  modify (copy_mem p new new_size);;
  kfree p;;
  mret new.

(** ** kalloc.rs *)

(** [match m { Ok(p) => p, Err(_) => null }] *)
Definition or_null (m : HM Z) : HM Z := λ h,
  match m h with (Err _, h) => (Ok 0, h) | r => r end.

Definition galloc (size align : Z) : HM Z :=
  if align <=? 16 then or_null (kmalloc size)
  else or_null (addr ← kmalloc (w64 (size + align));
                mret (Z.land (w64 (addr + align - 1)) (18446744073709551615 - (align - 1)))).

Definition gdealloc (ptr : Z) : HM unit := kfree ptr.
