(* ===== verification/HeapProps.v ===== *)
(** * The heap is a tiling of its memory

    [segs] lists size and free flag of the blocks in address order.  The headers
    form a doubly linked list over consecutive addresses ([chain]), the blocks
    tile the heap, and no two free blocks are adjacent.  [used_at] lists the
    live objects. *)

From S2P Require Import Prelude Pmm PmmProps Heap.
From stdpp Require Import base list numbers gmap.
From Stdlib Require Import ZArith Lia.

Open Scope Z_scope.

Abbreviation seg := (prod Z bool).

(** ** Linked blocks at consecutive addresses *)

Fixpoint span_of (segs : list seg) : Z :=
  match segs with [] => 0 | s :: segs => 32 + s.1 + span_of segs end.

Definition next_of (rest : list seg) (a nxt : Z) : Z := match rest with [] => nxt | _ => a end.

Fixpoint chain (m : gmap Z Block) (a prev : Z) (segs : list seg) (nxt : Z) : Prop :=
  match segs with
  | [] => True
  | s :: rest =>
      m !! a = Some (mkBlock s.1 s.2 (next_of rest (a + 32 + s.1) nxt) prev) ∧
      chain m (a + 32 + s.1) a rest nxt
  end.

(** The address of the last block, [prev] when there is none. *)
Fixpoint last_addr (a prev : Z) (segs : list seg) : Z :=
  match segs with [] => prev | s :: segs => last_addr (a + 32 + s.1) a segs end.

Lemma span_app l1 l2 : span_of (l1 ++ l2) = span_of l1 + span_of l2.
Proof. induction l1 as [|s l1 IH]; simpl; lia. Qed.

Lemma chain_app m l1 l2 : ∀ a prev nxt,
  chain m a prev (l1 ++ l2) nxt ↔
  chain m a prev l1 (next_of l2 (a + span_of l1) nxt) ∧
  chain m (a + span_of l1) (last_addr a prev l1) l2 nxt.
Proof.
  induction l1 as [|s l1 IH]; intros a prev nxt; simpl; [rewrite Z.add_0_r; tauto|].
  rewrite (IH (a + 32 + s.1) a nxt). rewrite !Z.add_assoc.
  assert (next_of (l1 ++ l2) (a + 32 + s.1) nxt =
          next_of l1 (a + 32 + s.1) (next_of l2 (a + 32 + s.1 + span_of l1) nxt)) as ->.
  { destruct l1; [|done]. simpl. by rewrite Z.add_0_r. }
  tauto.
Qed.

Definition sizes_ok (segs : list seg) : Prop := Forall (λ s, 0 < s.1 ∧ s.1 mod 16 = 0) segs.

Lemma span_nonneg segs : sizes_ok segs → 0 ≤ span_of segs.
Proof. induction 1 as [|s segs [H _] _ IH]; simpl; lia. Qed.

(** The chain reads only the addresses it covers. *)
Lemma chain_frame m m' segs : ∀ a prev nxt,
  sizes_ok segs → (∀ x, a ≤ x < a + span_of segs → m' !! x = m !! x) →
  chain m a prev segs nxt → chain m' a prev segs nxt.
Proof.
  induction segs as [|s segs IH]; intros a prev nxt Hs Hm H; simpl in *; [done|].
  apply Forall_cons in Hs as [[Hs _] Hss]. pose proof (span_nonneg segs Hss). destruct H as [H1 H2].
  split; [rewrite Hm by lia; done|]. apply IH; [done| |done]. intros x Hx. apply Hm. lia.
Qed.

Lemma chain_insert m segs a prev nxt x b :
  sizes_ok segs → ¬ (a ≤ x < a + span_of segs) →
  chain m a prev segs nxt → chain (<[x := b]> m) a prev segs nxt.
Proof.
  intros Hs Hx. apply chain_frame; [done|]. intros y Hy. apply lookup_insert_ne. lia.
Qed.

(** The first block of a chain, with another predecessor. *)
Lemma chain_reprev m a prev p' s segs nxt :
  sizes_ok (s :: segs) → chain m a prev (s :: segs) nxt →
  ∃ b, m !! a = Some b ∧ chain (<[a := set_b_prev p' b]> m) a p' (s :: segs) nxt.
Proof.
  intros Hs [H1 H2]. eexists. split; [exact H1|]. apply Forall_cons in Hs as [[Hs _] Hss].
  split; [by rewrite lookup_insert_eq|]. apply chain_insert; [done|lia|done].
Qed.

Fixpoint addrs (a : Z) (segs : list seg) : list Z :=
  match segs with [] => [] | s :: segs => a :: addrs (a + 32 + s.1) segs end.

Lemma addrs_ge segs : ∀ a x, sizes_ok segs → x ∈ addrs a segs → a ≤ x.
Proof.
  induction segs as [|s segs IH]; intros a x Hs Hx; simpl in Hx; [by apply elem_of_nil in Hx|].
  apply Forall_cons in Hs as [[Hs _] Hss]. apply elem_of_cons in Hx as [->|Hx]; [lia|].
  specialize (IH _ _ Hss Hx). lia.
Qed.

Lemma addrs_nodup segs : ∀ a, sizes_ok segs → NoDup (addrs a segs).
Proof.
  induction segs as [|s segs IH]; intros a Hs; simpl; [apply NoDup_nil_2|].
  apply Forall_cons in Hs as [[Hs _] Hss]. apply NoDup_cons. split; [|by apply IH].
  intros Hin. apply addrs_ge in Hin; [lia|done].
Qed.

Lemma chain_addrs m segs : ∀ a prev nxt x, chain m a prev segs nxt → x ∈ addrs a segs → is_Some (m !! x).
Proof.
  induction segs as [|s segs IH]; intros a prev nxt x H Hx; simpl in *; [by apply elem_of_nil in Hx|].
  destruct H as [H1 H2]. apply elem_of_cons in Hx as [->|Hx]; [by eexists|]. by eapply IH.
Qed.

Lemma chain_size m segs a prev nxt : sizes_ok segs → chain m a prev segs nxt → (length segs ≤ size m)%nat.
Proof.
  intros Hs Hc. assert (length segs = length (addrs a segs)) as ->.
  { clear. revert a. induction segs as [|s segs IH]; intros a; simpl; [done|]. by rewrite <- IH. }
  rewrite <- size_dom, <- (size_list_to_set (C := gset Z) (addrs a segs)) by (by apply addrs_nodup).
  apply subseteq_size. intros x Hx. apply elem_of_list_to_set in Hx. apply elem_of_dom. by eapply chain_addrs.
Qed.

(** ** Live objects *)

Fixpoint used_at (a : Z) (segs : list seg) : list (Z * Z) :=
  match segs with
  | [] => []
  | s :: segs => (if s.2 then [] else [(a + 32, s.1)]) ++ used_at (a + 32 + s.1) segs
  end.

Lemma used_app l1 l2 : ∀ a, used_at a (l1 ++ l2) = used_at a l1 ++ used_at (a + span_of l1) l2.
Proof.
  induction l1 as [|s l1 IH]; intros a; simpl; [by rewrite Z.add_0_r|].
  rewrite IH, <- app_assoc. do 3 f_equal. lia.
Qed.

Lemma used_in segs : ∀ a p n, sizes_ok segs → (p, n) ∈ used_at a segs → a + 32 ≤ p ∧ p + n ≤ a + span_of segs.
Proof.
  induction segs as [|s segs IH]; intros a p n Hs Hin; simpl in Hin; [by apply elem_of_nil in Hin|].
  apply Forall_cons in Hs as [[Hs _] Hss]. pose proof (span_nonneg segs Hss).
  apply elem_of_app in Hin as [Hin|Hin].
  - destruct (s.2); [by apply elem_of_nil in Hin|]. apply list_elem_of_singleton in Hin as [= -> ->]. simpl. lia.
  - specialize (IH _ _ _ Hss Hin). simpl. lia.
Qed.

(** Live objects are apart from each other. *)
Lemma used_disjoint segs : ∀ a i j p n q k,
  sizes_ok segs → (i < j)%nat → used_at a segs !! i = Some (p, n) → used_at a segs !! j = Some (q, k) → p + n + 32 ≤ q.
Proof.
  induction segs as [|s segs IH]; intros a i j p n q k Hs Hij Hi Hj; simpl in *; [done|].
  apply Forall_cons in Hs as [[Hs _] Hss]. destruct s as [sz []]; simpl in *; [by eapply IH|].
  destruct j as [|j]; [lia|]. simpl in Hj. destruct i as [|i]; simpl in Hi; [|eapply IH; [done| |exact Hi|exact Hj]; lia].
  injection Hi as <- <-. apply list_elem_of_lookup_2 in Hj. apply used_in in Hj; [lia|done].
Qed.

(** ** No two free neighbours *)

Fixpoint alt (p : bool) (segs : list seg) : Prop :=
  match segs with [] => True | s :: segs => p && s.2 = false ∧ alt s.2 segs end.

Definition last_free (p : bool) (segs : list seg) : bool :=
  match last segs with Some s => s.2 | None => p end.

Lemma alt_app l1 l2 : ∀ p, alt p (l1 ++ l2) ↔ alt p l1 ∧ alt (last_free p l1) l2.
Proof.
  induction l1 as [|s l1 IH]; intros p; simpl; [unfold last_free; simpl; tauto|].
  rewrite IH. assert (last_free p (s :: l1) = last_free s.2 l1) as ->; [|tauto].
  unfold last_free. destruct l1 as [|s' l1]; [done|].
  rewrite last_cons_cons. by destruct (last (s' :: l1)) eqn:E; [|apply last_None in E].
Qed.

Lemma alt_weaken segs p : alt p segs → alt false segs.
Proof. destruct segs; [done|]. simpl. intros [_ H]. by split. Qed.

(** ** The invariant *)

Record heap_ok (h : Heap) (base : Z) (segs : list seg) : Prop := {
  hk_list : hp_free_list h = base;
  hk_base : 0 < base;
  hk_end : base + HEAP_SIZE < 9223372036854775808;
  hk_chain : chain (hp_blocks h) base 0 segs 0;
  hk_span : span_of segs = HEAP_SIZE;
  hk_sizes : sizes_ok segs;
  hk_alt : alt false segs;
  hk_slabs : ∀ page, is_Some (pm_slabs (hp_pmm h) !! page) → page + 4096 ≤ base ∨ base + HEAP_SIZE ≤ page }.

(** [h'] has other headers than [h], the rest apart from [used] is the same. *)
Definition headers_only (h h' : Heap) : Prop :=
  hp_pmm h' = hp_pmm h ∧ hp_free_list h' = hp_free_list h ∧ hp_mem h' = hp_mem h.

Lemma headers_trans h1 h2 h3 : headers_only h1 h2 → headers_only h2 h3 → headers_only h1 h3.
Proof. intros (?&?&?) (?&?&?). split_and!; congruence. Qed.

Lemma heap_ok_headers h h' base segs segs' :
  heap_ok h base segs → headers_only h h' → chain (hp_blocks h') base 0 segs' 0 →
  span_of segs' = span_of segs → sizes_ok segs' → alt false segs' → heap_ok h' base segs'.
Proof.
  intros [Hl Hb He Hc Hsp Hs Ha Hsl] (E1 & E2 & E3) Hc' Hsp' Hs' Ha'.
  constructor; rewrite ?E1, ?E2; try done. congruence.
Qed.

Lemma upd_block_ok h a b f :
  hp_blocks h !! a = Some b →
  upd_block a f h = (Ok tt, set_hp_blocks (<[a := f b]> (hp_blocks h)) h).
Proof. intros H. unfold upd_block, blk_at, mbind, SM_bind. by rewrite H. Qed.

Lemma blk_at_ok h a b : hp_blocks h !! a = Some b → blk_at a h = (Ok b, h).
Proof. intros H. unfold blk_at. by rewrite H. Qed.

(** The block at the end of [pre]. *)
Lemma chain_split m base pre sz fr post :
  chain m base 0 (pre ++ (sz, fr) :: post) 0 ↔
  let cur := base + span_of pre in
  chain m base 0 pre cur ∧
  m !! cur = Some (mkBlock sz fr (next_of post (cur + 32 + sz) 0) (last_addr base 0 pre)) ∧
  chain m (cur + 32 + sz) cur post 0.
Proof. rewrite chain_app. simpl. tauto. Qed.

(** Relinking the block after [a]: its [prev] becomes [p']. *)
Definition relink (m : gmap Z Block) (post : list seg) (a p' : Z) : gmap Z Block :=
  match post, m !! a with _ :: _, Some b => <[a := set_b_prev p' b]> m | _, _ => m end.

Lemma relink_ok h post a prev p' nxt :
  sizes_ok post → chain (hp_blocks h) a prev post nxt → next_of post a 0 ≠ 0 ∨ post = [] →
  (if negb (next_of post a 0 =? 0) then upd_block (next_of post a 0) (set_b_prev p') else mret tt) h =
    (Ok tt, set_hp_blocks (relink (hp_blocks h) post a p') h) ∧
  chain (relink (hp_blocks h) post a p') a p' post nxt ∧
  ∀ x, x ≠ a ∨ post = [] → relink (hp_blocks h) post a p' !! x = hp_blocks h !! x.
Proof.
  intros Hs Hc Hn. destruct post as [|s post]; simpl.
  { split; [by destruct h|]. by split. }
  destruct (chain_reprev _ a prev p' s post nxt Hs Hc) as (b & Hb & Hc'). rewrite Hb.
  simpl in Hn. destruct Hn as [Hn|Hn]; [|done]. rewrite (proj2 (Z.eqb_neq a 0)) by done. simpl.
  rewrite (upd_block_ok h a b _ Hb). split; [done|]. split; [done|].
  intros x [Hx|Hx]; [|done]. by apply lookup_insert_ne.
Qed.

(** ** Allocation *)

Definition cut (needed sz : Z) : list seg :=
  if needed + 80 <=? sz then [(needed, false); (sz - needed - 32, true)] else [(sz, false)].

Lemma take_block_ok h base pre sz post needed :
  heap_ok h base (pre ++ (sz, true) :: post) → 0 < needed → needed mod 16 = 0 → needed + 32 ≤ sz →
  let cur := base + span_of pre in
  ∃ h', take_block cur needed (needed + 32) (mkBlock sz true (next_of post (cur + 32 + sz) 0) (last_addr base 0 pre)) h
        = (Ok (cur + 32), h') ∧ headers_only h h' ∧
    chain (hp_blocks h') base 0 (pre ++ cut needed sz ++ post) 0.
Proof.
  intros [Hl Hb He Hc Hsp Hs Ha Hsl] Hn0 Hn16 Hfit cur. unfold HEAP_SIZE in *.
  apply Forall_app in Hs as [Hspre Hs]. apply Forall_cons in Hs as [[Hsz Hsz16] Hspost]. simpl in Hsz, Hsz16.
  pose proof (span_nonneg _ Hspre). pose proof (span_nonneg _ Hspost). rewrite span_app in Hsp. simpl in Hsp.
  apply chain_split in Hc as (Hcp & Hcc & Hcr). fold cur in Hcp, Hcc, Hcr.
  unfold take_block, cut, MIN_BLOCK, BLOCK_HDR. simpl b_size. simpl b_next.
  rewrite !w64_small by (subst cur; lia). replace (needed + 32 + 16 + 32) with (needed + 80) by lia.
  destruct (Z.leb_spec (needed + 80) sz) as [Hsplit|Hno].
  - set (na := cur + 32 + needed). set (nx := next_of post (cur + 32 + sz) 0).
    set (h1 := set_hp_blocks (<[na := mkBlock (sz - needed - 32) true nx cur]> (hp_blocks h)) h).
    assert (chain (hp_blocks h1) (cur + 32 + sz) cur post 0) as Hcr1 by (apply chain_insert; [done|subst na; lia|done]).
    assert (next_of post (cur + 32 + sz) 0 ≠ 0 ∨ post = []) as Hnz
      by (destruct post; [by right|left; simpl; subst cur; lia]).
    destruct (relink_ok h1 post (cur + 32 + sz) cur na 0 Hspost Hcr1 Hnz) as (E2 & Hcr2 & Hfr2). fold nx in E2.
    set (m2 := relink (hp_blocks h1) post (cur + 32 + sz) na) in *. set (h2 := set_hp_blocks m2 h1) in *.
    assert (m2 !! cur = Some (mkBlock sz true nx (last_addr base 0 pre))) as Hcur2.
    { rewrite Hfr2 by (left; lia). unfold h1. simpl. rewrite lookup_insert_ne by (subst na; lia). exact Hcc. }
    unfold set_block. erewrite sm_bind_ok.
    2: { rewrite modify_bind. erewrite sm_bind_ok by exact E2. cbv beta.
         erewrite sm_bind_ok by (apply upd_block_ok; exact Hcur2). cbv beta.
         apply upd_block_ok. simpl. apply lookup_insert_eq. }
    cbv beta. erewrite sm_bind_ok by (apply upd_block_ok; simpl; apply lookup_insert_eq). cbv beta.
    rewrite modify_bind. eexists. split; [reflexivity|]. split; [done|]. simpl hp_blocks.
    rewrite !insert_insert_eq. apply chain_app. simpl. split.
    + apply chain_insert; [done|subst cur; lia|]. eapply chain_frame; [done| |exact Hcp].
      intros x Hx. rewrite Hfr2 by (left; subst cur; lia). unfold h1. simpl. apply lookup_insert_ne. subst na cur. lia.
    + fold cur. split; [rewrite lookup_insert_eq; done|]. fold na.
      rewrite lookup_insert_ne by (subst na; lia).
      split; [rewrite Hfr2 by (left; subst na; lia); unfold h1; simpl; rewrite lookup_insert_eq|].
      * f_equal. f_equal. unfold nx, next_of. destruct post; [reflexivity|]. subst na. lia.
      * replace (na + 32 + (sz - needed - 32)) with (cur + 32 + sz) by (subst na; lia).
        apply chain_insert; [done|lia|exact Hcr2].
  - erewrite sm_bind_ok by reflexivity. cbv beta.
    erewrite sm_bind_ok by (apply upd_block_ok; exact Hcc). cbv beta. rewrite modify_bind.
    eexists. split; [reflexivity|]. split; [done|]. simpl hp_blocks. apply chain_split. fold cur. simpl. split_and!.
    + apply chain_insert; [done|subst cur; lia|done].
    + by rewrite lookup_insert_eq.
    + apply chain_insert; [done|lia|done].
Qed.

(** The first block that fits. *)
Definition fits (total : Z) (s : seg) : bool := s.2 && (total <=? s.1).

Lemma fit_loop_ok h base needed segs : ∀ fuel pre,
  heap_ok h base (pre ++ segs) → 0 < needed → needed mod 16 = 0 → (length segs < fuel)%nat →
  (fit_loop fuel (next_of segs (base + span_of pre) 0) needed (needed + 32) h = (Err NoMem, h) ∧
   Forall (λ s, fits (needed + 32) s = false) segs) ∨
  (∃ l sz post h', segs = l ++ (sz, true) :: post ∧ Forall (λ s, fits (needed + 32) s = false) l ∧
     needed + 32 ≤ sz ∧
     fit_loop fuel (next_of segs (base + span_of pre) 0) needed (needed + 32) h =
       (Ok (base + span_of (pre ++ l) + 32), h') ∧ headers_only h h' ∧
     chain (hp_blocks h') base 0 ((pre ++ l) ++ cut needed sz ++ post) 0).
Proof.
  induction segs as [|[sz fr] segs IH]; intros [|fuel] pre Hok Hn0 Hn16 Hf; cbn [length] in Hf; try lia.
  { left. split; [done|by constructor]. }
  pose proof Hok as [Hl Hb He Hc Hsp Hs Ha Hsl].
  pose proof (proj1 (Forall_app _ _ _) Hs) as [Hspre Hs']. pose proof (span_nonneg _ Hspre).
  apply chain_split in Hc as (Hcp & Hcc & Hcr). cbn [next_of fit_loop].
  rewrite (proj2 (Z.eqb_neq _ 0)) by lia. rewrite (sm_bind_ok _ _ _ _ _ (blk_at_ok _ _ _ Hcc)). cbn [b_free b_size b_next].
  destruct (fr && (needed + 32 <=? sz)) eqn:E.
  - apply andb_true_iff in E as [-> Hfit]. apply Z.leb_le in Hfit. right.
    destruct (take_block_ok h base pre sz segs needed Hok Hn0 Hn16 Hfit) as (h' & Ht & Hh & Hch).
    exists [], sz, segs, h'. rewrite app_nil_r. split_and!; [done|by constructor|done|done|done..|done].
  - assert (heap_ok h base ((pre ++ [(sz, fr)]) ++ segs)) as Hok' by (by rewrite <- app_assoc).
    destruct (IH fuel (pre ++ [(sz, fr)]) Hok' Hn0 Hn16 ltac:(lia)) as [[E1 Hno]|(l & sz' & post & h' & -> & Hno & Hfit & E1 & Hh & Hch)];
      rewrite span_app in E1; simpl in E1; rewrite Z.add_0_r in E1;
      replace (base + (span_of pre + (32 + sz))) with (base + span_of pre + 32 + sz) in E1 by lia.
    + left. split; [exact E1|]. by constructor.
    + right. exists ((sz, fr) :: l), sz', post, h'. split_and!; [done|by constructor|done| |done..|].
      * rewrite E1. do 2 f_equal. rewrite !span_app. simpl. lia.
      * rewrite <- (app_assoc pre) in Hch. exact Hch.
Qed.

(** ** Release *)

Definition join_next (sz : Z) (post : list seg) : Z * list seg :=
  match post with (n, true) :: rest => (sz + (32 + n), rest) | _ => (sz, post) end.

Definition join_prev (pre : list seg) (sz : Z) : list seg :=
  match last pre with Some (n, true) => removelast pre ++ [(n + (32 + sz), true)] | _ => pre ++ [(sz, true)] end.

(** The blocks after [kfree] of the block of size [sz] between [pre] and [post]. *)
Definition release (pre : list seg) (sz : Z) (post : list seg) : list seg :=
  let '(sz, post) := join_next sz post in join_prev pre sz ++ post.

(** A list of blocks in memory, free neighbours allowed. *)
Record tiled (h : Heap) (base : Z) (segs : list seg) : Prop := {
  td_base : 0 < base;
  td_end : base + span_of segs < 9223372036854775808;
  td_chain : chain (hp_blocks h) base 0 segs 0;
  td_sizes : sizes_ok segs }.

Lemma heap_tiled h base segs : heap_ok h base segs → tiled h base segs.
Proof. intros [? ? He ? Hsp ? ? ?]. constructor; [done| |done..]. rewrite Hsp. exact He. Qed.

Lemma sizes_mid pre sz fr post : sizes_ok (pre ++ (sz, fr) :: post) →
  sizes_ok pre ∧ (0 < sz ∧ sz mod 16 = 0) ∧ sizes_ok post.
Proof. intros H. apply Forall_app in H as [H1 H]. by apply Forall_cons in H as [H2 H3]. Qed.

(** Two adjacent blocks become one: the header of the first is [b'], the block after
    the second points back to the first. *)
Lemma fuse_chain h base pre s1 f1 s2 f2 post :
  tiled h base (pre ++ (s1, f1) :: (s2, f2) :: post) →
  let a := base + span_of pre in let nx := a + 32 + s1 + 32 + s2 in
  let h1 := set_hp_blocks (<[a := mkBlock (s1 + (32 + s2)) f1 (next_of post nx 0) (last_addr base 0 pre)]> (hp_blocks h)) h in
  ∃ h', (if negb (next_of post nx 0 =? 0) then upd_block (next_of post nx 0) (set_b_prev a) else mret tt) h1 = (Ok tt, h') ∧
    headers_only h h' ∧ tiled h' base (pre ++ (s1 + (32 + s2), f1) :: post).
Proof.
  intros [Hb He Hc Hs] a nx h1. pose proof (sizes_mid _ _ _ _ Hs) as (Hspre & [Hs1 Hm1] & Hs').
  apply Forall_cons in Hs' as [[Hs2 Hm2] Hspost]. simpl in Hs2, Hm2.
  pose proof (span_nonneg _ Hspre). pose proof (span_nonneg _ Hspost). rewrite span_app in He. simpl in He.
  apply chain_split in Hc as (Hcp & _ & [_ Hcr]). simpl in Hcr. fold a in Hcp, Hcr. fold nx in Hcr.
  assert (chain (hp_blocks h1) nx (a + 32 + s1) post 0) as Hcr1 by (apply chain_insert; [done|subst nx; lia|done]).
  assert (next_of post nx 0 ≠ 0 ∨ post = []) as Hnz by (destruct post; [by right|left; simpl; subst nx a; lia]).
  destruct (relink_ok h1 post nx _ a 0 Hspost Hcr1 Hnz) as (E & Hcr2 & Hfr).
  eexists. split; [exact E|]. split; [done|]. constructor; simpl.
  - done.
  - rewrite span_app. simpl. lia.
  - apply chain_split. cbv zeta. fold a. replace (a + 32 + (s1 + (32 + s2))) with nx by (subst nx; lia). split_and!.
    + eapply chain_frame; [done| |exact Hcp]. intros x Hx. rewrite Hfr by (left; subst nx a; lia).
      apply lookup_insert_ne. subst a. lia.
    + rewrite Hfr by (left; subst nx; lia). apply lookup_insert_eq.
    + exact Hcr2.
  - apply Forall_app. split; [done|]. apply Forall_cons. split; [|done]. simpl. split; [lia|].
    Z.to_euclidean_division_equations. lia.
Qed.

Lemma tiled_mid h base pre sz fr post :
  tiled h base (pre ++ (sz, fr) :: post) →
  hp_blocks h !! (base + span_of pre) =
    Some (mkBlock sz fr (next_of post (base + span_of pre + 32 + sz) 0) (last_addr base 0 pre)).
Proof. intros [_ _ Hc _]. by apply chain_split in Hc as (_ & Hc & _). Qed.

Lemma merge_next_ok h base pre sz post :
  tiled h base (pre ++ (sz, true) :: post) →
  ∃ h', merge_next (base + span_of pre) h = (Ok tt, h') ∧ headers_only h h' ∧
    tiled h' base (pre ++ ((join_next sz post).1, true) :: (join_next sz post).2).
Proof.
  intros Ht. pose proof (tiled_mid _ _ _ _ _ _ Ht) as Hcur. pose proof Ht as [Hb He _ Hs].
  pose proof (sizes_mid _ _ _ _ Hs) as (Hspre & [Hs1 _] & Hspost). pose proof (span_nonneg _ Hspre).
  unfold merge_next. rewrite (sm_bind_ok _ _ _ _ _ (blk_at_ok _ _ _ Hcur)). cbn [b_next].
  destruct post as [|[n fr] post]; cbn [next_of].
  { by exists h. }
  rewrite (proj2 (Z.eqb_neq _ 0)) by lia.
  pose proof (td_chain _ _ _ Ht) as Hc. apply chain_split in Hc as (_ & _ & [Hnext _]). simpl in Hnext. rewrite (sm_bind_ok _ _ _ _ _ (blk_at_ok _ _ _ Hnext)). cbn [b_free b_size b_next].
  destruct fr; cbn [negb]; [|by exists h].
  rewrite (sm_bind_ok _ _ _ _ _ (upd_block_ok _ _ _ _ Hcur)). cbv beta.
  erewrite sm_bind_ok by (apply upd_block_ok; apply lookup_insert_eq). cbv beta.
  cbn [set_hp_blocks hp_blocks hp_pmm hp_used hp_free_list hp_mem]. rewrite insert_insert_eq.
  cbn [set_b_size set_b_next b_size b_free b_prev b_next]. unfold BLOCK_HDR. apply Forall_cons in Hspost as [[Hn _] Hsp].
  simpl in Hn. pose proof (span_nonneg _ Hsp). rewrite span_app in He. simpl in He. rewrite w64_small by lia.
  destruct (fuse_chain _ _ _ _ _ _ _ _ Ht) as (h' & E & Hh & Ht'). exists h'. split; [exact E|]. by split.
Qed.

Lemma last_addr_snoc pre n : ∀ a prev fr, last_addr a prev (pre ++ [(n, fr)]) = a + span_of pre.
Proof. induction pre as [|s pre IH]; intros a prev fr; simpl; [lia|]. rewrite IH. lia. Qed.

Lemma merge_prev_ok h base pre sz post :
  tiled h base (pre ++ (sz, true) :: post) →
  ∃ h', merge_prev (base + span_of pre) h = (Ok tt, h') ∧ headers_only h h' ∧ tiled h' base (join_prev pre sz ++ post).
Proof.
  intros Ht. pose proof (tiled_mid _ _ _ _ _ _ Ht) as Hcur. pose proof Ht as [Hb He _ Hs].
  pose proof (sizes_mid _ _ _ _ Hs) as (Hspre & [Hs1 _] & Hspost). pose proof (span_nonneg _ Hspost).
  unfold merge_prev. rewrite (sm_bind_ok _ _ _ _ _ (blk_at_ok _ _ _ Hcur)). cbn [b_prev].
  destruct (decide (pre = [])) as [->|Hne].
  { exists h. split; [done|]. by split. }
  destruct (exists_last Hne) as (pre' & [n fr] & ->).
  rewrite last_addr_snoc. apply Forall_app in Hspre as [Hspre Hn]. apply Forall_singleton in Hn as [Hn _]. simpl in Hn.
  pose proof (span_nonneg _ Hspre). rewrite (proj2 (Z.eqb_neq _ 0)) by lia.
  unfold join_prev. rewrite last_snoc, removelast_last. rewrite <- app_assoc in Ht. simpl in Ht.
  pose proof (tiled_mid _ _ _ _ _ _ Ht) as Hprev.
  rewrite (sm_bind_ok _ _ _ _ _ (blk_at_ok _ _ _ Hprev)). cbn [b_free].
  destruct fr; cbn [negb].
  2: { exists h. split; [done|]. rewrite <- !app_assoc. by split. }
  rewrite (sm_bind_ok _ _ _ _ _ (upd_block_ok _ _ _ _ Hprev)). cbv beta.
  erewrite sm_bind_ok by (apply upd_block_ok; apply lookup_insert_eq). cbv beta.
  cbn [set_hp_blocks hp_blocks hp_pmm hp_used hp_free_list hp_mem]. rewrite insert_insert_eq.
  cbn [set_b_size set_b_next b_size b_free b_prev b_next]. unfold BLOCK_HDR.
  rewrite !span_app in He. simpl in He. rewrite w64_small by lia.
  destruct (fuse_chain _ _ _ _ _ _ _ _ Ht) as (h' & E & Hh & Ht'). exists h'.
  rewrite <- app_assoc. split; [|by split]. rewrite !span_app. simpl.
  replace (base + (span_of pre' + (32 + n + 0)) + 32 + sz) with (base + span_of pre' + 32 + n + 32 + sz) by lia.
  exact E.
Qed.

Lemma release_alt pre sz post :
  alt false (pre ++ (sz, false) :: post) → alt false (release pre sz post).
Proof.
  intros H. apply alt_app in H as [Hpre [_ Hpost]]. simpl in Hpost. unfold release.
  assert (alt true (join_next sz post).2) as Hn.
  { destruct post as [|[n []] post]; simpl in *; [done|by destruct Hpost|by destruct Hpost; split]. }
  destruct (join_next sz post) as [sz' post']. simpl in Hn. unfold join_prev.
  destruct (decide (pre = [])) as [->|Hne]; [done|]. destruct (exists_last Hne) as (pre' & [n fr] & ->).
  rewrite last_snoc, removelast_last. apply alt_app in Hpre as [Hpre [Hlast _]]. simpl in Hlast.
  destruct fr; rewrite <- !app_assoc; apply alt_app; (split; [done|]); simpl; [by split|].
  by rewrite andb_false_r.
Qed.

Lemma release_used base pre sz post :
  used_at base (release pre sz post) = used_at base pre ++ used_at (base + span_of pre + 32 + sz) post.
Proof.
  unfold release. assert (∀ b, used_at (b + (join_next sz post).1) (join_next sz post).2 = used_at (b + sz) post) as Hn.
  { intros b. destruct post as [|[n []] post]; [done| |done]. simpl. f_equal. lia. }
  destruct (join_next sz post) as [sz' post']. simpl in Hn. rewrite used_app. unfold join_prev.
  destruct (decide (pre = [])) as [->|Hne]; [simpl; rewrite <- Hn; f_equal; lia|].
  destruct (exists_last Hne) as (pre' & [n fr] & ->). rewrite last_snoc, removelast_last, <- Hn.
  destruct fr; rewrite !used_app, ?span_app; simpl; rewrite ?app_nil_r, ?span_app; simpl;
    rewrite <- ?app_assoc; repeat (f_equal; try lia).
Qed.

Lemma release_span pre sz post : span_of (release pre sz post) = span_of pre + (32 + sz) + span_of post.
Proof.
  unfold release. assert ((join_next sz post).1 + span_of (join_next sz post).2 = sz + span_of post) as Hn.
  { destruct post as [|[n []] post]; simpl; lia. }
  destruct (join_next sz post) as [sz' post']. simpl in Hn. rewrite span_app. unfold join_prev.
  destruct (decide (pre = [])) as [->|Hne]; [simpl; lia|]. destruct (exists_last Hne) as (pre' & [n fr] & ->).
  rewrite last_snoc, removelast_last. destruct fr; rewrite !span_app; simpl; lia.
Qed.

(** A pointer into the heap is not in a slab page. *)
Lemma slab_free_heap p base size :
  0 < base → base + size < 9223372036854775808 →
  (∀ page, is_Some (pm_slabs p !! page) → page + 4096 ≤ base ∨ base + size ≤ page) →
  ∀ q, base ≤ q < base + size → slab_free q p = (Ok false, p).
Proof.
  intros Hb He Hsl q Hq. unfold slab_free. rewrite land_page_mask by (unfold u64; lia).
  pose proof (Z.mod_pos_bound q 4096 ltac:(lia)). destruct (_ =? 0); [done|]. rewrite gets_bind.
  destruct (pm_slabs p !! (q - q mod 4096)) eqn:E; [|done].
  destruct (Hsl _ (ex_intro _ _ E)); lia.
Qed.

Lemma on_pmm_ok {A} (m : PM A) h a :
  m (hp_pmm h) = (Ok a, hp_pmm h) → on_pmm m h = (Ok a, h).
Proof. intros E. unfold on_pmm. rewrite E. by destruct h. Qed.

Lemma kfree_ok h base pre sz post :
  heap_ok h base (pre ++ (sz, false) :: post) →
  ∃ h', kfree (base + span_of pre + 32) h = (Ok tt, h') ∧ headers_only h h' ∧ heap_ok h' base (release pre sz post).
Proof.
  intros Hok. pose proof Hok as [Hl Hb He Hc Hsp Hs Ha Hsl].
  pose proof (sizes_mid _ _ _ _ Hs) as (Hspre & [Hsz Hm] & Hspost).
  pose proof (span_nonneg _ Hspre). pose proof (span_nonneg _ Hspost).
  pose proof Hsp as Hsp'. rewrite span_app in Hsp'. simpl in Hsp'. unfold kfree, HEAP_SIZE in *.
  rewrite (proj2 (Z.eqb_neq _ 0)) by lia.
  rewrite (sm_bind_ok _ _ _ _ h (on_pmm_ok _ h false (slab_free_heap _ base 4194304 Hb He Hsl (base + span_of pre + 32) ltac:(lia)))). cbv beta iota.
  unfold BLOCK_HDR. rewrite w64_small by lia.
  replace (base + span_of pre + 32 - 32) with (base + span_of pre) by lia.
  rewrite (sm_bind_ok _ _ _ _ _ (upd_block_ok _ _ _ _ (tiled_mid _ _ _ _ _ _ (heap_tiled _ _ _ Hok)))). cbv beta.
  cbn [set_b_free b_size b_next b_prev]. set (h1 := set_hp_blocks _ h).
  assert (tiled h1 base (pre ++ (sz, true) :: post)) as Ht.
  { apply chain_split in Hc as (Hcp & Hcc & Hcr). constructor; [done|rewrite span_app; simpl; lia| |].
    - apply chain_split. simpl. split_and!; [apply chain_insert; [done|lia|done]|apply lookup_insert_eq|].
      apply chain_insert; [done|lia|done].
    - apply Forall_app. split; [done|]. apply Forall_cons. split; done. }
  destruct (merge_next_ok _ _ _ _ _ Ht) as (h2 & E2 & Hh2 & Ht2). rewrite (sm_bind_ok _ _ _ _ _ E2). cbv beta.
  destruct (merge_prev_ok _ _ _ _ _ Ht2) as (h3 & E3 & Hh3 & Ht3). exists h3. split; [exact E3|].
  assert (headers_only h h3) as Hh by (eapply headers_trans; [|exact Hh3]; eapply headers_trans; [|exact Hh2]; done).
  split; [exact Hh|]. pose proof (release_span pre sz post) as Hr. unfold release in *.
  pose proof (release_alt pre sz post Ha) as Hr2. unfold release in Hr2.
  destruct (join_next sz post) as [sz' post']. simpl in Ht3.
  eapply heap_ok_headers; [exact Hok|exact Hh|apply (td_chain _ _ _ Ht3)| |apply (td_sizes _ _ _ Ht3)|done].
  rewrite Hr, span_app. simpl. lia.
Qed.

Lemma round16_ok size : 0 ≤ size < 9223372036854775808 →
  size ≤ round16 size < size + 16 ∧ round16 size mod 16 = 0.
Proof.
  intros H. unfold round16. rewrite w64_small by lia.
  rewrite (land_align_mask _ 4) by (unfold u64; lia). change (2 ^ 4) with 16.
  Z.to_euclidean_division_equations. lia.
Qed.

Lemma cut_facts needed sz pre post :
  0 < needed → needed mod 16 = 0 → needed + 32 ≤ sz →
  sizes_ok (pre ++ (sz, true) :: post) → alt false (pre ++ (sz, true) :: post) →
  sizes_ok (pre ++ cut needed sz ++ post) ∧ alt false (pre ++ cut needed sz ++ post) ∧
  span_of (pre ++ cut needed sz ++ post) = span_of (pre ++ (sz, true) :: post).
Proof.
  intros Hn Hm Hfit Hs Ha. apply sizes_mid in Hs as (Hspre & [Hsz Hszm] & Hspost).
  apply alt_app in Ha as [Hap [_ Haq]]. simpl in Haq. unfold cut.
  destruct (Z.leb_spec (needed + 80) sz); simpl; rewrite !span_app; simpl; split_and!.
  - apply Forall_app. split; [done|]. repeat (apply Forall_cons; split); simpl; [|split|done]; try lia; try done.
    Z.to_euclidean_division_equations. lia.
  - apply alt_app. split; [done|]. simpl. by rewrite andb_false_r.
  - lia.
  - apply Forall_app. split; [done|]. by apply Forall_cons.
  - apply alt_app. split; [done|]. simpl. rewrite andb_false_r. split; [done|]. by eapply alt_weaken.
  - lia.
Qed.

Lemma heap_fuel h base segs : heap_ok h base segs → (length segs < list_fuel h)%nat.
Proof. intros [? ? ? Hc ? Hs ? ?]. pose proof (chain_size _ _ _ _ _ Hs Hc). unfold list_fuel. lia. Qed.

Lemma next_of_start h base segs : heap_ok h base segs → next_of segs base 0 = base.
Proof. intros [? ? ? ? Hsp ? ? ?]. by destruct segs. Qed.

Lemma slab_alloc_large p size : 1024 < size → slab_alloc size p = (Ok None, p).
Proof.
  intros H. unfold slab_alloc. replace (slab_class_for size) with (@None Z); [done|].
  unfold slab_class_for. simpl. by rewrite !(proj2 (Z.leb_gt size _)) by lia.
Qed.

Lemma kmalloc_ok h base segs size :
  heap_ok h base segs → 1024 < size < 9223372036854775807 - 64 →
  (kmalloc size h = (Err NoMem, h) ∧ Forall (λ s, fits (round16 size + 32) s = false) segs) ∨
  (∃ pre sz post h', segs = pre ++ (sz, true) :: post ∧
     Forall (λ s, fits (round16 size + 32) s = false) pre ∧ round16 size + 32 ≤ sz ∧
     kmalloc size h = (Ok (base + span_of pre + 32), h') ∧
     heap_ok h' base (pre ++ cut (round16 size) sz ++ post)).
Proof.
  intros Hok Hsize. destruct (round16_ok size ltac:(lia)) as [Hr Hr16]. pose proof (hk_list _ _ _ Hok) as Hl.
  unfold kmalloc. rewrite (proj2 (Z.eqb_neq size 0)) by lia.
  rewrite (sm_bind_ok _ _ _ None h (on_pmm_ok _ h None (slab_alloc_large (hp_pmm h) size ltac:(lia)))). cbv beta iota.
  rewrite !gets_bind, Hl. unfold BLOCK_HDR. rewrite w64_small by lia.
  destruct (fit_loop_ok h base (round16 size) segs (list_fuel h) [] Hok ltac:(lia) Hr16 (heap_fuel _ _ _ Hok))
    as [[E Hno]|(pre & sz & post & h' & -> & Hno & Hfit & E & Hh & Hc)]; simpl in E;
    rewrite Z.add_0_r, (next_of_start _ _ _ Hok) in E.
  - left. by split.
  - right. exists pre, sz, post, h'. split_and!; [done..|exact E|].
    destruct (cut_facts (round16 size) sz pre post ltac:(lia) Hr16 Hfit (hk_sizes _ _ _ Hok) (hk_alt _ _ _ Hok)) as (Hs & Ha & Hsp).
    by eapply heap_ok_headers.
Qed.

(** Freeing what was cut from a block gives the block back. *)
Lemma release_cut needed sz pre post :
  alt false (pre ++ (sz, true) :: post) →
  ∃ n rest, cut needed sz ++ post = (n, false) :: rest ∧ (needed ≤ n ∨ n = sz) ∧
    release pre n rest = pre ++ (sz, true) :: post.
Proof.
  intros Ha. apply alt_app in Ha as [_ [Hlast Hpost]]. simpl in Hlast, Hpost. rewrite andb_true_r in Hlast.
  assert (join_prev pre sz = pre ++ [(sz, true)]) as Hj.
  { unfold join_prev. unfold last_free in Hlast. destruct (last pre) as [[n fr]|]; [|done]. simpl in Hlast. by subst fr. }
  unfold cut, release. destruct (Z.leb_spec (needed + 80) sz); simpl.
  - eexists _, _. split; [done|]. split; [by left|]. simpl.
    replace (needed + (32 + (sz - needed - 32))) with sz by lia. by rewrite Hj, <- app_assoc.
  - eexists _, _. split; [done|]. split; [by right|].
    assert (join_next sz post = (sz, post)) as ->.
    { destruct post as [|[n []] post]; [done| |done]. simpl in Hpost. by destruct Hpost. }
    by rewrite Hj, <- app_assoc.
Qed.

Lemma heap_init_ok pmm mem base :
  0 < base → base + HEAP_SIZE < 9223372036854775808 →
  (∀ page, is_Some (pm_slabs pmm !! page) → page + 4096 ≤ base ∨ base + HEAP_SIZE ≤ page) →
  heap_ok (heap_init base pmm mem) base [(HEAP_SIZE - 32, true)].
Proof.
  intros Hb He Hsl. constructor; simpl; try done. by split; [apply lookup_insert_eq|].
  by apply Forall_singleton.
Qed.

(** A live object is a block. *)
Lemma used_block segs : ∀ a p n, (p, n) ∈ used_at a segs →
  ∃ pre post, segs = pre ++ (n, false) :: post ∧ p = a + span_of pre + 32.
Proof.
  induction segs as [|[sz fr] segs IH]; intros a p n H; simpl in H; [by apply elem_of_nil in H|].
  apply elem_of_app in H as [H|H].
  - destruct fr; [by apply elem_of_nil in H|]. apply list_elem_of_singleton in H as [= -> ->].
    exists [], segs. split; [done|]. simpl. lia.
  - destruct (IH _ _ _ H) as (pre & post & -> & ->). exists ((sz, fr) :: pre), post. split; [done|]. simpl. lia.
Qed.

Module HeapTheorems.

(** C14. [kmalloc] of a size beyond the slab classes takes the first free block
    that can hold it (and fails with NoMem, changing nothing, only if no free
    block can); the new object has at least the size asked for, is added to the
    live objects and overlaps none of them, and the heap stays a doubly linked
    tiling of its memory without adjacent free blocks; freeing the object gives
    back the very tiling there was before the allocation. *)
Theorem kmalloc_kfree_inverse h base segs size :
  heap_ok h base segs → 1024 < size < 9223372036854775807 - 64 →
  (kmalloc size h = (Err NoMem, h) ∧ ∀ n, (n, true) ∈ segs → n < round16 size + 32) ∨
  (∃ p n segs' L1 L2 h1 h2,
     kmalloc size h = (Ok p, h1) ∧ heap_ok h1 base segs' ∧ size ≤ n ∧
     used_at base segs = L1 ++ L2 ∧ used_at base segs' = L1 ++ (p, n) :: L2 ∧
     (∀ q k, (q, k) ∈ L1 ++ L2 → q + k ≤ p ∨ p + n ≤ q) ∧
     kfree p h1 = (Ok tt, h2) ∧ heap_ok h2 base segs).
Proof.
  intros Hok Hsize. destruct (round16_ok size ltac:(lia)) as [Hr Hr16].
  destruct (kmalloc_ok h base segs size Hok Hsize) as [[E Hno]|(pre & sz & post & h1 & -> & Hno & Hfit & E & Hok1)].
  - left. split; [exact E|]. intros n Hn. rewrite Forall_forall in Hno. specialize (Hno _ Hn). unfold fits in Hno. simpl in Hno. lia.
  - right. destruct (release_cut (round16 size) sz pre post (hk_alt _ _ _ Hok)) as (n & rest & Ecut & Hn & Erel).
    rewrite Ecut in Hok1. destruct (kfree_ok _ _ _ _ _ Hok1) as (h2 & E2 & _ & Hok2).
    pose proof (release_used base pre n rest) as Hu. rewrite Erel in Hok2, Hu.
    pose proof (used_app pre ((n, false) :: rest) base) as Hu1. simpl in Hu1.
    eexists _, n, _, _, _, h1, h2. split_and!; [exact E|exact Hok1|lia|exact Hu|exact Hu1| |exact E2|exact Hok2].
    intros q k Hq. destruct (sizes_mid _ _ _ _ (hk_sizes _ _ _ Hok1)) as (Hs1 & _ & Hs2).
    apply elem_of_app in Hq as [Hq|Hq]; apply used_in in Hq; try done; lia.
Qed.

Definition demo_heap : Heap := heap_init 0x80400000 (mkPmm 0x80800000 16 16 [0; 0] [0; 0; 0] ∅) (λ _, 0).

Lemma demo_heap_ok : heap_ok demo_heap 0x80400000 [(HEAP_SIZE - 32, true)].
Proof. apply heap_init_ok; [done..|]. intros page [h H]. simpl in H. by apply lookup_empty_Some in H. Qed.

Lemma kmalloc_kfree_inverse_witness :
  (kmalloc 2000 demo_heap).1 = Ok 0x80400020 ∧
  ∃ p n segs' h1, kmalloc 2000 demo_heap = (Ok p, h1) ∧ 2000 ≤ n ∧
    used_at 0x80400000 segs' = [(p, n)] ∧ heap_ok h1 0x80400000 segs'.
Proof.
  split; [reflexivity|].
  destruct (kmalloc_kfree_inverse demo_heap 0x80400000 [(HEAP_SIZE - 32, true)] 2000 demo_heap_ok)
    as [[E _]|(p & n & segs' & L1 & L2 & h1 & h2 & E & Hok & Hn & Hu & Hu' & _)]; [lia|discriminate E|].
  exists p, n, segs', h1. split; [exact E|]. split; [exact Hn|]. split; [|exact Hok].
  rewrite Hu'. simpl in Hu. symmetry in Hu. apply app_eq_nil in Hu as [-> ->]. reflexivity.
Defined.

(** [kfree] of any live object removes exactly that object: it succeeds, the
    other live objects stay what they were, and the heap is again a tiling
    without adjacent free blocks, whatever the neighbours were. *)
Theorem kfree_removes_object h base segs p n :
  heap_ok h base segs → (p, n) ∈ used_at base segs →
  ∃ h' segs' L1 L2, kfree p h = (Ok tt, h') ∧ heap_ok h' base segs' ∧
    used_at base segs = L1 ++ (p, n) :: L2 ∧ used_at base segs' = L1 ++ L2 ∧
    hp_mem h' = hp_mem h ∧ hp_pmm h' = hp_pmm h.
Proof.
  intros Hok Hin. destruct (used_block _ _ _ _ Hin) as (pre & post & -> & ->).
  destruct (kfree_ok _ _ _ _ _ Hok) as (h' & E & (Hp & _ & Hm) & Hok').
  exists h', (release pre n post), (used_at base pre), (used_at (base + span_of pre + 32 + n) post).
  split_and!; [exact E|exact Hok'|apply used_app|apply release_used|exact Hm|exact Hp].
Qed.

Lemma kfree_removes_object_witness :
  ∃ h', kfree 0x80400020 ((kmalloc 2000 demo_heap).2) = (Ok tt, h') ∧
    b_free <$> hp_blocks h' !! 0x80400000 = Some true.
Proof.
  assert (heap_ok (kmalloc 2000 demo_heap).2 0x80400000 [(2000, false); (HEAP_SIZE - 32 - 2000 - 32, true)]) as Hok.
  { destruct (kmalloc_ok demo_heap 0x80400000 _ 2000 demo_heap_ok ltac:(lia)) as [[E _]|(pre & sz & post & h1 & Es & _ & _ & E & Hok)];
      [discriminate E|]. rewrite E. simpl.
    destruct pre as [|? [|? ?]]; [|discriminate Es..]. injection Es as <- <-. exact Hok. }
  destruct (kfree_removes_object _ _ _ 0x80400020 2000 Hok) as (h' & _ & _ & _ & E & _);
    [apply list_elem_of_here|]. exists h'. split; [exact E|].
  apply (f_equal snd) in E. simpl in E. rewrite <- E. reflexivity.
Defined.

End HeapTheorems.
