(* ===== verification/Onyxfs.v ===== *)
(** * kernel/src/fs/onyxfs: the disk, the journal and the file system

    [fs_disk] holds the sectors of the block devices, keyed by device and sector
    number; a request for a sector that is not there is answered with [Io].
    [fs_buf] is the shared block buffer [G_BUF], which every operation
    overwrites; buffers on the stack are plain values. *)

From S2P Require Import Prelude Parser Formats Compress.
From stdpp Require Import base list numbers gmap.
From Stdlib Require Import ZArith Lia.

Open Scope Z_scope.

(** ** State (mod.rs) *)

Definition ONYFS_V1 : Z := 1.
Definition ONYFS_V2 : Z := 2.
Definition ONYFS_V1_INODE_SIZE : Z := 64.
Definition ONYFS_V1_DIRENT_SIZE : Z := 36.
Definition SNAPSHOT_BLOCKS_EACH : Z := 64.

Record OnyfsStat := mkOnyfsStat {
  st_ino : Z; st_size : Z; st_mode : Z; st_mtime : Z; st_atime : Z; st_ctime : Z }.

Record Onyfs := mkOnyfs {
  fs_dev : Z;
  fs_lba_base : Z;
  fs_version : Z;
  fs_sb : OnyfsSuper;
  fs_buf : list Z;
  fs_journal_head : Z;
  fs_disk : gmap (Z * Z) (list Z);
  fs_jiffies : Z }.

Abbreviation FM := (SM Onyfs).

Definition set_fs_dev (d b : Z) (s : Onyfs) : Onyfs :=
  mkOnyfs d b (fs_version s) (fs_sb s) (fs_buf s) (fs_journal_head s) (fs_disk s) (fs_jiffies s).
Definition set_fs_super (v : Z) (sb : OnyfsSuper) (s : Onyfs) : Onyfs :=
  mkOnyfs (fs_dev s) (fs_lba_base s) v sb (fs_buf s) (fs_journal_head s) (fs_disk s) (fs_jiffies s).
Definition set_fs_buf (b : list Z) (s : Onyfs) : Onyfs :=
  mkOnyfs (fs_dev s) (fs_lba_base s) (fs_version s) (fs_sb s) b (fs_journal_head s) (fs_disk s) (fs_jiffies s).
Definition set_fs_head (h : Z) (s : Onyfs) : Onyfs :=
  mkOnyfs (fs_dev s) (fs_lba_base s) (fs_version s) (fs_sb s) (fs_buf s) h (fs_disk s) (fs_jiffies s).
Definition set_fs_disk (d : gmap (Z * Z) (list Z)) (s : Onyfs) : Onyfs :=
  mkOnyfs (fs_dev s) (fs_lba_base s) (fs_version s) (fs_sb s) (fs_buf s) (fs_journal_head s) d (fs_jiffies s).

(** ** drivers/virtio_req.rs *)

Definition VIRTIO_BLK_SECTOR : Z := 512.

(** [read_multi]: the buffer keeps the sectors read before a failure. *)
Fixpoint read_multi (disk : gmap (Z * Z) (list Z)) (dev lba : Z) (i : Z) (n : nat) (buf : list Z)
    : result unit * list Z :=
  match n with
  | O => (Ok tt, buf)
  | S n =>
      match disk !! (dev, lba + i) with
      | None => (Err Io, buf)
      | Some sec => read_multi disk dev lba (i + 1) n (wr (i * VIRTIO_BLK_SECTOR) sec buf)
      end
  end.

(** [write_multi]: the disk keeps the sectors written before a failure. *)
Fixpoint write_multi (dev lba : Z) (i : Z) (n : nat) (buf : list Z) (disk : gmap (Z * Z) (list Z))
    : result unit * gmap (Z * Z) (list Z) :=
  match n with
  | O => (Ok tt, disk)
  | S n =>
      match disk !! (dev, lba + i) with
      | None => (Err Io, disk)
      | Some _ =>
          write_multi dev lba (i + 1) n buf
            (<[(dev, lba + i) := rd (i * VIRTIO_BLK_SECTOR) VIRTIO_BLK_SECTOR buf]> disk)
      end
  end.

Definition blk_lba (s : Onyfs) (blk : Z) : Z := fs_lba_base s + blk * 8.

(** [read_block(blk, &mut buf)] into a local buffer: result and buffer. *)
Definition read_block (blk : Z) (buf : list Z) (s : Onyfs) : result unit * list Z :=
  read_multi (fs_disk s) (fs_dev s) (blk_lba s blk) 0 8 buf.

(** [read_block(blk, &mut buf)?] *)
Definition read_local (blk : Z) (buf : list Z) : FM (list Z) := λ s,
  let '(r, b) := read_block blk buf s in
  match r with Ok _ => (Ok b, s) | Err e => (Err e, s) | Panic => (Panic, s) end.

(** [read_block(blk, &mut G_BUF)?] *)
Definition load (blk : Z) : FM unit := λ s,
  let '(r, b) := read_block blk (fs_buf s) s in (r, set_fs_buf b s).

(** [write_block(blk, &buf)?] *)
Definition write_block (blk : Z) (buf : list Z) : FM unit := λ s,
  let '(r, d) := write_multi (fs_dev s) (blk_lba s blk) 0 8 buf (fs_disk s) in (r, set_fs_disk d s).

Definition inodes_per_block (s : Onyfs) : Z :=
  if fs_version s =? ONYFS_V1 then ONYFS_BLOCK_SIZE / ONYFS_V1_INODE_SIZE
  else ONYFS_BLOCK_SIZE / INODE_SIZE.
Definition dirents_per_block (s : Onyfs) : Z :=
  if fs_version s =? ONYFS_V1 then ONYFS_BLOCK_SIZE / ONYFS_V1_DIRENT_SIZE
  else ONYFS_BLOCK_SIZE / DIRENT_SIZE.

(** ** journal.rs *)

Definition JOURNAL_TYPE_COMMIT_START : Z := 0.
Definition JOURNAL_TYPE_BLOCK_WRITE : Z := 1.
Definition JOURNAL_TYPE_COMMIT_END : Z := 2.
Definition JOURNAL_DATA_SIZE : Z := ONYFS_BLOCK_SIZE - 8.

Definition no_journal (sb : OnyfsSuper) : bool := (sb_journal_start sb =? 0) || (sb_journal_size sb =? 0).

Definition log_entry (block_num : Z) (data : list Z) : result (list Z) :=
  d ← slice data 0 JOURNAL_DATA_SIZE;
  puts [(0, 4, le_bytes 4 JOURNAL_TYPE_BLOCK_WRITE); (4, 8, le_bytes 4 block_num);
        (8, 8 + JOURNAL_DATA_SIZE, d)] (zeros ONYFS_BLOCK_SIZE).

Definition journal_log (block_num : Z) (data : list Z) : FM unit :=
  sb ← gets fs_sb;
  if no_journal sb then mret tt else
  head ← gets fs_journal_head;
  if sb_journal_size sb <=? head then fail NoSpace else
  entry ← lift (log_entry block_num data);
  write_block (w32 (sb_journal_start sb + head)) entry;;
  modify (set_fs_head (w32 (head + 1))).

Definition journal_commit : FM unit :=
  sb ← gets fs_sb;
  if no_journal sb then mret tt else
  head ← gets fs_journal_head;
  if head =? 0 then mret tt else
  (if head <? sb_journal_size sb then
     entry ← lift (puts [(0, 4, le_bytes 4 JOURNAL_TYPE_COMMIT_END)] (zeros ONYFS_BLOCK_SIZE));
     write_block (w32 (sb_journal_start sb + head)) entry
   else mret tt);;
  modify (set_fs_head 0).

(** The scan for a commit marker: the index where it stands. *)
Fixpoint scan_loop (n : nat) (start i : Z) (entry : list Z) : FM (option Z) :=
  match n with
  | O => mret None
  | S n =>
      entry ← read_local (w32 (start + i)) entry;
      ty ← lift (le32_idx entry 0);
      if (ty =? JOURNAL_TYPE_COMMIT_START) || (ty =? JOURNAL_TYPE_BLOCK_WRITE)
      then scan_loop n start (i + 1) entry
      else if ty =? JOURNAL_TYPE_COMMIT_END then mret (Some i)
      else mret None
  end.

(** Entry [j] of the log, applied to its target block. *)
Definition replay_one (start j : Z) (entry : list Z) : FM (list Z) :=
  entry ← read_local (w32 (start + j)) entry;
  ty ← lift (le32_idx entry 0);
  if negb (ty =? JOURNAL_TYPE_BLOCK_WRITE) then mret entry else
  block_num ← lift (le32_idx entry 4);
  blk_buf ← gets (λ s, (read_block block_num (zeros ONYFS_BLOCK_SIZE) s).2);
  d ← lift (slice entry 8 (8 + JOURNAL_DATA_SIZE));
  blk_buf ← lift (put blk_buf 0 JOURNAL_DATA_SIZE d);
  write_block block_num blk_buf;;
  mret entry.

Fixpoint replay_loop (n : nat) (start j : Z) (entry : list Z) : FM unit :=
  match n with
  | O => mret tt
  | S n => entry ← replay_one start j entry; replay_loop n start (j + 1) entry
  end.

Fixpoint clear_loop (n : nat) (start j : Z) : FM unit :=
  match n with
  | O => mret tt
  | S n => write_block (w32 (start + j)) (zeros ONYFS_BLOCK_SIZE);; clear_loop n start (j + 1)
  end.

Definition journal_recover : FM unit :=
  sb ← gets fs_sb;
  if no_journal sb then mret tt else
  let start := sb_journal_start sb in
  found ← scan_loop (Z.to_nat (sb_journal_size sb)) start 0 (zeros ONYFS_BLOCK_SIZE);
  match found with
  | None => modify (set_fs_head 0)
  | Some commit_at =>
      replay_loop (Z.to_nat commit_at) start 0 (zeros ONYFS_BLOCK_SIZE);;
      clear_loop (Z.to_nat (commit_at + 1)) start 0;;
      modify (set_fs_head 0)
  end.

(** ** mount.rs *)

Definition onyxfs_mount (dev lba_offset : Z) : FM unit :=
  modify (set_fs_dev dev lba_offset);;
  load 0;;
  buf ← gets fs_buf;
  sb ← lift (super_from_bytes buf);
  sb ← lift (ok_or sb Inval);
  if negb (sb_block_size sb =? ONYFS_BLOCK_SIZE) then fail Inval else
  ver ← (if sb_magic sb =? ONYFS_MAGIC then mret ONYFS_V2
         else if sb_magic sb =? ONYFS_MAGIC_V1 then mret ONYFS_V1
         else fail Inval);
  modify (set_fs_super ver sb);;
  journal_recover.

Definition persist_superblock : FM unit :=
  sb ← gets fs_sb;
  bytes ← lift (super_to_bytes sb);
  buf ← lift (put (zeros ONYFS_BLOCK_SIZE) 0 (len bytes) bytes);
  modify (set_fs_buf buf);;
  write_block 0 buf.

Definition inode_table_block_count (s : Onyfs) : Z :=
  let ipb := inodes_per_block s in
  let cnt := sb_inode_count (fs_sb s) in
  if cnt =? 0 then 1 else w32 (w32 (cnt + ipb) - 1) / ipb.

(** ** inode/read.rs and inode/write.rs *)

(** The version 1 layout: 32-bit size, ten blocks from byte 8. *)
Definition inode_from_v1 (s : list Z) : result OnyfsInode :=
  blocks ← mapM (λ i, le32_idx s (8 + i * 4)) (seqZ 0 ONYFS_DIRECT_BLKS);
  mode ← le32_idx s 0; size ← le32_idx s 4; indirect ← le32_idx s 48;
  mret (mkOnyfsInode mode size 0 0 0 blocks indirect 0 0 0 0 0 0 0).

Definition read_inode (ino : Z) : FM OnyfsInode :=
  ipb ← gets inodes_per_block;
  let i := sat_sub ino 1 in
  sb ← gets fs_sb;
  let slot := i mod ipb in
  load (w32 (sb_inode_table_start sb + i / ipb));;
  buf ← gets fs_buf;
  v ← gets fs_version;
  if v =? ONYFS_V1 then
    let off := slot * ONYFS_V1_INODE_SIZE in
    if ONYFS_BLOCK_SIZE <? off + ONYFS_V1_INODE_SIZE then fail Inval else
    s ← lift (slice buf off (off + ONYFS_V1_INODE_SIZE));
    lift (inode_from_v1 s)
  else
    let off := slot * INODE_SIZE in
    if ONYFS_BLOCK_SIZE <? off + INODE_SIZE then fail Inval else
    s ← lift (slice buf off (off + INODE_SIZE));
    o ← lift (inode_from_bytes s);
    lift (ok_or o Io).

Definition onyxfs_stat (ino : Z) : FM OnyfsStat :=
  n ← read_inode ino;
  mret (mkOnyfsStat ino (i_size n) (i_mode n) (i_mtime n) (i_atime n) (i_ctime n)).

(** [journal_log(blk, &G_BUF)?; write_block(blk, &G_BUF)] *)
Definition log_and_write (blk : Z) : FM unit :=
  buf ← gets fs_buf;
  journal_log blk buf;;
  write_block blk buf.

Definition write_inode (ino : Z) (n : OnyfsInode) : FM unit :=
  v ← gets fs_version;
  if v =? ONYFS_V1 then fail NoSys else
  ipb ← gets inodes_per_block;
  let i := sat_sub ino 1 in
  sb ← gets fs_sb;
  let blk := w32 (sb_inode_table_start sb + w32 (i / ipb)) in
  let slot := i mod ipb in
  load blk;;
  bytes ← lift (inode_to_bytes n);
  let off := slot * INODE_SIZE in
  buf ← gets fs_buf;
  buf ← lift (put buf off (off + INODE_SIZE) bytes);
  modify (set_fs_buf buf);;
  log_and_write blk.

Definition set_mtime (t : Z) (n : OnyfsInode) : OnyfsInode :=
  mkOnyfsInode (i_mode n) (i_size n) (i_uid n) (i_gid n) (i_nlink n) (i_blocks n) (i_indirect n)
    (i_double_indirect n) (i_crtime n) t (i_atime n) (i_ctime n) (i_flags n) (i_reserved n).
Definition set_atime (t : Z) (n : OnyfsInode) : OnyfsInode :=
  mkOnyfsInode (i_mode n) (i_size n) (i_uid n) (i_gid n) (i_nlink n) (i_blocks n) (i_indirect n)
    (i_double_indirect n) (i_crtime n) (i_mtime n) t (i_ctime n) (i_flags n) (i_reserved n).
Definition set_size (z : Z) (n : OnyfsInode) : OnyfsInode :=
  mkOnyfsInode (i_mode n) z (i_uid n) (i_gid n) (i_nlink n) (i_blocks n) (i_indirect n)
    (i_double_indirect n) (i_crtime n) (i_mtime n) (i_atime n) (i_ctime n) (i_flags n) (i_reserved n).
Definition set_blocks (bs : list Z) (n : OnyfsInode) : OnyfsInode :=
  mkOnyfsInode (i_mode n) (i_size n) (i_uid n) (i_gid n) (i_nlink n) bs (i_indirect n)
    (i_double_indirect n) (i_crtime n) (i_mtime n) (i_atime n) (i_ctime n) (i_flags n) (i_reserved n).
Definition set_indirects (a b : Z) (n : OnyfsInode) : OnyfsInode :=
  mkOnyfsInode (i_mode n) (i_size n) (i_uid n) (i_gid n) (i_nlink n) (i_blocks n) a
    b (i_crtime n) (i_mtime n) (i_atime n) (i_ctime n) (i_flags n) (i_reserved n).

Definition update_mtime (ino : Z) : FM unit :=
  n ← read_inode ino;
  now ← gets fs_jiffies;
  write_inode ino (set_mtime now n).

Definition set_timestamps (ino mtime atime : Z) : FM unit :=
  v ← gets fs_version;
  if v =? ONYFS_V1 then fail NoSys else
  n ← read_inode ino;
  write_inode ino (set_atime atime (set_mtime mtime n)).

(** ** alloc/bitmap.rs *)

(** The inner loop: the first clear bit of a byte that is not 0xFF. *)
Fixpoint clear_bit (n : nat) (byte bit : Z) : option Z :=
  match n with
  | O => None
  | S n => if Z.land byte (Z.shiftl 1 bit) =? 0 then Some bit else clear_bit n byte (bit + 1)
  end.

(** The outer loop: byte index and bit. *)
Fixpoint clear_loop_bytes (bytes : list Z) (byte_idx : Z) : option (Z * Z) :=
  match bytes with
  | [] => None
  | b :: bytes =>
      if b =? 0xFF then clear_loop_bytes bytes (byte_idx + 1) else
      match clear_bit 8 b 0 with
      | Some bit => Some (byte_idx, bit)
      | None => clear_loop_bytes bytes (byte_idx + 1)
      end
  end.

(** The body shared by [alloc_data_block] and [alloc_inode]. *)
Definition take_bit (bm_blk : Z) : FM Z :=
  load bm_blk;;
  buf ← gets fs_buf;
  match clear_loop_bytes (take (Z.to_nat ONYFS_BLOCK_SIZE) buf) 0 with
  | None => fail NoSpace
  | Some (byte_idx, bit) =>
      b ← lift (idx buf byte_idx);
      buf ← lift (set_idx buf byte_idx (Z.lor b (Z.shiftl 1 bit)));
      modify (set_fs_buf buf);;
      log_and_write bm_blk;;
      mret (byte_idx * 8 + bit)
  end.

Definition alloc_data_block : FM Z :=
  sb ← gets fs_sb;
  bit_index ← take_bit (sb_data_bitmap_start sb);
  mret (w32 (sb_data_blocks_start sb + bit_index)).

Definition INODE_BITMAP_BLK : Z := 1.

Definition alloc_inode : FM Z :=
  bit_index ← take_bit INODE_BITMAP_BLK;
  mret (bit_index + 1).

(** ** alloc/add.rs and alloc/remove.rs *)

Definition entry_size (s : Onyfs) : Z :=
  if fs_version s =? ONYFS_V1 then ONYFS_V1_DIRENT_SIZE else DIRENT_SIZE.

(** [while match_len < name.len() && match_len < ONYFS_NAME_MAX { ... }] *)
Fixpoint match_len (name existing : list Z) : Z :=
  match name, existing with
  | a :: name, b :: existing => if a =? b then 1 + match_len name existing else 0
  | _, _ => 0
  end.

Definition name_matches (name existing : list Z) : result bool :=
  let m := match_len name existing in
  if negb (m =? len name) then mret false else
  if ONYFS_NAME_MAX <=? m then mret true else
  b ← idx existing m; mret (b =? 0).

(** The first loop: the offset of the live entry called [name]. *)
Fixpoint find_entry (n : nat) (i esz : Z) (buf name : list Z) : result (option Z) :=
  match n with
  | O => mret None
  | S n =>
      let off := i * esz in
      if ONYFS_BLOCK_SIZE <? off + esz then mret None else
      existing ← le32_idx buf (off + 32);
      if existing =? 0 then find_entry n (i + 1) esz buf name else
      ename ← slice buf off (off + ONYFS_NAME_MAX);
      b ← name_matches name ename;
      if (b : bool) then mret (Some off) else find_entry n (i + 1) esz buf name
  end.

(** The second loop: the offset of the first free entry. *)
Fixpoint find_free (n : nat) (i esz : Z) (buf : list Z) : result (option Z) :=
  match n with
  | O => mret None
  | S n =>
      let off := i * esz in
      if ONYFS_BLOCK_SIZE <? off + esz then mret None else
      existing ← le32_idx buf (off + 32);
      if existing =? 0 then mret (Some off) else find_free n (i + 1) esz buf
  end.

Definition zero_buf : FM unit := modify (set_fs_buf (zeros ONYFS_BLOCK_SIZE)).

Definition add_dirent (dir_ino : Z) (name : list Z) (target_ino dtype : Z) : FM unit :=
  dir_inode ← read_inode dir_ino;
  b0 ← lift (idx (i_blocks dir_inode) 0);
  dir_blk ← (if b0 =? 0 then
      dir_blk ← alloc_data_block;
      blocks ← lift (set_idx (i_blocks dir_inode) 0 dir_blk);
      zero_buf;;
      log_and_write dir_blk;;
      write_inode dir_ino (set_blocks blocks dir_inode);;
      mret dir_blk
    else mret b0);
  dpb ← gets dirents_per_block;
  esz ← gets entry_size;
  v ← gets fs_version;
  load dir_blk;;
  buf ← gets fs_buf;
  found ← lift (find_entry (Z.to_nat dpb) 0 esz buf name);
  match found with
  | Some off =>
      buf ← lift (put buf (off + 32) (off + 36) (le_bytes 4 target_ino));
      buf ← lift (if negb (v =? ONYFS_V1) then set_idx buf (off + 36) dtype else mret buf);
      modify (set_fs_buf buf);;
      log_and_write dir_blk
  | None =>
      free ← lift (find_free (Z.to_nat dpb) 0 esz buf);
      match free with
      | None => fail NoSpace
      | Some off =>
          let n := Z.min (len name) ONYFS_NAME_MAX in
          nm ← lift (slice name 0 n);
          name_buf ← lift (put (zeros ONYFS_NAME_MAX) 0 n nm);
          buf ← lift (put buf off (off + ONYFS_NAME_MAX) name_buf);
          buf ← lift (put buf (off + 32) (off + 36) (le_bytes 4 target_ino));
          buf ← lift (if negb (v =? ONYFS_V1) then
                        buf ← set_idx buf (off + 36) dtype; set_idx buf (off + 37) n
                      else mret buf);
          modify (set_fs_buf buf);;
          log_and_write dir_blk
      end
  end.

Definition remove_dirent (dir_ino : Z) (name : list Z) : FM unit :=
  dir_inode ← read_inode dir_ino;
  dir_blk ← lift (idx (i_blocks dir_inode) 0);
  if dir_blk =? 0 then fail NoEnt else
  dpb ← gets dirents_per_block;
  esz ← gets entry_size;
  load dir_blk;;
  buf ← gets fs_buf;
  found ← lift (find_entry (Z.to_nat dpb) 0 esz buf name);
  match found with
  | None => fail NoEnt
  | Some off =>
      buf ← lift (put buf (off + 32) (off + 36) (zeros 4));
      modify (set_fs_buf buf);;
      log_and_write dir_blk
  end.

(** ** lookup.rs and readdir.rs *)

(** [parse_dirent(slot)] of the current block buffer. *)
Definition parse_dirent (v : Z) (buf : list Z) (slot : Z) : result OnyfsDirent :=
  if v =? ONYFS_V1 then
    let off := slot * ONYFS_V1_DIRENT_SIZE in
    if ONYFS_BLOCK_SIZE <? off + ONYFS_V1_DIRENT_SIZE then Err Inval else
    s ← slice buf off (off + ONYFS_V1_DIRENT_SIZE);
    name ← slice s 0 ONYFS_NAME_MAX;
    inode ← le32_idx s 32;
    let name_len := match position 0 name with Some n => n | None => ONYFS_NAME_MAX end in
    mret (mkOnyfsDirent name inode 0 (w8 name_len) [0; 0])
  else
    let off := slot * DIRENT_SIZE in
    if ONYFS_BLOCK_SIZE <? off + DIRENT_SIZE then Err Inval else
    s ← slice buf off (off + DIRENT_SIZE);
    o ← dirent_from_bytes s;
    ok_or o Io.

(** The search of [lookup_in]: the inode of the entry called [name]. *)
Fixpoint search_dir (n : nat) (v : Z) (buf : list Z) (i : Z) (name : list Z) : result (option Z) :=
  match n with
  | O => mret None
  | S n =>
      d ← parse_dirent v buf i;
      if d_inode d =? 0 then search_dir n v buf (i + 1) name else
      let nl := name_length (d_name d) (d_name_len d) in
      if nl =? len name then
        dn ← slice (d_name d) 0 nl;
        if decide (dn = name) then mret (Some (d_inode d)) else search_dir n v buf (i + 1) name
      else search_dir n v buf (i + 1) name
  end.

Definition lookup_in (dir_ino : Z) (name : list Z) : FM (Z * OnyfsStat) :=
  inode ← read_inode dir_ino;
  dir_blk ← lift (idx (i_blocks inode) 0);
  if dir_blk =? 0 then fail NoEnt else
  load dir_blk;;
  dpb ← gets dirents_per_block;
  v ← gets fs_version;
  buf ← gets fs_buf;
  found ← lift (search_dir (Z.to_nat dpb) v buf 0 name);
  match found with
  | None => fail NoEnt
  | Some found_ino => st ← onyxfs_stat found_ino; mret (found_ino, st)
  end.

Definition SLASH : Z := 47.

Fixpoint skip_slashes (l : list Z) : list Z :=
  match l with
  | c :: t => if c =? SLASH then skip_slashes t else l
  | [] => []
  end.

(** Every iteration consumes a byte, so the length of the path is enough fuel. *)
Fixpoint lookup_loop (fuel : nat) (cur_ino : Z) (remaining : list Z) : FM Z :=
  let remaining := skip_slashes remaining in
  match remaining with
  | [] => mret cur_ino
  | _ =>
      match fuel with
      | O => panic
      | S fuel =>
          match position SLASH remaining with
          | None => r ← lookup_in cur_ino remaining; mret (r.1 : Z)
          | Some i =>
              comp ← lift (slice remaining 0 i);
              r ← lookup_in cur_ino comp;
              rest ← lift (slice remaining (i + 1) (len remaining));
              lookup_loop fuel r.1 rest
          end
      end
  end.

Definition onyxfs_lookup (path : list Z) : FM (Z * OnyfsStat) :=
  cur_ino ← lookup_loop (length path) ONYFS_ROOT_INO path;
  st ← onyxfs_stat cur_ino;
  mret (cur_ino, st).

Definition is_dir_mode (mode : Z) : bool := Z.land mode 0xF000 =? Z.land ONYFS_DT_DIR 0xF000.

Definition resolve_dir (path : list Z) : FM Z :=
  r ← onyxfs_lookup path;
  if negb (is_dir_mode (st_mode r.2)) then fail NotDir else mret (r.1 : Z).

(** [readdir_entry]: the inode and the bytes stored at [name_out]. *)
Definition onyxfs_readdir_entry (dir_ino entry_idx name_len : Z) : FM (option (Z * list Z)) :=
  inode ← read_inode dir_ino;
  if negb (is_dir_mode (i_mode inode)) then fail NotDir else
  dir_blk ← lift (idx (i_blocks inode) 0);
  if dir_blk =? 0 then mret None else
  load dir_blk;;
  dpb ← gets dirents_per_block;
  if dpb <=? entry_idx then mret None else
  v ← gets fs_version;
  buf ← gets fs_buf;
  d ← lift (parse_dirent v buf entry_idx);
  if d_inode d =? 0 then mret None else
  let nl := name_length (d_name d) (d_name_len d) in
  let copy_n := Z.min nl (sat_sub name_len 1) in
  nm ← lift (slice (d_name d) 0 copy_n);
  mret (Some (d_inode d, if copy_n <? name_len then nm ++ [0] else nm)).

(** ** read.rs *)

(** The loop over the direct blocks; the bytes copied to the caller so far. *)
Fixpoint read_loop_blocks (blocks : list Z) (off remaining : Z) (acc : list Z) : FM (list Z) :=
  match blocks with
  | [] => mret acc
  | blk :: blocks =>
      if (remaining =? 0) || (blk =? 0) then mret acc else
      load blk;;
      let chunk_off := off mod ONYFS_BLOCK_SIZE in
      let chunk := Z.min (ONYFS_BLOCK_SIZE - off mod ONYFS_BLOCK_SIZE) remaining in
      buf ← gets fs_buf;
      bytes ← lift (slice buf chunk_off (chunk_off + chunk));
      read_loop_blocks blocks (w32 (off + chunk)) (remaining - chunk) (acc ++ bytes)
  end.

Definition onyxfs_read (ino off rlen : Z) : FM (list Z) :=
  inode ← read_inode ino;
  let file_size := Z.min (i_size inode) 4294967295 in
  let remaining := Z.min rlen (sat_sub file_size off) in
  read_loop_blocks (i_blocks inode) off remaining [].

(** ** write.rs *)

(** The block that holds [cur_off], allocated and zeroed when there is none. *)
Definition block_for (inode : OnyfsInode) (blk_idx : Z) : FM (Z * OnyfsInode) :=
  blk ← lift (idx (i_blocks inode) blk_idx);
  if blk =? 0 then
    blk ← alloc_data_block;
    blocks ← lift (set_idx (i_blocks inode) blk_idx blk);
    zero_buf;;
    log_and_write blk;;
    mret (blk, set_blocks blocks inode)
  else mret (blk, inode).

(** Every iteration ends at a block boundary or at the end of the data, and
    there are ten direct blocks: eleven iterations are enough. *)
Fixpoint write_loop_blocks (fuel : nat) (inode : OnyfsInode) (src : list Z) (cur_off remaining written : Z)
    : FM (Z * OnyfsInode) :=
  if remaining =? 0 then mret (written, inode) else
  let blk_idx := cur_off / ONYFS_BLOCK_SIZE in
  if ONYFS_DIRECT_BLKS <=? blk_idx then mret (written, inode) else
  match fuel with
  | O => panic
  | S fuel =>
      r ← block_for inode blk_idx;
      let chunk_off := cur_off mod ONYFS_BLOCK_SIZE in
      let chunk := Z.min (ONYFS_BLOCK_SIZE - cur_off mod ONYFS_BLOCK_SIZE) remaining in
      load r.1;;
      buf ← gets fs_buf;
      bytes ← lift (slice src written (written + chunk));
      buf ← lift (put buf chunk_off (chunk_off + chunk) bytes);
      modify (set_fs_buf buf);;
      log_and_write r.1;;
      write_loop_blocks fuel r.2 src (w32 (cur_off + chunk)) (remaining - chunk) (written + chunk)
  end.

(** [src] is the memory at [buf]. *)
Definition onyxfs_write (ino : Z) (src : list Z) (off wlen : Z) : FM Z :=
  v ← gets fs_version;
  if v =? ONYFS_V1 then fail NoSys else
  inode ← read_inode ino;
  r ← write_loop_blocks 11 inode src off wlen 0;
  let end_ := w32 (off + r.1) in
  let inode := if i_size r.2 <? end_ then set_size end_ r.2 else r.2 in
  now ← gets fs_jiffies;
  write_inode ino (set_mtime now inode);;
  journal_commit;;
  mret (r.1 : Z).

Definition fresh_inode (mode nlink now : Z) : OnyfsInode :=
  mkOnyfsInode mode 0 0 0 nlink (replicate 10 0) 0 0 now now now now 0 0.

Definition name_ok (name : list Z) : bool := negb (len name =? 0) && (len name <=? ONYFS_NAME_MAX).

Definition onyxfs_create (dir_ino : Z) (name : list Z) (mode : Z) : FM Z :=
  v ← gets fs_version;
  if v =? ONYFS_V1 then fail NoSys else
  if negb (name_ok name) then fail Inval else
  new_ino ← alloc_inode;
  now ← gets fs_jiffies;
  write_inode new_ino (fresh_inode mode 1 now);;
  add_dirent dir_ino name new_ino 8;;
  journal_commit;;
  mret new_ino.

Definition onyxfs_truncate (ino : Z) : FM unit :=
  v ← gets fs_version;
  if v =? ONYFS_V1 then fail NoSys else
  inode ← read_inode ino;
  write_inode ino (set_indirects 0 0 (set_blocks (replicate 10 0) (set_size 0 inode)));;
  journal_commit.

(** ** mkdir.rs, unlink.rs, rename.rs *)

Definition dot_entry (name : list Z) (ino : Z) : OnyfsDirent :=
  mkOnyfsDirent (name ++ zeros (ONYFS_NAME_MAX - len name)) ino 4 (len name) [0; 0].

Definition onyxfs_mkdir (dir_ino : Z) (name : list Z) : FM Z :=
  v ← gets fs_version;
  if v =? ONYFS_V1 then fail NoSys else
  if negb (name_ok name) then fail Inval else
  new_ino ← alloc_inode;
  now ← gets fs_jiffies;
  dir_blk ← alloc_data_block;
  let inode := set_blocks (dir_blk :: replicate 9 0) (fresh_inode ONYFS_DT_DIR 2 now) in
  db1 ← lift (dirent_to_bytes (dot_entry [DOT] new_ino));
  db2 ← lift (dirent_to_bytes (dot_entry [DOT; DOT] dir_ino));
  buf ← lift (puts [(0, DIRENT_SIZE, db1); (DIRENT_SIZE, DIRENT_SIZE + DIRENT_SIZE, db2)]
                   (zeros ONYFS_BLOCK_SIZE));
  modify (set_fs_buf buf);;
  log_and_write dir_blk;;
  write_inode new_ino inode;;
  add_dirent dir_ino name new_ino 4;;
  journal_commit;;
  mret new_ino.

(** [iter().rposition(|&b| b == c)] *)
Fixpoint rposition (c : Z) (l : list Z) : option Z :=
  match l with
  | [] => None
  | b :: l =>
      match rposition c l with
      | Some i => Some (1 + i)
      | None => if b =? c then Some 0 else None
      end
  end.

(** Parent path and file name of a path without its leading slash. *)
Definition split_parent (trimmed : list Z) : result (list Z * list Z) :=
  match rposition SLASH trimmed with
  | Some pos => a ← slice trimmed 0 pos; b ← slice trimmed (pos + 1) (len trimmed); mret (a, b)
  | None => mret ([], trimmed)
  end.

Definition parent_ino (parent_path : list Z) : FM Z :=
  if len parent_path =? 0 then mret ONYFS_ROOT_INO
  else r ← onyxfs_lookup parent_path; mret (st_ino r.2).

Definition absolute (path : list Z) : bool :=
  match path with [] => false | c :: _ => c =? SLASH end.

Definition onyxfs_unlink (path : list Z) : FM unit :=
  if negb (absolute path) then fail Inval else
  if len path =? 1 then fail Perm else
  '(parent_path, filename) ← lift (trimmed ← slice path 1 (len path); split_parent trimmed);
  if len filename =? 0 then fail Inval else
  p ← parent_ino parent_path;
  remove_dirent p filename;;
  journal_commit.

Definition onyxfs_rename (old_path new_path : list Z) : FM unit :=
  if negb (absolute old_path) || negb (absolute new_path) then fail Inval else
  r ← onyxfs_lookup old_path;
  let dtype := Z.land (Z.shiftr (st_mode r.2) 12) 0xF in
  '(old_parent, old_name) ← lift (t ← slice old_path 1 (len old_path); split_parent t);
  '(new_parent, new_name) ← lift (t ← slice new_path 1 (len new_path); split_parent t);
  if (len old_name =? 0) || (len new_name =? 0) then fail Inval else
  old_parent_ino ← parent_ino old_parent;
  new_parent_ino ← parent_ino new_parent;
  add_dirent new_parent_ino new_name r.1 dtype;;
  remove_dirent old_parent_ino old_name;;
  journal_commit.

(** ** snapshot.rs *)

Definition SNAPSHOT_SLOTS : Z := 31.
Definition SNAPSHOT_SLOT_BLKS : Z := 2.

(** [push_block!]; the list holds the first [n_blocks] block numbers. *)
Definition push_block (b : Z) (blocks : list Z) : result (list Z) :=
  if SNAPSHOT_SLOTS <=? len blocks then Err NoMem
  else if bool_decide (b ∈ blocks) then mret blocks else mret (blocks ++ [b]).

Fixpoint push_all (bs blocks : list Z) : result (list Z) :=
  match bs with
  | [] => mret blocks
  | b :: bs => blocks ← push_block b blocks; push_all bs blocks
  end.

(** The live inodes of one block of the inode table. *)
Fixpoint push_inodes (n : nat) (slot : Z) (buf blocks : list Z) : result (list Z) :=
  match n with
  | O => mret blocks
  | S n =>
      let off := slot * INODE_SIZE in
      if ONYFS_BLOCK_SIZE <? off + INODE_SIZE then mret blocks else
      s ← slice buf off (off + INODE_SIZE);
      o ← inode_from_bytes s;
      match o with
      | None => push_inodes n (slot + 1) buf blocks
      | Some inode =>
          if i_mode inode =? 0 then push_inodes n (slot + 1) buf blocks else
          blocks ← push_all (filter (λ b, b ≠ 0) (i_blocks inode)) blocks;
          push_inodes n (slot + 1) buf blocks
      end
  end.

Fixpoint push_table (n : nat) (blk_idx : Z) (blocks : list Z) : FM (list Z) :=
  match n with
  | O => mret blocks
  | S n =>
      sb ← gets fs_sb;
      load (w32 (sb_inode_table_start sb + blk_idx));;
      ipb ← gets inodes_per_block;
      buf ← gets fs_buf;
      blocks ← lift (push_inodes (Z.to_nat ipb) 0 buf blocks);
      push_table n (blk_idx + 1) blocks
  end.

Definition live_blocks : FM (list Z) :=
  sb ← gets fs_sb;
  n ← gets inode_table_block_count;
  blocks ← lift (push_all (List.map (λ i, w32 (sb_inode_table_start sb + i)) (seqZ 0 n)) []);
  blocks ← lift (push_block (sb_data_bitmap_start sb) blocks);
  push_table (Z.to_nat n) 0 blocks.

(** One block into its slot; the compression buffer and the stored size. *)
Definition store_block (snap_data_start i block_num : Z) (comp_buf : list Z) : FM (list Z * Z) :=
  blk_buf ← read_local block_num (zeros ONYFS_BLOCK_SIZE);
  '(comp_size, comp_buf) ← lift (rle_compress blk_buf comp_buf);
  '(stored_size, comp_buf) ← lift
    (if (comp_size =? 0) || (8192 <? comp_size) then
       c ← put comp_buf 0 ONYFS_BLOCK_SIZE blk_buf; mret (ONYFS_BLOCK_SIZE, c)
     else mret (comp_size, comp_buf));
  let slot_start := w32 (snap_data_start + 1 + i * SNAPSHOT_SLOT_BLKS) in
  lo ← lift (slice comp_buf 0 ONYFS_BLOCK_SIZE);
  write_block slot_start lo;;
  hi ← lift (slice comp_buf ONYFS_BLOCK_SIZE 8192);
  write_block (w32 (slot_start + 1)) hi;;
  mret (comp_buf, stored_size).

(** The pairs of block number and stored size. *)
Fixpoint store_blocks (snap_data_start i : Z) (blocks comp_buf : list Z) : FM (list (Z * Z)) :=
  match blocks with
  | [] => mret []
  | b :: blocks =>
      r ← store_block snap_data_start i b comp_buf;
      rest ← store_blocks snap_data_start (i + 1) blocks r.1;
      mret ((b, r.2) :: rest)
  end.

Fixpoint header_fields (i : Z) (pairs : list (Z * Z)) : list (Z * Z * list Z) :=
  match pairs with
  | [] => []
  | (b, z) :: pairs =>
      let off := 4 + i * 8 in
      (off, off + 4, le_bytes 4 b) :: (off + 4, off + 8, le_bytes 4 z) :: header_fields (i + 1) pairs
  end.

Definition snap_start (sb : OnyfsSuper) (id : Z) : Z :=
  w32 (sb_snapshot_area_start sb + 1 + w32 (w32 (id - 1) * SNAPSHOT_BLOCKS_EACH)).

Definition set_snapshot_count (n : Z) (sb : OnyfsSuper) : OnyfsSuper :=
  mkOnyfsSuper (sb_magic sb) (sb_version sb) (sb_block_size sb) (sb_total_blocks sb)
    (sb_inode_count sb) (sb_inode_table_start sb) (sb_data_bitmap_start sb)
    (sb_data_blocks_start sb) (sb_root_inode sb) (sb_snapshot_area_start sb) n
    (sb_journal_start sb) (sb_journal_size sb) (sb_feature_flags sb) (sb_creation_time sb)
    (sb_last_mount_time sb) (sb_reserved sb).

Definition snapshot_create (name : list Z) : FM Z :=
  sb ← gets fs_sb;
  if (sb_snapshot_area_start sb =? 0) || (Z.land (sb_feature_flags sb) ONYFS_FEAT_SNAPSHOTS =? 0)
  then fail NoSys else
  let new_id := w32 (sb_snapshot_count sb + 1) in
  let snap_data_start := snap_start sb new_id in
  blocks ← live_blocks;
  pairs ← store_blocks snap_data_start 0 blocks (zeros 8192);
  header ← lift (puts ((0, 4, le_bytes 4 (len blocks)) :: header_fields 0 pairs) (zeros ONYFS_BLOCK_SIZE));
  write_block snap_data_start header;;
  let n := Z.min (len name) 32 in
  nm ← lift (slice name 0 n);
  name_buf ← lift (put (zeros 32) 0 n nm);
  now ← gets fs_jiffies;
  let meta := mkSnapshotMeta new_id now (sb_root_inode sb) (len blocks) name_buf 0 0 (replicate 4 0) in
  load (sb_snapshot_area_start sb);;
  let meta_off := w32 (new_id - 1) * SNAPMETA_SIZE in
  if ONYFS_BLOCK_SIZE <? meta_off + SNAPMETA_SIZE then fail NoMem else
  meta_bytes ← lift (snapmeta_to_bytes meta);
  buf ← gets fs_buf;
  buf ← lift (put buf meta_off (meta_off + SNAPMETA_SIZE) meta_bytes);
  modify (set_fs_buf buf);;
  write_block (sb_snapshot_area_start sb) buf;;
  v ← gets fs_version;
  modify (λ s, set_fs_super v (set_snapshot_count new_id (fs_sb s)) s);;
  persist_superblock;;
  mret new_id.

(** ** snapshot_io.rs *)

Definition restore_block (snap_data_start i : Z) (header comp_buf : list Z) : FM (list Z) :=
  let off := 4 + i * 8 in
  block_num ← lift (le32_idx header off);
  comp_size ← lift (le32_idx header (off + 4));
  let slot_start := w32 (snap_data_start + 1 + i * SNAPSHOT_SLOT_BLKS) in
  lo ← read_local slot_start (zeros ONYFS_BLOCK_SIZE);
  comp_buf ← lift (put comp_buf 0 ONYFS_BLOCK_SIZE lo);
  hi ← read_local (w32 (slot_start + 1)) lo;
  comp_buf ← lift (put comp_buf ONYFS_BLOCK_SIZE 8192 hi);
  out_buf ←
    (if comp_size =? ONYFS_BLOCK_SIZE then lift (slice comp_buf 0 ONYFS_BLOCK_SIZE)
     else
       src ← lift (slice comp_buf 0 comp_size);
       r ← lift (rle_decompress src (zeros ONYFS_BLOCK_SIZE));
       if negb (r.1 =? ONYFS_BLOCK_SIZE) then fail Io else mret (r.2 : list Z));
  write_block block_num out_buf;;
  mret comp_buf.

Fixpoint restore_blocks (n : nat) (snap_data_start i : Z) (header comp_buf : list Z) : FM unit :=
  match n with
  | O => mret tt
  | S n =>
      comp_buf ← restore_block snap_data_start i header comp_buf;
      restore_blocks n snap_data_start (i + 1) header comp_buf
  end.

Definition snapshot_rollback (snapshot_id : Z) : FM unit :=
  sb ← gets fs_sb;
  if sb_snapshot_area_start sb =? 0 then fail NoSys else
  if (snapshot_id =? 0) || (sb_snapshot_count sb <? snapshot_id) then fail NoEnt else
  let snap_data_start := snap_start sb snapshot_id in
  header ← read_local snap_data_start (zeros ONYFS_BLOCK_SIZE);
  n_blocks ← lift (le32_idx header 0);
  if SNAPSHOT_SLOTS <? n_blocks then fail Io else
  restore_blocks (Z.to_nat n_blocks) snap_data_start 0 header (zeros 8192).

(** The bytes stored at [names_out] so far with [name] added, and whether there
    was no room for all of it. *)
Fixpoint list_name (name out : list Z) (max_len : Z) : bool * list Z :=
  match name with
  | [] => (false, out)
  | c :: name => if max_len <=? len out + 1 then (true, out) else list_name name (out ++ [c]) max_len
  end.

(** The name up to its first NUL. *)
Fixpoint until_nul (l : list Z) : list Z :=
  match l with [] => [] | c :: l => if c =? 0 then [] else c :: until_nul l end.

(** The first component says whether the loop ran out of room. *)
Fixpoint list_loop (n : nat) (i : Z) (buf out : list Z) (listed max_len : Z)
    : result (bool * Z * list Z) :=
  match n with
  | O => mret (false, listed, out)
  | S n =>
      let off := i * SNAPMETA_SIZE in
      if ONYFS_BLOCK_SIZE <? off + SNAPMETA_SIZE then mret (false, listed, out) else
      s ← slice buf off (off + SNAPMETA_SIZE);
      o ← snapmeta_from_bytes s;
      match o with
      | None => list_loop n (i + 1) buf out listed max_len
      | Some meta =>
          match list_name (until_nul (sn_name meta)) out max_len with
          | (true, out) => mret (true, listed, out)
          | (false, out) =>
              let out := if len out + 1 <? max_len then out ++ [10] else out in
              list_loop n (i + 1) buf out (listed + 1) max_len
          end
      end
  end.

(** The count and the bytes stored at [names_out]. *)
Definition snapshot_list (max_len : Z) : FM (Z * list Z) :=
  sb ← gets fs_sb;
  if sb_snapshot_area_start sb =? 0 then mret (0, []) else
  let count := sb_snapshot_count sb in
  if (count =? 0) || (max_len =? 0) then mret (0, []) else
  load (sb_snapshot_area_start sb);;
  buf ← gets fs_buf;
  '(full, listed, out) ← lift (list_loop (Z.to_nat count) 0 buf [] 0 max_len);
  if (full : bool) then mret (listed, out)
  else mret (listed, if len out <? max_len then out ++ [0] else out).
