(* ===== verification/Fat32.v ===== *)
(** * kernel/src/fs/fat32.rs: the read-only FAT32 driver

    The globals of the driver with the disk it reads.  [buf] is what has been
    stored in the caller's buffer.  The driver follows a cluster chain until its end
    mark; a chain that visits more clusters than the disk has table entries is
    cyclic, the driver never returns, and the definitions are [Panic]. *)

From S2P Require Import Prelude Formats Onyxfs.
From stdpp Require Import base list numbers gmap.
From Stdlib Require Import ZArith Lia.

Open Scope Z_scope.

Definition ATTR_DIRECTORY : Z := 0x10.
Definition ATTR_LFN : Z := 0x0F.
Definition FAT32_EOC : Z := 0x0FFFFFF8.
Definition DIR_ENTRY_SIZE : Z := 32.
Definition ENTRIES_PER_SECTOR : Z := 512 / DIR_ENTRY_SIZE.

Record Fat := mkFat {
  fat_dev : Z; fat_spc : Z; fat_resvd : Z; fat_fat_sz : Z; fat_root_cluster : Z;
  fat_data_lba : Z; fat_sec : list Z; fat_disk : gmap (Z * Z) (list Z) }.

Abbreviation TM := (SM Fat).

Definition set_fat_dev (d : Z) (s : Fat) : Fat :=
  mkFat d (fat_spc s) (fat_resvd s) (fat_fat_sz s) (fat_root_cluster s) (fat_data_lba s) (fat_sec s) (fat_disk s).
Definition set_fat_geometry (spc resvd fat_sz root data_lba : Z) (s : Fat) : Fat :=
  mkFat (fat_dev s) spc resvd fat_sz root data_lba (fat_sec s) (fat_disk s).
Definition set_fat_sec (b : list Z) (s : Fat) : Fat :=
  mkFat (fat_dev s) (fat_spc s) (fat_resvd s) (fat_fat_sz s) (fat_root_cluster s) (fat_data_lba s) b (fat_disk s).

(** [read_sec(lba, &mut buf)] *)
Definition read_sec (lba : Z) (buf : list Z) (s : Fat) : result unit * list Z :=
  read_multi (fat_disk s) (fat_dev s) lba 0 1 buf.

(** [read_sec(lba, &mut G_SEC)?] *)
Definition load_sec (lba : Z) : TM unit := λ s,
  let '(r, b) := read_sec lba (fat_sec s) s in (r, set_fat_sec b s).

Definition cluster_to_lba (s : Fat) (cluster : Z) : Z :=
  w64 (fat_data_lba s + w64 (w32 (cluster - 2) * fat_spc s)).

(** Four, two and one little-endian bytes of [G_SEC]. *)
Definition sec_le (n off : Z) : TM Z := λ s,
  match slice (fat_sec s) off (off + n) with
  | Ok bs => (Ok (le_val bs), s)
  | Err e => (Err e, s)
  | Panic => (Panic, s)
  end.

Definition fat_entry (cluster : Z) : TM Z := λ s,
  let fat_off := cluster * 4 in
  let fat_lba := fat_resvd s + fat_off / 512 in
  let '(r, s) := load_sec fat_lba s in
  if is_ok r then (v ← sec_le 4 (fat_off mod 512); mret (Z.land v 0x0FFFFFFF)) s
  else (Ok FAT32_EOC, s).

Definition is_eoc (v : Z) : bool := FAT32_EOC <=? v.

Definition read_cluster_sector (cluster sector_in_cluster : Z) : TM unit := λ s,
  load_sec (w64 (cluster_to_lba s cluster + sector_in_cluster)) s.

(** ** Short names *)

Definition fat32_name_8_3 (name : list Z) : list Z :=
  if (len name =? 0) || bool_decide (name = [DOT]) || bool_decide (name = [DOT; DOT])
  then replicate 11 0x20 else
  let '(base, ext) := match position DOT name with
                      | Some i => (take (Z.to_nat i) name, drop (S (Z.to_nat i)) name)
                      | None => (name, [])
                      end in
  let base := to_upper <$> take 8 base in
  let ext := to_upper <$> take 3 ext in
  wr 8 ext (wr 0 base (replicate 11 0x20)).

(** ** Directories *)

(** What the scan of one sector found. *)
Inductive scan := NotHere | EndOfDir | Found (cluster size : Z) (is_dir : bool).

(** [for ei in ei..ENTRIES_PER_SECTOR] over [G_SEC]. *)
Fixpoint scan_sector (n : nat) (ei : Z) (sec needle : list Z) : result scan :=
  match n with
  | O => mret NotHere
  | S n =>
      let off := ei * DIR_ENTRY_SIZE in
      attr ← idx sec (off + 11);
      if attr =? ATTR_LFN then scan_sector n (ei + 1) sec needle else
      b0 ← idx sec off;
      if b0 =? 0 then mret EndOfDir else
      if b0 =? 0xE5 then scan_sector n (ei + 1) sec needle else
      entry ← slice sec off (off + 11);
      if bool_decide (entry = needle) then
        lo ← slice sec (off + 26) (off + 28);
        hi ← slice sec (off + 20) (off + 22);
        sz ← slice sec (off + 28) (off + 32);
        mret (Found (Z.lor (w32 (Z.shiftl (le_val hi) 16)) (le_val lo)) (le_val sz)
                (negb (Z.land attr ATTR_DIRECTORY =? 0)))
      else scan_sector n (ei + 1) sec needle
  end.

(** [for si in si..G_SPC] *)
Fixpoint scan_cluster (n : nat) (si cluster : Z) (needle : list Z) : TM scan :=
  match n with
  | O => mret NotHere
  | S n =>
      read_cluster_sector cluster si;;
      sec ← gets fat_sec;
      r ← lift (scan_sector (Z.to_nat ENTRIES_PER_SECTOR) 0 sec needle);
      match r with NotHere => scan_cluster n (si + 1) cluster needle | r => mret r end
  end.

Fixpoint scan_chain (fuel : nat) (cluster : Z) (needle : list Z) : TM (Z * Z * bool) :=
  match fuel with
  | O => panic
  | S fuel =>
      spc ← gets fat_spc;
      r ← scan_cluster (Z.to_nat spc) 0 cluster needle;
      match r with
      | Found c sz d => mret (c, sz, d)
      | EndOfDir => fail NoEnt
      | NotHere =>
          next ← fat_entry cluster;
          if is_eoc next then fail NoEnt else scan_chain fuel next needle
      end
  end.

(** One more than the number of table entries on the disk. *)
Definition chain_fuel (s : Fat) : nat := S (128 * size (fat_disk s)).

Definition scan_dir_entries (dir_cluster : Z) (needle : list Z) : TM (Z * Z * bool) :=
  if dir_cluster =? 0 then fail NoEnt else
  fuel ← gets chain_fuel;
  scan_chain fuel dir_cluster needle.

Definition fat32_mount (dev : Z) : TM unit :=
  modify (set_fat_dev dev);;
  s ← gets id;
  match read_sec 0 (replicate 512 0) s with
  | (Err e, _) => fail e
  | (Panic, _) => panic
  | (Ok _, bpb) =>
      b510 ← lift (idx bpb 510);
      b511 ← lift (idx bpb 511);
      if negb (b510 =? 0x55) || negb (b511 =? 0xAA) then fail Inval else
      bps ← lift (slice bpb 11 13);
      if negb (le_val bps =? 512) then fail Inval else
      spc ← lift (idx bpb 13);
      resvd ← lift (slice bpb 14 16);
      sz16 ← lift (slice bpb 22 24);
      sz32 ← lift (slice bpb 36 40);
      root ← lift (slice bpb 44 48);
      let fat_sz := if le_val sz16 =? 0 then le_val sz32 else le_val sz16 in
      modify (set_fat_geometry spc (le_val resvd) fat_sz (le_val root)
                (w32 (le_val resvd + w32 (2 * fat_sz))))
  end.

Definition fat32_lookup (path : list Z) : TM (Z * Z) :=
  root ← gets fat_root_cluster;
  r ← scan_dir_entries root (fat32_name_8_3 path);
  mret (r.1.1, r.1.2).

(** ** Reading *)

(** [while remain > 0]: [copy_off] stays what it is, so every round reads the
    same sector and copies [in_sec] bytes of it, fewer in the last round. *)
Fixpoint copy_loop (fuel : nat) (cluster copy_off copy_pos remain : Z) (buf : list Z) : TM (list Z) :=
  if remain =? 0 then mret buf else
  match fuel with
  | O => panic
  | S fuel =>
      let si := copy_off / 512 in
      let sec_off := copy_off mod 512 in
      let in_sec := 512 - sec_off in
      let chunk := Z.min remain in_sec in
      read_cluster_sector cluster si;;
      sec ← gets fat_sec;
      copy_loop fuel cluster copy_off (copy_pos + chunk) (remain - chunk)
        (wr copy_pos (rd sec_off chunk sec) buf)
  end.

Fixpoint read_chain (fuel : nat) (cluster skipped start_byte end_byte : Z) (buf : list Z) : TM (Z * list Z) :=
  match fuel with
  | O => panic
  | S fuel =>
      spc ← gets fat_spc;
      let csize := w32 (spc * 512) in
      let cstart := skipped in
      let cend := skipped + csize in
      r ← (if start_byte <? cend then
             let rel_start := w32 (start_byte - cstart) in
             let rel_end := w32 (Z.min (w64 (end_byte - cstart)) csize) in
             let to_copy := w32 (rel_end - rel_start) in
             buf ← copy_loop (Z.to_nat (div_ceil to_copy (512 - rel_start mod 512))) cluster rel_start 0 to_copy buf;
             mret (if end_byte <=? cend then inl (to_copy, buf) else inr buf)
           else mret (inr buf));
      match r with
      | inl done => mret done
      | inr buf =>
          next ← fat_entry cluster;
          if is_eoc next then mret (w32 (end_byte - start_byte), buf)
          else read_chain fuel next (skipped + csize) start_byte end_byte buf
      end
  end.

(** The number of bytes reported, and the bytes stored in the caller's buffer
    from its start on. *)
Definition fat32_read (cluster off rlen : Z) : TM (Z * list Z) :=
  if (rlen =? 0) || (cluster =? 0) then mret (0, []) else
  fuel ← gets chain_fuel;
  read_chain fuel cluster 0 off (Z.min (off + rlen) 4294967295) [].
