(* ===== verification/Net.v ===== *)
(** * kernel/src/net: Ethernet, ARP, IP, ICMP and TCP

    [n_rx] lists what the next polls of the device answer: a frame, or none;
    when it is used up there are no more frames.  So a burst of frames is finite
    here; the loop of the source takes frames for as long as they arrive, and has
    no bound of its own.  [n_tx] is what was sent.
    Sending a packet to an address that is not in the ARP cache polls for
    frames, whose handling may again send packets: [poll] is recursive, every
    level of it consumes an answer of the device, and one more than [n_rx] has
    is always enough fuel.  Heap exhaustion in [vec!] is not modelled. *)

From S2P Require Import Prelude.
From stdpp Require Import base list numbers.
From Stdlib Require Import ZArith Lia.

Open Scope Z_scope.

Definition ETH_HLEN : Z := 14.
Definition ET_ARP : Z := 0x0806.
Definition ET_IP : Z := 0x0800.
Definition ARP_CACHE_MAX : Z := 8.
Definition IP_HLEN : Z := 20.
Definition IP_PROTO_TCP : Z := 6.
Definition IP_PROTO_ICMP : Z := 1.
Definition NET_MTU : Z := 1514.
Definition MAX_CONNS : Z := 8.
Definition BUF_SIZE : Z := 2048.
Definition TCP_HLEN : Z := 20.

Record TcpConn := mkTcpConn {
  tc_state : Z; tc_src_port : Z; tc_dst_ip : list Z; tc_dst_port : Z; tc_snd_nxt : Z;
  tc_rcv_nxt : Z; tc_send_buf : list Z; tc_send_len : Z; tc_recv_buf : list Z;
  tc_recv_len : Z; tc_recv_head : Z }.

Record Net := mkNet {
  n_mac : list Z; n_ip : list Z; n_arp : list (list Z * list Z); n_ip_id : Z;
  n_conns : list (option TcpConn); n_next_port : Z; n_rx : list (option (list Z));
  n_tx : list (list Z) }.

Abbreviation NM := (SM Net).

Definition set_n_arp (v : list (list Z * list Z)) (s : Net) : Net :=
  mkNet (n_mac s) (n_ip s) v (n_ip_id s) (n_conns s) (n_next_port s) (n_rx s) (n_tx s).
Definition set_n_ip_id (v : Z) (s : Net) : Net :=
  mkNet (n_mac s) (n_ip s) (n_arp s) v (n_conns s) (n_next_port s) (n_rx s) (n_tx s).
Definition set_n_conns (v : list (option TcpConn)) (s : Net) : Net :=
  mkNet (n_mac s) (n_ip s) (n_arp s) (n_ip_id s) v (n_next_port s) (n_rx s) (n_tx s).
Definition set_n_next_port (v : Z) (s : Net) : Net :=
  mkNet (n_mac s) (n_ip s) (n_arp s) (n_ip_id s) (n_conns s) v (n_rx s) (n_tx s).
Definition set_n_rx (v : list (option (list Z))) (s : Net) : Net :=
  mkNet (n_mac s) (n_ip s) (n_arp s) (n_ip_id s) (n_conns s) (n_next_port s) v (n_tx s).
Definition set_n_tx (v : list (list Z)) (s : Net) : Net :=
  mkNet (n_mac s) (n_ip s) (n_arp s) (n_ip_id s) (n_conns s) (n_next_port s) (n_rx s) v.

(** [virtio_net::send]: frames of no or too many bytes are refused. *)
Definition dev_send (frame : list Z) : NM unit :=
  if (len frame =? 0) || (NET_MTU <? len frame) then mret tt
  else modify (λ s, set_n_tx (n_tx s ++ [frame]) s).

(** ** eth.rs *)

Fixpoint arp_find (cache : list (list Z * list Z)) (ip : list Z) : option (list Z) :=
  match cache with
  | [] => None
  | (i, m) :: cache => if bool_decide (i = ip) then Some m else arp_find cache ip
  end.

Definition arp_lookup (ip : list Z) : NM (option (list Z)) := gets (λ s, arp_find (n_arp s) ip).

(** Replace the entry of [ip], or append one while there is room. *)
Fixpoint arp_update (cache : list (list Z * list Z)) (room : Z) (ip mac : list Z) : list (list Z * list Z) :=
  match cache with
  | [] => if 0 <? room then [(ip, mac)] else []
  | (i, m) :: cache =>
      if bool_decide (i = ip) then (i, mac) :: cache else (i, m) :: arp_update cache (room - 1) ip mac
  end.

Definition arp_insert (ip mac : list Z) : NM unit :=
  modify (λ s, set_n_arp (arp_update (n_arp s) ARP_CACHE_MAX ip mac) s).

(** An ARP packet of 42 bytes. *)
Definition arp_packet (eth_dst mac : list Z) (oper : Z) (spa tha tpa : list Z) : list Z :=
  eth_dst ++ mac ++ be_bytes 2 ET_ARP ++ be_bytes 2 1 ++ be_bytes 2 ET_IP ++ [6; 4] ++
  be_bytes 2 oper ++ mac ++ spa ++ tha ++ tpa.

Definition arp_request (target_ip : list Z) : NM unit :=
  s ← gets id;
  dev_send (arp_packet (replicate 6 0xFF) (n_mac s) 1 (n_ip s) (replicate 6 0) target_ip).

Definition handle_arp (frame : list Z) : NM unit :=
  if len frame <? 42 then mret tt else
  let oper := be_val (rd 20 2 frame) in
  let spa := rd 28 4 frame in
  let sha := rd 22 6 frame in
  let tpa := rd 38 4 frame in
  arp_insert spa sha;;
  s ← gets id;
  if (oper =? 1) && bool_decide (tpa = n_ip s)
  then dev_send (arp_packet sha (n_mac s) 2 (n_ip s) sha spa) else mret tt.

Definition send_frame (dst_mac : list Z) (ethertype : Z) (payload : list Z) : NM unit :=
  s ← gets id;
  dev_send (dst_mac ++ n_mac s ++ be_bytes 2 ethertype ++ payload).

(** ** ip.rs *)

(** The big-endian 16-bit words, an odd byte last as the high half. *)
Fixpoint sum_words (data : list Z) (sum : Z) : Z :=
  match data with
  | a :: b :: data => sum_words data (w32 (sum + (a * 256 + b)))
  | [a] => w32 (sum + a * 256)
  | [] => sum
  end.

(** [while sum >> 16 != 0]; a 32-bit sum takes at most two rounds. *)
Fixpoint fold_sum (fuel : nat) (sum : Z) : Z :=
  if Z.shiftr sum 16 =? 0 then sum else
  match fuel with
  | O => sum
  | S fuel => fold_sum fuel (Z.land sum 0xFFFF + Z.shiftr sum 16)
  end.

(** [!(sum as u16)] *)
Definition complement16 (sum : Z) : Z := 65535 - sum mod 65536.

Definition checksum (data : list Z) : Z := complement16 (fold_sum 3 (sum_words data 0)).

(** The first 20 bytes with checksum field [ck]. *)
Definition ip_header (total_len id protocol ck : Z) (src dst : list Z) : list Z :=
  [0x45; 0] ++ be_bytes 2 (total_len mod 65536) ++ be_bytes 2 id ++ be_bytes 2 0 ++
  [64; protocol] ++ be_bytes 2 ck ++ src ++ dst.

Definition ip_packet (id protocol : Z) (src dst payload : list Z) : list Z :=
  let total_len := IP_HLEN + len payload in
  let ck := checksum (ip_header total_len id protocol 0 src dst) in
  ip_header total_len id protocol ck src dst ++ payload.

Section Poll.
(** [net::poll] *)
Variable poll : NM unit.

(** [for _ in 0..n { poll(); if let Some(m) = arp_lookup(ip) .. }] *)
Fixpoint await_arp (n : nat) (ip : list Z) : NM (option (list Z)) :=
  match n with
  | O => mret None
  | S n =>
      poll;;
      m ← arp_lookup ip;
      match m with Some m => mret (Some m) | None => await_arp n ip end
  end.

Definition send_packet (dst_ip : list Z) (protocol : Z) (payload : list Z) : NM unit :=
  m ← arp_lookup dst_ip;
  m ← match m with
      | Some m => mret (Some m)
      | None => arp_request dst_ip;; await_arp 1000 dst_ip
      end;
  match m with
  | None => fail Io
  | Some dst_mac =>
      s ← gets id;
      modify (set_n_ip_id ((n_ip_id s + 1) mod 65536));;
      send_frame dst_mac ET_IP (ip_packet (n_ip_id s) protocol (n_ip s) dst_ip payload)
  end.

(** [.ok()] *)
Definition send_quietly (dst_ip : list Z) (protocol : Z) (payload : list Z) : NM unit := λ s,
  match send_packet dst_ip protocol payload s with (Err _, s) => (Ok tt, s) | r => r end.

(** ** tcp.rs *)

Definition tcp_checksum (src_ip dst_ip segment : list Z) : Z :=
  let sum := sum_words dst_ip (sum_words src_ip 0) in
  let sum := w32 (w32 (sum + 6) + len segment) in
  complement16 (fold_sum 3 (sum_words segment sum)).

Definition tcp_header (c : TcpConn) (flags ck : Z) : list Z :=
  be_bytes 2 (tc_src_port c) ++ be_bytes 2 (tc_dst_port c) ++ be_bytes 4 (tc_snd_nxt c) ++
  be_bytes 4 (tc_rcv_nxt c) ++ be_bytes 2 (Z.lor (Z.shiftl (TCP_HLEN / 4) 12) flags) ++
  [0xFF; 0xFF] ++ be_bytes 2 ck ++ [0; 0].

Definition tcp_segment (src_ip : list Z) (c : TcpConn) (flags : Z) (data : list Z) : list Z :=
  tcp_header c flags (tcp_checksum src_ip (tc_dst_ip c) (tcp_header c flags 0 ++ data)) ++ data.

Definition send_tcp_seg (c : TcpConn) (flags : Z) (data : list Z) : NM unit :=
  s ← gets id;
  send_quietly (tc_dst_ip c) IP_PROTO_TCP (tcp_segment (n_ip s) c flags data).

Definition conn_at (i : Z) : NM (option TcpConn) := λ s, (idx (n_conns s) i, s).
Definition conn_set (i : Z) (c : option TcpConn) : NM unit :=
  l ← gets n_conns;
  l ← lift (set_idx l i c);
  modify (set_n_conns l).

(** A reference into a connection that sending may have changed meanwhile. *)
Definition conn_ref (i : Z) : NM TcpConn :=
  o ← conn_at i; match o with Some c => mret c | None => panic end.

Definition with_seq (c : TcpConn) (state snd_nxt rcv_nxt : Z) : TcpConn :=
  mkTcpConn state (tc_src_port c) (tc_dst_ip c) (tc_dst_port c) snd_nxt rcv_nxt (tc_send_buf c)
    (tc_send_len c) (tc_recv_buf c) (tc_recv_len c) (tc_recv_head c).
Definition with_recv (c : TcpConn) (buf : list Z) (n head : Z) : TcpConn :=
  mkTcpConn (tc_state c) (tc_src_port c) (tc_dst_ip c) (tc_dst_port c) (tc_snd_nxt c) (tc_rcv_nxt c)
    (tc_send_buf c) (tc_send_len c) buf n head.
Definition with_send (c : TcpConn) (buf : list Z) (n : Z) : TcpConn :=
  mkTcpConn (tc_state c) (tc_src_port c) (tc_dst_ip c) (tc_dst_port c) (tc_snd_nxt c) (tc_rcv_nxt c)
    buf n (tc_recv_buf c) (tc_recv_len c) (tc_recv_head c).

(** [for j in 0..n { recv_buf[(start + j) % BUF_SIZE] = src[j] }] *)
Fixpoint ring_put (buf : list Z) (start : Z) (src : list Z) : result (list Z) :=
  match src with
  | [] => mret buf
  | b :: src => buf ← set_idx buf (start mod BUF_SIZE) b; ring_put buf (start + 1) src
  end.

(** [for i in 0..n { buf[i] = recv_buf[(recv_head + i) % BUF_SIZE] }] *)
Fixpoint ring_get (n : nat) (buf : list Z) (head : Z) : result (list Z) :=
  match n with
  | O => mret []
  | S n => b ← idx buf (head mod BUF_SIZE); l ← ring_get n buf (head + 1); mret (b :: l)
  end.

Definition alloc_conn : NM (option Z) :=
  gets (λ s, match list_find (λ c, c = None) (take 8 (n_conns s)) with
             | Some (i, _) => Some (Z.of_nat i)
             | None => None
             end).

Definition next_port : NM Z :=
  p ← gets n_next_port;
  modify (set_n_next_port ((p + 1) mod 65536));;
  mret p.

(** The fields [handle_tcp] reads from a frame. *)
Record TcpIn := mkTcpIn {
  ti_dport : Z; ti_seq : Z; ti_ack : Z; ti_flags : Z; ti_payload_start : Z; ti_payload_len : Z }.

Definition tcp_parse (frame : list Z) (ip_start ihl total_len : Z) : option TcpIn :=
  let tcp_off := ip_start + ihl in
  if len frame <? tcp_off + TCP_HLEN then None else
  let payload_start := tcp_off + Z.shiftr (nth (Z.to_nat (tcp_off + 12)) frame 0) 4 * 4 in
  Some (mkTcpIn (be_val (rd tcp_off 2 frame)) (be_val (rd (tcp_off + 4) 4 frame))
          (be_val (rd (tcp_off + 8) 4 frame)) (nth (Z.to_nat (tcp_off + 13)) frame 0)
          payload_start (sat_sub (Z.min (ip_start + total_len) (len frame)) payload_start)).

(** The connection with the payload of a frame appended to its buffer. *)
Definition absorb (frame : list Z) (t : TcpIn) (c : TcpConn) : result TcpConn :=
  let n := Z.min (ti_payload_len t) (BUF_SIZE - tc_recv_len c) in
  src ← slice frame (ti_payload_start t) (ti_payload_start t + n);
  buf ← ring_put (tc_recv_buf c) ((tc_recv_head c + tc_recv_len c) mod BUF_SIZE) src;
  let c := with_recv c buf (tc_recv_len c + n) (tc_recv_head c) in
  mret (with_seq c (tc_state c) (tc_snd_nxt c) (w32 (tc_rcv_nxt c + n))).

(** Data in order, in state 2. *)
Definition accept_data (frame : list Z) (t : TcpIn) (i : Z) (c : TcpConn) : NM unit :=
  if (ti_seq t =? tc_rcv_nxt c) && (0 <? ti_payload_len t) then
    c ← lift (absorb frame t c);
    conn_set i (Some c);;
    send_tcp_seg c 0x10 []
  else mret tt.

(** One connection of the loop of [handle_tcp]. *)
Definition tcp_step (frame : list Z) (t : TcpIn) (i : Z) (c : TcpConn) : NM unit :=
  if negb (tc_src_port c =? ti_dport t) then mret tt else
  if (tc_state c =? 1) && (Z.land (ti_flags t) 0x12 =? 0x12) then
    let c := with_seq c 2 (ti_ack t) (w32 (ti_seq t + 1)) in
    conn_set i (Some c);;
    send_tcp_seg c 0x10 []
  else if tc_state c =? 2 then
    accept_data frame t i c;;
    if negb (Z.land (ti_flags t) 0x01 =? 0) then
      c ← conn_ref i;
      let c := with_seq c 4 (tc_snd_nxt c) (w32 (ti_seq t + 1)) in
      conn_set i (Some c);;
      send_tcp_seg c 0x11 []
    else mret tt
  else if (tc_state c =? 3) && negb (Z.land (ti_flags t) 0x10 =? 0) then
    conn_set i (Some (with_seq c 4 (tc_snd_nxt c) (tc_rcv_nxt c)))
  else mret tt.

Fixpoint tcp_loop (n : nat) (i : Z) (frame : list Z) (t : TcpIn) : NM unit :=
  match n with
  | O => mret tt
  | S n =>
      c ← conn_at i;
      match c with Some c => tcp_step frame t i c | None => mret tt end;;
      tcp_loop n (i + 1) frame t
  end.

Definition handle_tcp (frame : list Z) (ip_start ihl total_len : Z) : NM unit :=
  match tcp_parse frame ip_start ihl total_len with
  | None => mret tt
  | Some t => tcp_loop (Z.to_nat MAX_CONNS) 0 frame t
  end.

(** ** ICMP (ip.rs) *)

Definition handle_icmp (frame : list Z) (ip_start : Z) : NM unit :=
  let icmp_start := ip_start + IP_HLEN in
  if len frame <? icmp_start + 8 then mret tt else
  ty ← lift (idx frame icmp_start);
  if negb (ty =? 8) then mret tt else
  let reply := zeros (len frame - ip_start) in
  reply ← lift (if 4 <? len reply then
                  src ← slice frame (icmp_start + 4) (len frame);
                  put reply 4 (len reply) src
                else mret reply);
  reply ← lift (put reply 2 4 (be_bytes 2 (checksum reply)));
  s ← gets id;
  let src := rd (ip_start + 16) 4 frame in
  let src_mac := rd 6 6 frame in
  send_frame src_mac ET_IP (ip_packet 0 IP_PROTO_ICMP src (n_ip s) reply).

Definition handle_ip (frame : list Z) : NM unit :=
  if len frame <? ETH_HLEN + IP_HLEN then mret tt else
  b0 ← lift (idx frame ETH_HLEN);
  let ihl := Z.land b0 0x0F * 4 in
  let total_len := be_val (rd (ETH_HLEN + 2) 2 frame) in
  protocol ← lift (idx frame (ETH_HLEN + 9));
  if protocol =? IP_PROTO_ICMP then handle_icmp frame ETH_HLEN else
  if protocol =? IP_PROTO_TCP then handle_tcp frame ETH_HLEN ihl total_len else
  mret tt.

Definition dispatch (frame : list Z) : NM unit :=
  if len frame <? ETH_HLEN then mret tt else
  let ethertype := be_val (rd 12 2 frame) in
  if ethertype =? ET_ARP then handle_arp frame else
  if ethertype =? ET_IP then handle_ip frame else
  mret tt.

End Poll.

(** ** mod.rs *)

Fixpoint poll_fuel (fuel : nat) : NM unit :=
  match fuel with
  | O => panic
  | S fuel =>
      rx ← gets n_rx;
      match rx with
      | [] => mret tt
      | None :: rx => modify (set_n_rx rx)
      | Some frame :: rx =>
          modify (set_n_rx rx);;
          (if 14 <=? len frame then dispatch (poll_fuel fuel) frame else mret tt);;
          poll_fuel fuel
      end
  end.

Definition poll : NM unit := λ s, poll_fuel (S (length (n_rx s))) s.

Definition net_init (mac ip : list Z) (s : Net) : Net :=
  mkNet mac ip (n_arp s) (n_ip_id s) (n_conns s) (n_next_port s) (n_rx s) (n_tx s).

(** [for _ in 0..n { poll(); if CONNS[cid].state == 2 return }] *)
Fixpoint await_conn (n : nat) (cid : Z) : NM bool :=
  match n with
  | O => mret false
  | S n =>
      poll;;
      c ← conn_at cid;
      match c with
      | Some c => if tc_state c =? 2 then mret true else await_conn n cid
      | None => await_conn n cid
      end
  end.

Definition tcp_connect (dst_ip : list Z) (port : Z) : NM Z :=
  o ← alloc_conn;
  match o with
  | None => fail Busy
  | Some cid =>
      sport ← next_port;
      let c := mkTcpConn 1 sport dst_ip port (sport + 1) 0 (zeros BUF_SIZE) 0 (zeros BUF_SIZE) 0 0 in
      conn_set cid (Some c);;
      send_tcp_seg poll c 0x02 [];;
      ok ← await_conn (Z.to_nat 50000) cid;
      if ok : bool then mret cid else conn_set cid None;; fail Io
  end.

Definition tcp_send (cid : Z) (data : list Z) : NM Z :=
  o ← conn_at cid;
  match o with
  | None => fail Inval
  | Some c =>
      if negb (tc_state c =? 2) then fail Io else
      let n := Z.min (len data) (BUF_SIZE - tc_send_len c) in
      d ← lift (slice data 0 n);
      buf ← lift (put (tc_send_buf c) (tc_send_len c) (tc_send_len c + n) d);
      let c := with_send c buf (tc_send_len c + n) in
      conn_set cid (Some c);;
      send_tcp_seg poll c 0x18 d;;
      c ← conn_ref cid;
      conn_set cid (Some (with_seq c (tc_state c) (w32 (tc_snd_nxt c + n)) (tc_rcv_nxt c)));;
      mret n
  end.

(** The bytes stored in the caller's buffer of [n] bytes. *)
Definition tcp_recv (cid n : Z) : NM (list Z) :=
  o ← conn_at cid;
  match o with
  | None => fail Inval
  | Some c =>
      if tc_recv_len c =? 0 then fail NoEnt else
      let n := Z.min n (tc_recv_len c) in
      bs ← lift (ring_get (Z.to_nat n) (tc_recv_buf c) (tc_recv_head c));
      conn_set cid (Some (with_recv c (tc_recv_buf c) (tc_recv_len c - n) ((tc_recv_head c + n) mod BUF_SIZE)));;
      mret bs
  end.

Definition tcp_close (cid : Z) : NM unit :=
  o ← conn_at cid;
  match o with
  | Some c => if tc_state c =? 2 then send_tcp_seg poll c 0x11 [] else mret tt
  | None => mret tt
  end;;
  conn_set cid None.
