(* ===== verification/NetProps.v ===== *)
(** * Theorems on the network stack *)

From S2P Require Import Prelude Net.
From stdpp Require Import base list numbers.
From Stdlib Require Import ZArith Lia.

Open Scope Z_scope.

(** ** The internet checksum *)

(** The sum of the words, without wrap-around. *)
Fixpoint wsum (data : list Z) : Z :=
  match data with
  | a :: b :: data => a * 256 + b + wsum data
  | [a] => a * 256
  | [] => 0
  end.

(** Induction over pairs of elements. *)
Lemma pairs_ind (P : list Z → Prop) :
  P [] → (∀ a, P [a]) → (∀ a b l, P l → P (a :: b :: l)) → ∀ l, P l.
Proof.
  intros H0 H1 H2 l. assert (P l ∧ ∀ a, P (a :: l)) as [H _]; [|done].
  induction l as [|x l [IH1 IH2]]; [by split|]. split; [done|]. intros a. by apply H2.
Qed.

Lemma wsum_bound l : Forall u8 l → 0 ≤ wsum l ≤ 65535 * len l.
Proof.
  induction l as [|a|a b l IH] using pairs_ind; intros H; simpl.
  - unfold len. simpl. lia.
  - pose proof (Forall_inv H) as Ha. unfold u8, len in *. simpl. lia.
  - apply Forall_cons_1 in H as [Ha H]. apply Forall_cons_1 in H as [Hb H]. specialize (IH H).
    rewrite !len_cons. unfold u8 in *. pose proof (len_nonneg l). lia.
Qed.

Lemma sum_words_wsum l : ∀ acc, Forall u8 l → 0 ≤ acc → acc + wsum l < 4294967296 →
  sum_words l acc = acc + wsum l.
Proof.
  induction l as [|a|a b l IH] using pairs_ind; intros acc H Hacc Hlt; simpl in *.
  - lia.
  - pose proof (Forall_inv H) as Ha. unfold u8 in Ha. unfold w32. apply Z.mod_small. lia.
  - apply Forall_cons_1 in H as [Ha H]. apply Forall_cons_1 in H as [Hb H].
    pose proof (wsum_bound l H). unfold u8 in *. unfold w32. rewrite Z.mod_small by lia.
    rewrite IH by (done || lia). lia.
Qed.

Lemma wsum_app l1 l2 : Nat.even (length l1) = true → wsum (l1 ++ l2) = wsum l1 + wsum l2.
Proof. induction l1 as [|a|a b l IH] using pairs_ind; intros H; simpl in *; [done|done|]. rewrite IH by done. lia. Qed.

(** One round of folding keeps the value modulo [2^16 - 1]. *)
Lemma fold_once sum : 0 ≤ sum → Z.land sum 0xFFFF + Z.shiftr sum 16 = sum mod 65536 + sum / 65536.
Proof. intros H. change 0xFFFF with (Z.ones 16). rewrite Z.land_ones, Z.shiftr_div_pow2 by lia. done. Qed.

Lemma fold_sum_spec fuel sum : 0 < sum → sum < 4294967296 →
  (2 ≤ fuel)%nat → 0 < fold_sum fuel sum ≤ 65535 ∧ fold_sum fuel sum mod 65535 = sum mod 65535.
Proof.
  intros H0 H32 Hfuel. destruct fuel as [|[|fuel]]; [lia|lia|]. simpl.
  assert (∀ x, 0 < x < 4294967296 → (Z.shiftr x 16 =? 0) = true → 0 < x ≤ 65535) as Hstop.
  { intros x Hx E. rewrite Z.shiftr_div_pow2 in E by lia. apply Z.eqb_eq in E.
    change (2 ^ 16) with 65536 in E. Z.to_euclidean_division_equations. lia. }
  destruct (Z.shiftr sum 16 =? 0) eqn:E1; [split; [by apply Hstop|done]|].
  rewrite fold_once by lia. set (s1 := sum mod 65536 + sum / 65536).
  assert (0 < s1 ≤ 131070 ∧ s1 mod 65535 = sum mod 65535) as [Hs1 Hm1].
  { unfold s1. Z.to_euclidean_division_equations. lia. }
  destruct (Z.shiftr s1 16 =? 0) eqn:E2; [split; [apply Hstop; [lia|done]|done]|].
  rewrite fold_once by lia. set (s2 := s1 mod 65536 + s1 / 65536).
  assert (0 < s2 ≤ 65535 ∧ s2 mod 65535 = s1 mod 65535) as [Hs2 Hm2].
  { unfold s2. rewrite Z.shiftr_div_pow2 in E2 by lia. apply Z.eqb_neq in E2. change (2 ^ 16) with 65536 in E2.
    Z.to_euclidean_division_equations. lia. }
  assert (fold_sum fuel s2 = s2) as ->.
  { destruct fuel; simpl; rewrite Z.shiftr_div_pow2 by lia; change (2 ^ 16) with 65536;
      rewrite (Z.div_small s2) by lia; done. }
  split; [lia|]. by rewrite Hm2, Hm1.
Qed.

(** A sum together with its checksum folds to all ones. *)
Lemma complement_verifies sum : 0 < sum < 2147483648 →
  complement16 (fold_sum 3 (sum + complement16 (fold_sum 3 sum))) = 0.
Proof.
  intros H. destruct (fold_sum_spec 3 sum ltac:(lia) ltac:(lia) ltac:(lia)) as [Hf Hm]. set (f := fold_sum 3 sum) in *.
  assert (complement16 f = 65535 - f) as -> by (unfold complement16; rewrite Z.mod_small by lia; done).
  destruct (fold_sum_spec 3 (sum + (65535 - f)) ltac:(lia) ltac:(lia) ltac:(lia)) as [Hg Hgm]. set (g := fold_sum 3 (sum + (65535 - f))) in *.
  assert (g = 65535) as E; [|rewrite E; reflexivity].
  clearbody f g. Z.to_euclidean_division_equations. lia.
Qed.

Lemma complement16_u16 f : u16 (complement16 f).
Proof. unfold complement16, u16. pose proof (Z.mod_pos_bound f 65536 ltac:(lia)). lia. Qed.

Lemma be_bytes_u8 n z : Forall u8 (be_bytes n z).
Proof. apply Forall_reverse, le_bytes_u8. Qed.

Lemma len_be_bytes n z : length (be_bytes n z) = n.
Proof. unfold be_bytes. by rewrite length_reverse, length_le_bytes. Qed.

Lemma wsum_be16 z : u16 z → wsum (be_bytes 2 z) = z.
Proof.
  unfold u16. intros H. change (be_bytes 2 z) with [(z / 256) mod 256; z mod 256]. simpl.
  Z.to_euclidean_division_equations. lia.
Qed.

Section Packets.
Context (src dst : list Z) (Hsrc : length src = 4%nat) (Hdst : length dst = 4%nat)
  (Hsu : Forall u8 src) (Hdu : Forall u8 dst).

Lemma ip_header_sum total id protocol ck : u16 ck →
  wsum (ip_header total id protocol ck src dst) = wsum (ip_header total id protocol 0 src dst) + ck.
Proof.
  intros Hck. unfold ip_header.
  repeat (rewrite wsum_app by (rewrite ?len_be_bytes, ?Hsrc; done)).
  rewrite (wsum_be16 ck), (wsum_be16 0) by (done || (unfold u16; lia)). lia.
Qed.

Lemma ip_header_u8 total id protocol ck : u8 protocol → Forall u8 (ip_header total id protocol ck src dst).
Proof.
  intros Hp. unfold ip_header. repeat (apply Forall_app; split); try apply be_bytes_u8; try done;
    repeat (apply Forall_cons_2); try done; unfold u8; lia.
Qed.

Lemma len_ip_header total id protocol ck : len (ip_header total id protocol ck src dst) = 20.
Proof. unfold ip_header, len. rewrite !length_app, !len_be_bytes, Hsrc, Hdst. done. Qed.

(** The header of a packet passes the receiver's check. *)
Lemma ip_packet_verifies id protocol payload :
  u8 protocol → checksum (rd 0 IP_HLEN (ip_packet id protocol src dst payload)) = 0.
Proof.
  intros Hp. unfold ip_packet. set (total := IP_HLEN + len payload). set (ck := checksum (ip_header total id protocol 0 src dst)).
  assert (rd 0 IP_HLEN (ip_header total id protocol ck src dst ++ payload) = ip_header total id protocol ck src dst) as ->.
  { unfold rd, IP_HLEN. rewrite drop_0, take_app_le by (pose proof (len_ip_header total id protocol ck); unfold len in *; lia).
    apply take_ge. pose proof (len_ip_header total id protocol ck). unfold len in *. lia. }
  pose proof (wsum_bound _ (ip_header_u8 total id protocol 0 Hp)) as Hb. rewrite len_ip_header in Hb.
  assert (0 < wsum (ip_header total id protocol 0 src dst)) as Hpos.
  { unfold ip_header in *. rewrite wsum_app by done. change (wsum [0x45; 0]) with 17664.
    match goal with |- 0 < _ + wsum ?l => assert (Forall u8 l) as Hl end.
    { repeat (apply Forall_app; split); try apply be_bytes_u8; try done; repeat (apply Forall_cons_2); try done; unfold u8; lia. }
    apply wsum_bound in Hl. lia. }
  assert (u16 ck) as Hck by apply complement16_u16.
  unfold checksum at 1. rewrite sum_words_wsum; [|by apply ip_header_u8|lia|rewrite ip_header_sum by done; unfold u16 in Hck; lia].
  rewrite ip_header_sum, Z.add_0_l by done. unfold ck, checksum.
  rewrite sum_words_wsum; [|by apply ip_header_u8|lia|lia]. rewrite Z.add_0_l. apply complement_verifies. lia.
Qed.

Lemma tcp_header_sum c flags ck data : u16 ck →
  wsum (tcp_header c flags ck ++ data) = wsum (tcp_header c flags 0 ++ data) + ck.
Proof.
  intros Hck. unfold tcp_header.
  repeat (rewrite wsum_app by (rewrite ?length_app, ?len_be_bytes; done)).
  rewrite (wsum_be16 ck), (wsum_be16 0) by (done || (unfold u16; lia)). lia.
Qed.

Lemma tcp_header_u8 c flags ck : Forall u8 (tcp_header c flags ck).
Proof.
  unfold tcp_header. repeat (apply Forall_app; split); try apply be_bytes_u8;
    repeat (apply Forall_cons_2); try done; unfold u8; lia.
Qed.

Lemma len_tcp_header c flags ck : len (tcp_header c flags ck) = 20.
Proof. unfold tcp_header, len. rewrite !length_app, !len_be_bytes. done. Qed.

(** A segment passes the receiver's check, pseudo header included. *)
Lemma tcp_segment_verifies c flags data :
  tc_dst_ip c = dst → Forall u8 data → len data ≤ 2048 →
  tcp_checksum src dst (tcp_segment src c flags data) = 0.
Proof.
  intros Hc Hd Hl. unfold tcp_segment. set (ck := tcp_checksum src (tc_dst_ip c) (tcp_header c flags 0 ++ data)).
  assert (u16 ck) as Hck by apply complement16_u16. pose proof (len_nonneg data).
  pose proof (wsum_bound _ Hsu) as Hs4. pose proof (wsum_bound _ Hdu) as Hd4.
  assert (len src = 4 ∧ len dst = 4) as [L1 L2] by (unfold len; rewrite Hsrc, Hdst; done). rewrite L1 in Hs4. rewrite L2 in Hd4.
  assert (Forall u8 (tcp_header c flags 0 ++ data)) as Hu by (apply Forall_app; split; [apply tcp_header_u8|done]).
  pose proof (wsum_bound _ Hu) as Hb. rewrite len_app, len_tcp_header in Hb.
  assert (∀ k, 0 ≤ wsum src + wsum dst + 6 + (20 + len data) ∧
    tcp_checksum src dst (tcp_header c flags k ++ data) =
    complement16 (fold_sum 3 (sum_words (tcp_header c flags k ++ data) (wsum src + wsum dst + 6 + (20 + len data))))) as Hck'.
  { intros k. split; [lia|]. unfold tcp_checksum. rewrite (sum_words_wsum src), (sum_words_wsum dst) by (done || lia).
    rewrite len_app, len_tcp_header. unfold w32. rewrite (Z.mod_small (_ + 6)) by lia. rewrite Z.mod_small by lia. do 3 f_equal; lia. }
  rewrite (proj2 (Hck' ck)). rewrite sum_words_wsum; [|apply Forall_app; split; [apply tcp_header_u8|done]|lia|
    rewrite tcp_header_sum by done; unfold u16 in Hck; lia].
  rewrite tcp_header_sum by done. unfold ck. rewrite Hc, (proj2 (Hck' 0)). rewrite sum_words_wsum by (done || lia).
  rewrite Z.add_assoc. apply complement_verifies. lia.
Qed.
End Packets.

(** ** The receive ring *)

(** The bytes waiting in a connection, oldest first. *)
Definition ring_ok (c : TcpConn) : Prop :=
  len (tc_recv_buf c) = BUF_SIZE ∧ 0 ≤ tc_recv_len c ≤ BUF_SIZE ∧ 0 ≤ tc_recv_head c < BUF_SIZE.

Definition waiting (c : TcpConn) : list Z :=
  (λ k : nat, nth (Z.to_nat ((tc_recv_head c + Z.of_nat k) mod BUF_SIZE)) (tc_recv_buf c) 0)
    <$> seq 0 (Z.to_nat (tc_recv_len c)).

Lemma ring_get_spec n buf : ∀ head, len buf = BUF_SIZE → 0 ≤ head →
  ring_get n buf head =
  Ok ((λ k : nat, nth (Z.to_nat ((head + Z.of_nat k) mod BUF_SIZE)) buf 0) <$> seq 0 n).
Proof.
  induction n as [|n IH]; intros head Hl Hh; [done|]. cbn [ring_get].
  pose proof (Z.mod_pos_bound head BUF_SIZE ltac:(unfold BUF_SIZE; lia)) as Hm.
  destruct (idx_Some buf (head mod BUF_SIZE)) as [b Hb]; [lia|]. rewrite (idx_ok _ _ b) by (done || lia). rewrite bind_ok.
  rewrite IH by (done || lia). rewrite bind_ok. cbn [seq fmap list_fmap]. unfold mret. f_equal. f_equal.
  - rewrite Z.add_0_r. symmetry. by apply nth_lookup_Some.
  - rewrite <- seq_shift, <- list_fmap_compose. apply list_fmap_ext. intros i k _. simpl. do 3 f_equal. lia.
Qed.

Lemma ring_put_spec src : ∀ buf start, len buf = BUF_SIZE → 0 ≤ start → len src ≤ BUF_SIZE →
  ∃ buf', ring_put buf start src = Ok buf' ∧ len buf' = BUF_SIZE ∧
    (∀ k, 0 ≤ k < len src → nth (Z.to_nat ((start + k) mod BUF_SIZE)) buf' 0 = nth (Z.to_nat k) src 0) ∧
    (∀ i, 0 ≤ i < BUF_SIZE → (∀ k, 0 ≤ k < len src → (start + k) mod BUF_SIZE ≠ i) →
       nth (Z.to_nat i) buf' 0 = nth (Z.to_nat i) buf 0).
Proof.
  induction src as [|b src IH]; intros buf start Hl Hs Hn; cbn [ring_put].
  { exists buf. split_and!; [done..| |done]. unfold len. simpl. intros. lia. }
  rewrite len_cons in *. pose proof (len_nonneg src).
  pose proof (Z.mod_pos_bound start BUF_SIZE ltac:(unfold BUF_SIZE; lia)) as Hm.
  rewrite set_idx_ok by lia. rewrite bind_ok.
  destruct (IH (<[Z.to_nat (start mod BUF_SIZE) := b]> buf) (start + 1)) as (buf' & E & Hl' & Hin & Hout);
    [by rewrite len_insert|lia|lia|]. exists buf'. split_and!; [done..| |].
  - intros k Hk. destruct (decide (k = 0)) as [->|Hk0].
    + rewrite Z.add_0_r, Hout; [|lia|].
      * apply nth_lookup_Some. apply list_lookup_insert_eq. unfold len in *. lia.
      * intros j Hj E'. unfold BUF_SIZE in *. Z.to_euclidean_division_equations. lia.
    + replace (start + k) with (start + 1 + (k - 1)) by lia. rewrite Hin by lia.
      replace (Z.to_nat k) with (S (Z.to_nat (k - 1))) by lia. done.
  - intros i Hi Hne. rewrite Hout; [|done|].
    + rewrite !nth_lookup, list_lookup_insert_ne; [done|]. specialize (Hne 0). rewrite Z.add_0_r in Hne. lia.
    + intros k Hk. replace (start + 1 + k) with (start + (k + 1)) by lia. apply Hne. lia.
Qed.

Lemma len_waiting c : ring_ok c → len (waiting c) = tc_recv_len c.
Proof. intros (_ & H & _). unfold waiting, len. rewrite length_fmap, length_seq. lia. Qed.

Lemma nth_waiting c k : 0 ≤ k < tc_recv_len c →
  nth (Z.to_nat k) (waiting c) 0 = nth (Z.to_nat ((tc_recv_head c + k) mod BUF_SIZE)) (tc_recv_buf c) 0.
Proof.
  intros H. unfold waiting. apply nth_lookup_Some. rewrite list_lookup_fmap, lookup_seq_lt by lia. simpl.
  do 4 f_equal. lia.
Qed.

(** Lists are equal when they agree at every index. *)
Lemma list_nth_ext (l l' : list Z) :
  len l = len l' → (∀ k, 0 ≤ k < len l → nth (Z.to_nat k) l 0 = nth (Z.to_nat k) l' 0) → l = l'.
Proof.
  intros Hl H. apply list_eq_same_length with (length l); [unfold len in Hl; lia|done|].
  intros i x y Hi Hx Hy. specialize (H (Z.of_nat i) ltac:(unfold len; lia)). rewrite Nat2Z.id in H.
  rewrite (nth_lookup_Some _ _ 0 _ Hx), (nth_lookup_Some _ _ 0 _ Hy) in H. done.
Qed.

Lemma absorb_spec frame t c :
  ring_ok c → 0 ≤ ti_payload_start t → 0 ≤ ti_payload_len t → ti_payload_start t + ti_payload_len t ≤ len frame →
  let n := Z.min (ti_payload_len t) (BUF_SIZE - tc_recv_len c) in
  ∃ c', absorb frame t c = Ok c' ∧ ring_ok c' ∧ tc_rcv_nxt c' = w32 (tc_rcv_nxt c + n) ∧
    waiting c' = waiting c ++ rd (ti_payload_start t) n frame.
Proof.
  intros (Hl & Hn & Hh) Hs Hp Hf n. unfold absorb. fold n. rewrite slice_ok by lia. rewrite bind_ok.
  replace (ti_payload_start t + n - ti_payload_start t) with n by lia.
  set (src := rd (ti_payload_start t) n frame). assert (len src = n) as Hsl by (apply len_rd; lia).
  pose proof (Z.mod_pos_bound (tc_recv_head c + tc_recv_len c) BUF_SIZE ltac:(unfold BUF_SIZE; lia)).
  destruct (ring_put_spec src (tc_recv_buf c) ((tc_recv_head c + tc_recv_len c) mod BUF_SIZE))
    as (buf' & E & Hl' & Hin & Hout); [done|lia|lia|]. rewrite E, bind_ok.
  set (c' := with_seq _ _ _ _). exists c'. split; [reflexivity|].
  assert (ring_ok c') as Hok by (split_and!; simpl; lia).
  split; [exact Hok|]. split; [done|]. apply list_nth_ext.
  { rewrite (len_waiting _ Hok), len_app, len_waiting by done. simpl. lia. }
  intros k Hk. rewrite (len_waiting _ Hok) in Hk. simpl in Hk. rewrite nth_waiting by done. simpl.
  pose proof (len_waiting c (conj Hl (conj Hn Hh))) as Hlw.
  destruct (Z.lt_ge_cases k (tc_recv_len c)) as [Hlt|Hge].
  - rewrite app_nth1 by (unfold len in Hlw; lia). rewrite nth_waiting by lia. apply Hout.
    { apply Z.mod_pos_bound. unfold BUF_SIZE. lia. }
    intros j Hj. rewrite Zplus_mod_idemp_l. unfold BUF_SIZE in *. Z.to_euclidean_division_equations. lia.
  - rewrite app_nth2 by (unfold len in Hlw; lia).
    replace (Z.to_nat k - length (waiting c))%nat with (Z.to_nat (k - tc_recv_len c)) by (unfold len in Hlw; lia).
    rewrite <- (Hin (k - tc_recv_len c)) by lia. rewrite Zplus_mod_idemp_l. do 3 f_equal. lia.
Qed.

Lemma conn_at_ok s i c : n_conns s !! Z.to_nat i = Some c → 0 ≤ i → conn_at i s = (Ok c, s).
Proof. intros H Hi. unfold conn_at. by rewrite (idx_ok _ _ _ H). Qed.

Lemma conn_set_ok s i c c' : n_conns s !! Z.to_nat i = Some c → 0 ≤ i →
  conn_set i c' s = (Ok tt, set_n_conns (<[Z.to_nat i := c']> (n_conns s)) s).
Proof.
  intros H Hi. unfold conn_set. rewrite gets_bind. rewrite set_idx_ok by (apply lookup_lt_Some in H; unfold len; lia).
  by rewrite lift_bind.
Qed.

Lemma tcp_recv_spec s cid c n :
  n_conns s !! Z.to_nat cid = Some (Some c) → 0 ≤ cid → ring_ok c → 0 < tc_recv_len c → 0 ≤ n →
  ∃ c', tcp_recv cid n s =
      (Ok (take (Z.to_nat n) (waiting c)), set_n_conns (<[Z.to_nat cid := Some c']> (n_conns s)) s) ∧
    ring_ok c' ∧ waiting c' = drop (Z.to_nat n) (waiting c) ∧ tc_rcv_nxt c' = tc_rcv_nxt c.
Proof.
  intros Hc Hcid Hok Hpos Hn. pose proof Hok as (Hl & Hr & Hh). unfold tcp_recv.
  rewrite (sm_bind_ok _ _ _ _ _ (conn_at_ok _ _ _ Hc Hcid)).
  rewrite (proj2 (Z.eqb_neq _ 0)) by lia. set (m := Z.min n (tc_recv_len c)).
  rewrite ring_get_spec by lia. rewrite lift_bind. set (c' := with_recv c _ _ _). exists c'.
  rewrite (sm_bind_ok _ _ _ _ _ (conn_set_ok _ _ _ _ Hc Hcid)).
  pose proof (Z.mod_pos_bound (tc_recv_head c + m) BUF_SIZE ltac:(unfold BUF_SIZE; lia)).
  assert (ring_ok c') as Hok' by (split_and!; simpl; lia).
  pose proof (len_waiting c Hok) as Hlw. split; [|split; [exact Hok'|split; [|done]]].
  - unfold mret, SM_ret. f_equal. f_equal. unfold waiting. rewrite <- fmap_take, take_seq. do 2 f_equal. lia.
  - apply list_nth_ext.
    { rewrite (len_waiting _ Hok'). unfold len in *. rewrite length_drop. simpl. lia. }
    intros k Hk. rewrite (len_waiting _ Hok') in Hk. simpl in Hk. rewrite nth_waiting by done. simpl.
    rewrite nth_skipn.
    replace (Z.to_nat n + Z.to_nat k)%nat with (Z.to_nat (m + k)) by lia.
    rewrite nth_waiting by lia. rewrite Zplus_mod_idemp_l. do 3 f_equal. lia.
Qed.

(** ** Polling terminates *)

Definition rx_left (s : Net) : nat := length (n_rx s).

(** [m1] and [m2] agree on states with at most [M] answers left, and use answers up. *)
Definition agree {A} (M : nat) (m1 m2 : NM A) : Prop :=
  ∀ s, (rx_left s ≤ M)%nat → m1 s = m2 s ∧ (rx_left (m1 s).2 ≤ rx_left s)%nat.

Lemma agree_refl {A} M (m : NM A) : (∀ s, n_rx (m s).2 = n_rx s) → agree M m m.
Proof. intros H s _. unfold rx_left. by rewrite H. Qed.

Lemma agree_bind {A B} M (m1 m2 : NM A) (f1 f2 : A → NM B) :
  agree M m1 m2 → (∀ a, agree M (f1 a) (f2 a)) → agree M (m1 ≫= f1) (m2 ≫= f2).
Proof.
  intros Hm Hf s Hs. destruct (Hm s Hs) as [E Hle]. unfold mbind, SM_bind. rewrite <- E.
  destruct (m1 s) as [[a|e|] s']; simpl in *; [|done..].
  destruct (Hf a s' ltac:(lia)) as [E2 Hle2]. rewrite <- E2. split; [done|lia].
Qed.

Lemma agree_ret {A} M (a : A) : agree M (mret a) (mret a).
Proof. by apply agree_refl. Qed.
Lemma agree_fail {A} M e : agree M (fail e : NM A) (fail e).
Proof. by apply agree_refl. Qed.
Lemma agree_panic {A} M : agree M (panic : NM A) panic.
Proof. by apply agree_refl. Qed.
Lemma agree_lift {A} M (r : result A) : agree M (lift r) (lift r).
Proof. by apply agree_refl. Qed.
Lemma agree_gets {A} M (f : Net → A) : agree M (gets f) (gets f).
Proof. by apply agree_refl. Qed.
Lemma agree_modify M f : (∀ s, n_rx (f s) = n_rx s) → agree M (modify f) (modify f).
Proof. intros H. by apply agree_refl. Qed.
Lemma agree_dev_send M f : agree M (dev_send f) (dev_send f).
Proof. apply agree_refl. intros s. unfold dev_send. by destruct (_ || _). Qed.
Lemma agree_conn_at M i : agree M (conn_at i) (conn_at i).
Proof. by apply agree_refl. Qed.

Create HintDb agrees discriminated.
#[local] Hint Resolve agree_ret agree_fail agree_panic agree_lift agree_gets agree_dev_send agree_conn_at : agrees.
#[local] Hint Extern 2 (agree _ (modify _) (modify _)) => apply agree_modify; done : agrees.

Ltac agree_tac :=
  repeat (cbv beta zeta; first
    [ solve [auto 2 with agrees]
    | lazymatch goal with
      | |- agree _ (match ?x with _ => _ end) _ => destruct x
      | |- agree _ (_ ≫= _) (_ ≫= _) => apply agree_bind; [|intros ?]
      end ]).

Lemma agree_conn_set M i c : agree M (conn_set i c) (conn_set i c).
Proof. unfold conn_set. agree_tac. Qed.
Lemma agree_conn_ref M i : agree M (conn_ref i) (conn_ref i).
Proof. unfold conn_ref. agree_tac. Qed.
#[local] Hint Resolve agree_conn_set agree_conn_ref : agrees.
Lemma agree_send_frame M d t p : agree M (send_frame d t p) (send_frame d t p).
Proof. unfold send_frame. agree_tac. Qed.
Lemma agree_arp_request M ip : agree M (arp_request ip) (arp_request ip).
Proof. unfold arp_request. agree_tac. Qed.
Lemma agree_handle_arp M f : agree M (handle_arp f) (handle_arp f).
Proof. unfold handle_arp, arp_insert. agree_tac. Qed.
Lemma agree_handle_icmp M f st : agree M (handle_icmp f st) (handle_icmp f st).
Proof. unfold handle_icmp, send_frame. agree_tac. Qed.
#[local] Hint Resolve agree_send_frame agree_arp_request agree_handle_arp agree_handle_icmp : agrees.

Section AgreePoll.
Context (M : nat) (p1 p2 : NM unit) (Hp : agree M p1 p2).
#[local] Hint Resolve Hp : agrees.

Lemma agree_await_arp n ip : agree M (await_arp p1 n ip) (await_arp p2 n ip).
Proof. induction n as [|n IH]; simpl; unfold arp_lookup; agree_tac; auto. Qed.
#[local] Hint Resolve agree_await_arp : agrees.
Lemma agree_send_packet ip pr pl : agree M (send_packet p1 ip pr pl) (send_packet p2 ip pr pl).
Proof. unfold send_packet, arp_lookup. agree_tac. Qed.
Lemma agree_send_quietly ip pr pl : agree M (send_quietly p1 ip pr pl) (send_quietly p2 ip pr pl).
Proof.
  intros s Hs. unfold send_quietly. destruct (agree_send_packet ip pr pl s Hs) as [E Hle]. rewrite <- E.
  by destruct (send_packet p1 ip pr pl s) as [[] ?].
Qed.
#[local] Hint Resolve agree_send_quietly : agrees.
Lemma agree_send_tcp c f d : agree M (send_tcp_seg p1 c f d) (send_tcp_seg p2 c f d).
Proof. unfold send_tcp_seg. agree_tac. Qed.
#[local] Hint Resolve agree_send_tcp : agrees.
Lemma agree_accept f t i c : agree M (accept_data p1 f t i c) (accept_data p2 f t i c).
Proof. unfold accept_data. agree_tac. Qed.
#[local] Hint Resolve agree_accept : agrees.
Lemma agree_tcp_step f t i c : agree M (tcp_step p1 f t i c) (tcp_step p2 f t i c).
Proof. unfold tcp_step. agree_tac. Qed.
#[local] Hint Resolve agree_tcp_step : agrees.
Lemma agree_tcp_loop n i f t : agree M (tcp_loop p1 n i f t) (tcp_loop p2 n i f t).
Proof. revert i. induction n as [|n IH]; intros i; simpl; agree_tac; auto. Qed.
#[local] Hint Resolve agree_tcp_loop : agrees.
Lemma agree_dispatch f : agree M (dispatch p1 f) (dispatch p2 f).
Proof. unfold dispatch, handle_ip, handle_tcp. agree_tac. Qed.
End AgreePoll.

Lemma poll_agree M : ∀ f1 f2, (M < f1)%nat → (M < f2)%nat → agree M (poll_fuel f1) (poll_fuel f2).
Proof.
  induction M as [M IH] using lt_wf_ind; intros [|f1] [|f2] H1 H2 s Hs; try lia.
  cbn [poll_fuel]. rewrite !gets_bind. unfold rx_left in Hs.
  destruct (n_rx s) as [|[frame|] rx] eqn:Erx; simpl in Hs; [done| |].
  2: { split; [done|]. simpl. unfold rx_left. rewrite Erx. simpl. lia. }
  rewrite !modify_bind. assert (rx_left (set_n_rx rx s) = length rx) as Hl by done.
  assert (agree (length rx) (poll_fuel f1) (poll_fuel f2)) as Hrec by (apply IH; lia).
  assert (agree (length rx)
    ((if 14 <=? len frame then dispatch (poll_fuel f1) frame else mret tt);; poll_fuel f1)
    ((if 14 <=? len frame then dispatch (poll_fuel f2) frame else mret tt);; poll_fuel f2)) as Hb.
  { apply agree_bind; [|done]. destruct (_ <=? _); [by apply agree_dispatch|apply agree_ret]. }
  destruct (Hb (set_n_rx rx s) ltac:(lia)) as [E Hle]. split; [exact E|].
  unfold rx_left in *. rewrite Erx. simpl in *. lia.
Qed.

Lemma poll_is_fuel f s : (rx_left s < f)%nat → poll s = poll_fuel f s.
Proof. intros H. exact (proj1 (poll_agree (rx_left s) (S (rx_left s)) f ltac:(lia) H s ltac:(lia))). Qed.

Lemma agree_poll M f : (M < f)%nat → agree M poll (poll_fuel f).
Proof.
  intros H s Hs. rewrite (poll_is_fuel f s) by lia. split; [done|].
  exact (proj2 (poll_agree M f f H H s Hs)).
Qed.

Module NetTheorems.

(** The fuel of [poll] is enough: although handling a frame may send packets, which may
    poll again for an ARP answer, the bounded recursion of the model is the recursion of
    the source, in which every nested call is [poll] itself. *)
Lemma poll_unfold s :
  poll s =
  (rx ← gets n_rx;
   match rx with
   | [] => mret tt
   | None :: rx => modify (set_n_rx rx)
   | Some frame :: rx =>
       modify (set_n_rx rx);;
       (if 14 <=? len frame then dispatch poll frame else mret tt);;
       poll
   end) s.
Proof.
  unfold poll at 1. cbn [poll_fuel]. rewrite !gets_bind.
  destruct (n_rx s) as [|[frame|] rx] eqn:Erx; [done| |done]. rewrite !modify_bind.
  symmetry. assert (agree (length rx)
    ((if 14 <=? len frame then dispatch poll frame else mret tt);; poll)
    ((if 14 <=? len frame then dispatch (poll_fuel (length (Some frame :: rx))) frame else mret tt);;
     poll_fuel (length (Some frame :: rx)))) as H.
  { apply agree_bind; [|intros _; apply agree_poll; simpl; lia].
    destruct (_ <=? _); [apply agree_dispatch, agree_poll; simpl; lia|apply agree_ret]. }
  by apply H.
Qed.

Definition seq_bytes (n : nat) : list Z := Z.of_nat <$> seq 0 n.
Definition demo_conn : TcpConn := mkTcpConn 2 40000 [10; 0; 2; 2] 80 7 100 (zeros 2048) 0 (zeros 2048) 0 2040.
Definition demo_net : Net :=
  mkNet [2; 0; 0; 0; 0; 1] [10; 0; 2; 15] [([10; 0; 2; 2], [2; 0; 0; 0; 0; 2])] 0
    (Some demo_conn :: replicate 7 None) 40001 [] [].

(** What the stack sends passes the receiver's checks: the checksum of the header
    of every IP packet it builds is 0, and so is that of every TCP segment together
    with its pseudo header. *)
Theorem checksums_verify src dst id protocol payload c flags data :
  length src = 4%nat → length dst = 4%nat → Forall u8 src → Forall u8 dst → u8 protocol →
  tc_dst_ip c = dst → Forall u8 data → len data ≤ 2048 →
  checksum (rd 0 IP_HLEN (ip_packet id protocol src dst payload)) = 0 ∧
  tcp_checksum src dst (tcp_segment src c flags data) = 0.
Proof.
  intros. split; [by apply ip_packet_verifies|by apply tcp_segment_verifies].
Qed.

Lemma checksums_verify_witness :
  tcp_checksum [10; 0; 2; 15] [10; 0; 2; 2] (tcp_segment [10; 0; 2; 15] demo_conn 0x18 [104; 105; 33]) = 0.
Proof.
  apply (checksums_verify [10; 0; 2; 15] [10; 0; 2; 2] 1 6 [] demo_conn 0x18 [104; 105; 33]);
    try reflexivity; try (repeat constructor; unfold u8; lia); unfold u8, len; simpl; lia.
Defined.

(** C35. The receive buffer of a connection is a queue of at most 2048 bytes: in-order
    data is appended to what waits (what does not fit is cut off, and the next
    sequence number advances by what was kept), and [tcp_recv] hands out the
    oldest bytes first, once each, also across the end of the ring. *)
Theorem tcp_stream_order frame t s cid c n :
  n_conns s !! Z.to_nat cid = Some (Some c) → 0 ≤ cid → ring_ok c →
  0 ≤ ti_payload_start t → 0 ≤ ti_payload_len t → ti_payload_start t + ti_payload_len t ≤ len frame →
  (let k := Z.min (ti_payload_len t) (BUF_SIZE - tc_recv_len c) in
   ∃ c', absorb frame t c = Ok c' ∧ ring_ok c' ∧ tc_rcv_nxt c' = w32 (tc_rcv_nxt c + k) ∧
     waiting c' = waiting c ++ rd (ti_payload_start t) k frame) ∧
  (0 < tc_recv_len c → 0 ≤ n →
   ∃ c', tcp_recv cid n s =
       (Ok (take (Z.to_nat n) (waiting c)), set_n_conns (<[Z.to_nat cid := Some c']> (n_conns s)) s) ∧
     ring_ok c' ∧ waiting c' = drop (Z.to_nat n) (waiting c) ∧ tc_rcv_nxt c' = tc_rcv_nxt c).
Proof.
  intros Hc Hcid Hok H1 H2 H3. split; [by apply absorb_spec|]. intros. by apply tcp_recv_spec.
Qed.

Lemma tcp_stream_order_witness :
  ∃ c', absorb (seq_bytes 20) (mkTcpIn 40000 100 0 0x18 10 10) demo_conn = Ok c' ∧
    waiting c' = [10; 11; 12; 13; 14; 15; 16; 17; 18; 19] ∧ tc_rcv_nxt c' = 110.
Proof.
  destruct (tcp_stream_order (seq_bytes 20) (mkTcpIn 40000 100 0 0x18 10 10) demo_net 0 demo_conn 0)
    as [(c' & E & _ & Hr & Hw) _]; [reflexivity|lia|split_and!; vm_compute; done|simpl; lia|simpl; lia|vm_compute; done|].
  exists c'. split; [exact E|]. rewrite Hw, Hr. split; reflexivity.
Defined.

(** A ping takes the machine down: whatever else it holds, an Ethernet frame with
    an ICMP echo request makes the kernel panic, because the reply buffer is 20
    bytes longer than the part of the frame copied into it. *)
Theorem ping_panics p frame s :
  42 ≤ len frame → be_val (rd 12 2 frame) = ET_IP → nth 23 frame 0 = IP_PROTO_ICMP → nth 34 frame 0 = 8 →
  (dispatch p frame s).1 = Panic.
Proof.
  intros Hlen Hty Hproto Hecho. pose proof (λ i, idx_nth frame i 0) as Hidx.
  unfold dispatch. unfold ETH_HLEN. rewrite (proj2 (Z.ltb_ge (len frame) 14)) by lia. rewrite Hty. cbv zeta.
  change (ET_IP =? ET_ARP) with false. change (ET_IP =? ET_IP) with true. cbv iota.
  unfold handle_ip, ETH_HLEN, IP_HLEN. rewrite (proj2 (Z.ltb_ge (len frame) (14 + 20))) by lia.
  rewrite (Hidx 14), lift_bind by lia. cbv beta zeta. rewrite (Hidx (14 + 9)), lift_bind by lia. change (Z.to_nat (14 + 9)) with 23%nat.
  rewrite Hproto. change (IP_PROTO_ICMP =? IP_PROTO_ICMP) with true. cbv iota.
  unfold handle_icmp, IP_HLEN. cbv zeta. rewrite (proj2 (Z.ltb_ge (len frame) (14 + 20 + 8))) by lia.
  rewrite (Hidx (14 + 20)), lift_bind by lia. change (Z.to_nat (14 + 20)) with 34%nat. rewrite Hecho. simpl negb. cbv iota.
  rewrite len_zeros by lia. rewrite (proj2 (Z.ltb_lt 4 (len frame - 14))) by lia. rewrite slice_ok by lia. rewrite bind_ok.
  unfold put. rewrite len_zeros, len_rd by lia.
  rewrite (proj2 (Z.eqb_neq (len frame - (14 + 20 + 4)) (len frame - 14 - 4))) by lia. by rewrite andb_false_r.
Qed.

Definition ping_frame : list Z :=
  replicate 12 0 ++ [8; 0] ++ [0x45; 0; 0; 28; 0; 0; 0; 0; 64; 1; 0; 0; 10; 0; 2; 2; 10; 0; 2; 15] ++ [8; 0; 0; 0; 0; 1; 0; 1].

Lemma ping_panics_witness : (dispatch poll ping_frame demo_net).1 = Panic.
Proof. apply ping_panics; vm_compute; done. Defined.

(** A connection sends 2048 bytes in its life: the send buffer is never emptied. *)
Lemma tcp_send_exhausted s cid c data :
  n_conns s !! Z.to_nat cid = Some (Some c) → 0 ≤ cid → tc_state c = 2 → tc_send_len c = BUF_SIZE →
  len (tc_send_buf c) = BUF_SIZE → n_rx s = [] → is_Some (arp_find (n_arp s) (tc_dst_ip c)) →
  (tcp_send cid data s).1 = Ok 0.
Proof.
  intros Hc Hcid Hst Hsl Hb Hrx [mac Harp]. unfold tcp_send. rewrite (sm_bind_ok _ _ _ _ _ (conn_at_ok _ _ _ Hc Hcid)).
  rewrite Hst, Hsl. cbv zeta. replace (Z.min (len data) (BUF_SIZE - BUF_SIZE)) with 0 by (pose proof (len_nonneg data); lia).
  pose proof (len_nonneg data). change (negb (2 =? 2)) with false. cbv iota. rewrite slice_ok by lia. rewrite lift_bind.
  replace (rd 0 (0 - 0) data) with (@nil Z) by done. rewrite put_ok by (unfold len in *; simpl; lia). rewrite lift_bind.
  rewrite (sm_bind_ok _ _ _ _ _ (conn_set_ok _ _ _ _ Hc Hcid)). cbv beta.
  match goal with |- ((?m ≫= _) ?s1).1 = _ =>
    assert (∃ s2, m s1 = (Ok tt, s2) ∧ n_conns s2 = n_conns s1) as (s2 & E2 & Hc2) end.
  { unfold send_tcp_seg. setoid_rewrite gets_bind. unfold send_quietly, send_packet, arp_lookup.
    cbn [id tc_dst_ip with_send]. setoid_rewrite gets_bind. cbn [n_arp set_n_conns]. rewrite Harp.
    setoid_rewrite (sm_bind_ok (mret _) _ _ _ _ eq_refl). setoid_rewrite gets_bind. setoid_rewrite modify_bind.
    unfold send_frame. setoid_rewrite gets_bind. unfold dev_send. destruct (_ || _); eexists; split; reflexivity. }
  rewrite (sm_bind_ok _ _ _ _ _ E2). unfold conn_ref.
  assert (n_conns s2 !! Z.to_nat cid = Some (Some (with_send c (wr BUF_SIZE [] (tc_send_buf c)) (BUF_SIZE + 0)))) as Hc3.
  { rewrite Hc2. simpl. apply list_lookup_insert_eq. by apply lookup_lt_Some in Hc. }
  erewrite sm_bind_ok by (erewrite sm_bind_ok by (by apply conn_at_ok); reflexivity).
  erewrite sm_bind_ok by (by eapply conn_set_ok). done.
Qed.

End NetTheorems.
