(* ===== verification/Machine.v ===== *)
(** * The machine: the kernel's components put together

    Every component keeps its globals in a record of its own; a [Machine] holds
    one of each.  The page allocator is shared by the page tables and the heap,
    and the disk by the two file systems: the copy of [m_vm] and of [m_fs] is the
    real one, [on_heap] and [on_fat] pass it to the component and take it back.
    Physical memory is the pages of [m_vm] (page tables and the pages given to
    processes) and [hp_mem] elsewhere.  A trap keeps the page table of the
    interrupted process, so a user pointer is read through it.  [m_hart] is what
    [hart_id] finds in [tp]; the code that enters a trap does not set that register,
    so it is the [tp] of the interrupted process ([Asm.v]).  [m_tf] is the
    frame that [tf] refers to; [m_proc_size] is [size_of::<Proc>()]; [m_uart_in]
    lists what the polls of the serial port answer, [m_tick_polls] what those of
    the tick counter do. *)

From S2P Require Import Prelude Formats Vnode Process Sched Ipc Pmm Vmm Heap Onyxfs Fat32 Net.
From stdpp Require Import base list numbers gmap.
From Stdlib Require Import ZArith Lia.

Open Scope Z_scope.

(** fs/vfs/mount.rs and fs/vfs/dir.rs *)
Record MountEntry := mkMountEntry { me_path : list Z; me_fs : Fs }.
Record DirCursor := mkDirCursor { dc_ino : Z; dc_idx : Z; dc_active : bool; dc_fs : Fs }.

Record Machine := mkMachine {
  m_hart : Z;
  m_proc_size : Z;
  m_ipc : Ipc;
  m_vm : Vm;
  m_heap : Heap;
  m_fs : Onyfs;
  m_fat : Fat;
  m_kfds : list VfsFd;
  m_mounts : list MountEntry;
  m_root_fs : Fs;
  m_dir : DirCursor;
  m_procbuf : list Z;
  m_upticks : Z;
  m_online : Z;
  m_uart_in : list (option Z);
  m_uart_out : list Z;
  m_tf : TrapFrame;
  m_net : Net;
  m_tick_polls : list Z }.

Definition set_m_ipc (v : Ipc) (s : Machine) : Machine :=
  mkMachine
    (m_hart s) (m_proc_size s) v (m_vm s) (m_heap s) (m_fs s) (m_fat s) (m_kfds s) (m_mounts
    s) (m_root_fs s) (m_dir s) (m_procbuf s) (m_upticks s) (m_online s) (m_uart_in s)
    (m_uart_out s) (m_tf s) (m_net s) (m_tick_polls s).

Definition set_m_vm (v : Vm) (s : Machine) : Machine :=
  mkMachine
    (m_hart s) (m_proc_size s) (m_ipc s) v (m_heap s) (m_fs s) (m_fat s) (m_kfds s)
    (m_mounts s) (m_root_fs s) (m_dir s) (m_procbuf s) (m_upticks s) (m_online s) (m_uart_in
    s) (m_uart_out s) (m_tf s) (m_net s) (m_tick_polls s).

Definition set_m_heap (v : Heap) (s : Machine) : Machine :=
  mkMachine
    (m_hart s) (m_proc_size s) (m_ipc s) (m_vm s) v (m_fs s) (m_fat s) (m_kfds s) (m_mounts
    s) (m_root_fs s) (m_dir s) (m_procbuf s) (m_upticks s) (m_online s) (m_uart_in s)
    (m_uart_out s) (m_tf s) (m_net s) (m_tick_polls s).

Definition set_m_fs (v : Onyfs) (s : Machine) : Machine :=
  mkMachine
    (m_hart s) (m_proc_size s) (m_ipc s) (m_vm s) (m_heap s) v (m_fat s) (m_kfds s)
    (m_mounts s) (m_root_fs s) (m_dir s) (m_procbuf s) (m_upticks s) (m_online s) (m_uart_in
    s) (m_uart_out s) (m_tf s) (m_net s) (m_tick_polls s).

Definition set_m_fat (v : Fat) (s : Machine) : Machine :=
  mkMachine
    (m_hart s) (m_proc_size s) (m_ipc s) (m_vm s) (m_heap s) (m_fs s) v (m_kfds s) (m_mounts
    s) (m_root_fs s) (m_dir s) (m_procbuf s) (m_upticks s) (m_online s) (m_uart_in s)
    (m_uart_out s) (m_tf s) (m_net s) (m_tick_polls s).

Definition set_m_kfds (v : list VfsFd) (s : Machine) : Machine :=
  mkMachine
    (m_hart s) (m_proc_size s) (m_ipc s) (m_vm s) (m_heap s) (m_fs s) (m_fat s) v (m_mounts
    s) (m_root_fs s) (m_dir s) (m_procbuf s) (m_upticks s) (m_online s) (m_uart_in s)
    (m_uart_out s) (m_tf s) (m_net s) (m_tick_polls s).

Definition set_m_mounts (v : list MountEntry) (s : Machine) : Machine :=
  mkMachine
    (m_hart s) (m_proc_size s) (m_ipc s) (m_vm s) (m_heap s) (m_fs s) (m_fat s) (m_kfds s) v
    (m_root_fs s) (m_dir s) (m_procbuf s) (m_upticks s) (m_online s) (m_uart_in s)
    (m_uart_out s) (m_tf s) (m_net s) (m_tick_polls s).

Definition set_m_root_fs (v : Fs) (s : Machine) : Machine :=
  mkMachine
    (m_hart s) (m_proc_size s) (m_ipc s) (m_vm s) (m_heap s) (m_fs s) (m_fat s) (m_kfds s)
    (m_mounts s) v (m_dir s) (m_procbuf s) (m_upticks s) (m_online s) (m_uart_in s)
    (m_uart_out s) (m_tf s) (m_net s) (m_tick_polls s).

Definition set_m_dir (v : DirCursor) (s : Machine) : Machine :=
  mkMachine
    (m_hart s) (m_proc_size s) (m_ipc s) (m_vm s) (m_heap s) (m_fs s) (m_fat s) (m_kfds s)
    (m_mounts s) (m_root_fs s) v (m_procbuf s) (m_upticks s) (m_online s) (m_uart_in s)
    (m_uart_out s) (m_tf s) (m_net s) (m_tick_polls s).

Definition set_m_procbuf (v : list Z) (s : Machine) : Machine :=
  mkMachine
    (m_hart s) (m_proc_size s) (m_ipc s) (m_vm s) (m_heap s) (m_fs s) (m_fat s) (m_kfds s)
    (m_mounts s) (m_root_fs s) (m_dir s) v (m_upticks s) (m_online s) (m_uart_in s)
    (m_uart_out s) (m_tf s) (m_net s) (m_tick_polls s).

Definition set_m_upticks (v : Z) (s : Machine) : Machine :=
  mkMachine
    (m_hart s) (m_proc_size s) (m_ipc s) (m_vm s) (m_heap s) (m_fs s) (m_fat s) (m_kfds s)
    (m_mounts s) (m_root_fs s) (m_dir s) (m_procbuf s) v (m_online s) (m_uart_in s)
    (m_uart_out s) (m_tf s) (m_net s) (m_tick_polls s).

Definition set_m_online (v : Z) (s : Machine) : Machine :=
  mkMachine
    (m_hart s) (m_proc_size s) (m_ipc s) (m_vm s) (m_heap s) (m_fs s) (m_fat s) (m_kfds s)
    (m_mounts s) (m_root_fs s) (m_dir s) (m_procbuf s) (m_upticks s) v (m_uart_in s)
    (m_uart_out s) (m_tf s) (m_net s) (m_tick_polls s).

Definition set_m_uart_in (v : list (option Z)) (s : Machine) : Machine :=
  mkMachine
    (m_hart s) (m_proc_size s) (m_ipc s) (m_vm s) (m_heap s) (m_fs s) (m_fat s) (m_kfds s)
    (m_mounts s) (m_root_fs s) (m_dir s) (m_procbuf s) (m_upticks s) (m_online s) v
    (m_uart_out s) (m_tf s) (m_net s) (m_tick_polls s).

Definition set_m_uart_out (v : list Z) (s : Machine) : Machine :=
  mkMachine
    (m_hart s) (m_proc_size s) (m_ipc s) (m_vm s) (m_heap s) (m_fs s) (m_fat s) (m_kfds s)
    (m_mounts s) (m_root_fs s) (m_dir s) (m_procbuf s) (m_upticks s) (m_online s) (m_uart_in
    s) v (m_tf s) (m_net s) (m_tick_polls s).

Definition set_m_tf (v : TrapFrame) (s : Machine) : Machine :=
  mkMachine
    (m_hart s) (m_proc_size s) (m_ipc s) (m_vm s) (m_heap s) (m_fs s) (m_fat s) (m_kfds s)
    (m_mounts s) (m_root_fs s) (m_dir s) (m_procbuf s) (m_upticks s) (m_online s) (m_uart_in
    s) (m_uart_out s) v (m_net s) (m_tick_polls s).

Definition set_m_net (v : Net) (s : Machine) : Machine :=
  mkMachine
    (m_hart s) (m_proc_size s) (m_ipc s) (m_vm s) (m_heap s) (m_fs s) (m_fat s) (m_kfds s)
    (m_mounts s) (m_root_fs s) (m_dir s) (m_procbuf s) (m_upticks s) (m_online s) (m_uart_in
    s) (m_uart_out s) (m_tf s) v (m_tick_polls s).

Definition set_m_tick_polls (v : list Z) (s : Machine) : Machine :=
  mkMachine
    (m_hart s) (m_proc_size s) (m_ipc s) (m_vm s) (m_heap s) (m_fs s) (m_fat s) (m_kfds s)
    (m_mounts s) (m_root_fs s) (m_dir s) (m_procbuf s) (m_upticks s) (m_online s) (m_uart_in
    s) (m_uart_out s) (m_tf s) (m_net s) v.

Abbreviation MM := (SM Machine).

(** ** Components *)

Definition on_ipc {A} (m : IM A) : MM A := λ s,
  let '(r, i) := m (m_ipc s) in (r, set_m_ipc i s).
Definition on_k {A} (m : KM A) : MM A := on_ipc (onk m).
Definition on_vm {A} (m : VM A) : MM A := λ s,
  let '(r, v) := m (m_vm s) in (r, set_m_vm v s).
Definition on_heap {A} (m : HM A) : MM A := λ s,
  let '(r, h) := m (set_hp_pmm (vm_pmm (m_vm s)) (m_heap s)) in
  (r, set_m_heap h (set_m_vm (mkVm (hp_pmm h) (vm_tabs (m_vm s))) s)).
Definition on_fs {A} (m : FM A) : MM A := λ s,
  let '(r, f) := m (m_fs s) in (r, set_m_fs f s).

Definition set_fat_disk (d : gmap (Z * Z) (list Z)) (s : Fat) : Fat :=
  mkFat (fat_dev s) (fat_spc s) (fat_resvd s) (fat_fat_sz s) (fat_root_cluster s) (fat_data_lba s) (fat_sec s) d.
Definition on_fat {A} (m : TM A) : MM A := λ s,
  let '(r, f) := m (set_fat_disk (fs_disk (m_fs s)) (m_fat s)) in (r, set_m_fat f s).

Definition on_net {A} (m : NM A) : MM A := λ s,
  let '(r, n) := m (m_net s) in (r, set_m_net n s).

(** The register [tp], whoever wrote it *)
Definition hart_id : MM Z := gets m_hart.
Definition kernel (s : Machine) : Kernel := ipc_k (m_ipc s).

(** [match m { Ok(x) => ok(x), Err(e) => err(e) }] *)
Definition catch {A B} (m : MM A) (ok : A → MM B) (err : Errno → MM B) : MM B := λ s,
  match m s with
  | (Ok a, s) => ok a s
  | (Err e, s) => err e s
  | (Panic, s) => (Panic, s)
  end.

(** [let _ = m;] *)
Definition ignore {A} (m : MM A) : MM unit := catch m (λ _, mret tt) (λ _, mret tt).

(** [match m { Ok(x) => x as i64, Err(e) => e.as_i64() }] *)
Definition to_ret (m : MM Z) : MM Z := catch m mret (λ e, mret (as_i64 e)).
Definition to_ret0 (m : MM unit) : MM Z := catch m (λ _, mret 0) (λ e, mret (as_i64 e)).

(** ** The current process *)

Definition cur_pid : MM Z := h ← hart_id; on_k (current_pid h).
Definition cur_ring : MM Z := h ← hart_id; on_k (current_ring h).
(** [proc::current()], and its fields through the reference. *)
Definition cur_ptr : MM Z := h ← hart_id; on_k (current_ptr h).
Definition current : MM Proc := p ← cur_ptr; on_k (deref p).
Definition upd_current (f : Proc → Proc) : MM unit := p ← cur_ptr; on_k (update p f).

(** ** Physical memory *)

Definition page_of (a : Z) : Z := a - a mod 4096.

(** The byte at a physical address: part of a word of a page, or of [hp_mem]. *)
Definition peek (s : Machine) (a : Z) : Z :=
  match vm_tabs (m_vm s) !! page_of a with
  | Some ws => nth (Z.to_nat (a mod 8)) (le_bytes 8 (nth (Z.to_nat (a mod 4096 / 8)) ws 0)) 0
  | None => hp_mem (m_heap s) a
  end.

Definition poke_word (a b w : Z) : Z := le_val (<[Z.to_nat (a mod 8) := b]> (le_bytes 8 w)).

Definition set_hp_mem (f : Z → Z) (h : Heap) : Heap :=
  mkHeap (hp_pmm h) (hp_used h) (hp_free_list h) (hp_blocks h) f.

Definition poke (a b : Z) (s : Machine) : Machine :=
  match vm_tabs (m_vm s) !! page_of a with
  | Some ws =>
      let i := Z.to_nat (a mod 4096 / 8) in
      set_m_vm (mkVm (vm_pmm (m_vm s))
        (<[page_of a := <[i := poke_word a b (nth i ws 0)]> ws]> (vm_tabs (m_vm s)))) s
  | None => set_m_heap (set_hp_mem (λ x, if x =? a then b else hp_mem (m_heap s) x) (m_heap s)) s
  end.

Fixpoint peeks (n : nat) (a : Z) (s : Machine) : list Z :=
  match n with O => [] | S n => peek s a :: peeks n (a + 1) s end.

Fixpoint pokes (a : Z) (bs : list Z) (s : Machine) : Machine :=
  match bs with [] => s | b :: bs => pokes (a + 1) bs (poke a b s) end.

(** The kernel keeps its own data in the same memory: the process records and the
    headers of the heap, the pages of the slabs, and, outside the pages that the
    page allocator hands out, its image with the static data and the registers of
    the devices.  The model holds these apart, as records. *)
Definition overlaps (a n b m : Z) : bool := (a <? b + m) && (b <? a + n).

Definition kernel_owned (s : Machine) (a n : Z) : bool :=
  let pmm := vm_pmm (m_vm s) in
  (a <? pm_base pmm) || (pm_base pmm + pm_total_pages pmm * 4096 <? a + n)
  || existsb (λ e, overlaps a n e.1 (m_proc_size s)) (map_to_list (g_procs (kernel s)))
  || existsb (λ e, overlaps a n e.1 BLOCK_HDR) (map_to_list (hp_blocks (m_heap s)))
  || existsb (λ e, overlaps a n e.1 4096) (map_to_list (pm_slabs pmm)).

(** A load or a store at the translation of a user pointer.  Nothing in the source
    keeps it out of the kernel's data: where [translate] ignores the U bit, or the
    bytes run on into the next physical page, it gets there.  What the kernel does
    after that is not modelled: it is [Panic], as every undefined outcome. *)
Definition store_bytes (pa : Z) (bs : list Z) : MM unit := λ s,
  if kernel_owned s pa (len bs) then (Panic, s) else (Ok tt, pokes pa bs s).
Definition load_bytes (n : nat) (pa : Z) : MM (list Z) := λ s,
  if kernel_owned s pa (Z.of_nat n) then (Panic, s) else (Ok (peeks n pa s), s).

(** [*(pa as *mut u64) = v], and for four and two bytes *)
Definition store_pa (n : nat) (pa v : Z) : MM unit := store_bytes pa (le_bytes n v).
Definition load_pa (n : nat) (pa : Z) : MM Z := bs ← load_bytes n pa; mret (le_val bs).

(** ** User pointers *)

(** [vmm::translate(proc::current().root_pa, va)] *)
Definition translate_cur (va : Z) : MM Z := p ← current; on_vm (translate (p_root_pa p) va).

(** The bytes at a user pointer; an address without a translation faults in
    the kernel, which halts. *)
Fixpoint uread (n : nat) (va : Z) : MM (list Z) :=
  match n with
  | O => mret []
  | S n =>
      pa ← translate_cur va;
      if pa =? 0 then panic else
      b ← load_bytes 1 pa;
      bs ← uread n (va + 1);
      mret (b ++ bs)
  end.

Fixpoint uwrite (va : Z) (bs : list Z) : MM unit :=
  match bs with
  | [] => mret tt
  | b :: bs =>
      pa ← translate_cur va;
      if pa =? 0 then panic else
      store_bytes pa [b];;
      uwrite (va + 1) bs
  end.

Definition uread_le (n : nat) (va : Z) : MM Z := bs ← uread n va; mret (le_val bs).
Definition uwrite_le (n : nat) (va v : Z) : MM unit := uwrite va (le_bytes n v).

(** ** Time and the console *)

Definition uptime_us (s : Machine) : Z := w64 (m_upticks s * 10000).

Definition putc (c : Z) : MM unit := modify (λ s, set_m_uart_out (m_uart_out s ++ [c]) s).
