(* ===== verification/Procfs.v ===== *)
(** * kernel/src/fs/procfs: generated files

    The content of a file is written into the static buffer [G_PROCBUF]
    ([m_procbuf]), whose old bytes stay where nothing is written.  Text is the
    list of its bytes. *)

From S2P Require Import Prelude Formats Vnode Process Sched Ipc Pmm Vmm Heap Onyxfs Fat32 Machine.
From stdpp Require Import base list numbers gmap.
From Stdlib Require Import ZArith Lia String Ascii.

Open Scope Z_scope.

Definition NL : list Z := [10].
Definition TAB : list Z := [9].

(** ** consts.rs *)

Definition PROCFS_ROOT_INO : Z := ONYFS_ROOT_INO.
Definition PROCFS_VERSION_INO : Z := 2.
Definition PROCFS_CPUINFO_INO : Z := 3.
Definition PROCFS_MEMINFO_INO : Z := 4.
Definition PROCFS_UPTIME_INO : Z := 5.
Definition PROCFS_LOAD_INO : Z := 6.
Definition PROCFS_STAT_INO : Z := 7.
Definition PROCFS_MAX_SIZE : Z := 512.

Definition VERSION_STR : list Z :=
  txt "OnyxKernel v0.3 (Rust) " ++ [226; 128; 148] ++ txt " RISC-V 64 GC" ++ NL.

(** ** dir.rs and stat.rs *)

Definition procfs_lookup (name : list Z) : result Z :=
  if bool_decide (name ∈ [[]; txt "/"; txt "."]) then Ok PROCFS_ROOT_INO else
  if bool_decide (name = txt "version") then Ok PROCFS_VERSION_INO else
  if bool_decide (name = txt "cpuinfo") then Ok PROCFS_CPUINFO_INO else
  if bool_decide (name = txt "meminfo") then Ok PROCFS_MEMINFO_INO else
  if bool_decide (name = txt "uptime") then Ok PROCFS_UPTIME_INO else
  if bool_decide (name = txt "load") then Ok PROCFS_LOAD_INO else
  if bool_decide (name = txt "stat") then Ok PROCFS_STAT_INO else
  Err NoEnt.

Definition dir_table : list (list Z * Z) :=
  [(txt ".", PROCFS_ROOT_INO); (txt "..", PROCFS_ROOT_INO); (txt "version", PROCFS_VERSION_INO);
   (txt "cpuinfo", PROCFS_CPUINFO_INO); (txt "meminfo", PROCFS_MEMINFO_INO);
   (txt "uptime", PROCFS_UPTIME_INO); (txt "load", PROCFS_LOAD_INO); (txt "stat", PROCFS_STAT_INO)].

(** Inode and the bytes stored through [name_out]. *)
Definition procfs_readdir_entry (i name_len : Z) : option (Z * list Z) :=
  match dir_table !! Z.to_nat i with
  | Some (name, ino) => Some (ino, rd 0 (Z.min (len name) (sat_sub name_len 1)) name ++ [0])
  | None => None
  end.

Record ProcfsStat := mkProcfsStat { ps_ino : Z; ps_size : Z; ps_mode : Z }.

Definition procfs_stat (ino : Z) : result ProcfsStat :=
  let file size := Ok (mkProcfsStat ino size 0x8124) in
  if ino =? PROCFS_ROOT_INO then Ok (mkProcfsStat ino 0 0x41ed) else
  if ino =? PROCFS_VERSION_INO then file (len VERSION_STR) else
  if ino =? PROCFS_CPUINFO_INO then file PROCFS_MAX_SIZE else
  if ino =? PROCFS_MEMINFO_INO then file PROCFS_MAX_SIZE else
  if ino =? PROCFS_UPTIME_INO then file 32 else
  if ino =? PROCFS_LOAD_INO then file PROCFS_MAX_SIZE else
  if ino =? PROCFS_STAT_INO then file PROCFS_MAX_SIZE else
  Err NoEnt.

(** ** fmt.rs: the number of bytes written and the buffer *)

Definition format_line_raw (line buf : list Z) (pos : Z) : Z * list Z :=
  if pos + len line <=? len buf then (len line, wr pos line buf) else (0, buf).

(** [while n > 0 && i > 0]: the digits, most significant first. *)
Fixpoint dec_digits (i : nat) (n : Z) (acc : list Z) : list Z :=
  match i with
  | O => acc
  | S i => if 0 <? n then dec_digits i (n / 10) ((48 + n mod 10) :: acc) else acc
  end.

Definition format_dec (n : Z) (buf : list Z) (pos : Z) : Z * list Z :=
  if n =? 0 then (if pos <? len buf then (1, wr pos [48] buf) else (0, buf)) else
  let digits := dec_digits 20 n [] in
  let k := Z.min (len digits) (sat_sub (len buf) pos) in
  (k, if 0 <? k then wr pos (rd 0 k digits) buf else buf).

Definition format_line (prefix : list Z) (num : Z) (suffix buf : list Z) (pos : Z) : Z * list Z :=
  let '(w1, buf) := format_line_raw prefix buf pos in
  let '(w2, buf) := format_dec num buf (pos + w1) in
  let '(w3, buf) := format_line_raw suffix buf (pos + w1 + w2) in
  (w1 + w2 + w3, buf).

(** ** content.rs *)

(** [pos += fmt::..(.., buf, pos)] *)
Inductive piece := Line (prefix : list Z) (num : Z) (suffix : list Z) | Raw (line : list Z).

Definition put_piece (p : piece) (bp : list Z * Z) : list Z * Z :=
  let '(w, buf) := match p with
                   | Line a n b => format_line a n b bp.1 bp.2
                   | Raw l => format_line_raw l bp.1 bp.2
                   end in (buf, bp.2 + w).

Definition put_pieces (ps : list piece) (bp : list Z * Z) : list Z * Z :=
  fold_left (λ bp p, put_piece p bp) ps bp.

(** [for h in h..harts] with its [break]. *)
Fixpoint cpu_loop (n : nat) (h : Z) (bp : list Z * Z) : list Z * Z :=
  match n with
  | O => bp
  | S n =>
      let bp := put_piece (Line (txt "processor" ++ TAB ++ txt ": ") h NL) bp in
      if len bp.1 <=? bp.2 then bp else cpu_loop n (h + 1) bp
  end.

Definition cpuinfo (harts : Z) (buf : list Z) : list Z * Z :=
  let bp := put_piece (Line (txt "harts" ++ TAB ++ TAB ++ txt ": ") harts NL) (buf, 0) in
  let bp := cpu_loop (Z.to_nat harts) 0 bp in
  put_pieces
    [Raw (txt "model name" ++ TAB ++ txt ": rv64gc" ++ NL);
     Raw (txt "model" ++ TAB ++ TAB ++ txt ": rv64gc" ++ NL);
     Raw (txt "frequency" ++ TAB ++ txt ": ~10 MHz (QEMU)" ++ NL);
     Raw (txt "isa" ++ TAB ++ TAB ++ txt ": rv64imafdc" ++ NL)] bp.

Definition meminfo (total_pages free_pages heap_used : Z) (buf : list Z) : list Z * Z :=
  let used_pages := w64 (total_pages - free_pages) in
  let kb := txt " kB" ++ NL in
  put_pieces
    [Line (txt "MemTotal" ++ TAB ++ txt ": ") (w64 (total_pages * 4)) kb;
     Line (txt "MemFree" ++ TAB ++ TAB ++ txt ": ") (w64 (free_pages * 4)) kb;
     Line (txt "MemUsed" ++ TAB ++ TAB ++ txt ": ") (w64 (used_pages * 4)) kb;
     Line (txt "HeapTotal" ++ TAB ++ txt ": 4096 kB" ++ NL) 0 [];
     Line (txt "HeapUsed" ++ TAB ++ txt ": ") (heap_used / 1024) kb;
     Line (txt "HeapFree" ++ TAB ++ txt ": ") (sat_sub 4096 (heap_used / 1024)) kb] (buf, 0).

(** The position is advanced over the decimal point, which is not written. *)
Definition uptime (us : Z) (buf : list Z) : list Z * Z :=
  let secs := us / 1000000 in
  let frac := us mod 1000000 / 10000 in
  let '(w, buf) := format_dec secs buf 0 in
  let pos := w + 1 in
  let '(buf, pos) :=
    if pos + 2 <=? len buf
    then (wr pos [48 + frac / 10; 48 + frac mod 10] buf, pos + 2) else (buf, pos) in
  put_piece (Raw NL) (buf, pos).

Definition load_info (procs : Z) (buf : list Z) : list Z * Z :=
  put_pieces
    [Line (txt "processes" ++ TAB ++ txt ": ") procs NL;
     Line (txt "procs_running" ++ TAB ++ txt ": ") 1 NL;
     Line (txt "procs_blocked" ++ TAB ++ txt ": 0" ++ NL) 0 []] (buf, 0).

Definition stat_info (secs procs : Z) (buf : list Z) : list Z * Z :=
  put_pieces
    [Line (txt "btime ") secs NL;
     Line (txt "cpu 0 0 0 0 0 0 0 0 0 0" ++ NL) 0 [];
     Line (txt "processes ") procs NL;
     Line (txt "procs_running 1" ++ NL) 0 [];
     Line (txt "procs_blocked 0" ++ NL) 0 []] (buf, 0).

(** [proc::count()] of proc/lifecycle.rs: the walk follows [next]. *)
Fixpoint count_loop (fuel : nat) (cur n : Z) : KM Z :=
  if cur =? 0 then mret n else
  match fuel with
  | O => panic
  | S fuel =>
      x ← deref cur;
      count_loop fuel (p_next x) (if bool_decide (p_state x = Free) then n else n + 1)
  end.

Definition proc_count : KM Z := λ k, count_loop (walk_fuel k) (g_all_procs k) 0 k.

(** Store the buffer, return [&buf[..pos.min(buf.len())]]. *)
Definition publish (bp : list Z * Z) : MM (list Z) :=
  modify (set_m_procbuf bp.1);;
  lift (slice bp.1 0 (Z.min bp.2 (len bp.1))).

Definition generate_content (ino : Z) : MM (list Z) :=
  buf ← gets m_procbuf;
  if ino =? PROCFS_VERSION_INO then mret VERSION_STR else
  if ino =? PROCFS_CPUINFO_INO then
    harts ← gets m_online; publish (cpuinfo harts buf) else
  if ino =? PROCFS_MEMINFO_INO then
    pm ← gets (λ s, vm_pmm (m_vm s));
    used ← gets (λ s, hp_used (m_heap s));
    publish (meminfo (pm_total_pages pm) (pm_free_pages pm) used buf) else
  if ino =? PROCFS_UPTIME_INO then
    us ← gets uptime_us; publish (uptime us buf) else
  if ino =? PROCFS_LOAD_INO then
    procs ← on_k proc_count; publish (load_info procs buf) else
  if ino =? PROCFS_STAT_INO then
    us ← gets uptime_us;
    procs ← on_k proc_count;
    publish (stat_info (us / 1000000) procs buf) else
  fail NoEnt.

(** The bytes copied to the caller's buffer. *)
Definition procfs_read (ino offset n : Z) : MM (list Z) :=
  content ← generate_content ino;
  let avail := sat_sub (len content) offset in
  let to_copy := Z.min n avail in
  mret (if 0 <? to_copy then rd offset to_copy content else []).
