(* ===== verification/Vfs.v ===== *)
(** * kernel/src/fs/vfs: descriptors, mounts and file operations

    Descriptors live in the table of the current process, or in the kernel's own
    table when no process runs.  A token carries the index of a descriptor and
    the epoch the descriptor had when it was handed out.  What is stored through
    a caller's pointer is returned as the list of its bytes (a read that fails
    half-way returns none of them). *)

From S2P Require Import Prelude Formats Vnode Process Sched Ipc Pmm Vmm Heap Onyxfs Fat32 Machine Procfs.
From Stdlib Require Import ZArith Lia String.
From stdpp Require Import base list numbers gmap.

Open Scope Z_scope.

(** ** ops.rs: descriptors *)

Definition is_kernel_boot : MM bool := pid ← cur_pid; mret (pid =? 0).

(** [G_KERNEL_FDS] or [current().fds], read and written. *)
Definition fd_table : MM (list VfsFd) :=
  boot ← is_kernel_boot;
  if boot : bool then gets m_kfds else p ← current; mret (p_fds p).
Definition fd_table_set (l : list VfsFd) : MM unit :=
  boot ← is_kernel_boot;
  if boot : bool then modify (set_m_kfds l) else upd_current (set_p_fds l).

Definition fd_get (i : Z) : MM VfsFd := l ← fd_table; lift (idx l i).
Definition fd_upd (i : Z) (f : VfsFd → VfsFd) : MM unit :=
  l ← fd_table;
  x ← lift (idx l i);
  l ← lift (set_idx l i (f x));
  fd_table_set l.

(** [epoch.wrapping_add(1)], skipping 0. *)
Definition next_epoch (e : Z) : Z := if w32 (e + 1) =? 0 then 1 else w32 (e + 1).

(** A descriptor handed out with [perms]. *)
Definition take_fd (perms : Z) (f : VfsFd) : VfsFd :=
  mkVfsFd (fd_ino f) (fd_size f) (fd_pos f) (fd_fs f) true perms (next_epoch (fd_epoch f)).
Definition target_fd (ino size : Z) (fs : Fs) (pos : Z) (f : VfsFd) : VfsFd :=
  mkVfsFd ino size pos fs (fd_used f) (fd_perms f) (fd_epoch f).
Definition set_fd_pos (pos : Z) (f : VfsFd) : VfsFd :=
  mkVfsFd (fd_ino f) (fd_size f) pos (fd_fs f) (fd_used f) (fd_perms f) (fd_epoch f).
Definition set_fd_size (size : Z) (f : VfsFd) : VfsFd :=
  mkVfsFd (fd_ino f) size (fd_pos f) (fd_fs f) (fd_used f) (fd_perms f) (fd_epoch f).
Definition drop_fd (f : VfsFd) : VfsFd :=
  mkVfsFd (fd_ino f) (fd_size f) (fd_pos f) (fd_fs f) false (fd_perms f) (fd_epoch f).

(** The first unused descriptor from index [i] on. *)
Fixpoint free_from (i : Z) (l : list VfsFd) : option Z :=
  match l with
  | [] => None
  | f :: l => if fd_used f then free_from (i + 1) l else Some i
  end.

(** Processes keep 0, 1 and 2 for the console. *)
Definition alloc_fd (perms : Z) : MM Z :=
  boot ← is_kernel_boot;
  l ← fd_table;
  let lo := if boot : bool then 0 else 3 in
  match free_from lo (drop (Z.to_nat lo) (take (Z.to_nat VFS_MAX_FDS) l)) with
  | Some i => fd_upd i (take_fd perms);; mret i
  | None => fail NoMem
  end.

Definition fd_check (token : Z) : MM Z :=
  let i := fd_token_idx token in
  if VFS_MAX_FDS <=? i then fail BadFd else
  fd ← fd_get i;
  if negb (fd_used fd) || negb (fd_epoch fd =? fd_token_epoch token) then fail BadFd else
  mret i.

Definition fd_check_perm (token perm : Z) : MM Z :=
  i ← fd_check token;
  fd ← fd_get i;
  if Z.land (fd_perms fd) perm =? 0 then fail Perm else mret i.

Definition fd_set (i ino size : Z) (fs : Fs) (pos : Z) : MM unit := fd_upd i (target_fd ino size fs pos).
Definition fd_update_pos (i pos : Z) : MM unit := fd_upd i (set_fd_pos pos).
Definition fd_clear (i : Z) : MM unit := fd_upd i drop_fd.

(** [fd_token(idx, fd_get(idx).epoch)] *)
Definition token_of (i : Z) : MM Z := fd ← fd_get i; mret (fd_token i (fd_epoch fd)).

(** ** mount.rs *)

Definition G_MOUNTS_init : list MountEntry := replicate 5 (mkMountEntry [] FsNone).

Definition set_mount (i : Z) (e : MountEntry) : MM unit :=
  l ← gets m_mounts;
  l ← lift (set_idx l i e);
  modify (set_m_mounts l).

Definition mount_procfs : MM unit := set_mount 0 (mkMountEntry (txt "proc") FsProc).
Definition mount_ipcfs : MM unit := set_mount 1 (mkMountEntry (txt "ipc") FsIpc).

Definition starts_with (p l : list Z) : bool := bool_decide (take (length p) l = p).

(** [for m in G_MOUNTS.iter()]; [root] is the file system of the rest. *)
Fixpoint find_mount (ms : list MountEntry) (root : Fs) (path : list Z) : Fs * list Z :=
  match ms with
  | [] => (root, path)
  | m :: ms =>
      if bool_decide (me_fs m = FsNone) then find_mount ms root path else
      if bool_decide (path = me_path m) then (me_fs m, []) else
      if starts_with (me_path m) path && (len (me_path m) <? len path) &&
         (nth (length (me_path m)) path 0 =? SLASH)
      then (me_fs m, drop (S (length (me_path m))) path)
      else find_mount ms root path
  end.

Definition resolve_mount (path : list Z) : MM (Fs * list Z) :=
  gets (λ s, find_mount (m_mounts s) (m_root_fs s) path).

Definition mount_root (dev onyxfs_lba : Z) : MM unit :=
  catch (on_fs (onyxfs_mount dev onyxfs_lba))
    (λ _, modify (set_m_root_fs FsOnyx))
    (λ _, catch (on_fat (fat32_mount dev))
            (λ _, modify (set_m_root_fs FsFat32))
            (λ _, fail Io)).

(** ** file.rs *)

(** Inode (or cluster) and size of what a path names. *)
Definition lookup_path (fs : Fs) (subpath name : list Z) : MM (Z * Z) :=
  match fs with
  | FsProc => ino ← lift (procfs_lookup subpath); st ← lift (procfs_stat ino); mret (ino, ps_size st)
  | FsIpc =>
      h ← hart_id;
      ino ← on_ipc (Ipcfs.ipcfs_lookup h subpath);
      st ← lift (Ipcfs.ipcfs_stat ino);
      mret (ino, Ipcfs.st_size st)
  | _ =>
      root ← gets m_root_fs;
      match root with
      | FsOnyx => r ← on_fs (onyxfs_lookup name); mret (st_ino r.2, Z.min (st_size r.2) 4294967295)
      | FsFat32 => on_fat (fat32_lookup name)
      | _ => fail Inval
      end
  end.

(** The descriptor is taken first and stays taken when the lookup fails. *)
Definition vfs_open (path : list Z) (perms : Z) : MM Z :=
  if negb (absolute path) then fail Inval else
  let name := drop 1 path in
  i ← alloc_fd perms;
  r ← resolve_mount name;
  t ← lookup_path r.1 r.2 name;
  fd_set i t.1 t.2 r.1 0;;
  token_of i.

Definition vfs_close (token : Z) : MM unit := i ← fd_check token; fd_clear i.

(** ** rw.rs *)

(** Without a trap frame a channel call never blocks. *)
Definition reply_now {A} (m : MM (reply A)) : MM A :=
  r ← m; match r with Reply a => mret a | Away _ => panic end.

(** The count returned and the bytes stored from the start of the buffer. *)
Definition vfs_read (token n : Z) : MM (Z * list Z) :=
  i ← fd_check_perm token PERM_READ;
  fd ← fd_get i;
  let to_read := Z.min n (sat_sub (fd_size fd) (fd_pos fd)) in
  if to_read =? 0 then mret (0, []) else
  h ← hart_id;
  let counted m := bs ← m; mret (len bs, bs) in
  r ← match fd_fs fd with
      | FsOnyx => counted (on_fs (onyxfs_read (fd_ino fd) (fd_pos fd) to_read))
      | FsFat32 => on_fat (fat32_read (fd_ino fd) (fd_pos fd) to_read)
      | FsProc => counted (procfs_read (fd_ino fd) (fd_pos fd) to_read)
      | FsIpc => counted (reply_now (on_ipc (Ipcfs.ipcfs_read h (fd_ino fd) to_read)))
      | FsNone => fail Inval
      end;
  fd_update_pos i (w32 (fd_pos fd + r.1));;
  mret r.

Definition vfs_write (token : Z) (src : list Z) : MM Z :=
  i ← fd_check_perm token PERM_WRITE;
  fd ← fd_get i;
  h ← hart_id;
  written ← match fd_fs fd with
            | FsOnyx => on_fs (onyxfs_write (fd_ino fd) src (fd_pos fd) (len src))
            | FsProc => fail Perm
            | FsIpc => reply_now (on_ipc (Ipcfs.ipcfs_write h (fd_ino fd) src))
            | _ => fail NoSys
            end;
  let new_pos := w32 (fd_pos fd + written) in
  fd_update_pos i new_pos;;
  (if fd_size fd <? new_pos then fd_upd i (set_fd_size new_pos) else mret tt);;
  mret written.

Definition vfs_stat (token : Z) : MM Z := i ← fd_check token; fd ← fd_get i; mret (fd_size fd).

(** ** seek.rs, truncate.rs *)

(** [off] is an [i64]; [None] stands for an unknown [whence]. *)
Definition seek_pos (fd : VfsFd) (off whence : Z) : option Z :=
  if whence =? 0 then Some off else
  if whence =? 1 then Some (to_i64 (w64 (fd_pos fd + off))) else
  if whence =? 2 then Some (to_i64 (w64 (fd_size fd + off))) else None.

Definition vfs_lseek (token off whence : Z) : MM Z :=
  i ← fd_check_perm token PERM_SEEK;
  fd ← fd_get i;
  match seek_pos fd off whence with
  | None => fail Inval
  | Some new_pos =>
      if (new_pos <? 0) || (fd_size fd <? new_pos) then fail Range else
      fd_update_pos i (w32 new_pos);;
      mret (w32 new_pos)
  end.

Definition vfs_truncate (token : Z) : MM unit :=
  i ← fd_check token;
  fd ← fd_get i;
  on_fs (onyxfs_truncate (fd_ino fd)).

(** ** dup.rs *)

Definition vfs_dup (token : Z) : MM Z :=
  i ← fd_check token;
  fd ← fd_get i;
  new_idx ← alloc_fd (fd_perms fd);
  fd_set new_idx (fd_ino fd) (fd_size fd) (fd_fs fd) (fd_pos fd);;
  token_of new_idx.

Definition vfs_dup2 (old_token new_fd : Z) : MM Z :=
  i ← fd_check old_token;
  fd ← fd_get i;
  if VFS_MAX_FDS <=? new_fd then fail BadFd else
  fd_upd new_fd (λ x, target_fd (fd_ino fd) (fd_size fd) (fd_fs fd) (fd_pos fd) (take_fd (fd_perms fd) x));;
  token_of new_fd.

Definition vfs_create_pipe : MM (Z * Z) :=
  r_idx ← alloc_fd PERM_READ;
  w_idx ← alloc_fd PERM_WRITE;
  fd_set r_idx 4294967295 0 FsIpc 0;;
  fd_set w_idx 4294967295 0 FsIpc 0;;
  r ← token_of r_idx;
  w ← token_of w_idx;
  mret (r, w).

(** ** create.rs *)

(** The guards and the parent lookup shared by [create] and [mkdir]. *)
Definition parent_of (path : list Z) : MM (Z * list Z) :=
  if negb (absolute path) then fail Inval else
  r ← resolve_mount (drop 1 path);
  if bool_decide (r.1 = FsProc) then fail Perm else
  '(parent_path, filename) ← lift (split_parent (drop 1 path));
  if len filename =? 0 then fail Inval else
  ino ← (if len parent_path =? 0 then mret ONYFS_ROOT_INO
         else r ← on_fs (onyxfs_lookup parent_path); mret r.1);
  mret (ino, filename).

(** The descriptor is filled in the table of [proc::current()]. *)
Definition vfs_create (path : list Z) (mode : Z) : MM Z :=
  pf ← parent_of path;
  new_ino ← on_fs (onyxfs_create pf.1 pf.2 mode);
  i ← alloc_fd (Z.lor (Z.lor PERM_READ PERM_WRITE) PERM_SEEK);
  p ← current;
  fd ← lift (idx (p_fds p) i);
  l ← lift (set_idx (p_fds p) i (target_fd new_ino 0 FsOnyx 0 fd));
  upd_current (set_p_fds l);;
  mret (fd_token i (fd_epoch fd)).

Definition vfs_mkdir (path : list Z) : MM unit :=
  pf ← parent_of path;
  on_fs (onyxfs_mkdir pf.1 pf.2);;
  mret tt.

(** ** dir.rs *)

(** Restart the cursor when it is on another directory. *)
Definition aim_cursor (fs : Fs) (ino : Z) : MM unit :=
  c ← gets m_dir;
  if negb (dc_active c) || negb (dc_ino c =? ino) || negb (bool_decide (dc_fs c = fs))
  then modify (set_m_dir (mkDirCursor ino 0 true fs)) else mret tt.

(** After the entry under the cursor was read. *)
Definition step_cursor (e : option (Z * list Z)) : MM (bool * list Z) :=
  c ← gets m_dir;
  match e with
  | Some (_, name) =>
      modify (set_m_dir (mkDirCursor (dc_ino c) (w32 (dc_idx c + 1)) (dc_active c) (dc_fs c)));;
      mret (true, name)
  | None =>
      modify (set_m_dir (mkDirCursor (dc_ino c) (dc_idx c) false (dc_fs c)));;
      mret (false, [])
  end.

Definition dir_root (subpath : list Z) : bool := (len subpath =? 0) || bool_decide (subpath = txt ".").

(** Whether there was an entry, and the bytes stored at [name_out]. *)
Definition vfs_readdir (dir_path : list Z) (name_len : Z) : MM (bool * list Z) :=
  if negb (absolute dir_path) then fail Inval else
  r ← resolve_mount (drop 1 dir_path);
  h ← hart_id;
  match r.1 with
  | FsProc =>
      ino ← (if dir_root r.2 then mret PROCFS_ROOT_INO else lift (procfs_lookup r.2));
      aim_cursor FsProc ino;;
      c ← gets m_dir;
      step_cursor (procfs_readdir_entry (dc_idx c) name_len)
  | FsIpc =>
      ino ← (if dir_root r.2 then mret Ipcfs.IPCFS_ROOT_INO else on_ipc (Ipcfs.ipcfs_lookup h r.2));
      aim_cursor FsIpc ino;;
      c ← gets m_dir;
      e ← on_ipc (Ipcfs.ipcfs_readdir_entry (dc_idx c) name_len);
      step_cursor e
  | _ =>
      ino ← on_fs (resolve_dir dir_path);
      aim_cursor FsOnyx ino;;
      c ← gets m_dir;
      e ← on_fs (onyxfs_readdir_entry (dc_ino c) (dc_idx c) name_len);
      step_cursor e
  end.

Definition readdir_entry_by_ino (fs : Fs) (ino i name_len : Z) : MM (option (Z * list Z)) :=
  match fs with
  | FsOnyx => on_fs (onyxfs_readdir_entry ino i name_len)
  | FsProc => mret (procfs_readdir_entry i name_len)
  | FsIpc => on_ipc (Ipcfs.ipcfs_readdir_entry i name_len)
  | _ => fail NoSys
  end.

(** ** unlink.rs, utimens.rs, and [rename] of ops.rs *)

Definition vfs_unlink (path : list Z) : MM unit :=
  if negb (absolute path) then fail Inval else
  r ← resolve_mount (drop 1 path);
  if negb (bool_decide (r.1 = FsOnyx)) then fail NoSys else
  on_fs (onyxfs_unlink path).

Definition vfs_rename (old_path new_path : list Z) : MM unit := on_fs (onyxfs_rename old_path new_path).

Definition vfs_utimens (path : list Z) (mtime atime : Z) : MM unit :=
  if negb (absolute path) then fail Inval else
  r ← resolve_mount (drop 1 path);
  if negb (bool_decide (r.1 = FsOnyx)) then fail NoSys else
  t ← on_fs (onyxfs_lookup (drop 1 path));
  on_fs (set_timestamps t.1 mtime atime).
