(* ===== verification/VfsProps.v ===== *)
(** * Descriptor tokens are capabilities

    [fds_le n s s']: between [s] and [s'] no descriptor of any table was handed
    out more than [n] times, and none became used without being handed out.
    Every operation of the file layer is such a step, so a token that was closed
    stays dead until its descriptor has been handed out [2^32 - 1] times. *)

From S2P Require Import Prelude Formats Vnode Process Sched YieldProps Ipc Pmm Vmm Heap Onyxfs Fat32 Net Machine Procfs Vfs.
From Stdlib Require Import ZArith Lia String.
From stdpp Require Import base list numbers gmap.

Open Scope Z_scope.

(** ** Epochs *)

Lemma next_epoch_mod e : u32 e → next_epoch e = e mod 4294967295 + 1.
Proof.
  unfold u32. intros He. unfold next_epoch, w32. destruct (decide (e = 4294967295)) as [->|Hne]; [done|].
  rewrite (Z.mod_small (e + 1)) by lia. rewrite (proj2 (Z.eqb_neq _ 0)) by lia.
  rewrite Z.mod_small by lia. done.
Qed.

Lemma iter_epoch e k : u32 e → (0 < k)%nat →
  Nat.iter k next_epoch e = (e + Z.of_nat k - 1) mod 4294967295 + 1.
Proof.
  intros He Hk. induction k as [|k IH]; [lia|]. destruct k as [|k].
  { simpl. rewrite next_epoch_mod by done. do 2 f_equal. lia. }
  change (Nat.iter (S (S k)) next_epoch e) with (next_epoch (Nat.iter (S k) next_epoch e)).
  rewrite IH by lia. pose proof (Z.mod_pos_bound (e + Z.of_nat (S k) - 1) 4294967295 ltac:(lia)).
  rewrite next_epoch_mod by (unfold u32; lia). f_equal.
  rewrite Zplus_mod_idemp_l. f_equal. lia.
Qed.

(** An epoch does not come back before all others were used. *)
Lemma iter_epoch_ne e k : u32 e → (0 < k)%nat → Z.of_nat k < 4294967295 → Nat.iter k next_epoch e ≠ e.
Proof.
  intros He Hk Hlt. rewrite iter_epoch by done. unfold u32 in He.
  Z.to_euclidean_division_equations. lia.
Qed.

Lemma next_epoch_u32 e : u32 e → u32 (next_epoch e).
Proof. intros He. rewrite next_epoch_mod by done. unfold u32. pose proof (Z.mod_pos_bound e 4294967295 ltac:(lia)). lia. Qed.

(** ** Descriptors and tables *)

Definition slot_le (n : nat) (f f' : VfsFd) : Prop :=
  ∃ k, (k ≤ n)%nat ∧ fd_epoch f' = Nat.iter k next_epoch (fd_epoch f) ∧
    (k = 0%nat → fd_used f' = true → fd_used f = true).

Lemma slot_le_refl f : slot_le 0 f f.
Proof. exists 0%nat. split_and!; done. Qed.

Lemma slot_le_trans n m f1 f2 f3 : slot_le n f1 f2 → slot_le m f2 f3 → slot_le (n + m) f1 f3.
Proof.
  intros (k1 & H1 & E1 & U1) (k2 & H2 & E2 & U2). exists (k2 + k1)%nat. split_and!; [lia| |].
  - by rewrite E2, E1, Nat.iter_add.
  - intros Hk Hu. apply U1; [lia|]. apply U2; [lia|done].
Qed.

Lemma slot_le_mono n m f f' : (n ≤ m)%nat → slot_le n f f' → slot_le m f f'.
Proof. intros Hm (k & H & E & U). exists k. split_and!; [lia|done..]. Qed.

Lemma slot_take perms f : slot_le 1 f (take_fd perms f).
Proof. exists 1%nat. split_and!; done. Qed.

(** Changes that hand nothing out. *)
Definition tame (g : VfsFd → VfsFd) : Prop :=
  ∀ f, fd_epoch (g f) = fd_epoch f ∧ (fd_used (g f) = true → fd_used f = true).

Lemma slot_tame g f : tame g → slot_le 0 f (g f).
Proof. intros H. destruct (H f). exists 0%nat. split_and!; done. Qed.

Definition table_le (n : nat) : list VfsFd → list VfsFd → Prop := Forall2 (slot_le n).

Lemma table_le_refl l : table_le 0 l l.
Proof. induction l; constructor; [apply slot_le_refl|done]. Qed.

Lemma table_le_trans n m l1 l2 l3 : table_le n l1 l2 → table_le m l2 l3 → table_le (n + m) l1 l3.
Proof.
  intros H. revert l3. induction H as [|f1 f2 l1 l2 Hf Hl IH]; intros l3 H; inversion H; subst; [constructor|].
  constructor; [by eapply slot_le_trans|by apply IH].
Qed.

Lemma table_le_mono n m l l' : (n ≤ m)%nat → table_le n l l' → table_le m l l'.
Proof. intros Hm H. eapply Forall2_impl; [exact H|]. intros f f'. by apply slot_le_mono. Qed.

Lemma table_le_insert n l i f g :
  l !! i = Some f → slot_le n f (g f) → table_le n l (<[i := g f]> l).
Proof.
  intros Hi Hg. revert i Hi. induction l as [|x l IH]; intros [|i] Hi; simpl in Hi; try done.
  - injection Hi as ->. simpl. constructor; [done|]. apply (table_le_mono 0); [lia|apply table_le_refl].
  - simpl. constructor; [apply (slot_le_mono 0); [lia|apply slot_le_refl]|by apply IH].
Qed.

Definition fds_of (k : Kernel) (p : Z) : list VfsFd := from_option p_fds [] (g_procs k !! p).

Definition fds_le (n : nat) (s s' : Machine) : Prop :=
  table_le n (m_kfds s) (m_kfds s') ∧ ∀ p, table_le n (fds_of (kernel s) p) (fds_of (kernel s') p).

#[global] Instance fds_le_graded : Graded fds_le.
Proof.
  constructor.
  - intros s. split; [|intros p]; apply table_le_refl.
  - intros n k s1 s2 s3 [H1 H2] [H3 H4]. split; [by eapply table_le_trans|]. intros p. by eapply table_le_trans.
  - intros n k s1 s2 Hk [H1 H2]. split; [by eapply table_le_mono|]. intros p. by eapply table_le_mono.
Qed.

(** ** The components below do not touch descriptors *)

Definition same_fds (n : nat) (k k' : Kernel) : Prop := ∀ p, fds_of k' p = fds_of k p.
Definition same_fds_ipc (n : nat) (s s' : Ipc) : Prop := same_fds n (ipc_k s) (ipc_k s').

#[global] Instance same_fds_graded : Graded same_fds.
Proof. constructor; [done| |done]. intros n k s1 s2 s3 H1 H2 p. by rewrite H2, H1. Qed.
#[global] Instance same_fds_ipc_graded : Graded same_fds_ipc.
Proof. constructor; [done| |done]. intros n k s1 s2 s3 H1 H2 p. by rewrite H2, H1. Qed.

Lemma keeps_deref p : effect same_fds 0 (deref p).
Proof. apply effect_pure; [apply _|]. intros k. unfold deref. by destruct (_ !! _). Qed.

Lemma keeps_update p f : (∀ x, p_fds (f x) = p_fds x) → effect same_fds 0 (update p f).
Proof.
  intros Hf k. unfold update. destruct (g_procs k !! p) as [x|] eqn:E; simpl; [|done].
  intros q. unfold fds_of. simpl. destruct (decide (p = q)) as [<-|Hne].
  - rewrite lookup_insert_eq, E. simpl. apply Hf.
  - by rewrite lookup_insert_ne.
Qed.

Lemma keeps_at {A} (arr : Kernel → list A) i : effect same_fds 0 (at_ arr i).
Proof. by apply effect_pure; [apply _|]. Qed.

Lemma keeps_at_set {A} (arr : Kernel → list A) set i v :
  (∀ l k, g_procs (set l k) = g_procs k) → effect same_fds 0 (at_set arr set i v).
Proof. intros H k. unfold at_set. destruct (set_idx _ _ _); simpl; intros p; unfold fds_of; by rewrite ?H. Qed.

Lemma keeps_wake fuel : ∀ cur, effect same_fds 0 (wake_loop fuel cur).
Proof.
  induction fuel as [|fuel IH]; intros cur; simpl; [by apply effect_pure; [apply _|]|].
  destruct (cur =? 0); [apply effect_ret; apply _|].
  apply effect_seq; [apply _|apply keeps_deref|]. intros x.
  apply effect_seq; [apply _|by apply keeps_update|]. intros _.
  apply effect_seq; [apply _|by apply keeps_update|]. intros _. apply IH.
Qed.
#[export] Hint Resolve keeps_deref keeps_at keeps_wake : effects.

Lemma keeps_current_pid h : effect same_fds 0 (current_pid h).
Proof. unfold current_pid. effect_tac. Qed.
Lemma keeps_current_ptr h : effect same_fds 0 (current_ptr h).
Proof. apply keeps_at. Qed.
Lemma keeps_wake_all w : effect same_fds 0 (wait_wake_all w).
Proof. unfold wait_wake_all. effect_tac. Qed.
Lemma keeps_resched h b : effect same_fds 0 (set_need_resched h b).
Proof. unfold set_need_resched. destruct (_ <? _); [by apply keeps_at_set|effect_tac]. Qed.
#[export] Hint Resolve keeps_current_pid keeps_current_ptr keeps_wake_all keeps_resched : effects.

Lemma keeps_onk {A} (m : KM A) : effect same_fds 0 m → effect same_fds_ipc 0 (onk m).
Proof. intros H s. specialize (H (ipc_k s)). unfold onk. by destruct (m (ipc_k s)). Qed.
Lemma keeps_chan_at i : effect same_fds_ipc 0 (chan_at i).
Proof. by apply effect_pure; [apply _|]. Qed.
Lemma keeps_chan_set i c : effect same_fds_ipc 0 (chan_set i c).
Proof. intros s. unfold chan_set. by destruct (set_idx _ _ _). Qed.
#[export] Hint Resolve keeps_onk keeps_chan_at keeps_chan_set : effects.

Lemma keeps_push id ch pid : effect same_fds_ipc 0 (push_client id ch pid).
Proof. unfold push_client. effect_tac. Qed.
#[export] Hint Resolve keeps_push : effects.

Lemma keeps_open_by_name name pid : effect same_fds_ipc 0 (open_by_name name pid).
Proof. unfold open_by_name, find_by_name. effect_tac. Qed.
#[export] Hint Resolve keeps_open_by_name : effects.

Lemma keeps_guard h id : effect same_fds_ipc 0 (chan_guard h id).
Proof. unfold chan_guard. effect_tac. Qed.
#[export] Hint Resolve keeps_guard : effects.

Lemma keeps_send h id src : effect same_fds_ipc 0 (send h id src None).
Proof. unfold send. effect_tac. Qed.
Lemma keeps_recv h id n : effect same_fds_ipc 0 (recv h id n None).
Proof. unfold recv. effect_tac. Qed.
#[export] Hint Resolve keeps_send keeps_recv : effects.

Lemma keeps_ipcfs_lookup h name : effect same_fds_ipc 0 (Ipcfs.ipcfs_lookup h name).
Proof. unfold Ipcfs.ipcfs_lookup. effect_tac. Qed.
Lemma keeps_ipcfs_read h ino n : effect same_fds_ipc 0 (Ipcfs.ipcfs_read h ino n).
Proof. unfold Ipcfs.ipcfs_read. effect_tac. Qed.
Lemma keeps_ipcfs_write h ino src : effect same_fds_ipc 0 (Ipcfs.ipcfs_write h ino src).
Proof. unfold Ipcfs.ipcfs_write. effect_tac. Qed.
Lemma keeps_ipcfs_readdir i n : effect same_fds_ipc 0 (Ipcfs.ipcfs_readdir_entry i n).
Proof. unfold Ipcfs.ipcfs_readdir_entry, named_by_index. effect_tac. by apply effect_pure; [apply _|]. Qed.
#[export] Hint Resolve keeps_ipcfs_lookup keeps_ipcfs_read keeps_ipcfs_write keeps_ipcfs_readdir : effects.

Lemma keeps_count fuel : ∀ cur n, effect same_fds 0 (count_loop fuel cur n).
Proof. induction fuel as [|fuel IH]; intros cur n; simpl; effect_tac; auto. Qed.
Lemma keeps_proc_count : effect same_fds 0 proc_count.
Proof. intros k. apply (keeps_count _ _ _ k). Qed.
#[export] Hint Resolve keeps_proc_count : effects.

(** ** The machine *)

Lemma on_ipc_fds {A} (m : IM A) : effect same_fds_ipc 0 m → effect fds_le 0 (on_ipc m).
Proof.
  intros H s. specialize (H (m_ipc s)). unfold on_ipc. destruct (m (m_ipc s)) as [r i]. simpl in *.
  split; [apply table_le_refl|]. intros p. unfold kernel. simpl. rewrite H. apply table_le_refl.
Qed.
Lemma on_k_fds {A} (m : KM A) : effect same_fds 0 m → effect fds_le 0 (on_k m).
Proof. intros H. apply on_ipc_fds. by apply keeps_onk. Qed.
Lemma on_fs_fds {A} (m : FM A) : effect fds_le 0 (on_fs m).
Proof. intros s. unfold on_fs. destruct (m (m_fs s)). split; [|intros p]; apply table_le_refl. Qed.
Lemma on_fat_fds {A} (m : TM A) : effect fds_le 0 (on_fat m).
Proof. intros s. unfold on_fat. destruct (m _). split; [|intros p]; apply table_le_refl. Qed.
Lemma modify_fds (f : Machine → Machine) :
  (∀ s, m_kfds (f s) = m_kfds s ∧ m_ipc (f s) = m_ipc s) → effect fds_le 0 (modify f).
Proof.
  intros H s. destruct (H s) as [E1 E2]. split; simpl; [rewrite E1|intros p; unfold kernel; rewrite E2]; apply table_le_refl.
Qed.
#[export] Hint Resolve on_ipc_fds on_k_fds on_fs_fds on_fat_fds : effects.
#[export] Hint Extern 2 (effect fds_le _ (modify _)) => apply modify_fds; done : effects.

Lemma hart_id_fds : effect fds_le 0 hart_id.
Proof. unfold hart_id. effect_tac. Qed.
#[export] Hint Resolve hart_id_fds : effects.
Lemma cur_pid_fds : effect fds_le 0 cur_pid.
Proof. unfold cur_pid. effect_tac. Qed.
Lemma cur_ptr_fds : effect fds_le 0 cur_ptr.
Proof. unfold cur_ptr. effect_tac. Qed.
#[export] Hint Resolve cur_pid_fds cur_ptr_fds : effects.
Lemma current_fds : effect fds_le 0 current.
Proof. unfold current. effect_tac. Qed.
Lemma is_kernel_boot_fds : effect fds_le 0 is_kernel_boot.
Proof. unfold is_kernel_boot. effect_tac. Qed.
#[export] Hint Resolve current_fds is_kernel_boot_fds : effects.
Lemma fd_table_fds : effect fds_le 0 fd_table.
Proof. unfold fd_table. effect_tac. Qed.
#[export] Hint Resolve fd_table_fds : effects.

(** ** The active table *)

(** The table the descriptor operations use: the kernel's, or a process's. *)
Definition active (s : Machine) : result (option Z) :=
  p ← idx (g_hart_current (kernel s)) (m_hart s);
  if p =? 0 then Ok None else
  match g_procs (kernel s) !! p with
  | None => Panic
  | Some x => Ok (if bool_decide (p_state x = Running) && negb (p_pid x =? 0) then Some p else None)
  end.

Definition tab (s : Machine) (key : option Z) : list VfsFd :=
  match key with None => m_kfds s | Some p => fds_of (kernel s) p end.

Definition set_tab (key : option Z) (l : list VfsFd) (s : Machine) : Machine :=
  match key with
  | None => set_m_kfds l s
  | Some p => set_m_ipc (mkIpc (update p (set_p_fds l) (kernel s)).2 (ipc_chans (m_ipc s))) s
  end.

Lemma on_k_read {A} (m : KM A) s r : m (kernel s) = (r, kernel s) → on_k m s = (r, s).
Proof. intros E. unfold on_k, on_ipc, onk. unfold kernel in E. rewrite E. by destruct s as [? ? [] ?]. Qed.

Lemma cur_ptr_eq s : cur_ptr s = (idx (g_hart_current (kernel s)) (m_hart s), s).
Proof. unfold cur_ptr. unfold hart_id. rewrite gets_bind. by apply on_k_read. Qed.

Lemma current_eq s p x :
  idx (g_hart_current (kernel s)) (m_hart s) = Ok p → g_procs (kernel s) !! p = Some x → current s = (Ok x, s).
Proof.
  intros Ep Ex. unfold current. rewrite (sm_bind_ok _ _ s p s) by (by rewrite cur_ptr_eq, Ep).
  apply on_k_read. unfold deref. by rewrite Ex.
Qed.

Lemma cur_pid_eq s key :
  active s = Ok key → ∃ pid, cur_pid s = (Ok pid, s) ∧ (pid = 0 ↔ key = None).
Proof.
  unfold active, cur_pid, hart_id. intros H. apply bind_Ok_inv in H as (p & Ep & H). setoid_rewrite gets_bind.
  unfold current_pid. destruct (p =? 0) eqn:E0.
  { injection H as <-. exists 0. split; [|done]. apply on_k_read.
    rewrite (sm_bind_ok _ _ _ p (kernel s)) by (unfold at_; by rewrite Ep). by rewrite E0. }
  destruct (g_procs (kernel s) !! p) as [x|] eqn:Ex; [|discriminate H]. injection H as <-.
  exists (if decide (p_state x = Running) then p_pid x else 0). split.
  { apply on_k_read. rewrite (sm_bind_ok _ _ _ p (kernel s)) by (unfold at_; by rewrite Ep). rewrite E0.
    by rewrite (sm_bind_ok _ _ _ x (kernel s)) by (unfold deref; by rewrite Ex). }
  destruct (decide (p_state x = Running)) as [Hr|Hr].
  - rewrite (bool_decide_eq_true_2 _ Hr). simpl. destruct (Z.eqb_spec (p_pid x) 0); simpl; split; intros; (lia || done).
  - rewrite (bool_decide_eq_false_2 _ Hr). done.
Qed.

Lemma boot_eq s key : active s = Ok key → is_kernel_boot s = (Ok (bool_decide (key = None)), s).
Proof.
  intros H. destruct (cur_pid_eq s key H) as (pid & E & Hk). unfold is_kernel_boot.
  rewrite (sm_bind_ok _ _ _ _ _ E). unfold mret, SM_ret. do 2 f_equal. apply eq_true_iff_eq.
  rewrite Z.eqb_eq, bool_decide_eq_true. done.
Qed.

Lemma active_proc s p : active s = Ok (Some p) →
  ∃ x, idx (g_hart_current (kernel s)) (m_hart s) = Ok p ∧ g_procs (kernel s) !! p = Some x.
Proof.
  unfold active. intros H. apply bind_Ok_inv in H as (q & Eq & H). destruct (q =? 0); [discriminate H|].
  destruct (g_procs (kernel s) !! q) as [x|] eqn:Ex; [|discriminate H]. injection H as H.
  destruct (_ && _); [|discriminate H]. injection H as ->. by exists x.
Qed.

Lemma fd_table_eq s key : active s = Ok key → fd_table s = (Ok (tab s key), s).
Proof.
  intros H. unfold fd_table. rewrite (sm_bind_ok _ _ _ _ _ (boot_eq s key H)).
  destruct key as [p|]; [|done]. rewrite bool_decide_eq_false_2 by done.
  destruct (active_proc s p H) as (x & Ep & Ex). rewrite (sm_bind_ok _ _ _ _ _ (current_eq s p x Ep Ex)).
  simpl. unfold fds_of. by rewrite Ex.
Qed.

Lemma fd_table_set_eq s key l : active s = Ok key → fd_table_set l s = (Ok tt, set_tab key l s).
Proof.
  intros H. unfold fd_table_set. rewrite (sm_bind_ok _ _ _ _ _ (boot_eq s key H)).
  destruct key as [p|]; [|done]. rewrite bool_decide_eq_false_2 by done.
  destruct (active_proc s p H) as (x & Ep & Ex). unfold upd_current.
  rewrite (sm_bind_ok _ _ s p s) by (by rewrite cur_ptr_eq, Ep).
  unfold on_k, on_ipc, onk, set_tab, update, kernel in *. rewrite Ex. reflexivity.
Qed.

Lemma fd_get_eq s key i : active s = Ok key → fd_get i s = (idx (tab s key) i, s).
Proof. intros H. unfold fd_get. by rewrite (sm_bind_ok _ _ _ _ _ (fd_table_eq s key H)). Qed.

Lemma fd_upd_eq s key i x f : active s = Ok key → 0 ≤ i → tab s key !! Z.to_nat i = Some x →
  fd_upd i f s = (Ok tt, set_tab key (<[Z.to_nat i := f x]> (tab s key)) s).
Proof.
  intros H Hi Hx. unfold fd_upd. rewrite (sm_bind_ok _ _ _ _ _ (fd_table_eq s key H)).
  rewrite (idx_ok _ _ x) by done. rewrite lift_bind. rewrite set_idx_ok by (by apply lookup_lt_Some in Hx; unfold len; lia).
  rewrite lift_bind. by apply fd_table_set_eq.
Qed.

Lemma fd_table_none s : (∀ key, active s ≠ Ok key) → (fd_table s).2 = s ∧ ∀ l, (fd_table s).1 ≠ Ok l.
Proof.
  intros H. unfold fd_table, is_kernel_boot, cur_pid, hart_id, active in *.
  assert (∃ r, on_k (current_pid (m_hart s)) s = (r, s) ∧ ∀ z, r ≠ Ok z) as (r & Er & Hr).
  { unfold current_pid. destruct (idx (g_hart_current (kernel s)) (m_hart s)) as [p|e|] eqn:Ep.
    - destruct (p =? 0) eqn:E0; [by specialize (H None); simpl in H; rewrite E0 in H|].
      destruct (g_procs (kernel s) !! p) as [x|] eqn:Ex; [simpl in H; rewrite E0, Ex in H; by edestruct H|].
      exists Panic. split; [|done]. apply on_k_read.
      rewrite (sm_bind_ok _ _ _ p (kernel s)) by (unfold at_; by rewrite Ep). rewrite E0.
      unfold mbind, SM_bind, deref. by rewrite Ex.
    - exists (Err e). split; [|done]. apply on_k_read. unfold mbind, SM_bind, at_. by rewrite Ep.
    - exists Panic. split; [|done]. apply on_k_read. unfold mbind, SM_bind, at_. by rewrite Ep. }
  unfold mbind, SM_bind, gets. rewrite Er. destruct r as [z|e|]; [by edestruct Hr|done|done].
Qed.

Lemma set_tab_le n s key l :
  active s = Ok key → table_le n (tab s key) l → fds_le n s (set_tab key l s).
Proof.
  intros H Hl. destruct key as [p|]; simpl in *.
  - destruct (active_proc s p H) as (x & _ & Ex). unfold update. rewrite Ex. simpl. split; simpl.
    { apply (table_le_mono 0); [lia|apply table_le_refl]. }
    intros q. unfold kernel, fds_of in *. simpl. destruct (decide (p = q)) as [<-|Hne].
    + by rewrite lookup_insert_eq.
    + rewrite lookup_insert_ne by done. apply (table_le_mono 0); [lia|apply table_le_refl].
  - split; simpl; [done|]. intros q. apply (table_le_mono 0); [lia|apply table_le_refl].
Qed.

Lemma fd_upd_fds n i f : (∀ x, slot_le n x (f x)) → effect fds_le n (fd_upd i f).
Proof.
  intros Hf s. assert (fds_le n s s) as Hrefl by (apply (graded_mono 0); [lia|apply graded_refl]).
  destruct (active s) as [key|e|] eqn:H.
  - unfold fd_upd. rewrite (sm_bind_ok _ _ _ _ _ (fd_table_eq s key H)).
    destruct (idx (tab s key) i) as [x|e|] eqn:Ex; [|exact Hrefl..]. rewrite lift_bind.
    destruct (set_idx (tab s key) i (f x)) as [l|e|] eqn:El; [|exact Hrefl..]. rewrite lift_bind.
    rewrite (fd_table_set_eq _ _ _ H). apply set_tab_le; [done|].
    unfold idx in Ex. unfold set_idx in El. destruct (_ && _) eqn:Ei; [|discriminate El]. injection El as <-.
    destruct (i <? 0); [discriminate Ex|].
    destruct (tab s key !! Z.to_nat i) eqn:Et; [|discriminate Ex]. injection Ex as ->. by apply table_le_insert.
  - destruct (fd_table_none s ltac:(congruence)) as [E1 E2]. unfold fd_upd, mbind, SM_bind.
    destruct (fd_table s) as [[l|?|] s']; simpl in *; [by edestruct E2|subst; exact Hrefl..].
  - destruct (fd_table_none s ltac:(congruence)) as [E1 E2]. unfold fd_upd, mbind, SM_bind.
    destruct (fd_table s) as [[l|?|] s']; simpl in *; [by edestruct E2|subst; exact Hrefl..].
Qed.

Lemma fd_upd_tame i f : tame f → effect fds_le 0 (fd_upd i f).
Proof. intros Hf. apply fd_upd_fds. intros x. by apply slot_tame. Qed.

Lemma fd_set_fds i ino size fs pos : effect fds_le 0 (fd_set i ino size fs pos).
Proof. by apply fd_upd_tame. Qed.
Lemma fd_pos_fds i pos : effect fds_le 0 (fd_update_pos i pos).
Proof. by apply fd_upd_tame. Qed.
Lemma fd_size_fds i size : effect fds_le 0 (fd_upd i (set_fd_size size)).
Proof. by apply fd_upd_tame. Qed.
Lemma fd_clear_fds i : effect fds_le 0 (fd_clear i).
Proof. by apply fd_upd_tame. Qed.
Lemma fd_get_fds i : effect fds_le 0 (fd_get i).
Proof. unfold fd_get. effect_tac. Qed.
#[export] Hint Resolve fd_set_fds fd_pos_fds fd_size_fds fd_clear_fds fd_get_fds : effects.
Lemma token_of_fds i : effect fds_le 0 (token_of i).
Proof. unfold token_of. effect_tac. Qed.
Lemma fd_check_fds t : effect fds_le 0 (fd_check t).
Proof. unfold fd_check. effect_tac. Qed.
#[export] Hint Resolve token_of_fds fd_check_fds : effects.
Lemma fd_check_perm_fds t perm : effect fds_le 0 (fd_check_perm t perm).
Proof. unfold fd_check_perm. effect_tac. Qed.
#[export] Hint Resolve fd_check_perm_fds : effects.

Lemma alloc_fd_fds perms : effect fds_le 1 (alloc_fd perms).
Proof.
  unfold alloc_fd. effect_step. effect_step. cbv zeta. destruct (free_from _ _); [|effect_tac].
  apply effect_tick; [apply _|apply fd_upd_fds, slot_take|]. intros _. effect_tac.
Qed.

Lemma resolve_mount_fds path : effect fds_le 0 (resolve_mount path).
Proof. unfold resolve_mount. effect_tac. Qed.
#[export] Hint Resolve resolve_mount_fds : effects.
Lemma lookup_path_fds fs sub name : effect fds_le 0 (lookup_path fs sub name).
Proof. unfold lookup_path. effect_tac. Qed.
Lemma reply_now_fds {A} (m : MM (reply A)) : effect fds_le 0 m → effect fds_le 0 (reply_now m).
Proof. intros H. unfold reply_now. effect_tac. Qed.
Lemma publish_fds bp : effect fds_le 0 (publish bp).
Proof. unfold publish. effect_tac. Qed.
#[export] Hint Resolve lookup_path_fds reply_now_fds publish_fds : effects.
Lemma procfs_read_fds ino off n : effect fds_le 0 (procfs_read ino off n).
Proof. unfold procfs_read, generate_content. effect_tac. Qed.
Lemma parent_of_fds path : effect fds_le 0 (parent_of path).
Proof. unfold parent_of. effect_tac. Qed.
Lemma aim_cursor_fds fs ino : effect fds_le 0 (aim_cursor fs ino).
Proof. unfold aim_cursor. effect_tac. Qed.
Lemma step_cursor_fds e : effect fds_le 0 (step_cursor e).
Proof. unfold step_cursor. effect_tac. Qed.
#[export] Hint Resolve procfs_read_fds parent_of_fds aim_cursor_fds step_cursor_fds : effects.

(** ** The operations *)

Lemma vfs_open_fds path perms : effect fds_le 1 (vfs_open path perms).
Proof.
  unfold vfs_open. destruct (negb _); [effect_tac|]. cbv zeta.
  apply effect_tick; [apply _|apply alloc_fd_fds|]. intros i. effect_tac.
Qed.

Lemma vfs_read_fds t n : effect fds_le 0 (vfs_read t n).
Proof. unfold vfs_read. effect_tac. Qed.
Lemma vfs_write_fds t src : effect fds_le 0 (vfs_write t src).
Proof. unfold vfs_write. effect_tac. Qed.
Lemma vfs_lseek_fds t off whence : effect fds_le 0 (vfs_lseek t off whence).
Proof. unfold vfs_lseek. effect_tac. Qed.
Lemma vfs_readdir_fds path n : effect fds_le 0 (vfs_readdir path n).
Proof. unfold vfs_readdir. effect_tac. Qed.

Lemma vfs_dup_fds t : effect fds_le 1 (vfs_dup t).
Proof.
  unfold vfs_dup. effect_step. effect_step. apply effect_tick; [apply _|apply alloc_fd_fds|]. intros i. effect_tac.
Qed.

Lemma vfs_dup2_fds t new : effect fds_le 1 (vfs_dup2 t new).
Proof.
  unfold vfs_dup2. effect_step. effect_step. destruct (_ <=? _); [effect_tac|].
  apply effect_tick; [apply _| |intros _; effect_tac]. apply fd_upd_fds. intros x. by exists 1%nat.
Qed.

Lemma vfs_pipe_fds : effect fds_le 2 vfs_create_pipe.
Proof.
  unfold vfs_create_pipe. apply effect_tick; [apply _|apply alloc_fd_fds|]. intros i.
  apply effect_tick; [apply _|apply alloc_fd_fds|]. intros j. effect_tac.
Qed.

(** [current().fds[i]] filled in place. *)
Lemma fill_current_fds (i : Z) g (ret : Z → VfsFd → Z) :
  tame g →
  effect fds_le 0 (p ← current; fd ← lift (idx (p_fds p) i); l ← lift (set_idx (p_fds p) i (g fd));
                   upd_current (set_p_fds l);; mret (ret i fd)).
Proof.
  intros Hg s. assert (fds_le 0 s s) as Hrefl by apply graded_refl.
  unfold current, upd_current. destruct (idx (g_hart_current (kernel s)) (m_hart s)) as [p|e|] eqn:Ep.
  2,3: unfold mbind, SM_bind; rewrite cur_ptr_eq, Ep; exact Hrefl.
  destruct (g_procs (kernel s) !! p) as [x|] eqn:Ex.
  2: { unfold mbind, SM_bind. rewrite cur_ptr_eq, Ep, (on_k_read _ s Panic); [exact Hrefl|]. unfold deref. by rewrite Ex. }
  rewrite (sm_bind_ok _ _ s x s) by (by apply (current_eq s p x)).
  destruct (idx (p_fds x) i) as [fd|e|] eqn:Ei; [|exact Hrefl..]. rewrite lift_bind.
  destruct (set_idx (p_fds x) i (g fd)) as [l|e|] eqn:El; [|exact Hrefl..]. rewrite lift_bind.
  unfold mbind, SM_bind. rewrite cur_ptr_eq, Ep. unfold on_k, on_ipc, onk, update, kernel in *. rewrite Ex. simpl.
  split; simpl; [apply table_le_refl|]. intros q. unfold kernel, fds_of. simpl.
  destruct (decide (p = q)) as [<-|Hne]; [|rewrite lookup_insert_ne by done; apply table_le_refl].
  rewrite lookup_insert_eq, Ex. simpl. unfold idx in Ei. unfold set_idx in El.
  destruct (i <? 0); [discriminate Ei|]. destruct (_ && _); [|discriminate El]. injection El as <-.
  destruct (p_fds x !! Z.to_nat i) eqn:Et; [|discriminate Ei]. injection Ei as ->.
  apply table_le_insert; [done|]. by apply slot_tame.
Qed.

Lemma vfs_create_fds path mode : effect fds_le 1 (vfs_create path mode).
Proof.
  unfold vfs_create. effect_step. effect_step. apply effect_tick; [apply _|apply alloc_fd_fds|]. intros i.
  by apply (fill_current_fds i (target_fd _ 0 FsOnyx 0) (λ i fd, fd_token i (fd_epoch fd))).
Qed.

(** ** Sequences of operations *)

Inductive vop :=
  | VOpen (path : list Z) (perms : Z) | VClose (t : Z) | VRead (t n : Z) | VWrite (t : Z) (src : list Z)
  | VStat (t : Z) | VLseek (t off whence : Z) | VTruncate (t : Z) | VDup (t : Z) | VDup2 (t new : Z)
  | VPipe | VCreate (path : list Z) (mode : Z) | VMkdir (path : list Z) | VReaddir (path : list Z) (n : Z)
  | VUnlink (path : list Z) | VRename (old new : list Z) | VUtimens (path : list Z) (mtime atime : Z).

(** The state after an operation, whatever it answered. *)
Definition run_op (o : vop) (s : Machine) : Machine :=
  match o with
  | VOpen path perms => (vfs_open path perms s).2
  | VClose t => (vfs_close t s).2
  | VRead t n => (vfs_read t n s).2
  | VWrite t src => (vfs_write t src s).2
  | VStat t => (vfs_stat t s).2
  | VLseek t off whence => (vfs_lseek t off whence s).2
  | VTruncate t => (vfs_truncate t s).2
  | VDup t => (vfs_dup t s).2
  | VDup2 t new => (vfs_dup2 t new s).2
  | VPipe => (vfs_create_pipe s).2
  | VCreate path mode => (vfs_create path mode s).2
  | VMkdir path => (vfs_mkdir path s).2
  | VReaddir path n => (vfs_readdir path n s).2
  | VUnlink path => (vfs_unlink path s).2
  | VRename old new => (vfs_rename old new s).2
  | VUtimens path m a => (vfs_utimens path m a s).2
  end.

Definition run_ops (ops : list vop) (s : Machine) : Machine := fold_left (λ s o, run_op o s) ops s.

Lemma effect_state {A} n (m : MM A) s : effect fds_le n m → (n ≤ 2)%nat → fds_le 2 s (m s).2.
Proof. intros H Hn. apply (graded_mono n); [done|]. apply H. Qed.

Lemma run_op_fds o s : fds_le 2 s (run_op o s).
Proof.
  destruct o; cbn [run_op].
  - by eapply effect_state; [apply vfs_open_fds|lia].
  - apply (effect_state 0); [unfold vfs_close; effect_tac|lia].
  - by eapply effect_state; [apply vfs_read_fds|lia].
  - by eapply effect_state; [apply vfs_write_fds|lia].
  - apply (effect_state 0); [unfold vfs_stat; effect_tac|lia].
  - by eapply effect_state; [apply vfs_lseek_fds|lia].
  - apply (effect_state 0); [unfold vfs_truncate; effect_tac|lia].
  - by eapply effect_state; [apply vfs_dup_fds|lia].
  - by eapply effect_state; [apply vfs_dup2_fds|lia].
  - by eapply effect_state; [apply vfs_pipe_fds|lia].
  - by eapply effect_state; [apply vfs_create_fds|lia].
  - apply (effect_state 0); [unfold vfs_mkdir; effect_tac|lia].
  - by eapply effect_state; [apply vfs_readdir_fds|lia].
  - apply (effect_state 0); [unfold vfs_unlink; effect_tac|lia].
  - apply (effect_state 0); [unfold vfs_rename; effect_tac|lia].
  - apply (effect_state 0); [unfold vfs_utimens; effect_tac|lia].
Qed.

Lemma run_ops_fds ops : ∀ s, fds_le (2 * length ops) s (run_ops ops s).
Proof.
  induction ops as [|o ops IH]; intros s; [apply graded_refl|]. unfold run_ops in *. cbn [fold_left length].
  replace (2 * S (length ops))%nat with (2 + 2 * length ops)%nat by lia.
  eapply graded_trans; [apply run_op_fds|apply IH].
Qed.

Lemma fds_le_tab n s s' key : fds_le n s s' → table_le n (tab s key) (tab s' key).
Proof. intros [H1 H2]. destruct key; [apply H2|apply H1]. Qed.

(** ** Checking a token *)

Lemma fd_check_eq s key i e f :
  active s = Ok key → 0 ≤ i < 16 → u32 e → tab s key !! Z.to_nat i = Some f →
  fd_check (fd_token i e) s = (if fd_used f && (fd_epoch f =? e) then Ok i else Err BadFd, s).
Proof.
  intros H Hi He Hf. unfold fd_check. rewrite fd_token_idx_token, fd_token_epoch_token by (done || lia).
  unfold VFS_MAX_FDS. rewrite (proj2 (Z.leb_gt 16 i)) by lia.
  rewrite (sm_bind_ok _ _ s f s) by (rewrite (fd_get_eq _ _ _ H); rewrite (idx_ok _ _ f) by (done || lia); done).
  by destruct (fd_used f), (fd_epoch f =? e).
Qed.

Lemma fd_check_perm_eq s key i f perm :
  active s = Ok key → 0 ≤ i < 16 → u32 (fd_epoch f) → fd_used f = true → tab s key !! Z.to_nat i = Some f →
  fd_check_perm (fd_token i (fd_epoch f)) perm s =
    (if Z.land (fd_perms f) perm =? 0 then Err Perm else Ok i, s).
Proof.
  intros H Hi He Hu Hf. unfold fd_check_perm.
  rewrite (sm_bind_ok _ _ s i s) by (rewrite (fd_check_eq _ _ _ _ _ H Hi He Hf), Hu, Z.eqb_refl; done).
  rewrite (sm_bind_ok _ _ s f s) by (rewrite (fd_get_eq _ _ _ H); rewrite (idx_ok _ _ f) by (done || lia); done).
  by destruct (_ =? 0).
Qed.

(** A dead token stays dead over a bounded number of hand-outs. *)
Lemma slot_dead n f f' : slot_le n f f' → fd_used f = false → u32 (fd_epoch f) → Z.of_nat n < 4294967295 →
  fd_used f' && (fd_epoch f' =? fd_epoch f) = false.
Proof.
  intros (k & Hk & E & U) Hu He Hn. destruct k as [|k].
  - specialize (U eq_refl). rewrite Hu in U. destruct (fd_used f'); [by specialize (U eq_refl)|done].
  - rewrite E, (proj2 (Z.eqb_neq _ _)), andb_false_r; [done|]. apply iter_epoch_ne; [done|lia|lia].
Qed.

Lemma tab_set_tab s key l i x :
  active s = Ok key → l !! i = Some x → tab (set_tab key l s) key !! i = Some x.
Proof.
  intros H Hl. destruct key as [p|]; simpl; [|done]. destruct (active_proc s p H) as (y & _ & Ey).
  unfold update. rewrite Ey. unfold kernel, fds_of. simpl. by rewrite lookup_insert_eq.
Qed.

(** ** Properties of the file layer *)


Module VfsTheorems.

(** A machine in which process 100 (pid 1) runs on hart 0; procfs is mounted. *)
Definition no_super : OnyfsSuper := mkOnyfsSuper 0 0 0 0 0 0 0 0 0 0 0 0 0 0 0 0 [].
Definition no_pmm : Pmm := mkPmm 0x80800000 16 16 [0; 0] [0; 0; 0] ∅.
Definition demo_machine : Machine :=
  mkMachine 0 5536 (mkIpc SchedTheorems.demo G_CHANNELS_init) (mkVm no_pmm ∅)
    (heap_init 0x80400000 no_pmm (λ _, 0)) (mkOnyfs 0 0 2 no_super (zeros 4096) 0 ∅ 0)
    (mkFat 0 0 0 0 0 0 (zeros 512) ∅) (replicate 16 VfsFd_default)
    (<[0%nat := mkMountEntry (txt "proc") FsProc]> G_MOUNTS_init) FsNone
    (mkDirCursor 0 0 false FsNone) (zeros 512) 0 1 [] [] TrapFrame_zero
    (mkNet (replicate 6 0) (replicate 4 0) [] 0 (replicate 8 None) 40000 [] []) [].

(** With [/proc/version] open for reading as descriptor 3. *)
Definition open_machine : Machine := (vfs_open (txt "/proc/version") PERM_READ demo_machine).2.

(** C25. A token is a capability: closing it succeeds, and from then on the token is
    rejected with BadFd, whatever the next file operations are and answer, if there are
    fewer than 2^31 - 1 of them, whether or not the descriptor is handed out again. (The
    32-bit epoch wraps: after 2^32 - 1 hand-outs the token would be accepted.) *)
Theorem closed_token_stays_closed s key i f ops :
  active s = Ok key → 0 ≤ i < 16 → tab s key !! Z.to_nat i = Some f → fd_used f = true → u32 (fd_epoch f) →
  Z.of_nat (length ops) < 2147483647 →
  ∃ s1, vfs_close (fd_token i (fd_epoch f)) s = (Ok tt, s1) ∧
    (active (run_ops ops s1) = Ok key →
     fd_check (fd_token i (fd_epoch f)) (run_ops ops s1) = (Err BadFd, run_ops ops s1)).
Proof.
  intros H Hi Hf Hu He Hops. exists (set_tab key (<[Z.to_nat i := drop_fd f]> (tab s key)) s). split.
  { unfold vfs_close. rewrite (sm_bind_ok _ _ s i s) by (rewrite (fd_check_eq _ _ _ _ _ H Hi He Hf), Hu, Z.eqb_refl; done).
    unfold fd_clear. rewrite (fd_upd_eq _ _ _ _ _ H (proj1 Hi) Hf). done. }
  set (s1 := set_tab _ _ s). intros Hact.
  assert (tab s1 key !! Z.to_nat i = Some (drop_fd f)) as Hf1 by (apply tab_set_tab; [done|]; apply list_lookup_insert_eq; by apply lookup_lt_Some in Hf).
  pose proof (fds_le_tab _ _ _ key (run_ops_fds ops s1)) as Hle.
  destruct (Forall2_lookup_l _ _ _ _ _ Hle Hf1) as (f' & Hf' & Hs).
  rewrite (fd_check_eq _ _ _ _ _ Hact Hi He Hf').
  pose proof (slot_dead _ _ _ Hs eq_refl He ltac:(lia)) as Hd. cbn [drop_fd fd_epoch] in Hd. by rewrite Hd.
Qed.

Lemma closed_token_stays_closed_witness :
  (vfs_open (txt "/proc/version") PERM_READ demo_machine).1 = Ok (fd_token 3 1) ∧
  ∃ s1, vfs_close (fd_token 3 1) open_machine = (Ok tt, s1) ∧
    fd_check (fd_token 3 1) (run_ops [VOpen (txt "/proc/version") PERM_READ] s1) =
      (Err BadFd, run_ops [VOpen (txt "/proc/version") PERM_READ] s1).
Proof.
  split; [vm_compute; reflexivity|].
  assert (active open_machine = Ok (Some 100)) as H1 by (vm_compute; reflexivity).
  assert (tab open_machine (Some 100) !! Z.to_nat 3 = Some (mkVfsFd 2 40 0 FsProc true 1 1)) as H2 by (vm_compute; reflexivity).
  pose proof (closed_token_stays_closed open_machine (Some 100) 3 (mkVfsFd 2 40 0 FsProc true 1 1)
              [VOpen (txt "/proc/version") PERM_READ] H1 ltac:(lia) H2 eq_refl ltac:(cbn; unfold u32; lia) ltac:(cbn [length]; lia)) as H.
  cbn [fd_epoch] in H. destruct H as (s1 & E & H). exists s1. split; [exact E|]. apply H.
  assert (s1 = (vfs_close (fd_token 3 1) open_machine).2) as -> by (rewrite E; reflexivity).
  vm_compute. reflexivity.
Defined.

(** C27. A descriptor grants what it was opened for and no more: without the right
    to read, write or seek, [read], [write] and [lseek] answer Perm and change
    nothing at all; with the right to seek, [lseek] either fails or moves the
    position to a place within the file, and changes nothing else. *)
Theorem descriptor_rights s key i f :
  active s = Ok key → 0 ≤ i < 16 → tab s key !! Z.to_nat i = Some f → fd_used f = true →
  u32 (fd_epoch f) → u32 (fd_size f) →
  let t := fd_token i (fd_epoch f) in
  (Z.land (fd_perms f) PERM_READ = 0 → ∀ n, vfs_read t n s = (Err Perm, s)) ∧
  (Z.land (fd_perms f) PERM_WRITE = 0 → ∀ src, vfs_write t src s = (Err Perm, s)) ∧
  (Z.land (fd_perms f) PERM_SEEK = 0 → ∀ off whence, vfs_lseek t off whence s = (Err Perm, s)) ∧
  (Z.land (fd_perms f) PERM_SEEK ≠ 0 → ∀ off whence,
    (∃ e, vfs_lseek t off whence s = (Err e, s)) ∨
    (∃ pos, vfs_lseek t off whence s =
       (Ok pos, set_tab key (<[Z.to_nat i := set_fd_pos pos f]> (tab s key)) s) ∧ 0 ≤ pos ≤ fd_size f)).
Proof.
  intros H Hi Hf Hu He Hsz t. unfold t.
  split; [|split; [|split]].
  1,2,3: intros Hp; intros; unfold vfs_read, vfs_write, vfs_lseek;
    by rewrite (sm_bind_err _ _ s Perm s) by (by rewrite (fd_check_perm_eq _ _ _ _ _ H Hi He Hu Hf), Hp).
  intros Hp off whence. unfold vfs_lseek.
  rewrite (sm_bind_ok _ _ s i s) by (by rewrite (fd_check_perm_eq _ _ _ _ _ H Hi He Hu Hf), (proj2 (Z.eqb_neq _ _) Hp)).
  rewrite (sm_bind_ok _ _ s f s) by (rewrite (fd_get_eq _ _ _ H); rewrite (idx_ok _ _ f) by (done || lia); done).
  destruct (seek_pos f off whence) as [pos|]; [|left; by exists Inval].
  destruct ((pos <? 0) || (fd_size f <? pos)) eqn:E; [left; by exists Range|]. right. exists pos.
  apply orb_false_iff in E as [E1 E2]. apply Z.ltb_ge in E1, E2. split; [|lia]. unfold u32 in Hsz.
  assert (w32 pos = pos) as -> by (apply Z.mod_small; lia).
  unfold fd_update_pos. by rewrite (sm_bind_ok _ _ _ _ _ (fd_upd_eq _ _ _ _ _ H (proj1 Hi) Hf)).
Qed.

Lemma descriptor_rights_witness :
  vfs_write (fd_token 3 1) [1; 2; 3] open_machine = (Err Perm, open_machine) ∧
  vfs_lseek (fd_token 3 1) 5 0 open_machine = (Err Perm, open_machine).
Proof.
  assert (active open_machine = Ok (Some 100)) as H1 by (vm_compute; reflexivity).
  assert (tab open_machine (Some 100) !! Z.to_nat 3 = Some (mkVfsFd 2 40 0 FsProc true 1 1)) as H2 by (vm_compute; reflexivity).
  pose proof (descriptor_rights open_machine (Some 100) 3 (mkVfsFd 2 40 0 FsProc true 1 1)
              H1 ltac:(lia) H2 eq_refl ltac:(cbn; unfold u32; lia) ltac:(cbn; unfold u32; lia)) as (_ & Hw & Hs & _).
  cbn [fd_epoch] in Hw, Hs. split; [apply Hw; reflexivity|apply Hs; reflexivity].
Defined.

End VfsTheorems.
