(* ===== verification/Lifecycle.v ===== *)
(** * kernel/src/proc/lifecycle.rs, signals.rs: the life of a process

    A [Proc] is allocated on the kernel heap; the process table maps its address
    to its contents, which stay there after [kfree] like any freed memory.  What
    the kernel logs to the console is left out. *)

From S2P Require Import Prelude Formats Vnode Process Sched Ipc Pmm Vmm Heap Onyxfs Fat32 Machine Procfs Vfs.
From stdpp Require Import base list numbers gmap.
From Stdlib Require Import ZArith Lia.

Open Scope Z_scope.

(** ** lifecycle.rs *)

(** Zeroed memory with the fields [alloc_proc] sets. *)
Definition blank_proc (all_next : Z) : Proc :=
  mkProc 0 PROC_RING_KERNEL Free 0 0 0 0 0 0 0x30000000 (replicate 256 0) 0 0 0
    TrapFrame_zero TrapFrame_zero 0 0 (replicate 32 0) TrapFrame_zero false
    (replicate PROC_MAX_FDS VfsFd_default) all_next 0 0 0 false.

Definition alloc_proc : MM Z :=
  n ← gets m_proc_size;
  p ← on_heap (kmalloc n);
  head ← gets (λ s, g_all_procs (kernel s));
  on_k (modify (λ k, set_g_procs (<[p := blank_proc head]> (g_procs k)) k));;
  on_k (modify (set_g_all_procs p));;
  mret p.

(** [while !cur.is_null() && cur->all_next != p], then the unlinking. *)
Fixpoint unlink_all (fuel : nat) (p next cur : Z) : KM unit :=
  match fuel with
  | O => panic
  | S fuel =>
      if cur =? 0 then mret tt else
      x ← deref cur;
      if negb (p_all_next x =? p) then unlink_all fuel p next (p_all_next x)
      else update cur (set_p_all_next next)
  end.

Definition unlink_proc (p : Z) : KM unit :=
  head ← gets g_all_procs;
  x ← deref p;
  if head =? p then modify (set_g_all_procs (p_all_next x)) else
  fuel ← gets walk_fuel;
  unlink_all fuel p (p_all_next x) head.

Definition free_proc (p : Z) : MM unit :=
  on_k (unlink_proc p);;
  on_heap (kfree p).

(** Where [enter_user] ends: in user mode, or halted. *)
Definition enter_user (pid : Z) : MM outcome :=
  p ← on_k (by_pid pid);
  if p =? 0 then mret Halted else
  on_k (update p (set_p_state Running));;
  h ← hart_id;
  on_k (set_current_for_hart h p);;
  mret (SwitchTo p).

(** [for i in i..p.fds.len()]: the tokens are those of [p], [close] looks them up
    in the active table. *)
Fixpoint close_all (n : nat) (i p : Z) : MM unit :=
  match n with
  | O => mret tt
  | S n =>
      x ← on_k (deref p);
      fd ← lift (idx (p_fds x) i);
      (if fd_used fd then ignore (vfs_close (fd_token i (fd_epoch fd))) else mret tt);;
      close_all n (i + 1) p
  end.

(** Wake the parent if it waits. *)
Definition wake_parent (hart parent : Z) : KM unit :=
  if parent =? 0 then mret tt else
  pp ← by_pid parent;
  if pp =? 0 then mret tt else
  x ← deref pp;
  if bool_decide (p_state x = Waiting)
  then update pp (set_p_state Ready);; enqueue hart pp
  else mret tt.

(** Orphans go to init. *)
Fixpoint reparent (fuel : nat) (pid cur : Z) : KM unit :=
  match fuel with
  | O => panic
  | S fuel =>
      if cur =? 0 then mret tt else
      x ← deref cur;
      (if (p_parent_pid x =? pid) && negb (bool_decide (p_state x = Free)) && negb (bool_decide (p_state x = Exited))
       then update cur (set_p_parent_pid 1) else mret tt);;
      reparent fuel pid (p_all_next x)
  end.

Definition exit (pid code : Z) : MM unit :=
  p ← on_k (by_pid pid);
  if p =? 0 then mret tt else
  x ← on_k (deref p);
  close_all (length (p_fds x)) 0 p;;
  on_vm (destroy_root (p_root_pa x));;
  on_k (update p (λ x, set_p_state Exited (set_p_exit_code code x)));;
  h ← hart_id;
  on_k (wake_parent h (p_parent_pid x));;
  on_k (fuel ← gets walk_fuel; head ← gets g_all_procs; reparent fuel pid head).

(** ** signals.rs *)

Definition SIG_KILL : Z := 9.
Definition SIG_STOP : Z := 19.

(** [1u32 << sig] and [!(1u32 << sig)] for [sig < 32] *)
Definition sigbit (sig : Z) : Z := Z.shiftl 1 sig.
Definition not32 (z : Z) : Z := 4294967295 - z.

Definition signal_send (pid signal : Z) : MM unit :=
  if (signal =? 0) || (32 <=? signal) then fail Inval else
  p ← on_k (by_pid pid);
  if p =? 0 then fail NoEnt else
  on_k (update p (λ x, set_p_pending_signals (Z.lor (p_pending_signals x) (sigbit signal)) x));;
  x ← on_k (deref p);
  h ← hart_id;
  if bool_decide (p_state x = Waiting)
  then on_k (update p (set_p_state Ready);; enqueue h p)
  else mret tt.

Definition sigaction (signum act_ptr oldact_ptr : Z) : MM unit :=
  if (signum =? 0) || (32 <=? signum) then fail Inval else
  if (signum =? SIG_KILL) || (signum =? SIG_STOP) then fail Inval else
  p ← current;
  old ← lift (idx (p_signal_handlers p) signum);
  (if negb (oldact_ptr =? 0) then
     old_pa ← translate_cur oldact_ptr;
     if negb (old_pa =? 0) then
       store_pa 8 old_pa old;; store_pa 8 (old_pa + 8) 0;;
       store_pa 8 (old_pa + 16) 0;; store_pa 8 (old_pa + 24) 0
     else mret tt
   else mret tt);;
  if act_ptr =? 0 then mret tt else
  new_pa ← translate_cur act_ptr;
  if new_pa =? 0 then fail Inval else
  handler ← load_pa 8 new_pa;
  extra_mask ← load_pa 8 (new_pa + 8);
  hs ← lift (set_idx (p_signal_handlers p) signum handler);
  upd_current (set_p_signal_handlers hs);;
  if negb (extra_mask =? 0)
  then upd_current (λ x, set_p_signal_mask (Z.lor (p_signal_mask x) (w32 extra_mask)) x)
  else mret tt.

Definition protected : Z := Z.lor (sigbit SIG_KILL) (sigbit SIG_STOP).

Definition sigprocmask (how set_ptr oldset_ptr : Z) : MM unit :=
  p ← current;
  (if negb (oldset_ptr =? 0) then
     old_pa ← translate_cur oldset_ptr;
     if negb (old_pa =? 0) then store_pa 8 old_pa (p_signal_mask p) else mret tt
   else mret tt);;
  if set_ptr =? 0 then mret tt else
  set_pa ← translate_cur set_ptr;
  if set_pa =? 0 then fail Inval else
  v ← load_pa 8 set_pa;
  let new := Z.land (w32 v) (not32 protected) in
  if how =? 0 then upd_current (λ x, set_p_signal_mask (Z.lor (p_signal_mask x) new) x) else
  if how =? 1 then upd_current (λ x, set_p_signal_mask (Z.land (p_signal_mask x) (not32 new)) x) else
  if how =? 2 then upd_current (set_p_signal_mask new) else
  fail Inval.

Definition sigreturn : MM unit :=
  p ← current;
  if negb (p_in_signal_handler p) then mret tt else
  upd_current (set_p_in_signal_handler false);;
  modify (set_m_tf (p_saved_tf p)).

(** [for i in i..32]: the lowest pending signal, 0 when there is none. *)
Fixpoint lowest (n : nat) (i pending : Z) : Z :=
  match n with
  | O => 0
  | S n => if negb (Z.land pending (sigbit i) =? 0) then i else lowest n (i + 1) pending
  end.

(** The frame that enters a handler. *)
Definition handler_frame (handler signum : Z) (tf : TrapFrame) : TrapFrame :=
  let sp := Z.land (w64 (tf_sp tf - 256)) (18446744073709551615 - 15) in
  set_tf_sp sp (set_tf_a0 signum (set_tf_sepc handler tf)).

(** Exit with a code and ask for a switch. *)
Definition die (hart pid code : Z) : MM unit :=
  exit pid code;;
  on_k (at_set g_need_resched set_g_need_resched hart true).

Definition signal_check : MM unit :=
  h ← hart_id;
  cur ← on_k (current_for_hart h);
  if cur =? 0 then mret tt else
  x ← on_k (deref cur);
  if negb (Z.land (p_pending_signals x) (sigbit SIG_KILL) =? 0) then
    on_k (update cur (set_p_pending_signals (Z.land (p_pending_signals x) (not32 (sigbit SIG_KILL)))));;
    die h (p_pid x) (128 + SIG_KILL)
  else if p_in_signal_handler x then mret tt
  else
    let pending := Z.land (p_pending_signals x) (not32 (p_signal_mask x)) in
    if pending =? 0 then mret tt else
    let signum := lowest 31 1 pending in
    if signum =? 0 then mret tt else
    on_k (update cur (set_p_pending_signals (Z.land (p_pending_signals x) (not32 (sigbit signum)))));;
    handler ← lift (idx (p_signal_handlers x) signum);
    if handler =? 0 then die h (p_pid x) (128 + signum) else
    if handler =? 1 then mret tt else
    tf ← gets m_tf;
    on_k (update cur (λ x, set_p_in_signal_handler true (set_p_saved_tf tf x)));;
    modify (set_m_tf (handler_frame handler signum tf)).
