(* ===== verification/Onx.v ===== *)
(** * kernel/src/proc/onx, kernel/src/proc/spawn.rs: starting a program

    The loader reads an image in kernel memory, builds a page table for it and
    copies its segments; [copy_argv_envp_to_stack] builds the initial stack.
    Loops over pages get as many rounds as there are pages to visit. *)

From S2P Require Import Prelude Formats Vnode Process Sched Ipc Pmm Vmm Heap Onyxfs Fat32 Machine Procfs Vfs Lifecycle.
From stdpp Require Import base list numbers gmap.
From Stdlib Require Import ZArith Lia.

Open Scope Z_scope.

(** ** arch/regs.rs *)

Definition USER_BASE : Z := 0x10000.
Definition USER_TOP : Z := 0x40000000.
Definition USER_HEAP_BASE : Z := 0x01000000.
Definition USER_HEAP_SIZE : Z := 64 * 1024 * 1024.
Definition USER_STACK_PAGES : Z := 64.
Definition USER_HEAP_PAGES : Z := 16.
Definition SSTATUS_SPIE : Z := 32.
Definition SATP_MODE_SV39 : Z := Z.shiftl 8 60.

(** [va & !0xFFF] *)
Definition page_base (va : Z) : Z := Z.land va (18446744073709551615 - 0xFFF).

Definition USER_RW : Z := Z.lor (Z.lor (Z.lor (Z.lor (Z.lor PTE_V PTE_R) PTE_W) PTE_U) PTE_A) PTE_D.

(** ** segments.rs *)

(** [pmm::alloc_zero()?], then [map_one_pub] of the page at [va]. *)
Definition map_fresh (root_pa va flags : Z) : VM unit :=
  page_pa ← vm_alloc_zero;
  map_one root_pa va page_pa flags 0.

Fixpoint map_pages (fuel : nat) (root_pa va end_ flags : Z) : VM unit :=
  if end_ <=? va then mret tt else
  match fuel with
  | O => panic
  | S fuel =>
      let pb := page_base va in
      t ← translate_user root_pa pb;
      (if t =? 0 then map_fresh root_pa pb flags else mret tt);;
      map_pages fuel root_pa (Z.min (w64 (pb + 4096)) end_) end_ flags
  end.

(** [image.add(off)] for [n] bytes. *)
Definition image_bytes (image off n : Z) : MM (list Z) := gets (peeks (Z.to_nat n) (w64 (image + off))).

(** The two [while left > 0] loops: [bytes] go to the pages of [out_va..]. *)
Fixpoint fill_pages (fuel : nat) (root_pa out_va : Z) (bytes : list Z) : MM unit :=
  match bytes with
  | [] => mret tt
  | _ =>
      match fuel with
      | O => panic
      | S fuel =>
          let poff := Z.land out_va 0xFFF in
          paddr ← on_vm (translate root_pa (page_base out_va));
          let chunk := Z.min (len bytes) (4096 - poff) in
          store_bytes (w64 (paddr + poff)) (rd 0 chunk bytes);;
          fill_pages fuel root_pa (w64 (out_va + chunk)) (drop (Z.to_nat chunk) bytes)
      end
  end.

(** The main loop of [decompress_to_pages]; a tag and a byte at least are
    consumed per round. *)
Fixpoint unpack (fuel : nat) (root_pa src comp_end file_end in_off out_va : Z) : MM unit :=
  if (comp_end <=? in_off) || (file_end <=? out_va) then mret tt else
  match fuel with
  | O => panic
  | S fuel =>
      tag ← gets (λ s, peek s (w64 (src + in_off)));
      let in_off := in_off + 1 in
      let left n := Z.min n (w64 (file_end - out_va)) in
      if negb (Z.land tag 0x80 =? 0) then
        if comp_end <=? in_off then fail Inval else
        val ← gets (λ s, peek s (w64 (src + in_off)));
        let n := left (Z.land tag 0x7F + 1) in
        fill_pages 2 root_pa out_va (replicate (Z.to_nat n) val);;
        unpack fuel root_pa src comp_end file_end (in_off + 1) (w64 (out_va + n))
      else
        let n := left (tag + 1) in
        if comp_end <? in_off + n then fail Inval else
        bytes ← image_bytes src in_off n;
        fill_pages 2 root_pa out_va bytes;;
        unpack fuel root_pa src comp_end file_end (in_off + n) (w64 (out_va + n))
  end.

Definition decompress_to_pages (root_pa : Z) (s : OnxSegment) (image : Z) : MM unit :=
  unpack (Z.to_nat (seg_compressed_size s)) root_pa (w64 (image + seg_offset s))
    (seg_compressed_size s) (w64 (seg_vaddr s + seg_filesz s)) 0 (seg_vaddr s).

Fixpoint copy_pages (fuel : nat) (root_pa : Z) (s : OnxSegment) (image va end_ file_pos : Z) : MM unit :=
  if end_ <=? va then mret tt else
  match fuel with
  | O => panic
  | S fuel =>
      let pb := page_base va in
      existing ← on_vm (translate_user root_pa pb);
      let page_va_end := Z.min (w64 (pb + 4096)) end_ in
      let copy_len := Z.min (w64 (page_va_end - va)) (sat_sub (seg_filesz s) file_pos) in
      (if 0 <? copy_len then
         bytes ← image_bytes image (w64 (seg_offset s + file_pos)) copy_len;
         store_bytes (w64 (existing + Z.land va 0xFFF)) bytes
       else mret tt);;
      copy_pages fuel root_pa s image page_va_end end_ (w64 (file_pos + copy_len))
  end.

(** Pages a segment can touch. *)
Definition seg_pages (s : OnxSegment) : nat := Z.to_nat (seg_memsz s / 4096 + 2).

Definition copy_raw_to_pages (root_pa : Z) (s : OnxSegment) (image : Z) : MM unit :=
  copy_pages (seg_pages s) root_pa s image (seg_vaddr s) (w64 (seg_vaddr s + seg_memsz s)) 0.

Definition map_segment_data (root_pa : Z) (s : OnxSegment) (image : Z) (compressed : bool) : MM unit :=
  let seg_flags := Z.lor (Z.lor (Z.lor (seg_flags s) PTE_U) PTE_A) PTE_D in
  on_vm (map_pages (seg_pages s) root_pa (seg_vaddr s) (w64 (seg_vaddr s + seg_memsz s)) seg_flags);;
  if compressed && (0 <? seg_compressed_size s)
  then decompress_to_pages root_pa s image else copy_raw_to_pages root_pa s image.

(** ** load.rs *)

Record OnxLoadResult := mkOnxLoadResult {
  lr_entry : Z; lr_root_pa : Z; lr_ustack : Z; lr_heap_brk : Z; lr_ring : Z }.

Fixpoint load_segs (root_pa image image_size : Z) (compressed : bool) (segs : list OnxSegment) : MM unit :=
  match segs with
  | [] => mret tt
  | s :: segs =>
      if (seg_vaddr s <? USER_BASE) || (USER_TOP <=? seg_vaddr s) then fail Range else
      if seg_memsz s <? seg_filesz s then fail Inval else
      let data_end := w64 (seg_offset s + (if compressed && (0 <? seg_compressed_size s)
                                           then seg_compressed_size s else seg_filesz s)) in
      if image_size <? data_end then fail Range else
      map_segment_data root_pa s image compressed;;
      load_segs root_pa image image_size compressed segs
  end.

(** [while va < top { alloc_zero; map_one_pub; va += 4096 }] for [n] pages *)
Fixpoint map_run (n : nat) (root_pa va : Z) : VM unit :=
  match n with
  | O => mret tt
  | S n => map_fresh root_pa va USER_RW;; map_run n root_pa (va + 4096)
  end.

(** A root with the kernel's three gigabytes. *)
Definition user_root : VM Z :=
  root_pa ← new_root;
  write_pte root_pa 0 (kernel_leaf 0);;
  write_pte root_pa 1 (kernel_leaf 1);;
  write_pte root_pa 2 (kernel_leaf 2);;
  mret root_pa.

Definition load (image image_size : Z) : MM OnxLoadResult :=
  if image_size <? 24 then fail Inval else
  bytes ← image_bytes image 0 image_size;
  oh ← lift (onx_from_bytes bytes);
  match oh with
  | None => fail Inval
  | Some hdr =>
      let compressed := negb (Z.land (onx_flags hdr) ONX_FLAGS_COMPRESSED =? 0) in
      root_pa ← on_vm user_root;
      load_segs root_pa image image_size compressed (onx_segs hdr);;
      on_vm (map_run (Z.to_nat USER_STACK_PAGES) root_pa (USER_TOP - USER_STACK_PAGES * 4096));;
      on_vm (map_run (Z.to_nat USER_HEAP_PAGES) root_pa USER_HEAP_BASE);;
      mret (mkOnxLoadResult (onx_entry hdr) root_pa (USER_TOP - 16) USER_HEAP_BASE
              (if negb (Z.land (onx_flags hdr) ONX_FLAGS_RING1 =? 0) then 1 else 2))
  end.

(** ** argv.rs *)

Definition MAX_ARGV : Z := 64.
Definition MAX_ARGV_BYTES : Z := 8192.
Definition MAX_ENVP : Z := 32.
Definition MAX_ENVP_BYTES : Z := 8192.

Definition argv_ptr_ok (p : Z) : bool := (USER_BASE <=? p) && (p <? USER_TOP).

Definition write_val (root_pa va v : Z) : MM unit :=
  pa ← on_vm (translate root_pa va);
  if negb (pa =? 0) then store_pa 8 pa v else mret tt.

(** [while slen < max_len && *(p + slen) != 0]: the bytes of a user string. *)
Fixpoint user_str (max_len : nat) (p : Z) : MM (list Z) :=
  match max_len with
  | O => mret []
  | S n =>
      b ← uread_le 1 p;
      if b =? 0 then mret [] else
      bs ← user_str n (w64 (p + 1));
      mret (b :: bs)
  end.

(** [collect_strings]: the blob of the strings, each with its NUL, and their offsets. *)
Fixpoint collect_strings (n : nat) (ptrs max_str_len cap : Z) (blob offs : list Z) : MM (list Z * list Z) :=
  match n with
  | O => mret (blob, offs)
  | S n =>
      p ← uread_le 8 ptrs;
      if p =? 0 then mret (blob, offs) else
      if negb (argv_ptr_ok p) then mret (blob, offs) else
      str ← user_str (Z.to_nat max_str_len) p;
      if cap <? len blob + len str + 1 then mret (blob, offs) else
      collect_strings n (ptrs + 8) max_str_len cap (blob ++ str ++ [0]) (offs ++ [len blob])
  end.

Definition strings_at (ptrs n max_str_len cap : Z) : MM (list Z * list Z) :=
  if negb (ptrs =? 0) && argv_ptr_ok ptrs
  then collect_strings (Z.to_nat n) ptrs max_str_len cap [] []
  else mret ([], []).

(** Consecutive words from [va] on. *)
Fixpoint write_vals (root_pa va : Z) (vs : list Z) : MM unit :=
  match vs with
  | [] => mret tt
  | v :: vs => write_val root_pa va v;; write_vals root_pa (w64 (va + 8)) vs
  end.

(** A blob goes to the physical bytes after the translation of its first one. *)
Definition write_blob (root_pa va : Z) (bytes : list Z) : MM unit :=
  pa ← on_vm (translate root_pa va);
  if negb (pa =? 0) then store_bytes pa bytes else mret tt.

Definition random_bytes (tick : Z) : list Z :=
  (λ i : nat, w8 (w64 (w64 (tick * 0x9E3779B97F4A7C15) + Z.of_nat i))) <$> seq 0 16.

Definition auxv (uid entry random_va : Z) : list Z :=
  [6; 4096; 17; 100; 11; uid; 12; uid; 13; uid; 14; uid; 9; entry; 25; random_va; 0; 0].

(** [argc] and the stack pointer. *)
Definition copy_argv_envp_to_stack (root_pa ustack_top argv_user envp_user entry_vaddr uid : Z) : MM (Z * Z) :=
  av ← strings_at argv_user MAX_ARGV 127 MAX_ARGV_BYTES;
  let '(argv_blob, argv_offs) := if len av.2 =? 0 then ([0], [0]) else av in
  let argc_eff := len argv_offs in
  ev ← strings_at envp_user MAX_ENVP 255 MAX_ENVP_BYTES;
  let '(envp_blob, envp_offs) := ev in
  tick ← gets uptime_us;
  let argv_ptr_size := (argc_eff + 1) * 8 in
  let envp_ptr_size := (len envp_offs + 1) * 8 in
  let total := 8 + argv_ptr_size + envp_ptr_size + 144 + len argv_blob + len envp_blob + 16 in
  let sp := Z.land (w64 (ustack_top - total)) (18446744073709551615 - 15) in
  let argv_str_base := w64 (sp + 8 + argv_ptr_size + envp_ptr_size + 144) in
  let envp_str_base := w64 (argv_str_base + len argv_blob) in
  let random_va := w64 (envp_str_base + len envp_blob) in
  write_vals root_pa sp
    ([argc_eff] ++ ((λ o, w64 (argv_str_base + o)) <$> argv_offs) ++ [0] ++
     ((λ o, w64 (envp_str_base + o)) <$> envp_offs) ++ [0] ++ auxv uid entry_vaddr random_va);;
  write_blob root_pa argv_str_base argv_blob;;
  (if 0 <? len envp_blob then write_blob root_pa envp_str_base envp_blob else mret tt);;
  write_blob root_pa random_va (random_bytes tick);;
  mret (argc_eff, sp).

Definition copy_argv_to_stack (root_pa ustack_top argv_user : Z) : MM (Z * Z) :=
  copy_argv_envp_to_stack root_pa ustack_top argv_user 0 0 0.

(** ** spawn.rs *)

(** [SATP_MODE_SV39 | (root_pa >> 12)] *)
Definition satp_of (root_pa : Z) : Z := Z.lor SATP_MODE_SV39 (Z.shiftr root_pa 12).

Definition start_frame (entry ustack root_pa argc argv_sp : Z) : TrapFrame :=
  set_tf_satp (satp_of root_pa) (set_tf_sstatus SSTATUS_SPIE
    (set_tf_a1 (if 0 <? argc then w64 (argv_sp + 8) else 0) (set_tf_a0 argc
      (set_tf_sp (if 0 <? argc then argv_sp else ustack) (set_tf_sepc entry TrapFrame_zero))))).

Definition create_user (entry ustack root_pa pid parent_pid heap_brk ring argc argv_sp : Z) : MM unit :=
  if entry =? 0 then fail Inval else
  p ← alloc_proc;
  let uid := if ring <=? PROC_RING_ROOT then 0 else 1000 in
  on_k (update p (λ x,
    set_p_pid pid (set_p_ring ring (set_p_state Ready (set_p_parent_pid parent_pid
    (set_p_exit_code 0 (set_p_root_pa root_pa (set_p_entry entry (set_p_ustack ustack
    (set_p_heap_brk heap_brk (set_p_uid uid (set_p_gid uid (set_p_pending_signals 0
    (set_p_signal_mask 0 (set_p_tf (start_frame entry ustack root_pa argc argv_sp) x)))))))))))))));;
  h ← hart_id;
  on_k (enqueue h p).

Definition spawn (path : list Z) (argv_user ring_hint parent_pid : Z) : MM Z :=
  token ← vfs_open path (Z.lor PERM_READ PERM_SEEK);
  size ← vfs_stat token;
  if size =? 0 then vfs_close token;; fail Inval else
  img ← on_heap (kmalloc size);
  r ← vfs_read token size;
  modify (pokes img r.2);;
  vfs_close token;;
  r ← load img size;
  on_heap (kfree img);;
  new_pid ← on_k alloc_pid;
  let ring := if (ring_hint =? PROC_RING_ROOT) && (lr_ring r =? 1) then PROC_RING_ROOT else PROC_RING_USER in
  a ← (if negb (argv_user =? 0) then copy_argv_to_stack (lr_root_pa r) (lr_ustack r) argv_user else mret (0, 0));
  create_user (lr_entry r) (lr_ustack r) (lr_root_pa r) new_pid parent_pid (lr_heap_brk r) ring a.1 a.2;;
  mret new_pid.

(** [sched_yield(tf)] *)
Definition yield : MM outcome := h ← hart_id; tf ← gets m_tf; on_k (sched_yield h tf).

(** Block as [Waiting]; the yield comes back only if nothing else can run. *)
Definition wait_for_child {A} (back : MM (reply A)) : MM (reply A) :=
  h ← hart_id;
  cur ← on_k (current_for_hart h);
  (if negb (cur =? 0) then on_k (update cur (set_p_state Waiting)) else mret tt);;
  o ← yield;
  match o with Returned => back | o => mret (Away o) end.

Definition child_of (my_pid : Z) (x : Proc) : bool := p_parent_pid x =? my_pid.
Definition is_exited (x : Proc) : bool := bool_decide (p_state x = Exited).

Definition wait (status_out : Z) : MM (reply Z) :=
  my_pid ← cur_pid;
  c ← on_k (find_proc (λ x, child_of my_pid x && is_exited x));
  if negb (c =? 0) then
    x ← on_k (deref c);
    (if negb (status_out =? 0) then uwrite_le 4 status_out (w32 (p_exit_code x)) else mret tt);;
    free_proc c;;
    mret (Reply (p_pid x))
  else
    c ← on_k (find_proc (λ x, child_of my_pid x && negb (bool_decide (p_state x = Free))));
    if c =? 0 then fail NoEnt else
    wait_for_child (fail NoEnt).
