(* ===== verification/Syscall.v ===== *)
(** * kernel/src/syscall: the system calls

    One definition per handler, with the checks of the source in their order; a
    handler that can block answers [reply].  The result of a call is the [i64]
    the source returns: a value, or the negative code of an error.  Structures
    written through a translated pointer go to consecutive physical bytes. *)

From S2P Require Import Prelude Formats Vnode Process Sched Ipc Pmm Vmm Heap Onyxfs Fat32 Net Machine Procfs Vfs Lifecycle Onx.
From Stdlib Require Import ZArith Lia String.
From stdpp Require Import base list numbers gmap.

Open Scope Z_scope.

(** ** abi.rs *)

Definition SYS_write : Z := 1.
Definition SYS_read : Z := 2.
Definition SYS_exit : Z := 3.
Definition SYS_yield : Z := 4.
Definition SYS_getpid : Z := 5.
Definition SYS_brk : Z := 6.
Definition SYS_mmap : Z := 7.
Definition SYS_open : Z := 8.
Definition SYS_close : Z := 9.
Definition SYS_lseek : Z := 10.
Definition SYS_stat : Z := 11.
Definition SYS_exec : Z := 12.
Definition SYS_sbrk : Z := 13.
Definition SYS_spawn : Z := 14.
Definition SYS_wait : Z := 15.
Definition SYS_readdir : Z := 16.
Definition SYS_getring : Z := 17.
Definition SYS_dropring : Z := 18.
Definition SYS_snapshot_create : Z := 19.
Definition SYS_snapshot_rollback : Z := 20.
Definition SYS_snapshot_list : Z := 21.
Definition SYS_kill : Z := 22.
Definition SYS_sigmask : Z := 23.
Definition SYS_write_fd : Z := 24.
Definition SYS_create : Z := 25.
Definition SYS_mkdir : Z := 26.
Definition SYS_chan_create : Z := 27.
Definition SYS_chan_connect : Z := 28.
Definition SYS_chan_send : Z := 29.
Definition SYS_chan_recv : Z := 30.
Definition SYS_chan_close : Z := 31.
Definition SYS_chan_create_named : Z := 32.
Definition SYS_chan_open : Z := 33.
Definition SYS_munmap : Z := 34.
Definition SYS_dup : Z := 35.
Definition SYS_pipe : Z := 36.
Definition SYS_unlink : Z := 37.
Definition SYS_rename : Z := 38.
Definition SYS_chdir : Z := 39.
Definition SYS_getcwd : Z := 40.
Definition SYS_truncate : Z := 41.
Definition SYS_access : Z := 42.
Definition SYS_gettimeofday : Z := 43.
Definition SYS_fcntl : Z := 44.
Definition SYS_getuid : Z := 45.
Definition SYS_getgid : Z := 46.
Definition SYS_utimens : Z := 47.
Definition SYS_uname : Z := 48.
Definition SYS_nanosleep : Z := 49.
Definition SYS_fstat : Z := 50.
Definition SYS_waitpid : Z := 51.
Definition SYS_getdents64 : Z := 52.
Definition SYS_ioctl : Z := 53.
Definition SYS_mprotect : Z := 54.
Definition SYS_sigaction : Z := 55.
Definition SYS_sigprocmask : Z := 56.
Definition SYS_sigreturn : Z := 57.
Definition SYS_execve : Z := 58.
Definition SYS_getppid : Z := 59.
Definition SYS_setpgid : Z := 60.
Definition SYS_setsid : Z := 61.
Definition SYS_getpgid : Z := 62.
Definition SYS_fork : Z := 63.
Definition SYS_clock_gettime : Z := 64.
Definition SYS_clock_getres : Z := 65.
Definition SYS_isatty : Z := 66.
Definition SYS_getentropy : Z := 67.
Definition SYS_setuid : Z := 68.
Definition SYS_setgid : Z := 69.
Definition SYS_fsync : Z := 70.
Definition SYS_truncate2 : Z := 71.
Definition SYS_ftruncate : Z := 72.
Definition SYS_readlink : Z := 73.
Definition SYS_symlink : Z := 74.
Definition SYS_chmod : Z := 75.
Definition SYS_fchmod : Z := 76.
Definition SYS_getdents : Z := 77.
Definition SYS_sched_setaffinity : Z := 78.
Definition SYS_sched_getaffinity : Z := 79.
Definition SYS_net_connect : Z := 80.
Definition SYS_net_send : Z := 81.
Definition SYS_net_recv : Z := 82.
Definition SYS_net_close : Z := 83.

Definition O_ACCMODE : Z := 3.
Definition O_WRONLY : Z := 1.
Definition O_RDWR : Z := 2.
Definition O_CREAT : Z := 0x40.
Definition O_TRUNC : Z := 0x200.
Definition O_APPEND : Z := 0x400.
Definition TCGETS : Z := 0x5401.
Definition TCSETS : Z := 0x5402.
Definition WNOHANG : Z := 1.

(** [f(..)] with a bit of [flags] set *)
Definition has (flags bit : Z) : bool := negb (Z.land flags bit =? 0).

(** ** handler.rs: user pointers *)

Definition user_ptr_ok (p n : Z) : bool := (USER_BASE <=? p) && (p + n <=? USER_TOP).

(** [while *p.add(len) != 0 && len < max]: the byte at [max] is still read. *)
Fixpoint c_str (max : nat) (p : Z) : MM (list Z) :=
  b ← uread_le 1 p;
  if b =? 0 then mret [] else
  match max with
  | O => mret []
  | S max => bs ← c_str max (p + 1); mret (b :: bs)
  end.

(** [Some(..)] is the path; only its first byte is checked. *)
Definition parse_user_path (path : Z) : MM (option (list Z)) :=
  if negb (user_ptr_ok path 1) then mret None else
  bs ← c_str 256 path; mret (Some bs).

(** [match parse_user_path(p) { Some(s) => .., None => return Errno::Inval.as_i64() }] *)
Definition with_path (p : Z) (f : list Z → MM Z) : MM Z :=
  o ← parse_user_path p;
  match o with Some path => f path | None => mret (as_i64 Inval) end.

(** [if !user_ptr_ok(p, n) { return Errno::Inval.as_i64() }] *)
Definition checked (p n : Z) (m : MM Z) : MM Z :=
  if negb (user_ptr_ok p n) then mret (as_i64 Inval) else m.

(** ** handler.rs: the access list *)

Definition ALL_RINGS : list Z :=
  [SYS_write; SYS_read; SYS_exit; SYS_yield; SYS_getpid; SYS_sbrk; SYS_open; SYS_close;
   SYS_lseek; SYS_stat; SYS_exec; SYS_readdir; SYS_getring; SYS_dropring; SYS_sigmask;
   SYS_write_fd; SYS_chan_connect; SYS_chan_send; SYS_chan_recv; SYS_chan_close; SYS_chan_open;
   SYS_brk; SYS_mmap; SYS_munmap; SYS_dup; SYS_chdir; SYS_getcwd; SYS_access; SYS_gettimeofday;
   SYS_fcntl; SYS_getuid; SYS_getgid; SYS_uname; SYS_nanosleep; SYS_fstat; SYS_getdents64;
   SYS_getdents; SYS_ioctl; SYS_mprotect; SYS_sigaction; SYS_sigprocmask; SYS_sigreturn;
   SYS_execve; SYS_getppid; SYS_clock_gettime; SYS_clock_getres; SYS_isatty; SYS_getentropy;
   SYS_waitpid; SYS_fork; SYS_ftruncate; SYS_truncate2; SYS_readlink; SYS_setsid; SYS_getpgid;
   SYS_setpgid; SYS_sched_setaffinity; SYS_sched_getaffinity; SYS_net_connect; SYS_net_send;
   SYS_net_recv; SYS_net_close].

Definition ROOT_ONLY : list Z :=
  [SYS_spawn; SYS_wait; SYS_snapshot_create; SYS_snapshot_rollback; SYS_snapshot_list;
   SYS_kill; SYS_create; SYS_mkdir; SYS_chan_create; SYS_chan_create_named; SYS_unlink;
   SYS_rename; SYS_truncate; SYS_utimens; SYS_pipe; SYS_setuid; SYS_setgid; SYS_fsync;
   SYS_symlink; SYS_chmod; SYS_fchmod].

Definition syscall_allowed (nr ring : Z) : bool :=
  if bool_decide (nr ∈ ALL_RINGS) then true else
  if bool_decide (nr ∈ ROOT_ONLY) then ring <=? PROC_RING_ROOT else false.

(** ** fs_sys/read_write.rs *)

(** [uart::putc] of every byte, a carriage return before a newline. *)
Fixpoint put_text (bs : list Z) : MM unit :=
  match bs with
  | [] => mret tt
  | b :: bs => (if b =? 10 then putc 13 else mret tt);; putc b;; put_text bs
  end.

(** [while i < len]: bytes are read and written one at a time. *)
Fixpoint write_console (n : nat) (p : Z) : MM unit :=
  match n with
  | O => mret tt
  | S n => b ← uread_le 1 p; put_text [b];; write_console n (p + 1)
  end.

Definition sys_write (fd buf n : Z) : MM Z :=
  checked buf n (
    if negb (fd =? 1) && negb (fd =? 2) then mret (as_i64 BadFd) else
    write_console (Z.to_nat n) buf;; mret n).

(** The line editor: one poll of the serial port per round; when the port never
    answers again the call spins. *)
Fixpoint console_loop (polls : list (option Z)) (dst n max : Z) : MM (reply Z) :=
  if max <=? n then uwrite (dst + n) [0];; mret (Reply n) else
  match polls with
  | [] => mret (Away Spins)
  | poll :: polls =>
      modify (set_m_uart_in polls);;
      match poll with
      | None =>
          o ← yield;
          match o with Returned => console_loop polls dst n max | o => mret (Away o) end
      | Some b =>
          if (b =? 13) || (b =? 10) then
            uwrite (dst + n) [10];; putc 13;; putc 10;;
            uwrite (dst + (n + 1)) [0];; mret (Reply (n + 1))
          else if (b =? 0x7F) || (b =? 0x08) then
            if 0 <? n then putc 8;; putc 32;; putc 8;; console_loop polls dst (n - 1) max
            else console_loop polls dst n max
          else
            uwrite (dst + n) [b];; putc b;; console_loop polls dst (n + 1) max
      end
  end.

Definition sys_read (fd buf n : Z) : MM (reply Z) :=
  if negb (user_ptr_ok buf n) then mret (Reply (as_i64 Inval)) else
  if fd =? 0 then
    if n =? 0 then mret (Reply 0) else
    polls ← gets m_uart_in;
    console_loop polls buf 0 (n - 1)
  else if fd <=? 2 then mret (Reply (as_i64 BadFd))
  else
    r ← to_ret (r ← vfs_read fd (w32 n); uwrite buf r.2;; mret r.1);
    mret (Reply r).

(** ** fs_sys/open_close.rs *)

(** The fields of [UserStat] at their offsets; four bytes of padding before
    [st_rdev] are not written. *)
Definition user_stat (ino size mode mtime atime ctime : Z) : list (Z * Z * nat) :=
  let ifmt := if Z.land mode 0xF000 =? 0x4000 then 0x4000 else 0x8000 in
  [(0, 0, 8%nat); (8, ino, 8%nat); (16, Z.lor ifmt 0x1ED, 4%nat); (20, 1, 4%nat); (24, 0, 4%nat);
   (28, 0, 4%nat); (32, 0, 4%nat); (40, 0, 8%nat); (48, size, 8%nat); (56, 512, 8%nat);
   (64, (size + 511) / 512, 8%nat); (72, atime, 8%nat); (80, 0, 8%nat); (88, mtime, 8%nat);
   (96, 0, 8%nat); (104, ctime, 8%nat); (112, 0, 8%nat); (120, 0, 8%nat); (128, 0, 8%nat);
   (136, 0, 8%nat)].
Definition USER_STAT_SIZE : Z := 144.

Fixpoint store_fields (pa : Z) (fs : list (Z * Z * nat)) : MM unit :=
  match fs with
  | [] => mret tt
  | (off, v, n) :: fs => store_pa n (pa + off) v;; store_fields pa fs
  end.

Definition fill_user_stat (out_va ino size mode mtime atime ctime : Z) : MM unit :=
  if negb (user_ptr_ok out_va USER_STAT_SIZE) then mret tt else
  pa ← translate_cur out_va;
  if pa =? 0 then mret tt else store_fields pa (user_stat ino size mode mtime atime ctime).

Definition SERVICE_DIR : list Z := txt "/service/".

(** [vfs::open], or [vfs::create] for a missing file opened with [O_CREAT]. *)
Definition open_or_create (path : list Z) (perms flags mode ring : Z) : MM Z := λ s,
  match vfs_open path perms s with
  | (Err NoEnt, s) =>
      if has flags O_CREAT then
        if PROC_RING_ROOT <? ring then (Err Perm, s)
        else vfs_create path (if mode =? 0 then ONYFS_DT_REG else w32 mode) s
      else (Err NoEnt, s)
  | r => r
  end.

Definition sys_open (path flags mode : Z) : MM Z :=
  with_path path (λ path_bytes,
    ring ← cur_ring;
    if (ring =? PROC_RING_USER) && starts_with SERVICE_DIR path_bytes then mret (as_i64 Perm) else
    let flags32 := w32 flags in
    let acc_mode := Z.land flags32 O_ACCMODE in
    let perms := Z.lor (if negb (acc_mode =? 0) then Z.lor PERM_SEEK PERM_WRITE else PERM_SEEK) PERM_READ in
    to_ret (
      token ← open_or_create path_bytes perms flags32 mode ring;
      (if has flags32 O_TRUNC && has perms PERM_WRITE then ignore (vfs_truncate token) else mret tt);;
      (if has flags32 O_APPEND then ignore (vfs_lseek token 0 2) else mret tt);;
      mret (to_i64 token))).

Definition sys_close (token : Z) : MM Z := to_ret0 (vfs_close token).
Definition sys_lseek (token off whence : Z) : MM Z := to_ret (vfs_lseek token off whence).

Definition sys_stat (path st_buf : Z) : MM Z :=
  with_path path (λ path_bytes,
    checked st_buf USER_STAT_SIZE (
      to_ret (
        token ← vfs_open path_bytes PERM_READ;
        size ← catch (vfs_stat token) (λ size, ignore (vfs_close token);; mret size)
                 (λ e, ignore (vfs_close token);; fail e);
        st ← catch (r ← on_fs (onyxfs_lookup path_bytes); mret r.2) mret
               (λ _, us ← gets uptime_us;
                     let now := us / 1000000 in mret (mkOnyfsStat 0 0 0 now now now));
        fill_user_stat st_buf (st_ino st) size (st_mode st) (st_mtime st) (st_atime st) (st_ctime st);;
        mret 0))).

Definition sys_fstat (token st_buf : Z) : MM Z :=
  checked st_buf USER_STAT_SIZE (
    to_ret (
      size ← vfs_stat token;
      us ← gets uptime_us;
      let now := us / 1000000 in
      fill_user_stat st_buf 0 size 0 now now now;;
      mret 0)).

Definition sys_fcntl (fd cmd arg : Z) : MM Z :=
  if cmd =? 0 then to_ret (t ← vfs_dup fd; mret (to_i64 t)) else
  if (1 <=? cmd) && (cmd <=? 4) then mret 0 else
  mret (as_i64 NoSys).

(** ** fs_sys2.rs *)

(** Load a program file: [open], [stat], [kmalloc], [read], [close], [onx::load], [kfree]. *)
Definition load_file (path : list Z) : MM OnxLoadResult :=
  token ← vfs_open path (Z.lor PERM_READ PERM_SEEK);
  size ← catch (vfs_stat token) mret (λ _, mret 0);
  img ← on_heap (kmalloc size);
  ignore (r ← vfs_read token size; modify (pokes img r.2));;
  ignore (vfs_close token);;
  catch (load img size)
    (λ r, on_heap (kfree img);; mret r)
    (λ e, on_heap (kfree img);; fail e).

(** The image of the current process is replaced. *)
Definition replace_image (r : OnxLoadResult) (ustack : Z) : MM unit :=
  p ← current;
  (if negb (p_root_pa p =? 0) then on_vm (destroy_root (p_root_pa p)) else mret tt);;
  upd_current (λ x, set_p_root_pa (lr_root_pa r) (set_p_entry (lr_entry r) (set_p_ustack ustack
    (set_p_heap_brk (lr_heap_brk r)
      (set_p_ring (if lr_ring r =? 1 then PROC_RING_ROOT else PROC_RING_USER) x))))).

(** [tf] for the first instruction, four bytes early for the [+ 4] of the trap handler. *)
Definition exec_frame (r : OnxLoadResult) (argc sp a1 : Z) (tf : TrapFrame) : TrapFrame :=
  set_tf_satp (satp_of (lr_root_pa r)) (set_tf_sstatus SSTATUS_SPIE (set_tf_a1 a1 (set_tf_a0 argc
    (set_tf_sp sp (set_tf_sepc (w64 (lr_entry r - 4)) tf))))).

Definition sys_exec (path argv : Z) : MM Z :=
  with_path path (λ path_bytes,
    cur_ring ← cur_ring;
    to_ret (
      r ← load_file path_bytes;
      if (cur_ring =? PROC_RING_USER) && (lr_ring r =? 1) then fail Perm else
      a ← copy_argv_to_stack (lr_root_pa r) (lr_ustack r) argv;
      let '(argc, argv_sp) := a in
      let sp := if 0 <? argc then argv_sp else lr_ustack r in
      replace_image r sp;;
      modify (λ s, set_m_tf (exec_frame r argc sp (if 0 <? argc then w64 (argv_sp + 8) else 0) (m_tf s)) s);;
      mret argc)).

Definition sys_sbrk (incr : Z) : MM Z :=
  pid ← cur_pid;
  p ← on_k (by_pid pid);
  if p =? 0 then panic else
  x ← on_k (deref p);
  let cur := p_heap_brk x in
  let heap_end := USER_HEAP_BASE + USER_HEAP_SIZE in
  let new_brk := w64 (to_i64 (w64 (to_i64 cur + incr))) in
  if (new_brk <? USER_HEAP_BASE) || (heap_end <? new_brk) then mret (as_i64 NoMem) else
  on_k (update p (set_p_heap_brk new_brk));;
  mret (to_i64 cur).

Definition sys_readdir (dir name_out n : Z) : MM Z :=
  with_path dir (λ dir_path,
    checked name_out n (
      to_ret (r ← vfs_readdir dir_path n;
              uwrite name_out r.2;;
              mret (if r.1 : bool then 1 else 0)))).

Definition sys_write_fd (token buf n : Z) : MM Z :=
  checked buf n (to_ret (bs ← uread (Z.to_nat (w32 n)) buf; vfs_write token bs)).

Definition sys_create (path mode : Z) : MM Z :=
  with_path path (λ path_bytes,
    to_ret (t ← vfs_create path_bytes (if mode =? 0 then ONYFS_DT_REG else w32 mode); mret (to_i64 t))).

Definition sys_mkdir (path : Z) : MM Z := with_path path (λ path_bytes, to_ret0 (vfs_mkdir path_bytes)).

(** ** proc_sys.rs, ring_sys.rs *)

Definition as_i32 (z : Z) : Z := if w32 z <? 2147483648 then w32 z else w32 z - 4294967296.

Definition sys_exit (code : Z) : MM Z := pid ← cur_pid; exit pid (as_i32 code);; mret 0.

Definition sys_yield : MM Z := h ← hart_id; on_k (set_need_resched h true);; mret 0.

Definition sys_getpid : MM Z := cur_pid.

Definition sys_spawn (path argv ring_hint : Z) : MM Z :=
  checked path 1 (
    path_bytes ← c_str 256 path;
    parent_pid ← cur_pid;
    to_ret (spawn path_bytes argv ring_hint parent_pid)).

(** [match m { Ok(x) => x as i64, Err(e) => e.as_i64() }] for a call that may block *)
Definition to_reply (m : MM (reply Z)) : MM (reply Z) := catch m mret (λ e, mret (Reply (as_i64 e))).

Definition sys_wait (status_out : Z) : MM (reply Z) :=
  to_reply (wait (if negb (status_out =? 0) && user_ptr_ok status_out 4 then status_out else 0)).

Definition sys_kill (pid signal : Z) : MM Z := to_ret0 (signal_send pid signal).

Definition sys_sigmask (how sig : Z) : MM Z :=
  if 32 <=? sig then mret (as_i64 Inval) else
  if how =? 0 then
    (if negb (sig =? SIG_KILL)
     then upd_current (λ x, set_p_signal_mask (Z.lor (p_signal_mask x) (sigbit sig)) x) else mret tt);;
    mret 0
  else if how =? 1 then
    upd_current (λ x, set_p_signal_mask (Z.land (p_signal_mask x) (not32 (sigbit sig))) x);; mret 0
  else if how =? 2 then
    upd_current (set_p_signal_mask (if negb (sig =? SIG_KILL) then sigbit sig else 0));; mret 0
  else mret (as_i64 Inval).

Definition sys_sched_setaffinity (pid cpu : Z) : MM Z :=
  if (cpu <? -1) || (MAX_HARTS <=? cpu) then mret (as_i64 Inval) else
  p ← on_k (by_pid (w32 pid));
  if p =? 0 then mret (as_i64 NoEnt) else
  cur ← current;
  if negb (p_pid cur =? w32 pid) && (PROC_RING_ROOT <? p_ring cur) then mret (as_i64 Perm) else
  on_k (update p (set_p_affinity cpu));;
  mret 0.

Definition sys_sched_getaffinity (pid : Z) : MM Z :=
  p ← on_k (by_pid (w32 pid));
  if p =? 0 then mret (as_i64 NoEnt) else
  x ← on_k (deref p); mret (p_affinity x).

Definition sys_getring : MM Z := cur_ring.

Definition sys_dropring (target : Z) : MM Z :=
  p ← current;
  if target <? p_ring p then mret (as_i64 Perm) else
  if target =? p_ring p then mret 0 else
  upd_current (set_p_ring target);; mret 0.

(** ** snap_sys.rs *)

Definition sys_snapshot_create (name : Z) : MM Z :=
  checked name 1 (bs ← c_str 32 name; to_ret (on_fs (snapshot_create bs))).

Definition sys_snapshot_rollback (id : Z) : MM Z := to_ret0 (on_fs (snapshot_rollback id)).

Definition sys_snapshot_list (buf n : Z) : MM Z :=
  if n =? 0 then mret 0 else
  checked buf n (to_ret (r ← on_fs (snapshot_list n); uwrite buf r.2;; mret r.1)).

(** ** ipc_sys.rs *)

Definition sys_chan_create : MM Z := pid ← cur_pid; to_ret (on_ipc (Ipc.create pid)).

Definition sys_chan_create_named (name_ptr : Z) : MM Z :=
  with_path name_ptr (λ name, pid ← cur_pid; to_ret (on_ipc (create_named name pid))).

Definition sys_chan_open (name_ptr : Z) : MM Z :=
  with_path name_ptr (λ name, pid ← cur_pid; to_ret (on_ipc (open_by_name name pid))).

Definition sys_chan_connect (chan_id : Z) : MM Z :=
  pid ← cur_pid; to_ret0 (on_ipc (connect chan_id pid)).

Definition sys_chan_send (chan_id buf n : Z) : MM (reply Z) :=
  if negb (user_ptr_ok buf n) then mret (Reply (as_i64 Inval)) else
  bs ← uread (Z.to_nat (w32 n)) buf;
  h ← hart_id;
  tf ← gets m_tf;
  to_reply (on_ipc (send h chan_id bs (Some tf))).

Definition sys_chan_recv (chan_id buf n : Z) : MM (reply Z) :=
  if negb (user_ptr_ok buf n) then mret (Reply (as_i64 Inval)) else
  h ← hart_id;
  tf ← gets m_tf;
  to_reply (
    r ← on_ipc (recv h chan_id (w32 n) (Some tf));
    match r with
    | Reply bs => uwrite buf bs;; mret (Reply (len bs))
    | Away o => mret (Away o)
    end).

Definition sys_chan_close (chan_id : Z) : MM Z := to_ret0 (on_ipc (Ipc.close chan_id)).

(** ** fs_sys3/mem.rs *)

(** [(n + 0xFFF) & !0xFFF] *)
Definition page_align_up (n : Z) : Z := Z.land (w64 (n + 0xFFF)) (18446744073709551615 - 0xFFF).

Fixpoint ensure_loop (n : nat) (root_pa va : Z) : VM unit :=
  match n with
  | O => mret tt
  | S n =>
      t ← translate_user root_pa va;
      (if t =? 0 then map_fresh root_pa va USER_RW else mret tt);;
      ensure_loop n root_pa (va + 4096)
  end.

(** The pages between two breaks. *)
Definition ensure_heap_pages (root_pa old_brk new_brk : Z) : VM unit :=
  if new_brk <=? old_brk then mret tt else
  let va := page_align_up old_brk in
  let end_ := page_align_up new_brk in
  ensure_loop (Z.to_nat ((end_ - va) / 4096)) root_pa va.

Definition sys_brk (addr : Z) : MM Z :=
  p ← current;
  let cur := p_heap_brk p in
  if addr =? 0 then mret (to_i64 cur) else
  if (addr <? USER_HEAP_BASE) || (USER_HEAP_BASE + USER_HEAP_SIZE <? addr) then mret (as_i64 NoMem) else
  to_ret (
    (if cur <? addr then on_vm (ensure_heap_pages (p_root_pa p) cur addr) else mret tt);;
    upd_current (set_p_heap_brk addr);;
    mret addr).

(** Page-table flags for [prot]. *)
Definition prot_flags (prot : Z) : Z :=
  let f := Z.lor (Z.lor PTE_U PTE_A) PTE_D in
  let f := if has prot 1 then Z.lor f PTE_R else f in
  let f := if has prot 2 then Z.lor f PTE_W else f in
  let f := if has prot 4 then Z.lor f PTE_X else f in
  if negb (has f PTE_R) && negb (has f PTE_X) then Z.lor f PTE_R else f.

(** [vmm::unmap], [vmm::map_anon] of whole pages *)
Definition pages (size : Z) : nat := Z.to_nat (size / 4096).

(** The next free address of the mmap region. *)
Definition bump_mmap (size : Z) : MM Z :=
  p ← current;
  upd_current (set_p_mmap_brk (w64 (p_mmap_brk p + size)));;
  mret (p_mmap_brk p).

Definition MMAP_BASE : Z := 0x20000000.

Definition sys_mmap (addr length prot flags : Z) : MM Z :=
  if length =? 0 then mret (as_i64 Inval) else
  let pte_flags := prot_flags prot in
  let size := page_align_up (Z.max length 4096) in
  p ← current;
  to_ret (
    vaddr ←
      (if addr =? 0 then bump_mmap size else
       if negb (Z.land addr 0xFFF =? 0) then fail Inval else
       if has flags 0x10 then ignore (on_vm (unmap (pages size) (p_root_pa p) addr size));; mret addr else
       t ← on_vm (translate_user (p_root_pa p) addr);
       if negb (t =? 0) then bump_mmap size else mret addr);
    if (vaddr <? MMAP_BASE) || (USER_HEAP_BASE <? w64 (vaddr + size)) then fail NoMem else
    on_vm (map_anon (pages size) (p_root_pa p) vaddr size pte_flags);;
    mret (to_i64 vaddr)).

Definition sys_munmap (addr length : Z) : MM Z :=
  if negb (Z.land addr 0xFFF =? 0) || (length =? 0) then mret (as_i64 Inval) else
  let size := page_align_up (Z.max length 4096) in
  p ← current;
  to_ret0 (on_vm (unmap (pages size) (p_root_pa p) addr size)).

Fixpoint protect_loop (n : nat) (root_pa va flags : Z) : VM unit :=
  match n with
  | O => mret tt
  | S n =>
      pa ← translate_user root_pa va;
      (if negb (pa =? 0) then map_one root_pa va pa (Z.lor PTE_V flags) 0 else mret tt);;
      protect_loop n root_pa (w64 (va + 4096)) flags
  end.

(** Nothing is done when [addr + size] wraps. *)
Definition sys_mprotect (addr length prot : Z) : MM Z :=
  if negb (Z.land addr 0xFFF =? 0) || (length =? 0) then mret (as_i64 Inval) else
  let size := page_align_up length in
  p ← current;
  to_ret0 (on_vm (protect_loop (if addr <? w64 (addr + size) then pages size else 0)
                    (p_root_pa p) addr (prot_flags prot))).

(** ** fs_sys3/file_ops.rs, dir.rs *)

Definition sys_dup (old_token : Z) : MM Z := to_ret (t ← vfs_dup old_token; mret (to_i64 t)).

Definition sys_pipe (pipefd : Z) : MM Z :=
  checked pipefd 16 (
    to_ret (t ← vfs_create_pipe;
            uwrite_le 8 pipefd t.1;; uwrite_le 8 (pipefd + 8) t.2;; mret 0)).

Definition sys_unlink (path : Z) : MM Z := with_path path (λ p, to_ret0 (vfs_unlink p)).

Definition sys_rename (old_path new_path : Z) : MM Z :=
  with_path old_path (λ old, with_path new_path (λ new, to_ret0 (vfs_rename old new))).

Definition sys_truncate (path : Z) : MM Z :=
  with_path path (λ p,
    to_ret (
      token ← vfs_open p PERM_WRITE;
      r ← to_ret0 (vfs_truncate token);
      ignore (vfs_close token);;
      mret r)).

Definition sys_truncate2 (path length : Z) : MM Z :=
  with_path path (λ p,
    to_ret (
      token ← vfs_open p PERM_WRITE;
      r ← (if length =? 0 then to_ret0 (vfs_truncate token) else mret 0);
      ignore (vfs_close token);;
      mret r)).

Definition sys_ftruncate (fd length : Z) : MM Z :=
  if length =? 0 then to_ret0 (vfs_truncate fd) else mret 0.

Definition sys_access (path : Z) : MM Z :=
  with_path path (λ p, to_ret (token ← vfs_open p PERM_READ; ignore (vfs_close token);; mret 0)).

Definition sys_chdir (path : Z) : MM Z :=
  with_path path (λ p,
    to_ret (on_fs (resolve_dir p);; h ← hart_id; on_k (set_cwd h p);; mret 0)).

(** [len as usize - 1] wraps for an empty buffer. *)
Definition sys_getcwd (buf n : Z) : MM Z :=
  checked buf n (
    p ← current;
    cwd ← lift (slice (p_cwd p) 0 (p_cwd_len p));
    let k := Z.min (len cwd) (w64 (n - 1)) in
    uwrite buf (rd 0 k cwd);;
    uwrite (buf + k) [0];;
    mret k).

(** ** fs_sys3/time.rs *)

Definition sys_gettimeofday (tv : Z) : MM Z :=
  checked tv 16 (
    us ← gets uptime_us;
    uwrite_le 8 tv (us / 1000000);; uwrite_le 8 (tv + 8) (us mod 1000000);; mret 0).

Definition sys_utimens (path times : Z) : MM Z :=
  with_path path (λ p,
    if times =? 0 then
      now ← gets (λ s, fs_jiffies (m_fs s));
      to_ret0 (vfs_utimens p now now)
    else checked times 16 (
      atime ← uread_le 8 times;
      mtime ← uread_le 8 (times + 8);
      to_ret0 (vfs_utimens p mtime atime))).

Definition sat64 (z : Z) : Z := Z.min z 18446744073709551615.

(** One poll of the tick counter per round; without another tick the call spins. *)
Fixpoint sleep_loop (polls : list Z) (target : Z) : MM (reply Z) :=
  match polls with
  | [] => mret (Away Spins)
  | now :: polls =>
      modify (set_m_tick_polls polls);;
      if target <=? now then mret (Reply 0) else
      h ← hart_id;
      on_k (set_need_resched h true);;
      sleep_loop polls target
  end.

Definition sys_nanosleep (req : Z) : MM (reply Z) :=
  if negb (user_ptr_ok req 16) then mret (Reply (as_i64 Inval)) else
  secs ← uread_le 8 req;
  nsecs ← uread_le 8 (req + 8);
  let total_ns := sat64 (sat64 (secs * 1000000000) + nsecs) in
  let ticks := total_ns / 10000000 in
  jiffies ← gets (λ s, fs_jiffies (m_fs s));
  polls ← gets m_tick_polls;
  sleep_loop polls (w64 (jiffies + Z.max ticks 1)).

Definition clock_ok (clk_id : Z) : bool := (clk_id =? 0) || (clk_id =? 1).

Definition sys_clock_gettime (clk_id ts : Z) : MM Z :=
  checked ts 16 (
    if negb (clock_ok clk_id) then mret (as_i64 Inval) else
    us ← gets uptime_us;
    uwrite_le 8 ts (us / 1000000);; uwrite_le 8 (ts + 8) (us mod 1000000 * 1000);; mret 0).

Definition sys_clock_getres (clk_id res : Z) : MM Z :=
  checked res 16 (
    if negb (clock_ok clk_id) then mret (as_i64 Inval) else
    uwrite_le 8 res 0;; uwrite_le 8 (res + 8) 10000000;; mret 0).

(** ** fs_sys3/info.rs *)

Definition sys_getuid : MM Z := p ← current; mret (p_uid p).
Definition sys_getgid : MM Z := p ← current; mret (p_gid p).

Definition sys_uname (buf : Z) : MM Z :=
  checked buf 390 (
    uwrite buf (txt "Onyx" ++ [0]);;
    uwrite (buf + 65) (txt "onyx" ++ [0]);;
    uwrite (buf + 130) (txt "0.4.0" ++ [0]);;
    uwrite (buf + 195) (txt "#1 Onyx Kernel 0.4.0 (userspace-ready)" ++ [0]);;
    uwrite (buf + 260) (txt "riscv64" ++ [0]);;
    mret 0).

(** [if proc::current_ring() > PROC_RING_ROOT { return Errno::Perm.as_i64() }] *)
Definition root_only (m : MM Z) : MM Z :=
  ring ← cur_ring;
  if PROC_RING_ROOT <? ring then mret (as_i64 Perm) else m.

Definition sys_setuid (uid : Z) : MM Z := root_only (upd_current (set_p_uid (w32 uid));; mret 0).
Definition sys_setgid (gid : Z) : MM Z := root_only (upd_current (set_p_gid (w32 gid));; mret 0).
Definition sys_getppid : MM Z := p ← current; mret (p_parent_pid p).

Definition sys_getpgid (pid : Z) : MM Z :=
  target ← (if pid =? 0 then cur_pid else mret (w32 pid));
  p ← on_k (by_pid target);
  if p =? 0 then mret (as_i64 NoEnt) else
  x ← on_k (deref p); mret (p_pid x).

Definition sys_setpgid : MM Z := mret 0.
Definition sys_setsid : MM Z := cur_pid.

(** ** fs_sys3/extra.rs *)

(** [entry_buf] after [readdir_entry_by_ino]: the name up to its NUL. *)
Definition entry_name (stored : list Z) : list Z :=
  match position 0 (wr 0 stored (replicate 256 0)) with
  | Some n => rd 0 n stored
  | None => []
  end.

(** A directory entry as [linux_dirent64], padded to 8 bytes. *)
Definition dirent64 (d_ino : Z) (name : list Z) : list Z :=
  let reclen := 19 + len name in
  let aligned := Z.land (reclen + 7) (65535 - 7) in
  le_bytes 8 d_ino ++ le_bytes 8 0 ++ le_bytes 2 aligned ++ [0] ++ name ++ zeros (aligned - reclen).

(** The loop: [written] grows by at least 24 per round. *)
Fixpoint dents_loop (fuel : nat) (fs : Fs) (ino cursor pa written count : Z) : MM (Z * Z) :=
  match fuel with
  | O => panic
  | S fuel =>
      e ← readdir_entry_by_ino fs ino cursor 256;
      match e with
      | None => mret (cursor, written)
      | Some (d_ino, stored) =>
          let d := dirent64 d_ino (entry_name stored) in
          if count <? written + len d then mret (cursor, written) else
          store_bytes (pa + written) d;;
          dents_loop fuel fs ino (w32 (cursor + 1)) pa (written + len d) count
      end
  end.

Definition sys_getdents64 (fd buf count : Z) : MM Z :=
  if negb (user_ptr_ok buf count) || (count <? 19) then mret (as_i64 Inval) else
  to_ret (
    i ← fd_check fd;
    f ← fd_get i;
    pa ← translate_cur buf;
    if pa =? 0 then fail Inval else
    r ← dents_loop (S (Z.to_nat (count / 24))) (fd_fs f) (fd_ino f) (fd_pos f) pa 0 count;
    fd_update_pos i r.1;;
    mret r.2).

Definition sys_getdents (fd buf count : Z) : MM Z := sys_getdents64 fd buf count.

(** A request that fills [bytes] at [arg]. *)
Definition ioctl_fill (arg : Z) (bytes : list Z) : MM Z :=
  if arg =? 0 then mret 0 else
  checked arg (len bytes) (
    pa ← translate_cur arg;
    if pa =? 0 then mret (as_i64 Inval) else
    store_bytes pa bytes;; mret 0).

Definition sys_ioctl (fd request arg : Z) : MM Z :=
  if request =? TCGETS then ioctl_fill arg (zeros 60) else
  if request =? TCSETS then mret 0 else
  if request =? 0x5413 then ioctl_fill arg (le_bytes 2 24 ++ le_bytes 2 80 ++ le_bytes 2 0 ++ le_bytes 2 0) else
  if request =? 0x541B then ioctl_fill arg (le_bytes 4 0) else
  mret (as_i64 NoSys).

Definition sys_isatty : MM Z := mret 1.

(** One round of xorshift64. *)
Definition xorshift (seed : Z) : Z :=
  let seed := Z.lxor seed (w64 (Z.shiftl seed 13)) in
  let seed := Z.lxor seed (Z.shiftr seed 7) in
  Z.lxor seed (w64 (Z.shiftl seed 17)).

Fixpoint entropy (n : nat) (seed : Z) : list Z :=
  match n with O => [] | S n => let seed := xorshift seed in w8 seed :: entropy n seed end.

Definition sys_getentropy (buf n : Z) : MM Z :=
  if (256 <? n) || negb (user_ptr_ok buf n) then mret (as_i64 Inval) else
  pa ← translate_cur buf;
  if pa =? 0 then mret (as_i64 Inval) else
  us ← gets uptime_us;
  pid ← cur_pid;
  store_bytes pa (entropy (Z.to_nat n) (w64 (w64 (us * 0x9E3779B97F4A7C15) + pid)));;
  mret 0.

Definition sys_fsync : MM Z := mret 0.
Definition sys_readlink (path : Z) : MM Z := parse_user_path path;; mret (as_i64 Inval).
Definition sys_symlink : MM Z := mret (as_i64 NoSys).
Definition sys_chmod (path : Z) : MM Z := parse_user_path path;; mret 0.
Definition sys_fchmod : MM Z := mret 0.

(** The pid filter of [waitpid]. *)
Definition pid_matches (pid : Z) (x : Proc) : bool :=
  if (pid =? 4294967295) || (pid =? 0) then true else
  if to_i64 pid <? 0 then true else p_pid x =? w32 pid.

Definition sys_waitpid (pid status_out options : Z) : MM (reply Z) :=
  my_pid ← cur_pid;
  if negb (status_out =? 0) && negb (user_ptr_ok status_out 4) then mret (Reply (as_i64 Inval)) else
  c ← on_k (find_proc (λ x, child_of my_pid x && is_exited x && pid_matches pid x));
  if negb (c =? 0) then
    x ← on_k (deref c);
    (if negb (status_out =? 0) then
       pa ← translate_cur status_out;
       if negb (pa =? 0) then store_pa 4 pa (w32 (p_exit_code x)) else mret tt
     else mret tt);;
    free_proc c;;
    mret (Reply (p_pid x))
  else
    c ← on_k (find_proc (λ x, child_of my_pid x && negb (bool_decide (p_state x = Free)) && pid_matches pid x));
    if c =? 0 then mret (Reply (as_i64 NoEnt)) else
    if has options WNOHANG then mret (Reply 0) else
    wait_for_child (mret (Reply (as_i64 NoEnt))).

Definition sys_execve (path argv envp : Z) : MM Z :=
  with_path path (λ path_bytes,
    cur_ring ← cur_ring;
    to_ret (
      r ← load_file path_bytes;
      if (cur_ring =? PROC_RING_USER) && (lr_ring r =? 1) then fail Perm else
      p ← current;
      a ← copy_argv_envp_to_stack (lr_root_pa r) (lr_ustack r) argv envp (lr_entry r) (p_uid p);
      let '(argc, argv_sp) := a in
      replace_image r argv_sp;;
      upd_current (set_p_mmap_brk 0x20000000);;
      modify (λ s, set_m_tf (exec_frame r argc argv_sp (w64 (argv_sp + 8)) (m_tf s)) s);;
      mret argc)).

Definition sys_fork : MM Z :=
  parent ← current;
  new_pid ← on_k alloc_pid;
  tf ← gets m_tf;
  to_ret (
    create_user (p_entry parent) (p_ustack parent) (p_root_pa parent) new_pid (p_pid parent)
      (p_heap_brk parent) (p_ring parent) 0 (p_ustack parent);;
    c ← on_k (by_pid new_pid);
    if c =? 0 then panic else
    on_k (update c (set_p_tf (set_tf_a0 0 tf)));;
    mret new_pid).

(** ** net_sys.rs *)

Definition sys_net_connect (ip_ptr port : Z) : MM Z :=
  if negb (user_ptr_ok ip_ptr 4) || (port =? 0) || (65535 <? port) then mret (as_i64 Inval) else
  ip ← uread 4 ip_ptr;
  to_ret (on_net (tcp_connect ip port)).

Definition sys_net_send (conn_id buf n : Z) : MM Z :=
  if (8 <=? conn_id) || negb (user_ptr_ok buf n) then mret (as_i64 Inval) else
  data ← uread (Z.to_nat n) buf;
  to_ret (on_net (tcp_send conn_id data)).

Definition sys_net_recv (conn_id buf n : Z) : MM Z :=
  if (8 <=? conn_id) || negb (user_ptr_ok buf n) then mret (as_i64 Inval) else
  on_net poll;;
  to_ret (bs ← on_net (tcp_recv conn_id n); uwrite buf bs;; mret (len bs)).

Definition sys_net_close (conn_id : Z) : MM Z :=
  if 8 <=? conn_id then mret (as_i64 Inval) else on_net (tcp_close conn_id);; mret 0.

(** ** handler.rs: the dispatcher *)

Definition ret (m : MM Z) : MM (reply Z) := r ← m; mret (Reply r).

(** The call with number [nr] and arguments [a0..a5]. *)
Definition dispatch_call (nr a0 a1 a2 a3 : Z) : MM (reply Z) :=
  if nr =? SYS_write then ret (sys_write a0 a1 a2) else
  if nr =? SYS_read then sys_read a0 a1 a2 else
  if nr =? SYS_exit then ret (sys_exit a0) else
  if nr =? SYS_yield then ret sys_yield else
  if nr =? SYS_getpid then ret sys_getpid else
  if nr =? SYS_open then ret (sys_open a0 a1 a2) else
  if nr =? SYS_close then ret (sys_close a0) else
  if nr =? SYS_lseek then ret (sys_lseek a0 (to_i64 a1) (w32 a2)) else
  if nr =? SYS_stat then ret (sys_stat a0 a1) else
  if nr =? SYS_exec then ret (sys_exec a0 a1) else
  if nr =? SYS_sbrk then ret (sys_sbrk (to_i64 a0)) else
  if nr =? SYS_spawn then ret (sys_spawn a0 a1 (w8 a2)) else
  if nr =? SYS_wait then sys_wait a0 else
  if nr =? SYS_readdir then ret (sys_readdir a0 a1 a2) else
  if nr =? SYS_getring then ret sys_getring else
  if nr =? SYS_dropring then ret (sys_dropring (w8 a0)) else
  if nr =? SYS_snapshot_create then ret (sys_snapshot_create a0) else
  if nr =? SYS_snapshot_rollback then ret (sys_snapshot_rollback (w32 a0)) else
  if nr =? SYS_snapshot_list then ret (sys_snapshot_list a0 a1) else
  if nr =? SYS_kill then ret (sys_kill (w32 a0) (w32 a1)) else
  if nr =? SYS_sigmask then ret (sys_sigmask (w32 a0) (w32 a1)) else
  if nr =? SYS_write_fd then ret (sys_write_fd a0 a1 a2) else
  if nr =? SYS_create then ret (sys_create a0 a1) else
  if nr =? SYS_mkdir then ret (sys_mkdir a0) else
  if nr =? SYS_chan_create then ret sys_chan_create else
  if nr =? SYS_chan_create_named then ret (sys_chan_create_named a0) else
  if nr =? SYS_chan_open then ret (sys_chan_open a0) else
  if nr =? SYS_chan_connect then ret (sys_chan_connect (w32 a0)) else
  if nr =? SYS_chan_send then sys_chan_send (w32 a0) a1 a2 else
  if nr =? SYS_chan_recv then sys_chan_recv (w32 a0) a1 a2 else
  if nr =? SYS_chan_close then ret (sys_chan_close (w32 a0)) else
  if nr =? SYS_brk then ret (sys_brk a0) else
  if nr =? SYS_mmap then ret (sys_mmap a0 a1 a2 a3) else
  if nr =? SYS_munmap then ret (sys_munmap a0 a1) else
  if nr =? SYS_dup then ret (sys_dup a0) else
  if nr =? SYS_pipe then ret (sys_pipe a0) else
  if nr =? SYS_unlink then ret (sys_unlink a0) else
  if nr =? SYS_rename then ret (sys_rename a0 a1) else
  if nr =? SYS_chdir then ret (sys_chdir a0) else
  if nr =? SYS_getcwd then ret (sys_getcwd a0 a1) else
  if nr =? SYS_truncate then ret (sys_truncate a0) else
  if nr =? SYS_access then ret (sys_access a0) else
  if nr =? SYS_gettimeofday then ret (sys_gettimeofday a0) else
  if nr =? SYS_fcntl then ret (sys_fcntl a0 (w32 a1) a2) else
  if nr =? SYS_getuid then ret sys_getuid else
  if nr =? SYS_getgid then ret sys_getgid else
  if nr =? SYS_utimens then ret (sys_utimens a0 a1) else
  if nr =? SYS_uname then ret (sys_uname a0) else
  if nr =? SYS_nanosleep then sys_nanosleep a0 else
  if nr =? SYS_fstat then ret (sys_fstat a0 a1) else
  if nr =? SYS_waitpid then sys_waitpid a0 a1 (w32 a2) else
  if nr =? SYS_getdents64 then ret (sys_getdents64 a0 a1 a2) else
  if nr =? SYS_ioctl then ret (sys_ioctl a0 a1 a2) else
  if nr =? SYS_mprotect then ret (sys_mprotect a0 a1 a2) else
  if nr =? SYS_sigaction then ret (to_ret0 (sigaction (w32 a0) a1 a2)) else
  if nr =? SYS_sigprocmask then ret (to_ret0 (sigprocmask (w32 a0) a1 a2)) else
  if nr =? SYS_sigreturn then ret (sigreturn;; mret 0) else
  if nr =? SYS_execve then ret (sys_execve a0 a1 a2) else
  if nr =? SYS_getppid then ret sys_getppid else
  if nr =? SYS_setpgid then ret sys_setpgid else
  if nr =? SYS_setsid then ret sys_setsid else
  if nr =? SYS_getpgid then ret (sys_getpgid a0) else
  if nr =? SYS_fork then ret sys_fork else
  if nr =? SYS_clock_gettime then ret (sys_clock_gettime a0 a1) else
  if nr =? SYS_clock_getres then ret (sys_clock_getres a0 a1) else
  if nr =? SYS_isatty then ret sys_isatty else
  if nr =? SYS_getentropy then ret (sys_getentropy a0 a1) else
  if nr =? SYS_setuid then ret (sys_setuid a0) else
  if nr =? SYS_setgid then ret (sys_setgid a0) else
  if nr =? SYS_fsync then ret sys_fsync else
  if nr =? SYS_truncate2 then ret (sys_truncate2 a0 a1) else
  if nr =? SYS_ftruncate then ret (sys_ftruncate a0 a1) else
  if nr =? SYS_readlink then ret (sys_readlink a0) else
  if nr =? SYS_symlink then ret sys_symlink else
  if nr =? SYS_chmod then ret (sys_chmod a0) else
  if nr =? SYS_fchmod then ret sys_fchmod else
  if nr =? SYS_getdents then ret (sys_getdents a0 a1 a2) else
  if nr =? SYS_sched_setaffinity then ret (sys_sched_setaffinity a0 (to_i64 a1)) else
  if nr =? SYS_sched_getaffinity then ret (sys_sched_getaffinity a0) else
  if nr =? SYS_net_connect then ret (sys_net_connect a0 a1) else
  if nr =? SYS_net_send then ret (sys_net_send a0 a1 a2) else
  if nr =? SYS_net_recv then ret (sys_net_recv a0 a1 a2) else
  if nr =? SYS_net_close then ret (sys_net_close a0) else
  mret (Reply (as_i64 NoSys)).

Definition handle : MM (reply Z) :=
  tf ← gets m_tf;
  ring ← cur_ring;
  if negb (syscall_allowed (tf_a7 tf) ring) then mret (Reply (as_i64 Perm)) else
  dispatch_call (tf_a7 tf) (tf_a0 tf) (tf_a1 tf) (tf_a2 tf) (tf_a3 tf).
