(* ===== verification/Trap.v ===== *)
(** * kernel/src/srv/trap.rs, timer.rs: traps

    [trap scause sstatus] is a whole trap: the cause is served, a signal is
    delivered, and the process is switched away from when it must be.  The result
    says how the trap ends: [Returned] goes back to user mode with the frame
    [m_tf].  No driver registers an interrupt handler, so an external interrupt
    is only claimed and completed; the comparator of the timer, the watchdog and
    the activity LED are devices without kernel state. *)

From S2P Require Import Prelude Formats Vnode Process Sched Ipc Pmm Vmm Heap Onyxfs Fat32 Net Machine Procfs Vfs Lifecycle Onx Syscall.
From Stdlib Require Import ZArith Lia.
From stdpp Require Import base list numbers gmap.

Open Scope Z_scope.

(** ** arch/regs.rs *)

Definition SCAUSE_INT : Z := 9223372036854775808.
Definition CAUSE_IAMISS : Z := 0.
Definition CAUSE_ILL : Z := 2.
Definition CAUSE_BRK : Z := 3.
Definition CAUSE_LDAMISS : Z := 5.
Definition CAUSE_STAMISS : Z := 7.
Definition CAUSE_U_ECALL : Z := 8.
Definition CAUSE_INST_PF : Z := 12.
Definition CAUSE_LD_PF : Z := 13.
Definition CAUSE_ST_PF : Z := 15.
Definition INTR_S_TIMER : Z := 5.
Definition SSTATUS_SPP : Z := 256.

(** ** timer.rs *)

Definition tick_jiffies (f : Onyfs) : Onyfs :=
  mkOnyfs (fs_dev f) (fs_lba_base f) (fs_version f) (fs_sb f) (fs_buf f) (fs_journal_head f)
    (fs_disk f) (w64 (fs_jiffies f + 1)).

Definition timer_handle : MM unit :=
  modify (λ s, set_m_upticks (w64 (m_upticks s + 1)) s);;
  on_fs (modify tick_jiffies);;
  h ← hart_id;
  on_k (sched_tick h).

(** ** trap.rs *)

Definition interrupt (code : Z) : MM unit :=
  if code =? INTR_S_TIMER then timer_handle else mret tt.

Definition is_fault (code : Z) : bool :=
  bool_decide (code ∈ [CAUSE_INST_PF; CAUSE_LD_PF; CAUSE_ST_PF; CAUSE_IAMISS; CAUSE_LDAMISS; CAUSE_STAMISS]).

(** [Some o] ends the trap at once: the call switched away, or the kernel halts. *)
Definition exception (code sstatus : Z) : MM (option outcome) :=
  if code =? CAUSE_U_ECALL then
    r ← handle;
    match r with
    | Reply ret =>
        modify (λ s, set_m_tf (set_tf_sepc (w64 (tf_sepc (m_tf s) + 4)) (set_tf_a0 (w64 ret) (m_tf s))) s);;
        mret None
    | Away o => mret (Some o)
    end
  else if is_fault code then
    pid ← cur_pid;
    if has sstatus SSTATUS_SPP || (pid =? 0) then mret (Some Halted) else
    exit pid (100 + code);; mret None
  else if code =? CAUSE_ILL then
    pid ← cur_pid; exit pid 132;; mret None
  else if code =? CAUSE_BRK then
    pid ← cur_pid; exit pid 133;; mret None
  else panic.

(** The current process, if it is running, has exited. *)
Definition current_exited : MM bool :=
  pid ← cur_pid;
  if pid =? 0 then mret false else
  p ← on_k (by_pid pid);
  if p =? 0 then mret false else
  x ← on_k (deref p); mret (is_exited x).

(** What follows every cause. *)
Definition trap_exit : MM outcome :=
  signal_check;;
  exited ← current_exited;
  if exited : bool then
    o ← yield;
    mret (match o with Returned => Halted | o => o end)
  else
    h ← hart_id;
    need ← on_k (at_ g_need_resched h);
    if need : bool then yield else mret Returned.

Definition trap (scause sstatus : Z) : MM outcome :=
  let code := Z.land scause (SCAUSE_INT - 1) in
  o ← (if has scause SCAUSE_INT then interrupt code;; mret None else exception code sstatus);
  match o with
  | Some o => mret o
  | None => trap_exit
  end.
