(* ===== verification/ProcProps.v ===== *)
(** * What no kernel operation does to a process

    [safe I R m Q]: from a state that satisfies [I], the operation [m] ends in a
    state that satisfies [I] and is related to the first one by [R], whatever it
    answers, and a value it returns satisfies [Q].  The invariant used here is
    that every process record is well formed ([proc_ok]); the relations say that
    processes keep their identity and their privilege ([steady]), and in addition
    that the harts keep their current process ([quiet]). *)

From S2P Require Import Prelude Formats Vnode Process Sched Ipc Pmm Vmm Heap Onyxfs Fat32 Net Machine Procfs Vfs Lifecycle Onx Syscall Trap.
From stdpp Require Import base list numbers gmap.
From Stdlib Require Import ZArith Lia.

Open Scope Z_scope.

(** ** Safe operations *)

Definition safe {S A} (I : S → Prop) (R : S → S → Prop) (m : SM S A) (Q : A → Prop) : Prop :=
  ∀ s, I s → I (m s).2 ∧ R s (m s).2 ∧ ∀ a, (m s).1 = Ok a → Q a.

Definition anything {A} : A → Prop := λ _, True.

Section Safe.
Context {S : Type} (I : S → Prop) (R : S → S → Prop) `{!PreOrder R}.

Lemma safe_pure {A} (m : SM S A) (Q : A → Prop) :
  (∀ s, (m s).2 = s) → (∀ s a, I s → (m s).1 = Ok a → Q a) → safe I R m Q.
Proof. intros H HQ s Hs. rewrite H. split_and!; [done|reflexivity|]. intros a. by apply HQ. Qed.

Lemma safe_reads {A} (m : SM S A) : (∀ s, (m s).2 = s) → safe I R m anything.
Proof. intros H. by apply safe_pure. Qed.

Lemma safe_ret {A} (a : A) (Q : A → Prop) : Q a → safe I R (mret a) Q.
Proof. intros H. apply safe_pure; [done|]. intros s b _ E. by injection E as <-. Qed.
Lemma safe_fail {A} e (Q : A → Prop) : safe I R (fail e) Q.
Proof. by apply safe_pure. Qed.
Lemma safe_panic {A} (Q : A → Prop) : safe I R (panic : SM S A) Q.
Proof. by apply safe_pure. Qed.
Lemma safe_gets {A} (f : S → A) : safe I R (gets f) anything.
Proof. by apply safe_reads. Qed.
Lemma safe_lift {A} (r : result A) : safe I R (lift r : SM S A) (λ a, r = Ok a).
Proof. by apply safe_pure. Qed.

Lemma safe_lift_any {A} (r : result A) : safe I R (lift r : SM S A) anything.
Proof. by apply safe_pure. Qed.

Lemma safe_any {A} (m : SM S A) Q : safe I R m Q → safe I R m anything.
Proof. intros H s Hs. destruct (H s Hs) as (H1 & H2 & _). done. Qed.

Lemma safe_bind {A B} (m : SM S A) (f : A → SM S B) Q Q' :
  safe I R m Q → (∀ a, Q a → safe I R (f a) Q') → safe I R (m ≫= f) Q'.
Proof.
  intros Hm Hf s Hs. destruct (Hm s Hs) as (H1 & H2 & H3). unfold mbind, SM_bind.
  destruct (m s) as [[a|e|] s']; simpl in *; [|done..].
  destruct (Hf a (H3 a eq_refl) s' H1) as (H4 & H5 & H6). split_and!; [done| |done]. by etransitivity.
Qed.

Lemma safe_modify (f : S → S) : (∀ s, I s → I (f s) ∧ R s (f s)) → safe I R (modify f) anything.
Proof. intros H s Hs. by destruct (H s Hs). Qed.
End Safe.

(** ** Process records *)

Record proc_ok (x : Proc) : Prop := {
  ok_ring : 0 ≤ p_ring x < 256;
  ok_handlers : length (p_signal_handlers x) = 32%nat;
  ok_fds : length (p_fds x) = PROC_MAX_FDS;
  ok_cwd : length (p_cwd x) = 256%nat;
  ok_cwd_len : 0 ≤ p_cwd_len x ≤ 255;
  ok_pending : u32 (p_pending_signals x);
  ok_mask : u32 (p_signal_mask x);
  ok_brk : USER_HEAP_BASE ≤ p_heap_brk x ≤ USER_HEAP_BASE + USER_HEAP_SIZE;
  ok_affinity : -1 ≤ p_affinity x < MAX_HARTS }.

(** What stays the same of a process. *)
Definition same_id (x y : Proc) : Prop := p_pid y = p_pid x ∧ p_ring y = p_ring x.

Definition steady (k k' : Kernel) : Prop :=
  ∀ p x, g_procs k !! p = Some x → ∃ y, g_procs k' !! p = Some y ∧ same_id x y.
Definition quiet (k k' : Kernel) : Prop := steady k k' ∧ g_hart_current k' = g_hart_current k.
Definition whatever (k k' : Kernel) : Prop := True.

Definition procs_ok (k : Kernel) : Prop := map_Forall (λ _ x, proc_ok x) (g_procs k).

#[global] Instance steady_pre : PreOrder steady.
Proof.
  split; [intros k p x H; by exists x|]. intros k1 k2 k3 H1 H2 p x Hx.
  destruct (H1 p x Hx) as (y & Hy & E1 & E2). destruct (H2 p y Hy) as (z & Hz & E3 & E4).
  exists z. unfold same_id. split; [done|]. by rewrite E3, E4.
Qed.
#[global] Instance quiet_pre : PreOrder quiet.
Proof.
  split; [intros k; split; reflexivity|]. intros k1 k2 k3 [H1 E1] [H2 E2].
  split; [by etransitivity|congruence].
Qed.
#[global] Instance whatever_pre : PreOrder whatever.
Proof. by split. Qed.

(** The relations that hold of quiet steps, and of steady ones. *)
Class Coarse (R : Kernel → Kernel → Prop) : Prop := {
  coarse_pre :: PreOrder R; coarse_quiet k k' : quiet k k' → R k k' }.
Class Coarser (R : Kernel → Kernel → Prop) : Prop := {
  coarser_coarse :: Coarse R; coarser_steady k k' : steady k k' → R k k' }.

#[global] Instance quiet_coarse : Coarse quiet.
Proof. by split; [apply _|]. Qed.
#[global] Instance steady_coarse : Coarse steady.
Proof. split; [apply _|]. by intros k k' [H _]. Qed.
#[global] Instance steady_coarser : Coarser steady.
Proof. by split; [apply _|]. Qed.
#[global] Instance whatever_coarse : Coarse whatever.
Proof. by split; [apply _|]. Qed.
#[global] Instance whatever_coarser : Coarser whatever.
Proof. by split; [apply _|]. Qed.

(** Changes of a record that keep it well formed and keep its identity. *)
Definition benign (f : Proc → Proc) : Prop := ∀ x, proc_ok x → proc_ok (f x) ∧ same_id x (f x).

Ltac benign_tac :=
  let x := fresh "x" in intros x []; destruct x; simpl in *; split; [constructor; simpl; auto|by split].

Create HintDb safety discriminated.
#[export] Hint Resolve safe_ret safe_fail safe_panic safe_gets : safety.
#[export] Hint Resolve safe_lift | 0 : safety.
#[export] Hint Resolve safe_lift_any | 9 : safety.
#[export] Hint Extern 1 (benign _) => benign_tac : safety.
#[export] Hint Extern 1 (anything _) => exact Logic.I : safety.
#[export] Hint Extern 0 (PreOrder _) => apply _ : safety.
#[export] Hint Constants Opaque : safety.

(** Walk through the code of an operation. *)
Ltac safe_step :=
  cbv beta;
  lazymatch goal with
  | |- safe _ _ (match ?x with _ => _ end) _ => destruct x eqn:?
  | |- safe _ _ (let _ := _ in _) _ => cbv zeta
  | |- safe _ _ (_ ≫= _) _ =>
      let H := fresh "Hr" in
      first [eapply safe_bind; [apply _|solve [eauto 4 with safety typeclass_instances]|intros ? H; cbv beta in H]
            |apply (safe_bind _ _ _ _ anything); [|intros ? _]]
  | |- _ => solve [eauto 4 with safety typeclass_instances]
  end.
Ltac safe_tac := repeat safe_step.

(** ** Kernel operations *)

Section KernelOps.
Context (R : Kernel → Kernel → Prop) `{!Coarse R}.

Lemma deref_safe p : safe procs_ok R (deref p) proc_ok.
Proof.
  apply safe_pure; [apply _| |]; intros k; unfold deref; destruct (g_procs k !! p) as [x|] eqn:E; try done.
  intros a Hk Ea. injection Ea as <-. by apply (Hk p x).
Qed.

Lemma update_safe p f : benign f → safe procs_ok R (update p f) anything.
Proof.
  intros Hf k Hk. unfold update. destruct (g_procs k !! p) as [x|] eqn:E; simpl; [|split_and!; [done|reflexivity|done]].
  destruct (Hf x (Hk p x E)) as [Hok Hid]. split_and!; [|apply coarse_quiet; split; [|done]|done].
  - by apply map_Forall_insert_2.
  - intros q y Hy. simpl. destruct (decide (p = q)) as [<-|Hne].
    + rewrite E in Hy. injection Hy as <-. exists (f x). by rewrite lookup_insert_eq.
    + exists y. by rewrite lookup_insert_ne.
Qed.

Lemma at_safe {A} (arr : Kernel → list A) i : safe procs_ok R (at_ arr i) anything.
Proof. apply safe_reads; [apply _|done]. Qed.

(** A change of the globals that leaves the records and the current processes alone. *)
Lemma globals_safe k k' : g_procs k' = g_procs k → g_hart_current k' = g_hart_current k →
  procs_ok k → procs_ok k' ∧ R k k'.
Proof.
  intros E1 E2 Hk. unfold procs_ok. rewrite E1. split; [done|]. apply coarse_quiet. split; [|done].
  intros p x Hx. exists x. by rewrite E1.
Qed.

Lemma modify_safe f : (∀ k, g_procs (f k) = g_procs k ∧ g_hart_current (f k) = g_hart_current k) →
  safe procs_ok R (modify f) anything.
Proof. intros H. apply safe_modify. intros k Hk. destruct (H k). by apply globals_safe. Qed.

Lemma at_set_safe {A} (arr : Kernel → list A) set i v :
  (∀ l k, g_procs (set l k) = g_procs k ∧ g_hart_current (set l k) = g_hart_current k) →
  safe procs_ok R (at_set arr set i v) anything.
Proof.
  intros H k Hk. unfold at_set. destruct (set_idx _ _ _) as [l|e|]; simpl; [|split_and!; [done|reflexivity|done]..].
  destruct (H l k) as [E1 E2]. destruct (globals_safe k (set l k) E1 E2 Hk). done.
Qed.
End KernelOps.

#[export] Hint Resolve deref_safe update_safe at_safe : safety.
#[export] Hint Extern 1 (safe _ _ (at_set _ _ _ _) _) => apply at_set_safe; [apply _|by split] : safety.
#[export] Hint Extern 1 (safe _ _ (modify _) _) => apply modify_safe; [apply _|by split] : safety.

Section Scheduling.
Context (R : Kernel → Kernel → Prop) `{!Coarse R}.

Lemma rq_at_safe h : safe procs_ok R (rq_at h) anything.
Proof. apply at_safe; apply _. Qed.
Hint Resolve rq_at_safe : safety.
Lemma rq_update_safe h f : safe procs_ok R (rq_update h f) anything.
Proof. unfold rq_update. safe_tac. Qed.
Lemma current_for_hart_safe h : safe procs_ok R (current_for_hart h) anything.
Proof. unfold current_for_hart. safe_tac. Qed.
Lemma set_need_resched_safe h b : safe procs_ok R (set_need_resched h b) anything.
Proof. unfold set_need_resched. safe_tac. Qed.
End Scheduling.
#[export] Hint Resolve rq_at_safe rq_update_safe current_for_hart_safe set_need_resched_safe : safety.

Section RunQueues.
Context (R : Kernel → Kernel → Prop) `{!Coarse R}.

Lemma enqueue_safe h p : safe procs_ok R (enqueue h p) anything.
Proof. unfold enqueue. safe_tac. Qed.
Lemma dequeue_safe h : safe procs_ok R (dequeue h) anything.
Proof. unfold dequeue. safe_tac. Qed.
Lemma rq_lock_safe h : safe procs_ok R (rq_lock h) anything.
Proof. unfold rq_lock. safe_tac. Qed.
Lemma rq_unlock_safe h : safe procs_ok R (rq_unlock h) anything.
Proof. unfold rq_unlock. safe_tac. Qed.
Lemma sched_tick_safe h : safe procs_ok R (sched_tick h) anything.
Proof. unfold sched_tick. safe_tac. Qed.
Lemma find_all_safe fuel test : ∀ cur, safe procs_ok R (find_all fuel test cur) anything.
Proof. induction fuel as [|fuel IH]; intros cur; simpl; safe_tac. Qed.
Lemma find_proc_safe test : safe procs_ok R (find_proc test) anything.
Proof. intros k. unfold find_proc. by apply find_all_safe. Qed.
Lemma by_pid_safe pid : safe procs_ok R (by_pid pid) anything.
Proof. apply find_proc_safe. Qed.
Lemma current_pid_safe h : safe procs_ok R (current_pid h) anything.
Proof. unfold current_pid. safe_tac. Qed.
Lemma current_ptr_safe h : safe procs_ok R (current_ptr h) anything.
Proof. apply at_safe; apply _. Qed.
Lemma current_ring_safe h : safe procs_ok R (current_ring h) anything.
Proof. unfold current_ring. safe_tac. Qed.
Lemma alloc_pid_safe : safe procs_ok R alloc_pid anything.
Proof. intros k Hk. unfold alloc_pid. simpl. by destruct (globals_safe R k (set_g_next_pid (w32 (g_next_pid k + 1)) k) eq_refl eq_refl Hk). Qed.
Lemma wake_loop_safe fuel : ∀ cur, safe procs_ok R (wake_loop fuel cur) anything.
Proof. induction fuel as [|fuel IH]; intros cur; simpl; safe_tac. Qed.
End RunQueues.
#[export] Hint Resolve enqueue_safe dequeue_safe rq_lock_safe rq_unlock_safe sched_tick_safe find_proc_safe
  by_pid_safe current_pid_safe current_ptr_safe current_ring_safe alloc_pid_safe wake_loop_safe : safety.

Section MoreKernel.
Context (R : Kernel → Kernel → Prop) `{!Coarse R}.

Lemma wait_wake_all_safe w : safe procs_ok R (wait_wake_all w) anything.
Proof. unfold wait_wake_all. safe_tac. Qed.
Lemma wait_enqueue_safe h w : safe procs_ok R (wait_enqueue h w) anything.
Proof. unfold wait_enqueue. safe_tac. Qed.
Lemma unlink_all_safe fuel p next : ∀ cur, safe procs_ok R (unlink_all fuel p next cur) anything.
Proof. induction fuel as [|fuel IH]; intros cur; simpl; safe_tac. Qed.
Lemma reparent_safe fuel pid : ∀ cur, safe procs_ok R (reparent fuel pid cur) anything.
Proof. induction fuel as [|fuel IH]; intros cur; simpl; safe_tac. Qed.
Lemma wake_parent_safe h parent : safe procs_ok R (wake_parent h parent) anything.
Proof. unfold wake_parent. safe_tac. Qed.
End MoreKernel.
#[export] Hint Resolve wait_wake_all_safe wait_enqueue_safe unlink_all_safe reparent_safe wake_parent_safe : safety.

Lemma unlink_proc_safe R `{!Coarse R} p : safe procs_ok R (unlink_proc p) anything.
Proof. unfold unlink_proc. safe_tac. Qed.
#[export] Hint Resolve unlink_proc_safe : safety.

Lemma len_put {A} (l : list A) a b src r : put l a b src = Ok r → length r = length l.
Proof.
  unfold put. destruct (_ && _ && _ && _) eqn:E; [|done]. intros H. injection H as <-.
  apply andb_true_iff in E as [[[E1 E2]%andb_true_iff E3]%andb_true_iff E4].
  apply Z.leb_le in E1, E2, E3. apply Z.eqb_eq in E4.
  pose proof (len_wr a src l ltac:(lia) ltac:(lia)) as H. unfold len in H. lia.
Qed.

Lemma len_set_idx {A} (l : list A) i x r : set_idx l i x = Ok r → length r = length l.
Proof. unfold set_idx. destruct (_ && _); [|done]. intros H. injection H as <-. apply length_insert. Qed.

Lemma set_cwd_safe R `{!Coarse R} h path : safe procs_ok R (set_cwd h path) anything.
Proof.
  unfold set_cwd. repeat safe_step. apply update_safe; [apply _|].
  repeat match goal with H : put _ _ _ _ = _ |- _ => apply len_put in H
    | H : set_idx _ _ _ = _ |- _ => apply len_set_idx in H | H : proc_ok _ |- _ => destruct H end.
  pose proof (len_nonneg path). benign_tac; lia.
Qed.
#[export] Hint Resolve set_cwd_safe : safety.

(** A context switch changes the current process, and nothing else that counts. *)
Section Switching.
Context (R : Kernel → Kernel → Prop) `{!Coarser R}.

Lemma set_current_safe h p : safe procs_ok R (set_current_for_hart h p) anything.
Proof.
  unfold set_current_for_hart. safe_step; [|safe_tac]. safe_step; [|safe_tac].
  intros k Hk. unfold at_set. destruct (set_idx _ _ _) as [l|e|]; simpl; [|split_and!; [done|reflexivity|done]..].
  split_and!; [done| |done]. apply coarser_steady. intros q x Hx. by exists x.
Qed.
Hint Resolve set_current_safe : safety.

Lemma save_current_safe h c tf : safe procs_ok R (save_current h c tf) anything.
Proof. unfold save_current. safe_tac. Qed.
Lemma pick_next_safe h : safe procs_ok R (pick_next h) anything.
Proof. unfold pick_next. safe_tac. Qed.
Lemma run_next_safe h p : safe procs_ok R (run_next h p) anything.
Proof. unfold run_next. safe_tac. Qed.
Lemma run_stolen_safe h p : safe procs_ok R (run_stolen h p) anything.
Proof. unfold run_stolen. safe_tac. Qed.
Lemma run_nothing_safe h c : safe procs_ok R (run_nothing h c) anything.
Proof. unfold run_nothing. safe_tac. Qed.
Lemma steal_loop_safe n h : ∀ i, safe procs_ok R (steal_loop n h i) anything.
Proof. induction n as [|n IH]; intros i; simpl; safe_tac. Qed.
Hint Resolve save_current_safe pick_next_safe run_next_safe run_stolen_safe run_nothing_safe : safety.
Lemma sched_yield_safe h tf : safe procs_ok R (sched_yield h tf) anything.
Proof. pose proof steal_loop_safe. unfold sched_yield, steal. safe_tac. Qed.
End Switching.
#[export] Hint Resolve set_current_safe sched_yield_safe : safety.

(** ** Channels *)

Definition ipc_ok (s : Ipc) : Prop := procs_ok (ipc_k s).
Definition ipc_rel (R : Kernel → Kernel → Prop) (s s' : Ipc) : Prop := R (ipc_k s) (ipc_k s').

#[global] Instance ipc_rel_pre R `{!PreOrder R} : PreOrder (ipc_rel R).
Proof.
  split; [intros s; unfold ipc_rel; reflexivity|]. intros s1 s2 s3 H1 H2. unfold ipc_rel in *. by etransitivity.
Qed.

Section Channels.
Context (R : Kernel → Kernel → Prop) `{!Coarse R}.

Lemma onk_safe {A} (m : KM A) Q : safe procs_ok R m Q → safe ipc_ok (ipc_rel R) (onk m) Q.
Proof. intros H s Hs. unfold onk, ipc_ok, ipc_rel in *. specialize (H (ipc_k s) Hs). by destruct (m (ipc_k s)). Qed.
Hint Resolve onk_safe : safety.

Lemma chan_at_safe i : safe ipc_ok (ipc_rel R) (chan_at i) anything.
Proof. apply safe_reads; [apply _|done]. Qed.
Lemma chan_put_safe i c : safe ipc_ok (ipc_rel R) (chan_set i c) anything.
Proof.
  intros s Hs. unfold chan_set. destruct (set_idx _ _ _); simpl; split_and!; try done; unfold ipc_rel; simpl; reflexivity.
Qed.
Lemma named_by_index_safe i : safe ipc_ok (ipc_rel R) (named_by_index i) anything.
Proof. apply safe_reads; [apply _|done]. Qed.
Hint Resolve chan_at_safe chan_put_safe named_by_index_safe : safety.

Lemma create_safe pid : safe ipc_ok (ipc_rel R) (create pid) anything.
Proof. unfold create. safe_tac. Qed.
Lemma find_by_name_safe name : safe ipc_ok (ipc_rel R) (find_by_name name) anything.
Proof. unfold find_by_name. safe_tac. Qed.
Hint Resolve create_safe find_by_name_safe : safety.
Lemma create_named_safe name pid : safe ipc_ok (ipc_rel R) (create_named name pid) anything.
Proof. unfold create_named. safe_tac. Qed.
Lemma push_client_safe id ch pid : safe ipc_ok (ipc_rel R) (push_client id ch pid) anything.
Proof. unfold push_client. safe_tac. Qed.
Hint Resolve push_client_safe : safety.
Lemma open_by_name_safe name pid : safe ipc_ok (ipc_rel R) (open_by_name name pid) anything.
Proof. unfold open_by_name. safe_tac. Qed.
Lemma connect_safe id pid : safe ipc_ok (ipc_rel R) (connect id pid) anything.
Proof. unfold connect. safe_tac. Qed.
Lemma chan_close_safe id : safe ipc_ok (ipc_rel R) (Ipc.close id) anything.
Proof. unfold Ipc.close. safe_tac. Qed.
Lemma chan_guard_safe h id : safe ipc_ok (ipc_rel R) (chan_guard h id) anything.
Proof. unfold chan_guard. safe_tac. Qed.
Hint Resolve open_by_name_safe chan_guard_safe : safety.
Lemma send_now_safe h id src : safe ipc_ok (ipc_rel R) (send h id src None) anything.
Proof. unfold send. safe_tac. Qed.
Lemma recv_now_safe h id n : safe ipc_ok (ipc_rel R) (recv h id n None) anything.
Proof. unfold recv. safe_tac. Qed.
Hint Resolve send_now_safe recv_now_safe : safety.
Lemma ipcfs_lookup_safe h name : safe ipc_ok (ipc_rel R) (Ipcfs.ipcfs_lookup h name) anything.
Proof. unfold Ipcfs.ipcfs_lookup. safe_tac. Qed.
Lemma ipcfs_read_safe h ino n : safe ipc_ok (ipc_rel R) (Ipcfs.ipcfs_read h ino n) anything.
Proof. unfold Ipcfs.ipcfs_read. safe_tac. Qed.
Lemma ipcfs_write_safe h ino src : safe ipc_ok (ipc_rel R) (Ipcfs.ipcfs_write h ino src) anything.
Proof. unfold Ipcfs.ipcfs_write. safe_tac. Qed.
Lemma ipcfs_readdir_safe i n : safe ipc_ok (ipc_rel R) (Ipcfs.ipcfs_readdir_entry i n) anything.
Proof. unfold Ipcfs.ipcfs_readdir_entry. safe_tac. Qed.
End Channels.
#[export] Hint Resolve onk_safe chan_at_safe chan_put_safe chan_guard_safe create_safe create_named_safe open_by_name_safe connect_safe
  chan_close_safe ipcfs_lookup_safe ipcfs_read_safe ipcfs_write_safe ipcfs_readdir_safe : safety.

Section Blocking.
Context (R : Kernel → Kernel → Prop) `{!Coarser R}.

Lemma block_safe {A} h tf (back : IM (reply A)) :
  safe ipc_ok (ipc_rel R) back anything → safe ipc_ok (ipc_rel R) (Ipc.block h tf back) anything.
Proof. intros H. unfold Ipc.block. safe_tac. Qed.
Hint Resolve block_safe : safety.
Lemma send_safe h id src tf : safe ipc_ok (ipc_rel R) (send h id src tf) anything.
Proof. unfold send. safe_tac. Qed.
Lemma recv_safe h id n tf : safe ipc_ok (ipc_rel R) (recv h id n tf) anything.
Proof. unfold recv. safe_tac. Qed.
End Blocking.
#[export] Hint Resolve send_safe recv_safe : safety.

(** ** The machine *)

Definition machine_ok (s : Machine) : Prop := procs_ok (kernel s) ∧ length (m_kfds s) = PROC_MAX_FDS.
Definition machine_rel (R : Kernel → Kernel → Prop) (s s' : Machine) : Prop :=
  R (kernel s) (kernel s') ∧ m_hart s' = m_hart s.

#[global] Instance machine_rel_pre R `{!PreOrder R} : PreOrder (machine_rel R).
Proof.
  split; [intros s; split; reflexivity|]. intros s1 s2 s3 [H1 E1] [H2 E2]. split; [by etransitivity|congruence].
Qed.

(** Steps that leave the kernel's tables alone. *)
Definition same_tables (s s' : Machine) : Prop :=
  m_ipc s' = m_ipc s ∧ m_kfds s' = m_kfds s ∧ m_hart s' = m_hart s.

Lemma poke_tables a b s : same_tables s (poke a b s).
Proof. unfold poke. by destruct (_ !! _). Qed.

Lemma pokes_tables bs : ∀ a s, same_tables s (pokes a bs s).
Proof.
  induction bs as [|b bs IH]; intros a s; simpl; [done|].
  destruct (IH (a + 1) (poke a b s)) as (E1 & E2 & E3). destruct (poke_tables a b s) as (F1 & F2 & F3).
  unfold same_tables. rewrite E1, E2, E3. done.
Qed.

Lemma store_bytes_tables pa bs s : same_tables s (store_bytes pa bs s).2.
Proof. unfold store_bytes. destruct (kernel_owned _ _ _); [done|apply pokes_tables]. Qed.
Lemma load_bytes_tables n pa s : same_tables s (load_bytes n pa s).2.
Proof. unfold load_bytes. by destruct (kernel_owned _ _ _). Qed.

Section Machines.
Context (R : Kernel → Kernel → Prop) `{!Coarse R}.

Lemma tables_safe s s' : same_tables s s' → machine_ok s → machine_ok s' ∧ machine_rel R s s'.
Proof. intros (E1 & E2 & E3) [H1 H2]. unfold machine_ok, machine_rel, kernel in *. rewrite E1, E2, E3. split_and!; done || reflexivity. Qed.

Lemma leaves_safe {A} (m : MM A) : (∀ s, same_tables s (m s).2) → safe machine_ok (machine_rel R) m anything.
Proof. intros H s Hs. by destruct (tables_safe _ _ (H s) Hs). Qed.

Lemma modify_leaves f : (∀ s, same_tables s (f s)) → safe machine_ok (machine_rel R) (modify f) anything.
Proof. intros H. apply leaves_safe. exact H. Qed.

Lemma store_bytes_safe pa bs : safe machine_ok (machine_rel R) (store_bytes pa bs) anything.
Proof. apply leaves_safe, store_bytes_tables. Qed.
Lemma load_bytes_safe n pa : safe machine_ok (machine_rel R) (load_bytes n pa) anything.
Proof. apply leaves_safe, load_bytes_tables. Qed.
Lemma on_vm_safe {A} (m : VM A) : safe machine_ok (machine_rel R) (on_vm m) anything.
Proof. apply leaves_safe. intros s. unfold on_vm. by destruct (m _). Qed.
Lemma on_heap_safe {A} (m : HM A) : safe machine_ok (machine_rel R) (on_heap m) anything.
Proof. apply leaves_safe. intros s. unfold on_heap. by destruct (m _). Qed.
Lemma on_fs_safe {A} (m : FM A) : safe machine_ok (machine_rel R) (on_fs m) anything.
Proof. apply leaves_safe. intros s. unfold on_fs. by destruct (m _). Qed.
Lemma on_fat_safe {A} (m : TM A) : safe machine_ok (machine_rel R) (on_fat m) anything.
Proof. apply leaves_safe. intros s. unfold on_fat. by destruct (m _). Qed.
Lemma on_net_safe {A} (m : NM A) : safe machine_ok (machine_rel R) (on_net m) anything.
Proof. apply leaves_safe. intros s. unfold on_net. by destruct (m _). Qed.

Lemma on_ipc_safe {A} (m : IM A) Q : safe ipc_ok (ipc_rel R) m Q → safe machine_ok (machine_rel R) (on_ipc m) Q.
Proof.
  intros H s [Hs Hf]. unfold on_ipc, machine_ok, machine_rel, kernel. specialize (H (m_ipc s) Hs).
  destruct (m (m_ipc s)). by destruct H as (H1 & H2 & H3).
Qed.
Lemma on_k_safe {A} (m : KM A) Q : safe procs_ok R m Q → safe machine_ok (machine_rel R) (on_k m) Q.
Proof. intros H. by apply on_ipc_safe, onk_safe. Qed.

Lemma catch_safe {A B} (m : MM A) (ok : A → MM B) err Q Q' :
  safe machine_ok (machine_rel R) m Q → (∀ a, Q a → safe machine_ok (machine_rel R) (ok a) Q') →
  (∀ e, safe machine_ok (machine_rel R) (err e) Q') → safe machine_ok (machine_rel R) (catch m ok err) Q'.
Proof.
  intros Hm Hok Herr s Hs. destruct (Hm s Hs) as (H1 & H2 & H3). unfold catch.
  destruct (m s) as [[a|e|] s']; simpl in *; [|destruct (Herr e s' H1) as (H4 & H5 & H6)|done].
  - destruct (Hok a (H3 a eq_refl) s' H1) as (H4 & H5 & H6). split_and!; [done| |done]. by etransitivity.
  - split_and!; [done| |done]. by etransitivity.
Qed.

Lemma ignore_safe {A} (m : MM A) : safe machine_ok (machine_rel R) m anything → safe machine_ok (machine_rel R) (ignore m) anything.
Proof. intros H. eapply catch_safe; [exact H|..]; intros; apply safe_ret; done || apply _. Qed.
Lemma to_ret_safe (m : MM Z) : safe machine_ok (machine_rel R) m anything → safe machine_ok (machine_rel R) (to_ret m) anything.
Proof. intros H. eapply catch_safe; [exact H|..]; intros; apply safe_ret; done || apply _. Qed.
Lemma to_ret0_safe (m : MM unit) : safe machine_ok (machine_rel R) m anything → safe machine_ok (machine_rel R) (to_ret0 m) anything.
Proof. intros H. eapply catch_safe; [exact H|..]; intros; apply safe_ret; done || apply _. Qed.
Lemma to_reply_safe (m : MM (reply Z)) : safe machine_ok (machine_rel R) m anything → safe machine_ok (machine_rel R) (to_reply m) anything.
Proof. intros H. eapply catch_safe; [exact H|..]; intros; apply safe_ret; done || apply _. Qed.
End Machines.

#[export] Hint Resolve store_bytes_safe load_bytes_safe on_vm_safe on_heap_safe on_fs_safe on_fat_safe on_net_safe on_ipc_safe on_k_safe
  ignore_safe to_ret_safe to_ret0_safe to_reply_safe : safety.
#[export] Hint Extern 1 (safe _ _ (modify _) _) =>
  apply modify_leaves; [apply _|intros ?; first [apply pokes_tables|apply poke_tables|by split_and!]] : safety.

(** Also into the arguments of the operators above. *)
Ltac safe_inside :=
  first [apply on_k_safe|apply to_ret_safe|apply to_ret0_safe|apply to_reply_safe|apply ignore_safe
        |apply (catch_safe _ _ _ _ anything); [|intros ? _|intros ?]]; try apply _.
Ltac safe_step ::=
  cbv beta;
  lazymatch goal with
  | |- safe _ _ (match ?x with _ => _ end) _ => destruct x eqn:?
  | |- safe _ _ (let _ := _ in _) _ => cbv zeta
  | |- safe _ _ (_ ≫= _) _ =>
      let H := fresh "Hr" in
      first [eapply safe_bind; [apply _|solve [eauto 4 with safety typeclass_instances]|intros ? H; cbv beta in H]
            |apply (safe_bind _ _ _ _ anything); [|intros ? _]]
  | |- _ => first [solve [eauto 4 with safety typeclass_instances]|safe_inside]
  end.
