(* ===== verification/HandlerProps.v ===== *)
(** * System calls and traps keep process records well formed

    The lemmas of [ProcProps] carried through the file layer, the loader, the
    signals, every system call and the trap handler. *)

From S2P Require Import Prelude Formats Vnode Process Sched Ipc Pmm Vmm Heap Onyxfs Fat32 Net Machine Procfs Vfs Lifecycle Onx Syscall Trap ProcProps.
From stdpp Require Import base list numbers gmap.
From Stdlib Require Import ZArith Lia.

Open Scope Z_scope.

Abbreviation msafe R m := (safe machine_ok (machine_rel R) m anything).

(** ** The current process, user memory, descriptors *)

Section Descriptors.
Context (R : Kernel → Kernel → Prop) `{!Coarse R}.

Lemma hart_id_safe : msafe R hart_id.
Proof. apply safe_gets; apply _. Qed.
Hint Resolve hart_id_safe : safety.
Lemma cur_pid_safe : msafe R cur_pid.
Proof. unfold cur_pid. safe_tac. Qed.
Lemma cur_ring_safe : msafe R cur_ring.
Proof. unfold cur_ring. safe_tac. Qed.
Lemma cur_ptr_safe : msafe R cur_ptr.
Proof. unfold cur_ptr. safe_tac. Qed.
Hint Resolve cur_pid_safe cur_ring_safe cur_ptr_safe : safety.
Lemma current_safe : safe machine_ok (machine_rel R) current proc_ok.
Proof. unfold current. safe_tac. Qed.
Lemma upd_current_safe f : benign f → msafe R (upd_current f).
Proof. intros H. unfold upd_current. safe_tac. Qed.
Lemma putc_safe c : msafe R (putc c).
Proof. unfold putc. safe_tac. Qed.
Lemma store_pa_safe n pa v : msafe R (store_pa n pa v).
Proof. unfold store_pa. safe_tac. Qed.
Lemma load_pa_safe n pa : msafe R (load_pa n pa).
Proof. unfold load_pa. safe_tac. Qed.
Hint Resolve current_safe upd_current_safe putc_safe store_pa_safe load_pa_safe : safety.
Lemma translate_cur_safe va : msafe R (translate_cur va).
Proof. unfold translate_cur. safe_tac. Qed.
Hint Resolve translate_cur_safe : safety.
Lemma uread_safe n : ∀ va, msafe R (uread n va).
Proof. induction n as [|n IH]; intros va; simpl; safe_tac. Qed.
Lemma uwrite_safe bs : ∀ va, msafe R (uwrite va bs).
Proof. induction bs as [|b bs IH]; intros va; simpl; safe_tac. Qed.
Hint Resolve uread_safe uwrite_safe : safety.
Lemma uread_le_safe n va : msafe R (uread_le n va).
Proof. unfold uread_le. safe_tac. Qed.
Lemma uwrite_le_safe n va v : msafe R (uwrite_le n va v).
Proof. unfold uwrite_le. safe_tac. Qed.

Lemma is_kernel_boot_safe : msafe R is_kernel_boot.
Proof. unfold is_kernel_boot. safe_tac. Qed.
Hint Resolve is_kernel_boot_safe : safety.
Lemma fd_table_safe : safe machine_ok (machine_rel R) fd_table (λ l, length l = PROC_MAX_FDS).
Proof.
  unfold fd_table. safe_step. destruct a.
  - apply safe_pure; [apply _|done|]. intros s l [_ H] E. injection E as <-. done.
  - safe_step. apply safe_ret; [apply _|]. by apply ok_fds.
Qed.
Lemma fd_table_set_safe l : length l = PROC_MAX_FDS → msafe R (fd_table_set l).
Proof.
  intros Hl. unfold fd_table_set. safe_step. destruct a; [|safe_tac].
  apply safe_modify. intros s [H _]. split; [by split|]. split; [reflexivity|done].
Qed.
Hint Resolve fd_table_safe : safety.
Lemma fd_get_safe i : msafe R (fd_get i).
Proof. unfold fd_get. safe_tac. Qed.
Lemma fd_upd_safe i f : msafe R (fd_upd i f).
Proof.
  unfold fd_upd. safe_step. safe_step. safe_step. apply fd_table_set_safe. apply len_set_idx in Hr1. congruence.
Qed.
End Descriptors.
#[export] Hint Resolve hart_id_safe cur_pid_safe cur_ring_safe cur_ptr_safe current_safe upd_current_safe putc_safe
  store_pa_safe load_pa_safe translate_cur_safe uread_safe uwrite_safe uread_le_safe uwrite_le_safe
  is_kernel_boot_safe fd_table_safe fd_get_safe fd_upd_safe : safety.

(** ** Files *)

Section Files.
Context (R : Kernel → Kernel → Prop) `{!Coarse R}.

Lemma fd_set_safe i ino size fs pos : msafe R (fd_set i ino size fs pos).
Proof. unfold fd_set. safe_tac. Qed.
Lemma fd_update_pos_safe i pos : msafe R (fd_update_pos i pos).
Proof. unfold fd_update_pos. safe_tac. Qed.
Lemma fd_clear_safe i : msafe R (fd_clear i).
Proof. unfold fd_clear. safe_tac. Qed.
Lemma token_of_safe i : msafe R (token_of i).
Proof. unfold token_of. safe_tac. Qed.
Lemma fd_check_safe t : msafe R (fd_check t).
Proof. unfold fd_check. safe_tac. Qed.
Hint Resolve fd_set_safe fd_update_pos_safe fd_clear_safe token_of_safe fd_check_safe : safety.
Lemma fd_check_perm_safe t perm : msafe R (fd_check_perm t perm).
Proof. unfold fd_check_perm. safe_tac. Qed.
Lemma alloc_fd_safe perms : msafe R (alloc_fd perms).
Proof. unfold alloc_fd. safe_tac. Qed.
Lemma resolve_mount_safe path : msafe R (resolve_mount path).
Proof. unfold resolve_mount. safe_tac. Qed.
Hint Resolve resolve_mount_safe : safety.
Lemma reply_now_safe {A} (m : MM (reply A)) : msafe R m → msafe R (reply_now m).
Proof. intros H. unfold reply_now. safe_tac. Qed.
Lemma publish_safe bp : msafe R (publish bp).
Proof. unfold publish. safe_tac. Qed.
Lemma count_loop_safe fuel : ∀ cur n, safe procs_ok R (count_loop fuel cur n) anything.
Proof. induction fuel as [|fuel IH]; intros cur n; simpl; safe_tac. Qed.
Lemma aim_cursor_safe fs ino : msafe R (aim_cursor fs ino).
Proof. unfold aim_cursor. safe_tac. Qed.
Lemma step_cursor_safe e : msafe R (step_cursor e).
Proof. unfold step_cursor. safe_tac. Qed.
Lemma parent_of_safe path : msafe R (parent_of path).
Proof. unfold parent_of. safe_tac. Qed.
Hint Resolve fd_check_perm_safe alloc_fd_safe resolve_mount_safe reply_now_safe publish_safe count_loop_safe
  aim_cursor_safe step_cursor_safe parent_of_safe : safety.
Lemma proc_count_safe : safe procs_ok R proc_count anything.
Proof. intros k. unfold proc_count. by apply count_loop_safe. Qed.
Hint Resolve proc_count_safe : safety.
Lemma procfs_read_safe ino off n : msafe R (procfs_read ino off n).
Proof. unfold procfs_read, generate_content. safe_tac. Qed.
Lemma lookup_path_safe fs sub name : msafe R (lookup_path fs sub name).
Proof. unfold lookup_path. safe_tac. Qed.
Hint Resolve procfs_read_safe lookup_path_safe : safety.

Lemma vfs_open_safe path perms : msafe R (vfs_open path perms).
Proof. unfold vfs_open. safe_tac. Qed.
Lemma vfs_close_safe t : msafe R (vfs_close t).
Proof. unfold vfs_close. safe_tac. Qed.
Lemma vfs_read_safe t n : msafe R (vfs_read t n).
Proof. unfold vfs_read. safe_tac. Qed.
Lemma vfs_write_safe t src : msafe R (vfs_write t src).
Proof. unfold vfs_write. safe_tac. Qed.
Lemma vfs_stat_safe t : msafe R (vfs_stat t).
Proof. unfold vfs_stat. safe_tac. Qed.
Lemma vfs_lseek_safe t off whence : msafe R (vfs_lseek t off whence).
Proof. unfold vfs_lseek. safe_tac. Qed.
Lemma vfs_truncate_safe t : msafe R (vfs_truncate t).
Proof. unfold vfs_truncate. safe_tac. Qed.
Lemma vfs_dup_safe t : msafe R (vfs_dup t).
Proof. unfold vfs_dup. safe_tac. Qed.
Lemma vfs_pipe_safe : msafe R vfs_create_pipe.
Proof. unfold vfs_create_pipe. safe_tac. Qed.
Lemma vfs_create_safe path mode : msafe R (vfs_create path mode).
Proof.
  unfold vfs_create. do 6 safe_step. apply safe_bind with (Q := anything); [apply _| |intros ? _; safe_tac].
  apply upd_current_safe; [apply _|]. apply len_set_idx in Hr4. destruct Hr2. benign_tac. congruence.
Qed.
Lemma vfs_mkdir_safe path : msafe R (vfs_mkdir path).
Proof. unfold vfs_mkdir. safe_tac. Qed.
Lemma vfs_readdir_safe path n : msafe R (vfs_readdir path n).
Proof. unfold vfs_readdir. safe_tac. Qed.
Lemma readdir_by_ino_safe fs ino i n : msafe R (readdir_entry_by_ino fs ino i n).
Proof. unfold readdir_entry_by_ino. safe_tac. Qed.
Lemma vfs_unlink_safe path : msafe R (vfs_unlink path).
Proof. unfold vfs_unlink. safe_tac. Qed.
Lemma vfs_rename_safe old new : msafe R (vfs_rename old new).
Proof. unfold vfs_rename. safe_tac. Qed.
Lemma vfs_utimens_safe path mt at' : msafe R (vfs_utimens path mt at').
Proof. unfold vfs_utimens. safe_tac. Qed.
End Files.
#[export] Hint Resolve fd_update_pos_safe fd_check_safe vfs_open_safe vfs_close_safe vfs_read_safe vfs_write_safe vfs_stat_safe
  vfs_lseek_safe vfs_truncate_safe vfs_dup_safe vfs_pipe_safe vfs_create_safe vfs_mkdir_safe vfs_readdir_safe
  readdir_by_ino_safe vfs_unlink_safe vfs_rename_safe vfs_utimens_safe : safety.

(** ** Signals and exit *)

Lemma u32_log2 z : 0 ≤ z → u32 z ↔ Z.log2 z < 32.
Proof.
  intros Hz. unfold u32. destruct (decide (z = 0)) as [->|]; [by split|].
  rewrite <- Z.log2_lt_pow2 by lia. split; [by intros [_ ?]|by split].
Qed.

Lemma u32_lor a b : u32 a → u32 b → u32 (Z.lor a b).
Proof.
  intros Ha Hb. pose proof (proj1 Ha). pose proof (proj1 Hb).
  apply u32_log2 in Ha, Hb; [|done..]. apply u32_log2; [by apply Z.lor_nonneg|]. rewrite Z.log2_lor by done. lia.
Qed.

Lemma u32_land a b : u32 a → 0 ≤ b → u32 (Z.land a b).
Proof.
  intros Ha Hb. pose proof (proj1 Ha). apply u32_log2 in Ha; [|done].
  apply u32_log2; [apply Z.land_nonneg; by left|]. pose proof (Z.log2_land a b). lia.
Qed.

Lemma u32_w32 z : u32 (w32 z).
Proof. unfold u32, w32. apply Z.mod_pos_bound. lia. Qed.

Lemma u32_sigbit sig : 0 ≤ sig < 32 → u32 (sigbit sig).
Proof.
  intros H. unfold u32, sigbit. rewrite Z.shiftl_1_l. split; [apply Z.pow_nonneg; lia|].
  apply (Z.pow_lt_mono_r 2 sig 32); lia.
Qed.

Lemma u32_not32 z : u32 z → u32 (not32 z).
Proof. unfold u32, not32. lia. Qed.

#[export] Hint Resolve u32_lor u32_w32 u32_not32 u32_sigbit : safety.

Section Signals.
Context (R : Kernel → Kernel → Prop) `{!Coarse R}.

Lemma close_all_safe n p : ∀ i, msafe R (close_all n i p).
Proof. induction n as [|n IH]; intros i; simpl; safe_tac. Qed.
Hint Resolve close_all_safe : safety.
Lemma exit_safe pid code : msafe R (exit pid code).
Proof. unfold exit. safe_tac. Qed.
Lemma free_proc_safe p : msafe R (free_proc p).
Proof. unfold free_proc. safe_tac. Qed.
Hint Resolve exit_safe : safety.
Lemma die_safe h pid code : msafe R (die h pid code).
Proof. unfold die. safe_tac. Qed.
Hint Resolve die_safe : safety.

Lemma signal_send_safe pid sig : 0 ≤ sig → msafe R (signal_send pid sig).
Proof.
  intros Hsig. unfold signal_send. destruct ((sig =? 0) || (32 <=? sig)) eqn:E; [safe_tac|].
  apply orb_false_iff in E as [_ E]. apply Z.leb_gt in E. safe_step. safe_step; [safe_tac|].
  apply safe_bind with (Q := anything); [apply _| |intros ? _; safe_tac].
  apply on_k_safe, update_safe; try apply _. intros x []. destruct x; simpl in *.
  split; [constructor; simpl; auto with safety|by split].
Qed.

Lemma sigreturn_safe : msafe R sigreturn.
Proof. unfold sigreturn. safe_tac. Qed.
Lemma lowest_range n i pending : 0 ≤ i → lowest n i pending = 0 ∨ i ≤ lowest n i pending < i + Z.of_nat n.
Proof.
  revert i. induction n as [|n IH]; intros i Hi; [by left|]. cbn [lowest]. destruct (negb _); [lia|].
  destruct (IH (i + 1) ltac:(lia)); lia.
Qed.

Lemma signal_check_safe : msafe R signal_check.
Proof.
  unfold signal_check. safe_step. safe_step. safe_step; [safe_tac|]. safe_step.
  assert (∀ sig, 0 ≤ sig < 32 →
    benign (set_p_pending_signals (Z.land (p_pending_signals a1) (not32 (sigbit sig))))) as Hp.
  { intros sig Hs. destruct Hr1. benign_tac. apply u32_land; [done|]. by apply u32_not32, u32_sigbit. }
  safe_step; [pose proof (Hp SIG_KILL ltac:(done)); safe_tac|].
  safe_step; [safe_tac|]. cbv zeta. safe_step; [safe_tac|].
  match goal with |- context [lowest 31 1 ?p] => destruct (lowest_range 31 1 p ltac:(lia)) as [E|E] end; [rewrite E, Z.eqb_refl; safe_tac|].
  rewrite (proj2 (Z.eqb_neq _ 0)) by lia. pose proof (Hp _ (conj (Z.le_trans 0 1 _ ltac:(lia) (proj1 E)) (proj2 E))). safe_tac.
Qed.
End Signals.

Section SignalCalls.
Context (R : Kernel → Kernel → Prop) `{!Coarse R}.

Lemma or_mask_benign m : u32 m → benign (λ x, set_p_signal_mask (Z.lor (p_signal_mask x) m) x).
Proof. intros Hm x []. destruct x; simpl in *. split; [constructor; simpl; auto with safety|by split]. Qed.
Lemma and_mask_benign m : 0 ≤ m → benign (λ x, set_p_signal_mask (Z.land (p_signal_mask x) m) x).
Proof. intros Hm x []. destruct x; simpl in *. split; [constructor; simpl; auto using u32_land|by split]. Qed.
Lemma set_mask_benign m : u32 m → benign (set_p_signal_mask m).
Proof. intros Hm. benign_tac. Qed.

Lemma sigaction_safe signum act old : msafe R (sigaction signum act old).
Proof.
  unfold sigaction. safe_step; [safe_tac|]. safe_step; [safe_tac|]. safe_step. safe_step.
  apply safe_bind with (Q := anything); [apply _|safe_tac|intros ? _].
  safe_step; [safe_tac|]. safe_step. safe_step; [safe_tac|]. safe_step. safe_step. safe_step.
  apply len_set_idx in Hr4. destruct Hr.
  assert (benign (set_p_signal_handlers a5)) as Hb by (benign_tac; congruence).
  pose proof (or_mask_benign (w32 a4) (u32_w32 _)). safe_tac.
Qed.

Lemma sigprocmask_safe how set old : msafe R (sigprocmask how set old).
Proof.
  unfold sigprocmask. safe_step. apply safe_bind with (Q := anything); [apply _|safe_tac|intros ? _].
  safe_step; [safe_tac|]. safe_step. safe_step; [safe_tac|]. safe_step. cbv zeta.
  set (new := Z.land (w32 a2) (not32 protected)).
  assert (u32 new) as Hn by (apply u32_land; [apply u32_w32|done]).
  pose proof (or_mask_benign new Hn). pose proof (set_mask_benign new Hn).
  pose proof (and_mask_benign (not32 new) (proj1 (u32_not32 _ Hn))). safe_tac.
Qed.

Lemma sys_sigmask_safe how sig : 0 ≤ sig → msafe R (sys_sigmask how sig).
Proof.
  intros Hs. unfold sys_sigmask. destruct (32 <=? sig) eqn:E; [safe_tac|]. apply Z.leb_gt in E.
  pose proof (u32_sigbit sig ltac:(lia)) as Hb. pose proof (or_mask_benign _ Hb). pose proof (set_mask_benign _ Hb).
  pose proof (set_mask_benign 0 ltac:(unfold u32; lia)). pose proof (and_mask_benign _ (proj1 (u32_not32 _ Hb))).
  destruct (sig =? SIG_KILL); cbn [negb]; safe_tac.
Qed.
End SignalCalls.
#[export] Hint Resolve exit_safe free_proc_safe signal_send_safe sigreturn_safe signal_check_safe sigaction_safe
  sigprocmask_safe sys_sigmask_safe : safety.

(** ** The loader *)

Definition load_ok (r : OnxLoadResult) : Prop := lr_heap_brk r = USER_HEAP_BASE ∧ (lr_ring r = 1 ∨ lr_ring r = 2).

Section Loader.
Context (R : Kernel → Kernel → Prop) `{!Coarse R}.

Lemma fill_pages_safe fuel root : ∀ va bytes, msafe R (fill_pages fuel root va bytes).
Proof. induction fuel as [|fuel IH]; intros va bytes; simpl; safe_tac. Qed.
Hint Resolve fill_pages_safe : safety.
Lemma unpack_safe fuel root src ce fe : ∀ i o, msafe R (unpack fuel root src ce fe i o).
Proof. induction fuel as [|fuel IH]; intros i o; cbn [unpack]; unfold image_bytes; safe_tac. Qed.
Lemma copy_pages_safe fuel root s image : ∀ va e fp, msafe R (copy_pages fuel root s image va e fp).
Proof. induction fuel as [|fuel IH]; intros va e fp; cbn [copy_pages]; unfold image_bytes; safe_tac. Qed.
Hint Resolve unpack_safe copy_pages_safe : safety.
Lemma map_segment_safe root s image c : msafe R (map_segment_data root s image c).
Proof. unfold map_segment_data, decompress_to_pages, copy_raw_to_pages. safe_tac. Qed.
Hint Resolve map_segment_safe : safety.
Lemma load_segs_safe root image size c segs : msafe R (load_segs root image size c segs).
Proof. induction segs as [|s segs IH]; simpl; safe_tac. Qed.
Hint Resolve load_segs_safe : safety.
Lemma load_safe image size : safe machine_ok (machine_rel R) (Onx.load image size) load_ok.
Proof.
  unfold Onx.load, image_bytes. safe_tac. all: apply safe_ret; [apply _|]; split; [done|]; simpl; destruct (negb _); auto.
Qed.

Lemma user_str_safe n : ∀ p, msafe R (user_str n p).
Proof. induction n as [|n IH]; intros p; simpl; safe_tac. Qed.
Hint Resolve user_str_safe : safety.
Lemma collect_strings_safe n ml cap : ∀ ptrs blob offs, msafe R (collect_strings n ptrs ml cap blob offs).
Proof. induction n as [|n IH]; intros ptrs blob offs; simpl; safe_tac. Qed.
Hint Resolve collect_strings_safe : safety.
Lemma strings_at_safe ptrs n ml cap : msafe R (strings_at ptrs n ml cap).
Proof. unfold strings_at. safe_tac. Qed.
Lemma write_val_safe root va v : msafe R (write_val root va v).
Proof. unfold write_val. safe_tac. Qed.
Hint Resolve strings_at_safe write_val_safe : safety.
Lemma write_vals_safe root vs : ∀ va, msafe R (write_vals root va vs).
Proof. induction vs as [|v vs IH]; intros va; simpl; safe_tac. Qed.
Lemma write_blob_safe root va bs : msafe R (write_blob root va bs).
Proof. unfold write_blob. safe_tac. Qed.
Hint Resolve write_vals_safe write_blob_safe : safety.
Lemma copy_argv_safe root top argv envp entry uid : msafe R (copy_argv_envp_to_stack root top argv envp entry uid).
Proof. unfold copy_argv_envp_to_stack. safe_tac. Qed.
End Loader.
#[export] Hint Resolve load_safe copy_argv_safe : safety.
