(* ===== verification/CallProps.v ===== *)
(** * Every system call keeps process records well formed

    One lemma per handler, for the finest relation that holds of it: the calls
    that cannot block are [quiet] up to what they change of the calling process,
    the blocking ones [steady]; [exec], [execve], [dropring], [spawn] and [fork]
    change identities and are treated apart. *)

From S2P Require Import Prelude Formats Vnode Process Sched Ipc Pmm Vmm Heap Onyxfs Fat32 Net Machine Procfs Vfs Lifecycle Onx Syscall Trap ProcProps HandlerProps.
From stdpp Require Import base list numbers gmap.
From Stdlib Require Import ZArith Lia.

Open Scope Z_scope.

Section Quiet.
Context (R : Kernel → Kernel → Prop) `{!Coarse R}.

Lemma c_str_safe n : ∀ p, msafe R (c_str n p).
Proof. induction n as [|n IH]; intros p; simpl; safe_tac. Qed.
Hint Resolve c_str_safe : safety.
Lemma parse_user_path_safe p : msafe R (parse_user_path p).
Proof. unfold parse_user_path. safe_tac. Qed.
Hint Resolve parse_user_path_safe : safety.
Lemma with_path_safe p f : (∀ path, msafe R (f path)) → msafe R (with_path p f).
Proof. intros H. unfold with_path. safe_tac. Qed.
Lemma checked_safe p n m : msafe R m → msafe R (checked p n m).
Proof. intros H. unfold checked. safe_tac. Qed.
Lemma root_only_safe m : msafe R m → msafe R (root_only m).
Proof. intros H. unfold root_only. safe_tac. Qed.
End Quiet.
#[export] Hint Resolve c_str_safe parse_user_path_safe : safety.

(** Walk through the code of a handler. *)
Ltac call_tac :=
  repeat first [apply with_path_safe; [try apply _|intros ?]|apply checked_safe; try apply _
               |apply root_only_safe; try apply _|safe_step].

Section Calls.
Context (R : Kernel → Kernel → Prop) `{!Coarse R}.

(** *** Files *)
Lemma put_text_safe bs : msafe R (put_text bs).
Proof. induction bs as [|b bs IH]; simpl; safe_tac. Qed.
Hint Resolve put_text_safe : safety.
Lemma write_console_safe n : ∀ p, msafe R (write_console n p).
Proof. induction n as [|n IH]; intros p; cbn [write_console]; safe_tac. Qed.
Hint Resolve write_console_safe : safety.
Lemma sys_write_safe fd buf n : msafe R (sys_write fd buf n).
Proof. unfold sys_write. call_tac. Qed.
Lemma store_fields_safe pa fs : msafe R (store_fields pa fs).
Proof. induction fs as [|[[off v] n] fs IH]; simpl; safe_tac. Qed.
Hint Resolve store_fields_safe : safety.
Lemma fill_user_stat_safe va i z m t1 t2 t3 : msafe R (fill_user_stat va i z m t1 t2 t3).
Proof. unfold fill_user_stat. safe_tac. Qed.
Hint Resolve fill_user_stat_safe : safety.
Lemma open_or_create_safe path perms flags mode ring : msafe R (open_or_create path perms flags mode ring).
Proof.
  intros s Hs. unfold open_or_create. destruct (vfs_open_safe R path perms s Hs) as (H1 & H2 & _).
  destruct (vfs_open path perms s) as [[t|e|] s']; simpl in *; [done| |done].
  destruct e; try done. destruct (has flags O_CREAT); [|done]. destruct (_ <? ring); [done|].
  destruct (vfs_create_safe R path (if mode =? 0 then ONYFS_DT_REG else w32 mode) s' H1) as (H3 & H4 & _).
  split_and!; [done| |done]. by etransitivity.
Qed.
Hint Resolve open_or_create_safe : safety.
Lemma sys_open_safe path flags mode : msafe R (sys_open path flags mode).
Proof. unfold sys_open. call_tac. Qed.
Lemma sys_close_safe t : msafe R (sys_close t).
Proof. unfold sys_close. call_tac. Qed.
Lemma sys_lseek_safe t off whence : msafe R (sys_lseek t off whence).
Proof. unfold sys_lseek. call_tac. Qed.
Lemma sys_stat_safe path buf : msafe R (sys_stat path buf).
Proof. unfold sys_stat. call_tac. Qed.
Lemma sys_fstat_safe t buf : msafe R (sys_fstat t buf).
Proof. unfold sys_fstat. call_tac. Qed.
Lemma sys_fcntl_safe fd cmd arg : msafe R (sys_fcntl fd cmd arg).
Proof. unfold sys_fcntl. call_tac. Qed.
Lemma sys_readdir_safe dir out n : msafe R (sys_readdir dir out n).
Proof. unfold sys_readdir. call_tac. Qed.
Lemma sys_write_fd_safe t buf n : msafe R (sys_write_fd t buf n).
Proof. unfold sys_write_fd. call_tac. Qed.
Lemma sys_create_safe path mode : msafe R (sys_create path mode).
Proof. unfold sys_create. call_tac. Qed.
Lemma sys_mkdir_safe path : msafe R (sys_mkdir path).
Proof. unfold sys_mkdir. call_tac. Qed.
Lemma sys_dup_safe t : msafe R (sys_dup t).
Proof. unfold sys_dup. call_tac. Qed.
Lemma sys_pipe_safe p : msafe R (sys_pipe p).
Proof. unfold sys_pipe. call_tac. Qed.
Lemma sys_unlink_safe path : msafe R (sys_unlink path).
Proof. unfold sys_unlink. call_tac. Qed.
Lemma sys_rename_safe old new : msafe R (sys_rename old new).
Proof. unfold sys_rename. call_tac. Qed.
Lemma sys_truncate_safe path : msafe R (sys_truncate path).
Proof. unfold sys_truncate. call_tac. Qed.
Lemma sys_truncate2_safe path n : msafe R (sys_truncate2 path n).
Proof. unfold sys_truncate2. call_tac. Qed.
Lemma sys_ftruncate_safe fd n : msafe R (sys_ftruncate fd n).
Proof. unfold sys_ftruncate. call_tac. Qed.
Lemma sys_access_safe path : msafe R (sys_access path).
Proof. unfold sys_access. call_tac. Qed.
Lemma sys_chdir_safe path : msafe R (sys_chdir path).
Proof. unfold sys_chdir. call_tac. Qed.
Lemma sys_getcwd_safe buf n : msafe R (sys_getcwd buf n).
Proof. unfold sys_getcwd. call_tac. Qed.
Lemma sys_utimens_safe path times : msafe R (sys_utimens path times).
Proof. unfold sys_utimens. call_tac. Qed.
Lemma dents_loop_safe fuel fs ino pa count : ∀ cursor written, msafe R (dents_loop fuel fs ino cursor pa written count).
Proof. induction fuel as [|fuel IH]; intros c w; cbn [dents_loop]; safe_tac. Qed.
Hint Resolve dents_loop_safe : safety.
Lemma sys_getdents64_safe fd buf n : msafe R (sys_getdents64 fd buf n).
Proof. unfold sys_getdents64. call_tac. Qed.
Lemma ioctl_fill_safe arg bytes : msafe R (ioctl_fill arg bytes).
Proof. unfold ioctl_fill. call_tac. Qed.
Hint Resolve ioctl_fill_safe : safety.
Lemma sys_ioctl_safe fd req arg : msafe R (sys_ioctl fd req arg).
Proof. unfold sys_ioctl. call_tac. Qed.
Lemma sys_readlink_safe path : msafe R (sys_readlink path).
Proof. unfold sys_readlink. call_tac. Qed.
Lemma sys_chmod_safe path : msafe R (sys_chmod path).
Proof. unfold sys_chmod. call_tac. Qed.
End Calls.
#[export] Hint Resolve sys_write_safe sys_open_safe sys_close_safe sys_lseek_safe sys_stat_safe sys_fstat_safe sys_fcntl_safe
  sys_readdir_safe sys_write_fd_safe sys_create_safe sys_mkdir_safe sys_dup_safe sys_pipe_safe sys_unlink_safe
  sys_rename_safe sys_truncate_safe sys_truncate2_safe sys_ftruncate_safe sys_access_safe sys_chdir_safe
  sys_getcwd_safe sys_utimens_safe sys_getdents64_safe sys_ioctl_safe sys_readlink_safe sys_chmod_safe : safety.

Section MoreCalls.
Context (R : Kernel → Kernel → Prop) `{!Coarse R}.

(** *** Processes *)
Lemma sys_exit_safe code : msafe R (sys_exit code).
Proof. unfold sys_exit. call_tac. Qed.
Lemma sys_yield_safe : msafe R sys_yield.
Proof. unfold sys_yield. call_tac. Qed.
Lemma sys_kill_safe pid sig : 0 ≤ sig → msafe R (sys_kill pid sig).
Proof. intros H. unfold sys_kill. call_tac. Qed.
Lemma set_affinity_safe pid cpu : msafe R (sys_sched_setaffinity pid cpu).
Proof.
  unfold sys_sched_setaffinity. destruct ((cpu <? -1) || (MAX_HARTS <=? cpu)) eqn:E; [call_tac|].
  apply orb_false_iff in E as [E1 E2]. apply Z.ltb_ge in E1. apply Z.leb_gt in E2.
  assert (benign (set_p_affinity cpu)) as Hb by benign_tac. call_tac.
Qed.
Lemma get_affinity_safe pid : msafe R (sys_sched_getaffinity pid).
Proof. unfold sys_sched_getaffinity. call_tac. Qed.
Lemma sys_getring_safe : msafe R sys_getring.
Proof. unfold sys_getring. call_tac. Qed.
Lemma snapshot_create_safe name : msafe R (sys_snapshot_create name).
Proof. unfold sys_snapshot_create. call_tac. Qed.
Lemma snapshot_rollback_safe id : msafe R (sys_snapshot_rollback id).
Proof. unfold sys_snapshot_rollback. call_tac. Qed.
Lemma snapshot_list_safe buf n : msafe R (sys_snapshot_list buf n).
Proof. unfold sys_snapshot_list. call_tac. Qed.
Lemma sys_chan_create_safe : msafe R sys_chan_create.
Proof. unfold sys_chan_create. call_tac. Qed.
Lemma sys_chan_named_safe name : msafe R (sys_chan_create_named name).
Proof. unfold sys_chan_create_named. call_tac. Qed.
Lemma sys_chan_open_safe name : msafe R (sys_chan_open name).
Proof. unfold sys_chan_open. call_tac. Qed.
Lemma sys_chan_connect_safe id : msafe R (sys_chan_connect id).
Proof. unfold sys_chan_connect. call_tac. Qed.
Lemma sys_chan_close_safe id : msafe R (sys_chan_close id).
Proof. unfold sys_chan_close. call_tac. Qed.

(** *** Memory: the break stays in the heap region *)
Lemma brk_benign b : USER_HEAP_BASE ≤ b ≤ USER_HEAP_BASE + USER_HEAP_SIZE → benign (set_p_heap_brk b).
Proof. intros H. benign_tac. Qed.

Lemma sys_sbrk_safe incr : msafe R (sys_sbrk incr).
Proof.
  unfold sys_sbrk. safe_step. safe_step. safe_step; [call_tac|]. safe_step. cbv zeta.
  match goal with |- context [if ?b then _ else _] => destruct b eqn:E end; [call_tac|].
  apply orb_false_iff in E as [E1 E2]. apply Z.ltb_ge in E1, E2.
  pose proof (brk_benign _ (conj E1 E2)). call_tac.
Qed.

Lemma sys_brk_safe addr : msafe R (sys_brk addr).
Proof.
  unfold sys_brk. safe_step. cbv zeta. safe_step; [call_tac|].
  match goal with |- context [if (_ <? _) || _ then _ else _] => destruct ((addr <? USER_HEAP_BASE) || (USER_HEAP_BASE + USER_HEAP_SIZE <? addr)) eqn:E end; [call_tac|].
  apply orb_false_iff in E as [E1 E2]. apply Z.ltb_ge in E1, E2.
  pose proof (brk_benign _ (conj E1 E2)). call_tac.
Qed.

Lemma bump_mmap_safe size : msafe R (bump_mmap size).
Proof. unfold bump_mmap. call_tac. Qed.
Hint Resolve bump_mmap_safe : safety.
Lemma sys_mmap_safe addr n prot flags : msafe R (sys_mmap addr n prot flags).
Proof. unfold sys_mmap. call_tac. Qed.
Lemma sys_munmap_safe addr n : msafe R (sys_munmap addr n).
Proof. unfold sys_munmap. call_tac. Qed.
Lemma sys_mprotect_safe addr n prot : msafe R (sys_mprotect addr n prot).
Proof. unfold sys_mprotect. call_tac. Qed.

(** *** Time, identity, entropy, the network *)
Lemma sys_gettimeofday_safe tv : msafe R (sys_gettimeofday tv).
Proof. unfold sys_gettimeofday. call_tac. Qed.
Lemma sleep_loop_safe target : ∀ polls, msafe R (sleep_loop polls target).
Proof. induction polls as [|now polls IH]; cbn [sleep_loop]; call_tac. Qed.
Hint Resolve sleep_loop_safe : safety.
Lemma sys_nanosleep_safe req : msafe R (sys_nanosleep req).
Proof. unfold sys_nanosleep. call_tac. Qed.
Lemma clock_gettime_safe clk ts : msafe R (sys_clock_gettime clk ts).
Proof. unfold sys_clock_gettime. call_tac. Qed.
Lemma clock_getres_safe clk ts : msafe R (sys_clock_getres clk ts).
Proof. unfold sys_clock_getres. call_tac. Qed.
Lemma sys_getuid_safe : msafe R sys_getuid.
Proof. unfold sys_getuid. call_tac. Qed.
Lemma sys_getgid_safe : msafe R sys_getgid.
Proof. unfold sys_getgid. call_tac. Qed.
Lemma sys_uname_safe buf : msafe R (sys_uname buf).
Proof. unfold sys_uname. call_tac. Qed.
Lemma sys_setuid_safe uid : msafe R (sys_setuid uid).
Proof. unfold sys_setuid. call_tac. Qed.
Lemma sys_setgid_safe gid : msafe R (sys_setgid gid).
Proof. unfold sys_setgid. call_tac. Qed.
Lemma sys_getppid_safe : msafe R sys_getppid.
Proof. unfold sys_getppid. call_tac. Qed.
Lemma sys_getpgid_safe pid : msafe R (sys_getpgid pid).
Proof. unfold sys_getpgid. call_tac. Qed.
Lemma sys_getentropy_safe buf n : msafe R (sys_getentropy buf n).
Proof. unfold sys_getentropy. call_tac. Qed.
Lemma net_connect_safe ip port : msafe R (sys_net_connect ip port).
Proof. unfold sys_net_connect. call_tac. Qed.
Lemma net_send_safe id buf n : msafe R (sys_net_send id buf n).
Proof. unfold sys_net_send. call_tac. Qed.
Lemma net_recv_safe id buf n : msafe R (sys_net_recv id buf n).
Proof. unfold sys_net_recv. call_tac. Qed.
Lemma net_close_safe id : msafe R (sys_net_close id).
Proof. unfold sys_net_close. call_tac. Qed.
End MoreCalls.
#[export] Hint Resolve sys_exit_safe sys_yield_safe sys_kill_safe set_affinity_safe get_affinity_safe sys_getring_safe
  snapshot_create_safe snapshot_rollback_safe snapshot_list_safe sys_chan_create_safe sys_chan_named_safe
  sys_chan_open_safe sys_chan_connect_safe sys_chan_close_safe sys_sbrk_safe sys_brk_safe sys_mmap_safe
  sys_munmap_safe sys_mprotect_safe sys_gettimeofday_safe sys_nanosleep_safe clock_gettime_safe clock_getres_safe
  sys_getuid_safe sys_getgid_safe sys_uname_safe sys_setuid_safe sys_setgid_safe sys_getppid_safe sys_getpgid_safe
  sys_getentropy_safe net_connect_safe net_send_safe net_recv_safe net_close_safe : safety.

(** *** Calls that may block *)

Section Blocking.
Context (R : Kernel → Kernel → Prop) `{!Coarser R}.

Lemma yield_safe : msafe R yield.
Proof. unfold yield. call_tac. Qed.
Hint Resolve yield_safe : safety.
Lemma wait_for_child_safe {A} (back : MM (reply A)) : msafe R back → msafe R (wait_for_child back).
Proof. intros H. unfold wait_for_child. call_tac. Qed.
Hint Resolve wait_for_child_safe : safety.
Lemma wait_safe out : msafe R (wait out).
Proof. unfold wait. call_tac. Qed.
Hint Resolve wait_safe : safety.
Lemma sys_wait_safe out : msafe R (sys_wait out).
Proof. unfold sys_wait. call_tac. Qed.
Lemma sys_waitpid_safe pid out options : msafe R (sys_waitpid pid out options).
Proof. unfold sys_waitpid. call_tac. Qed.
Lemma console_loop_safe dst max : ∀ polls n, msafe R (console_loop polls dst n max).
Proof. induction polls as [|poll polls IH]; intros n; cbn [console_loop]; call_tac. Qed.
Hint Resolve console_loop_safe : safety.
Lemma sys_read_safe fd buf n : msafe R (sys_read fd buf n).
Proof. unfold sys_read. call_tac. Qed.
Lemma sys_chan_send_safe id buf n : msafe R (sys_chan_send id buf n).
Proof. unfold sys_chan_send. call_tac. Qed.
Lemma sys_chan_recv_safe id buf n : msafe R (sys_chan_recv id buf n).
Proof. unfold sys_chan_recv. call_tac. Qed.
End Blocking.
#[export] Hint Resolve yield_safe sys_wait_safe sys_waitpid_safe sys_read_safe sys_chan_send_safe sys_chan_recv_safe : safety.
