(* ===== verification/DispatchProps.v ===== *)
(** * The dispatcher and the trap handler: process records and privilege *)

From S2P Require Import Prelude Formats Vnode Process Sched Ipc Pmm Vmm Heap Onyxfs Fat32 Net Machine Procfs Vfs Lifecycle Onx Syscall Trap ProcProps HandlerProps CallProps.
From stdpp Require Import base list numbers gmap.
From Stdlib Require Import ZArith Lia.

Open Scope Z_scope.

(** ** Privilege *)

(** No process loses its pid or gains privilege. *)
Definition no_raise (k k' : Kernel) : Prop :=
  ∀ p x, g_procs k !! p = Some x → ∃ y, g_procs k' !! p = Some y ∧ p_pid y = p_pid x ∧ p_ring x ≤ p_ring y.

#[global] Instance no_raise_pre : PreOrder no_raise.
Proof.
  split; [intros k p x H; by exists x|]. intros k1 k2 k3 H1 H2 p x Hx.
  destruct (H1 p x Hx) as (y & Hy & E1 & E2). destruct (H2 p y Hy) as (z & Hz & E3 & E4).
  exists z. split_and!; [done|congruence|lia].
Qed.

Lemma steady_no_raise k k' : steady k k' → no_raise k k'.
Proof. intros H p x Hx. destruct (H p x Hx) as (y & Hy & E1 & E2). exists y. split_and!; [done|done|lia]. Qed.

#[global] Instance no_raise_coarse : Coarse no_raise.
Proof. split; [apply _|]. intros k k' [H _]. by apply steady_no_raise. Qed.
#[global] Instance no_raise_coarser : Coarser no_raise.
Proof. split; [apply _|]. apply steady_no_raise. Qed.

(** The current process runs in ring [c]. *)
Definition cur_at (s : Machine) (p : Z) (x : Proc) : Prop :=
  p ≠ 0 ∧ idx (g_hart_current (kernel s)) (m_hart s) = Ok p ∧ g_procs (kernel s) !! p = Some x.
Definition on_ring (c : Z) (s : Machine) : Prop := machine_ok s ∧ ∃ p x, cur_at s p x ∧ p_ring x = c.

Lemma quiet_on_ring c s s' : machine_ok s' → machine_rel quiet s s' → on_ring c s → on_ring c s'.
Proof.
  intros Hok [[Hs Hc] Hh] [_ (p & x & (Hp & E1 & E2) & Hx)]. split; [done|].
  destruct (Hs p x E2) as (y & Hy & _ & Hr). exists p, y. unfold cur_at. rewrite Hc, Hh. split_and!; [done..|congruence].
Qed.

Lemma quiet_ring_safe {A} c (m : MM A) Q :
  safe machine_ok (machine_rel quiet) m Q → safe (on_ring c) (machine_rel no_raise) m Q.
Proof.
  intros H s Hs. destruct (H s (proj1 Hs)) as (H1 & H2 & H3). split_and!; [by eapply quiet_on_ring| |done].
  destruct H2 as [[Hst _] Hh]. split; [by apply steady_no_raise|done].
Qed.

Lemma cur_ring_value c : safe (on_ring c) (machine_rel no_raise) cur_ring (λ r, r = c).
Proof.
  intros s Hs. destruct (quiet_ring_safe c cur_ring anything (cur_ring_safe quiet) s Hs) as (H1 & H2 & _).
  split_and!; [done..|]. destruct Hs as [_ (p & x & (Hp & E1 & E2) & Hx)].
  intros r. unfold cur_ring, hart_id, current_ring, mbind, SM_bind, gets, on_k, on_ipc, onk, at_, kernel in *. simpl.
  rewrite E1. simpl. rewrite (proj2 (Z.eqb_neq p 0) Hp). unfold deref. rewrite E2. simpl. intros E. injection E as <-. done.
Qed.

(** Changing the current process when its ring does not go down. *)
Lemma upd_current_ring c c' f :
  (∀ x, proc_ok x → p_ring x = c → proc_ok (f x) ∧ p_pid (f x) = p_pid x ∧ p_ring (f x) = c') → c ≤ c' →
  ∀ s, on_ring c s → on_ring c' (upd_current f s).2 ∧ machine_rel no_raise s (upd_current f s).2.
Proof.
  intros Hf Hc s [[Hok Hfd] (p & x & (Hp & E1 & E2) & Hx)].
  destruct (Hf x (Hok p x E2) Hx) as (H1 & H2 & H3).
  unfold upd_current, cur_ptr, hart_id, current_ptr, mbind, SM_bind, gets, on_k, on_ipc, onk, at_, update, kernel in *. simpl.
  rewrite E1. simpl. rewrite E2. simpl. split; [split; [split; [|done]|]|split; [|done]].
  - by apply map_Forall_insert_2.
  - exists p, (f x). unfold cur_at. simpl. by rewrite lookup_insert_eq.
  - intros q y Hy. simpl. unfold kernel in *. simpl. destruct (decide (p = q)) as [<-|Hne].
    + rewrite E2 in Hy. injection Hy as <-. exists (f x). rewrite lookup_insert_eq. split_and!; [done..|lia].
    + exists y. by rewrite lookup_insert_ne.
Qed.

(** ** Calls as a whole *)

Definition call_ok (I : Machine → Prop) (R : Kernel → Kernel → Prop) {A} (m : MM A) : Prop :=
  ∀ s, I s → machine_ok (m s).2 ∧ machine_rel R s (m s).2.

Section CallOk.
Context (I : Machine → Prop) (R : Kernel → Kernel → Prop) `{!Coarser R} (HI : ∀ s, I s → machine_ok s).

Lemma call_steady {A} (m : MM A) : msafe R m → call_ok I R m.
Proof. intros H s Hs. by destruct (H s (HI s Hs)) as (H1 & H2 & _). Qed.

Lemma call_bind {A B} (m : MM A) (f : A → MM B) Q :
  safe I (machine_rel R) m Q → (∀ a, Q a → call_ok I R (f a)) → call_ok I R (m ≫= f).
Proof.
  intros Hm Hf s Hs. destruct (Hm s Hs) as (H1 & H2 & H3). unfold mbind, SM_bind.
  destruct (m s) as [[a|e|] s']; simpl in *; [|by split; [apply HI|]..].
  destruct (Hf a (H3 a eq_refl) s' H1) as [H4 H5]. split; [done|]. by etransitivity.
Qed.

Lemma call_then {A B} (m : MM A) (f : A → MM B) :
  call_ok I R m → (∀ a, msafe R (f a)) → call_ok I R (m ≫= f).
Proof.
  intros Hm Hf s Hs. destruct (Hm s Hs) as (H1 & H2). unfold mbind, SM_bind.
  destruct (m s) as [[a|e|] s']; simpl in *; [|done..].
  destruct (Hf a s' H1) as (H4 & H5 & _). split; [done|]. by etransitivity.
Qed.

Lemma call_to_ret (m : MM Z) : call_ok I R m → call_ok I R (to_ret m).
Proof. intros H s Hs. specialize (H s Hs). unfold to_ret, catch. by destruct (m s) as [[a|e|] s']. Qed.

Lemma call_ret (m : MM Z) : call_ok I R m → call_ok I R (ret m).
Proof. intros H. unfold ret. apply call_then; [done|]. intros a. safe_tac. Qed.

Lemma call_value {A} (a : A) : call_ok I R (mret a).
Proof. apply call_steady. safe_tac. Qed.
Lemma call_fail {A} e : call_ok I R (fail e : MM A).
Proof. apply call_steady. safe_tac. Qed.
End CallOk.

(** ** Changing the image of a process *)

Definition image_proc (r : OnxLoadResult) (ustack : Z) (x : Proc) : Proc :=
  set_p_root_pa (lr_root_pa r) (set_p_entry (lr_entry r) (set_p_ustack ustack
    (set_p_heap_brk (lr_heap_brk r)
      (set_p_ring (if lr_ring r =? 1 then PROC_RING_ROOT else PROC_RING_USER) x)))).

Lemma image_proc_ok r ustack x : load_ok r → proc_ok x → proc_ok (image_proc r ustack x).
Proof.
  intros [Hb Hr] []. destruct x; simpl in *. constructor; simpl; auto.
  - destruct (lr_ring r =? 1); unfold PROC_RING_ROOT, PROC_RING_USER; lia.
  - rewrite Hb. unfold USER_HEAP_SIZE. lia.
Qed.

Lemma upd_current_any f : (∀ x, proc_ok x → proc_ok (f x)) → msafe whatever (upd_current f).
Proof.
  intros Hf s [Hok Hfd].
  unfold upd_current, cur_ptr, hart_id, current_ptr, mbind, SM_bind, gets, on_k, on_ipc, onk, at_, update, kernel, anything in *. simpl.
  destruct (idx _ _) as [p|e|]; simpl; [|split_and!; done..].
  destruct (g_procs (ipc_k (m_ipc s)) !! p) as [x|] eqn:E; simpl; [|split_and!; done].
  split_and!; [|done..]. split; [|done]. apply map_Forall_insert_2; [|done]. apply Hf. by apply (Hok p).
Qed.

Lemma replace_image_any r ustack : load_ok r → msafe whatever (replace_image r ustack).
Proof.
  intros Hr. unfold replace_image. safe_step. apply (safe_bind _ _ _ _ anything); [safe_tac|intros ? _].
  apply upd_current_any. intros x. by apply image_proc_ok.
Qed.

Lemma replace_image_ring c r ustack : load_ok r → c ≤ 2 → ¬ (c = PROC_RING_USER ∧ lr_ring r = 1) →
  call_ok (on_ring c) no_raise (replace_image r ustack).
Proof.
  intros Hr Hc Hg. unfold replace_image. apply (call_bind _ _ (λ s H, proj1 H) _ _ anything).
  { eapply safe_any, quiet_ring_safe, current_safe; apply _. }
  intros p _. apply (call_bind _ _ (λ s H, proj1 H) _ _ anything).
  { apply quiet_ring_safe. safe_tac. }
  intros _ _ s Hs. set (c' := if lr_ring r =? 1 then PROC_RING_ROOT else PROC_RING_USER).
  assert (0 ≤ c) as Hc0 by (destruct Hs as [[Hok _] (q & x & (_ & _ & E) & <-)]; by apply (Hok q x E)).
  destruct (upd_current_ring c c' (image_proc r ustack)) with (s := s) as [[H1 _] H2]; [|..|done|done].
  - intros x Hx Ex. split; [by apply image_proc_ok|]. by destruct x.
  - unfold c', PROC_RING_ROOT, PROC_RING_USER in *. destruct (Z.eqb_spec (lr_ring r) 1); lia.
Qed.

Lemma load_file_safe R `{!Coarse R} path : safe machine_ok (machine_rel R) (load_file path) load_ok.
Proof.
  unfold load_file. safe_step. safe_step; [safe_tac|]. safe_step. safe_step; [safe_tac|]. safe_step.
  eapply catch_safe; [apply _|by apply load_safe|..].
  - intros r Hload. safe_step. by apply safe_ret; [apply _|].
  - intros e. safe_tac.
Qed.

(** The common part of [exec] and [execve]. *)
Section Exec.
Context (I : Machine → Prop) (R : Kernel → Kernel → Prop) `{!Coarser R} (HI : ∀ s, I s → machine_ok s).
Context (Hq : ∀ {A} (m : MM A) Q, safe machine_ok (machine_rel quiet) m Q → safe I (machine_rel R) m Q).
Context (Pr : Z → Prop) (Hring : safe I (machine_rel R) cur_ring Pr).
Context (Himg : ∀ c r sp, Pr c → load_ok r → ¬ (c = PROC_RING_USER ∧ lr_ring r = 1) → call_ok I R (replace_image r sp)).

Lemma guard_split c r : (c =? PROC_RING_USER) && (lr_ring r =? 1) = false → ¬ (c = PROC_RING_USER ∧ lr_ring r = 1).
Proof. intros E [E1 E2]. by rewrite E1, E2 in E. Qed.

Lemma with_path_call p f : (∀ path, call_ok I R (f path)) → call_ok I R (with_path p f).
Proof.
  intros Hf. unfold with_path. apply (call_bind _ _ HI _ _ anything); [apply Hq, parse_user_path_safe; apply _|].
  intros [path|] _; [apply Hf|by apply call_value].
Qed.

Lemma exec_call path argv : call_ok I R (sys_exec path argv).
Proof.
  unfold sys_exec. apply with_path_call. intros bytes. apply (call_bind _ _ HI _ _ _ Hring). intros c Hc.
  apply call_to_ret. apply (call_bind _ _ HI _ _ load_ok); [apply Hq, load_file_safe; apply _|]. intros r Hr.
  destruct (_ && _) eqn:E; [by apply call_fail|]. apply guard_split in E.
  apply (call_bind _ _ HI _ _ anything); [apply Hq; unfold copy_argv_to_stack; safe_tac|]. intros [argc sp] _. cbv zeta.
  apply call_then; [apply _|by eapply Himg|]. intros _. safe_tac.
Qed.

Lemma execve_call path argv envp : call_ok I R (sys_execve path argv envp).
Proof.
  unfold sys_execve. apply with_path_call. intros bytes. apply (call_bind _ _ HI _ _ _ Hring). intros c Hc.
  apply call_to_ret. apply (call_bind _ _ HI _ _ load_ok); [apply Hq, load_file_safe; apply _|]. intros r Hr.
  destruct (_ && _) eqn:E; [by apply call_fail|]. apply guard_split in E.
  apply (call_bind _ _ HI _ _ anything); [eapply safe_any, Hq, current_safe; apply _|]. intros p _.
  apply (call_bind _ _ HI _ _ anything); [apply Hq; safe_tac|]. intros [argc sp] _.
  apply call_then; [apply _|by eapply Himg|]. intros _. safe_tac.
Qed.
End Exec.

Lemma quiet_any {A} (m : MM A) Q :
  safe machine_ok (machine_rel quiet) m Q → safe machine_ok (machine_rel whatever) m Q.
Proof. intros H s Hs. destruct (H s Hs) as (H1 & [_ H2] & H3). split_and!; [done|by split|done]. Qed.

Lemma exec_any path argv : call_ok machine_ok whatever (sys_exec path argv).
Proof.
  apply (exec_call _ _ (λ s H, H) (λ A m Q, quiet_any m Q) anything); [apply cur_ring_safe; apply _|].
  intros c r sp _ Hr _. by apply call_steady, replace_image_any.
Qed.
Lemma execve_any path argv envp : call_ok machine_ok whatever (sys_execve path argv envp).
Proof.
  apply (execve_call _ _ (λ s H, H) (λ A m Q, quiet_any m Q) anything); [apply cur_ring_safe; apply _|].
  intros c r sp _ Hr _. by apply call_steady, replace_image_any.
Qed.
Lemma exec_ring c path argv : c ≤ 2 → call_ok (on_ring c) no_raise (sys_exec path argv).
Proof.
  intros Hc. apply (exec_call _ _ (λ s H, proj1 H) (λ A m Q, quiet_ring_safe c m Q) _ (cur_ring_value c)).
  intros c' r sp -> Hr Hg. by apply replace_image_ring.
Qed.
Lemma execve_ring c path argv envp : c ≤ 2 → call_ok (on_ring c) no_raise (sys_execve path argv envp).
Proof.
  intros Hc. apply (execve_call _ _ (λ s H, proj1 H) (λ A m Q, quiet_ring_safe c m Q) _ (cur_ring_value c)).
  intros c' r sp -> Hr Hg. by apply replace_image_ring.
Qed.

(** ** [dropring] *)

Lemma current_value c : safe (on_ring c) (machine_rel no_raise) current (λ x, p_ring x = c).
Proof.
  intros s Hs. destruct (quiet_ring_safe c current proc_ok (current_safe quiet) s Hs) as (H1 & H2 & _).
  split_and!; [done..|]. destruct Hs as [_ (p & x & (Hp & E1 & E2) & Hx)].
  intros r. unfold current, cur_ptr, hart_id, current_ptr, mbind, SM_bind, gets, on_k, on_ipc, onk, at_, deref, kernel in *. simpl.
  rewrite E1. simpl. rewrite E2. simpl. intros E. injection E as <-. done.
Qed.

Lemma ring_proc_ok t x : 0 ≤ t < 256 → proc_ok x → proc_ok (set_p_ring t x).
Proof. intros Ht []. destruct x; simpl in *. by constructor. Qed.

Lemma dropring_any t : 0 ≤ t < 256 → call_ok machine_ok whatever (sys_dropring t).
Proof.
  intros Ht. apply call_steady; [done|]. unfold sys_dropring. safe_step. safe_step; [safe_tac|]. safe_step; [safe_tac|].
  apply (safe_bind _ _ _ _ anything); [|intros ? _; safe_tac]. apply upd_current_any. intros x. by apply ring_proc_ok.
Qed.

Lemma dropring_ring c t : 0 ≤ t < 256 → call_ok (on_ring c) no_raise (sys_dropring t).
Proof.
  intros Ht. unfold sys_dropring. pose proof (λ s (H : on_ring c s), proj1 H) as HI.
  apply (call_bind _ _ HI _ _ _ (current_value c)). intros x Hx.
  destruct (t <? p_ring x) eqn:E; [apply (call_value _ _ HI)|]. destruct (t =? p_ring x); [apply (call_value _ _ HI)|].
  apply Z.ltb_ge in E. apply call_then; [apply _| |intros _; safe_tac].
  intros s Hs. destruct (upd_current_ring c t (set_p_ring t)) with (s := s) as [[H1 _] H2]; [|lia|done|done].
  intros y Hy _. split; [by apply ring_proc_ok|done].
Qed.

(** ** New processes *)

Lemma fresh_proc_safe {A} (f : Proc → Proc) (rest : Z → MM A) :
  (∀ n, proc_ok (f (blank_proc n))) → (∀ p, msafe whatever (rest p)) →
  msafe whatever (p ← alloc_proc; on_k (update p f);; rest p).
Proof.
  intros Hf Hrest s Hs. unfold alloc_proc.
  destruct (on_heap_safe whatever (kmalloc (m_proc_size s)) s Hs) as (H1 & [_ Eh] & _).
  unfold mbind, SM_bind, gets, mret, SM_ret in *. destruct (on_heap (kmalloc (m_proc_size s)) s) as [[p|e|] s1]; simpl in *.
  2,3: by split_and!.
  unfold on_k, on_ipc, onk, update, modify, kernel in *. simpl. rewrite lookup_insert_eq. simpl.
  match goal with |- machine_ok (rest p ?s2).2 ∧ _ => assert (machine_ok s2) as H2 end.
  { destruct H1 as [H1 H1']. split; [|done]. unfold kernel, procs_ok in *. simpl.
    rewrite insert_insert_eq. apply map_Forall_insert_2; [apply Hf|done]. }
  destruct (Hrest p _ H2) as (H3 & [_ H4] & _). split_and!; [exact H3| |done]. split; [done|].
  by rewrite H4.
Qed.

Lemma create_user_safe entry ustack root pid ppid brk ring argc sp :
  0 ≤ ring < 256 → USER_HEAP_BASE ≤ brk ≤ USER_HEAP_BASE + USER_HEAP_SIZE →
  msafe whatever (create_user entry ustack root pid ppid brk ring argc sp).
Proof.
  intros Hr Hb. unfold create_user. safe_step; [safe_tac|]. apply fresh_proc_safe; [|intros p; safe_tac].
  intros n. constructor; simpl; try done; unfold u32, MAX_HARTS; lia.
Qed.

Lemma spawn_safe path argv hint ppid : msafe whatever (spawn path argv hint ppid).
Proof.
  unfold spawn. do 2 safe_step. safe_step; [safe_tac|]. do 7 safe_step. cbv zeta.
  match goal with H : load_ok _ |- _ => destruct H as [Hb _] end.
  apply (safe_bind _ _ _ _ anything); [unfold copy_argv_to_stack; safe_tac|]. intros [argc sp] _.
  apply (safe_bind _ _ _ _ anything); [|intros ? _; safe_tac]. apply create_user_safe.
  - destruct (_ && _); unfold PROC_RING_ROOT, PROC_RING_USER; lia.
  - rewrite Hb. unfold USER_HEAP_SIZE. lia.
Qed.

Lemma sys_spawn_safe path argv hint : msafe whatever (sys_spawn path argv hint).
Proof. pose proof spawn_safe. unfold sys_spawn. call_tac. Qed.

Lemma sys_fork_safe : msafe whatever sys_fork.
Proof.
  unfold sys_fork. safe_step. safe_step. safe_step. apply to_ret_safe; [apply _|].
  apply (safe_bind _ _ _ _ anything); [|intros ? _; safe_tac]. destruct Hr. by apply create_user_safe.
Qed.

(** ** The dispatcher *)

Lemma ret_safe R `{!Coarse R} (m : MM Z) : msafe R m → msafe R (ret m).
Proof. intros H. unfold ret. safe_tac. Qed.

Lemma w32_nonneg z : 0 ≤ w32 z.
Proof. apply u32_w32. Qed.
Lemma w8_range z : 0 ≤ w8 z < 256.
Proof. unfold w8. apply Z.mod_pos_bound. lia. Qed.

#[export] Hint Resolve w32_nonneg w8_range ret_safe : safety.

Section Dispatch.
Context (I : Machine → Prop) (R : Kernel → Kernel → Prop) `{!Coarser R} (HI : ∀ s, I s → machine_ok s) (nr : Z).
Context (Hexec : ∀ path argv, call_ok I R (sys_exec path argv))
  (Hexecve : ∀ path argv envp, call_ok I R (sys_execve path argv envp))
  (Hdrop : ∀ t, 0 ≤ t < 256 → call_ok I R (sys_dropring t))
  (Hspawn : nr = SYS_spawn → ∀ path argv hint, call_ok I R (sys_spawn path argv hint))
  (Hfork : nr = SYS_fork → call_ok I R sys_fork).

Lemma dispatch_ok a0 a1 a2 a3 : call_ok I R (dispatch_call nr a0 a1 a2 a3).
Proof.
  unfold dispatch_call, sys_getpid, sys_isatty, sys_setpgid, sys_setsid, sys_fsync, sys_symlink, sys_fchmod, sys_getdents.
  repeat (lazymatch goal with |- call_ok _ _ (if ?n =? ?k then _ else _) => destruct (Z.eqb_spec n k) as [E|_] end;
          [first [apply call_ret; [apply _|]; solve [auto using w8_range]
                 |apply call_steady; [exact HI|]; solve [eauto 5 with safety typeclass_instances|apply ret_safe; [apply _|]; call_tac]]|]).
  by apply call_value.
Qed.
End Dispatch.

(** ** Traps *)

Lemma handle_any : msafe whatever handle.
Proof.
  assert (∀ nr a0 a1 a2 a3, msafe whatever (dispatch_call nr a0 a1 a2 a3)) as Hd.
  { intros nr a0 a1 a2 a3 s Hs.
    destruct (dispatch_ok machine_ok whatever (λ s H, H) nr exec_any execve_any dropring_any
      (λ _ p a h, call_steady _ _ (λ s H, H) _ (sys_spawn_safe p a h))
      (λ _, call_steady _ _ (λ s H, H) _ sys_fork_safe) a0 a1 a2 a3 s Hs) as [H1 H2]. done. }
  unfold handle. safe_tac.
Qed.

Lemma handle_ring c : c ≤ 2 → ∀ s, tf_a7 (m_tf s) ∉ [SYS_spawn; SYS_fork] → on_ring c s →
  machine_ok (handle s).2 ∧ machine_rel no_raise s (handle s).2.
Proof.
  intros Hc s Hnr Hs. unfold handle. unfold mbind at 1, SM_bind at 1, gets at 1. simpl.
  assert (call_ok (on_ring c) no_raise (ring ← cur_ring;
    if negb (syscall_allowed (tf_a7 (m_tf s)) ring) then mret (Reply (as_i64 Perm)) else
    dispatch_call (tf_a7 (m_tf s)) (tf_a0 (m_tf s)) (tf_a1 (m_tf s)) (tf_a2 (m_tf s)) (tf_a3 (m_tf s)))) as H; [|exact (H s Hs)].
  pose proof (λ s (H : on_ring c s), proj1 H) as HI.
  apply (call_bind _ _ HI _ _ _ (cur_ring_value c)). intros r _. destruct (negb _); [apply (call_value _ _ HI)|].
  apply dispatch_ok; [apply _|exact HI|..].
  - intros. by apply exec_ring.
  - intros. by apply execve_ring.
  - intros. by apply dropring_ring.
  - intros E. rewrite E in Hnr. set_solver.
  - intros E. rewrite E in Hnr. set_solver.
Qed.

Section Traps.
Context (R : Kernel → Kernel → Prop) `{!Coarser R}.

Lemma timer_safe : msafe R timer_handle.
Proof. unfold timer_handle. safe_tac. Qed.
Hint Resolve timer_safe : safety.
Lemma interrupt_safe code : msafe R (interrupt code).
Proof. unfold interrupt. safe_tac. Qed.
Lemma current_exited_safe : msafe R current_exited.
Proof. unfold current_exited. safe_tac. Qed.
Hint Resolve current_exited_safe : safety.
Lemma trap_exit_safe : msafe R trap_exit.
Proof. unfold trap_exit. safe_tac. Qed.

Lemma ecall_end_safe r : msafe R (match r with
    | Reply ret =>
        modify (λ s, set_m_tf (set_tf_sepc (w64 (tf_sepc (m_tf s) + 4)) (set_tf_a0 (w64 ret) (m_tf s))) s);;
        mret None
    | Away o => mret (Some o) end).
Proof. safe_tac. Qed.

Lemma fault_safe code sstatus : code ≠ CAUSE_U_ECALL → msafe R (exception code sstatus).
Proof. intros E. unfold exception. rewrite (proj2 (Z.eqb_neq _ _) E). safe_tac. Qed.
End Traps.
#[export] Hint Resolve interrupt_safe trap_exit_safe : safety.

Lemma exception_end I R `{!Coarser R} code sstatus :
  (∀ s, I s → machine_ok s) → (code = CAUSE_U_ECALL → call_ok I R handle) →
  call_ok I R (o ← exception code sstatus; match o with Some o => mret o | None => trap_exit end).
Proof.
  intros HI Hh. apply call_then; [apply _| |intros [o|]; safe_tac].
  destruct (decide (code = CAUSE_U_ECALL)) as [->|E].
  - unfold exception. rewrite Z.eqb_refl. apply call_then; [apply _|by apply Hh|]. intros r. apply ecall_end_safe; apply _.
  - apply call_steady; [done|]. by apply fault_safe.
Qed.

Lemma trap_call I R `{!Coarser R} scause sstatus :
  (∀ s, I s → machine_ok s) →
  (has scause SCAUSE_INT = false → Z.land scause (SCAUSE_INT - 1) = CAUSE_U_ECALL → call_ok I R handle) →
  call_ok I R (trap scause sstatus).
Proof.
  intros HI Hh. unfold trap. cbv zeta. destruct (has scause SCAUSE_INT).
  - apply call_steady; [done|]. safe_tac.
  - apply exception_end; auto.
Qed.
