(* ===== verification/ExitProps.v ===== *)
(** * The end of a process

    The list of all processes, and what [exit] does to a well-formed kernel: it
    closes the descriptors, gives the address space back, marks the process
    [Exited], wakes a waiting parent and hands the children to init; it never
    fails and leaves the scheduler's state well formed. *)

From S2P Require Import Prelude Formats Vnode Process Sched SchedProps YieldProps Ipc Pmm PmmProps Vmm VmmProps ReclaimProps Heap Onyxfs Fat32 Net Machine Procfs Vfs VfsProps Lifecycle.
From stdpp Require Import base list numbers gmap.
From Stdlib Require Import ZArith Lia.

Open Scope Z_scope.

(** ** The list of all processes *)

Fixpoint all_linked (ps : gmap Z Proc) (l : list Z) : Prop :=
  match l with
  | [] => True
  | p :: l => p ≠ 0 ∧ (∃ x, ps !! p = Some x ∧ p_all_next x = hd0 l) ∧ all_linked ps l
  end.

Record proc_list (k : Kernel) (l : list Z) : Prop := {
  pl_head : g_all_procs k = hd0 l;
  pl_nodup : NoDup l;
  pl_linked : all_linked (g_procs k) l }.

Lemma all_linked_lookup ps l p : all_linked ps l → p ∈ l → p ≠ 0 ∧ is_Some (ps !! p).
Proof.
  induction l as [|q l IH]; intros H Hp; [by apply not_elem_of_nil in Hp|]. destruct H as (Hq & (x & Hx & _) & Hl).
  apply elem_of_cons in Hp as [->|Hp]; [eauto|auto].
Qed.

Lemma all_linked_agree ps ps' l :
  (∀ p x, ps !! p = Some x → ∃ y, ps' !! p = Some y ∧ p_all_next y = p_all_next x) → all_linked ps l → all_linked ps' l.
Proof.
  intros H. induction l as [|p l IH]; [done|]. intros (Hp & (x & Hx & Hn) & Hl).
  destruct (H p x Hx) as (y & Hy & Hny). split_and!; [done| |auto]. exists y. split; [done|congruence].
Qed.

Lemma proc_list_fits k l : proc_list k l → (length l < walk_fuel k)%nat.
Proof. intros [_ Hn Hl]. apply nodup_fits; [done|]. intros p Hp. by apply (all_linked_lookup _ l). Qed.

Lemma find_all_spec test k l : ∀ fuel, all_linked (g_procs k) l → (length l < fuel)%nat →
  ∃ r, find_all fuel test (hd0 l) k = (Ok r, k) ∧
    ((r = 0 ∧ ∀ p x, p ∈ l → g_procs k !! p = Some x → test x = false) ∨
     (r ∈ l ∧ ∃ x, g_procs k !! r = Some x ∧ test x = true)).
Proof.
  induction l as [|p l IH]; intros [|fuel] Hl Hf; cbn [length] in Hf; try lia; cbn [find_all hd0].
  { exists 0. split; [done|]. left. split; [done|]. intros p x Hp. by apply not_elem_of_nil in Hp. }
  destruct Hl as (Hp & (x & Hx & Hn) & Hl). rewrite (proj2 (Z.eqb_neq p 0) Hp).
  rewrite (sm_bind_ok _ _ _ _ _ (deref_ok p x k Hx)). destruct (test x) eqn:E.
  - exists p. split; [done|]. right. split; [left|eauto].
  - rewrite Hn. destruct (IH fuel Hl ltac:(lia)) as (r & Hr & Hcase). exists r. split; [done|].
    destruct Hcase as [[-> Hno]|[Hin Hyes]]; [left|right; split; [by right|done]]. split; [done|].
    intros q y Hq Hy. apply elem_of_cons in Hq as [->|Hq]; [congruence|by eapply Hno].
Qed.

Lemma find_proc_spec test k l : proc_list k l →
  ∃ r, find_proc test k = (Ok r, k) ∧
    ((r = 0 ∧ ∀ p x, p ∈ l → g_procs k !! p = Some x → test x = false) ∨
     (r ∈ l ∧ r ≠ 0 ∧ ∃ x, g_procs k !! r = Some x ∧ test x = true)).
Proof.
  intros H. unfold find_proc. rewrite (pl_head _ _ H).
  destruct (find_all_spec test k l (walk_fuel k) (pl_linked _ _ H) (proc_list_fits _ _ H)) as (r & E & [Hc|[Hin Hx]]).
  - exists r. auto.
  - exists r. split; [done|]. right. split_and!; [done| |done]. by eapply all_linked_lookup; [apply H|].
Qed.

(** Pids are unique among the processes in use. *)
Definition pids_unique (k : Kernel) : Prop := ∀ p q x y,
  g_procs k !! p = Some x → g_procs k !! q = Some y → p_state x ≠ Free → p_state y ≠ Free → p_pid x = p_pid y → p = q.

Lemma by_pid_self k l p x : proc_list k l → pids_unique k → p ∈ l → g_procs k !! p = Some x → p_state x ≠ Free →
  by_pid (p_pid x) k = (Ok p, k).
Proof.
  intros Hl Hu Hp Hx Hs. unfold by_pid.
  destruct (find_proc_spec (λ y, (p_pid y =? p_pid x) && negb (bool_decide (p_state y = Free))) k l Hl)
    as (r & E & [[-> Hno]|(Hin & Hr & y & Hy & Ht)]).
  - specialize (Hno p x Hp Hx). rewrite Z.eqb_refl, bool_decide_eq_false_2 in Hno by done. discriminate Hno.
  - rewrite E. apply andb_true_iff in Ht as [Ht1%Z.eqb_eq Ht2]. apply negb_true_iff, bool_decide_eq_false in Ht2.
    assert (p = r) as -> by (by eapply Hu). done.
Qed.

(** ** A kernel at rest *)

Record calm (k : Kernel) (Q : list (list Z)) (l : list Z) : Prop := {
  ca_sched : sched_ok k Q; ca_list : proc_list k l }.

(** The scheduler's view of the harts is the same. *)
Definition same_harts (k k' : Kernel) : Prop :=
  g_hart_current k' = g_hart_current k ∧ g_need_resched k' = g_need_resched k ∧ ∀ h, lock_of k' h = lock_of k h.

Lemma same_harts_refl k : same_harts k k.
Proof. done. Qed.
Lemma same_harts_trans k1 k2 k3 : same_harts k1 k2 → same_harts k2 k3 → same_harts k1 k3.
Proof. intros (A & B & C) (D & E & F). split_and!; [congruence..|]. intros h. by rewrite F. Qed.

(** Changes of a record that the lists do not see. *)
Definition unlisted (x y : Proc) : Prop :=
  p_on_rq y = p_on_rq x ∧ p_next y = p_next x ∧ p_affinity y = p_affinity x ∧ p_all_next y = p_all_next x.

Definition put_proc (p : Z) (y : Proc) (k : Kernel) : Kernel := set_g_procs (<[p := y]> (g_procs k)) k.

Lemma calm_put k Q l p x y :
  calm k Q l → g_procs k !! p = Some x → unlisted x y → calm (put_proc p y k) Q l ∧ same_harts k (put_proc p y k).
Proof.
  intros [Hs [H1 H2 H3]] Hx (E1 & E2 & E3 & E4). split; [|done]. split; [by eapply ok_update|].
  split; [done..|]. eapply all_linked_agree; [|exact H3]. intros q z Hz. simpl.
  destruct (decide (p = q)) as [<-|Hne].
  - rewrite lookup_insert_eq. exists y. split; [done|congruence].
  - rewrite lookup_insert_ne by done. eauto.
Qed.

Lemma calm_enqueue k Q l h p x :
  calm k Q l → 0 ≤ h < 8 → g_procs k !! p = Some x →
  wp (enqueue h p) (λ _ k', ∃ Q', calm k' Q' l ∧ same_harts k k' ∧ concat Q' ⊆ p :: concat Q ∧
    ∀ q, strip <$> g_procs k !! q = strip <$> g_procs k' !! q) k.
Proof.
  intros [Hok [H1 H2 H3]] Hh Hx. destruct (ok_queue k Q h Hok Hh) as (r & q & Hr & Hq).
  pose proof (ok_inv _ _ Hok) as Hinv.
  eapply wp_mono; [apply (enqueue_spec k Q Hinv h q (proj1 Hh) Hq r Hr p x Hx)|].
  intros _ k' (Hinv' & Hfr). destruct (frame_keep _ _ Hfr) as [Hk Hl]. eexists. split_and!.
  - split; [by eapply ok_keep|]. split; [by rewrite <- (fr_all _ _ Hfr)|done|].
    eapply all_linked_agree; [|exact H3]. intros i z Hz.
    destruct (keep_lookup _ _ _ _ Hk Hz) as (y & Hy & Hst). exists y. split; [done|].
    by apply (f_equal p_all_next) in Hst.
  - split_and!; [by rewrite <- (fr_hart _ _ Hfr)|by rewrite <- (fr_resched _ _ Hfr)|done].
  - destruct (p_on_rq x); [set_solver|].
    intros i. rewrite (concat_insert_perm Q _ (q ++ [p])) by (by eapply lookup_lt_Some).
    rewrite (concat_perm Q _ q Hq). set_solver.
  - apply (fr_procs _ _ Hfr).
Qed.

(** ** Waking the parent, handing over the children *)

(** The signal state of a process. *)
Definition signals_of (x : Proc) : Z * Z * bool := (p_pending_signals x, p_signal_mask x, p_in_signal_handler x).

(** Process [p] has exited with [code] and signal state [sg], and is not queued. *)
Definition gone (k : Kernel) (Q : list (list Z)) (p code : Z) (sg : Z * Z * bool) : Prop :=
  p ∉ concat Q ∧ ∃ x, g_procs k !! p = Some x ∧ p_state x = Exited ∧ p_exit_code x = code ∧ signals_of x = sg.

Lemma gone_put k Q p code sg q x y :
  gone k Q p code sg → g_procs k !! q = Some x → p_exit_code y = p_exit_code x → signals_of y = signals_of x →
  (p = q → p_state y = p_state x) → gone (put_proc q y k) Q p code sg.
Proof.
  intros (H1 & z & Hz & E1 & E2 & E3) Hx Ey Eg Es. split; [done|]. simpl. destruct (decide (q = p)) as [<-|Hne].
  - exists y. rewrite lookup_insert_eq. rewrite Hz in Hx. injection Hx as ->. split_and!; [done| |congruence..].
    by rewrite Es.
  - exists z. by rewrite lookup_insert_ne.
Qed.

Lemma wake_parent_spec k Q l h parent p code sg :
  calm k Q l → 0 ≤ h < 8 → gone k Q p code sg →
  wp (wake_parent h parent) (λ _ k', ∃ Q', calm k' Q' l ∧ same_harts k k' ∧ gone k' Q' p code sg) k.
Proof.
  intros Hc Hh Hg. assert (∃ Q', calm k Q' l ∧ same_harts k k ∧ gone k Q' p code sg) as Hid by (exists Q; by split_and!).
  unfold wake_parent. destruct (parent =? 0); [by apply wp_ret|]. unfold by_pid.
  destruct (find_proc_spec (λ x, (p_pid x =? parent) && negb (bool_decide (p_state x = Free))) k l (ca_list _ _ _ Hc))
    as (r & E & Hcase). apply wp_bind. eapply wp_Ok; [exact E|].
  destruct Hcase as [[-> _]|(Hin & Hr & x & Hx & _)]; [by apply wp_ret|]. rewrite (proj2 (Z.eqb_neq r 0) Hr).
  sstep. case_bool_decide as Hw; [|by apply wp_ret]. sstep.
  destruct (calm_put k Q l r x (set_p_state Ready x) Hc Hx ltac:(done)) as [Hc1 Hs1].
  assert (p ≠ r) as Hne.
  { intros <-. destruct Hg as (_ & y & Hy & E1 & _). congruence. }
  eapply wp_mono; [eapply (calm_enqueue (put_proc r (set_p_state Ready x) k) Q l h r); [done|done|apply lookup_insert_eq]|].
  intros _ k' (Q' & Hc' & Hs' & Hsub & Hst). exists Q'. split_and!; [done|by eapply same_harts_trans|].
  destruct Hg as (H1 & y & Hy & E1 & E2 & E3). split; [set_solver|].
  specialize (Hst p). simpl in Hst. rewrite lookup_insert_ne, Hy in Hst by done. simpl in Hst.
  destruct (g_procs k' !! p) as [z|] eqn:Hz; [|done]. apply (inj Some) in Hst. exists z. split; [done|].
  split; [by rewrite <- (strip_state _ _ Hst)|]. split.
  - apply (f_equal p_exit_code) in Hst. simpl in Hst. congruence.
  - apply (f_equal signals_of) in Hst. unfold signals_of in *. simpl in Hst. congruence.
Qed.

Lemma reparent_spec Q l pid p code sg l2 : ∀ fuel k,
  calm k Q l → all_linked (g_procs k) l2 → (length l2 < fuel)%nat → gone k Q p code sg →
  wp (reparent fuel pid (hd0 l2)) (λ _ k', calm k' Q l ∧ same_harts k k' ∧ gone k' Q p code sg) k.
Proof.
  induction l2 as [|q l2 IH]; intros [|fuel] k Hc Hl Hf Hg; cbn [length] in Hf; try lia; cbn [reparent hd0].
  { by apply wp_ret. }
  destruct Hl as (Hq & (x & Hx & Hn) & Hl). rewrite (proj2 (Z.eqb_neq q 0) Hq). sstep. rewrite Hn. apply wp_bind.
  destruct (_ && _ && _) eqn:E; [|apply wp_ret; apply IH; [done..|lia|done]]. sstep.
  destruct (calm_put k Q l q x (set_p_parent_pid 1 x) Hc Hx ltac:(done)) as [Hc1 Hs1].
  eapply wp_mono; [apply IH; [exact Hc1| |lia|by eapply gone_put]|].
  - eapply all_linked_agree; [|exact Hl]. intros i z Hz. simpl. destruct (decide (q = i)) as [<-|Hne].
    + rewrite lookup_insert_eq. rewrite Hx in Hz. injection Hz as <-. by eexists.
    + rewrite lookup_insert_ne by done. eauto.
  - intros _ k' (H1 & H2 & H3). split_and!; [done|by eapply same_harts_trans|done].
Qed.

(** ** [exit] *)

Definition set_kernel (k : Kernel) (s : Machine) : Machine := set_m_ipc (mkIpc k (ipc_chans (m_ipc s))) s.

Lemma wp_on_k {A} (m : KM A) (Q : A → Machine → Prop) s :
  wp m (λ a k, Q a (set_kernel k s)) (kernel s) → wp (on_k m) Q s.
Proof. unfold wp, on_k, on_ipc, onk, set_kernel, kernel. by destruct (m (ipc_k (m_ipc s))) as [[a|e|] k]. Qed.

(** [p] is current on the machine's hart. *)
Definition runs (s : Machine) (p : Z) (x : Proc) : Prop :=
  p ≠ 0 ∧ 0 ≤ m_hart s < 8 ∧ g_hart_current (kernel s) !! Z.to_nat (m_hart s) = Some p ∧
  g_procs (kernel s) !! p = Some x.

Lemma runs_active s p x : runs s p x → p_state x = Running → p_pid x ≠ 0 → active s = Ok (Some p).
Proof.
  intros (Hp & Hh & Hc & Hx) Hs Hpid. unfold active. rewrite (idx_ok _ _ _ Hc) by lia. simpl.
  rewrite (proj2 (Z.eqb_neq p 0) Hp), Hx, bool_decide_eq_true_2 by done. by rewrite (proj2 (Z.eqb_neq _ 0) Hpid).
Qed.

Definition set_proc (p : Z) (y : Proc) (s : Machine) : Machine := set_kernel (put_proc p y (kernel s)) s.

Lemma runs_set_proc s p x y : runs s p x → runs (set_proc p y s) p y.
Proof. intros (H1 & H2 & H3 & H4). do 3 (split; [done|]). unfold set_proc, kernel. simpl. apply lookup_insert_eq. Qed.

Lemma set_proc_id s p x : runs s p x → set_proc p x s = s.
Proof.
  intros (_ & _ & _ & Hx). unfold set_proc, set_kernel, put_proc, set_g_procs, kernel in *.
  destruct s as [h sz [[ps ? ? ? ? ? ? ?] ch]]. simpl in *. by rewrite insert_id.
Qed.

Lemma set_proc_twice s p y z : set_proc p z (set_proc p y s) = set_proc p z s.
Proof. unfold set_proc, set_kernel, put_proc, kernel. simpl. by rewrite insert_insert_eq. Qed.

(** A process whose descriptors are well formed. *)
Definition fds_ok (x : Proc) : Prop := length (p_fds x) = 16%nat ∧ Forall (λ f, u32 (fd_epoch f)) (p_fds x).

Definition alive (s : Machine) (p : Z) (x : Proc) : Prop :=
  runs s p x ∧ p_state x = Running ∧ p_pid x ≠ 0 ∧ fds_ok x.

Lemma close_one s p x i f :
  alive s p x → 0 ≤ i < 16 → p_fds x !! Z.to_nat i = Some f → fd_used f = true →
  vfs_close (fd_token i (fd_epoch f)) s = (Ok tt, set_proc p (set_p_fds (<[Z.to_nat i := drop_fd f]> (p_fds x)) x) s).
Proof.
  intros (Hr & Hs & Hpid & Hl & He) Hi Hf Hu. pose proof (runs_active s p x Hr Hs Hpid) as Ha.
  destruct Hr as (Hp & Hh & Hc & Hx).
  assert (tab s (Some p) = p_fds x) as Ht by (simpl; unfold fds_of; by rewrite Hx).
  assert (u32 (fd_epoch f)) as Hu32 by (eapply (Forall_lookup_1 _ _ _ _ He Hf)).
  unfold vfs_close. rewrite (sm_bind_ok _ _ s i s) by (rewrite (fd_check_eq _ _ _ _ f Ha Hi Hu32), Hu, Z.eqb_refl; [done|by rewrite Ht]).
  unfold fd_clear. rewrite (fd_upd_eq _ _ _ f _ Ha (proj1 Hi)) by (by rewrite Ht). rewrite Ht.
  simpl. unfold update. unfold kernel in *. rewrite Hx. done.
Qed.

Lemma fds_ok_drop x i f : fds_ok x → p_fds x !! i = Some f → fds_ok (set_p_fds (<[i := drop_fd f]> (p_fds x)) x).
Proof.
  intros [Hl He] Hf. split; simpl; [by rewrite length_insert|]. apply Forall_insert; [done|].
  by apply (Forall_lookup_1 _ _ _ _ He Hf).
Qed.

Lemma close_all_spec n : ∀ s p x i, alive s p x → 0 ≤ i → i + Z.of_nat n ≤ 16 →
  ∃ l, close_all n i p s = (Ok tt, set_proc p (set_p_fds l x) s) ∧ fds_ok (set_p_fds l x).
Proof.
  induction n as [|n IH]; intros s p x i Hal Hi Hn; cbn [close_all].
  { exists (p_fds x). destruct Hal as (Hr & _ & _ & Hf). replace (set_p_fds (p_fds x) x) with x by (by destruct x).
    by rewrite (set_proc_id _ _ _ Hr). }
  pose proof Hal as (Hr & Hs & Hpid & Hfd). pose proof Hr as (_ & _ & _ & Hx). pose proof Hfd as [Hl _].
  destruct (lookup_lt_is_Some_2 (p_fds x) (Z.to_nat i)) as [f Hf]; [lia|].
  rewrite (sm_bind_ok _ _ s x s) by (apply on_k_read; by apply deref_ok).
  rewrite (idx_ok _ _ f) by done. rewrite lift_bind. destruct (fd_used f) eqn:Hu.
  - set (y := set_p_fds (<[Z.to_nat i := drop_fd f]> (p_fds x)) x).
    rewrite (sm_bind_ok _ _ s tt (set_proc p y s)).
    2: { unfold ignore, catch. rewrite (close_one s p x i f) by (done || lia). done. }
    destruct (IH (set_proc p y s) p y (i + 1)) as (l & E & Hok); [|lia..|].
    { split; [by eapply runs_set_proc|]. do 2 (split; [done|]). by apply fds_ok_drop. }
    exists l. rewrite E, set_proc_twice. split; [done|]. done.
  - rewrite (sm_bind_ok _ _ s tt s) by done. destruct (IH s p x (i + 1) Hal) as (l & E & Hok); [lia..|]. eauto.
Qed.

(** What [exit] needs of the machine. *)
Record exitable (s : Machine) (p : Z) (x : Proc) (Q : list (list Z)) (l : list Z) : Prop := {
  ex_alive : alive s p x;
  ex_calm : calm (kernel s) Q l;
  ex_pids : pids_unique (kernel s);
  ex_listed : p ∈ l;
  ex_unqueued : p_on_rq x = false;
  ex_space : ∃ F fl, vm_ok 2 (m_vm s) (p_root_pa x) F fl }.

Record exit_end (s : Machine) (p code : Z) (sg : Z * Z * bool) (l : list Z) (s' : Machine) : Prop := {
  ee_calm : ∃ Q, calm (kernel s') Q l ∧ gone (kernel s') Q p code sg;
  ee_harts : same_harts (kernel s) (kernel s');
  ee_hart : m_hart s' = m_hart s;
  ee_frame : m_tf s' = m_tf s }.

Lemma wp_on_vm {A} (m : VM A) (P : A → Machine → Prop) s a v :
  m (m_vm s) = (Ok a, v) → P a (set_m_vm v s) → wp (on_vm m) P s.
Proof. unfold wp, on_vm. by intros ->. Qed.

Lemma exit_spec s p x Q l code :
  exitable s p x Q l → wp (exit (p_pid x) code) (λ _, exit_end s p code (signals_of x) l) s.
Proof.
  intros [Hal Hc Hu Hin Hon (F & fl & Hvm)]. pose proof Hal as (Hr & Hs & Hpid & Hfd).
  pose proof Hr as (Hp & Hh & Hcur & Hx). unfold exit.
  apply wp_bind. eapply wp_Ok.
  { apply on_k_read. eapply (by_pid_self (kernel s) l); [apply Hc|done..|by rewrite Hs]. }
  rewrite (proj2 (Z.eqb_neq p 0) Hp). apply wp_bind. eapply wp_Ok; [apply on_k_read; by apply deref_ok|].
  destruct (close_all_spec 16 s p x 0 Hal ltac:(lia) ltac:(lia)) as (fds & Ecl & Hfd1).
  apply wp_bind. eapply wp_Ok; [rewrite (proj1 Hfd); exact Ecl|]. set (x1 := set_p_fds fds x). set (s1 := set_proc p x1 s).
  destruct (calm_put _ Q l p x x1 Hc Hx ltac:(done)) as [Hc1 Hh1].
  destruct (destroy_root_spec (m_vm s1) (p_root_pa x) F fl Hvm) as (p' & fl' & Evm & _).
  apply wp_bind. eapply wp_on_vm; [exact Evm|]. set (s2 := set_m_vm _ s1).
  assert (g_procs (kernel s2) !! p = Some x1) as Hx2 by (apply lookup_insert_eq).
  apply wp_bind, wp_on_k. eapply wp_Ok; [by apply update_ok|]. cbv beta.
  set (x3 := set_p_state Exited (set_p_exit_code code x1)). set (s3 := set_kernel _ s2).
  destruct (calm_put _ Q l p x1 x3 Hc1 Hx2 ltac:(done)) as [Hc3 Hh3].
  assert (gone (kernel s3) Q p code (signals_of x)) as Hg3.
  { split; [|exists x3; split; [apply lookup_insert_eq|done]]. intros Hq.
    destruct (inv_member _ _ (ok_inv _ _ (ca_sched _ _ _ Hc)) p Hq) as (y & Hy & Hony & _). congruence. }
  apply wp_bind. apply wp_gets. apply wp_bind, wp_on_k.
  eapply wp_mono; [eapply (wake_parent_spec (kernel s3) Q l); [exact Hc3|exact Hh|exact Hg3]|].
  intros _ k4 (Q4 & Hc4 & Hh4 & Hg4). cbv beta. apply wp_on_k. change (kernel (set_kernel k4 s3)) with k4. apply wp_bind, wp_gets, wp_bind, wp_gets.
  rewrite (pl_head _ _ (ca_list _ _ _ Hc4)).
  eapply wp_mono; [eapply (reparent_spec Q4 l (p_pid x) p code (signals_of x) l); [done|apply Hc4|by apply proc_list_fits, Hc4|done]|].
  intros _ k5 (Hc5 & Hh5 & Hg5). split; [by exists Q4| |done|done].
  eapply same_harts_trans; [exact Hh1|]. eapply same_harts_trans; [exact Hh3|]. by eapply same_harts_trans.
Qed.

(** An exited current process is given up: the hart goes to another process,
    to its idle loop or halts, and the process is neither queued nor current. *)
Lemma yield_gone s p code sg l Q tf :
  calm (kernel s) Q l → gone (kernel s) Q p code sg → 0 ≤ m_hart s < 8 → p ≠ 0 →
  lock_of (kernel s) (m_hart s) = Some false → g_hart_current (kernel s) !! Z.to_nat (m_hart s) = Some p →
  wp (sched_yield (m_hart s) tf)
     (λ o k', o ≠ Returned ∧ ∃ Q', sched_ok k' Q' ∧ p ∉ concat Q' ∧ g_hart_current k' !! Z.to_nat (m_hart s) ≠ Some p)
     (kernel s).
Proof.
  intros [Hok _] (Hnq & x & Hx & Hs & _) Hh Hp Hl Hc.
  assert (p_on_rq x = false) as Hon by (apply not_true_iff_false; intros E; by eapply Hnq, inv_on_rq; [apply Hok|..]).
  eapply wp_mono; [eapply (sched_yield_pool (kernel s) Q (m_hart s) p); try done; eauto|].
  assert (runnable (kernel s) p Q = concat Q) as -> by (unfold runnable; by rewrite Hx, bool_decide_eq_false_2 by congruence).
  intros o k' (Q' & Hok' & _ & _ & Ho). destruct o as [|q| | |]; try done.
  - destruct Ho as (_ & _ & Hne). exfalso. apply Hne. split; eauto.
  - destruct Ho as (HQ & Hcq & _). split; [done|]. exists Q'. split; [done|].
    assert (q ∈ concat Q) as Hq by (rewrite <- HQ; left).
    split; [|rewrite Hcq; intros E; injection E as ->; done]. intros Hin. apply Hnq. rewrite <- HQ. by right.
  - destruct Ho as (HQ & Hcq). split; [done|]. exists Q'. split_and!; [done|by rewrite HQ|rewrite Hcq; congruence].
  - destruct Ho as (HQ & Hcq). split; [done|]. exists Q'. split_and!; [done|by rewrite HQ|rewrite Hcq; congruence].
Qed.
