(* ===== verification/OnyxfsProps.v ===== *)
(** * The disk as a map of blocks

    [block_at s b] is the content of block [b]; reading and writing blocks are
    lookups and updates of that map.  [fs_ok] is the invariant of a mounted
    version 2 file system; [log_and_write_spec] is the effect of the journalled
    write every operation ends with. *)

From S2P Require Import Prelude Parser Formats FormatsProps Compress Onyxfs.
From stdpp Require Import base list numbers gmap.
From Stdlib Require Import ZArith Lia.

Open Scope Z_scope.

(** ** Sectors *)

Fixpoint sectors (disk : gmap (Z * Z) (list Z)) (dev lba i : Z) (n : nat) : option (list Z) :=
  match n with
  | O => Some []
  | S n =>
      match disk !! (dev, lba + i) with
      | Some sec =>
          if len sec =? 512 then
            match sectors disk dev lba (i + 1) n with Some r => Some (sec ++ r) | None => None end
          else None
      | None => None
      end
  end.

Lemma sectors_len disk dev lba n : ∀ i bs, sectors disk dev lba i n = Some bs → len bs = 512 * Z.of_nat n.
Proof.
  induction n as [|n IH]; intros i bs H; cbn [sectors] in H; [by injection H as <-|].
  destruct (disk !! _) as [sec|]; [|done]. destruct (Z.eqb_spec (len sec) 512) as [Hs|]; [|done].
  destruct (sectors disk dev lba (i + 1) n) as [r|] eqn:E; [|done]. injection H as <-.
  rewrite len_app, (IH _ _ E). lia.
Qed.

Lemma read_multi_ok disk dev lba n : ∀ i bs buf,
  sectors disk dev lba i n = Some bs → 0 ≤ i → i * 512 + 512 * Z.of_nat n ≤ len buf →
  read_multi disk dev lba i n buf = (Ok tt, wr (i * 512) bs buf).
Proof.
  induction n as [|n IH]; intros i bs buf H Hi Hb; cbn [sectors read_multi] in *.
  { injection H as <-. by rewrite wr_nil by lia. }
  destruct (disk !! _) as [sec|]; [|done]. destruct (Z.eqb_spec (len sec) 512) as [Hs|]; [|done].
  destruct (sectors disk dev lba (i + 1) n) as [r|] eqn:E; [|done]. injection H as <-.
  pose proof (sectors_len _ _ _ _ _ _ E) as Hr. unfold VIRTIO_BLK_SECTOR.
  rewrite (IH _ r _ E) by (rewrite ?len_wr; lia).
  replace ((i + 1) * 512) with (i * 512 + len sec) by lia. rewrite wr_wr by lia. done.
Qed.

Lemma sectors_frame disk disk' dev lba n : ∀ i,
  (∀ j, i ≤ j < i + Z.of_nat n → disk' !! (dev, lba + j) = disk !! (dev, lba + j)) →
  sectors disk' dev lba i n = sectors disk dev lba i n.
Proof.
  induction n as [|n IH]; intros i H; cbn [sectors]; [done|].
  rewrite H by lia. destruct (disk !! _) as [sec|]; [|done]. destruct (len sec =? 512); [|done].
  rewrite IH; [done|]. intros j Hj. apply H. lia.
Qed.

Lemma rd_split {A} a n m (l : list A) : 0 ≤ a → 0 ≤ n → 0 ≤ m → rd a (n + m) l = rd a n l ++ rd (a + n) m l.
Proof.
  intros. unfold rd. rewrite Z2Nat.inj_add by lia.
  replace (Z.to_nat (a + n)) with (Z.to_nat a + Z.to_nat n)%nat by lia.
  rewrite <- drop_drop. symmetry. apply take_take_drop.
Qed.

Lemma write_multi_ok dev lba buf n : ∀ i bs disk,
  sectors disk dev lba i n = Some bs → 0 ≤ i → i * 512 + 512 * Z.of_nat n ≤ len buf →
  ∃ disk', write_multi dev lba i n buf disk = (Ok tt, disk') ∧
    sectors disk' dev lba i n = Some (rd (i * 512) (512 * Z.of_nat n) buf) ∧
    ∀ d j, ¬ (d = dev ∧ lba + i ≤ j < lba + i + Z.of_nat n) → disk' !! (d, j) = disk !! (d, j).
Proof.
  induction n as [|n IH]; intros i bs disk H Hi Hb; cbn [sectors write_multi] in *; [by eauto|].
  destruct (disk !! _) as [sec|] eqn:Ed; [|done]. destruct (Z.eqb_spec (len sec) 512) as [Hs|]; [|done].
  destruct (sectors disk dev lba (i + 1) n) as [r|] eqn:E; [|done].
  unfold VIRTIO_BLK_SECTOR. set (d1 := <[(dev, lba + i) := _]> disk).
  assert (sectors d1 dev lba (i + 1) n = Some r) as E1.
  { rewrite <- E. apply sectors_frame. intros j Hj. apply lookup_insert_ne. intros [=]. lia. }
  destruct (IH (i + 1) r d1 E1 ltac:(lia) ltac:(lia)) as (d2 & Hw & Hs2 & Hf).
  exists d2. split; [done|]. split.
  - rewrite (Hf dev (lba + i)) by lia. unfold d1. rewrite lookup_insert_eq.
    rewrite len_rd by lia. change (512 =? 512) with true. cbn [negb]. rewrite Hs2.
    replace (512 * Z.of_nat (S n)) with (512 + 512 * Z.of_nat n) by lia.
    rewrite rd_split by lia. do 3 f_equal. lia.
  - intros d j Hj. rewrite Hf by lia. apply lookup_insert_ne. intros [=]. lia.
Qed.

(** ** Blocks *)

Definition block_at (s : Onyfs) (blk : Z) : option (list Z) :=
  sectors (fs_disk s) (fs_dev s) (blk_lba s blk) 0 8.

Lemma block_len s blk b : block_at s blk = Some b → len b = 4096.
Proof. apply sectors_len. Qed.

Lemma wr_whole {A} (b buf : list A) : len b = len buf → wr 0 b buf = b.
Proof.
  intros H. unfold wr. rewrite drop_ge by (unfold len in H; simpl; lia). simpl. by rewrite app_nil_r.
Qed.

Lemma wr_next {A} a b (bs cs l : list A) :
  b = a + len bs → 0 ≤ a → a + len bs + len cs ≤ len l → wr b cs (wr a bs l) = wr a (bs ++ cs) l.
Proof. intros ->. apply wr_wr. Qed.

Lemma read_block_ok s blk b buf :
  block_at s blk = Some b → len buf = 4096 → read_block blk buf s = (Ok tt, b).
Proof.
  intros Hb Hl. unfold read_block. rewrite (read_multi_ok _ _ _ _ _ b) by (done || lia).
  rewrite wr_whole; [done|]. by rewrite (block_len s blk b Hb).
Qed.

Lemma load_ok s blk b :
  block_at s blk = Some b → len (fs_buf s) = 4096 → load blk s = (Ok tt, set_fs_buf b s).
Proof. intros Hb Hl. unfold load. by rewrite (read_block_ok s blk b). Qed.

Lemma read_local_ok s blk b buf :
  block_at s blk = Some b → len buf = 4096 → read_local blk buf s = (Ok b, s).
Proof. intros Hb Hl. unfold read_local. by rewrite (read_block_ok s blk b). Qed.

Lemma write_block_ok s blk b b0 :
  block_at s blk = Some b0 → len b = 4096 →
  ∃ d, write_block blk b s = (Ok tt, set_fs_disk d s) ∧
    ∀ blk', block_at (set_fs_disk d s) blk' = if decide (blk' = blk) then Some b else block_at s blk'.
Proof.
  intros Hb Hl. destruct (write_multi_ok (fs_dev s) (blk_lba s blk) b 8 0 b0 (fs_disk s) Hb) as (d & Hw & Hs & Hf);
    [done|lia|].
  exists d. unfold write_block. rewrite Hw. split; [done|]. intros blk'. unfold block_at.
  cbn [set_fs_disk fs_disk fs_dev]. change (blk_lba (set_fs_disk d s) blk') with (blk_lba s blk').
  destruct (decide (blk' = blk)) as [->|Hne].
  - rewrite Hs. f_equal. change (512 * Z.of_nat 8) with 4096. rewrite <- Hl. apply rd_all.
  - apply sectors_frame. intros j Hj. apply Hf. unfold blk_lba. lia.
Qed.

(** ** The journalled write *)

Definition journal_blk (s : Onyfs) (b : Z) : Prop :=
  no_journal (fs_sb s) = false ∧
  sb_journal_start (fs_sb s) ≤ b < sb_journal_start (fs_sb s) + sb_journal_size (fs_sb s).

Record fs_ok (s : Onyfs) : Prop := {
  fo_ver : fs_version s = ONYFS_V2;
  fo_buf : len (fs_buf s) = 4096;
  fo_start : u32 (sb_journal_start (fs_sb s));
  fo_size : 0 ≤ sb_journal_size (fs_sb s);
  fo_end : sb_journal_start (fs_sb s) + sb_journal_size (fs_sb s) < 4294967296;
  fo_head : 0 ≤ fs_journal_head s;
  fo_jblk : ∀ b, journal_blk s b → is_Some (block_at s b) }.

(** Room for [n] more journal entries. *)
Definition room (s : Onyfs) (n : Z) : Prop :=
  no_journal (fs_sb s) = true ∨ fs_journal_head s + n ≤ sb_journal_size (fs_sb s).

(** Everything but the disk, the buffer and the journal head. *)
Definition same_mount (s s' : Onyfs) : Prop :=
  fs_dev s' = fs_dev s ∧ fs_lba_base s' = fs_lba_base s ∧ fs_version s' = fs_version s ∧
  fs_sb s' = fs_sb s ∧ fs_jiffies s' = fs_jiffies s.

Lemma same_mount_refl s : same_mount s s.
Proof. by split_and!. Qed.

Lemma same_mount_trans s1 s2 s3 : same_mount s1 s2 → same_mount s2 s3 → same_mount s1 s3.
Proof. intros (?&?&?&?&?) (?&?&?&?&?). split_and!; congruence. Qed.

Lemma block_at_same s s' b :
  same_mount s s' → fs_disk s' = fs_disk s → block_at s' b = block_at s b.
Proof. intros (E1&E2&_) E3. unfold block_at, blk_lba. by rewrite E1, E2, E3. Qed.

Lemma journal_blk_same s s' b : same_mount s s' → journal_blk s' b ↔ journal_blk s b.
Proof. intros (_&_&_&E&_). unfold journal_blk. by rewrite E. Qed.

Lemma log_entry_ok blk data :
  len data = 4096 →
  ∃ e, log_entry blk data = Ok e ∧ e = le_bytes 4 1 ++ le_bytes 4 blk ++ rd 0 4088 data ∧ len e = 4096.
Proof.
  intros Hl. unfold log_entry. rewrite slice_ok by (unfold JOURNAL_DATA_SIZE, ONYFS_BLOCK_SIZE; lia).
  rewrite bind_ok. unfold JOURNAL_DATA_SIZE, ONYFS_BLOCK_SIZE, JOURNAL_TYPE_BLOCK_WRITE.
  change (4096 - 8 - 0) with 4088. change (8 + (4096 - 8)) with 4096.
  assert (len (rd 0 4088 data) = 4088) as Hr by (rewrite len_rd; lia).
  assert (len (zeros 4096) = 4096) as Hz by (by apply len_zeros).
  unfold puts. eexists. split; [|split; [reflexivity|]].
  - rewrite put_ok by (rewrite ?len_le_bytes; lia). rewrite bind_ok.
    rewrite put_ok by (rewrite ?len_wr, ?len_le_bytes by (rewrite ?len_le_bytes; lia); lia). rewrite bind_ok.
    assert (len (wr 4 (le_bytes 4 blk) (wr 0 (le_bytes 4 1) (zeros 4096))) = 4096) as Hw
      by (rewrite !len_wr by (rewrite ?len_wr, ?len_le_bytes by (rewrite ?len_le_bytes; lia); lia); lia).
    rewrite put_ok by lia. rewrite bind_ok.
    rewrite (wr_next 0 4), (wr_next 0 8) by (rewrite ?len_app, ?len_le_bytes; lia).
    rewrite wr_whole; [by rewrite <- app_assoc|]. rewrite !len_app, !len_le_bytes. lia.
  - rewrite !len_app, !len_le_bytes. lia.
Qed.

(** A block written, in a state of the same mount. *)
Record wrote (s : Onyfs) (blk : Z) (b : list Z) (s' : Onyfs) : Prop := {
  wt_mount : same_mount s s';
  wt_buf : fs_buf s' = fs_buf s;
  wt_block : ∀ b', block_at s' b' = if decide (b' = blk) then Some b else block_at s b' }.

Lemma write_block_wrote s blk b :
  is_Some (block_at s blk) → len b = 4096 →
  ∃ s', write_block blk b s = (Ok tt, s') ∧ wrote s blk b s' ∧ fs_journal_head s' = fs_journal_head s.
Proof.
  intros [b0 Hb] Hl. destruct (write_block_ok s blk b b0 Hb Hl) as (d & Hw & Hd).
  exists (set_fs_disk d s). split_and!; [done| |done]. constructor; [by split_and!|done|done].
Qed.

Lemma w32_small z : 0 ≤ z < 4294967296 → w32 z = z.
Proof. apply Z.mod_small. Qed.

Lemma fs_ok_wrote s blk b s' :
  fs_ok s → wrote s blk b s' → 0 ≤ fs_journal_head s' → fs_ok s'.
Proof.
  intros [Hv Hb Hs Hz He Hh Hj] [(E1&E2&E3&E4&E5) Eb Hw] Hh'.
  constructor; rewrite ?E3, ?Eb, ?E4; try done.
  intros b' Hb'. rewrite Hw. destruct (decide (b' = blk)); [by eexists|]. apply Hj.
  unfold journal_blk in *. by rewrite <- E4.
Qed.

(** Appending to the journal. *)
Lemma journal_log_on s blk data :
  fs_ok s → no_journal (fs_sb s) = false → len data = 4096 →
  fs_journal_head s < sb_journal_size (fs_sb s) →
  ∃ s', journal_log blk data s = (Ok tt, s') ∧
    wrote s (sb_journal_start (fs_sb s) + fs_journal_head s)
      (le_bytes 4 1 ++ le_bytes 4 blk ++ rd 0 4088 data) s' ∧
    fs_journal_head s' = fs_journal_head s + 1.
Proof.
  intros Hok Hn Hl Hh. pose proof Hok as [Hv Hb Hs Hz He Hh0 Hj]. unfold u32 in Hs.
  unfold journal_log. rewrite gets_bind, Hn, gets_bind.
  rewrite (proj2 (Z.leb_gt _ _)) by lia.
  destruct (log_entry_ok blk data Hl) as (e & -> & -> & Hel). rewrite lift_bind, !w32_small by lia.
  destruct (write_block_wrote s (sb_journal_start (fs_sb s) + fs_journal_head s)
              (le_bytes 4 1 ++ le_bytes 4 blk ++ rd 0 4088 data)) as (s1 & Hw & Hwr & Hh1).
  { apply Hj. split; [done|lia]. } { done. }
  rewrite (sm_bind_ok _ _ _ _ _ Hw). eexists. split; [reflexivity|].
  split; [|done].
  destruct Hwr as [(?&?&?&?&?) ? Hbl]. constructor; [by split_and!|done|exact Hbl].
Qed.

(** What the other blocks see of a journalled operation: one journal entry at
    most, and the blocks outside the journal by [upd]. *)
Record stepped (s : Onyfs) (upd : Z → option (list Z) → option (list Z)) (k : Z) (s' : Onyfs) : Prop := {
  sp_ok : fs_ok s';
  sp_mount : same_mount s s';
  sp_room : ∀ n, room s (k + n) → room s' n;
  sp_block : ∀ b, ¬ journal_blk s b → block_at s' b = upd b (block_at s b) }.

Definition keep_all (_ : Z) (o : option (list Z)) : option (list Z) := o.
Definition set_blk (blk : Z) (v : list Z) (b : Z) (o : option (list Z)) : option (list Z) :=
  if decide (b = blk) then Some v else o.

Lemma journal_log_spec s blk data :
  fs_ok s → len data = 4096 → room s 1 →
  ∃ s', journal_log blk data s = (Ok tt, s') ∧ stepped s keep_all 1 s' ∧ fs_buf s' = fs_buf s.
Proof.
  intros Hok Hl Hr. destruct (no_journal (fs_sb s)) eqn:Hn.
  - exists s. unfold journal_log. rewrite gets_bind, Hn. split_and!; [done| |done].
    constructor; [done|apply same_mount_refl| |done]. intros n [H|H]; by left.
  - destruct Hr as [Hr|Hr]; [congruence|].
    destruct (journal_log_on s blk data Hok Hn Hl ltac:(lia)) as (s' & Hj & Hw & Hh).
    exists s'. split_and!; [done| |apply Hw]. pose proof (fo_head _ Hok).
    constructor; [eapply fs_ok_wrote; [done|done|lia]|apply Hw| |].
    + destruct (wt_mount _ _ _ _ Hw) as (_&_&_&E&_). unfold room. rewrite E, Hh.
      intros n [H'|H']; [by left|right; lia].
    + intros b Hb. rewrite (wt_block _ _ _ _ Hw). destruct (decide _) as [->|]; [|done].
      exfalso. apply Hb. split; [done|lia].
Qed.

Lemma stepped_trans s u1 k1 s1 u2 k2 s2 :
  stepped s u1 k1 s1 → stepped s1 u2 k2 s2 →
  stepped s (λ b o, u2 b (u1 b o)) (k1 + k2) s2.
Proof.
  intros [O1 M1 R1 B1] [O2 M2 R2 B2].
  constructor; [done|by eapply same_mount_trans| |].
  - intros n Hn. apply R2, R1. by rewrite Z.add_assoc.
  - intros b Hb. rewrite B2, B1; [done|done|]. by rewrite (journal_blk_same s s1 b M1).
Qed.

Lemma log_and_write_spec s blk :
  fs_ok s → is_Some (block_at s blk) → ¬ journal_blk s blk → room s 1 →
  ∃ s', log_and_write blk s = (Ok tt, s') ∧ stepped s (set_blk blk (fs_buf s)) 1 s' ∧
    fs_buf s' = fs_buf s.
Proof.
  intros Hok Hb Hnj Hr. unfold log_and_write. rewrite gets_bind.
  destruct (journal_log_spec s blk (fs_buf s) Hok (fo_buf _ Hok) Hr) as (s1 & Hj & Hst & Hb1).
  rewrite (sm_bind_ok _ _ _ _ _ Hj). pose proof (sp_ok _ _ _ _ Hst) as Hok1.
  destruct (write_block_wrote s1 blk (fs_buf s)) as (s2 & Hw & Hwr & Hh).
  { rewrite (sp_block _ _ _ _ Hst blk Hnj). done. } { apply (fo_buf _ Hok). }
  exists s2. split_and!; [done| |by rewrite (wt_buf _ _ _ _ Hwr)].
  destruct Hst as [_ M R B]. constructor.
  - eapply fs_ok_wrote; [done|done|]. rewrite Hh. apply (fo_head _ Hok1).
  - eapply same_mount_trans; [done|apply Hwr].
  - intros n Hn. specialize (R n Hn). unfold room in *. rewrite Hh.
    by destruct (wt_mount _ _ _ _ Hwr) as (_&_&_&-> &_).
  - intros b Hnb. rewrite (wt_block _ _ _ _ Hwr), (B b Hnb). done.
Qed.

(** ** Inodes *)

Lemma fs_ok_buf s b : fs_ok s → len b = 4096 → fs_ok (set_fs_buf b s).
Proof. intros [Hv Hb Hs Hz He Hh Hj] Hl. by constructor. Qed.

Lemma stepped_buf s b upd k s' : stepped (set_fs_buf b s) upd k s' → stepped s upd k s'.
Proof.
  intros [O M R B]. constructor; [done|by destruct M as (?&?&?&?&?); split_and!|exact R|exact B].
Qed.

Definition inode_blk (s : Onyfs) (ino : Z) : Z := sb_inode_table_start (fs_sb s) + (ino - 1) / 32.
Definition inode_off (ino : Z) : Z := ((ino - 1) mod 32) * 128.
Definition decode_inode (bs : list Z) : result OnyfsInode := o ← inode_from_bytes bs; ok_or o Io.

(** The inode number is in range and its block readable. *)
Record inode_at (s : Onyfs) (ino : Z) (b : list Z) : Prop := {
  ia_ino : 1 ≤ ino;
  ia_start : 0 ≤ sb_inode_table_start (fs_sb s);
  ia_blk : inode_blk s ino < 4294967296;
  ia_read : block_at s (inode_blk s ino) = Some b }.

Lemma inode_off_bounds ino : 0 ≤ inode_off ino ∧ inode_off ino + 128 ≤ 4096.
Proof. unfold inode_off. pose proof (Z.mod_pos_bound (ino - 1) 32). lia. Qed.

Lemma v2_geometry s : fs_ok s →
  inodes_per_block s = 32 ∧ dirents_per_block s = 102 ∧ entry_size s = 40 ∧ (fs_version s =? ONYFS_V1) = false.
Proof.
  intros Hok. unfold inodes_per_block, dirents_per_block, entry_size. by rewrite (fo_ver _ Hok).
Qed.

Lemma read_inode_ok s ino b :
  fs_ok s → inode_at s ino b →
  read_inode ino s = (decode_inode (rd (inode_off ino) 128 b), set_fs_buf b s).
Proof.
  intros Hok [Hi Hst Hb Hr]. destruct (v2_geometry s Hok) as (Hp & _ & _ & Hv).
  pose proof (inode_off_bounds ino) as [Ho1 Ho2]. pose proof (block_len _ _ _ Hr) as Hl.
  assert (0 ≤ (ino - 1) / 32) by (apply Z.div_pos; lia).
  unfold read_inode. rewrite gets_bind, Hp, gets_bind.
  assert (sat_sub ino 1 = ino - 1) as -> by (unfold sat_sub; lia).
  fold (inode_blk s ino). rewrite w32_small by (unfold inode_blk in *; lia).
  rewrite (sm_bind_ok _ _ _ _ _ (load_ok s _ b Hr (fo_buf _ Hok))), !gets_bind.
  cbn [set_fs_buf fs_version fs_buf]. rewrite Hv. unfold INODE_SIZE, ONYFS_BLOCK_SIZE. fold (inode_off ino).
  rewrite (proj2 (Z.ltb_ge _ _)) by lia. rewrite slice_ok by lia. rewrite lift_bind.
  replace (inode_off ino + 128 - inode_off ino) with 128 by lia. unfold decode_inode.
  unfold mbind at 1, SM_bind. unfold lift at 1. by destruct (inode_from_bytes _).
Qed.

Lemma write_inode_ok s ino n b :
  fs_ok s → inode_at s ino b → ¬ journal_blk s (inode_blk s ino) → room s 1 → inode_wf n →
  ∃ bytes s', inode_to_bytes n = Ok bytes ∧ len bytes = 128 ∧ write_inode ino n s = (Ok tt, s') ∧
    stepped s (set_blk (inode_blk s ino) (wr (inode_off ino) bytes b)) 1 s'.
Proof.
  intros Hok [Hi Hst Hb Hr] Hnj Hroom Hn. destruct (v2_geometry s Hok) as (Hp & _ & _ & Hv).
  pose proof (inode_off_bounds ino) as [Ho1 Ho2]. pose proof (block_len _ _ _ Hr) as Hl.
  assert (0 ≤ (ino - 1) / 32) by (apply Z.div_pos; lia).
  destruct (inode_rt n Hn) as (bytes & Hto & Hbl & _). exists bytes.
  unfold write_inode. rewrite !gets_bind, Hv, gets_bind, Hp, gets_bind.
  assert (sat_sub ino 1 = ino - 1) as -> by (unfold sat_sub; lia).
  rewrite (w32_small ((ino - 1) / 32)) by (unfold inode_blk in *; lia).
  fold (inode_blk s ino). rewrite w32_small by (unfold inode_blk in *; lia).
  rewrite (sm_bind_ok _ _ _ _ _ (load_ok s _ b Hr (fo_buf _ Hok))), Hto, lift_bind, gets_bind.
  cbn [set_fs_buf fs_buf]. unfold INODE_SIZE in *. fold (inode_off ino).
  rewrite put_ok by lia. rewrite lift_bind, modify_bind.
  change (set_fs_buf (wr (inode_off ino) bytes b) (set_fs_buf b s)) with (set_fs_buf (wr (inode_off ino) bytes b) s).
  assert (len (wr (inode_off ino) bytes b) = 4096) as Hwl by (rewrite len_wr; lia).
  destruct (log_and_write_spec (set_fs_buf (wr (inode_off ino) bytes b) s) (inode_blk s ino)) as (s' & Hlw & Hstp & _);
    [by apply fs_ok_buf|by eexists|done|done|].
  exists s'. split_and!; [done|done|done|]. by eapply stepped_buf.
Qed.

(** Two inodes in the same block have disjoint slots. *)
Lemma inode_off_disjoint ino ino' :
  (ino - 1) / 32 = (ino' - 1) / 32 → ino ≠ ino' →
  inode_off ino' + 128 ≤ inode_off ino ∨ inode_off ino + 128 ≤ inode_off ino'.
Proof.
  intros Hd Hne. unfold inode_off. pose proof (Z.div_mod (ino - 1) 32). pose proof (Z.div_mod (ino' - 1) 32). lia.
Qed.

Lemma write_inode_reads s ino n b :
  fs_ok s → inode_at s ino b → ¬ journal_blk s (inode_blk s ino) → room s 1 → inode_wf n →
  ∃ s', write_inode ino n s = (Ok tt, s') ∧ fs_ok s' ∧
    (read_inode ino s').1 = Ok (without_ctime n) ∧
    ∀ ino' b', ino' ≠ ino → inode_at s ino' b' → ¬ journal_blk s (inode_blk s ino') →
      (read_inode ino' s').1 = (read_inode ino' s).1.
Proof.
  intros Hok Hat Hnj Hroom Hn.
  destruct (write_inode_ok s ino n b Hok Hat Hnj Hroom Hn) as (bytes & s' & Hto & Hbl & Hw & Hst).
  exists s'. pose proof (sp_ok _ _ _ _ Hst) as Hok'. pose proof (inode_off_bounds ino) as [Ho1 Ho2].
  pose proof (block_len _ _ _ (ia_read _ _ _ Hat)) as Hl.
  destruct (inode_rt n Hn) as (bytes' & Hto' & Hbl' & _ & Hfrom). rewrite Hto in Hto'. injection Hto' as <-.
  assert (∀ i, inode_blk s' i = inode_blk s i) as Hib.
  { intros i. destruct (sp_mount _ _ _ _ Hst) as (_&_&_&E&_). unfold inode_blk. by rewrite E. }
  assert (∀ i b0 b1, inode_at s i b0 → block_at s' (inode_blk s i) = Some b1 → inode_at s' i b1) as Hat'.
  { intros i b0 b1 [H1 H2 H3 _] H4. destruct (sp_mount _ _ _ _ Hst) as (_&_&_&E&_).
    constructor; rewrite ?Hib, ?E; done. }
  split_and!; [done|done| |].
  - rewrite (read_inode_ok s' ino (wr (inode_off ino) bytes b)); [|done|].
    + unfold decode_inode. cbn [fst]. rewrite rd_wr_eq by lia. by rewrite Hfrom.
    + eapply Hat'; [done|]. rewrite (sp_block _ _ _ _ Hst) by done. unfold set_blk. by rewrite decide_True.
  - intros i b' Hne Hi Hnj'. pose proof (inode_off_bounds i) as [Hi1 Hi2].
    pose proof (block_len _ _ _ (ia_read _ _ _ Hi)) as Hl'.
    rewrite (read_inode_ok s i b' Hok Hi). cbn [fst].
    destruct (decide (inode_blk s i = inode_blk s ino)) as [E|E].
    + assert (b' = b) as -> by (pose proof (ia_read _ _ _ Hi) as H1; rewrite E, (ia_read _ _ _ Hat) in H1; congruence).
      rewrite (read_inode_ok s' i (wr (inode_off ino) bytes b)); [|done|].
      * cbn [fst]. rewrite rd_wr_ne; [done|lia..|].
        assert ((ino - 1) / 32 = (i - 1) / 32) as Hd by (unfold inode_blk in E; lia).
        destruct (inode_off_disjoint ino i Hd ltac:(done)); lia.
      * eapply Hat'; [done|]. rewrite (sp_block _ _ _ _ Hst) by done. unfold set_blk. by rewrite decide_True.
    + rewrite (read_inode_ok s' i b'); [done|done|]. eapply Hat'; [done|].
      rewrite (sp_block _ _ _ _ Hst) by done. unfold set_blk. rewrite decide_False by done. apply Hi.
Qed.
