(* ===== verification/JournalProps.v ===== *)
(** * The journal is a redo log

    [redo ws f] is the content of the disk [f] after the writes [ws] are applied
    again, each to the first 4088 bytes of its block.  Recovery of a committed
    transaction computes [redo]; recovery without a commit marker changes no
    block. *)

From S2P Require Import Prelude Parser Formats FormatsProps Compress Onyxfs OnyxfsProps.
From stdpp Require Import base list numbers gmap.
From Stdlib Require Import ZArith Lia.

Open Scope Z_scope.

Definition entry_of (w : Z * list Z) : list Z := le_bytes 4 1 ++ le_bytes 4 w.1 ++ rd 0 4088 w.2.
Definition commit_entry : list Z := le_bytes 4 2 ++ zeros 4092.

Definition redo_block (data old : list Z) : list Z := wr 0 (rd 0 4088 data) old.

Fixpoint redo (ws : list (Z * list Z)) (f : Z → option (list Z)) (b : Z) : option (list Z) :=
  match ws with
  | [] => f b
  | w :: ws => redo ws (λ b, if decide (b = w.1) then redo_block w.2 <$> f b else f b) b
  end.

Lemma redo_ext ws f g b : (∀ b, f b = g b) → redo ws f b = redo ws g b.
Proof.
  revert f g. induction ws as [|w ws IH]; intros f g H; simpl; [done|]. apply IH. intros b'. by rewrite H.
Qed.

Lemma redo_other ws f b : (∀ w, w ∈ ws → w.1 ≠ b) → redo ws f b = f b.
Proof.
  revert f. induction ws as [|w ws IH]; intros f H; simpl; [done|].
  rewrite IH by (intros; apply H; by right). rewrite decide_False; [done|]. intros ->. by apply (H w); [left|].
Qed.

(** The writes of a transaction: 32-bit block numbers outside the journal. *)
Definition write_ok (s : Onyfs) (w : Z * list Z) : Prop :=
  u32 w.1 ∧ ¬ journal_blk s w.1 ∧ len w.2 = 4096 ∧ is_Some (block_at s w.1).

Lemma write_ok_same s s' w :
  same_mount s s' → is_Some (block_at s' w.1) → write_ok s w → write_ok s' w.
Proof. intros M Hb (H1 & H2 & H3 & _). unfold write_ok. by rewrite (journal_blk_same s s'). Qed.

Lemma entry_len w : len w.2 = 4096 → len (entry_of w) = 4096.
Proof. intros H. unfold entry_of. rewrite !len_app, !len_le_bytes, len_rd; lia. Qed.

Lemma entry_type w : le32_idx (entry_of w) 0 = Ok 1.
Proof. reflexivity. Qed.

Lemma entry_block w : u32 w.1 → le32_idx (entry_of w) 4 = Ok w.1.
Proof.
  intros H. transitivity (Ok (le_val (le_bytes 4 w.1))); [reflexivity|]. f_equal. by apply le_val_bytes_id.
Qed.

Lemma entry_data w : len w.2 = 4096 → slice (entry_of w) 8 (8 + JOURNAL_DATA_SIZE) = Ok (rd 0 4088 w.2).
Proof.
  intros H. pose proof (entry_len w H). rewrite slice_ok by (unfold JOURNAL_DATA_SIZE, ONYFS_BLOCK_SIZE; lia).
  f_equal. unfold JOURNAL_DATA_SIZE, ONYFS_BLOCK_SIZE. change (8 + (4096 - 8) - 8) with 4088.
  assert (len (rd 0 4088 w.2) = 4088) as Hr by (rewrite len_rd; lia).
  unfold entry_of. rewrite app_assoc. unfold rd at 1. rewrite drop_app_length' by (by rewrite length_app, !length_le_bytes).
  rewrite take_ge; [done|]. unfold len in Hr. lia.
Qed.

(** ** Replay *)

Lemma replay_one_ok s start j e w old :
  fs_ok s → w32 (start + j) = start + j → len e = 4096 → write_ok s w →
  block_at s (start + j) = Some (entry_of w) → block_at s w.1 = Some old →
  ∃ s', replay_one start j e s = (Ok (entry_of w), s') ∧ wrote s w.1 (redo_block w.2 old) s' ∧
    fs_journal_head s' = fs_journal_head s.
Proof.
  intros Hok Hw32 He (Hu & Hnj & Hl & _) Hent Hold. unfold replay_one.
  rewrite Hw32, (sm_bind_ok _ _ _ _ _ (read_local_ok s _ _ e Hent He)).
  rewrite entry_type, lift_bind. change (negb (1 =? JOURNAL_TYPE_BLOCK_WRITE)) with false.
  cbv iota. rewrite entry_block by done. rewrite lift_bind, gets_bind.
  rewrite (read_block_ok s w.1 old) by (done || by apply len_zeros). cbn [snd].
  rewrite entry_data, lift_bind by done. pose proof (block_len _ _ _ Hold) as Hol.
  assert (len (rd 0 4088 w.2) = 4088) as Hr by (rewrite len_rd; lia).
  rewrite put_ok by (unfold JOURNAL_DATA_SIZE, ONYFS_BLOCK_SIZE; lia). rewrite lift_bind.
  destruct (write_block_wrote s w.1 (redo_block w.2 old)) as (s' & Hwb & Hwr & Hh).
  { by eexists. } { unfold redo_block. rewrite len_wr; lia. }
  exists s'. rewrite (sm_bind_ok _ _ _ _ _ Hwb). done.
Qed.

(** The log entries of [ws] stand at [start + j] onwards. *)
Definition logged (s : Onyfs) (start j : Z) (ws : list (Z * list Z)) : Prop :=
  ∀ k w, ws !! k = Some w → block_at s (start + (j + Z.of_nat k)) = Some (entry_of w).

Lemma replay_loop_ok ws : ∀ s start j e,
  fs_ok s → start = sb_journal_start (fs_sb s) → no_journal (fs_sb s) = false → 0 ≤ j →
  j + len ws ≤ sb_journal_size (fs_sb s) → len e = 4096 → Forall (write_ok s) ws → logged s start j ws →
  ∃ s', replay_loop (length ws) start j e s = (Ok tt, s') ∧ fs_ok s' ∧ same_mount s s' ∧
    ∀ b, block_at s' b = redo ws (block_at s) b.
Proof.
  induction ws as [|w ws IH]; intros s start j e Hok Hs Hn Hj Hsz He Hws Hlg.
  { exists s. by split_and!; [|done| |]. }
  rewrite len_cons in Hsz. pose proof (len_nonneg ws). apply Forall_cons in Hws as [Hw Hws].
  pose proof Hw as (Hu & Hnj & Hl & old & Hold).
  assert (block_at s (start + j) = Some (entry_of w)) as Hent.
  { specialize (Hlg 0%nat w eq_refl). by rewrite Z.add_0_r in Hlg. }
  destruct (replay_one_ok s start j e w old) as (s1 & H1 & Hwr & Hh); try done.
  { apply w32_small. pose proof (fo_start _ Hok). pose proof (fo_end _ Hok). unfold u32 in *. lia. }
  cbn [replay_loop length]. rewrite (sm_bind_ok _ _ _ _ _ H1).
  pose proof (wt_mount _ _ _ _ Hwr) as M. pose proof M as (_&_&_&Esb&_).
  destruct (IH s1 start (j + 1) (entry_of w)) as (s2 & H2 & Hok2 & M2 & Hb2).
  - eapply fs_ok_wrote; [done|done|]. rewrite Hh. apply (fo_head _ Hok).
  - by rewrite Esb.
  - by rewrite Esb.
  - lia.
  - rewrite Esb. lia.
  - by apply entry_len.
  - eapply Forall_impl; [exact Hws|]. intros w' Hw'. eapply write_ok_same; [done| |done].
    rewrite (wt_block _ _ _ _ Hwr). destruct (decide _); [by eexists|apply Hw'].
  - intros k w' Hk. rewrite (wt_block _ _ _ _ Hwr). rewrite decide_False.
    + specialize (Hlg (S k) w' Hk). rewrite <- Hlg. do 2 f_equal. lia.
    + intros E. apply Hnj. rewrite <- E. split; [done|]. apply lookup_lt_Some in Hk. unfold len in Hsz. lia.
  - exists s2. split_and!; [done|done|by eapply same_mount_trans|]. intros b. rewrite Hb2. simpl.
    apply redo_ext. intros b'. rewrite (wt_block _ _ _ _ Hwr). destruct (decide (b' = w.1)) as [->|]; [|done].
    by rewrite Hold.
Qed.

(** ** Clearing *)

Lemma clear_loop_ok n : ∀ s start j,
  fs_ok s → start = sb_journal_start (fs_sb s) → no_journal (fs_sb s) = false → 0 ≤ j →
  j + Z.of_nat n ≤ sb_journal_size (fs_sb s) →
  ∃ s', clear_loop n start j s = (Ok tt, s') ∧ fs_ok s' ∧ same_mount s s' ∧
    ∀ b, block_at s' b = if decide (start + j ≤ b < start + j + Z.of_nat n) then Some (zeros 4096) else block_at s b.
Proof.
  induction n as [|n IH]; intros s start j Hok Hs Hn Hj Hsz.
  { exists s. split; [done|]. split; [done|]. split; [apply same_mount_refl|].
    intros b. rewrite decide_False; [done|]. simpl. lia. }
  cbn [clear_loop]. pose proof (fo_start _ Hok) as Hu. pose proof (fo_end _ Hok). unfold u32 in Hu.
  rewrite w32_small by lia.
  destruct (write_block_wrote s (start + j) (zeros 4096)) as (s1 & H1 & Hwr & Hh).
  { apply (fo_jblk _ Hok). split; [done|lia]. } { by apply len_zeros. }
  unfold ONYFS_BLOCK_SIZE. rewrite (sm_bind_ok _ _ _ _ _ H1).
  pose proof (wt_mount _ _ _ _ Hwr) as M. pose proof M as (_&_&_&Esb&_).
  destruct (IH s1 start (j + 1)) as (s2 & H2 & Hok2 & M2 & Hb2); rewrite ?Esb; try done; try lia.
  { eapply fs_ok_wrote; [done|done|]. rewrite Hh. apply (fo_head _ Hok). }
  exists s2. split; [done|]. split; [done|]. split; [by eapply same_mount_trans|].
  intros b. rewrite Hb2, (wt_block _ _ _ _ Hwr).
  destruct (decide (start + (j + 1) ≤ b < _)), (decide (b = start + j)),
    (decide (start + j ≤ b < _)); try done; lia.
Qed.

(** ** Scanning *)

Lemma commit_type : le32_idx commit_entry 0 = Ok 2.
Proof. reflexivity. Qed.

Lemma scan_finds ws : ∀ s start j n e,
  (length ws < n)%nat → len e = 4096 → Forall (λ w, len w.2 = 4096) ws →
  (∀ k, 0 ≤ k ≤ len ws → w32 (start + (j + k)) = start + (j + k)) →
  logged s start j ws → block_at s (start + (j + len ws)) = Some commit_entry →
  scan_loop n start j e s = (Ok (Some (j + len ws)), s).
Proof.
  induction ws as [|w ws IH]; intros s start j [|n] e Hn He Hws Hw32 Hlg Hc; cbn [length] in Hn; try lia;
    cbn [scan_loop].
  - change (len []) with 0 in *. rewrite Z.add_0_r in *. specialize (Hw32 0 ltac:(lia)). rewrite Z.add_0_r in Hw32.
    by rewrite Hw32, (sm_bind_ok _ _ _ _ _ (read_local_ok s _ _ e Hc He)), commit_type, lift_bind.
  - rewrite len_cons in *. pose proof (len_nonneg ws). apply Forall_cons in Hws as [Hw Hws].
    assert (block_at s (start + j) = Some (entry_of w)) as Hent.
    { specialize (Hlg 0%nat w eq_refl). by rewrite Z.add_0_r in Hlg. }
    pose proof (Hw32 0 ltac:(lia)) as H0. rewrite Z.add_0_r in H0.
    rewrite H0, (sm_bind_ok _ _ _ _ _ (read_local_ok s _ _ e Hent He)), entry_type, lift_bind.
    change (_ || (1 =? JOURNAL_TYPE_BLOCK_WRITE)) with true. cbv iota.
    rewrite (IH s start (j + 1) n (entry_of w)); [do 3 f_equal; lia|lia|by apply entry_len|done| | |].
    + intros k Hk. rewrite <- Z.add_assoc. apply Hw32. lia.
    + intros k w' Hk. specialize (Hlg (S k) w' Hk). rewrite <- Hlg. do 2 f_equal. lia.
    + rewrite <- Hc. do 2 f_equal. lia.
Qed.

Lemma scan_none n : ∀ s start j e,
  len e = 4096 →
  (∀ k, 0 ≤ k < Z.of_nat n → w32 (start + (j + k)) = start + (j + k) ∧
     ∃ b t, block_at s (start + (j + k)) = Some b ∧ le32_idx b 0 = Ok t ∧ t ≠ 2) →
  scan_loop n start j e s = (Ok None, s).
Proof.
  induction n as [|n IH]; intros s start j e He H; cbn [scan_loop]; [done|].
  destruct (H 0 ltac:(lia)) as (Hw & b & t & Hb & Ht & Hne). rewrite Z.add_0_r in *.
  rewrite Hw, (sm_bind_ok _ _ _ _ _ (read_local_ok s _ _ e Hb He)), Ht, lift_bind.
  destruct (_ || _); [|by rewrite (proj2 (Z.eqb_neq t JOURNAL_TYPE_COMMIT_END))].
  apply IH; [by eapply block_len|]. intros k Hk. rewrite <- Z.add_assoc. apply H. lia.
Qed.

(** ** Recovery *)

(** The journal holds the committed transaction [ws]. *)
Record committed (s : Onyfs) (ws : list (Z * list Z)) : Prop := {
  cm_on : no_journal (fs_sb s) = false;
  cm_fits : len ws < sb_journal_size (fs_sb s);
  cm_writes : Forall (write_ok s) ws;
  cm_logged : logged s (sb_journal_start (fs_sb s)) 0 ws;
  cm_commit : block_at s (sb_journal_start (fs_sb s) + len ws) = Some commit_entry }.

Lemma redo_some ws f b : is_Some (f b) → is_Some (redo ws f b).
Proof.
  revert f. induction ws as [|w ws IH]; intros f H; simpl; [done|]. apply IH.
  destruct (decide _); [|done]. by apply fmap_is_Some.
Qed.

Lemma recover_ok s ws :
  fs_ok s → committed s ws →
  ∃ s', journal_recover s = (Ok tt, s') ∧ fs_ok s' ∧ same_mount s s' ∧ fs_journal_head s' = 0 ∧
    (∀ b, ¬ journal_blk s b → block_at s' b = redo ws (block_at s) b) ∧
    (∀ k, 0 ≤ k ≤ len ws → block_at s' (sb_journal_start (fs_sb s) + k) = Some (zeros 4096)).
Proof.
  intros Hok [Hn Hfit Hws Hlg Hc]. pose proof (fo_start _ Hok) as Hu. pose proof (fo_end _ Hok). unfold u32 in Hu.
  pose proof (len_nonneg ws). unfold journal_recover. rewrite gets_bind, Hn.
  rewrite (sm_bind_ok _ _ _ _ _ (scan_finds ws s (sb_journal_start (fs_sb s)) 0
             (Z.to_nat (sb_journal_size (fs_sb s))) (zeros ONYFS_BLOCK_SIZE)
             ltac:(unfold len in *; lia) ltac:(by apply len_zeros)
             ltac:(eapply Forall_impl; [exact Hws|]; intros w (_&_&Hl&_); exact Hl)
             ltac:(intros k Hk; apply w32_small; lia) Hlg Hc)).
  cbv beta iota zeta.
  change (0 + len ws) with (len ws). replace (Z.to_nat (len ws)) with (length ws) by (unfold len; lia).
  destruct (replay_loop_ok ws s (sb_journal_start (fs_sb s)) 0 (zeros ONYFS_BLOCK_SIZE))
    as (s1 & H1 & Hok1 & M1 & Hb1); try done; try lia.
  rewrite (sm_bind_ok _ _ _ _ _ H1). pose proof M1 as (_&_&_&Esb&_).
  destruct (clear_loop_ok (Z.to_nat (len ws + 1)) s1 (sb_journal_start (fs_sb s)) 0)
    as (s2 & H2 & Hok2 & M2 & Hb2); rewrite ?Esb; try done; try lia.
  rewrite (sm_bind_ok _ _ _ _ _ H2). exists (set_fs_head 0 s2). split; [done|].
  assert (same_mount s (set_fs_head 0 s2)) as M
    by (eapply same_mount_trans; [exact M1|]; destruct M2 as (?&?&?&?&?); by split_and!).
  split_and!; [|apply M|done| |].
  - destruct Hok2. by constructor.
  - intros b Hb. change (block_at (set_fs_head 0 s2) b) with (block_at s2 b). rewrite Hb2, decide_False; [apply Hb1|].
    intros Hr. apply Hb. split; [done|]. lia.
  - intros k Hk. change (block_at (set_fs_head 0 s2) (sb_journal_start (fs_sb s) + k)) with (block_at s2 (sb_journal_start (fs_sb s) + k)). rewrite Hb2, decide_True; [done|]. lia.
Qed.

Lemma recover_none s :
  fs_ok s → (∀ b, journal_blk s b → ∃ e t, block_at s b = Some e ∧ le32_idx e 0 = Ok t ∧ t ≠ 2) →
  ∃ s', journal_recover s = (Ok tt, s') ∧ ∀ b, block_at s' b = block_at s b.
Proof.
  intros Hok Hj. unfold journal_recover. rewrite gets_bind. destruct (no_journal (fs_sb s)) eqn:Hn; [by exists s|].
  pose proof (fo_start _ Hok) as Hu. pose proof (fo_end _ Hok). unfold u32 in Hu.
  rewrite (sm_bind_ok _ _ _ _ _ (scan_none (Z.to_nat (sb_journal_size (fs_sb s))) s
             (sb_journal_start (fs_sb s)) 0 (zeros ONYFS_BLOCK_SIZE) ltac:(by apply len_zeros)
             ltac:(intros k Hk; split; [apply w32_small; lia|]; apply Hj; split; [done|lia]))).
  by exists (set_fs_head 0 s).
Qed.

(** ** Logging a transaction *)

Fixpoint log_all (ws : list (Z * list Z)) : FM unit :=
  match ws with
  | [] => mret tt
  | w :: ws => journal_log w.1 w.2;; log_all ws
  end.

Lemma log_all_ok ws : ∀ s,
  fs_ok s → no_journal (fs_sb s) = false → Forall (λ w, len w.2 = 4096) ws →
  fs_journal_head s + len ws ≤ sb_journal_size (fs_sb s) →
  let a := sb_journal_start (fs_sb s) + fs_journal_head s in
  ∃ s', log_all ws s = (Ok tt, s') ∧ fs_ok s' ∧ same_mount s s' ∧
    fs_journal_head s' = fs_journal_head s + len ws ∧
    logged s' (sb_journal_start (fs_sb s)) (fs_journal_head s) ws ∧
    ∀ b, ¬ (a ≤ b < a + len ws) → block_at s' b = block_at s b.
Proof.
  induction ws as [|w ws IH]; intros s Hok Hn Hws Hfit a.
  { exists s. split; [done|]. split; [done|]. split; [apply same_mount_refl|].
    split; [change (len []) with 0; lia|]. by split. }
  rewrite len_cons in *. pose proof (len_nonneg ws). apply Forall_cons in Hws as [Hw Hws].
  destruct (journal_log_on s w.1 w.2 Hok Hn Hw ltac:(lia)) as (s1 & H1 & Hwr & Hh). fold a in Hwr.
  change (le_bytes 4 1 ++ le_bytes 4 w.1 ++ rd 0 4088 w.2) with (entry_of w) in Hwr.
  pose proof (wt_mount _ _ _ _ Hwr) as M. pose proof M as (_&_&_&Esb&_). pose proof (fo_head _ Hok).
  destruct (IH s1) as (s2 & H2 & Hok2 & M2 & Hh2 & Hlg & Hb2); rewrite ?Esb, ?Hh in *; try done; try lia.
  { eapply fs_ok_wrote; [done|done|lia]. }
  exists s2. cbn [log_all]. rewrite (sm_bind_ok _ _ _ _ _ H1).
  split; [done|]. split; [done|]. split; [by eapply same_mount_trans|]. split; [lia|]. split.
  - intros [|k] w' Hk.
    + injection Hk as <-. rewrite Hb2 by lia. rewrite (wt_block _ _ _ _ Hwr), decide_True; [done|]. unfold a. lia.
    + rewrite <- (Hlg k w' Hk). do 2 f_equal. lia.
  - intros b Hb. rewrite Hb2 by lia. rewrite (wt_block _ _ _ _ Hwr), decide_False; [done|]. lia.
Qed.

Lemma commit_ok s :
  fs_ok s → no_journal (fs_sb s) = false → 0 < fs_journal_head s < sb_journal_size (fs_sb s) →
  ∃ s', journal_commit s = (Ok tt, s') ∧ fs_ok s' ∧ same_mount s s' ∧ fs_journal_head s' = 0 ∧
    ∀ b, block_at s' b = if decide (b = sb_journal_start (fs_sb s) + fs_journal_head s)
                         then Some commit_entry else block_at s b.
Proof.
  intros Hok Hn Hh. pose proof (fo_start _ Hok) as Hu. pose proof (fo_end _ Hok). unfold u32 in Hu.
  unfold journal_commit. rewrite gets_bind, Hn, gets_bind.
  rewrite (proj2 (Z.eqb_neq _ _)), (proj2 (Z.ltb_lt _ _)) by lia.
  assert (puts [(0, 4, le_bytes 4 JOURNAL_TYPE_COMMIT_END)] (zeros ONYFS_BLOCK_SIZE) = Ok commit_entry) as ->
    by (vm_compute; reflexivity).
  rewrite w32_small by lia.
  destruct (write_block_wrote s (sb_journal_start (fs_sb s) + fs_journal_head s) commit_entry) as (s1 & H1 & Hwr & Hh1).
  { apply (fo_jblk _ Hok). split; [done|lia]. } { done. }
  exists (set_fs_head 0 s1). destruct Hwr as [M Eb Hb]. pose proof M as (?&?&?&?&?).
  split; [erewrite sm_bind_ok by (rewrite lift_bind; exact H1); done|].
  assert (fs_ok s1) as [] by (eapply fs_ok_wrote; [done|constructor; done|lia]).
  split; [by constructor|]. split; [by split_and!|]. split; [done|]. exact Hb.
Qed.

(** The last data logged for a block. *)
Fixpoint final (ws : list (Z * list Z)) (b : Z) : option (list Z) :=
  match ws with
  | [] => None
  | w :: ws =>
      match final ws b with
      | Some d => Some d
      | None => if decide (w.1 = b) then Some w.2 else None
      end
  end.

Lemma redo_block_parts data old :
  len data = 4096 → len old = 4096 →
  len (redo_block data old) = 4096 ∧ rd 0 4088 (redo_block data old) = rd 0 4088 data ∧
  rd 4088 8 (redo_block data old) = rd 4088 8 old.
Proof.
  intros Hd Ho. assert (len (rd 0 4088 data) = 4088) as Hr by (rewrite len_rd; lia).
  unfold redo_block. split_and!; [rewrite len_wr; lia|rewrite rd_wr_eq; done || lia|].
  rewrite rd_wr_ne; [done|lia..].
Qed.

Lemma redo_final ws : ∀ f b old,
  Forall (λ w, len w.2 = 4096) ws → f b = Some old → len old = 4096 →
  ∃ c, redo ws f b = Some c ∧ len c = 4096 ∧ rd 4088 8 c = rd 4088 8 old ∧
    rd 0 4088 c = match final ws b with Some d => rd 0 4088 d | None => rd 0 4088 old end.
Proof.
  induction ws as [|w ws IH]; intros f b old Hws Hf Ho; simpl; [by eauto|].
  apply Forall_cons in Hws as [Hw Hws]. destruct (decide (w.1 = b)) as [<-|Hne].
  - destruct (redo_block_parts w.2 old Hw Ho) as (Hl & H1 & H2).
    destruct (IH (λ b, if decide (b = w.1) then redo_block w.2 <$> f b else f b) w.1 (redo_block w.2 old))
      as (c & Hc & Hcl & Ht & Hd); [done|rewrite decide_True by done; by rewrite Hf|done|].
    exists c. split_and!; [done|done|congruence|]. rewrite Hd, H1. by destruct (final ws w.1).
  - destruct (IH (λ b, if decide (b = w.1) then redo_block w.2 <$> f b else f b) b old)
      as (c & Hc & Hcl & Ht & Hd); [done|rewrite decide_False by congruence; done|done|].
    exists c. split_and!; [done..|]. rewrite Hd. by destruct (final ws b).
Qed.

Lemma log_commit_ok s ws :
  fs_ok s → no_journal (fs_sb s) = false → fs_journal_head s = 0 → ws ≠ [] →
  len ws < sb_journal_size (fs_sb s) → Forall (write_ok s) ws →
  ∃ s', (log_all ws;; journal_commit) s = (Ok tt, s') ∧ fs_ok s' ∧ same_mount s s' ∧ fs_journal_head s' = 0 ∧
    committed s' ws ∧ ∀ b, ¬ journal_blk s b → block_at s' b = block_at s b.
Proof.
  intros Hok Hn Hh Hne Hfit Hws. pose proof (len_nonneg ws).
  assert (0 < len ws) by (destruct ws; [done|]; rewrite len_cons; pose proof (len_nonneg ws); lia).
  destruct (log_all_ok ws s Hok Hn) as (s1 & H1 & Hok1 & M1 & Hh1 & Hlg & Hb1);
    [eapply Forall_impl; [exact Hws|]; by intros w (_&_&?&_)|lia|].
  pose proof M1 as (_&_&_&Esb&_). rewrite Hh, ?Z.add_0_l, ?Z.add_0_r in *.
  destruct (commit_ok s1 Hok1) as (s2 & H2 & Hok2 & M2 & Hh2 & Hb2); [by rewrite Esb|rewrite Esb; lia|].
  rewrite Esb, Hh1 in Hb2. assert (same_mount s s2) as M by (by eapply same_mount_trans).
  assert (∀ b, ¬ journal_blk s b → block_at s2 b = block_at s b) as Hout.
  { intros b Hb. rewrite Hb2, decide_False, Hb1; [done| |]; intros H'; apply Hb; (split; [done|lia]). }
  exists s2. rewrite (sm_bind_ok _ _ _ _ _ H1). split_and!; try done.
  pose proof M as (_&_&_&Esb2&_). constructor; rewrite ?Esb2; try done.
  - eapply Forall_impl; [exact Hws|]. intros w Hw. eapply write_ok_same; [done| |done].
    destruct Hw as (_ & Hnj & _ & Hs). by rewrite Hout.
  - intros k w Hk. rewrite Hb2, decide_False; [by apply Hlg|].
    apply lookup_lt_Some in Hk. unfold len. lia.
  - rewrite Hb2, decide_True; done.
Qed.

(** The committed journal survives a crash that leaves its blocks alone. *)
Lemma committed_crash s1 s2 ws :
  committed s1 ws → fs_ok s1 → same_mount s1 s2 →
  (∀ b, journal_blk s1 b → block_at s2 b = block_at s1 b) →
  (∀ w, w ∈ ws → is_Some (block_at s2 w.1)) → committed s2 ws.
Proof.
  intros [Hn Hfit Hws Hlg Hc] Hok M Hj Hp. pose proof M as (_&_&_&E&_). pose proof (len_nonneg ws).
  constructor; rewrite ?E; try done.
  - apply Forall_forall. intros w Hw. eapply write_ok_same; [done|by apply Hp|].
    by apply (proj1 (Forall_forall _ _) Hws).
  - intros k w Hk. rewrite Hj; [by apply Hlg|]. apply lookup_lt_Some in Hk. unfold len in *. split; [done|lia].
  - rewrite Hj; [done|]. split; [done|lia].
Qed.
