(* ===== verification/DirProps.v ===== *)
(** * A directory block is a finite map from names to inodes

    [dir_rep buf es]: the 102 slots of the block [buf] hold the entries [es],
    no name twice.  [dir_map es] is the map they stand for.  The scans of
    [add_dirent] and [remove_dirent] compare names up to their NUL, the scan of
    [lookup_in] uses the stored length; under [dir_rep] they agree. *)

From S2P Require Import Prelude Parser Formats FormatsProps Compress Onyxfs OnyxfsProps.
From stdpp Require Import base list numbers gmap.
From Stdlib Require Import ZArith Lia.

Open Scope Z_scope.

(** ** Names *)

Definition name_good (nm : list Z) : Prop := 1 ≤ len nm ≤ 32 ∧ Forall (λ c, c ≠ 0) nm.

Definition padded (nm : list Z) : list Z := nm ++ zeros (32 - len nm).

Lemma len_padded nm : name_good nm → len (padded nm) = 32.
Proof. intros [H _]. unfold padded. rewrite len_app, len_zeros; lia. Qed.

Lemma match_len_prefix name l : match_len name l = len name → ∃ r, l = name ++ r.
Proof.
  revert l. induction name as [|c name IH]; intros l H; [by exists l|].
  rewrite len_cons in H. destruct l as [|c' l]; cbn [match_len] in H; [pose proof (len_nonneg name); lia|].
  destruct (Z.eqb_spec c c') as [->|]; [|pose proof (len_nonneg name); lia].
  destruct (IH l) as [r ->]; [lia|]. by exists r.
Qed.

Lemma match_len_app name r : match_len name (name ++ r) = len name.
Proof. induction name as [|c name IH]; [by destruct r|]. simpl. rewrite Z.eqb_refl, IH, len_cons. lia. Qed.

Lemma padded_prefix name nm r :
  name_good name → name_good nm → padded nm = name ++ r → ∃ t, nm = name ++ t.
Proof.
  intros [Hl Hz] [Hl' Hz'] E. unfold padded in E.
  destruct (decide (length name ≤ length nm)%nat) as [Hle|Hgt].
  - exists (drop (length name) nm). rewrite <- (take_drop (length name) nm) at 1. f_equal.
    apply (f_equal (take (length name))) in E. rewrite take_app_le, take_app_length in E by done. done.
  - exfalso. assert (name !! length nm = Some 0) as H0.
    { transitivity ((name ++ r) !! length nm); [by rewrite lookup_app_l by lia|]. rewrite <- E.
      rewrite lookup_app_r, Nat.sub_diag by lia. unfold zeros. apply lookup_replicate. split; [done|].
      unfold len in *. lia. }
    by apply (Forall_lookup_1 _ _ _ _ Hz) in H0.
Qed.

Lemma name_matches_padded name nm :
  name_good name → name_good nm →
  name_matches name (padded nm) = Ok (bool_decide (nm = name)).
Proof.
  intros Hn Hm. pose proof (len_padded nm Hm) as Hp. unfold name_matches.
  destruct (Z.eqb_spec (match_len name (padded nm)) (len name)) as [E|E]; cbn [negb].
  - rewrite E. destruct (match_len_prefix _ _ E) as [r Hr].
    destruct (padded_prefix name nm r Hn Hm Hr) as [t ->].
    pose proof Hn as [Hl Hz]. pose proof Hm as [Hl' Hz']. rewrite len_app in *. pose proof (len_nonneg t).
    unfold ONYFS_NAME_MAX. destruct (Z.leb_spec 32 (len name)).
    + assert (t = []) as -> by (destruct t; [done|]; rewrite len_cons in *; pose proof (len_nonneg t); lia).
      rewrite app_nil_r, bool_decide_true; done.
    + assert (padded (name ++ t) !! Z.to_nat (len name) = (t ++ zeros (32 - len (name ++ t))) !! 0%nat) as Hx.
      { unfold padded. rewrite <- app_assoc, lookup_app_r by (unfold len; lia). f_equal. unfold len. lia. }
      destruct t as [|c t].
      * rewrite app_nil_r in *. rewrite (idx_ok _ _ 0); [|rewrite Hx; unfold zeros; apply lookup_replicate; lia|lia].
        rewrite bind_ok, bool_decide_true by done. done.
      * rewrite (idx_ok _ _ c); [|by rewrite Hx|lia]. rewrite bind_ok.
        rewrite bool_decide_false.
        -- apply Forall_app in Hz' as [_ Hz']. apply Forall_cons in Hz' as [Hc _].
           by rewrite (proj2 (Z.eqb_neq c 0)).
        -- intros Ex. apply (f_equal length) in Ex. rewrite length_app in Ex. simpl in Ex. lia.
  - rewrite bool_decide_false; [done|]. intros ->. apply E. unfold padded. by apply match_len_app.
Qed.

(** ** Slots *)

Definition slot_ino (buf : list Z) (i : Z) : Z := le_val (rd (40 * i + 32) 4 buf).

Definition slot_rep (buf : list Z) (i : nat) (e : option (list Z * Z)) : Prop :=
  match e with
  | None => slot_ino buf (Z.of_nat i) = 0
  | Some (nm, ino) =>
      u32 ino ∧ ino ≠ 0 ∧ name_good nm ∧ slot_ino buf (Z.of_nat i) = ino ∧
      rd (40 * Z.of_nat i) 32 buf = padded nm ∧ rd (40 * Z.of_nat i + 37) 1 buf = [len nm]
  end.

Record dir_rep (buf : list Z) (es : list (option (list Z * Z))) : Prop := {
  dr_len : len buf = 4096;
  dr_slots : length es = 102%nat;
  dr_rep : ∀ i e, es !! i = Some e → slot_rep buf i e;
  dr_uniq : ∀ i j nm a b, es !! i = Some (Some (nm, a)) → es !! j = Some (Some (nm, b)) → i = j }.

Lemma le32_idx_rd buf a : 0 ≤ a → a + 4 ≤ len buf → le32_idx buf a = Ok (le_val (rd a 4 buf)).
Proof.
  intros Ha Hl. unfold le32_idx.
  assert (∀ k, 0 ≤ k < 4 → idx buf (a + k) = idx (rd a 4 buf) k) as Hk.
  { intros k Hk. unfold idx. rewrite (proj2 (Z.ltb_ge (a + k) 0)), (proj2 (Z.ltb_ge k 0)) by lia.
    rewrite lookup_rd by lia. replace (Z.to_nat (a + k)) with (Z.to_nat a + Z.to_nat k)%nat by lia. done. }
  rewrite <- (Z.add_0_r a) at 1. rewrite !Hk by lia.
  assert (len (rd a 4 buf) = 4) as Hr by (rewrite len_rd; lia).
  destruct (rd a 4 buf) as [|x0 [|x1 [|x2 [|x3 [|]]]]]; try done. unfold len in Hr. simpl in Hr. lia.
Qed.

Definition dir_hit (es : list (option (list Z * Z))) (name : list Z) (i : nat) : bool :=
  match es !! i with Some (Some (nm, _)) => bool_decide (nm = name) | _ => false end.

Lemma find_entry_step buf es name n i :
  dir_rep buf es → name_good name → (i < 102)%nat →
  find_entry (S n) (Z.of_nat i) 40 buf name =
  if dir_hit es name i then Ok (Some (Z.of_nat i * 40))
  else find_entry n (Z.of_nat i + 1) 40 buf name.
Proof.
  intros [Hl Hs Hr _] Hn Hi. cbn [find_entry]. unfold ONYFS_BLOCK_SIZE, ONYFS_NAME_MAX, dir_hit.
  rewrite (proj2 (Z.ltb_ge _ _)) by lia. rewrite le32_idx_rd, bind_ok by lia.
  destruct (lookup_lt_is_Some_2 es i) as [e He]; [lia|]. rewrite He. specialize (Hr i e He).
  unfold slot_rep, slot_ino in Hr. rewrite (Z.mul_comm 40) in Hr.
  destruct e as [[nm a]|].
  - destruct Hr as (Hu & Ha & Hg & -> & Hnm & _). rewrite (proj2 (Z.eqb_neq a 0)) by done.
    rewrite slice_ok by lia. replace (Z.of_nat i * 40 + 32 - Z.of_nat i * 40) with 32 by lia.
    rewrite Hnm, bind_ok, (name_matches_padded name nm Hn Hg), bind_ok. by destruct (bool_decide _).
  - rewrite Hr. done.
Qed.

(** The scan finds the slot of the name, or there is none. *)
Lemma find_entry_spec buf es name n : ∀ i,
  dir_rep buf es → name_good name → (i + n = 102)%nat →
  (∃ j a, es !! j = Some (Some (name, a)) ∧ (i ≤ j)%nat ∧
     find_entry n (Z.of_nat i) 40 buf name = Ok (Some (Z.of_nat j * 40))) ∨
  (find_entry n (Z.of_nat i) 40 buf name = Ok None ∧
   ∀ j a, (i ≤ j)%nat → es !! j ≠ Some (Some (name, a))).
Proof.
  induction n as [|n IH]; intros i Hd Hn Hi.
  { right. split; [done|]. intros j a Hj He. apply lookup_lt_Some in He. destruct Hd. lia. }
  rewrite (find_entry_step buf es name n i Hd Hn) by lia. unfold dir_hit.
  destruct (es !! i) as [[[nm a]|]|] eqn:He.
  - destruct (bool_decide_reflect (nm = name)) as [->|Hne]; [left; by eauto|].
    replace (Z.of_nat i + 1) with (Z.of_nat (S i)) by lia.
    destruct (IH (S i) Hd Hn ltac:(lia)) as [(j & b & Hj & Hij & E)|[E Hno]]; [left; exists j, b; split_and!; [done|lia|done]|].
    right. split; [done|]. intros j b Hij Hj. destruct (decide (j = i)) as [->|]; [congruence|]. by apply (Hno j b); [lia|].
  - replace (Z.of_nat i + 1) with (Z.of_nat (S i)) by lia.
    destruct (IH (S i) Hd Hn ltac:(lia)) as [(j & b & Hj & Hij & E)|[E Hno]]; [left; exists j, b; split_and!; [done|lia|done]|].
    right. split; [done|]. intros j b Hij Hj. destruct (decide (j = i)) as [->|]; [congruence|]. by apply (Hno j b); [lia|].
  - apply lookup_ge_None in He. destruct Hd. lia.
Qed.

Lemma find_free_spec buf es n : ∀ i,
  dir_rep buf es → (i + n = 102)%nat →
  (∃ j, es !! j = Some None ∧ find_free n (Z.of_nat i) 40 buf = Ok (Some (Z.of_nat j * 40))) ∨
  (find_free n (Z.of_nat i) 40 buf = Ok None ∧ ∀ j, (i ≤ j)%nat → es !! j ≠ Some None).
Proof.
  induction n as [|n IH]; intros i Hd Hi.
  { right. split; [done|]. intros j Hj He. apply lookup_lt_Some in He. destruct Hd. lia. }
  pose proof Hd as [Hl Hs Hr _]. cbn [find_free]. unfold ONYFS_BLOCK_SIZE.
  rewrite (proj2 (Z.ltb_ge _ _)) by lia. rewrite le32_idx_rd, bind_ok by lia.
  destruct (lookup_lt_is_Some_2 es i) as [e He]; [lia|]. specialize (Hr i e He).
  unfold slot_rep, slot_ino in Hr. rewrite (Z.mul_comm 40) in Hr. destruct e as [[nm a]|].
  - destruct Hr as (Hu & Ha & Hg & -> & _). rewrite (proj2 (Z.eqb_neq a 0)) by done.
    replace (Z.of_nat i + 1) with (Z.of_nat (S i)) by lia.
    destruct (IH (S i) Hd ltac:(lia)) as [(j & Hj & E)|[E Hno]]; [left; by eauto|].
    right. split; [done|]. intros j Hij Hj. destruct (decide (j = i)) as [->|]; [congruence|]. by apply (Hno j); [lia|].
  - rewrite Hr. left. by exists i.
Qed.

Lemma idx_rd (buf : list Z) a : 0 ≤ a → a + 1 ≤ len buf → ∃ x, idx buf a = Ok x ∧ rd a 1 buf = [x].
Proof.
  intros Ha Hl. destruct (idx_Some buf a ltac:(lia)) as [x Hx]. exists x.
  split; [by apply idx_ok|]. apply rd_ext; [lia..|done|]. intros [|k] Hk; [by rewrite Nat.add_0_r|lia].
Qed.

Lemma parse_slot buf i :
  len buf = 4096 → (i < 102)%nat →
  ∃ d, parse_dirent ONYFS_V2 buf (Z.of_nat i) = Ok d ∧ d_inode d = slot_ino buf (Z.of_nat i) ∧
    d_name d = rd (40 * Z.of_nat i) 32 buf ∧ rd (40 * Z.of_nat i + 37) 1 buf = [d_name_len d].
Proof.
  intros Hl Hi. unfold parse_dirent. change (ONYFS_V2 =? ONYFS_V1) with false. cbv iota zeta.
  unfold DIRENT_SIZE, ONYFS_BLOCK_SIZE. rewrite (proj2 (Z.ltb_ge _ _)) by lia.
  rewrite slice_ok by lia. rewrite bind_ok. replace (Z.of_nat i * 40 + 40 - Z.of_nat i * 40) with 40 by lia.
  rewrite (Z.mul_comm (Z.of_nat i)). set (o := 40 * Z.of_nat i).
  assert (len (rd o 40 buf) = 40) as Hr by (apply len_rd; lia).
  unfold dirent_from_bytes, DIRENT_SIZE, ONYFS_NAME_MAX. rewrite Hr. change (40 <? 40) with false. cbv iota.
  rewrite slice_ok, bind_ok by lia. unfold le32_at. rewrite slice_ok, bind_ok by lia.
  rewrite le32_ok by (rewrite len_rd; lia). rewrite bind_ok.
  change (32 - 0) with 32. change (36 - 32) with 4.
  rewrite !rd_rd by lia. rewrite Z.add_0_r.
  destruct (idx_rd (rd o 40 buf) 36 ltac:(lia) ltac:(lia)) as (x0 & -> & _). rewrite bind_ok.
  destruct (idx_rd (rd o 40 buf) 37 ltac:(lia) ltac:(lia)) as (x1 & -> & H1). rewrite bind_ok.
  destruct (idx_rd (rd o 40 buf) 38 ltac:(lia) ltac:(lia)) as (x2 & -> & _). rewrite bind_ok.
  destruct (idx_rd (rd o 40 buf) 39 ltac:(lia) ltac:(lia)) as (x3 & -> & _). rewrite bind_ok.
  rewrite rd_rd in H1 by lia.
  eexists. split; [reflexivity|]. cbn [d_inode d_name d_name_len]. split_and!; [|done|done].
  unfold slot_ino. fold o. rewrite take_ge; [done|].
  assert (len (rd (o + 32) 4 buf) = 4) as Hx by (apply len_rd; lia). unfold len in Hx. lia.
Qed.

Lemma padded_name nm : name_good nm → slice (padded nm) 0 (len nm) = Ok nm.
Proof.
  intros Hg. pose proof (len_padded nm Hg). destruct Hg as [Hl _].
  rewrite slice_ok by lia. f_equal. unfold rd, padded, len. rewrite drop_0, Z.sub_0_r, Nat2Z.id.
  apply take_app_length.
Qed.

Lemma search_step buf es name n i :
  dir_rep buf es → (i < 102)%nat →
  search_dir (S n) ONYFS_V2 buf (Z.of_nat i) name =
  if dir_hit es name i then Ok (Some (slot_ino buf (Z.of_nat i)))
  else search_dir n ONYFS_V2 buf (Z.of_nat i + 1) name.
Proof.
  intros [Hl Hs Hr _] Hi. cbn [search_dir]. unfold dir_hit.
  destruct (parse_slot buf i Hl Hi) as (d & -> & Hino & Hnm & Hnl). rewrite bind_ok, Hino.
  destruct (lookup_lt_is_Some_2 es i) as [e He]; [lia|]. rewrite He. specialize (Hr i e He).
  destruct e as [[nm a]|]; cbn [slot_rep] in Hr.
  - destruct Hr as (Hu & Ha & Hg & Hsi & Hp & H37). rewrite Hsi, (proj2 (Z.eqb_neq a 0)) by done.
    rewrite Hp in Hnm. rewrite H37 in Hnl. injection Hnl as Hnl. rewrite Hnm, <- Hnl.
    pose proof Hg as [Hgl _]. unfold name_length, ONYFS_NAME_MAX.
    rewrite (proj2 (Z.ltb_lt 0 (len nm))), (proj2 (Z.leb_le (len nm) 32)) by lia. cbn [andb].
    destruct (Z.eqb_spec (len nm) (len name)) as [El|El].
    + rewrite padded_name, bind_ok by done. case_bool_decide; [by rewrite decide_True|by rewrite decide_False].
    + rewrite bool_decide_false; [done|]. intros ->. done.
  - rewrite Hr. done.
Qed.

(** ** The map of a directory *)

Definition entries (es : list (option (list Z * Z))) : list (list Z * Z) := omap id es.
Definition dir_map (es : list (option (list Z * Z))) : gmap (list Z) Z := list_to_map (entries es).

Lemma elem_of_entries es p : p ∈ entries es ↔ ∃ i, es !! i = Some (Some p).
Proof.
  unfold entries. rewrite list_elem_of_omap. split.
  - intros (o & Ho & E). cbn in E. subst o. by apply list_elem_of_lookup in Ho.
  - intros [i Hi]. exists (Some p). split; [|done]. by eapply list_elem_of_lookup_2.
Qed.

Lemma entries_nodup es :
  (∀ i j nm a b, es !! i = Some (Some (nm, a)) → es !! j = Some (Some (nm, b)) → i = j) →
  NoDup (entries es).*1.
Proof.
  induction es as [|e es IH]; intros Hu; [by apply NoDup_nil_2|].
  assert (NoDup (entries es).*1) as Hnd.
  { apply IH. intros i j nm a b Hi Hj. specialize (Hu (S i) (S j) nm a b Hi Hj). lia. }
  destruct e as [[nm a]|]; [|exact Hnd]. cbn [entries omap list_omap id]. fold (entries es).
  apply NoDup_cons. split; [|exact Hnd]. intros Hin. apply list_elem_of_fmap in Hin as ([nm' b] & E & Hin).
  cbn in E. subst nm'. apply elem_of_entries in Hin as [j Hj]. by specialize (Hu 0%nat (S j) nm a b eq_refl Hj).
Qed.

Lemma dir_map_Some buf es nm a :
  dir_rep buf es → dir_map es !! nm = Some a ↔ ∃ i, es !! i = Some (Some (nm, a)).
Proof.
  intros Hd. unfold dir_map. rewrite <- elem_of_list_to_map by (apply entries_nodup, Hd).
  apply elem_of_entries.
Qed.

Lemma dir_map_None buf es nm :
  dir_rep buf es → (∀ i a, es !! i ≠ Some (Some (nm, a))) → dir_map es !! nm = None.
Proof.
  intros Hd H. destruct (dir_map es !! nm) as [a|] eqn:E; [|done].
  apply (dir_map_Some buf es nm a Hd) in E as [i Hi]. by apply H in Hi.
Qed.

Lemma search_from buf es name n : ∀ i,
  dir_rep buf es → (i + n = 102)%nat →
  (∀ j a, (j < i)%nat → es !! j ≠ Some (Some (name, a))) →
  search_dir n ONYFS_V2 buf (Z.of_nat i) name = Ok (dir_map es !! name).
Proof.
  induction n as [|n IH]; intros i Hd Hi Hno.
  { rewrite (dir_map_None buf es name Hd); [done|]. intros j a Hj. pose proof (lookup_lt_Some _ _ _ Hj).
    destruct Hd. by apply (Hno j a); [lia|]. }
  rewrite (search_step buf es name n i Hd) by lia.
  destruct (dir_hit es name i) eqn:Eh; unfold dir_hit in Eh;
    destruct (es !! i) as [[[nm a]|]|] eqn:He; try done.
  - apply bool_decide_eq_true in Eh as ->. pose proof (dr_rep _ _ Hd i _ He) as (_ & _ & _ & -> & _).
    f_equal. symmetry. apply (dir_map_Some buf es name a Hd). by exists i.
  - apply bool_decide_eq_false in Eh. replace (Z.of_nat i + 1) with (Z.of_nat (S i)) by lia.
    apply IH; [done|lia|]. intros j b Hj. destruct (decide (j = i)) as [->|]; [congruence|]. apply Hno. lia.
  - replace (Z.of_nat i + 1) with (Z.of_nat (S i)) by lia.
    apply IH; [done|lia|]. intros j b Hj. destruct (decide (j = i)) as [->|]; [congruence|]. apply Hno. lia.
  - apply lookup_ge_None in He. destruct Hd. lia.
Qed.

Lemma search_spec buf es name :
  dir_rep buf es → search_dir 102 ONYFS_V2 buf 0 name = Ok (dir_map es !! name).
Proof. intros Hd. apply (search_from buf es name 102 0 Hd); [done|]. intros j a Hj. lia. Qed.

(** ** Updating a slot *)

(** [buf'] is [buf] but for the 40 bytes of slot [i]. *)
Definition slot_only (buf buf' : list Z) (i : nat) : Prop :=
  len buf' = len buf ∧
  ∀ a n, 0 ≤ a → 0 ≤ n → a + n ≤ len buf →
    a + n ≤ 40 * Z.of_nat i ∨ 40 * Z.of_nat i + 40 ≤ a → rd a n buf' = rd a n buf.

Lemma slot_only_refl buf i : slot_only buf buf i.
Proof. by split. Qed.

Lemma slot_only_wr buf buf' i a bs :
  slot_only buf buf' i → 40 * Z.of_nat i ≤ a → a + len bs ≤ 40 * Z.of_nat i + 40 →
  40 * Z.of_nat i + 40 ≤ len buf → slot_only buf (wr a bs buf') i.
Proof.
  intros [Hl H] Ha Hb Hi. pose proof (len_nonneg bs). split; [rewrite len_wr; lia|].
  intros b n Hb0 Hn Hbn Hd. rewrite <- (H b n Hb0 Hn Hbn Hd). apply rd_wr_ne; lia.
Qed.

Lemma dir_rep_update buf buf' es i e0 e :
  dir_rep buf es → es !! i = Some e0 → slot_only buf buf' i → slot_rep buf' i e →
  (∀ nm a, e = Some (nm, a) → ∀ j b, es !! j = Some (Some (nm, b)) → j = i) →
  dir_rep buf' (<[i := e]> es).
Proof.
  intros [Hl Hs Hr Hu] He [Hl' Hso] Hrep Hnew. pose proof (lookup_lt_Some _ _ _ He) as Hi.
  constructor; [congruence|by rewrite length_insert| |].
  - intros j ej Hj. destruct (decide (j = i)) as [->|Hne].
    { rewrite list_lookup_insert_eq in Hj by done. by injection Hj as <-. }
    rewrite list_lookup_insert_ne in Hj by done. pose proof (lookup_lt_Some _ _ _ Hj).
    specialize (Hr j ej Hj). unfold slot_rep, slot_ino in *.
    rewrite !(Hso _ _) by lia. exact Hr.
  - intros j k nm a b Hj Hk. destruct (decide (j = i)) as [->|Hj'], (decide (k = i)) as [->|Hk']; [done|..].
    + rewrite list_lookup_insert_eq in Hj by done. rewrite list_lookup_insert_ne in Hk by done.
      injection Hj as ->. symmetry. by eapply Hnew.
    + rewrite list_lookup_insert_eq in Hk by done. rewrite list_lookup_insert_ne in Hj by done.
      injection Hk as ->. by eapply Hnew.
    + rewrite list_lookup_insert_ne in Hj, Hk by done. by eapply Hu.
Qed.

Lemma dir_map_set buf buf' es i e0 nm a :
  dir_rep buf es → dir_rep buf' (<[i := Some (nm, a)]> es) → es !! i = Some e0 →
  (∀ nm' b, e0 = Some (nm', b) → nm' = nm) →
  dir_map (<[i := Some (nm, a)]> es) = <[nm := a]> (dir_map es).
Proof.
  intros Hd Hd' He Hold. pose proof (lookup_lt_Some _ _ _ He) as Hi.
  apply map_eq. intros k. apply option_eq. intros b. rewrite (dir_map_Some buf' _ k b Hd').
  destruct (decide (nm = k)) as [->|Hne].
  - rewrite lookup_insert_eq. split.
    + intros [j Hj]. pose proof (dr_uniq _ _ Hd' j i k b a Hj) as Hji.
      rewrite (Hji ltac:(by apply list_lookup_insert_eq)) in Hj.
      rewrite list_lookup_insert_eq in Hj by done. congruence.
    + intros [= ->]. exists i. by apply list_lookup_insert_eq.
  - rewrite lookup_insert_ne, (dir_map_Some buf es k b Hd) by done. split; intros [j Hj]; exists j.
    + destruct (decide (j = i)) as [->|]; [rewrite list_lookup_insert_eq in Hj by done; congruence|].
      by rewrite list_lookup_insert_ne in Hj.
    + rewrite list_lookup_insert_ne; [done|]. intros ->. rewrite He in Hj. injection Hj as ->.
      by specialize (Hold k b eq_refl).
Qed.

Lemma dir_map_unset buf buf' es i nm a :
  dir_rep buf es → dir_rep buf' (<[i := None]> es) → es !! i = Some (Some (nm, a)) →
  dir_map (<[i := None]> es) = delete nm (dir_map es).
Proof.
  intros Hd Hd' He. pose proof (lookup_lt_Some _ _ _ He) as Hi.
  apply map_eq. intros k. apply option_eq. intros b. rewrite (dir_map_Some buf' _ k b Hd').
  destruct (decide (nm = k)) as [->|Hne].
  - rewrite lookup_delete_eq. split; [|done]. intros [j Hj]. exfalso.
    destruct (decide (j = i)) as [->|]; [by rewrite list_lookup_insert_eq in Hj|].
    rewrite list_lookup_insert_ne in Hj by done. by pose proof (dr_uniq _ _ Hd j i k b a Hj He).
  - rewrite lookup_delete_ne, (dir_map_Some buf es k b Hd) by done. split; intros [j Hj]; exists j.
    + destruct (decide (j = i)) as [->|]; [by rewrite list_lookup_insert_eq in Hj|].
      by rewrite list_lookup_insert_ne in Hj.
    + rewrite list_lookup_insert_ne; [done|]. intros ->. congruence.
Qed.

(** The bytes written for a new entry, for a replaced inode and for a removal. *)
Lemma slot_new buf i nm ino dtype :
  len buf = 4096 → (i < 102)%nat → name_good nm → u32 ino → ino ≠ 0 →
  let o := Z.of_nat i * 40 in
  let buf' := wr (o + 37) [len nm] (wr (o + 36) [dtype] (wr (o + 32) (le_bytes 4 ino) (wr o (padded nm) buf))) in
  slot_only buf buf' i ∧ slot_rep buf' i (Some (nm, ino)).
Proof.
  intros Hl Hi Hg Hu Hn o buf'. pose proof (len_padded nm Hg) as Hp. pose proof (len_le_bytes 4 ino) as H4.
  assert (∀ x : Z, len [x] = 1) as H1 by done. change (Z.of_nat 4) with 4 in H4.
  split; [repeat apply slot_only_wr; try apply slot_only_refl; rewrite ?Hp, ?H4, ?H1; lia|].
  cbn [slot_rep]. unfold slot_ino. rewrite (Z.mul_comm 40). fold o. split_and!; [done..| | |].
  - unfold buf'. rewrite !rd_wr_ne by (rewrite ?len_wr, ?Hp, ?H4, ?H1 by (rewrite ?len_wr, ?Hp, ?H4, ?H1 by (rewrite ?len_wr, ?Hp, ?H4, ?H1; lia); lia); lia).
    rewrite rd_wr_eq by (rewrite ?len_wr, ?Hp, ?H4; lia). by apply le_val_bytes_id.
  - unfold buf'. rewrite !rd_wr_ne by (rewrite ?len_wr, ?Hp, ?H4, ?H1 by (rewrite ?len_wr, ?Hp, ?H4, ?H1 by (rewrite ?len_wr, ?Hp, ?H4, ?H1; lia); lia); lia).
    apply rd_wr_eq; lia.
  - unfold buf'. apply rd_wr_eq; [lia|done|].
    rewrite !len_wr; rewrite ?len_wr, ?Hp, ?H4, ?H1; rewrite ?len_wr, ?Hp, ?H4, ?H1; lia.
Qed.

Lemma slot_redirect buf i nm ino0 ino dtype :
  len buf = 4096 → (i < 102)%nat → slot_rep buf i (Some (nm, ino0)) → u32 ino → ino ≠ 0 →
  let o := Z.of_nat i * 40 in
  let buf' := wr (o + 36) [dtype] (wr (o + 32) (le_bytes 4 ino) buf) in
  slot_only buf buf' i ∧ slot_rep buf' i (Some (nm, ino)).
Proof.
  intros Hl Hi (_ & _ & Hg & _ & Hnm & H37) Hu Hn o buf'. pose proof (len_le_bytes 4 ino) as H4.
  assert (∀ x : Z, len [x] = 1) as H1 by done. change (Z.of_nat 4) with 4 in H4.
  split; [repeat apply slot_only_wr; try apply slot_only_refl; rewrite ?H4, ?H1; lia|].
  rewrite (Z.mul_comm 40) in *. fold o in Hnm, H37.
  cbn [slot_rep]. unfold slot_ino. rewrite (Z.mul_comm 40). fold o. split_and!; [done..| | |]; unfold buf'.
  - rewrite rd_wr_ne by (rewrite ?len_wr, ?H4, ?H1; lia).
    rewrite rd_wr_eq by (rewrite ?H4; lia). by apply le_val_bytes_id.
  - rewrite !rd_wr_ne by (rewrite ?len_wr, ?H4, ?H1; lia). done.
  - rewrite !rd_wr_ne by (rewrite ?len_wr, ?H4, ?H1; lia). done.
Qed.

Lemma slot_clear buf i :
  len buf = 4096 → (i < 102)%nat →
  let buf' := wr (Z.of_nat i * 40 + 32) (zeros 4) buf in
  slot_only buf buf' i ∧ slot_rep buf' i None.
Proof.
  intros Hl Hi buf'. assert (len (zeros 4) = 4) as H4 by done.
  split; [apply slot_only_wr; [apply slot_only_refl|rewrite ?H4; lia..]|].
  cbn [slot_rep]. unfold slot_ino, buf'. rewrite (Z.mul_comm 40), rd_wr_eq by (rewrite ?H4; lia). done.
Qed.

(** ** Directory operations *)

(** A directory: its inode, its block and the entries the block holds. *)
Record dir_at (s : Onyfs) (dir blk : Z) (es : list (option (list Z * Z))) : Prop := {
  da_inode : ∃ ib n, inode_at s dir ib ∧ decode_inode (rd (inode_off dir) 128 ib) = Ok n ∧
                     i_blocks n !! 0%nat = Some blk;
  da_blk : blk ≠ 0;
  da_free : ¬ journal_blk s blk;
  da_ifree : ¬ journal_blk s (inode_blk s dir);
  da_apart : blk ≠ inode_blk s dir;
  da_buf : ∃ buf, block_at s blk = Some buf ∧ dir_rep buf es }.

Lemma dir_at_stepped s dir blk es buf' es' s' :
  dir_at s dir blk es → stepped s (set_blk blk buf') 1 s' → dir_rep buf' es' → dir_at s' dir blk es'.
Proof.
  intros [(ib & n & [H1 H2 H3 H4] & Hd & Hb) H0 Hf Hi Ha _] [O M R B] Hr.
  pose proof M as (_&_&_&E&_).
  assert (inode_blk s' dir = inode_blk s dir) as Eib by (unfold inode_blk; by rewrite E).
  constructor; rewrite ?Eib, ?(journal_blk_same s s'); try done.
  - exists ib, n. split_and!; [|done|done]. constructor; rewrite ?E, ?Eib; try done.
    rewrite B by done. unfold set_blk. rewrite decide_False; [done|]. congruence.
  - exists buf'. split; [|done]. rewrite B by done. unfold set_blk. by rewrite decide_True.
Qed.

(** The block of the directory loaded into the buffer. *)
Lemma dir_loaded s dir blk es buf :
  fs_ok s → dir_at s dir blk es → block_at s blk = Some buf → dir_rep buf es →
  ∃ n ib, read_inode dir s = (Ok n, set_fs_buf ib s) ∧ idx (i_blocks n) 0 = Ok blk ∧
    load blk (set_fs_buf ib s) = (Ok tt, set_fs_buf buf s).
Proof.
  intros Hok [(ib & n & Hat & Hd & Hb) H0 Hf Hi Ha _] Hbuf Hr.
  exists n, ib. rewrite (read_inode_ok s dir ib Hok Hat), Hd. split_and!; [done|by apply idx_ok|].
  rewrite (load_ok (set_fs_buf ib s) blk buf Hbuf); [done|]. apply (block_len _ _ _ (ia_read _ _ _ Hat)).
Qed.

Lemma commit_slot s dir blk es buf buf' es' :
  fs_ok s → dir_at s dir blk es → block_at s blk = Some buf → dir_rep buf' es' → room s 1 →
  ∃ s', log_and_write blk (set_fs_buf buf' s) = (Ok tt, s') ∧ fs_ok s' ∧ dir_at s' dir blk es' ∧
    stepped s (set_blk blk buf') 1 s'.
Proof.
  intros Hok Hda Hbuf Hr Hroom.
  destruct (log_and_write_spec (set_fs_buf buf' s) blk) as (s' & Hlw & Hst & _);
    [apply fs_ok_buf; [done|apply Hr]|by eexists|apply Hda|done|].
  apply stepped_buf in Hst. exists s'. split_and!; [done|apply Hst| |done]. by eapply dir_at_stepped.
Qed.

Lemma remove_dirent_spec s dir blk es name :
  fs_ok s → dir_at s dir blk es → name_good name → room s 1 →
  (∃ s' es' buf', remove_dirent dir name s = (Ok tt, s') ∧ fs_ok s' ∧ dir_at s' dir blk es' ∧
     stepped s (set_blk blk buf') 1 s' ∧ is_Some (dir_map es !! name) ∧
     dir_map es' = delete name (dir_map es)) ∨
  (∃ b, remove_dirent dir name s = (Err NoEnt, set_fs_buf b s) ∧ dir_map es !! name = None).
Proof.
  intros Hok Hda Hn Hroom. pose proof (da_buf _ _ _ _ Hda) as (buf & Hbuf & Hr).
  destruct (dir_loaded s dir blk es buf Hok Hda Hbuf Hr) as (n & ib & Hri & Hix & Hld).
  destruct (v2_geometry s Hok) as (_ & Hdp & Hes & _).
  unfold remove_dirent. rewrite (sm_bind_ok _ _ _ _ _ Hri), Hix, lift_bind.
  rewrite (proj2 (Z.eqb_neq blk 0)) by apply Hda. rewrite !gets_bind.
  change (dirents_per_block (set_fs_buf ib s)) with (dirents_per_block s).
  change (entry_size (set_fs_buf ib s)) with (entry_size s). rewrite Hdp, Hes.
  rewrite (sm_bind_ok _ _ _ _ _ Hld), gets_bind. cbn [fs_buf set_fs_buf].
  change (Z.to_nat 102) with 102%nat.
  destruct (find_entry_spec buf es name 102 0 Hr Hn ltac:(lia)) as [(j & a & Hj & _ & E)|[E Hno]];
    change (Z.of_nat 0) with 0 in E; rewrite E, lift_bind.
  - left. pose proof (lookup_lt_Some _ _ _ Hj) as Hlt. pose proof (dr_slots _ _ Hr). pose proof (dr_len _ _ Hr) as Hbl.
    destruct (slot_clear buf j Hbl ltac:(lia)) as [Hso Hsr].
    set (buf' := wr (Z.of_nat j * 40 + 32) (zeros 4) buf) in *.
    assert (dir_rep buf' (<[j := None]> es)) as Hr' by (eapply dir_rep_update; try done).
    rewrite put_ok; [|lia|lia|lia|change (len (zeros 4)) with 4; lia]. fold buf'.
    rewrite lift_bind, modify_bind.
    change (set_fs_buf buf' (set_fs_buf buf s)) with (set_fs_buf buf' s).
    destruct (commit_slot s dir blk es buf buf' _ Hok Hda Hbuf Hr' Hroom) as (s' & Hlw & Hok' & Hda' & Hst).
    exists s', (<[j := None]> es), buf'. split_and!; [done..| |by eapply dir_map_unset].
    exists a. apply (dir_map_Some buf es name a Hr). eauto.
  - right. exists buf. split; [done|]. eapply dir_map_None; [done|]. intros i a. apply Hno. lia.
Qed.

Lemma add_dirent_spec s dir blk es name target dtype :
  fs_ok s → dir_at s dir blk es → name_good name → u32 target → target ≠ 0 → room s 1 →
  (∃ s' es' buf', add_dirent dir name target dtype s = (Ok tt, s') ∧ fs_ok s' ∧ dir_at s' dir blk es' ∧
     stepped s (set_blk blk buf') 1 s' ∧ dir_map es' = <[name := target]> (dir_map es)) ∨
  (∃ b, add_dirent dir name target dtype s = (Err NoSpace, set_fs_buf b s) ∧
     dir_map es !! name = None ∧ ∀ j, es !! j ≠ Some None).
Proof.
  intros Hok Hda Hn Hu Ht Hroom. pose proof (da_buf _ _ _ _ Hda) as (buf & Hbuf & Hr).
  destruct (dir_loaded s dir blk es buf Hok Hda Hbuf Hr) as (n & ib & Hri & Hix & Hld).
  destruct (v2_geometry s Hok) as (_ & Hdp & Hes & Hv).
  unfold add_dirent. rewrite (sm_bind_ok _ _ _ _ _ Hri), Hix, lift_bind.
  rewrite (proj2 (Z.eqb_neq blk 0)) by apply Hda.
  erewrite sm_bind_ok by reflexivity. rewrite !gets_bind. cbn [fs_version set_fs_buf].
  change (dirents_per_block (set_fs_buf ib s)) with (dirents_per_block s).
  change (entry_size (set_fs_buf ib s)) with (entry_size s). rewrite Hdp, Hes, Hv.
  rewrite (sm_bind_ok _ _ _ _ _ Hld), gets_bind. cbn [fs_buf set_fs_buf negb].
  change (Z.to_nat 102) with 102%nat. pose proof (dr_slots _ _ Hr). pose proof (dr_len _ _ Hr) as Hbl.
  pose proof (len_le_bytes 4 target) as H4. change (Z.of_nat 4) with 4 in H4.
  destruct (find_entry_spec buf es name 102 0 Hr Hn ltac:(lia)) as [(j & a & Hj & _ & E)|[E Hno]];
    change (Z.of_nat 0) with 0 in E; rewrite E, lift_bind.
  - left. pose proof (lookup_lt_Some _ _ _ Hj) as Hlt.
    destruct (slot_redirect buf j name a target dtype Hbl ltac:(lia) (dr_rep _ _ Hr j _ Hj) Hu Ht) as [Hso Hsr].
    set (buf' := wr _ [dtype] _) in *.
    assert (dir_rep buf' (<[j := Some (name, target)]> es)) as Hr'.
    { eapply dir_rep_update; try done. intros nm b [= <- <-] k c Hk. by eapply (dr_uniq _ _ Hr). }
    rewrite put_ok by lia. rewrite lift_bind, set_idx_wr, lift_bind, modify_bind by (rewrite len_wr; lia).
    fold buf'. change (set_fs_buf buf' (set_fs_buf buf s)) with (set_fs_buf buf' s).
    destruct (commit_slot s dir blk es buf buf' _ Hok Hda Hbuf Hr' Hroom) as (s' & Hlw & Hok' & Hda' & Hst).
    exists s', (<[j := Some (name, target)]> es), buf'. split_and!; [done..|].
    eapply dir_map_set; [done..|]. by intros ? ? [= -> _].
  - destruct (find_free_spec buf es 102 0 Hr ltac:(lia)) as [(j & Hj & Ef)|[Ef Hfull]];
      change (Z.of_nat 0) with 0 in Ef; rewrite Ef, lift_bind.
    + left. pose proof (lookup_lt_Some _ _ _ Hj) as Hlt.
      destruct (slot_new buf j name target dtype Hbl ltac:(lia) Hn Hu Ht) as [Hso Hsr].
      pose proof (len_padded name Hn) as Hp. pose proof Hn as [Hnl _].
      assert (Z.min (len name) ONYFS_NAME_MAX = len name) as -> by (unfold ONYFS_NAME_MAX; lia).
      rewrite slice_ok, Z.sub_0_r, rd_all, lift_bind by lia.
      rewrite put_ok by (rewrite ?len_zeros; unfold ONYFS_NAME_MAX; lia). rewrite lift_bind.
      assert (wr 0 name (zeros ONYFS_NAME_MAX) = padded name) as ->.
      { unfold wr, padded, ONYFS_NAME_MAX, zeros. change (Z.to_nat 0) with 0%nat. rewrite take_0, drop_replicate. cbn [app Nat.add]. do 2 f_equal. unfold len. lia. }
      set (buf' := wr _ [len name] _) in *.
      assert (dir_rep buf' (<[j := Some (name, target)]> es)) as Hr'.
      { eapply dir_rep_update; try done. intros nm b [= <- <-] k c Hk. exfalso. by apply (Hno k c); [lia|]. }
      set (o := Z.of_nat j * 40) in *. assert (0 ≤ o ∧ o + 40 ≤ 4096) as Ho by lia.
      assert (len (wr o (padded name) buf) = 4096) as L1 by (rewrite len_wr; lia).
      assert (len (wr (o + 32) (le_bytes 4 target) (wr o (padded name) buf)) = 4096) as L2 by (rewrite len_wr; lia).
      assert (len (wr (o + 36) [dtype] (wr (o + 32) (le_bytes 4 target) (wr o (padded name) buf))) = 4096) as L3
        by (rewrite len_wr; rewrite ?L2; change (len [dtype]) with 1; lia).
      rewrite put_ok by (unfold ONYFS_NAME_MAX; lia). rewrite lift_bind.
      rewrite put_ok by lia. rewrite lift_bind, set_idx_wr, bind_ok, set_idx_wr by lia.
      rewrite lift_bind, modify_bind. fold buf'.
      change (set_fs_buf buf' (set_fs_buf buf s)) with (set_fs_buf buf' s).
      destruct (commit_slot s dir blk es buf buf' _ Hok Hda Hbuf Hr' Hroom) as (s' & Hlw & Hok' & Hda' & Hst).
      exists s', (<[j := Some (name, target)]> es), buf'. split_and!; [done..|].
      eapply dir_map_set; [done..|]. by intros ? ? [=].
    + right. exists buf. split; [done|]. split.
      * eapply dir_map_None; [done|]. intros i a. apply Hno. lia.
      * intros j. apply Hfull. lia.
Qed.

Definition stat_of (ino : Z) (n : OnyfsInode) : OnyfsStat :=
  mkOnyfsStat ino (i_size n) (i_mode n) (i_mtime n) (i_atime n) (i_ctime n).

Lemma lookup_in_spec s dir blk es name :
  fs_ok s → dir_at s dir blk es →
  (dir_map es !! name = None → (lookup_in dir name s).1 = Err NoEnt) ∧
  ∀ ino ib n, dir_map es !! name = Some ino → inode_at s ino ib →
    decode_inode (rd (inode_off ino) 128 ib) = Ok n →
    (lookup_in dir name s).1 = Ok (ino, stat_of ino n).
Proof.
  intros Hok Hda. pose proof (da_buf _ _ _ _ Hda) as (buf & Hbuf & Hr).
  destruct (dir_loaded s dir blk es buf Hok Hda Hbuf Hr) as (n & ib & Hri & Hix & Hld).
  destruct (v2_geometry s Hok) as (_ & Hdp & _ & _).
  unfold lookup_in. rewrite (sm_bind_ok _ _ _ _ _ Hri), Hix, lift_bind.
  rewrite (proj2 (Z.eqb_neq blk 0)) by apply Hda.
  rewrite (sm_bind_ok _ _ _ _ _ Hld), !gets_bind. cbn [fs_buf fs_version set_fs_buf].
  change (dirents_per_block (set_fs_buf buf s)) with (dirents_per_block s). rewrite Hdp, (fo_ver _ Hok).
  change (Z.to_nat 102) with 102%nat. rewrite (search_spec buf es name Hr), lift_bind.
  split; [by intros ->|]. intros ino ib' n' -> Hat Hdec.
  erewrite sm_bind_ok; [done|]. unfold onyxfs_stat. erewrite sm_bind_ok; [done|].
  rewrite (read_inode_ok (set_fs_buf buf s) ino ib'); [by rewrite Hdec|apply fs_ok_buf; [done|apply Hr]|].
  destruct Hat. by constructor.
Qed.
