(* ===== verification/FsThms.v ===== *)
(** * Properties of OnyxFS

    Reading files, and module [FsTheorems] with the properties of inodes,
    directories, the journal and file reads. *)

From S2P Require Import Prelude Parser Formats FormatsProps Compress Onyxfs OnyxfsProps JournalProps DirProps.
From stdpp Require Import base list numbers gmap.
From Stdlib Require Import ZArith Lia.

Open Scope Z_scope.

(** ** Reading files *)

(** The blocks [bs] are mapped and hold [cs]. *)
Definition holds (s : Onyfs) (bs : list Z) (cs : list (list Z)) : Prop :=
  Forall2 (λ blk c, blk ≠ 0 ∧ block_at s blk = Some c) bs cs.

Lemma len_concat s bs cs : holds s bs cs → len (concat cs) = 4096 * len cs.
Proof.
  induction 1 as [|blk c bs cs [_ Hb] _ IH]; [done|]. cbn [concat].
  rewrite len_app, IH, (block_len _ _ _ Hb), len_cons. lia.
Qed.

Lemma read_blocks_spec bs cs rest : ∀ s off n acc,
  holds s bs cs → len (fs_buf s) = 4096 → 0 ≤ off → 0 ≤ n → off + n < 4294967296 →
  n = 0 ∨ off mod 4096 + n ≤ 4096 * len cs →
  (read_loop_blocks (bs ++ rest) off n acc s).1 = Ok (acc ++ rd (off mod 4096) n (concat cs)).
Proof.
  revert cs. induction bs as [|blk bs IH]; intros cs s off n acc Hh Hb Hoff Hn Hov Hfit.
  - apply Forall2_nil_inv_l in Hh as ->. change (len []) with 0 in Hfit.
    pose proof (Z.mod_pos_bound off 4096). assert (n = 0) as -> by lia. unfold rd. cbn [concat].
    rewrite drop_nil. cbn [take]. rewrite app_nil_r. by destruct rest.
  - apply Forall2_cons_inv_l in Hh as (c & cs' & [Hnz Hc] & Hh & ->).
    pose proof (block_len _ _ _ Hc) as Hcl. pose proof (len_concat _ _ _ Hh) as Hcc.
    pose proof (Z.mod_pos_bound off 4096 ltac:(lia)) as Hm. rewrite len_cons in Hfit.
    cbn [app read_loop_blocks]. rewrite (proj2 (Z.eqb_neq blk 0)), orb_false_r by done.
    destruct (Z.eqb_spec n 0) as [->|Hn0]; [unfold rd; by rewrite take_0, app_nil_r|].
    rewrite (sm_bind_ok _ _ _ _ _ (load_ok s blk c Hc Hb)), gets_bind. cbn [fs_buf set_fs_buf].
    unfold ONYFS_BLOCK_SIZE. rewrite slice_ok by lia. rewrite lift_bind.
    set (chunk := Z.min (4096 - off mod 4096) n) in *.
    replace (off mod 4096 + chunk - off mod 4096) with chunk by lia.
    rewrite w32_small by lia. cbn [concat].
    assert (rd (off mod 4096) n (c ++ concat cs') =
            rd (off mod 4096) chunk c ++ rd ((off + chunk) mod 4096) (n - chunk) (concat cs')) as Hrd.
    { replace n with (chunk + (n - chunk)) at 1 by lia. rewrite rd_split by lia.
      rewrite rd_app_l by lia. f_equal.
      destruct (decide (chunk = n)) as [->|Hne]; [rewrite Z.sub_diag; unfold rd; by rewrite !take_0|].
      assert (chunk = 4096 - off mod 4096) as Hck by lia.
      rewrite rd_app_r by lia. f_equal. rewrite Hcl.
      replace (off mod 4096 + chunk - 4096) with 0 by lia.
      replace (off + chunk) with ((off / 4096 + 1) * 4096) by (pose proof (Z.div_mod off 4096); lia).
      by rewrite Z.mod_mul. }
    rewrite Hrd, app_assoc. apply IH; [done|exact Hcl|lia..|].
    destruct (decide (chunk = n)) as [->|Hne]; [left; lia|right].
    assert (chunk = 4096 - off mod 4096) as Hck by lia.
    replace (off + chunk) with ((off / 4096 + 1) * 4096) by (pose proof (Z.div_mod off 4096); lia).
    rewrite Z.mod_mul by done. lia.
Qed.

(** What a read returns: the mapped data from [off mod 4096] on. *)
Lemma read_spec s ino ib n bs cs rest off rlen :
  fs_ok s → inode_at s ino ib → decode_inode (rd (inode_off ino) 128 ib) = Ok n →
  i_blocks n = bs ++ rest → holds s bs cs → 0 ≤ i_size n ≤ 4096 * len cs → len cs ≤ 10 →
  u32 off → u32 rlen →
  (onyxfs_read ino off rlen s).1 =
    Ok (rd (off mod 4096) (Z.min rlen (sat_sub (i_size n) off)) (concat cs)).
Proof.
  intros Hok Hat Hdec Hbs Hh Hsz Hc Hoff Hlen. unfold u32 in *. unfold onyxfs_read.
  erewrite sm_bind_ok by (rewrite (read_inode_ok s ino ib Hok Hat), Hdec; reflexivity).
  rewrite Hbs. rewrite (Z.min_l (i_size n)) by lia.
  pose proof (Z.mod_le off 4096 ltac:(lia) ltac:(lia)).
  rewrite (read_blocks_spec bs cs rest); [done|exact Hh|apply (block_len _ _ _ (ia_read _ _ _ Hat))|lia| | |];
    unfold sat_sub; lia.
Qed.

Module FsTheorems.

(** A disk of sixteen zeroed blocks: inode table in block 2, data bitmap in
    block 3, data from block 4, journal in blocks 10 to 14. *)
Definition demo_disk : gmap (Z * Z) (list Z) :=
  list_to_map (List.map (λ i, ((0, i), zeros 512)) (seqZ 0 128)).
Definition demo_sb : OnyfsSuper :=
  mkOnyfsSuper ONYFS_MAGIC 2 4096 16 32 2 3 4 1 0 0 10 5 0 0 0 (replicate 10 0).
Definition demo_fs : Onyfs := mkOnyfs 0 0 2 demo_sb (zeros 4096) 0 demo_disk 7.

(** The root directory is inode 1 with block 4; inode 2 is a file with blocks 5
    and 6. *)
Definition root_inode : OnyfsInode := mkOnyfsInode ONYFS_DT_DIR 0 0 0 2 (4 :: replicate 9 0) 0 0 0 0 0 0 0 0.
Definition file_inode : OnyfsInode := mkOnyfsInode 33188 8192 0 0 1 (5 :: 6 :: replicate 8 0) 0 0 0 0 0 0 0 0.
Definition demo_bytes (n : OnyfsInode) : list Z := match inode_to_bytes n with Ok b => b | _ => [] end.
Definition demo_table : list Z :=
  Eval vm_compute in (demo_bytes root_inode ++ demo_bytes file_inode ++ zeros 3840).
Definition demo_tree_disk : gmap (Z * Z) (list Z) :=
  (write_multi 0 16 0 8 demo_table (write_multi 0 40 0 8 (replicate 4096 97)
    (write_multi 0 48 0 8 (replicate 4096 98) demo_disk).2).2).2.
Definition demo_tree : Onyfs := set_fs_disk demo_tree_disk demo_fs.

#[local] Opaque demo_tree_disk demo_table.

Lemma demo_outside s b : fs_sb s = demo_sb → b < 10 → ¬ journal_blk s b.
Proof. intros E Hb [_ H]. rewrite E in H. cbn in H. lia. Qed.

Lemma demo_inode_blk ino : 1 ≤ ino ≤ 32 → inode_blk demo_tree ino = 2.
Proof.
  intros Hi. unfold inode_blk. change (sb_inode_table_start (fs_sb demo_tree)) with 2. rewrite Z.div_small; lia.
Qed.

Lemma demo_journal_blocks s :
  fs_sb s = demo_sb → fs_dev s = 0 → fs_lba_base s = 0 →
  (∀ i, 80 ≤ i < 120 → fs_disk s !! (0, i) = Some (zeros 512)) →
  ∀ b, journal_blk s b → is_Some (block_at s b).
Proof.
  intros E Ed El Hd b [_ Hb]. rewrite E in Hb. cbn in Hb. unfold block_at, blk_lba. rewrite Ed, El. cbn [sectors].
  rewrite !Hd by lia. eexists. reflexivity.
Qed.

Lemma demo_zero_sectors i : 0 ≤ i < 128 → demo_disk !! (0, i) = Some (zeros 512).
Proof.
  intros Hi. unfold demo_disk. apply elem_of_list_to_map_1.
  - rewrite <- list_fmap_compose. apply NoDup_fmap_2; [|apply NoDup_seqZ]. by intros ? ? [=].
  - apply list_elem_of_fmap. exists i. split; [done|]. apply elem_of_seqZ. lia.
Qed.

#[local] Opaque demo_disk.

Lemma demo_disk_ok d :
  (∀ i, 80 ≤ i < 120 → d !! (0, i) = Some (zeros 512)) → fs_ok (set_fs_disk d demo_fs).
Proof.
  intros Hd. constructor; [reflexivity|reflexivity|split; reflexivity || (cbn; lia)|cbn; lia|cbn; lia|cbn; lia|].
  by apply demo_journal_blocks.
Qed.

Lemma demo_fs_ok : fs_ok demo_fs.
Proof. apply (demo_disk_ok demo_disk). intros i Hi. apply demo_zero_sectors. lia. Qed.

Definition journal_sector_zero (k : Z) : bool :=
  bool_decide (demo_tree_disk !! (0, k + 80) = Some (zeros 512)).

Lemma demo_tree_ok : fs_ok demo_tree.
Proof.
  apply demo_disk_ok. intros i Hi.
  assert (forallb (λ k, journal_sector_zero (Z.of_nat k)) (seq 0 40) = true) as H by (vm_compute; reflexivity).
  pose proof (below_by_eval journal_sector_zero 40 H (i - 80) ltac:(lia)) as Hk. unfold journal_sector_zero in Hk.
  apply bool_decide_eq_true in Hk. by replace (i - 80 + 80) with i in Hk by lia.
Qed.

Lemma demo_table_block : block_at demo_tree 2 = Some demo_table.
Proof. vm_compute. reflexivity. Qed.

Lemma demo_inode_at ino : 1 ≤ ino ≤ 32 → inode_at demo_tree ino demo_table.
Proof.
  intros Hi. pose proof (demo_inode_blk ino Hi) as E.
  constructor; rewrite ?E; first [lia|apply demo_table_block|done].
Qed.

Lemma demo_empty_dir : dir_rep (zeros 4096) (replicate 102 None).
Proof.
  constructor; [done|done| |].
  - intros i e Hi. apply lookup_replicate in Hi as [-> Hi]. cbn [slot_rep]. unfold slot_ino, rd, zeros.
    rewrite drop_replicate, take_replicate.
    replace (Z.to_nat 4 `min` _)%nat with 4%nat by lia. done.
  - intros i j nm a b Hi. by apply lookup_replicate in Hi as [? _].
Qed.

Lemma demo_root_dir : dir_at demo_tree 1 4 (replicate 102 None).
Proof.
  constructor; [|done|by apply demo_outside|by apply demo_outside|by rewrite demo_inode_blk|].
  - exists demo_table, root_inode. split; [by apply demo_inode_at|]. split; vm_compute; reflexivity.
  - exists (zeros 4096). split; [vm_compute; reflexivity|]. apply demo_empty_dir.
Qed.

(** C28. The inode table is a store: after an inode is written, reading it gives
    it back (its change time apart, which has no place on disk) and reading
    every other inode gives what it gave before, whether the two share a block
    or not. *)
Theorem inode_store s ino n b :
  fs_ok s → inode_at s ino b → ¬ journal_blk s (inode_blk s ino) → room s 1 → inode_wf n →
  ∃ s', write_inode ino n s = (Ok tt, s') ∧ fs_ok s' ∧
    (read_inode ino s').1 = Ok (without_ctime n) ∧
    ∀ ino' b', ino' ≠ ino → inode_at s ino' b' → ¬ journal_blk s (inode_blk s ino') →
      (read_inode ino' s').1 = (read_inode ino' s).1.
Proof. apply write_inode_reads. Qed.

Lemma inode_store_witness :
  ∃ s', write_inode 3 file_inode demo_tree = (Ok tt, s') ∧ fs_ok s' ∧
    (read_inode 3 s').1 = Ok (without_ctime file_inode) ∧
    (read_inode 1 s').1 = (read_inode 1 demo_tree).1.
Proof.
  destruct (inode_store demo_tree 3 file_inode demo_table demo_tree_ok (demo_inode_at 3 ltac:(lia)))
    as (s' & H1 & H2 & H3 & H4).
  - apply demo_outside; [reflexivity|]. rewrite demo_inode_blk; lia.
  - right. cbn. lia.
  - unfold inode_wf; simpl; repeat split; try (unfold u32, u64; lia); repeat constructor; unfold u32; lia.
  - exists s'. split; [exact H1|]. split; [exact H2|]. split; [exact H3|].
    apply (H4 1 demo_table); [lia|apply demo_inode_at; lia|]. apply demo_outside; [reflexivity|]. rewrite demo_inode_blk; lia.
Defined.

(** C6. A directory block implements a finite map from names to inode numbers.
    Adding an entry updates the map, replacing an existing binding in place, and
    fails with ENOSPC only when the name is new and all 102 slots are taken;
    removing deletes the binding or fails with ENOENT when there is none;
    lookup returns the binding with the inode's metadata, or ENOENT.  Failures
    change nothing on disk, and no other block changes. *)
Theorem directory_refines_map s dir blk es name target dtype :
  fs_ok s → dir_at s dir blk es → name_good name → u32 target → target ≠ 0 → room s 1 →
  ((∃ s' es' buf', add_dirent dir name target dtype s = (Ok tt, s') ∧ fs_ok s' ∧ dir_at s' dir blk es' ∧
      stepped s (set_blk blk buf') 1 s' ∧ dir_map es' = <[name := target]> (dir_map es)) ∨
   (∃ b, add_dirent dir name target dtype s = (Err NoSpace, set_fs_buf b s) ∧
      dir_map es !! name = None ∧ ∀ j, es !! j ≠ Some None)) ∧
  ((∃ s' es' buf', remove_dirent dir name s = (Ok tt, s') ∧ fs_ok s' ∧ dir_at s' dir blk es' ∧
      stepped s (set_blk blk buf') 1 s' ∧ is_Some (dir_map es !! name) ∧
      dir_map es' = delete name (dir_map es)) ∨
   (∃ b, remove_dirent dir name s = (Err NoEnt, set_fs_buf b s) ∧ dir_map es !! name = None)) ∧
  (dir_map es !! name = None → (lookup_in dir name s).1 = Err NoEnt) ∧
  (∀ ino ib n, dir_map es !! name = Some ino → inode_at s ino ib →
     decode_inode (rd (inode_off ino) 128 ib) = Ok n → (lookup_in dir name s).1 = Ok (ino, stat_of ino n)).
Proof.
  intros Hok Hda Hn Hu Ht Hroom. split; [by apply add_dirent_spec|].
  split; [by apply remove_dirent_spec|by eapply lookup_in_spec].
Qed.

Lemma directory_refines_map_witness :
  (∃ s' es' buf', add_dirent 1 [97; 98] 2 8 demo_tree = (Ok tt, s') ∧ fs_ok s' ∧ dir_at s' 1 4 es' ∧
      stepped demo_tree (set_blk 4 buf') 1 s' ∧
      dir_map es' = <[[97; 98] := 2]> (dir_map (replicate 102 None))) ∨
  (∃ b, add_dirent 1 [97; 98] 2 8 demo_tree = (Err NoSpace, set_fs_buf b demo_tree) ∧
      dir_map (replicate 102 None) !! [97; 98] = None ∧
      ∀ j, (replicate 102 None : list (option (list Z * Z))) !! j ≠ Some None).
Proof.
  apply (directory_refines_map demo_tree 1 4 (replicate 102 None) [97; 98] 2 8 demo_tree_ok demo_root_dir);
    [|done|done|by right]. split; [by vm_compute|repeat constructor; lia].
Defined.

(** C16. The journal is a redo log.  Logging the writes of a transaction and
    committing it puts no data block at risk; and if the machine stops after the
    commit, whatever happened to the data blocks meanwhile, recovery of any disk
    that still has the journal gives every logged block the first 4088 bytes of
    the last data logged for it (the last 8 bytes are not protected), leaves
    every other block alone and clears the log. *)
Theorem journal_redoes_committed s ws :
  fs_ok s → no_journal (fs_sb s) = false → fs_journal_head s = 0 → ws ≠ [] →
  len ws < sb_journal_size (fs_sb s) → Forall (write_ok s) ws →
  ∃ s1, (log_all ws;; journal_commit) s = (Ok tt, s1) ∧ fs_ok s1 ∧ fs_journal_head s1 = 0 ∧
    (∀ b, ¬ journal_blk s b → block_at s1 b = block_at s b) ∧
    ∀ s2, fs_ok s2 → same_mount s1 s2 →
      (∀ b, journal_blk s1 b → block_at s2 b = block_at s1 b) →
      (∀ w, w ∈ ws → is_Some (block_at s2 w.1)) →
      ∃ s3, journal_recover s2 = (Ok tt, s3) ∧ fs_ok s3 ∧ fs_journal_head s3 = 0 ∧
        (∀ k, 0 ≤ k ≤ len ws → block_at s3 (sb_journal_start (fs_sb s) + k) = Some (zeros 4096)) ∧
        ∀ b old, ¬ journal_blk s b → block_at s2 b = Some old →
          ∃ c, block_at s3 b = Some c ∧ rd 4088 8 c = rd 4088 8 old ∧
            rd 0 4088 c = match final ws b with Some d => rd 0 4088 d | None => rd 0 4088 old end.
Proof.
  intros Hok Hn Hh Hne Hfit Hws.
  destruct (log_commit_ok s ws Hok Hn Hh Hne Hfit Hws) as (s1 & H1 & Hok1 & M1 & Hh1 & Hc & Hb).
  exists s1. split_and!; [done..|]. intros s2 Hok2 M2 Hj Hp.
  destruct (recover_ok s2 ws Hok2 (committed_crash s1 s2 ws Hc Hok1 M2 Hj Hp)) as (s3 & H3 & Hok3 & _ & Hh3 & Hb3 & Hz).
  exists s3. assert (same_mount s s2) as M by (by eapply same_mount_trans).
  split_and!; [done..| |].
  - intros k Hk. pose proof M as (_&_&_&E&_). rewrite <- E. by apply Hz.
  - intros b old Hnj Hold. rewrite (Hb3 b) by (by rewrite (journal_blk_same s s2)).
    destruct (redo_final ws (block_at s2) b old) as (c & Hcc & _ & Ht & Hd);
      [eapply Forall_impl; [exact Hws|]; by intros w (_&_&?&_)|done|by eapply block_len|].
    by exists c.
Qed.

Lemma journal_redoes_committed_witness :
  ∃ s1, (log_all [(4, replicate 4096 65); (5, replicate 4096 66)];; journal_commit) demo_fs = (Ok tt, s1) ∧
    fs_journal_head s1 = 0 ∧
    ∃ s3, journal_recover s1 = (Ok tt, s3) ∧
      ∃ c, block_at s3 4 = Some c ∧ rd 0 4088 c = rd 0 4088 (replicate 4096 65).
Proof.
  destruct (journal_redoes_committed demo_fs [(4, replicate 4096 65); (5, replicate 4096 66)])
    as (s1 & H1 & Hok1 & Hh1 & Hb1 & Hrec); [apply demo_fs_ok|done..| |].
  - assert (∀ b, 0 ≤ b < 10 → write_ok demo_fs (b, replicate 4096 65) ∧ write_ok demo_fs (b, replicate 4096 66)) as H.
    { intros b Hb. unfold write_ok. cbn [fst snd]. assert (u32 b) by (unfold u32; lia).
      assert (¬ journal_blk demo_fs b) by (apply demo_outside; [done|lia]).
      assert (is_Some (block_at demo_fs b)).
      { unfold block_at, blk_lba. cbn [demo_fs fs_disk fs_dev fs_lba_base sectors].
        rewrite !demo_zero_sectors by lia. by eexists. }
      by split_and!. }
    apply Forall_cons. split; [by apply H|]. apply Forall_cons. split; [by apply H|]. apply Forall_nil_2.
  - exists s1. split; [exact H1|]. split; [exact Hh1|].
    assert (∀ b, 0 ≤ b < 10 → block_at s1 b = Some (zeros 4096)) as Hz.
    { intros b Hb. rewrite Hb1 by (apply demo_outside; [done|lia]). unfold block_at, blk_lba.
      cbn [demo_fs fs_disk fs_dev fs_lba_base sectors]. rewrite !demo_zero_sectors by lia. done. }
    destruct (Hrec s1 Hok1 (same_mount_refl s1)) as (s3 & H3 & _ & _ & _ & Hd); [reflexivity| |].
    { intros w Hw. repeat (apply elem_of_cons in Hw as [->|Hw]; [rewrite Hz by (cbn; lia); eexists; reflexivity|]).
      apply elem_of_nil in Hw. destruct Hw. }
    exists s3. split; [exact H3|].
    destruct (Hd 4 (zeros 4096)) as (c & Hc & _ & Hr); [apply demo_outside; [reflexivity|lia]|apply Hz; lia|].
    exists c. split; [exact Hc|exact Hr].
Defined.

(** A commit marker outlives its transaction.  After a transaction of two
    writes was committed and its data written, the first entry of the next
    transaction overwrites entry 0 of the log while the old entry 1 and the old
    marker stand: if the machine stops there, recovery finds the old marker and
    applies the write that was never committed. *)
Theorem stale_commit_replays_uncommitted :
  let a := replicate 4096 65 in let b := replicate 4096 66 in let c := replicate 4096 67 in
  let s1 := ((log_all [(4, a); (5, b)];; write_block 4 a;; write_block 5 b;; journal_commit) demo_fs).2 in
  let '(r2, s2) := journal_log 4 c s1 in
  let '(r3, s3) := journal_recover s2 in
  r2 = Ok tt ∧ r3 = Ok tt ∧ fs_journal_head s1 = 0 ∧
  block_at s2 4 = Some a ∧ (rd 0 4088 <$> block_at s3 4) = Some (rd 0 4088 c).
Proof. vm_compute. split_and!; reflexivity. Qed.

(** What reading a file returns.  Whatever the offset, the data comes from
    the first mapped block on: a read at [off] returns the bytes at
    [off mod 4096] of the file, as many as the size leaves after [off].  This is
    the file's content at [off] for offsets in the first block only. *)
Theorem read_starts_at_first_block s ino ib n bs cs rest off rlen :
  fs_ok s → inode_at s ino ib → decode_inode (rd (inode_off ino) 128 ib) = Ok n →
  i_blocks n = bs ++ rest → holds s bs cs → 0 ≤ i_size n ≤ 4096 * len cs → len cs ≤ 10 →
  u32 off → u32 rlen →
  (onyxfs_read ino off rlen s).1 =
    Ok (rd (off mod 4096) (Z.min rlen (sat_sub (i_size n) off)) (concat cs)) ∧
  (off < 4096 → (onyxfs_read ino off rlen s).1 =
    Ok (rd off (Z.min rlen (sat_sub (i_size n) off)) (concat cs))).
Proof.
  intros. assert ((onyxfs_read ino off rlen s).1 =
    Ok (rd (off mod 4096) (Z.min rlen (sat_sub (i_size n) off)) (concat cs))) as E by (by eapply read_spec).
  split; [done|]. intros Hlt. rewrite E, Z.mod_small; [done|]. unfold u32 in *. lia.
Qed.

Lemma read_starts_at_first_block_witness :
  (onyxfs_read 2 4096 10 demo_tree).1 = Ok (rd (4096 mod 4096) 10 (replicate 4096 97 ++ replicate 4096 98)).
Proof.
  apply (read_starts_at_first_block demo_tree 2 demo_table file_inode [5; 6]
           [replicate 4096 97; replicate 4096 98] (replicate 8 0) 4096 10 demo_tree_ok).
  - by apply demo_inode_at.
  - vm_compute. reflexivity.
  - reflexivity.
  - constructor; [split; [done|vm_compute; reflexivity]|].
    constructor; [split; [done|vm_compute; reflexivity]|constructor].
  - done.
  - done.
  - done.
  - done.
Defined.

End FsTheorems.
