(* ===== verification/TrapThms.v ===== *)
(** * Theorems on traps, system calls and signals *)

From S2P Require Import Prelude Formats Vnode Process Sched SchedProps YieldProps Ipc Pmm PmmProps Vmm VmmProps VmmThms ReclaimProps Heap Onyxfs Fat32 Net Machine Procfs Vfs VfsProps Lifecycle Onx Syscall Trap ProcProps HandlerProps CallProps DispatchProps ExitProps.
From stdpp Require Import base list numbers gmap relations.
From Stdlib Require Import ZArith Lia.

Open Scope Z_scope.

(** ** The kernel as a transition system *)

(** What happens between two traps is up to the processes and the devices: they
    leave any frame behind, store to the memory the kernel does not own and feed the
    devices.  A trap is one step, if its outcome is defined.  The kernel takes the
    number of the hart from [tp], which the entry code leaves as the process had it:
    a process that changes [tp] is served as the process of another hart. *)
Definition seen_from (h : Z) (s : Machine) : Machine :=
  mkMachine h (m_proc_size s) (m_ipc s) (m_vm s) (m_heap s) (m_fs s) (m_fat s) (m_kfds s) (m_mounts s) (m_root_fs s)
    (m_dir s) (m_procbuf s) (m_upticks s) (m_online s) (m_uart_in s) (m_uart_out s) (m_tf s) (m_net s) (m_tick_polls s).

Definition trap_taken (scause sstatus : Z) : MM outcome := λ s,
  trap scause sstatus (seen_from (tf_tp (m_tf s)) s).

Inductive kstep : Machine → Machine → Prop :=
| step_frame tf s : kstep s (set_m_tf tf s)
| step_store a b s : kernel_owned s a 1 = false → kstep s (poke a b s)
| step_uart l s : kstep s (set_m_uart_in l s)
| step_ticks l s : kstep s (set_m_tick_polls l s)
| step_net n s : kstep s (set_m_net n s)
| step_trap scause sstatus s o s' : trap_taken scause sstatus s = (Ok o, s') → kstep s s'.

Lemma trap_machine_ok scause sstatus s : machine_ok s → machine_ok (trap scause sstatus s).2.
Proof.
  intros Hs. apply (trap_call machine_ok whatever scause sstatus); [done| |done].
  intros _ _. apply call_steady; [done|]. apply handle_any.
Qed.

Lemma kstep_machine_ok s s' : kstep s s' → machine_ok s → machine_ok s'.
Proof.
  intros [tf t|a b t _|u t|u t|n t|scause sstatus t o t' E] H; [done| |done..|].
  - destruct (poke_tables a b t) as (E1 & E2 & _). destruct H as [H1 H2]. split; [|by rewrite E2].
    unfold kernel in *. by rewrite E1.
  - pose proof (trap_machine_ok scause sstatus (seen_from (tf_tp (m_tf t)) t) H) as H'. unfold trap_taken in E.
    by rewrite E in H'.
Qed.

(** ** The end of a killed process *)

Lemma wp_trap_int s scause sstatus (P : outcome → Machine → Prop) :
  has scause SCAUSE_INT = true →
  wp (interrupt (Z.land scause (SCAUSE_INT - 1))) (λ _, wp trap_exit P) s → wp (trap scause sstatus) P s.
Proof. intros E H. unfold trap. rewrite E. apply wp_bind, wp_bind. eapply wp_mono; [exact H|]. intros u s' H'. by apply wp_ret. Qed.

(** A hart asked to switch. *)
Definition asked (h : Z) (k : Kernel) : Kernel := set_g_need_resched (<[Z.to_nat h := true]> (g_need_resched k)) k.

Lemma ask_ok k Q h : sched_ok k Q → 0 ≤ h < 8 → at_set g_need_resched set_g_need_resched h true k = (Ok tt, asked h k).
Proof. intros Hok Hh. unfold at_set. rewrite set_idx_ok; [done|]. unfold len. rewrite (ok_resched _ _ Hok). lia. Qed.

Lemma asked_sched k Q h : sched_ok k Q → sched_ok (asked h k) Q.
Proof. intros [[] ? ? ? ?]. split; [by split|done..|]. unfold asked. simpl. by rewrite length_insert. Qed.

Lemma asked_calm k Q l h : calm k Q l → calm (asked h k) Q l.
Proof. intros [H1 [? ? ?]]. split; [by apply asked_sched|by split]. Qed.

Lemma asked_exitable s p x Q l h : exitable s p x Q l → exitable (set_kernel (asked h (kernel s)) s) p x Q l.
Proof. intros [H1 H2 H3 ? ? ?]. split; [done|by apply asked_calm|done..]. Qed.

(** The parts of a machine [exitable] is about. *)
Lemma exitable_same s s' p x Q l :
  m_ipc s' = m_ipc s → m_vm s' = m_vm s → m_hart s' = m_hart s → exitable s p x Q l → exitable s' p x Q l.
Proof.
  intros E1 E2 E3 [H1 H2 H3 ? ? H6]. unfold alive, runs, kernel in *. split; unfold alive, runs, kernel; rewrite ?E1, ?E2, ?E3; done.
Qed.

(** An interrupt leaves processes, queues, page tables and the frame alone. *)
Lemma interrupt_spec s p x Q l code :
  exitable s p x Q l →
  wp (interrupt code) (λ _ s', exitable s' p x Q l ∧ m_hart s' = m_hart s ∧
    ∀ h, lock_of (kernel s') h = lock_of (kernel s) h) s.
Proof.
  intros H. unfold interrupt. destruct (code =? INTR_S_TIMER); [|by apply wp_ret].
  unfold timer_handle. apply wp_bind, wp_modify, wp_bind. eapply wp_Ok; [done|]. apply wp_bind, wp_gets, wp_on_k.
  pose proof (ex_alive _ _ _ _ _ H) as ((Hp & Hh & Hc & Hx) & Hs & _).
  match goal with |- wp _ _ ?k => change k with (kernel s) end.
  unfold sched_tick, current_for_hart, MAX_HARTS. cbn [m_hart set_m_fs set_m_upticks].
  rewrite (proj2 (Z.ltb_lt (m_hart s) 8)) by lia. apply wp_bind.
  eapply wp_Ok; [unfold at_; by rewrite (idx_ok _ _ _ Hc) by lia|]. rewrite (proj2 (Z.eqb_neq p 0) Hp).
  apply wp_bind. eapply wp_Ok; [by apply deref_ok|]. rewrite bool_decide_eq_false_2 by congruence.
  eapply wp_Ok; [eapply ask_ok; [apply (ex_calm _ _ _ _ _ H)|done]|]. split_and!; [|done|done].
  apply asked_exitable with (h := m_hart s) in H. by eapply exitable_same; [..|exact H].
Qed.

(** The process that runs on the hart is gone for good. *)
Definition finished (s : Machine) (p h : Z) (o : outcome) : Prop :=
  o ≠ Returned ∧ ∃ Q, sched_ok (kernel s) Q ∧ (p ∉ concat Q) ∧ (g_hart_current (kernel s) !! Z.to_nat h) ≠ Some p.

(** Marking the signal as taken leaves the process as it is otherwise. *)
Lemma exitable_put s p x y Q l :
  exitable s p x Q l → unlisted x y → p_state y = p_state x → p_pid y = p_pid x → p_fds y = p_fds x →
  p_root_pa y = p_root_pa x → exitable (set_proc p y s) p y Q l.
Proof.
  intros [(Hr & Hs & Hpid & Hfd) Hc Hu Hin Hon Hsp] Hl E1 E2 E3 E4. pose proof Hr as (_ & _ & _ & Hx). split.
  - split; [by eapply runs_set_proc|]. unfold fds_ok. by rewrite E1, E2, E3.
  - by eapply (calm_put _ Q l p x y).
  - intros q r z w. unfold set_proc, set_kernel, put_proc, kernel. simpl.
    assert (∀ i v, <[p:=y]> (g_procs (ipc_k (m_ipc s))) !! i = Some v →
      ∃ v', g_procs (kernel s) !! i = Some v' ∧ p_state v = p_state v' ∧ p_pid v = p_pid v') as Hold.
    { intros i v. destruct (decide (p = i)) as [<-|Hne].
      - rewrite lookup_insert_eq. intros E. injection E as <-. eauto.
      - rewrite lookup_insert_ne by done. eauto. }
    intros (z' & Hz & Ez & Pz)%Hold (w' & Hw & Ew & Pw)%Hold. rewrite Ez, Ew, Pz, Pw. by apply Hu.
  - done.
  - destruct Hl as [-> _]. done.
  - by rewrite E4.
Qed.

(** A process that has exited and whose hart is asked to switch. *)
Record dying (s s' : Machine) (p code : Z) (l : list Z) : Prop := {
  dy_state : ∃ Q sg, calm (kernel s') Q l ∧ gone (kernel s') Q p code sg;
  dy_current : g_hart_current (kernel s') = g_hart_current (kernel s);
  dy_lock : ∀ h, lock_of (kernel s') h = lock_of (kernel s) h;
  dy_hart : m_hart s' = m_hart s;
  dy_asked : g_need_resched (kernel s') !! Z.to_nat (m_hart s) = Some true }.

Lemma die_spec s p x Q l code :
  exitable s p x Q l → wp (die (m_hart s) (p_pid x) code) (λ _ s', dying s s' p code l) s.
Proof.
  intros H. unfold die. apply wp_bind. eapply wp_mono; [by apply (exit_spec s p x Q l)|]. intros u s1 H1.
  pose proof (ex_alive _ _ _ _ _ H) as ((_ & Hh & _) & _).
  destruct H1 as [(Q1 & Hc & Hg) (E1 & E2 & E3) Eh _]. apply wp_on_k.
  eapply wp_Ok; [eapply ask_ok; [apply Hc|done]|]. split; [|exact E1|exact E3|exact Eh|].
  - exists Q1, (signals_of x). split; [by apply asked_calm|exact Hg].
  - pose proof (ok_resched _ _ (ca_sched _ _ _ Hc)) as Hl. unfold asked, set_kernel, kernel in *. simpl.
    apply list_lookup_insert_eq. rewrite Hl. lia.
Qed.

Lemma killed_check s p x Q l :
  exitable s p x Q l → Z.land (p_pending_signals x) (sigbit SIG_KILL) ≠ 0 →
  wp signal_check (λ _ s', dying s s' p (128 + SIG_KILL) l) s.
Proof.
  intros H Hk. pose proof (ex_alive _ _ _ _ _ H) as ((Hp & Hh & Hc & Hx) & Hs & _).
  unfold signal_check. apply wp_bind, wp_gets, wp_bind, wp_on_k.
  unfold current_for_hart, MAX_HARTS. rewrite (proj2 (Z.ltb_lt (m_hart s) 8)) by lia.
  eapply wp_Ok; [unfold at_; by rewrite (idx_ok _ _ _ Hc) by lia|]. rewrite (proj2 (Z.eqb_neq p 0) Hp).
  apply wp_bind, wp_on_k. eapply wp_Ok; [by apply deref_ok|]. rewrite (proj2 (Z.eqb_neq _ 0) Hk). cbn [negb].
  apply wp_bind, wp_on_k. eapply wp_Ok; [by apply update_ok|].
  set (y := set_p_pending_signals _ x).
  assert (exitable (set_proc p y s) p y Q l) as Hy by (by eapply exitable_put).
  eapply wp_mono; [apply (die_spec (set_proc p y s) p y Q l _ Hy)|]. intros u s' [H1 H2 H3 H4 H5]. by split.
Qed.

(** What follows an exit the hart was told about. *)
Lemma dying_yields s s' p code l :
  dying s s' p code l → p ≠ 0 → 0 ≤ m_hart s < 8 → g_hart_current (kernel s) !! Z.to_nat (m_hart s) = Some p →
  lock_of (kernel s) (m_hart s) = Some false →
  wp yield (λ o s'', finished s'' p (m_hart s) o) s'.
Proof.
  intros [(Q & sg & Hc & Hg) E1 E2 E3 _] Hp Hh Hcur Hl. unfold yield. apply wp_bind, wp_gets, wp_bind, wp_gets, wp_on_k.
  eapply wp_mono; [eapply (yield_gone s' p code sg l Q); rewrite ?E1, ?E2, ?E3; done|].
  intros o k (Ho & Q' & H1 & H2 & H3). rewrite E3 in H3. split; [done|]. by exists Q'.
Qed.

(** A process that is not running has no pid, as far as [current_pid] goes. *)
Lemma cur_pid_stopped s p y :
  p ≠ 0 → 0 ≤ m_hart s → g_hart_current (kernel s) !! Z.to_nat (m_hart s) = Some p → g_procs (kernel s) !! p = Some y →
  p_state y ≠ Running → cur_pid s = (Ok 0, s).
Proof.
  intros Hp Hh Hc Hy Hs. unfold cur_pid. rewrite (sm_bind_ok _ _ s (m_hart s) s) by done. apply on_k_read.
  unfold current_pid, at_. unfold mbind, SM_bind at 1. rewrite (idx_ok _ _ _ Hc) by done.
  rewrite (proj2 (Z.eqb_neq p 0) Hp). unfold SM_bind. rewrite (deref_ok p y _ Hy). by rewrite decide_False.
Qed.

Lemma killed_exit s p x Q l :
  exitable s p x Q l → Z.land (p_pending_signals x) (sigbit SIG_KILL) ≠ 0 →
  lock_of (kernel s) (m_hart s) = Some false →
  wp trap_exit (λ o s', finished s' p (m_hart s) o) s.
Proof.
  intros H Hk Hl. pose proof (ex_alive _ _ _ _ _ H) as ((Hp & Hh & Hc & Hx) & _).
  unfold trap_exit. apply wp_bind. eapply wp_mono; [by eapply killed_check|]. intros u s1 Hd. cbv beta.
  pose proof Hd as [(Q1 & sg & Hca & Hnq & y & Hy & Hst & _) E1 _ Eh Ea].
  rewrite <- Eh, <- E1 in Hc. rewrite <- Eh in Ea.
  assert (current_exited s1 = (Ok false, s1)) as Hex.
  { unfold current_exited. rewrite (sm_bind_ok _ _ s1 0 s1); [done|].
    eapply cur_pid_stopped; [exact Hp|rewrite Eh; lia|exact Hc|exact Hy|congruence]. }
  apply wp_bind. eapply wp_Ok; [exact Hex|]. apply wp_bind, wp_gets, wp_bind, wp_on_k.
  eapply wp_Ok; [unfold at_; by rewrite (idx_ok _ _ _ Ea) by lia|].
  replace (set_kernel (kernel s1) s1) with s1 by (by destruct s1 as [? ? []]).
  rewrite E1, Eh in Hc. eapply dying_yields; [exact Hd|exact Hp|exact Hh|exact Hc|exact Hl].
Qed.

(** [signal_send] records the signal in any process in use, waking it if it waits. *)
Lemma signal_send_spec s q y Q l sig :
  calm (kernel s) Q l → pids_unique (kernel s) → q ∈ l → g_procs (kernel s) !! q = Some y → p_state y ≠ Free →
  0 ≤ m_hart s < 8 → 0 < sig < 32 →
  wp (signal_send (p_pid y) sig) (λ _ s', ∃ Q' y', calm (kernel s') Q' l ∧ g_procs (kernel s') !! q = Some y' ∧
    p_pid y' = p_pid y ∧ p_pending_signals y' = Z.lor (p_pending_signals y) (sigbit sig) ∧
    p_state y' = (if bool_decide (p_state y = Waiting) then Ready else p_state y)) s.
Proof.
  intros Hc Hu Hq Hy Hs Hh Hsig. unfold signal_send.
  rewrite (proj2 (Z.eqb_neq sig 0)), (proj2 (Z.leb_gt 32 sig)) by lia. cbn [orb].
  apply wp_bind. eapply wp_Ok; [apply on_k_read; eapply (by_pid_self _ l); [apply Hc|done..]|].
  destruct (all_linked_lookup _ _ _ (pl_linked _ _ (ca_list _ _ _ Hc)) Hq) as [Hq0 _].
  rewrite (proj2 (Z.eqb_neq q 0) Hq0). apply wp_bind, wp_on_k. eapply wp_Ok; [by apply update_ok|].
  set (y1 := set_p_pending_signals (Z.lor (p_pending_signals y) (sigbit sig)) y).
  match goal with |- wp _ _ ?s' => change s' with (set_proc q y1 s) end.
  destruct (calm_put _ Q l q y y1 Hc Hy ltac:(done)) as [Hc1 _].
  assert (g_procs (kernel (set_proc q y1 s)) !! q = Some y1) as Hy1 by (apply lookup_insert_eq).
  apply wp_bind. eapply wp_Ok; [apply on_k_read; by apply deref_ok|]. apply wp_bind, wp_gets.
  change (p_state y1) with (p_state y). case_bool_decide as Hw; [|apply wp_ret; by exists Q, y1].
  apply wp_on_k, wp_bind. eapply wp_Ok; [by apply update_ok|].
  destruct (calm_put _ Q l q y1 (set_p_state Ready y1) Hc1 Hy1 ltac:(done)) as [Hc2 _].
  eapply wp_mono; [eapply (calm_enqueue _ Q l _ q); [exact Hc2|exact Hh|apply lookup_insert_eq]|].
  intros u k' (Q' & Hc' & _ & _ & Hst). specialize (Hst q). simpl in Hst. rewrite lookup_insert_eq in Hst. simpl in Hst.
  destruct (g_procs k' !! q) as [z|] eqn:Hz; [|done]. apply (inj Some) in Hst. exists Q', z.
  split_and!; [done..| | |]; [apply (f_equal p_pid) in Hst|apply (f_equal p_pending_signals) in Hst|apply (f_equal p_state) in Hst];
    symmetry; exact Hst.
Qed.

Lemma on_k_update s p f x : g_procs (kernel s) !! p = Some x → on_k (update p f) s = (Ok tt, set_proc p (f x) s).
Proof. intros Hx. unfold on_k, on_ipc, onk. unfold kernel in Hx. by rewrite (update_ok p f x _ Hx). Qed.

Module TrapTheorems.

(** A machine with two user processes: 100 runs on hart 0, 200 waits in its queue. *)
Definition user_proc (pid ring next : Z) : Proc :=
  set_p_pid pid (set_p_ring ring (set_p_root_pa VmmTheorems.demo_root (set_p_heap_brk USER_HEAP_BASE
    (set_p_all_next next (set_p_parent_pid 1 Proc_new))))).
Definition proc_a : Proc := set_p_state Running (user_proc 7 2 200).
Definition proc_b : Proc := set_p_state Ready (set_p_on_rq true (user_proc 8 2 0)).
Definition user_kernel (a : Proc) : Kernel :=
  SchedTheorems.machine (<[100 := a]> (<[200 := proc_b]> ∅)) (mkRunQueue false 200 200 1).
Definition user_machine (a : Proc) (tf : TrapFrame) : Machine :=
  set_m_tf tf (set_m_ipc (mkIpc (user_kernel a) G_CHANNELS_init) (set_m_vm VmmTheorems.demo_vm VfsTheorems.demo_machine)).

Lemma user_kernel_ok a : unlisted proc_a a → p_affinity a < 8 → sched_ok (user_kernel a) SchedTheorems.demo_queues.
Proof.
  intros (E1 & E2 & E3 & E4) Ha. constructor; [constructor; [done| | | |]| |done..].
  - simpl. repeat constructor; try done. exists proc_b. done.
  - simpl. apply NoDup_singleton.
  - intros p x Hx Hon. simpl in *.
    apply lookup_insert_Some in Hx as [[<- <-]|[_ Hx]]; [rewrite E1 in Hon; done|].
    apply lookup_insert_Some in Hx as [[<- <-]|[_ Hx]]; [by left|done].
  - done.
  - intros p x Hx. simpl in Hx.
    apply lookup_insert_Some in Hx as [[<- <-]|[_ Hx]]; [done|].
    by apply lookup_insert_Some in Hx as [[<- <-]|[_ Hx]].
Qed.

(** Process 100 with some other fields. *)
Lemma user_exitable a tf :
  unlisted proc_a a → p_affinity a < 8 → p_state a = Running → p_pid a = 7 → p_fds a = p_fds proc_a →
  p_root_pa a = VmmTheorems.demo_root →
  exitable (user_machine a tf) 100 a SchedTheorems.demo_queues [100; 200].
Proof.
  intros Hl Ha Hs Hp Hf Hr. pose proof Hl as (E1 & E2 & E3 & E4). split.
  - split; [split_and!; try done; simpl; lia|]. split_and!; [done|lia|]. unfold fds_ok. rewrite Hf. split; [done|]. by repeat constructor.
  - split; [by apply user_kernel_ok|]. split; [done| |].
    + apply NoDup_cons. split; [set_solver|apply NoDup_singleton].
    + simpl. split_and!; [done| |done| |done]; eexists; (split; [reflexivity|done]).
  - intros p q x y Hx Hy _ _ E. simpl in Hx, Hy.
    apply lookup_insert_Some in Hx as [[<- <-]|[_ Hx]]; apply lookup_insert_Some in Hy as [[<- <-]|[_ Hy]]; [done| | |].
    + apply lookup_insert_Some in Hy as [[<- <-]|[_ Hy]]; [|done]. rewrite Hp in E. done.
    + apply lookup_insert_Some in Hx as [[<- <-]|[_ Hx]]; [|done]. rewrite Hp in E. done.
    + apply lookup_insert_Some in Hx as [[<- <-]|[_ Hx]]; [|done].
      by apply lookup_insert_Some in Hy as [[<- <-]|[_ Hy]].
  - left.
  - done.
  - rewrite Hr. eexists _, _. apply VmmTheorems.demo_vm_ok.
Qed.

(** ** Every reachable state *)

(** C1. Every process record stays well formed in every state that is reached by
    traps, whatever their causes, their frames and the hart number left in [tp], by
    stores of the processes to memory the kernel does not own and by input of the
    devices: the ring is a byte, the tables of signal handlers and descriptors have
    32 and 16 entries, the working directory fits its buffer, the signal sets are 32
    bits wide, the heap break is within the heap window and the affinity names a hart
    or none.  A trap counts if its outcome is defined: it does not panic, and no
    pointer of a call makes the kernel load from or store to its own data, which
    [sigaction_stores_unchecked] shows it does not prevent. *)
Theorem process_records_well_formed s s' : rtc kstep s s' → machine_ok s → machine_ok s'.
Proof. induction 1 as [|s1 s2 s3 H _ IH]; [done|]. intros Hs. apply IH. by eapply kstep_machine_ok. Qed.

Lemma user_machine_ok a tf : proc_ok a → machine_ok (user_machine a tf).
Proof.
  intros Ha. split; [|done]. unfold procs_ok. simpl. apply map_Forall_insert_2; [done|].
  apply map_Forall_insert_2; [|apply map_Forall_empty].
  split; simpl; unfold u32, USER_HEAP_BASE, USER_HEAP_SIZE, MAX_HARTS; (done || lia).
Qed.

Lemma proc_a_ok : proc_ok proc_a.
Proof. split; simpl; unfold u32, USER_HEAP_BASE, USER_HEAP_SIZE, MAX_HARTS; (done || lia). Qed.

(** The frame of a call at address 0x10000 with up to two arguments. *)
Definition call_frame (nr a0 a1 : Z) : TrapFrame :=
  mkTrapFrame 0 0x30000000 0 0 0 0 0 0 0 a0 a1 0 0 0 0 0 nr 0 0 0 0 0 0 0 0 0 0 0 0 0 0 0x10000 0 0 0 0.

(** A process raises its heap break and is then preempted. *)
Definition brk_call : TrapFrame := call_frame SYS_brk (USER_HEAP_BASE + 4096) 0.

Lemma process_records_well_formed_witness :
  let s := user_machine proc_a brk_call in
  machine_ok s ∧ machine_ok (trap_taken (SCAUSE_INT + INTR_S_TIMER) 0 (trap_taken CAUSE_U_ECALL 0 s).2).2.
Proof.
  cbv zeta. split; [exact (user_machine_ok proc_a brk_call proc_a_ok)|].
  apply (process_records_well_formed (user_machine proc_a brk_call));
    [|exact (user_machine_ok proc_a brk_call proc_a_ok)].
  assert (∃ o, (trap_taken CAUSE_U_ECALL 0 (user_machine proc_a brk_call)).1 = Ok o) as [o1 E1]
    by (vm_compute; eexists; reflexivity).
  assert (∃ o, (trap_taken (SCAUSE_INT + INTR_S_TIMER) 0 (trap_taken CAUSE_U_ECALL 0 (user_machine proc_a brk_call)).2).1 = Ok o)
    as [o E2] by (vm_compute; eexists; reflexivity).
  eapply rtc_l; [|eapply rtc_l; [|apply rtc_refl]].
  - apply (step_trap CAUSE_U_ECALL 0 _ o1). rewrite <- E1. apply surjective_pairing.
  - apply (step_trap (SCAUSE_INT + INTR_S_TIMER) 0 _ o). rewrite <- E2. apply surjective_pairing.
Defined.

(** ** Privilege *)

(** C2. A trap makes no process more privileged.  Where the process that is current
    on the hart named by [tp] is in one of the rings KERNEL, ROOT and USER (the ring
    is at most 2), every trap with a defined outcome, for any cause and with any
    frame, leaves every process with its pid and with a ring that is the same or less
    privileged; [exec] and [execve] of a ring 1 image and [dropring] included.  The
    two calls that create a process reuse freed memory for its record and are
    excluded.  The bound on the ring is needed: [dropring] accepts a ring above 2,
    and [exec] in such a ring loads a ring 1 image. *)
Theorem privilege_never_rises c s scause sstatus o s' :
  c ≤ PROC_RING_USER → on_ring c (seen_from (tf_tp (m_tf s)) s) → tf_a7 (m_tf s) ∉ [SYS_spawn; SYS_fork] →
  trap_taken scause sstatus s = (Ok o, s') → no_raise (kernel s) (kernel s').
Proof.
  intros Hc Hs Hnr E.
  destruct (trap_call (λ t, on_ring c t ∧ tf_a7 (m_tf t) ∉ [SYS_spawn; SYS_fork]) no_raise scause sstatus)
    with (s := seen_from (tf_tp (m_tf s)) s) as (_ & H & _); [by intros t [[H _] _]| |done|].
  - intros _ _ t [Ht Hn]. by apply (handle_ring c).
  - unfold trap_taken in E. by rewrite E in H.
Qed.

Lemma privilege_never_rises_witness :
  no_raise (kernel (user_machine proc_a (call_frame SYS_dropring 1 0)))
    (kernel (trap_taken CAUSE_U_ECALL 0 (user_machine proc_a (call_frame SYS_dropring 1 0))).2).
Proof.
  assert (∃ o, (trap_taken CAUSE_U_ECALL 0 (user_machine proc_a (call_frame SYS_dropring 1 0))).1 = Ok o) as [o E]
    by (vm_compute; eexists; reflexivity).
  apply (privilege_never_rises 2 _ CAUSE_U_ECALL 0 o);
    [unfold PROC_RING_USER; lia| | |rewrite <- E; apply surjective_pairing].
  - split; [exact (user_machine_ok proc_a _ proc_a_ok)|]. exists 100, proc_a. split; [|reflexivity].
    split; [lia|]. split; reflexivity.
  - vm_compute. intros H. repeat (apply elem_of_cons in H as [H|H]; [discriminate H|]). by apply not_elem_of_nil in H.
Defined.

(** The calls are numbered without gaps and each is on exactly one list. *)
Lemma access_lists : Permutation (ALL_RINGS ++ ROOT_ONLY) (seqZ 1 83).
Proof. apply (bool_decide_unpack _). vm_compute. exact Logic.I. Qed.

(** C24. The access list is the whole of it: the two lists contain each call number from 1
    to 83 exactly once, and a process outside the rings KERNEL and ROOT that makes
    any call that is not on the list for all rings gets -EPERM and nothing else in
    the machine changes. *)
Theorem acl_refuses s p x :
  Permutation (ALL_RINGS ++ ROOT_ONLY) (seqZ 1 83) ∧
  (cur_at s p x → PROC_RING_ROOT < p_ring x → tf_a7 (m_tf s) ∉ ALL_RINGS →
   handle s = (Ok (Reply (as_i64 Perm)), s)).
Proof.
  split; [apply access_lists|]. intros (Hp & Hc & Hx) Hr Ha. unfold handle.
  rewrite (sm_bind_ok _ _ s (m_tf s) s) by done. rewrite (sm_bind_ok _ _ s (p_ring x) s).
  - unfold syscall_allowed. rewrite bool_decide_eq_false_2 by done. case_bool_decide; [|done].
    by rewrite (proj2 (Z.leb_gt _ _)).
  - unfold cur_ring. rewrite (sm_bind_ok _ _ s (m_hart s) s) by done. apply on_k_read.
    unfold current_ring, at_. unfold mbind, SM_bind at 1. rewrite Hc. rewrite (proj2 (Z.eqb_neq p 0) Hp).
    unfold SM_bind. by rewrite (deref_ok p x _ Hx).
Qed.

Lemma acl_refuses_witness :
  Permutation (ALL_RINGS ++ ROOT_ONLY) (seqZ 1 83) ∧
  handle (user_machine proc_a (call_frame SYS_kill 1 9)) =
    (Ok (Reply (as_i64 Perm)), user_machine proc_a (call_frame SYS_kill 1 9)).
Proof.
  destruct (acl_refuses (user_machine proc_a (call_frame SYS_kill 1 9)) 100 proc_a) as [H1 H2]. split; [exact H1|].
  apply H2; [split; [lia|]; split; reflexivity|unfold PROC_RING_ROOT; simpl; lia|].
  vm_compute. intros H. repeat (apply elem_of_cons in H as [H|H]; [discriminate H|]). by apply not_elem_of_nil in H.
Defined.

(** ** Signals *)

(** C8. KILL cannot be escaped.  Sending it to any process in use succeeds and
    records the signal, whatever the process does; and once it is recorded in the
    process that runs on a hart, the next interrupt on that hart does not return to
    it, whatever its signal mask and its handlers are and even from inside a
    handler: its descriptors are closed, its memory is released, and it is neither
    queued nor current when the interrupt ends. *)
Theorem kill_is_final s Q l :
  (∀ q y, calm (kernel s) Q l → pids_unique (kernel s) → 0 ≤ m_hart s < 8 → q ∈ l → g_procs (kernel s) !! q = Some y →
     p_state y ≠ Free →
     wp (signal_send (p_pid y) SIG_KILL) (λ _ s', ∃ Q' y', calm (kernel s') Q' l ∧ g_procs (kernel s') !! q = Some y' ∧
       p_pid y' = p_pid y ∧ Z.land (p_pending_signals y') (sigbit SIG_KILL) ≠ 0) s) ∧
  (∀ p x scause sstatus, exitable s p x Q l → Z.land (p_pending_signals x) (sigbit SIG_KILL) ≠ 0 →
     lock_of (kernel s) (m_hart s) = Some false → has scause SCAUSE_INT = true →
     wp (trap scause sstatus) (λ o s', finished s' p (m_hart s) o) s).
Proof.
  split.
  - intros q y Hc Hu Hh Hq Hy Hs. eapply wp_mono; [eapply (signal_send_spec s q y Q l SIG_KILL); (done || unfold SIG_KILL; lia)|].
    intros u s' (Q' & y' & H1 & H2 & H3 & H4 & _). exists Q', y'. split_and!; [done..|]. rewrite H4. intros E.
    apply (f_equal (λ z, Z.testbit z 9)) in E. rewrite Z.land_spec, Z.lor_spec in E.
    change (Z.testbit (sigbit SIG_KILL) 9) with true in E. rewrite orb_true_r in E. discriminate E.
  - intros p x scause sstatus H Hk Hl Hi. apply wp_trap_int; [done|].
    eapply wp_mono; [by eapply (interrupt_spec s p x Q l)|]. intros u s1 (H1 & Eh & El). rewrite <- Eh.
    eapply killed_exit; [exact H1|exact Hk|]. by rewrite El, Eh.
Qed.

(** A process that blocks every signal and is inside a handler, with KILL pending. *)
Definition stubborn : Proc :=
  set_p_in_signal_handler true (set_p_signal_mask 4294967295 (set_p_pending_signals 512 proc_a)).

Lemma kill_is_final_witness :
  wp (trap (SCAUSE_INT + INTR_S_TIMER) 0)
     (λ o s', finished s' 100 0 o) (user_machine stubborn TrapFrame_zero).
Proof.
  apply (proj2 (kill_is_final (user_machine stubborn TrapFrame_zero) SchedTheorems.demo_queues [100; 200])) with (x := stubborn).
  - apply user_exitable; [done|simpl; lia|reflexivity..].
  - vm_compute. discriminate.
  - reflexivity.
  - reflexivity.
Defined.

(** ** Exit *)

Lemma cur_pid_running s p x : alive s p x → cur_pid s = (Ok (p_pid x), s).
Proof.
  intros ((Hp & Hh & Hc & Hx) & Hs & _). unfold cur_pid. rewrite (sm_bind_ok _ _ s (m_hart s) s) by done. apply on_k_read.
  unfold current_pid, at_. unfold mbind, SM_bind at 1. rewrite (idx_ok _ _ _ Hc) by lia.
  rewrite (proj2 (Z.eqb_neq p 0) Hp). unfold SM_bind. rewrite (deref_ok p x _ Hx). by rewrite decide_True.
Qed.

Lemma cur_ring_at s p x : runs s p x → cur_ring s = (Ok (p_ring x), s).
Proof.
  intros (Hp & Hh & Hc & Hx). unfold cur_ring. rewrite (sm_bind_ok _ _ s (m_hart s) s) by done. apply on_k_read.
  unfold current_ring, at_. unfold mbind, SM_bind at 1. rewrite (idx_ok _ _ _ Hc) by lia.
  rewrite (proj2 (Z.eqb_neq p 0) Hp). unfold SM_bind. by rewrite (deref_ok p x _ Hx).
Qed.

Lemma handle_exit s p x Q l :
  exitable s p x Q l → tf_a7 (m_tf s) = SYS_exit →
  wp handle (λ r s', r = Reply 0 ∧ exit_end s p (as_i32 (tf_a0 (m_tf s))) (signals_of x) l s') s.
Proof.
  intros H Ha. pose proof (ex_alive _ _ _ _ _ H) as Hal. unfold handle. apply wp_bind, wp_gets, wp_bind.
  eapply wp_Ok; [by eapply cur_ring_at, Hal|]. rewrite Ha. change (negb (syscall_allowed SYS_exit (p_ring x))) with false.
  unfold dispatch_call. change (SYS_exit =? SYS_write) with false. change (SYS_exit =? SYS_read) with false.
  change (SYS_exit =? SYS_exit) with true. cbv iota. unfold ret, sys_exit. apply wp_bind, wp_bind.
  eapply wp_Ok; [by eapply cur_pid_running|]. apply wp_bind. eapply wp_mono; [by eapply (exit_spec s p x Q l)|].
  intros u s' He. by apply wp_ret, wp_ret.
Qed.

(** Nothing is delivered to a process without pending signals. *)
Lemma no_signals s p y :
  p ≠ 0 → 0 ≤ m_hart s < 8 → g_hart_current (kernel s) !! Z.to_nat (m_hart s) = Some p → g_procs (kernel s) !! p = Some y →
  p_pending_signals y = 0 → signal_check s = (Ok tt, s).
Proof.
  intros Hp Hh Hc Hy E. unfold signal_check. rewrite (sm_bind_ok _ _ s (m_hart s) s) by done.
  rewrite (sm_bind_ok _ _ s p s).
  2: { apply on_k_read. unfold current_for_hart, MAX_HARTS. rewrite (proj2 (Z.ltb_lt (m_hart s) 8)) by lia.
       unfold at_. by rewrite (idx_ok _ _ _ Hc) by lia. }
  rewrite (proj2 (Z.eqb_neq p 0) Hp). rewrite (sm_bind_ok _ _ s y s) by (by apply on_k_read, deref_ok).
  rewrite E. change (negb (Z.land 0 (sigbit SIG_KILL) =? 0)) with false. cbv iota. by destruct (p_in_signal_handler y).
Qed.

(** A trap returns to the current process if no signal is pending, the process is
    not seen to have exited and no switch was asked for. *)
Lemma trap_exit_returns s p y :
  p ≠ 0 → 0 ≤ m_hart s < 8 → g_hart_current (kernel s) !! Z.to_nat (m_hart s) = Some p → g_procs (kernel s) !! p = Some y →
  p_pending_signals y = 0 → p_state y ≠ Running → g_need_resched (kernel s) !! Z.to_nat (m_hart s) = Some false →
  trap_exit s = (Ok Returned, s).
Proof.
  intros Hp Hh Hc Hy E Hs Hn. unfold trap_exit.
  rewrite (sm_bind_ok _ _ s tt s) by (by eapply no_signals). rewrite (sm_bind_ok _ _ s false s).
  2: { unfold current_exited. rewrite (sm_bind_ok _ _ s 0 s); [done|]. eapply cur_pid_stopped; (done || lia). }
  rewrite (sm_bind_ok _ _ s (m_hart s) s) by done. rewrite (sm_bind_ok _ _ s false s); [done|].
  apply on_k_read. unfold at_. by rewrite (idx_ok _ _ _ Hn) by lia.
Qed.

Lemma fault_code code sstatus s : has code SCAUSE_INT = false → Z.land code (SCAUSE_INT - 1) = code → is_fault code = true →
  cur_pid s = (Ok 0, s) → trap code sstatus s = (Ok Halted, s).
Proof.
  intros E1 E2 E3 E4. unfold trap. rewrite E1, E2. cbv zeta. unfold exception.
  destruct (Z.eqb_spec code CAUSE_U_ECALL) as [->|_]; [discriminate E3|]. rewrite E3.
  rewrite (sm_bind_ok _ _ s (Some Halted) s); [done|]. rewrite (sm_bind_ok _ _ s 0 s) by done. by rewrite orb_true_r.
Qed.

(** C30. [exit] comes back.  When no signal is pending and no switch was asked for, the
    trap of the exit call returns to the process that has just exited: its record
    says Exited, its descriptors are closed and its memory is released, but it is
    still the current process; and because it no longer counts as running, its next
    page fault is taken for one of the kernel and halts the machine. *)
Theorem exit_call_returns s p x Q l sstatus :
  exitable s p x Q l → tf_a7 (m_tf s) = SYS_exit → p_pending_signals x = 0 →
  g_need_resched (kernel s) !! Z.to_nat (m_hart s) = Some false →
  wp (trap CAUSE_U_ECALL sstatus) (λ o s', o = Returned ∧
    g_hart_current (kernel s') !! Z.to_nat (m_hart s') = Some p ∧
    (∃ y, g_procs (kernel s') !! p = Some y ∧ p_state y = Exited ∧ p_exit_code y = as_i32 (tf_a0 (m_tf s))) ∧
    ∀ sstatus', Forall (λ code, trap code sstatus' s' = (Ok Halted, s')) [CAUSE_INST_PF; CAUSE_LD_PF; CAUSE_ST_PF]) s.
Proof.
  intros H Ha Hsig Hn. pose proof (ex_alive _ _ _ _ _ H) as ((Hp & Hh & Hc & Hx) & _).
  unfold trap. change (has CAUSE_U_ECALL SCAUSE_INT) with false. change (Z.land CAUSE_U_ECALL (SCAUSE_INT - 1)) with CAUSE_U_ECALL.
  cbv zeta iota. apply wp_bind. unfold exception. change (CAUSE_U_ECALL =? CAUSE_U_ECALL) with true. cbv iota.
  apply wp_bind. eapply wp_mono; [by eapply handle_exit|]. intros r s1 (-> & [(Q1 & Hca & Hg) (E1 & E2 & _) Eh _]).
  apply wp_bind, wp_modify, wp_ret. set (s2 := set_m_tf _ s1).
  destruct Hg as (_ & y & Hy & Hst & Hco & Hsg). injection Hsg as Hpe _ _.
  change (kernel s1) with (kernel s2) in *. change (m_hart s1) with (m_hart s2) in *.
  rewrite <- E1, <- Eh in Hc. rewrite <- E2, <- Eh in Hn. rewrite <- Eh in Hh.
  eapply wp_Ok; [eapply (trap_exit_returns s2 p y); try done; congruence|].
  split; [done|]. split; [done|]. split; [eauto|]. intros ss.
  assert (cur_pid s2 = (Ok 0, s2)) as Hz by (eapply (cur_pid_stopped s2 p y); [done|lia|done..|congruence]).
  repeat constructor; by apply fault_code.
Qed.

(** Process 100 exits with status 3 while its hart has not been asked to switch. *)
Definition exiting : Machine :=
  let s := user_machine proc_a (call_frame SYS_exit 3 0) in
  set_kernel (set_g_need_resched (replicate 8 false) (kernel s)) s.

Lemma exit_call_returns_witness :
  wp (trap CAUSE_U_ECALL 0) (λ o s', o = Returned ∧
    g_hart_current (kernel s') !! Z.to_nat (m_hart s') = Some 100 ∧
    (∃ y, g_procs (kernel s') !! 100 = Some y ∧ p_state y = Exited ∧ p_exit_code y = 3) ∧
    ∀ sstatus', Forall (λ code, trap code sstatus' s' = (Ok Halted, s')) [CAUSE_INST_PF; CAUSE_LD_PF; CAUSE_ST_PF]) exiting.
Proof.
  apply (exit_call_returns exiting 100 proc_a SchedTheorems.demo_queues [100; 200] 0); [|reflexivity..].
  destruct (user_exitable proc_a (call_frame SYS_exit 3 0)) as [H1 [[[] ? ? ? ?] []] H3 H4 H5 H6]; [done|simpl; lia|reflexivity..|].
  split; [exact H1| |exact H3|exact H4|exact H5|exact H6]. split; [split; [by split|done..]|by split].
Defined.

(** ** Signal handlers *)

Lemma sigbit_off a i : 0 ≤ i → (Z.land a (sigbit i) =? 0) = negb (Z.testbit a i).
Proof.
  intros Hi. unfold sigbit. rewrite Z.shiftl_1_l. destruct (Z.testbit a i) eqn:E; simpl.
  - apply Z.eqb_neq. intros H. apply (f_equal (λ z, Z.testbit z i)) in H.
    rewrite Z.land_spec, E, Z.pow2_bits_true in H by done. rewrite Z.testbit_0_l in H. discriminate H.
  - apply Z.eqb_eq, Z.bits_inj'. intros j Hj. rewrite Z.land_spec, Z.testbit_0_l.
    destruct (decide (i = j)) as [<-|Hne]; [by rewrite E|]. rewrite Z.pow2_bits_false by done. apply andb_false_r.
Qed.

Lemma not32_bit z i : u32 z → 0 ≤ i < 32 → Z.testbit (not32 z) i = negb (Z.testbit z i).
Proof.
  unfold u32. intros Hz Hi. replace (not32 z) with (Z.lnot z mod 2 ^ 32).
  - rewrite Z.mod_pow2_bits_low by lia. apply Z.lnot_spec. lia.
  - unfold not32. pose proof (Z.add_lnot_diag z) as E. symmetry. apply (Z.mod_unique_pos _ _ (-1)); lia.
Qed.

Lemma lowest_least n : ∀ i pending j, 0 ≤ i ≤ j → j < i + Z.of_nat n → Z.testbit pending j = true →
  (∀ k, i ≤ k < j → Z.testbit pending k = false) → lowest n i pending = j.
Proof.
  induction n as [|n IH]; intros i pending j Hij Hn Hj Hlow; [lia|]. cbn [lowest]. rewrite sigbit_off by lia.
  destruct (decide (i = j)) as [->|Hne]; [by rewrite Hj|]. rewrite (Hlow i) by lia. apply IH; [lia..|done|]. intros k Hk. apply Hlow. lia.
Qed.

(** The signals that may be delivered to a process. *)
Definition deliverable (x : Proc) (i : Z) : bool :=
  Z.testbit (p_pending_signals x) i && negb (Z.testbit (p_signal_mask x) i).

(** The signal [check] picks. *)
Definition next_signal (x : Proc) (i : Z) : Prop :=
  1 ≤ i < 32 ∧ deliverable x i = true ∧ ∀ j, 1 ≤ j < i → deliverable x j = false.

Definition in_handler (i : Z) (tf : TrapFrame) (x : Proc) : Proc :=
  set_p_in_signal_handler true (set_p_saved_tf tf
    (set_p_pending_signals (Z.land (p_pending_signals x) (not32 (sigbit i))) x)).

Lemma picks x i : u32 (p_signal_mask x) → next_signal x i →
  lowest 31 1 (Z.land (p_pending_signals x) (not32 (p_signal_mask x))) = i ∧
  Z.land (p_pending_signals x) (not32 (p_signal_mask x)) ≠ 0.
Proof.
  intros Hm (Hi & Hd & Hlow).
  assert (∀ j, 0 ≤ j < 32 → Z.testbit (Z.land (p_pending_signals x) (not32 (p_signal_mask x))) j = deliverable x j) as Hb.
  { intros j Hj. rewrite Z.land_spec, not32_bit by done. done. }
  split.
  - apply lowest_least; [lia..|rewrite Hb by lia; done|]. intros k Hk. rewrite Hb by lia. apply Hlow. lia.
  - intros E. specialize (Hb i ltac:(lia)). rewrite E, Z.testbit_0_l, Hd in Hb. discriminate Hb.
Qed.

Lemma delivers s p x i handler :
  alive s p x → u32 (p_signal_mask x) → p_in_signal_handler x = false → Z.testbit (p_pending_signals x) SIG_KILL = false →
  next_signal x i → p_signal_handlers x !! Z.to_nat i = Some handler → 1 < handler →
  signal_check s = (Ok tt, set_m_tf (handler_frame handler i (m_tf s)) (set_proc p (in_handler i (m_tf s) x) s)).
Proof.
  intros ((Hp & Hh & Hc & Hx) & _) Hm Hin Hk Hn Hhd Hlt. destruct (picks x i Hm Hn) as [Hpick Hpe]. destruct Hn as (Hi & _).
  unfold signal_check. rewrite (sm_bind_ok _ _ s (m_hart s) s) by done.
  rewrite (sm_bind_ok _ _ s p s).
  2: { apply on_k_read. unfold current_for_hart, MAX_HARTS. rewrite (proj2 (Z.ltb_lt (m_hart s) 8)) by lia.
       unfold at_. by rewrite (idx_ok _ _ _ Hc) by lia. }
  rewrite (proj2 (Z.eqb_neq p 0) Hp). rewrite (sm_bind_ok _ _ s x s) by (by apply on_k_read, deref_ok).
  rewrite sigbit_off, Hk by (unfold SIG_KILL; lia). cbn [negb]. rewrite Hin. cbv zeta.
  rewrite (proj2 (Z.eqb_neq _ 0) Hpe), Hpick. rewrite (proj2 (Z.eqb_neq i 0)) by lia.
  set (y := set_p_pending_signals (Z.land (p_pending_signals x) (not32 (sigbit i))) x).
  rewrite (sm_bind_ok _ _ s tt (set_proc p y s)) by (by rewrite (on_k_update s p _ x)).
  rewrite (idx_ok _ _ _ Hhd) by lia. rewrite lift_bind.
  rewrite (proj2 (Z.eqb_neq handler 0)), (proj2 (Z.eqb_neq handler 1)) by lia.
  rewrite (sm_bind_ok _ _ _ (m_tf s) (set_proc p y s)) by done.
  rewrite (sm_bind_ok _ _ _ tt (set_proc p (in_handler i (m_tf s) x) s)); [done|].
  rewrite (on_k_update _ p _ y) by apply lookup_insert_eq. by rewrite set_proc_twice.
Qed.

Lemma returns_from s p x sstatus :
  alive s p x → p_in_signal_handler x = true → tf_a7 (m_tf s) = SYS_sigreturn →
  exception CAUSE_U_ECALL sstatus s =
    (Ok None, set_m_tf (set_tf_sepc (w64 (tf_sepc (p_saved_tf x) + 4)) (set_tf_a0 0 (p_saved_tf x)))
                (set_proc p (set_p_in_signal_handler false x) s)).
Proof.
  intros Hal Hin Ha. pose proof Hal as (Hr & Hs & _). pose proof Hr as (Hp & Hh & Hc & Hx).
  unfold exception. change (CAUSE_U_ECALL =? CAUSE_U_ECALL) with true. cbv iota.
  rewrite (sm_bind_ok _ _ s (Reply 0) (set_m_tf (p_saved_tf x) (set_proc p (set_p_in_signal_handler false x) s))); [done|].
  unfold handle. rewrite (sm_bind_ok _ _ s (m_tf s) s) by done.
  rewrite (sm_bind_ok _ _ s (p_ring x) s) by (by eapply cur_ring_at). rewrite Ha.
  change (negb (syscall_allowed SYS_sigreturn (p_ring x))) with false. cbv iota.
  assert (dispatch_call SYS_sigreturn (tf_a0 (m_tf s)) (tf_a1 (m_tf s)) (tf_a2 (m_tf s)) (tf_a3 (m_tf s)) =
    ret (sigreturn;; mret 0)) as -> by reflexivity.
  assert (cur_ptr s = (Ok p, s)) as Hptr by (rewrite cur_ptr_eq; by rewrite (idx_ok _ _ _ Hc) by lia).
  unfold ret, sigreturn, current, upd_current. unfold mbind, SM_bind. rewrite Hptr.
  rewrite (on_k_read _ _ _ (deref_ok p x _ Hx)). rewrite Hin. cbn [negb]. rewrite Hptr.
  by rewrite (on_k_update s p _ x Hx).
Qed.

(** C29. A signal handler runs in between.  When a trap ends and a signal other than KILL
    is pending and not blocked, the lowest one that is gets its handler entered with the
    frame saved in the process record and the signal no longer pending; the system call
    that ends the handler, whatever the handler did to its own frame, brings the saved
    frame back except that the call's own epilogue clears a0 and steps sepc past the
    instruction that was interrupted. *)
Theorem signal_handler_roundtrip s p x i handler tf sstatus :
  alive s p x → u32 (p_signal_mask x) → p_in_signal_handler x = false → Z.testbit (p_pending_signals x) SIG_KILL = false →
  next_signal x i → p_signal_handlers x !! Z.to_nat i = Some handler → 1 < handler → tf_a7 tf = SYS_sigreturn →
  let s1 := (signal_check s).2 in
  m_tf s1 = handler_frame handler i (m_tf s) ∧
  exception CAUSE_U_ECALL sstatus (set_m_tf tf s1) =
    (Ok None, set_m_tf (set_tf_sepc (w64 (tf_sepc (m_tf s) + 4)) (set_tf_a0 0 (m_tf s)))
                (set_proc p (set_p_in_signal_handler false (in_handler i (m_tf s) x)) s)).
Proof.
  intros Hal Hm Hin Hk Hn Hhd Hlt Ha s1.
  assert (s1 = set_m_tf (handler_frame handler i (m_tf s)) (set_proc p (in_handler i (m_tf s) x) s)) as E
    by (unfold s1; by rewrite (delivers s p x i handler)).
  rewrite E. split; [done|].
  rewrite (returns_from _ p (in_handler i (m_tf s) x)); [| |done|done].
  - f_equal. set (y := set_p_in_signal_handler false (in_handler i (m_tf s) x)).
    rewrite <- (set_proc_twice s p (in_handler i (m_tf s) x) y). reflexivity.
  - destruct Hal as (Hr & Hs & Hpid & Hf). split; [|done]. by apply (runs_set_proc s p x).
Qed.

(** Signals 2 and 3 are pending, 2 is blocked; the handler of 3 is at 0x10400. *)
Definition signalled : Proc :=
  set_p_signal_handlers (<[3%nat := 0x10400]> (replicate 32 0)) (set_p_signal_mask 4 (set_p_pending_signals 12 proc_a)).

Lemma signal_handler_roundtrip_witness :
  let s := user_machine signalled (call_frame 99 5 0) in
  m_tf (signal_check s).2 = handler_frame 0x10400 3 (m_tf s) ∧
  exception CAUSE_U_ECALL 0 (set_m_tf (call_frame SYS_sigreturn 0 0) (signal_check s).2) =
    (Ok None, set_m_tf (set_tf_sepc 0x10004 (set_tf_a0 0 (m_tf s)))
                (set_proc 100 (set_p_in_signal_handler false (in_handler 3 (m_tf s) signalled)) s)).
Proof.
  apply (signal_handler_roundtrip (user_machine signalled (call_frame 99 5 0)) 100 signalled 3 0x10400 (call_frame SYS_sigreturn 0 0) 0);
    [|unfold u32; simpl; lia|reflexivity|reflexivity| |reflexivity|lia|reflexivity].
  - apply (user_exitable signalled (call_frame 99 5 0)); [done|simpl; lia|reflexivity..].
  - split; [lia|]. split; [reflexivity|]. intros j Hj. assert (j = 1 ∨ j = 2) as [->| ->] by lia; reflexivity.
Defined.

(** [sigaction] stores the old handler, a value of the process's own, at the
    translation of any address it is given: whether a user may write there is not
    looked at. *)
Lemma sigaction_stores_unchecked s p x sig old pa h :
  cur_at s p x → 0 < sig < 32 → sig ∉ [SIG_KILL; SIG_STOP] → idx (p_signal_handlers x) sig = Ok h → old ≠ 0 → pa ≠ 0 →
  translate (p_root_pa x) old (m_vm s) = (Ok pa, m_vm s) →
  sigaction sig 0 old s =
    (store_pa 8 pa h;; store_pa 8 (pa + 8) 0;; store_pa 8 (pa + 16) 0;; store_pa 8 (pa + 24) 0) s.
Proof.
  intros (Hp & Hc & Hx) Hs [H9 [H19 _]%not_elem_of_cons]%not_elem_of_cons Hh Ho Hpa Ht.
  pose proof (current_eq s p x Hc Hx) as Hcur. unfold sigaction.
  rewrite (proj2 (Z.eqb_neq sig 0)), (proj2 (Z.leb_gt 32 sig)) by lia. cbn [orb].
  rewrite (proj2 (Z.eqb_neq sig SIG_KILL)), (proj2 (Z.eqb_neq sig SIG_STOP)) by done. cbn [orb].
  rewrite (sm_bind_ok _ _ s x s) by done. rewrite (sm_bind_ok _ _ s h s) by (unfold lift; by rewrite Hh).
  rewrite (proj2 (Z.eqb_neq old 0)) by done. cbn [negb].
  assert (translate_cur old s = (Ok pa, s)) as E.
  { unfold translate_cur. rewrite (sm_bind_ok _ _ s x s) by done. unfold on_vm. rewrite Ht. by destruct s. }
  unfold mbind at 1, SM_bind at 1. rewrite (sm_bind_ok _ _ s pa s E). rewrite (proj2 (Z.eqb_neq pa 0)) by done. cbn [negb].
  match goal with |- match ?r with _ => _ end = _ => destruct r as [[[]|e|] s1] end; reflexivity.
Qed.

(** So a process in any ring can write its own root page table through the kernel's
    mapping of it, where its own stores would fault: the handler it had installed
    becomes the entry of its first gigabyte. *)
Example sigaction_writes_page_table :
  let s := user_machine (set_p_signal_handlers (<[1%nat := 0xCF]> (p_signal_handlers proc_a)) proc_a) TrapFrame_zero in
  translate_user VmmTheorems.demo_root VmmTheorems.demo_root (m_vm s) = (Ok 0, m_vm s) ∧
  (sigaction 1 0 VmmTheorems.demo_root s).1 = Ok tt ∧
  head <$> vm_tabs (m_vm (sigaction 1 0 VmmTheorems.demo_root s).2) !! VmmTheorems.demo_root = Some (Some 0xCF).
Proof. split_and!; vm_compute; reflexivity. Qed.
End TrapTheorems.
