(* ===== verification/MemThms.v ===== *)
(** * The memory calls: heap breaks and anonymous mappings *)

From S2P Require Import Prelude Formats Vnode Process Sched SchedProps YieldProps Ipc Pmm PmmProps Vmm VmmProps VmmThms Heap Onyxfs Fat32 Net Machine Procfs Vfs VfsProps Lifecycle Onx Syscall Trap ExitProps TrapThms.
From stdpp Require Import base list numbers gmap.
From Stdlib Require Import ZArith Lia.

Open Scope Z_scope.

(** [va] belongs to the process: it has a mapping with the U bit. *)
Definition user_mapped (v : Vm) (root va : Z) : Prop :=
  ∃ pa flags, meaning v root va = Some (pa, flags) ∧ pte_user flags = true.

(** What making the pages of [va, va + n) present does. *)
Record provided (v v' : Vm) (root va n : Z) : Prop := {
  pv_mapped : ∀ a, va ≤ a < va + n → a mod 4096 = 0 → user_mapped v' root a;
  pv_kept : ∀ a, 0 ≤ a < 2 ^ 39 → ¬ (va ≤ a < va + n) → meaning v' root a = meaning v root a;
  pv_old : ∀ a, va ≤ a < va + n → a mod 4096 = 0 → user_mapped v root a →
    (∃ flags, meaning v root a = Some (0, flags)) ∨ meaning v' root a = meaning v root a }.

Lemma map_fresh_spec v root F fl va :
  vm_ok 2 v root F fl → 0 ≤ va → va mod 4096 = 0 → va + 4096 ≤ 2 ^ 39 →
  let r := map_fresh root va USER_RW v in
  ∃ F' fl', vm_ok 2 r.2 root F' fl' ∧
    match r.1 with
    | Ok _ => ∃ pa, same_on (meaning r.2 root) (remap (meaning v root) va 4096 pa USER_RW)
    | Err e => e = NoMem ∧ same_on (meaning r.2 root) (meaning v root)
    | Panic => False
    end.
Proof.
  intros Hok Hva Hal Hend. cbv zeta. unfold map_fresh.
  destruct (anon_page v root F fl Hok) as [E|(i & v1 & Hi & E & Hok1 & _ & _ & Hpp & Hpe & _ & Hm1)].
  { unfold mbind, SM_bind. rewrite E. exists F, fl. split; [done|]. split; [done|]. by intros a _. }
  rewrite (sm_bind_ok _ _ _ _ _ E).
  destruct (map_one_aligned 0 v1 root F (<[i:=true]> fl) va (page_addr (vm_pmm v) i) USER_RW) as (F2 & fl2 & Hok2 & _ & H2);
    [lia|done|by split|done..|].
  exists F2, fl2. split; [done|]. change (span 0) with 4096 in H2.
  destruct (map_one root va _ USER_RW 0 v1) as [[u|e|] v2]; cbn [fst snd] in *; [| |done].
  - exists (page_addr (vm_pmm v) i). intros a Ha. rewrite (H2 a Ha). unfold remap.
    change (Z.lor 1 USER_RW) with USER_RW. by rewrite Hm1.
  - destruct H2 as [-> H2]. split; [done|]. intros a Ha. by rewrite (H2 a Ha).
Qed.

Lemma translate_user_spec v root F fl va : vm_ok 2 v root F fl →
  ∃ t, translate_user root va v = (Ok t, v) ∧
    (t ≠ 0 → user_mapped v root va) ∧ (t = 0 → user_mapped v root va → ∃ flags, meaning v root va = Some (0, flags)).
Proof.
  intros Hok. unfold translate_user.
  rewrite (translate_from_spec 2 _ v root F va (le_n 2) (vo_tree _ _ _ _ _ Hok)). unfold answer, user_mapped, meaning.
  eexists. split; [reflexivity|]. destruct (resolve 2 (vm_tabs v) root va) as [[pa g]|]; simpl.
  - destruct (pte_user g) eqn:E; simpl.
    + split; [intros _; eauto|]. intros -> _. eauto.
    + split; [done|]. intros _ (? & ? & ? & ?). congruence.
  - split; [done|]. intros _ (? & ? & ? & _). done.
Qed.

Lemma only_page va a : va mod 4096 = 0 → va ≤ a < va + 4096 → a mod 4096 = 0 → a = va.
Proof. intros Hal Ha Hm. pose proof (Z.div_mod a 4096 ltac:(lia)). pose proof (Z.div_mod va 4096 ltac:(lia)). nia. Qed.

(** One round of the loop. *)
Lemma ensure_page v root F fl va t :
  vm_ok 2 v root F fl → 0 ≤ va → va mod 4096 = 0 → va + 4096 ≤ 549755813888 → translate_user root va v = (Ok t, v) →
  let r := (if t =? 0 then map_fresh root va USER_RW else mret tt) v in
  ∃ F' fl', vm_ok 2 r.2 root F' fl' ∧
    match r.1 with
    | Ok _ => provided v r.2 root va 4096
    | Err e => e = NoMem ∧ same_on (meaning r.2 root) (meaning v root)
    | Panic => False
    end.
Proof.
  intros Hok Hva Hal Hend Et. cbv zeta.
  destruct (translate_user_spec v root F fl va Hok) as (t' & Et' & Ht1 & Ht0). rewrite Et in Et'. injection Et' as <-.
  destruct (Z.eqb_spec t 0) as [Hz|Hz].
  - destruct (map_fresh_spec v root F fl va Hok Hva Hal Hend) as (F1 & fl1 & Hok1 & H1).
    exists F1, fl1. split; [done|]. destruct (map_fresh root va USER_RW v) as [[u|e|] v1]; cbn [fst snd] in *; [|done..].
    destruct H1 as [pa H1]. split.
    + intros a Ha Hm. apply (only_page va) in Hm as ->; [|done..]. exists (pa + (va - va)), USER_RW. split; [|done].
      rewrite (H1 va) by (change (2 ^ 39) with 549755813888; lia). unfold remap.
      by rewrite Z.leb_refl, (proj2 (Z.ltb_lt va (va + 4096))) by lia.
    + intros a Ha Hout. rewrite (H1 a Ha). unfold remap.
      destruct (Z.leb_spec va a), (Z.ltb_spec a (va + 4096)); cbn [andb]; done || lia.
    + intros a Ha Hm Hu. apply (only_page va) in Hm as ->; [|done..]. left. by apply Ht0.
  - exists F, fl. split; [done|]. split; [|done|auto].
    intros a Ha Hm. apply (only_page va) in Hm as ->; [|done..]. by apply Ht1.
Qed.

Lemma provided_cons v v1 v2 root va n :
  0 ≤ va → 0 ≤ n → va + 4096 + n ≤ 549755813888 →
  provided v v1 root va 4096 → provided v1 v2 root (va + 4096) n → provided v v2 root va (4096 + n).
Proof.
  intros Hva Hn Hend [A1 A2 A3] [B1 B2 B3]. change (2 ^ 39) with 549755813888 in *. split.
  - intros a Ha Hm. destruct (decide (a < va + 4096)) as [Hlt|Hge]; [|apply B1; [lia|done]].
    destruct (A1 a ltac:(lia) Hm) as (pa & g & Hpg). exists pa, g. rewrite B2 by lia. done.
  - intros a Ha Hout. change (2 ^ 39) with 549755813888 in *. rewrite B2, A2 by lia. done.
  - intros a Ha Hm Hu. destruct (decide (a < va + 4096)) as [Hlt|Hge].
    + rewrite B2 by lia. apply A3; [lia|done..].
    + assert (meaning v1 root a = meaning v root a) as Ea by (apply A2; lia). rewrite <- Ea.
      apply B3; [lia|done|]. destruct Hu as (pa & g & Hpg). exists pa, g. by rewrite Ea.
Qed.

Lemma ensure_loop_spec n : ∀ v root F fl va,
  vm_ok 2 v root F fl → 0 ≤ va → va mod 4096 = 0 → va + 4096 * Z.of_nat n ≤ 549755813888 →
  let r := ensure_loop n root va v in
  ∃ F' fl', vm_ok 2 r.2 root F' fl' ∧
    match r.1 with
    | Ok _ => provided v r.2 root va (4096 * Z.of_nat n)
    | Err e => e = NoMem ∧ outside (meaning r.2 root) (meaning v root) va (4096 * Z.of_nat n)
    | Panic => False
    end.
Proof.
  induction n as [|n IH]; intros v root F fl va Hok Hva Hal Hend; cbv zeta; cbn [ensure_loop].
  { exists F, fl. split; [done|]. simpl. split; [intros a ?; lia|done|intros a ?; lia]. }
  destruct (translate_user_spec v root F fl va Hok) as (t & Et & _). rewrite (sm_bind_ok _ _ _ _ _ Et).
  assert ((va + 4096) mod 4096 = 0) as Hal2 by (replace (va + 4096) with (va + 1 * 4096) by lia; by rewrite Z.mod_add).
  destruct (ensure_page v root F fl va t Hok Hva Hal ltac:(lia) Et) as (F1 & fl1 & Hok1 & H1).
  unfold mbind, SM_bind. destruct ((if t =? 0 then map_fresh root va USER_RW else mret tt) v) as [[u|e|] v1];
    cbn [fst snd] in *; [| |done].
  - destruct (IH v1 root F1 fl1 (va + 4096)) as (F2 & fl2 & Hok2 & H2); [done|lia|done|lia|].
    exists F2, fl2. split; [done|]. destruct (ensure_loop n root (va + 4096) v1) as [[u2|e|] v2]; cbn [fst snd] in *; [| |done].
    + replace (4096 * Z.of_nat (S n)) with (4096 + 4096 * Z.of_nat n) by lia. eapply provided_cons; [done|lia..|exact H1|exact H2].
    + destruct H2 as [-> H2]. split; [done|]. intros a Ha Hout.
      rewrite (H2 a Ha) by lia. apply (pv_kept _ _ _ _ _ H1); [done|lia].
  - exists F1, fl1. split; [done|]. destruct H1 as [-> H1]. split; [done|]. intros a Ha _. by apply H1.
Qed.

Lemma page_align_up_eq n : 0 ≤ n < 9223372036854775807 → page_align_up n = pages_up n.
Proof.
  intros Hn. unfold page_align_up, pages_up. rewrite w64_small by (unfold u64; lia).
  rewrite land_page_mask by (unfold u64; lia). pose proof (Z.div_mod (n + 0xFFF) 4096 ltac:(lia)). lia.
Qed.

Lemma current_value_eq s p x : runs s p x → current s = (Ok x, s).
Proof.
  intros (Hp & Hh & Hc & Hx). unfold current. rewrite (sm_bind_ok _ _ s p s).
  - by apply on_k_read, deref_ok.
  - rewrite cur_ptr_eq. by rewrite (idx_ok _ _ _ Hc) by lia.
Qed.

Lemma upd_current_eq s p x f : runs s p x → upd_current f s = (Ok tt, set_proc p (f x) s).
Proof.
  intros (Hp & Hh & Hc & Hx). unfold upd_current. rewrite (sm_bind_ok _ _ s p s).
  - by apply on_k_update.
  - rewrite cur_ptr_eq. by rewrite (idx_ok _ _ _ Hc) by lia.
Qed.

Lemma ensure_heap_pages_spec v root F fl old new :
  vm_ok 2 v root F fl → 0 ≤ old < new → new ≤ 274877906944 →
  let r := ensure_heap_pages root old new v in
  ∃ F' fl', vm_ok 2 r.2 root F' fl' ∧
    match r.1 with
    | Ok _ => provided v r.2 root (pages_up old) (pages_up new - pages_up old)
    | Err e => e = NoMem ∧ outside (meaning r.2 root) (meaning v root) (pages_up old) (pages_up new - pages_up old)
    | Panic => False
    end.
Proof.
  intros Hok Ho Hn. cbv zeta. unfold ensure_heap_pages. rewrite (proj2 (Z.leb_gt new old)) by lia. cbv zeta.
  rewrite !page_align_up_eq by lia.
  assert (pages_up old ≤ pages_up new) as Hle by (unfold pages_up; apply Zmult_le_compat_l; [apply Z.div_le_mono; lia|lia]).
  assert (4096 * Z.of_nat (Z.to_nat ((pages_up new - pages_up old) / 4096)) = pages_up new - pages_up old) as E.
  { revert Hle. unfold pages_up. intros Hle. rewrite <- Z.mul_sub_distr_l. rewrite (Z.mul_comm 4096 (_ - _)), Z.div_mul by done. lia. }
  pose proof (pages_up_bounds old). pose proof (pages_up_bounds new).
  destruct (ensure_loop_spec (Z.to_nat ((pages_up new - pages_up old) / 4096)) v root F fl (pages_up old))
    as (F' & fl' & Hok' & H'); [done|lia|unfold pages_up; rewrite Z.mul_comm; by apply Z.mod_mul|lia|].
  rewrite E in H'. eauto.
Qed.

Module MemTheorems.

(** C18. Moving the heap break: an address outside the heap window is refused and
    changes nothing; one inside either becomes the break, with every page
    between the two breaks mapped for the process and all the rest of its address
    space as it was (pages that were mapped already keep their contents), or is
    refused with ENOMEM when memory runs out, with the break where it was and
    nothing changed outside the range. *)
Theorem brk_provides_heap s p x F fl addr :
  alive s p x → vm_ok 2 (m_vm s) (p_root_pa x) F fl →
  USER_HEAP_BASE ≤ p_heap_brk x ≤ USER_HEAP_BASE + USER_HEAP_SIZE → 0 < addr →
  let r := sys_brk addr s in
  if decide (USER_HEAP_BASE ≤ addr ≤ USER_HEAP_BASE + USER_HEAP_SIZE) then
    ∃ F' fl', vm_ok 2 (m_vm r.2) (p_root_pa x) F' fl' ∧
      let old := pages_up (p_heap_brk x) in
      let n := pages_up addr - old in
      (r.1 = Ok addr ∧ kernel r.2 = kernel (set_proc p (set_p_heap_brk addr x) s) ∧
       if decide (p_heap_brk x < addr) then provided (m_vm s) (m_vm r.2) (p_root_pa x) old n else m_vm r.2 = m_vm s) ∨
      (r.1 = Ok (as_i64 NoMem) ∧ kernel r.2 = kernel s ∧
       outside (meaning (m_vm r.2) (p_root_pa x)) (meaning (m_vm s) (p_root_pa x)) old n)
  else r = (Ok (as_i64 NoMem), s).
Proof.
  intros (Hr & _) Hok Hb Ha. cbv zeta. unfold sys_brk. rewrite (sm_bind_ok _ _ _ _ _ (current_value_eq s p x Hr)).
  rewrite (proj2 (Z.eqb_neq addr 0)) by lia. unfold USER_HEAP_BASE, USER_HEAP_SIZE in *.
  case_decide as Hw.
  2: { destruct (Z.ltb_spec addr 0x1000000), (Z.ltb_spec (0x1000000 + 64 * 1024 * 1024) addr); done || lia. }
  rewrite (proj2 (Z.ltb_ge addr _)), (proj2 (Z.ltb_ge _ addr)) by lia. cbn [orb].
  unfold to_ret, catch. destruct (Z.ltb_spec (p_heap_brk x) addr) as [Hlt|Hge].
  - destruct (ensure_heap_pages_spec (m_vm s) (p_root_pa x) F fl (p_heap_brk x) addr Hok) as (F' & fl' & Hok' & H'); [lia..|].
    unfold mbind, SM_bind, on_vm. destruct (ensure_heap_pages _ _ _ _) as [[u|e|] v]; cbn [fst snd] in *; [| |done].
    + rewrite (upd_current_eq (set_m_vm v s) p x) by done. exists F', fl'. split; [done|]. left. by rewrite decide_True.
    + destruct H' as [-> H']. exists F', fl'. split; [done|]. by right.
  - unfold mbind, SM_bind. simpl. rewrite (upd_current_eq s p x) by done. exists F, fl. split; [done|]. left.
    by rewrite decide_False by lia.
Qed.

Lemma proc_a_exitable : exitable (TrapTheorems.user_machine TrapTheorems.proc_a TrapFrame_zero) 100 TrapTheorems.proc_a
  SchedTheorems.demo_queues [100; 200].
Proof. apply TrapTheorems.user_exitable; [done|simpl; lia|reflexivity..]. Qed.

(** Process 100 grows its heap by 5000 bytes: two pages. *)
Lemma brk_provides_heap_witness :
  let s := TrapTheorems.user_machine TrapTheorems.proc_a TrapFrame_zero in
  (sys_brk (USER_HEAP_BASE + 5000) s).1 = Ok (USER_HEAP_BASE + 5000) ∧
  provided (m_vm s) (m_vm (sys_brk (USER_HEAP_BASE + 5000) s).2) VmmTheorems.demo_root USER_HEAP_BASE 8192.
Proof.
  cbv zeta. assert ((sys_brk (USER_HEAP_BASE + 5000) (TrapTheorems.user_machine TrapTheorems.proc_a TrapFrame_zero)).1 =
    Ok (USER_HEAP_BASE + 5000)) as E by (vm_compute; reflexivity). split; [exact E|].
  pose proof (brk_provides_heap (TrapTheorems.user_machine TrapTheorems.proc_a TrapFrame_zero) 100 TrapTheorems.proc_a
    [VmmTheorems.demo_root] VmmTheorems.demo_fl (USER_HEAP_BASE + 5000)) as H.
  assert (p_heap_brk TrapTheorems.proc_a = USER_HEAP_BASE) as Eb by reflexivity.
  assert (p_root_pa TrapTheorems.proc_a = VmmTheorems.demo_root) as Er by reflexivity.
  assert (m_vm (TrapTheorems.user_machine TrapTheorems.proc_a TrapFrame_zero) = VmmTheorems.demo_vm) as Ev by reflexivity.
  rewrite Eb, Er, Ev in H.
  specialize (H (ex_alive _ _ _ _ _ proc_a_exitable) VmmTheorems.demo_vm_ok).
  assert (USER_HEAP_BASE ≤ USER_HEAP_BASE ≤ USER_HEAP_BASE + USER_HEAP_SIZE) as Hb by (unfold USER_HEAP_SIZE; lia).
  assert (0 < USER_HEAP_BASE + 5000) as Hp by (unfold USER_HEAP_BASE; lia).
  specialize (H Hb Hp). cbv zeta in H. rewrite decide_True in H by (unfold USER_HEAP_BASE, USER_HEAP_SIZE; lia).
  destruct H as (F' & fl' & _ & [(_ & _ & H)|(E' & _)]); [|rewrite E in E'; discriminate E'].
  rewrite decide_True in H by lia. rewrite Ev. exact H.
Defined.

Lemma bump_mmap_eq s p x size : runs s p x →
  bump_mmap size s = (Ok (p_mmap_brk x), set_proc p (set_p_mmap_brk (w64 (p_mmap_brk x + size)) x) s).
Proof.
  intros Hr. unfold bump_mmap. rewrite (sm_bind_ok _ _ _ _ _ (current_value_eq s p x Hr)).
  by rewrite (sm_bind_ok _ _ _ _ _ (upd_current_eq s p x _ Hr)).
Qed.

(** The region check of [mmap] asks for an address above 0x20000000 whose end is below
    the heap window, which starts at 0x01000000. *)
Lemma region_check_fails vaddr n : 0 ≤ vaddr → 0 ≤ n → vaddr + n < 18446744073709551616 →
  (vaddr <? MMAP_BASE) || (USER_HEAP_BASE <? w64 (vaddr + n)) = true.
Proof.
  intros. rewrite w64_small by (unfold u64; lia). unfold MMAP_BASE, USER_HEAP_BASE.
  destruct (Z.ltb_spec vaddr 0x20000000), (Z.ltb_spec 0x01000000 (vaddr + n)); done || lia.
Qed.

(** [mmap] never maps anything: for every hint, length and protection, and flags
    without FIXED, the answer is an error, even on an empty address space with all
    memory free, unless the end wraps around the address space. *)
Lemma mmap_never_succeeds s p x F fl addr length prot flags :
  alive s p x → vm_ok 2 (m_vm s) (p_root_pa x) F fl → 0 ≤ p_mmap_brk x < 4611686018427387904 →
  0 ≤ addr < 4611686018427387904 → 0 ≤ length < 4611686018427387904 → has flags 0x10 = false →
  ∃ e, (sys_mmap addr length prot flags s).1 = Ok (as_i64 e).
Proof.
  intros (Hr & _) Hok Hb Ha Hlen Hfix. unfold sys_mmap. destruct (Z.eqb_spec length 0) as [|Hl]; [by exists Inval|]. cbv zeta.
  rewrite (sm_bind_ok _ _ _ _ _ (current_value_eq s p x Hr)).
  assert (0 ≤ page_align_up (Z.max length 4096) ≤ 4611686018427387904 + 8192) as Hs.
  { rewrite page_align_up_eq by lia. pose proof (pages_up_bounds (Z.max length 4096)). lia. }
  set (size := page_align_up (Z.max length 4096)) in *. unfold to_ret, catch, mbind, SM_bind.
  pose proof (λ v H1 H2, region_check_fails v size H1 (proj1 Hs) H2) as Hreg.
  destruct (Z.eqb_spec addr 0) as [_|_].
  { rewrite (bump_mmap_eq s p x size Hr). rewrite Hreg by lia. by exists NoMem. }
  destruct (negb (Z.land addr 0xFFF =? 0)); [by exists Inval|]. rewrite Hfix.
  destruct (translate_user_spec (m_vm s) (p_root_pa x) F fl addr Hok) as (t & Et & _).
  unfold on_vm at 1. rewrite Et. destruct (negb (t =? 0)).
  - rewrite (bump_mmap_eq _ p x size) by done. rewrite Hreg by lia. by exists NoMem.
  - simpl. rewrite Hreg by lia. by exists NoMem.
Qed.

(** The [sbrk] call moves the break without mapping a page. *)
Lemma sbrk_maps_nothing s incr : m_vm (sys_sbrk incr s).2 = m_vm s.
Proof.
  unfold sys_sbrk, cur_pid, hart_id, on_k, on_ipc. unfold mbind, SM_bind, gets.
  repeat match goal with |- context [match onk ?m ?i with _ => _ end] => destruct (onk m i) as [[?|?|] ?]; simpl; try done end.
  destruct (_ =? 0); simpl; [done|].
  repeat match goal with |- context [match onk ?m ?i with _ => _ end] => destruct (onk m i) as [[?|?|] ?]; simpl; try done end.
  destruct (_ || _); simpl; [done|].
  by match goal with |- context [onk ?m ?i] => destruct (onk m i) as [[?|?|] ?] end.
Qed.
End MemTheorems.
