(* ===== verification/Sha256.v ===== *)
(** * init/src/auth.rs: SHA-256, hexadecimal, constant-time comparison

    The hash is fed byte by byte through a 64-byte buffer.  The buffers have
    fixed sizes in the source, so only the positions kept in variables can be out
    of range: those indices go through [set_idx]. *)

From S2P Require Import Prelude.
From stdpp Require Import base list numbers.
From Stdlib Require Import ZArith Lia.

Open Scope Z_scope.

(** The round constants, a row of eight after another. *)
Definition K : list Z :=
  [1116352408; 1899447441; 3049323471; 3921009573; 961987163; 1508970993; 2453635748; 2870763221] ++
  [3624381080; 310598401; 607225278; 1426881987; 1925078388; 2162078206; 2614888103; 3248222580] ++
  [3835390401; 4022224774; 264347078; 604807628; 770255983; 1249150122; 1555081692; 1996064986] ++
  [2554220882; 2821834349; 2952996808; 3210313671; 3336571891; 3584528711; 113926993; 338241895] ++
  [666307205; 773529912; 1294757372; 1396182291; 1695183700; 1986661051; 2177026350; 2456956037] ++
  [2730485921; 2820302411; 3259730800; 3345764771; 3516065817; 3600352804; 4094571909; 275423344] ++
  [430227734; 506948616; 659060556; 883997877; 958139571; 1322822218; 1537002063; 1747873779] ++
  [1955562222; 2024104815; 2227730452; 2361852424; 2428436474; 2756734187; 3204031479; 3329325298].

Definition rotr (x n : Z) : Z := Z.lor (Z.shiftr x n) (w32 (Z.shiftl x (w32 (32 - n)))).
Definition ch (x y z : Z) : Z := Z.lxor (Z.land x y) (Z.land (4294967295 - x) z).
Definition maj (x y z : Z) : Z := Z.lxor (Z.lxor (Z.land x y) (Z.land x z)) (Z.land y z).
Definition SIG0 (x : Z) : Z := Z.lxor (Z.lxor (rotr x 2) (rotr x 13)) (rotr x 22).
Definition SIG1 (x : Z) : Z := Z.lxor (Z.lxor (rotr x 6) (rotr x 11)) (rotr x 25).
Definition sigma0 (x : Z) : Z := Z.lxor (Z.lxor (rotr x 7) (rotr x 18)) (Z.shiftr x 3).
Definition sigma1 (x : Z) : Z := Z.lxor (Z.lxor (rotr x 17) (rotr x 19)) (Z.shiftr x 10).

Record Sha256State := mkSha {
  sh_state : list Z; sh_buf : list Z; sh_buf_len : Z; sh_total_len : Z }.

(** The message schedule: [w[0..16]] from the block, [w[t]] from the words before. *)
Fixpoint block_words (n : nat) (block : list Z) : list Z :=
  match n with
  | O => []
  | S n => be_val (take 4 block) :: block_words n (drop 4 block)
  end.
Definition w_next (w : list Z) : Z :=
  let at_ k := nth (length w - k) w 0 in
  w32 (w32 (w32 (sigma1 (at_ 2%nat) + at_ 7%nat) + sigma0 (at_ 15%nat)) + at_ 16%nat).
Fixpoint extend (n : nat) (w : list Z) : list Z :=
  match n with O => w | S n => extend n (w ++ [w_next w]) end.
Definition schedule (block : list Z) : list Z := extend 48 (block_words 16 block).

(** The working variables [a..h]. *)
Record Vars := mkVars { va : Z; vb : Z; vc : Z; vd : Z; ve : Z; vf : Z; vg : Z; vh : Z }.

Definition round (v : Vars) (kw : Z * Z) : Vars :=
  let t1 := w32 (w32 (w32 (w32 (vh v + SIG1 (ve v)) + ch (ve v) (vf v) (vg v)) + kw.1) + kw.2) in
  let t2 := w32 (SIG0 (va v) + maj (va v) (vb v) (vc v)) in
  mkVars (w32 (t1 + t2)) (va v) (vb v) (vc v) (w32 (vd v + t1)) (ve v) (vf v) (vg v).

Definition vars_of (s : list Z) : Vars :=
  let n i := nth i s 0 in mkVars (n 0%nat) (n 1%nat) (n 2%nat) (n 3%nat) (n 4%nat) (n 5%nat) (n 6%nat) (n 7%nat).
Definition vars_list (v : Vars) : list Z := [va v; vb v; vc v; vd v; ve v; vf v; vg v; vh v].

Definition sha256_compress (state block : list Z) : list Z :=
  let v := foldl round (vars_of state) (zip K (schedule block)) in
  zip_with (λ a b, w32 (a + b)) state (vars_list v).

Definition H0 : list Z :=
  [0x6a09e667; 0xbb67ae85; 0x3c6ef372; 0xa54ff53a; 0x510e527f; 0x9b05688c; 0x1f83d9ab; 0x5be0cd19].
Definition sha256_init : Sha256State := mkSha H0 (zeros 64) 0 0.

(** One byte of [sha256_update]. *)
Definition feed (s : Sha256State) (b : Z) : result Sha256State :=
  buf ← set_idx (sh_buf s) (sh_buf_len s) b;
  let n := sh_buf_len s + 1 in
  let total := w64 (sh_total_len s + 1) in
  mret (if n =? 64 then mkSha (sha256_compress (sh_state s) buf) buf 0 total
        else mkSha (sh_state s) buf n total).

Fixpoint sha256_update (s : Sha256State) (data : list Z) : result Sha256State :=
  match data with
  | [] => mret s
  | b :: data => s ← feed s b; sha256_update s data
  end.

(** [while buf_len % 64 != 56]: at most 128 rounds, since [buf_len <= 64]. *)
Fixpoint pad_loop (fuel : nat) (s : Sha256State) : result Sha256State :=
  if sh_buf_len s mod 64 =? 56 then mret s else
  match fuel with
  | O => Panic
  | S fuel =>
      let s := if sh_buf_len s =? 64
               then mkSha (sha256_compress (sh_state s) (sh_buf s)) (sh_buf s) 0 (sh_total_len s) else s in
      buf ← set_idx (sh_buf s) (sh_buf_len s) 0;
      pad_loop fuel (mkSha (sh_state s) buf (sh_buf_len s + 1) (sh_total_len s))
  end.

Definition sha256_final (s : Sha256State) : result (list Z) :=
  let bit_len := w64 (sh_total_len s * 8) in
  buf ← set_idx (sh_buf s) (sh_buf_len s) 0x80;
  s ← pad_loop 128 (mkSha (sh_state s) buf (sh_buf_len s + 1) (sh_total_len s));
  buf ← put (sh_buf s) 56 64 (be_bytes 8 bit_len);
  mret (concat (be_bytes 4 <$> sha256_compress (sh_state s) buf)).

Definition sha256 (data : list Z) : result (list Z) :=
  s ← sha256_update sha256_init data; sha256_final s.

(** ** Hexadecimal *)

Definition hex_chars : list Z :=
  [48; 49; 50; 51; 52; 53; 54; 55; 56; 57; 97; 98; 99; 100; 101; 102].
Definition hex_pair (b : Z) : list Z :=
  [nth (Z.to_nat (Z.shiftr b 4)) hex_chars 0; nth (Z.to_nat (Z.land b 0xF)) hex_chars 0].

(** At most 32 bytes are written to an array of 64 characters. *)
Definition bytes_to_hex (bytes : list Z) : list Z :=
  let h := concat (hex_pair <$> take 32 bytes) in h ++ replicate (64 - length h) 0.

Definition hex_val (c : Z) : Z :=
  if (48 <=? c) && (c <=? 57) then c - 48 else
  if (97 <=? c) && (c <=? 102) then c - 97 + 10 else
  if (65 <=? c) && (c <=? 70) then c - 65 + 10 else 0.

Fixpoint hex_bytes (n : nat) (hex : list Z) : list Z :=
  match n, hex with
  | S n, a :: b :: hex => Z.lor (w8 (Z.shiftl (hex_val a) 4)) (hex_val b) :: hex_bytes n hex
  | _, _ => []
  end.
Definition hex_decode_8 (hex : list Z) : list Z :=
  let d := hex_bytes 8 hex in d ++ replicate (8 - length d) 0.

(** ** Constant-time comparison *)

Definition const_time_eq (a b : list Z) : bool :=
  if negb (len a =? len b) then false else
  foldl (λ r p, Z.lor r (Z.lxor p.1 p.2)) 0 (zip a b) =? 0.

(** ** The padded message, hashed one block after the other *)

Definition padded (m : list Z) : list Z :=
  m ++ [0x80] ++ zeros ((55 - len m) mod 64) ++ be_bytes 8 (8 * len m).

Fixpoint hash_blocks (n : nat) (h m : list Z) : list Z :=
  match n with
  | O => h
  | S n => hash_blocks n (sha256_compress h (take 64 m)) (drop 64 m)
  end.

Definition blockwise (m : list Z) : list Z :=
  concat (be_bytes 4 <$> hash_blocks (Nat.div (length (padded m)) 64) H0 (padded m)).

Lemma hash_blocks_snoc n : ∀ h a blk, length a = (64 * n)%nat → length blk = 64%nat →
  hash_blocks (S n) h (a ++ blk) = sha256_compress (hash_blocks n h a) blk.
Proof.
  induction n as [|n IH]; intros h a blk Ha Hb.
  - apply nil_length_inv in Ha as ->. simpl. by rewrite take_ge by lia.
  - change (hash_blocks (S n) (sha256_compress h (take 64 (a ++ blk))) (drop 64 (a ++ blk)) =
            sha256_compress (hash_blocks n (sha256_compress h (take 64 a)) (drop 64 a)) blk).
    rewrite take_app_le, drop_app_le by lia. apply IH; [rewrite length_drop; lia|done].
Qed.

(** ** What the state of the hash stands for *)

(** All whole blocks of [m] are hashed and the rest waits in the buffer. *)
Record fed (m : list Z) (s : Sha256State) : Prop := {
  fed_buf : length (sh_buf s) = 64%nat;
  fed_split : ∃ n a r, m = a ++ r ∧ length a = (64 * n)%nat ∧ (length r ≤ 64)%nat ∧ sh_buf_len s = len r ∧
    take (length r) (sh_buf s) = r ∧ sh_state s = hash_blocks n H0 a }.

Lemma fed_init : fed [] sha256_init.
Proof. split; [done|]. exists 0%nat, [], []. by split_and!; simpl; try lia. Qed.

(** Storing a byte behind the [r] bytes that wait. *)
Lemma take_insert_snoc (buf r : list Z) b : (length r < length buf)%nat → take (length r) buf = r →
  take (S (length r)) (<[length r := b]> buf) = r ++ [b].
Proof.
  intros Hl Hr. erewrite take_S_r by (by apply list_lookup_insert_eq). by rewrite take_insert_ge, Hr.
Qed.

Lemma fed_store m s b : fed m s → sh_buf_len s < 64 →
  set_idx (sh_buf s) (sh_buf_len s) b = Ok (<[Z.to_nat (sh_buf_len s) := b]> (sh_buf s)) ∧
  ∀ t, fed (m ++ [b]) (mkSha (sh_state s) (<[Z.to_nat (sh_buf_len s) := b]> (sh_buf s)) (sh_buf_len s + 1) t).
Proof.
  intros [Hb (n & a & r & -> & Ha & Hr & El & Et & Es)] Hlt. rewrite El in *. unfold len in *. rewrite Nat2Z.id. split.
  { rewrite set_idx_ok; [by rewrite Nat2Z.id|]. unfold len. lia. }
  intros t. split; simpl; [by rewrite length_insert|]. exists n, a, (r ++ [b]).
  split_and!; [by rewrite app_assoc|done|rewrite length_app; simpl; lia|rewrite len_app; unfold len; simpl; lia| |done].
  rewrite length_app, Nat.add_1_r. apply take_insert_snoc; [lia|done].
Qed.

(** Hashing a full buffer. *)
Lemma fed_flush m s t : fed m s → sh_buf_len s = 64 →
  fed m (mkSha (sha256_compress (sh_state s) (sh_buf s)) (sh_buf s) 0 t).
Proof.
  intros [Hb (n & a & r & -> & Ha & Hr & El & Et & Es)] H64. rewrite El in H64. unfold len in H64.
  split; [done|]. exists (S n), (a ++ r), []. simpl. split_and!; [by rewrite app_nil_r|rewrite length_app; lia|lia|done|done|].
  assert (sh_buf s = r) as -> by (rewrite <- Et; symmetry; apply take_ge; lia).
  rewrite Es. symmetry. change (hash_blocks (S n) H0 (a ++ r) = sha256_compress (hash_blocks n H0 a) r).
  apply hash_blocks_snoc; lia.
Qed.

Lemma feed_spec m s b : fed m s → sh_buf_len s < 64 →
  ∃ s', feed s b = Ok s' ∧ fed (m ++ [b]) s' ∧ sh_buf_len s' < 64 ∧ sh_total_len s' = w64 (sh_total_len s + 1).
Proof.
  intros Hf Hlt. destruct (fed_store m s b Hf Hlt) as [E Hs]. unfold feed. rewrite E. simpl.
  destruct (Z.eqb_spec (sh_buf_len s + 1) 64) as [H64|H64].
  - eexists. split; [done|]. simpl. split; [|done]. by apply (fed_flush _ _ _ (Hs 0)).
  - eexists. split; [done|]. simpl. split; [apply Hs|]. split; [lia|done].
Qed.

Lemma update_spec data : ∀ m s, fed m s → sh_buf_len s < 64 → sh_total_len s = w64 (len m) →
  ∃ s', sha256_update s data = Ok s' ∧ fed (m ++ data) s' ∧ sh_buf_len s' < 64 ∧ sh_total_len s' = w64 (len (m ++ data)).
Proof.
  induction data as [|b data IH]; intros m s Hf Hlt Ht; simpl.
  - exists s. by rewrite app_nil_r.
  - destruct (feed_spec m s b Hf Hlt) as (s1 & E & H1 & H2 & H3). rewrite E. simpl.
    destruct (IH (m ++ [b]) s1 H1 H2) as (s2 & E2 & H4 & H5 & H6).
    { rewrite H3, Ht, len_app. unfold w64. by rewrite Zplus_mod_idemp_l. }
    exists s2. by rewrite <- app_assoc in H4, H6.
Qed.

Lemma pad_loop_spec k : ∀ fuel m s,
  fed m s → 0 < sh_buf_len s → (56 - sh_buf_len s) mod 64 = Z.of_nat k → (k ≤ fuel)%nat →
  ∃ s', pad_loop fuel s = Ok s' ∧ fed (m ++ replicate k 0) s' ∧ sh_buf_len s' = 56 ∧ sh_total_len s' = sh_total_len s.
Proof.
  induction k as [|k IH]; intros fuel m s Hf Hpos Hk Hfu.
  - assert (sh_buf_len s ≤ 64) as Hle by (destruct Hf as [_ (n & a & r & _ & _ & Hr & -> & _)]; unfold len; lia).
    assert (sh_buf_len s = 56) as E56.
    { pose proof (Z.div_mod (56 - sh_buf_len s) 64 ltac:(lia)). lia. }
    exists s. rewrite app_nil_r. destruct fuel; simpl; rewrite E56; done.
  - destruct fuel as [|fuel]; [lia|]. cbn [pad_loop].
    assert (sh_buf_len s ≤ 64) as Hle by (destruct Hf as [_ (n & a & r & _ & _ & Hr & -> & _)]; unfold len; lia).
    destruct (Z.eqb_spec (sh_buf_len s mod 64) 56) as [E|_].
    { assert (sh_buf_len s = 56) as E56 by (pose proof (Z.div_mod (sh_buf_len s) 64 ltac:(lia)); lia).
      rewrite E56 in Hk. change ((56 - 56) mod 64) with 0 in Hk. lia. }
    set (s1 := if sh_buf_len s =? 64 then _ else s).
    assert (fed m s1 ∧ 0 ≤ sh_buf_len s1 < 64 ∧ (56 - (sh_buf_len s1 + 1)) mod 64 = Z.of_nat k ∧ sh_total_len s1 = sh_total_len s)
      as (Hf1 & Hlt & Hk1 & Ht1).
    { unfold s1. destruct (Z.eqb_spec (sh_buf_len s) 64) as [E|E]; simpl.
      - rewrite E in Hk. change ((56 - 64) mod 64) with 56 in Hk. split_and!; [by apply fed_flush|lia|lia| |done].
        transitivity 55; [reflexivity|lia].
      - split_and!; [done|lia|lia| |done].
        pose proof (Z.div_mod (56 - sh_buf_len s) 64 ltac:(lia)). pose proof (Z.mod_pos_bound (56 - sh_buf_len s) 64 ltac:(lia)). symmetry.
        apply (Z.mod_unique_pos _ _ ((56 - sh_buf_len s) / 64)); lia. }
    destruct (fed_store m s1 0 Hf1 ltac:(lia)) as [E Hs]. rewrite E. simpl.
    destruct (IH fuel (m ++ [0]) (mkSha (sh_state s1) (<[Z.to_nat (sh_buf_len s1) := 0]> (sh_buf s1)) (sh_buf_len s1 + 1) (sh_total_len s1)))
      as (s' & E' & H1 & H2 & H3); [apply Hs|simpl; lia|done|lia|].
    exists s'. rewrite <- app_assoc in H1. split_and!; [done..|]. rewrite H3. exact Ht1.
Qed.

Lemma length_be_bytes n z : length (be_bytes n z) = n.
Proof. unfold be_bytes. by rewrite length_reverse, length_le_bytes. Qed.

(** The last block: 56 bytes that wait, then the length. *)
Lemma final_spec m s : fed m s → sh_buf_len s < 64 → len m < 2305843009213693952 → sh_total_len s = len m →
  sha256_final s = Ok (blockwise m).
Proof.
  intros Hf Hlt Hm Ht. unfold sha256_final. destruct (fed_store m s 0x80 Hf Hlt) as [E Hs]. cbv zeta. rewrite E, bind_ok.
  set (s1 := mkSha _ _ _ _). specialize (Hs (sh_total_len s)). fold s1 in Hs.
  assert (∃ n a r, m = a ++ r ∧ length a = (64 * n)%nat ∧ sh_buf_len s = len r) as (n0 & a0 & r0 & Em & Ha0 & El)
    by (destruct Hf as [_ (n & a & r & ? & ? & _ & ? & _)]; by exists n, a, r).
  assert (0 ≤ sh_buf_len s) as H0 by (rewrite El; apply len_nonneg).
  set (k := Z.to_nat ((55 - len m) mod 64)).
  assert (Z.of_nat k = (55 - len m) mod 64) as Ek by (unfold k; rewrite Z2Nat.id; [done|apply Z.mod_pos_bound; lia]).
  destruct (pad_loop_spec k 128 (m ++ [0x80]) s1 Hs) as (s2 & E2 & Hf2 & H56 & Ht2).
  { simpl. lia. }
  { rewrite Ek. simpl. rewrite El. subst m. rewrite len_app. unfold len at 2. rewrite Ha0.
    replace (55 - (Z.of_nat (64 * n0) + len r0)) with (56 - (len r0 + 1) + (- Z.of_nat n0) * 64) by lia. by rewrite Z.mod_add. }
  { pose proof (Z.mod_pos_bound (55 - len m) 64 ltac:(lia)). lia. }
  rewrite E2, bind_ok. destruct Hf2 as [Hb (n & a & r & Er & Ha & Hr & El2 & Et & Es)]. rewrite El2 in H56. unfold len in H56.
  rewrite put_ok; [|lia|lia|unfold len; lia|unfold len; by rewrite length_be_bytes]. rewrite bind_ok. unfold mret, result_ret.
  assert (padded m = a ++ (r ++ be_bytes 8 (8 * len m))) as Ep.
  { unfold padded. change (zeros ((55 - len m) mod 64)) with (replicate k 0). by rewrite !app_assoc, <- Er, <- !app_assoc. }
  assert (length (r ++ be_bytes 8 (8 * len m)) = 64%nat) as Hblk by (rewrite length_app, length_be_bytes; lia).
  unfold blockwise. rewrite Ep. rewrite length_app, Hblk, Ha.
  replace (64 * n + 64)%nat with (S n * 64)%nat by lia. rewrite Nat.div_mul by done.
  rewrite hash_blocks_snoc, <- Es by done. do 4 f_equal. unfold wr. rewrite length_be_bytes.
  change (Z.to_nat 56) with 56%nat. rewrite drop_ge by lia. rewrite app_nil_r.
  replace 56%nat with (length r) by lia. rewrite Et. do 2 f_equal. rewrite Ht. pose proof (len_nonneg m).
  rewrite w64_small by lia. lia.
Qed.

Lemma sha256_ok m : len m < 2305843009213693952 → sha256 m = Ok (blockwise m).
Proof.
  intros Hm. unfold sha256. destruct (update_spec m [] sha256_init fed_init) as (s & E & H1 & H2 & H3); [done|done|].
  rewrite E, bind_ok. rewrite app_nil_l in *. apply final_spec; [done|done|done|]. rewrite H3. pose proof (len_nonneg m). apply w64_small. lia.
Qed.

Lemma length_compress h b : length h = 8%nat → length (sha256_compress h b) = 8%nat.
Proof. intros H. unfold sha256_compress. rewrite length_zip_with, H. done. Qed.

Lemma length_hash_blocks n : ∀ h m, length h = 8%nat → length (hash_blocks n h m) = 8%nat.
Proof. induction n as [|n IH]; intros h m H; simpl; [done|]. by apply IH, length_compress. Qed.

Lemma length_concat_be k ws : length (concat (be_bytes k <$> ws)) = (k * length ws)%nat.
Proof. induction ws as [|w ws IH]; [simpl; lia|]. rewrite fmap_cons. cbn [concat length]. rewrite length_app, length_be_bytes, IH. lia. Qed.

Lemma length_blockwise m : length (blockwise m) = 32%nat.
Proof. unfold blockwise. by rewrite length_concat_be, length_hash_blocks. Qed.

Lemma sha_bytes_u8 n z : Forall u8 (be_bytes n z).
Proof. unfold be_bytes. rewrite Forall_reverse. apply le_bytes_u8. Qed.

Lemma blockwise_u8 m : Forall u8 (blockwise m).
Proof.
  unfold blockwise. apply Forall_concat, Forall_fmap, Forall_forall. intros w _. apply sha_bytes_u8.
Qed.

(** ** Hexadecimal and comparison *)

Lemma hex_pair_inverse b : u8 b → ∃ c d, hex_pair b = [c; d] ∧ Z.lor (w8 (Z.shiftl (hex_val c) 4)) (hex_val d) = b ∧
  (48 ≤ c ≤ 102 ∧ 48 ≤ d ≤ 102) ∧ c ≠ 58 ∧ d ≠ 58.
Proof.
  intros Hb. set (P := λ b, match hex_pair b with
    | [c; d] => (Z.lor (w8 (Z.shiftl (hex_val c) 4)) (hex_val d) =? b) && ((48 <=? c) && (c <=? 102) && ((48 <=? d) && (d <=? 102)))
                && (negb (c =? 58) && negb (d =? 58))
    | _ => false end).
  assert (P b = true) as H by (apply (below_by_eval P 256); [vm_compute; reflexivity|unfold u8 in Hb; lia]).
  unfold P in H. destruct (hex_pair b) as [|c [|d [|]]]; try discriminate H. exists c, d. bool_prop. split_and!; (done || lia).
Qed.

Lemma hex_bytes_inverse l : Forall u8 l → hex_bytes (length l) (concat (hex_pair <$> l)) = l.
Proof.
  induction 1 as [|b l Hb _ IH]; [done|]. rewrite fmap_cons. cbn [concat length].
  destruct (hex_pair_inverse b Hb) as (c & d & -> & E & _). simpl. by rewrite E, IH.
Qed.

Lemma length_hex l : length (concat (hex_pair <$> l)) = (2 * length l)%nat.
Proof. induction l as [|b l IH]; [done|]. rewrite fmap_cons. cbn [concat length]. rewrite length_app, IH. simpl. lia. Qed.

Lemma hex_short l : (length l ≤ 32)%nat → take (2 * length l) (bytes_to_hex l) = concat (hex_pair <$> l).
Proof.
  intros H. unfold bytes_to_hex. rewrite (take_ge l) by lia. cbv zeta. rewrite take_app_le by (rewrite length_hex; lia).
  apply take_ge. rewrite length_hex. lia.
Qed.

Lemma hex_salt salt : length salt = 8%nat → Forall u8 salt → hex_decode_8 (take 16 (bytes_to_hex salt)) = salt.
Proof.
  intros Hl Hs. change 16%nat with (2 * 8)%nat. rewrite <- Hl, hex_short by lia. unfold hex_decode_8. rewrite <- Hl.
  rewrite hex_bytes_inverse, Nat.sub_diag by done. cbn [replicate]. apply app_nil_r.
Qed.

Lemma hex_digest d : length d = 32%nat → bytes_to_hex d = concat (hex_pair <$> d).
Proof. intros H. unfold bytes_to_hex. rewrite take_ge by lia. cbv zeta. rewrite length_hex, H. apply app_nil_r. Qed.

Lemma hex_inj a b : Forall u8 a → Forall u8 b → length a = length b →
  concat (hex_pair <$> a) = concat (hex_pair <$> b) → a = b.
Proof. intros Ha Hb Hl E. rewrite <- (hex_bytes_inverse a Ha), <- (hex_bytes_inverse b Hb). congruence. Qed.

Lemma xor_fold_zero ps : ∀ r : Z,
  foldl (λ r (p : Z * Z), Z.lor r (Z.lxor p.1 p.2)) r ps = 0 ↔ r = 0 ∧ Forall (λ p, p.1 = p.2) ps.
Proof.
  induction ps as [|[a b] ps IH]; intros r; simpl; [split; [by split|by intros []]|].
  rewrite IH, Forall_cons_iff, Z.lor_eq_0_iff, Z.lxor_eq_0_iff. simpl. tauto.
Qed.

Lemma const_time_eq_spec a b : const_time_eq a b = bool_decide (a = b).
Proof.
  unfold const_time_eq. destruct (Z.eqb_spec (len a) (len b)) as [Hl|Hl]; simpl.
  - apply eq_true_iff_eq. rewrite Z.eqb_eq, bool_decide_eq_true, xor_fold_zero. unfold len in Hl.
    assert (length a = length b) as Hn by lia. clear Hl. revert b Hn. induction a as [|x a IH]; intros [|y b] Hn; try done; simpl in *.
    rewrite Forall_cons_iff. simpl. destruct (IH b ltac:(lia)) as [H1 H2]. split.
    + intros (_ & -> & H). by rewrite (H1 (conj eq_refl H)).
    + intros E. injection E as -> ->. split; [done|]. split; [done|]. by apply H2.
  - rewrite bool_decide_eq_false_2; [done|]. intros ->. done.
Qed.

(** ** The standard: FIPS 180-4 *)

(** The hash as the standard describes it, on words of 32 bits. The operations are
    given by what they do to each bit, the constants by the roots they are taken from. *)
Module Fips.

Definition of_bits (f : Z → bool) : Z := foldr (λ i r, Z.b2z (f i) + 2 * r) 0 (seqZ 0 32).
Definition add (x y : Z) : Z := (x + y) mod 2 ^ 32.

(** Section 3.2 and 4.1.2 *)
Definition ROTR (n x : Z) : Z := of_bits (λ i, Z.testbit x ((i + n) mod 32)).
Definition SHR (n x : Z) : Z := x / 2 ^ n.
Definition parity (x y z : Z) : Z := of_bits (λ i, xorb (xorb (Z.testbit x i) (Z.testbit y i)) (Z.testbit z i)).
Definition Ch (x y z : Z) : Z := of_bits (λ i, if Z.testbit x i then Z.testbit y i else Z.testbit z i).
Definition Maj (x y z : Z) : Z :=
  of_bits (λ i, 2 <=? Z.b2z (Z.testbit x i) + Z.b2z (Z.testbit y i) + Z.b2z (Z.testbit z i)).
Definition Sigma0 (x : Z) : Z := parity (ROTR 2 x) (ROTR 13 x) (ROTR 22 x).
Definition Sigma1 (x : Z) : Z := parity (ROTR 6 x) (ROTR 11 x) (ROTR 25 x).
Definition sigma_0 (x : Z) : Z := parity (ROTR 7 x) (ROTR 18 x) (SHR 3 x).
Definition sigma_1 (x : Z) : Z := parity (ROTR 17 x) (ROTR 19 x) (SHR 10 x).

(** Sections 4.2.2 and 5.3.3: the first 32 bits of the fractional parts of the cube
    roots of the first 64 primes, and of the square roots of the first eight. *)
Definition prime (n : Z) : bool := forallb (λ d, negb (n mod d =? 0)) (seqZ 2 (n - 2)).
Definition primes (k : nat) : list Z := take k (filter (λ n, prime n = true) (seqZ 2 310)).
(** The largest [r] below [2 ^ b] with [r ^ k <= n] *)
Fixpoint root (b : nat) (k n r : Z) : Z :=
  match b with
  | O => r
  | S b => let r' := r + 2 ^ Z.of_nat b in root b k n (if r' ^ k <=? n then r' else r)
  end.
Definition frac_root (k p : Z) : Z := root 37 k (p * 2 ^ (32 * k)) 0 mod 2 ^ 32.
Definition constants : list Z := frac_root 3 <$> primes 64.
Definition initial : list Z := frac_root 2 <$> primes 8.

(** Section 5.1.1: a one bit and the least number of zero bits before a last word of
    64 bits with the length, here for messages of whole bytes; section 5.2.1: the words *)
Definition zero_bits (m : list Z) : Z := (448 - (8 * len m + 1)) mod 512.
Definition pad (m : list Z) : list Z :=
  m ++ 128 :: replicate (Z.to_nat ((zero_bits m - 7) / 8)) 0 ++ be_bytes 8 (8 * len m).
Definition word_at (m : list Z) (k : nat) : Z :=
  let b i := nth (4 * k + i) m 0 in b 0%nat * 2 ^ 24 + b 1%nat * 2 ^ 16 + b 2%nat * 2 ^ 8 + b 3%nat.

(** Section 6.2.2: the schedule, the rounds and the intermediate hash value *)
Fixpoint W (block : list Z) (n : nat) : list Z :=
  match n with
  | O => []
  | S t =>
      let w := W block t in
      w ++ [if (t <? 16)%nat then word_at block t
            else add (add (add (sigma_1 (nth (t - 2) w 0)) (nth (t - 7) w 0)) (sigma_0 (nth (t - 15) w 0))) (nth (t - 16) w 0)]
  end.
Definition one_round (v : list Z) (kw : Z * Z) : list Z :=
  match v with
  | [a; b; c; d; e; f; g; h] =>
      let T1 := add (add (add (add h (Sigma1 e)) (Ch e f g)) kw.1) kw.2 in
      let T2 := add (Sigma0 a) (Maj a b c) in
      [add T1 T2; a; b; c; add d T1; e; f; g]
  | _ => v
  end.
Definition compress (H block : list Z) : list Z :=
  zip_with add (foldl one_round H (zip constants (W block 64))) H.
Definition blocks (m : list Z) : list (list Z) :=
  (λ i, take 64 (drop (64 * i) m)) <$> seq 0 (Nat.div (length m) 64).
Definition digest (m : list Z) : list Z :=
  concat (be_bytes 4 <$> foldl compress initial (blocks (pad m))).
End Fips.

(** ** The operations of the code on words *)

Lemma of_bits_spec f i : 0 ≤ i < 32 → Z.testbit (Fips.of_bits f) i = f i.
Proof.
  intros Hi. unfold Fips.of_bits.
  assert (∀ n a f j, 0 ≤ j < Z.of_nat n →
    Z.testbit (foldr (λ i r, Z.b2z (f i) + 2 * r) 0 (seqZ a (Z.of_nat n))) j = f (a + j)) as H.
  { induction n as [|n IH]; intros a g j Hj; [lia|]. rewrite seqZ_cons by lia. cbn [foldr].
    replace (Z.pred (Z.of_nat (S n))) with (Z.of_nat n) by lia. rewrite Z.add_comm.
    destruct (decide (j = 0)) as [->|Hj0].
    - rewrite Z.add_0_r. by rewrite Z.testbit_0_r.
    - replace j with (Z.succ (Z.pred j)) at 1 by lia. rewrite Z.testbit_succ_r by lia. rewrite IH by lia. f_equal. lia. }
  exact (H 32%nat 0 f i Hi).
Qed.

Lemma of_bits_u32 f : u32 (Fips.of_bits f).
Proof.
  unfold Fips.of_bits, u32.
  assert (∀ l, 0 ≤ foldr (λ i r, Z.b2z (f i) + 2 * r) 0 l < 2 ^ Z.of_nat (length l)) as H.
  { induction l as [|i l IH]; [done|]. cbn [foldr length]. rewrite Nat2Z.inj_succ, Z.pow_succ_r by lia.
    destruct (f i); simpl; lia. }
  specialize (H (seqZ 0 32)). by rewrite length_seqZ in H.
Qed.

(** Words are equal when their bits are. *)
Lemma word_ext x y : u32 x → u32 y → (∀ i, 0 ≤ i < 32 → Z.testbit x i = Z.testbit y i) → x = y.
Proof.
  unfold u32. intros Hx Hy H. apply Z.bits_inj'. intros i Hi. destruct (decide (i < 32)) as [Hlt|Hge]; [by apply H|].
  by rewrite !(testbit_high _ 32) by (change (2 ^ 32) with 4294967296; lia).
Qed.

Lemma bits_u32 x : (∀ i, 32 ≤ i → Z.testbit x i = false) → u32 x.
Proof.
  intros H. replace x with (x mod 2 ^ 32); [apply Z.mod_pos_bound; lia|]. apply Z.bits_inj'. intros i Hi.
  destruct (decide (i < 32)); [by rewrite Z.mod_pow2_bits_low by lia|]. rewrite Z.mod_pow2_bits_high by lia. symmetry. apply H. lia.
Qed.

Lemma lxor_u32 x y : u32 x → u32 y → u32 (Z.lxor x y).
Proof.
  intros Hx Hy. apply bits_u32. intros i Hi. unfold u32 in *.
  by rewrite Z.lxor_spec, !(testbit_high _ 32) by (change (2 ^ 32) with 4294967296; lia).
Qed.

Lemma rotr_ROTR x n : u32 x → 0 < n < 32 → rotr x n = Fips.ROTR n x.
Proof.
  intros Hx Hn. apply Z.bits_inj'. intros i Hi. destruct (decide (i < 32)) as [Hlt|Hge].
  - unfold Fips.ROTR. rewrite of_bits_spec by lia. unfold rotr. rewrite Z.lor_spec, Z.shiftr_spec by lia. unfold u32 in Hx.
    assert (w32 (32 - n) = 32 - n) as -> by (unfold w32; rewrite Z.mod_small; lia).
    unfold w32. change 4294967296 with (2 ^ 32). rewrite Z.mod_pow2_bits_low, Z.shiftl_spec by lia.
    destruct (decide (i + n < 32)) as [Hin|Hout].
    + rewrite (Z.mod_small (i + n)) by lia. rewrite (Z.testbit_neg_r x (i - (32 - n))) by lia. apply orb_false_r.
    + replace ((i + n) mod 32) with (i - (32 - n)) by (apply (Z.mod_unique_pos _ _ 1); lia).
      by rewrite (testbit_high x 32 (i + n)) by (change (2 ^ 32) with 4294967296; lia).
  - pose proof (of_bits_u32 (λ i, Z.testbit x ((i + n) mod 32))) as Hu. unfold u32 in *.
    rewrite (testbit_high (Fips.ROTR n x) 32) by (change (2 ^ 32) with 4294967296; unfold Fips.ROTR; lia).
    unfold rotr. rewrite Z.lor_spec, Z.shiftr_spec, (testbit_high x 32) by (change (2 ^ 32) with 4294967296; lia).
    unfold w32. change 4294967296 with (2 ^ 32). by rewrite Z.mod_pow2_bits_high by lia.
Qed.

Lemma ROTR_u32 n x : u32 (Fips.ROTR n x).
Proof. apply of_bits_u32. Qed.
Lemma SHR_u32 n x : u32 x → 0 ≤ n → u32 (Fips.SHR n x).
Proof.
  unfold u32, Fips.SHR. intros Hx Hn. split; [apply Z.div_pos; lia|].
  apply Z.div_lt_upper_bound; [lia|]. nia.
Qed.

Lemma parity_lxor x y z : u32 x → u32 y → u32 z → Z.lxor (Z.lxor x y) z = Fips.parity x y z.
Proof.
  intros Hx Hy Hz. apply word_ext; [by repeat apply lxor_u32|apply of_bits_u32|].
  intros i Hi. unfold Fips.parity. by rewrite of_bits_spec, !Z.lxor_spec by done.
Qed.

Lemma SIG0_fips x : u32 x → SIG0 x = Fips.Sigma0 x.
Proof. intros Hx. unfold SIG0, Fips.Sigma0. rewrite !rotr_ROTR by (done || lia). apply parity_lxor; apply ROTR_u32. Qed.
Lemma SIG1_fips x : u32 x → SIG1 x = Fips.Sigma1 x.
Proof. intros Hx. unfold SIG1, Fips.Sigma1. rewrite !rotr_ROTR by (done || lia). apply parity_lxor; apply ROTR_u32. Qed.
Lemma sigma0_fips x : u32 x → sigma0 x = Fips.sigma_0 x.
Proof.
  intros Hx. unfold sigma0, Fips.sigma_0. rewrite !rotr_ROTR by (done || lia).
  rewrite Z.shiftr_div_pow2 by lia. apply parity_lxor; [apply ROTR_u32..|]. by apply SHR_u32.
Qed.
Lemma sigma1_fips x : u32 x → sigma1 x = Fips.sigma_1 x.
Proof.
  intros Hx. unfold sigma1, Fips.sigma_1. rewrite !rotr_ROTR by (done || lia).
  rewrite Z.shiftr_div_pow2 by lia. apply parity_lxor; [apply ROTR_u32..|]. by apply SHR_u32.
Qed.

Lemma land_word x y : u32 x → u32 (Z.land x y).
Proof.
  intros Hx. apply bits_u32. intros i Hi. unfold u32 in Hx.
  by rewrite Z.land_spec, (testbit_high x 32) by (change (2 ^ 32) with 4294967296; lia).
Qed.

Lemma ch_fips x y z : u32 x → u32 y → u32 z → ch x y z = Fips.Ch x y z.
Proof.
  intros Hx Hy Hz. assert (u32 (4294967295 - x)) as Hn by (unfold u32 in *; lia).
  apply word_ext; [apply lxor_u32; by apply land_word|apply of_bits_u32|].
  intros i Hi. unfold Fips.Ch. rewrite of_bits_spec by done. unfold ch. rewrite Z.lxor_spec, !Z.land_spec.
  replace (4294967295 - x) with (Z.lnot x mod 2 ^ 32).
  - rewrite Z.mod_pow2_bits_low, Z.lnot_spec by lia. by destruct (Z.testbit x i), (Z.testbit y i), (Z.testbit z i).
  - unfold u32 in Hx. pose proof (Z.add_lnot_diag x). symmetry. apply (Z.mod_unique_pos _ _ (-1)); lia.
Qed.
Lemma maj_fips x y z : u32 x → u32 y → u32 z → maj x y z = Fips.Maj x y z.
Proof.
  intros Hx Hy Hz. apply word_ext; [repeat apply lxor_u32; by apply land_word|apply of_bits_u32|].
  intros i Hi. unfold Fips.Maj. rewrite of_bits_spec by done. unfold maj. rewrite !Z.lxor_spec, !Z.land_spec.
  by destruct (Z.testbit x i), (Z.testbit y i), (Z.testbit z i).
Qed.

Lemma K_fips : K = Fips.constants.
Proof. vm_compute. reflexivity. Qed.
Lemma H0_fips : H0 = Fips.initial.
Proof. vm_compute. reflexivity. Qed.

(** ** The schedule, the rounds and the blocks *)

Lemma w32_word x : u32 (w32 x).
Proof. apply Z.mod_pos_bound. done. Qed.
Lemma nth_u32 l i : Forall u32 l → u32 (nth i l 0).
Proof.
  intros H. rewrite nth_lookup. destruct (l !! i) as [x|] eqn:E; simpl; [|by unfold u32]. by eapply Forall_lookup_1.
Qed.

Lemma extend_snoc n : ∀ w, extend (S n) w = extend n w ++ [w_next (extend n w)].
Proof. induction n as [|n IH]; intros w; [done|]. cbn [extend]. cbn [extend] in IH. apply IH. Qed.

Lemma length_W block n : length (Fips.W block n) = n.
Proof. induction n as [|n IH]; [done|]. cbn [Fips.W]. rewrite length_app, IH. simpl. lia. Qed.

Lemma word_at_drop block k : Fips.word_at (drop 4 block) k = Fips.word_at block (S k).
Proof.
  unfold Fips.word_at. assert (∀ j, nth j (drop 4 block) 0 = nth (4 + j) block 0) as H.
  { intros j. by destruct block as [|? [|? [|? [|? block]]]]; simpl; destruct j. }
  rewrite !H. by replace (4 * S k)%nat with (4 + 4 * k)%nat by lia.
Qed.

Lemma block_words_fips n : ∀ block, (n ≤ 16)%nat → (4 * n ≤ length block)%nat →
  block_words n block = Fips.W block n.
Proof.
  assert (∀ n block, (4 * n ≤ length block)%nat → block_words n block = Fips.word_at block <$> seq 0 n) as H.
  { induction n0 as [|k IH]; intros block Hl; [done|]. cbn [block_words seq]. rewrite fmap_cons. f_equal.
    - destruct block as [|b0 [|b1 [|b2 [|b3 block]]]]; simpl in Hl; [lia..|]. unfold Fips.word_at, be_val.
      change (le_val (reverse (take 4 (b0 :: b1 :: b2 :: b3 :: block)))) with (b3 + 256 * (b2 + 256 * (b1 + 256 * (b0 + 256 * 0)))).
      change (4 * 0)%nat with 0%nat. cbn [nth Nat.add]. lia.
    - rewrite IH by (rewrite length_drop; lia). rewrite <- fmap_S_seq, <- list_fmap_compose. apply list_fmap_ext.
      intros ? j _. apply word_at_drop. }
  intros block Hn Hl. rewrite H by done. clear H Hl. induction n as [|n IH]; [done|].
  rewrite seq_S, fmap_app. cbn [Fips.W]. rewrite <- IH by lia. by rewrite (proj2 (Nat.ltb_lt n 16)) by lia.
Qed.

Lemma W_u32 block n : Forall u8 block → Forall u32 (Fips.W block n).
Proof.
  intros Hb. induction n as [|n IH]; [done|]. cbn [Fips.W]. apply Forall_app. split; [done|]. apply Forall_singleton.
  destruct (n <? 16)%nat; [|apply Z.mod_pos_bound; done]. unfold Fips.word_at, u32.
  assert (∀ i, 0 ≤ nth i block 0 < 256) as H.
  { intros i. rewrite nth_lookup. destruct (block !! i) as [x|] eqn:E; simpl; [|lia]. exact (Forall_lookup_1 _ _ _ _ Hb E). }
  pose proof (H (4 * n + 0)%nat). pose proof (H (4 * n + 1)%nat). pose proof (H (4 * n + 2)%nat). pose proof (H (4 * n + 3)%nat). lia.
Qed.

Lemma W_next block t : (16 ≤ t)%nat → Forall u8 block → Fips.W block (S t) = Fips.W block t ++ [w_next (Fips.W block t)].
Proof.
  intros Ht Hb. cbn [Fips.W]. rewrite (proj2 (Nat.ltb_ge t 16)) by lia. do 2 f_equal. unfold w_next. rewrite length_W.
  by rewrite sigma1_fips, sigma0_fips by apply nth_u32, W_u32, Hb.
Qed.

Lemma extend_fips block k : Forall u8 block → extend k (Fips.W block 16) = Fips.W block (16 + k).
Proof.
  intros Hb. induction k as [|k IH]; [done|]. rewrite extend_snoc, IH, Nat.add_succ_r. symmetry. apply W_next; [lia|done].
Qed.

Lemma schedule_fips block : Forall u8 block → length block = 64%nat → schedule block = Fips.W block 64.
Proof. intros Hb Hl. unfold schedule. rewrite block_words_fips by lia. apply (extend_fips block 48 Hb). Qed.

Lemma round_fips v kw : Forall u32 (vars_list v) →
  vars_list (round v kw) = Fips.one_round (vars_list v) kw ∧ Forall u32 (vars_list (round v kw)).
Proof.
  destruct v as [a b c d e f g h]. unfold vars_list, round. cbn [va vb vc vd ve vf vg vh]. intros H.
  repeat match goal with H : Forall _ (_ :: _) |- _ => apply Forall_cons_1 in H as [? H] end. split.
  - cbn [Fips.one_round]. rewrite SIG1_fips, SIG0_fips, ch_fips, maj_fips by done. done.
  - repeat (apply Forall_cons_2; [first [assumption|apply w32_word]|]). apply Forall_nil_2.
Qed.

Lemma rounds_fips l : ∀ v, Forall u32 (vars_list v) →
  vars_list (foldl round v l) = foldl Fips.one_round (vars_list v) l ∧ Forall u32 (vars_list (foldl round v l)).
Proof.
  induction l as [|kw l IH]; intros v Hv; [done|]. cbn [foldl]. destruct (round_fips v kw Hv) as [E H]. rewrite <- E. by apply IH.
Qed.

Lemma vars_list_of s : length s = 8%nat → vars_list (vars_of s) = s.
Proof. intros H. by destruct s as [|? [|? [|? [|? [|? [|? [|? [|? [|]]]]]]]]]. Qed.

Lemma zip_add_comm s t : zip_with (λ a b, w32 (a + b)) s t = zip_with Fips.add t s.
Proof. revert t. induction s as [|a s IH]; intros [|b t]; simpl; [done..|]. rewrite IH. unfold Fips.add. by rewrite Z.add_comm. Qed.

Lemma compress_fips s block : length s = 8%nat → Forall u32 s → Forall u8 block → length block = 64%nat →
  sha256_compress s block = Fips.compress s block ∧ length (sha256_compress s block) = 8%nat ∧ Forall u32 (sha256_compress s block).
Proof.
  intros Hs Hu Hb Hl. split; [|split; [by apply length_compress|]].
  - unfold sha256_compress, Fips.compress. rewrite schedule_fips, <- K_fips, zip_add_comm by done.
    by rewrite (proj1 (rounds_fips _ (vars_of s) ltac:(by rewrite vars_list_of))), vars_list_of.
  - unfold sha256_compress. generalize (vars_list (foldl round (vars_of s) (zip K (schedule block)))). intros t.
    clear. revert t. induction s as [|a s IH]; intros [|b t]; simpl; try apply Forall_nil_2.
    apply Forall_cons_2; [apply w32_word|apply IH].
Qed.

Lemma blocks_fips n : ∀ h m, length m = (64 * n)%nat → Forall u8 m → length h = 8%nat → Forall u32 h →
  hash_blocks n h m = foldl Fips.compress h (Fips.blocks m).
Proof.
  induction n as [|n IH]; intros h m Hm Hu Hh Hw.
  - by apply nil_length_inv in Hm as ->.
  - assert (length (take 64 m) = 64%nat) as Ht by (rewrite length_take; lia).
    destruct (compress_fips h (take 64 m)) as (E & Hh' & Hw'); [done|done|by apply Forall_take|done|].
    cbn [hash_blocks].
    rewrite (IH _ (drop 64 m) ltac:(rewrite length_drop; lia) ltac:(by apply Forall_drop) Hh' Hw').
    unfold Fips.blocks. rewrite length_drop, Hm.
    replace (64 * S n - 64)%nat with (n * 64)%nat by lia. rewrite (Nat.mul_comm 64 (S n)), !Nat.div_mul by lia.
    cbn [seq]. rewrite fmap_cons. cbn [foldl]. rewrite Nat.mul_0_r, drop_0, <- E. f_equal. rewrite <- fmap_S_seq, <- list_fmap_compose.
    apply list_fmap_ext. intros ? i _. unfold compose. rewrite drop_drop. f_equal. f_equal. lia.
Qed.

Lemma pad_fips m : padded m = Fips.pad m.
Proof.
  unfold padded, Fips.pad, Fips.zero_bits. change ([0x80] ++ ?x) with (128 :: x). do 4 f_equal. f_equal.
  pose proof (len_nonneg m). replace (448 - (8 * len m + 1)) with (8 * (55 - len m) + 7) by lia.
  rewrite <- (Z.mod_unique_pos (8 * (55 - len m) + 7) 512 ((55 - len m) / 64) (8 * ((55 - len m) mod 64) + 7)).
  - replace (8 * ((55 - len m) mod 64) + 7 - 7) with ((55 - len m) mod 64 * 8) by lia. by rewrite Z.div_mul.
  - pose proof (Z.mod_pos_bound (55 - len m) 64). lia.
  - pose proof (Z.div_mod (55 - len m) 64). lia.
Qed.

Lemma length_padded m : ∃ n, length (padded m) = (64 * n)%nat.
Proof.
  pose proof (len_nonneg m). pose proof (Z.mod_pos_bound (55 - len m) 64 ltac:(lia)) as Hb. pose proof (Z.div_mod (55 - len m) 64 ltac:(lia)) as Hd.
  exists (Z.to_nat (1 - (55 - len m) / 64)). unfold padded, zeros. rewrite !length_app, length_be_bytes, length_replicate. simpl.
  unfold len in *. lia.
Qed.

Lemma blockwise_fips m : Forall u8 m → blockwise m = Fips.digest m.
Proof.
  intros Hm. unfold blockwise, Fips.digest. do 2 f_equal. destruct (length_padded m) as [n Hn]. rewrite Hn.
  rewrite (Nat.mul_comm 64 n), Nat.div_mul by lia. rewrite (blocks_fips n), H0_fips, pad_fips; [done|lia| |done|].
  - unfold padded. repeat (apply Forall_app; split); [done|by repeat constructor| |apply sha_bytes_u8].
    by apply Forall_replicate.
  - apply (bool_decide_unpack _). by vm_compute.
Qed.

Module ShaTheorems.

(** C19. The byte-fed, buffered hash of the login tools is SHA-256 as FIPS 180-4 defines
    it: for every message of bytes shorter than 2^61 bytes [sha256] never panics and
    returns the 32 bytes of the standard's hash, whose operations on words are defined
    bit by bit and whose constants are computed from the roots of the primes. *)
Theorem sha256_is_fips m :
  Forall u8 m → len m < 2305843009213693952 → sha256 m = Ok (Fips.digest m) ∧ length (Fips.digest m) = 32%nat.
Proof. intros Hu Hm. rewrite <- blockwise_fips by done. split; [by apply sha256_ok|apply length_blockwise]. Qed.

(** The standard's test vector for the message "abc". *)
Lemma sha256_is_fips_witness :
  sha256 [97; 98; 99] = Ok (Fips.digest [97; 98; 99]) ∧
  Fips.digest [97; 98; 99] = concat (be_bytes 4 <$>
    [0xba7816bf; 0x8f01cfea; 0x414140de; 0x5dae2223; 0xb00361a3; 0x96177a9c; 0xb410ff61; 0xf20015ad]).
Proof.
  split; [|vm_compute; reflexivity]. apply (sha256_is_fips [97; 98; 99]).
  - repeat constructor; unfold u8; lia.
  - unfold len. simpl. lia.
Defined.

(** The standard's two-block message. *)
Lemma two_block_vector :
  Fips.digest [97; 98; 99; 100; 98; 99; 100; 101; 99; 100; 101; 102; 100; 101; 102; 103; 101; 102; 103; 104; 102; 103; 104; 105;
    103; 104; 105; 106; 104; 105; 106; 107; 105; 106; 107; 108; 106; 107; 108; 109; 107; 108; 109; 110; 108; 109; 110; 111;
    109; 110; 111; 112; 110; 111; 112; 113] = concat (be_bytes 4 <$>
    [0x248d6a61; 0xd20638b8; 0xe5c02693; 0x0c3e6039; 0xa33ce459; 0x64ff2167; 0xf6ecedd4; 0x19db06c1]).
Proof. vm_compute. reflexivity. Qed.

End ShaTheorems.
