(* ===== verification/Auth.v ===== *)
(** * init/src/auth.rs, login.rs, passwd.rs, useradd.rs, userdel.rs: user accounts

    The programs run on top of the system calls; the class [Os] lists the ones
    they make, over an abstract state.  A call answers a number, negative for an
    error; [os_read fd n] also gives the bytes it stored in the buffer.  What the
    programs print is left out.  A function that returns [Result<A, i64>] returns
    [Z + A].  Buffers that are only ever appended to are the list of the bytes
    written so far. *)

From S2P Require Import Prelude Sha256.
From stdpp Require Import base list numbers.
From Stdlib Require Import ZArith Lia.

Open Scope Z_scope.

Class Os (S : Type) := {
  os_open : list Z → Z → Z → S → Z * S;
  os_read : Z → Z → S → (Z * list Z) * S;
  os_close : Z → S → Z * S;
  os_create : list Z → Z → S → Z * S;
  os_write_fd : Z → list Z → S → Z * S;
  os_mkdir : list Z → S → Z * S;
  os_getpid : S → Z * S;
  os_getring : S → Z * S;
  os_dropring : Z → S → Z * S;
  os_exec : list Z → S → Z * S }.

(** A call as a step of a program. *)
Definition call {S A} (f : S → A * S) : SM S A := λ s, let '(a, s) := f s in (Ok a, s).

(** ** Bytes *)

(** [iter().position(|&b| b == x)] *)
Fixpoint byte_pos (x : Z) (l : list Z) : option nat :=
  match l with
  | [] => None
  | b :: l => if b =? x then Some 0%nat else S <$> byte_pos x l
  end.

(** One turn of the line loops: the line at [pos] and what follows its newline. *)
Definition split_line (data : list Z) : list Z * list Z :=
  match byte_pos 10 data with
  | Some n => (take n data, drop (S n) data)
  | None => (data, [])
  end.

(** Copying into an array of [n] zeros, cutting off what does not fit. *)
Definition copy_slice (n : nat) (src : list Z) : list Z :=
  let s := take n src in s ++ replicate (n - length s) 0.

(** [if pos < buf.len() { buf[pos] = b; pos += 1 }] *)
Definition push (cap : nat) (buf : list Z) (b : Z) : list Z := if Nat.ltb (length buf) cap then buf ++ [b] else buf.
(** [for &b in bs { if pos >= buf.len() { break } buf[pos] = b; pos += 1 }] *)
Definition fill (cap : nat) (buf bs : list Z) : list Z := buf ++ take (cap - length buf) bs.
Definition filled (cap : nat) (buf : list Z) : list Z := buf ++ replicate (cap - length buf) 0.

Definition is_digit (b : Z) : bool := (48 <=? b) && (b <=? 57).
Fixpoint parse_dec_loop (val : Z) (s : list Z) : Z :=
  match s with
  | [] => val
  | b :: s => if is_digit b then parse_dec_loop (w32 (w32 (val * 10) + (b - 48))) s else val
  end.
Definition parse_dec (s : list Z) : Z := parse_dec_loop 0 s.

(** [while val > 0 && pos > 0] *)
Fixpoint dec_loop (fuel : nat) (buf : list Z) (pos : nat) (val : Z) : list Z :=
  match fuel, pos with
  | S fuel, S pos => if val <=? 0 then buf else dec_loop fuel (<[pos := 48 + val mod 10]> buf) pos (val / 10)
  | _, _ => buf
  end.
Definition format_dec (n : Z) : list Z :=
  if n =? 0 then <[10%nat := 48]> (zeros 12) else dec_loop 12 (zeros 12) 11 n.

(** ** /etc/passwd *)

Definition PASSWD_PATH : list Z := [47; 101; 116; 99; 47; 112; 97; 115; 115; 119; 100].
Definition SHADOW_PATH : list Z := [47; 101; 116; 99; 47; 115; 104; 97; 100; 111; 119].
Definition MAX_USERS : nat := 16.

Record PasswdEntry := mkPasswdEntry {
  pw_name : list Z; pw_uid : Z; pw_gid : Z; pw_home : list Z; pw_shell : list Z }.

(** [for (i, &b) in line.iter().enumerate()]: where the fields start. *)
Fixpoint field_loop (line : list Z) (i : Z) (fields : list Z) (fi : nat) (start : Z) : list Z * nat * Z :=
  match line with
  | [] => (fields, fi, start)
  | b :: line =>
      if b =? 58 then
        (if Nat.ltb fi 5 then field_loop line (i + 1) (<[fi := start]> fields) (S fi) (i + 1)
         else field_loop line (i + 1) fields fi (i + 1))
      else field_loop line (i + 1) fields fi start
  end.

Definition parse_line (line : list Z) : result (option PasswdEntry) :=
  if bool_decide (line = []) || (nth 0 line 0 =? 35) then mret None else
  let '(fields, fi, start) := field_loop line 0 (replicate 5 0) 0 0 in
  let f k := nth k (<[4%nat := start]> fields) 0 in
  if Nat.ltb fi 4 then mret None else
  name ← slice line (f 0%nat) (w64 (f 1%nat - 1));
  uid_str ← slice line (f 1%nat) (w64 (f 2%nat - 1));
  gid_str ← slice line (f 2%nat) (w64 (f 3%nat - 1));
  home ← slice line (f 3%nat) (w64 (f 4%nat - 1));
  shell ← slice line (f 4%nat) (len line);
  mret (Some (mkPasswdEntry (copy_slice 32 name) (parse_dec uid_str) (parse_dec gid_str)
                (copy_slice 64 home) (copy_slice 32 shell))).

(** [while pos < data.len() && count < MAX_USERS]: the entries [users[..count]]. *)
Fixpoint parse_loop (fuel : nat) (data : list Z) (users : list PasswdEntry) : result (list PasswdEntry) :=
  match fuel, data with
  | S fuel, _ :: _ =>
      if negb (Nat.ltb (length users) MAX_USERS) then mret users else
      let '(line, rest) := split_line data in
      e ← parse_line line;
      parse_loop fuel rest (match e with Some e => users ++ [e] | None => users end)
  | _, _ => mret users
  end.
Definition parse_passwd (data : list Z) : result (list PasswdEntry) := parse_loop (length data) data [].

(** [while match_len < entry.name.len() && entry.name[match_len] != 0 && match_len < name.len()] *)
Fixpoint match_len (entry name : list Z) : nat :=
  match entry, name with
  | a :: entry, b :: name => if (a =? 0) || negb (a =? b) then 0%nat else S (match_len entry name)
  | _, _ => 0%nat
  end.
Definition user_matches (name : list Z) (e : PasswdEntry) : result bool :=
  let m := match_len (pw_name e) name in
  if negb (Nat.eqb m (length name)) then mret false else
  c ← idx (pw_name e) (Z.of_nat m);
  mret ((c =? 0) || Nat.eqb m (length (pw_name e))).
Fixpoint find_user (users : list PasswdEntry) (name : list Z) : result (option nat) :=
  match users with
  | [] => mret None
  | e :: users =>
      m ← user_matches name e;
      if m : bool then mret (Some 0%nat) else o ← find_user users name; mret (S <$> o)
  end.
Fixpoint find_user_by_uid (users : list PasswdEntry) (uid : Z) : option nat :=
  match users with
  | [] => None
  | e :: users => if pw_uid e =? uid then Some 0%nat else S <$> find_user_by_uid users uid
  end.

(** ** Lines of new entries *)

(** A generator seeded with the pid. *)
Definition lcg (seed : Z) : Z := w64 (w64 (seed * 1103515245) + 12345).
Fixpoint salt_loop (n : nat) (seed : Z) : list Z :=
  match n with
  | O => []
  | S n => let seed := lcg seed in w8 (Z.shiftr seed 16) :: salt_loop n seed
  end.
Definition salt_of (pid : Z) : list Z := salt_loop 8 (lcg (w64 pid)).

(** The 72-byte buffer that is hashed: the password, then the salt. *)
Definition combined (password salt : list Z) : list Z := fill 72 (fill 72 [] password) salt.

Definition shadow_line (username password salt : list Z) : result (list Z) :=
  hash ← sha256 (combined password salt);
  let buf := fill 128 [] username in
  let buf := push 128 (push 128 (push 128 (push 128 buf 58) 36) 53) 36 in
  let buf := fill 128 buf (take 16 (bytes_to_hex salt)) in
  let buf := push 128 buf 36 in
  mret (filled 128 (fill 128 buf (bytes_to_hex hash))).

(** [for &b in uid_str.iter() { if pos >= buf.len() || b == 0 { break } .. }] *)
Fixpoint before_nul (bs : list Z) : list Z :=
  match bs with
  | [] => []
  | b :: bs => if b =? 0 then [] else b :: before_nul bs
  end.

Definition format_passwd_entry (username : list Z) (uid gid : Z) (home shell : list Z) : list Z :=
  let buf := push 256 (fill 256 [] username) 58 in
  let buf := push 256 (fill 256 buf (before_nul (format_dec uid))) 58 in
  let buf := push 256 (fill 256 buf (before_nul (format_dec gid))) 58 in
  let buf := push 256 (fill 256 buf home) 58 in
  filled 256 (fill 256 buf shell).

(** Trailing newlines, carriage returns and NULs of a line typed in. *)
Fixpoint strip_front (l : list Z) : list Z :=
  match l with
  | b :: l' => if (b =? 10) || (b =? 13) || (b =? 0) then strip_front l' else l
  | [] => []
  end.
Definition strip (l : list Z) : list Z := reverse (strip_front (reverse l)).

(** Exactly one trailing newline, as [login] does. *)
Definition chomp (l : list Z) : list Z :=
  match reverse l with 10 :: _ => take (length l - 1) l | _ => l end.

Definition ROOT : list Z := [114; 111; 111; 116].
Definition SHELL : list Z := [47; 98; 105; 110; 47; 111; 115; 104].
Definition USERS : list Z := [47; 117; 115; 101; 114; 115; 47].

(** ** Reading and rewriting the files *)

(** Appending a line to the output buffer of 4096 bytes. *)
Definition emit (out line : list Z) : list Z :=
  push 4096 (out ++ take (4096 - length out) line) 10.

Section Programs.
Context {S : Type} `{!Os S}.
Local Abbreviation M := (SM S).

(** [loop { n = read(..); if n <= 0 { break } total += n; if total >= buf.len() { break } }]:
    every round adds a byte at least. *)
Fixpoint read_rounds (fuel : nat) (fd : Z) (buf : list Z) (total : Z) : M (list Z) :=
  match fuel with
  | O => panic
  | Datatypes.S fuel =>
      r ← call (os_read fd (4096 - total));
      if r.1 <=? 0 then lift (slice buf 0 total) else
      let buf := wr total (take (Z.to_nat (4096 - total)) r.2) buf in
      let total := w64 (total + r.1) in
      if 4096 <=? total then lift (slice buf 0 total) else read_rounds fuel fd buf total
  end.
Definition read_all (fd : Z) : M (list Z) :=
  data ← read_rounds 4097 fd (zeros 4096) 0;
  call (os_close fd);;
  mret data.

Definition read_passwd : M (Z + list PasswdEntry) :=
  fd ← call (os_open PASSWD_PATH 0 0);
  if fd <? 0 then mret (inl fd) else
  data ← read_all fd;
  users ← lift (parse_passwd data);
  mret (inr users).

(** The entry of a user, in a buffer of 128 bytes. *)
Fixpoint shadow_loop (fuel : nat) (username data : list Z) : option (list Z) :=
  match fuel, data with
  | Datatypes.S fuel, _ :: _ =>
      let '(line, rest) := split_line data in
      match byte_pos 58 line with
      | None => shadow_loop fuel username rest
      | Some n =>
          if bool_decide (take n line = username)
          then Some (copy_slice 128 (take 127 (drop (Datatypes.S n) line)))
          else shadow_loop fuel username rest
      end
  | _, _ => None
  end.

Definition read_shadow_password (username : list Z) : M (Z + list Z) :=
  fd ← call (os_open SHADOW_PATH 0 0);
  if fd <? 0 then mret (inl fd) else
  data ← read_all fd;
  mret (match shadow_loop (length data) username data with Some v => inr v | None => inl (-2) end).

(** Salt and hash of an entry [$5$salt$hash]. *)
Definition parse_shadow (stored : list Z) : option (list Z * list Z) :=
  let data := take (match byte_pos 0 stored with Some n => n | None => length stored end) stored in
  if negb (bool_decide (take 3 data = [36; 53; 36])) then None else
  let rest := drop 3 data in
  match byte_pos 36 rest with
  | None => None
  | Some n =>
      let salt_hex := take n rest in
      let hash_hex := drop (Datatypes.S n) rest in
      if negb (len salt_hex =? 16) || (len hash_hex <? 64) then None
      else Some (salt_hex, take 64 hash_hex)
  end.

Definition check_password (stored password : list Z) : result bool :=
  match parse_shadow stored with
  | None => mret false
  | Some (salt_hex, hash_hex) =>
      hash ← sha256 (combined password (hex_decode_8 salt_hex));
      mret (const_time_eq (take 64 (bytes_to_hex hash)) hash_hex)
  end.

Definition verify_shadow_password (username password : list Z) : M bool :=
  r ← read_shadow_password username;
  match r with
  | inl _ => mret false
  | inr stored => lift (check_password stored password)
  end.

Definition format_shadow_entry (username password : list Z) : M (list Z) :=
  pid ← call os_getpid;
  lift (shadow_line username password (salt_of pid)).

(** The loop over the lines of a file: lines of [username] become [new] (or are
    dropped), lines without a colon stay if [junk]; also says if a line matched. *)
Fixpoint rewrite_loop (junk : bool) (new : option (M (list Z))) (fuel : nat) (username data out : list Z) (found : bool)
    : M (list Z * bool) :=
  match fuel, data with
  | Datatypes.S fuel, _ :: _ =>
      let '(line, rest) := split_line data in
      match byte_pos 58 line with
      | None => rewrite_loop junk new fuel username rest (if junk then emit out line else out) found
      | Some n =>
          if bool_decide (take n line = username) then
            match new with
            | Some new => entry ← new; rewrite_loop junk (Some new) fuel username rest (emit out entry) true
            | None => rewrite_loop junk new fuel username rest out found
            end
          else rewrite_loop junk new fuel username rest (emit out line) found
      end
  | _, _ => mret (out, found)
  end.

(** [create], [write_fd] and [close] of the new contents. *)
Definition replace_file (path : list Z) (mode : Z) (out : list Z) : M (Z + unit) :=
  fd ← call (os_create path mode);
  if fd <? 0 then mret (inl fd) else
  call (os_write_fd fd out);;
  call (os_close fd);;
  mret (inr tt).

(** The old contents; a file that cannot be opened counts as empty. *)
Definition old_data (path : list Z) : M (list Z) :=
  fd ← call (os_open path 0 0);
  if 0 <=? fd then read_all fd else mret [].

(** What the file is to hold: the lines of [username] replaced, or one added. *)
Definition new_contents (junk : bool) (username : list Z) (new : M (list Z)) (data : list Z) : M (list Z) :=
  r ← rewrite_loop junk (Some new) (length data) username data [] false;
  if r.2 : bool then mret r.1 else entry ← new; mret (emit r.1 entry).

Definition update_file (path : list Z) (mode : Z) (junk : bool) (username : list Z) (new : M (list Z)) : M (Z + unit) :=
  data ← old_data path;
  out ← new_contents junk username new data;
  replace_file path mode out.

Definition update_shadow_password (username new_password : list Z) : M (Z + unit) :=
  update_file SHADOW_PATH 384 true username (format_shadow_entry username new_password).

Definition update_passwd_entry (username : list Z) (uid gid : Z) (home shell : list Z) : M (Z + unit) :=
  update_file PASSWD_PATH 420 false username (mret (format_passwd_entry username uid gid home shell)).

Definition delete_entry (path : list Z) (mode : Z) (username : list Z) : M (Z + unit) :=
  fd ← call (os_open path 0 0);
  if fd <? 0 then mret (inl fd) else
  data ← read_all fd;
  r ← rewrite_loop false None (length data) username data [] false;
  replace_file path mode r.1.
Definition delete_passwd_entry (username : list Z) : M (Z + unit) := delete_entry PASSWD_PATH 420 username.
Definition delete_shadow_entry (username : list Z) : M (Z + unit) := delete_entry SHADOW_PATH 384 username.

(** ** The programs; the value of a program is its exit code *)

Definition read_line (n : Z) : M (list Z) :=
  r ← call (os_read 0 (n - 1));
  if r.1 <=? 0 then mret [] else
  line ← lift (slice (wr 0 (take (Z.to_nat (n - 1)) r.2) (zeros n)) 0 r.1);
  mret (strip line).

(** *** passwd.rs *)

Definition new_password (uname : list Z) : M Z :=
  n1 ← read_line 64;
  n2 ← read_line 64;
  if bool_decide (n1 = []) || negb (len n1 =? len n2) || negb (const_time_eq n1 n2) then mret 1 else
  update_shadow_password uname n1;; mret 0.

Definition do_user_passwd : M Z :=
  old ← read_line 64;
  ok ← verify_shadow_password ROOT old;
  if negb ok then mret 1 else new_password ROOT.

Definition do_root_passwd : M Z :=
  uname ← read_line 32;
  if bool_decide (uname = []) then mret 1 else new_password uname.

Definition passwd : M Z :=
  ring ← call os_getring;
  if ring =? 2 then do_user_passwd else do_root_passwd.

(** *** useradd.rs *)

(** [read_passwd(&mut users).unwrap_or(0)], then [find_user] *)
Definition known (uname : list Z) : M bool :=
  r ← read_passwd;
  o ← lift (find_user (match r with inr users => users | inl _ => [] end) uname);
  mret (bool_decide (o ≠ None)).

Definition useradd : M Z :=
  ring ← call os_getring;
  if negb (ring =? 1) then mret 1 else
  uname ← read_line 32;
  if bool_decide (uname = []) then mret 1 else
  uid_s ← read_line 12;
  let uid := parse_dec uid_s in
  pass ← read_line 64;
  if bool_decide (pass = []) then mret 1 else
  exists_ ← known uname;
  if exists_ : bool then mret 1 else
  let home := USERS ++ take 56 uname in
  r ← update_passwd_entry uname uid uid home SHELL;
  match r with
  | inl _ => mret 1
  | inr _ =>
      r ← update_shadow_password uname pass;
      match r with
      | inl _ => mret 1
      | inr _ => call (os_mkdir (take 63 home));; mret 0
      end
  end.

(** *** userdel.rs *)

Definition userdel : M Z :=
  ring ← call os_getring;
  if negb (ring =? 1) then mret 1 else
  uname ← read_line 32;
  if bool_decide (uname = []) then mret 1 else
  if bool_decide (uname = ROOT) then mret 1 else
  exists_ ← known uname;
  if negb exists_ then mret 1 else
  r ← delete_passwd_entry uname;
  match r with
  | inl _ => mret 1
  | inr _ =>
      r ← delete_shadow_entry uname;
      mret (match r with inl _ => 1 | inr _ => 0 end)
  end.

(** *** login.rs *)

Inductive setup_end := Again | SetupDone | SetupExit (code : Z).

(** One turn of the loop of [first_boot_setup]. *)
Definition setup_round : M setup_end :=
  n1 ← read_line 64;
  n2 ← read_line 64;
  if bool_decide (n1 = []) then mret Again else
  if negb (bool_decide (n1 = n2)) then mret Again else
  r ← update_passwd_entry ROOT 0 0 (USERS ++ ROOT) SHELL;
  match r with
  | inl _ => mret (SetupExit 1)
  | inr _ =>
      r ← update_shadow_password ROOT n1;
      match r with
      | inl _ => mret (SetupExit 1)
      | inr _ => call (os_mkdir (USERS ++ ROOT));; mret SetupDone
      end
  end.

(** What is typed at a prompt of [login]; [None] when the read gives nothing. *)
Definition prompt : M (option (list Z)) :=
  r ← call (os_read 0 64);
  if r.1 <=? 0 then mret None else
  line ← lift (slice (wr 0 (take 64 r.2) (zeros 64)) 0 r.1);
  mret (Some (chomp line)).

(** One turn of the login loop: did it start the shell? *)
Definition login_round : M bool :=
  u ← prompt;
  match u with
  | None => mret false
  | Some username =>
      p ← prompt;
      match p with
      | None => mret false
      | Some password =>
          if bool_decide (username = []) || bool_decide (password = []) then mret false else
          r ← read_passwd;
          match r with
          | inl _ => mret false
          | inr users =>
              o ← lift (find_user users username);
              if bool_decide (o = None) then mret false else
              ok ← verify_shadow_password username password;
              if negb ok then mret false else
              call (os_dropring 2);;
              call (os_exec SHELL);;
              mret true
          end
      end
  end.
End Programs.
