(* ===== verification/AuthProps.v ===== *)
(** * User accounts: the files as lists of lines, and what updating and looking up do to them *)

From S2P Require Import Prelude Sha256 Auth.
From stdpp Require Import base list numbers.
From Stdlib Require Import ZArith Lia.

Open Scope Z_scope.

(** ** Lines *)

Fixpoint lines_loop (fuel : nat) (data : list Z) : list (list Z) :=
  match fuel, data with
  | S fuel, _ :: _ => let '(line, rest) := split_line data in line :: lines_loop fuel rest
  | _, _ => []
  end.
Definition lines (data : list Z) : list (list Z) := lines_loop (length data) data.
Definition unlines (ls : list (list Z)) : list Z := concat ((λ l, l ++ [10]) <$> ls).

Lemma byte_pos_None x l : byte_pos x l = None ↔ (x ∉ l).
Proof.
  induction l as [|b l IH]; simpl; [split; [intros _ H; by apply not_elem_of_nil in H|done]|].
  destruct (Z.eqb_spec b x) as [->|Hne]; [split; [done|intros H; destruct H; left]|].
  rewrite fmap_None, IH, not_elem_of_cons. naive_solver.
Qed.

Lemma byte_pos_Some x l n : byte_pos x l = Some n → ∃ a b, l = a ++ x :: b ∧ length a = n ∧ x ∉ a.
Proof.
  revert n. induction l as [|y l IH]; intros n; simpl; [done|].
  destruct (Z.eqb_spec y x) as [->|Hne].
  - intros H. injection H as <-. exists [], l. split_and!; [done..|]. apply not_elem_of_nil.
  - intros (m & Hm & ->)%fmap_Some. destruct (IH m Hm) as (a & b & -> & <- & Ha). exists (y :: a), b.
    split_and!; [done..|]. apply not_elem_of_cons. split; [congruence|done].
Qed.

Lemma byte_pos_app x a b : x ∉ a → byte_pos x (a ++ x :: b) = Some (length a).
Proof.
  induction a as [|y a IH]; intros H; simpl; [by rewrite Z.eqb_refl|].
  apply not_elem_of_cons in H as [H1 H2]. rewrite (proj2 (Z.eqb_neq y x)) by congruence. by rewrite IH.
Qed.

Lemma split_line_app l rest : 10 ∉ l → split_line (l ++ 10 :: rest) = (l, rest).
Proof.
  intros H. unfold split_line. rewrite byte_pos_app by done. rewrite take_app_length. f_equal.
  rewrite drop_app_ge by lia. by replace (S (length l) - length l)%nat with 1%nat by lia.
Qed.

Lemma split_line_shorter data : data ≠ [] → (length (split_line data).2 < length data)%nat.
Proof.
  intros Hd. unfold split_line. destruct (byte_pos 10 data) as [n|]; simpl; destruct data as [|x data]; try done; simpl.
  - rewrite length_drop. lia.
  - lia.
Qed.

(** The fuel of the line loops is enough: more of it makes no difference. *)
Lemma lines_fuel fuel : ∀ data, (length data ≤ fuel)%nat → lines_loop fuel data = lines data.
Proof.
  induction fuel as [fuel IH] using lt_wf_ind. intros data Hd. unfold lines.
  destruct data as [|x data]; [by destruct fuel|]. destruct fuel as [|fuel]; [simpl in Hd; lia|].
  pose proof (split_line_shorter (x :: data) ltac:(done)) as Hs. cbn [length] in *. cbn [lines_loop].
  destruct (split_line (x :: data)) as [line rest]. cbn [snd] in Hs. f_equal.
  rewrite (IH fuel) by lia. destruct (decide (length data = fuel)) as [->|Hne]; [symmetry; apply IH; lia|].
  symmetry. apply IH; lia.
Qed.

Lemma lines_cons x data : let '(line, rest) := split_line (x :: data) in lines (x :: data) = line :: lines rest.
Proof.
  pose proof (split_line_shorter (x :: data) ltac:(done)) as Hs. unfold lines at 1. cbn [length lines_loop].
  destruct (split_line (x :: data)) as [line rest]. cbn [snd length] in Hs. by rewrite lines_fuel by lia.
Qed.

Lemma lines_app l rest : 10 ∉ l → lines (l ++ 10 :: rest) = l :: lines rest.
Proof.
  intros H. pose proof (split_line_app l rest H) as E. destruct l as [|x l].
  - pose proof (lines_cons 10 rest) as Hc. change (10 :: rest) with ([] ++ 10 :: rest) in Hc at 1. by rewrite E in Hc.
  - pose proof (lines_cons x (l ++ 10 :: rest)) as Hc. change (x :: l ++ 10 :: rest) with ((x :: l) ++ 10 :: rest) in *.
    by rewrite E in Hc.
Qed.

Lemma lines_unlines ls : Forall (λ l, 10 ∉ l) ls → lines (unlines ls) = ls.
Proof.
  induction 1 as [|l ls Hl _ IH]; [done|]. unfold unlines in *. rewrite fmap_cons. cbn [concat].
  rewrite <- app_assoc. change ([10] ++ ?r) with (10 :: r). by rewrite lines_app, IH.
Qed.

Lemma lines_newline_free data : Forall (λ l, 10 ∉ l) (lines data).
Proof.
  induction data as [data IH] using (induction_ltof1 _ (@length Z)). unfold ltof in IH.
  destruct data as [|x data]; [constructor|]. pose proof (lines_cons x data) as Hc.
  pose proof (split_line_shorter (x :: data) ltac:(done)) as Hs.
  destruct (split_line (x :: data)) as [line rest] eqn:E. rewrite Hc. constructor; [|by apply IH].
  unfold split_line in E. destruct (byte_pos 10 (x :: data)) as [n|] eqn:Ep.
  - destruct (byte_pos_Some _ _ _ Ep) as (a & b & Ea & <- & Ha). rewrite Ea in E. injection E as <- _. by rewrite take_app_length.
  - injection E as <- _. by apply byte_pos_None.
Qed.

(** ** The file as a table *)

(** The name a line is about: what stands before its first colon. *)
Definition line_name (l : list Z) : option (list Z) := (λ n, take n l) <$> byte_pos 58 l.

(** The entry of a user: what follows the colon of the first line with the name. *)
Fixpoint entry_of (u : list Z) (ls : list (list Z)) : option (list Z) :=
  match ls with
  | [] => None
  | l :: ls =>
      match byte_pos 58 l with
      | Some n => if bool_decide (take n l = u) then Some (drop (S n) l) else entry_of u ls
      | None => entry_of u ls
      end
  end.

(** Replacing every line of a user, or adding one. *)
Definition is_about (u : list Z) (l : list Z) : bool := bool_decide (line_name l = Some u).
Definition put_line (u e : list Z) (ls : list (list Z)) : list (list Z) :=
  let ls' := (λ l, if is_about u l then e else l) <$> ls in
  if existsb (is_about u) ls then ls' else ls' ++ [e].

Lemma line_name_app u r : 58 ∉ u → line_name (u ++ 58 :: r) = Some u.
Proof. intros H. unfold line_name. rewrite byte_pos_app by done. simpl. by rewrite take_app_length. Qed.

Lemma entry_of_cons u l ls : entry_of u (l :: ls) =
  if is_about u l then (λ n, drop (S n) l) <$> byte_pos 58 l else entry_of u ls.
Proof.
  simpl. unfold is_about, line_name. destruct (byte_pos 58 l) as [n|]; simpl.
  - repeat case_bool_decide; naive_solver.
  - done.
Qed.

Lemma is_about_other u v l : u ≠ v → is_about u l = true → is_about v l = false.
Proof. unfold is_about. rewrite bool_decide_eq_true, bool_decide_eq_false. congruence. Qed.

Lemma entry_of_put u r ls : 58 ∉ u → entry_of u (put_line u (u ++ 58 :: r) ls) = Some r.
Proof.
  intros Hu. set (e := u ++ 58 :: r).
  assert (is_about u e = true) as He by (unfold is_about; rewrite bool_decide_eq_true; by apply line_name_app).
  assert ((λ n, drop (S n) e) <$> byte_pos 58 e = Some r) as Er.
  { unfold e. rewrite byte_pos_app by done. simpl. rewrite drop_app_ge by lia. by replace (S (length u) - length u)%nat with 1%nat by lia. }
  unfold put_line. induction ls as [|l ls IH]; [simpl existsb; cbv iota; rewrite fmap_nil; cbn [app]; by rewrite entry_of_cons, He|].
  rewrite fmap_cons. cbn [existsb]. destruct (is_about u l) eqn:E; cbn [orb].
  - by rewrite entry_of_cons, He.
  - destruct (existsb (is_about u) ls); cbn [app]; rewrite entry_of_cons, E; apply IH.
Qed.

Lemma entry_of_put_other u v e ls : u ≠ v → line_name e = Some u → entry_of v (put_line u e ls) = entry_of v ls.
Proof.
  intros Hne He. assert (is_about v e = false) as Hv.
  { apply (is_about_other u v); [done|]. unfold is_about. by rewrite bool_decide_eq_true. }
  unfold put_line. induction ls as [|l ls IH].
  - simpl existsb. cbv iota. rewrite fmap_nil. cbn [app]. rewrite entry_of_cons, Hv. done.
  - rewrite fmap_cons, (entry_of_cons v l). cbn [existsb]. destruct (is_about u l) eqn:E; cbn [orb].
    + rewrite (is_about_other u v l Hne E), entry_of_cons, Hv. clear -Hne Hv. induction ls as [|l ls IH]; [done|].
      rewrite fmap_cons, (entry_of_cons v l). destruct (is_about u l) eqn:E.
      * by rewrite (is_about_other u v l Hne E), entry_of_cons, Hv.
      * by rewrite entry_of_cons, IH.
    + destruct (existsb (is_about u) ls); cbn [app]; rewrite entry_of_cons; destruct (is_about v l); (done || apply IH).
Qed.

(** ** The loops over the lines *)

(** What becomes of a line. *)
Definition kept (junk : bool) (new : option (list Z)) (u l : list Z) : option (list Z) :=
  match byte_pos 58 l with
  | None => if junk then Some l else None
  | Some n => if bool_decide (take n l = u) then new else Some l
  end.

Lemma omap_step {A B} (f : A → option B) x l :
  omap f (x :: l) = match f x with Some y => y :: omap f l | None => omap f l end.
Proof. done. Qed.

Definition emits (out : list Z) (ls : list (list Z)) : list Z := foldl emit out ls.

Lemma emit_fits out l : (length out + length l < 4096)%nat → emit out l = out ++ l ++ [10].
Proof.
  intros H. unfold emit, push. rewrite take_ge by lia. rewrite length_app.
  rewrite (proj2 (Nat.ltb_lt _ _)) by lia. by rewrite <- app_assoc.
Qed.

Lemma emits_fits ls : ∀ out, (length out + length (unlines ls) ≤ 4096)%nat → emits out ls = out ++ unlines ls.
Proof.
  unfold emits, unlines. induction ls as [|l ls IH]; intros out H; cbn [foldl]; [by rewrite app_nil_r|].
  rewrite fmap_cons in *. cbn [concat] in *. rewrite !length_app in H. simpl in H.
  rewrite emit_fits by lia. rewrite IH by (rewrite !length_app; simpl; lia). by rewrite <- !app_assoc.
Qed.

Lemma shadow_loop_lines fuel : ∀ u data, (length data ≤ fuel)%nat →
  shadow_loop fuel u data = (λ r, copy_slice 128 (take 127 r)) <$> entry_of u (lines data).
Proof.
  induction fuel as [|fuel IH]; intros u data Hd; [by apply Nat.le_0_r, nil_length_inv in Hd as ->|].
  destruct data as [|x data]; [done|]. cbn [shadow_loop]. pose proof (lines_cons x data) as Hc.
  pose proof (split_line_shorter (x :: data) ltac:(done)) as Hs.
  destruct (split_line (x :: data)) as [line rest]. rewrite Hc. cbn [snd length entry_of] in *.
  destruct (byte_pos 58 line) as [n|]; [|apply IH; lia]. case_bool_decide; [done|]. apply IH. lia.
Qed.

Section Rewrite.
Context {S : Type} (junk : bool) (m : SM S (list Z)) (e : list Z) (s : S) (Hm : m s = (Ok e, s)).

Lemma rewrite_lines (del : bool) fuel : ∀ u data out found, (length data ≤ fuel)%nat →
  rewrite_loop junk (if del then None else Some m) fuel u data out found s =
    (Ok (emits out (omap (kept junk (if del then None else Some e) u) (lines data)),
         found || (negb del && existsb (is_about u) (lines data))), s).
Proof.
  induction fuel as [|fuel IH]; intros u data out found Hd.
  { apply Nat.le_0_r, nil_length_inv in Hd as ->. simpl. by rewrite andb_false_r, orb_false_r. }
  destruct data as [|x data]; [simpl; by rewrite andb_false_r, orb_false_r|].
  cbn [rewrite_loop]. pose proof (lines_cons x data) as Hc.
  pose proof (split_line_shorter (x :: data) ltac:(done)) as Hs.
  destruct (split_line (x :: data)) as [line rest]. rewrite Hc. cbn [snd length existsb] in *.
  assert (is_about u line = match byte_pos 58 line with Some n => bool_decide (take n line = u) | None => false end) as Ha.
  { unfold is_about, line_name. destruct (byte_pos 58 line); simpl; repeat case_bool_decide; naive_solver. }
  rewrite Ha, omap_step. unfold kept at 1. destruct (byte_pos 58 line) as [n|].
  - case_bool_decide as Hn.
    + destruct del.
      * rewrite IH by lia. done.
      * rewrite (sm_bind_ok _ _ _ _ _ Hm). rewrite (IH u rest (emit out e) true) by lia. cbn [negb andb orb]. by rewrite orb_true_r.
    + rewrite IH by lia. done.
  - rewrite IH by lia. by destruct junk.
Qed.
End Rewrite.

Lemma kept_put u e (ls : list (list Z)) : omap (kept true (Some e) u) ls = (λ l, if is_about u l then e else l) <$> ls.
Proof.
  induction ls as [|l ls IH]; [done|]. rewrite omap_step, fmap_cons, <- IH. unfold kept at 1, is_about, line_name.
  destruct (byte_pos 58 l) as [n|]; simpl; [|done]. repeat case_bool_decide; naive_solver.
Qed.

(** ** Shadow entries *)

Definition digest (password salt : list Z) : list Z := blockwise (combined password salt).

(** [$5$salt$hash] *)
Definition shadow_core (password salt : list Z) : list Z :=
  [36; 53; 36] ++ concat (hex_pair <$> salt) ++ 36 :: concat (hex_pair <$> digest password salt).

Lemma hex_clean l : Forall u8 l → Forall (λ c, 48 ≤ c ≤ 102 ∧ c ≠ 58) (concat (hex_pair <$> l)).
Proof.
  induction 1 as [|b l Hb _ IH]; [constructor|]. rewrite fmap_cons. cbn [concat].
  destruct (hex_pair_inverse b Hb) as (c & d & -> & _ & [Hc Hd] & Hc' & Hd'). cbn [app]. constructor; [done|]. by constructor.
Qed.

Lemma clean_not_in x l : Forall (λ c, 48 ≤ c ≤ 102 ∧ c ≠ 58) l → x < 48 ∨ x = 58 → x ∉ l.
Proof. intros H Hx Hin. rewrite Forall_forall in H. apply list_elem_of_In in Hin. specialize (H x Hin). lia. Qed.

Lemma length_combined p salt : (length (combined p salt) ≤ 72)%nat.
Proof. unfold combined, fill. cbn [app]. rewrite length_app, !length_take. cbn [length]. lia. Qed.

Lemma sha_combined p salt : sha256 (combined p salt) = Ok (digest p salt).
Proof. apply sha256_ok. pose proof (length_combined p salt). unfold len. lia. Qed.

Lemma length_digest p salt : length (digest p salt) = 32%nat.
Proof. apply length_blockwise. Qed.

Lemma push_lt cap buf b : (length buf < cap)%nat → push cap buf b = buf ++ [b].
Proof. intros H. unfold push. by rewrite (proj2 (Nat.ltb_lt _ _)). Qed.

Lemma fill_fits cap buf bs : (length buf + length bs ≤ cap)%nat → fill cap buf bs = buf ++ bs.
Proof. intros H. unfold fill. by rewrite take_ge by lia. Qed.

Lemma length_core p salt : length salt = 8%nat → length (shadow_core p salt) = 84%nat.
Proof. intros H. unfold shadow_core. rewrite !length_app. cbn [length]. rewrite !length_hex, length_digest, H. done. Qed.

Lemma shadow_line_eq u p salt : (length u ≤ 43)%nat → length salt = 8%nat →
  shadow_line u p salt = Ok (u ++ 58 :: shadow_core p salt ++ replicate (43 - length u) 0).
Proof.
  intros Hu Hs. unfold shadow_line. rewrite sha_combined, bind_ok. cbv zeta. rewrite (fill_fits 128 [] u) by (simpl; lia). cbn [app].
  pose proof (hex_short salt ltac:(lia)) as H16. rewrite Hs in H16. change (2 * 8)%nat with 16%nat in H16. rewrite H16, hex_digest by apply length_digest.
  rewrite (push_lt 128 u 58), (push_lt 128 (u ++ [58]) 36), (push_lt 128 ((u ++ [58]) ++ [36]) 53),
    (push_lt 128 (((u ++ [58]) ++ [36]) ++ [53]) 36) by (rewrite ?length_app; simpl; lia). rewrite (fill_fits 128 _ (concat (hex_pair <$> salt))) by
    (rewrite !length_app, length_hex; simpl; lia).
  rewrite push_lt by (rewrite !length_app, length_hex; simpl; lia).
  rewrite fill_fits by (rewrite !length_app, !length_hex, length_digest; simpl; lia).
  unfold filled. f_equal. unfold shadow_core. rewrite <- !app_assoc. cbn [app]. 
  do 5 f_equal. f_equal. f_equal. f_equal. f_equal. rewrite !length_app. cbn [length]. rewrite !length_app. cbn [length].
  rewrite !length_hex, length_digest. lia.
Qed.

Lemma parse_shadow_core p salt k : length salt = 8%nat → Forall u8 salt →
  parse_shadow (shadow_core p salt ++ replicate (S k) 0) =
    Some (concat (hex_pair <$> salt), concat (hex_pair <$> digest p salt)).
Proof.
  intros Hs Hu. pose proof (hex_clean salt Hu) as H1. pose proof (hex_clean _ (blockwise_u8 (combined p salt))) as H2.
  fold (digest p salt) in H2. unfold parse_shadow.
  assert (0 ∉ shadow_core p salt) as H0.
  { unfold shadow_core. rewrite !elem_of_app, !elem_of_cons. intros [[H|[H|[H|H]]]|[H|[H|H]]]; try lia.
    - by apply not_elem_of_nil in H.
    - by apply (clean_not_in 0 _ H1) in H; [|lia].
    - by apply (clean_not_in 0 _ H2) in H; [|lia]. }
  cbn [replicate]. rewrite byte_pos_app by done. rewrite take_app_length.
  assert (drop 3 (shadow_core p salt) = concat (hex_pair <$> salt) ++ 36 :: concat (hex_pair <$> digest p salt)) as Ed by reflexivity.
  rewrite bool_decide_eq_true_2 by reflexivity. cbn [negb]. rewrite Ed.
  rewrite byte_pos_app by (apply clean_not_in; [done|lia]). rewrite take_app_length, drop_app_ge by lia.
  replace (S (length (concat (hex_pair <$> salt))) - length (concat (hex_pair <$> salt)))%nat with 1%nat by lia. cbn [drop].
  cbv zeta. rewrite drop_0. unfold len. rewrite !length_hex, Hs. rewrite length_digest. cbn [Z.of_nat Nat.mul]. simpl negb. cbn [orb].
  do 2 f_equal. apply take_ge. rewrite length_hex, length_digest. lia.
Qed.

Lemma check_core p salt k q : length salt = 8%nat → Forall u8 salt →
  check_password (shadow_core p salt ++ replicate (S k) 0) q = Ok (bool_decide (digest q salt = digest p salt)).
Proof.
  intros Hs Hu. unfold check_password. rewrite parse_shadow_core by done.
  pose proof (hex_salt salt Hs Hu) as H8. pose proof (hex_short salt ltac:(lia)) as H16. rewrite Hs in H16.
  change (2 * 8)%nat with 16%nat in H16. rewrite H16 in H8. rewrite H8, sha_combined, bind_ok. unfold mret, result_ret. f_equal.
  rewrite const_time_eq_spec, hex_digest by apply length_digest. rewrite take_ge by (rewrite length_hex, length_digest; lia).
  apply bool_decide_ext. split; [|by intros ->]. apply hex_inj; [apply blockwise_u8..|by rewrite !length_digest].
Qed.

Lemma salt_ok pid : length (salt_of pid) = 8%nat ∧ Forall u8 (salt_of pid).
Proof.
  unfold salt_of. generalize (lcg (w64 pid)). assert (∀ n seed, length (salt_loop n seed) = n ∧ Forall u8 (salt_loop n seed)) as H; [|done].
  induction n as [|n IH]; intros seed; simpl; [by split|]. destruct (IH (lcg seed)) as [H1 H2].
  split; [by rewrite H1|]. constructor; [|done]. unfold u8, w8. apply Z.mod_pos_bound. lia.
Qed.

(** What the reader of an entry keeps of it. *)
Lemma stored_entry p salt (u : list Z) : (length u ≤ 43)%nat → length salt = 8%nat →
  ∃ k, copy_slice 128 (take 127 (shadow_core p salt ++ replicate (43 - length u) 0)) = shadow_core p salt ++ replicate (S k) 0.
Proof.
  intros Hu Hs. exists 43%nat. pose proof (length_core p salt Hs) as Hl. unfold copy_slice.
  rewrite !(take_ge (shadow_core p salt ++ _)) by (rewrite length_app, length_replicate; lia). cbv zeta.
  rewrite length_app, length_replicate, Hl, <- app_assoc, <- replicate_add. do 2 f_equal. lia.
Qed.

(** ** Updating and looking up *)

(** The new contents, line by line. *)
Lemma new_contents_lines {S : Type} (u : list Z) (m : SM S (list Z)) (e : list Z) (s : S) data :
  m s = (Ok e, s) → len (unlines (put_line u e (lines data))) ≤ 4096 →
  new_contents true u m data s = (Ok (unlines (put_line u e (lines data))), s).
Proof.
  intros Hm Hfit. unfold new_contents.
  pose proof (rewrite_lines true m e s Hm false (length data) u data [] false ltac:(lia)) as Hw. cbn [negb andb orb] in Hw.
  rewrite (sm_bind_ok _ _ _ _ _ Hw). cbn [fst snd]. rewrite kept_put. unfold put_line in *.
  destruct (existsb (is_about u) (lines data)).
  - rewrite emits_fits by (unfold len in Hfit; simpl; lia). done.
  - rewrite (sm_bind_ok _ _ _ _ _ Hm).
    assert (emit (emits [] ((λ l, if is_about u l then e else l) <$> lines data)) e =
      emits [] (((λ l, if is_about u l then e else l) <$> lines data) ++ [e])) as -> by (unfold emits; by rewrite foldl_app).
    rewrite emits_fits by (unfold len in Hfit; simpl; lia). done.
Qed.

Lemma update_replaces {S : Type} `{!Os S} (s s1 : S) u p data pid :
  (∀ t, os_getpid t = (pid, t)) → old_data SHADOW_PATH s = (Ok data, s1) → (length u ≤ 43)%nat →
  let e := u ++ 58 :: shadow_core p (salt_of pid) ++ replicate (43 - length u) 0 in
  let out := unlines (put_line u e (lines data)) in
  len out ≤ 4096 → update_shadow_password u p s = replace_file SHADOW_PATH 384 out s1.
Proof.
  intros Hpid Hold Hu e out Hfit. unfold update_shadow_password, update_file. rewrite (sm_bind_ok _ _ _ _ _ Hold).
  rewrite (sm_bind_ok _ _ s1 out s1); [done|]. apply new_contents_lines; [|done].
  unfold format_shadow_entry, call, mbind, SM_bind. rewrite Hpid. unfold lift.
  by rewrite shadow_line_eq by (done || apply salt_ok).
Qed.

Lemma lookup_lines u data :
  shadow_loop (length data) u data = (λ r, copy_slice 128 (take 127 r)) <$> entry_of u (lines data).
Proof. by apply shadow_loop_lines. Qed.
