(* ===== verification/AuthThms.v ===== *)
(** * Theorems on user accounts *)

From S2P Require Import Prelude Sha256 Auth AuthProps.
From stdpp Require Import base list numbers gmap.
From Stdlib Require Import ZArith Lia.

Open Scope Z_scope.

(** ** Parsing never goes out of range *)

(** Where the fields found so far start: in order, a colon apart, up to [start]. *)
Record starts (fields : list Z) (fi : nat) (start i : Z) : Prop := {
  st_len : length fields = 5%nat;
  st_fi : (fi ≤ 5)%nat;
  st_first : 0 ≤ start ≤ i;
  st_in : ∀ j x, (j < fi)%nat → fields !! j = Some x → 0 ≤ x < start;
  st_step : ∀ j x y, (S j < fi)%nat → fields !! j = Some x → fields !! S j = Some y → x < y }.

Lemma field_loop_starts line : ∀ i fields fi start, starts fields fi start i →
  let r := field_loop line i fields fi start in starts r.1.1 r.1.2 r.2 (i + len line).
Proof.
  induction line as [|b line IH]; intros i fields fi start H; cbn [field_loop]; cbv zeta.
  { unfold len. simpl. by rewrite Z.add_0_r. }
  rewrite len_cons, Z.add_assoc. pose proof H as [H1 H2 H3 H4 H5]. destruct (b =? 58).
  - destruct (Nat.ltb_spec fi 5) as [Hlt|Hge]; apply IH.
    + split; [by rewrite length_insert|lia|lia| |].
      * intros j x Hj Hx. destruct (decide (j = fi)) as [->|Hne].
        -- rewrite list_lookup_insert_eq in Hx by lia. injection Hx as <-. lia.
        -- rewrite list_lookup_insert_ne in Hx by done. pose proof (H4 j x ltac:(lia) Hx). lia.
      * intros j x y Hj Hx Hy. rewrite list_lookup_insert_ne in Hx by lia. destruct (decide (S j = fi)) as [<-|Hne].
        -- rewrite list_lookup_insert_eq in Hy by lia. injection Hy as <-. pose proof (H4 j x ltac:(lia) Hx). lia.
        -- rewrite list_lookup_insert_ne in Hy by done. apply (H5 j); [lia|done..].
    + split; [done|lia|lia| |done]. intros j x Hj Hx. pose proof (H4 j x Hj Hx). lia.
  - apply IH. split; [done|done|lia|done|done].
Qed.

Lemma parse_line_total line : len line < 9223372036854775808 → ∃ o, parse_line line = Ok o ∧
  ∀ e, o = Some e → length (pw_name e) = 32%nat.
Proof.
  intros Hlen. unfold parse_line. destruct (_ || _); [by exists None|].
  pose proof (field_loop_starts line 0 (replicate 5 0) 0 0) as Hs. cbv zeta in Hs.
  destruct (field_loop line 0 (replicate 5 0) 0 0) as [[fields fi] start]. cbn [fst snd] in Hs.
  destruct Hs as [H1 H2 H3 H4 H5]; [split; [done|lia|lia|intros; lia|intros; lia]|].
  destruct (Nat.ltb_spec fi 4) as [Hlt|Hge]; [by exists None|]. rewrite Z.add_0_l in H3.
  destruct fields as [|f0 [|f1 [|f2 [|f3 [|f4 [|]]]]]]; try done. cbn [nth list_insert insert].
  pose proof (H5 0%nat f0 f1 ltac:(lia) eq_refl eq_refl). pose proof (H5 1%nat f1 f2 ltac:(lia) eq_refl eq_refl).
  pose proof (H5 2%nat f2 f3 ltac:(lia) eq_refl eq_refl). pose proof (H4 3%nat f3 ltac:(lia) eq_refl).
  pose proof (H4 0%nat f0 ltac:(lia) eq_refl).
  rewrite !w64_small by lia. rewrite !slice_ok by lia. rewrite !bind_ok. eexists. split; [done|].
  intros e He. injection He as <-. cbn [pw_name]. unfold copy_slice. rewrite length_app, length_take, length_replicate. lia.
Qed.

Definition users_ok (users : list PasswdEntry) : Prop :=
  (length users ≤ 16)%nat ∧ Forall (λ e, length (pw_name e) = 32%nat) users.

Lemma split_line_len data : len (split_line data).1 ≤ len data ∧ len (split_line data).2 ≤ len data.
Proof.
  unfold split_line, len. destruct (byte_pos 10 data) as [n|]; simpl; [rewrite length_take, length_drop; lia|lia].
Qed.

Lemma parse_loop_total fuel : ∀ data users, len data < 9223372036854775808 → users_ok users →
  ∃ users', parse_loop fuel data users = Ok users' ∧ users_ok users'.
Proof.
  induction fuel as [|fuel IH]; intros data users Hd [Hl Hf]; [by exists users|].
  destruct data as [|x data]; [by exists users|]. cbn [parse_loop].
  destruct (Nat.ltb_spec (length users) MAX_USERS) as [Hlt|Hge]; cbn [negb]; [|by exists users].
  pose proof (split_line_len (x :: data)) as [H1 H2]. destruct (split_line (x :: data)) as [line rest]. cbn [fst snd] in *.
  destruct (parse_line_total line ltac:(lia)) as (o & -> & Ho). rewrite bind_ok. apply IH; [lia|].
  destruct o as [e|]; [|done]. split; [rewrite length_app; unfold MAX_USERS in Hlt; simpl; lia|].
  apply Forall_app. split; [done|]. constructor; [by apply Ho|constructor].
Qed.

Lemma match_len_bound entry : ∀ name, (match_len entry name ≤ length name)%nat.
Proof.
  induction entry as [|a entry IH]; intros [|b name]; simpl; try lia. destruct (_ || _); [lia|]. specialize (IH name). lia.
Qed.

Lemma find_user_total users name : Forall (λ e, length (pw_name e) = 32%nat) users → (length name < 32)%nat →
  ∃ o, find_user users name = Ok o.
Proof.
  intros H Hn. induction H as [|e users He _ IH]; [by eexists|]. cbn [find_user]. unfold user_matches. cbv zeta.
  pose proof (match_len_bound (pw_name e) name). destruct (Nat.eqb_spec (match_len (pw_name e) name) (length name)) as [E|E]; simpl.
  - rewrite (idx_nth _ _ 0) by (unfold len; lia). simpl. destruct (_ || _); [by eexists|]. destruct IH as [o ->]. by eexists.
  - destruct IH as [o ->]. by eexists.
Qed.

(** ** New entries *)

Lemma dec_loop_head fuel : ∀ buf pos val, (1 ≤ pos)%nat → 0 ≤ val < 10 ^ (Z.of_nat pos - 1) →
  dec_loop fuel buf pos val !! 0%nat = buf !! 0%nat.
Proof.
  induction fuel as [|fuel IH]; intros buf [|pos] val Hp Hv; try lia; [done|]. cbn [dec_loop].
  destruct (Z.leb_spec val 0) as [|Hpos]; [done|]. destruct pos as [|pos].
  { change (10 ^ (Z.of_nat 1 - 1)) with 1 in Hv. lia. }
  rewrite IH; [by rewrite list_lookup_insert_ne|lia|].
  replace (Z.of_nat (S (S pos)) - 1) with (Z.succ (Z.of_nat (S pos) - 1)) in Hv by lia. rewrite Z.pow_succ_r in Hv by lia.
  split; [apply Z.div_pos; lia|]. apply Z.div_lt_upper_bound; lia.
Qed.

(** The digits stand at the end of the array, so what is copied up to the first NUL is nothing. *)
Lemma format_dec_invisible n : u32 n → before_nul (format_dec n) = [].
Proof.
  unfold u32. intros Hn. unfold format_dec. destruct (Z.eqb_spec n 0) as [->|H0]; [reflexivity|].
  pose proof (dec_loop_head 12 (zeros 12) 11 n ltac:(lia)) as H. change (10 ^ (Z.of_nat 11 - 1)) with 10000000000 in H.
  specialize (H ltac:(lia)). destruct (dec_loop 12 (zeros 12) 11 n) as [|b l]; [done|]. simpl in H. injection H as ->. done.
Qed.

Lemma field_loop_plain l : ∀ rest i fields fi start, 58 ∉ l →
  field_loop (l ++ rest) i fields fi start = field_loop rest (i + len l) fields fi start.
Proof.
  induction l as [|b l IH]; intros rest i fields fi start H; [unfold len; simpl; by rewrite Z.add_0_r|].
  apply not_elem_of_cons in H as [Hb Hl]. cbn [app field_loop]. rewrite (proj2 (Z.eqb_neq b 58)) by congruence.
  rewrite IH by done. rewrite len_cons. f_equal. lia.
Qed.

Lemma field_loop_colon rest i fields fi start : (fi < 5)%nat →
  field_loop (58 :: rest) i fields fi start = field_loop rest (i + 1) (<[fi := start]> fields) (S fi) (i + 1).
Proof. intros H. cbn [field_loop]. by rewrite (proj2 (Nat.ltb_lt fi 5)). Qed.

Lemma copy_slice_pad n l k : copy_slice n (l ++ replicate k 0) = copy_slice n l.
Proof.
  unfold copy_slice. cbv zeta. rewrite take_app, take_replicate, !length_app, !length_take, length_replicate, <- app_assoc, <- replicate_add.
  do 2 f_equal. lia.
Qed.

Lemma format_passwd_entry_eq u uid gid home shell : u32 uid → u32 gid →
  (length u + length home + length shell ≤ 252)%nat →
  ∃ k, format_passwd_entry u uid gid home shell = u ++ 58 :: 58 :: 58 :: home ++ 58 :: shell ++ replicate k 0.
Proof.
  intros Hu Hg Hl. unfold format_passwd_entry. rewrite !format_dec_invisible by done. cbv zeta.
  rewrite (fill_fits 256 [] u) by (simpl; lia). cbn [app]. rewrite (push_lt 256 u 58) by lia.
  rewrite (fill_fits 256 (u ++ [58]) []) by (rewrite length_app; simpl; lia). rewrite app_nil_r.
  rewrite (push_lt 256 (u ++ [58]) 58) by (rewrite length_app; simpl; lia).
  rewrite (fill_fits 256 _ []) by (rewrite !length_app; simpl; lia). rewrite app_nil_r.
  rewrite (push_lt 256 ((u ++ [58]) ++ [58]) 58) by (rewrite !length_app; simpl; lia).
  rewrite (fill_fits 256 _ home) by (rewrite !length_app; simpl; lia).
  rewrite (push_lt 256 (_ ++ home) 58) by (rewrite !length_app; simpl; lia).
  rewrite (fill_fits 256 _ shell) by (rewrite !length_app; simpl; lia).
  unfold filled. eexists. rewrite <- !app_assoc. cbn [app]. reflexivity.
Qed.

Lemma parse_new_entry u home shell k : u ≠ [] → nth 0 u 0 ≠ 35 → 58 ∉ u → 58 ∉ home → 58 ∉ shell → len u + len home < 4096 →
  parse_line (u ++ 58 :: 58 :: 58 :: home ++ 58 :: shell ++ replicate k 0) =
    Ok (Some (mkPasswdEntry (copy_slice 32 u) 0 0 (copy_slice 64 home) (copy_slice 32 shell))).
Proof.
  intros Hne H35 Hu Hh Hs Hl. unfold parse_line. set (line := u ++ _).
  assert (bool_decide (line = []) || (nth 0 line 0 =? 35) = false) as ->.
  { unfold line. destruct u as [|b u]; [done|]. simpl in *. by rewrite (proj2 (Z.eqb_neq b 35)). }
  assert (58 ∉ shell ++ replicate k 0) as Hs2.
  { rewrite elem_of_app. intros [H|H]; [done|]. apply elem_of_replicate in H as [H _]. lia. }
  unfold line at 1. rewrite field_loop_plain by done. rewrite !field_loop_colon by lia. rewrite field_loop_plain by done.
  rewrite field_loop_colon by lia. replace (shell ++ replicate k 0) with ((shell ++ replicate k 0) ++ []) by apply app_nil_r.
  rewrite field_loop_plain by done. cbn [field_loop]. cbn [replicate insert list_insert nth Nat.ltb Nat.leb].
  pose proof (len_nonneg u). pose proof (len_nonneg home). pose proof (len_nonneg shell).
  assert (len line = len u + len home + 4 + len (shell ++ replicate k 0)) as Hll.
  { unfold line. rewrite len_app, !len_cons, len_app, len_cons. lia. }
  pose proof (len_nonneg (shell ++ replicate k 0)).
  rewrite !w64_small by lia. rewrite !slice_ok by lia. rewrite !bind_ok. unfold mret, result_ret. f_equal. f_equal.
  assert (rd 0 (0 + len u + 1 - 1 - 0) line = u) as ->.
  { apply (rd_middle [] u); [done|lia]. }
  assert (rd (0 + len u + 1) (0 + len u + 1 + 1 - 1 - (0 + len u + 1)) line = []) as ->.
  { replace (0 + len u + 1 + 1 - 1 - (0 + len u + 1)) with 0 by lia. done. }
  assert (rd (0 + len u + 1 + 1) (0 + len u + 1 + 1 + 1 - 1 - (0 + len u + 1 + 1)) line = []) as ->.
  { replace (0 + len u + 1 + 1 + 1 - 1 - (0 + len u + 1 + 1)) with 0 by lia. done. }
  assert (line = (u ++ [58; 58; 58]) ++ home ++ (58 :: shell ++ replicate k 0)) as E1 by (unfold line; by rewrite <- !app_assoc).
  assert (line = ((u ++ [58; 58; 58]) ++ home ++ [58]) ++ (shell ++ replicate k 0) ++ []) as E2
    by (unfold line; rewrite app_nil_r, <- !app_assoc; done).
  f_equal.
  - f_equal. rewrite E1. apply rd_middle; [rewrite len_app; change (len [58; 58; 58]) with 3; lia|lia].
  - rewrite <- (copy_slice_pad 32 shell k). f_equal. rewrite E2. apply rd_middle.
    + rewrite !len_app. change (len [58; 58; 58]) with 3. change (len [58]) with 1. lia.
    + rewrite <- E2. lia.
Qed.

(** ** An operating system in memory *)

(** Files, the one open descriptor 3 (path and position) and the lines to be typed. *)
Record Toy := mkToy { t_files : gmap (list Z) (list Z); t_fd : option (list Z * Z); t_stdin : list (list Z) }.

#[global] Instance toy_os : Os Toy := {|
  os_open path _ _ s :=
    match t_files s !! path with
    | Some _ => (3, mkToy (t_files s) (Some (path, 0)) (t_stdin s))
    | None => (-3, s)
    end;
  os_read fd n s :=
    if fd =? 0 then
      match t_stdin s with
      | [] => ((0, []), s)
      | l :: ls => let bs := take (Z.to_nat n) l in ((len bs, bs), mkToy (t_files s) (t_fd s) ls)
      end
    else
      match t_fd s with
      | Some (path, pos) =>
          let bs := rd pos n (default [] (t_files s !! path)) in
          ((len bs, bs), mkToy (t_files s) (Some (path, pos + len bs)) (t_stdin s))
      | None => ((-12, []), s)
      end;
  os_close _ s := (0, mkToy (t_files s) None (t_stdin s));
  os_create path _ s := (3, mkToy (<[path := []]> (t_files s)) (Some (path, 0)) (t_stdin s));
  os_write_fd fd bs s :=
    match t_fd s with
    | Some (path, _) => (len bs, mkToy (<[path := bs]> (t_files s)) (t_fd s) (t_stdin s))
    | None => (-12, s)
    end;
  os_mkdir _ s := (0, s);
  os_getpid s := (7, s);
  os_getring s := (1, s);
  os_dropring _ s := (0, s);
  os_exec _ s := (-3, s) |}.

Module AuthTheorems.



(** ** Looking a user up *)

Lemma match_len_name entry : ∀ name, match_len entry name = length name →
  take (length name) entry = name ∧ 0 ∉ name.
Proof.
  induction entry as [|a entry IH]; intros [|b name] H; simpl in *; try done; try (split; [done|apply not_elem_of_nil]).
  destruct (Z.eqb_spec a 0) as [->|Ha]; [done|]. destruct (Z.eqb_spec a b) as [->|Hb]; [|done]. simpl in H.
  destruct (IH name) as [E Hn]; [lia|]. rewrite E. split; [done|]. apply not_elem_of_cons. split; [congruence|done].
Qed.

(** The entry is that of the user: its name is the given one, up to a NUL. *)
Definition named (name : list Z) (e : PasswdEntry) : Prop :=
  before_nul (pw_name e) = name.

Lemma before_nul_take n l : 0 ∉ take n l → l !! n = Some 0 → before_nul l = take n l.
Proof.
  revert l. induction n as [|n IH]; intros [|b l] H Hn; try done; simpl in *; [by injection Hn as ->|].
  apply not_elem_of_cons in H as [Hb H]. rewrite (proj2 (Z.eqb_neq b 0)) by congruence. f_equal. by apply IH.
Qed.

Lemma user_matches_named name e : user_matches name e = Ok true → named name e.
Proof.
  unfold user_matches. destruct (Nat.eqb_spec (match_len (pw_name e) name) (length name)) as [E|]; [|done]. cbn [negb].
  destruct (match_len_name _ _ E) as [Ht H0]. rewrite E. unfold idx. rewrite Nat2Z.id.
  destruct (pw_name e !! length name) as [c|] eqn:Hc; [|by destruct (_ <? 0)].
  rewrite (proj2 (Z.ltb_ge _ 0)) by lia. rewrite bind_ok. unfold mret, result_ret. intros H. injection H as H.
  apply lookup_lt_Some in Hc as Hl. rewrite (proj2 (Nat.eqb_neq _ _)), orb_false_r in H by lia. apply Z.eqb_eq in H as ->.
  unfold named. rewrite (before_nul_take (length name)); [done|by rewrite Ht|done].
Qed.

Lemma find_user_named users : ∀ name i, find_user users name = Ok (Some i) → ∃ e, users !! i = Some e ∧ named name e.
Proof.
  induction users as [|e users IH]; intros name i H; [done|]. cbn [find_user] in H.
  destruct (user_matches name e) as [m| |] eqn:Hm; try done. rewrite bind_ok in H. destruct m.
  - injection H as <-. exists e. split; [done|by apply user_matches_named].
  - destruct (find_user users name) as [o| |] eqn:Ho; try done. rewrite bind_ok in H. destruct o as [j|]; [|done].
    injection H as <-. destruct (IH name j Ho) as (e' & H1 & H2). by exists e'.
Qed.

Section Passwords.
Context {S : Type} `{!Os S}.


(** What was typed at a prompt: a read of up to 64 bytes from the console, without its
    newline. *)
Definition typed (s : S) (line : list Z) (s' : S) : Prop :=
  ∃ n bs, os_read 0 64 s = ((n, bs), s') ∧ 0 < n ≤ 64 ∧ line = chomp (rd 0 n (wr 0 (take 64 bs) (zeros 64))).

Lemma prompt_typed s line s' : prompt s = (Ok (Some line), s') → typed s line s'.
Proof.
  unfold prompt. intros H. apply sm_bind_Ok_inv in H as ([n bs] & s1 & E & H). unfold call in E.
  destruct (os_read 0 64 s) as [r s2] eqn:Er. injection E as -> <-. cbn [fst snd] in H.
  destruct (Z.leb_spec n 0) as [|Hn]; [discriminate H|]. apply sm_bind_Ok_inv in H as (l & s3 & E & H).
  unfold lift in E. injection E as E <-. injection H as <- <-. exists n, bs. split; [exact Er|].
  unfold slice in E. destruct (Z.leb_spec 0 n), (Z.leb_spec n (len (wr 0 (take 64 bs) (zeros 64)))) as [Hw|]; try done.
  rewrite len_wr in Hw by (unfold len, zeros; rewrite ?length_take, ?length_replicate; lia).
  cbn [andb Z.leb Z.compare] in E. injection E as <-. rewrite Z.sub_0_r. split; [|done].
  change (len (zeros 64)) with 64 in Hw. lia.
Qed.

(** What the read loop gives of a file. *)
Definition file_read (path : list Z) (s : S) (data : list Z) (s' : S) : Prop :=
  ∃ fd s0, os_open path 0 0 s = (fd, s0) ∧ 0 ≤ fd ∧ read_all fd s0 = (Ok data, s').

(** C23. Login starts a shell only for a user it has authenticated.  The name is what
    was typed first, the password what was typed next; one of the users that the
    contents of [/etc/passwd], read then, parse to has the name; and the first line of
    [/etc/shadow], read after that, that is about the name holds a salt and the hash
    of the password with that salt.  The ring is dropped before the shell is
    executed. *)
Theorem login_authenticates (s s' : S) :
  login_round s = (Ok true, s') →
  ∃ username s1 password s2 pw s3 users user sh s4 entry salt_hex,
    typed s username s1 ∧ username ≠ [] ∧ typed s1 password s2 ∧ password ≠ [] ∧
    file_read PASSWD_PATH s2 pw s3 ∧ parse_passwd pw = Ok users ∧ user ∈ users ∧ named username user ∧
    file_read SHADOW_PATH s3 sh s4 ∧ entry_of username (lines sh) = Some entry ∧
    parse_shadow (copy_slice 128 (take 127 entry)) =
      Some (salt_hex, concat (hex_pair <$> digest password (hex_decode_8 salt_hex))) ∧
    s' = (os_exec SHELL (os_dropring 2 s4).2).2.
Proof.
  unfold login_round. intros H. apply sm_bind_Ok_inv in H as (u & s1 & Hu & H). destruct u as [username|]; [|discriminate H].
  apply sm_bind_Ok_inv in H as (p & s2 & Hp & H). destruct p as [password|]; [|discriminate H].
  destruct (bool_decide (username = [])) eqn:Eu; [discriminate H|]. destruct (bool_decide (password = [])) eqn:Ep; [discriminate H|].
  cbn [orb] in H. apply sm_bind_Ok_inv in H as (r & s3 & Hpw & H). destruct r as [|users]; [discriminate H|].
  apply sm_bind_Ok_inv in H as (o & s3' & Hfu & H). unfold lift in Hfu. injection Hfu as Hfu <-.
  destruct o as [i|]; [|discriminate H]. rewrite bool_decide_eq_false_2 in H by done.
  apply sm_bind_Ok_inv in H as (ok & s4 & Hv & H). destruct ok; [|discriminate H]. cbn [negb] in H.
  apply bool_decide_eq_false in Eu, Ep. apply prompt_typed in Hu, Hp.
  destruct (find_user_named _ _ _ Hfu) as (user & Hi & Hnm).
  assert (∃ pw, file_read PASSWD_PATH s2 pw s3 ∧ parse_passwd pw = Ok users) as (pw & Hread & Hparse).
  { unfold read_passwd in Hpw. apply sm_bind_Ok_inv in Hpw as (fd & t & E & Hpw). unfold call in E.
    destruct (os_open PASSWD_PATH 0 0 s2) as [fd' t'] eqn:Eo. injection E as -> ->.
    destruct (Z.ltb_spec fd 0); [discriminate Hpw|]. apply sm_bind_Ok_inv in Hpw as (data & t2 & Er & Hpw).
    apply sm_bind_Ok_inv in Hpw as (us & t3 & El & Hpw). unfold lift in El. injection El as El <-. injection Hpw as -> ->.
    exists data. split; [|done]. by exists fd, t. }
  unfold verify_shadow_password in Hv. apply sm_bind_Ok_inv in Hv as (st & s5 & Hr & Hv). destruct st as [|stored]; [discriminate Hv|].
  unfold lift in Hv. injection Hv as Hchk <-.
  assert (∃ sh entry, file_read SHADOW_PATH s3 sh s5 ∧ entry_of username (lines sh) = Some entry ∧ stored = copy_slice 128 (take 127 entry))
    as (sh & entry & Hsh & Hent & ->).
  { unfold read_shadow_password in Hr. apply sm_bind_Ok_inv in Hr as (fd & t & E & Hr). unfold call in E.
    destruct (os_open SHADOW_PATH 0 0 s3) as [fd' t'] eqn:Eo. injection E as -> ->.
    destruct (Z.ltb_spec fd 0); [discriminate Hr|]. apply sm_bind_Ok_inv in Hr as (data & t2 & Er & Hr).
    rewrite lookup_lines in Hr. destruct (entry_of username (lines data)) as [entry|] eqn:Ee; [|discriminate Hr].
    injection Hr as <- <-. exists data, entry. split; [by exists fd, t|]. done. }
  unfold check_password in Hchk. destruct (parse_shadow _) as [[salt_hex hash_hex]|] eqn:Hps; [|discriminate Hchk].
  rewrite sha_combined, bind_ok in Hchk. injection Hchk as Hct. rewrite const_time_eq_spec, hex_digest in Hct by apply length_digest.
  apply bool_decide_eq_true in Hct. rewrite take_ge in Hct by (rewrite length_hex, length_digest; lia).
  exists username, s1, password, s2, pw, s3, users, user, sh, s5, entry, salt_hex. rewrite Hct.
  split_and!; try done; [by eapply list_elem_of_lookup_2|].
  unfold call, mbind, SM_bind in H. destruct (os_dropring 2 s5) as [d s6]. cbn [snd]. destruct (os_exec SHELL s6) as [x s7]. by injection H as <-.
Qed.
End Passwords.

(** A shadow file with two users, and a console at which root logs in. *)
Definition bob : list Z := [98; 111; 98].
Definition old_shadow : list Z := [98; 111; 98; 58; 120; 10; 114; 111; 111; 116; 58; 121; 10].
Definition toy0 : Toy := mkToy (<[SHADOW_PATH := old_shadow]> ∅) None [].
Definition toy1 : Toy := (update_shadow_password ROOT [115; 51; 99] toy0).2.



(** The same machine with a password file, and root at the console. *)
Definition toy2 : Toy :=
  mkToy (<[PASSWD_PATH := ROOT ++ [58; 58; 58; 47; 58; 47; 10]]> (t_files toy1)) None [ROOT ++ [10]; [115; 51; 99; 10]].

Lemma login_authenticates_witness :
  (login_round toy2).1 = Ok true ∧
  ∃ username s1 password s2 pw s3 users user sh s4 entry salt_hex,
    typed toy2 username s1 ∧ username ≠ [] ∧ typed s1 password s2 ∧ password ≠ [] ∧
    file_read PASSWD_PATH s2 pw s3 ∧ parse_passwd pw = Ok users ∧ user ∈ users ∧ named username user ∧
    file_read SHADOW_PATH s3 sh s4 ∧ entry_of username (lines sh) = Some entry ∧
    parse_shadow (copy_slice 128 (take 127 entry)) =
      Some (salt_hex, concat (hex_pair <$> digest password (hex_decode_8 salt_hex))) ∧
    (login_round toy2).2 = (os_exec SHELL (os_dropring 2 s4).2).2.
Proof.
  assert ((login_round toy2).1 = Ok true) as E by (vm_compute; reflexivity). split; [exact E|].
  apply (login_authenticates toy2). rewrite <- E. apply surjective_pairing.
Defined.

(** A system on which nothing can be written: the update empties the file, so that
    nobody can log in any more, and reports success. *)
Definition full_os : Os Toy := {|
  os_open := os_open; os_read := os_read; os_close := os_close; os_create := os_create;
  os_write_fd _ _ s := (as_i64 NoSpace, s);
  os_mkdir := os_mkdir; os_getpid := os_getpid; os_getring := os_getring; os_dropring := os_dropring; os_exec := os_exec |}.
Lemma failed_update_succeeds :
  let r := @update_shadow_password Toy full_os ROOT [115; 51; 99] toy0 in
  r.1 = Ok (inr tt) ∧ t_files r.2 !! SHADOW_PATH = Some [].
Proof. vm_compute. by split. Qed.

(** Reading the password file is safe: whatever bytes it holds, [parse_passwd] never
    goes out of range and returns at most 16 users with names of 32 bytes, and looking
    up a name of less than 32 bytes among them never does either. *)
Theorem accounts_never_panic data name :
  len data < 9223372036854775808 → (length name < 32)%nat →
  ∃ users o, parse_passwd data = Ok users ∧ users_ok users ∧ find_user users name = Ok o.
Proof.
  intros Hd Hn. destruct (parse_loop_total (length data) data [] Hd) as (users & E & Hu); [by split; [simpl; lia|]|].
  destruct (find_user_total users name (proj2 Hu) Hn) as [o Ho]. by exists users, o.
Qed.

Lemma accounts_never_panic_witness :
  ∃ users o, parse_passwd [58; 58; 10; 58; 58; 58; 58; 58; 58] = Ok users ∧ users_ok users ∧ find_user users ROOT = Ok o.
Proof. apply (accounts_never_panic [58; 58; 10; 58; 58; 58; 58; 58; 58] ROOT); [reflexivity|vm_compute; lia]. Defined.

(** A name of 32 bytes that fills its entry is looked for one byte too far. *)
Lemma long_name_panics : user_matches (replicate 32 97) (mkPasswdEntry (replicate 32 97) 0 0 [] []) = Panic.
Proof. reflexivity. Qed.

(** Every user is root: the line that [useradd] writes for a user holds no uid and no
    gid, whatever numbers are asked for, and reading it back gives a user with uid 0
    and gid 0 (and the name, home and shell asked for). *)
Theorem new_users_are_root u uid gid home shell :
  u32 uid → u32 gid → u ≠ [] → nth 0 u 0 ≠ 35 → 58 ∉ u → 58 ∉ home → 58 ∉ shell →
  (length u + length home + length shell ≤ 252)%nat →
  parse_line (format_passwd_entry u uid gid home shell) =
    Ok (Some (mkPasswdEntry (copy_slice 32 u) 0 0 (copy_slice 64 home) (copy_slice 32 shell))).
Proof.
  intros Hu Hg Hne H35 Hc Hh Hs Hl. destruct (format_passwd_entry_eq u uid gid home shell Hu Hg Hl) as [k ->].
  apply parse_new_entry; try done. unfold len. lia.
Qed.

Lemma new_users_are_root_witness :
  parse_line (format_passwd_entry bob 1000 1000 (USERS ++ bob) SHELL) =
    Ok (Some (mkPasswdEntry (copy_slice 32 bob) 0 0 (copy_slice 64 (USERS ++ bob)) (copy_slice 32 SHELL))).
Proof.
  apply (new_users_are_root bob 1000 1000 (USERS ++ bob) SHELL); try (unfold u32; lia); try (vm_compute; lia); try discriminate;
    vm_compute; intros H; repeat (apply elem_of_cons in H as [H|H]; [discriminate H|]); by apply not_elem_of_nil in H.
Defined.

End AuthTheorems.
