(* ===== verification/Text.v ===== *)
(** * core/src/fmt, core/src/string.rs, core/src/types.rs: text and raw memory

    The formatting engine writes to a sink through [write_str]; a sink is modelled
    by the bytes written to it, so a function that writes returns its output.  An
    index past the end of a buffer is [Panic].  The routines of string.rs work on
    raw pointers: memory is the finite map of the bytes that may be accessed, and
    an access outside of it is [Panic] (it is undefined in the source). *)

From S2P Require Import Prelude.
From stdpp Require Import base list numbers gmap.
From Stdlib Require Import ZArith Lia.

Open Scope Z_scope.

(** ** string.rs *)

Notation mem := (gmap Z Z).

Definition ldb (m : mem) (p : Z) : result Z :=
  match m !! p with Some b => Ok b | None => Panic end.
Definition stb (m : mem) (p b : Z) : result mem :=
  match m !! p with Some _ => Ok (<[p := b]> m) | None => Panic end.

(** The unbounded loops stop at a NUL or at the end of the accessible memory:
    [size m] rounds are enough for either. *)
Fixpoint strlen_loop (fuel : nat) (m : mem) (s n : Z) : result Z :=
  match fuel with
  | O => Panic
  | S fuel => b ← ldb m (s + n); if b =? 0 then Ok n else strlen_loop fuel m s (n + 1)
  end.
Definition strlen (m : mem) (s : Z) : result Z := strlen_loop (S (size m)) m s 0.

Fixpoint strcmp_loop (fuel : nat) (m : mem) (a b i : Z) : result Z :=
  match fuel with
  | O => Panic
  | S fuel =>
      ca ← ldb m (a + i); cb ← ldb m (b + i);
      if negb (ca =? cb) then Ok (ca - cb)
      else if ca =? 0 then Ok 0
      else strcmp_loop fuel m a b (i + 1)
  end.
Definition strcmp (m : mem) (a b : Z) : result Z := strcmp_loop (S (size m)) m a b 0.

Fixpoint strncmp (m : mem) (a b : Z) (n : nat) : result Z :=
  match n with
  | O => Ok 0
  | S n =>
      ca ← ldb m a; cb ← ldb m b;
      if negb (ca =? cb) then Ok (ca - cb)
      else if ca =? 0 then Ok 0
      else strncmp m (a + 1) (b + 1) n
  end.

Fixpoint memcpy_loop (todo : nat) (m : mem) (dst src i : Z) : result mem :=
  match todo with
  | O => Ok m
  | S todo => b ← ldb m (src + i); m ← stb m (dst + i) b; memcpy_loop todo m dst src (i + 1)
  end.
Definition memcpy (m : mem) (dst src : Z) (n : nat) : result mem := memcpy_loop n m dst src 0.

Fixpoint memset_loop (todo : nat) (m : mem) (s c i : Z) : result mem :=
  match todo with
  | O => Ok m
  | S todo => m ← stb m (s + i) c; memset_loop todo m s c (i + 1)
  end.
Definition memset (m : mem) (s c : Z) (n : nat) : result mem := memset_loop n m s c 0.

Fixpoint memmove_back (i : nat) (m : mem) (dst src : Z) : result mem :=
  match i with
  | O => Ok m
  | S i => b ← ldb m (src + Z.of_nat i); m ← stb m (dst + Z.of_nat i) b; memmove_back i m dst src
  end.
Definition memmove (m : mem) (dst src : Z) (n : nat) : result mem :=
  if dst <? src then memcpy m dst src n
  else if src <? dst then memmove_back n m dst src
  else Ok m.

(** ** types.rs *)

Definition PAGE_SIZE : Z := 4096.
Definition PAGE_MASK : Z := 18446744073709551615 - (PAGE_SIZE - 1).
Definition page_align_down (x : Z) : Z := Z.land x PAGE_MASK.
(** [x + PAGE_SIZE - 1] wraps around in a release build. *)
Definition page_align_up (x : Z) : Z := Z.land (w64 (w64 (x + PAGE_SIZE) - 1)) PAGE_MASK.
Definition is_aligned (x : Z) : bool := Z.land x (PAGE_SIZE - 1) =? 0.

(** ** fmt *)

Record FmtSpec := { width : Z; zero_pad : bool }.

(** The trait [Write]: what a character comes out as. A writer passes ASCII through; the
    default method replaces what is not, as one byte is valid UTF-8 by itself only when
    it is ASCII. *)
Class Write := {
  write_char : Z → list Z;
  write_char_ascii c : c < 128 → write_char c = [c] }.
Definition default_write_char (c : Z) : list Z := if c <? 128 then [c] else [63].
#[global] Program Instance DefaultWrite : Write := {| write_char := default_write_char |}.
Next Obligation. intros c Hc. unfold default_write_char. by rewrite (proj2 (Z.ltb_lt _ _)). Qed.

Definition hex_digit (d : Z) : Z := if d <? 10 then 48 + d else 87 + d.

(** The loops that fill [buf] with the digits, the lowest first; [room] is what is
    left of its 20 bytes. *)
Fixpoint dec_digits (room : nat) (n : Z) : result (list Z) :=
  if 0 <? n then
    match room with
    | O => Panic
    | S room => ds ← dec_digits room (n / 10); Ok ((48 + n mod 10) :: ds)
    end
  else Ok [].
Fixpoint hex_digits (room : nat) (n : Z) : result (list Z) :=
  if 0 <? n then
    match room with
    | O => Panic
    | S room => ds ← hex_digits room (Z.shiftr n 4); Ok (hex_digit (Z.land n 15) :: ds)
    end
  else Ok [].
Definition digits_of (hex : bool) (n : Z) : result (list Z) :=
  if n =? 0 then Ok [48] else if hex then hex_digits 20 n else dec_digits 20 n.

Definition padding (c n : Z) : list Z := replicate (Z.to_nat n) c.

Definition write_dec (v : Z) (spec : FmtSpec) : result (list Z) :=
  let neg := v <? 0 in
  let digits := if neg then (if v =? -9223372036854775808 then Z.shiftl 1 63 else - v) else v in
  buf ← digits_of false digits;
  let total := len buf + (if neg then 1 else 0) in
  let pad := sat_sub (width spec) total in
  let sign := if neg then [45] else [] in
  Ok ((if zero_pad spec then sign ++ padding 48 pad else padding 32 pad ++ sign) ++ reverse buf).

Definition write_hex_or_dec (v : Z) (spec : FmtSpec) (hex : bool) : result (list Z) :=
  buf ← digits_of hex v;
  let pad := sat_sub (width spec) (len buf) in
  let pad_ch := if zero_pad spec then 48 else 32 in
  Ok (padding pad_ch pad ++ reverse buf).

Definition is_ascii_digit (b : Z) : bool := (48 <=? b) && (b <=? 57).
(** [saturating_mul(10).saturating_add(d)] *)
Definition sat_step (v d : Z) : Z :=
  Z.min 18446744073709551615 (Z.min 18446744073709551615 (v * 10) + d).
Fixpoint parse_num_loop (buf : list Z) (v i : Z) : Z * Z :=
  match buf with
  | b :: buf => if is_ascii_digit b then parse_num_loop buf (sat_step v (b - 48)) (i + 1) else (v, i)
  | [] => (v, i)
  end.
Definition parse_num (buf : list Z) : Z * Z := parse_num_loop buf 0 0.

Inductive Arg :=
  | Str (s : list Z) | CStr (p : Z) | Char (c : Z)
  | I64 (v : Z) | U64 (v : Z) | ISize (v : Z) | USize (v : Z).

Section Formatting.
Context `{W : Write}.

(** The [%s] loop over a NUL-terminated string. *)
Fixpoint write_cstr (fuel : nat) (m : mem) (p : Z) : result (list Z) :=
  match fuel with
  | O => Panic
  | S fuel =>
      b ← ldb m p;
      if b =? 0 then Ok [] else out ← write_cstr fuel m (p + 1); Ok (write_char b ++ out)
  end.

(** What a conversion writes, and whether it takes its argument. *)
Definition convert (m : mem) (conv : Z) (spec : FmtSpec) (arg : option Arg) : result (list Z) * bool :=
  if conv =? 37 then (Ok (write_char 37), false)
  else if conv =? 115 then
    (match arg with
     | Some (Str s) => Ok s
     | Some (CStr p) => write_cstr (S (size m)) m p
     | _ => Ok []
     end, true)
  else if conv =? 99 then
    (match arg with Some (Char c) => Ok (write_char c) | _ => Ok [] end, true)
  else if conv =? 100 then
    (match arg with
     | Some (I64 v) => write_dec v spec
     | Some (U64 v) => write_dec (to_i64 v) spec
     | Some (USize v) => write_dec (to_i64 v) spec
     | Some (ISize v) => write_dec v spec
     | _ => Ok []
     end, true)
  else if conv =? 117 then
    (match arg with
     | Some (U64 v) | Some (USize v) => write_hex_or_dec v spec false
     | _ => Ok []
     end, true)
  else if conv =? 120 then
    (match arg with
     | Some (U64 v) | Some (USize v) => write_hex_or_dec v spec true
     | _ => Ok []
     end, true)
  else if conv =? 112 then
    (match arg with
     | Some (U64 v) | Some (USize v) =>
         out ← write_hex_or_dec v {| width := 16; zero_pad := true |} true; Ok ([48; 120] ++ out)
     | _ => Ok [48; 120]
     end, true)
  else (Ok (write_char 37 ++ write_char conv), false).

(** [while bytes[i] == b'l' || bytes[i] == b'z' { i += 1 }] *)
Fixpoint skip_size (l : list Z) : list Z :=
  match l with
  | b :: l' => if (b =? 108) || (b =? 122) then skip_size l' else l
  | [] => []
  end.

(** What follows a percent sign: the specification, and the conversion character
    with the rest of the format if there is one. *)
Definition parse_spec (l : list Z) : FmtSpec * list Z :=
  let '(z, l) := match l with b :: l' => if b =? 48 then (true, l') else (false, l) | [] => (false, []) end in
  let '(w, consumed) := parse_num l in
  ({| width := w; zero_pad := z |}, skip_size (drop (Z.to_nat consumed) l)).

(** One turn takes at least one byte of the format: its length bounds the turns. *)
Fixpoint vformat_loop (fuel : nat) (m : mem) (bytes : list Z) (args : list Arg) : result (list Z) :=
  match bytes with
  | [] => Ok []
  | c :: rest =>
      match fuel with
      | O => Panic
      | S fuel =>
          if negb (c =? 37) then out ← vformat_loop fuel m rest args; Ok (write_char c ++ out)
          else match rest with
               | [] => Ok [37]
               | _ =>
                   match parse_spec rest with
                   | (spec, []) => Ok []
                   | (spec, conv :: rest) =>
                       let '(text, takes) := convert m conv spec (head args) in
                       text ← text;
                       out ← vformat_loop fuel m rest (if takes then tail args else args);
                       Ok (text ++ out)
                   end
               end
      end
  end.
Definition vformat (m : mem) (fmt : list Z) (args : list Arg) : result (list Z) :=
  vformat_loop (length fmt) m fmt args.
End Formatting.
