(* ===== verification/TextProps.v ===== *)
(** * core/src/fmt and core/src/string.rs: theorems *)

From S2P Require Import Prelude Text.
From stdpp Require Import base list numbers strings gmap.
From Stdlib Require Import ZArith Lia.

Open Scope Z_scope.

(** ** Memory *)

(** The bytes [l] are stored from [p] on. *)
Definition holds (m : mem) (p : Z) (l : list Z) : Prop :=
  ∀ i b, l !! i = Some b → m !! (p + Z.of_nat i) = Some b.
(** The [n] bytes from [p] on may be accessed. *)
Definition accessible (m : mem) (p : Z) (n : nat) : Prop :=
  ∀ q, p ≤ q < p + Z.of_nat n → is_Some (m !! q).
(** The reference: [n] bytes copied at once from [src] to [dst]. *)
Definition copied (m m' : mem) (dst src : Z) (n : nat) : Prop :=
  ∀ q, m' !! q = if decide (dst ≤ q < dst + Z.of_nat n) then m !! (q - dst + src) else m !! q.

Lemma ldb_ok m p b : m !! p = Some b → ldb m p = Ok b.
Proof. intros H. unfold ldb. by rewrite H. Qed.

Lemma stb_ok m p b : is_Some (m !! p) → stb m p b = Ok (<[p := b]> m).
Proof. intros [x H]. unfold stb. by rewrite H. Qed.

Lemma accessible_insert m p b q n : is_Some (m !! p) → accessible m q n → accessible (<[p := b]> m) q n.
Proof. intros Hp H r Hr. destruct (decide (p = r)) as [<-|?]; [rewrite lookup_insert_eq|rewrite lookup_insert_ne by done]; eauto. Qed.

Lemma holds_cons m p b l : holds m p (b :: l) → m !! p = Some b ∧ holds m (p + 1) l.
Proof.
  intros H. split.
  - specialize (H 0%nat b eq_refl). by rewrite Z.add_0_r in H.
  - intros i c Hi. specialize (H (S i) c Hi). replace (p + 1 + Z.of_nat i) with (p + Z.of_nat (S i)) by lia. done.
Qed.

(** A string fits in the memory that holds it. *)
Lemma holds_size m p l : holds m p l → (length l ≤ size m)%nat.
Proof.
  intros H. rewrite <-(size_dom (D := gset Z)).
  assert (NoDup ((λ i, p + Z.of_nat i) <$> seq 0 (length l))) as Hnd.
  { apply NoDup_fmap_2; [|apply NoDup_seq]. intros i j. lia. }
  transitivity (size (list_to_set ((λ i, p + Z.of_nat i) <$> seq 0 (length l)) : gset Z)).
  - rewrite size_list_to_set by done. by rewrite length_fmap, length_seq.
  - apply subseteq_size. intros q. rewrite elem_of_list_to_set, list_elem_of_fmap, elem_of_dom.
    intros (i & -> & Hi%elem_of_seq). destruct (lookup_lt_is_Some_2 l i) as [b Hb]; [lia|].
    rewrite (H i b Hb). eauto.
Qed.

Lemma strlen_loop_spec m s l : Forall (λ b, b ≠ 0) l →
  ∀ fuel n, holds m (s + n) (l ++ [0]) → (length l < fuel)%nat → strlen_loop fuel m s n = Ok (n + len l).
Proof.
  induction 1 as [|b l Hb _ IH]; intros [|fuel] n Hm Hf; simpl in *; try lia.
  - apply holds_cons in Hm as [Hm _]. rewrite (ldb_ok _ _ _ Hm). simpl. f_equal. unfold len. simpl. lia.
  - apply holds_cons in Hm as [Hb0 Hm]. rewrite (ldb_ok _ _ _ Hb0). simpl.
    rewrite (proj2 (Z.eqb_neq _ _) Hb), IH by (try lia; by rewrite Z.add_assoc).
    rewrite len_cons. f_equal. lia.
Qed.

(** The order of C strings: the difference of the first bytes that differ. *)
Fixpoint str_order (a b : list Z) : Z :=
  match a, b with
  | [], [] => 0
  | [], y :: _ => - y
  | x :: _, [] => x
  | x :: a, y :: b => if x =? y then str_order a b else x - y
  end.

Lemma strncmp_spec m n : ∀ a b la lb,
  Forall (λ c, c ≠ 0) la → Forall (λ c, c ≠ 0) lb →
  holds m a (la ++ [0]) → holds m b (lb ++ [0]) →
  strncmp m a b n = Ok (str_order (take n la) (take n lb)).
Proof.
  induction n as [|n IH]; intros a b la lb Ha Hb Hma Hmb; [done|].
  destruct Ha as [|x la Hx Ha], Hb as [|y lb Hy Hb]; simpl in Hma, Hmb |- *;
    apply holds_cons in Hma as [Hma0 Hma], Hmb as [Hmb0 Hmb];
    rewrite (ldb_ok _ _ _ Hma0), (ldb_ok _ _ _ Hmb0); simpl; try done.
  - by destruct y.
  - rewrite (proj2 (Z.eqb_neq _ _) Hx). simpl. f_equal. lia.
  - destruct (Z.eqb_spec x y) as [<-|?]; simpl; [|done].
    rewrite (proj2 (Z.eqb_neq _ _) Hx). by apply IH.
Qed.

Lemma strcmp_loop_spec m a b la : Forall (λ c, c ≠ 0) la →
  ∀ fuel i lb, Forall (λ c, c ≠ 0) lb →
  holds m (a + i) (la ++ [0]) → holds m (b + i) (lb ++ [0]) → (length la < fuel)%nat →
  strcmp_loop fuel m a b i = Ok (str_order la lb).
Proof.
  induction 1 as [|x la Hx Ha IH]; intros [|fuel] i lb Hb Hma Hmb Hf; simpl in Hf; try lia;
    destruct Hb as [|y lb Hy Hb]; simpl in Hma, Hmb |- *;
    apply holds_cons in Hma as [Hma0 Hma], Hmb as [Hmb0 Hmb];
    rewrite (ldb_ok _ _ _ Hma0), (ldb_ok _ _ _ Hmb0); simpl; try done.
  - by destruct y.
  - rewrite (proj2 (Z.eqb_neq _ _) Hx). simpl. f_equal. lia.
  - destruct (Z.eqb_spec x y) as [<-|?]; simpl; [|done].
    rewrite (proj2 (Z.eqb_neq _ _) Hx). apply IH; auto; rewrite ?Z.add_assoc; auto; lia.
Qed.

Lemma str_order_eq a b : Forall u8 a → Forall u8 b →
  Forall (λ c, c ≠ 0) a → Forall (λ c, c ≠ 0) b → str_order a b = 0 ↔ a = b.
Proof.
  intros Ha. revert b. induction Ha as [|x a Hx Ha IH]; intros b Hb Hza Hzb;
    destruct Hb as [|y b Hy Hb]; simpl;
    rewrite ?Forall_cons in Hza; rewrite ?Forall_cons in Hzb; unfold u8 in *.
  - done.
  - split; [lia|done].
  - split; [lia|done].
  - destruct (Z.eqb_spec x y) as [<-|Hn].
    + rewrite IH by tauto. split; [by intros ->|by intros [= ->]].
    + split; [lia|intros [= -> ->]; lia].
Qed.

(** ** Copies *)

(** One byte copied, then the rest: the copy of all, when the byte written is not
    read by the rest. *)
Lemma copied_first m m' dst src n b :
  dst ≤ src → m !! src = Some b → copied (<[dst := b]> m) m' (dst + 1) (src + 1) n → copied m m' dst src (S n).
Proof.
  intros Hle Hb H q. rewrite H. destruct (decide (dst + 1 ≤ q < dst + 1 + Z.of_nat n)) as [Hq|Hq].
  - rewrite decide_True by lia. replace (q - (dst + 1) + (src + 1)) with (q - dst + src) by lia.
    by rewrite lookup_insert_ne by lia.
  - destruct (decide (q = dst)) as [->|?].
    + rewrite lookup_insert_eq, decide_True by lia. by replace (dst - dst + src) with src by lia.
    + by rewrite decide_False, lookup_insert_ne by lia.
Qed.

Lemma copied_last m m' dst src n b :
  src ≤ dst → m !! (src + Z.of_nat n) = Some b → copied (<[dst + Z.of_nat n := b]> m) m' dst src n →
  copied m m' dst src (S n).
Proof.
  intros Hle Hb H q. rewrite H. destruct (decide (dst ≤ q < dst + Z.of_nat n)) as [Hq|Hq].
  - rewrite decide_True by lia. by rewrite lookup_insert_ne by lia.
  - destruct (decide (q = dst + Z.of_nat n)) as [->|?].
    + rewrite lookup_insert_eq, decide_True by lia.
      by replace (dst + Z.of_nat n - dst + src) with (src + Z.of_nat n) by lia.
    + by rewrite decide_False, lookup_insert_ne by lia.
Qed.

Lemma memcpy_loop_spec dst src : dst ≤ src →
  ∀ todo m i, accessible m (src + i) todo → accessible m (dst + i) todo →
  ∃ m', memcpy_loop todo m dst src i = Ok m' ∧ copied m m' (dst + i) (src + i) todo.
Proof.
  intros Hle. induction todo as [|todo IH]; intros m i Hs Hd; simpl.
  { eexists; split; [done|]. intros q. by rewrite decide_False by lia. }
  destruct (Hs (src + i)) as [b Hb]; [lia|]. rewrite (ldb_ok _ _ _ Hb). simpl.
  assert (is_Some (m !! (dst + i))) as Hdi by (apply Hd; lia).
  rewrite (stb_ok _ _ _ Hdi). simpl.
  destruct (IH (<[dst + i := b]> m) (i + 1)) as (m' & -> & Hm').
  1,2: apply accessible_insert; [done|]; intros q Hq; first [apply Hs; lia|apply Hd; lia].
  exists m'. split; [done|]. apply copied_first with b; [lia|done|].
  by rewrite <-!Z.add_assoc.
Qed.

Lemma memmove_back_spec dst src : src ≤ dst →
  ∀ n m, accessible m src n → accessible m dst n →
  ∃ m', memmove_back n m dst src = Ok m' ∧ copied m m' dst src n.
Proof.
  intros Hle. induction n as [|n IH]; intros m Hs Hd; simpl.
  { eexists; split; [done|]. intros q. by rewrite decide_False by lia. }
  destruct (Hs (src + Z.of_nat n)) as [b Hb]; [lia|]. rewrite (ldb_ok _ _ _ Hb). simpl.
  assert (is_Some (m !! (dst + Z.of_nat n))) as Hdi by (apply Hd; lia).
  rewrite (stb_ok _ _ _ Hdi). simpl.
  destruct (IH (<[dst + Z.of_nat n := b]> m)) as (m' & -> & Hm').
  1,2: apply accessible_insert; [done|]; intros q Hq; first [apply Hs; lia|apply Hd; lia].
  exists m'. split; [done|]. by apply copied_last with b.
Qed.

Lemma memset_loop_spec s c : ∀ todo m i, accessible m (s + i) todo →
  ∃ m', memset_loop todo m s c i = Ok m' ∧
    ∀ q, m' !! q = if decide (s + i ≤ q < s + i + Z.of_nat todo) then Some c else m !! q.
Proof.
  induction todo as [|todo IH]; intros m i Hs; simpl.
  { eexists; split; [done|]. intros q. by rewrite decide_False by lia. }
  assert (is_Some (m !! (s + i))) as Hsi by (apply Hs; lia).
  rewrite (stb_ok _ _ _ Hsi). simpl.
  destruct (IH (<[s + i := c]> m) (i + 1)) as (m' & -> & Hm').
  { apply accessible_insert; [done|]. intros q Hq. apply Hs. lia. }
  exists m'. split; [done|]. intros q. rewrite Hm'.
  destruct (decide (q = s + i)) as [->|?].
  - rewrite decide_False, lookup_insert_eq, decide_True by lia. done.
  - rewrite lookup_insert_ne by done. by destruct (decide _), (decide _); try lia.
Qed.

(** ** Numbers *)

Definition from_digits (base : Z) (val : Z → Z) (ds : list Z) : Z :=
  foldr (λ d acc, val d + base * acc) 0 ds.
Definition dec_val (d : Z) : Z := d - 48.
Definition hex_dval (d : Z) : Z := if d <? 58 then d - 48 else d - 87.

Lemma dec_digits_spec room : ∀ n, 0 ≤ n < 10 ^ Z.of_nat room →
  ∃ ds, dec_digits room n = Ok ds ∧ Forall (λ d, 48 ≤ d ≤ 57) ds ∧ from_digits 10 dec_val ds = n.
Proof.
  induction room as [|room IH]; intros n Hn; simpl; destruct (Z.ltb_spec 0 n) as [Hp|Hp].
  1: change (10 ^ Z.of_nat 0) with 1 in Hn; lia.
  1,3: eexists; split_and!; [done..|simpl; lia].
  rewrite Nat2Z.inj_succ, Z.pow_succ_r in Hn by lia.
  destruct (IH (n / 10)) as (ds & -> & Hds & Hv).
  { split; [apply Z.div_pos; lia|apply Z.div_lt_upper_bound; lia]. }
  simpl. eexists; split_and!; [done| |].
  - constructor; [|done]. pose proof (Z.mod_pos_bound n 10). lia.
  - simpl. rewrite Hv. unfold dec_val. pose proof (Z.div_mod n 10). lia.
Qed.

Lemma hex_digits_spec room : ∀ n, 0 ≤ n < 16 ^ Z.of_nat room →
  ∃ ds, hex_digits room n = Ok ds ∧ Forall (λ d, 48 ≤ d ≤ 57 ∨ 97 ≤ d ≤ 102) ds ∧
    from_digits 16 hex_dval ds = n.
Proof.
  induction room as [|room IH]; intros n Hn; simpl; destruct (Z.ltb_spec 0 n) as [Hp|Hp].
  1: change (16 ^ Z.of_nat 0) with 1 in Hn; lia.
  1,3: eexists; split_and!; [done..|simpl; lia].
  rewrite Nat2Z.inj_succ, Z.pow_succ_r in Hn by lia.
  change 15 with (Z.ones 4). rewrite Z.shiftr_div_pow2, (Z.land_ones n 4) by lia. change (2 ^ 4) with 16.
  destruct (IH (n / 16)) as (ds & -> & Hds & Hv).
  { split; [apply Z.div_pos; lia|apply Z.div_lt_upper_bound; lia]. }
  simpl. pose proof (Z.mod_pos_bound n 16 ltac:(lia)). pose proof (Z.div_mod n 16 ltac:(lia)).
  eexists; split_and!; [done| |].
  - constructor; [|done]. unfold hex_digit. destruct (Z.ltb_spec (n mod 16) 10); lia.
  - simpl. rewrite Hv. unfold hex_digit, hex_dval. destruct (Z.ltb_spec (n mod 16) 10).
    + rewrite (proj2 (Z.ltb_lt _ _)) by lia. lia.
    + rewrite (proj2 (Z.ltb_ge _ _)) by lia. lia.
Qed.

(** Twenty bytes hold the digits of every 64-bit number. *)
Lemma dec_of_spec n : u64 n →
  ∃ ds, digits_of false n = Ok ds ∧ ds ≠ [] ∧ Forall (λ d, 48 ≤ d ≤ 57) ds ∧ from_digits 10 dec_val ds = n.
Proof.
  unfold u64, digits_of. intros Hn. destruct (Z.eqb_spec n 0) as [->|?].
  { exists [48]. split_and!; [done..| |done]. repeat constructor; lia. }
  destruct (dec_digits_spec 20 n) as (ds & Hd & Hf & Hv); [change (10 ^ Z.of_nat 20) with 100000000000000000000; lia|].
  exists ds. split_and!; auto. intros ->. simpl in Hv. lia.
Qed.

Lemma hex_of_spec n : u64 n →
  ∃ ds, digits_of true n = Ok ds ∧ ds ≠ [] ∧ Forall (λ d, 48 ≤ d ≤ 57 ∨ 97 ≤ d ≤ 102) ds ∧
    from_digits 16 hex_dval ds = n.
Proof.
  unfold u64, digits_of. intros Hn. destruct (Z.eqb_spec n 0) as [->|?].
  { exists [48]. split_and!; [done..| |done]. repeat constructor; lia. }
  destruct (hex_digits_spec 20 n) as (ds & Hd & Hf & Hv); [change (16 ^ Z.of_nat 20) with 1208925819614629174706176; lia|].
  exists ds. split_and!; auto. intros ->. simpl in Hv. lia.
Qed.

(** The value of digits, the highest first, read from the left. *)
Definition read_digits (base : Z) (val : Z → Z) (ds : list Z) (v : Z) : Z :=
  foldl (λ acc d, acc * base + val d) v ds.

Lemma read_reverse base val ds : read_digits base val (reverse ds) 0 = from_digits base val ds.
Proof.
  unfold read_digits. induction ds as [|d ds IH]; [done|].
  rewrite reverse_cons, foldl_app, IH. simpl. lia.
Qed.

Lemma read_zeros base val n ds : val 48 = 0 → read_digits base val (padding 48 n ++ ds) 0 = read_digits base val ds 0.
Proof.
  intros H0. unfold read_digits, padding. rewrite foldl_app. f_equal.
  induction (Z.to_nat n) as [|k IH]; [done|]. simpl. by rewrite H0.
Qed.

Lemma digit_bounds b : is_ascii_digit b = true ↔ 48 ≤ b ≤ 57.
Proof. unfold is_ascii_digit. rewrite andb_true_iff, !Z.leb_le. done. Qed.

Lemma read_digits_grows ds : ∀ v, Forall (λ d, 48 ≤ d ≤ 57) ds → 0 ≤ v → v ≤ read_digits 10 dec_val ds v.
Proof.
  induction ds as [|d ds IH]; intros v Hds Hv; [done|].
  apply Forall_cons in Hds as [Hd Hds]. simpl.
  specialize (IH (v * 10 + dec_val d) Hds). unfold read_digits, dec_val in *. lia.
Qed.

Lemma parse_num_digits ds rest : ∀ v i, Forall (λ d, 48 ≤ d ≤ 57) ds →
  (∀ b, head rest = Some b → is_ascii_digit b = false) →
  0 ≤ v → u64 (read_digits 10 dec_val ds v) →
  parse_num_loop (ds ++ rest) v i = (read_digits 10 dec_val ds v, i + len ds).
Proof.
  induction ds as [|d ds IH]; intros v i Hds Hrest Hv Hb; simpl.
  { unfold len. simpl. rewrite Z.add_0_r. destruct rest as [|b rest]; [done|]. simpl. by rewrite (Hrest b). }
  apply Forall_cons in Hds as [Hd Hds]. rewrite (proj2 (digit_bounds d) Hd).
  assert (0 ≤ v * 10 + dec_val d) as H0 by (unfold dec_val; lia).
  pose proof (read_digits_grows ds _ Hds H0) as Hg.
  assert (sat_step v (d - 48) = v * 10 + dec_val d) as ->.
  { unfold sat_step. unfold u64, dec_val in *. simpl in Hb. unfold read_digits, dec_val in *. lia. }
  rewrite IH by (try done; unfold dec_val; lia). rewrite len_cons. f_equal. lia.
Qed.

(** ** The engine *)

(** An argument whose value is of its type and whose C string is terminated. *)
Definition arg_ok (m : mem) (a : Arg) : Prop :=
  match a with
  | CStr p => ∃ l, Forall (λ b, b ≠ 0) l ∧ holds m p (l ++ [0])
  | I64 v | ISize v => -9223372036854775808 ≤ v < 9223372036854775808
  | U64 v | USize v => u64 v
  | Str _ | Char _ => True
  end.

Lemma to_i64_range v : u64 v → -9223372036854775808 ≤ to_i64 v < 9223372036854775808.
Proof.
  unfold u64, to_i64. intros Hv. rewrite w64_small by done. destruct (Z.ltb_spec v 9223372036854775808); lia.
Qed.

Lemma magnitude_ok v : -9223372036854775808 ≤ v < 9223372036854775808 →
  (if v <? 0 then (if v =? -9223372036854775808 then Z.shiftl 1 63 else - v) else v) = Z.abs v ∧ u64 (Z.abs v).
Proof.
  intros Hv. unfold u64. split; [|lia]. change (Z.shiftl 1 63) with 9223372036854775808.
  destruct (Z.ltb_spec v 0); [|lia]. destruct (Z.eqb_spec v (-9223372036854775808)); lia.
Qed.

Lemma write_dec_Ok v spec : -9223372036854775808 ≤ v < 9223372036854775808 → ∃ out, write_dec v spec = Ok out.
Proof.
  intros Hv. unfold write_dec. destruct (magnitude_ok v Hv) as [-> Hu].
  destruct (dec_of_spec _ Hu) as (ds & -> & _). eauto.
Qed.

Lemma write_hex_or_dec_Ok v spec hex : u64 v → ∃ out, write_hex_or_dec v spec hex = Ok out.
Proof.
  intros Hv. unfold write_hex_or_dec. destruct hex;
    [destruct (hex_of_spec v Hv) as (ds & -> & _)|destruct (dec_of_spec v Hv) as (ds & -> & _)]; eauto.
Qed.

Lemma write_cstr_spec `{W : Write} m l : Forall (λ b, b ≠ 0) l → ∀ fuel p,
  holds m p (l ++ [0]) → (length l < fuel)%nat → write_cstr fuel m p = Ok (l ≫= write_char).
Proof.
  induction 1 as [|b l Hb _ IH]; intros [|fuel] p Hm Hf; simpl in *; try lia;
    apply holds_cons in Hm as [Hm0 Hm]; rewrite (ldb_ok _ _ _ Hm0); simpl; [done|].
  by rewrite (proj2 (Z.eqb_neq _ _) Hb), IH by (auto; lia).
Qed.

Lemma cstr_Ok `{W : Write} m p l : Forall (λ b, b ≠ 0) l → holds m p (l ++ [0]) →
  write_cstr (S (size m)) m p = Ok (l ≫= write_char).
Proof.
  intros Hl Hm. apply write_cstr_spec; auto.
  pose proof (holds_size _ _ _ Hm) as Hs. rewrite length_app in Hs. simpl in Hs. lia.
Qed.

(** *** What a format means *)

(** A format is characters, directives, and a tail: the end, a percent sign, or a
    directive that is cut off. *)
Inductive Item :=
  | Lit (c : Z)
  | Dir (zero : bool) (w size : list Z) (conv : Z).
Inductive Tail := Done | Percent | Cut (zero : bool) (w size : list Z).

Definition flags (zero : bool) (w size : list Z) : list Z := (if zero then [48] else []) ++ w ++ size.
Definition show (it : Item) : list Z :=
  match it with Lit c => [c] | Dir z w size conv => 37 :: flags z w size ++ [conv] end.
Definition show_tail (t : Tail) : list Z :=
  match t with Done => [] | Percent => [37] | Cut z w size => 37 :: flags z w size end.
Definition show_all (items : list Item) (t : Tail) : list Z := (items ≫= show) ++ show_tail t.

(** The width has no leading zero, which would be the flag; a conversion that is a digit
    is one only behind a size. *)
Definition flags_ok (z : bool) (w size : list Z) : Prop :=
  Forall (λ d, 48 ≤ d ≤ 57) w ∧ (z = false → head w ≠ Some 48) ∧ Forall (λ b, b = 108 ∨ b = 122) size.
Definition item_ok (it : Item) : Prop :=
  match it with
  | Lit c => c ≠ 37
  | Dir z w size conv => flags_ok z w size ∧ (size = [] → is_ascii_digit conv = false) ∧ conv ≠ 108 ∧ conv ≠ 122
  end.
Definition tail_ok (t : Tail) : Prop :=
  match t with Cut z w size => flags_ok z w size ∧ flags z w size ≠ [] | _ => True end.

(** A numeral: digits of a base, the highest first, that have the value and no leading zero. *)
Definition NUMERALS : list Z := txt "0123456789abcdef".
Definition numeral (base n : Z) (ds : list Z) : Prop :=
  ∃ vs, Forall2 (λ d v, NUMERALS !! Z.to_nat v = Some d ∧ 0 ≤ v < base) ds vs ∧
    foldl (λ acc v, base * acc + v) 0 vs = n ∧ vs ≠ [] ∧ (head vs = Some 0 → vs = [0]).

(** A number filled up to a width: zeros go behind the sign, spaces before it. *)
Definition filled_to (zero : bool) (w : Z) (sign ds : list Z) : list Z :=
  let fill := w - len sign - len ds in
  if zero then sign ++ replicate (Z.to_nat fill) 48 ++ ds else replicate (Z.to_nat fill) 32 ++ sign ++ ds.
Definition prints (base : Z) (zero : bool) (w v : Z) (out : list Z) : Prop :=
  ∃ ds, numeral base (Z.abs v) ds ∧ out = filled_to zero w (if v <? 0 then txt "-" else []) ds.

(** The width: the value of its digits, as far as the machine word goes *)
Definition width_of (w : list Z) : Z := Z.min 18446744073709551615 (foldl (λ acc d, 10 * acc + (d - 48)) 0 w).

Definition signed (a : Arg) : option Z :=
  match a with
  | I64 v | ISize v => Some v
  | U64 v | USize v => Some (if v <? 2 ^ 63 then v else v - 2 ^ 64)
  | _ => None
  end.
Definition unsigned (a : Arg) : option Z := match a with U64 v | USize v => Some v | _ => None end.
Definition c_string (m : mem) (p : Z) (l : list Z) : Prop := Forall (λ b, b ≠ 0) l ∧ holds m p (l ++ [0]).

Section Meaning.
Context `{W : Write} (m : mem).

(** What a directive prints; a number or a pointer of another type prints nothing. *)
Definition no_arg (out : list Z) : Prop := out = [].
Definition of_arg (o : option Z) (P : Z → list Z → Prop) : list Z → Prop := match o with Some v => P v | None => no_arg end.
Definition meaning (zero : bool) (w conv : Z) (a : option Arg) : list Z → Prop :=
  if bool_decide ([conv] = txt "%") then λ out, out = write_char conv else
  if bool_decide ([conv] = txt "s") then
    match a with
    | Some (Str s) => λ out, out = s
    | Some (CStr p) => λ out, ∃ l, c_string m p l ∧ out = l ≫= write_char
    | _ => no_arg
    end else
  if bool_decide ([conv] = txt "c") then match a with Some (Char c) => λ out, out = write_char c | _ => no_arg end else
  if bool_decide ([conv] = txt "d") then of_arg (a ≫= signed) (prints 10 zero w) else
  if bool_decide ([conv] = txt "u") then of_arg (a ≫= unsigned) (prints 10 zero w) else
  if bool_decide ([conv] = txt "x") then of_arg (a ≫= unsigned) (prints 16 zero w) else
  if bool_decide ([conv] = txt "p") then
    λ out, ∃ digits, of_arg (a ≫= unsigned) (prints 16 true 16) digits ∧ out = txt "0x" ++ digits
  else λ out, out = write_char 37 ++ write_char conv.
Definition takes (conv : Z) : bool := bool_decide (conv ∈ txt "scduxp").

Inductive renders (t : Tail) : list Item → list Arg → list Z → Prop :=
  | renders_end args : renders t [] args (match t with Percent => txt "%" | _ => [] end)
  | renders_char c items args out : renders t items args out → renders t (Lit c :: items) args (write_char c ++ out)
  | renders_directive z w size conv items args text out :
      meaning z (width_of w) conv (head args) text → renders t items (if takes conv then tail args else args) out →
      renders t (Dir z w size conv :: items) args (text ++ out).
End Meaning.

(** *** The parser of directives *)

Lemma parse_num_width w rest : Forall (λ d, 48 ≤ d ≤ 57) w →
  (∀ b, head rest = Some b → is_ascii_digit b = false) → parse_num (w ++ rest) = (width_of w, len w).
Proof.
  intros Hw Hr. unfold parse_num, width_of.
  assert (∀ V i, 0 ≤ V → parse_num_loop (w ++ rest) (Z.min 18446744073709551615 V) i =
    (Z.min 18446744073709551615 (foldl (λ acc d, 10 * acc + (d - 48)) V w), i + len w)) as H;
    [|exact (H 0 0 ltac:(lia))].
  induction Hw as [|d w Hd _ IH]; intros V i HV; simpl.
  - unfold len. simpl. rewrite Z.add_0_r. destruct rest as [|b rest]; [done|]. simpl. by rewrite (Hr b).
  - rewrite (proj2 (digit_bounds d) Hd). unfold sat_step.
    replace (Z.min 18446744073709551615 (Z.min 18446744073709551615 (Z.min 18446744073709551615 V * 10) + (d - 48)))
      with (Z.min 18446744073709551615 (10 * V + (d - 48))) by lia.
    rewrite IH by lia. rewrite len_cons. f_equal. lia.
Qed.

Lemma skip_size_app size rest : Forall (λ b, b = 108 ∨ b = 122) size →
  (∀ b, head rest = Some b → b ≠ 108 ∧ b ≠ 122) → skip_size (size ++ rest) = rest.
Proof.
  intros Hs H. induction Hs as [|b size Hb _ IH]; simpl.
  - destruct rest as [|b rest]; [done|]. destruct (H b eq_refl) as [H1 H2]. simpl.
    by rewrite (proj2 (Z.eqb_neq _ _) H1), (proj2 (Z.eqb_neq _ _) H2).
  - by destruct Hb as [-> | ->].
Qed.

Lemma parse_spec_flags z w size rest : flags_ok z w size →
  (∀ b, head rest = Some b → b ≠ 108 ∧ b ≠ 122 ∧ (size = [] → is_ascii_digit b = false)) →
  parse_spec (flags z w size ++ rest) = ({| width := width_of w; zero_pad := z |}, rest).
Proof.
  intros (Hw & Hz & Hs) Hr. unfold flags. rewrite <- !app_assoc.
  assert (∀ b, head (size ++ rest) = Some b → is_ascii_digit b = false) as Hh.
  { intros b. destruct size as [|s size]; simpl; [intros Hb; by apply Hr|intros [= <-]].
    apply Forall_cons in Hs as [[-> | ->] _]; done. }
  assert (∀ z', (let '(v, consumed) := parse_num (w ++ size ++ rest) in
    ({| width := v; zero_pad := z' |}, skip_size (drop (Z.to_nat consumed) (w ++ size ++ rest)))) =
    ({| width := width_of w; zero_pad := z' |}, rest)) as Hp.
  { intros z'. rewrite (parse_num_width w) by done.
    unfold len. rewrite Nat2Z.id, drop_app_length. rewrite skip_size_app; [done|done|]. intros b Hb. destruct (Hr b Hb) as (? & ? & _). done. }
  unfold parse_spec. destruct z; simpl; [apply Hp|]. specialize (Hp false).
  destruct (w ++ size ++ rest) as [|b r] eqn:E; [done|].
  destruct (Z.eqb_spec b 48) as [->|?]; [|apply Hp].
  destruct w as [|d w]; simplify_eq/=; [|naive_solver].
  specialize (Hh 48). rewrite E in Hh. by specialize (Hh eq_refl).
Qed.

(** *** Numerals *)

Definition digit_of (base d v : Z) : Prop := NUMERALS !! Z.to_nat v = Some d ∧ 0 ≤ v < base.
(** The value of digits, the lowest first *)
Definition low_value (base : Z) (us : list Z) : Z := foldr (λ v acc, v + base * acc) 0 us.

Lemma value_reverse base us : foldl (λ acc v, base * acc + v) 0 (reverse us) = low_value base us.
Proof. unfold low_value. induction us as [|u us IH]; [done|]. rewrite reverse_cons, foldl_app, IH. simpl. lia. Qed.

Lemma low_value_pos base us : 1 < base → Forall (λ v, 0 ≤ v < base) us → last us ≠ Some 0 →
  0 ≤ low_value base us ∧ (us ≠ [] → 0 < low_value base us).
Proof.
  intros Hb. induction 1 as [|u us Hu _ IH]; intros Hl; [done|]. destruct us as [|u' us].
  - cbn in *. assert (u ≠ 0) by congruence. lia.
  - rewrite last_cons_cons in Hl. destruct (IH Hl) as [_ H]. specialize (H ltac:(done)).
    change (low_value base (u :: u' :: us)) with (u + base * low_value base (u' :: us)). nia.
Qed.

Lemma low_value_inj base us : ∀ us', 1 < base → Forall (λ v, 0 ≤ v < base) us → Forall (λ v, 0 ≤ v < base) us' →
  last us ≠ Some 0 → last us' ≠ Some 0 → low_value base us = low_value base us' → us = us'.
Proof.
  induction us as [|u us IH]; intros [|u' us'] Hb Hu Hu' Hl Hl' E; [done| | |].
  - destruct (low_value_pos base (u' :: us') Hb Hu' Hl') as [_ H]. specialize (H ltac:(done)). change (low_value base []) with 0 in E. lia.
  - destruct (low_value_pos base (u :: us) Hb Hu Hl) as [_ H]. specialize (H ltac:(done)). change (low_value base []) with 0 in E. lia.
  - apply Forall_cons in Hu as [Hu Hus], Hu' as [Hu' Hus'].
    change (u + base * low_value base us = u' + base * low_value base us') in E.
    destruct (Z.div_mod_unique base (low_value base us) (low_value base us') u u') as [E' ->]; [lia..|]. f_equal.
    apply IH; try done.
    + destruct us; [done|]. by rewrite last_cons_cons in Hl.
    + destruct us'; [done|]. by rewrite last_cons_cons in Hl'.
Qed.

Lemma digits_fun base ds : ∀ ds' vs, Forall2 (digit_of base) ds vs → Forall2 (digit_of base) ds' vs → ds = ds'.
Proof.
  induction ds as [|d ds IH]; intros ds' vs H1 H2; inversion H1; subst; inversion H2; subst; [done|].
  f_equal; [|by eapply IH]. match goal with A : digit_of _ d _, B : digit_of _ _ _ |- _ => destruct A, B end. congruence.
Qed.

Lemma numeral_unique base n ds ds' : 1 < base → numeral base n ds → numeral base n ds' → ds = ds'.
Proof.
  intros Hb (vs & Hd & Hv & Hne & Hz) (vs' & Hd' & Hv' & Hne' & Hz').
  assert (vs = vs') as ->; [|by eapply digits_fun].
  assert (∀ ds vs, Forall2 (λ d v, NUMERALS !! Z.to_nat v = Some d ∧ 0 ≤ v < base) ds vs → Forall (λ v, 0 ≤ v < base) (reverse vs)) as Hr.
  { intros es us H. apply Forall_reverse. by eapply Forall2_Forall_r; [exact H|]; apply Forall_forall; intros ? _ ? []. }
  pose proof (Hr _ _ Hd) as Hf. pose proof (Hr _ _ Hd') as Hf'. clear Hr Hd Hd'.
  rewrite <- (reverse_involutive vs), value_reverse in Hv. rewrite <- (reverse_involutive vs'), value_reverse in Hv'.
  assert (∀ us : list Z, us ≠ [] → head us ≠ Some 0 → last (reverse us) ≠ Some 0 ∧ reverse us ≠ []) as Hl.
  { intros us Hu H. rewrite last_reverse. split; [done|]. intros E. apply Hu. by rewrite <- (reverse_involutive us), E. }
  destruct (decide (head vs = Some 0)) as [E|E]; destruct (decide (head vs' = Some 0)) as [E'|E'].
  - by rewrite (Hz E), (Hz' E').
  - rewrite (Hz E) in *. destruct (Hl vs' Hne' E') as [H1 H2]. pose proof (proj2 (low_value_pos base _ Hb Hf' H1) H2). cbn in Hv. lia.
  - rewrite (Hz' E') in *. destruct (Hl vs Hne E) as [H1 H2]. pose proof (proj2 (low_value_pos base _ Hb Hf H1) H2). cbn in Hv'. lia.
  - rewrite <- (reverse_involutive vs), <- (reverse_involutive vs'). f_equal.
    apply (low_value_inj base); [done|done|done|by apply Hl|by apply Hl|congruence].
Qed.

(** The digits of the code, the lowest first *)
Lemma digit_chars v : 0 ≤ v < 16 → NUMERALS !! Z.to_nat v = Some (hex_digit v) ∧ (v < 10 → hex_digit v = 48 + v).
Proof.
  intros Hv. split; [|intros Hlt; unfold hex_digit; by rewrite (proj2 (Z.ltb_lt _ _))].
  set (P := λ v, bool_decide (NUMERALS !! Z.to_nat v = Some (hex_digit v))).
  assert (P v = true) as H by (apply (below_by_eval P 16); [vm_compute; reflexivity|lia]). by apply bool_decide_eq_true in H.
Qed.

Lemma digits_low hex room : ∀ n, 0 < n < (if hex : bool then 16 else 10) ^ Z.of_nat room →
  ∃ ds us, (if hex then hex_digits room n else dec_digits room n) = Ok ds ∧
    Forall2 (digit_of (if hex then 16 else 10)) ds us ∧ low_value (if hex then 16 else 10) us = n ∧ us ≠ [] ∧ last us ≠ Some 0.
Proof.
  induction room as [|room IH]; intros n Hn; [destruct hex; simpl in Hn; lia|].
  set (b := if hex then 16 else 10) in *. assert (1 < b ≤ 16) as Hb by (unfold b; destruct hex; lia).
  rewrite Nat2Z.inj_succ, Z.pow_succ_r in Hn by lia.
  pose proof (Z.mod_pos_bound n b ltac:(lia)) as Hm. pose proof (Z.div_mod n b ltac:(lia)) as Hdm.
  assert (∃ ds us, (if hex then hex_digits room (n / b) else dec_digits room (n / b)) = Ok ds ∧ Forall2 (digit_of b) ds us ∧
    low_value b us = n / b ∧ last us ≠ Some 0 ∧ (us = [] → n / b = 0)) as (ds & us & Hd & Hf & Hv & Hl & Hz).
  { destruct (decide (n / b = 0)) as [E|E].
    - exists [], []. rewrite E. split_and!; [by destruct hex, room|constructor|done..].
    - destruct (IH (n / b)) as (ds & us & H1 & H2 & H3 & H4 & H5).
      { split; [pose proof (Z.div_pos n b); lia|]. apply Z.div_lt_upper_bound; lia. }
      exists ds, us. by split_and!. }
  exists (hex_digit (n mod b) :: ds), (n mod b :: us). split_and!.
  - unfold b in *. destruct hex; cbn [hex_digits dec_digits]; rewrite (proj2 (Z.ltb_lt 0 n)) by lia.
    + change 15 with (Z.ones 4). rewrite Z.shiftr_div_pow2, (Z.land_ones n 4) by lia. change (2 ^ 4) with 16. by rewrite Hd.
    + rewrite Hd. simpl. by rewrite (proj2 (digit_chars (n mod 10) ltac:(lia))) by lia.
  - constructor; [|done]. split; [apply digit_chars; lia|done].
  - cbn [low_value foldr]. change (foldr (λ v acc, v + b * acc) 0 us) with (low_value b us). lia.
  - done.
  - destruct us as [|u us]; [|by rewrite last_cons_cons]. cbn. specialize (Hz eq_refl). intros [= E]. lia.
Qed.

Lemma digits_numeral hex n : u64 n →
  ∃ ds, digits_of hex n = Ok ds ∧ numeral (if hex then 16 else 10) n (reverse ds).
Proof.
  intros Hn. unfold digits_of. destruct (Z.eqb_spec n 0) as [->|Hne].
  { exists [48]. split; [done|]. exists [0]. destruct hex; (split_and!; [|done..]); (constructor; [|constructor]); split; (done || lia). }
  destruct (digits_low hex 20 n) as (ds & us & Hd & Hf & Hv & Hu & Hl).
  { unfold u64 in Hn. destruct hex; [change (16 ^ Z.of_nat 20) with 1208925819614629174706176|
      change (10 ^ Z.of_nat 20) with 100000000000000000000]; lia. }
  exists ds. split; [by destruct hex|]. exists (reverse us). split_and!.
  - by apply Forall2_reverse.
  - by rewrite value_reverse.
  - intros E. apply Hu. by rewrite <- (reverse_involutive us), E.
  - intros E. exfalso. apply Hl. by rewrite <- head_reverse.
Qed.

(** *** The engine prints what the format means *)

Lemma filled_unsigned zero w ds : 0 ≤ w →
  filled_to zero w [] ds = padding (if zero then 48 else 32) (sat_sub w (len ds)) ++ ds.
Proof.
  intros Hw. unfold filled_to, padding, sat_sub. change (len []) with 0. rewrite Z.sub_0_r.
  destruct zero; simpl; f_equal; f_equal; lia.
Qed.

Lemma width_of_nonneg w : Forall (λ d, 48 ≤ d ≤ 57) w → 0 ≤ width_of w.
Proof.
  intros Hw. unfold width_of. assert (∀ v, 0 ≤ v → 0 ≤ foldl (λ acc d, 10 * acc + (d - 48)) v w) as H; [|specialize (H 0); lia].
  induction Hw as [|d w Hd _ IH]; intros v Hv; simpl; [done|]. apply IH. lia.
Qed.

Lemma len_reverse {A} (l : list A) : len (reverse l) = len l.
Proof. unfold len. by rewrite length_reverse. Qed.

Lemma write_hex_or_dec_prints v spec hex : u64 v → 0 ≤ width spec →
  ∃ out, write_hex_or_dec v spec hex = Ok out ∧ prints (if hex then 16 else 10) (zero_pad spec) (width spec) v out.
Proof.
  intros Hv Hw. destruct (digits_numeral hex v Hv) as (ds & Hd & Hn). unfold write_hex_or_dec. rewrite Hd. simpl.
  eexists. split; [done|]. exists (reverse ds). unfold u64 in Hv. rewrite Z.abs_eq by lia. split; [done|].
  rewrite (proj2 (Z.ltb_ge v 0)) by lia. by rewrite filled_unsigned, len_reverse.
Qed.

Lemma write_dec_prints v spec : -9223372036854775808 ≤ v < 9223372036854775808 → 0 ≤ width spec →
  ∃ out, write_dec v spec = Ok out ∧ prints 10 (zero_pad spec) (width spec) v out.
Proof.
  intros Hv Hw. unfold write_dec. destruct (magnitude_ok v Hv) as [-> Hu].
  destruct (digits_numeral false _ Hu) as (ds & Hd & Hn). rewrite Hd. simpl. eexists. split; [done|].
  exists (reverse ds). split; [done|]. unfold filled_to, padding, sat_sub. rewrite len_reverse.
  destruct (v <? 0).
  - change (len (txt "-")) with 1. change (txt "-") with [45].
    replace (Z.to_nat (width spec - 1 - len ds)) with (Z.to_nat (Z.max 0 (width spec - (len ds + 1)))) by lia.
    destruct (zero_pad spec); simpl; by rewrite <- ?app_assoc.
  - change (len []) with 0. replace (Z.to_nat (width spec - 0 - len ds)) with (Z.to_nat (Z.max 0 (width spec - (len ds + 0)))) by lia.
    destruct (zero_pad spec); simpl; by rewrite <- ?app_assoc.
Qed.

Lemma prints_unique base zero w v out out' : 1 < base → prints base zero w v out → prints base zero w v out' → out = out'.
Proof. intros Hb (ds & Hd & ->) (ds' & Hd' & ->). f_equal. by eapply numeral_unique. Qed.

Lemma c_string_unique m p l l' : c_string m p l → c_string m p l' → l = l'.
Proof.
  intros [Hz H] [Hz' H']. revert p l' Hz' H H'. induction Hz as [|b l Hb _ IH]; intros p l' Hz' H H'.
  - destruct Hz' as [|b' l' Hb' _]; [done|]. apply holds_cons in H as [H _], H' as [H' _]. congruence.
  - destruct Hz' as [|b' l' Hb' Hz']; simpl in *; apply holds_cons in H as [H Hr], H' as [H' Hr']; [congruence|].
    f_equal; [congruence|]. by eapply IH.
Qed.

Lemma signed_i64 a v m : arg_ok m a → signed a = Some v →
  -9223372036854775808 ≤ v < 9223372036854775808 ∧ match a with U64 u | USize u => to_i64 u | I64 u | ISize u => u | _ => v end = v.
Proof.
  intros Ha Hs. destruct a; simplify_eq/=; [done| |done|]; unfold u64 in Ha; unfold to_i64; rewrite w64_small by done;
    change (2 ^ 63) with 9223372036854775808 in *; change (2 ^ 64) with 18446744073709551616 in *;
    destruct (Z.ltb_spec v0 9223372036854775808) || destruct (Z.ltb_spec v 9223372036854775808); lia.
Qed.

Section Engine.
Context `{W : Write} (m : mem).

Lemma letter (c k : Z) : bool_decide ([c] = [k]) = (c =? k).
Proof. destruct (Z.eqb_spec c k) as [->|H]; [by apply bool_decide_eq_true|]. apply bool_decide_eq_false. congruence. Qed.

(** [meaning] and [takes] by the code of the letter *)
Lemma meaning_eq z w conv a : meaning m z w conv a =
  if conv =? 37 then λ out, out = write_char conv else
  if conv =? 115 then
    match a with
    | Some (Str s) => λ out, out = s
    | Some (CStr p) => λ out, ∃ l, c_string m p l ∧ out = l ≫= write_char
    | _ => no_arg
    end else
  if conv =? 99 then match a with Some (Char c) => λ out, out = write_char c | _ => no_arg end else
  if conv =? 100 then of_arg (a ≫= signed) (prints 10 z w) else
  if conv =? 117 then of_arg (a ≫= unsigned) (prints 10 z w) else
  if conv =? 120 then of_arg (a ≫= unsigned) (prints 16 z w) else
  if conv =? 112 then
    λ out, ∃ digits, of_arg (a ≫= unsigned) (prints 16 true 16) digits ∧ out = txt "0x" ++ digits
  else λ out, out = write_char 37 ++ write_char conv.
Proof. unfold meaning. rewrite <- !letter. reflexivity. Qed.
Lemma takes_eq conv : takes conv = (conv =? 115) || (conv =? 99) || (conv =? 100) || (conv =? 117) || (conv =? 120) || (conv =? 112).
Proof.
  unfold takes. change (txt "scduxp") with [115; 99; 100; 117; 120; 112]. apply eq_true_iff_eq.
  rewrite bool_decide_eq_true, !elem_of_cons, !orb_true_iff, !Z.eqb_eq. set_solver.
Qed.

Lemma convert_meaning conv spec a : (∀ x, a = Some x → arg_ok m x) → 0 ≤ width spec →
  ∃ out, convert m conv spec a = (Ok out, takes conv) ∧ meaning m (zero_pad spec) (width spec) conv a out.
Proof.
  intros Ha Hw. rewrite meaning_eq, takes_eq. unfold convert.
  destruct (Z.eqb_spec conv 37) as [->|_]; [by eexists|].
  destruct (Z.eqb_spec conv 115) as [->|_].
  { destruct a as [[]|]; try (by eexists). destruct (Ha _ eq_refl) as (l & Hl & Hm).
    rewrite (cstr_Ok (W := W) _ _ _ Hl Hm). eexists. split; [done|]. by exists l. }
  destruct (Z.eqb_spec conv 99) as [->|_]; [destruct a as [[]|]; by eexists|].
  destruct (Z.eqb_spec conv 100) as [->|_].
  { destruct a as [a|]; [|by eexists]. specialize (Ha a eq_refl). cbn [mbind option_bind].
    destruct (signed a) as [v|] eqn:Es; [|destruct a; try done; by eexists].
    destruct (signed_i64 a v m Ha Es) as [Hv E]. destruct (write_dec_prints v spec Hv Hw) as (out & Ho & Hp). exists out.
    split; [|done]. destruct a; simplify_eq/=; rewrite ?E; by rewrite Ho. }
  destruct (Z.eqb_spec conv 117) as [->|_].
  { destruct a as [[]|]; try (by eexists); specialize (Ha _ eq_refl); simpl in Ha;
      destruct (write_hex_or_dec_prints v spec false Ha Hw) as (out & -> & Hp); by exists out. }
  destruct (Z.eqb_spec conv 120) as [->|_].
  { destruct a as [[]|]; try (by eexists); specialize (Ha _ eq_refl); simpl in Ha;
      destruct (write_hex_or_dec_prints v spec true Ha Hw) as (out & -> & Hp); by exists out. }
  destruct (Z.eqb_spec conv 112) as [->|_]; [|by eexists].
  destruct a as [[]|]; try (eexists; split; [reflexivity|]; by exists []); specialize (Ha _ eq_refl); simpl in Ha;
    destruct (write_hex_or_dec_prints v {| width := 16; zero_pad := true |} true Ha ltac:(done)) as (out & -> & Hp);
    (eexists; split; [reflexivity|]; by exists out).
Qed.

Lemma meaning_unique z w conv a out out' : meaning m z w conv a out → meaning m z w conv a out' → out = out'.
Proof.
  rewrite meaning_eq. assert (∀ base o z w out out', 1 < base → of_arg o (prints base z w) out → of_arg o (prints base z w) out' → out = out') as Hn.
  { intros base [v|] z' w' o o' Hb; [by apply prints_unique|]. by intros -> ->. }
  repeat match goal with |- context [if ?b then _ else _] => destruct b end; try (by intros -> ->); try (apply Hn; lia).
  - destruct a as [[]|]; try (by intros -> ->). intros (l & Hl & ->) (l' & Hl' & ->). by rewrite (c_string_unique _ _ _ _ Hl Hl').
  - destruct a as [[]|]; by intros -> ->.
  - intros (d & Hd & ->) (d' & Hd' & ->). f_equal. eapply Hn; [|exact Hd|exact Hd']. lia.
Qed.

Lemma renders_unique t items : ∀ args out out', renders m t items args out → renders m t items args out' → out = out'.
Proof.
  induction items as [|it items IH]; intros args out out' H H'; inversion H; subst; inversion H'; subst; [done| |].
  - f_equal. by eapply IH.
  - f_equal; [by eapply meaning_unique|by eapply IH].
Qed.

Lemma vformat_loop_lit fuel c rest args : c ≠ 37 →
  vformat_loop (S fuel) m (c :: rest) args = (out ← vformat_loop fuel m rest args; Ok (write_char c ++ out)).
Proof. intros Hc. cbn [vformat_loop]. by rewrite (proj2 (Z.eqb_neq _ _) Hc). Qed.

Lemma vformat_loop_dir fuel rest spec conv r args : rest ≠ [] → parse_spec rest = (spec, conv :: r) →
  vformat_loop (S fuel) m (37 :: rest) args =
    (let '(text, takes) := convert m conv spec (head args) in
     text ← text;
     out ← vformat_loop fuel m r (if takes then tail args else args);
     Ok (text ++ out)).
Proof. intros Hr Hp. destruct rest; [done|]. cbn [vformat_loop]. by rewrite Hp. Qed.

Lemma vformat_loop_tail fuel t args : tail_ok t → (length (show_tail t) ≤ fuel)%nat →
  vformat_loop fuel m (show_tail t) args = Ok (match t with Percent => [37] | _ => [] end).
Proof.
  intros Ht Hf. destruct t as [| |z w size]; [by destruct fuel|destruct fuel; [simpl in Hf; lia|done]|].
  destruct Ht as [Hok Hne]. pose proof (parse_spec_flags z w size [] Hok ltac:(done)) as Hp. rewrite app_nil_r in Hp.
  destruct fuel as [|fuel]; [simpl in Hf; lia|]. simpl. by destruct (flags z w size); [|rewrite Hp].
Qed.

Lemma vformat_loop_renders t items : tail_ok t → ∀ fuel args, Forall item_ok items → Forall (arg_ok m) args →
  (length (show_all items t) ≤ fuel)%nat →
  ∃ out, vformat_loop fuel m (show_all items t) args = Ok out ∧ renders m t items args out.
Proof.
  intros Ht. unfold show_all. induction items as [|it items IH]; intros fuel args Hi Ha Hf.
  { simpl in *. rewrite vformat_loop_tail by done. eexists. split; [done|]. constructor. }
  apply Forall_cons in Hi as [Hit Hi]. rewrite bind_cons, <- app_assoc in Hf |- *. rewrite length_app in Hf.
  destruct it as [c|z w size conv].
  - cbn [show length app] in Hf |- *. destruct fuel as [|fuel]; [lia|]. rewrite vformat_loop_lit by done.
    destruct (IH fuel args Hi Ha ltac:(lia)) as (out & -> & Hr). eexists. split; [done|]. by constructor.
  - destruct Hit as (Hok & Hc & H1 & H2). cbn [show] in Hf |- *. cbn [app]. rewrite <- app_assoc. simpl.
    destruct fuel as [|fuel]; [simpl in Hf; lia|].
    erewrite vformat_loop_dir; [|by destruct (flags z w size)|apply parse_spec_flags; [done|]; intros b [= <-]; done].
    destruct (convert_meaning conv {| width := width_of w; zero_pad := z |} (head args)) as (text & -> & Hm).
    { intros a Hh. destruct args; simplify_eq/=. by apply Forall_cons in Ha as [? _]. }
    { apply width_of_nonneg. by destruct Hok. }
    destruct (IH fuel (if takes conv then tail args else args)) as (out & Ho & Hr); [done| |simpl in Hf; rewrite length_app in Hf; simpl in Hf; lia|].
    { destruct (takes conv), args; simpl; auto. by apply Forall_cons in Ha as [_ ?]. }
    simpl. rewrite Ho. eexists. split; [done|]. by econstructor.
Qed.
End Engine.

(** *** Every format is one *)

Lemma split_run (P : Z → Prop) `{!∀ b, Decision (P b)} (l : list Z) :
  ∃ a r, l = a ++ r ∧ Forall P a ∧ (∀ b, head r = Some b → ¬ P b).
Proof.
  induction l as [|b l (a & r & -> & Ha & Hr)]; [by exists [], []|]. destruct (decide (P b)).
  - exists (b :: a), r. split_and!; [done|by constructor|done].
  - exists [], (b :: a ++ r). split_and!; [done|done|]. by intros ? [= <-].
Qed.

Lemma format_items fmt : ∃ items t, fmt = show_all items t ∧ Forall item_ok items ∧ tail_ok t.
Proof.
  remember (length fmt) as n eqn:En. revert fmt En. induction (lt_wf n) as [n _ IH]. intros fmt ->.
  destruct fmt as [|c fmt]; [by exists [], Done|].
  destruct (decide (c = 37)) as [->|Hc].
  2: { destruct (IH (length fmt) ltac:(simpl; lia) fmt eq_refl) as (items & t & -> & Hi & Ht). exists (Lit c :: items), t. split_and!; [done|by constructor|done]. }
  destruct fmt as [|b0 fmt0] eqn:Ef; [by exists [], Percent|]. rewrite <- Ef in *.
  assert (∃ z l, fmt = (if z : bool then [48] else []) ++ l ∧ (z = false → head l ≠ Some 48)) as (z & l & El & Hz).
  { destruct (decide (b0 = 48)) as [->|Hb]; [by exists true, fmt0|]. exists false, fmt. split; [done|]. rewrite Ef. simpl. congruence. }
  destruct (split_run (λ d, 48 ≤ d ≤ 57) l) as (w & r & -> & Hw & Hr).
  destruct (split_run (λ b, b = 108 ∨ b = 122) r) as (size & r' & -> & Hs & Hr').
  assert (flags_ok z w size) as Hok.
  { split_and!; [done| |done]. intros E. specialize (Hz E). by destruct w. }
  assert (fmt = flags z w size ++ r') as E by (rewrite El; unfold flags; by rewrite <- !app_assoc).
  destruct r' as [|conv r'].
  { exists [], (Cut z w size). rewrite app_nil_r in E. split_and!; [by rewrite E|done|]. split; [done|]. rewrite <- E, Ef. done. }
  destruct (IH (length r')) with (fmt := r') as (items & t & Er & Hi & Ht); [|done|].
  { rewrite E. simpl. rewrite length_app. simpl. lia. }
  exists (Dir z w size conv :: items), t. split_and!; [|constructor; [|done]|done].
  - rewrite E, Er. unfold show_all. rewrite bind_cons. simpl. by rewrite <- !app_assoc.
  - split; [done|]. split; [|specialize (Hr' conv eq_refl); naive_solver].
    intros ->. specialize (Hr conv eq_refl). destruct (is_ascii_digit conv) eqn:Ed; [|done]. by apply digit_bounds in Ed.
Qed.

Module TextTheorems.

(** Printing a number and reading it back: a 64-bit number printed in decimal
    with leading zeros has exactly the width asked for, or its digits when there
    are more, and the number parser of the formatting engine reads the same number
    back; the hexadecimal digits have the value printed; a signed number is printed
    as its sign and the digits of its magnitude, [i64::MIN] included. *)
Theorem printed_numbers_read_back v s w :
  u64 v → -9223372036854775808 ≤ s < 9223372036854775808 → 0 ≤ w →
  (∃ ds out, digits_of false v = Ok ds ∧
    write_hex_or_dec v {| width := w; zero_pad := true |} false = Ok out ∧
    len out = Z.max w (len ds) ∧ parse_num out = (v, len out)) ∧
  (∃ out, write_hex_or_dec v {| width := w; zero_pad := true |} true = Ok out ∧
    read_digits 16 hex_dval out 0 = v) ∧
  (∃ ds, write_dec s {| width := w; zero_pad := true |} =
      Ok ((if s <? 0 then [45] else []) ++ padding 48 (w - len ds - (if s <? 0 then 1 else 0)) ++ ds) ∧
    parse_num ds = (Z.abs s, len ds)).
Proof.
  intros Hv Hs Hw. split_and!.
  - destruct (dec_of_spec v Hv) as (ds & Hd & _ & Hf & Hval).
    exists ds. unfold write_hex_or_dec. rewrite Hd. simpl. eexists; split_and!; [done..| |].
    + rewrite len_app. unfold padding, sat_sub. rewrite len_replicate by lia.
      unfold len. rewrite length_reverse. lia.
    + unfold parse_num. rewrite <-(app_nil_r (padding _ _ ++ _)), parse_num_digits; rewrite ?app_nil_r; try done.
      * by rewrite read_zeros, read_reverse, Hval.
      * apply Forall_app. split; [|by apply Forall_reverse]. apply Forall_replicate. lia.
      * by rewrite read_zeros, read_reverse, Hval.
  - destruct (hex_of_spec v Hv) as (ds & Hd & _ & Hf & Hval). unfold write_hex_or_dec. rewrite Hd. simpl.
    eexists; split; [done|]. by rewrite read_zeros, read_reverse.
  - destruct (magnitude_ok s Hs) as [Hm Hu]. destruct (dec_of_spec _ Hu) as (ds & Hd & _ & Hf & Hval).
    exists (reverse ds). unfold write_dec. rewrite Hm, Hd. simpl. split.
    + rewrite <-app_assoc. do 3 f_equal. unfold padding, sat_sub, len. rewrite length_reverse. f_equal. lia.
    + unfold parse_num. rewrite <-(app_nil_r (reverse ds)), parse_num_digits; rewrite ?app_nil_r; try done.
      * by rewrite read_reverse, Hval.
      * by apply Forall_reverse.
      * by rewrite read_reverse, Hval.
Qed.

Lemma printed_numbers_read_back_witness :
  write_dec (-42) {| width := 6; zero_pad := true |} = Ok [45; 48; 48; 48; 52; 50] ∧
  ∃ ds out, digits_of false 3735928559 = Ok ds ∧
    write_hex_or_dec 3735928559 {| width := 6; zero_pad := true |} false = Ok out ∧
    len out = Z.max 6 (len ds) ∧ parse_num out = (3735928559, len out).
Proof.
  split; [by vm_compute|]. apply (printed_numbers_read_back 3735928559 (-42) 6); unfold u64; lia.
Defined.

(** C20. The formatting engine prints what a format means. Every format is a sequence of
    characters and directives with a tail, and for every sink, whatever the format, the
    engine returns without a panic and prints exactly the text that the format means:
    characters as they are; [%d], [%u], [%x] and [%p] as the numeral of the next argument,
    filled_to up to the width with spaces, or with zeros behind the sign; [%s] and [%c] as
    they are; an argument of another type, and a directive that is cut off, as nothing. *)
Theorem vformat_renders `{W : Write} m fmt args : Forall (arg_ok m) args →
  (∃ items t, fmt = show_all items t ∧ Forall item_ok items ∧ tail_ok t) ∧
  (∀ items t, fmt = show_all items t → Forall item_ok items → tail_ok t →
     ∃ out, vformat m fmt args = Ok out ∧ ∀ out', renders m t items args out' ↔ out' = out).
Proof.
  intros Ha. split; [apply format_items|]. intros items t -> Hi Ht.
  destruct (vformat_loop_renders m t items Ht (length (show_all items t)) args Hi Ha ltac:(lia)) as (out & Ho & Hr).
  exists out. split; [exact Ho|]. intros out'. split; [intros H; by eapply renders_unique|by intros ->].
Qed.

(** ["0x%08lx%%%4d"] with 0xdead and -7 *)
Definition dead_items : list Item := [Lit 48; Lit 120; Dir true [56] [108] 120; Dir false [] [] 37; Dir false [52] [] 100].
Lemma vformat_renders_witness :
  show_all dead_items Done = txt "0x%08lx%%%4d" ∧
  vformat ∅ (txt "0x%08lx%%%4d") [U64 57005; I64 (-7)] = Ok (txt "0x0000dead%  -7") ∧
  renders ∅ Done dead_items [U64 57005; I64 (-7)] (txt "0x0000dead%  -7").
Proof.
  assert (vformat ∅ (txt "0x%08lx%%%4d") [U64 57005; I64 (-7)] = Ok (txt "0x0000dead%  -7")) as E by (vm_compute; reflexivity).
  split; [vm_compute; reflexivity|]. split; [exact E|].
  destruct (vformat_renders ∅ (txt "0x%08lx%%%4d") [U64 57005; I64 (-7)]) as [_ H].
  { repeat constructor; simpl; lia. }
  destruct (H dead_items Done) as (out & Ho & Hr); [vm_compute; reflexivity| |exact I|].
  - repeat constructor; simpl; (done || lia).
  - apply Hr. rewrite E in Ho. by injection Ho.
Defined.

(** memmove copies as if all bytes were read before the first is written,
    however source and destination overlap, and touches nothing else; memcpy does
    so when the destination starts at or below the source (above it, the witness
    shows bytes copied twice). *)
Theorem memmove_copies m dst src n :
  accessible m src n → accessible m dst n →
  (∃ m', memmove m dst src n = Ok m' ∧ copied m m' dst src n) ∧
  (dst ≤ src → ∃ m', memcpy m dst src n = Ok m' ∧ copied m m' dst src n).
Proof.
  intros Hs Hd.
  assert (dst ≤ src → ∃ m', memcpy m dst src n = Ok m' ∧ copied m m' dst src n) as Hf.
  { intros Hle. destruct (memcpy_loop_spec dst src Hle n m 0) as (m' & Hm & Hc); rewrite ?Z.add_0_r; auto.
    rewrite !Z.add_0_r in Hc. eauto. }
  split; [|done]. unfold memmove. destruct (Z.ltb_spec dst src) as [Hlt|Hge]; [apply Hf; lia|].
  destruct (Z.ltb_spec src dst) as [Hlt|Hle]; [apply memmove_back_spec; auto; lia|].
  assert (dst = src) as -> by lia. eexists; split; [done|]. intros q.
  replace (q - src + src) with q by lia. by destruct (decide _).
Qed.

Definition five : mem := list_to_map [(0, 97); (1, 98); (2, 99); (3, 100); (4, 101)].

Lemma memmove_copies_witness :
  (∃ m', memmove five 2 0 3 = Ok m' ∧ copied five m' 2 0 3) ∧
  memcpy five 2 0 3 = Ok (<[4 := 97]> (<[3 := 98]> (<[2 := 97]> five))).
Proof.
  split; [|by vm_compute]. apply (memmove_copies five 2 0 3).
  - intros q Hq. assert (q = 0 ∨ q = 1 ∨ q = 2) as [-> | [-> | ->]] by lia; vm_compute; eauto.
  - intros q Hq. assert (q = 2 ∨ q = 3 ∨ q = 4) as [-> | [-> | ->]] by lia; vm_compute; eauto.
Defined.

(** On NUL-terminated strings strlen is the length, strcmp and strncmp order
    them by the first bytes that differ, and answer 0 exactly on equal strings
    (equal prefixes for strncmp). *)
Theorem string_order m a b la lb n :
  Forall u8 la → Forall u8 lb → Forall (λ c, c ≠ 0) la → Forall (λ c, c ≠ 0) lb →
  holds m a (la ++ [0]) → holds m b (lb ++ [0]) →
  strlen m a = Ok (len la) ∧
  strcmp m a b = Ok (str_order la lb) ∧ (strcmp m a b = Ok 0 ↔ la = lb) ∧
  strncmp m a b n = Ok (str_order (take n la) (take n lb)) ∧ (strncmp m a b n = Ok 0 ↔ take n la = take n lb).
Proof.
  intros Hua Hub Hza Hzb Ha Hb.
  assert ((length la < S (size m))%nat) as Hl.
  { pose proof (holds_size _ _ _ Ha) as Hs. rewrite length_app in Hs. simpl in Hs. lia. }
  assert (strcmp m a b = Ok (str_order la lb)) as Hc.
  { unfold strcmp. apply strcmp_loop_spec; rewrite ?Z.add_0_r; auto. }
  pose proof (strncmp_spec m n a b la lb Hza Hzb Ha Hb) as Hn.
  split_and!; auto.
  - unfold strlen. rewrite (strlen_loop_spec m a la) by (rewrite ?Z.add_0_r; auto). by rewrite Z.add_0_l.
  - rewrite Hc, <-(str_order_eq la lb) by done. split; [by intros [= ?]|by intros ->].
  - rewrite Hn, <-(str_order_eq (take n la) (take n lb)) by (by apply Forall_take).
    split; [by intros [= ?]|by intros ->].
Qed.

Lemma string_order_witness :
  strcmp (list_to_map [(0, 97); (1, 98); (2, 0); (3, 97); (4, 99); (5, 0)]) 0 3 = Ok (-1) ∧
  strlen (list_to_map [(0, 97); (1, 98); (2, 0); (3, 97); (4, 99); (5, 0)]) 0 = Ok 2.
Proof.
  split; [by vm_compute|].
  apply (string_order _ 0 3 [97; 98] [97; 99] 0%nat); try (repeat constructor; unfold u8; lia).
  - intros [|[|[|i]]] c Hc; try discriminate Hc; injection Hc as <-; by vm_compute.
  - intros [|[|[|i]]] c Hc; try discriminate Hc; injection Hc as <-; by vm_compute.
Defined.

End TextTheorems.
