(* ===== verification/Elf2onx.v ===== *)
(** * tools/src/elf2onx: converting an ELF executable to an OnyxExec image

    [elf2onx] is [convert::run] from the bytes of the input file to the bytes of
    the output file; [Ok None] is [process::exit(1)], [Panic] an index out of
    range.  The messages printed are left out.  The tool has copies of the segment
    record and of the run-length compressor of the kernel; the record of [Formats]
    and the scanning loops of [Compress] are used for both. *)

From S2P Require Import Prelude Parser Formats Compress.
From stdpp Require Import base list numbers.
From Stdlib Require Import ZArith Lia.

Open Scope Z_scope.

(** ** compress.rs *)

Fixpoint pack_loop (fuel : nat) (src dst : list Z) (i out : Z) : result (list Z) :=
  match fuel with
  | O => mret (take (Z.to_nat out) dst)
  | S fuel =>
      if i <? len src then
        cur ← idx src i;
        run ← count_run 128 src i 1 cur 128;
        if 3 <=? run then
          dst ← set_idx dst out (Z.lor 0x80 (w8 (run - 1)));
          dst ← set_idx dst (out + 1) cur;
          pack_loop fuel src dst (i + run) (out + 2)
        else
          lit_len ← count_lit 129 src i 0;
          let lit_len := if lit_len =? 0 then 1 else lit_len in
          dst ← set_idx dst out (w8 (lit_len - 1));
          dst ← copy_bytes (Z.to_nat lit_len) src i dst (out + 1);
          pack_loop fuel src dst (i + lit_len) (out + (1 + lit_len))
      else mret (take (Z.to_nat out) dst)
  end.

(** [rle_compress] of the tool, into a vector of its own. *)
Definition pack (src : list Z) : result (list Z) :=
  let max_dst := len src + len src / 128 + 2 in
  pack_loop (S (length src)) src (zeros max_dst) 0 0.

(** ** convert.rs *)

Definition VMM_R : Z := Z.shiftl 1 1.
Definition VMM_W : Z := Z.shiftl 1 2.
Definition VMM_X : Z := Z.shiftl 1 3.

Definition to_bytes_v1 (s : OnxSegment) : result (list Z) := puts (seg_fields s) (zeros 40).
Definition to_bytes_v2 (s : OnxSegment) : result (list Z) :=
  puts (seg_fields s ++ [(40, 44, le_bytes 4 (seg_compressed_size s))]) (zeros 48).

Record LoadInfo := mkLoadInfo { li_seg : OnxSegment; li_data : list Z }.

(** [u16::from_le_bytes([b[i], b[i + 1]])] and the same for four bytes. *)
Definition u16_at (b : list Z) (i : Z) : result Z :=
  x ← idx b i; y ← idx b (i + 1); mret (le_val [x; y]).
Definition u32_at (b : list Z) (i : Z) : result Z :=
  x ← idx b i; y ← idx b (i + 1); z ← idx b (i + 2); w ← idx b (i + 3); mret (le_val [x; y; z; w]).

Definition seg_perms (p_flags : Z) : Z :=
  Z.lor (Z.lor (if negb (Z.land p_flags 4 =? 0) then VMM_R else 0)
               (if negb (Z.land p_flags 2 =? 0) then VMM_W else 0))
        (if negb (Z.land p_flags 1 =? 0) then VMM_X else 0).

(** The bytes stored for a segment and its compressed size, 0 when it is stored
    as it is. *)
Definition seg_data (do_compress v2 : bool) (p_filesz : Z) (raw : list Z) : result (list Z * Z) :=
  if do_compress && v2 && (0 <? p_filesz) then
    c ← pack raw;
    let cs := w32 (len c) in
    mret (if cs <? w32 p_filesz then (c, cs) else (raw, 0))
  else mret (raw, 0).

(** The body of the loop for a loadable program header at [off]. *)
Definition load_info (elf : list Z) (do_compress v2 : bool) (off : Z) : result LoadInfo :=
  p_flags ← le32_at elf (off + 4) (off + 8);
  p_vaddr ← le64_at elf (off + 16) (off + 24);
  p_filesz ← le64_at elf (off + 32) (off + 40);
  p_memsz ← le64_at elf (off + 40) (off + 48);
  p_align ← le64_at elf (off + 48) (off + 56);
  p_offset ← le64_at elf (off + 8) (off + 16);
  let end_ := Z.min (w64 (p_offset + p_filesz)) (len elf) in
  raw ← slice elf p_offset end_;
  d ← seg_data do_compress v2 p_filesz raw;
  mret (mkLoadInfo (mkOnxSegment p_vaddr p_filesz p_memsz 0 (seg_perms p_flags) (w32 p_align) 0 d.2) d.1).

(** [for i in 0..e_phnum], [n] rounds to go. *)
Fixpoint ph_loop (n : nat) (elf : list Z) (do_compress v2 : bool) (e_phoff e_phentsize i : Z)
    (loads : list LoadInfo) : result (list LoadInfo) :=
  match n with
  | O => mret loads
  | S n =>
      let off := w64 (e_phoff + i * e_phentsize) in
      if len elf <? w64 (off + 56) then mret loads else
      p_type ← u32_at elf off;
      if negb (p_type =? 1) then ph_loop n elf do_compress v2 e_phoff e_phentsize (i + 1) loads else
      if (if v2 then 256 else 8) <=? len loads then mret loads else
      li ← load_info elf do_compress v2 off;
      ph_loop n elf do_compress v2 e_phoff e_phentsize (i + 1) (loads ++ [li])
  end.

Definition set_seg_offset (off : Z) (s : OnxSegment) : OnxSegment :=
  mkOnxSegment (seg_vaddr s) (seg_filesz s) (seg_memsz s) off (seg_flags s) (seg_align s)
    (seg_reserved s) (seg_compressed_size s).

(** [for li in &mut loads { li.seg.offset = data_off; data_off = data_off.saturating_add(..) }] *)
Fixpoint place (data_off : Z) (loads : list LoadInfo) : list LoadInfo :=
  match loads with
  | [] => []
  | li :: loads =>
      mkLoadInfo (set_seg_offset data_off (li_seg li)) (li_data li) ::
      place (Z.min 4294967295 (data_off + w32 (len (li_data li)))) loads
  end.

Definition header_fields (version e_entry nsegs flags : Z) : list (Z * Z * list Z) :=
  [(0, 4, le_bytes 4 ONX_MAGIC); (4, 8, le_bytes 4 version); (8, 16, le_bytes 8 e_entry);
   (16, 20, le_bytes 4 nsegs); (20, 24, le_bytes 4 flags)].

(** [for li in &loads { out.write_all(&li.seg.to_bytes_v2()) }] *)
Fixpoint seg_table (loads : list LoadInfo) : result (list Z) :=
  match loads with
  | [] => mret []
  | li :: loads => b ← to_bytes_v2 (li_seg li); t ← seg_table loads; mret (b ++ t)
  end.

Definition write_out (v2 ring1 : bool) (e_entry : Z) (loads : list LoadInfo) : result (list Z) :=
  let nsegs := w32 (len loads) in
  let ring := if ring1 then ONX_FLAGS_RING1 else 0 in
  hdr ← (if v2 then
           let any_compressed := existsb (λ li, 0 <? seg_compressed_size (li_seg li)) loads in
           let flags := if any_compressed then Z.lor ring ONX_FLAGS_COMPRESSED else ring in
           hdr ← puts (header_fields 2 e_entry nsegs flags) (zeros 32);
           table ← seg_table loads;
           mret (hdr ++ table)
         else
           hdr ← puts (header_fields 1 e_entry nsegs ring) (zeros 344);
           write_segs to_bytes_v1 24 40 0 (li_seg <$> loads) hdr);
  mret (hdr ++ concat (li_data <$> loads)).

Definition elf2onx (elf : list Z) (ring1 v2 do_compress : bool) : result (option (list Z)) :=
  if len elf <? 64 then mret None else
  magic ← slice elf 0 4;
  if negb (bool_decide (magic = [127; 69; 76; 70])) then mret None else
  class ← idx elf 4; if negb (class =? 2) then mret None else
  order ← idx elf 5; if negb (order =? 1) then mret None else
  e_type ← u16_at elf 16; if negb (e_type =? 2) then mret None else
  e_machine ← u16_at elf 18; if negb (e_machine =? 243) then mret None else
  e_entry ← le64_at elf 24 32;
  e_phoff ← le64_at elf 32 40;
  e_phentsize ← u16_at elf 54;
  e_phnum ← u16_at elf 56;
  loads ← ph_loop (Z.to_nat e_phnum) elf do_compress v2 e_phoff e_phentsize 0 [];
  let hdr_size := if v2 then w32 (32 + w32 (len loads) * 48) else 344 in
  img ← write_out v2 ring1 e_entry (place hdr_size loads);
  mret (Some img).

(** ** main.rs *)

Record Options := mkOptions {
  o_ring1 : bool; o_v1 : bool; o_compress : bool; o_input : list Z; o_output : list Z }.

Definition arg_ring1 : list Z := [45; 45; 114; 105; 110; 103; 61; 49].
Definition arg_v1 : list Z := [45; 45; 118; 49].
Definition arg_compress : list Z := [45; 45; 99; 111; 109; 112; 114; 101; 115; 115].

Definition parse_arg (o : Options) (arg : list Z) : Options :=
  if bool_decide (arg = arg_ring1) then mkOptions true (o_v1 o) (o_compress o) (o_input o) (o_output o)
  else if bool_decide (arg = arg_v1) then mkOptions (o_ring1 o) true (o_compress o) (o_input o) (o_output o)
  else if bool_decide (arg = arg_compress) then mkOptions (o_ring1 o) (o_v1 o) true (o_input o) (o_output o)
  else if bool_decide (o_input o = []) then mkOptions (o_ring1 o) (o_v1 o) (o_compress o) arg (o_output o)
  else mkOptions (o_ring1 o) (o_v1 o) (o_compress o) (o_input o) arg.

(** [None] is the usage message and [process::exit(1)]; [args] includes the name of the program. *)
Definition parse_args (args : list (list Z)) : option Options :=
  if (length args <? 3)%nat then None else
  let o := foldl parse_arg (mkOptions false false false [] []) (tail args) in
  if bool_decide (o_input o = []) || bool_decide (o_output o = []) then None else Some o.
