(* ===== verification/Elf2onxProps.v ===== *)
(** * tools/src/elf2onx: what the kernel reads from a converted image *)

From S2P Require Import Prelude Parser Formats FormatsProps Compress Elf2onx.
From stdpp Require Import base list numbers.
From Stdlib Require Import ZArith Lia.

Open Scope Z_scope.

(** ** The compressor of the tool computes the encoding *)

Lemma pack_loop_compress fuel src : ∀ dst i out n d,
  rle_compress_loop fuel src dst i out = Ok (n, d) → n ≠ 0 →
  pack_loop fuel src dst i out = Ok (take (Z.to_nat n) d).
Proof.
  induction fuel as [|fuel IH]; intros dst i out n d H Hn; cbn [rle_compress_loop pack_loop] in *.
  { by injection H as <- <-. }
  destruct (i <? len src); [|by injection H as <- <-].
  apply bind_Ok_inv in H as (cur & -> & H). rewrite bind_ok.
  apply bind_Ok_inv in H as (run & -> & H). rewrite bind_ok.
  destruct (3 <=? run).
  - destruct (len dst <? out + 2); [injection H as <- _; done|].
    apply bind_Ok_inv in H as (d1 & -> & H). rewrite bind_ok.
    apply bind_Ok_inv in H as (d2 & -> & H). rewrite bind_ok. by apply IH.
  - apply bind_Ok_inv in H as (lit & -> & H). rewrite bind_ok. cbv zeta in *.
    destruct (len dst <? _); [injection H as <- _; done|].
    apply bind_Ok_inv in H as (d1 & -> & H). rewrite bind_ok.
    apply bind_Ok_inv in H as (d2 & -> & H). rewrite bind_ok. by apply IH.
Qed.

Lemma pack_spec src : pack src = Ok (encode src).
Proof.
  destruct src as [|b r]; [done|]. unfold pack. set (src := b :: r).
  set (dst := zeros _). pose proof (len_nonneg src). assert (0 ≤ len src / 128) by (apply Z.div_pos; lia).
  destruct (rle_compress_spec src dst) as [d Hc]. unfold rle_compress in Hc.
  destruct (encode_size (S (length src)) src) as [Hsz _]; [lia|].
  assert (len dst = len src + len src / 128 + 2) as Hl by (apply len_zeros; lia).
  pose proof (encode_nonempty b r) as Hne. fold src in Hne.
  rewrite (proj2 (Z.leb_le _ _)) in Hc by lia.
  rewrite (pack_loop_compress _ _ _ _ _ _ _ Hc) by lia. f_equal.
  change (rd 0 (len (encode src)) (wr 0 (encode src) dst) = encode src). apply rd_wr_eq; lia.
Qed.

Lemma unpack_spec src out : len out = len src → rle_decompress (encode src) out = Ok (len src, src).
Proof.
  intros Ho. unfold rle_decompress. pose proof (len_nonneg src). pose proof (len_nonneg (encode src)).
  rewrite (rle_decompress_loop_spec _ (encode src) out 0 0 src); [|lia|lia|lia|done|lia].
  rewrite Z.add_0_l, <-(rd_all (wr 0 src out)), len_wr, Ho, rd_wr_eq by lia. done.
Qed.

(** ** Reading fields *)

(** The little-endian field of [n] bytes at [a]. *)
Definition fld (n : Z) (b : list Z) (a : Z) : Z := le_val (rd a n b).

Lemma fld_u b a n : Forall u8 b → 0 ≤ a → 0 ≤ n → a + n ≤ len b → 0 ≤ fld n b a < 256 ^ n.
Proof.
  intros Hb Ha Hn Hl. unfold fld. pose proof (le_val_bound (rd a n b) ltac:(auto with onyx)) as H.
  by rewrite len_rd in H by lia.
Qed.

Lemma le32_at_fld b a e : 0 ≤ a → e = a + 4 → e ≤ len b → le32_at b a e = Ok (fld 4 b a).
Proof.
  intros Ha -> He. unfold le32_at. rewrite slice_ok, bind_ok by lia.
  replace (a + 4 - a) with 4 by lia. assert (len (rd a 4 b) = 4) as Hl by (apply len_rd; lia).
  rewrite le32_ok, take_ge by (unfold len in *; lia). done.
Qed.

Lemma le64_at_fld b a e : 0 ≤ a → e = a + 8 → e ≤ len b → le64_at b a e = Ok (fld 8 b a).
Proof.
  intros Ha -> He. unfold le64_at. rewrite slice_ok, bind_ok by lia.
  replace (a + 8 - a) with 8 by lia. assert (len (rd a 8 b) = 8) as Hl by (apply len_rd; lia).
  rewrite le64_ok, take_ge by (unfold len in *; lia). done.
Qed.

Lemma rd_cons (b : list Z) a n x : 0 ≤ a → 0 < n → b !! Z.to_nat a = Some x → rd a n b = x :: rd (a + 1) (n - 1) b.
Proof.
  intros Ha Hn Hx. unfold rd. rewrite (drop_S _ _ _ Hx).
  replace (Z.to_nat n) with (S (Z.to_nat (n - 1))) by lia.
  by replace (Z.to_nat (a + 1)) with (S (Z.to_nat a)) by lia.
Qed.

Lemma idx_Ok_lookup (b : list Z) i : 0 ≤ i < len b → ∃ x, idx b i = Ok x ∧ b !! Z.to_nat i = Some x.
Proof. intros Hi. destruct (idx_Some b i Hi) as [x Hx]. exists x. split; [|done]. apply idx_ok; [done|lia]. Qed.

Lemma u16_at_fld b i : 0 ≤ i → i + 2 ≤ len b → u16_at b i = Ok (fld 2 b i).
Proof.
  intros Hi Hl. unfold u16_at.
  destruct (idx_Ok_lookup b i) as (x & -> & Hx); [lia|]. destruct (idx_Ok_lookup b (i + 1)) as (y & -> & Hy); [lia|].
  rewrite !bind_ok. unfold fld. rewrite (rd_cons b i 2 x), (rd_cons b (i + 1) _ y) by (done || lia). done.
Qed.

Lemma u32_at_fld b i : 0 ≤ i → i + 4 ≤ len b → u32_at b i = Ok (fld 4 b i).
Proof.
  intros Hi Hl. unfold u32_at.
  destruct (idx_Ok_lookup b i) as (x & -> & Hx); [lia|]. destruct (idx_Ok_lookup b (i + 1)) as (y & -> & Hy); [lia|].
  destruct (idx_Ok_lookup b (i + 2)) as (z & -> & Hz); [lia|]. destruct (idx_Ok_lookup b (i + 3)) as (w & -> & Hw); [lia|].
  rewrite !bind_ok. unfold fld. rewrite (rd_cons b i 4 x), (rd_cons b (i + 1) _ y) by (done || lia).
  replace (i + 1 + 1) with (i + 2) by lia. rewrite (rd_cons b (i + 2) _ z) by (done || lia).
  replace (i + 2 + 1) with (i + 3) by lia. rewrite (rd_cons b (i + 3) _ w) by (done || lia). done.
Qed.


(** ** Segments *)

(** The program header at [off], as the ELF format defines it. *)
Definition ph_type (elf : list Z) (off : Z) : Z := fld 4 elf off.
Definition ph_flags (elf : list Z) (off : Z) : Z := fld 4 elf (off + 4).
Definition ph_offset (elf : list Z) (off : Z) : Z := fld 8 elf (off + 8).
Definition ph_vaddr (elf : list Z) (off : Z) : Z := fld 8 elf (off + 16).
Definition ph_filesz (elf : list Z) (off : Z) : Z := fld 8 elf (off + 32).
Definition ph_memsz (elf : list Z) (off : Z) : Z := fld 8 elf (off + 40).
Definition ph_align (elf : list Z) (off : Z) : Z := fld 8 elf (off + 48).
(** The bytes of the segment. *)
Definition ph_bytes (elf : list Z) (off : Z) : list Z := rd (ph_offset elf off) (ph_filesz elf off) elf.

(** A program header inside the file whose segment is inside the file, too. *)
Definition ph_ok (elf : list Z) (off : Z) : Prop :=
  0 ≤ off ∧ off + 56 ≤ len elf ∧
  (ph_type elf off = 1 → ph_offset elf off + ph_filesz elf off ≤ len elf).

(** What the tool keeps of a segment: [d] is the segment or its encoding. *)
Definition packed (v2 : bool) (raw : list Z) (cs : Z) (d : list Z) : Prop :=
  (cs = 0 ∧ d = raw) ∨ (v2 = true ∧ 0 < cs ∧ cs = len d ∧ d = encode raw).

Definition loaded (elf : list Z) (v2 : bool) (off : Z) (li : LoadInfo) : Prop :=
  ∃ cs, li_seg li = mkOnxSegment (ph_vaddr elf off) (ph_filesz elf off) (ph_memsz elf off) 0
          (seg_perms (ph_flags elf off)) (w32 (ph_align elf off)) 0 cs ∧
  packed v2 (ph_bytes elf off) cs (li_data li) ∧ len (li_data li) ≤ ph_filesz elf off ∧ u32 cs.

Lemma seg_data_spec dc v2 raw : len raw < 2147483648 →
  ∃ d cs, seg_data dc v2 (len raw) raw = Ok (d, cs) ∧ packed v2 raw cs d ∧ len d ≤ len raw ∧ u32 cs.
Proof.
  intros Hl. pose proof (len_nonneg raw). unfold seg_data, packed, u32.
  assert (∃ d cs, Ok (raw, 0) = Ok (d, cs) ∧ (cs = 0 ∧ d = raw ∨ v2 = true ∧ 0 < cs ∧ cs = len d ∧ d = encode raw) ∧
    len d ≤ len raw ∧ 0 ≤ cs < 4294967296) as Hraw by (eexists _, _; split_and!; eauto; lia).
  destruct (dc && v2 && (0 <? len raw)) eqn:E; [|done].
  rewrite !andb_true_iff, Z.ltb_lt in E. destruct E as [[_ ->] Hpos].
  rewrite pack_spec, bind_ok. cbv zeta.
  destruct (encode_size (S (length raw)) raw) as [Hsz _]; [lia|].
  destruct raw as [|b r]; [done|]. pose proof (encode_nonempty b r) as Hne.
  assert (len (b :: r) / 128 < 2147483648) by (apply Z.div_lt_upper_bound; lia).
  unfold w32. rewrite !Z.mod_small by lia.
  destruct (Z.ltb_spec (len (encode (b :: r))) (len (b :: r))) as [Hlt|Hge]; [|done].
  eexists _, _. split_and!; [done|by right|lia..].
Qed.

Lemma load_info_spec elf dc v2 off : Forall u8 elf → len elf < 2147483648 →
  ph_ok elf off → ph_type elf off = 1 →
  ∃ li, load_info elf dc v2 off = Ok li ∧ loaded elf v2 off li.
Proof.
  intros Hu Hl (H0 & H56 & Hseg) Ht. specialize (Hseg Ht).
  pose proof (fld_u elf (off + 8) 8 Hu ltac:(lia) ltac:(lia) ltac:(lia)) as Ho.
  pose proof (fld_u elf (off + 32) 8 Hu ltac:(lia) ltac:(lia) ltac:(lia)) as Hf.
  change (fld 8 elf (off + 8)) with (ph_offset elf off) in Ho.
  change (fld 8 elf (off + 32)) with (ph_filesz elf off) in Hf.
  unfold load_info. rewrite le32_at_fld, !le64_at_fld, !bind_ok by lia. cbv zeta.
  change (fld 8 elf (off + 8)) with (ph_offset elf off). change (fld 8 elf (off + 32)) with (ph_filesz elf off).
  rewrite w64_small, Z.min_l, slice_ok, bind_ok by lia.
  replace (ph_offset elf off + ph_filesz elf off - ph_offset elf off) with (ph_filesz elf off) by lia.
  assert (len (ph_bytes elf off) = ph_filesz elf off) as Hb by (apply len_rd; lia).
  fold (ph_bytes elf off).
  replace (seg_data dc v2 (ph_filesz elf off)) with (seg_data dc v2 (len (ph_bytes elf off))) by (by rewrite Hb).
  destruct (seg_data_spec dc v2 (ph_bytes elf off)) as (d & cs & -> & Hp & Hd & Hcs); [lia|].
  rewrite bind_ok. eexists; split; [done|]. exists cs. split_and!; try done. by rewrite <-Hb.
Qed.

(** ** The table of program headers *)

(** The offsets of the headers [i..i + n] and the loadable ones among them. *)
Definition ph_offs (e_phoff e_phentsize i : Z) (n : nat) : list Z :=
  (λ k : nat, e_phoff + (i + Z.of_nat k) * e_phentsize) <$> seq 0 n.
Definition loadable (elf : list Z) (offs : list Z) : list Z := filter (λ off, ph_type elf off = 1) offs.

Lemma ph_offs_S e_phoff e_phentsize i n :
  ph_offs e_phoff e_phentsize i (S n) = (e_phoff + i * e_phentsize) :: ph_offs e_phoff e_phentsize (i + 1) n.
Proof.
  unfold ph_offs. simpl. rewrite Z.add_0_r. f_equal. rewrite <-fmap_S_seq, <-list_fmap_compose.
  apply list_fmap_ext. intros j k _. simpl. f_equal. lia.
Qed.

Lemma ph_loop_spec elf dc (v2 : bool) e_phoff e_phentsize : Forall u8 elf → len elf < 2147483648 →
  ∀ n i loads,
  Forall (ph_ok elf) (ph_offs e_phoff e_phentsize i n) →
  len loads + len (loadable elf (ph_offs e_phoff e_phentsize i n)) ≤ (if v2 then 256 else 8) →
  ∃ more, ph_loop n elf dc v2 e_phoff e_phentsize i loads = Ok (loads ++ more) ∧
    Forall2 (loaded elf v2) (loadable elf (ph_offs e_phoff e_phentsize i n)) more.
Proof.
  intros Hu Hl. induction n as [|n IH]; intros i loads Hok Hmax.
  { exists []. simpl. rewrite app_nil_r. split; [done|constructor]. }
  rewrite ph_offs_S in Hok, Hmax |- *. apply Forall_cons_1 in Hok as [Hph Hok].
  set (off := e_phoff + i * e_phentsize) in *.
  unfold loadable in Hmax |- *. rewrite filter_cons in Hmax |- *.
  pose proof Hph as (H0 & H56 & _). cbn [ph_loop]. fold off. cbv zeta.
  rewrite (w64_small off), w64_small by lia. rewrite (proj2 (Z.ltb_ge _ _)) by lia.
  rewrite u32_at_fld, bind_ok by lia. fold (ph_type elf off).
  destruct (decide (ph_type elf off = 1)) as [Ht|Ht].
  - rewrite (proj2 (Z.eqb_eq _ _) Ht). rewrite len_cons in Hmax.
    pose proof (len_nonneg (filter (λ off, ph_type elf off = 1) (ph_offs e_phoff e_phentsize (i + 1) n))).
    cbn [negb]. rewrite (proj2 (Z.leb_gt _ _)) by lia.
    destruct (load_info_spec elf dc v2 off) as (li & -> & Hli); [done..|]. rewrite bind_ok.
    destruct (IH (i + 1) (loads ++ [li])) as (more & -> & Hm); [done|unfold loadable; rewrite len_app, len_cons; unfold len at 2; simpl; lia|].
    exists (li :: more). split; [by rewrite <-app_assoc|by constructor].
  - rewrite (proj2 (Z.eqb_neq _ _) Ht). cbn [negb]. by apply IH.
Qed.

(** ** Offsets *)

Definition data_size (loads : list LoadInfo) : Z := foldr (λ li acc, len (li_data li) + acc) 0 loads.

Lemma data_size_nonneg loads : 0 ≤ data_size loads.
Proof. induction loads as [|li loads IH]; simpl; [done|]. pose proof (len_nonneg (li_data li)). lia. Qed.

Lemma data_size_concat loads : len (concat (li_data <$> loads)) = data_size loads.
Proof. induction loads as [|li loads IH]; [done|]. rewrite fmap_cons. cbn [concat]. by rewrite len_app, IH. Qed.

(** A segment in an image: its record with the offset at which its bytes are. *)
Definition in_image (elf img : list Z) (v2 : bool) (off : Z) (li : LoadInfo) : Prop :=
  ∃ cs, li_seg li = mkOnxSegment (ph_vaddr elf off) (ph_filesz elf off) (ph_memsz elf off)
          (seg_offset (li_seg li)) (seg_perms (ph_flags elf off)) (w32 (ph_align elf off)) 0 cs ∧
  packed v2 (ph_bytes elf off) cs (li_data li) ∧ u32 cs ∧
  0 ≤ seg_offset (li_seg li) ∧ seg_offset (li_seg li) + len (li_data li) ≤ len img ∧
  rd (seg_offset (li_seg li)) (len (li_data li)) img = li_data li.

Lemma place_spec elf v2 loads offs : Forall2 (loaded elf v2) offs loads →
  ∀ pre, len pre + data_size loads < 4294967296 →
  Forall2 (in_image elf (pre ++ concat (li_data <$> loads)) v2) offs (place (len pre) loads) ∧
  li_data <$> place (len pre) loads = li_data <$> loads.
Proof.
  induction 1 as [|off li offs loads (cs & Hs & Hp & Hle & Hcs) _ IH]; intros pre Hlt; [done|].
  simpl in Hlt. cbn [place]. rewrite !fmap_cons. cbn [concat li_data].
  pose proof (len_nonneg (li_data li)). pose proof (len_nonneg pre).
  pose proof (data_size_nonneg loads).
  unfold w32. rewrite Z.mod_small, Z.min_r by lia.
  destruct (IH (pre ++ li_data li)) as [IH1 IH2]; [rewrite len_app; lia|].
  rewrite len_app, <-app_assoc in IH1. rewrite len_app in IH2. split; [|by f_equal].
  constructor; [|done]. exists cs. rewrite Hs. simpl. split_and!; try done.
  - rewrite !len_app, data_size_concat. lia.
  - by apply rd_middle.
Qed.

Lemma place_length off loads : length (place off loads) = length loads.
Proof. revert off. induction loads as [|li loads IH]; intros off; simpl; by f_equal. Qed.

Lemma seg_perms_u32 f : u32 (seg_perms f).
Proof.
  unfold seg_perms. destruct (negb _), (negb _), (negb _); vm_compute; split; congruence.
Qed.

(** ** The header *)

Section Header.
Context (elf img : list Z) (v2 : bool) (offs : list Z) (loads : list LoadInfo).
Hypothesis elf_u8 : Forall u8 elf.
Hypothesis offs_ok : Forall (ph_ok elf) offs.
Hypothesis image_small : len img < 4294967296.
Hypothesis loads_in : Forall2 (in_image elf img v2) offs loads.

Lemma in_image_wf : Forall seg_wf (li_seg <$> loads).
Proof.
  apply Forall_fmap. clear -elf_u8 offs_ok image_small loads_in. revert offs_ok.
  induction loads_in as [|off li offs' loads' (cs & Hs & _ & Hcs & H0 & Hl & _) Hin IH]; intros Hok; [constructor|].
  apply Forall_cons_1 in Hok as [(Ho & H56 & _) Hok]. constructor; [|exact (IH Hin Hok)].
  pose proof (len_nonneg (li_data li)). simpl. rewrite Hs. unfold seg_wf. simpl.
  pose proof (fld_u elf (off + 16) 8 elf_u8). pose proof (fld_u elf (off + 32) 8 elf_u8).
  pose proof (fld_u elf (off + 40) 8 elf_u8). change (256 ^ 8) with 18446744073709551616 in *.
  unfold u64, ph_vaddr, ph_filesz, ph_memsz. pose proof (seg_perms_u32 (ph_flags elf off)).
  split_and!; try done; try lia; unfold u32, w32; try lia; apply Z.mod_pos_bound; lia.
Qed.

Lemma seg_table_spec : ∃ t, seg_table loads = Ok t ∧ len t = 48 * len loads ∧
  ∀ (k : nat) s pre post, (li_seg <$> loads) !! k = Some s →
    ∃ sb, seg_from_bytes_v2 sb = Ok (Some s) ∧ rd (len pre + Z.of_nat k * 48) 48 (pre ++ t ++ post) = sb.
Proof.
  pose proof in_image_wf as Hwf. clear -Hwf. induction loads as [|li ls IH].
  { exists []. split_and!; [done..|]. intros k s pre post Hk. done. }
  apply Forall_cons_1 in Hwf as [Hs Hwf]. destruct (IH Hwf) as (t & Ht & Hlt & Hk).
  destruct (seg_v2_rt _ Hs) as (b & Hb & Hlb & Hr). unfold seg_to_bytes_v2 in Hb.
  cbn [seg_table]. unfold to_bytes_v2. rewrite Hb, bind_ok, Ht, bind_ok.
  eexists; split_and!; [done|rewrite len_app, len_cons; lia|].
  intros [|k] s pre post; simpl.
  - intros [= <-]. exists b. split; [done|]. rewrite Z.add_0_r, <-Hlb, <-app_assoc. by apply rd_middle.
  - intros Hks. destruct (Hk k s (pre ++ b) post Hks) as (sb & Hsb & Hrd). exists sb. split; [done|].
    rewrite <-Hrd, len_app, Hlb, <-!app_assoc. f_equal. lia.
Qed.
End Header.

(** ** The whole file *)

Definition total_filesz (elf : list Z) (offs : list Z) : Z := foldr (λ off acc, ph_filesz elf off + acc) 0 offs.

Lemma loaded_size elf v2 offs loads : Forall2 (loaded elf v2) offs loads →
  data_size loads ≤ total_filesz elf offs.
Proof. induction 1 as [|off li offs loads (cs & _ & _ & Hl & _) _ IH]; simpl; lia. Qed.

Lemma header_asc v e n f : asc 0 24 (header_fields v e n f).
Proof. unfold header_fields. solve_asc. Qed.

(** Adding bytes behind a buffer keeps what it stores. *)
Lemma stored_app a b fs : asc 0 (len a) fs → Forall (stored a) fs → Forall (stored (a ++ b)) fs.
Proof. intros Ha. apply (stored_keep a _ 0 (len a)); [lia|done|]. intros; by apply rd_app_l. Qed.

Definition any_compressed (loads : list LoadInfo) : bool :=
  existsb (λ li, 0 <? seg_compressed_size (li_seg li)) loads.
Definition image_flags (v2 ring1 : bool) (loads : list LoadInfo) : Z :=
  let ring := if ring1 then ONX_FLAGS_RING1 else 0 in
  if v2 && any_compressed loads then Z.lor ring ONX_FLAGS_COMPRESSED else ring.

Lemma image_flags_u32 v2 ring1 loads : u32 (image_flags v2 ring1 loads).
Proof. unfold image_flags. destruct v2, ring1, (any_compressed loads); vm_compute; split; congruence. Qed.

Section WriteOut.
Context (elf : list Z) (v2 ring1 : bool) (e_entry : Z) (offs : list Z) (loads : list LoadInfo).
Hypothesis elf_u8 : Forall u8 elf.
Hypothesis offs_ok : Forall (ph_ok elf) offs.
Hypothesis entry_ok : u64 e_entry.
Hypothesis few : len loads ≤ (if v2 then 256 else 8).
Hypothesis small : 16384 + data_size loads < 4294967296.
Hypothesis loads_ok : Forall2 (loaded elf v2) offs loads.

Let hs : Z := if v2 then 32 + 48 * len loads else 344.
Let placed : list LoadInfo := place hs loads.
Let data : list Z := concat (li_data <$> loads).

Lemma hs_bounds : 24 ≤ hs < 16384.
Proof. unfold hs. pose proof (len_nonneg loads). destruct v2; lia. Qed.

Lemma placed_in pre : len pre = hs → Forall2 (in_image elf (pre ++ data) v2) offs placed.
Proof.
  intros Hl. unfold placed. rewrite <-Hl. pose proof hs_bounds. apply place_spec; [done|lia].
Qed.

Lemma placed_wf : Forall seg_wf (li_seg <$> placed).
Proof.
  pose proof hs_bounds. assert (len (zeros hs) = hs) as Hz by (apply len_zeros; lia).
  apply (in_image_wf elf (zeros hs ++ data) v2 offs); auto using placed_in.
  unfold data. rewrite len_app, data_size_concat. lia.
Qed.

Lemma placed_len : len placed = len loads.
Proof. unfold len, placed. by rewrite place_length. Qed.

Lemma placed_data : li_data <$> placed = li_data <$> loads.
Proof.
  pose proof hs_bounds. assert (len (zeros hs) = hs) as Hz by (apply len_zeros; lia).
  unfold placed. rewrite <-Hz. apply (place_spec elf v2 loads offs); [done|lia].
Qed.

Let h : OnxHeader :=
  mkOnxHeader ONX_MAGIC (if v2 then 2 else 1) e_entry (len placed) (image_flags v2 ring1 placed) (li_seg <$> placed).

Lemma h_wf : onx_wf h.
Proof.
  unfold onx_wf, h. simpl. split_and!; auto using image_flags_u32, placed_wf.
  unfold len. by rewrite length_fmap.
Qed.

Lemma write_out_v2 : v2 = true →
  ∃ pre, write_out v2 ring1 e_entry placed = Ok (pre ++ data) ∧ len pre = hs ∧
    onx_from_bytes (pre ++ data) = Ok (Some h).
Proof.
  intros Hv. pose proof hs_bounds. pose proof placed_len as Hn. pose proof (len_nonneg loads).
  pose proof few as Hfew. rewrite Hv in Hfew.
  set (flags := image_flags v2 ring1 placed).
  destruct (puts_asc (header_fields 2 e_entry (len placed) flags) (zeros 32) 0) as (b & Hp & Hl & _ & Hst); [lia| |].
  { rewrite len_zeros by lia. rewrite <-(app_nil_r (header_fields _ _ _ _)).
    eapply asc_app; [apply header_asc|simpl; lia]. }
  rewrite len_zeros in Hl by lia.
  assert (len (zeros hs) = hs) as Hz by (apply len_zeros; lia).
  destruct (seg_table_spec elf (zeros hs ++ data) v2 offs placed) as (t & Ht & Hlt & Hk); auto using placed_in.
  { unfold data. rewrite len_app, data_size_concat. lia. }
  exists (b ++ t). split_and!.
  - unfold write_out. rewrite Hv. unfold w32. rewrite Z.mod_small by lia. cbv zeta.
    change (existsb _ placed) with (any_compressed placed).
    change (if any_compressed placed then _ else _) with (image_flags true ring1 placed).
    assert (image_flags true ring1 placed = flags) as -> by (unfold flags; by rewrite Hv).
    rewrite Hp, bind_ok, Ht, !bind_ok. unfold data. by rewrite placed_data.
  - rewrite len_app. unfold hs. rewrite Hv. lia.
  - rewrite <-app_assoc. transitivity (Ok (Some (mkOnxHeader ONX_MAGIC 2 (onx_entry h) (onx_nsegs h) (onx_flags h) (onx_segs h)))).
    2:{ unfold h. by rewrite Hv. }
    apply onx_v2_decode; [apply h_wf|unfold ONX_MAX_SEGS, h; simpl; lia| | |].
    + apply stored_app; [|exact Hst]. rewrite Hl.
      change (onx_fields h 2) with (header_fields 2 e_entry (len placed) flags).
      rewrite <-(app_nil_r (header_fields _ _ _ _)). eapply asc_app; [apply header_asc|simpl; lia].
    + rewrite !len_app. unfold h. simpl. pose proof (len_nonneg data). lia.
    + intros k s Hs. destruct (Hk k s b data Hs) as (sb & Hsb & Hrd). exists sb. split; [done|].
      rewrite <-Hrd, Hl. f_equal.
Qed.

Lemma write_out_v1 : v2 = false →
  ∃ pre, write_out v2 ring1 e_entry placed = Ok (pre ++ data) ∧ len pre = hs ∧
    onx_from_bytes (pre ++ data) = Ok (Some h).
Proof.
  intros Hv. pose proof hs_bounds. pose proof placed_len as Hn. pose proof (len_nonneg loads).
  pose proof few as Hfew. rewrite Hv in Hfew.
  set (flags := image_flags v2 ring1 placed).
  destruct (puts_asc (header_fields 1 e_entry (len placed) flags) (zeros 344) 0) as (b & Hp & Hl & _ & Hst); [lia| |].
  { rewrite len_zeros by lia. rewrite <-(app_nil_r (header_fields _ _ _ _)).
    eapply asc_app; [apply header_asc|simpl; lia]. }
  rewrite len_zeros in Hl by lia.
  assert (Forall (ser_ok to_bytes_v1 seg_from_bytes_v1 40) (li_seg <$> placed)) as Hser.
  { pose proof placed_wf as Hwf. pose proof (placed_in (zeros hs) ltac:(apply len_zeros; lia)) as Hin. rewrite Hv in Hin.
    clear -Hwf Hin. revert Hwf. induction Hin as [|off li offs' loads' (cs & Hs' & Hp' & _) _ IH]; intros Hwf; [constructor|].
    apply Forall_cons_1 in Hwf as [Hw Hwf]. constructor; [|by apply IH].
    apply (seg_v1_rt _ Hw). rewrite Hs'. simpl. destruct Hp' as [[-> _]|[? _]]; done. }
  destruct (write_segs_ok to_bytes_v1 seg_from_bytes_v1 24 40 ltac:(lia) ltac:(lia) (li_seg <$> placed) b 0)
    as (b' & Hw & Hl' & Hrd & Hk); [lia|done|unfold len at 1; rewrite length_fmap; fold (len placed); lia|].
  exists b'. split_and!.
  - unfold write_out. rewrite Hv. unfold w32. rewrite Z.mod_small by lia. cbv zeta.
    change (if ring1 then ONX_FLAGS_RING1 else 0) with (image_flags false ring1 placed).
    assert (image_flags false ring1 placed = flags) as -> by (unfold flags; by rewrite Hv).
    rewrite Hp, bind_ok, Hw, !bind_ok. unfold data. by rewrite placed_data.
  - unfold hs. rewrite Hv. lia.
  - transitivity (Ok (Some (mkOnxHeader ONX_MAGIC 1 (onx_entry h) (onx_nsegs h) (onx_flags h) (onx_segs h)))).
    2:{ unfold h. by rewrite Hv. }
    apply onx_v1_decode; [apply h_wf|unfold h; simpl; lia| | |].
    + apply stored_app.
      { rewrite Hl', Hl. rewrite <-(app_nil_r (onx_fields _ _)). eapply asc_app; [apply onx_fields_asc|simpl; lia]. }
      apply (stored_keep b b' 0 24); [lia|apply onx_fields_asc|intros; apply Hrd; lia|exact Hst].
    + rewrite len_app. pose proof (len_nonneg data). lia.
    + intros k s Hs. destruct (Hk k s Hs) as (sb & Hsb & Hr). exists sb. split; [done|].
      rewrite rd_app_l; [done|lia|lia|].
      apply lookup_lt_Some in Hs. change (onx_segs h) with (li_seg <$> placed) in Hs. rewrite length_fmap in Hs. unfold len in *. lia.
Qed.

Lemma write_out_spec :
  ∃ pre, write_out v2 ring1 e_entry placed = Ok (pre ++ data) ∧ len pre = hs ∧
    onx_from_bytes (pre ++ data) = Ok (Some h) ∧ Forall2 (in_image elf (pre ++ data) v2) offs placed.
Proof.
  destruct (bool_dec v2 true) as [Hv|Hv%not_true_is_false];
    [destruct (write_out_v2 Hv) as (pre & ? & Hl & ?)|destruct (write_out_v1 Hv) as (pre & ? & Hl & ?)];
    exists pre; split_and!; auto using placed_in.
Qed.
End WriteOut.

Module ElfTheorems.

(** The program headers of a file. *)
Definition elf_phs (elf : list Z) : list Z :=
  ph_offs (fld 8 elf 32) (fld 2 elf 54) 0 (Z.to_nat (fld 2 elf 56)).

(** A little-endian RISC-V executable under 2 GiB whose headers and segments lie
    inside the file, with no more loadable segments than the format takes. *)
Definition elf_ok (elf : list Z) (v2 : bool) : Prop :=
  Forall u8 elf ∧ 64 ≤ len elf < 2147483648 ∧ rd 0 4 elf = [127; 69; 76; 70] ∧
  elf !! 4%nat = Some 2 ∧ elf !! 5%nat = Some 1 ∧ fld 2 elf 16 = 2 ∧ fld 2 elf 18 = 243 ∧
  Forall (ph_ok elf) (elf_phs elf) ∧
  len (loadable elf (elf_phs elf)) ≤ (if v2 then 256 else 8) ∧
  16384 + total_filesz elf (loadable elf (elf_phs elf)) < 4294967296.

(** The segment record [s] of the image stands for the program header at [off]:
    the addresses, sizes and permissions are those of the header, and the bytes in
    the image are, or decompress to, those of the file. *)
Definition stands_for (elf img : list Z) (h : OnxHeader) (off : Z) (s : OnxSegment) : Prop :=
  let compressed := negb (Z.land (onx_flags h) ONX_FLAGS_COMPRESSED =? 0) in
  seg_vaddr s = ph_vaddr elf off ∧ seg_filesz s = ph_filesz elf off ∧ seg_memsz s = ph_memsz elf off ∧
  seg_flags s = seg_perms (ph_flags elf off) ∧
  if compressed && (0 <? seg_compressed_size s) then
    ∃ bytes, slice img (seg_offset s) (seg_offset s + seg_compressed_size s) = Ok bytes ∧
      rle_decompress bytes (zeros (seg_filesz s)) = Ok (seg_filesz s, ph_bytes elf off)
  else slice img (seg_offset s) (seg_offset s + seg_filesz s) = Ok (ph_bytes elf off).

Lemma ph_bytes_len elf off : Forall u8 elf → ph_ok elf off → ph_type elf off = 1 →
  0 ≤ ph_filesz elf off ∧ len (ph_bytes elf off) = ph_filesz elf off.
Proof.
  intros Hu (H0 & H56 & Hs) Ht. specialize (Hs Ht).
  pose proof (fld_u elf (off + 8) 8 Hu ltac:(lia) ltac:(lia) ltac:(lia)).
  pose proof (fld_u elf (off + 32) 8 Hu ltac:(lia) ltac:(lia) ltac:(lia)).
  unfold ph_bytes, ph_offset, ph_filesz in *. split; [lia|]. apply len_rd; lia.
Qed.

Lemma in_image_stands elf img v2 ring1 e off li placed n :
  Forall u8 elf → ph_ok elf off → ph_type elf off = 1 → in_image elf img v2 off li → li ∈ placed →
  stands_for elf img
    (mkOnxHeader ONX_MAGIC n e (len placed) (image_flags v2 ring1 placed) (li_seg <$> placed)) off (li_seg li).
Proof.
  intros Hu Hok Ht (cs & Hs & Hp & Hcs & H0 & Hl & Hrd) Hin.
  destruct (ph_bytes_len elf off Hu Hok Ht) as [Hf Hb].
  assert (seg_compressed_size (li_seg li) = cs) as Hc by (by rewrite Hs).
  assert (seg_filesz (li_seg li) = ph_filesz elf off) as Hfs by (by rewrite Hs).
  unfold stands_for. split_and!; [by rewrite Hs..|]. cbn [onx_flags]. rewrite Hc, Hfs.
  destruct Hp as [[-> Hd]|(-> & Hpos & Hcs' & Hd)].
  - rewrite andb_false_r, slice_ok by (rewrite Hd in Hl; lia).
    rewrite Hd in Hrd. f_equal. etransitivity; [|exact Hrd]. f_equal. lia.
  - assert (any_compressed placed = true) as Ha.
    { apply existsb_exists. exists li. split; [by apply list_elem_of_In|]. rewrite Hc. by apply Z.ltb_lt. }
    unfold image_flags. rewrite Ha. cbn [andb].
    assert (negb (Z.land (Z.lor (if ring1 then ONX_FLAGS_RING1 else 0) ONX_FLAGS_COMPRESSED) ONX_FLAGS_COMPRESSED =? 0)
      = true) as -> by (by destruct ring1).
    rewrite (proj2 (Z.ltb_lt _ _) Hpos). cbn [andb].
    exists (li_data li). rewrite slice_ok by lia. split.
    + f_equal. etransitivity; [|exact Hrd]. f_equal. lia.
    + rewrite Hd, <-Hb. apply unpack_spec. apply len_zeros. lia.
Qed.

(** C9. Converting an executable keeps the program: for every well-formed RISC-V
    executable, in either version of the format and with or without compression,
    the tool writes an image that the kernel's parser accepts, whose entry point
    and ring are the ones asked for and whose segments stand, one for one and in
    order, for the loadable program headers - the kernel finds at the offset given
    exactly the bytes of the segment, after decompression where it is compressed. *)
Theorem elf2onx_keeps_program elf ring1 v2 do_compress : elf_ok elf v2 →
  ∃ img h, elf2onx elf ring1 v2 do_compress = Ok (Some img) ∧ onx_from_bytes img = Ok (Some h) ∧
    onx_version h = (if v2 then 2 else 1) ∧ onx_entry h = fld 8 elf 24 ∧
    negb (Z.land (onx_flags h) ONX_FLAGS_RING1 =? 0) = ring1 ∧
    Forall2 (stands_for elf img h) (loadable elf (elf_phs elf)) (onx_segs h).
Proof.
  intros (Hu & Hlen & Hmag & H4 & H5 & H16 & H18 & Hphs & Hfew & Hsum).
  pose proof (fld_u elf 24 8 Hu ltac:(lia) ltac:(lia) ltac:(lia)) as Hentry.
  destruct (ph_loop_spec elf do_compress v2 (fld 8 elf 32) (fld 2 elf 54) Hu ltac:(lia)
              (Z.to_nat (fld 2 elf 56)) 0 []) as (loads & Hloop & Hloads); [done|by rewrite Z.add_0_l|].
  fold (elf_phs elf) in Hloads. simpl in Hloop.
  pose proof (loaded_size _ _ _ _ Hloads) as Hsize.
  assert (len loads = len (loadable elf (elf_phs elf))) as Hn by (unfold len; f_equal; symmetry; eapply Forall2_length, Hloads).
  assert (Forall (λ off, ph_ok elf off ∧ ph_type elf off = 1) (loadable elf (elf_phs elf))) as Hok.
  { apply Forall_forall. intros off Hin%list_elem_of_In. apply list_elem_of_filter in Hin as [Ht Hin]. split; [|done].
    rewrite Forall_forall in Hphs. apply Hphs. by apply list_elem_of_In. }
  destruct (write_out_spec elf v2 ring1 (fld 8 elf 24) (loadable elf (elf_phs elf)) loads)
    as (pre & Hout & Hl & Hparse & Hin); try done; try lia.
  { eapply Forall_impl; [|exact Hok]. by intros ? []. }
  eexists _, _. split_and!; [|exact Hparse|done|done| |].
  - unfold elf2onx. rewrite (proj2 (Z.ltb_ge _ _)), slice_ok, bind_ok by lia. rewrite Z.sub_0_r, Hmag.
    cbn [negb]. rewrite bool_decide_true by done. cbn [negb].
    rewrite (idx_ok _ 4 2 H4), bind_ok by lia. rewrite (idx_ok _ 5 1 H5), bind_ok by lia. cbn [negb Z.eqb Pos.eqb].
    rewrite !u16_at_fld, !le64_at_fld, !bind_ok by lia. rewrite H16, H18.
    cbn [negb Z.eqb Pos.eqb]. rewrite Hloop, !bind_ok.
    unfold w32. rewrite (Z.mod_small (len loads)), Z.mod_small by (pose proof (len_nonneg loads); destruct v2; lia).
    rewrite (Z.mul_comm (len loads)). rewrite Hout. done.
  - simpl. unfold image_flags. destruct v2, ring1, (any_compressed _); done.
  - apply Forall2_fmap_r, Forall2_same_length_lookup_2; [eapply Forall2_length, Hin|].
    intros i off li Ho Hli. pose proof (Forall2_lookup_lr _ _ _ _ _ _ Hin Ho Hli) as Himg.
    destruct (Forall_lookup_1 _ _ _ _ Hok Ho) as [Hph Ht].
    eapply in_image_stands; eauto. by eapply list_elem_of_lookup_2.
Qed.

(** A file with one loadable header (of eight bytes, in 64 of memory) and a note. *)
Definition tiny_elf : list Z :=
  [127; 69; 76; 70; 2; 1; 1] ++ zeros 9 ++ le_bytes 2 2 ++ le_bytes 2 243 ++ le_bytes 4 1 ++
  le_bytes 8 65536 ++ le_bytes 8 64 ++ le_bytes 8 0 ++ le_bytes 4 0 ++ le_bytes 2 64 ++
  le_bytes 2 56 ++ le_bytes 2 2 ++ le_bytes 6 0 ++
  le_bytes 4 4 ++ zeros 52 ++
  le_bytes 4 1 ++ le_bytes 4 5 ++ le_bytes 8 176 ++ le_bytes 8 65536 ++ le_bytes 8 65536 ++
  le_bytes 8 8 ++ le_bytes 8 64 ++ le_bytes 8 4096 ++ [7; 7; 7; 7; 7; 7; 7; 7].

Lemma elf2onx_keeps_program_witness :
  (∃ img h, elf2onx tiny_elf true true true = Ok (Some img) ∧ onx_from_bytes img = Ok (Some h) ∧
    onx_version h = 2 ∧ onx_entry h = fld 8 tiny_elf 24 ∧
    negb (Z.land (onx_flags h) ONX_FLAGS_RING1 =? 0) = true ∧
    Forall2 (stands_for tiny_elf img h) (loadable tiny_elf (elf_phs tiny_elf)) (onx_segs h)) ∧
  loadable tiny_elf (elf_phs tiny_elf) = [120] ∧ ph_bytes tiny_elf 120 = [7; 7; 7; 7; 7; 7; 7; 7].
Proof.
  split; [|by vm_compute]. apply (elf2onx_keeps_program tiny_elf true true true).
  assert (elf_phs tiny_elf = [64; 120]) as Hphs by (by vm_compute).
  assert (loadable tiny_elf [64; 120] = [120]) as Hload by (by vm_compute).
  unfold elf_ok. rewrite Hphs, Hload. split_and!; try (by vm_compute).
  - unfold u8. apply (bool_decide_unpack _). by vm_compute.
  - repeat constructor; vm_compute; intros; congruence.
Defined.

End ElfTheorems.
