(* ===== verification/Mkimage.v ===== *)
(** * tools/src/mkimage: building a file-system image

    Strings are lists of bytes; the manifest and the command line are taken to be
    ASCII.  The files of the host are a function from paths to contents ([None]:
    they cannot be read, and the tool exits).  [Ok None] and [None] are
    [process::exit(1)], [Panic] is an index out of range.  The readings of the
    clock are a function [clock] of the inode that is written, 0 for the superblock.
    Messages are left out. *)

From S2P Require Import Prelude Parser Formats.
From stdpp Require Import base list numbers.
From Stdlib Require Import ZArith Lia.

Open Scope Z_scope.

(** ** tree.rs *)

Record Entry := mkEntry { e_inode : Z; e_data : list Z }.
Record DirNode := mkDirNode { dn_ino : Z; dn_parent : Z; dn_entries : list (list Z * Z * bool) }.

(** [dirs], [files] and [next_ino] of main. *)
Record Tree := mkTree { t_dirs : list DirNode; t_files : list Entry; t_next : Z }.

Definition root : DirNode := mkDirNode 1 1 [].
Definition SEP : Z := 47.

(** [trim_start_matches('/')] *)
Fixpoint trim_seps (l : list Z) : list Z :=
  match l with c :: l' => if c =? SEP then trim_seps l' else l | [] => [] end.
Definition trim_seps_end (l : list Z) : list Z := reverse (trim_seps (reverse l)).

(** [rfind('/')] *)
Fixpoint rfind_sep (l : list Z) : option nat :=
  match l with
  | [] => None
  | c :: l =>
      match rfind_sep l with
      | Some n => Some (S n)
      | None => if c =? SEP then Some 0%nat else None
      end
  end.

(** [split('/')] *)
Fixpoint split_sep (l : list Z) : list (list Z) :=
  match l with
  | [] => [[]]
  | c :: l =>
      if c =? SEP then [] :: split_sep l
      else match split_sep l with w :: ws => (c :: w) :: ws | [] => [[c]] end
  end.

Definition basename (path : list Z) : list Z :=
  let path := trim_seps path in
  match rfind_sep path with Some i => drop (S i) path | None => path end.

(** The index of the directory numbered [ino]. *)
Definition dir_index (dirs : list DirNode) (ino : Z) : option nat :=
  fst <$> list_find (λ d, dn_ino d = ino) dirs.

(** The innermost loops: the first entry called [comp] that is a directory. *)
Fixpoint entry_dir (dirs : list DirNode) (es : list (list Z * Z * bool)) (comp : list Z) : option nat :=
  match es with
  | [] => None
  | (name, ino, _) :: es =>
      if bool_decide (name = comp) then
        match dir_index dirs ino with Some j => Some j | None => entry_dir dirs es comp end
      else entry_dir dirs es comp
  end.

(** One component of [find_parent_dir]: the loop over [dirs] looks for a directory
    whose parent is the current one before it looks at the entries. *)
Definition step_dir (dirs : list DirNode) (cur : nat) (comp : list Z) : result nat :=
  match dirs !! cur with
  | None => Panic
  | Some c =>
      if existsb (λ d, dn_parent d =? dn_ino c) dirs
      then Ok (default cur (entry_dir dirs (dn_entries c) comp)) else Ok cur
  end.

Fixpoint walk_dirs (dirs : list DirNode) (cur : nat) (comps : list (list Z)) : result nat :=
  match comps with
  | [] => Ok cur
  | comp :: comps => cur ← step_dir dirs cur comp; walk_dirs dirs cur comps
  end.

Definition find_parent_dir (dirs : list DirNode) (path : list Z) : result nat :=
  let path := trim_seps path in
  match rfind_sep path with
  | None => Ok 0%nat
  | Some i => walk_dirs dirs 0 (filter (λ s, s ≠ []) (split_sep (take i path)))
  end.

Definition push_entry (e : list Z * Z * bool) (d : DirNode) : DirNode :=
  mkDirNode (dn_ino d) (dn_parent d) (dn_entries d ++ [e]).

Definition add_dir (path : list Z) (t : Tree) : result Tree :=
  parent ← find_parent_dir (t_dirs t) path;
  match t_dirs t !! parent with
  | None => Panic
  | Some p =>
      let ino := t_next t in
      Ok (mkTree (alter (push_entry (basename path, ino, true)) parent (t_dirs t) ++ [mkDirNode ino (dn_ino p) []])
            (t_files t) (w32 (ino + 1)))
  end.

(** The component loop of [ensure_parent_dirs], [cur] the path so far. *)
Fixpoint ensure_loop (comps : list (list Z)) (base cur : list Z) (t : Tree) : result Tree :=
  match comps with
  | [] => Ok t
  | comp :: comps =>
      if bool_decide (comp = []) || bool_decide (comp = base) then ensure_loop comps base cur t else
      let cur := cur ++ [SEP] ++ comp in
      r ← idx (t_dirs t) 0;
      let exists_ := existsb (λ d, (dn_parent d =? dn_ino r) &&
                       existsb (λ e : list Z * Z * bool, bool_decide (e.1.1 = basename cur)) (dn_entries d)) (t_dirs t) in
      t ← (if exists_ then Ok t else add_dir cur t);
      ensure_loop comps base cur t
  end.

Definition ensure_parent_dirs (path : list Z) (t : Tree) : result Tree :=
  let path := trim_seps path in
  ensure_loop (split_sep path) (basename path) [] t.

(** [data] is what [std::fs::read(host)] returned. *)
Definition add_file (data fs_path : list Z) (t : Tree) : result Tree :=
  t ← ensure_parent_dirs fs_path t;
  parent ← find_parent_dir (t_dirs t) fs_path;
  match t_dirs t !! parent with
  | None => Panic
  | Some _ =>
      let ino := t_next t in
      Ok (mkTree (alter (push_entry (basename fs_path, ino, false)) parent (t_dirs t))
            (t_files t ++ [mkEntry ino data]) (w32 (ino + 1)))
  end.

(** What [read_dir] of a directory of the host gives, in the order it gives it. *)
Inductive Host :=
  | HFile (data : list Z)
  | HDir (es : list (list Z * Host))
  | HOther.

(** The body of the loop over a directory [rel] ([[]] is the root given). *)
Fixpoint host_entries (prefix rel : list Z) (es : list (list Z * Host)) (stack : list (list Z * Host)) (t : Tree)
    : result (list (list Z * Host) * Tree) :=
  match es with
  | [] => Ok (stack, t)
  | (name, h) :: es =>
      let relative := if bool_decide (rel = []) then name else rel ++ [SEP] ++ name in
      let fs_path := prefix ++ [SEP] ++ relative in
      match h with
      | HDir _ => t ← add_dir fs_path t; host_entries prefix rel es ((relative, h) :: stack) t
      | HFile data => t ← add_file data fs_path t; host_entries prefix rel es stack t
      | HOther => host_entries prefix rel es stack t
      end
  end.

(** [while let Some(dir) = stack.pop()]; a turn per directory of the host. *)
Fixpoint host_loop (fuel : nat) (prefix : list Z) (stack : list (list Z * Host)) (t : Tree) : result Tree :=
  match stack with
  | [] => Ok t
  | (rel, h) :: stack =>
      match fuel with
      | O => Panic
      | S fuel =>
          match h with
          | HDir es => r ← host_entries prefix rel es stack t; host_loop fuel prefix r.1 r.2
          | _ => host_loop fuel prefix stack t
          end
      end
  end.

Fixpoint host_size (h : Host) : nat :=
  match h with
  | HDir es => S (foldr (λ e acc, (host_size (snd e) + acc)%nat) 0%nat es)
  | _ => 1
  end.

Definition add_dir_recursive (h : Host) (fs_prefix : list Z) (t : Tree) : result Tree :=
  host_loop (host_size h) (trim_seps_end fs_prefix) [([], h)] t.

(** ** superblock.rs *)

Definition super_v1 (img : list Z) (total_blocks inode_count inode_table_start data_blocks_start : Z) : result (list Z) :=
  puts [(0, 4, le_bytes 4 ONYFS_MAGIC_V1); (4, 8, le_bytes 4 1); (8, 12, le_bytes 4 4096);
        (12, 16, le_bytes 4 total_blocks); (16, 20, le_bytes 4 inode_count);
        (20, 24, le_bytes 4 inode_table_start); (24, 28, le_bytes 4 2);
        (28, 32, le_bytes 4 data_blocks_start); (32, 36, le_bytes 4 1)] img.

Definition super_v2 (img : list Z) (total_blocks inode_count inode_table_start data_blocks_start
    snapshot_area_start journal_start journal_size ts : Z) : result (list Z) :=
  let feature_flags := Z.lor (Z.lor 1 2) 8 in
  sb ← puts
    [(0, 4, le_bytes 4 ONYFS_MAGIC); (4, 8, le_bytes 4 2); (8, 12, le_bytes 4 4096);
     (12, 16, le_bytes 4 total_blocks); (16, 20, le_bytes 4 inode_count);
     (20, 24, le_bytes 4 inode_table_start); (24, 28, le_bytes 4 2);
     (28, 32, le_bytes 4 data_blocks_start); (32, 36, le_bytes 4 1);
     (36, 40, le_bytes 4 snapshot_area_start); (40, 44, le_bytes 4 0);
     (44, 48, le_bytes 4 journal_start); (48, 52, le_bytes 4 journal_size);
     (52, 56, le_bytes 4 feature_flags); (56, 64, le_bytes 8 ts)] (zeros 128);
  put img 0 128 sb.

(** ** inode.rs *)

(** The block fields of both layouts, from byte [base] on. *)
Fixpoint block_puts (base i : Z) (blocks : list Z) : list (Z * Z * list Z) :=
  match blocks with
  | [] => []
  | b :: blocks => (base + i * 4, base + i * 4 + 4, le_bytes 4 b) :: block_puts base (i + 1) blocks
  end.

Definition inode_v1 (img : list Z) (off mode size : Z) (blocks : list Z) : result (list Z) :=
  puts ([(off, off + 4, le_bytes 4 mode); (off + 4, off + 8, le_bytes 4 size)] ++
        block_puts (off + 8) 0 (take 10 blocks)) img.

Definition inode_v2 (img : list Z) (off mode size : Z) (blocks : list Z) (is_dir : bool) (now : Z) : result (list Z) :=
  buf ← puts ([(0, 4, le_bytes 4 mode); (8, 16, le_bytes 8 size)] ++ block_puts 16 0 (take 10 blocks) ++
              [(64, 68, le_bytes 4 (if is_dir then 2 else 1)); (104, 112, le_bytes 8 now);
               (112, 120, le_bytes 8 now); (120, 128, le_bytes 8 now)]) (zeros 128);
  put img off (off + 128) buf.

(** [for i in 0..count { img[base + i / 8] |= 1 << (i % 8) }], [n] bits to go. *)
Fixpoint set_bits (n : nat) (base i : Z) (img : list Z) : result (list Z) :=
  match n with
  | O => Ok img
  | S n =>
      b ← idx img (base + i / 8);
      img ← set_idx img (base + i / 8) (Z.lor b (w8 (Z.shiftl 1 (i mod 8))));
      set_bits n base (i + 1) img
  end.

Definition write_bitmaps (img : list Z) (inode_count data_block_count : Z) : result (list Z) :=
  img ← set_bits (Z.to_nat inode_count) 4096 0 img;
  set_bits (Z.to_nat data_block_count) (2 * 4096) 0 img.

Definition nblks (f : Entry) : Z := div_ceil (len (e_data f)) 4096.

Definition write_inode_img (v1 : bool) (img : list Z) (base ino mode size : Z) (blocks : list Z) (is_dir : bool)
    (now : Z) : result (list Z) :=
  if v1 then inode_v1 img (base + (ino - 1) * 64) mode (w32 size) blocks
  else inode_v2 img (base + (ino - 1) * 128) mode size blocks is_dir now.

Fixpoint table_dirs (v1 : bool) (clock : Z → Z) (base data_blk : Z) (dirs : list DirNode) (img : list Z)
    : result (list Z * Z) :=
  match dirs with
  | [] => Ok (img, data_blk)
  | d :: dirs =>
      img ← write_inode_img v1 img base (dn_ino d) ONYFS_DT_DIR 0 [data_blk] true (clock (dn_ino d));
      table_dirs v1 clock base (w32 (data_blk + 1)) dirs img
  end.

Definition file_blocks (data_blk n : Z) : list Z :=
  let k := Z.to_nat (Z.min n 10) in
  ((λ i : nat, w32 (data_blk + Z.of_nat i)) <$> seq 0 k) ++ replicate (10 - k) 0.

Fixpoint table_files (v1 : bool) (clock : Z → Z) (base data_blk : Z) (files : list Entry) (img : list Z)
    : result (list Z) :=
  match files with
  | [] => Ok img
  | f :: files =>
      let n := w32 (nblks f) in
      img ← write_inode_img v1 img base (e_inode f) ONYFS_DT_REG (len (e_data f)) (file_blocks data_blk n) false
              (clock (e_inode f));
      table_files v1 clock base (w32 (data_blk + Z.min n 10)) files img
  end.

Definition write_table (v1 : bool) (clock : Z → Z) (img : list Z) (dirs : list DirNode) (files : list Entry)
    (data_blocks_start inode_table_start : Z) : result (list Z) :=
  let base := inode_table_start * 4096 in
  r ← table_dirs v1 clock base data_blocks_start dirs img;
  table_files v1 clock base r.2 files r.1.

(** ** dirent.rs *)

Definition dirent_v1 (img : list Z) (off : Z) (name : list Z) (inode : Z) : result (list Z) :=
  let n := Z.min (len name) 32 in
  puts [(off, off + n, rd 0 n name); (off + 32, off + 36, le_bytes 4 inode)] img.

Definition dirent_v2 (img : list Z) (off : Z) (name : list Z) (inode : Z) (is_dir : bool) : result (list Z) :=
  let n := Z.min (len name) 32 in
  img ← puts [(off, off + n, rd 0 n name); (off + 32, off + 36, le_bytes 4 inode)] img;
  img ← set_idx img (off + 36) (if is_dir then 1 else 2);
  set_idx img (off + 37) (w8 n).

Definition dirent (v1 : bool) (img : list Z) (off : Z) (e : list Z * Z * bool) : result (list Z) :=
  if v1 then dirent_v1 img off e.1.1 e.1.2 else dirent_v2 img off e.1.1 e.1.2 e.2.
Definition dirent_size (v1 : bool) : Z := if v1 then 36 else 40.

(** [for (name, ino, is_dir) in &d.entries] *)
Fixpoint write_entries (v1 : bool) (dir_off entry_off : Z) (es : list (list Z * Z * bool)) (img : list Z)
    : result (list Z) :=
  match es with
  | [] => Ok img
  | e :: es =>
      if dir_off + 4096 <? entry_off + dirent_size v1 then Ok img else
      img ← dirent v1 img entry_off e;
      write_entries v1 dir_off (entry_off + dirent_size v1) es img
  end.

Definition write_dir (v1 : bool) (dir_off : Z) (d : DirNode) (img : list Z) : result (list Z) :=
  img ← dirent v1 img dir_off ([46], dn_ino d, true);
  img ← dirent v1 img (dir_off + dirent_size v1) ([46; 46], dn_parent d, true);
  write_entries v1 dir_off (dir_off + dirent_size v1 + dirent_size v1) (dn_entries d) img.

Fixpoint write_dirs (v1 : bool) (data_blk : Z) (dirs : list DirNode) (img : list Z) : result (list Z * Z) :=
  match dirs with
  | [] => Ok (img, data_blk)
  | d :: dirs =>
      img ← write_dir v1 (data_blk * 4096) d img;
      write_dirs v1 (w32 (data_blk + 1)) dirs img
  end.

(** [for i in 0..nblks], [n] blocks to go. *)
Fixpoint write_chunks (n : nat) (data_blk i : Z) (data img : list Z) : result (list Z * Z) :=
  match n with
  | O => Ok (img, data_blk)
  | S n =>
      let blk_off := data_blk * 4096 in
      let start := i * 4096 in
      let end_ := Z.min (start + 4096) (len data) in
      chunk ← slice data start end_;
      img ← put img blk_off (blk_off + end_ - start) chunk;
      write_chunks n (w32 (data_blk + 1)) (i + 1) data img
  end.

Fixpoint write_files (data_blk : Z) (files : list Entry) (img : list Z) : result (list Z) :=
  match files with
  | [] => Ok img
  | f :: files =>
      r ← write_chunks (Z.to_nat (nblks f)) data_blk 0 (e_data f) img;
      write_files r.2 files r.1
  end.

Definition write_blocks (v1 : bool) (img : list Z) (dirs : list DirNode) (files : list Entry)
    (data_blocks_start : Z) : result (list Z) :=
  r ← write_dirs v1 data_blocks_start dirs img;
  write_files r.2 files r.1.

(** ** main.rs *)

Definition SNAPSHOT_BLOCKS_EACH : Z := 64.
Definition MAX_SNAPSHOTS : Z := 4.
Definition JOURNAL_BLOCKS : Z := 32.

Definition inode_table_blocks (v1 : bool) (t : Tree) : Z :=
  div_ceil (t_next t) (4096 / (if v1 then 64 else 128)).
Definition data_blocks_needed (t : Tree) : Z :=
  w32 (len (t_dirs t) + foldr (λ f acc, w32 (nblks f) + acc) 0 (t_files t)).
Definition snapshot_blocks (v1 : bool) : Z := if negb v1 then MAX_SNAPSHOTS * SNAPSHOT_BLOCKS_EACH else 0.
Definition journal_blocks (v1 : bool) : Z := if negb v1 then JOURNAL_BLOCKS else 0.
Definition metadata_blocks (v1 : bool) (t : Tree) : Z :=
  w32 (3 + inode_table_blocks v1 t + snapshot_blocks v1 + journal_blocks v1).

(** The image of a tree: the part of [main] after the arguments. *)
Definition build_image (v1 : bool) (clock : Z → Z) (t : Tree) : result (list Z) :=
  let total_blocks := w32 (metadata_blocks v1 t + data_blocks_needed t) in
  let img_size := Z.land (total_blocks * 4096 + 511) (18446744073709551615 - 511) in
  let img := zeros img_size in
  let inode_table_start := 3 in
  let snapshot_start := if negb v1 then 3 + inode_table_blocks v1 t else 0 in
  let journal_start := if negb v1 then snapshot_start + snapshot_blocks v1 else 0 in
  let data_blocks_start := metadata_blocks v1 t in
  img ← (if v1 then super_v1 img total_blocks (t_next t) inode_table_start data_blocks_start
         else super_v2 img total_blocks (t_next t) inode_table_start data_blocks_start snapshot_start journal_start
                (journal_blocks v1) (clock 0));
  img ← write_bitmaps img (t_next t) (data_blocks_needed t);
  img ← write_table v1 clock img (t_dirs t) (t_files t) data_blocks_start inode_table_start;
  write_blocks v1 img (t_dirs t) (t_files t) data_blocks_start.

Definition new_tree : Tree := mkTree [root] [] 2.

(** *** Arguments and manifest *)

Definition is_space (c : Z) : bool := (c =? 32) || ((9 <=? c) && (c <=? 13)).
Fixpoint trim_left (l : list Z) : list Z :=
  match l with c :: l' => if is_space c then trim_left l' else l | [] => [] end.
Definition trim (l : list Z) : list Z := reverse (trim_left (reverse (trim_left l))).

(** [lines()]; the empty lines a trailing newline would give are skipped anyway. *)
Fixpoint split_on (sep : Z) (l : list Z) : list (list Z) :=
  match l with
  | [] => [[]]
  | c :: l =>
      if c =? sep then [] :: split_on sep l
      else match split_on sep l with w :: ws => (c :: w) :: ws | [] => [[c]] end
  end.

(** The parts of [splitn(3, ' ')]: the first space ends a part, the third part is the rest. *)
Fixpoint cut_space (l : list Z) : list Z * option (list Z) :=
  match l with
  | [] => ([], None)
  | c :: l => if c =? 32 then ([], Some l) else let '(w, r) := cut_space l in (c :: w, r)
  end.
Definition splitn3 (l : list Z) : list (list Z) :=
  let '(a, r) := cut_space l in
  match r with
  | None => [a]
  | Some r => let '(b, r) := cut_space r in match r with None => [a; b] | Some c => [a; b; c] end
  end.

(** [split_whitespace().next().unwrap_or("")] *)
Fixpoint word (l : list Z) : list Z :=
  match l with c :: l' => if is_space c then [] else c :: word l' | [] => [] end.
Definition first_word (l : list Z) : list Z := word (trim_left l).

Definition str_dir : list Z := [100; 105; 114].
Definition str_file : list Z := [102; 105; 108; 101].
Definition str_v1 : list Z := [45; 45; 118; 49].
Definition str_add : list Z := [45; 45; 97; 100; 100].
Definition str_add_dir : list Z := [45; 45; 97; 100; 100; 45; 100; 105; 114].

Section Main.
(** The files and the directories of the host. *)
Context (host_file : list Z → option (list Z)) (host_dir : list Z → option Host).

(** [add_file] with the read of the host file; [None] is the exit on a read error. *)
Definition add_host_file (host fs_path : list Z) (t : Tree) : result (option Tree) :=
  match host_file host with
  | None => Ok None
  | Some data => Some <$> add_file data fs_path t
  end.

Definition manifest_line (line : list Z) (t : Tree) : result (option Tree) :=
  let line := trim line in
  if bool_decide (line = []) || bool_decide (head line = Some 35) then Ok (Some t) else
  let parts := splitn3 line in
  let kind := default [] (parts !! 0%nat) in
  if bool_decide (kind = str_dir) then Some <$> add_dir (default [SEP] (parts !! 1%nat)) t
  else if bool_decide (kind = str_file) then
    add_host_file (default [] (parts !! 1%nat)) (first_word (default [] (parts !! 2%nat))) t
  else Ok (Some t).

Fixpoint manifest_lines (lines : list (list Z)) (t : Tree) : result (option Tree) :=
  match lines with
  | [] => Ok (Some t)
  | l :: lines =>
      o ← manifest_line l t;
      match o with None => Ok None | Some t => manifest_lines lines t end
  end.

(** The loop over the arguments up to the output path. *)
Fixpoint add_args (args : list (list Z)) (t : Tree) : result (option (list Z * Tree)) :=
  match args with
  | [] => Ok None
  | a :: rest =>
      if bool_decide (a = str_add) then
        match rest with
        | host :: fs_path :: rest =>
            o ← add_host_file host fs_path t;
            match o with None => Ok None | Some t => add_args rest t end
        | _ => Ok None
        end
      else if bool_decide (a = str_add_dir) then
        match rest with
        | dir :: fs_prefix :: rest =>
            match host_dir dir with
            | None => Ok None
            | Some h => t ← add_dir_recursive h fs_prefix t; add_args rest t
            end
        | _ => Ok None
        end
      else Ok (Some (a, t))
  end.

(** The manifest, when the first argument is not an option. *)
Definition manifest_arg (args : list (list Z)) : result (option (list (list Z) * Tree)) :=
  match args with
  | a :: rest =>
      if bool_decide (take 2 a = [45; 45]) then Ok (Some (args, new_tree)) else
      match host_file a with
      | None => Ok None
      | Some text =>
          o ← manifest_lines (split_on 10 text) new_tree;
          Ok (option_map (pair rest) o)
      end
  | [] => Ok (Some ([], new_tree))
  end.

(** [args] without the name of the program: the output path and the image. *)
Definition mkimage (clock : Z → Z) (args : list (list Z)) : result (option (list Z * list Z)) :=
  if (length args <? 2)%nat then Ok None else
  let v1 := bool_decide (head args = Some str_v1) in
  o ← manifest_arg (if v1 then tail args else args);
  match o with
  | None => Ok None
  | Some (args, t) =>
      o ← add_args args t;
      match o with
      | None => Ok None
      | Some (output_path, t) => img ← build_image v1 clock t; Ok (Some (output_path, img))
      end
  end.
End Main.
