(* ===== verification/MkimageProps.v ===== *)
(** * tools/src/mkimage: the contents of an image

    Every writer of the tool changes one region of the image ([keeps]); the lemmas
    say what the region holds afterwards. *)

From S2P Require Import Prelude Parser Formats FormatsProps Compress Onyxfs OnyxfsProps DirProps FsThms Mkimage.
From stdpp Require Import base list numbers gmap.
From Stdlib Require Import ZArith Lia.

Open Scope Z_scope.

(** ** Regions *)

Definition keeps (lo hi : Z) (img img' : list Z) : Prop :=
  len img' = len img ∧
  ∀ a n, 0 ≤ a → 0 ≤ n → a + n ≤ len img → a + n ≤ lo ∨ hi ≤ a → rd a n img' = rd a n img.

Lemma keeps_refl lo hi img : keeps lo hi img img.
Proof. by split. Qed.

Lemma keeps_trans lo hi a b c : keeps lo hi a b → keeps lo hi b c → keeps lo hi a c.
Proof. intros [H1 H2] [H3 H4]. split; [congruence|]. intros x n Hx Hn Hl Hd. rewrite H4, H2; auto. lia. Qed.

Lemma keeps_mono lo hi lo' hi' a b : lo' ≤ lo → hi ≤ hi' → keeps lo hi a b → keeps lo' hi' a b.
Proof. intros Hl Hh [H1 H2]. split; [done|]. intros x n Hx Hn Hb Hd. apply H2; auto. lia. Qed.

Lemma keeps_wr a bs img : 0 ≤ a → a + len bs ≤ len img → keeps a (a + len bs) img (wr a bs img).
Proof.
  intros Ha Hl. pose proof (len_nonneg bs). split; [by apply len_wr|]. intros x n Hx Hn Hb Hd. apply rd_wr_ne; lia.
Qed.

Lemma keeps_rd lo hi a n img img' : keeps lo hi img img' → 0 ≤ a → 0 ≤ n → a + n ≤ len img →
  a + n ≤ lo ∨ hi ≤ a → rd a n img' = rd a n img.
Proof. intros [_ H]. apply H. Qed.

Lemma rd_zeros a n k : 0 ≤ a → 0 ≤ n → a + n ≤ k → rd a n (zeros k) = zeros n.
Proof.
  intros Ha Hn Hk. unfold rd, zeros. rewrite drop_replicate, take_replicate. f_equal. lia.
Qed.

Lemma wr_same a (src b : list Z) : 0 ≤ a → rd a (len src) b = src → a + len src ≤ len b → wr a src b = b.
Proof.
  intros Ha Hs Hl. pose proof (len_nonneg src). unfold wr.
  rewrite <-(take_drop (Z.to_nat a) b) at 3. f_equal.
  rewrite <-(take_drop (length src) (drop (Z.to_nat a) b)) at 1. rewrite drop_drop. f_equal.
  rewrite <-Hs at 1. unfold rd, len. by rewrite Nat2Z.id.
Qed.

(** Fields in ascending order leave the bytes between them alone. *)
Lemma puts_frame fs : ∀ b b' a n, puts fs b = Ok b' → 0 ≤ a → 0 ≤ n → a + n ≤ len b →
  Forall (λ f : Z * Z * list Z, f.1.2 ≤ a ∨ a + n ≤ f.1.1) fs → rd a n b' = rd a n b.
Proof.
  induction fs as [|[[x e] src] fs IH]; intros b b' a n H Ha Hn Hl Hf; simpl in H; [by injection H as ->|].
  apply Forall_cons_1 in Hf as [Hx Hf]. simpl in Hx. unfold put in H. case_if_in H E; [|done]. bool_prop.
  assert (len (wr x src b) = len b) as Hlen by (apply len_wr; lia).
  rewrite (IH _ _ _ _ H) by (try done; lia). apply rd_wr_ne; lia.
Qed.

Lemma le_bytes_zeros n : le_bytes n 0 = zeros (Z.of_nat n).
Proof.
  unfold zeros. rewrite Nat2Z.id. induction n as [|n IH]; [done|].
  change (0 :: le_bytes n 0 = 0 :: replicate n 0). by rewrite IH.
Qed.

(** A field that is not written reads as zero. *)
Lemma stored_gap fs b' k a e n : puts fs (zeros k) = Ok b' → 0 ≤ a → e = a + Z.of_nat n → e ≤ k →
  Forall (λ f : Z * Z * list Z, f.1.2 ≤ a ∨ e ≤ f.1.1) fs → stored b' (a, e, le_bytes n 0).
Proof.
  intros Hp Ha -> Hk Hf. simpl. replace (a + Z.of_nat n - a) with (Z.of_nat n) by lia.
  rewrite (puts_frame _ _ _ a (Z.of_nat n) Hp), rd_zeros, le_bytes_zeros by (rewrite ?len_zeros; lia || done). done.
Qed.

(** ** The superblock *)

Definition img_super (total next data_start snap jstart ts : Z) : OnyfsSuper :=
  mkOnyfsSuper ONYFS_MAGIC 2 4096 total next 3 2 data_start 1 snap 0 jstart 32 11 ts 0 (replicate 10 0).

Lemma super_v2_spec img total next data_start snap jstart ts :
  4096 ≤ len img → u32 total → u32 next → u32 data_start → u32 snap → u32 jstart → u64 ts →
  ∃ img', super_v2 img total next 3 data_start snap jstart 32 ts = Ok img' ∧ keeps 0 128 img img' ∧
    super_from_bytes (rd 0 4096 img') = Ok (Some (img_super total next data_start snap jstart ts)).
Proof.
  intros Hl Ht Hn Hd Hs Hj Hts. unfold super_v2. cbv zeta.
  match goal with |- context [puts ?fs _] =>
    destruct (puts_asc fs (zeros 128) 0) as (b & Hp & Hlb & _ & Hst) end; [lia|solve_asc|].
  rewrite Hp, bind_ok. rewrite len_zeros in Hlb by lia. rewrite put_ok by lia.
  eexists; split; [done|]. split.
  { replace 128 with (0 + len b) by lia. apply keeps_wr; lia. }
  assert (stored b (64, 72, le_bytes 8 0)) as Hgap.
  { eapply stored_gap; [exact Hp|lia|lia|lia|]. repeat constructor; simpl; lia. }
  set (blk := rd 0 4096 (wr 0 b img)).
  assert (len blk = 4096) as Hlk by (apply len_rd; rewrite ?len_wr; lia).
  assert (∀ x y src, 0 ≤ x → x ≤ y → y ≤ 128 → stored b (x, y, src) → stored blk (x, y, src)) as Hup.
  { intros x y src Hx Hxy Hy H0. simpl in *. unfold blk. rewrite rd_rd by lia. rewrite Z.add_0_l.
    rewrite <-H0. unfold wr. change (Z.to_nat 0) with 0%nat. rewrite take_0, app_nil_l. apply rd_app_l; lia. }
  split_stored. repeat match goal with H : stored b _ |- _ => apply Hup in H; [|lia..] end.
  unfold super_from_bytes, SUPER_SIZE. rewrite (proj2 (Z.ltb_ge _ _)) by lia.
  rewrite (le32_at_stored blk 0 4 ONYFS_MAGIC) by (first [eassumption|lia|by vm_compute]). rewrite bind_ok.
  change (negb (ONYFS_MAGIC =? ONYFS_MAGIC) && negb (ONYFS_MAGIC =? ONYFS_MAGIC_V1)) with false. cbv iota.
  repeat first [erewrite le32_at_stored by (first [eassumption|lia|by vm_compute])
               |erewrite le64_at_stored by (first [eassumption|lia|by vm_compute])|rewrite bind_ok].
  done.
Qed.

(** ** The bitmaps *)

(** Bit [k] of the bitmap at [base]. *)
Definition bit_at (img : list Z) (base k : Z) : bool :=
  match img !! Z.to_nat (base + k / 8) with Some b => Z.testbit b (k mod 8) | None => false end.

Lemma shift_bit i : 0 ≤ i → w8 (Z.shiftl 1 (i mod 8)) = 2 ^ (i mod 8).
Proof.
  intros Hi. pose proof (Z.mod_pos_bound i 8 ltac:(lia)). rewrite Z.shiftl_1_l. unfold w8. apply Z.mod_small.
  split; [apply Z.pow_nonneg; lia|]. apply (Z.pow_lt_mono_r 2 _ 8); lia.
Qed.

Lemma bit_at_set img base i b k : 0 ≤ base → 0 ≤ i → 0 ≤ k → img !! Z.to_nat (base + i / 8) = Some b →
  bit_at (<[Z.to_nat (base + i / 8) := Z.lor b (w8 (Z.shiftl 1 (i mod 8)))]> img) base k =
    bit_at img base k || (k =? i).
Proof.
  intros Hb Hi Hk Hl. unfold bit_at. rewrite shift_bit by done.
  assert (0 ≤ i / 8) by (apply Z.div_pos; lia). assert (0 ≤ k / 8) by (apply Z.div_pos; lia).
  destruct (decide (k / 8 = i / 8)) as [E|E].
  - rewrite E, list_lookup_insert_eq by (by eapply lookup_lt_Some). rewrite Hl, Z.lor_spec. f_equal.
    rewrite Z.pow2_bits_eqb by (apply Z.mod_pos_bound; lia).
    pose proof (Z.div_mod k 8 ltac:(lia)). pose proof (Z.div_mod i 8 ltac:(lia)).
    destruct (Z.eqb_spec (i mod 8) (k mod 8)), (Z.eqb_spec k i); lia || congruence.
  - rewrite list_lookup_insert_ne by lia.
    rewrite (proj2 (Z.eqb_neq k i)), orb_false_r; [done|]. intros ->. done.
Qed.

Lemma set_bits_spec base n : ∀ i img, 0 ≤ base → 0 ≤ i → 8 * base + i + Z.of_nat n ≤ 8 * len img →
  ∃ img', set_bits n base i img = Ok img' ∧ keeps base (base + (i + Z.of_nat n + 7) / 8) img img' ∧
    ∀ k, 0 ≤ k → bit_at img' base k = bit_at img base k || ((i <=? k) && (k <? i + Z.of_nat n)).
Proof.
  induction n as [|n IH]; intros i img Hb Hi Hl.
  { exists img. split; [done|]. split; [apply keeps_refl|]. intros k Hk. rewrite Z.add_0_r.
    destruct (Z.leb_spec i k), (Z.ltb_spec k i); try lia; by rewrite orb_false_r. }
  cbn [set_bits].
  assert (0 ≤ base + i / 8 < len img) as Hx by (Z.to_euclidean_division_equations; lia).
  destruct (idx_Some img _ Hx) as [b Hlk]. rewrite (idx_ok _ _ _ Hlk), bind_ok by lia.
  rewrite set_idx_ok, bind_ok by lia.
  destruct (IH (i + 1) (<[Z.to_nat (base + i / 8) := Z.lor b (w8 (Z.shiftl 1 (i mod 8)))]> img))
    as (img' & -> & Hkeep & Hbits); [lia|lia|rewrite len_insert; lia|].
  exists img'. split; [done|]. split.
  - rewrite insert_wr in Hkeep by lia.
    apply keeps_trans with (wr (base + i / 8) [Z.lor b (w8 (Z.shiftl 1 (i mod 8)))] img).
    + eapply keeps_mono; [| |apply keeps_wr; [lia|change (len [_]) with 1; lia]].
      * Z.to_euclidean_division_equations; lia.
      * change (len [_]) with 1. Z.to_euclidean_division_equations; lia.
    + eapply keeps_mono; [| |exact Hkeep]; [lia|]. f_equal. Z.to_euclidean_division_equations; lia.
  - intros k Hk. rewrite Hbits, bit_at_set by (done || lia).
    destruct (Z.eqb_spec k i), (Z.leb_spec i k), (Z.leb_spec (i + 1) k), (Z.ltb_spec k (i + 1 + Z.of_nat n)),
      (Z.ltb_spec k (i + Z.of_nat (S n))); try lia; cbn [andb orb]; rewrite ?orb_false_r, ?orb_true_r; done.
Qed.

(** ** Inodes *)

Ltac forall_lia := repeat (apply Forall_cons_2; [simpl; lia|]); apply Forall_nil_2.

Definition img_inode (mode size : Z) (blocks : list Z) (is_dir : bool) (now : Z) : OnyfsInode :=
  mkOnyfsInode mode size 0 0 (if is_dir then 2 else 1) blocks 0 0 now now now 0 0 0.

Lemma block_puts_fields i bls : block_puts 16 i bls = block_fields i bls.
Proof. revert i. induction bls as [|b bls IH]; intros i; simpl; [done|]. by rewrite IH. Qed.

Lemma block_fields_app i a b : block_fields i (a ++ b) = block_fields i a ++ block_fields (i + len a) b.
Proof.
  revert i. induction a as [|x a IH]; intros i; simpl; [by rewrite Z.add_0_r|].
  rewrite IH, len_cons. do 3 f_equal. lia.
Qed.

Lemma block_fields_range i bls x y : 0 ≤ i → x ≤ 16 + i * 4 → 16 + (i + len bls) * 4 ≤ y →
  Forall (λ f : Z * Z * list Z, x ≤ f.1.1 ∧ f.1.2 ≤ y) (block_fields i bls).
Proof.
  revert i. induction bls as [|b bls IH]; intros i Hi Hx Hy; simpl; constructor; rewrite len_cons in Hy;
    pose proof (len_nonneg bls); simpl; [lia|]. apply IH; lia.
Qed.

Lemma inode_v2_spec img off mode size bls k is_dir now :
  let blocks := bls ++ replicate k 0 in
  0 ≤ off → off + 128 ≤ len img → u32 mode → u64 size → u64 now → len bls ≤ 10 → len blocks = 10 → Forall u32 bls →
  ∃ b, inode_v2 img off mode size bls is_dir now = Ok (wr off b img) ∧ len b = 128 ∧
    decode_inode b = Ok (img_inode mode size blocks is_dir now).
Proof.
  intros blocks Ho Hl Hm Hs Hn Hb10 Hb Hu. unfold inode_v2. rewrite take_ge by (unfold len in *; lia).
  rewrite block_puts_fields.
  set (nl := if is_dir then 2 else 1). assert (u32 nl) as Hnl by (unfold nl, u32; destruct is_dir; lia).
  set (fs := _ ++ block_fields 0 bls ++ _).
  pose proof (block_fields_asc 0 bls ltac:(lia)) as Hasc. rewrite Z.add_0_l in Hasc.
  destruct (puts_asc fs (zeros 128) 0) as (b & Hp & Hlb & _ & Hst); [lia| |].
  { rewrite len_zeros by lia. unfold fs. simpl app. cbn [asc]. rewrite !len_le_bytes. split_and!; try lia.
    eapply asc_app with (16 + len bls * 4); [exact Hasc|]. simpl. rewrite !len_le_bytes. lia. }
  rewrite len_zeros in Hlb by lia. rewrite Hp, bind_ok, put_ok by lia. exists b. split; [done|]. split; [done|].
  pose proof (len_nonneg bls).
  assert (∀ a e n, 0 ≤ a → e = a + Z.of_nat n → e ≤ 128 →
    Forall (λ f : Z * Z * list Z, f.1.2 ≤ a ∨ e ≤ f.1.1) [(0, 4, le_bytes 4 mode); (8, 16, le_bytes 8 size)] →
    16 + len bls * 4 ≤ a → Forall (λ f : Z * Z * list Z, f.1.2 ≤ a ∨ e ≤ f.1.1)
      [(64, 68, le_bytes 4 nl); (104, 112, le_bytes 8 now); (112, 120, le_bytes 8 now); (120, 128, le_bytes 8 now)] →
    stored b (a, e, le_bytes n 0)) as Hgap.
  { intros a e n Ha He He' H1 H2 H3. eapply stored_gap; [exact Hp|done..|]. unfold fs.
    apply Forall_app. split; [exact H1|]. apply Forall_app. split; [|exact H3].
    pose proof (block_fields_range 0 bls 16 (16 + len bls * 4) ltac:(lia) ltac:(lia) ltac:(lia)) as Hr.
    eapply Forall_impl; [exact Hr|]. simpl. intros f [_ Hf]. left. lia. }
  assert (Forall (stored b) (block_fields 0 blocks)) as Hblk.
  { unfold blocks. rewrite block_fields_app, Z.add_0_l. apply Forall_app. unfold fs in Hst.
    apply Forall_app in Hst as [_ Hst]. apply Forall_app in Hst as [Hst _]. split; [exact Hst|].
    assert (∀ j m, 0 ≤ j → 16 + (len bls + j + Z.of_nat m) * 4 ≤ 56 →
      Forall (stored b) (block_fields (len bls + j) (replicate m 0))) as Hz.
    { intros j m. revert j. induction m as [|m IH]; intros j Hj Hm'; simpl; constructor.
      - apply Hgap; try lia; forall_lia.
      - rewrite <-Z.add_assoc. apply IH; lia. }
    rewrite <-(Z.add_0_r (len bls)). apply Hz; [lia|].
    unfold blocks in Hb. rewrite len_app in Hb. unfold len in Hb at 2. rewrite length_replicate in Hb. lia. }
  assert (∀ a, 56 ≤ a → a + 4 ≤ 128 → a + 4 ≤ 64 ∨ 68 ≤ a ∧ a + 4 ≤ 104 → stored b (a, a + 4, le_bytes 4 0)) as Hg4.
  { intros a Ha Ha' Ha''. apply Hgap; try lia; forall_lia. }
  pose proof (Hg4 56 ltac:(lia) ltac:(lia) ltac:(lia)) as G56. pose proof (Hg4 60 ltac:(lia) ltac:(lia) ltac:(lia)) as G60.
  pose proof (Hg4 68 ltac:(lia) ltac:(lia) ltac:(lia)) as G68. pose proof (Hg4 72 ltac:(lia) ltac:(lia) ltac:(lia)) as G72.
  pose proof (Hg4 96 ltac:(lia) ltac:(lia) ltac:(lia)) as G96. pose proof (Hg4 100 ltac:(lia) ltac:(lia) ltac:(lia)) as G100.
  unfold decode_inode, inode_from_bytes, INODE_SIZE. rewrite (proj2 (Z.ltb_ge _ _)) by lia.
  assert (Z.to_nat ONYFS_DIRECT_BLKS = length blocks) as -> by (unfold ONYFS_DIRECT_BLKS, len in *; lia).
  assert (Forall u32 blocks) as Hub.
  { apply Forall_app. split; [done|]. apply Forall_replicate. unfold u32. lia. }
  rewrite (read_blocks_ok b 0 blocks), bind_ok by (done || lia).
  unfold fs in Hst. split_stored.
  assert (u32 0) by (unfold u32; lia). simpl (_ + 4) in *.
  decode_fields. done.
Qed.

(** ** The inode table *)

Record Item := mkItem { it_ino : Z; it_mode : Z; it_size : Z; it_blocks : list Z; it_dir : bool }.

Fixpoint put_items (clock : Z → Z) (base : Z) (items : list Item) (img : list Z) : result (list Z) :=
  match items with
  | [] => Ok img
  | it :: items =>
      img ← inode_v2 img (base + (it_ino it - 1) * 128) (it_mode it) (it_size it) (it_blocks it) (it_dir it)
              (clock (it_ino it));
      put_items clock base items img
  end.

Fixpoint dir_items (blk : Z) (dirs : list DirNode) : list Item :=
  match dirs with
  | [] => []
  | d :: dirs => mkItem (dn_ino d) ONYFS_DT_DIR 0 [blk] true :: dir_items (blk + 1) dirs
  end.

Fixpoint file_items (blk : Z) (files : list Entry) : list Item :=
  match files with
  | [] => []
  | f :: files =>
      mkItem (e_inode f) ONYFS_DT_REG (len (e_data f)) (file_blocks blk (nblks f)) false ::
      file_items (blk + nblks f) files
  end.

Definition file_total (files : list Entry) : Z := foldr (λ f acc, nblks f + acc) 0 files.

Lemma nblks_nonneg f : 0 ≤ nblks f.
Proof. unfold nblks, div_ceil. pose proof (len_nonneg (e_data f)). apply Z.div_pos; lia. Qed.

Lemma file_total_nonneg files : 0 ≤ file_total files.
Proof. induction files as [|f files IH]; simpl; [done|]. pose proof (nblks_nonneg f). lia. Qed.

Lemma table_dirs_items clock base dirs : ∀ blk img, 0 ≤ blk → blk + len dirs < 4294967296 →
  table_dirs false clock base blk dirs img = (img ← put_items clock base (dir_items blk dirs) img; Ok (img, blk + len dirs)).
Proof.
  induction dirs as [|d dirs IH]; intros blk img Hb Hl; [simpl; by rewrite Z.add_0_r|].
  rewrite len_cons in Hl |- *. pose proof (len_nonneg dirs). cbn [table_dirs dir_items put_items write_inode_img].
  destruct (inode_v2 _ _ _ _ _ _ _) as [img1| |]; [|done..]. rewrite !bind_ok, w32_small by lia.
  rewrite IH by lia. cbn [it_ino]. destruct (put_items _ _ _ _); [|done..]. rewrite !bind_ok. do 2 f_equal. lia.
Qed.

Lemma table_files_items clock base files : ∀ blk img, Forall (λ f, nblks f ≤ 10) files →
  0 ≤ blk → blk + file_total files < 4294967296 →
  table_files false clock base blk files img = put_items clock base (file_items blk files) img.
Proof.
  induction files as [|f files IH]; intros blk img Hten Hb Hl; [done|]. apply Forall_cons_1 in Hten as [H10 Hten].
  simpl in Hl. pose proof (nblks_nonneg f). pose proof (file_total_nonneg files).
  cbn [table_files file_items put_items write_inode_img it_ino it_mode it_size it_blocks it_dir].
  rewrite (w32_small (nblks f)) by lia.
  destruct (inode_v2 _ _ _ _ _ _ _) as [img1| |]; [|done..]. rewrite !bind_ok, w32_small, Z.min_l by lia. apply IH; auto; lia.
Qed.

(** What an item says is an inode of ten blocks. *)
Definition item_ok (it : Item) : Prop :=
  u32 (it_mode it) ∧ u64 (it_size it) ∧ len (it_blocks it) ≤ 10 ∧ Forall u32 (it_blocks it).
Definition item_inode (clock : Z → Z) (it : Item) : OnyfsInode :=
  img_inode (it_mode it) (it_size it) (it_blocks it ++ replicate (10 - length (it_blocks it)) 0) (it_dir it)
    (clock (it_ino it)).

Lemma put_items_spec clock base size items : (∀ i, u64 (clock i)) → 0 ≤ base → ∀ img,
  Forall item_ok items → Forall (λ it, 1 ≤ it_ino it ∧ it_ino it * 128 ≤ size) items → NoDup (it_ino <$> items) →
  base + size ≤ len img →
  ∃ img', put_items clock base items img = Ok img' ∧ keeps base (base + size) img img' ∧
    (∀ it, it ∈ items → decode_inode (rd (base + (it_ino it - 1) * 128) 128 img') = Ok (item_inode clock it)) ∧
    (∀ ino, 1 ≤ ino → ino * 128 ≤ size → (ino ∉ it_ino <$> items) →
       rd (base + (ino - 1) * 128) 128 img' = rd (base + (ino - 1) * 128) 128 img).
Proof.
  intros Hclk Hbase. induction items as [|it items IH]; intros img Hok Hino Hnd Hl.
  { exists img. split_and!; [done|apply keeps_refl| |done]. intros it Hin. by apply elem_of_nil in Hin. }
  apply Forall_cons_1 in Hok as [(Hm & Hs & Hb & Hu) Hok]. apply Forall_cons_1 in Hino as [[H1 H2] Hino].
  rewrite fmap_cons in Hnd. apply NoDup_cons in Hnd as [Hnin Hnd]. cbn [put_items].
  set (off := base + (it_ino it - 1) * 128).
  destruct (inode_v2_spec img off (it_mode it) (it_size it) (it_blocks it) (10 - length (it_blocks it)) (it_dir it)
    (clock (it_ino it))) as (b & -> & Hlb & Hdec); try done; try (unfold off; lia).
  { rewrite len_app. unfold len in *. rewrite length_replicate. lia. }
  rewrite bind_ok. destruct (IH (wr off b img)) as (img' & -> & Hk & Hin & Hout); try done.
  { rewrite len_wr; unfold off; lia. }
  exists img'. split; [done|]. split.
  { apply keeps_trans with (wr off b img); [|done].
    eapply keeps_mono; [| |apply keeps_wr]; unfold off; lia. }
  split.
  - intros it' [->|Hin']%elem_of_cons; [|by apply Hin].
    rewrite Hout by (done || lia). fold off. rewrite rd_wr_eq by (unfold off; lia). exact Hdec.
  - intros ino Hi1 Hi2 Hni. rewrite fmap_cons, not_elem_of_cons in Hni. destruct Hni as [Hne Hni].
    rewrite Hout by done. apply rd_wr_ne; unfold off; lia.
Qed.

(** ** Directory blocks *)

Lemma wr_app_r (a bs l : list Z) x : 0 ≤ x → wr (len a + x) bs (a ++ l) = a ++ wr x bs l.
Proof.
  intros Hx. unfold wr, len. replace (Z.to_nat (Z.of_nat (length a) + x)) with (length a + Z.to_nat x)%nat by lia.
  rewrite take_app_add, <-Nat.add_assoc, drop_app_add, <-app_assoc. done.
Qed.

Lemma wr_app_l (c d bs : list Z) x : 0 ≤ x → x + len bs ≤ len c → wr x bs (c ++ d) = wr x bs c ++ d.
Proof.
  intros Hx Hl. unfold wr, len in *. rewrite take_app_le, drop_app_le by lia. by rewrite <-!app_assoc.
Qed.

(** A write inside the bytes of an earlier write. *)
Lemma wr_nested off x (bs c img : list Z) : 0 ≤ off → 0 ≤ x → x + len bs ≤ len c → off + len c ≤ len img →
  wr (off + x) bs (wr off c img) = wr off (wr x bs c) img.
Proof.
  intros Ho Hx Hc Hl. unfold wr at 2 3. set (A := take (Z.to_nat off) img).
  assert (len A = off) as HA by (unfold A, len in *; rewrite length_take; lia).
  rewrite <-HA at 1. rewrite wr_app_r by done. rewrite wr_app_l by done.
  assert (length (wr x bs c) = length c) as -> by (pose proof (len_wr x bs c Hx Hc); unfold len in *; lia). done.
Qed.

Definition dirent_bytes (e : list Z * Z * bool) : list Z :=
  padded e.1.1 ++ le_bytes 4 e.1.2 ++ [if e.2 then 1 else 2; len e.1.1; 0; 0].

Lemma len_dirent_bytes e : name_good e.1.1 → len (dirent_bytes e) = 40.
Proof. intros Hg. unfold dirent_bytes. rewrite !len_app, len_padded, len_le_bytes by done. done. Qed.

Lemma dirent_inner (e : list Z * Z * bool) : name_good e.1.1 →
  wr 37 [len e.1.1] (wr 36 [if e.2 then 1 else 2] (wr 32 (le_bytes 4 e.1.2) (wr 0 e.1.1 (zeros 40)))) = dirent_bytes e.
Proof.
  intros Hg. pose proof (len_padded _ Hg) as Hp. destruct Hg as [Hl _]. unfold dirent_bytes.
  assert (wr 0 e.1.1 (zeros 40) = padded e.1.1 ++ zeros 8) as ->.
  { unfold wr, padded, zeros. simpl take. rewrite app_nil_l, drop_replicate, <-app_assoc. f_equal.
    rewrite <-replicate_add. f_equal. unfold len in *. lia. }
  assert (∀ x bs l, 0 ≤ x → wr (32 + x) bs (padded e.1.1 ++ l) = padded e.1.1 ++ wr x bs l) as Hw.
  { intros x bs l Hx. rewrite <-Hp at 1. by apply wr_app_r. }
  change 32 with (32 + 0). change 36 with (32 + 4). change 37 with (32 + 5). rewrite !Hw by lia. f_equal.
Qed.

Lemma dirent_spec img off (e : list Z * Z * bool) : name_good e.1.1 → 0 ≤ off → off + 40 ≤ len img → rd off 40 img = zeros 40 →
  dirent false img off e = Ok (wr off (dirent_bytes e) img).
Proof.
  intros Hg Ho Hl Hz. destruct e as [[name ino] d]. unfold dirent, dirent_v2. cbn [fst snd] in *.
  pose proof Hg as [Hn _]. pose proof (len_nonneg name). rewrite Z.min_l by lia.
  assert (rd 0 (len name) name = name) as -> by apply rd_all.
  assert (len (zeros 40) = 40) as Hz40 by (apply len_zeros; lia).
  rewrite <-(wr_same off (zeros 40) img) at 1 by (rewrite ?Hz40; done || lia).
  cbn [puts]. rewrite put_ok, bind_ok by (rewrite ?len_wr; lia).
  rewrite <-(Z.add_0_r off) at 1. rewrite wr_nested by lia.
  assert (len (wr 0 name (zeros 40)) = 40) as L0 by (rewrite len_wr; lia).
  rewrite put_ok, bind_ok by (rewrite ?len_wr, ?len_le_bytes; lia). rewrite wr_nested by (rewrite ?len_le_bytes; lia).
  set (c1 := wr 32 _ _). assert (len c1 = 40) as L1 by (unfold c1; rewrite len_wr; rewrite ?len_le_bytes; lia).
  rewrite bind_ok, set_idx_wr, bind_ok by (rewrite len_wr; lia).
  assert (∀ x : Z, len [x] = 1) as Hone by done. rewrite wr_nested by (rewrite ?Hone; lia).
  set (c2 := wr 36 _ _). assert (len c2 = 40) as L2 by (unfold c2; rewrite len_wr; rewrite ?Hone; lia).
  rewrite set_idx_wr by (rewrite len_wr; lia). rewrite wr_nested by (rewrite ?Hone; lia).
  unfold w8. rewrite Z.mod_small by lia. do 2 f_equal. apply (dirent_inner (name, ino, d)). done.
Qed.

Definition entry_good (e : list Z * Z * bool) : Prop := name_good e.1.1 ∧ u32 e.1.2 ∧ e.1.2 ≠ 0.
Definition dirents (es : list (list Z * Z * bool)) : list Z := es ≫= dirent_bytes.

Lemma len_dirents es : Forall entry_good es → len (dirents es) = 40 * len es.
Proof.
  induction 1 as [|e es [Hg _] _ IH]; [done|]. unfold dirents in *. rewrite bind_cons, len_app, IH, len_dirent_bytes, len_cons by done. lia.
Qed.

Lemma write_entries_spec dir_off es : Forall entry_good es → ∀ off img,
  0 ≤ off → off + 40 * len es ≤ dir_off + 4096 → off + 40 * len es ≤ len img →
  rd off (40 * len es) img = zeros (40 * len es) →
  write_entries false dir_off off es img = Ok (wr off (dirents es) img).
Proof.
  induction 1 as [|e es He Hes IH]; intros off img Ho Hd Hl Hz.
  { cbn [write_entries]. unfold dirents. simpl. rewrite wr_nil by (change (len []) with 0 in *; lia). done. }
  rewrite len_cons in *. pose proof (len_nonneg es). pose proof (len_dirent_bytes e (proj1 He)) as Hde.
  cbn [write_entries]. change (dirent_size false) with 40. rewrite (proj2 (Z.ltb_ge _ _)) by lia.
  assert (rd off 40 img = zeros 40) as Hz0.
  { rewrite <-(Z.add_0_r off), <-(rd_rd off (40 * (1 + len es)) 0 40) by lia. rewrite Hz. apply rd_zeros; lia. }
  rewrite dirent_spec, bind_ok by (apply He || lia || done).
  rewrite IH; [|lia|lia|rewrite len_wr; lia|].
  - f_equal. unfold dirents. rewrite bind_cons. rewrite <-Hde. apply wr_wr; [lia|].
    pose proof (len_dirents es Hes) as Hd2. unfold dirents in Hd2. lia.
  - rewrite rd_wr_ne by lia.
    replace (rd (off + 40) (40 * len es) img) with (rd 40 (40 * len es) (rd off (40 * (1 + len es)) img)) by (apply rd_rd; lia).
    rewrite Hz. apply rd_zeros; lia.
Qed.

(** The entries of a directory block with the two the tool adds. *)
Definition all_entries (d : DirNode) : list (list Z * Z * bool) :=
  ([46], dn_ino d, true) :: ([46; 46], dn_parent d, true) :: dn_entries d.

Lemma write_dir_spec off d img : Forall entry_good (all_entries d) → len (all_entries d) ≤ 102 →
  0 ≤ off → off + 4096 ≤ len img → rd off 4096 img = zeros 4096 →
  write_dir false off d img = Ok (wr off (dirents (all_entries d)) img).
Proof.
  intros Hg Hn Ho Hl Hz. pose proof (len_nonneg (dn_entries d)).
  transitivity (write_entries false off off (all_entries d) img).
  - unfold write_dir, all_entries in *. rewrite !len_cons in Hn. cbn [write_entries].
    change (dirent_size false) with 40. rewrite (proj2 (Z.ltb_ge _ _)) by lia.
    destruct (dirent false img off _) as [img1| |]; [|done..]. rewrite !bind_ok.
    rewrite (proj2 (Z.ltb_ge _ _)) by lia. done.
  - apply write_entries_spec; auto; try lia.
    replace (rd off (40 * len (all_entries d)) img) with (rd 0 (40 * len (all_entries d)) (rd off 4096 img))
      by (rewrite rd_rd by (pose proof (len_nonneg (all_entries d)); lia); f_equal; lia).
    rewrite Hz. apply rd_zeros; pose proof (len_nonneg (all_entries d)); lia.
Qed.

Definition dir_block (d : DirNode) : list Z := dirents (all_entries d) ++ zeros (4096 - len (dirents (all_entries d))).
Definition dir_good (d : DirNode) : Prop := Forall entry_good (all_entries d) ∧ len (all_entries d) ≤ 102.

Lemma rd_wr_front off (bs img : list Z) n : 0 ≤ off → len bs ≤ n → off + n ≤ len img →
  rd off n img = zeros n → rd off n (wr off bs img) = bs ++ zeros (n - len bs).
Proof.
  intros Ho Hb Hl Hz. pose proof (len_nonneg bs).
  replace n with (len bs + (n - len bs)) at 1 by lia. rewrite rd_split by lia. f_equal.
  - apply rd_wr_eq; lia.
  - rewrite rd_wr_ne by lia.
    replace (rd (off + len bs) (n - len bs) img) with (rd (len bs) (n - len bs) (rd off n img)) by (apply rd_rd; lia).
    rewrite Hz. apply rd_zeros; lia.
Qed.

Lemma zeros_part off n a m img : 0 ≤ a → 0 ≤ m → a + m ≤ n → 0 ≤ off → rd off n img = zeros n → rd (off + a) m img = zeros m.
Proof. intros Ha Hm Hn Ho Hz. rewrite <-(rd_rd off n a m img) by lia. rewrite Hz. apply rd_zeros; lia. Qed.

Lemma write_dirs_spec dirs : Forall dir_good dirs → ∀ blk img,
  0 ≤ blk → blk + len dirs < 4294967296 → (blk + len dirs) * 4096 ≤ len img →
  rd (blk * 4096) (4096 * len dirs) img = zeros (4096 * len dirs) →
  ∃ img', write_dirs false blk dirs img = Ok (img', blk + len dirs) ∧
    keeps (blk * 4096) ((blk + len dirs) * 4096) img img' ∧
    ∀ i d, dirs !! i = Some d → rd ((blk + Z.of_nat i) * 4096) 4096 img' = dir_block d.
Proof.
  induction 1 as [|d dirs [Hg Hn] _ IH]; intros blk img Hb H32 Hl Hz.
  { exists img. cbn [write_dirs]. rewrite Z.add_0_r. split_and!; [done|apply keeps_refl|done]. }
  rewrite len_cons in *. pose proof (len_nonneg dirs). cbn [write_dirs].
  pose proof (len_dirents _ Hg) as Hlen. pose proof (len_nonneg (all_entries d)).
  assert (rd (blk * 4096) 4096 img = zeros 4096) as Hz0.
  { replace (blk * 4096) with (blk * 4096 + 0) by lia. eapply zeros_part; [..|exact Hz]; lia. }
  rewrite write_dir_spec, bind_ok by (done || lia). rewrite w32_small by lia.
  set (img1 := wr _ _ img). assert (len img1 = len img) as L1 by (apply len_wr; lia).
  destruct (IH (blk + 1) img1) as (img' & -> & Hk & Hin); [lia|lia|lia| |].
  { unfold img1. rewrite rd_wr_ne by lia. replace ((blk + 1) * 4096) with (blk * 4096 + 4096) by lia.
    eapply zeros_part; [..|exact Hz]; lia. }
  exists img'. split; [do 2 f_equal; lia|]. split.
  - apply keeps_trans with img1.
    + eapply keeps_mono; [| |apply keeps_wr]; lia.
    + eapply keeps_mono; [| |exact Hk]; lia.
  - intros [|i] d' Hd'; simpl in Hd'.
    + injection Hd' as <-. rewrite Z.add_0_r, (keeps_rd _ _ _ _ _ _ Hk) by lia.
      unfold img1, dir_block. apply rd_wr_front; [lia|lia|lia|done].
    + rewrite <-(Hin i d' Hd'). f_equal. lia.
Qed.

(** ** File data *)

Lemma write_chunks_spec data : ∀ n blk i img,
  0 ≤ blk → 0 ≤ i → blk + Z.of_nat n < 4294967296 →
  4096 * (i + Z.of_nat n - 1) < len data ≤ 4096 * (i + Z.of_nat n) ∨ n = 0%nat ∧ len data ≤ 4096 * i →
  (blk + Z.of_nat n) * 4096 ≤ len img →
  write_chunks n blk i data img = Ok (wr (blk * 4096) (drop (Z.to_nat (i * 4096)) data) img, blk + Z.of_nat n).
Proof.
  induction n as [|n IH]; intros blk i img Hb Hi H32 Hd Hl.
  { cbn [write_chunks]. rewrite drop_ge by (unfold len in *; lia). rewrite wr_nil by lia. do 2 f_equal. lia. }
  destruct Hd as [Hd|[? _]]; [|done]. cbn [write_chunks].
  rewrite slice_ok, bind_ok by lia. set (chunk := rd _ _ data).
  assert (len chunk = Z.min (i * 4096 + 4096) (len data) - i * 4096) as Hc by (apply len_rd; lia).
  rewrite put_ok, bind_ok by lia. rewrite w32_small by lia. rewrite IH; [|lia|lia|lia| |rewrite len_wr; lia].
  2:{ destruct n; [right|left]; lia. }
  f_equal. f_equal; [|lia].
  assert (drop (Z.to_nat (i * 4096)) data = chunk ++ drop (Z.to_nat ((i + 1) * 4096)) data) as Hsplit.
  { unfold chunk, rd. rewrite <-(take_drop (Z.to_nat (Z.min (i * 4096 + 4096) (len data) - i * 4096)) (drop (Z.to_nat (i * 4096)) data)) at 1.
    f_equal. rewrite drop_drop. destruct (decide (i * 4096 + 4096 ≤ len data)).
    - f_equal. lia.
    - rewrite !drop_ge by (unfold len in *; lia). done. }
  rewrite Hsplit. set (rest := drop (Z.to_nat ((i + 1) * 4096)) data) in *.
  assert (len chunk + len rest = len data - i * 4096) as Hlen.
  { rewrite <-len_app, <-Hsplit. unfold len in *. rewrite length_drop. lia. }
  destruct (decide (i * 4096 + 4096 ≤ len data)).
  - rewrite <-wr_wr by lia. f_equal. lia.
  - assert (rest = []) as -> by (unfold rest; apply drop_ge; unfold len in *; lia).
    rewrite app_nil_r, wr_nil; [done|lia|rewrite len_wr; lia].
Qed.

Lemma nblks_bounds f : 4096 * (nblks f - 1) < len (e_data f) ≤ 4096 * nblks f ∨ nblks f = 0 ∧ len (e_data f) = 0.
Proof.
  unfold nblks, div_ceil. pose proof (len_nonneg (e_data f)). Z.to_euclidean_division_equations. lia.
Qed.

(** The first block of file [i] when the files start at [blk]. *)
Definition file_start (blk : Z) (files : list Entry) (i : nat) : Z := blk + file_total (take i files).
Definition file_image (f : Entry) : list Z := e_data f ++ zeros (4096 * nblks f - len (e_data f)).

Lemma write_files_spec files : ∀ blk img,
  0 ≤ blk → blk + file_total files < 4294967296 → (blk + file_total files) * 4096 ≤ len img →
  rd (blk * 4096) (4096 * file_total files) img = zeros (4096 * file_total files) →
  ∃ img', write_files blk files img = Ok img' ∧ keeps (blk * 4096) ((blk + file_total files) * 4096) img img' ∧
    ∀ i f, files !! i = Some f → rd (file_start blk files i * 4096) (4096 * nblks f) img' = file_image f.
Proof.
  induction files as [|f files IH]; intros blk img Hb H32 Hl Hz.
  { exists img. split_and!; [done|apply keeps_refl|done]. }
  cbn [write_files file_total foldr] in *. fold (file_total files) in *.
  pose proof (nblks_nonneg f). pose proof (file_total_nonneg files). pose proof (nblks_bounds f) as Hn.
  pose proof (len_nonneg (e_data f)).
  rewrite write_chunks_spec, bind_ok by (rewrite ?Z2Nat.id by lia; lia). rewrite Z2Nat.id by lia. cbn [fst snd].
  change (drop (Z.to_nat (0 * 4096)) (e_data f)) with (e_data f).
  set (img1 := wr _ _ img). assert (len img1 = len img) as L1 by (apply len_wr; lia).
  destruct (IH (blk + nblks f) img1) as (img' & -> & Hk & Hin); [lia|lia|lia| |].
  { unfold img1. rewrite rd_wr_ne by lia. replace ((blk + nblks f) * 4096) with (blk * 4096 + 4096 * nblks f) by lia.
    eapply zeros_part; [..|exact Hz]; lia. }
  exists img'. split; [done|]. split.
  - apply keeps_trans with img1.
    + eapply keeps_mono; [| |apply keeps_wr]; lia.
    + eapply keeps_mono; [| |exact Hk]; lia.
  - intros [|i] f' Hf'; simpl in Hf'.
    + injection Hf' as <-. unfold file_start. simpl. rewrite Z.add_0_r, (keeps_rd _ _ _ _ _ _ Hk) by lia.
      unfold img1, file_image. apply rd_wr_front; [lia|lia|lia|].
      replace (blk * 4096) with (blk * 4096 + 0) by lia. eapply zeros_part; [..|exact Hz]; lia.
    + rewrite <-(Hin i f' Hf'). unfold file_start. simpl. f_equal. lia.
Qed.

(** ** The image of a tree *)

Definition inos (t : Tree) : list Z := (dn_ino <$> t_dirs t) ++ (e_inode <$> t_files t).
Definition data_total (t : Tree) : Z := len (t_dirs t) + file_total (t_files t).

(** A tree whose inodes are numbered apart, whose directories fit a block, whose
    files fit ten blocks and whose bitmaps fit a block each. *)
Record tree_ok (t : Tree) : Prop := {
  to_nodup : NoDup (inos t);
  to_range : Forall (λ i, 1 ≤ i < t_next t) (inos t);
  to_next : 2 ≤ t_next t ≤ 32768;
  to_dirs : Forall dir_good (t_dirs t);
  to_files : Forall (λ f, nblks f ≤ 10) (t_files t);
  to_data : data_total t ≤ 32768 }.

Definition itb (t : Tree) : Z := inode_table_blocks false t.
Definition data_start (t : Tree) : Z := 3 + itb t + 256 + 32.
Definition all_items (t : Tree) : list Item :=
  dir_items (data_start t) (t_dirs t) ++ file_items (data_start t + len (t_dirs t)) (t_files t).
Definition image_super (t : Tree) (clock : Z → Z) : OnyfsSuper :=
  img_super (data_start t + data_total t) (t_next t) (data_start t) (3 + itb t) (3 + itb t + 256) (clock 0).

Record image_of (t : Tree) (clock : Z → Z) (img : list Z) : Prop := {
  im_len : len img = (data_start t + data_total t) * 4096;
  im_super : super_from_bytes (rd 0 4096 img) = Ok (Some (image_super t clock));
  im_ibits : ∀ k, 0 ≤ k < 32768 → bit_at img 4096 k = (k <? t_next t);
  im_dbits : ∀ k, 0 ≤ k < 32768 → bit_at img 8192 k = (k <? data_total t);
  im_inodes : ∀ it, it ∈ all_items t →
    decode_inode (rd (3 * 4096 + (it_ino it - 1) * 128) 128 img) = Ok (item_inode clock it);
  im_journal : rd ((3 + itb t + 256) * 4096) (32 * 4096) img = zeros (32 * 4096);
  im_dirs : ∀ i d, t_dirs t !! i = Some d → rd ((data_start t + Z.of_nat i) * 4096) 4096 img = dir_block d;
  im_files : ∀ i f, t_files t !! i = Some f →
    rd (file_start (data_start t + len (t_dirs t)) (t_files t) i * 4096) (4096 * nblks f) img = file_image f }.

Lemma keeps_lookup lo hi img img' i : keeps lo hi img img' → 0 ≤ i < len img → i < lo ∨ hi ≤ i →
  img' !! Z.to_nat i = img !! Z.to_nat i.
Proof.
  intros Hk Hi Hd. pose proof (keeps_rd _ _ i 1 _ _ Hk ltac:(lia) ltac:(lia) ltac:(lia) ltac:(lia)) as H.
  assert (rd i 1 img' !! 0%nat = rd i 1 img !! 0%nat) as H0 by (by rewrite H).
  rewrite !lookup_rd, !Nat.add_0_r in H0 by lia. done.
Qed.

Lemma keeps_bit lo hi img img' base k : keeps lo hi img img' → 0 ≤ base → 0 ≤ k → base + k / 8 < len img →
  base + k / 8 < lo ∨ hi ≤ base + k / 8 → bit_at img' base k = bit_at img base k.
Proof.
  intros Hk Hb Hk0 Hl Hd. assert (0 ≤ k / 8) by (apply Z.div_pos; lia).
  unfold bit_at. by rewrite (keeps_lookup _ _ _ _ _ Hk) by lia.
Qed.

Lemma bit_zeros n base k : bit_at (zeros n) base k = false.
Proof.
  unfold bit_at, zeros. destruct (replicate _ _ !! _) as [b|] eqn:E; [|done].
  apply lookup_replicate in E as [-> _]. apply Z.testbit_0_l.
Qed.

Lemma w32_fold files a : 0 ≤ a → a + file_total files < 4294967296 →
  w32 (a + foldr (λ f acc, w32 (nblks f) + acc) 0 files) = a + file_total files.
Proof.
  intros Ha Hl. assert (foldr (λ f acc, w32 (nblks f) + acc) 0 files = file_total files) as ->; [|apply w32_small].
  2:{ pose proof (file_total_nonneg files). lia. }
  revert a Ha Hl. induction files as [|f files IH]; intros a Ha Hl; [done|]. simpl in Hl |- *.
  pose proof (nblks_nonneg f). pose proof (file_total_nonneg files).
  rewrite w32_small by lia. by rewrite (IH (a + nblks f)) by lia.
Qed.

Lemma land_round n : 0 ≤ n → n * 4096 < 18446744073709551616 - 512 → Z.land (n * 4096 + 511) (18446744073709551615 - 511) = n * 4096.
Proof.
  intros Hn Hl. change (18446744073709551615 - 511) with (Z.shiftl (Z.ones (64 - 9)) 9).
  rewrite land_align_mask by (unfold u64; lia). change (2 ^ 9) with 512.
  Z.to_euclidean_division_equations. lia.
Qed.

Lemma put_items_app clock base a b img :
  put_items clock base (a ++ b) img = (img ← put_items clock base a img; put_items clock base b img).
Proof.
  revert img. induction a as [|it a IH]; intros img; [done|]. cbn [app put_items].
  destruct (inode_v2 _ _ _ _ _ _ _); [|done..]. rewrite !bind_ok. apply IH.
Qed.

Lemma item_inos t : it_ino <$> all_items t = inos t.
Proof.
  unfold all_items, inos. rewrite fmap_app. f_equal.
  - generalize (data_start t). induction (t_dirs t) as [|d dirs IH]; intros blk; [done|]. simpl. by rewrite IH.
  - generalize (data_start t + len (t_dirs t)). induction (t_files t) as [|f files IH]; intros blk; [done|].
    simpl. by rewrite IH.
Qed.

Lemma dir_items_ok dirs : ∀ blk, 0 ≤ blk → blk + len dirs < 4294967296 → Forall item_ok (dir_items blk dirs).
Proof.
  induction dirs as [|d dirs IH]; intros blk Hb Hl; constructor; rewrite len_cons in Hl; pose proof (len_nonneg dirs).
  - unfold item_ok, u32, u64, ONYFS_DT_DIR, len. cbn. split_and!; try lia. repeat constructor; lia.
  - apply IH; lia.
Qed.

Lemma file_blocks_spec blk n : 0 ≤ n ≤ 10 → 0 ≤ blk → blk + n < 4294967296 →
  file_blocks blk n = ((λ i : nat, blk + Z.of_nat i) <$> seq 0 (Z.to_nat n)) ++ replicate (10 - Z.to_nat n) 0.
Proof.
  intros Hn Hb Hl. unfold file_blocks. rewrite Z.min_l by lia. f_equal. apply list_fmap_ext.
  intros i k Hk%lookup_seq. apply w32_small. lia.
Qed.

Lemma file_items_ok files : Forall (λ f, nblks f ≤ 10) files → ∀ blk, 0 ≤ blk → blk + file_total files < 4294967296 →
  Forall item_ok (file_items blk files).
Proof.
  induction 1 as [|f files H10 _ IH]; intros blk Hb Hl; constructor; simpl in Hl; pose proof (nblks_nonneg f);
    pose proof (file_total_nonneg files).
  - pose proof (nblks_bounds f). unfold item_ok, u64. cbn. rewrite file_blocks_spec by lia. split_and!.
    + unfold u32, ONYFS_DT_REG. lia.
    + pose proof (len_nonneg (e_data f)). lia.
    + pose proof (len_nonneg (e_data f)). lia.
    + unfold len. rewrite length_app, length_fmap, length_seq, length_replicate. lia.
    + apply Forall_app. split; [|apply Forall_replicate; unfold u32; lia].
      apply Forall_fmap, Forall_forall. intros i Hi%elem_of_seq. unfold compose, u32. lia.
  - apply IH; lia.
Qed.

Lemma itb_bounds t : tree_ok t → t_next t ≤ 32 * itb t ∧ 1 ≤ itb t ≤ 1024.
Proof.
  intros Ht. pose proof (to_next _ Ht). unfold itb, inode_table_blocks, div_ceil. change (4096 / 128) with 32.
  Z.to_euclidean_division_equations. lia.
Qed.

Lemma build_image_spec clock t : tree_ok t → (∀ i, u64 (clock i)) →
  ∃ img, build_image false clock t = Ok img ∧ image_of t clock img.
Proof.
  intros Ht Hclk. pose proof (itb_bounds t Ht) as [Hi1 Hi2]. destruct Ht as [Hnd Hr Hnx Hdirs Hfiles Hdata].
  pose proof (file_total_nonneg (t_files t)) as Hft. pose proof (len_nonneg (t_dirs t)) as Hdt.
  unfold data_total in Hdata. unfold build_image. cbn [negb].
  assert (data_blocks_needed t = data_total t) as -> by (unfold data_blocks_needed; rewrite w32_fold by lia; done).
  assert (metadata_blocks false t = data_start t) as Hm.
  { unfold metadata_blocks. fold (itb t). change (snapshot_blocks false) with 256. change (journal_blocks false) with 32.
    rewrite w32_small by lia. done. }
  cbv zeta. rewrite Hm. change (snapshot_blocks false) with 256. change (journal_blocks false) with 32. fold (itb t).
  assert (data_start t = 291 + itb t) as Hds by (unfold data_start; lia). unfold data_total in *.
  set (D := len (t_dirs t) + file_total (t_files t)) in *.
  rewrite w32_small, land_round by lia. set (total := data_start t + D) in *.
  assert (len (zeros (total * 4096)) = total * 4096) as L0 by (apply len_zeros; lia).
  destruct (super_v2_spec (zeros (total * 4096)) total (t_next t) (data_start t) (3 + itb t) (3 + itb t + 256) (clock 0))
    as (img1 & -> & K1 & S1); try done; try (unfold u32; lia). rewrite bind_ok.
  pose proof (proj1 K1) as L1. unfold write_bitmaps.
  destruct (set_bits_spec 4096 (Z.to_nat (t_next t)) 0 img1) as (img2 & -> & K2 & B2); [lia..|]. rewrite bind_ok.
  pose proof (proj1 K2) as L2.
  destruct (set_bits_spec 8192 (Z.to_nat D) 0 img2) as (img3 & E3 & K3 & B3); [lia..|].
  change (2 * 4096) with 8192. rewrite E3, bind_ok. pose proof (proj1 K3) as L3. rewrite !Z2Nat.id in * by lia.
  assert ((0 + t_next t + 7) / 8 ≤ 4096) as G2 by (Z.to_euclidean_division_equations; lia).
  assert ((0 + D + 7) / 8 ≤ 4096) as G3 by (Z.to_euclidean_division_equations; lia).
  assert (write_table false clock img3 (t_dirs t) (t_files t) (data_start t) 3 =
    put_items clock (3 * 4096) (all_items t) img3) as ->.
  { unfold write_table, all_items. cbv zeta. rewrite table_dirs_items, put_items_app by lia.
    destruct (put_items _ _ (dir_items _ _) _); [|done..]. rewrite !bind_ok. cbn [fst snd].
    apply table_files_items; [done|lia|lia]. }
  destruct (put_items_spec clock (3 * 4096) (4096 * itb t) (all_items t) Hclk ltac:(lia) img3)
    as (img4 & -> & K4 & I4 & _); [| |by rewrite item_inos|lia|].
  { unfold all_items. apply Forall_app. split; [apply dir_items_ok; lia|apply file_items_ok; [done|lia|lia]]. }
  { apply Forall_forall. intros it Hit. rewrite Forall_forall in Hr.
    specialize (Hr (it_ino it)). rewrite <-item_inos in Hr. specialize (Hr ltac:(by apply list_elem_of_fmap_2)). lia. }
  pose proof (proj1 K4) as L4. rewrite bind_ok.
  assert (∀ a n, 3 * 4096 + 4096 * itb t ≤ a → 0 ≤ n → a + n ≤ total * 4096 → rd a n img4 = zeros n) as Z4.
  { intros a n Ha Hn Han. rewrite (keeps_rd _ _ _ _ _ _ K4), (keeps_rd _ _ _ _ _ _ K3), (keeps_rd _ _ _ _ _ _ K2),
      (keeps_rd _ _ _ _ _ _ K1) by lia. apply rd_zeros; lia. }
  unfold write_blocks.
  destruct (write_dirs_spec (t_dirs t) Hdirs (data_start t) img4) as (img5 & -> & K5 & D5); [lia|lia|lia|apply Z4; lia|].
  rewrite bind_ok. cbn [fst snd]. pose proof (proj1 K5) as L5.
  destruct (write_files_spec (t_files t) (data_start t + len (t_dirs t)) img5) as (img6 & -> & K6 & F6); [lia|lia|lia| |].
  { rewrite (keeps_rd _ _ _ _ _ _ K5) by lia. apply Z4; lia. }
  pose proof (proj1 K6) as L6. exists img6. split; [done|].
  assert (∀ a n, 0 ≤ a → 0 ≤ n → a + n ≤ data_start t * 4096 → rd a n img6 = rd a n img4) as Hlow.
  { intros a n Ha Hn Han. by rewrite (keeps_rd _ _ _ _ _ _ K6), (keeps_rd _ _ _ _ _ _ K5) by lia. }
  assert (∀ base k, 4096 ≤ base → 0 ≤ k < 32768 → base + 4096 ≤ 3 * 4096 → bit_at img6 base k = bit_at img3 base k) as Hbit.
  { intros base k Hbase Hk Hb3. assert (0 ≤ k / 8 < 4096) by (Z.to_euclidean_division_equations; lia).
    rewrite (keeps_bit _ _ _ _ base k K6), (keeps_bit _ _ _ _ base k K5), (keeps_bit _ _ _ _ base k K4) by lia. done. }
  constructor.
  - unfold data_total. fold D total. lia.
  - unfold image_super, data_total. fold D total. rewrite Hlow, (keeps_rd _ _ _ _ _ _ K4), (keeps_rd _ _ _ _ _ _ K3), (keeps_rd _ _ _ _ _ _ K2) by lia.
    exact S1.
  - intros k Hk. assert (0 ≤ k / 8 < 4096) by (Z.to_euclidean_division_equations; lia).
    rewrite Hbit, (keeps_bit _ _ _ _ _ _ K3), B2, (keeps_bit _ _ _ _ _ _ K1), bit_zeros by lia.
    rewrite (proj2 (Z.leb_le 0 k)) by lia. cbn [orb andb]. f_equal.
  - intros k Hk. assert (0 ≤ k / 8 < 4096) by (Z.to_euclidean_division_equations; lia).
    rewrite Hbit, B3, (keeps_bit _ _ _ _ _ _ K2), (keeps_bit _ _ _ _ _ _ K1), bit_zeros by lia.
    rewrite (proj2 (Z.leb_le 0 k)) by lia. cbn [orb andb]. f_equal.
  - intros it Hit. rewrite <-(I4 it Hit). f_equal.
    assert (1 ≤ it_ino it < t_next t).
    { rewrite Forall_forall in Hr. apply Hr. rewrite <-item_inos. by apply list_elem_of_fmap_2. }
    apply Hlow; lia.
  - rewrite Hlow by lia. apply Z4; lia.
  - intros i d Hd. rewrite <-(D5 i d Hd). pose proof (lookup_lt_Some _ _ _ Hd) as Hlt.
    apply (keeps_rd _ _ _ _ _ _ K6); unfold len in *; lia.
  - exact F6.
Qed.
