(* ===== verification/MkimageThms.v ===== *)
(** * tools/src/mkimage: the kernel mounts the image and finds the tree

    The image is written to a disk ([burn]) and mounted by the file system of
    [Onyxfs]; module [MkimageTheorems] says that it then holds the tree. *)

From S2P Require Import Prelude Parser Formats FormatsProps Compress Onyxfs OnyxfsProps DirProps FsThms Mkimage MkimageProps.
From stdpp Require Import base list numbers gmap.
From Stdlib Require Import ZArith Lia.

Open Scope Z_scope.

(** ** Trees that the tool builds *)

Inductive built : Tree → Prop :=
  | built_new : built new_tree
  | built_dir t path t' : built t → t_next t < 4294967295 → add_dir path t = Ok t' → built t'
  | built_file t data path t' : built t → t_next t + len path < 4294967294 → add_file data path t = Ok t' → built t'.

(** Inodes are numbered apart and below [t_next]; entries and parents are inodes. *)
Record tree_inv (t : Tree) : Prop := {
  ti_next : 2 ≤ t_next t;
  ti_nodup : NoDup (inos t);
  ti_range : Forall (λ i, 1 ≤ i < t_next t) (inos t);
  ti_parents : Forall (λ d, dn_parent d ∈ inos t) (t_dirs t);
  ti_entries : Forall (λ d, Forall (λ e : list Z * Z * bool, e.1.2 ∈ inos t) (dn_entries d)) (t_dirs t) }.

Lemma inos_push e (i : nat) (dirs : list DirNode) : dn_ino <$> alter (push_entry e) i dirs = dn_ino <$> dirs.
Proof. revert i. induction dirs as [|d dirs IH]; intros [|i]; simpl; [done..|]. f_equal. apply IH. Qed.

Lemma Forall_push (P : DirNode → Prop) e (i : nat) dirs : Forall P dirs → (∀ d, P d → P (push_entry e d)) →
  Forall P (alter (push_entry e) i dirs).
Proof. intros H He. apply Forall_alter; [done|]. intros x _. apply He. Qed.

Lemma new_inv : tree_inv new_tree.
Proof.
  constructor; [done| | | |]; unfold inos; simpl.
  - apply NoDup_singleton.
  - repeat constructor; simpl; lia.
  - repeat constructor; simpl; set_solver.
  - repeat constructor.
Qed.

Lemma fresh_ino t : tree_inv t → t_next t ∉ inos t.
Proof. intros [_ _ Hr _ _] Hin. rewrite Forall_forall in Hr. specialize (Hr _ Hin). lia. Qed.

(** One more inode, linked into a directory. *)
Lemma tree_inv_grow t (i : nat) name dirs' files' isd : tree_inv t →
  inos (mkTree dirs' files' (t_next t)) ≡ₚ t_next t :: inos t →
  (∃ p new, dirs' = alter (push_entry (name, t_next t, isd)) i (t_dirs t) ++ new ∧ 
    Forall (λ d, dn_parent d ∈ inos t ∧ dn_entries d = []) new ∧ p ∈ inos t) ∨
  dirs' = alter (push_entry (name, t_next t, isd)) i (t_dirs t) →
  t_next t < 4294967295 →
  tree_inv (mkTree dirs' files' (w32 (t_next t + 1))).
Proof.
  intros Hinv Hperm Hdirs H32. pose proof (fresh_ino t Hinv) as Hfresh. destruct Hinv as [Hn Hnd Hr Hp He].
  assert (w32 (t_next t + 1) = t_next t + 1) as Hw by (apply w32_small; lia).
  assert (∀ x, x ∈ inos t → x ∈ inos (mkTree dirs' files' (w32 (t_next t + 1)))) as Hsub.
  { intros x Hx. change (inos _) with (inos (mkTree dirs' files' (t_next t))). rewrite Hperm. by right. }
  assert (t_next t ∈ inos (mkTree dirs' files' (w32 (t_next t + 1)))) as Hnew.
  { change (inos _) with (inos (mkTree dirs' files' (t_next t))). rewrite Hperm. by left. }
  assert (∃ new, dirs' = alter (push_entry (name, t_next t, isd)) i (t_dirs t) ++ new ∧
    Forall (λ d, dn_parent d ∈ inos t ∧ dn_entries d = []) new) as (new & Hd & Hnews).
  { destruct Hdirs as [(p & new & ? & ? & _)| ->]; [by exists new|]. exists []. by rewrite app_nil_r. }
  constructor; cbn [t_next t_dirs]; rewrite ?Hw; [lia|..].
  - change (inos _) with (inos (mkTree dirs' files' (t_next t))). rewrite Hperm. by apply NoDup_cons.
  - change (inos _) with (inos (mkTree dirs' files' (t_next t))). rewrite Hperm. constructor; [lia|].
    eapply Forall_impl; [exact Hr|]. simpl. lia.
  - rewrite Hd at 1. apply Forall_app. split.
    + apply Forall_push; [|done]. eapply Forall_impl; [exact Hp|]. simpl. auto.
    + eapply Forall_impl; [exact Hnews|]. simpl. intros d [? _]. auto.
  - rewrite Hd at 1. apply Forall_app. split.
    + apply Forall_push.
      * eapply Forall_impl; [exact He|]. simpl. intros d Hde. eapply Forall_impl; [exact Hde|]. simpl. auto.
      * intros d Hde. simpl. apply Forall_app. split; [done|]. by repeat constructor.
    + eapply Forall_impl; [exact Hnews|]. simpl. intros d [_ ->]. constructor.
Qed.

Lemma add_dir_next path t t' : add_dir path t = Ok t' → t_next t' = w32 (t_next t + 1).
Proof.
  unfold add_dir. intros H. apply bind_Ok_inv in H as (p & _ & H). destruct (t_dirs t !! p); [|done].
  by injection H as <-.
Qed.

Lemma add_dir_inv path t t' : tree_inv t → t_next t < 4294967295 → add_dir path t = Ok t' → tree_inv t'.
Proof.
  intros Hinv H32. unfold add_dir. intros H. apply bind_Ok_inv in H as (p & _ & H).
  destruct (t_dirs t !! p) as [d|] eqn:Hp; [|done]. injection H as <-.
  assert (dn_ino d ∈ inos t) as Hd.
  { unfold inos. apply elem_of_app. left. apply list_elem_of_fmap_2. by eapply list_elem_of_lookup_2. }
  eapply (tree_inv_grow t p (basename path) _ _ true); [done| |left|done].
  - unfold inos. simpl. rewrite fmap_app, inos_push. simpl. rewrite <-Permutation_middle, app_nil_r. done.
  - eexists (dn_ino d), _. split; [done|]. split; [|done]. repeat constructor. done.
Qed.

Lemma ensure_loop_inv comps base : ∀ cur t t', tree_inv t → t_next t + len comps < 4294967296 →
  ensure_loop comps base cur t = Ok t' → tree_inv t' ∧ t_next t' ≤ t_next t + len comps.
Proof.
  induction comps as [|comp comps IH]; intros cur t t' Hinv Hl H.
  { injection H as <-. split; [done|]. unfold len. simpl. lia. }
  rewrite len_cons in *. pose proof (len_nonneg comps). cbn [ensure_loop] in H.
  destruct (_ || _); [destruct (IH cur t t' Hinv ltac:(lia) H); split; [done|lia]|].
  apply bind_Ok_inv in H as (r & _ & H). apply bind_Ok_inv in H as (t1 & Ht1 & H).
  assert (tree_inv t1 ∧ t_next t1 ≤ t_next t + 1) as [Hinv1 Hn1].
  { destruct (existsb _ _); [injection Ht1 as <-; split; [done|lia]|].
    split; [eapply add_dir_inv; [exact Hinv|lia|exact Ht1]|].
    rewrite (add_dir_next _ _ _ Ht1), w32_small by (pose proof (ti_next _ Hinv); lia). lia. }
  destruct (IH _ t1 t' Hinv1 ltac:(lia) H). split; [done|lia].
Qed.

Lemma split_sep_len l : len (split_sep l) ≤ len l + 1.
Proof.
  induction l as [|c l IH]; [done|]. cbn [split_sep]. rewrite len_cons. destruct (c =? SEP); [rewrite len_cons; lia|].
  destruct (split_sep l) as [|w ws]; rewrite ?len_cons in *; unfold len in *; simpl in *; lia.
Qed.

Lemma trim_seps_len l : len (trim_seps l) ≤ len l.
Proof. induction l as [|c l IH]; [done|]. cbn [trim_seps]. rewrite len_cons. destruct (c =? SEP); [lia|rewrite len_cons; lia]. Qed.

Lemma add_file_inv data path t t' : tree_inv t → t_next t + len path < 4294967294 →
  add_file data path t = Ok t' → tree_inv t'.
Proof.
  intros Hinv Hl H. unfold add_file in H. apply bind_Ok_inv in H as (t1 & Ht1 & H).
  unfold ensure_parent_dirs in Ht1. pose proof (split_sep_len (trim_seps path)). pose proof (trim_seps_len path).
  destruct (ensure_loop_inv (split_sep (trim_seps path)) _ _ t t1 Hinv ltac:(lia) Ht1) as [Hinv1 Hn1].
  apply bind_Ok_inv in H as (p & _ & H). destruct (t_dirs t1 !! p) as [d|]; [|done]. injection H as <-.
  eapply (tree_inv_grow t1 p (basename path) _ _ false); [done| |by right|lia].
  unfold inos. simpl. rewrite inos_push, fmap_app. simpl. by rewrite app_assoc, <-Permutation_cons_append.
Qed.

Lemma built_inv t : built t → tree_inv t.
Proof. induction 1; [apply new_inv|by eapply add_dir_inv|by eapply add_file_inv]. Qed.

(** The root is the first directory. *)
Lemma add_dir_root path t t' r : add_dir path t = Ok t' → dn_ino <$> t_dirs t !! 0%nat = Some r →
  dn_ino <$> t_dirs t' !! 0%nat = Some r.
Proof.
  unfold add_dir. intros H Hr. apply bind_Ok_inv in H as (p & _ & H). destruct (t_dirs t !! p) as [d|]; [|done].
  injection H as <-. cbn [t_dirs]. destruct (t_dirs t) as [|d0 ds]; [done|]. by destruct p.
Qed.

Lemma ensure_loop_root comps base : ∀ cur t t' r, ensure_loop comps base cur t = Ok t' →
  dn_ino <$> t_dirs t !! 0%nat = Some r → dn_ino <$> t_dirs t' !! 0%nat = Some r.
Proof.
  induction comps as [|comp comps IH]; intros cur t t' r H Hr; [by injection H as <-|]. cbn [ensure_loop] in H.
  destruct (_ || _); [by eapply IH|]. apply bind_Ok_inv in H as (d0 & _ & H). apply bind_Ok_inv in H as (t1 & Ht1 & H).
  eapply IH; [exact H|]. destruct (existsb _ _); [by injection Ht1 as <-|by eapply add_dir_root].
Qed.

Lemma built_root t : built t → dn_ino <$> t_dirs t !! 0%nat = Some 1.
Proof.
  induction 1 as [|t path t' _ IH _ H|t data path t' _ IH _ H]; [done|by eapply add_dir_root|].
  unfold add_file in H. apply bind_Ok_inv in H as (t1 & Ht1 & H). apply (ensure_loop_root _ _ _ _ _ _ Ht1) in IH.
  apply bind_Ok_inv in H as (p & _ & H). destruct (t_dirs t1 !! p) as [d|]; [|done]. injection H as <-. cbn [t_dirs].
  destruct (t_dirs t1) as [|d0 ds]; [done|]. by destruct p.
Qed.

(** ** Writing an image to a disk *)

Definition burn (dev base : Z) (img : list Z) (disk : gmap (Z * Z) (list Z)) : gmap (Z * Z) (list Z) :=
  foldr (λ i : nat, <[(dev, base + Z.of_nat i) := rd (512 * Z.of_nat i) 512 img]>) disk
    (seq 0 (Z.to_nat (len img / 512))).

Lemma burn_sector dev base img disk i : 0 ≤ i → 512 * i + 512 ≤ len img →
  burn dev base img disk !! (dev, base + i) = Some (rd (512 * i) 512 img).
Proof.
  intros Hi Hl. unfold burn.
  assert (Z.to_nat i ∈ seq 0 (Z.to_nat (len img / 512))) as Hin.
  { apply elem_of_seq. Z.to_euclidean_division_equations. lia. }
  induction (seq 0 (Z.to_nat (len img / 512))) as [|j js IH]; [by apply elem_of_nil in Hin|]. simpl.
  destruct (decide (Z.of_nat j = i)) as [<-|Hne]; [by rewrite lookup_insert_eq|].
  rewrite lookup_insert_ne by (intros [=]; lia). apply IH. apply elem_of_cons in Hin as [<-|?]; [lia|done].
Qed.

Lemma burn_sectors dev base img disk n : ∀ o i, 0 ≤ o → 0 ≤ i → 512 * (o + i + Z.of_nat n) ≤ len img →
  sectors (burn dev base img disk) dev (base + o) i n = Some (rd (512 * (o + i)) (512 * Z.of_nat n) img).
Proof.
  induction n as [|n IH]; intros o i Ho Hi Hl; [by unfold rd|]. cbn [sectors].
  rewrite <-Z.add_assoc, burn_sector by lia. rewrite len_rd, Z.eqb_refl by lia. rewrite IH by lia. f_equal.
  replace (512 * Z.of_nat (S n)) with (512 + 512 * Z.of_nat n) by lia. rewrite rd_split by lia. do 2 f_equal. lia.
Qed.

(** ** Mounting *)

Section Mount.
Context (t : Tree) (clock : Z → Z) (img : list Z) (dev base : Z) (s0 : Onyfs).
Hypothesis ok : tree_ok t.
Hypothesis clock_ok : ∀ i, u64 (clock i).
Hypothesis image : image_of t clock img.
Hypothesis buf_ok : len (fs_buf s0) = 4096.

Let disk := burn dev base img (fs_disk s0).
Let sb := image_super t clock.
(** The file system after the mount; the buffer is the block that was read. *)
Definition mounted : Onyfs :=
  mkOnyfs dev base ONYFS_V2 sb (rd 0 4096 img) 0 disk (fs_jiffies s0).

Lemma sizes : 1 ≤ itb t ≤ 1024 ∧ data_start t = 291 + itb t ∧ 0 ≤ data_total t ≤ 32768 ∧
  len img = (data_start t + data_total t) * 4096 ∧ t_next t ≤ 32 * itb t.
Proof.
  pose proof (itb_bounds t ok). pose proof (to_data _ ok). pose proof (im_len _ _ _ image).
  unfold data_total in *. pose proof (file_total_nonneg (t_files t)). pose proof (len_nonneg (t_dirs t)).
  unfold data_start in *. lia.
Qed.

Lemma image_block s blk : fs_disk s = disk → fs_dev s = dev → fs_lba_base s = base →
  0 ≤ blk → (blk + 1) * 4096 ≤ len img → block_at s blk = Some (rd (4096 * blk) 4096 img).
Proof.
  intros Hd Hv Hb H0 Hl. unfold block_at, blk_lba. rewrite Hd, Hv, Hb. unfold disk.
  rewrite burn_sectors by lia. do 2 f_equal. lia.
Qed.

Lemma scan_zeros (n : nat) : ∀ start i entry s, fs_disk s = disk → fs_dev s = dev → fs_lba_base s = base →
  len entry = 4096 → 0 ≤ start → 0 ≤ i → start + i + Z.of_nat n < 4294967296 →
  (start + i + Z.of_nat n) * 4096 ≤ len img →
  rd ((start + i) * 4096) (Z.of_nat n * 4096) img = zeros (Z.of_nat n * 4096) →
  scan_loop n start i entry s = (Ok None, s).
Proof.
  induction n as [|n IH]; intros start i entry s Hd Hv Hb He Hs Hi H32 Hl Hz; [done|]. cbn [scan_loop].
  rewrite w32_small by lia.
  assert (block_at s (start + i) = Some (zeros 4096)) as Hblk.
  { rewrite image_block by (done || lia). f_equal. rewrite Z.mul_comm. rewrite <-(Z.add_0_r (_ * 4096)).
    eapply zeros_part; [..|exact Hz]; lia. }
  rewrite (sm_bind_ok _ _ _ _ _ (read_local_ok s _ _ _ Hblk He)).
  change (lift (le32_idx (zeros 4096) 0)) with (lift (Ok 0) : FM Z). rewrite lift_bind. cbn [orb Z.eqb JOURNAL_TYPE_COMMIT_START].
  change ((0 =? JOURNAL_TYPE_COMMIT_START) || (0 =? JOURNAL_TYPE_BLOCK_WRITE)) with true. cbv iota.
  apply IH; try done; try lia.
  replace ((start + (i + 1)) * 4096) with ((start + i) * 4096 + 4096) by lia.
  eapply zeros_part; [..|exact Hz]; lia.
Qed.

Lemma mount_image : onyxfs_mount dev base (set_fs_disk disk s0) = (Ok tt, mounted).
Proof.
  pose proof sizes as (Hi & Hds & Hdt & Hl & Hn). unfold onyxfs_mount. rewrite modify_bind.
  set (s1 := set_fs_dev dev base (set_fs_disk disk s0)).
  assert (block_at s1 0 = Some (rd 0 4096 img)) as H0 by (rewrite image_block by (done || lia); f_equal).
  rewrite (sm_bind_ok _ _ _ _ _ (load_ok s1 0 _ H0 buf_ok)), gets_bind. cbn [fs_buf set_fs_buf].
  rewrite (im_super _ _ _ image), lift_bind. cbn [ok_or]. rewrite lift_bind. fold sb.
  change (sb_block_size sb) with 4096. change (negb (4096 =? ONYFS_BLOCK_SIZE)) with false. cbv iota.
  change (sb_magic sb =? ONYFS_MAGIC) with true. cbv iota. erewrite (sm_bind_ok (mret ONYFS_V2)) by reflexivity.
  rewrite modify_bind. unfold journal_recover. rewrite gets_bind. cbn [fs_sb set_fs_super].
  assert (no_journal sb = false) as ->.
  { unfold no_journal, sb, image_super, img_super. cbn [sb_journal_start sb_journal_size].
    rewrite (proj2 (Z.eqb_neq _ 0)) by lia. done. }
  change (sb_journal_size sb) with 32. change (sb_journal_start sb) with (3 + itb t + 256).
  erewrite sm_bind_ok by (apply scan_zeros; try done; try lia; rewrite Z.add_0_r; exact (im_journal _ _ _ image)).
  unfold modify, mounted, s1. cbn. do 2 f_equal.
Qed.

Lemma mounted_ok : fs_ok mounted.
Proof.
  pose proof sizes as (Hi & Hds & Hdt & Hl & Hn). constructor; try done.
  - cbn. apply len_rd; lia.
  - cbn. unfold u32. lia.
  - cbn. lia.
  - intros b [_ Hb]. cbn in Hb. rewrite image_block by (done || lia). eauto.
Qed.

Lemma mounted_inode it : it ∈ all_items t →
  ∃ ib, inode_at mounted (it_ino it) ib ∧ decode_inode (rd (inode_off (it_ino it)) 128 ib) = Ok (item_inode clock it).
Proof.
  intros Hit. pose proof sizes as (Hi & Hds & Hdt & Hl & Hn).
  assert (1 ≤ it_ino it < t_next t) as Hr.
  { pose proof (to_range _ ok) as Hr. rewrite Forall_forall in Hr. apply Hr. rewrite <-item_inos. by apply list_elem_of_fmap_2. }
  set (ino := it_ino it) in *.
  assert (inode_blk mounted ino = 3 + (ino - 1) / 32) as Hblk by done.
  assert (0 ≤ (ino - 1) / 32 < itb t) as Hq by (Z.to_euclidean_division_equations; lia).
  exists (rd (4096 * (3 + (ino - 1) / 32)) 4096 img). split.
  - constructor; rewrite ?Hblk; [lia|cbn; lia|lia|]. apply image_block; try done; lia.
  - pose proof (inode_off_bounds ino) as Ho. rewrite rd_rd by lia. rewrite <-(im_inodes _ _ _ image it Hit). fold ino.
    f_equal. f_equal. unfold inode_off. pose proof (Z.div_mod (ino - 1) 32). lia.
Qed.
End Mount.

(** ** Directories and files of the mounted image *)

Lemma dir_items_elem dirs : ∀ blk i d, dirs !! i = Some d →
  mkItem (dn_ino d) ONYFS_DT_DIR 0 [blk + Z.of_nat i] true ∈ dir_items blk dirs.
Proof.
  induction dirs as [|d0 dirs IH]; intros blk [|i] d Hd; simplify_eq/=; apply elem_of_cons.
  - left. by rewrite Z.add_0_r.
  - right. replace (blk + Z.of_nat (S i)) with (blk + 1 + Z.of_nat i) by lia. by apply IH.
Qed.

Lemma file_items_elem files : ∀ blk i f, files !! i = Some f →
  mkItem (e_inode f) ONYFS_DT_REG (len (e_data f)) (file_blocks (file_start blk files i) (nblks f)) false ∈
    file_items blk files.
Proof.
  induction files as [|f0 files IH]; intros blk [|i] f Hf; simplify_eq/=; apply elem_of_cons.
  - left. unfold file_start. simpl. by rewrite Z.add_0_r.
  - right. replace (file_start blk (f0 :: files) (S i)) with (file_start (blk + nblks f0) files i); [by apply IH|].
    unfold file_start. simpl. lia.
Qed.

Lemma dirents_lookup es : Forall entry_good es → ∀ (i : nat) e, es !! i = Some e →
  rd (40 * Z.of_nat i) 40 (dirents es) = dirent_bytes e.
Proof.
  induction 1 as [|e0 es He Hes IH]; intros i e Hi; [done|]; change (dirents (e0 :: es)) with (dirent_bytes e0 ++ dirents es);
    pose proof (len_dirent_bytes _ (proj1 He)) as Hl; destruct i as [|i].
  - injection Hi as ->. change (40 * Z.of_nat 0) with 0. rewrite rd_app_l, <-Hl by lia. apply rd_all.
  - change (es !! i = Some e) in Hi. rewrite rd_app_r by lia. rewrite Hl. rewrite <-(IH i e Hi). f_equal. lia.
Qed.

(** The slots of a directory block. *)
Definition slots_of (d : DirNode) : list (option (list Z * Z)) :=
  ((λ e : list Z * Z * bool, Some e.1) <$> all_entries d) ++ replicate (102 - length (all_entries d)) None.

Definition names (d : DirNode) : list (list Z) := (λ e : list Z * Z * bool, e.1.1) <$> all_entries d.

Lemma dir_slot_lookup d i nm a : slots_of d !! i = Some (Some (nm, a)) → ∃ b, all_entries d !! i = Some (nm, a, b).
Proof.
  unfold slots_of. rewrite lookup_app_Some. intros [H|[_ H]]; [|by apply lookup_replicate in H as [? _]].
  rewrite list_lookup_fmap in H. destruct (all_entries d !! i) as [[[nm' a'] b]|]; simplify_eq/=. eauto.
Qed.

Lemma dir_block_rep d : dir_good d → NoDup (names d) → dir_rep (dir_block d) (slots_of d).
Proof.
  intros [Hg Hn] Hnd. pose proof (len_dirents _ Hg) as Hl. pose proof (len_nonneg (all_entries d)).
  assert (len (dir_block d) = 4096) as Hlb by (unfold dir_block; rewrite len_app, len_zeros; lia).
  constructor.
  - exact Hlb.
  - unfold slots_of. rewrite length_app, length_fmap, length_replicate. unfold len in *. lia.
  - intros i e Hi. unfold slots_of in Hi. apply lookup_app_Some in Hi as [Hi|[Hge Hi]].
    + rewrite list_lookup_fmap in Hi. destruct (all_entries d !! i) as [e0|] eqn:He0; [|done]. injection Hi as <-.
      pose proof (Forall_lookup_1 _ _ _ _ Hg He0) as (Hnm & Hu & Hnz). pose proof (lookup_lt_Some _ _ _ He0) as Hlt.
      pose proof (dirents_lookup _ Hg i e0 He0) as Hrd.
      assert (∀ x n, 0 ≤ x → 0 ≤ n → x + n ≤ 40 → rd (40 * Z.of_nat i + x) n (dir_block d) = rd x n (dirent_bytes e0)) as Hin.
      { intros x n Hx Hn0 Hxn. rewrite <-Hrd, rd_rd by lia. unfold dir_block. apply rd_app_l; [lia|lia|]. unfold len in *. lia. }
      pose proof (len_padded _ Hnm) as Hp. destruct e0 as [[nm a] b]. cbn [slot_rep fst snd] in *.
      split_and!; try done.
      * unfold slot_ino. rewrite Hin by lia. unfold dirent_bytes. cbn [fst snd]. rewrite rd_app_r by lia. rewrite Hp.
        change (32 - 32) with 0. rewrite rd_app_l by (rewrite ?len_le_bytes; lia).
        replace 4 with (len (le_bytes 4 a)) at 1 by (by rewrite len_le_bytes). rewrite rd_all. by apply le_val_bytes_id.
      * rewrite <-(Z.add_0_r (40 * _)), Hin by lia. unfold dirent_bytes. cbn [fst snd]. rewrite rd_app_l by lia.
        rewrite <-Hp. apply rd_all.
      * rewrite Hin by lia. unfold dirent_bytes. cbn [fst snd]. rewrite rd_app_r by lia. rewrite Hp.
        rewrite rd_app_r by (rewrite len_le_bytes; lia). rewrite len_le_bytes. done.
    + apply lookup_replicate in Hi as [-> Hi]. rewrite length_fmap in Hge, Hi. cbn [slot_rep]. unfold slot_ino, dir_block.
      rewrite rd_app_r by (unfold len in *; lia). rewrite rd_zeros by (unfold len in *; lia). done.
  - intros i j nm a b Hi Hj. apply dir_slot_lookup in Hi as [x Hi]. apply dir_slot_lookup in Hj as [y Hj].
    eapply (NoDup_lookup (names d) i j nm Hnd); unfold names; rewrite list_lookup_fmap; [by rewrite Hi|by rewrite Hj].
Qed.

(** The blocks of a list, put together again. *)
Lemma concat_blocks n : ∀ (o : nat) (l : list Z), len l = 4096 * Z.of_nat (o + n) →
  concat ((λ k : nat, rd (4096 * Z.of_nat k) 4096 l) <$> seq o n) = drop (o * 4096) l.
Proof.
  induction n as [|n IH]; intros o l Hl.
  { simpl. rewrite drop_ge; [done|]. unfold len in Hl. lia. }
  simpl seq. rewrite fmap_cons. cbn [concat]. rewrite IH by lia. unfold rd.
  rewrite <-(take_drop 4096 (drop (o * 4096) l)), drop_drop. f_equal; [|f_equal; lia].
  replace (Z.to_nat (4096 * Z.of_nat o)) with (o * 4096)%nat by lia. done.
Qed.

(** ** The allocator on the mounted image *)

Lemma clear_bit_none n byte : ∀ bit, 0 ≤ bit → (∀ j, bit ≤ j < bit + Z.of_nat n → Z.testbit byte j = true) →
  clear_bit n byte bit = None.
Proof.
  induction n as [|n IH]; intros bit Hb Hall; [done|]. cbn [clear_bit].
  pose proof (land_bit byte bit Hb) as Hl. rewrite Hall in Hl by lia. apply negb_true_iff in Hl. rewrite Hl.
  apply IH; [lia|]. intros j Hj. apply Hall. lia.
Qed.

Lemma clear_bit_first n byte m : ∀ bit, 0 ≤ bit → bit ≤ m < bit + Z.of_nat n →
  (∀ j, bit ≤ j < m → Z.testbit byte j = true) → Z.testbit byte m = false → clear_bit n byte bit = Some m.
Proof.
  induction n as [|n IH]; intros bit Hb Hm Hall Hclr; [lia|]. cbn [clear_bit].
  pose proof (land_bit byte bit Hb) as Hl. destruct (decide (m = bit)) as [->|Hne].
  - rewrite Hclr in Hl. apply negb_false_iff in Hl. by rewrite Hl.
  - rewrite Hall in Hl by lia. apply negb_true_iff in Hl. rewrite Hl. apply IH; [lia|lia| |done].
    intros j Hj. apply Hall. lia.
Qed.

(** The first clear bit of a run of bytes. *)
Lemma clear_loop_first bytes m : ∀ i, 0 ≤ i → 8 * i ≤ m < 8 * (i + len bytes) →
  (∀ k, 8 * i ≤ k < m → ∃ b, bytes !! Z.to_nat (k / 8 - i) = Some b ∧ Z.testbit b (k mod 8) = true) →
  (∃ b, bytes !! Z.to_nat (m / 8 - i) = Some b ∧ Z.testbit b (m mod 8) = false) →
  clear_loop_bytes bytes i = Some (m / 8, m mod 8).
Proof.
  induction bytes as [|b bytes IH]; intros i Hi Hm Hset (bm & Hbm & Hclr); [unfold len in Hm; simpl in Hm; lia|].
  rewrite len_cons in Hm. cbn [clear_loop_bytes].
  assert (∀ j, 0 ≤ j < 8 → (8 * i + j) / 8 = i ∧ (8 * i + j) mod 8 = j) as Hdiv.
  { intros j Hj. Z.to_euclidean_division_equations. lia. }
  assert (∀ j, 0 ≤ j < 8 → 8 * i + j < m → Z.testbit b j = true) as Hb.
  { intros j Hj Hjm. destruct (Hset (8 * i + j) ltac:(lia)) as (b' & Hb' & Ht).
    destruct (Hdiv j Hj) as [E1 E2]. rewrite E1, Z.sub_diag in Hb'. injection Hb' as <-. by rewrite E2 in Ht. }
  destruct (decide (m < 8 * i + 8)) as [Hin|Hout].
  - assert (m / 8 = i ∧ m mod 8 = m - 8 * i) as [E1 E2] by (Z.to_euclidean_division_equations; lia).
    rewrite E1, Z.sub_diag in Hbm. injection Hbm as <-. rewrite E1, E2 in *.
    destruct (Z.eqb_spec b 255) as [->|Hne].
    { assert (m - 8 * i = 0 ∨ m - 8 * i = 1 ∨ m - 8 * i = 2 ∨ m - 8 * i = 3 ∨ m - 8 * i = 4 ∨ m - 8 * i = 5 ∨
        m - 8 * i = 6 ∨ m - 8 * i = 7) as Hc by lia. by destruct Hc as [E|[E|[E|[E|[E|[E|[E|E]]]]]]]; rewrite E in Hclr. }
    rewrite (clear_bit_first 8 b (m - 8 * i)); [done|lia|lia| |done]. intros j Hj. apply Hb; lia.
  - assert (clear_loop_bytes bytes (i + 1) = Some (m / 8, m mod 8)) as Hrec.
    { assert (∀ k, 8 * (i + 1) ≤ k → Z.to_nat (k / 8 - i) = S (Z.to_nat (k / 8 - (i + 1)))) as Hs.
      { intros k Hk. assert (i + 1 ≤ k / 8) by (apply Z.div_le_lower_bound; lia). lia. }
      apply IH; [lia|lia| |].
      - intros k Hk. destruct (Hset k ltac:(lia)) as (b' & Hb' & Ht). exists b'. by rewrite Hs in Hb' by lia.
      - exists bm. by rewrite Hs in Hbm by lia. }
    destruct (b =? 255); [done|]. rewrite (clear_bit_none 8 b 0); [done|lia|]. intros j Hj. apply Hb; lia.
Qed.

Section Found.
Context (t : Tree) (clock : Z → Z) (img : list Z) (dev base : Z) (s0 : Onyfs).
Hypothesis ok : tree_ok t.
Hypothesis clock_ok : ∀ i, u64 (clock i).
Hypothesis image : image_of t clock img.
Hypothesis buf_ok : len (fs_buf s0) = 4096.

Let s := mounted t clock img dev base s0.

Lemma not_journal b : b < 3 + itb t + 256 ∨ 3 + itb t + 288 ≤ b → ¬ journal_blk s b.
Proof. intros Hb [_ H]. unfold s, mounted, image_super, img_super in H. cbn in H. lia. Qed.

Lemma mounted_dir i d : t_dirs t !! i = Some d → NoDup (names d) →
  dir_at s (dn_ino d) (data_start t + Z.of_nat i) (slots_of d).
Proof.
  intros Hd Hnd. destruct (sizes t clock img ok image) as (Hi & Hds & Hdt & Hl & Hn).
  pose proof (lookup_lt_Some _ _ _ Hd) as Hlt. pose proof (file_total_nonneg (t_files t)).
  pose proof (dir_items_elem _ (data_start t) _ _ Hd) as Hit.
  assert (mkItem (dn_ino d) ONYFS_DT_DIR 0 [data_start t + Z.of_nat i] true ∈ all_items t) as Hin
    by (apply elem_of_app; by left).
  destruct (mounted_inode t clock img dev base s0 ok image _ Hin) as (ib & Hat & Hdec). cbn [it_ino] in *.
  assert (1 ≤ dn_ino d < t_next t) as Hr.
  { pose proof (to_range _ ok) as Hr. rewrite Forall_forall in Hr. apply Hr. unfold inos. apply elem_of_app. left.
    apply list_elem_of_fmap_2. by eapply list_elem_of_lookup_2. }
  assert (inode_blk s (dn_ino d) < 3 + itb t) as Hib.
  { unfold inode_blk. change (sb_inode_table_start (fs_sb s)) with 3. Z.to_euclidean_division_equations. lia. }
  unfold data_total, len in Hl.
  constructor; try (apply not_journal; lia); try lia.
  - exists ib. eexists. split_and!; [exact Hat|exact Hdec|done].
  - exists (dir_block d). split.
    + unfold s. rewrite (image_block img dev base s0) by (done || unfold len; lia). f_equal.
      rewrite Z.mul_comm. by apply (im_dirs _ _ _ image).
    + apply dir_block_rep; [|done]. pose proof (to_dirs _ ok) as Hg. rewrite Forall_forall in Hg. apply Hg.
      by eapply list_elem_of_lookup_2.
Qed.

Lemma mounted_read i f n : t_files t !! i = Some f → len (e_data f) ≤ n < 4294967296 →
  (onyxfs_read (e_inode f) 0 n s).1 = Ok (e_data f).
Proof.
  intros Hf Hn. destruct (sizes t clock img ok image) as (Hi & Hds & Hdt & Hl & _).
  pose proof (file_items_elem _ (data_start t + len (t_dirs t)) _ _ Hf) as Hit.
  set (st := file_start (data_start t + len (t_dirs t)) (t_files t) i) in *.
  assert (mkItem (e_inode f) ONYFS_DT_REG (len (e_data f)) (file_blocks st (nblks f)) false ∈ all_items t) as Hin
    by (apply elem_of_app; by right).
  destruct (mounted_inode t clock img dev base s0 ok image _ Hin) as (ib & Hat & Hdec). cbn [it_ino] in *.
  assert (nblks f ≤ 10) as H10.
  { pose proof (to_files _ ok) as H10. rewrite Forall_forall in H10. apply H10. by eapply list_elem_of_lookup_2. }
  pose proof (nblks_nonneg f) as H0. pose proof (nblks_bounds f) as Hnb. pose proof (len_nonneg (e_data f)) as Hdl.
  pose proof (file_total_nonneg (take i (t_files t))) as Hft0. pose proof (len_nonneg (t_dirs t)).
  assert (file_total (take i (t_files t)) + nblks f ≤ file_total (t_files t)) as Hend.
  { rewrite <-(take_drop_middle _ _ _ Hf) at 2. pose proof (file_total_nonneg (drop (S i) (t_files t))) as Hft1.
    clear -Hft1. induction (take i (t_files t)) as [|f0 fs IH]; simpl in *; unfold file_total in *; simpl; lia. }
  unfold data_total in *. assert (st + nblks f ≤ data_start t + (len (t_dirs t) + file_total (t_files t))) by (unfold st, file_start; lia).
  assert (0 < st) by (unfold st, file_start; lia).
  set (bs := (λ k : nat, st + Z.of_nat k) <$> seq 0 (Z.to_nat (nblks f))).
  set (cs := (λ k : nat, rd (4096 * Z.of_nat k) 4096 (file_image f)) <$> seq 0 (Z.to_nat (nblks f))).
  assert (len (file_image f) = 4096 * nblks f) as Hfi by (unfold file_image; rewrite len_app, len_zeros; lia).
  assert (concat cs = file_image f) as Hcs.
  { unfold cs. rewrite concat_blocks by (rewrite Nat.add_0_l, Z2Nat.id; lia). done. }
  assert (len cs = nblks f) as Hlc by (unfold len, cs; rewrite length_fmap, length_seq; lia).
  assert (holds s bs cs) as Hh.
  { unfold holds, bs, cs. apply Forall2_fmap, Forall2_same_length_lookup_2; [done|].
    intros j k k' Hk Hk'. assert (k' = k) as -> by congruence. apply lookup_seq in Hk as [-> Hk]. simpl. split; [lia|].
    unfold s. rewrite (image_block img dev base s0) by (done || lia). f_equal.
    pose proof (im_files _ _ _ image i f Hf) as Himg. fold st in Himg. rewrite <-Himg, rd_rd by lia. f_equal. lia. }
  unfold s. rewrite (read_spec _ _ ib (item_inode clock (mkItem (e_inode f) ONYFS_DT_REG (len (e_data f))
    (file_blocks st (nblks f)) false)) bs cs (replicate (10 - Z.to_nat (nblks f)) 0)); try done.
  - rewrite Hcs. f_equal. cbn [item_inode img_inode i_size it_size]. unfold sat_sub.
    rewrite Z.max_r, Z.sub_0_r, Z.min_r by lia. unfold file_image. change (0 mod 4096) with 0.
    rewrite rd_app_l by lia. apply rd_all.
  - by apply mounted_ok.
  - cbn [item_inode img_inode i_blocks it_blocks]. rewrite file_blocks_spec by lia. fold bs.
    assert (length bs = Z.to_nat (nblks f)) as Hlb by (unfold bs; by rewrite length_fmap, length_seq).
    rewrite length_app, length_replicate, Hlb.
    replace (10 - (Z.to_nat (nblks f) + (10 - Z.to_nat (nblks f))))%nat with 0%nat by lia. by rewrite app_nil_r.
  - cbn [item_inode img_inode i_size it_size]. lia.
  - lia.
  - unfold u32. lia.
Qed.

Lemma mounted_alloc : data_total t < 32768 → (alloc_data_block s).1 = Ok (data_start t + data_total t).
Proof.
  intros Hd. destruct (sizes t clock img ok image) as (Hi & Hds & Hdt & Hl & _).
  unfold alloc_data_block. rewrite gets_bind. change (sb_data_bitmap_start (fs_sb s)) with 2.
  change (sb_data_blocks_start (fs_sb s)) with (data_start t).
  pose proof (image_block img dev base s0 s 2 eq_refl eq_refl eq_refl ltac:(lia) ltac:(lia)) as Hb2.
  change (4096 * 2) with 8192 in Hb2. set (bm := rd 8192 4096 img) in *.
  assert (len bm = 4096) as Hbm by (apply len_rd; lia).
  pose proof (mounted_ok t clock img dev base s0 ok image) as Hok. fold s in Hok.
  assert (∀ k, 0 ≤ k < 32768 → ∃ b, bm !! Z.to_nat (k / 8 - 0) = Some b ∧ Z.testbit b (k mod 8) = (k <? data_total t)) as Hbits.
  { intros k Hk. rewrite <-(im_dbits _ _ _ image k Hk). unfold bit_at.
    assert (0 ≤ k / 8 < 4096) by (Z.to_euclidean_division_equations; lia).
    destruct (idx_Some bm (k / 8)) as [b Hb]; [lia|]. exists b. rewrite Z.sub_0_r. split; [done|].
    unfold bm in Hb. rewrite lookup_rd in Hb by lia. by replace (Z.to_nat (8192 + k / 8)) with (Z.to_nat 8192 + Z.to_nat (k / 8))%nat by lia; rewrite Hb. }
  assert (clear_loop_bytes bm 0 = Some (data_total t / 8, data_total t mod 8)) as Hclear.
  { apply clear_loop_first; [lia|lia| |].
    - intros k Hk. destruct (Hbits k ltac:(lia)) as (b & ? & Hb). exists b. split; [done|]. rewrite Hb. apply Z.ltb_lt. lia.
    - destruct (Hbits (data_total t) ltac:(lia)) as (b & ? & Hb). exists b. split; [done|]. rewrite Hb. apply Z.ltb_irrefl. }
  assert (∃ s', take_bit 2 s = (Ok (data_total t), s')) as [s' Htake].
  { unfold take_bit. rewrite (sm_bind_ok _ _ _ _ _ (load_ok s 2 bm Hb2 (fo_buf _ Hok))), gets_bind. cbn [fs_buf set_fs_buf].
    rewrite take_ge by (unfold ONYFS_BLOCK_SIZE, len in *; lia). rewrite Hclear.
    destruct (Hbits (data_total t) ltac:(lia)) as (b & Hb & _). rewrite Z.sub_0_r in Hb.
    assert (0 ≤ data_total t / 8 < 4096) by (Z.to_euclidean_division_equations; lia).
    rewrite (idx_ok _ _ _ Hb), lift_bind by lia. rewrite set_idx_ok, lift_bind, modify_bind by lia.
    set (s1 := set_fs_buf _ (set_fs_buf bm s)).
    assert (fs_ok s1) as Hok1.
    { apply fs_ok_buf; [by apply fs_ok_buf|by rewrite len_insert]. }
    destruct (log_and_write_spec s1 2 Hok1) as (s2 & Hlw & _).
    - exists bm. exact Hb2.
    - apply not_journal. lia.
    - right. cbn. lia.
    - exists s2. rewrite (sm_bind_ok _ _ _ _ _ Hlw). unfold mret, SM_ret. f_equal. f_equal.
      pose proof (Z.div_mod (data_total t) 8). lia. }
  rewrite (sm_bind_ok _ _ _ _ _ Htake). cbn. f_equal. apply w32_small. lia.
Qed.
End Found.

Module MkimageTheorems.

(** What the format can hold: names of 1 to 32 bytes, different in each directory
    ([.] and [..] included), at most 100 entries a directory, ten blocks a file and
    one block for each bitmap. *)
Record fits (t : Tree) : Prop := {
  ft_names : Forall (λ d, Forall (λ e : list Z * Z * bool, name_good e.1.1) (dn_entries d)) (t_dirs t);
  ft_apart : Forall (λ d, NoDup (names d)) (t_dirs t);
  ft_entries : Forall (λ d, len (dn_entries d) ≤ 100) (t_dirs t);
  ft_files : Forall (λ f, nblks f ≤ 10) (t_files t);
  ft_inodes : t_next t ≤ 32768;
  ft_data : data_total t ≤ 32768 }.

Lemma fits_ok t : built t → fits t → tree_ok t.
Proof.
  intros Hb [Hn Ha He Hf Hi Hd]. destruct (built_inv t Hb) as [Hnx Hnd Hr Hp Hes].
  constructor; auto. apply Forall_forall. intros d Hin.
  rewrite Forall_forall in Hn, He, Hp, Hes. rewrite Forall_forall in Hr.
  assert (∀ i, i ∈ inos t → u32 i ∧ i ≠ 0) as Hino by (intros i Hii; specialize (Hr i Hii); unfold u32; lia).
  unfold dir_good, all_entries. rewrite !len_cons. split; [|specialize (He d Hin); lia].
  assert (dn_ino d ∈ inos t) as Hd0 by (unfold inos; apply elem_of_app; left; by apply list_elem_of_fmap_2).
  constructor; [|constructor].
  - split; [|by apply Hino]. split; [done|]. repeat constructor; lia.
  - split; [|by apply Hino, Hp]. split; [done|]. repeat constructor; lia.
  - apply Forall_forall. intros e Hee. specialize (Hn d Hin). specialize (Hes d Hin).
    rewrite Forall_forall in Hn, Hes. split; [by apply Hn|by apply Hino, Hes].
Qed.

Lemma item_of_ino t i : i ∈ inos t → ∃ it, it ∈ all_items t ∧ it_ino it = i.
Proof. rewrite <-item_inos. intros (it & -> & Hit)%list_elem_of_fmap. eauto. Qed.

Lemma dir_map_slots d nm a b : dir_good d → NoDup (names d) → (nm, a, b) ∈ all_entries d → dir_map (slots_of d) !! nm = Some a.
Proof.
  intros Hg Hnd [i Hi]%list_elem_of_lookup. apply (dir_map_Some _ _ _ _ (dir_block_rep d Hg Hnd)). exists i.
  unfold slots_of. rewrite lookup_app_l by (rewrite length_fmap; by eapply lookup_lt_Some).
  by rewrite list_lookup_fmap, Hi.
Qed.

Lemma dir_map_absent d nm : dir_good d → NoDup (names d) → nm ∉ names d → dir_map (slots_of d) !! nm = None.
Proof.
  intros Hg Hnd Hni. apply (dir_map_None _ _ _ (dir_block_rep d Hg Hnd)). intros i a Hi.
  apply dir_slot_lookup in Hi as [b Hi]. apply Hni. unfold names. apply list_elem_of_fmap. exists (nm, a, b).
  split; [done|]. by eapply list_elem_of_lookup_2.
Qed.

(** C3. The kernel finds in an image what the tool put there: the image of any
    tree that the operations of the tool built, within the limits of the format,
    written anywhere on a disk, mounts; then in every directory a lookup of each
    entry ([.] and [..] included) gives its inode and any other name is ENOENT,
    every file reads back as its data, and the first block that the kernel allocates
    is the one after the image. *)
Theorem image_mounts t clock dev base s :
  built t → fits t → (∀ i, u64 (clock i)) → len (fs_buf s) = 4096 →
  ∃ img s', build_image false clock t = Ok img ∧
    onyxfs_mount dev base (set_fs_disk (burn dev base img (fs_disk s)) s) = (Ok tt, s') ∧
    (∀ d name ino is_dir, d ∈ t_dirs t → (name, ino, is_dir) ∈ all_entries d →
       ∃ st, (lookup_in (dn_ino d) name s').1 = Ok (ino, st)) ∧
    (∀ d name, d ∈ t_dirs t → name ∉ names d → (lookup_in (dn_ino d) name s').1 = Err NoEnt) ∧
    (∀ f n, f ∈ t_files t → len (e_data f) ≤ n < 4294967296 → (onyxfs_read (e_inode f) 0 n s').1 = Ok (e_data f)) ∧
    (data_total t < 32768 → (alloc_data_block s').1 = Ok (len img / 4096)).
Proof.
  intros Hb Hfit Hclk Hbuf. pose proof (fits_ok t Hb Hfit) as Hok.
  destruct (build_image_spec clock t Hok Hclk) as (img & Hbuild & Himg).
  pose proof (mounted_ok t clock img dev base s Hok Himg) as Hfs.
  pose proof (ft_apart _ Hfit) as Hap. pose proof (to_dirs _ Hok) as Hgood. rewrite Forall_forall in Hap, Hgood.
  exists img, (mounted t clock img dev base s). split_and!; [done|by apply mount_image| | | |].
  - intros d name ino is_dir Hd He. pose proof Hd as [i Hi]%list_elem_of_lookup.
    pose proof (mounted_dir t clock img dev base s Hok Himg i d Hi (Hap d Hd)) as Hda.
    destruct (built_inv t Hb) as [_ _ _ Hp Hes]. rewrite Forall_forall in Hp, Hes.
    assert (ino ∈ inos t) as Hino.
    { unfold all_entries in He. rewrite !elem_of_cons in He. destruct He as [[= -> -> ->]|[[= -> -> ->]|He]].
      - unfold inos. apply elem_of_app. left. by apply list_elem_of_fmap_2.
      - by apply Hp.
      - specialize (Hes d Hd). rewrite Forall_forall in Hes. by apply (Hes _ He). }
    destruct (item_of_ino t ino Hino) as (it & Hit & <-).
    destruct (mounted_inode t clock img dev base s Hok Himg it Hit) as (ib & Hat & Hdec).
    destruct (lookup_in_spec _ _ _ _ name Hfs Hda) as [_ Hl]. eexists.
    eapply Hl; [|exact Hat|exact Hdec]. eapply dir_map_slots; [by apply Hgood|by apply Hap|exact He].
  - intros d name Hd Hni. pose proof Hd as [i Hi]%list_elem_of_lookup.
    pose proof (mounted_dir t clock img dev base s Hok Himg i d Hi (Hap d Hd)) as Hda.
    destruct (lookup_in_spec _ _ _ _ name Hfs Hda) as [Hl _]. apply Hl. apply dir_map_absent; auto.
  - intros f n [i Hi]%list_elem_of_lookup Hn. by eapply mounted_read.
  - intros Hd. rewrite (mounted_alloc t clock img dev base s Hok Himg Hd). f_equal.
    rewrite (im_len _ _ _ Himg). symmetry. apply Z.div_mul. done.
Qed.

Definition path_bin : list Z := [47; 98; 105; 110].
Definition path_sh : list Z := [47; 98; 105; 110; 47; 115; 104].
(** [/bin/sh] of three bytes; the directory is made on the way. *)
Definition sh_tree : Tree :=
  mkTree [mkDirNode 1 1 [([98; 105; 110], 2, true)]; mkDirNode 2 1 [([115; 104], 3, false)]] [mkEntry 3 [7; 8; 9]] 4.
Definition blank : Onyfs := mkOnyfs 0 0 0 (img_super 0 0 0 0 0 0) (zeros 4096) 0 ∅ 0.

Lemma sh_built : built sh_tree.
Proof. apply (built_file new_tree [7; 8; 9] path_sh); [constructor|by vm_compute|by vm_compute]. Qed.

Lemma sh_fits : fits sh_tree.
Proof.
  assert (∀ nm, bool_decide (1 ≤ len nm ≤ 32) && bool_decide (Forall (λ c, c ≠ 0) nm) = true → name_good nm) as Hg.
  { intros nm [Hl Hn]%andb_true_iff. apply bool_decide_eq_true in Hl. by apply bool_decide_eq_true in Hn. }
  constructor; try (by vm_compute).
  - apply Forall_cons_2; [|apply Forall_cons_2; [|apply Forall_nil_2]];
      (apply Forall_cons_2; [apply Hg; by vm_compute|apply Forall_nil_2]).
  - apply Forall_cons_2; [|apply Forall_cons_2; [|apply Forall_nil_2]]; apply (bool_decide_unpack _); by vm_compute.
  - apply Forall_cons_2; [|apply Forall_cons_2; [|apply Forall_nil_2]]; by vm_compute.
  - apply Forall_cons_2; [|apply Forall_nil_2]; by vm_compute.
Qed.

Lemma image_mounts_witness :
  (∃ img s' st, build_image false (λ _, 5) sh_tree = Ok img ∧
    onyxfs_mount 0 64 (set_fs_disk (burn 0 64 img ∅) blank) = (Ok tt, s') ∧
    (lookup_in 2 [115; 104] s').1 = Ok (3, st) ∧ (onyxfs_read 3 0 100 s').1 = Ok [7; 8; 9]) ∧
  add_file [7; 8; 9] path_sh new_tree = Ok sh_tree.
Proof.
  split; [|by vm_compute].
  destruct (image_mounts sh_tree (λ _, 5) 0 64 blank sh_built sh_fits) as (img & s' & Hb & Hm & Hl & _ & Hr & _);
    [intros; unfold u64; lia|by vm_compute|].
  destruct (Hl (mkDirNode 2 1 [([115; 104], 3, false)]) [115; 104] 3 false) as [st Hst].
  - right. left.
  - right. right. left.
  - exists img, s', st. split_and!; [exact Hb|exact Hm|exact Hst|]. apply (Hr (mkEntry 3 [7; 8; 9])); [left|].
    vm_compute. split; congruence.
Defined.

(** Directories three levels down are made again for every file in them: the
    search for an existing directory looks only at the children of the root. *)
Theorem third_level_duplicated :
  let path x := [47; 97; 47; 98; 47; 99; 47; x] in
  ∃ t1 t2, add_file [] (path 100) new_tree = Ok t1 ∧ add_file [] (path 101) t1 = Ok t2 ∧
    ∃ d, t_dirs t2 !! 2%nat = Some d ∧ dn_entries d = [([99], 4, true); ([99], 6, true)].
Proof. eexists _, _. split_and!; [by vm_compute|by vm_compute|]. eexists. split; [by vm_compute|done]. Qed.

(** A directory with the name of the file in it is not made: the file lands in the
    directory above. *)
Theorem same_name_not_made :
  ∃ t, add_file [1] [47; 97; 47; 97] new_tree = Ok t ∧ t_dirs t = [mkDirNode 1 1 [([97], 2, false)]].
Proof. eexists. split; by vm_compute. Qed.

End MkimageTheorems.
