(* ===== verification/Fdt.v ===== *)
(** * kernel/src/libfdt: the flattened device tree

    The tree is read from memory ([Text.mem]); a read outside of it is [Panic].
    [walk] passes each node to a callback; a callback is a function of a state and
    returns the new state and whether to stop. *)

From S2P Require Import Prelude Text.
From stdpp Require Import base list numbers strings gmap.
From Stdlib Require Import ZArith Lia.

Open Scope Z_scope.

(** ** types.rs *)

Record FdtMemory := mkFdtMemory { fm_base : Z; fm_size : Z }.
Record FdtMmio := mkFdtMmio { mm_base : Z; mm_irq : Z; mm_reg_shift : Z }.

Definition FDT_MAGIC : Z := 0xD00DFEED.
Definition FDT_BEGIN_NODE : Z := 1.
Definition FDT_END_NODE : Z := 2.
Definition FDT_PROP : Z := 3.
Definition FDT_NOP : Z := 4.
Definition FDT_END : Z := 9.

(** [G_DTB], [G_STRUCT], [G_STRINGS], [G_STRUCT_SIZE] *)
Record Fdt := mkFdt { g_dtb : Z; g_struct : Z; g_strings : Z; g_struct_size : Z }.

(** ** reader.rs *)

(** [slice::from_raw_parts(p, n)] *)
Fixpoint read_mem (m : mem) (p : Z) (n : nat) : result (list Z) :=
  match n with
  | O => Ok []
  | S n => b ← ldb m p; bs ← read_mem m (p + 1) n; Ok (b :: bs)
  end.

Definition rd32 (m : mem) (p : Z) : result Z := bs ← read_mem m p 4; Ok (be_val bs).
Definition rd64_lo (m : mem) (p : Z) : result Z := rd32 m (p + 4).
Definition rd64_hi (m : mem) (p : Z) : result Z := rd32 m p.
Definition rd64 (m : mem) (p : Z) : result Z :=
  hi ← rd32 m p; lo ← rd64_lo m p; Ok (Z.lor (Z.shiftl hi 32) lo).

(** [str::from_utf8]: the byte sequences that are well formed. *)
Definition cont (b : Z) : bool := (128 <=? b) && (b <=? 191).
Fixpoint utf8_ok (l : list Z) : bool :=
  match l with
  | [] => true
  | a :: l1 =>
      if a <? 128 then utf8_ok l1 else
      match l1 with
      | [] => false
      | b :: l2 =>
          if (194 <=? a) && (a <=? 223) then cont b && utf8_ok l2 else
          match l2 with
          | [] => false
          | c :: l3 =>
              if (224 <=? a) && (a <=? 239) then
                cont b && cont c && (negb (a =? 224) || (160 <=? b)) && (negb (a =? 237) || (b <=? 159)) && utf8_ok l3
              else
              match l3 with
              | [] => false
              | d :: l4 =>
                  (240 <=? a) && (a <=? 244) && cont b && cont c && cont d &&
                  (negb (a =? 240) || (144 <=? b)) && (negb (a =? 244) || (b <=? 143)) && utf8_ok l4
              end
          end
      end
  end.
Definition utf8_or_empty (l : list Z) : list Z := if utf8_ok l then l else [].

(** The bytes of the C string at [p]. *)
Definition cstr (m : mem) (p : Z) : result (list Z) := n ← strlen m p; read_mem m p (Z.to_nat n).
Definition cstr_at (m : mem) (f : Fdt) (offset : Z) : result (list Z) :=
  s ← cstr m (g_strings f + offset); Ok (utf8_or_empty s).
Definition prop_name (m : mem) (f : Fdt) (name_off : Z) : result (list Z) := cstr_at m f name_off.

(** ** walk.rs *)

(** Name offset and data of a property. *)
Abbreviation Prop_ := (Z * list Z)%type.
(** [(x + 3) & !3] of a 64-bit [x] *)
Definition align4 (x : Z) : Z := Z.land (w64 (x + 3)) (18446744073709551615 - 3).

Section Walk.
Context {St : Type} (m : mem) (cb : St → list Z → list Prop_ → result (St * bool)).

(** The loop at [p]: the node's name and the properties kept of it; a turn reads a
    token of four bytes. *)
Fixpoint walk_loop (fuel : nat) (end_ p : Z) (name : list Z) (props : list Prop_) (s : St) : result St :=
  if p <? end_ then
    match fuel with
    | O => Panic
    | S fuel =>
        tok ← rd32 m p;
        let p := p + 4 in
        if tok =? FDT_BEGIN_NODE then
          n ← cstr m p;
          walk_loop fuel end_ (p + align4 (len n + 1)) (utf8_or_empty n) [] s
        else if tok =? FDT_END_NODE then
          if 0 <? len props then
            r ← cb s name props;
            if (r.2 : bool) then Ok r.1 else walk_loop fuel end_ p name props r.1
          else walk_loop fuel end_ p name props s
        else if tok =? FDT_PROP then
          prop_len ← rd32 m p;
          name_off ← rd32 m (p + 4);
          let p := p + 8 in
          data ← read_mem m p (Z.to_nat prop_len);
          let props := if len props <? 32 then props ++ [(name_off, data)] else props in
          walk_loop fuel end_ (p + align4 prop_len) name props s
        else if tok =? FDT_NOP then walk_loop fuel end_ p name props s
        else Ok s
    end
  else Ok s.

Definition walk (f : Fdt) (s : St) : result St :=
  if g_struct f =? 0 then Ok s
  else walk_loop (Z.to_nat (g_struct_size f / 4 + 1)) (g_struct f + g_struct_size f) (g_struct f) [] [] s.
End Walk.

(** ** init.rs *)

Definition RAM_START : Z := 0x80000000.
Definition RAM_END : Z := 0x90000000.
Definition SCAN_SPAN : Z := 0x02000000.

Fixpoint scan_down (fuel : nat) (m : mem) (addr limit : Z) : result (option Z) :=
  match fuel with
  | O => Ok None
  | S fuel =>
      if limit <? addr then
        v ← rd32 m addr;
        if v =? FDT_MAGIC then Ok (Some addr) else scan_down fuel m (addr - 4) limit
      else Ok None
  end.
Fixpoint scan_up (fuel : nat) (m : mem) (addr end_ : Z) : result (option Z) :=
  match fuel with
  | O => Ok None
  | S fuel =>
      if addr <? end_ then
        v ← rd32 m addr;
        if v =? FDT_MAGIC then Ok (Some addr) else scan_up fuel m (addr + 4) end_
      else Ok None
  end.
Definition scan_fdt_in_ram (m : mem) : result (option Z) :=
  let words := Z.to_nat (SCAN_SPAN / 4) in
  o ← scan_down words m (RAM_END - 4) (RAM_END - SCAN_SPAN);
  match o with
  | Some a => Ok (Some a)
  | None => scan_up words m RAM_START (RAM_START + SCAN_SPAN)
  end.

Definition init_from (m : mem) (dtb_pa : Z) (f : Fdt) : result (bool * Fdt) :=
  magic ← rd32 m dtb_pa;
  if negb (magic =? FDT_MAGIC) then Ok (false, f) else
  struct_off ← rd32 m (dtb_pa + 8);
  strings_off ← rd32 m (dtb_pa + 12);
  struct_size ← rd32 m (dtb_pa + 32);
  Ok (true, mkFdt dtb_pa (dtb_pa + struct_off) (dtb_pa + strings_off) struct_size).

Definition init (m : mem) (dtb_pa : Z) (f : Fdt) : result (bool * Fdt) :=
  r ← (if negb (dtb_pa =? 0) then init_from m dtb_pa f else Ok (false, f));
  if (r.1 : bool) then Ok r else
  found ← scan_fdt_in_ram m;
  match found with Some a => init_from m a f | None => Ok (false, f) end.

(** ** Strings *)

Definition str (s : string) : list Z := (λ c, Z.of_N (Ascii.N_of_ascii c)) <$> String.list_ascii_of_string s.

Definition s_reg : list Z := str "reg".
Definition s_compatible : list Z := str "compatible".
Definition s_interrupts : list Z := str "interrupts".
Definition s_reg_shift : list Z := str "reg-shift".
Definition s_model : list Z := str "model".
Definition s_memory : list Z := str "memory".

(** Words of the data of a property, within its bounds. *)
Definition d32 (data : list Z) (i : Z) : Z := be_val (rd i 4 data).
Definition d64 (data : list Z) (i : Z) : Z := Z.lor (Z.shiftl (d32 data i) 32) (d32 data (i + 4)).

(** The NUL-separated strings of a [compatible] property, a turn per string. *)
Fixpoint nul_pos (l : list Z) : option nat :=
  match l with [] => None | b :: l => if b =? 0 then Some 0%nat else S <$> nul_pos l end.
Fixpoint compat_loop (fuel : nat) (data : list Z) (candidates : list (list Z)) : bool :=
  match fuel with
  | O => false
  | S fuel =>
      match data with
      | [] => false
      | _ =>
          let e := default (length data) (nul_pos data) in
          bool_decide (take e data ∈ candidates) || compat_loop fuel (drop (e + 1) data) candidates
      end
  end.
Definition compat_matches (data : list Z) (candidates : list (list Z)) : bool :=
  compat_loop (length data) data candidates.

(** ** memory.rs, plic.rs, clint.rs, model.rs *)

Section Find.
Context (m : mem) (f : Fdt).

(** [for (name_off, data) in props { if .. { result = ..; return true } }] *)
Fixpoint first_prop {A} (test : list Z → list Z → option A) (props : list Prop_) : result (option A) :=
  match props with
  | [] => Ok None
  | (name_off, data) :: props =>
      name ← cstr_at m f name_off;
      match test name data with Some a => Ok (Some a) | None => first_prop test props end
  end.
Definition found_or {A} (s : option A) (r : result (option A)) : result (option A * bool) :=
  o ← r; Ok (match o with Some a => (Some a, true) | None => (s, false) end).

Definition memory_test (name data : list Z) : option FdtMemory :=
  if bool_decide (name = s_reg) && (16 <=? len data)
  then Some (mkFdtMemory (d64 data 0) (Z.lor (d64 data 8) (Z.shiftl (d32 data 8) 32))) else None.
Definition memory_cb (s : option FdtMemory) (name : list Z) (props : list Prop_) : result (option FdtMemory * bool) :=
  if bool_decide (take 6 name = s_memory) then found_or s (first_prop memory_test props) else Ok (s, false).
Definition memory : result FdtMemory :=
  o ← walk m memory_cb f None; Ok (default (mkFdtMemory 0x80000000 0x10000000) o).

(** [find_plic] and [find_clint]: a [reg] inside a window. *)
Definition window_test (lo hi : Z) (name data : list Z) : option Z :=
  if bool_decide (name = s_reg) && (8 <=? len data) then
    let addr := d64 data 0 in if (lo <=? addr) && (addr <? hi) then Some addr else None
  else None.
Definition window_cb (lo hi : Z) (s : option Z) (name : list Z) (props : list Prop_) : result (option Z * bool) :=
  found_or s (first_prop (window_test lo hi) props).
Definition find_plic : result Z :=
  o ← walk m (window_cb 0x0C000000 0x0D000000) f None; Ok (default 0x0C000000 o).
Definition find_clint : result Z :=
  o ← walk m (window_cb 0x02000000 0x03000000) f None; Ok (default 0x02000000 o).

(** [true] is ["from-fdt"], [false] is ["unknown"]. *)
Definition model_test (name data : list Z) : option unit := if bool_decide (name = s_model) then Some tt else None.
Definition model : result bool :=
  o ← walk m (λ s name props, found_or s (first_prop model_test props)) f None;
  Ok (match o with Some _ => true | None => false end).

(** ** uart.rs, sdhci.rs, virtio.rs and periph.rs *)

(** The properties collected by the loops over [props]: a match of [compatible],
    [reg], [interrupts] and [reg-shift]. *)
Record Found := mkFound { fd_matched : bool; fd_base : Z; fd_irq : Z; fd_shift : Z }.

Definition collect1 (candidates : list (list Z)) (name data : list Z) (x : Found) : Found :=
  if bool_decide (name = s_compatible) then
    mkFound (compat_matches data candidates || fd_matched x) (fd_base x) (fd_irq x) (fd_shift x)
  else if bool_decide (name = s_reg) && (8 <=? len data) then mkFound (fd_matched x) (d64 data 0) (fd_irq x) (fd_shift x)
  else if bool_decide (name = s_interrupts) && (4 <=? len data) then mkFound (fd_matched x) (fd_base x) (d32 data 0) (fd_shift x)
  else if bool_decide (name = s_reg_shift) && (4 <=? len data) then mkFound (fd_matched x) (fd_base x) (fd_irq x) (d32 data 0)
  else x.
Fixpoint collect (candidates : list (list Z)) (props : list Prop_) (x : Found) : result Found :=
  match props with
  | [] => Ok x
  | (name_off, data) :: props =>
      name ← cstr_at m f name_off;
      collect candidates props (collect1 candidates name data x)
  end.

(** The first node that matches, as [mk] makes of it. *)
Definition mmio_cb (candidates : list (list Z)) (irq0 : Z) (mk : Found → FdtMmio) (s : option FdtMmio)
    (name : list Z) (props : list Prop_) : result (option FdtMmio * bool) :=
  x ← collect candidates props (mkFound false 0 irq0 0);
  Ok (if fd_matched x && negb (fd_base x =? 0) then (Some (mk x), true) else (s, false)).
Definition plain (x : Found) : FdtMmio := mkFdtMmio (fd_base x) (fd_irq x) 0.

Definition find_uart : result FdtMmio :=
  o ← walk m (mmio_cb [str "ns16550a"; str "ns16550"] 0 (λ x, mkFdtMmio (fd_base x) 10 (fd_shift x))) f None;
  Ok (default (mkFdtMmio 0x10000000 10 0) o).

Definition find_mmio (candidates : list (list Z)) (default_irq : Z) : result (option FdtMmio) :=
  walk m (mmio_cb candidates default_irq plain) f None.
Definition find_sdhci : result (option FdtMmio) :=
  find_mmio [str "qemu,sdhci"; str "generic-sdhci"; str "arasan,sdhci"; str "snps,dw-sdhci"; str "sifive,sdio"] 0.
Definition find_rtc : result (option FdtMmio) :=
  find_mmio [str "google,goldfish-rtc"; str "sifive,fu540-c000-rtc"; str "sifive,rtc"; str "motorola,mc146818"] 11.
Definition find_gpio : result (option FdtMmio) :=
  find_mmio [str "sifive,fu540-c000-gpio"; str "sifive,gpio0"; str "sifive,gpio"; str "google,goldfish-gpio"] 7.
Definition find_i2c : result (option FdtMmio) :=
  find_mmio [str "sifive,fu540-c000-i2c"; str "sifive,i2c0"; str "sifive,i2c"; str "snps,designware-i2c"] 10.
Definition find_spi : result (option FdtMmio) :=
  find_mmio [str "sifive,fu540-c000-spi"; str "sifive,spi0"; str "sifive,spi"; str "snps,dw-spi"] 9.
Definition find_watchdog : result (option FdtMmio) :=
  find_mmio [str "sifive,fu540-c000-wdt"; str "sifive,wdt"; str "snps,dw-wdt"] 6.

Definition virtio_cb (max : Z) (s : list FdtMmio * Z) (name : list Z) (props : list Prop_)
    : result ((list FdtMmio * Z) * bool) :=
  let '(out, count) := s in
  if max <=? count then Ok (s, true) else
  x ← collect [str "virtio,mmio"] props (mkFound false 0 0 0);
  if fd_matched x && negb (fd_base x =? 0) then
    out ← set_idx out count (plain x);
    Ok ((out, count + 1), false)
  else Ok (s, false).
Definition find_virtio (out : list FdtMmio) (max : Z) : result (list FdtMmio * Z) := walk m (virtio_cb max) f (out, 0).
End Find.
