(* ===== verification/FdtProps.v ===== *)
(** * kernel/src/libfdt: what a walk of a device tree visits

    A tree flattened into memory ([flatten]) is walked as the calls that [calls]
    lists; module [FdtTheorems] has the theorems. *)

From S2P Require Import Prelude Text TextProps Fdt.
From stdpp Require Import base list numbers strings gmap.
From Stdlib Require Import ZArith Lia.

Open Scope Z_scope.

(** ** Reading *)

Lemma holds_app m p a b : holds m p (a ++ b) ↔ holds m p a ∧ holds m (p + len a) b.
Proof.
  unfold holds. split.
  - intros H. split; intros i x Hi.
    + apply H. by apply lookup_app_l_Some.
    + replace (p + len a + Z.of_nat i) with (p + Z.of_nat (length a + i)) by (unfold len; lia). apply H.
      rewrite lookup_app_r by lia. by replace (length a + i - length a)%nat with i by lia.
  - intros [Ha Hb] i x [Hi|[Hge Hi]]%lookup_app_Some; [by apply Ha|].
    replace (p + Z.of_nat i) with (p + len a + Z.of_nat (i - length a)) by (unfold len; lia). by apply Hb.
Qed.

Lemma read_mem_holds m l : ∀ p, holds m p l → read_mem m p (length l) = Ok l.
Proof.
  induction l as [|b l IH]; intros p H; [done|]. apply holds_cons in H as [Hb H]. cbn [length read_mem].
  by rewrite (ldb_ok _ _ _ Hb), bind_ok, IH.
Qed.

Lemma be_val_be_bytes n v : 0 ≤ v < 256 ^ Z.of_nat n → be_val (be_bytes n v) = v.
Proof. intros Hv. unfold be_val, be_bytes. rewrite reverse_involutive. by apply le_val_bytes_id. Qed.

Lemma len_be4 v : len (be_bytes 4 v) = 4.
Proof. unfold be_bytes, len. by rewrite length_reverse, length_le_bytes. Qed.

Lemma rd32_holds m p v : u32 v → holds m p (be_bytes 4 v) → rd32 m p = Ok v.
Proof.
  intros Hv H. apply read_mem_holds in H. unfold be_bytes in H at 1. rewrite length_reverse, length_le_bytes in H.
  unfold rd32. rewrite H, bind_ok. f_equal. by apply be_val_be_bytes.
Qed.

Lemma cstr_holds m p l : Forall (λ b, b ≠ 0) l → holds m p (l ++ [0]) → cstr m p = Ok l.
Proof.
  intros Hl H. unfold cstr, strlen. rewrite (strlen_loop_spec m p l Hl); [|by rewrite Z.add_0_r|].
  - rewrite bind_ok. apply holds_app in H as [H _]. unfold len. rewrite Z.add_0_l, Nat2Z.id. by apply read_mem_holds.
  - pose proof (holds_size _ _ _ H) as Hs. rewrite length_app in Hs. simpl in Hs. lia.
Qed.

Lemma align4_bounds x : 0 ≤ x < 9223372036854775808 → x ≤ align4 x < x + 4.
Proof.
  intros Hx. unfold align4. rewrite w64_small by lia.
  change (18446744073709551615 - 3) with (Z.shiftl (Z.ones (64 - 2)) 2).
  rewrite land_align_mask by (unfold u64; lia). change (2 ^ 2) with 4. Z.to_euclidean_division_equations. lia.
Qed.

(** ** Trees *)

Inductive Node := mkNode (name : list Z) (props : list Prop_) (children : list Node).

Section NodeInd.
Context (P : Node → Prop) (step : ∀ name props children, Forall P children → P (mkNode name props children)).
Fixpoint node_ind' (n : Node) : P n :=
  match n with
  | mkNode name props children =>
      step name props children
        ((fix go (l : list Node) : Forall P l :=
            match l with [] => Forall_nil_2 P | c :: l => Forall_cons_2 P c l (node_ind' c) (go l) end) children)
  end.
End NodeInd.

Inductive Tok := TBegin (name : list Z) | TProp (p : Prop_) | TEnd.

Fixpoint toks (n : Node) : list Tok :=
  match n with
  | mkNode name props children => TBegin name :: (TProp <$> props) ++ concat (map toks children) ++ [TEnd]
  end.

(** Padding to a multiple of four bytes. *)
Definition pad4 (l : list Z) : list Z := l ++ zeros (align4 (len l) - len l).
Definition tok_bytes (t : Tok) : list Z :=
  match t with
  | TBegin name => be_bytes 4 FDT_BEGIN_NODE ++ pad4 (name ++ [0])
  | TProp (off, data) => be_bytes 4 FDT_PROP ++ be_bytes 4 (len data) ++ be_bytes 4 off ++ pad4 data
  | TEnd => be_bytes 4 FDT_END_NODE
  end.
(** The structure block of a tree. *)
Definition flatten (n : Node) : list Z := (toks n ≫= tok_bytes) ++ be_bytes 4 FDT_END.

Definition tok_ok (t : Tok) : Prop :=
  match t with
  | TBegin name => Forall (λ b, b ≠ 0) name ∧ len name < 4294967296
  | TProp (off, data) => u32 off ∧ len data < 4294967296
  | TEnd => True
  end.

#[global] Instance tok_ok_dec t : Decision (tok_ok t).
Proof. destruct t as [name|[off data]|]; cbn [tok_ok]; unfold u32; apply _. Defined.

(** What the walk remembers, and the calls it makes. *)
Definition Visit : Type := list Z * list Prop_.

(** The node the walk remembers after [n]: [n] itself or its last descendant. *)
Fixpoint last_of (n : Node) : Visit :=
  match n with
  | mkNode name props children =>
      (fix go (cur : Visit) (l : list Node) : Visit :=
         match l with [] => cur | c :: l => go (last_of c) l end) (utf8_or_empty name, take 32 props) children
  end.
Definition call (v : Visit) : list Visit := if 0 <? len v.2 then [v] else [].
Fixpoint calls (n : Node) : list Visit :=
  match n with
  | mkNode name props children => concat (map calls children) ++ call (last_of n)
  end.

Section Run.
Context {St : Type} (m : mem) (cb : St → list Z → list Prop_ → result (St * bool)).

Fixpoint run_calls (vs : list Visit) (s : St) : result (St * bool) :=
  match vs with
  | [] => Ok (s, false)
  | v :: vs => r ← cb s v.1 v.2; if (r.2 : bool) then Ok r else run_calls vs r.1
  end.

Definition push_prop (p : Prop_) (v : Visit) : Visit := (v.1, if len v.2 <? 32 then v.2 ++ [p] else v.2).

(** The tokens as the walk takes them. *)
Fixpoint run_toks (ts : list Tok) (cur : Visit) (s : St) : result (St * bool * Visit) :=
  match ts with
  | [] => Ok (s, false, cur)
  | TBegin name :: ts => run_toks ts (utf8_or_empty name, []) s
  | TProp p :: ts => run_toks ts (push_prop p cur) s
  | TEnd :: ts => r ← run_calls (call cur) s; if (r.2 : bool) then Ok (r, cur) else run_toks ts cur r.1
  end.

Lemma run_calls_app a b s : run_calls (a ++ b) s = (r ← run_calls a s; if (r.2 : bool) then Ok r else run_calls b r.1).
Proof.
  revert s. induction a as [|v a IH]; intros s; [done|]. cbn [app run_calls].
  destruct (cb s v.1 v.2) as [[s' []]| |]; [done| |done..]. rewrite !bind_ok. cbn [snd fst]. apply IH.
Qed.

Lemma pad4_len l : len l < 9223372036854775808 → len (pad4 l) = align4 (len l).
Proof.
  intros Hl. pose proof (len_nonneg l). pose proof (align4_bounds (len l) ltac:(lia)).
  unfold pad4. rewrite len_app, len_zeros by lia. lia.
Qed.

Lemma tags_u32 : u32 FDT_BEGIN_NODE ∧ u32 FDT_END_NODE ∧ u32 FDT_PROP.
Proof. repeat split; unfold FDT_BEGIN_NODE, FDT_END_NODE, FDT_PROP; lia. Qed.

(** A token is one turn. *)
Lemma walk_tok fuel end_ p cur s t :
  tok_ok t → holds m p (tok_bytes t) → p + len (tok_bytes t) ≤ end_ →
  walk_loop m cb (S fuel) end_ p cur.1 cur.2 s =
    (r ← run_toks [t] cur s;
     if (r.1.2 : bool) then Ok r.1.1
     else walk_loop m cb fuel end_ (p + len (tok_bytes t)) r.2.1 r.2.2 r.1.1).
Proof.
  intros Ht Hm Hend. cbn [walk_loop run_toks]. destruct t as [name|[off data]|]; cbn [tok_bytes] in *.
  - rewrite len_app, len_be4 in *. apply holds_app in Hm as [H4 Hm]. rewrite len_be4 in Hm.
    pose proof (len_nonneg (pad4 (name ++ [0]))). rewrite (proj2 (Z.ltb_lt _ _)) by lia.
    rewrite (rd32_holds m p FDT_BEGIN_NODE) by (done || apply tags_u32).
    rewrite bind_ok, Z.eqb_refl. destruct Ht as [Hn Hl]. pose proof (len_nonneg name).
    rewrite (cstr_holds _ _ name Hn); [|unfold pad4 in Hm; by apply holds_app in Hm as [? _]].
    rewrite !bind_ok. cbn [fst snd]. rewrite pad4_len, len_app by (rewrite len_app; change (len [0]) with 1; lia).
    change (len [0]) with 1. by rewrite Z.add_assoc.
  - rewrite !len_app, !len_be4 in *. apply holds_app in Hm as [H4 Hm]. apply holds_app in Hm as [Hlen Hm].
    apply holds_app in Hm as [Hoff Hm]. rewrite !len_be4 in *.
    pose proof (len_nonneg (pad4 data)). rewrite (proj2 (Z.ltb_lt _ _)) by lia.
    rewrite (rd32_holds m p FDT_PROP) by (done || apply tags_u32).
    rewrite bind_ok. change (FDT_PROP =? FDT_BEGIN_NODE) with false. change (FDT_PROP =? FDT_END_NODE) with false.
    rewrite Z.eqb_refl. cbn match. destruct Ht as [Ho Hl]. pose proof (len_nonneg data).
    rewrite (rd32_holds m (p + 4) (len data)) by (done || unfold u32; lia). rewrite bind_ok.
    rewrite (rd32_holds m (p + 4 + 4) off) by done. rewrite bind_ok.
    unfold pad4 in Hm. apply holds_app in Hm as [Hm _]. replace (Z.to_nat (len data)) with (length data) by (unfold len; lia).
    replace (p + 4 + 8) with (p + 4 + 4 + 4) by lia.
    rewrite (read_mem_holds _ _ _ Hm), !bind_ok. cbn [fst snd]. rewrite pad4_len by lia.
    f_equal. lia.
  - rewrite len_be4 in *. rewrite (proj2 (Z.ltb_lt _ _)) by lia.
    rewrite (rd32_holds m p FDT_END_NODE) by (done || apply tags_u32).
    rewrite bind_ok. change (FDT_END_NODE =? FDT_BEGIN_NODE) with false. rewrite Z.eqb_refl. cbn match.
    unfold call. destruct (0 <? len cur.2); cbn [run_calls]; [|by rewrite !bind_ok].
    destruct (cb s cur.1 cur.2) as [[s' []]| |]; [by rewrite !bind_ok..| |]; done.
Qed.

Lemma run_toks_cons t ts cur s :
  run_toks (t :: ts) cur s =
    (r ← run_toks [t] cur s; if (r.1.2 : bool) then Ok r else run_toks ts r.2 r.1.1).
Proof.
  destruct t; cbn [run_toks]; rewrite ?bind_ok; [done..|].
  destruct (run_calls (call cur) s) as [[s' []]| |]; [by rewrite !bind_ok..| |]; done.
Qed.

(** The walk consumes the tokens. *)
Lemma walk_toks end_ ts : ∀ fuel p cur s,
  Forall tok_ok ts → holds m p (ts ≫= tok_bytes) → p + len (ts ≫= tok_bytes) ≤ end_ →
  walk_loop m cb (length ts + fuel) end_ p cur.1 cur.2 s =
    (r ← run_toks ts cur s;
     if (r.1.2 : bool) then Ok r.1.1
     else walk_loop m cb fuel end_ (p + len (ts ≫= tok_bytes)) r.2.1 r.2.2 r.1.1).
Proof.
  induction ts as [|t ts IH]; intros fuel p cur s Hok Hm Hend.
  { cbn [run_toks]. rewrite bind_ok. cbn [fst snd]. change (([] ≫= tok_bytes)) with (@nil Z). change (len (@nil Z)) with 0.
    by rewrite Z.add_0_r. }
  apply Forall_cons_1 in Hok as [Ht Hok]. rewrite bind_cons in Hm, Hend |- *. rewrite len_app in Hend |- *.
  apply holds_app in Hm as [Hm Hms]. pose proof (len_nonneg (ts ≫= tok_bytes)). cbn [length Nat.add].
  rewrite (walk_tok _ _ _ _ _ t), (run_toks_cons t ts) by (done || lia).
  destruct (run_toks [t] cur s) as [[[s' []] cur']| |]; [by rewrite !bind_ok|rewrite !bind_ok; cbn [fst snd]|done..].
  rewrite IH by (done || lia). by rewrite Z.add_assoc.
Qed.

(** The tokens of a tree make its calls. *)
Lemma run_props props : ∀ ts name ps s,
  len ps ≤ 32 →
  run_toks ((TProp <$> props) ++ ts) (name, ps) s = run_toks ts (name, take 32 (ps ++ props)) s.
Proof.
  induction props as [|p props IH]; intros ts name ps s Hps.
  { simpl. rewrite app_nil_r, take_ge; [done|unfold len in Hps; lia]. }
  rewrite fmap_cons. cbn [app run_toks]. unfold push_prop. cbn [fst snd].
  destruct (Z.ltb_spec (len ps) 32).
  - rewrite IH by (rewrite len_app; change (len [p]) with 1; lia). by rewrite <-app_assoc.
  - rewrite IH by done. unfold len in *. rewrite !take_app_le by lia. done.
Qed.

Definition tail_of (cur : Visit) (l : list Node) : Visit := foldl (λ _ c, last_of c) cur l.
Lemma last_of_eq name props children :
  last_of (mkNode name props children) = tail_of (utf8_or_empty name, take 32 props) children.
Proof. cbn [last_of]. generalize (utf8_or_empty name, take 32 props). induction children; intros v; [done|]. simpl. auto. Qed.

Definition run_node (n : Node) : Prop := ∀ ts cur s,
  run_toks (toks n ++ ts) cur s =
    (r ← run_calls (calls n) s; if (r.2 : bool) then Ok (r, last_of n) else run_toks ts (last_of n) r.1).


(** A run up to the node remembered at its end: the state and whether the callback
    stopped it. *)
Definition outcome (r : result (St * bool * Visit)) : result (St * bool) := q ← r; Ok q.1.

Lemma run_tree n : ∀ ts cur s,
  outcome (run_toks (toks n ++ ts) cur s) =
    (r ← run_calls (calls n) s; if (r.2 : bool) then Ok r else outcome (run_toks ts (last_of n) r.1)).
Proof.
  induction n as [name props children IH] using node_ind'. intros ts cur s.
  cbn [toks]. rewrite <-!app_comm_cons, <-!app_assoc. cbn [run_toks].
  rewrite run_props by (vm_compute; discriminate). cbn [app calls]. rewrite last_of_eq.
  generalize (utf8_or_empty name, take 32 props). intros v.
  revert v s. induction IH as [|c cs Hc _ IHcs]; intros v s.
  - cbn [map concat app run_toks tail_of foldl].
    destruct (run_calls (call v) s) as [[s' []]| |]; by rewrite ?bind_ok.
  - cbn [map concat]. rewrite <-!app_assoc, Hc, run_calls_app.
    destruct (run_calls (calls c) s) as [[s' []]| |]; [by rewrite !bind_ok| |done..].
    rewrite !bind_ok. cbn [fst snd tail_of foldl]. apply IHcs.
Qed.

Lemma tok_bytes_long t : 4 ≤ len (tok_bytes t).
Proof.
  destruct t as [name|[off data]|]; cbn [tok_bytes]; rewrite ?len_app, ?len_be4; [| |lia];
    [pose proof (len_nonneg (pad4 (name ++ [0])))|pose proof (len_nonneg (pad4 data))]; lia.
Qed.
Lemma toks_len ts : 4 * len ts ≤ len (ts ≫= tok_bytes).
Proof.
  induction ts as [|t ts IH]; [done|]. rewrite bind_cons, len_app, len_cons. pose proof (tok_bytes_long t). lia.
Qed.
End Run.

Module FdtTheorems.

(** C31. Walking the flattened form of any tree of nodes (names without NUL, sizes
    within 32 bits) makes exactly the calls
    [calls] lists, in its order, until the callback stops it: a node that has children
    is reported at its end with the name and properties of its last descendant. *)
Theorem walk_visits_tree {St} m (cb : St → list Z → list Prop_ → result (St * bool)) tree f s :
  Forall tok_ok (toks tree) → g_struct f ≠ 0 → g_struct_size f = len (flatten tree) → holds m (g_struct f) (flatten tree) →
  walk m cb f s = (r ← run_calls cb (calls tree) s; Ok r.1).
Proof.
  intros Hok H0 Hsz Hm. unfold walk. rewrite (proj2 (Z.eqb_neq _ _)) by done. rewrite Hsz.
  unfold flatten in *. rewrite len_app, len_be4 in *. apply holds_app in Hm as [Hts Hend].
  pose proof (toks_len (toks tree)). pose proof (len_nonneg (toks tree)).
  set (n := Z.to_nat _). replace n with (length (toks tree) + S (n - S (length (toks tree))))%nat
    by (unfold n, len in *; Z.to_euclidean_division_equations; lia).
  rewrite (walk_toks m cb _ (toks tree) _ _ ([], [])) by (done || lia).
  pose proof (run_tree cb tree [] ([], []) s) as Hr. rewrite app_nil_r in Hr.
  unfold outcome in Hr. cbn [run_toks] in Hr.
  destruct (run_toks cb (toks tree) ([], []) s) as [[[s' b] v]| |], (run_calls cb (calls tree) s) as [[s'' []]| |];
    rewrite ?bind_ok in *; cbn [fst snd] in *; simplify_eq; try done.
  cbn [walk_loop]. rewrite (proj2 (Z.ltb_lt _ _)) by lia.
  rewrite (rd32_holds m (g_struct f + len (toks tree ≫= tok_bytes)) FDT_END) by (done || change FDT_END with 9; unfold u32; lia). by rewrite bind_ok.
Qed.

(** A board: two virtio devices on a bus, the model on the root. *)
Definition dev (name : string) (base : Z) : Node :=
  mkNode (str name) [(6, str "virtio,mmio" ++ [0]); (17, be_bytes 8 base ++ be_bytes 8 4096)] [].
Definition soc : Node := mkNode (str "soc") [(21, be_bytes 4 2)] [dev "virtio@1" 0x10001000; dev "virtio@2" 0x10002000].
Definition board : Node := mkNode [] [(0, str "riscv-virtio" ++ [0])] [soc].
Definition board_strings : list Z :=
  str "model" ++ [0] ++ str "compatible" ++ [0] ++ str "reg" ++ [0] ++ str "#address-cells" ++ [0].
Definition board_fdt : Fdt := mkFdt 1 64 2048 (len (flatten board)).
Definition board_mem : mem := map_seqZ 64 (flatten board) ∪ map_seqZ 2048 board_strings.

Lemma holds_seqZ p l m : holds (map_seqZ p l ∪ m) p l.
Proof.
  intros i x Hi. apply lookup_union_Some_l. apply lookup_map_seqZ_Some. split; [lia|].
  by replace (Z.to_nat (p + Z.of_nat i - p)) with i by lia.
Qed.

Lemma walk_visits_tree_witness :
  let seen := (λ (s : list Visit) name props, Ok (s ++ [(name, props)], false)) in
  walk board_mem seen board_fdt [] = (r ← run_calls seen (calls board) []; Ok r.1) ∧
  fst <$> calls board = [str "virtio@1"; str "virtio@2"; str "virtio@2"; str "virtio@2"].
Proof.
  split; [|by vm_compute].
  apply (walk_visits_tree board_mem (λ (s : list Visit) name props, Ok (s ++ [(name, props)], false)) board board_fdt []).
  - apply (bool_decide_unpack _). by vm_compute.
  - vm_compute. discriminate.
  - by vm_compute.
  - apply holds_seqZ.
Defined.

(** A board with two devices is taken for one with four, and its model is not found. *)
Theorem devices_found_again :
  find_virtio board_mem board_fdt (replicate 8 (mkFdtMmio 0 0 0)) 8 =
    Ok ((λ b, mkFdtMmio b 0 0) <$> [0x10001000; 0x10002000; 0x10002000; 0x10002000; 0; 0; 0; 0], 4) ∧
  model board_mem board_fdt = Ok false.
Proof. split; by vm_compute. Qed.
End FdtTheorems.
