(* ===== verification/Bus.v ===== *)
(** * What drivers see: memory, device registers and pages

    A driver is code over its own globals, the RAM, a device and the page allocator.
    The device is not code of the repository: it is a parameter, what it answers when
    a register is read ([dev_load]), what it does when one is written ([dev_store])
    and what it does to memory meanwhile ([dev_run], before every read of RAM: drivers
    poll memory that the device writes). Reads and writes have a width in bytes;
    a byte that nothing has written reads as 0. *)

From S2P Require Import Prelude Pmm.
From stdpp Require Import base list numbers gmap.
From Stdlib Require Import ZArith Lia.

Open Scope Z_scope.

Abbreviation ram := (gmap Z Z).

Definition byte (m : ram) (a : Z) : Z := default 0 (m !! a).
Definition bytes (m : ram) (a n : Z) : list Z := (λ i, byte m (a + Z.of_nat i)) <$> seq 0 (Z.to_nat n).
Fixpoint write_bytes (m : ram) (a : Z) (l : list Z) : ram :=
  match l with
  | [] => m
  | b :: l => write_bytes (<[a := b]> m) (a + 1) l
  end.
Definition word (m : ram) (n a : Z) : Z := le_val (bytes m a n).

Class Device (D : Type) := {
  dev_load : Z → Z → ram → D → Z * (ram * D);
  dev_store : Z → Z → Z → ram → D → ram * D;
  dev_run : ram → D → ram * D }.

Record Drv (G D : Type) := mkDrv { dv_glob : G; dv_ram : ram; dv_dev : D; dv_pmm : Pmm }.
Arguments mkDrv {G D} _ _ _ _.
Arguments dv_glob {G D} _.
Arguments dv_ram {G D} _.
Arguments dv_dev {G D} _.
Arguments dv_pmm {G D} _.

Abbreviation DM G D := (SM (Drv G D)).

Section Access.
Context {G D : Type} `{!Device D}.

(** [Mmio::<T>::at(a).read()] and [.write(v)]; [n] is the size of [T]. *)
Definition mmio_r (n a : Z) : DM G D Z := λ s,
  let '(v, (m, d)) := dev_load n a (dv_ram s) (dv_dev s) in (Ok v, mkDrv (dv_glob s) m d (dv_pmm s)).
Definition mmio_w (n a v : Z) : DM G D unit := λ s,
  let '(m, d) := dev_store n a v (dv_ram s) (dv_dev s) in (Ok tt, mkDrv (dv_glob s) m d (dv_pmm s)).

(** Reads and writes through a pointer. *)
Definition ram_bytes (a n : Z) : DM G D (list Z) := λ s,
  let '(m, d) := dev_run (dv_ram s) (dv_dev s) in (Ok (bytes m a n), mkDrv (dv_glob s) m d (dv_pmm s)).
Definition ram_r (n a : Z) : DM G D Z := l ← ram_bytes a n; mret (le_val l).
Definition ram_put (a : Z) (l : list Z) : DM G D unit := λ s,
  (Ok tt, mkDrv (dv_glob s) (write_bytes (dv_ram s) a l) (dv_dev s) (dv_pmm s)).
Definition ram_w (n a v : Z) : DM G D unit := ram_put a (le_bytes (Z.to_nat n) v).

Definition glob {A} (f : G → A) : DM G D A := gets (λ s, f (dv_glob s)).
Definition set_glob (f : G → G) : DM G D unit :=
  modify (λ s, mkDrv (f (dv_glob s)) (dv_ram s) (dv_dev s) (dv_pmm s)).

(** The page allocator; [alloc_zero] clears the page, [alloc_n] does not. *)
Definition with_pmm {A} (m : SM Pmm A) : DM G D A := λ s,
  let '(r, p) := m (dv_pmm s) in (r, mkDrv (dv_glob s) (dv_ram s) (dv_dev s) p).
Definition page_zero : DM G D Z := pa ← with_pmm alloc_zero; ram_put pa (zeros 4096);; mret pa.
Definition pages (n : Z) : DM G D Z := with_pmm (alloc_n n).
Definition page_free (pa : Z) : DM G D unit := with_pmm (free pa).

(** [while cond() { t -= 1 }] from [t]: what is left of [t]. *)
Fixpoint spin (t : nat) (cond : DM G D bool) : DM G D Z :=
  match t with
  | O => mret 0
  | S t' => b ← cond; if b : bool then spin t' cond else mret (Z.of_nat t)
  end.
(** [while cond() {}]; looking [fuel] times is looking forever. *)
Fixpoint wait (fuel : nat) (cond : DM G D bool) : DM G D unit :=
  match fuel with
  | O => panic
  | S fuel => b ← cond; if b : bool then wait fuel cond else mret tt
  end.

Fixpoint each {A} (l : list A) (f : A → DM G D unit) : DM G D unit :=
  match l with [] => mret tt | x :: l => f x;; each l f end.
End Access.

(** [m.is_err()]: an error is an answer, its effects stay. *)
Definition attempt {S A} (m : SM S A) : SM S (option A) := λ s,
  match m s with
  | (Ok a, s') => (Ok (Some a), s')
  | (Err _, s') => (Ok None, s')
  | (Panic, s') => (Panic, s')
  end.

(** The globals of a driver that another one contains. *)
Definition zoom {G H D A} (get : H → G) (set : G → H → H) (m : DM G D A) : DM H D A := λ s,
  let '(r, t) := m (mkDrv (get (dv_glob s)) (dv_ram s) (dv_dev s) (dv_pmm s)) in
  (r, mkDrv (set (dv_glob t) (dv_glob s)) (dv_ram t) (dv_dev t) (dv_pmm t)).

(** [x as u32], [(x >> 32) as u32] *)
Definition lo32 (x : Z) : Z := w32 x.
Definition hi32 (x : Z) : Z := w32 (Z.shiftr x 32).
(** [x & !b] of a 32-bit [x] *)
Definition clear32 (x b : Z) : Z := Z.land x (4294967295 - b).

(** ** Memory as drivers use it: what a write does to later reads *)


Lemma byte_write l : ∀ m a q,
  byte (write_bytes m a l) q = match (if a <=? q then l !! Z.to_nat (q - a) else None) with Some b => b | None => byte m q end.
Proof.
  induction l as [|b l IH]; intros m a q; cbn [write_bytes].
  { by destruct (a <=? q). }
  rewrite IH. unfold byte at 1. destruct (Z.leb_spec a q), (Z.leb_spec (a + 1) q); try lia.
  - replace (Z.to_nat (q - a)) with (S (Z.to_nat (q - (a + 1)))) by lia. cbn [lookup list_lookup].
    destruct (l !! _); [done|]. by rewrite lookup_insert_ne by lia.
  - replace q with a by lia. rewrite Z.sub_diag. cbn. by rewrite lookup_insert_eq.
  - by rewrite lookup_insert_ne by lia.
Qed.

Lemma byte_write_out m a l q : q < a ∨ a + len l ≤ q → byte (write_bytes m a l) q = byte m q.
Proof.
  intros Hq. rewrite byte_write. destruct (Z.leb_spec a q); [|done].
  rewrite lookup_ge_None_2; [done|]. unfold len in Hq. lia.
Qed.

Lemma length_bytes m a n : length (bytes m a n) = Z.to_nat n.
Proof. unfold bytes. by rewrite length_fmap, length_seq. Qed.
Lemma len_bytes m a n : 0 ≤ n → len (bytes m a n) = n.
Proof. intros. unfold len. rewrite length_bytes. lia. Qed.

Lemma lookup_bytes m a n (i : nat) : (i < Z.to_nat n)%nat → bytes m a n !! i = Some (byte m (a + Z.of_nat i)).
Proof. intros Hi. unfold bytes. by rewrite list_lookup_fmap, lookup_seq_lt. Qed.

Lemma bytes_ext m m' a a' n :
  (∀ i, 0 ≤ i < n → byte m (a + i) = byte m' (a' + i)) → bytes m a n = bytes m' a' n.
Proof.
  intros H. apply list_eq_same_length with (Z.to_nat n); rewrite ?length_bytes; [done..|].
  intros i x y Hi Hx Hy. rewrite lookup_bytes in Hx, Hy by lia. simplify_eq. apply H. lia.
Qed.

Lemma bytes_write_out m a l q n : q + n ≤ a ∨ a + len l ≤ q → bytes (write_bytes m a l) q n = bytes m q n.
Proof. intros H. apply bytes_ext. intros i Hi. apply byte_write_out. lia. Qed.

Lemma bytes_write_in m a l q n :
  a ≤ q → 0 ≤ n → q + n ≤ a + len l → bytes (write_bytes m a l) q n = rd (q - a) n l.
Proof.
  intros H1 H2 H3. apply list_eq_same_length with (Z.to_nat n).
  - unfold rd, len in *. rewrite length_take, length_drop. lia.
  - by rewrite length_bytes.
  - intros i x y Hi Hx Hy. rewrite lookup_bytes in Hx by lia. injection Hx as <-.
    unfold rd in Hy. rewrite lookup_take_lt, lookup_drop in Hy by lia. rewrite byte_write.
    rewrite (proj2 (Z.leb_le _ _)) by lia.
    replace (Z.to_nat (q + Z.of_nat i - a)) with (Z.to_nat (q - a) + i)%nat by lia. by rewrite Hy.
Qed.

Lemma bytes_write_same m a l : bytes (write_bytes m a l) a (len l) = l.
Proof.
  rewrite bytes_write_in by (pose proof (len_nonneg l); lia). rewrite Z.sub_diag.
  unfold rd, len. rewrite drop_0, Nat2Z.id. by apply take_ge.
Qed.

Lemma word_write_out m a l n q : q + n ≤ a ∨ a + len l ≤ q → word (write_bytes m a l) n q = word m n q.
Proof. intros H. unfold word. by rewrite bytes_write_out. Qed.

Lemma word_write_same m a n v : 0 ≤ n → 0 ≤ v < 256 ^ n → word (write_bytes m a (le_bytes (Z.to_nat n) v)) n a = v.
Proof.
  intros Hn Hv. unfold word.
  replace (bytes _ a n) with (bytes (write_bytes m a (le_bytes (Z.to_nat n) v)) a (len (le_bytes (Z.to_nat n) v)))
    by (f_equal; rewrite len_le_bytes; lia).
  rewrite bytes_write_same. apply le_val_bytes_id. by rewrite Z2Nat.id by lia.
Qed.

(** Memory that agrees on a set of addresses. *)
Definition same_on (P : Z → Prop) (m m' : ram) : Prop := ∀ q, P q → byte m' q = byte m q.
Lemma same_on_refl P m : same_on P m m.
Proof. done. Qed.
Lemma same_on_trans P m1 m2 m3 : same_on P m1 m2 → same_on P m2 m3 → same_on P m1 m3.
Proof. intros H1 H2 q Hq. rewrite H2, H1 by done. done. Qed.
Lemma same_on_write P m a l : (∀ q, P q → q < a ∨ a + len l ≤ q) → same_on P m (write_bytes m a l).
Proof. intros H q Hq. by apply byte_write_out, H. Qed.
Lemma same_on_bytes P m m' a n : same_on P m m' → (∀ i, 0 ≤ i < n → P (a + i)) → bytes m' a n = bytes m a n.
Proof. intros H HP. apply bytes_ext. intros i Hi. apply H. auto. Qed.
Lemma same_on_word P m m' a n : same_on P m m' → (∀ i, 0 ≤ i < n → P (a + i)) → word m' n a = word m n a.
Proof. intros H HP. unfold word. by rewrite (same_on_bytes _ _ _ _ _ H HP). Qed.

(** ** Steps of a driver *)

Section Steps.
Context {G D : Type} `{!Device D}.
Implicit Types (g : G) (m : ram) (d : D) (p : Pmm).

Lemma wp_ram_put a l Q g m d p :
  Q tt (mkDrv g (write_bytes m a l) d p) → wp (ram_put a l) Q (mkDrv g m d p).
Proof. done. Qed.
Lemma wp_ram_w n a v Q g m d p :
  Q tt (mkDrv g (write_bytes m a (le_bytes (Z.to_nat n) v)) d p) → wp (ram_w n a v) Q (mkDrv g m d p).
Proof. done. Qed.
Lemma wp_ram_bytes a n Q g m d p m' d' :
  dev_run m d = (m', d') → Q (bytes m' a n) (mkDrv g m' d' p) → wp (ram_bytes a n) Q (mkDrv g m d p).
Proof. intros Hr HQ. unfold wp, ram_bytes. cbn. by rewrite Hr. Qed.
Lemma wp_ram_r n a Q g m d p m' d' :
  dev_run m d = (m', d') → Q (word m' n a) (mkDrv g m' d' p) → wp (ram_r n a) Q (mkDrv g m d p).
Proof. intros Hr HQ. apply wp_bind. by eapply wp_ram_bytes. Qed.
Lemma wp_mmio_w n a v Q g m d p m' d' :
  dev_store n a v m d = (m', d') → Q tt (mkDrv g m' d' p) → wp (mmio_w n a v) Q (mkDrv g m d p).
Proof. intros Hr HQ. unfold wp, mmio_w. cbn. by rewrite Hr. Qed.
Lemma wp_glob {A} (f : G → A) Q g m d p : Q (f g) (mkDrv g m d p) → wp (glob f) Q (mkDrv g m d p).
Proof. done. Qed.
Lemma wp_set_glob f (Q : unit → Drv G D → Prop) g m d p :
  Q tt (mkDrv (f g) m d p) → wp (set_glob f) Q (mkDrv g m d p).
Proof. done. Qed.
End Steps.

(** Step through the accesses that do not depend on the device. *)
Ltac drv_step :=
  cbv beta;
  lazymatch goal with
  | |- wp (_ ≫= _) _ _ => apply wp_bind
  | |- wp (ram_w _ _ _) _ _ => apply wp_ram_w
  | |- wp (ram_put _ _) _ _ => apply wp_ram_put
  | |- wp (glob _) _ _ => apply wp_glob
  | |- wp (set_glob _) _ _ => apply wp_set_glob
  | |- wp (mret _) _ _ => apply wp_ret
  end.
Ltac drv := repeat drv_step.

(** ** Outcomes: what an operation answers and leaves, errors included *)

Definition outcome {S A} (m : SM S A) (Q : result A → S → Prop) (s : S) : Prop := Q (m s).1 (m s).2.

Section Outcome.
Context {S : Type}.

Lemma outcome_step {A B} (m : SM S A) (f : A → SM S B) Q s :
  wp m (λ a, outcome (f a) Q) s → outcome (m ≫= f) Q s.
Proof. unfold wp, outcome, mbind, SM_bind. by destruct (m s) as [[a|e|] s']. Qed.
Lemma outcome_bind {A B} (m : SM S A) (f : A → SM S B) Q s :
  outcome m (λ r s', match r with Ok a => outcome (f a) Q s' | Err e => Q (Err e) s' | Panic => Q Panic s' end) s →
  outcome (m ≫= f) Q s.
Proof. unfold outcome, mbind, SM_bind. by destruct (m s) as [[a|e|] s']. Qed.
(** Three steps of one lemma. *)
Lemma outcome_step3 {A B C E} (a : SM S A) (b : SM S B) (c : SM S C) (f : C → SM S E) Q s :
  wp (a;; b;; c) (λ x, outcome (f x) Q) s → outcome (a;; b;; x ← c; f x) Q s.
Proof.
  unfold wp, outcome, mbind, SM_bind. destruct (a s) as [[?|e|] s1]; [|done..].
  destruct (b s1) as [[?|e|] s2]; [|done..]. by destruct (c s2) as [[?|e|] s3].
Qed.
Lemma outcome_ret {A} (a : A) Q s : Q (Ok a) s → outcome (mret a : SM S A) Q s.
Proof. done. Qed.
Lemma outcome_fail {A} e (Q : result A → S → Prop) s : Q (Err e) s → outcome (fail e) Q s.
Proof. done. Qed.
Lemma outcome_wp {A} (m : SM S A) Q s : wp m (λ a, Q (Ok a)) s → outcome m Q s.
Proof. unfold wp, outcome. by destruct (m s) as [[a|e|] s']. Qed.
Lemma outcome_mono {A} (m : SM S A) (P Q : result A → S → Prop) s :
  outcome m P s → (∀ r s', P r s' → Q r s') → outcome m Q s.
Proof. unfold outcome. auto. Qed.
End Outcome.
