(* ===== verification/Virtio.v ===== *)
(** * drivers/virtio and virtio_req.rs: the virtio block device

    The virtqueue and the request are structures in RAM, read and written at the
    offsets that their representation gives them. [submit_and_wait] polls the used
    index; a device that does not answer within [fuel] looks is one that hangs. *)

From S2P Require Import Prelude Pmm Bus.
From stdpp Require Import base list numbers gmap.
From Stdlib Require Import ZArith Lia.

Open Scope Z_scope.

(** ** virtio/mod.rs *)

Definition VIRTIO_MAX_DEVS : Z := 4.
Definition VIRTIO_BLK_SECTOR : Z := 512.
Definition VIRTQ_SIZE : Z := 256.
Definition R_MAGIC_VALUE : Z := 0x00.
Definition R_VERSION : Z := 0x04.
Definition R_DEVICE_ID : Z := 0x08.
Definition R_HOST_FEATURES : Z := 0x10.
Definition R_GUEST_FEATURES : Z := 0x14.
Definition R_QUEUE_SEL : Z := 0x30.
Definition R_QUEUE_NUM : Z := 0x38.
Definition R_QUEUE_ALIGN : Z := 0x3C.
Definition R_QUEUE_PFN : Z := 0x40.
Definition R_QUEUE_NOTIFY : Z := 0x50.
Definition R_STATUS : Z := 0x70.
Definition R_QUEUE_DESC_LOW : Z := 0x80.
Definition R_QUEUE_DESC_HIGH : Z := 0x84.
Definition R_QUEUE_AVAIL_LOW : Z := 0x90.
Definition R_QUEUE_AVAIL_HIGH : Z := 0x94.
Definition R_QUEUE_USED_LOW : Z := 0xA0.
Definition R_QUEUE_USED_HIGH : Z := 0xA4.
Definition R_QUEUE_ENABLE : Z := 0xB0.
Definition VIRTIO_S_ACK : Z := 1.
Definition VIRTIO_S_DRIVER : Z := 2.
Definition VIRTIO_S_DRIVER_OK : Z := 4.
Definition VIRTIO_S_FEATURES_OK : Z := 8.
Definition VIRTIO_ID_BLK : Z := 2.
Definition VIRTIO_BLK_T_IN : Z := 0.
Definition VIRTIO_BLK_T_OUT : Z := 1.
Definition VIRTIO_BLK_S_OK : Z := 0.
Definition VQ_DESC_F_NEXT : Z := 1.
Definition VQ_DESC_F_WRITE : Z := 2.
Definition MAGIC : Z := 0x74726976.

(** [VqDesc], 16 bytes; [VqAvail] and [VqUsed]: [flags] at 0, [idx] at 2, [ring] at 4,
    with entries of 2 and of 8 bytes. [BlkReq]: type at 0, sector at 8, data at 16,
    status at 528. *)
Record VqDesc := mkVqDesc { vd_addr : Z; vd_len : Z; vd_flags : Z; vd_next : Z }.
Definition desc_bytes (d : VqDesc) : list Z :=
  le_bytes 8 (vd_addr d) ++ le_bytes 4 (vd_len d) ++ le_bytes 2 (vd_flags d) ++ le_bytes 2 (vd_next d).

Record VirtioBlkDev := mkBlkDev {
  bd_base : Z; bd_modern : bool; bd_version : Z; bd_desc : Z; bd_avail : Z; bd_used : Z;
  bd_last_used : Z; bd_req_buf : Z }.
Definition no_dev : VirtioBlkDev := mkBlkDev 0 false 0 0 0 0 0 0.

(** [G_DEVS], [G_NDEVS] *)
Record Blk := mkBlk { bk_devs : list VirtioBlkDev; bk_ndevs : Z }.
Definition blk_new : Blk := mkBlk (replicate 4 no_dev) 0.

Section Registers.
Context {G D : Type} `{!Device D}.

Definition reg_w (base off v : Z) : DM G D unit := mmio_w 4 (base + off) v.
Definition reg_r (base off : Z) : DM G D Z := mmio_r 4 (base + off).

(** Descriptor [i] of the table. *)
Definition put_desc (desc i : Z) (d : VqDesc) : DM G D unit := ram_put (desc + 16 * i) (desc_bytes d).

Definition probe_id (id base : Z) : DM G D bool :=
  magic ← reg_r base R_MAGIC_VALUE;
  if negb (magic =? MAGIC) then mret false else
  i ← reg_r base R_DEVICE_ID; mret (i =? id).

(** Where the device finds its queue. *)
Definition set_queue (base desc avail used : Z) : DM G D unit :=
  reg_w base R_QUEUE_DESC_LOW (lo32 desc);; reg_w base R_QUEUE_DESC_HIGH (hi32 desc);;
  reg_w base R_QUEUE_AVAIL_LOW (lo32 avail);; reg_w base R_QUEUE_AVAIL_HIGH (hi32 avail);;
  reg_w base R_QUEUE_USED_LOW (lo32 used);; reg_w base R_QUEUE_USED_HIGH (hi32 used);;
  reg_w base R_QUEUE_ENABLE 1.

(** Reset, acknowledge and negotiate features. *)
Definition negotiate (base : Z) (modern : bool) : DM G D unit :=
  reg_w base R_STATUS 0;;
  reg_w base R_STATUS (Z.lor VIRTIO_S_ACK VIRTIO_S_DRIVER);;
  host_feat ← reg_r base R_HOST_FEATURES;
  reg_w base R_GUEST_FEATURES (Z.land host_feat 0x1FFFFFFF);;
  if modern then
    reg_w base R_STATUS (Z.lor (Z.lor VIRTIO_S_ACK VIRTIO_S_DRIVER) VIRTIO_S_FEATURES_OK);;
    st ← reg_r base R_STATUS;
    if Z.land st VIRTIO_S_FEATURES_OK =? 0 then fail Inval else mret tt
  else mret tt.
Definition driver_ok (base : Z) : DM G D unit :=
  reg_w base R_STATUS (Z.lor (Z.lor VIRTIO_S_ACK VIRTIO_S_DRIVER) VIRTIO_S_DRIVER_OK).

(** Make descriptor [i] available: the entry, then the index. *)
Definition push_ring (avail i : Z) : DM G D unit :=
  idx ← ram_r 2 (avail + 2);
  ram_w 2 (avail + 4 + 2 * (idx mod VIRTQ_SIZE)) i;;
  ram_w 2 (avail + 2) ((idx + 1) mod 65536).
End Registers.

(** ** virtio/queue.rs *)

Section Blk.
Context {D : Type} `{!Device D}.
Abbreviation M := (DM Blk D).

Definition blk_probe (base : Z) : M bool := probe_id VIRTIO_ID_BLK base.

Definition get_dev (i : Z) : M VirtioBlkDev := g ← glob bk_devs; lift (idx g i).
Definition put_dev (i : Z) (d : VirtioBlkDev) : M unit :=
  g ← glob bk_devs; l ← lift (set_idx g i d); set_glob (λ b, mkBlk l (bk_ndevs b)).

Definition blk_setup_queue (i : Z) : M unit :=
  dev ← get_dev i;
  let base := bd_base dev in
  reg_w base R_QUEUE_SEL 0;;
  reg_w base R_QUEUE_NUM VIRTQ_SIZE;;
  if bd_modern dev then
    desc ← page_zero; avail ← page_zero; used ← page_zero; req ← page_zero;
    put_dev i (mkBlkDev base true (bd_version dev) desc avail used 0 req);;
    set_queue base desc avail used
  else
    contig ← pages 3;
    req ← page_zero;
    put_dev i (mkBlkDev base false (bd_version dev) contig (contig + 4096) (contig + 2 * 4096) 0 req);;
    reg_w base R_QUEUE_ALIGN 4096;;
    reg_w base R_QUEUE_PFN (lo32 (contig / 4096)).

Definition blk_init (base : Z) : M Z :=
  n ← glob bk_ndevs;
  if VIRTIO_MAX_DEVS <=? n then fail NoMem else
  version ← reg_r base R_VERSION;
  let modern := 2 <=? version in
  put_dev n (mkBlkDev base modern version 0 0 0 0 0);;
  negotiate base modern;;
  blk_setup_queue n;;
  driver_ok base;;
  set_glob (λ b, mkBlk (bk_devs b) (bk_ndevs b + 1));;
  mret n.

Definition blk_count : M Z := glob bk_ndevs.
Definition blk_dev (i : Z) : M (option VirtioBlkDev) :=
  n ← glob bk_ndevs; if i <? n then Some <$> get_dev i else mret None.

(** ** virtio_req.rs *)

(** The header of the request; the status is set to a value that no device gives. *)
Definition fill_request (req req_type sector : Z) : M unit :=
  ram_w 4 req req_type;; ram_w 4 (req + 4) 0;; ram_w 8 (req + 8) sector;; ram_w 1 (req + 528) 255.

(** Header, data and status as a chain of three descriptors. *)
Definition fill_chain (desc req req_type : Z) : M unit :=
  put_desc desc 0 (mkVqDesc req 16 VQ_DESC_F_NEXT 1);;
  let data_flags :=
    if req_type =? VIRTIO_BLK_T_IN then Z.lor VQ_DESC_F_NEXT VQ_DESC_F_WRITE else VQ_DESC_F_NEXT in
  put_desc desc 1 (mkVqDesc (req + 16) VIRTIO_BLK_SECTOR data_flags 2);;
  put_desc desc 2 (mkVqDesc (req + (16 + VIRTIO_BLK_SECTOR)) 1 VQ_DESC_F_WRITE 0).

Definition submit_and_wait (fuel : nat) (dev_idx req_type sector : Z) : M unit :=
  dev ← get_dev dev_idx;
  let req := bd_req_buf dev in
  fill_request req req_type sector;;
  fill_chain (bd_desc dev) req req_type;;
  push_ring (bd_avail dev) 0;;
  reg_w (bd_base dev) R_QUEUE_NOTIFY 0;;
  wait fuel (u ← ram_r 2 (bd_used dev + 2); mret (u =? bd_last_used dev));;
  u ← ram_r 2 (bd_used dev + 2);
  put_dev dev_idx (mkBlkDev (bd_base dev) (bd_modern dev) (bd_version dev) (bd_desc dev) (bd_avail dev)
                     (bd_used dev) u req);;
  st ← ram_r 1 (req + 528);
  if st =? VIRTIO_BLK_S_OK then mret tt else fail Io.

(** Copies between RAM; [n] bytes that do not overlap. *)
Definition ram_copy (dst src n : Z) : M unit := l ← ram_bytes src n; ram_put dst l.

Definition blk_read (fuel : nat) (dev_idx lba buf : Z) : M unit :=
  submit_and_wait fuel dev_idx VIRTIO_BLK_T_IN lba;;
  dev ← get_dev dev_idx;
  ram_copy buf (bd_req_buf dev + 16) VIRTIO_BLK_SECTOR.
Definition blk_write (fuel : nat) (dev_idx lba buf : Z) : M unit :=
  dev ← get_dev dev_idx;
  ram_copy (bd_req_buf dev + 16) buf VIRTIO_BLK_SECTOR;;
  submit_and_wait fuel dev_idx VIRTIO_BLK_T_OUT lba.

(** [for i in 0..n_sectors] *)
Fixpoint blk_read_multi (fuel : nat) (dev_idx lba i : Z) (n : nat) (buf : Z) : M unit :=
  match n with
  | O => mret tt
  | S n =>
      blk_read fuel dev_idx (w64 (lba + i)) (buf + i * VIRTIO_BLK_SECTOR);;
      blk_read_multi fuel dev_idx lba (i + 1) n buf
  end.
Fixpoint blk_write_multi (fuel : nat) (dev_idx lba i : Z) (n : nat) (buf : Z) : M unit :=
  match n with
  | O => mret tt
  | S n =>
      blk_write fuel dev_idx (w64 (lba + i)) (buf + i * VIRTIO_BLK_SECTOR);;
      blk_write_multi fuel dev_idx lba (i + 1) n buf
  end.
End Blk.
