(* ===== verification/VirtioProps.v ===== *)
(** * drivers/virtio_req.rs: the driver of a block device implements a disk

    [BlkDevice] is what the virtio standard promises of a block device: when it is
    notified of a request it carries it out as [serve] says and then advances the
    used index; until then it leaves memory alone. *)

From S2P Require Import Prelude Pmm Bus Virtio.
From S2P Require Onyxfs.
From stdpp Require Import base list numbers gmap.
From Stdlib Require Import ZArith Lia.

Open Scope Z_scope.

(** ** The device *)

Record Queue := mkQueue { q_base : Z; q_desc : Z; q_avail : Z; q_used : Z }.

Definition desc_at (m : ram) (desc i : Z) : VqDesc :=
  let a := desc + 16 * i in
  mkVqDesc (word m 8 a) (word m 4 (a + 8)) (word m 2 (a + 12)) (word m 2 (a + 14)).

(** The used entry and the index that follows it. *)
Definition finish (q : Queue) (served head written : Z) (m : ram) : ram :=
  write_bytes (write_bytes m (q_used q + 4 + 8 * (served mod 256)) (le_bytes 4 head ++ le_bytes 4 written))
    (q_used q + 2) (le_bytes 2 ((served + 1) mod 65536)).

(** A request of the shape the standard asks for: a header of 16 bytes, a sector of
    data, a status byte. *)
Definition serve (q : Queue) (served : Z) (sectors : gmap Z (list Z)) (m : ram) : option (ram * gmap Z (list Z)) :=
  let head := word m 2 (q_avail q + 4 + 2 * (served mod 256)) in
  let d0 := desc_at m (q_desc q) head in
  let d1 := desc_at m (q_desc q) (vd_next d0) in
  let d2 := desc_at m (q_desc q) (vd_next d1) in
  let type := word m 4 (vd_addr d0) in
  let sec := word m 8 (vd_addr d0 + 8) in
  if negb ((vd_len d0 =? 16) && (vd_len d1 =? 512) && (vd_len d2 =? 1)
           && (vd_flags d0 =? VQ_DESC_F_NEXT) && (vd_flags d2 =? VQ_DESC_F_WRITE)) then None else
  match sectors !! sec with
  | None => Some (finish q served head 1 (write_bytes m (vd_addr d2) [1]), sectors)
  | Some data =>
      if (type =? VIRTIO_BLK_T_IN) && (vd_flags d1 =? Z.lor VQ_DESC_F_NEXT VQ_DESC_F_WRITE) then
        Some (finish q served head 513 (write_bytes (write_bytes m (vd_addr d1) data) (vd_addr d2) [0]), sectors)
      else if (type =? VIRTIO_BLK_T_OUT) && (vd_flags d1 =? VQ_DESC_F_NEXT) then
        Some (finish q served head 1 (write_bytes m (vd_addr d2) [0]), <[sec := bytes m (vd_addr d1) 512]> sectors)
      else None
  end.

(** The device looks on [k] times and then changes memory to [m']. *)
Fixpoint works {D} `{!Device D} (k : nat) (m : ram) (d : D) (m' : ram) (d' : D) : Prop :=
  match k with
  | O => dev_run m d = (m', d')
  | S k => ∃ d1, dev_run m d = (m, d1) ∧ works k m d1 m' d'
  end.

Class BlkDevice (D : Type) `{!Device D} (q : Queue) := {
  bl_idle : D → Prop;
  bl_sectors : D → gmap Z (list Z);
  bl_served : D → Z;
  bl_latency : nat;
  bl_sizes d lba data : bl_idle d → bl_sectors d !! lba = Some data → len data = 512;
  bl_quiet m d : bl_idle d → dev_run m d = (m, d);
  bl_notify m d m' sectors' :
    bl_idle d → word m 2 (q_avail q + 2) = (bl_served d + 1) mod 65536 →
    serve q (bl_served d) (bl_sectors d) m = Some (m', sectors') →
    ∃ d1 d' k, dev_store 4 (q_base q + R_QUEUE_NOTIFY) 0 m d = (m, d1) ∧ (k ≤ bl_latency)%nat ∧ works k m d1 m' d' ∧
      bl_idle d' ∧ bl_sectors d' = sectors' ∧ bl_served d' = (bl_served d + 1) mod 65536 }.

(** ** Requests in memory *)

Definition apart (x y : Z) : Prop := x + 4096 ≤ y ∨ y + 4096 ≤ x.
(** The four pages of a device lie apart and within 64 bits. *)
Definition pages_ok (q : Queue) (req : Z) : Prop :=
  apart (q_desc q) (q_avail q) ∧ apart (q_desc q) (q_used q) ∧ apart (q_desc q) req ∧
  apart (q_avail q) (q_used q) ∧ apart (q_avail q) req ∧ apart (q_used q) req ∧
  0 ≤ req < 18446744073709551616 - 4096.

Lemma word_desc m a d f n :
  (f = 0 ∧ n = 8 ∨ f = 8 ∧ n = 4 ∨ f = 12 ∧ n = 2 ∨ f = 14 ∧ n = 2) →
  word (write_bytes m a (desc_bytes d)) n (a + f) = le_val (rd f n (desc_bytes d)).
Proof.
  intros Hf. unfold word. rewrite bytes_write_in; [by rewrite Z.add_simpl_l|lia|lia|].
  unfold desc_bytes. rewrite !len_app, !len_le_bytes. lia.
Qed.

Definition desc_fits (d : VqDesc) : Prop := u64 (vd_addr d) ∧ u32 (vd_len d) ∧ u16 (vd_flags d) ∧ u16 (vd_next d).

Lemma desc_at_put m desc i d : desc_fits d → desc_at (write_bytes m (desc + 16 * i) (desc_bytes d)) desc i = d.
Proof.
  intros (Ha & Hl & Hf & Hn). unfold desc_at.
  rewrite <-(Z.add_0_r (desc + 16 * i)) at 2. rewrite !word_desc by lia. destruct d as [a l f n]. cbn [vd_addr vd_len vd_flags vd_next] in *.
  unfold desc_bytes. cbn [vd_addr vd_len vd_flags vd_next].
  change (rd 0 8 _) with (le_bytes 8 a). change (rd 8 4 _) with (le_bytes 4 l).
  change (rd 12 2 _) with (le_bytes 2 f). change (rd 14 2 _) with (le_bytes 2 n).
  by rewrite !le_val_bytes_id.
Qed.

Lemma desc_at_same P m m' desc i :
  same_on P m m' → (∀ j, 0 ≤ j < 16 → P (desc + 16 * i + j)) → desc_at m' desc i = desc_at m desc i.
Proof.
  intros H HP. unfold desc_at. f_equal; apply (same_on_word P _ _ _ _ H); intros j Hj;
    rewrite <-?Z.add_assoc; rewrite ?(Z.add_assoc desc); apply HP; lia.
Qed.

(** The flags of the data descriptor. *)
Definition data_flags (type : Z) : Z :=
  if type =? VIRTIO_BLK_T_IN then Z.lor VQ_DESC_F_NEXT VQ_DESC_F_WRITE else VQ_DESC_F_NEXT.

Lemma data_flags_small type : 0 ≤ data_flags type < 4.
Proof. unfold data_flags. destruct (type =? VIRTIO_BLK_T_IN); by vm_compute. Qed.

(** What the device finds when it is notified. *)
Record posted (q : Queue) (req type sector served : Z) (m : ram) : Prop := {
  po_idx : word m 2 (q_avail q + 2) = (served + 1) mod 65536;
  po_head : word m 2 (q_avail q + 4 + 2 * (served mod 256)) = 0;
  po_d0 : desc_at m (q_desc q) 0 = mkVqDesc req 16 VQ_DESC_F_NEXT 1;
  po_d1 : desc_at m (q_desc q) 1 =
    mkVqDesc (req + 16) 512 (data_flags type) 2;
  po_d2 : desc_at m (q_desc q) 2 = mkVqDesc (req + 528) 1 VQ_DESC_F_WRITE 0;
  po_type : word m 4 req = type;
  po_sector : word m 8 (req + 8) = sector }.

(** The bytes of the driver that a request does not touch. *)
Definition kept (q : Queue) (req : Z) (a : Z) : Prop :=
  ¬ (req ≤ a < req + 16) ∧ a ≠ req + 528 ∧ ¬ (q_desc q ≤ a < q_desc q + 48) ∧ ¬ (q_avail q ≤ a < q_avail q + 4096).

Section Driver.
Context {D : Type} `{!Device D} (q : Queue) `{!BlkDevice D q}.
Abbreviation M := (DM Blk D).

Lemma len_desc_bytes d : len (desc_bytes d) = 16.
Proof. unfold desc_bytes. by rewrite !len_app, !len_le_bytes. Qed.

Lemma wp_fill_request req type sector g m d p (Q : unit → Drv Blk D → Prop) :
  u32 type → u64 sector →
  (∀ m1, word m1 4 req = type → word m1 8 (req + 8) = sector →
     same_on (λ a, ¬ (req ≤ a < req + 16) ∧ a ≠ req + 528) m m1 → Q tt (mkDrv g m1 d p)) →
  wp (fill_request req type sector) Q (mkDrv g m d p).
Proof.
  intros Ht Hs HQ. unfold fill_request. drv. apply HQ.
  - rewrite !word_write_out by (rewrite len_le_bytes; lia). apply word_write_same; [lia|exact Ht].
  - rewrite word_write_out by (rewrite len_le_bytes; lia). apply word_write_same; [lia|exact Hs].
  - repeat (eapply same_on_trans; [|apply same_on_write; intros a Ha; rewrite len_le_bytes; lia]). apply same_on_refl.
Qed.

Lemma wp_fill_chain req type g m d p (Q : unit → Drv Blk D → Prop) :
  0 ≤ req < 18446744073709551616 - 4096 →
  (∀ m1, desc_at m1 (q_desc q) 0 = mkVqDesc req 16 VQ_DESC_F_NEXT 1 →
     desc_at m1 (q_desc q) 1 = mkVqDesc (req + 16) 512 (data_flags type) 2 →
     desc_at m1 (q_desc q) 2 = mkVqDesc (req + 528) 1 VQ_DESC_F_WRITE 0 →
     same_on (λ a, ¬ (q_desc q ≤ a < q_desc q + 48)) m m1 → Q tt (mkDrv g m1 d p)) →
  wp (fill_chain (q_desc q) req type) Q (mkDrv g m d p).
Proof.
  intros Hr HQ. unfold fill_chain, put_desc. cbv zeta. drv. apply HQ; clear HQ.
  - do 2 (etrans; [eapply (desc_at_same (λ a, a < q_desc q + 16)); [apply same_on_write; intros; rewrite len_desc_bytes; lia|intros; lia]|]).
    apply desc_at_put. unfold desc_fits, u64, u32, u16. cbn. unfold VQ_DESC_F_NEXT. lia.
  - etrans; [eapply (desc_at_same (λ a, a < q_desc q + 32)); [apply same_on_write; intros; rewrite len_desc_bytes; lia|intros; lia]|].
    apply desc_at_put. unfold desc_fits, u64, u32, u16. cbn. unfold VIRTIO_BLK_SECTOR. fold (data_flags type). pose proof (data_flags_small type). lia.
  - apply desc_at_put. unfold desc_fits, u64, u32, u16. cbn. unfold VIRTIO_BLK_SECTOR, VQ_DESC_F_WRITE. lia.
  - repeat (eapply same_on_trans; [|apply same_on_write; intros a Ha; rewrite len_desc_bytes; lia]). apply same_on_refl.
Qed.

Lemma wp_push_ring i served g m d p (Q : unit → Drv Blk D → Prop) :
  bl_idle d → u16 i → word m 2 (q_avail q + 2) = served →
  (∀ m1, word m1 2 (q_avail q + 2) = (served + 1) mod 65536 → word m1 2 (q_avail q + 4 + 2 * (served mod 256)) = i →
     same_on (λ a, ¬ (q_avail q ≤ a < q_avail q + 4096)) m m1 → Q tt (mkDrv g m1 d p)) →
  wp (push_ring (q_avail q) i) Q (mkDrv g m d p).
Proof.
  intros Hid Hi Hs HQ. unfold push_ring. drv. eapply wp_ram_r; [by apply bl_quiet|]. drv. rewrite Hs. unfold VIRTQ_SIZE.
  pose proof (Z.mod_pos_bound served 256 ltac:(lia)). apply HQ; clear HQ.
  - apply word_write_same; [lia|]. apply Z.mod_pos_bound. lia.
  - rewrite word_write_out by (rewrite len_le_bytes; lia). apply word_write_same; [lia|exact Hi].
  - repeat (eapply same_on_trans; [|apply same_on_write; intros a Ha; rewrite len_le_bytes; lia]). apply same_on_refl.
Qed.

Lemma wp_fill req type sector served g m d p Q :
  pages_ok q req → bl_idle d → u16 served → u32 type → u64 sector → word m 2 (q_avail q + 2) = served →
  (∀ m1, posted q req type sector served m1 → same_on (kept q req) m m1 → Q tt (mkDrv g m1 d p)) →
  wp (fill_request req type sector;; fill_chain (q_desc q) req type;; push_ring (q_avail q) 0) Q (mkDrv g m d p).
Proof.
  intros (H1 & H2 & H3 & H4 & H5 & H6 & Hr) Hid Hs Ht Hsec Hidx HQ.
  unfold apart in *.
  apply wp_bind, wp_fill_request; [done..|]. intros m1 Htype Hsector Hm1.
  apply wp_bind, wp_fill_chain; [done|]. intros m2 Hd0 Hd1 Hd2 Hm2.
  apply wp_push_ring with served; [done|unfold u16; lia| |].
  { rewrite (same_on_word _ _ _ _ _ Hm2), (same_on_word _ _ _ _ _ Hm1); [done|intros; lia..]. }
  intros m3 Hi3 Hh3 Hm3. apply HQ.
  - split; [done..| | | | |].
    all: first [rewrite (desc_at_same _ _ _ _ _ Hm3); [done|intros; lia] | rewrite (same_on_word _ _ _ _ _ Hm3), (same_on_word _ _ _ _ _ Hm2); [done|intros; lia..]].
  - unfold kept. intros a (Ha & Hb & Hc & Hd). rewrite Hm3, Hm2, Hm1 by (done || lia). done.
Qed.

(** ** The answer *)

Lemma serve_posted req type sector served sectors m :
  posted q req type sector served m → type = VIRTIO_BLK_T_IN ∨ type = VIRTIO_BLK_T_OUT →
  serve q served sectors m = Some
    match sectors !! sector with
    | None => (finish q served 0 1 (write_bytes m (req + 528) [1]), sectors)
    | Some data =>
        if type =? VIRTIO_BLK_T_IN
        then (finish q served 0 513 (write_bytes (write_bytes m (req + 16) data) (req + 528) [0]), sectors)
        else (finish q served 0 1 (write_bytes m (req + 528) [0]), <[sector := bytes m (req + 16) 512]> sectors)
    end.
Proof.
  intros [_ Hh H0 H1 H2 Ht Hs] Htype. unfold serve. rewrite Hh, H0. cbn [vd_next vd_addr vd_len vd_flags]. rewrite H1.
  cbn [vd_next vd_addr vd_len vd_flags]. rewrite H2. cbn [vd_next vd_addr vd_len vd_flags]. rewrite Ht, Hs.
  rewrite !Z.eqb_refl. cbn [andb negb]. destruct (sectors !! sector); [|done].
  destruct Htype as [-> | ->]; reflexivity.
Qed.

Lemma finish_facts served head n m :
  u16 served →
  word (finish q served head n m) 2 (q_used q + 2) = (served + 1) mod 65536 ∧
  same_on (λ a, ¬ (q_used q ≤ a < q_used q + 4096)) m (finish q served head n m).
Proof.
  intros Hs. unfold finish. pose proof (Z.mod_pos_bound served 256 ltac:(lia)). split.
  - apply (word_write_same _ _ 2); [lia|]. apply Z.mod_pos_bound. lia.
  - repeat (eapply same_on_trans; [|apply same_on_write; intros a Ha; rewrite ?len_app, !len_le_bytes; lia]). apply same_on_refl.
Qed.

Lemma wp_wait k : ∀ fuel a last g m d m' d' p (Q : unit → Drv Blk D → Prop),
  works k m d m' d' → (k < fuel)%nat → word m 2 a = last → word m' 2 a ≠ last →
  Q tt (mkDrv g m' d' p) → wp (wait fuel (u ← ram_r 2 a; mret (u =? last))) Q (mkDrv g m d p).
Proof.
  induction k as [|k IH]; intros fuel a last g m d m' d' p Q Hw Hf Hm Hm' HQ; (destruct fuel as [|fuel]; [lia|]); cbn [wait].
  - cbn [works] in Hw. drv. eapply wp_ram_r; [exact Hw|]. drv. by rewrite (proj2 (Z.eqb_neq _ _) Hm').
  - destruct Hw as (d1 & Hr & Hw). drv. eapply wp_ram_r; [exact Hr|]. drv. rewrite Hm, Z.eqb_refl. eapply IH; eauto. lia.
Qed.

(** ** The state between requests *)

Record ready (i req : Z) (s : Drv Blk D) : Prop := {
  rd_dev : ∃ modern version, idx (bk_devs (dv_glob s)) i =
    Ok (mkBlkDev (q_base q) modern version (q_desc q) (q_avail q) (q_used q) (bl_served (dv_dev s)) req);
  rd_idle : bl_idle (dv_dev s);
  rd_served : u16 (bl_served (dv_dev s));
  rd_avail : word (dv_ram s) 2 (q_avail q + 2) = bl_served (dv_dev s);
  rd_used : word (dv_ram s) 2 (q_used q + 2) = bl_served (dv_dev s) }.

(** Addresses outside of the pages of the driver. *)
Definition outside (req a : Z) : Prop :=
  ¬ (q_desc q ≤ a < q_desc q + 4096) ∧ ¬ (q_avail q ≤ a < q_avail q + 4096) ∧ ¬ (q_used q ≤ a < q_used q + 4096) ∧
  ¬ (req ≤ a < req + 4096).

Lemma u16_succ s : u16 s → u16 ((s + 1) mod 65536) ∧ (s + 1) mod 65536 ≠ s.
Proof. unfold u16. intros Hs. Z.to_euclidean_division_equations. lia. Qed.

Lemma idx_set_idx {A} (l l' : list A) i x : set_idx l i x = Ok l' → idx l' i = Ok x.
Proof.
  unfold set_idx, idx. destruct ((0 <=? i) && (i <? len l)) eqn:E; [|done]. intros [= <-]. bool_prop.
  rewrite (proj2 (Z.ltb_ge _ _)) by lia. rewrite list_lookup_insert_eq; [done|]. unfold len in *. lia.
Qed.
Lemma set_idx_Ok {A} (l : list A) i x y : idx l i = Ok x → ∃ l', set_idx l i y = Ok l'.
Proof.
  unfold set_idx, idx. destruct (Z.ltb_spec i 0); [done|]. destruct (l !! Z.to_nat i) eqn:E; [|done]. intros _.
  apply lookup_lt_Some in E. rewrite (proj2 (Z.leb_le _ _)), (proj2 (Z.ltb_lt _ _)) by (unfold len; lia). simpl. eauto.
Qed.

Lemma wp_put_dev i dev new g m d p (Q : unit → Drv Blk D → Prop) :
  idx (bk_devs g) i = Ok dev →
  (∀ g', idx (bk_devs g') i = Ok new → bk_ndevs g' = bk_ndevs g → Q tt (mkDrv g' m d p)) →
  wp (put_dev i new) Q (mkDrv g m d p).
Proof.
  intros Hi HQ. destruct (set_idx_Ok _ _ _ new Hi) as [l Hl]. unfold put_dev. drv.
  unfold wp, lift. rewrite Hl. cbn. apply HQ; [|done]. cbn. by eapply idx_set_idx.
Qed.
Lemma wp_get_dev i dev g m d p (Q : VirtioBlkDev → Drv Blk D → Prop) :
  idx (bk_devs g) i = Ok dev → Q dev (mkDrv g m d p) → wp (get_dev i) Q (mkDrv g m d p).
Proof. intros Hi HQ. unfold get_dev. drv. unfold wp, lift. by rewrite Hi. Qed.

(** What a request leaves: the sectors, and the data in the buffer of the request. *)
Definition after (type sector req : Z) (m : ram) (sectors : gmap Z (list Z)) (m' : ram) (sectors' : gmap Z (list Z)) : Prop :=
  match sectors !! sector with
  | None => sectors' = sectors
  | Some data =>
      if type =? VIRTIO_BLK_T_IN then sectors' = sectors ∧ bytes m' (req + 16) 512 = data
      else sectors' = <[sector := bytes m (req + 16) 512]> sectors
  end.

Definition present (sectors : gmap Z (list Z)) (sector : Z) : bool := bool_decide (is_Some (sectors !! sector)).

Lemma answer req type sector served sectors m m' sectors' :
  pages_ok q req → posted q req type sector served m → type = VIRTIO_BLK_T_IN ∨ type = VIRTIO_BLK_T_OUT → u16 served →
  (∀ data, sectors !! sector = Some data → len data = 512) → serve q served sectors m = Some (m', sectors') →
  word m' 2 (q_used q + 2) = (served + 1) mod 65536 ∧ word m' 2 (q_avail q + 2) = word m 2 (q_avail q + 2) ∧
  same_on (outside req) m m' ∧ word m' 1 (req + 528) = (if present sectors sector then 0 else 1) ∧
  after type sector req m sectors m' sectors'.
Proof.
  intros (P1 & P2 & P3 & P4 & P5 & P6 & P7) Hpo Htype Hu Hsz Hserve. unfold apart in *.
  rewrite (serve_posted _ _ _ _ sectors _ Hpo Htype) in Hserve. unfold after, present.
  assert (∀ mm n st, (st = 0 ∨ st = 1) → same_on (λ a, ¬ (req + 16 ≤ a < req + 528)) m mm →
    let m2 := finish q served 0 n (write_bytes mm (req + 528) [st]) in
    word m2 2 (q_used q + 2) = (served + 1) mod 65536 ∧ word m2 2 (q_avail q + 2) = word m 2 (q_avail q + 2) ∧
    same_on (outside req) m m2 ∧ word m2 1 (req + 528) = st ∧ bytes m2 (req + 16) 512 = bytes mm (req + 16) 512) as Hgen.
  { intros mm n st Hst Hmm m2.
    destruct (finish_facts served 0 n (write_bytes mm (req + 528) [st]) Hu) as [Hw Hf]. fold m2 in Hw, Hf.
    assert (same_on (λ a, a ≠ req + 528) mm (write_bytes mm (req + 528) [st])) as Hb.
    { apply same_on_write. intros a Ha. change (len [st]) with 1. lia. }
    split_and!; [done| | | |].
    - rewrite (same_on_word _ _ _ _ _ Hf), (same_on_word _ _ _ _ _ Hb), (same_on_word _ _ _ _ _ Hmm); [done|intros; lia..].
    - unfold outside. intros a (A1 & A2 & A3 & A4). rewrite Hf, Hb, Hmm by lia. done.
    - rewrite (same_on_word _ _ _ _ _ Hf) by (intros; lia). unfold word.
      pose proof (bytes_write_same mm (req + 528) [st]) as Hs1. change (len [st]) with 1 in Hs1. rewrite Hs1. change (le_val [st]) with (st + 256 * 0). lia.
    - rewrite (same_on_bytes _ _ _ _ _ Hf), (same_on_bytes _ _ _ _ _ Hb); [done|intros; lia..]. }
  destruct (sectors !! sector) as [data|] eqn:E.
  - rewrite bool_decide_true by eauto. specialize (Hsz _ eq_refl). destruct (type =? VIRTIO_BLK_T_IN); apply (inj Some), pair_equal_spec in Hserve as [<- <-].
    + destruct (Hgen (write_bytes m (req + 16) data) 513 0) as (G1 & G2 & G3 & G4 & G5); [by left| |].
      { apply same_on_write. intros a Ha. lia. }
      split_and!; [done..|]. by rewrite G5, <-Hsz, bytes_write_same.
    + destruct (Hgen m 1 0) as (G1 & G2 & G3 & G4 & G5); [by left|apply same_on_refl|]. done.
  - apply (inj Some), pair_equal_spec in Hserve as [<- <-]. rewrite bool_decide_false by (by intros [? ?]).
    destruct (Hgen m 1 1) as (G1 & G2 & G3 & G4 & G5); [by right|apply same_on_refl|]. done.
Qed.

Lemma submit_spec fuel i req type sector s :
  pages_ok q req → ready i req s → type = VIRTIO_BLK_T_IN ∨ type = VIRTIO_BLK_T_OUT → u64 sector → (bl_latency < fuel)%nat →
  outcome (submit_and_wait fuel i type sector)
    (λ r s', r = (if present (bl_sectors (dv_dev s)) sector then Ok tt else Err Io) ∧ ready i req s' ∧
       dv_pmm s' = dv_pmm s ∧ same_on (outside req) (dv_ram s) (dv_ram s') ∧
       after type sector req (dv_ram s) (bl_sectors (dv_dev s)) (dv_ram s') (bl_sectors (dv_dev s'))) s.
Proof.
  intros Hp [(modern & version & Hdev) Hid Hu Hav Hus] Htype Hsec Hfuel. destruct s as [g m d p]. cbn in *.
  pose proof Hp as (P1 & P2 & P3 & P4 & P5 & P6 & P7). unfold apart in *.
  unfold submit_and_wait. apply outcome_step. eapply wp_get_dev; [exact Hdev|]. cbn [bd_desc bd_avail bd_used bd_base bd_req_buf bd_last_used bd_modern bd_version].
  apply (outcome_step3 (fill_request req type sector) (fill_chain (q_desc q) req type) (push_ring (q_avail q) 0)).
  apply wp_fill with (bl_served d); [done..|destruct Htype as [-> | ->]; unfold u32; vm_compute; intuition congruence|done|done|].
  intros m1 Hpo Hm1. pose proof (po_idx _ _ _ _ _ _ Hpo) as Hi1. pose proof (serve_posted _ _ _ _ (bl_sectors d) _ Hpo Htype) as Hserve.
  match type of Hserve with _ = Some ?x => destruct x as [m' sectors'] eqn:Eo end.
  destruct (answer _ _ _ _ _ _ _ _ Hp Hpo Htype Hu (λ data, bl_sizes d sector data Hid) Hserve) as (Hu' & Ha' & Hout & Hst' & Haft).
  destruct (bl_notify _ _ _ _ Hid Hi1 Hserve) as (d1 & d' & k & Hst & Hk & Hw & Hid' & Hsec' & Hserved').
  apply outcome_step. eapply wp_mmio_w; [exact Hst|].
  destruct (u16_succ _ Hu) as [Hsu Hne]. apply outcome_step. eapply wp_wait; [exact Hw|lia| | |].
  { rewrite (same_on_word _ _ _ _ _ Hm1); [exact Hus|unfold kept; intros; lia]. }
  { by rewrite Hu'. }
  apply outcome_step. eapply wp_ram_r; [by apply bl_quiet|].
  apply outcome_step. eapply wp_put_dev; [exact Hdev|]. intros g' Hg' _.
  apply outcome_step. eapply wp_ram_r; [by apply bl_quiet|]. rewrite Hst'.
  set (Post := λ r s', _). assert (∀ r, r = (if present (bl_sectors d) sector then Ok tt else Err Io) → Post r (mkDrv g' m' d' p)) as HP.
  { intros r ->. unfold Post. cbn. split_and!; [done| |done| |].
    - split; cbn; rewrite ?Hserved'; [|done..|by rewrite Ha'|done]. exists modern, version. by rewrite Hg', Hu'.
    - eapply same_on_trans; [|exact Hout]. intros a Ha. apply Hm1. revert Ha. unfold outside, kept. lia.
    - rewrite Hsec'. revert Haft. unfold after. destruct (bl_sectors d !! sector); [|done].
      destruct (type =? VIRTIO_BLK_T_IN); [done|]. intros ->.
      by rewrite (same_on_bytes _ _ _ (req + 16) 512 Hm1) by (unfold kept; intros; lia). }
  destruct (present (bl_sectors d) sector); [by apply outcome_ret, HP|by apply outcome_fail, HP].
Qed.

(** ** Sectors *)

(** The bytes from [buf] lie outside of the pages of the driver. *)
Definition clear_of (req buf n : Z) : Prop := ∀ j, 0 ≤ j < n → outside req (buf + j).

Lemma wp_ram_copy dst src n g m d p (Q : unit → Drv Blk D → Prop) :
  bl_idle d → Q tt (mkDrv g (write_bytes m dst (bytes m src n)) d p) → wp (ram_copy dst src n) Q (mkDrv g m d p).
Proof. intros Hid HQ. unfold ram_copy. drv. eapply wp_ram_bytes; [by apply bl_quiet|]. by drv. Qed.

Lemma ready_write i req g m d p a l :
  pages_ok q req → ready i req (mkDrv g m d p) →
  (∀ j, 0 ≤ j < len l → outside req (a + j)) ∨ (req ≤ a ∧ a + len l ≤ req + 4096) →
  ready i req (mkDrv g (write_bytes m a l) d p).
Proof.
  intros (P1 & P2 & P3 & P4 & P5 & P6 & P7) [H1 H2 H3 H4 H5] Ha. unfold apart in *. cbn in *.
  assert (∀ x, (q_avail q ≤ x ∧ x + 2 ≤ q_avail q + 4096) ∨ (q_used q ≤ x ∧ x + 2 ≤ q_used q + 4096) →
    word (write_bytes m a l) 2 x = word m 2 x) as Hw.
  { intros x Hx. destruct l as [|b l0] eqn:El; [done|]. rewrite <-El in *. assert (0 < len l) by (rewrite El, len_cons; pose proof (len_nonneg l0); lia).
    clear El. destruct (decide (x + 2 ≤ a ∨ a + len l ≤ x)); [by apply word_write_out|].
    exfalso. destruct Ha as [Ha|Ha]; [|lia]. pose proof (Ha (Z.max x a - a) ltac:(lia)) as Ho. unfold outside in Ho. lia. }
  split; cbn; [done..| |]; (rewrite Hw; [done|lia]).
Qed.

Lemma blk_read_spec fuel i req lba buf s :
  pages_ok q req → ready i req s → u64 lba → (bl_latency < fuel)%nat → clear_of req buf 512 →
  outcome (blk_read fuel i lba buf)
    (λ r s', ready i req s' ∧ bl_sectors (dv_dev s') = bl_sectors (dv_dev s) ∧
       same_on (λ a, outside req a ∧ ¬ (buf ≤ a < buf + 512)) (dv_ram s) (dv_ram s') ∧
       match bl_sectors (dv_dev s) !! lba with
       | Some data => r = Ok tt ∧ bytes (dv_ram s') buf 512 = data
       | None => r = Err Io ∧ same_on (outside req) (dv_ram s) (dv_ram s')
       end) s.
Proof.
  intros Hp Hr Hl Hf Hc. unfold blk_read. apply outcome_bind.
  eapply outcome_mono; [by apply submit_spec; [exact Hp|exact Hr|left; reflexivity|..]|].
  intros r [g m d p] (-> & Hr' & _ & Hs & Haft). unfold after, present in *. rewrite Z.eqb_refl in Haft. cbn [dv_ram dv_dev] in *.
  destruct (bl_sectors (dv_dev s) !! lba) as [data|] eqn:E.
  - rewrite bool_decide_true by eauto. destruct Haft as [Hsec Hdata]. destruct (rd_dev _ _ _ Hr') as (mo & ve & Hdev).
    apply outcome_step. eapply wp_get_dev; [exact Hdev|]. apply outcome_wp, wp_ram_copy; [by apply (rd_idle _ _ _ Hr')|].
    cbn [bd_req_buf]. change VIRTIO_BLK_SECTOR with 512. rewrite Hdata. pose proof (bl_sizes _ _ _ (rd_idle _ _ _ Hr') (eq_trans (f_equal (lookup lba) Hsec) E)) as Hlen.
    split_and!; [|done| |done|].
    + apply ready_write; [done|done|]. left. by rewrite Hlen.
    + eapply same_on_trans; [|apply same_on_write; intros a [_ Ha]; lia]. intros a [Ha _]. by apply Hs.
    + cbn. pose proof (bytes_write_same m buf data) as Hb. by rewrite Hlen in Hb.
  - rewrite bool_decide_false by (by intros [? ?]). cbn. split_and!; [done|done| |done|done]. intros a [Ha _]. by apply Hs.
Qed.

Lemma blk_write_spec fuel i req lba buf s :
  pages_ok q req → ready i req s → u64 lba → (bl_latency < fuel)%nat → clear_of req buf 512 →
  outcome (blk_write fuel i lba buf)
    (λ r s', ready i req s' ∧ same_on (outside req) (dv_ram s) (dv_ram s') ∧
       match bl_sectors (dv_dev s) !! lba with
       | Some _ => r = Ok tt ∧ bl_sectors (dv_dev s') = <[lba := bytes (dv_ram s) buf 512]> (bl_sectors (dv_dev s))
       | None => r = Err Io ∧ bl_sectors (dv_dev s') = bl_sectors (dv_dev s)
       end) s.
Proof.
  intros Hp Hr Hl Hf Hc. unfold blk_write. destruct s as [g m d p]. destruct (rd_dev _ _ _ Hr) as (mo & ve & Hdev).
  apply outcome_step. eapply wp_get_dev; [exact Hdev|]. apply outcome_step, wp_ram_copy; [by apply (rd_idle _ _ _ Hr)|].
  cbn [bd_req_buf dv_ram dv_dev] in *. set (l := bytes m buf 512).
  assert (len l = 512) as Hlen by (by apply len_bytes).
  eapply outcome_mono; [apply (submit_spec _ _ req); [exact Hp| |right; reflexivity|done|done]|].
  - apply ready_write; [done|done|]. right. unfold VIRTIO_BLK_SECTOR. fold l. lia.
  - intros r s' (-> & Hr' & _ & Hs & Haft). cbn [dv_ram dv_dev] in *. unfold after, present in *.
    split; [done|]. split.
    { eapply same_on_trans; [|exact Hs]. apply same_on_write. unfold outside. intros a Ha. unfold VIRTIO_BLK_SECTOR. fold l. lia. }
    destruct (bl_sectors d !! lba) as [data|] eqn:E.
    + rewrite bool_decide_true by eauto. split; [done|]. cbn in Haft. rewrite Haft. f_equal.
      pose proof (bytes_write_same m (req + 16) l) as Hb. by rewrite Hlen in Hb.
    + rewrite bool_decide_false by (by intros [? ?]). done.
Qed.

(** ** Runs of sectors *)

Lemma bytes_wr m buf a l n : 0 ≤ a → a + len l ≤ n → bytes (write_bytes m (buf + a) l) buf n = wr a l (bytes m buf n).
Proof.
  intros Ha Hn. pose proof (len_nonneg l). pose proof (length_bytes m buf n) as Hb.
  apply list_eq_same_length with (Z.to_nat n).
  - pose proof (len_wr a l (bytes m buf n) Ha). rewrite len_bytes in H0 by lia. unfold len in *. lia.
  - by rewrite length_bytes.
  - intros i x y Hi Hx Hy. rewrite lookup_bytes in Hx by lia. injection Hx as <-. rewrite byte_write.
    unfold wr in Hy. unfold len in *.
    destruct (Z.leb_spec (buf + a) (buf + Z.of_nat i)) as [H1|H1].
    + rewrite lookup_app_r in Hy by (rewrite length_take; lia). rewrite length_take in Hy.
      replace (Z.to_nat (buf + Z.of_nat i - (buf + a))) with (i - Z.to_nat a `min` length (bytes m buf n))%nat by lia.
      destruct (decide (i < Z.to_nat a + length l)%nat).
      * rewrite lookup_app_l in Hy by lia. by rewrite Hy.
      * rewrite lookup_app_r, lookup_drop in Hy by lia. rewrite lookup_ge_None_2 by lia.
        rewrite lookup_bytes in Hy by lia. injection Hy as <-. f_equal. lia.
    + rewrite lookup_app_l, lookup_take_lt, lookup_bytes in Hy by (rewrite ?length_take; lia). by injection Hy as <-.
Qed.

(** A disk of the file system that is this device. *)
Definition represents (disk : gmap (Z * Z) (list Z)) (i : Z) (s : Drv Blk D) : Prop :=
  ∀ lba, disk !! (i, lba) = bl_sectors (dv_dev s) !! lba.

Definition in_buf (buf n : Z) (a : Z) : Prop := buf ≤ a < buf + n.

Lemma read_multi_refines fuel i req lba buf L disk (n : nat) : ∀ k s,
  pages_ok q req → ready i req s → (bl_latency < fuel)%nat → clear_of req buf L → represents disk i s →
  0 ≤ lba → 0 ≤ k → lba + k + Z.of_nat n < 18446744073709551616 → (k + Z.of_nat n) * 512 ≤ L →
  outcome (blk_read_multi fuel i lba k n buf)
    (λ r s', ready i req s' ∧ represents disk i s' ∧
       same_on (λ a, outside req a ∧ ¬ in_buf buf L a) (dv_ram s) (dv_ram s') ∧
       Onyxfs.read_multi disk i lba k n (bytes (dv_ram s) buf L) = (r, bytes (dv_ram s') buf L)) s.
Proof.
  induction n as [|n IH]; intros k s Hp Hr Hf Hc Hd H1 H2 H3 H4; cbn [blk_read_multi Onyxfs.read_multi].
  { apply outcome_ret. auto using same_on_refl. }
  rewrite w64_small, (Hd (lba + k)) by lia. apply outcome_bind.
  assert (clear_of req (buf + k * 512) 512) as Hc1.
  { intros j Hj. rewrite <-Z.add_assoc. apply Hc. lia. }
  eapply outcome_mono; [by apply (blk_read_spec fuel i req (lba + k) (buf + k * 512) s Hp Hr); [unfold u64; lia|..]|].
  intros r s1 (Hr1 & Hsec & Hs1 & Hres).
  assert (represents disk i s1) as Hd1 by (intros x; rewrite Hsec; apply Hd).
  assert (same_on (λ a, outside req a ∧ ¬ in_buf buf L a) (dv_ram s) (dv_ram s1)) as Hs1'.
  { intros a [Ha Hb]. apply Hs1. unfold in_buf in Hb. split; [done|]. lia. }
  destruct (bl_sectors (dv_dev s) !! (lba + k)) as [data|] eqn:E.
  - destruct Hres as [-> Hdata]. pose proof (bl_sizes _ _ _ (rd_idle _ _ _ Hr) E) as Hlen.
    eapply outcome_mono; [apply (IH (k + 1) s1); try done; lia|].
    intros r s2 (Hr2 & Hd2 & Hs2 & Heq). split_and!; [done|done|by eapply same_on_trans|].
    rewrite <-Heq. f_equal. rewrite <-(bytes_wr _ _ _ _ _) by (unfold Onyxfs.VIRTIO_BLK_SECTOR; lia).
    apply bytes_ext. intros j Hj. change Onyxfs.VIRTIO_BLK_SECTOR with 512.
    destruct (decide (k * 512 ≤ j < k * 512 + 512)) as [Hin|Hout].
    + assert (bytes (write_bytes (dv_ram s) (buf + k * 512) data) (buf + k * 512) 512 = bytes (dv_ram s1) (buf + k * 512) 512) as Hbb.
      { rewrite Hdata. pose proof (bytes_write_same (dv_ram s) (buf + k * 512) data) as Hw. by rewrite Hlen in Hw. }
      apply (f_equal (λ l, l !! Z.to_nat (j - k * 512))) in Hbb. rewrite !lookup_bytes in Hbb by lia.
      injection Hbb as Hbb. rewrite Z2Nat.id in Hbb by lia. by replace (buf + k * 512 + (j - k * 512)) with (buf + j) in Hbb by lia.
    + rewrite byte_write_out by lia. symmetry. apply Hs1. split; [apply Hc; lia|lia].
  - destruct Hres as [-> Hs]. split_and!; [done|done|done|]. f_equal. symmetry. by apply (same_on_bytes _ _ _ _ _ Hs), Hc.
Qed.

Lemma write_multi_refines fuel i req lba buf L (n : nat) : ∀ k s disk,
  pages_ok q req → ready i req s → (bl_latency < fuel)%nat → clear_of req buf L → represents disk i s →
  0 ≤ lba → 0 ≤ k → lba + k + Z.of_nat n < 18446744073709551616 → (k + Z.of_nat n) * 512 ≤ L →
  outcome (blk_write_multi fuel i lba k n buf)
    (λ r s', ready i req s' ∧ same_on (outside req) (dv_ram s) (dv_ram s') ∧
       ∃ disk', Onyxfs.write_multi i lba k n (bytes (dv_ram s) buf L) disk = (r, disk') ∧ represents disk' i s') s.
Proof.
  induction n as [|n IH]; intros k s disk Hp Hr Hf Hc Hd H1 H2 H3 H4; cbn [blk_write_multi Onyxfs.write_multi].
  { apply outcome_ret. split_and!; [done|apply same_on_refl|eauto]. }
  rewrite w64_small, (Hd (lba + k)) by lia. apply outcome_bind.
  assert (clear_of req (buf + k * 512) 512) as Hc1.
  { intros j Hj. rewrite <-Z.add_assoc. apply Hc. lia. }
  eapply outcome_mono; [by apply (blk_write_spec fuel i req (lba + k) (buf + k * 512) s Hp Hr); [unfold u64; lia|..]|].
  intros r s1 (Hr1 & Hs1 & Hres). destruct (bl_sectors (dv_dev s) !! (lba + k)) as [data|] eqn:E.
  - destruct Hres as [-> Hsec]. change Onyxfs.VIRTIO_BLK_SECTOR with 512.
    assert (rd (k * 512) 512 (bytes (dv_ram s) buf L) = bytes (dv_ram s) (buf + k * 512) 512) as ->.
    { apply list_eq_same_length with (Z.to_nat 512); [by rewrite length_bytes| |].
      - unfold rd. rewrite length_take, length_drop, length_bytes. lia.
      - intros j x y Hj Hx Hy. unfold rd in Hx. rewrite lookup_take_lt, lookup_drop, lookup_bytes in Hx by lia.
        rewrite lookup_bytes in Hy by lia. simplify_eq. f_equal. lia. }
    eapply outcome_mono; [apply (IH (k + 1) s1 (<[(i, lba + k) := bytes (dv_ram s) (buf + k * 512) 512]> disk)); try done; [|lia..]|].
    + intros x. rewrite Hsec. destruct (decide (x = lba + k)) as [->|Hx]; [by rewrite !lookup_insert_eq|].
      rewrite !lookup_insert_ne by congruence. apply Hd.
    + intros r s2 (Hr2 & Hs2 & disk' & Heq & Hd2). split_and!; [done|by eapply same_on_trans|]. exists disk'. split; [|done].
      rewrite <-Heq. f_equal. symmetry. by apply (same_on_bytes _ _ _ _ _ Hs1), Hc.
  - destruct Hres as [-> Hsec]. split_and!; [done|done|]. exists disk. split; [done|]. intros x. rewrite Hsec. apply Hd.
Qed.
End Driver.

(** ** A device that keeps the promise *)

Record Toy := mkToy { ty_sectors : gmap Z (list Z); ty_served : Z; ty_work : option nat }.

Section Toy.
Context (q : Queue).

Definition toy_run (m : ram) (d : Toy) : ram * Toy :=
  match ty_work d with
  | None => (m, d)
  | Some (S k) => (m, mkToy (ty_sectors d) (ty_served d) (Some k))
  | Some O =>
      match serve q (ty_served d) (ty_sectors d) m with
      | Some (m', sectors) => (m', mkToy sectors ((ty_served d + 1) mod 65536) None)
      | None => (m, mkToy (ty_sectors d) (ty_served d) None)
      end
  end.
#[local] Instance toy_device : Device Toy := {
  dev_load _ _ m d := (0, (m, d));
  dev_store _ a _ m d :=
    (m, if a =? q_base q + R_QUEUE_NOTIFY then mkToy (ty_sectors d) (ty_served d) (Some 2%nat) else d);
  dev_run := toy_run }.

Lemma serve_sizes served sectors m m' sectors' :
  map_Forall (λ _ data, len data = 512) sectors → serve q served sectors m = Some (m', sectors') →
  map_Forall (λ _ data, len data = 512) sectors'.
Proof.
  intros Hs. unfold serve. cbv zeta. destruct (negb _); [done|]. destruct (sectors !! _); [|by intros [= <- <-]].
  destruct (_ && _); [by intros [= <- <-]|]. destruct (_ && _); [|done]. intros H. apply (inj Some), pair_equal_spec in H as [_ <-].
  apply map_Forall_insert_2; [by apply len_bytes|done].
Qed.

#[local] Instance toy_blk : BlkDevice Toy q.
Proof.
  refine {| bl_idle d := ty_work d = None ∧ map_Forall (λ _ data, len data = 512) (ty_sectors d);
            bl_sectors := ty_sectors; bl_served := ty_served; bl_latency := 2%nat |}.
  - intros d lba data [_ Hs] H. by apply (Hs lba).
  - intros m d [Hw _]. cbn. unfold toy_run. by rewrite Hw.
  - intros m d m' sectors' [Hw Hs] _ Hserve. cbn [dev_store toy_device]. rewrite Z.eqb_refl.
    eexists _, (mkToy sectors' ((ty_served d + 1) mod 65536) None), 2%nat. split_and!; [done|lia| |done|by eapply serve_sizes|done|done].
    cbn [works]. eexists. split; [done|]. eexists. split; [done|]. cbn. unfold toy_run. cbn. by rewrite Hserve.
Defined.
End Toy.

Module VirtioTheorems.

(** C4. The block driver implements the disk the file system is verified against: on
    any device that serves requests as the virtio standard says, however long it takes
    up to its latency, reading or writing any run of sectors gives the same result,
    leaves the same buffer and the same disk as the sector-wise [read_multi] and
    [write_multi] of the file system's model, failures of a sector in the middle
    included; memory outside of the buffer and of the driver's own four pages stays
    as it was, and the driver is ready for the next request. *)
Theorem driver_refines_disk {D} `{!Device D} (q : Queue) `{!BlkDevice D q} fuel i req lba buf (n : nat) disk s :
  pages_ok q req → ready q i req s → (@bl_latency D _ q _ < fuel)%nat → clear_of q req buf (Z.of_nat n * 512) → represents q disk i s →
  0 ≤ lba → lba + Z.of_nat n < 18446744073709551616 →
  outcome (blk_read_multi fuel i lba 0 n buf)
    (λ r s', ready q i req s' ∧ represents q disk i s' ∧
       same_on (λ a, outside q req a ∧ ¬ in_buf buf (Z.of_nat n * 512) a) (dv_ram s) (dv_ram s') ∧
       Onyxfs.read_multi disk i lba 0 n (bytes (dv_ram s) buf (Z.of_nat n * 512)) =
         (r, bytes (dv_ram s') buf (Z.of_nat n * 512))) s ∧
  outcome (blk_write_multi fuel i lba 0 n buf)
    (λ r s', ready q i req s' ∧ same_on (outside q req) (dv_ram s) (dv_ram s') ∧
       ∃ disk', Onyxfs.write_multi i lba 0 n (bytes (dv_ram s) buf (Z.of_nat n * 512)) disk = (r, disk') ∧
         represents q disk' i s') s.
Proof.
  intros Hp Hr Hf Hc Hd H1 H2. split.
  - apply read_multi_refines; try done; lia.
  - apply write_multi_refines; try done; lia.
Qed.

Definition toy_queue : Queue := mkQueue 0x10001000 0x1000 0x2000 0x3000.
Definition toy_sectors : gmap Z (list Z) := {[ 5 := replicate 512 7; 6 := replicate 512 8 ]}.
Definition toy_disk : gmap (Z * Z) (list Z) := {[ (0, 5) := replicate 512 7; (0, 6) := replicate 512 8 ]}.
Definition toy_state : Drv Blk Toy :=
  mkDrv (mkBlk [mkBlkDev 0x10001000 false 1 0x1000 0x2000 0x3000 0 0x4000] 1) ∅ (mkToy toy_sectors 0 None)
    (mkPmm 0 0 0 [] [] ∅).

#[local] Instance toy0 : Device Toy := toy_device toy_queue.
#[local] Instance toy_blk0 : BlkDevice Toy toy_queue := toy_blk toy_queue.

(** Sectors 5 and 6 are read, then 7 fails. *)
Lemma driver_refines_disk_witness :
  (let r := blk_read_multi 3 0 5 0 3 0x8000 toy_state in
   Onyxfs.read_multi toy_disk 0 5 0 3 (bytes (∅ : ram) 0x8000 1536) = (r.1, bytes (dv_ram r.2) 0x8000 1536)) ∧
  (blk_read_multi 3 0 5 0 3 0x8000 toy_state).1 = Err Io.
Proof.
  split; [|by vm_compute].
  refine (proj2 (proj2 (proj2 (proj1 (driver_refines_disk toy_queue 3 0 0x4000 5 0x8000 3 toy_disk toy_state _ _ _ _ _ _ _))))).
  - unfold pages_ok, apart, toy_queue. cbn. lia.
  - split; [by exists false, 1| |unfold u16; cbn; lia|done|done]. split; [done|]. 
    apply map_Forall_insert_2; [done|]. by apply map_Forall_singleton.
  - cbn. lia.
  - intros j Hj. unfold outside, toy_queue. cbn in *. lia.
  - intros lba. change (toy_disk !! (0, lba) = toy_sectors !! lba). unfold toy_disk, toy_sectors.
    destruct (decide (lba = 5)) as [->|]; [done|]. destruct (decide (lba = 6)) as [->|]; [done|].
    by rewrite !lookup_insert_ne, !lookup_singleton_ne by congruence.
  - lia.
  - lia.
Defined.
End VirtioTheorems.
