(* ===== verification/VirtioDevs.v ===== *)
(** * drivers: the other virtio devices

    virtio_rng.rs, virtio_console, virtio_net and virtio_input: probe and set-up,
    the queues in RAM, and the polling and sending over them. *)

From S2P Require Import Prelude Pmm Bus Virtio.
From stdpp Require Import base list numbers gmap.
From Stdlib Require Import ZArith Lia.

Open Scope Z_scope.

(** ** virtio_rng.rs *)

Definition VIRTIO_ID_RNG : Z := 4.
Definition MAX_RNG_DEVS : Z := 2.
Record RngDev := mkRngDev {
  rg_base : Z; rg_modern : bool; rg_desc : Z; rg_avail : Z; rg_used : Z; rg_last_used : Z }.
(** [G_DEVS_RNG], [G_N] *)
Record Rng := mkRng { rn_devs : list RngDev; rn_n : Z }.
Definition rng_new : Rng := mkRng (replicate 2 (mkRngDev 0 false 0 0 0 0)) 0.

Section Rng.
Context {D : Type} `{!Device D}.
Abbreviation M := (DM Rng D).

Definition rng_is_present : M bool := n ← glob rn_n; mret (0 <? n).
Definition rng_probe (base : Z) : M bool := probe_id VIRTIO_ID_RNG base.

Definition put_rng (i : Z) (d : RngDev) : M unit :=
  l ← glob rn_devs; l ← lift (set_idx l i d); set_glob (λ g, mkRng l (rn_n g)).

Definition rng_setup_queue (i : Z) : M unit :=
  devs ← glob rn_devs; dev ← lift (idx devs i);
  let base := rg_base dev in
  reg_w base R_QUEUE_SEL 0;;
  reg_w base R_QUEUE_NUM VIRTQ_SIZE;;
  if rg_modern dev then
    desc ← page_zero; avail ← page_zero; used ← page_zero;
    put_rng i (mkRngDev base true desc avail used (rg_last_used dev));;
    set_queue base desc avail used
  else
    pa ← pages 3;
    put_rng i (mkRngDev base false pa (pa + 4096) (pa + 8192) (rg_last_used dev));;
    reg_w base R_QUEUE_ALIGN 4096;;
    reg_w base R_QUEUE_PFN (lo32 (pa / 4096)).

Definition rng_init (base : Z) : M unit :=
  n ← glob rn_n;
  if MAX_RNG_DEVS <=? n then fail NoMem else
  version ← reg_r base R_VERSION;
  let modern := 2 <=? version in
  put_rng n (mkRngDev base modern 0 0 0 0);;
  negotiate base modern;;
  rng_setup_queue n;;
  driver_ok base;;
  set_glob (λ g, mkRng (rn_devs g) (rn_n g + 1)).

(** [read(buf)]: the buffer is [n] bytes of RAM at [buf]. *)
Definition rng_read (fuel : nat) (buf n : Z) : M unit :=
  if (n =? 0) || (4096 <? n) then fail Inval else
  devs ← glob rn_devs; dev ← lift (idx devs 0);
  if rg_base dev =? 0 then fail NoEnt else
  put_desc (rg_desc dev) 0 (mkVqDesc buf n VQ_DESC_F_WRITE 0);;
  push_ring (rg_avail dev) 0;;
  reg_w (rg_base dev) R_QUEUE_NOTIFY 0;;
  wait fuel (u ← ram_r 2 (rg_used dev + 2); mret (u =? rg_last_used dev));;
  u ← ram_r 2 (rg_used dev + 2);
  put_rng 0 (mkRngDev (rg_base dev) (rg_modern dev) (rg_desc dev) (rg_avail dev) (rg_used dev) u).
End Rng.

(** ** virtio_console *)

Definition VIRTIO_ID_CONSOLE : Z := 3.
Definition CON_BUF_SIZE : Z := 256.
Record ConDev := mkConDev {
  cn_base : Z; cn_modern : bool; cn_rx_desc : Z; cn_rx_avail : Z; cn_rx_used : Z;
  cn_tx_desc : Z; cn_tx_avail : Z; cn_tx_used : Z; cn_rx_last : Z; cn_rx_buf : Z }.
Definition con_new : ConDev := mkConDev 0 false 0 0 0 0 0 0 0 0.

Section Console.
Context {D : Type} `{!Device D}.
Abbreviation M := (DM ConDev D).

Definition con_probe (base : Z) : M bool := probe_id VIRTIO_ID_CONSOLE base.

(** [push(idx, is_rx)] *)
Definition con_push (i : Z) (is_rx : bool) : M unit :=
  avail ← glob (if is_rx then cn_rx_avail else cn_tx_avail); push_ring avail i.

Definition con_setup_queue (qidx : Z) (is_rx : bool) : M unit :=
  base ← glob cn_base;
  reg_w base R_QUEUE_SEL qidx;;
  reg_w base R_QUEUE_NUM VIRTQ_SIZE;;
  desc ← page_zero; avail ← page_zero; used ← page_zero; buf ← page_zero;
  set_queue base desc avail used;;
  if is_rx then
    set_glob (λ g, mkConDev (cn_base g) (cn_modern g) desc avail used (cn_tx_desc g) (cn_tx_avail g) (cn_tx_used g)
                     (cn_rx_last g) buf);;
    put_desc desc 0 (mkVqDesc buf CON_BUF_SIZE VQ_DESC_F_WRITE 0);;
    con_push 0 true
  else
    set_glob (λ g, mkConDev (cn_base g) (cn_modern g) (cn_rx_desc g) (cn_rx_avail g) (cn_rx_used g) desc avail used
                     (cn_rx_last g) (cn_rx_buf g)).

Definition con_init (base : Z) : M unit :=
  b ← glob cn_base;
  if negb (b =? 0) then fail Busy else
  version ← reg_r base R_VERSION;
  let modern := 2 <=? version in
  set_glob (λ g, mkConDev base modern (cn_rx_desc g) (cn_rx_avail g) (cn_rx_used g) (cn_tx_desc g) (cn_tx_avail g)
                   (cn_tx_used g) (cn_rx_last g) (cn_rx_buf g));;
  negotiate base modern;;
  con_setup_queue 0 true;;
  con_setup_queue 1 false;;
  driver_ok base.

Definition con_getc : M (option Z) :=
  g ← glob id;
  used_idx ← ram_r 2 (cn_rx_used g + 2);
  if used_idx =? cn_rx_last g then mret None else
  set_glob (λ g, mkConDev (cn_base g) (cn_modern g) (cn_rx_desc g) (cn_rx_avail g) (cn_rx_used g) (cn_tx_desc g)
                   (cn_tx_avail g) (cn_tx_used g) used_idx (cn_rx_buf g));;
  b ← ram_r 1 (cn_rx_buf g);
  con_push 0 true;;
  mret (Some b).

Definition con_putc (fuel : nat) (b : Z) : M unit :=
  buf ← page_zero;
  ram_w 1 buf b;;
  g ← glob id;
  put_desc (cn_tx_desc g) 0 (mkVqDesc buf 1 0 0);;
  con_push 0 false;;
  reg_w (cn_base g) R_QUEUE_NOTIFY 1;;
  used_idx ← ram_r 2 (cn_tx_used g + 2);
  wait fuel (u ← ram_r 2 (cn_tx_used g + 2); mret (u =? used_idx));;
  page_free buf.

(** [let _ = putc(b)] for each byte *)
Fixpoint con_puts (fuel : nat) (s : list Z) : M unit :=
  match s with
  | [] => mret tt
  | b :: s => attempt (con_putc fuel b);; con_puts fuel s
  end.
End Console.

(** ** virtio_net *)

Definition VIRTIO_ID_NET : Z := 1.
Definition NET_MTU : Z := 1514.
Definition RX_DESCS : Z := 16.
Definition HDR_LEN : Z := 12.
Record NetDev := mkNetDev {
  nt_base : Z; nt_modern : bool; nt_desc : Z; nt_avail : Z; nt_used : Z; nt_last_used : Z;
  nt_rx_bufs : list Z; nt_mac : list Z }.
Definition net_new : NetDev := mkNetDev 0 false 0 0 0 0 (replicate 16 0) (replicate 6 0).

Section Net.
Context {D : Type} `{!Device D}.
Abbreviation M := (DM NetDev D).

Definition net_probe (base : Z) : M bool := probe_id VIRTIO_ID_NET base.
Definition push_avail (i : Z) : M unit := avail ← glob nt_avail; push_ring avail i.

(** [for i in 0..6 { G_NET.mac[i] = .. }] *)
Fixpoint read_mac (base i : Z) (n : nat) : M unit :=
  match n with
  | O => mret tt
  | S n =>
      b ← mmio_r 1 (base + 0x100 + i);
      mac ← glob nt_mac; mac ← lift (set_idx mac i b);
      set_glob (λ g, mkNetDev (nt_base g) (nt_modern g) (nt_desc g) (nt_avail g) (nt_used g) (nt_last_used g) (nt_rx_bufs g) mac);;
      read_mac base (i + 1) n
  end.

(** [for i in 0..RX_DESCS] *)
Fixpoint fill_rx (i : Z) (n : nat) : M unit :=
  match n with
  | O => mret tt
  | S n =>
      buf ← page_zero;
      bufs ← glob nt_rx_bufs; bufs ← lift (set_idx bufs i buf);
      set_glob (λ g, mkNetDev (nt_base g) (nt_modern g) (nt_desc g) (nt_avail g) (nt_used g) (nt_last_used g) bufs (nt_mac g));;
      desc ← glob nt_desc;
      put_desc desc i (mkVqDesc buf (HDR_LEN + NET_MTU) VQ_DESC_F_WRITE 0);;
      push_avail i;;
      fill_rx (i + 1) n
  end.

Definition setup_rx_queue : M unit :=
  base ← glob nt_base;
  reg_w base R_QUEUE_SEL 0;;
  reg_w base R_QUEUE_NUM VIRTQ_SIZE;;
  desc ← page_zero; avail ← page_zero; used ← page_zero;
  set_glob (λ g, mkNetDev (nt_base g) (nt_modern g) desc avail used (nt_last_used g) (nt_rx_bufs g) (nt_mac g));;
  set_queue base desc avail used;;
  fill_rx 0 16.

Definition net_init (base : Z) : M unit :=
  b ← glob nt_base;
  if negb (b =? 0) then fail Busy else
  version ← reg_r base R_VERSION;
  let modern := 2 <=? version in
  set_glob (λ g, mkNetDev base modern (nt_desc g) (nt_avail g) (nt_used g) (nt_last_used g) (nt_rx_bufs g) (nt_mac g));;
  negotiate base modern;;
  read_mac base 0 6;;
  setup_rx_queue;;
  driver_ok base.

Definition net_mac : M (list Z) := glob nt_mac.

(** [recv_into(out)]: the buffer is [out_len] bytes of RAM at [out]. *)
Definition recv_into (out out_len : Z) : M Z :=
  g ← glob id;
  used_idx ← ram_r 2 (nt_used g + 2);
  if used_idx =? nt_last_used g then fail NoEnt else
  let slot := nt_last_used g mod RX_DESCS in
  set_glob (λ g, mkNetDev (nt_base g) (nt_modern g) (nt_desc g) (nt_avail g) (nt_used g) used_idx (nt_rx_bufs g) (nt_mac g));;
  elem ← ram_bytes (nt_used g + 4 + 8 * slot) 8;
  let buf_idx := le_val (rd 0 4 elem) mod RX_DESCS in
  let frame_len := Z.min (sat_sub (le_val (rd 4 4 elem)) HDR_LEN) out_len in
  src ← lift (idx (nt_rx_bufs g) buf_idx);
  l ← ram_bytes (src + HDR_LEN) frame_len;
  ram_put out l;;
  push_avail buf_idx;;
  mret frame_len.

Definition net_send (fuel : nat) (frame : list Z) : M unit :=
  if (len frame =? 0) || (NET_MTU <? len frame) then fail Inval else
  hdr ← page_zero; fr ← page_zero;
  ram_put fr frame;;
  g ← glob id;
  put_desc (nt_desc g) 0 (mkVqDesc hdr HDR_LEN VQ_DESC_F_NEXT 1);;
  put_desc (nt_desc g) 1 (mkVqDesc fr (len frame) 0 0);;
  push_avail 0;;
  reg_w (nt_base g) R_QUEUE_NOTIFY 0;;
  last ← ram_r 2 (nt_used g + 2);
  wait fuel (cur ← ram_r 2 (nt_used g + 2); mret (cur =? last));;
  page_free hdr;;
  page_free fr.
End Net.

(** ** input.rs *)

Inductive KeyCode :=
  | Unknown | Esc | Enter | Backspace | Tab | Space | Up | Down | Left | Right | LeftShift | RightShift
  | LeftCtrl | RightCtrl | LeftAlt | RightAlt | CapsLock | NumLock | ScrollLock
  | Letter (c : Z) | Digit (c : Z) | F (n : Z).
#[global] Instance KeyCode_eq_dec : EqDecision KeyCode.
Proof. solve_decision. Defined.

Inductive MouseButton := BtnLeft | BtnRight | BtnMiddle | BtnOther (n : Z).
Inductive Event :=
  | EvKey (code : KeyCode) (down : bool)
  | EvMouseRel (dx dy : Z)
  | EvMouseAbs (x y : Z)
  | EvMouseButton (btn : MouseButton) (down : bool)
  | EvSyn.

(** ** virtio_input *)

Definition VIRTIO_ID_INPUT : Z := 18.
Definition N_EVENTS : Z := 8.
(** [VirtioInputEvent]: type at 0, code at 2, value at 4 *)
Record InEvent := mkInEvent { ie_type : Z; ie_code : Z; ie_value : Z }.
Record InDev := mkInDev {
  in_base : Z; in_modern : bool; in_desc : Z; in_avail : Z; in_used : Z; in_last_used : Z; in_ev_buf : Z }.
Definition in_new : InDev := mkInDev 0 false 0 0 0 0 0.

Definition EV_KEY : Z := 1.
Definition EV_REL : Z := 2.
Definition REL_X : Z := 0.
Definition REL_Y : Z := 1.
Inductive EventType :=
  | TKey (k : KeyCode) (down : bool) | TMouseRel (dx dy : Z) | TMouseButton (b : MouseButton) (down : bool) | TSyn.

Definition linux_to_keycode (code : Z) : KeyCode :=
  if code =? 1 then Esc else if code =? 28 then Enter else if code =? 14 then Backspace
  else if code =? 15 then Tab else if code =? 57 then Space else if code =? 103 then Up
  else if code =? 105 then Left else if code =? 106 then Right else if code =? 108 then Down
  else if code =? 42 then LeftShift else if code =? 54 then RightShift
  else if code =? 29 then LeftCtrl else if code =? 97 then RightCtrl
  else if (2 <=? code) && (code <=? 11) then Digit (w8 (code - 1))
  else if (16 <=? code) && (code <=? 25) then Letter (113 + w8 (code - 16))
  else if (30 <=? code) && (code <=? 38) then Letter (97 + w8 (code - 30))
  else Unknown.

(** [v as i32] *)
Definition to_i32 (z : Z) : Z := if w32 z <? 2147483648 then w32 z else w32 z - 4294967296.
Definition in_translate (ev : InEvent) : EventType :=
  if ie_type ev =? EV_KEY then TKey (linux_to_keycode (ie_code ev)) (negb (ie_value ev =? 0))
  else if ie_type ev =? EV_REL then
    TMouseRel (if ie_code ev =? REL_X then to_i32 (ie_value ev) else 0) (if ie_code ev =? REL_Y then to_i32 (ie_value ev) else 0)
  else TSyn.

Section Input.
Context {D : Type} `{!Device D}.
Abbreviation M := (DM InDev D).

Definition in_probe (base : Z) : M bool := probe_id VIRTIO_ID_INPUT base.
Definition in_push (i : Z) : M unit := avail ← glob in_avail; push_ring avail i.

(** [for i in 0..N_EVENTS] *)
Fixpoint post_events (ev i : Z) (n : nat) : M unit :=
  match n with
  | O => mret tt
  | S n =>
      desc ← glob in_desc;
      put_desc desc i (mkVqDesc (ev + i * 8) 8 VQ_DESC_F_WRITE 0);;
      in_push i;;
      post_events ev (i + 1) n
  end.

Definition setup_event_queue : M unit :=
  base ← glob in_base;
  reg_w base R_QUEUE_SEL 0;;
  reg_w base R_QUEUE_NUM VIRTQ_SIZE;;
  desc ← page_zero; avail ← page_zero; used ← page_zero; ev ← page_zero;
  set_glob (λ g, mkInDev (in_base g) (in_modern g) desc avail used (in_last_used g) ev);;
  set_queue base desc avail used;;
  post_events ev 0 8.

Definition in_init (base : Z) : M unit :=
  b ← glob in_base;
  if negb (b =? 0) then fail Busy else
  version ← reg_r base R_VERSION;
  let modern := 2 <=? version in
  set_glob (λ g, mkInDev base modern (in_desc g) (in_avail g) (in_used g) (in_last_used g) (in_ev_buf g));;
  negotiate base modern;;
  setup_event_queue;;
  driver_ok base.

Definition in_poll : M (option EventType) :=
  g ← glob id;
  used_idx ← ram_r 2 (in_used g + 2);
  if used_idx =? in_last_used g then mret None else
  let slot := in_last_used g mod N_EVENTS in
  set_glob (λ g, mkInDev (in_base g) (in_modern g) (in_desc g) (in_avail g) (in_used g) used_idx (in_ev_buf g));;
  elem ← ram_bytes (in_used g + 4 + 8 * slot) 8;
  let buf_idx := le_val (rd 0 4 elem) mod N_EVENTS in
  ev ← ram_bytes (in_ev_buf g + 8 * buf_idx) 8;
  in_push buf_idx;;
  reg_w (in_base g) R_QUEUE_NOTIFY 0;;
  mret (Some (in_translate (mkInEvent (le_val (rd 0 2 ev)) (le_val (rd 2 2 ev)) (le_val (rd 4 4 ev))))).

Definition poll_unified : M (option Event) :=
  o ← in_poll;
  mret (match o with
        | None => None
        | Some (TKey k down) => Some (EvKey k down)
        | Some (TMouseRel dx dy) => Some (EvMouseRel dx dy)
        | Some (TMouseButton b down) => Some (EvMouseButton b down)
        | Some TSyn => None
        end).
End Input.
