(* ===== verification/Input.v ===== *)
(** * drivers/input.rs and ps2.rs: keyboards

    A handler of events is a function; here it is a number, and [ip_log] has what was
    delivered to it. *)

From S2P Require Import Prelude Bus Virtio VirtioDevs.
From stdpp Require Import base list numbers gmap.
From Stdlib Require Import ZArith Lia.

Open Scope Z_scope.

(** ** input.rs *)

Record Input := mkInput { ip_handler : option nat; ip_log : list (nat * Event); ip_virtio : InDev }.

Definition on_event (h : nat) (s : Input) : Input := mkInput (Some h) (ip_log s) (ip_virtio s).
Definition dispatch (ev : Event) (s : Input) : Input :=
  match ip_handler s with
  | Some h => mkInput (ip_handler s) (ip_log s ++ [(h, ev)]) (ip_virtio s)
  | None => s
  end.
Definition has_handler (s : Input) : bool := match ip_handler s with Some _ => true | None => false end.

Definition set_virtio (d : InDev) (s : Input) : Input := mkInput (ip_handler s) (ip_log s) d.
Definition poll_all {D} `{!Device D} : DM Input D unit :=
  o ← zoom ip_virtio set_virtio poll_unified;
  match o with Some ev => set_glob (dispatch ev) | None => mret tt end.

(** ** ps2.rs *)

Definition PORT_DATA : Z := 0x60.
Definition PORT_STATUS : Z := 0x64.
Definition PORT_COMMAND : Z := 0x64.
Definition SR_OUT_BUF : Z := 1.

(** [G_SHIFT], [G_CAPS] *)
Record Ps2 := mkPs2 { ps_shift : bool; ps_caps : bool }.
Definition ps2_new : Ps2 := mkPs2 false false.

Definition to_ascii_uppercase (c : Z) : Z := if (97 <=? c) && (c <=? 122) then c - 32 else c.
Definition apply_case (g : Ps2) (base : Z) : Z :=
  if xorb (ps_shift g) (ps_caps g) then to_ascii_uppercase base else base.

(** [b")!@#$%^&*("] *)
Definition SHIFTED : list Z := [41; 33; 64; 35; 36; 37; 94; 38; 42; 40].

Definition scancode_to_key (g : Ps2) (code : Z) : result KeyCode :=
  if code =? 1 then Ok Esc else if code =? 14 then Ok Backspace else if code =? 15 then Ok Tab
  else if code =? 28 then Ok Enter else if code =? 29 then Ok LeftCtrl else if code =? 42 then Ok LeftShift
  else if code =? 54 then Ok RightShift else if code =? 56 then Ok LeftAlt else if code =? 57 then Ok Space
  else if code =? 72 then Ok Up else if code =? 75 then Ok Left else if code =? 77 then Ok Right
  else if code =? 80 then Ok Down else if code =? 58 then Ok CapsLock
  else if (59 <=? code) && (code <=? 68) then Ok (F (code - 58))
  else if (2 <=? code) && (code <=? 11) then
    let n := (code - 1) mod 10 in
    if ps_shift g then c ← idx SHIFTED n; Ok (Digit c) else Ok (Digit (48 + n))
  else if (16 <=? code) && (code <=? 25) then Ok (Letter (apply_case g (113 + (code - 16))))
  else if (30 <=? code) && (code <=? 38) then Ok (Letter (apply_case g (97 + (code - 30))))
  else Ok Unknown.

Definition is_shift (k : KeyCode) : bool := match k with LeftShift | RightShift => true | _ => false end.

Definition ps2_translate (sc : Z) (g : Ps2) : result (Event * Ps2) :=
  let down := Z.land sc 0x80 =? 0 in
  let code := Z.land sc 0x7F in
  kc ← scancode_to_key g code;
  let g := if is_shift kc then mkPs2 down (ps_caps g) else g in
  let g := if bool_decide (kc = CapsLock) && down then mkPs2 (ps_shift g) (negb (ps_caps g)) else g in
  Ok (EvKey kc down, g).

Section Ps2.
Context {D : Type} `{!Device D}.
Abbreviation M := (DM Ps2 D).

Definition ps2_status : M Z := mmio_r 4 PORT_STATUS.
Definition ps2_data : M Z := v ← mmio_r 4 PORT_DATA; mret (w8 v).

(** [t] looks at the status at most *)
Fixpoint wait_read (t : nat) : M bool :=
  match t with
  | O => mret false
  | S t => st ← ps2_status; if negb (Z.land st SR_OUT_BUF =? 0) then mret true else wait_read t
  end.

(** [while status() & SR_OUT_BUF != 0 { data() }]; more than [fuel] bytes are an
    endless stream. *)
Fixpoint flush (fuel : nat) : M unit :=
  match fuel with
  | O => panic
  | S fuel => st ← ps2_status; if negb (Z.land st SR_OUT_BUF =? 0) then ps2_data;; flush fuel else mret tt
  end.

Definition ps2_init (fuel : nat) : M bool :=
  mmio_w 4 PORT_COMMAND 0xAD;;
  mmio_w 4 PORT_COMMAND 0xA7;;
  flush fuel;;
  mmio_w 4 PORT_COMMAND 0xAA;;
  ok ← wait_read (Z.to_nat 100000);
  if negb ok then mret false else
  d ← ps2_data;
  if negb (d =? 0x55) then mret false else
  mmio_w 4 PORT_COMMAND 0xAE;;
  mret true.

Definition poll_byte : M (option Z) :=
  ok ← wait_read (Z.to_nat 100000);
  if negb ok then mret None else d ← ps2_data; mret (Some d).

Definition ps2_poll : M (option Event) :=
  o ← poll_byte;
  match o with
  | None => mret None
  | Some sc => g ← glob id; r ← lift (ps2_translate sc g); set_glob (λ _, r.2);; mret (Some r.1)
  end.
End Ps2.

(** [dispatch_into_input] *)
Definition dispatch_into_input {D} `{!Device D} : DM (Input * Ps2) D unit :=
  o ← zoom snd (λ p s, (s.1, p)) ps2_poll;
  match o with Some ev => set_glob (λ s, (dispatch ev s.1, s.2)) | None => mret tt end.
