(* ===== verification/Rand.v ===== *)
(** * drivers: clock, hardware entropy and the random generator

    rtc.rs, hwrand.rs and entropy.rs. [read_cycle], the instruction that reads the cycle
    counter, is a parameter. *)

From S2P Require Import Prelude Bus Virtio VirtioDevs.
From stdpp Require Import base list numbers gmap.
From Stdlib Require Import ZArith Lia.

Open Scope Z_scope.

(** ** rtc.rs *)

Definition GOLDFISH_RTC_BASE : Z := 0x10100000.
Definition SIFIVE_RTC_BASE : Z := 0x10070000.
Definition GF_TIME_LOW : Z := 0x00.
Definition GF_TIME_HIGH : Z := 0x04.
Definition GF_ALARM_LOW : Z := 0x08.
Definition GF_ALARM_HIGH : Z := 0x0C.
Definition GF_IRQ_ENABLE : Z := 0x10.
Definition GF_CLEAR_ALARM : Z := 0x14.
Definition S5_RTC_LO : Z := 0x00.
Definition S5_RTC_HI : Z := 0x04.

Inductive RtcKind := RtcNone | Goldfish | SiFive.
#[global] Instance RtcKind_eq_dec : EqDecision RtcKind.
Proof. solve_decision. Defined.

(** [G_BASE], [G_KIND] *)
Record Rtc := mkRtc { rt_base : Z; rt_kind : RtcKind }.

Section Rtc.
Context {D : Type} `{!Device D}.
Abbreviation M := (DM Rtc D).

Definition read_kind (base : Z) (kind : RtcKind) : M Z :=
  match kind with
  | Goldfish => lo ← mmio_r 4 (base + GF_TIME_LOW); hi ← mmio_r 4 (base + GF_TIME_HIGH); mret (Z.lor (Z.shiftl hi 32) lo)
  | SiFive => lo ← mmio_r 4 (base + S5_RTC_LO); hi ← mmio_r 4 (base + S5_RTC_HI); mret (Z.lor (Z.shiftl hi 32) lo)
  | RtcNone => mret 0
  end.

(** [for _ in 0..n]: the clock must have advanced. *)
Fixpoint advances (n : nat) (base : Z) (kind : RtcKind) (t1 : Z) : M bool :=
  match n with
  | O => mret false
  | S n =>
      t ← read_kind base kind;
      if negb (t =? t1) then set_glob (λ _, mkRtc base kind);; mret true else advances n base kind t1
  end.
Definition probe_at (base : Z) (kind : RtcKind) : M bool :=
  t1 ← read_kind base kind;
  if t1 =? 0 then mret false else advances 1000 base kind t1.
Definition rtc_probe : M bool :=
  b ← probe_at GOLDFISH_RTC_BASE Goldfish;
  if b : bool then mret true else probe_at SIFIVE_RTC_BASE SiFive.

Definition now_secs : M Z :=
  g ← glob id;
  match rt_kind g with
  | Goldfish => read_kind (rt_base g) Goldfish
  | SiFive => t ← read_kind (rt_base g) SiFive; mret (t / 10000000)
  | RtcNone => mret 0
  end.
Definition now_nanos : M Z := g ← glob id; read_kind (rt_base g) (rt_kind g).

Definition rtc_clear_alarm : M unit :=
  g ← glob id;
  if bool_decide (rt_kind g = Goldfish) then mmio_w 4 (rt_base g + GF_CLEAR_ALARM) 1 else mret tt.
End Rtc.

(** ** hwrand.rs *)

(** The generator with the devices it draws on. *)
Record Rand := mkRand {
  ra_rng : Rng; ra_rtc : Rtc; ra_fallback : Z; ra_state : list Z; ra_seeded : bool }.
Definition set_ra_rng (v : Rng) (s : Rand) : Rand := mkRand v (ra_rtc s) (ra_fallback s) (ra_state s) (ra_seeded s).
Definition set_ra_rtc (v : Rtc) (s : Rand) : Rand := mkRand (ra_rng s) v (ra_fallback s) (ra_state s) (ra_seeded s).
Definition set_ra_fallback (v : Z) (s : Rand) : Rand := mkRand (ra_rng s) (ra_rtc s) v (ra_state s) (ra_seeded s).
Definition set_ra_state (v : list Z) (s : Rand) : Rand := mkRand (ra_rng s) (ra_rtc s) (ra_fallback s) v (ra_seeded s).
Definition rand_new : Rand := mkRand rng_new (mkRtc 0 RtcNone) 0x9E3779B97F4A7C15 (replicate 4 0) false.

Inductive Source := SrcVirtio | SrcLcg.

(** ** entropy.rs: pure parts *)

(** [rotate_left] of 64 bits *)
Definition rotl (x k : Z) : Z := Z.lor (w64 (Z.shiftl x k)) (Z.shiftr x (64 - k)).

(** One step of xoshiro256**: the output and the new state. *)
Definition xoshiro (s : list Z) : result (Z * list Z) :=
  match s with
  | [s0; s1; s2; s3] =>
      let r := w64 (rotl (w64 (s1 * 5)) 7 * 9) in
      let t := w64 (Z.shiftl s1 17) in
      let s2 := Z.lxor s2 s0 in
      let s3 := Z.lxor s3 s1 in
      let s1 := Z.lxor s1 s2 in
      let s0 := Z.lxor s0 s3 in
      let s2 := Z.lxor s2 t in
      let s3 := rotl s3 45 in
      Ok (r, [s0; s1; s2; s3])
  | _ => Panic
  end.

Definition ZERO_STATE : list Z := [0; 0; 0; 0].
Definition DEFAULT_STATE : list Z :=
  [0x9E3779B97F4A7C15; 0xD1B54A5D6C8AE963; 0xA4093822299F31D0; 0x655002122AAAC4F1].

Section Rand.
Context {D : Type} `{!Device D} (read_cycle : DM Rand D Z) (fuel : nat).
Abbreviation M := (DM Rand D).

(** [try_virtio]: the buffer of four bytes is on the stack, at [buf]. *)
Definition try_virtio (buf : Z) : M (option Z) :=
  there ← zoom ra_rng set_ra_rng rng_is_present;
  if negb there then mret None else
  ram_put buf [0; 0; 0; 0];;
  r ← attempt (zoom ra_rng set_ra_rng (rng_read fuel buf 4));
  match r with
  | Some _ => l ← ram_bytes buf 4; mret (Some (le_val l))
  | None => mret None
  end.

Definition fallback : M Z :=
  t ← zoom ra_rtc set_ra_rtc now_nanos;
  c ← read_cycle;
  let mix := Z.lxor t c in
  set_glob (λ g, set_ra_fallback (Z.lxor (w64 (w64 (ra_fallback g * 6364136223846793005) + 1442695040888963407)) mix) g);;
  f ← glob ra_fallback;
  mret (w32 (Z.shiftr f 32)).

(** [hwrand::next_u32]; the [seed] register is never available. *)
Definition hw_next_u32 (buf : Z) : M Z :=
  o ← try_virtio buf;
  match o with Some v => mret v | None => fallback end.
Definition source_name : M Source :=
  there ← zoom ra_rng set_ra_rng rng_is_present; mret (if there : bool then SrcVirtio else SrcLcg).

(** Fill [n] bytes from words of [k] bytes. *)
Fixpoint fill_loop (rounds : nat) (k : nat) (n : Z) (next : M Z) : M (list Z) :=
  match rounds with
  | O => mret []
  | S rounds =>
      if Z.of_nat k <=? n then
        v ← next; rest ← fill_loop rounds k (n - Z.of_nat k) next; mret (le_bytes k v ++ rest)
      else if 0 <? n then v ← next; mret (take (Z.to_nat n) (le_bytes k v))
      else mret []
  end.
(** [hwrand::fill]: the bytes put into a buffer of [n] bytes. *)
Definition hw_fill (buf n : Z) : M (list Z) := fill_loop (S (Z.to_nat n)) 4 n (hw_next_u32 buf).

(** ** entropy.rs *)

Fixpoint seed_loop (n : nat) (i : Z) (buf : Z) : M unit :=
  match n with
  | O => mret tt
  | S n =>
      a ← hw_next_u32 buf; b ← hw_next_u32 buf;
      st ← glob ra_state;
      st ← lift (set_idx st i (Z.lor (w64 (Z.shiftl a 32)) b));
      set_glob (set_ra_state st);;
      seed_loop n (i + 1) buf
  end.
Definition seed (buf : Z) : M unit :=
  seed_loop 4 0 buf;;
  st ← glob ra_state;
  (if bool_decide (st = ZERO_STATE) then set_glob (set_ra_state DEFAULT_STATE) else mret tt);;
  set_glob (λ g, mkRand (ra_rng g) (ra_rtc g) (ra_fallback g) (ra_state g) true).
Definition ensure_seeded (buf : Z) : M unit := b ← glob ra_seeded; if b : bool then mret tt else seed buf.

Definition next_u64 (buf : Z) : M Z :=
  ensure_seeded buf;;
  st ← glob ra_state;
  r ← lift (xoshiro st);
  set_glob (set_ra_state r.2);;
  mret r.1.
Definition next_u32 (buf : Z) : M Z := v ← next_u64 buf; mret (Z.land v 0xFFFFFFFF).
Definition rand_fill (buf n : Z) : M (list Z) := ensure_seeded buf;; fill_loop (S (Z.to_nat n)) 8 n (next_u64 buf).

(** The rejection loop of [below]: more than [tries] rejected words in a row are a
    generator that is stuck. *)
Fixpoint below_loop (tries : nat) (buf r t m : Z) : M Z :=
  match tries with
  | O => panic
  | S tries => if w32 m <? t then v ← next_u32 buf; below_loop tries buf r t (v * r) else mret (Z.shiftr m 32)
  end.
Definition below (tries : nat) (buf bound : Z) : M Z :=
  if bound =? 0 then mret 0 else
  v ← next_u32 buf;
  let m := v * bound in
  if w32 m <? bound then
    let t := w32 (4294967295 - bound + 1) mod bound in
    below_loop (S tries) buf bound t m
  else mret (Z.shiftr m 32).
Definition is_seeded : M bool := glob ra_seeded.
End Rand.
