(* ===== verification/Usb.v ===== *)
(** * drivers/usb.rs: the EHCI and OHCI host controllers

    Queue heads and transfer descriptors live in two static pools, at [dma_base] and
    [ohci_dma_base] (the addresses the linker gives them). [remove_fuel] bounds the walk
    of the schedule in [qh_remove]: a list that is longer is one without end. *)

From S2P Require Import Prelude Pmm Bus.
From stdpp Require Import base list numbers gmap.
From Stdlib Require Import ZArith Lia.

Open Scope Z_scope.

Inductive ControllerType := NoController | EhciController | OhciController.

Definition EHCI_BASE : Z := 0x04C00000.
Definition OHCI_BASE : Z := 0x04C10000.

Definition OHCI_HC_REV : Z := 0x00.
Definition OHCI_HC_CONTROL : Z := 0x04.
Definition OHCI_HC_COMMAND_STATUS : Z := 0x08.
Definition OHCI_HC_INTERRUPT_STATUS : Z := 0x0C.
Definition OHCI_HC_HCCA : Z := 0x18.
Definition OHCI_HC_CONTROL_HEAD_ED : Z := 0x20.
Definition OHCI_HC_CONTROL_CURRENT_ED : Z := 0x24.
Definition OHCI_HC_BULK_HEAD_ED : Z := 0x28.
Definition OHCI_HC_BULK_CURRENT_ED : Z := 0x2C.
Definition OHCI_HC_FM_INTERVAL : Z := 0x34.
Definition OHCI_HC_PERIODIC_START : Z := 0x40.
Definition OHCI_HC_LS_THRESHOLD : Z := 0x44.
Definition OHCI_HC_RH_DESC_A : Z := 0x48.
Definition OHCI_HC_RH_STATUS : Z := 0x50.
Definition OHCI_HC_RH_PORT_STATUS : Z := 0x54.
Definition OHCI_CTRL_CLE : Z := Z.shiftl 1 4.
Definition OHCI_CTRL_BLE : Z := Z.shiftl 1 5.
Definition OHCI_CTRL_HCFS_MASK : Z := Z.shiftl 3 6.
Definition OHCI_CTRL_HCFS_OPER : Z := Z.shiftl 2 6.
Definition OHCI_CTRL_RWE : Z := Z.shiftl 1 9.
Definition OHCI_CMD_HCR : Z := 1.
Definition OHCI_CMD_CLF : Z := 2.
Definition RH_PS_PES : Z := Z.shiftl 1 1.
Definition RH_PS_PRS : Z := Z.shiftl 1 4.
Definition RH_PS_PPS : Z := Z.shiftl 1 8.
Definition RH_PS_LSDA : Z := Z.shiftl 1 9.
Definition RH_PS_CSC : Z := Z.shiftl 1 16.
Definition RH_PS_PRSC : Z := Z.shiftl 1 20.

Definition ED_FA_SHIFT : Z := 0.
Definition ED_SPEED_FULL : Z := 0.
Definition ED_SPEED_LOW : Z := Z.shiftl 1 12.
Definition ED_MPS_SHIFT : Z := 16.
Definition ED_TERMINATE : Z := 1.
Definition TD_CC_MASK : Z := 0xF.
Definition TD_CC_NOT_ACCESSED : Z := 0x0F.
Definition TD_T_DATA0 : Z := 0.
Definition TD_T_DATA1 : Z := Z.shiftl 1 10.
Definition TD_DI_NO_INTR : Z := Z.shiftl 3 11.
Definition TD_DP_SETUP : Z := 0.
Definition TD_DP_OUT : Z := Z.shiftl 1 13.
Definition TD_DP_IN : Z := Z.shiftl 2 13.
Definition TD_R_3 : Z := Z.shiftl 1 15.
Definition TD_TERMINATE : Z := 1.
Definition OHCI_ED_SIZE : Z := 16.
Definition OHCI_TD_SIZE : Z := 16.

Definition EHCI_CAP_LENGTH : Z := 0x00.
Definition EHCI_CAP_VERSION : Z := 0x02.
Definition EHCI_CAP_HCSPARAMS : Z := 0x04.
Definition OP_USBCMD : Z := 0x00.
Definition OP_USBSTS : Z := 0x04.
Definition OP_CTRLDSSEGMENT : Z := 0x10.
Definition OP_ASYNCLISTADDR : Z := 0x18.
Definition OP_CONFIGFLAG : Z := 0x40.
Definition OP_PORTSC : Z := 0x44.
Definition CMD_RUN : Z := 1.
Definition CMD_RESET : Z := 2.
Definition CMD_ASYNC_ENABLE : Z := Z.shiftl 1 5.
Definition STS_HCHALTED : Z := Z.shiftl 1 12.
Definition STS_ASYNC_ADVANCE : Z := Z.shiftl 1 5.
Definition QTD_ACTIVE : Z := Z.shiftl 1 7.
Definition QTD_HALTED : Z := Z.shiftl 1 6.
Definition QTD_BUF_ERR : Z := Z.shiftl 1 5.
Definition QTD_BABBLE : Z := Z.shiftl 1 4.
Definition QTD_XACT_ERR : Z := Z.shiftl 1 3.
Definition QTD_ERROR : Z := Z.lor (Z.lor (Z.lor QTD_HALTED QTD_BUF_ERR) QTD_BABBLE) QTD_XACT_ERR.
Definition QTD_PID_OUT : Z := 0.
Definition QTD_PID_IN : Z := Z.shiftl 1 8.
Definition QTD_PID_SETUP : Z := Z.shiftl 2 8.
Definition QTD_CERR_3 : Z := Z.shiftl 3 10.
Definition QTD_TOGGLE : Z := Z.shiftl 1 14.
Definition QTD_TOTAL_LEN_SHIFT : Z := 16.
Definition QH_DEV_ADDR_SHIFT : Z := 8.
Definition QH_INACTIVATE : Z := Z.shiftl 1 7.
Definition QH_EPS_HIGH : Z := Z.shiftl 2 12.
Definition QH_DTC : Z := Z.shiftl 1 14.
Definition QH_HRL : Z := Z.shiftl 1 15.
Definition QH_MPL_SHIFT : Z := 16.
Definition QH_QH : Z := 2.
Definition QH_TERMINATE : Z := 1.
Definition QTD_BUF_SIZE : Z := 4096.
Definition MAX_QH : Z := 16.
Definition MAX_QTD : Z := 64.
Definition DMA_POOL_SIZE : Z := 4096.
Definition OHCI_DMA_POOL_SIZE : Z := 4096.
Definition MAX_OHCI_ED : Z := 32.
Definition MAX_OHCI_TD : Z := 64.
(** [size_of::<QH>()], [size_of::<QTD>()]: words of four bytes *)
Definition QH_SIZE : Z := 48.
Definition QTD_SIZE : Z := 32.

(** ** State *)

Record Ehci := mkEhci {
  eh_op_base : Z; eh_n_ports : Z; eh_async : bool; eh_dma_used : Z;
  eh_qh_offsets : list Z; eh_qh_count : Z; eh_qtd_offsets : list Z; eh_qtd_count : Z }.
Record Ohci := mkOhci {
  oh_base : Z; oh_n_ports : Z; oh_hcca_pa : Z; oh_hcca_ready : bool; oh_dma_used : Z;
  oh_ed_offsets : list Z; oh_ed_count : Z; oh_td_offsets : list Z; oh_td_count : Z }.
Record Usb := mkUsb { us_active : ControllerType; us_e : Ehci; us_o : Ohci }.

Definition usb_new : Usb :=
  mkUsb NoController (mkEhci 0 0 false 0 (replicate 16 0) 0 (replicate 64 0) 0)
    (mkOhci 0 0 0 false 0 (replicate 32 0) 0 (replicate 64 0) 0).

Definition set_e (f : Ehci → Ehci) (s : Usb) : Usb := mkUsb (us_active s) (f (us_e s)) (us_o s).
Definition set_o (f : Ohci → Ohci) (s : Usb) : Usb := mkUsb (us_active s) (us_e s) (f (us_o s)).
Definition set_active (c : ControllerType) (s : Usb) : Usb := mkUsb c (us_e s) (us_o s).

Section Usb.
Context {D : Type} `{!Device D} (dma_base ohci_dma_base : Z) (remove_fuel : nat).
Abbreviation M := (DM Usb D).

Definition gE {A} (f : Ehci → A) : M A := glob (λ s, f (us_e s)).
Definition gO {A} (f : Ohci → A) : M A := glob (λ s, f (us_o s)).

(** ** EHCI pool *)

Definition op_rd (reg : Z) : M Z := b ← gE eh_op_base; mmio_r 4 (b + reg).
Definition op_wr (reg v : Z) : M unit := b ← gE eh_op_base; mmio_w 4 (b + reg) v.

Definition pool_offset_to_phys (off : Z) : Z := w32 (dma_base + off).

(** [(size + k) & !k] *)
Definition round_up (size k : Z) : Z := Z.land (size + k) (18446744073709551615 - k).

Definition alloc_dma (size : Z) : M Z :=
  let aligned := round_up size 31 in
  off ← gE eh_dma_used;
  if DMA_POOL_SIZE <? off + aligned then fail NoMem else
  set_glob (set_e (λ e, mkEhci (eh_op_base e) (eh_n_ports e) (eh_async e) (off + aligned) (eh_qh_offsets e) (eh_qh_count e)
                          (eh_qtd_offsets e) (eh_qtd_count e)));;
  ram_put (dma_base + off) (zeros aligned);;
  mret off.

Definition alloc_qh : M Z :=
  n ← gE eh_qh_count;
  if MAX_QH <=? n then fail NoMem else
  off ← alloc_dma QH_SIZE;
  l ← gE eh_qh_offsets; l ← lift (set_idx l n off);
  set_glob (set_e (λ e, mkEhci (eh_op_base e) (eh_n_ports e) (eh_async e) (eh_dma_used e) l (n + 1) (eh_qtd_offsets e) (eh_qtd_count e)));;
  mret n.

Definition alloc_qtd : M Z :=
  n ← gE eh_qtd_count;
  if MAX_QTD <=? n then fail NoMem else
  off ← alloc_dma QTD_SIZE;
  l ← gE eh_qtd_offsets; l ← lift (set_idx l n off);
  set_glob (set_e (λ e, mkEhci (eh_op_base e) (eh_n_ports e) (eh_async e) (eh_dma_used e) (eh_qh_offsets e) (eh_qh_count e) l (n + 1)));;
  mret n.

Definition qh_ptr (i : Z) : M Z := l ← gE eh_qh_offsets; off ← lift (idx l i); mret (dma_base + off).
Definition qtd_ptr (i : Z) : M Z := l ← gE eh_qtd_offsets; off ← lift (idx l i); mret (dma_base + off).
Definition qh_phys (i : Z) : M Z := l ← gE eh_qh_offsets; off ← lift (idx l i); mret (pool_offset_to_phys off).
Definition qtd_phys (i : Z) : M Z := l ← gE eh_qtd_offsets; off ← lift (idx l i); mret (pool_offset_to_phys off).

(** Words of a [QH] (horz_link, ep_chars, eps_bits, current_link, overlay: next, alt_next,
    token, buf) and of a [QTD] (next, alt_next, token, buf). *)
Definition put_words (p : Z) (ws : list Z) : M unit := ram_put p (concat (le_bytes 4 <$> ws)).
Definition qtd_token (p : Z) : M Z := ram_r 4 (p + 8).

(** ** The asynchronous schedule *)

Definition init_async_list : M unit :=
  on ← gE eh_async;
  if on : bool then mret tt else
  head_idx ← alloc_qh;
  head ← qh_ptr head_idx;
  head_phys ← qh_phys head_idx;
  put_words head [Z.lor head_phys QH_QH; Z.lor QH_HRL QH_INACTIVATE; 0; 0; QH_TERMINATE; QH_TERMINATE; 0];;
  op_wr OP_ASYNCLISTADDR head_phys;;
  c ← op_rd OP_USBCMD; op_wr OP_USBCMD (Z.lor c CMD_ASYNC_ENABLE);;
  spin (Z.to_nat 1000) (v ← op_rd OP_USBSTS; mret (negb (Z.land v STS_HCHALTED =? 0)));;
  set_glob (set_e (λ e, mkEhci (eh_op_base e) (eh_n_ports e) true (eh_dma_used e) (eh_qh_offsets e) (eh_qh_count e)
                          (eh_qtd_offsets e) (eh_qtd_count e))).

Definition qh_insert (i : Z) : M unit :=
  on ← gE eh_async;
  if negb on then mret tt else
  a ← op_rd OP_ASYNCLISTADDR;
  let head_phys := clear32 a 0x1F in
  qh ← qh_ptr i;
  qh_phys_addr ← qh_phys i;
  ram_w 4 qh (Z.lor head_phys QH_QH);;
  ram_w 4 head_phys (Z.lor qh_phys_addr QH_QH);;
  st ← op_rd OP_USBSTS;
  if negb (Z.land st STS_ASYNC_ADVANCE =? 0) then op_wr OP_USBSTS STS_ASYNC_ADVANCE else mret tt.

Fixpoint remove_loop (fuel : nat) (i head_phys qh_phys_addr prev_phys : Z) : M unit :=
  match fuel with
  | O => panic
  | S fuel =>
      v ← ram_r 4 prev_phys;
      let next := clear32 v 0x1F in
      if next =? qh_phys_addr then
        qh ← qh_ptr i; qh_next ← ram_r 4 qh; ram_w 4 prev_phys qh_next
      else if (next =? 0) || (next =? head_phys) then mret tt
      else remove_loop fuel i head_phys qh_phys_addr next
  end.
Definition qh_remove (i : Z) : M unit :=
  on ← gE eh_async;
  if negb on then mret tt else
  a ← op_rd OP_ASYNCLISTADDR;
  let head_phys := clear32 a 0x1F in
  qh_phys_addr ← qh_phys i;
  remove_loop remove_fuel i head_phys qh_phys_addr head_phys.

(** ** EHCI control transfers *)

Fixpoint alloc_qtds (n : nat) : M (list Z) :=
  match n with
  | O => mret []
  | S n => i ← alloc_qtd; l ← alloc_qtds n; mret (i :: l)
  end.

(** [for i in 0..data_qtds]; [pos] is [buf_pos], the result its final value. *)
Fixpoint data_qtds_loop (n : nat) (i data_qtds qtd_count : Z) (qtds : list Z) (data data_len data_pid pos : Z) : M Z :=
  match n with
  | O => mret pos
  | S n =>
      q ← lift (idx qtds (1 + i)); dqtd ← qtd_ptr q;
      let chunk := Z.min (w32 (data_len - pos)) QTD_BUF_SIZE in
      let buf_phys := w32 (data + pos) in
      j ← lift (idx qtds (if i + 1 <? data_qtds then 1 + i + 1 else qtd_count - 1));
      next_d ← qtd_phys j;
      put_words dqtd
        [if 0 <? data_len then next_d else QH_TERMINATE; QH_TERMINATE;
         Z.lor (Z.lor (Z.lor data_pid QTD_CERR_3) (w32 (Z.shiftl chunk QTD_TOTAL_LEN_SHIFT))) QTD_ACTIVE;
         buf_phys; 0; 0; 0; 0];;
      data_qtds_loop n (i + 1) data_qtds qtd_count qtds data data_len data_pid (pos + chunk)
  end.

(** What a look at the data descriptors shows. *)
Inductive Look := LookDone (bytes_xfered : Z) | LookActive (bytes_xfered : Z) | LookError.
Fixpoint look_data (n : nat) (i : Z) (qtds : list Z) (pos data_len xfered : Z) : M Look :=
  match n with
  | O => mret (LookDone xfered)
  | S n =>
      q ← lift (idx qtds (1 + i)); dqtd ← qtd_ptr q;
      dt ← qtd_token dqtd;
      if negb (Z.land dt QTD_ACTIVE =? 0) then mret (LookActive xfered)
      else if negb (Z.land dt QTD_ERROR =? 0) then mret LookError
      else qtd_token dqtd;; look_data n (i + 1) qtds pos data_len (Z.max xfered (Z.min pos data_len))
  end.

Fixpoint ehci_poll (t : nat) (qh_idx sqtd stqtd data_qtds : Z) (qtds : list Z) (pos data_len xfered : Z) : M Z :=
  status ← op_rd OP_USBSTS;
  if negb (Z.land status STS_HCHALTED =? 0) then qh_remove qh_idx;; fail Io else
  let again := λ xfered, match t with
    | O => qh_remove qh_idx;; fail Io
    | S t => ehci_poll t qh_idx sqtd stqtd data_qtds qtds pos data_len xfered
    end in
  token ← qtd_token sqtd;
  if negb (Z.land token QTD_ACTIVE =? 0) then again xfered
  else if negb (Z.land token QTD_ERROR =? 0) then qh_remove qh_idx;; fail Io
  else
    look ← look_data (Z.to_nat data_qtds) 0 qtds pos data_len xfered;
    match look with
    | LookError => qh_remove qh_idx;; fail Io
    | LookActive xfered => again xfered
    | LookDone xfered =>
        stoken ← qtd_token stqtd;
        if (Z.land stoken QTD_ACTIVE =? 0) && (Z.land stoken QTD_ERROR =? 0) then qh_remove qh_idx;; mret xfered
        else again xfered
    end.

(** [data]: the address and length of the buffer, if there is one. *)
Definition ehci_control_transfer (dev_addr setup_pkt : Z) (data : option (Z * Z)) (data_in : bool) (max_pkt : Z) : M Z :=
  on ← gE eh_async;
  (if on : bool then mret tt else init_async_list);;
  let data_len := match data with Some (_, n) => w32 n | None => 0 end in
  let data_addr := match data with Some (a, _) => a | None => 0 end in
  let data_qtds := if 0 <? data_len then w32 (data_len + QTD_BUF_SIZE - 1) / QTD_BUF_SIZE else 0 in
  let qtd_count := 1 + data_qtds + 1 in
  if MAX_QTD <? qtd_count then fail NoMem else
  qh_idx ← alloc_qh;
  qh ← qh_ptr qh_idx;
  let data_pid := if data_in then QTD_PID_IN else QTD_PID_OUT in
  qtds ← alloc_qtds (Z.to_nat qtd_count);
  q0 ← lift (idx qtds 0); sqtd ← qtd_ptr q0;
  let setup_phys := w32 setup_pkt in
  q1 ← lift (idx qtds 1); next_phys ← qtd_phys q1;
  let setup_token := Z.lor (Z.lor (Z.lor QTD_PID_SETUP QTD_CERR_3) (Z.shiftl 8 QTD_TOTAL_LEN_SHIFT)) QTD_ACTIVE in
  put_words sqtd [next_phys; QH_TERMINATE; setup_token; setup_phys; 0; 0; 0; 0];;
  pos ← data_qtds_loop (Z.to_nat data_qtds) 0 data_qtds qtd_count qtds data_addr data_len data_pid 0;
  let status_pid := if data_in || (data_len =? 0) then QTD_PID_OUT else QTD_PID_IN in
  qs ← lift (idx qtds (qtd_count - 1)); stqtd ← qtd_ptr qs;
  put_words stqtd [QH_TERMINATE; QH_TERMINATE; Z.lor (Z.lor (Z.lor status_pid QTD_CERR_3) QTD_TOGGLE) QTD_ACTIVE; 0; 0; 0; 0; 0];;
  first ← qtd_phys q0;
  put_words qh
    [0; Z.lor (Z.lor (Z.lor (w32 (Z.shiftl dev_addr QH_DEV_ADDR_SHIFT)) QH_EPS_HIGH) QH_DTC)
          (w32 (Z.shiftl (Z.min max_pkt 8) QH_MPL_SHIFT));
     0; first; first; QH_TERMINATE; setup_token; setup_phys; 0; 0; 0; 0];;
  qh_insert qh_idx;;
  ehci_poll (Z.to_nat 500000) qh_idx sqtd stqtd data_qtds qtds pos data_len 0.

(** ** Set-up of EHCI *)

Definition probe_ehci (base : Z) : M bool :=
  if base =? 0 then mret false else
  v ← mmio_r 1 (base + EHCI_CAP_VERSION); mret (Z.shiftr v 4 =? 1).

Definition init_ehci (base : Z) : M unit :=
  there ← probe_ehci base;
  if negb there then fail NoEnt else
  cap_len ← mmio_r 1 (base + EHCI_CAP_LENGTH);
  hcs ← mmio_r 4 (base + EHCI_CAP_HCSPARAMS);
  set_glob (set_e (λ e, mkEhci (base + cap_len) (Z.land hcs 0xF) false 0 (eh_qh_offsets e) 0 (eh_qtd_offsets e) 0));;
  op_wr OP_USBCMD CMD_RESET;;
  t ← spin (Z.to_nat 100000) (v ← op_rd OP_USBCMD; mret (negb (Z.land v CMD_RESET =? 0)));
  if t =? 0 then fail Io else
  op_wr OP_CTRLDSSEGMENT 0;;
  op_wr OP_CONFIGFLAG 1;;
  op_wr OP_USBCMD CMD_RUN;;
  t ← spin (Z.to_nat 100000) (v ← op_rd OP_USBSTS; mret (negb (Z.land v STS_HCHALTED =? 0)));
  if t =? 0 then fail Io else
  init_async_list;;
  set_glob (set_active EhciController).

(** ** OHCI pool *)

Definition ohci_rd (reg : Z) : M Z := b ← gO oh_base; mmio_r 4 (b + reg).
Definition ohci_wr (reg v : Z) : M unit := b ← gO oh_base; mmio_w 4 (b + reg) v.
Definition ohci_pool_phys (off : Z) : Z := w32 (ohci_dma_base + off).

Definition ohci_alloc_dma (size : Z) : M Z :=
  let aligned := round_up size 15 in
  off ← gO oh_dma_used;
  if OHCI_DMA_POOL_SIZE <? off + aligned then fail NoMem else
  set_glob (set_o (λ o, mkOhci (oh_base o) (oh_n_ports o) (oh_hcca_pa o) (oh_hcca_ready o) (off + aligned) (oh_ed_offsets o)
                          (oh_ed_count o) (oh_td_offsets o) (oh_td_count o)));;
  ram_put (ohci_dma_base + off) (zeros aligned);;
  mret off.

Definition ohci_alloc_ed : M Z :=
  n ← gO oh_ed_count;
  if MAX_OHCI_ED <=? n then fail NoMem else
  off ← ohci_alloc_dma OHCI_ED_SIZE;
  l ← gO oh_ed_offsets; l ← lift (set_idx l n off);
  set_glob (set_o (λ o, mkOhci (oh_base o) (oh_n_ports o) (oh_hcca_pa o) (oh_hcca_ready o) (oh_dma_used o) l (n + 1)
                          (oh_td_offsets o) (oh_td_count o)));;
  mret n.
Definition ohci_alloc_td : M Z :=
  n ← gO oh_td_count;
  if MAX_OHCI_TD <=? n then fail NoMem else
  off ← ohci_alloc_dma OHCI_TD_SIZE;
  l ← gO oh_td_offsets; l ← lift (set_idx l n off);
  set_glob (set_o (λ o, mkOhci (oh_base o) (oh_n_ports o) (oh_hcca_pa o) (oh_hcca_ready o) (oh_dma_used o) (oh_ed_offsets o)
                          (oh_ed_count o) l (n + 1)));;
  mret n.

Definition ohci_ed_ptr (i : Z) : M Z := l ← gO oh_ed_offsets; off ← lift (idx l i); mret (ohci_dma_base + off).
Definition ohci_td_ptr (i : Z) : M Z := l ← gO oh_td_offsets; off ← lift (idx l i); mret (ohci_dma_base + off).
Definition ohci_ed_phys (i : Z) : M Z := l ← gO oh_ed_offsets; off ← lift (idx l i); mret (ohci_pool_phys off).
Definition ohci_td_phys (i : Z) : M Z := l ← gO oh_td_offsets; off ← lift (idx l i); mret (ohci_pool_phys off).

(** ** OHCI set-up *)

Definition probe_ohci (base : Z) : M bool :=
  if base =? 0 then mret false else
  v ← mmio_r 4 (base + OHCI_HC_REV);
  mret ((Z.land v 0xFF =? 0) && (0x10 <=? Z.land (Z.shiftr v 16) 0xFFFF)).

Definition hcca_ready (b : bool) : M unit :=
  set_glob (set_o (λ o, mkOhci (oh_base o) (oh_n_ports o) (oh_hcca_pa o) b (oh_dma_used o) (oh_ed_offsets o) (oh_ed_count o)
                          (oh_td_offsets o) (oh_td_count o))).

Definition port_reg (i : Z) : Z := OHCI_HC_RH_PORT_STATUS + 4 * i.

Definition init_ohci (base : Z) : M unit :=
  there ← probe_ohci base;
  if negb there then fail NoEnt else
  set_glob (set_o (λ o, mkOhci base (oh_n_ports o) (oh_hcca_pa o) (oh_hcca_ready o) (oh_dma_used o) (oh_ed_offsets o)
                          (oh_ed_count o) (oh_td_offsets o) (oh_td_count o)));;
  desc_a ← ohci_rd OHCI_HC_RH_DESC_A;
  set_glob (set_o (λ o, mkOhci (oh_base o) (Z.land desc_a 0xFF) (oh_hcca_pa o) (oh_hcca_ready o) (oh_dma_used o)
                          (oh_ed_offsets o) (oh_ed_count o) (oh_td_offsets o) (oh_td_count o)));;
  pa ← page_zero;
  let hcca_pa := w32 pa in
  set_glob (set_o (λ o, mkOhci (oh_base o) (oh_n_ports o) hcca_pa true (oh_dma_used o) (oh_ed_offsets o) (oh_ed_count o)
                          (oh_td_offsets o) (oh_td_count o)));;
  ohci_wr OHCI_HC_HCCA hcca_pa;;
  ohci_wr OHCI_HC_COMMAND_STATUS OHCI_CMD_HCR;;
  t ← spin (Z.to_nat 100000) (v ← ohci_rd OHCI_HC_COMMAND_STATUS; mret (negb (Z.land v OHCI_CMD_HCR =? 0)));
  if t =? 0 then hcca_ready false;; fail Io else
  fi ← ohci_rd OHCI_HC_FM_INTERVAL;
  let fi_fit := Z.land fi 0x3FFF in
  let fsmps := w32 (Z.shiftl (w32 (fi_fit * 9) / 10) 16) in
  ohci_wr OHCI_HC_FM_INTERVAL (Z.lor (Z.land fi 0xFFFF) fsmps);;
  ohci_wr OHCI_HC_PERIODIC_START (w32 (fi_fit * 9) / 10);;
  ohci_wr OHCI_HC_LS_THRESHOLD 0x628;;
  ohci_wr OHCI_HC_CONTROL_HEAD_ED 0;;
  ohci_wr OHCI_HC_CONTROL_CURRENT_ED 0;;
  ohci_wr OHCI_HC_BULK_HEAD_ED 0;;
  ohci_wr OHCI_HC_BULK_CURRENT_ED 0;;
  ohci_wr OHCI_HC_INTERRUPT_STATUS 0xFFFFFFFF;;
  ohci_wr OHCI_HC_CONTROL (Z.lor (Z.lor (Z.lor OHCI_CTRL_HCFS_OPER OHCI_CTRL_CLE) OHCI_CTRL_BLE) OHCI_CTRL_RWE);;
  t ← spin (Z.to_nat 100000) (v ← ohci_rd OHCI_HC_CONTROL; mret (negb (Z.land v OHCI_CTRL_HCFS_MASK =? OHCI_CTRL_HCFS_OPER)));
  if t =? 0 then hcca_ready false;; fail Io else
  ohci_wr OHCI_HC_RH_STATUS (Z.shiftl 1 16);;
  n ← gO oh_n_ports;
  each (seqZ 0 n) (λ i, ps ← ohci_rd (port_reg i); ohci_wr (port_reg i) (Z.lor ps RH_PS_PPS));;
  each (seqZ 0 n) (λ i, ohci_wr (port_reg i) (Z.lor RH_PS_CSC RH_PS_PRSC));;
  set_glob (set_active OhciController).

(** ** OHCI control transfers *)

(** Take the control list away. *)
Definition unlink_control : M unit := ohci_wr OHCI_HC_CONTROL_HEAD_ED 0;; ohci_wr OHCI_HC_CONTROL_CURRENT_ED 0.

(** Words of an [OhciED] (control, tail, head, next) and of an [OhciTD] (control, cbp, next, be). *)
Definition cc_of (td : Z) : M Z := c ← ram_r 4 td; mret (Z.land c TD_CC_MASK).

Fixpoint ohci_poll (t : nat) (ed setup_td : Z) (data_td : option Z) (status_td data_len : Z) : M Z :=
  ctrl ← ohci_rd OHCI_HC_CONTROL;
  if negb (Z.land ctrl OHCI_CTRL_HCFS_MASK =? OHCI_CTRL_HCFS_OPER) then unlink_control;; fail Io else
  h ← ram_r 4 (ed + 8);
  if negb (Z.land h 1 =? 0) then unlink_control;; fail Io else
  h ← ram_r 4 (ed + 8);
  tl ← ram_r 4 (ed + 4);
  if clear32 h 1 =? clear32 tl 0xF then
    setup_cc ← cc_of setup_td;
    if negb (setup_cc =? 0) then unlink_control;; fail Io else
    data_cc ← match data_td with Some dt => cc_of dt | None => mret 0 end;
    if negb (data_cc =? 0) then unlink_control;; fail Io else
    status_cc ← cc_of status_td;
    if negb (status_cc =? 0) then unlink_control;; fail Io else
    unlink_control;; mret data_len
  else match t with
    | O => unlink_control;; fail Io
    | S t => ohci_poll t ed setup_td data_td status_td data_len
    end.

Definition ohci_control_transfer (dev_addr setup_pkt : Z) (data : option (Z * Z)) (data_in : bool) (max_pkt speed : Z) : M Z :=
  let data_len := match data with Some (_, n) => w32 n | None => 0 end in
  let buf_phys := match data with Some (a, _) => w32 a | None => 0 end in
  if MAX_OHCI_TD <? 2 + (if 0 <? data_len then 1 else 0) then fail NoMem else
  ed_idx ← ohci_alloc_ed;
  setup_td_idx ← ohci_alloc_td;
  data_td_idx ← (if 0 <? data_len then i ← ohci_alloc_td; mret (Some i) else mret None);
  status_td_idx ← ohci_alloc_td;
  ed ← ohci_ed_ptr ed_idx;
  setup_td ← ohci_td_ptr setup_td_idx;
  status_td ← ohci_td_ptr status_td_idx;
  let setup_phys := w32 setup_pkt in
  data_td_phys ← match data_td_idx with Some i => ohci_td_phys i | None => mret 0 end;
  status_td_phys ← ohci_td_phys status_td_idx;
  let next_after_setup := if 0 <? data_len then data_td_phys else status_td_phys in
  put_words setup_td
    [Z.lor (Z.lor (Z.lor (Z.lor TD_CC_NOT_ACCESSED TD_T_DATA0) TD_DI_NO_INTR) TD_DP_SETUP) TD_R_3;
     setup_phys; next_after_setup; w32 (setup_phys + 7)];;
  data_td ← match data_td_idx with Some i => dt ← ohci_td_ptr i; mret (Some dt) | None => mret None end;
  match data_td with
  | Some dt =>
      put_words dt
        [Z.lor (Z.lor (Z.lor (Z.lor TD_CC_NOT_ACCESSED TD_T_DATA1) TD_DI_NO_INTR) (if data_in then TD_DP_IN else TD_DP_OUT)) TD_R_3;
         buf_phys; status_td_phys; w32 (buf_phys + data_len - 1)]
  | None => mret tt
  end;;
  let status_dp := if (0 <? data_len) && data_in then TD_DP_OUT else TD_DP_IN in
  put_words status_td
    [Z.lor (Z.lor (Z.lor (Z.lor TD_CC_NOT_ACCESSED TD_T_DATA1) TD_DI_NO_INTR) status_dp) TD_R_3; 0; TD_TERMINATE; 0];;
  let speed_bits := if negb (speed =? 0) then ED_SPEED_LOW else ED_SPEED_FULL in
  let mps := Z.shiftl (Z.min max_pkt 255) ED_MPS_SHIFT in
  head ← ohci_td_phys setup_td_idx;
  put_words ed [Z.lor (Z.lor (Z.shiftl dev_addr ED_FA_SHIFT) speed_bits) mps; status_td_phys; head; ED_TERMINATE];;
  edp ← ohci_ed_phys ed_idx;
  ohci_wr OHCI_HC_CONTROL_HEAD_ED edp;;
  ohci_wr OHCI_HC_CONTROL_CURRENT_ED edp;;
  c ← ohci_rd OHCI_HC_CONTROL; ohci_wr OHCI_HC_CONTROL (Z.lor c OHCI_CTRL_CLE);;
  ohci_wr OHCI_HC_COMMAND_STATUS OHCI_CMD_CLF;;
  ohci_poll (Z.to_nat 500000) ed setup_td data_td status_td data_len.

(** ** Ports *)

Definition ohci_port_status (i : Z) : M Z :=
  n ← gO oh_n_ports; if n <=? i then fail Range else ohci_rd (port_reg i).
Definition ohci_port_reset (i : Z) : M unit :=
  n ← gO oh_n_ports;
  if n <=? i then fail Range else
  let reg := port_reg i in
  v ← ohci_rd reg; ohci_wr reg (Z.lor v RH_PS_PPS);;
  v ← ohci_rd reg; ohci_wr reg (Z.lor v RH_PS_PRS);;
  t ← spin (Z.to_nat 100000) (v ← ohci_rd reg; mret (negb (Z.land v RH_PS_PRS =? 0)));
  if t =? 0 then fail Io else
  v ← ohci_rd reg; ohci_wr reg (Z.lor v RH_PS_PES).
Definition ohci_port_enable (i : Z) : M unit :=
  n ← gO oh_n_ports;
  if n <=? i then fail Range else v ← ohci_rd (port_reg i); ohci_wr (port_reg i) (Z.lor v RH_PS_PES).
Definition ohci_port_speed (i : Z) : M Z :=
  ps ← ohci_port_status i; mret (if negb (Z.land ps RH_PS_LSDA =? 0) then 1 else 0).

(** ** The active controller *)

Definition control_transfer (dev_addr setup_pkt : Z) (data : option (Z * Z)) (data_in : bool) (max_pkt : Z) : M Z :=
  c ← glob us_active;
  match c with
  | EhciController => ehci_control_transfer dev_addr setup_pkt data data_in max_pkt
  | OhciController => ohci_control_transfer dev_addr setup_pkt data data_in max_pkt 0
  | NoController => fail NoSys
  end.
Definition n_ports : M Z :=
  c ← glob us_active;
  match c with EhciController => gE eh_n_ports | OhciController => gO oh_n_ports | NoController => mret 0 end.
Definition port_status (i : Z) : M Z :=
  c ← glob us_active;
  match c with
  | EhciController => n ← gE eh_n_ports; if n <=? i then fail Range else op_rd (OP_PORTSC + 4 * i)
  | OhciController => ohci_port_status i
  | NoController => fail NoSys
  end.
Definition port_reset (i : Z) : M unit :=
  c ← glob us_active;
  match c with
  | EhciController =>
      n ← gE eh_n_ports;
      if n <=? i then fail Range else
      let reg := OP_PORTSC + 4 * i in
      v ← op_rd reg; op_wr reg (Z.lor v (Z.shiftl 1 8));;
      t ← spin (Z.to_nat 100000) (v ← op_rd reg; mret (negb (Z.land v (Z.shiftl 1 8) =? 0)));
      if t =? 0 then fail Io else mret tt
  | OhciController => ohci_port_reset i
  | NoController => fail NoSys
  end.
Definition port_enable (i : Z) : M unit :=
  c ← glob us_active;
  match c with
  | EhciController =>
      n ← gE eh_n_ports;
      if n <=? i then fail Range else
      let reg := OP_PORTSC + 4 * i in v ← op_rd reg; op_wr reg (Z.lor v (Z.shiftl 1 2))
  | OhciController => ohci_port_enable i
  | NoController => fail NoSys
  end.

Definition init_usb : M unit :=
  e ← probe_ehci EHCI_BASE;
  if e : bool then init_ehci EHCI_BASE else
  o ← probe_ohci OHCI_BASE;
  if o : bool then init_ohci OHCI_BASE else fail NoEnt.
End Usb.
