(* ===== verification/DriverProps.v ===== *)
(** * Theorems on keyboards, random numbers and USB

    drivers/ps2.rs: the keyboard follows its modifier keys. drivers/entropy.rs: the
    generator permutes its states, and draws are unbiased. drivers/usb.rs: descriptors
    are handed out, never back. *)

From S2P Require Import Prelude Pmm Bus Virtio VirtioDevs Input Rand Usb.
From stdpp Require Import base list numbers gmap.
From Stdlib Require Import ZArith Lia.

Open Scope Z_scope.

(** ** Keyboards *)

(** The scancodes of a session, one after another. *)
Fixpoint ps2_run (scs : list Z) (g : Ps2) : result (list Event * Ps2) :=
  match scs with
  | [] => Ok ([], g)
  | sc :: scs => r ← ps2_translate sc g; t ← ps2_run scs r.2; Ok (r.1 :: t.1, t.2)
  end.

Definition key_of (sc : Z) : Z := Z.land sc 0x7F.
Definition pressed (sc : Z) : bool := Z.land sc 0x80 =? 0.
Definition shift_key (sc : Z) : bool := (key_of sc =? 42) || (key_of sc =? 54).

(** What the keys say: shift is as the last shift key left it, caps lock turns over
    with every press. *)
Definition shift_after (b : bool) (sc : Z) : bool := if shift_key sc then pressed sc else b.
Definition caps_after (b : bool) (sc : Z) : bool := if (key_of sc =? 58) && pressed sc then negb b else b.

(** A letter is upper case when shift and caps lock differ. *)
Definition case_ok (g : Ps2) (ev : Event) : bool :=
  match ev with
  | EvKey (Letter c) _ => if xorb (ps_shift g) (ps_caps g) then (65 <=? c) && (c <=? 90) else (97 <=? c) && (c <=? 122)
  | EvKey (Digit c) _ => if ps_shift g then bool_decide (c ∈ SHIFTED) else (48 <=? c) && (c <=? 57)
  | _ => true
  end.

Definition step_ok (g : Ps2) (sc : Z) : bool :=
  match ps2_translate sc g with
  | Ok (ev, g') =>
      Bool.eqb (ps_shift g') (shift_after (ps_shift g) sc) && Bool.eqb (ps_caps g') (caps_after (ps_caps g) sc) && case_ok g ev
  | _ => false
  end.

Lemma all_steps_ok :
  forallb (λ sc, forallb (λ g, step_ok g sc) [mkPs2 false false; mkPs2 false true; mkPs2 true false; mkPs2 true true])
    (seqZ 0 256) = true.
Proof. by vm_compute. Qed.

Lemma step_facts g sc : u8 sc →
  ∃ ev, ps2_translate sc g = Ok (ev, mkPs2 (shift_after (ps_shift g) sc) (caps_after (ps_caps g) sc)) ∧ case_ok g ev = true.
Proof.
  intros Hsc. pose proof all_steps_ok as H. rewrite forallb_forall in H.
  specialize (H sc). rewrite forallb_forall in H. specialize (H ltac:(apply list_elem_of_In, elem_of_seqZ; unfold u8 in Hsc; lia) g).
  assert (step_ok g sc = true) as Hs.
  { apply H. destruct g as [[] []]; cbn; tauto. }
  unfold step_ok in Hs. destruct (ps2_translate sc g) as [[ev [s c]]| |]; [|done..]. cbn [ps_shift ps_caps] in Hs.
  apply andb_true_iff in Hs as [Hs Hc]. apply andb_true_iff in Hs as [H1 H2].
  apply Bool.eqb_prop in H1 as ->. apply Bool.eqb_prop in H2 as ->. eauto.
Qed.

Module InputTheorems.

(** The keyboard driver tracks its modifiers: every stream of scancodes is
    translated without a panic, one event for each, shift is what the last shift key
    left and caps lock turns over with each press of its key; each letter and digit
    comes out in the case the modifiers at that moment say. *)
Theorem ps2_tracks_modifiers scs g : Forall u8 scs →
  ∃ evs, ps2_run scs g = Ok (evs, mkPs2 (foldl shift_after (ps_shift g) scs) (foldl caps_after (ps_caps g) scs)) ∧
    length evs = length scs ∧
    ∀ i ev, evs !! i = Some ev →
      case_ok (mkPs2 (foldl shift_after (ps_shift g) (take i scs)) (foldl caps_after (ps_caps g) (take i scs))) ev = true.
Proof.
  intros Hs. revert g. induction Hs as [|sc scs Hsc _ IH]; intros g; [by destruct g; eexists|].
  destruct (step_facts g sc Hsc) as (ev & Hev & Hcase). destruct (IH (mkPs2 (shift_after (ps_shift g) sc) (caps_after (ps_caps g) sc))) as (evs & Hr & Hl & Hc).
  exists (ev :: evs). cbn [ps2_run]. rewrite Hev, bind_ok. cbn [fst snd]. rewrite Hr, bind_ok. cbn in Hl |- *.
  split_and!; [done|by rewrite Hl|]. intros [|i] e; cbn [lookup list_lookup]; [intros [= <-]; by destruct g|]. apply Hc.
Qed.

Lemma ps2_tracks_modifiers_witness :
  ∃ evs, ps2_run [0x2A; 0x1E; 0xAA; 0x1E] ps2_new = Ok (evs, mkPs2 false false) ∧ length evs = 4%nat ∧
    evs = [EvKey LeftShift true; EvKey (Letter 65) true; EvKey LeftShift false; EvKey (Letter 97) true].
Proof.
  destruct (ps2_tracks_modifiers [0x2A; 0x1E; 0xAA; 0x1E] ps2_new) as (evs & Hr & Hl & _).
  - repeat (apply Forall_cons_2; [unfold u8; lia|]). apply Forall_nil_2.
  - exists evs. split; [exact Hr|]. split; [exact Hl|]. vm_compute in Hr. by injection Hr as <-.
Defined.

(** The key W types R and the key S types B, with both kinds of keyboard: the letters
    are taken for an alphabetical row. *)
Theorem letters_in_alphabetical_order :
  scancode_to_key ps2_new 17 = Ok (Letter 114) ∧ linux_to_keycode 17 = Letter 114 ∧
  scancode_to_key ps2_new 31 = Ok (Letter 98) ∧ linux_to_keycode 31 = Letter 98.
Proof. by vm_compute. Qed.
End InputTheorems.

(** ** Random numbers *)

(** ** Words of 64 bits *)

Lemma u64_bits x y : u64 x → u64 y → (∀ i, 0 ≤ i < 64 → Z.testbit x i = Z.testbit y i) → x = y.
Proof.
  unfold u64. intros Hx Hy H. apply Z.bits_inj'. intros i Hi. destruct (decide (i < 64)); [by apply H|].
  by rewrite !(testbit_high _ 64 i) by (change (2 ^ 64) with 18446744073709551616; lia).
Qed.

Lemma u64_of_bits x : 0 ≤ x → (∀ i, 64 ≤ i → Z.testbit x i = false) → u64 x.
Proof.
  intros H0 Hx. split; [done|]. change 18446744073709551616 with (2 ^ 64).
  destruct (decide (x = 0)) as [->|]; [lia|]. apply Z.log2_lt_pow2; [lia|].
  destruct (decide (Z.log2 x < 64)); [done|]. pose proof (Z.bit_log2 x ltac:(lia)) as Hb. by rewrite Hx in Hb by lia.
Qed.

Lemma u64_high x i : u64 x → 64 ≤ i → Z.testbit x i = false.
Proof. intros Hx Hi. apply (testbit_high x 64 i); [|lia]. exact Hx. Qed.

Lemma lxor_u64 x y : u64 x → u64 y → u64 (Z.lxor x y).
Proof.
  intros Hx Hy. apply u64_of_bits; [apply Z.lxor_nonneg; unfold u64 in *; lia|].
  intros i Hi. by rewrite Z.lxor_spec, !u64_high.
Qed.

Lemma w64_u64 x : u64 (w64 x).
Proof. apply Z.mod_pos_bound. lia. Qed.

Lemma w64_shiftl_bit x k i : 0 ≤ k → 0 ≤ i < 64 → Z.testbit (w64 (Z.shiftl x k)) i = Z.testbit x (i - k).
Proof.
  intros Hk Hi. unfold w64. change 18446744073709551616 with (2 ^ 64). rewrite Z.mod_pow2_bits_low by lia. apply Z.shiftl_spec. lia.
Qed.

Lemma rotl_u64 x k : u64 x → 0 < k < 64 → u64 (rotl x k).
Proof.
  intros Hx Hk. unfold rotl. apply u64_of_bits.
  - apply Z.lor_nonneg. split; [apply w64_u64|]. apply Z.shiftr_nonneg. unfold u64 in Hx. lia.
  - intros i Hi. rewrite Z.lor_spec, (u64_high _ i (w64_u64 _)), Z.shiftr_spec by lia. by rewrite u64_high by (done || lia).
Qed.

Lemma rotl_bits x k i : u64 x → 0 < k < 64 → 0 ≤ i < 64 → Z.testbit (rotl x k) i = Z.testbit x ((i - k) mod 64).
Proof.
  intros Hx Hk Hi. unfold rotl. rewrite Z.lor_spec, w64_shiftl_bit, Z.shiftr_spec by lia.
  destruct (decide (k ≤ i)).
  - rewrite (Z.mod_small (i - k)) by lia. rewrite (u64_high x (i + (64 - k))) by (done || lia). apply orb_false_r.
  - rewrite (Z.testbit_neg_r x (i - k)) by lia. rewrite orb_false_l. f_equal. apply (Z.mod_unique_pos _ _ (-1)); lia.
Qed.

Lemma rotl_inj x y k : u64 x → u64 y → 0 < k < 64 → rotl x k = rotl y k → x = y.
Proof.
  intros Hx Hy Hk H. apply u64_bits; [done..|]. intros i Hi.
  apply (f_equal (λ z, Z.testbit z ((i + k) mod 64))) in H.
  rewrite !rotl_bits in H by (done || apply Z.mod_pos_bound; lia).
  replace (((i + k) mod 64 - k) mod 64) with i in H; [done|].
  rewrite Zminus_mod_idemp_l. replace (i + k - k) with i by lia. symmetry. by apply Z.mod_small.
Qed.

(** [x ^ (x << 17)] loses nothing: bit by bit from the lowest. *)
Lemma xorshift_inj x y k : u64 x → u64 y → 0 < k →
  Z.lxor x (w64 (Z.shiftl x k)) = Z.lxor y (w64 (Z.shiftl y k)) → x = y.
Proof.
  intros Hx Hy Hk H. apply u64_bits; [done..|]. intros i Hi.
  assert (∀ n : nat, ∀ j, 0 ≤ j < 64 → j < Z.of_nat n → Z.testbit x j = Z.testbit y j) as Hall; [|by apply (Hall 64%nat); lia].
  clear i Hi. induction n as [|n IH]; intros j Hj Hn; [lia|].
  apply (f_equal (λ z, Z.testbit z j)) in H. rewrite !Z.lxor_spec, !w64_shiftl_bit in H by lia.
  assert (Z.testbit x (j - k) = Z.testbit y (j - k)) as E.
  { destruct (decide (j < k)); [by rewrite !Z.testbit_neg_r by lia|]. apply IH; lia. }
  rewrite E in H. by destruct (Z.testbit x j), (Z.testbit y j), (Z.testbit y (j - k)).
Qed.

Lemma lxor_cancel_l a b c : Z.lxor a b = Z.lxor a c → b = c.
Proof. intros H. apply (f_equal (Z.lxor a)) in H. by rewrite <-!Z.lxor_assoc, !Z.lxor_nilpotent, !Z.lxor_0_l in H. Qed.

(** A state of the generator. *)
Definition words (st : list Z) : Prop := length st = 4%nat ∧ Forall u64 st.

Lemma words_inv st : words st → ∃ a b c d, st = [a; b; c; d] ∧ u64 a ∧ u64 b ∧ u64 c ∧ u64 d.
Proof.
  intros [Hl Hf]. destruct st as [|a [|b [|c [|d [|]]]]]; try done.
  rewrite !Forall_cons in Hf. destruct Hf as (? & ? & ? & ? & _). by exists a, b, c, d.
Qed.

Lemma xoshiro_words st : words st → ∃ r st', xoshiro st = Ok (r, st') ∧ u64 r ∧ words st'.
Proof.
  intros (a & b & c & d & -> & Ha & Hb & Hc & Hd)%words_inv. cbn [xoshiro]. eexists _, _. split; [done|].
  split; [apply w64_u64|]. split; [done|]. repeat (apply Forall_cons_2; [auto using lxor_u64, w64_u64|]); [|apply Forall_nil_2].
  apply rotl_u64; [by apply lxor_u64|lia].
Qed.

Lemma xoshiro_inj st1 st2 r1 r2 st : words st1 → words st2 →
  xoshiro st1 = Ok (r1, st) → xoshiro st2 = Ok (r2, st) → st1 = st2.
Proof.
  intros (a & b & c & d & -> & Ha & Hb & Hc & Hd)%words_inv (a' & b' & c' & d' & -> & Ha' & Hb' & Hc' & Hd')%words_inv.
  cbn [xoshiro]. intros [= _ <-] [= _ E0 E1 E2 E3].
  apply rotl_inj in E3; [|by apply lxor_u64..|lia].
  rewrite E3 in E0. rewrite (Z.lxor_comm a), (Z.lxor_comm a') in E0. apply lxor_cancel_l in E0. subst a'.
  assert (Z.lxor b (w64 (Z.shiftl b 17)) = Z.lxor b' (w64 (Z.shiftl b' 17))) as Eb.
  { assert (Z.lxor (Z.lxor b (Z.lxor c a)) (Z.lxor (Z.lxor c a) (w64 (Z.shiftl b 17))) =
            Z.lxor (Z.lxor b' (Z.lxor c' a)) (Z.lxor (Z.lxor c' a) (w64 (Z.shiftl b' 17)))) as E by congruence.
    rewrite !(Z.lxor_assoc b), !(Z.lxor_assoc b'), <-(Z.lxor_assoc (Z.lxor c a) (Z.lxor c a)),
      <-(Z.lxor_assoc (Z.lxor c' a) (Z.lxor c' a)), !Z.lxor_nilpotent, !Z.lxor_0_l in E. exact E. }
  apply xorshift_inj in Eb; [|done..|lia]. subst b'. apply lxor_cancel_l in E1.
  rewrite (Z.lxor_comm c), (Z.lxor_comm c') in E1. apply lxor_cancel_l in E1. subst c'.
  rewrite (Z.lxor_comm d), (Z.lxor_comm d') in E3. apply lxor_cancel_l in E3. by subst d'.
Qed.

(** ** Draws below a bound *)

Definition span : Z := 4294967296.
(** The words that are not rejected. *)
Definition accepted (bound v : Z) : Prop := span mod bound ≤ (v * bound) mod span.
#[global] Instance accepted_dec bound v : Decision (accepted bound v).
Proof. unfold accepted. apply _. Defined.

Lemma threshold bound : 0 < bound < span → w32 (4294967295 - bound + 1) mod bound = span mod bound.
Proof.
  unfold span. intros Hb. unfold w32. rewrite (Z.mod_small (4294967295 - bound + 1)) by lia.
  replace (4294967295 - bound + 1) with (4294967296 + (-1) * bound) by lia. apply Z_mod_plus_full.
Qed.

(** The words that give [k] are a run of [span / bound]. *)
Definition first_of (bound k : Z) : Z := (k * span + span mod bound + bound - 1) / bound.
Lemma run_of_words bound k v : 0 < bound < span → 0 ≤ k < bound → 0 ≤ v < span →
  accepted bound v ∧ (v * bound) / span = k ↔ first_of bound k ≤ v < first_of bound k + span / bound.
Proof.
  unfold accepted, first_of. intros Hb Hk Hv.
  pose proof (Z.div_mod span bound ltac:(lia)) as Hs. pose proof (Z.mod_pos_bound span bound ltac:(lia)) as Ht.
  set (t := span mod bound) in *. set (n := span / bound) in *. set (a := (k * span + t + bound - 1) / bound).
  assert (k * span + t ≤ a * bound < k * span + t + bound) as Ha.
  { unfold a. pose proof (Z.div_mod (k * span + t + bound - 1) bound ltac:(lia)).
    pose proof (Z.mod_pos_bound (k * span + t + bound - 1) bound ltac:(lia)). nia. }
  assert (0 < span) as Hsp by (unfold span; lia).
  pose proof (Z.div_mod (v * bound) span ltac:(lia)) as Hv1. pose proof (Z.mod_pos_bound (v * bound) span ltac:(lia)) as Hv2.
  split.
  - intros [H1 H2]. rewrite H2 in Hv1. nia.
  - intros [H1 H2]. assert (k * span + t ≤ v * bound < (k + 1) * span) as Hr by nia.
    assert ((v * bound) / span = k) as E.
    { symmetry. apply (Z.div_unique_pos _ _ _ (v * bound - k * span)); lia. }
    split; [|exact E]. rewrite E in Hv1. lia.
Qed.

Lemma run_bounds bound k : 0 < bound < span → 0 ≤ k < bound → 0 ≤ first_of bound k ∧ first_of bound k + span / bound ≤ span.
Proof.
  unfold first_of. intros Hb Hk. pose proof (Z.div_mod span bound ltac:(lia)). pose proof (Z.mod_pos_bound span bound ltac:(lia)).
  assert (0 < span) by (unfold span; lia). split; [apply Z.div_pos; nia|].
  apply Z.lt_succ_r. rewrite <-(Z.div_add _ (span / bound) bound) by lia. apply Z.div_lt_upper_bound; nia.
Qed.

(** The stream of words of a state. *)
Definition next_state (st : list Z) : list Z := match xoshiro st with Ok (_, st') => st' | _ => st end.
Definition word32 (st : list Z) : Z := match xoshiro st with Ok (r, _) => Z.land r 0xFFFFFFFF | _ => 0 end.

Lemma word32_range st : 0 ≤ word32 st < span.
Proof.
  unfold word32, span. destruct (xoshiro st) as [[r ?]| |]; [|lia..].
  change 0xFFFFFFFF with (Z.ones 32). rewrite Z.land_ones by lia. apply Z.mod_pos_bound. lia.
Qed.

Lemma words_next st : words st → words (next_state st).
Proof. intros Hw. unfold next_state. by destruct (xoshiro_words st Hw) as (r & st' & -> & _ & H). Qed.
Lemma words_iter n st : words st → words (Nat.iter n next_state st).
Proof. intros Hw. induction n; [done|]. cbn. by apply words_next. Qed.

Section Draw.
Context {D : Type} `{!Device D} (read_cycle : DM Rand D Z) (fuel : nat) (buf : Z).

Definition with_state (st : list Z) (s : Drv Rand D) : Drv Rand D :=
  mkDrv (set_ra_state st (dv_glob s)) (dv_ram s) (dv_dev s) (dv_pmm s).

Lemma next_u32_eq s : ra_seeded (dv_glob s) = true → words (ra_state (dv_glob s)) →
  next_u32 read_cycle fuel buf s = (Ok (word32 (ra_state (dv_glob s))), with_state (next_state (ra_state (dv_glob s))) s).
Proof.
  intros Hs Hw. destruct (xoshiro_words _ Hw) as (r & st' & E & _). unfold next_u32, next_u64, ensure_seeded, glob, set_glob, lift.
  cbv [mbind SM_bind gets modify mret SM_ret]. rewrite Hs, E. unfold word32, next_state. by rewrite E.
Qed.

Lemma below_loop_eq bound n : ∀ tries m s,
  0 < bound < span → ra_seeded (dv_glob s) = true → words (ra_state (dv_glob s)) → (n < tries)%nat →
  (match n with
   | O => span mod bound ≤ m mod span
   | S n => m mod span < span mod bound ∧ accepted bound (word32 (Nat.iter n next_state (ra_state (dv_glob s)))) ∧
       ∀ i, (i < n)%nat → ¬ accepted bound (word32 (Nat.iter i next_state (ra_state (dv_glob s))))
   end) →
  below_loop read_cycle fuel tries buf bound (span mod bound) m s =
    (Ok (match n with O => m | S n => word32 (Nat.iter n next_state (ra_state (dv_glob s))) * bound end / span),
     with_state (Nat.iter n next_state (ra_state (dv_glob s))) s).
Proof.
  induction n as [|n IH]; intros tries m s Hb Hs Hw Ht Hm; (destruct tries as [|tries]; [lia|]); cbn [below_loop].
  - change (w32 m) with (m mod span). rewrite (proj2 (Z.ltb_ge _ _)) by done. cbn. rewrite Z.shiftr_div_pow2 by lia.
    by destruct s as [[] ? ? ?].
  - destruct Hm as (Hm & Hacc & Hrej). change (w32 m) with (m mod span). rewrite (proj2 (Z.ltb_lt _ _)) by done.
    erewrite sm_bind_ok by (by apply next_u32_eq).
    set (s1 := with_state _ s). rewrite (IH tries _ s1); [|done|done|by apply words_next|lia|].
    + destruct n as [|n]; [by destruct s as [[] ? ? ?]|]. unfold s1. cbn [dv_glob with_state ra_state set_ra_state].
      rewrite <-!Nat.iter_succ_r. by destruct s as [[] ? ? ?].
    + unfold s1. cbn [dv_glob with_state ra_state set_ra_state]. destruct n as [|n]; [exact Hacc|].
      rewrite <-Nat.iter_succ_r. split_and!; [|exact Hacc|].
      * specialize (Hrej 0%nat ltac:(lia)). unfold accepted in Hrej. cbn in Hrej. lia.
      * intros i Hi. rewrite <-Nat.iter_succ_r. apply Hrej. lia.
Qed.

Lemma below_eq n tries bound s :
  0 < bound < span → ra_seeded (dv_glob s) = true → words (ra_state (dv_glob s)) → (n ≤ tries)%nat →
  accepted bound (word32 (Nat.iter n next_state (ra_state (dv_glob s)))) →
  (∀ i, (i < n)%nat → ¬ accepted bound (word32 (Nat.iter i next_state (ra_state (dv_glob s))))) →
  below read_cycle fuel tries buf bound s =
    (Ok (word32 (Nat.iter n next_state (ra_state (dv_glob s))) * bound / span),
     with_state (Nat.iter (S n) next_state (ra_state (dv_glob s))) s).
Proof.
  intros Hb Hs Hw Hn Hacc Hrej. unfold below. rewrite (proj2 (Z.eqb_neq _ _)) by lia.
  erewrite sm_bind_ok by (by apply next_u32_eq). set (s1 := with_state _ s). cbv zeta.
  assert (words (ra_state (dv_glob s1))) as Hw1 by (by apply words_next).
  rewrite threshold by done. pose proof (Z.mod_pos_bound span bound ltac:(lia)) as Ht.
  destruct n as [|n].
  - destruct (w32 _ <? bound).
    + rewrite (below_loop_eq bound 0 (S tries) _ s1); [|done|done|done|lia|exact Hacc]. by destruct s as [[] ? ? ?].
    + cbn. rewrite Z.shiftr_div_pow2 by lia. by destruct s as [[] ? ? ?].
  - specialize (Hrej 0%nat ltac:(lia)) as Hr0. unfold accepted in Hr0. cbn in Hr0.
    rewrite (proj2 (Z.ltb_lt _ _)) by (change (w32 ?x) with (x mod span); lia).
    rewrite (below_loop_eq bound (S n) (S tries) _ s1); [|done|done|done|lia|].
    + unfold s1. cbn [dv_glob with_state ra_state set_ra_state]. rewrite <-!Nat.iter_succ_r. by destruct s as [[] ? ? ?].
    + unfold s1. cbn [dv_glob with_state ra_state set_ra_state]. split_and!; [lia|by rewrite <-Nat.iter_succ_r|].
      intros i Hi. rewrite <-Nat.iter_succ_r. apply Hrej. lia.
Qed.
End Draw.

Module RandTheorems.

(** A step of the generator is a permutation of its states: from any four words it
    gives an output and four words, no two states lead to the same one, and a state that
    is not all zero (as seeding leaves it) never becomes all zero. *)
Theorem generator_permutes st1 st2 : words st1 → words st2 →
  ∃ r1 n1 r2 n2, xoshiro st1 = Ok (r1, n1) ∧ xoshiro st2 = Ok (r2, n2) ∧ u64 r1 ∧ words n1 ∧
    (n1 = n2 ↔ st1 = st2) ∧ (n1 = ZERO_STATE ↔ st1 = ZERO_STATE).
Proof.
  intros H1 H2. destruct (xoshiro_words st1 H1) as (r1 & n1 & E1 & Hr1 & Hn1), (xoshiro_words st2 H2) as (r2 & n2 & E2 & _ & Hn2).
  exists r1, n1, r2, n2. split_and!; try done.
  - split; [intros <-; by eapply xoshiro_inj|intros ->; congruence].
  - split; [intros ->|intros ->; by injection E1 as _ <-].
    eapply xoshiro_inj; [done| |exact E1|by vm_compute]. split; [done|]. repeat (apply Forall_cons_2; [unfold u64; lia|]). apply Forall_nil_2.
Qed.

Lemma generator_permutes_witness :
  ∃ r1 n1 r2 n2, xoshiro DEFAULT_STATE = Ok (r1, n1) ∧ xoshiro ZERO_STATE = Ok (r2, n2) ∧ u64 r1 ∧ words n1 ∧
    (n1 = n2 ↔ DEFAULT_STATE = ZERO_STATE) ∧ (n1 = ZERO_STATE ↔ DEFAULT_STATE = ZERO_STATE).
Proof.
  apply (generator_permutes DEFAULT_STATE ZERO_STATE);
    (split; [done|]; repeat (apply Forall_cons_2; [unfold u64; lia|]); apply Forall_nil_2).
Defined.

(** C38. Bounded draws are unbiased: when the first word of the stream that is not
    rejected comes within the tries, [below] returns its share of the bound, a value
    below it, and moves the generator past that word; and for every value the words
    that give it are a run of the same length, 2^32 divided by the bound. *)
Theorem below_unbiased {D} `{!Device D} (read_cycle : DM Rand D Z) fuel buf tries n bound s :
  0 < bound < span → ra_seeded (dv_glob s) = true → words (ra_state (dv_glob s)) → (n ≤ tries)%nat →
  accepted bound (word32 (Nat.iter n next_state (ra_state (dv_glob s)))) →
  (∀ i, (i < n)%nat → ¬ accepted bound (word32 (Nat.iter i next_state (ra_state (dv_glob s))))) →
  (∃ v, below read_cycle fuel tries buf bound s =
     (Ok v, with_state (Nat.iter (S n) next_state (ra_state (dv_glob s))) s) ∧ 0 ≤ v < bound ∧
     v = word32 (Nat.iter n next_state (ra_state (dv_glob s))) * bound / span) ∧
  ∀ k w, 0 ≤ k < bound → 0 ≤ w < span →
    (accepted bound w ∧ w * bound / span = k ↔ first_of bound k ≤ w < first_of bound k + span / bound) ∧
    0 ≤ first_of bound k ∧ first_of bound k + span / bound ≤ span.
Proof.
  intros Hb Hs Hw Hn Hacc Hrej. split.
  - eexists. split; [by apply below_eq|]. split; [|done].
    pose proof (word32_range (Nat.iter n next_state (ra_state (dv_glob s)))) as Hr. unfold span in *.
    split; [apply Z.div_pos; nia|]. apply Z.div_lt_upper_bound; nia.
  - intros k w Hk Hw'. split; [by apply run_of_words|by apply run_bounds].
Qed.

#[local] Instance no_device : Device unit := {
  dev_load _ _ m d := (0, (m, d)); dev_store _ _ _ m d := (m, d); dev_run m d := (m, d) }.
Definition third : list Z := Nat.iter 2 next_state DEFAULT_STATE.
Definition seeded : Drv Rand unit :=
  mkDrv (mkRand rng_new (mkRtc 0 RtcNone) 0 third true) ∅ tt (Pmm.mkPmm 0 0 0 [] [] ∅).

(** Of three billion values some words are rejected: here the first is, and the second
    is the one that counts. *)
Lemma below_unbiased_witness :
  ∃ v, below (mret 0) 0 9 0 3000000000 seeded = (Ok v, with_state (Nat.iter 2 next_state third) seeded) ∧
    0 ≤ v < 3000000000 ∧ v = word32 (next_state third) * 3000000000 / span.
Proof.
  apply (below_unbiased (mret 0) 0 0 9 1 3000000000 seeded).
  - unfold span. lia.
  - done.
  - apply (words_iter 2). split; [done|]. repeat (apply Forall_cons_2; [unfold u64; lia|]). apply Forall_nil_2.
  - lia.
  - apply (bool_decide_unpack _). by vm_compute.
  - intros i Hi. replace i with 0%nat by lia. apply (bool_decide_unpack _). by vm_compute.
Defined.
End RandTheorems.

(** ** USB descriptors *)

Section Count.
Context {D : Type} `{!Device D} (dma_base ohci_dma_base : Z) (remove_fuel : nat).

Definition heads (s : Drv Usb D) : Z := eh_qh_count (us_e (dv_glob s)).

(** Queue heads in use only grow, up to the limit; the schedule stays on. *)
Definition running (s : Drv Usb D) : Prop := eh_async (us_e (dv_glob s)) = true.
Definition grows (n : nat) (s s' : Drv Usb D) : Prop :=
  heads s ≤ heads s' ∧ (heads s ≤ 16 → heads s' ≤ 16) ∧ (running s → running s').
#[local] Instance grows_graded : Graded grows.
Proof. split; unfold grows; intros; intuition lia. Qed.

Lemma mmio_r_grows n a : effect grows 0 (mmio_r n a).
Proof. intros s. unfold mmio_r. destruct (dev_load n a (dv_ram s) (dv_dev s)) as [v [m d]]. by split_and!. Qed.
Lemma mmio_w_grows n a v : effect grows 0 (mmio_w n a v).
Proof. intros s. unfold mmio_w. destruct (dev_store n a v (dv_ram s) (dv_dev s)) as [m d]. by split_and!. Qed.
Lemma ram_bytes_grows a n : effect grows 0 (ram_bytes a n).
Proof. intros s. unfold ram_bytes. destruct (dev_run (dv_ram s) (dv_dev s)) as [m d]. by split_and!. Qed.
Lemma ram_put_grows a l : effect grows 0 (ram_put a l).
Proof. intros s. by split_and!. Qed.
Lemma with_pmm_grows {A} (m : SM Pmm A) : effect grows 0 (with_pmm m).
Proof. intros s. unfold with_pmm. destruct (m (dv_pmm s)) as [r p]. by split_and!. Qed.
Lemma glob_grows {A} (f : Usb → A) : effect grows 0 (glob f : DM Usb D A).
Proof. apply effect_gets, _. Qed.
Lemma set_glob_grows f :
  (∀ u, eh_qh_count (us_e (f u)) = eh_qh_count (us_e u)) → (∀ u, eh_async (us_e u) = true → eh_async (us_e (f u)) = true) →
  effect grows 0 (set_glob f : DM Usb D unit).
Proof. intros H Ha s. unfold grows, heads, running. cbn. rewrite H. split_and!; [lia|done|apply Ha]. Qed.
End Count.

#[export] Hint Resolve mmio_r_grows mmio_w_grows ram_bytes_grows ram_put_grows with_pmm_grows glob_grows : effects.
#[export] Hint Extern 1 (effect grows 0 (set_glob _)) => (apply set_glob_grows; [reflexivity|by intros]) : effects.

Section Ops.
Context {D : Type} `{!Device D} (dma_base ohci_dma_base : Z) (remove_fuel : nat).
#[local] Existing Instance grows_graded.
Ltac go := effect_tac.

Lemma ram_r_grows n a : effect (@grows D) 0 (ram_r n a).
Proof. unfold ram_r. go. Qed.
Lemma ram_w_grows n a v : effect (@grows D) 0 (ram_w n a v).
Proof. unfold ram_w. go. Qed.
#[local] Hint Resolve ram_r_grows ram_w_grows : effects.
Lemma op_rd_grows r : effect (@grows D) 0 (op_rd r).
Proof. unfold op_rd, gE. go. Qed.
Lemma op_wr_grows r v : effect (@grows D) 0 (op_wr r v).
Proof. unfold op_wr, gE. go. Qed.
#[local] Hint Resolve op_rd_grows op_wr_grows : effects.
Lemma alloc_dma_grows n : effect (@grows D) 0 (alloc_dma dma_base n).
Proof. unfold alloc_dma, gE. go. Qed.
#[local] Hint Resolve alloc_dma_grows : effects.
Lemma alloc_qtd_grows : effect (@grows D) 0 (alloc_qtd dma_base).
Proof. unfold alloc_qtd, gE. go. Qed.
Lemma qh_ptr_grows i : effect (@grows D) 0 (qh_ptr dma_base i).
Proof. unfold qh_ptr, gE. go. Qed.
Lemma qtd_ptr_grows i : effect (@grows D) 0 (qtd_ptr dma_base i).
Proof. unfold qtd_ptr, gE. go. Qed.
Lemma qh_phys_grows i : effect (@grows D) 0 (qh_phys dma_base i).
Proof. unfold qh_phys, gE. go. Qed.
Lemma qtd_phys_grows i : effect (@grows D) 0 (qtd_phys dma_base i).
Proof. unfold qtd_phys, gE. go. Qed.
Lemma put_words_grows p ws : effect (@grows D) 0 (put_words p ws).
Proof. unfold put_words. go. Qed.
Lemma qtd_token_grows p : effect (@grows D) 0 (qtd_token p).
Proof. unfold qtd_token. go. Qed.
#[local] Hint Resolve alloc_qtd_grows qh_ptr_grows qtd_ptr_grows qh_phys_grows qtd_phys_grows put_words_grows qtd_token_grows : effects.

Lemma alloc_dma_heads n (s : Drv Usb D) :
  heads (alloc_dma dma_base n s).2 = heads s ∧ (running s → running (alloc_dma dma_base n s).2).
Proof.
  unfold alloc_dma, gE, glob, set_glob, ram_put. cbv [mbind SM_bind gets modify mret SM_ret fail].
  by destruct (DMA_POOL_SIZE <? _).
Qed.

(** A queue head is taken; with sixteen taken there are none. *)
Lemma alloc_qh_heads (s : Drv Usb D) :
  match alloc_qh dma_base s with
  | (Ok _, s') => heads s < 16 ∧ heads s' = heads s + 1 ∧ (running s → running s')
  | (_, s') => heads s' = heads s ∧ (running s → running s')
  end.
Proof.
  unfold alloc_qh, gE, glob. rewrite gets_bind. change (eh_qh_count (us_e (dv_glob s))) with (heads s).
  destruct (Z.leb_spec MAX_QH (heads s)) as [H|H]; [done|]. unfold MAX_QH in H.
  pose proof (alloc_dma_heads QH_SIZE s) as Ha. unfold mbind at 1, SM_bind at 1.
  destruct (alloc_dma dma_base QH_SIZE s) as [[off|e|] s1]; cbn [snd] in Ha; [|done..].
  cbv [mbind SM_bind gets modify mret SM_ret lift set_glob]. destruct Ha as [Ha Hr].
  destruct (set_idx _ _ _); [|done..]. split_and!; [done|done|exact Hr].
Qed.
Lemma alloc_qh_grows : effect (@grows D) 0 (alloc_qh dma_base).
Proof. intros s. pose proof (alloc_qh_heads s) as H. unfold grows. destruct (alloc_qh dma_base s) as [[i|e|] s']; cbn; intuition lia. Qed.
Lemma spin_grows t cond : effect (@grows D) 0 cond → effect (@grows D) 0 (spin t cond).
Proof. intros Hc. induction t as [|t IH]; cbn [spin]; go. Qed.
#[local] Hint Resolve alloc_qh_grows spin_grows : effects.
Lemma init_async_list_grows : effect (@grows D) 0 (init_async_list dma_base).
Proof. unfold init_async_list, gE. go; apply spin_grows; go. Qed.
Lemma qh_insert_grows i : effect (@grows D) 0 (qh_insert dma_base i).
Proof. unfold qh_insert, gE. go. Qed.
Lemma remove_loop_grows fuel : ∀ i h q p, effect (@grows D) 0 (remove_loop dma_base fuel i h q p).
Proof. induction fuel as [|fuel IH]; intros; cbn [remove_loop]; go. Qed.
#[local] Hint Resolve remove_loop_grows : effects.
Lemma qh_remove_grows i : effect (@grows D) 0 (qh_remove dma_base remove_fuel i).
Proof. unfold qh_remove, gE. go. Qed.
Lemma alloc_qtds_grows n : effect (@grows D) 0 (alloc_qtds dma_base n).
Proof. induction n as [|n IH]; cbn [alloc_qtds]; go. Qed.
Lemma data_qtds_loop_grows n : ∀ i dq qc qtds data dl pid pos, effect (@grows D) 0 (data_qtds_loop dma_base n i dq qc qtds data dl pid pos).
Proof. induction n as [|n IH]; intros; cbn [data_qtds_loop]; go. Qed.
Lemma look_data_grows n : ∀ i qtds pos dl x, effect (@grows D) 0 (look_data dma_base n i qtds pos dl x).
Proof. induction n as [|n IH]; intros; cbn [look_data]; go. Qed.
#[local] Hint Resolve init_async_list_grows qh_insert_grows qh_remove_grows alloc_qtds_grows data_qtds_loop_grows look_data_grows : effects.
Lemma ehci_poll_grows t : ∀ qh sq st dq qtds pos dl x, effect (@grows D) 0 (ehci_poll dma_base remove_fuel t qh sq st dq qtds pos dl x).
Proof. induction t as [|t IH]; intros; cbn [ehci_poll]; go. Qed.
#[local] Hint Resolve ehci_poll_grows : effects.

Lemma transfer_grows a p data b k : effect (@grows D) 0 (ehci_control_transfer dma_base remove_fuel a p data b k).
Proof. unfold ehci_control_transfer, gE. go. Qed.

(** A transfer that goes through has taken a queue head. *)
Lemma transfer_takes a p data b k (s : Drv Usb D) :
  running s →
  match ehci_control_transfer dma_base remove_fuel a p data b k s with
  | (Ok _, s') => heads s < 16 ∧ heads s + 1 ≤ heads s'
  | (_, s') => True
  end.
Proof.
  intros Ha. unfold ehci_control_transfer, gE. unfold glob at 1. rewrite gets_bind, Ha.
  rewrite (sm_bind_ok (mret tt) _ s tt s) by done. destruct (MAX_QTD <? _); [done|].
  pose proof (alloc_qh_heads s) as H. unfold mbind at 1, SM_bind at 1.
  destruct (alloc_qh dma_base s) as [[i|e|] s1]; [|done..]. destruct H as [Hlt Heq].
  match goal with |- match ?m s1 with _ => _ end => assert (effect grows 0 m) as Hm by go; specialize (Hm s1); destruct (m s1) as [[r|e|] s'] end;
    [|done..]. unfold grows in Hm. cbn in Hm. lia.
Qed.

(** ** A session *)

Record Request := mkRequest { rq_addr : Z; rq_setup : Z; rq_data : option (Z * Z); rq_in : bool; rq_max : Z }.
Definition run_request (r : Request) : DM Usb D Z :=
  ehci_control_transfer dma_base remove_fuel (rq_addr r) (rq_setup r) (rq_data r) (rq_in r) (rq_max r).

(** How many of the transfers succeed, one after another; a panic ends them. *)
Fixpoint successes (rs : list Request) (s : Drv Usb D) : Z :=
  match rs with
  | [] => 0
  | r :: rs =>
      match run_request r s with
      | (Ok _, s') => 1 + successes rs s'
      | (Err _, s') => successes rs s'
      | (Panic, _) => 0
      end
  end.

Lemma successes_bound rs : ∀ s, running s → heads s ≤ 16 → 0 ≤ successes rs s ≤ 16 - heads s.
Proof.
  induction rs as [|r rs IH]; intros s Hr Hh; cbn [successes]; [lia|].
  pose proof (transfer_takes (rq_addr r) (rq_setup r) (rq_data r) (rq_in r) (rq_max r) s Hr) as Ht.
  pose proof (transfer_grows (rq_addr r) (rq_setup r) (rq_data r) (rq_in r) (rq_max r) s) as (Hg1 & Hg2 & Hg3).
  fold (run_request r) in *. destruct (run_request r s) as [[v|e|] s']; cbn [snd] in *; [| |lia].
  - specialize (IH s' (Hg3 Hr) (Hg2 Hh)). lia.
  - specialize (IH s' (Hg3 Hr) (Hg2 Hh)). lia.
Qed.

Lemma none_left r (s : Drv Usb D) : running s → heads s = 16 → run_request r s = (Err NoMem, s).
Proof.
  intros Hr Hh. unfold run_request, ehci_control_transfer, gE. unfold glob at 1. rewrite gets_bind. unfold running in Hr. rewrite Hr.
  rewrite (sm_bind_ok (mret tt) _ s tt s) by done. destruct (MAX_QTD <? _); [done|].
  erewrite sm_bind_err; [done|]. unfold alloc_qh, gE, glob. rewrite gets_bind.
  change (eh_qh_count (us_e (dv_glob s))) with (heads s). by rewrite Hh.
Qed.
End Ops.

Module UsbTheorems.

(** Descriptors of the EHCI driver run out for good: whatever the controller does,
    of any sequence of control transfers at most as many succeed as there are queue
    heads left of the sixteen, since none is ever given back; and once the sixteen are
    used every transfer fails with ENOMEM and changes nothing. *)
Theorem usb_transfers_run_out {D} `{!Device D} dma_base remove_fuel rs (s : Drv Usb D) :
  running s → heads s ≤ 16 →
  0 ≤ successes dma_base remove_fuel rs s ≤ 16 - heads s ∧
  (heads s = 16 → ∀ r, run_request dma_base remove_fuel r s = (Err NoMem, s)).
Proof.
  intros Hr Hh. split; [by apply successes_bound|]. intros H16 r. by apply none_left.
Qed.

#[local] Instance no_controller : Device unit := {
  dev_load _ _ m d := (0, (m, d)); dev_store _ _ _ m d := (m, d); dev_run m d := (m, d) }.

(** A controller that has been set up and has served fifteen transfers. *)
Definition used_up : Drv Usb unit :=
  mkDrv (mkUsb EhciController (mkEhci 0 1 true 2048 (replicate 16 0) 16 (replicate 64 0) 30) (us_o usb_new)) ∅ tt (mkPmm 0 0 0 [] [] ∅).
Lemma usb_transfers_run_out_witness :
  (let rs := [mkRequest 0 4096 (Some (8192, 18)) true 64; mkRequest 1 4096 None false 64] in
   0 ≤ successes 0x80000000 16 rs used_up ≤ 16 - heads used_up ∧
   (heads used_up = 16 → ∀ r, run_request 0x80000000 16 r used_up = (Err NoMem, used_up))) ∧
  heads used_up = 16.
Proof.
  split; [|done]. apply (usb_transfers_run_out 0x80000000 16 [mkRequest 0 4096 (Some (8192, 18)) true 64; mkRequest 1 4096 None false 64] used_up).
  - done.
  - vm_compute. discriminate.
Defined.
End UsbTheorems.
