(* ===== verification/Font.v ===== *)
(** * kernel/src/font, drivers/fb, drivers/fb_term: fonts and the text screen

    The globals are a record: [G_FONT], [G_UNI_MAP] with its length, [G_FB],
    [G_WRITER], and the memory that fonts and the framebuffer lie in. A font and the
    framebuffer are addresses in that memory, as in the code: a font file that
    [init] is given is [n] bytes at [p], and glyphs are read where they lie at the time
    they are drawn. A glyph is a pointer or the static [BLANK_GLYPH]. *)

From S2P Require Import Prelude Bus.
From stdpp Require Import base list numbers gmap.
From Stdlib Require Import ZArith Lia.

Open Scope Z_scope.

(** ** font/shared.rs *)

Definition FONT_W : Z := 8.
Definition FONT_H : Z := 16.
Definition FONT_NUM_GLYPHS : Z := 256.
Definition FONT_GLYPH_BYTES : Z := FONT_H.

Record PcfFont := mkPcfFont {
  f_width : Z; f_height : Z; f_charsize : Z; f_num_glyphs : Z;
  f_glyphs : Z; f_unicode : Z; f_unicode_len : Z }.

Definition UNICODE_MAP_SIZE : Z := 512.
Record UniMapEntry := mkUniMapEntry { codepoint : Z; glyph_idx : Z }.

(** ** drivers/fb/mod.rs and drivers/fb_term/writer.rs: the other globals *)

Record Fb := mkFb { fb_base : Z; fb_width : Z; fb_height : Z; fb_pitch : Z; fb_bpp : Z; fb_enabled : bool }.
Record FbWriter := mkFbWriter { col : Z; row : Z; fg : Z; bg : Z }.

Record Screen := mkScreen {
  g_font : option PcfFont; g_uni_map : list UniMapEntry; g_uni_map_len : Z;
  g_fb : Fb; g_writer : FbWriter; mem : ram }.
Abbreviation TM := (SM Screen).

Definition set_font (f : PcfFont) : TM unit := modify (λ s,
  mkScreen (Some f) (g_uni_map s) (g_uni_map_len s) (g_fb s) (g_writer s) (mem s)).
Definition set_fb (f : Fb) : TM unit := modify (λ s,
  mkScreen (g_font s) (g_uni_map s) (g_uni_map_len s) f (g_writer s) (mem s)).
Definition set_writer (f : FbWriter → FbWriter) : TM unit := modify (λ s,
  mkScreen (g_font s) (g_uni_map s) (g_uni_map_len s) (g_fb s) (f (g_writer s)) (mem s)).
Definition set_mem (f : ram → ram) : TM unit := modify (λ s,
  mkScreen (g_font s) (g_uni_map s) (g_uni_map_len s) (g_fb s) (g_writer s) (f (mem s))).

Definition load (a : Z) : TM Z := gets (λ s, byte (mem s) a).
Definition store (a v : Z) : TM unit := set_mem <[a := v]>.

Fixpoint for_each {A} (l : list A) (f : A → TM unit) : TM unit :=
  match l with [] => mret tt | x :: l => f x;; for_each l f end.
(** [for i in a..b] *)
Definition range (a b : Z) : list Z := seqZ a (b - a).
(** [a / b] *)
Definition quot (a b : Z) : TM Z := if b =? 0 then panic else mret (a / b).

Definition uni_map_insert (cp i : Z) : TM unit :=
  n ← gets g_uni_map_len;
  if n <? UNICODE_MAP_SIZE then
    map ← gets g_uni_map;
    map ← lift (set_idx map n (mkUniMapEntry cp i));
    modify (λ s, mkScreen (g_font s) map (n + 1) (g_fb s) (g_writer s) (mem s))
  else mret tt.

Definition font : TM (option PcfFont) := gets g_font.
Definition font_height : TM Z := f ← font; mret (from_option f_height FONT_H f).
Definition font_width : TM Z := f ← font; mret (from_option f_width FONT_W f).
Definition font_charsize : TM Z := f ← font; mret (from_option f_charsize FONT_GLYPH_BYTES f).

(** ** font/psf1.rs *)

(** The loop takes the table two bytes at a time; an odd byte at the end is left. *)
Fixpoint psf1_pairs (table : list Z) (glyph num_glyphs : Z) : TM unit :=
  match table with
  | lo :: hi :: table =>
      if glyph <? num_glyphs then
        let val := Z.lor (Z.shiftl hi 8) lo in
        if val =? 0xFFFF then psf1_pairs table (glyph + 1) num_glyphs
        else if val =? 0xFFFE then psf1_pairs table glyph num_glyphs
        else (if 256 <=? val then uni_map_insert val glyph else mret tt);; psf1_pairs table glyph num_glyphs
      else mret tt
  | _ => mret tt
  end.

Definition parse_psf1_unicode_table (data : list Z) (hdr_size num_glyphs charsize : Z) : TM unit :=
  let table_start := hdr_size + num_glyphs * charsize in
  if len data <? table_start + 2 then mret tt else
  table ← lift (slice data table_start (len data));
  psf1_pairs table 0 num_glyphs.

Definition init_psf1 (p : Z) (data : list Z) : TM unit :=
  if len data <? 4 then fail Io else
  magic ← lift (slice data 0 2);
  if negb (le_val magic =? 0x0436) then fail NoEnt else
  mode ← lift (idx data 2);
  charsize ← lift (idx data 3);
  let num_glyphs := if negb (Z.land mode 1 =? 0) then 512 else 256 in
  let glyph_bytes := num_glyphs * charsize in
  if len data <? 4 + glyph_bytes then fail Io else
  let '(unicode, unicode_len) :=
    if negb (Z.land mode 2 =? 0) && (4 + glyph_bytes <? len data)
    then (p + (4 + glyph_bytes), len data - (4 + glyph_bytes)) else (0, 0) in
  set_font (mkPcfFont 8 charsize charsize num_glyphs (p + 4) unicode unicode_len);;
  if negb (Z.land mode 2 =? 0) then parse_psf1_unicode_table data 4 num_glyphs charsize else mret tt.

(** ** font/psf2.rs *)

Definition PSF2_HAS_UNICODE_TABLE : Z := 1.

(** [decode_utf8]'s loop over the [n] bytes that follow: the code point and the position. *)
Fixpoint utf8_rest (n : nat) (data : list Z) (pos cp : Z) : result (Z * Z) :=
  match n with
  | O => mret (cp, pos + 1)
  | S n =>
      if len data <=? pos + 1 then mret (0, pos + 1) else
      b ← idx data (pos + 1);
      utf8_rest n data (pos + 1) (Z.lor (w32 (Z.shiftl cp 6)) (Z.land b 0x3F))
  end.

Definition decode_utf8 (data : list Z) (pos : Z) : result (Z * Z) :=
  if len data <=? pos then mret (0, pos) else
  b0 ← idx data pos;
  if b0 <? 0x80 then mret (b0, pos + 1) else
  let '(mask, n) := if b0 <? 0xE0 then (0x1F, 2%nat) else if b0 <? 0xF0 then (0x0F, 3%nat) else (0x07, 4%nat) in
  utf8_rest (n - 1) data pos (Z.land b0 mask).

(** [while table[i] is not a mark { i += 1 }] *)
Fixpoint psf2_skip (fuel : nat) (table : list Z) (i : Z) : result Z :=
  match fuel with
  | O => Panic
  | S fuel =>
      if i <? len table then
        b ← idx table i;
        if negb (b =? 0xFF) && negb (b =? 0xFE) && negb (b =? 0) then psf2_skip fuel table (i + 1) else mret i
      else mret i
  end.

Fixpoint psf2_loop (fuel : nat) (table : list Z) (i glyph num_glyphs : Z) : TM unit :=
  match fuel with
  | O => panic
  | S fuel =>
      if (i <? len table) && (glyph <? num_glyphs) then
        b ← lift (idx table i);
        if b =? 0xFF then psf2_loop fuel table (i + 1) (glyph + 1) num_glyphs
        else if b =? 0xFE then psf2_loop fuel table (i + 1) glyph num_glyphs
        else
          '(cp, i) ← lift (decode_utf8 table i);
          (if negb (cp =? 0) && (256 <=? cp) then uni_map_insert cp glyph else mret tt);;
          i ← lift (psf2_skip (S (length table)) table i);
          z ← (if i <? len table then b ← lift (idx table i); mret (b =? 0) else mret false);
          psf2_loop fuel table (if z : bool then i + 1 else i) glyph num_glyphs
      else mret tt
  end.

Definition parse_psf2_unicode_table (data : list Z) (hdr_size num_glyphs charsize : Z) : TM unit :=
  let table_start := hdr_size + num_glyphs * charsize in
  if len data <=? table_start then mret tt else
  table ← lift (slice data table_start (len data));
  psf2_loop (S (length table)) table 0 0 num_glyphs.

Definition init_psf2 (p : Z) (data : list Z) : TM unit :=
  if len data <? 32 then fail Io else
  let u32_at := λ a, b ← lift (slice data a (a + 4)); (mret (le_val b) : TM Z) in
  _ ← u32_at 4;
  hdr_size ← u32_at 8;
  flags ← u32_at 12;
  num_glyphs ← u32_at 16;
  charsize ← u32_at 20;
  height ← u32_at 24;
  width ← u32_at 28;
  let end_ := hdr_size + num_glyphs * charsize in
  if len data <? end_ then fail Io else
  let '(unicode, unicode_len) := if end_ <? len data then (p + end_, len data - end_) else (0, 0) in
  set_font (mkPcfFont width height charsize num_glyphs (p + hdr_size) unicode unicode_len);;
  if negb (Z.land flags PSF2_HAS_UNICODE_TABLE =? 0)
  then parse_psf2_unicode_table data hdr_size num_glyphs charsize else mret tt.

(** ** font/mod.rs *)

(** [init] on the [n] bytes at [p]. *)
Definition init (p n : Z) : TM unit :=
  data ← gets (λ s, bytes (mem s) p n);
  if len data <? 4 then fail Io else
  magic ← lift (slice data 0 4);
  let magic := le_val magic in
  if (magic =? 0x0436) || (Z.land magic 0xFFFF =? 0x0436) then init_psf1 p data
  else if magic =? 0x864ab572 then init_psf2 p data
  else fail NoEnt.

(** ** font/glyph.rs *)

Inductive Ptr := At (a : Z) | BLANK_GLYPH.
Definition deref (p : Ptr) (off : Z) : TM Z :=
  match p with At a => load (a + off) | BLANK_GLYPH => mret 0 end.

Record GlyphData := mkGlyphData { gd_data : Ptr; gd_charsize : Z; gd_width : Z; gd_height : Z }.

(** The first entry of the map for [cp], among the first [n] *)
Fixpoint uni_map_find (n : nat) (map : list UniMapEntry) (i cp : Z) : result (option Z) :=
  match n with
  | O => mret None
  | S n =>
      e ← idx map i;
      if codepoint e =? cp then mret (Some (glyph_idx e)) else uni_map_find n map (i + 1) cp
  end.

Definition glyph_for_unicode (cp : Z) : TM (option Z) :=
  f ← font;
  let search : TM (option Z) :=
    map ← gets g_uni_map; n ← gets g_uni_map_len; lift (uni_map_find (Z.to_nat n) map 0 cp) in
  if cp <? 256 then
    match f with
    | None => mret None
    | Some f => if cp <? f_num_glyphs f then mret (Some cp) else search
    end
  else search.

Definition glyph_bitmap (c : Z) : TM Ptr :=
  f ← font;
  match f with
  | Some f => mret (At (f_glyphs f + Z.min c (w32 (f_num_glyphs f - 1)) * f_charsize f))
  | None => mret BLANK_GLYPH
  end.

(** The glyph of index [i] as [glyph_bitmap_unicode] returns it, twice *)
Definition glyph_data (f : PcfFont) (i : Z) : GlyphData :=
  mkGlyphData (At (f_glyphs f + Z.min i (w64 (f_num_glyphs f - 1)) * f_charsize f))
    (f_charsize f) (f_width f) (f_height f).

Definition glyph_bitmap_unicode (cp : Z) : TM GlyphData :=
  i ← glyph_for_unicode cp;
  f ← font;
  mret match i, f with
  | Some i, Some f => glyph_data f i
  | None, Some f => glyph_data f 63
  | _, None => mkGlyphData BLANK_GLYPH FONT_GLYPH_BYTES FONT_W FONT_H
  end.

(** The loop of [glyph_for_cp] over the pairs of the table *)
Fixpoint cp_pairs (table : list Z) (cp glyph num_glyphs : Z) : option Z :=
  match table with
  | lo :: hi :: table =>
      if glyph <? num_glyphs then
        let val := le_val [lo; hi] in
        if val =? 0xFFFF then cp_pairs table cp (glyph + 1) num_glyphs
        else if val =? 0xFFFE then cp_pairs table cp glyph num_glyphs
        else if val =? cp then Some (w8 glyph) else cp_pairs table cp glyph num_glyphs
      else None
  | _ => None
  end.

Definition glyph_for_cp (cp : Z) : TM (option Z) :=
  f ← font;
  match f with
  | None => mret None
  | Some f =>
      if (f_unicode f =? 0) || (f_unicode_len f =? 0) then
        mret (if (w8 cp <=? 0x7F) || ((256 <? f_num_glyphs f) && (cp <? 256)) then Some (w8 cp) else None)
      else
        table ← gets (λ s, bytes (mem s) (f_unicode f) (f_unicode_len f));
        mret (cp_pairs table cp 0 (f_num_glyphs f))
  end.

Definition glyph_or_default (cp : Z) : TM Z :=
  g ← glyph_for_cp cp; mret (default (if cp <? 256 then w8 cp else 63) g).

(** ** drivers/fb/mod.rs *)

Definition FB_WIDTH : Z := 1280.
Definition FB_HEIGHT : Z := 720.
Definition FB_BPP : Z := 32.
Definition FB_PITCH : Z := FB_WIDTH * (FB_BPP / 8).
Definition FB_SIZE : Z := FB_HEIGHT * FB_PITCH.
Definition COL_BLACK : Z := 0x000000.
Definition COL_GREEN : Z := 0x00FF00.

Definition G_FB0 : Fb := mkFb 0 FB_WIDTH FB_HEIGHT FB_PITCH FB_BPP false.

Definition enabled : TM bool := gets (λ s, fb_enabled (g_fb s)).

Definition clear : TM unit :=
  f ← gets g_fb;
  if negb (fb_enabled f) then mret tt else
  for_each (range 0 (fb_pitch f * fb_height f)) (λ i, store (fb_base f + i) 0).

Definition fb_init (paddr : Z) : TM unit :=
  set_fb (mkFb paddr FB_WIDTH FB_HEIGHT FB_PITCH FB_BPP true);; clear.

Definition put_pixel (x y color : Z) : TM unit :=
  f ← gets g_fb;
  if negb (fb_enabled f) || (fb_width f <=? x) || (fb_height f <=? y) then mret tt else
  let off := y * fb_pitch f + x * (fb_bpp f / 8) in
  store (fb_base f + off) (w8 (Z.land color 0xFF));;
  store (fb_base f + (off + 1)) (w8 (Z.land (Z.shiftr color 8) 0xFF));;
  store (fb_base f + (off + 2)) (w8 (Z.land (Z.shiftr color 16) 0xFF)).

(** ** drivers/fb/scroll.rs *)

Definition scroll : TM unit :=
  f ← gets g_fb;
  if negb (fb_enabled f) then mret tt else
  let row_bytes := FONT_H * fb_pitch f in
  let total := fb_height f * fb_pitch f in
  for_each (range 0 (total - row_bytes)) (λ i,
    b ← load (fb_base f + (i + row_bytes)); store (fb_base f + i) b);;
  for_each (range (total - row_bytes) total) (λ i, store (fb_base f + i) 0).

(** ** drivers/fb/draw.rs *)

(** A pixel of a glyph's row: [(bits >> k) & 1] chooses the colour. *)
Definition shade (bits k fg bg : Z) : Z := if negb (Z.land (Z.shiftr bits k) 1 =? 0) then fg else bg.

Definition draw_char (x y c fg bg : Z) : TM unit :=
  glyph ← glyph_bitmap c;
  for_each (range 0 FONT_H) (λ row,
    bits ← deref glyph row;
    for_each (range 0 FONT_W) (λ col,
      put_pixel (w64 (x + col)) (w64 (y + row)) (shade bits (7 - col) fg bg))).

Definition draw_unicode_char (x y cp fg bg : Z) : TM unit :=
  gd ← glyph_bitmap_unicode cp;
  let bytes_per_row := (gd_width gd + 7) / 8 in
  for_each (range 0 (gd_height gd)) (λ row,
    for_each (range 0 (gd_width gd)) (λ col,
      let off := row * bytes_per_row + col / 8 in
      bits ← (if off <? gd_charsize gd then deref (gd_data gd) off else mret 0);
      put_pixel (w64 (x + col)) (w64 (y + row)) (shade bits (7 - col mod 8) fg bg))).

Fixpoint draw_str (x y : Z) (s : list Z) (fg bg : Z) : TM unit :=
  match s with
  | [] => mret tt
  | b :: s =>
      if b =? 10 then mret tt
      else if b =? 13 then draw_str 0 y s fg bg
      else if b =? 9 then draw_str (w64 ((x / (4 * FONT_W) + 1) * (4 * FONT_W))) y s fg bg
      else if FB_WIDTH <? w64 (x + FONT_W) then mret tt
      else draw_char x y b fg bg;; draw_str (w64 (x + FONT_W)) y s fg bg
  end.

(** The code point that a byte that is not ASCII starts, and what follows it; [None]
    where the string ends first. The decoder is written twice in the source. *)
Definition next_cp (b : Z) (s : list Z) : option (Z * list Z) :=
  if b <? 0xE0 then
    match s with
    | c :: s => Some (Z.lor (Z.shiftl (Z.land b 0x1F) 6) (Z.land c 0x3F), s)
    | _ => None
    end
  else if b <? 0xF0 then
    match s with
    | c :: d :: s =>
        Some (Z.lor (Z.lor (Z.shiftl (Z.land b 0x0F) 12) (Z.shiftl (Z.land c 0x3F) 6)) (Z.land d 0x3F), s)
    | _ => None
    end
  else
    match s with
    | c :: d :: e :: s =>
        Some (Z.lor (Z.lor (Z.lor (Z.shiftl (Z.land b 0x07) 18) (Z.shiftl (Z.land c 0x3F) 12))
          (Z.shiftl (Z.land d 0x3F) 6)) (Z.land e 0x3F), s)
    | _ => None
    end.

(** A round takes a byte at least. *)
Fixpoint draw_unicode_loop (fuel : nat) (fw x y : Z) (s : list Z) (fg bg : Z) : TM unit :=
  match fuel, s with
  | O, _ => panic
  | S _, [] => mret tt
  | S fuel, b :: s =>
      if b =? 10 then mret tt
      else if b =? 13 then draw_unicode_loop fuel fw 0 y s fg bg
      else if b =? 9 then
        q ← quot x (4 * fw); draw_unicode_loop fuel fw (w64 ((q + 1) * (4 * fw))) y s fg bg
      else
        match (if b <? 0x80 then Some (b, s) else next_cp b s) with
        | None => mret tt
        | Some (cp, s) =>
            if FB_WIDTH <? w64 (x + fw) then mret tt
            else draw_unicode_char x y cp fg bg;; draw_unicode_loop fuel fw (w64 (x + fw)) y s fg bg
        end
  end.
Definition draw_unicode_str (x y : Z) (s : list Z) (fg bg : Z) : TM unit :=
  fw ← font_width; draw_unicode_loop (S (length s)) fw x y s fg bg.

(** ** drivers/fb_term *)

Definition FbWriter_new : FbWriter := mkFbWriter 0 0 COL_GREEN COL_BLACK.

Definition set_col (c : Z) : TM unit := set_writer (λ w, mkFbWriter c (row w) (fg w) (bg w)).
Definition set_row (r : Z) : TM unit := set_writer (λ w, mkFbWriter (col w) r (fg w) (bg w)).

(** [self.col = 0; self.row += 1;] and the scroll at the bottom, [max_row] rows down *)
Definition next_line (max_row : Z) : TM unit :=
  w ← gets g_writer;
  set_col 0;;
  set_row (w64 (row w + 1));;
  if max_row <=? w64 (row w + 1) then scroll;; set_row (w64 (max_row - 1)) else mret tt.

Definition putc (c : Z) : TM unit :=
  if c =? 10 then next_line (FB_HEIGHT / FONT_H)
  else if c =? 13 then set_col 0
  else
    w ← gets g_writer;
    draw_char (w64 (col w * FONT_W)) (w64 (row w * FONT_H)) c (fg w) (bg w);;
    set_col (w64 (col w + 1));;
    if FB_WIDTH / FONT_W <=? w64 (col w + 1) then next_line (FB_HEIGHT / FONT_H) else mret tt.

Definition puts (s : list Z) : TM unit := for_each s putc.

Definition put_unicode (cp : Z) : TM unit :=
  fw ← font_width;
  fh ← font_height;
  max_col ← quot FB_WIDTH fw;
  max_row ← quot FB_HEIGHT fh;
  if cp <? 0x20 then putc (w8 cp) else
  w ← gets g_writer;
  draw_unicode_char (w64 (col w * fw)) (w64 (row w * fh)) cp (fg w) (bg w);;
  set_col (w64 (col w + 1));;
  if max_col <=? w64 (col w + 1) then next_line max_row else mret tt.

Fixpoint puts_unicode_loop (fuel : nat) (s : list Z) : TM unit :=
  match fuel, s with
  | O, _ => panic
  | S _, [] => mret tt
  | S fuel, b :: s =>
      if b <? 0x80 then putc b;; puts_unicode_loop fuel s else
      match next_cp b s with
      | None => mret tt
      | Some (cp, s) => put_unicode cp;; puts_unicode_loop fuel s
      end
  end.
Definition puts_unicode (s : list Z) : TM unit := puts_unicode_loop (S (length s)) s.

(** [writer()] answers the writer where the framebuffer is enabled. *)
Definition with_writer (m : TM unit) : TM unit := on ← enabled; if on : bool then m else mret tt.
Definition write_str (s : list Z) : TM unit := with_writer (puts s).
Definition write_char (c : Z) : TM unit := with_writer (putc c).
Definition write_unicode (cp : Z) : TM unit := with_writer (put_unicode cp).
Definition write_unicode_str (s : list Z) : TM unit := with_writer (puts_unicode s).
