(* ===== verification/ScreenProps.v ===== *)
(** * The text screen

    [Terminal] is what a text terminal is: rows of cells, each holding the picture of a
    character, and a cursor. The module shows that the framebuffer driver and the writer
    keep the memory of the framebuffer a drawing of such a terminal: first at the level of
    pixels ([paints]), for one pixel, one character and a scroll, then for text. *)

From S2P Require Import Prelude Bus Font.
From stdpp Require Import base list numbers gmap.
From Stdlib Require Import ZArith Lia.

Open Scope Z_scope.

(** ** Loops *)

Definition on_mem (s : Screen) (m : ram) : Screen :=
  mkScreen (g_font s) (g_uni_map s) (g_uni_map_len s) (g_fb s) (g_writer s) m.

Lemma on_mem_id s : on_mem s (mem s) = s.
Proof. by destruct s. Qed.

Lemma wp_for_each {A} (l : list A) (f : A → TM unit) (Inv : nat → Screen → Prop) :
  (∀ i x s, l !! i = Some x → Inv i s → wp (f x) (λ _, Inv (S i)) s) →
  ∀ s, Inv 0%nat s → wp (for_each l f) (λ _, Inv (length l)) s.
Proof.
  revert Inv. induction l as [|x l IH]; intros Inv Hf st H0; [done|]. cbn [for_each].
  apply wp_bind. eapply wp_mono; [by apply (Hf 0%nat x)|]. intros [] s' H1.
  apply (IH (λ i, Inv (S i))); [|done]. intros i y t Hi. by apply (Hf (S i)).
Qed.

(** A loop over [a..b] keeps what a round takes from [i] to [i + 1]. *)
Lemma wp_range a b (f : Z → TM unit) (Inv : Z → Screen → Prop) s :
  a ≤ b → Inv a s → (∀ i s, a ≤ i < b → Inv i s → wp (f i) (λ _, Inv (i + 1)) s) →
  wp (for_each (range a b) f) (λ _, Inv b) s.
Proof.
  intros Hab H0 Hf. eapply wp_mono.
  - apply (wp_for_each _ _ (λ i, Inv (a + Z.of_nat i))); [|by rewrite Z.add_0_r].
    intros i x t Hx Hi. unfold range in Hx. apply lookup_seqZ in Hx as [-> Hi'].
    replace (a + Z.of_nat (S i)) with (a + Z.of_nat i + 1) by lia. apply Hf; [lia|done].
  - intros [] t. unfold range. rewrite length_seqZ.
    by replace (a + Z.of_nat (Z.to_nat (b - a))) with b by lia.
Qed.

(** ** Pixels *)

(** The sizes as numbers *)
Ltac sizes :=
  unfold FB_SIZE, FB_PITCH, FB_WIDTH, FB_HEIGHT, FB_BPP, FONT_H, FONT_W in *;
  change (32 / 8) with 4 in *.

Section Canvas.
Context (base ink : Z).

Definition inside (q : Z) : Prop := base ≤ q < base + FB_SIZE.
Definition pos (x y k : Z) : Z := base + (y * FB_PITCH + x * 4 + k).
Definition on_screen (x y : Z) : Prop := 0 ≤ x < FB_WIDTH ∧ 0 ≤ y < FB_HEIGHT.

(** The bytes of a pixel: blue, green, red and one that nothing sets *)
Definition pixel (on : bool) (k : Z) : Z :=
  if on && (k <? 3) then w8 (Z.land (Z.shiftr ink (8 * k)) 0xFF) else 0.

Definition paints (P : Z → Z → bool) (m : ram) : Prop :=
  ∀ x y k, on_screen x y → 0 ≤ k < 4 → byte m (pos x y k) = pixel (P x y) k.

(** [s] is [s0] with [P] on the screen and the rest of memory as it was. *)
Definition canvas (s0 : Screen) (P : Z → Z → bool) (s : Screen) : Prop :=
  ∃ m, s = on_mem s0 m ∧ paints P m ∧ same_on (λ q, ¬ inside q) (mem s0) m.

Definition framebuffer (s : Screen) : Prop := g_fb s = mkFb base FB_WIDTH FB_HEIGHT FB_PITCH FB_BPP true.

Lemma pos_inside x y k : on_screen x y → 0 ≤ k < 4 → inside (pos x y k).
Proof. unfold on_screen, inside, pos. sizes. lia. Qed.

Lemma pos_inj x y k x' y' k' :
  on_screen x y → on_screen x' y' → 0 ≤ k < 4 → 0 ≤ k' < 4 → pos x y k = pos x' y' k' →
  x = x' ∧ y = y' ∧ k = k'.
Proof. unfold on_screen, pos. sizes. lia. Qed.

Lemma inside_pos q : inside q → ∃ x y k, q = pos x y k ∧ on_screen x y ∧ 0 ≤ k < 4.
Proof.
  unfold inside, pos, on_screen. sizes. intros H.
  exists ((q - base) mod 5120 / 4), ((q - base) / 5120), ((q - base) mod 4).
  Z.to_euclidean_division_equations. lia.
Qed.

Lemma paints_ext P Q m : (∀ x y, on_screen x y → P x y = Q x y) → paints P m → paints Q m.
Proof. intros H HP x y k Hxy Hk. rewrite <- (H x y Hxy). by apply HP. Qed.
Lemma canvas_ext s0 P Q s : (∀ x y, on_screen x y → P x y = Q x y) → canvas s0 P s → canvas s0 Q s.
Proof. intros H (m & -> & HP & Hm). exists m. eauto using paints_ext. Qed.
Lemma canvas_refl s P : paints P (mem s) → canvas s P s.
Proof. intros H. exists (mem s). rewrite on_mem_id. split_and!; [done..|apply same_on_refl]. Qed.

(** One pixel painted *)
Definition dot (x y : Z) (b : bool) (P : Z → Z → bool) (X Y : Z) : bool :=
  if (X =? x) && (Y =? y) then b else P X Y.

Lemma byte_insert m a v q : byte (<[a := v]> m) q = if q =? a then v else byte m q.
Proof.
  unfold byte. destruct (Z.eqb_spec q a) as [->|Hq]; [by rewrite lookup_insert_eq|].
  by rewrite lookup_insert_ne by done.
Qed.

Lemma put_pixel_paints s0 P x y (b : bool) s :
  framebuffer s0 → on_screen x y → canvas s0 P s →
  wp (put_pixel x y (if b then ink else 0)) (λ _, canvas s0 (dot x y b P)) s.
Proof.
  intros Hfb Hxy (m & -> & HP & Hm). unfold put_pixel.
  apply wp_bind, wp_gets. change (g_fb (on_mem s0 m)) with (g_fb s0). rewrite Hfb.
  cbn [fb_enabled fb_width fb_height fb_pitch fb_bpp fb_base negb orb].
  pose proof Hxy as [Hx Hy].
  destruct (Z.leb_spec FB_WIDTH x); [lia|]. destruct (Z.leb_spec FB_HEIGHT y); [lia|]. cbn [orb].
  change (FB_BPP / 8) with 4. set (c := if b then ink else 0).
  do 2 (apply wp_bind, wp_modify). apply wp_modify.
  eexists. split; [reflexivity|]. cbn [mem on_mem]. split.
  - intros X Y k HXY Hk. rewrite !byte_insert.
    replace (base + (y * FB_PITCH + x * 4)) with (pos x y 0) by (unfold pos; lia).
    replace (base + (y * FB_PITCH + x * 4 + 1)) with (pos x y 1) by (unfold pos; lia).
    replace (base + (y * FB_PITCH + x * 4 + 2)) with (pos x y 2) by (unfold pos; lia).
    assert (Heq : ∀ k', 0 ≤ k' < 4 → (pos X Y k =? pos x y k') = (X =? x) && (Y =? y) && (k =? k')).
    { intros k' Hk'. apply eq_true_iff_eq. rewrite !andb_true_iff, !Z.eqb_eq. split.
      - intros Hp. apply pos_inj in Hp; tauto.
      - by intros [[-> ->] ->]. }
    rewrite !Heq by lia. unfold dot. destruct ((X =? x) && (Y =? y)) eqn:E; cbn [andb]; [|by apply HP].
    apply andb_true_iff in E as [->%Z.eqb_eq ->%Z.eqb_eq].
    assert (k = 0 ∨ k = 1 ∨ k = 2 ∨ k = 3) as [->|[->|[->| ->]]] by lia; cbn [Z.eqb]; unfold pixel, c.
    1-3: by destruct b; rewrite ?Z.shiftr_0_l.
    rewrite HP by done. unfold pixel. change (3 <? 3) with false. by rewrite !andb_false_r.
  - intros q Hq. rewrite !byte_insert, !(proj2 (Z.eqb_neq _ _)); [by apply Hm|..];
      intros ->; apply Hq.
    + replace (base + (y * FB_PITCH + x * 4)) with (pos x y 0) by (unfold pos; lia). apply pos_inside; [done|lia].
    + replace (base + (y * FB_PITCH + x * 4 + 1)) with (pos x y 1) by (unfold pos; lia). apply pos_inside; [done|lia].
    + replace (base + (y * FB_PITCH + x * 4 + 2)) with (pos x y 2) by (unfold pos; lia). apply pos_inside; [done|lia].
Qed.

(** ** A character *)

Lemma shade_bit bits k : 0 ≤ k → shade bits k ink 0 = if Z.testbit bits k then ink else 0.
Proof.
  intros Hk. unfold shade. change 1 with (Z.shiftl 1 0). rewrite land_bit by lia.
  by rewrite Z.shiftr_spec, Z.add_0_l by lia.
Qed.

Definition pic_of (m : ram) (p : Ptr) : list Z :=
  match p with At a => bytes m a FONT_GLYPH_BYTES | BLANK_GLYPH => zeros FONT_GLYPH_BYTES end.
(** The glyph is not drawn in the framebuffer's own memory. *)
Definition outside (p : Ptr) : Prop :=
  match p with At a => ∀ i, 0 ≤ i < FONT_GLYPH_BYTES → ¬ inside (a + i) | BLANK_GLYPH => True end.

(** What drawing the picture [pic] at [(x0, y0)] leaves: all of it, or up to column [c] of row [r] *)
Definition bit (pic : list Z) (x y : Z) : bool := Z.testbit (nth (Z.to_nat y) pic 0) (7 - x).
Definition in_cell (x0 y0 X Y : Z) : bool :=
  (x0 <=? X) && (X <? x0 + FONT_W) && (y0 <=? Y) && (Y <? y0 + FONT_H).
Definition drawn (x0 y0 : Z) (pic : list Z) (P : Z → Z → bool) (X Y : Z) : bool :=
  if in_cell x0 y0 X Y then bit pic (X - x0) (Y - y0) else P X Y.
Definition partial (x0 y0 : Z) (pic : list Z) (P : Z → Z → bool) (r c : Z) (X Y : Z) : bool :=
  if in_cell x0 y0 X Y && ((Y - y0 <? r) || (Y - y0 =? r) && (X - x0 <? c))
  then bit pic (X - x0) (Y - y0) else P X Y.

Lemma deref_canvas s0 P s p r :
  outside p → 0 ≤ r < FONT_H → canvas s0 P s → deref p r s = (Ok (nth (Z.to_nat r) (pic_of (mem s0) p) 0), s).
Proof.
  intros Hp Hr (m & -> & HP & Hm). destruct p as [a|]; cbn [deref pic_of].
  - unfold load, gets. cbn [mem on_mem]. rewrite Hm by (by apply Hp). do 2 f_equal.
    symmetry. apply nth_lookup_Some. rewrite lookup_bytes by (unfold FONT_GLYPH_BYTES; lia).
    do 2 f_equal. lia.
  - unfold mret, SM_ret. do 2 f_equal. unfold zeros. rewrite nth_lookup.
    destruct (_ !! _) eqn:E; [|done]. by apply lookup_replicate in E as [-> _].
Qed.

(** Cells lie within the screen. *)
Definition cell_at (x0 y0 : Z) : Prop := 0 ≤ x0 ∧ x0 + FONT_W ≤ FB_WIDTH ∧ 0 ≤ y0 ∧ y0 + FONT_H ≤ FB_HEIGHT.

Lemma partial_step x0 y0 pic P r c s0 s :
  framebuffer s0 → cell_at x0 y0 → 0 ≤ r < FONT_H → 0 ≤ c < FONT_W →
  canvas s0 (partial x0 y0 pic P r c) s →
  wp (put_pixel (w64 (x0 + c)) (w64 (y0 + r)) (shade (nth (Z.to_nat r) pic 0) (7 - c) ink 0))
    (λ _, canvas s0 (partial x0 y0 pic P r (c + 1))) s.
Proof.
  intros Hfb Hxy Hr Hc Hs. unfold cell_at in Hxy. sizes.
  rewrite !w64_small by lia. rewrite shade_bit by lia.
  eapply wp_mono; [apply put_pixel_paints; [done| |exact Hs]; unfold on_screen; sizes; lia|].
  intros [] s'. apply canvas_ext. intros X Y HXY. unfold dot, partial, in_cell, bit. sizes.
  destruct ((X =? x0 + c) && (Y =? y0 + r)) eqn:E.
  - apply andb_true_iff in E as [->%Z.eqb_eq ->%Z.eqb_eq].
    rewrite (Z.add_comm x0 c), (Z.add_comm y0 r), !Z.add_simpl_r.
    replace (_ && _) with true; [done|]. symmetry. rewrite !andb_true_iff, !orb_true_iff, !andb_true_iff. lia.
  - replace ((Y - y0 =? r) && (X - x0 <? c + 1)) with ((Y - y0 =? r) && (X - x0 <? c)); [done|].
    destruct (Z.eqb_spec (Y - y0) r); [|done]. cbn [andb].
    destruct (Z.eqb_spec X (x0 + c)), (Z.eqb_spec Y (y0 + r)); cbn in E; try done; lia.
Qed.

Lemma partial_row x0 y0 pic P r s0 s :
  canvas s0 (partial x0 y0 pic P r FONT_W) s → canvas s0 (partial x0 y0 pic P (r + 1) 0) s.
Proof.
  apply canvas_ext. intros X Y HXY. unfold partial, in_cell. sizes.
  destruct (Z.leb_spec x0 X), (Z.ltb_spec X (x0 + 8)); cbn [andb]; try done.
  replace ((Y - y0 <? r) || (Y - y0 =? r) && (X - x0 <? 8)) with
    ((Y - y0 <? r + 1) || (Y - y0 =? r + 1) && (X - x0 <? 0)); [done|]. lia.
Qed.

(** The loops over the columns of a row and over the rows *)
Lemma row_paints x0 y0 pic P r (f : Z → TM unit) s0 s :
  framebuffer s0 → cell_at x0 y0 → 0 ≤ r < FONT_H → canvas s0 (partial x0 y0 pic P r 0) s →
  (∀ c Q t, 0 ≤ c < FONT_W → canvas s0 Q t →
     f c t = put_pixel (w64 (x0 + c)) (w64 (y0 + r)) (shade (nth (Z.to_nat r) pic 0) (7 - c) ink 0) t) →
  wp (for_each (range 0 FONT_W) f) (λ _, canvas s0 (partial x0 y0 pic P (r + 1) 0)) s.
Proof.
  intros Hfb Hxy Hr Hs Hf.
  apply (wp_mono _ (λ _, canvas s0 (partial x0 y0 pic P r FONT_W))); [|intros [] u; apply partial_row].
  apply (wp_range 0 FONT_W _ (λ c, canvas s0 (partial x0 y0 pic P r c))); [by sizes|done|].
  intros c t Hc Ht. unfold wp. rewrite (Hf c _ t Hc Ht). by apply partial_step.
Qed.

Lemma rows_paint x0 y0 pic P (g : Z → TM unit) s0 s :
  canvas s0 P s →
  (∀ r t, 0 ≤ r < FONT_H → canvas s0 (partial x0 y0 pic P r 0) t →
     wp (g r) (λ _, canvas s0 (partial x0 y0 pic P (r + 1) 0)) t) →
  wp (for_each (range 0 FONT_H) g) (λ _, canvas s0 (drawn x0 y0 pic P)) s.
Proof.
  intros Hs Hg. apply (wp_mono _ (λ _, canvas s0 (partial x0 y0 pic P FONT_H 0))).
  - apply (wp_range 0 FONT_H _ (λ r, canvas s0 (partial x0 y0 pic P r 0))); [by sizes| |done].
    revert Hs. apply canvas_ext. intros X Y _. unfold partial, in_cell. sizes.
    replace (_ && ((Y - y0 <? 0) || _)) with false; [done|]. symmetry. lia.
  - intros [] t. apply canvas_ext. intros X Y _. unfold partial, drawn, in_cell. sizes.
    destruct (_ && (Y <? y0 + 16)) eqn:E; [|done]. cbn [andb].
    replace ((Y - y0 <? 16) || _) with true; [done|]. lia.
Qed.

(** The glyphs that [glyph_bitmap] and [glyph_bitmap_unicode] find *)
Definition char_ptr (s : Screen) (c : Z) : Ptr :=
  match g_font s with
  | Some f => At (f_glyphs f + Z.min c (w32 (f_num_glyphs f - 1)) * f_charsize f)
  | None => BLANK_GLYPH
  end.

Lemma draw_char_paints s0 P s x0 y0 c :
  framebuffer s0 → cell_at x0 y0 → outside (char_ptr s0 c) → canvas s0 P s →
  wp (draw_char x0 y0 c ink 0) (λ _, canvas s0 (drawn x0 y0 (pic_of (mem s0) (char_ptr s0 c)) P)) s.
Proof.
  intros Hfb Hxy Hp Hs. unfold draw_char. apply wp_bind.
  apply (wp_Ok _ _ _ (char_ptr s0 c) s).
  { destruct Hs as (m & -> & _). unfold glyph_bitmap, font, char_ptr. mred. cbn. by destruct (g_font s0). }
  apply rows_paint; [done|]. intros r t Hr Ht. apply wp_bind. eapply wp_Ok; [by eapply deref_canvas|].
  by apply row_paints.
Qed.

Definition uni_data (s : Screen) (cp : Z) : result GlyphData := (glyph_bitmap_unicode cp s).1.

(** A glyph of [8] by [16] pixels *)
Definition cell_sized (gd : GlyphData) : Prop :=
  gd_width gd = FONT_W ∧ gd_height gd = FONT_H ∧ gd_charsize gd = FONT_GLYPH_BYTES.

Lemma glyph_for_unicode_state cp s : (glyph_for_unicode cp s).2 = s.
Proof.
  unfold glyph_for_unicode, font. mred. cbn. destruct (cp <? 256); [|by destruct (uni_map_find _ _ _ _)].
  destruct (g_font s) as [f|]; [|done]. destruct (cp <? f_num_glyphs f); [done|]. by destruct (uni_map_find _ _ _ _).
Qed.

(** What it answers depends on the font and the map only. *)
Definition same_font (s t : Screen) : Prop :=
  g_font s = g_font t ∧ g_uni_map s = g_uni_map t ∧ g_uni_map_len s = g_uni_map_len t.

Lemma glyph_for_unicode_agree cp s t : same_font s t → (glyph_for_unicode cp s).1 = (glyph_for_unicode cp t).1.
Proof.
  destruct s as [sf sm sl ? ? ?], t as [tf tm tl ? ? ?]. intros (H1 & H2 & H3). cbn in H1, H2, H3. subst. unfold glyph_for_unicode, font. mred. cbn.
  destruct (cp <? 256); [|by destruct (uni_map_find _ _ _ _)].
  destruct tf as [f|]; [|done]. destruct (cp <? f_num_glyphs f); [done|]. by destruct (uni_map_find _ _ _ _).
Qed.

Lemma uni_data_agree cp gd s t : same_font s t → uni_data s cp = Ok gd → glyph_bitmap_unicode cp t = (Ok gd, t).
Proof.
  intros Hst Hgd. pose proof (glyph_for_unicode_state cp s) as Hs. pose proof (glyph_for_unicode_state cp t) as Ht.
  pose proof (glyph_for_unicode_agree cp s t Hst) as He. destruct Hst as (Hf & _ & _).
  unfold uni_data, glyph_bitmap_unicode, font in *. mred.
  destruct (glyph_for_unicode cp s) as [r s'], (glyph_for_unicode cp t) as [r' t'].
  cbn in *. subst. destruct r'; [|done..]. cbn in *. rewrite Hf in Hgd. by injection Hgd as <-.
Qed.

Lemma draw_unicode_char_paints s0 P s x0 y0 cp gd :
  framebuffer s0 → cell_at x0 y0 → uni_data s0 cp = Ok gd → cell_sized gd → outside (gd_data gd) → canvas s0 P s →
  wp (draw_unicode_char x0 y0 cp ink 0) (λ _, canvas s0 (drawn x0 y0 (pic_of (mem s0) (gd_data gd)) P)) s.
Proof.
  intros Hfb Hxy Hgd (Hw & Hh & Hc) Hp Hs. unfold draw_unicode_char. apply wp_bind.
  eapply wp_Ok; [eapply uni_data_agree; [|exact Hgd]; by destruct Hs as (m & -> & _)|]. rewrite Hw, Hh, Hc.
  apply rows_paint; [done|]. intros r t Hr Ht. apply row_paints; [done..|].
  intros c Q u Hc' Hu. change ((FONT_W + 7) / 8) with 1. rewrite Z.mul_1_r.
  unfold FONT_GLYPH_BYTES. sizes. rewrite (Z.div_small c), (Z.mod_small c), Z.add_0_r by lia.
  rewrite (proj2 (Z.ltb_lt _ _)) by lia. unfold mbind, SM_bind.
  by rewrite (deref_canvas _ _ _ _ _ Hp Hr Hu).
Qed.

(** ** Clearing and scrolling *)

(** The state is [s0] with the byte [f q] at [q]. *)
Definition holds (s0 : Screen) (f : Z → Z) (s : Screen) : Prop := ∃ m, s = on_mem s0 m ∧ ∀ q, byte m q = f q.

Lemma holds_ext s0 f g s : (∀ q, f q = g q) → holds s0 f s → holds s0 g s.
Proof. intros Hfg (m & -> & Hm). exists m. split; [done|]. intros q. by rewrite Hm. Qed.

Lemma store_holds s0 f s a v : holds s0 f s → wp (store a v) (λ _, holds s0 (λ q, if q =? a then v else f q)) s.
Proof.
  intros (m & -> & Hm). eexists. split; [reflexivity|]. intros q. cbn [mem on_mem]. rewrite byte_insert.
  by destruct (q =? a).
Qed.

Definition between (a b q : Z) : bool := (base + a <=? q) && (q <? base + b).

Lemma zero_loop s0 f s a b : a ≤ b → holds s0 f s →
  wp (for_each (range a b) (λ i, store (base + i) 0)) (λ _, holds s0 (λ q, if between a b q then 0 else f q)) s.
Proof.
  intros Hab Hs. apply (wp_range a b _ (λ i, holds s0 (λ q, if between a i q then 0 else f q))); [done| |].
  - revert Hs. apply holds_ext. intros q. unfold between. replace (_ && _) with false; [done|]. lia.
  - intros i t Hi Ht. eapply wp_mono; [by apply store_holds|]. intros [] u. apply holds_ext. intros q. unfold between.
    destruct (Z.eqb_spec q (base + i)).
    + replace (_ && _) with true; [done|]. lia.
    + replace ((base + a <=? q) && (q <? base + (i + 1))) with ((base + a <=? q) && (q <? base + i)); [done|]. lia.
Qed.

(** Every byte from the one [d] bytes further on, front to back *)
Lemma move_loop s0 f s d n : 0 ≤ n → 0 ≤ d → holds s0 f s →
  wp (for_each (range 0 n) (λ i, b ← load (base + (i + d)); store (base + i) b))
    (λ _, holds s0 (λ q, if between 0 n q then f (q + d) else f q)) s.
Proof.
  intros Hn Hd Hs. apply (wp_range 0 n _ (λ i, holds s0 (λ q, if between 0 i q then f (q + d) else f q))); [done| |].
  - revert Hs. apply holds_ext. intros q. unfold between. replace (_ && _) with false; [done|]. lia.
  - intros i t Hi Ht. apply wp_bind, wp_gets. eapply wp_mono; [by apply store_holds|].
    destruct Ht as (m & -> & Hm). cbn [mem on_mem]. rewrite Hm.
    intros [] u. apply holds_ext. intros q. unfold between.
    destruct (Z.eqb_spec q (base + i)) as [->|].
    + replace (_ && _) with false by lia. replace (_ && _) with true by lia. f_equal. lia.
    + replace ((base + 0 <=? q) && (q <? base + (i + 1))) with ((base + 0 <=? q) && (q <? base + i)); [done|]. lia.
Qed.

Lemma canvas_holds s0 P s : canvas s0 P s → holds s0 (byte (mem s)) s.
Proof. intros (m & -> & _). by exists m. Qed.

Lemma clear_paints s0 : framebuffer s0 → wp clear (λ _, canvas s0 (λ _ _, false)) s0.
Proof.
  intros Hfb. unfold clear. apply wp_bind, wp_gets. rewrite Hfb. cbn [fb_enabled fb_pitch fb_height fb_base negb].
  eapply wp_mono; [apply (zero_loop s0 (byte (mem s0))); [by sizes|]|].
  { exists (mem s0). by rewrite on_mem_id. }
  intros [] s (m & -> & Hm). exists m. split_and!; [done| |].
  - intros x y k Hxy Hk. rewrite Hm. replace (between _ _ _) with true; [done|].
    pose proof (pos_inside x y k Hxy Hk). unfold between, inside in *. sizes. lia.
  - intros q Hq. rewrite Hm. replace (between _ _ _) with false; [done|].
    unfold between, inside in *. sizes. lia.
Qed.

(** One line of text up *)
Definition scrolled (P : Z → Z → bool) (X Y : Z) : bool :=
  if Y + FONT_H <? FB_HEIGHT then P X (Y + FONT_H) else false.

Lemma scroll_paints s0 P s : framebuffer s0 → canvas s0 P s → wp scroll (λ _, canvas s0 (scrolled P)) s.
Proof.
  intros Hfb Hs. unfold scroll. apply wp_bind, wp_gets.
  assert (g_fb s = g_fb s0) as -> by (by destruct Hs as (? & -> & _)).
  rewrite Hfb. cbn [fb_enabled fb_pitch fb_height fb_base negb].
  apply wp_bind. eapply wp_mono; [apply (move_loop s0 (byte (mem s))); [by sizes..|by eapply canvas_holds]|].
  intros [] t Ht. eapply wp_mono; [apply zero_loop; [by sizes|exact Ht]|].
  destruct Hs as (m & -> & HP & Hm). cbn [mem on_mem].
  intros [] u (m' & -> & Hm'). exists m'. split_and!; [done| |].
  - intros x y k Hxy Hk. rewrite Hm'. unfold scrolled, between. unfold on_screen in Hxy.
    destruct (Z.ltb_spec (y + FONT_H) FB_HEIGHT) as [Hy|Hy].
    + replace (_ && _) with false by (unfold pos; sizes; lia). replace (_ && _) with true by (unfold pos; sizes; lia).
      rewrite <- HP; [|unfold on_screen; sizes; lia|done]. f_equal. unfold pos. sizes. lia.
    + replace (_ && _) with true by (unfold pos; sizes; lia). done.
  - intros q Hq. rewrite Hm'. unfold between, inside in *. replace (_ && _) with false by (sizes; lia).
    replace (_ && _) with false by (sizes; lia). by apply Hm.
Qed.

(** ** Text *)

Definition COLS : Z := 160.
Definition ROWS : Z := 45.

(** A text terminal: its cells hold pictures, [16] rows of [8] pixels each. *)
Record Terminal := mkTerminal { t_rows : list (list (list Z)); t_col : Z; t_row : Z }.

Definition blank : list Z := zeros FONT_GLYPH_BYTES.
Definition blank_row : list (list Z) := replicate (Z.to_nat COLS) blank.
Definition t_cell (g : list (list (list Z))) (r c : Z) : list Z :=
  default blank (g !! Z.to_nat r ≫= λ l, l !! Z.to_nat c).

Definition t_newline (T : Terminal) : Terminal :=
  if ROWS <=? t_row T + 1 then mkTerminal (tail (t_rows T) ++ [blank_row]) 0 (ROWS - 1)
  else mkTerminal (t_rows T) 0 (t_row T + 1).
Definition t_return (T : Terminal) : Terminal := mkTerminal (t_rows T) 0 (t_row T).
Definition t_put (pic : list Z) (T : Terminal) : Terminal :=
  let T' := mkTerminal (alter <[Z.to_nat (t_col T) := pic]> (Z.to_nat (t_row T)) (t_rows T)) (t_col T + 1) (t_row T) in
  if COLS <=? t_col T + 1 then t_newline T' else T'.

Definition t_wf (T : Terminal) : Prop :=
  length (t_rows T) = Z.to_nat ROWS ∧ Forall (λ l, length l = Z.to_nat COLS) (t_rows T) ∧
  0 ≤ t_col T < COLS ∧ 0 ≤ t_row T < ROWS.

Definition face (g : list (list (list Z))) (X Y : Z) : bool :=
  bit (t_cell g (Y / FONT_H) (X / FONT_W)) (X mod FONT_W) (Y mod FONT_H).

Lemma cell_scroll g r c : 0 ≤ r → 0 ≤ c →
  t_cell (tail g ++ [blank_row]) r c = t_cell g (r + 1) c ∨ length g = Z.to_nat (r + 1) ∧ t_cell (tail g ++ [blank_row]) r c = blank
  ∨ g = [].
Proof.
  intros Hr Hc. destruct g as [|l g]; [by right; right|]. unfold t_cell. cbn [tail].
  replace (Z.to_nat (r + 1)) with (S (Z.to_nat r)) by lia. cbn [length].
  destruct (decide (Z.to_nat r < length g)%nat) as [Hlt|Hge].
  { left. by rewrite lookup_app_l by done. }
  destruct (decide (Z.to_nat r = length g)) as [->|Hne].
  - right. left. split; [done|]. rewrite lookup_app_r, Nat.sub_diag by done. cbn.
    destruct (blank_row !! _) eqn:E; [|done]. by apply lookup_replicate in E as [-> _].
  - left. rewrite lookup_app_r by lia. rewrite (lookup_ge_None_2 [blank_row]) by (cbn; lia).
    rewrite (lookup_ge_None_2 (l :: g)) by (cbn; lia). done.
Qed.

Lemma bit_blank x y : bit blank x y = false.
Proof.
  unfold bit, blank, zeros. rewrite nth_lookup.
  destruct (_ !! _) eqn:E; [apply lookup_replicate in E as [-> _]|]; apply Z.bits_0.
Qed.

Lemma face_scroll g X Y : length g = Z.to_nat ROWS → on_screen X Y →
  scrolled (face g) X Y = face (tail g ++ [blank_row]) X Y.
Proof.
  intros Hg HXY. unfold scrolled, face, ROWS, on_screen in *. sizes.
  replace ((Y + 16) / 16) with (Y / 16 + 1) by (Z.to_euclidean_division_equations; lia).
  replace ((Y + 16) mod 16) with (Y mod 16) by (Z.to_euclidean_division_equations; lia).
  assert (0 ≤ Y / 16 ∧ 0 ≤ X / 8) as [Hy Hx] by (Z.to_euclidean_division_equations; lia).
  destruct (cell_scroll g _ _ Hy Hx) as [->|[[Hl ->]| ->]]; [| |done].
  - destruct (Z.ltb_spec (Y + 16) 720); [done|]. unfold t_cell. rewrite lookup_ge_None_2; [by rewrite bit_blank|].
    rewrite Hg. Z.to_euclidean_division_equations; lia.
  - destruct (Z.ltb_spec (Y + 16) 720); [|by rewrite bit_blank].
    exfalso. rewrite Hg in Hl. Z.to_euclidean_division_equations; lia.
Qed.

Lemma face_put g r c pic X Y :
  length g = Z.to_nat ROWS → Forall (λ l, length l = Z.to_nat COLS) g → 0 ≤ r < ROWS → 0 ≤ c < COLS → on_screen X Y →
  drawn (c * FONT_W) (r * FONT_H) pic (face g) X Y = face (alter <[Z.to_nat c := pic]> (Z.to_nat r) g) X Y.
Proof.
  intros Hg Hl Hr Hc HXY. unfold drawn, in_cell, face, t_cell, on_screen, ROWS, COLS in *. sizes.
  destruct (lookup_lt_is_Some_2 g (Z.to_nat r)) as [l Hrow]; [lia|].
  pose proof (Forall_lookup_1 _ _ _ _ Hl Hrow) as Hll. cbn in Hll.
  destruct (decide (Y / 16 = r)) as [HY|HY].
  - subst r. rewrite list_lookup_alter_eq, Hrow. cbn [fmap option_fmap option_map mbind option_bind]. destruct (decide (X / 8 = c)) as [HX|HX].
    + subst c. rewrite list_lookup_insert_eq by lia. cbn [default from_option].
      replace (_ && _) with true by (Z.to_euclidean_division_equations; lia).
      f_equal; Z.to_euclidean_division_equations; lia.
    + rewrite list_lookup_insert_ne by (Z.to_euclidean_division_equations; lia).
      replace (_ && _) with false by (Z.to_euclidean_division_equations; lia). done.
  - rewrite list_lookup_alter_ne by (Z.to_euclidean_division_equations; lia).
    replace (_ && _) with false by (Z.to_euclidean_division_equations; lia). done.
Qed.

Lemma wf_newline T : t_wf T → t_wf (t_newline T).
Proof.
  unfold t_wf, t_newline, ROWS, COLS. intros (Hl & Hf & Hc & Hr).
  destruct (Z.leb_spec 45 (t_row T + 1)); cbn [t_rows t_col t_row]; split_and!; try done; try lia.
  - destruct (t_rows T); [done|]. cbn in *. rewrite length_app. cbn. lia.
  - apply Forall_app. split; [by destruct Hf|]. by constructor.
Qed.

Lemma wf_col T c : t_wf T → 0 ≤ c < COLS → t_wf (mkTerminal (t_rows T) c (t_row T)).
Proof. unfold t_wf. cbn. tauto. Qed.

Lemma wf_cells T pic : t_wf T →
  t_wf (mkTerminal (alter <[Z.to_nat (t_col T) := pic]> (Z.to_nat (t_row T)) (t_rows T)) (t_col T) (t_row T)).
Proof.
  intros (Hl & Hf & Hc & Hr). split_and!; cbn; [|apply Forall_alter; [done|]|lia..].
  - by rewrite length_alter.
  - intros l _ Hll. by rewrite length_insert.
Qed.

(** ** The writer *)

(** [s0] with the writer's cursor where the terminal's is *)
Definition at_cursor (s0 : Screen) (c r : Z) : Screen :=
  mkScreen (g_font s0) (g_uni_map s0) (g_uni_map_len s0) (g_fb s0) (mkFbWriter c r ink 0) (mem s0).

(** The screen shows [T]: the cursor is [T]'s, every pixel is that of [T]'s cells, and
    nothing else differs from [s0]. *)
Definition shows (s0 : Screen) (T : Terminal) (s : Screen) : Prop :=
  t_wf T ∧ canvas (at_cursor s0 (t_col T) (t_row T)) (face (t_rows T)) s.

Lemma wp_writer s0 c r P s (Q : FbWriter → Screen → Prop) :
  canvas (at_cursor s0 c r) P s → Q (mkFbWriter c r ink 0) s → wp (gets g_writer) Q s.
Proof. by intros (m & -> & _). Qed.

Lemma set_col_canvas s0 c r P c' s :
  canvas (at_cursor s0 c r) P s → wp (set_col c') (λ _, canvas (at_cursor s0 c' r) P) s.
Proof. intros (m & -> & H). by exists m. Qed.
Lemma set_row_canvas s0 c r P r' s :
  canvas (at_cursor s0 c r) P s → wp (set_row r') (λ _, canvas (at_cursor s0 c r') P) s.
Proof. intros (m & -> & H). by exists m. Qed.

Lemma next_line_shows s0 T c s : framebuffer s0 → t_wf T →
  canvas (at_cursor s0 c (t_row T)) (face (t_rows T)) s →
  wp (next_line (FB_HEIGHT / FONT_H)) (λ _, shows s0 (t_newline T)) s.
Proof.
  intros Hfb HT Hs. pose proof (wf_newline T HT) as HT'. destruct HT as (Hl & _ & _ & Hr).
  unfold shows. change (FB_HEIGHT / FONT_H) with ROWS. unfold next_line.
  apply wp_bind. eapply wp_writer; [exact Hs|]. cbn [row].
  apply wp_bind. eapply wp_mono; [by eapply set_col_canvas|]. intros [] s1 H1.
  unfold ROWS in *. rewrite w64_small by lia.
  apply wp_bind. eapply wp_mono; [by eapply set_row_canvas|]. intros [] s2 H2.
  revert HT'. unfold t_newline, ROWS. destruct (Z.leb_spec 45 (t_row T + 1)); intros HT'; [|by apply wp_ret].
  apply wp_bind. eapply wp_mono; [by eapply (scroll_paints (at_cursor s0 0 (t_row T + 1)))|]. intros [] s3 H3.
  change (w64 (45 - 1)) with 44. eapply wp_mono; [by eapply set_row_canvas|]. intros [] s4 H4. split; [done|].
  revert H4. apply canvas_ext. intros X Y. by apply face_scroll.
Qed.

Lemma put_shows s0 T pic (draw : TM unit) s :
  framebuffer s0 → shows s0 T s →
  (∀ t, canvas (at_cursor s0 (t_col T) (t_row T)) (face (t_rows T)) t →
     wp draw (λ _, canvas (at_cursor s0 (t_col T) (t_row T))
       (drawn (t_col T * FONT_W) (t_row T * FONT_H) pic (face (t_rows T)))) t) →
  wp (draw;; set_col (w64 (t_col T + 1));;
      if FB_WIDTH / FONT_W <=? w64 (t_col T + 1) then next_line (FB_HEIGHT / FONT_H) else mret tt)
    (λ _, shows s0 (t_put pic T)) s.
Proof.
  intros Hfb [HT Hs] Hdraw. pose proof (wf_cells T pic HT) as HC. destruct HT as (Hl & Hf & Hc & Hr).
  change (FB_WIDTH / FONT_W) with COLS. unfold COLS in Hc. rewrite w64_small by lia.
  apply wp_bind. eapply wp_mono; [by apply Hdraw|]. intros [] s1 H1.
  apply wp_bind. eapply wp_mono; [by eapply set_col_canvas|]. intros [] s2 H2.
  apply (canvas_ext _ _ (face (alter <[Z.to_nat (t_col T) := pic]> (Z.to_nat (t_row T)) (t_rows T)))) in H2;
    [|intros X Y HXY; by apply face_put].
  set (g := alter _ _ _) in *. unfold t_put. destruct (Z.leb_spec COLS (t_col T + 1)) as [Hge|Hlt].
  - apply (next_line_shows s0 (mkTerminal g 0 (t_row T)) (t_col T + 1)); [done| |exact H2].
    by apply (wf_col (mkTerminal g (t_col T) (t_row T))).
  - apply wp_ret. split; [|done]. apply (wf_col (mkTerminal g (t_col T) (t_row T))); [done|]. lia.
Qed.

(** ** Output *)

(** The font that [s] has fits the cells and lies outside the framebuffer; the map of code
    points is well formed. *)
Definition good_font (s : Screen) : Prop :=
  len (g_uni_map s) = UNICODE_MAP_SIZE ∧ 0 ≤ g_uni_map_len s ≤ UNICODE_MAP_SIZE ∧
  Forall (λ e, 0 ≤ glyph_idx e) (g_uni_map s) ∧
  match g_font s with
  | Some f =>
      f_width f = FONT_W ∧ f_height f = FONT_H ∧ f_charsize f = FONT_GLYPH_BYTES ∧ 0 < f_num_glyphs f < 4294967296 ∧
      (f_glyphs f + f_num_glyphs f * FONT_GLYPH_BYTES ≤ base ∨ base + FB_SIZE ≤ f_glyphs f)
  | None => True
  end.

Lemma glyph_outside f i : 0 ≤ i →
  0 < f_num_glyphs f < 4294967296 → f_charsize f = FONT_GLYPH_BYTES →
  f_glyphs f + f_num_glyphs f * FONT_GLYPH_BYTES ≤ base ∨ base + FB_SIZE ≤ f_glyphs f →
  outside (At (f_glyphs f + Z.min i (f_num_glyphs f - 1) * f_charsize f)).
Proof.
  intros Hi Hn -> Hf j Hj. unfold inside, FONT_GLYPH_BYTES in *. sizes. intros H.
  assert (0 ≤ Z.min i (f_num_glyphs f - 1) ≤ f_num_glyphs f - 1) by lia. nia.
Qed.

Lemma char_outside s c : good_font s → 0 ≤ c → outside (char_ptr s c).
Proof.
  intros (_ & _ & _ & Hf) Hc. unfold char_ptr. destruct (g_font s) as [f|]; [|done].
  destruct Hf as (_ & _ & Hs & Hn & Ho). replace (w32 (f_num_glyphs f - 1)) with (f_num_glyphs f - 1).
  - by apply glyph_outside.
  - symmetry. apply Z.mod_small. lia.
Qed.

Lemma uni_map_find_total map cp : Forall (λ e, 0 ≤ glyph_idx e) map → ∀ n i,
  0 ≤ i → i + Z.of_nat n ≤ len map →
  ∃ o, uni_map_find n map i cp = Ok o ∧ from_option (λ g, 0 ≤ g) True o.
Proof.
  intros Hm. induction n as [|n IH]; intros i Hi Hn; cbn [uni_map_find]; [by exists None|].
  destruct (idx_Some map i) as [e He]; [lia|]. rewrite (idx_ok _ _ _ He) by done. mred.
  destruct (codepoint e =? cp).
  - eexists. split; [done|]. cbn. by apply (Forall_lookup_1 _ _ _ _ Hm He).
  - apply IH; lia.
Qed.

Lemma glyph_for_unicode_total s cp : good_font s → 0 ≤ cp →
  ∃ o, glyph_for_unicode cp s = (Ok o, s) ∧ from_option (λ g, 0 ≤ g) True o.
Proof.
  intros (Hl & Hn & Hm & _) Hcp.
  destruct (uni_map_find_total _ cp Hm (Z.to_nat (g_uni_map_len s)) 0) as (o & Ho & Hpos); [lia..|].
  unfold glyph_for_unicode, font. mred. cbn -[uni_map_find Z.to_nat].
  destruct (cp <? 256); [destruct (g_font s) as [f|]; [destruct (cp <? f_num_glyphs f); [by exists (Some cp)|]|by exists None]|];
    cbn -[uni_map_find Z.to_nat]; rewrite Ho; by exists o.
Qed.

Lemma uni_data_good s cp : good_font s → 0 ≤ cp →
  ∃ gd, uni_data s cp = Ok gd ∧ cell_sized gd ∧ outside (gd_data gd).
Proof.
  intros Hg Hcp. destruct (glyph_for_unicode_total s cp Hg Hcp) as (o & Ho & Hpos).
  destruct Hg as (_ & _ & _ & Hf). unfold uni_data, glyph_bitmap_unicode, font.
  unfold mbind, SM_bind. rewrite Ho. mred. cbn.
  destruct (g_font s) as [f|]; [|by destruct o; eexists; split_and!].
  destruct Hf as (Hw & Hh & Hs & Hn & Hout).
  assert (Hd : ∀ i, 0 ≤ i → cell_sized (glyph_data f i) ∧ outside (gd_data (glyph_data f i))).
  { intros i Hi. unfold glyph_data, cell_sized. cbn [gd_width gd_height gd_charsize gd_data]. split; [done|].
    rewrite w64_small by lia. by apply glyph_outside. }
  destruct o as [i|]; eexists; (split; [reflexivity|]); apply Hd; [done|lia].
Qed.

Definition char_pic (s : Screen) (c : Z) : list Z := pic_of (mem s) (char_ptr s c).
Definition uni_pic (s : Screen) (cp : Z) : list Z :=
  match uni_data s cp with Ok gd => pic_of (mem s) (gd_data gd) | _ => blank end.

Definition t_putc (s : Screen) (T : Terminal) (c : Z) : Terminal :=
  if c =? 10 then t_newline T else if c =? 13 then t_return T else t_put (char_pic s c) T.
Definition t_put_unicode (s : Screen) (T : Terminal) (cp : Z) : Terminal :=
  if cp <? 0x20 then t_putc s T cp else t_put (uni_pic s cp) T.

Lemma putc_shows s0 T c s : framebuffer s0 → good_font s0 → 0 ≤ c → shows s0 T s →
  wp (putc c) (λ _, shows s0 (t_putc s0 T c)) s.
Proof.
  intros Hfb Hg Hc Hs. unfold putc, t_putc. destruct (c =? 10).
  { destruct Hs. by eapply next_line_shows. }
  destruct (c =? 13).
  { destruct Hs as [HT Hs]. eapply wp_mono; [by eapply set_col_canvas|]. intros [] t Ht.
    split; [|done]. by apply wf_col. }
  pose proof Hs as [HT Hcv]. pose proof HT as (_ & _ & HC & HR). unfold COLS, ROWS in *.
  apply wp_bind. eapply wp_writer; [exact Hcv|]. cbn [col row fg bg]. sizes.
  rewrite !(w64_small (_ * _)) by lia. apply put_shows; [done..|]. intros t Ht.
  apply (draw_char_paints (at_cursor s0 (t_col T) (t_row T))); [done| | |done].
  - unfold cell_at. sizes. lia.
  - by apply char_outside.
Qed.

Lemma put_unicode_shows s0 T cp s : framebuffer s0 → good_font s0 → u32 cp → shows s0 T s →
  wp (put_unicode cp) (λ _, shows s0 (t_put_unicode s0 T cp)) s.
Proof.
  intros Hfb Hg Hcp Hs. unfold put_unicode. pose proof Hs as [HT Hcv]. pose proof HT as (_ & _ & HC & HR).
  assert (Hsize : from_option f_width FONT_W (g_font s) = FONT_W ∧ from_option f_height FONT_H (g_font s) = FONT_H).
  { destruct Hcv as (m & -> & _). cbn. destruct Hg as (_ & _ & _ & Hf). destruct (g_font s0); [|done]. cbn. tauto. }
  destruct Hsize as [Hw Hh]. unfold font_width, font_height, font.
  apply wp_bind, wp_bind, wp_gets, wp_ret. rewrite Hw. apply wp_bind, wp_bind, wp_gets, wp_ret. rewrite Hh.
  change (quot FB_WIDTH FONT_W) with (mret (FB_WIDTH / FONT_W) : TM Z).
  change (quot FB_HEIGHT FONT_H) with (mret (FB_HEIGHT / FONT_H) : TM Z).
  apply wp_bind, wp_ret, wp_bind, wp_ret. unfold t_put_unicode. destruct (Z.ltb_spec cp 0x20).
  { unfold w8, u32 in *. rewrite Z.mod_small by lia. by apply putc_shows; [..|lia|]. }
  unfold COLS, ROWS, u32 in *.
  apply wp_bind. eapply wp_writer; [exact Hcv|]. cbn [col row fg bg]. sizes.
  rewrite !(w64_small (_ * _)) by lia. apply put_shows; [done..|]. intros t Ht.
  destruct (uni_data_good s0 cp Hg) as (gd & Hgd & Hcs & Ho); [lia|]. unfold uni_pic. rewrite Hgd.
  apply (draw_unicode_char_paints (at_cursor s0 (t_col T) (t_row T))); try done.
  - unfold cell_at. sizes. lia.
  - unfold uni_data. by erewrite uni_data_agree; [| |exact Hgd].
Qed.
End Canvas.

(** ** UTF-8 *)

(** How a string holds the code point [cp] *)
Definition utf8 (cp : Z) : list Z :=
  if cp <? 0x80 then [cp]
  else if cp <? 0x800 then [0xC0 + cp / 64; 0x80 + cp mod 64]
  else if cp <? 0x10000 then [0xE0 + cp / 4096; 0x80 + cp / 64 mod 64; 0x80 + cp mod 64]
  else [0xF0 + cp / 262144; 0x80 + cp / 4096 mod 64; 0x80 + cp / 64 mod 64; 0x80 + cp mod 64].

Lemma tail_byte r : 0 ≤ r < 64 → Z.land (0x80 + r) 0x3F = r.
Proof. intros Hr. change 0x3F with (Z.ones 6). rewrite Z.land_ones by lia. Z.to_euclidean_division_equations. lia. Qed.

Lemma join a b n : 0 ≤ n → 0 ≤ b < 2 ^ n → Z.lor (Z.shiftl a n) b = a * 2 ^ n + b.
Proof. intros Hn Hb. by rewrite Z.shiftl_mul_pow2, lor_mul_pow2. Qed.

Lemma join2 a b c : 0 ≤ b < 64 → 0 ≤ c < 64 →
  Z.lor (Z.lor (Z.shiftl a 12) (Z.shiftl b 6)) c = a * 4096 + b * 64 + c.
Proof.
  intros Hb Hc. rewrite (Z.shiftl_mul_pow2 b) by lia. rewrite join by lia.
  replace (a * 2 ^ 12 + b * 2 ^ 6) with ((a * 64 + b) * 2 ^ 6) by lia. rewrite lor_mul_pow2 by lia. lia.
Qed.
Lemma join3 a b c d : 0 ≤ b < 64 → 0 ≤ c < 64 → 0 ≤ d < 64 →
  Z.lor (Z.lor (Z.lor (Z.shiftl a 18) (Z.shiftl b 12)) (Z.shiftl c 6)) d = a * 262144 + b * 4096 + c * 64 + d.
Proof.
  intros Hb Hc Hd. rewrite (Z.shiftl_mul_pow2 b) by lia. rewrite join by lia.
  replace (a * 2 ^ 18 + b * 2 ^ 12) with (Z.shiftl (a * 64 + b) 12) by (rewrite Z.shiftl_mul_pow2 by lia; lia).
  rewrite join2 by lia. lia.
Qed.

Lemma head_byte h k r : 0 ≤ k → 0 ≤ r < 2 ^ k → h mod 2 ^ k = 0 → Z.land (h + r) (Z.ones k) = r.
Proof.
  intros Hk Hr Hh. rewrite Z.land_ones by done. rewrite Z.add_mod, Hh, Z.add_0_l, Z.mod_mod by lia.
  by apply Z.mod_small.
Qed.

Lemma next_cp_utf8 cp l : 0x80 ≤ cp < 0x110000 →
  ∃ b t, utf8 cp = b :: t ∧ 0x80 ≤ b ∧ next_cp b (t ++ l) = Some (cp, l).
Proof.
  intros Hcp. unfold utf8. rewrite (proj2 (Z.ltb_ge _ _)) by lia.
  destruct (Z.ltb_spec cp 0x800); [|destruct (Z.ltb_spec cp 0x10000)];
    (eexists _, _; split; [reflexivity|]; split; [Z.to_euclidean_division_equations; lia|]);
    unfold next_cp; cbn [app].
  - rewrite (proj2 (Z.ltb_lt _ _)) by (Z.to_euclidean_division_equations; lia).
    rewrite tail_byte by (apply Z.mod_pos_bound; lia). change 0x1F with (Z.ones 5).
    rewrite head_byte by (try done; Z.to_euclidean_division_equations; lia).
    rewrite join by (try apply Z.mod_pos_bound; lia). do 2 f_equal. Z.to_euclidean_division_equations. lia.
  - rewrite (proj2 (Z.ltb_ge _ _)) by (Z.to_euclidean_division_equations; lia).
    rewrite (proj2 (Z.ltb_lt _ _)) by (Z.to_euclidean_division_equations; lia).
    rewrite !tail_byte by (apply Z.mod_pos_bound; lia). change 0x0F with (Z.ones 4).
    rewrite head_byte by (try done; Z.to_euclidean_division_equations; lia).
    rewrite join2 by (apply Z.mod_pos_bound; lia). do 2 f_equal. Z.to_euclidean_division_equations. lia.
  - rewrite (proj2 (Z.ltb_ge _ _)) by (Z.to_euclidean_division_equations; lia).
    rewrite (proj2 (Z.ltb_ge _ _)) by (Z.to_euclidean_division_equations; lia).
    rewrite !tail_byte by (apply Z.mod_pos_bound; lia). change 0x07 with (Z.ones 3).
    rewrite head_byte by (try done; Z.to_euclidean_division_equations; lia).
    rewrite join3 by (apply Z.mod_pos_bound; lia). do 2 f_equal. Z.to_euclidean_division_equations. lia.
Qed.

(** ** The whole terminal *)

Inductive Output := OStr (s : list Z) | OChar (c : Z) | OUnicode (cp : Z) | OText (cps : list Z).

Definition write_output (o : Output) : TM unit :=
  match o with
  | OStr s => write_str s
  | OChar c => write_char c
  | OUnicode cp => write_unicode cp
  | OText cps => write_unicode_str (concat (utf8 <$> cps))
  end.
Definition output_wf (o : Output) : Prop :=
  match o with
  | OStr s => Forall u8 s
  | OChar c => u8 c
  | OUnicode cp => u32 cp
  | OText cps => Forall (λ cp, 0 ≤ cp < 0x110000) cps
  end.
Definition t_output (s : Screen) (T : Terminal) (o : Output) : Terminal :=
  match o with
  | OStr l => foldl (t_putc s) T l
  | OChar c => t_putc s T c
  | OUnicode cp => t_put_unicode s T cp
  | OText cps => foldl (λ T cp, if cp <? 0x80 then t_putc s T cp else t_put_unicode s T cp) T cps
  end.

Section Outputs.
Context (base ink : Z) (s0 : Screen) (Hfb : framebuffer base s0) (Hg : good_font base s0).

Lemma puts_shows l : Forall (λ c, 0 ≤ c) l → ∀ T s, shows base ink s0 T s →
  wp (puts l) (λ _, shows base ink s0 (foldl (t_putc s0) T l)) s.
Proof.
  unfold puts. induction 1 as [|c l Hc Hl IH]; intros T s Hs; [done|]. cbn [for_each foldl].
  apply wp_bind. eapply wp_mono; [by apply putc_shows|]. intros [] t. apply IH.
Qed.

Lemma puts_unicode_shows cps : Forall (λ cp, 0 ≤ cp < 0x110000) cps → ∀ fuel T s,
  (length (concat (utf8 <$> cps)) < fuel)%nat → shows base ink s0 T s →
  wp (puts_unicode_loop fuel (concat (utf8 <$> cps)))
    (λ _, shows base ink s0 (t_output s0 T (OText cps))) s.
Proof.
  cbn [t_output]. induction 1 as [|cp cps Hcp _ IH]; intros fuel T s Hfuel Hs; (destruct fuel as [|fuel]; [cbn in Hfuel; lia|]); [done|].
  rewrite fmap_cons in *. cbn [concat foldl] in *. destruct (Z.ltb_spec cp 0x80) as [Ha|Ha].
  - unfold utf8 in *. rewrite (proj2 (Z.ltb_lt _ _)) in * by done. cbn [app puts_unicode_loop length] in *.
    rewrite (proj2 (Z.ltb_lt _ _)) by done.
    apply wp_bind. eapply wp_mono; [apply putc_shows; [done..|lia|done]|]. intros [] t. apply IH. lia.
  - destruct (next_cp_utf8 cp (concat (utf8 <$> cps))) as (b & t & Hb & Hb80 & Hn); [lia|].
    rewrite Hb in *. cbn [app puts_unicode_loop length] in *. rewrite (proj2 (Z.ltb_ge _ _)), Hn by done.
    apply wp_bind. eapply wp_mono; [apply put_unicode_shows; [done..|unfold u32; lia|done]|]. intros [] u. apply IH.
    rewrite length_app in Hfuel. lia.
Qed.

Lemma with_writer_shows T s m Q : shows base ink s0 T s → wp m Q s → wp (with_writer m) Q s.
Proof.
  intros [_ (r & -> & _)] Hm. unfold with_writer, enabled. apply wp_bind, wp_gets. cbn. by rewrite Hfb.
Qed.

Lemma output_shows T o s : output_wf o → shows base ink s0 T s →
  wp (write_output o) (λ _, shows base ink s0 (t_output s0 T o)) s.
Proof.
  intros Ho Hs. destruct o as [l|c|cp|cps]; cbn [write_output output_wf t_output] in *;
    (eapply with_writer_shows; [exact Hs|]).
  - apply puts_shows; [|done]. eapply Forall_impl; [done|]. unfold u8. lia.
  - unfold u8 in Ho. by apply putc_shows; [..|lia|].
  - by apply put_unicode_shows.
  - apply puts_unicode_shows; [done|lia|done].
Qed.

Lemma outputs_show out : Forall output_wf out → ∀ T s, shows base ink s0 T s →
  wp (for_each out write_output) (λ _, shows base ink s0 (foldl (t_output s0) T out)) s.
Proof.
  induction 1 as [|o out Ho _ IH]; intros T s Hs; [done|]. cbn [for_each foldl].
  apply wp_bind. eapply wp_mono; [by apply output_shows|]. intros [] t. apply IH.
Qed.
End Outputs.

Definition blank_terminal : Terminal := mkTerminal (replicate (Z.to_nat ROWS) blank_row) 0 0.

Lemma blank_face x y : face (t_rows blank_terminal) x y = false.
Proof.
  unfold face. replace (t_cell _ _ _) with blank; [apply bit_blank|]. unfold t_cell, blank_terminal. cbn [t_rows].
  destruct (replicate _ _ !! _) as [l|] eqn:E; [|done]. apply lookup_replicate in E as [-> _]. cbn.
  destruct (blank_row !! _) eqn:E; [|done]. by apply lookup_replicate in E as [-> _].
Qed.

Definition with_fb (s : Screen) (f : Fb) : Screen :=
  mkScreen (g_font s) (g_uni_map s) (g_uni_map_len s) f (g_writer s) (mem s).
Definition fb_on (paddr : Z) : Fb := mkFb paddr FB_WIDTH FB_HEIGHT FB_PITCH FB_BPP true.

Lemma fb_init_shows paddr s : g_writer s = FbWriter_new →
  wp (fb_init paddr) (λ _, shows paddr COL_GREEN (with_fb s (fb_on paddr)) blank_terminal) s.
Proof.
  intros Hw. unfold fb_init. apply wp_bind, wp_modify. set (s1 := mkScreen _ _ _ _ _ _).
  eapply wp_mono; [by apply (clear_paints paddr COL_GREEN s1)|]. intros [] t Ht. split.
  - split_and!; try done; cbn [t_rows blank_terminal].
    by apply Forall_replicate.
  - revert Ht. subst s1. unfold at_cursor. cbn. rewrite Hw. apply canvas_ext. intros x y _. by rewrite blank_face.
Qed.

Module ScreenTheorems.

(** C11. With a font of 8 by 16 pixels the text screen is a text terminal: from [fb::init] on, whatever is written to it,
    characters, strings, code points or Unicode text, every operation returns, the
    framebuffer is the drawing, pixel for pixel, of the terminal that reads the same output (cells
    of 8 by 16 pixels, the lines scrolled off at the bottom of 45 rows of 160), the cursor
    is the terminal's, and the memory outside the framebuffer is as it was. *)
Theorem screen_is_terminal paddr s out :
  g_writer s = FbWriter_new → good_font paddr s → Forall output_wf out →
  wp (fb_init paddr;; for_each out write_output)
    (λ _, shows paddr COL_GREEN (with_fb s (fb_on paddr))
            (foldl (t_output (with_fb s (fb_on paddr))) blank_terminal out)) s.
Proof.
  intros Hw Hg Ho. apply wp_bind. eapply wp_mono; [by apply fb_init_shows|]. intros [] t Ht.
  by apply outputs_show.
Qed.

Lemma screen_is_terminal_witness :
  let s := mkScreen (Some (mkPcfFont 8 16 16 256 0x80400000 0 0)) (replicate 512 (mkUniMapEntry 0 0)) 0 G_FB0
    FbWriter_new (<[0x80400411 := 0x7E]> ∅) in
  wp (fb_init 0x90000000;; for_each [OStr [79; 110; 121; 120; 10]; OText [0x2591; 65]] write_output)
    (λ _, shows 0x90000000 COL_GREEN (with_fb s (fb_on 0x90000000))
            (foldl (t_output (with_fb s (fb_on 0x90000000))) blank_terminal [OStr [79; 110; 121; 120; 10]; OText [0x2591; 65]])) s.
Proof.
  apply (screen_is_terminal 0x90000000 (mkScreen (Some (mkPcfFont 8 16 16 256 0x80400000 0 0)) (replicate 512 (mkUniMapEntry 0 0)) 0 G_FB0
    FbWriter_new (<[0x80400411 := 0x7E]> ∅))).
  - reflexivity.
  - do 2 (split; [easy|]). split; [by apply Forall_replicate|]. do 4 (split; [easy|]). by left.
  - repeat constructor; unfold u8; lia.
Defined.
End ScreenTheorems.
