(* ===== verification/Psfgen.v ===== *)
(** * tools/src/psfgen: the generator of the console font

    [psf1] is the file that [main] writes: the header, the glyphs of the codes of
    [0..GLYPHS as u8] and the table of code points. *)

From S2P Require Import Prelude.
From stdpp Require Import base list numbers.
From Stdlib Require Import ZArith Lia.

Open Scope Z_scope.

(** ** fontdata.rs *)

Definition GLYPH_DEFAULT : list Z :=
  [0x7E; 0x81; 0x99; 0x81; 0x99; 0x81; 0x81; 0x81; 0x81; 0x81; 0x81; 0x99; 0x81; 0x99; 0x81; 0x7E].

Definition DIGITS : list (list Z) := [
  [0x3C; 0x66; 0x66; 0x66; 0x66; 0x66; 0x66; 0x66; 0x66; 0x66; 0x66; 0x66; 0x66; 0x66; 0x66; 0x3C];
  [0x18; 0x38; 0x78; 0x18; 0x18; 0x18; 0x18; 0x18; 0x18; 0x18; 0x18; 0x18; 0x18; 0x18; 0x18; 0x7E];
  [0x3C; 0x66; 0x66; 0x06; 0x0C; 0x18; 0x30; 0x60; 0x60; 0x60; 0x60; 0x60; 0x60; 0x66; 0x66; 0x3C];
  [0x3C; 0x66; 0x66; 0x06; 0x06; 0x0C; 0x38; 0x0C; 0x06; 0x06; 0x06; 0x06; 0x66; 0x66; 0x66; 0x3C];
  [0x0C; 0x1C; 0x3C; 0x6C; 0x6C; 0xCC; 0xCC; 0xFE; 0x0C; 0x0C; 0x0C; 0x0C; 0x0C; 0x0C; 0x0C; 0x1E];
  [0x7E; 0x60; 0x60; 0x60; 0x78; 0x7C; 0x66; 0x06; 0x06; 0x06; 0x06; 0x06; 0x66; 0x66; 0x66; 0x3C];
  [0x3C; 0x66; 0x60; 0x60; 0x60; 0x78; 0x7C; 0x66; 0x66; 0x66; 0x66; 0x66; 0x66; 0x66; 0x66; 0x3C];
  [0x7E; 0x66; 0x06; 0x0C; 0x0C; 0x18; 0x18; 0x18; 0x30; 0x30; 0x30; 0x30; 0x30; 0x30; 0x30; 0x30];
  [0x3C; 0x66; 0x66; 0x66; 0x66; 0x3C; 0x3C; 0x66; 0x66; 0x66; 0x66; 0x66; 0x66; 0x66; 0x66; 0x3C];
  [0x3C; 0x66; 0x66; 0x66; 0x66; 0x66; 0x66; 0x3E; 0x1E; 0x06; 0x06; 0x06; 0x06; 0x66; 0x66; 0x3C]].

Definition ALPHA_UPPER : list (list Z) := [
  [0x18; 0x3C; 0x66; 0x66; 0x66; 0x66; 0x66; 0x7E; 0x7E; 0x66; 0x66; 0x66; 0x66; 0x66; 0x66; 0x66];
  [0xFC; 0x66; 0x66; 0x66; 0x66; 0x7C; 0x7C; 0x66; 0x66; 0x66; 0x66; 0x66; 0x66; 0x66; 0x66; 0xFC];
  [0x3C; 0x66; 0x66; 0x60; 0x60; 0x60; 0x60; 0x60; 0x60; 0x60; 0x60; 0x60; 0x66; 0x66; 0x66; 0x3C];
  [0xF8; 0x6C; 0x66; 0x66; 0x66; 0x66; 0x66; 0x66; 0x66; 0x66; 0x66; 0x66; 0x66; 0x66; 0x6C; 0xF8];
  [0xFE; 0x62; 0x60; 0x60; 0x60; 0x60; 0x7C; 0x7C; 0x60; 0x60; 0x60; 0x60; 0x60; 0x62; 0x62; 0xFE];
  [0xFE; 0x62; 0x60; 0x60; 0x60; 0x60; 0x7C; 0x7C; 0x60; 0x60; 0x60; 0x60; 0x60; 0x60; 0x60; 0xF0];
  [0x3C; 0x66; 0x66; 0x60; 0x60; 0x60; 0x60; 0x6E; 0x6E; 0x66; 0x66; 0x66; 0x66; 0x66; 0x66; 0x3C];
  [0x66; 0x66; 0x66; 0x66; 0x66; 0x66; 0x7E; 0x7E; 0x66; 0x66; 0x66; 0x66; 0x66; 0x66; 0x66; 0x66];
  [0x7E; 0x18; 0x18; 0x18; 0x18; 0x18; 0x18; 0x18; 0x18; 0x18; 0x18; 0x18; 0x18; 0x18; 0x18; 0x7E];
  [0x1E; 0x0C; 0x0C; 0x0C; 0x0C; 0x0C; 0x0C; 0x0C; 0x0C; 0x0C; 0x6C; 0x6C; 0x6C; 0x6C; 0x6C; 0x38];
  [0xE6; 0x66; 0x66; 0x6C; 0x6C; 0x78; 0x78; 0x70; 0x78; 0x78; 0x6C; 0x6C; 0x66; 0x66; 0x66; 0xE6];
  [0xF0; 0x60; 0x60; 0x60; 0x60; 0x60; 0x60; 0x60; 0x60; 0x60; 0x60; 0x60; 0x60; 0x62; 0x66; 0xFE];
  [0xC6; 0xEE; 0xFE; 0xFE; 0xD6; 0xC6; 0xC6; 0xC6; 0xC6; 0xC6; 0xC6; 0xC6; 0xC6; 0xC6; 0xC6; 0xC6];
  [0x66; 0x66; 0x76; 0x7E; 0x7E; 0x7E; 0x6E; 0x6E; 0x66; 0x66; 0x66; 0x66; 0x66; 0x66; 0x66; 0x66];
  [0x3C; 0x66; 0x66; 0x66; 0x66; 0x66; 0x66; 0x66; 0x66; 0x66; 0x66; 0x66; 0x66; 0x66; 0x66; 0x3C];
  [0xFC; 0x66; 0x66; 0x66; 0x66; 0x66; 0x7C; 0x7C; 0x60; 0x60; 0x60; 0x60; 0x60; 0x60; 0x60; 0xF0];
  [0x3C; 0x66; 0x66; 0x66; 0x66; 0x66; 0x66; 0x66; 0x66; 0x66; 0x66; 0x6E; 0x7E; 0x3E; 0x06; 0x06];
  [0xFC; 0x66; 0x66; 0x66; 0x66; 0x7C; 0x7C; 0x78; 0x6C; 0x6C; 0x66; 0x66; 0x66; 0x66; 0x66; 0xE6];
  [0x3C; 0x66; 0x66; 0x60; 0x70; 0x38; 0x1C; 0x0E; 0x06; 0x06; 0x06; 0x66; 0x66; 0x66; 0x66; 0x3C];
  [0x7E; 0x5A; 0x18; 0x18; 0x18; 0x18; 0x18; 0x18; 0x18; 0x18; 0x18; 0x18; 0x18; 0x18; 0x18; 0x3C];
  [0x66; 0x66; 0x66; 0x66; 0x66; 0x66; 0x66; 0x66; 0x66; 0x66; 0x66; 0x66; 0x66; 0x66; 0x66; 0x3C];
  [0x66; 0x66; 0x66; 0x66; 0x66; 0x66; 0x66; 0x66; 0x66; 0x66; 0x66; 0x66; 0x3C; 0x3C; 0x18; 0x18];
  [0xC6; 0xC6; 0xC6; 0xC6; 0xC6; 0xC6; 0xC6; 0xC6; 0xC6; 0xC6; 0xD6; 0xFE; 0xFE; 0xEE; 0xC6; 0xC6];
  [0x66; 0x66; 0x66; 0x66; 0x3C; 0x3C; 0x18; 0x18; 0x18; 0x18; 0x3C; 0x3C; 0x66; 0x66; 0x66; 0x66];
  [0x66; 0x66; 0x66; 0x66; 0x66; 0x66; 0x3C; 0x3C; 0x18; 0x18; 0x18; 0x18; 0x18; 0x18; 0x18; 0x3C];
  [0x7E; 0x66; 0x46; 0x0C; 0x0C; 0x18; 0x18; 0x30; 0x30; 0x60; 0x60; 0x62; 0x66; 0x66; 0x66; 0x7E]].

Definition ALPHA_LOWER : list (list Z) := [
  [0x00; 0x00; 0x00; 0x3C; 0x66; 0x06; 0x3E; 0x66; 0x66; 0x66; 0x66; 0x7E; 0x00; 0x00; 0x00; 0x00];
  [0x60; 0x60; 0x60; 0x7C; 0x66; 0x66; 0x66; 0x66; 0x66; 0x66; 0x66; 0x7C; 0x00; 0x00; 0x00; 0x00];
  [0x00; 0x00; 0x00; 0x3C; 0x66; 0x60; 0x60; 0x60; 0x60; 0x60; 0x66; 0x3C; 0x00; 0x00; 0x00; 0x00];
  [0x06; 0x06; 0x06; 0x3E; 0x66; 0x66; 0x66; 0x66; 0x66; 0x66; 0x66; 0x3E; 0x00; 0x00; 0x00; 0x00];
  [0x00; 0x00; 0x00; 0x3C; 0x66; 0x66; 0x7E; 0x60; 0x60; 0x60; 0x66; 0x3C; 0x00; 0x00; 0x00; 0x00];
  [0x1C; 0x36; 0x30; 0xFC; 0x30; 0x30; 0x30; 0x30; 0x30; 0x30; 0x30; 0xFC; 0x00; 0x00; 0x00; 0x00];
  [0x00; 0x00; 0x00; 0x3E; 0x66; 0x66; 0x66; 0x66; 0x66; 0x3E; 0x06; 0x7C; 0x66; 0x66; 0x66; 0x3C];
  [0x60; 0x60; 0x60; 0x7C; 0x66; 0x66; 0x66; 0x66; 0x66; 0x66; 0x66; 0x66; 0x00; 0x00; 0x00; 0x00];
  [0x18; 0x18; 0x00; 0x78; 0x18; 0x18; 0x18; 0x18; 0x18; 0x18; 0x18; 0x7E; 0x00; 0x00; 0x00; 0x00];
  [0x0C; 0x0C; 0x00; 0x3C; 0x0C; 0x0C; 0x0C; 0x0C; 0x0C; 0x0C; 0x0C; 0x6C; 0x6C; 0x6C; 0x6C; 0x38];
  [0x60; 0x60; 0x60; 0x66; 0x6C; 0x78; 0x70; 0x78; 0x6C; 0x66; 0x66; 0x66; 0x00; 0x00; 0x00; 0x00];
  [0x78; 0x18; 0x18; 0x18; 0x18; 0x18; 0x18; 0x18; 0x18; 0x18; 0x18; 0x7E; 0x00; 0x00; 0x00; 0x00];
  [0x00; 0x00; 0x00; 0xFC; 0xD6; 0xD6; 0xC6; 0xC6; 0xC6; 0xC6; 0xC6; 0xC6; 0x00; 0x00; 0x00; 0x00];
  [0x00; 0x00; 0x00; 0x7C; 0x66; 0x66; 0x66; 0x66; 0x66; 0x66; 0x66; 0x66; 0x00; 0x00; 0x00; 0x00];
  [0x00; 0x00; 0x00; 0x3C; 0x66; 0x66; 0x66; 0x66; 0x66; 0x66; 0x66; 0x3C; 0x00; 0x00; 0x00; 0x00];
  [0x00; 0x00; 0x00; 0x7C; 0x66; 0x66; 0x66; 0x66; 0x66; 0x7C; 0x60; 0xF0; 0x00; 0x00; 0x00; 0x00];
  [0x00; 0x00; 0x00; 0x3E; 0x66; 0x66; 0x66; 0x66; 0x66; 0x3E; 0x06; 0x0F; 0x00; 0x00; 0x00; 0x00];
  [0x00; 0x00; 0x00; 0x7C; 0x66; 0x66; 0x60; 0x60; 0x60; 0x60; 0x60; 0xF0; 0x00; 0x00; 0x00; 0x00];
  [0x00; 0x00; 0x00; 0x3C; 0x66; 0x60; 0x38; 0x0C; 0x06; 0x66; 0x66; 0x3C; 0x00; 0x00; 0x00; 0x00];
  [0x30; 0x30; 0x30; 0xFC; 0x30; 0x30; 0x30; 0x30; 0x30; 0x30; 0x36; 0x1C; 0x00; 0x00; 0x00; 0x00];
  [0x00; 0x00; 0x00; 0x66; 0x66; 0x66; 0x66; 0x66; 0x66; 0x66; 0x66; 0x3E; 0x00; 0x00; 0x00; 0x00];
  [0x00; 0x00; 0x00; 0x66; 0x66; 0x66; 0x66; 0x66; 0x66; 0x66; 0x3C; 0x18; 0x00; 0x00; 0x00; 0x00];
  [0x00; 0x00; 0x00; 0xC6; 0xC6; 0xC6; 0xC6; 0xC6; 0xC6; 0xD6; 0xFE; 0x6C; 0x00; 0x00; 0x00; 0x00];
  [0x00; 0x00; 0x00; 0x66; 0x66; 0x3C; 0x18; 0x18; 0x3C; 0x66; 0x66; 0x66; 0x00; 0x00; 0x00; 0x00];
  [0x00; 0x00; 0x00; 0x66; 0x66; 0x66; 0x66; 0x66; 0x66; 0x3E; 0x06; 0x7C; 0x66; 0x66; 0x66; 0x3C];
  [0x00; 0x00; 0x00; 0x7E; 0x46; 0x0C; 0x18; 0x18; 0x30; 0x62; 0x66; 0x7E; 0x00; 0x00; 0x00; 0x00]].

(** ** generate.rs *)

Definition PSF1_MAGIC : Z := 0x0436.
Definition GLYPHS : Z := 256.
Definition GLYPH_H : Z := 16.

Definition glyph_bitmap (c : Z) : result (list Z) :=
  if (65 <=? c) && (c <=? 90) then idx ALPHA_UPPER (c - 65)
  else if (97 <=? c) && (c <=? 122) then idx ALPHA_LOWER (c - 97)
  else if (48 <=? c) && (c <=? 57) then idx DIGITS (c - 48)
  else mret GLYPH_DEFAULT.

Definition unicode_table : list Z :=
  concat ((λ cp, le_bytes 2 (cp mod 65536) ++ le_bytes 2 0xFFFF) <$> seqZ 0 GLYPHS).

(** [for c in 0..n { buf.extend_from_slice(glyph_bitmap(c)); }] *)
Definition glyphs_below (n : Z) : result (list Z) :=
  gs ← (fix go l := match l with
        | [] => mret []
        | c :: l => g ← glyph_bitmap c; gs ← go l; mret (g :: gs)
        end) (seqZ 0 n);
  mret (concat (gs : list (list Z))).

Definition psf1 : result (list Z) :=
  let charsize := w32 GLYPH_H in
  let mode := 0x02 in
  gs ← glyphs_below (w8 GLYPHS);
  mret (le_bytes 2 PSF1_MAGIC ++ [mode] ++ [w8 charsize] ++ gs ++ unicode_table).
