(* ===== verification/FontProps.v ===== *)
(** * Font files

    [psf1_file] is what a PSF1 file with a table of code points is: the pictures of 256
    glyphs and, for each, the code points that it shows. The module shows that the kernel
    reads such a file back, and what becomes of the file that psfgen writes. *)

From S2P Require Import Prelude Bus Psfgen Font.
From stdpp Require Import base list numbers gmap.
From Stdlib Require Import ZArith Lia.

Open Scope Z_scope.

(** ** The format *)

Definition entry (cps : list Z) : list Z := concat (le_bytes 2 <$> cps) ++ [0xFF; 0xFF].
Definition table (cps : list (list Z)) : list Z := concat (entry <$> cps).
Definition psf1_file (charsize : Z) (gs cps : list (list Z)) : list Z :=
  [0x36; 0x04; 0x02; charsize] ++ concat gs ++ table cps.

(** A code point of a table: not one of the two marks *)
Definition plain (cp : Z) : Prop := 0 ≤ cp < 0xFFFE.

(** The first glyph, from [g] on, that shows [cp] *)
Fixpoint glyph_of (cps : list (list Z)) (g cp : Z) : option Z :=
  match cps with
  | [] => None
  | l :: cps => if bool_decide (cp ∈ l) then Some g else glyph_of cps (g + 1) cp
  end.

(** ** Looking up in the table itself *)

Lemma le_bytes_2 v : le_bytes 2 v = [v mod 256; v / 256 mod 256].
Proof. done. Qed.

Lemma pair_val cp : plain cp → le_val [cp mod 256; cp / 256 mod 256] = cp.
Proof.
  unfold plain, le_val. intros H. Z.to_euclidean_division_equations. lia.
Qed.

Lemma cp_pairs_entry l cp g n rest : Forall plain l → g < n →
  cp_pairs (concat (le_bytes 2 <$> l) ++ rest) cp g n =
  if bool_decide (cp ∈ l) then Some (w8 g) else cp_pairs rest cp g n.
Proof.
  intros Hl Hg. induction Hl as [|c l Hc Hl IH]; [done|].
  rewrite fmap_cons. cbn [concat]. rewrite le_bytes_2. cbn [app cp_pairs].
  rewrite (proj2 (Z.ltb_lt _ _)) by done. rewrite pair_val by done.
  unfold plain in Hc. rewrite (proj2 (Z.eqb_neq c 65535)), (proj2 (Z.eqb_neq c 65534)) by lia.
  rewrite IH. destruct (Z.eqb_spec c cp) as [->|Hne].
  - by rewrite bool_decide_eq_true_2 by (apply elem_of_cons; by left).
  - rewrite (bool_decide_ext (cp ∈ c :: l) (cp ∈ l)); [done|]. rewrite elem_of_cons. split; [by intros [->|?]|by right].
Qed.

Lemma cp_pairs_table cps cp n : Forall (Forall plain) cps → ∀ g,
  g + len cps ≤ n → n ≤ 256 → 0 ≤ g → cp_pairs (table cps) cp g n = glyph_of cps g cp.
Proof.
  induction 1 as [|l cps Hl _ IH]; intros g Hn Hn' Hg; [done|]. rewrite len_cons in Hn. pose proof (len_nonneg cps).
  unfold table. rewrite fmap_cons. cbn [concat glyph_of]. unfold entry at 1. rewrite <- app_assoc.
  rewrite cp_pairs_entry by (try done; lia). case_bool_decide.
  { unfold w8. by rewrite Z.mod_small by lia. }
  cbn [app cp_pairs]. rewrite (proj2 (Z.ltb_lt _ _)) by lia.
  change (le_val [255; 255] =? 65535) with true. cbv iota. apply IH; lia.
Qed.

(** ** The map of code points *)

Definition map_entries (s : Screen) : list UniMapEntry := take (Z.to_nat (g_uni_map_len s)) (g_uni_map s).
Definition map_wf (s : Screen) : Prop := len (g_uni_map s) = UNICODE_MAP_SIZE ∧ 0 ≤ g_uni_map_len s ≤ UNICODE_MAP_SIZE.

(** What the table adds to the map: the code points that are not bytes *)
Definition high (g : Z) (l : list Z) : list UniMapEntry :=
  (λ cp, mkUniMapEntry cp g) <$> filter (λ cp, 256 ≤ cp) l.
Fixpoint highs (g : Z) (cps : list (list Z)) : list UniMapEntry :=
  match cps with [] => [] | l :: cps => high g l ++ highs (g + 1) cps end.

(** [s] and [t] differ in the map only. *)
Definition only_map (s t : Screen) : Prop :=
  g_font t = g_font s ∧ g_fb t = g_fb s ∧ g_writer t = g_writer s ∧ mem t = mem s.

Lemma uni_map_insert_spec s cp g : map_wf s → g_uni_map_len s < UNICODE_MAP_SIZE →
  wp (uni_map_insert cp g) (λ _ t, map_wf t ∧ only_map s t ∧ map_entries t = map_entries s ++ [mkUniMapEntry cp g] ∧
    g_uni_map_len t = g_uni_map_len s + 1) s.
Proof.
  intros (Hl & Hn) Hlt. unfold uni_map_insert. apply wp_bind, wp_gets.
  rewrite (proj2 (Z.ltb_lt _ _)) by done. apply wp_bind, wp_gets.
  rewrite set_idx_ok by lia. apply wp_bind. unfold wp at 1, lift. apply wp_modify. unfold map_entries, map_wf.
  cbn [g_uni_map g_uni_map_len]. split_and!; try done; [by rewrite len_insert|lia..|].
  replace (Z.to_nat (g_uni_map_len s + 1)) with (S (Z.to_nat (g_uni_map_len s))) by lia.
  rewrite (take_S_r _ _ (mkUniMapEntry cp g)) by (rewrite list_lookup_insert_eq; [done|unfold len in *; lia]).
  by rewrite take_insert_ge.
Qed.

Lemma only_map_trans s t u : only_map s t → only_map t u → only_map s u.
Proof. unfold only_map. intros (-> & -> & -> & ->) H. tauto. Qed.

(** The state [t] after entries [es] are added to [s] *)
Definition added (es : list UniMapEntry) (s t : Screen) : Prop :=
  map_wf t ∧ only_map s t ∧ map_entries t = map_entries s ++ es ∧ g_uni_map_len t = g_uni_map_len s + len es.

Lemma added_nil s : map_wf s → added [] s s.
Proof. intros H. unfold added. rewrite app_nil_r. split_and!; [done..|]. change (len []) with 0. lia. Qed.
Lemma added_trans a b s t u : added a s t → added b t u → added (a ++ b) s u.
Proof.
  intros (_ & H1 & H2 & H3) (H4 & H5 & H6 & H7). split_and!; [done|by eapply only_map_trans|..].
  - by rewrite H6, H2, app_assoc.
  - rewrite H7, H3, len_app. lia.
Qed.

Lemma lor_pair lo hi : 0 ≤ lo < 256 → Z.lor (Z.shiftl hi 8) lo = hi * 256 + lo.
Proof. intros H. rewrite Z.shiftl_mul_pow2 by lia. by rewrite lor_mul_pow2 by lia. Qed.

Lemma psf1_pairs_entry l g n rest : Forall plain l → g < n → ∀ s Q,
  map_wf s → g_uni_map_len s + len (high g l) ≤ UNICODE_MAP_SIZE →
  (∀ t, added (high g l) s t → wp (psf1_pairs rest g n) Q t) →
  wp (psf1_pairs (concat (le_bytes 2 <$> l) ++ rest) g n) Q s.
Proof.
  intros Hl Hg. induction Hl as [|c l Hc Hl IH]; intros s Q Hs Hroom HQ; [by apply HQ, added_nil|].
  rewrite fmap_cons. cbn [concat]. rewrite le_bytes_2. cbn [app psf1_pairs].
  rewrite (proj2 (Z.ltb_lt _ _)) by done. rewrite lor_pair by (apply Z.mod_pos_bound; lia).
  replace (c / 256 mod 256 * 256 + c mod 256) with c by (unfold plain in Hc; Z.to_euclidean_division_equations; lia).
  unfold plain in Hc. rewrite (proj2 (Z.eqb_neq c 65535)), (proj2 (Z.eqb_neq c 65534)) by lia.
  unfold high in *. rewrite filter_cons in Hroom, HQ. apply wp_bind. destruct (Z.leb_spec 256 c) as [H256|H256].
  - rewrite decide_True in Hroom, HQ by done. rewrite fmap_cons, len_cons in Hroom. rewrite fmap_cons in HQ.
    pose proof (len_nonneg ((λ cp, mkUniMapEntry cp g) <$> filter (λ cp, 256 ≤ cp) l)).
    eapply wp_mono; [apply uni_map_insert_spec; [done|lia]|]. intros [] t (Ht & Hst & He & Hn).
    apply IH; [done|lia|]. intros u Hu. apply HQ. eapply (added_trans [mkUniMapEntry c g]); [|exact Hu].
    split_and!; done.
  - rewrite decide_False in Hroom, HQ by lia. apply wp_ret. by apply IH.
Qed.

Lemma psf1_pairs_table cps n : Forall (Forall plain) cps → ∀ g s,
  g + len cps ≤ n → map_wf s → g_uni_map_len s + len (highs g cps) ≤ UNICODE_MAP_SIZE →
  wp (psf1_pairs (table cps) g n) (λ _, added (highs g cps) s) s.
Proof.
  induction 1 as [|l cps Hl _ IH]; intros g s Hn Hs Hroom; [by apply added_nil|].
  cbn [highs] in *. rewrite len_app in Hroom. rewrite len_cons in Hn.
  pose proof (len_nonneg cps). pose proof (len_nonneg (highs (g + 1) cps)).
  unfold table. rewrite fmap_cons. cbn [concat]. unfold entry at 1. rewrite <- app_assoc.
  apply psf1_pairs_entry; [done|lia|done|lia|]. intros t Ht. cbn [app psf1_pairs].
  rewrite (proj2 (Z.ltb_lt _ _)) by lia. change (Z.lor (Z.shiftl 255 8) 255 =? 65535) with true. cbv iota.
  pose proof Ht as (Hwf & _ & _ & Hlen). eapply wp_mono; [apply IH; [lia|done|lia]|].
  intros [] u. by apply added_trans.
Qed.

(** The search of [glyph_for_unicode] over the entries *)
Fixpoint first_entry (es : list UniMapEntry) (cp : Z) : option Z :=
  match es with
  | [] => None
  | e :: es => if codepoint e =? cp then Some (glyph_idx e) else first_entry es cp
  end.

Lemma uni_map_find_first map cp : ∀ n i, 0 ≤ i → i + Z.of_nat n ≤ len map →
  uni_map_find n map i cp = Ok (first_entry (take n (drop (Z.to_nat i) map)) cp).
Proof.
  induction n as [|n IH]; intros i Hi Hn; [done|]. cbn [uni_map_find].
  destruct (idx_Some map i) as [e He]; [lia|]. rewrite (idx_ok _ _ _ He), bind_ok by done.
  rewrite (drop_S _ _ _ He). cbn [take first_entry]. destruct (codepoint e =? cp); [done|].
  rewrite IH by lia. do 4 f_equal. lia.
Qed.

Lemma first_entry_high g l rest cp : 256 ≤ cp →
  first_entry (high g l ++ rest) cp = if bool_decide (cp ∈ l) then Some g else first_entry rest cp.
Proof.
  intros Hcp. unfold high. induction l as [|c l IH]; [done|]. rewrite filter_cons.
  destruct (decide (cp = c)) as [<-|Hne].
  - rewrite decide_True by done. cbn. rewrite Z.eqb_refl. by rewrite bool_decide_eq_true_2 by (apply elem_of_cons; by left).
  - rewrite (bool_decide_ext (cp ∈ c :: l) (cp ∈ l)) by (rewrite elem_of_cons; split; [by intros [->|?]|by right]).
    destruct (decide (256 ≤ c)); [|exact IH]. cbn [fmap list_fmap app first_entry codepoint]. by rewrite (proj2 (Z.eqb_neq c cp)) by done.
Qed.

Lemma first_entry_highs cps : ∀ g cp, 256 ≤ cp → first_entry (highs g cps) cp = glyph_of cps g cp.
Proof.
  induction cps as [|l cps IH]; intros g cp Hcp; [done|]. cbn [highs glyph_of].
  rewrite first_entry_high by done. by rewrite IH.
Qed.

(** ** Reading the file *)

(** The file lies at [p]. *)
Definition file_at (s : Screen) (p : Z) (data : list Z) : Prop := bytes (mem s) p (len data) = data.

Definition file_wf (charsize : Z) (gs cps : list (list Z)) : Prop :=
  u8 charsize ∧ len gs = 256 ∧ Forall (λ g, len g = charsize) gs ∧
  len cps = 256 ∧ Forall (Forall plain) cps ∧ len (highs 0 cps) ≤ UNICODE_MAP_SIZE.

Lemma len_concat_const gs n : Forall (λ g : list Z, len g = n) gs → len (concat gs) = len gs * n.
Proof. induction 1 as [|g gs Hg _ IH]; [done|]. cbn [concat]. rewrite len_app, len_cons, IH. lia. Qed.

Lemma rd_concat gs n i g : Forall (λ g : list Z, len g = n) gs → gs !! i = Some g →
  rd (Z.of_nat i * n) n (concat gs) = g.
Proof.
  intros Hgs. revert i. induction Hgs as [|h gs Hh _ IH]; intros i Hi; [done|]. cbn [concat]. pose proof (len_nonneg h).
  destruct i as [|i].
  - injection Hi as ->. rewrite Z.mul_0_l. by apply (rd_middle []).
  - rewrite rd_app_r by lia. rewrite Hh. replace (_ - n) with (Z.of_nat i * n) by lia. by apply IH.
Qed.

Lemma len_table cps : 0 < len cps → 2 ≤ len (table cps).
Proof.
  destruct cps as [|l cps]; [done|]. intros _. unfold table, entry. rewrite fmap_cons. cbn [concat].
  rewrite !len_app. change (len [255; 255]) with 2.
  pose proof (len_nonneg (concat (le_bytes 2 <$> l))).
  pose proof (len_nonneg (concat ((λ c, concat (le_bytes 2 <$> c) ++ [255; 255]) <$> cps))). lia.
Qed.

(** The font that the file is *)
Definition font_of (p charsize : Z) (cps : list (list Z)) : PcfFont :=
  mkPcfFont 8 charsize charsize 256 (p + 4) (p + (4 + 256 * charsize)) (len (table cps)).

Lemma len_file charsize gs cps : file_wf charsize gs cps →
  len (psf1_file charsize gs cps) = 4 + 256 * charsize + len (table cps).
Proof.
  intros (_ & Hn & Hgs & _). unfold psf1_file. rewrite !len_app, (len_concat_const _ charsize), Hn by done.
  change (len [54; 4; 2; charsize]) with 4. lia.
Qed.

(** The magic number is the low half of the first word. *)
Lemma magic_half c : u8 c → (Z.land (le_val [54; 4; 2; c]) 0xFFFF =? 1078) = true.
Proof.
  intros Hc. apply Z.eqb_eq. change 0xFFFF with (Z.ones 16). rewrite Z.land_ones by lia.
  unfold le_val. unfold u8 in Hc. Z.to_euclidean_division_equations. lia.
Qed.

Lemma init_file s p charsize gs cps :
  file_wf charsize gs cps → file_at s p (psf1_file charsize gs cps) → map_wf s → g_uni_map_len s = 0 →
  wp (init p (len (psf1_file charsize gs cps)))
    (λ _, added (highs 0 cps)
       (mkScreen (Some (font_of p charsize cps)) (g_uni_map s) (g_uni_map_len s) (g_fb s) (g_writer s) (mem s))) s.
Proof.
  intros Hf Hat Hmap H0. pose proof (len_file _ _ _ Hf) as Hlen. destruct Hf as (Hcs & Hn & Hgs & Hc & Hpl & Hroom).
  assert (2 ≤ len (table cps)) by (apply len_table; lia). set (data := psf1_file charsize gs cps) in *. unfold u8 in Hcs.
  unfold init. apply wp_bind, wp_gets. cbv beta. unfold file_at in Hat. rewrite Hat.
  rewrite (proj2 (Z.ltb_ge _ _)) by lia. rewrite slice_ok by lia. apply wp_bind. unfold wp at 1, lift.
  change (rd 0 (4 - 0) data) with [54; 4; 2; charsize]. rewrite magic_half, orb_true_r by done.
  unfold init_psf1. rewrite (proj2 (Z.ltb_ge _ _)) by lia. rewrite slice_ok by lia. apply wp_bind. unfold wp at 1, lift.
  change (le_val (rd 0 (2 - 0) data) =? 1078) with true. cbn [negb].
  change (idx data 2) with (Ok 2). change (idx data 3) with (Ok charsize).
  apply wp_bind. unfold wp at 1. apply wp_bind. unfold wp at 1.
  change (negb (Z.land 2 1 =? 0)) with false. change (negb (Z.land 2 2 =? 0)) with true. cbv iota zeta.
  rewrite (proj2 (Z.ltb_ge _ _)) by lia. rewrite (proj2 (Z.ltb_lt _ _)) by lia. cbn [andb].
  replace (len data - (4 + 256 * charsize)) with (len (table cps)) by lia.
  apply wp_bind, wp_modify. unfold parse_psf1_unicode_table.
  rewrite (proj2 (Z.ltb_ge _ _)) by lia. rewrite slice_ok by lia. apply wp_bind. unfold wp at 1, lift.
  replace (len data - (4 + 256 * charsize)) with (len (table cps)) by lia.
  replace (rd _ _ data) with (table cps).
  - apply psf1_pairs_table; try done; [lia|]. cbn [g_uni_map_len]. lia.
  - unfold data, psf1_file. rewrite app_assoc. rewrite rd_app_r.
    + rewrite len_app, (len_concat_const _ charsize), Hn by done. change (len [54; 4; 2; charsize]) with 4.
      rewrite Z.sub_diag. by rewrite rd_all.
    + rewrite len_app, (len_concat_const _ charsize), Hn by done. change (len [54; 4; 2; charsize]) with 4. lia.
Qed.

Lemma bytes_part m p n data a k : bytes m p n = data → 0 ≤ a → 0 ≤ k → a + k ≤ n → bytes m (p + a) k = rd a k data.
Proof.
  intros <- Ha Hk Hn. apply list_eq_same_length with (Z.to_nat k); [| by rewrite length_bytes|].
  - unfold rd. rewrite length_take, length_drop, length_bytes. lia.
  - intros i x y Hi Hx Hy. unfold rd in Hy. rewrite lookup_take_lt, lookup_drop in Hy by lia.
    rewrite lookup_bytes in Hx, Hy by lia. simplify_eq. f_equal. lia.
Qed.

Lemma file_glyph charsize gs cps c g : file_wf charsize gs cps → gs !! c = Some g →
  rd (4 + Z.of_nat c * charsize) charsize (psf1_file charsize gs cps) = g.
Proof.
  intros (Hcs & Hn & Hgs & _) Hg. unfold psf1_file, u8 in *.
  pose proof (lookup_lt_Some _ _ _ Hg) as Hc. unfold len in Hn.
  rewrite rd_app_r by (change (len [54; 4; 2; charsize]) with 4; lia). change (len [54; 4; 2; charsize]) with 4.
  replace (4 + _ - 4) with (Z.of_nat c * charsize) by lia.
  rewrite rd_app_l; [by apply rd_concat|lia..|]. rewrite (len_concat_const _ charsize) by done. unfold len. nia.
Qed.

Lemma file_table charsize gs cps : file_wf charsize gs cps →
  rd (4 + 256 * charsize) (len (table cps)) (psf1_file charsize gs cps) = table cps.
Proof.
  intros (Hcs & Hn & Hgs & _). unfold psf1_file. rewrite app_assoc, rd_app_r;
    rewrite len_app, (len_concat_const _ charsize), Hn by done; change (len [54; 4; 2; charsize]) with 4; [|lia].
  replace (4 + 256 * charsize - _) with 0 by lia. by rewrite rd_all.
Qed.

(** ** Reading a PSF2 file ends *)

Lemma utf8_rest_ok data : ∀ n pos cp, 0 ≤ pos → ∃ cp' j, utf8_rest n data pos cp = Ok (cp', j) ∧ pos < j.
Proof.
  induction n as [|n IH]; intros pos cp Hp; cbn [utf8_rest]; [by eexists _, _; split; [reflexivity|lia]|].
  destruct (Z.leb_spec (len data) (pos + 1)); [by eexists _, _; split; [reflexivity|lia]|].
  destruct (idx_Some data (pos + 1)) as [b Hb]; [lia|]. rewrite (idx_ok _ _ _ Hb), bind_ok by lia.
  destruct (IH (pos + 1) (Z.lor (w32 (Z.shiftl cp 6)) (Z.land b 63))) as (cp' & j & -> & Hj); [lia|].
  eexists _, _. split; [reflexivity|lia].
Qed.

Lemma decode_utf8_ok data pos : 0 ≤ pos < len data → ∃ cp j, decode_utf8 data pos = Ok (cp, j) ∧ pos < j.
Proof.
  intros Hp. unfold decode_utf8. rewrite (proj2 (Z.leb_gt _ _)) by lia.
  destruct (idx_Some data pos) as [b Hb]; [lia|]. rewrite (idx_ok _ _ _ Hb), bind_ok by lia.
  destruct (b <? 128); [by eexists _, _; split; [reflexivity|lia]|].
  destruct (b <? 224), (b <? 240); apply utf8_rest_ok; lia.
Qed.

Lemma psf2_skip_ok table : ∀ fuel i, 0 ≤ i → Z.max 0 (len table - i) < Z.of_nat fuel → ∃ j, psf2_skip fuel table i = Ok j ∧ i ≤ j.
Proof.
  induction fuel as [|fuel IH]; intros i Hi Hf; cbn [psf2_skip].
  - lia.
  - destruct (Z.ltb_spec i (len table)); [|by eexists].
    destruct (idx_Some table i) as [b Hb]; [lia|]. rewrite (idx_ok _ _ _ Hb), bind_ok by lia.
    case_if E; [|by eexists]. destruct (IH (i + 1)) as (j & -> & Hj); [lia..|]. eexists. split; [done|lia].
Qed.

Lemma uni_map_insert_total s cp g : map_wf s → wp (uni_map_insert cp g) (λ _, map_wf) s.
Proof.
  intros Hs. destruct (Z.ltb_spec (g_uni_map_len s) UNICODE_MAP_SIZE).
  - eapply wp_mono; [by apply uni_map_insert_spec|]. by intros [] t (Ht & _).
  - unfold uni_map_insert. apply wp_bind, wp_gets. by rewrite (proj2 (Z.ltb_ge _ _)) by done.
Qed.

Lemma psf2_loop_total table n : ∀ fuel i g s, 0 ≤ i → Z.max 0 (len table - i) < Z.of_nat fuel → map_wf s →
  wp (psf2_loop fuel table i g n) (λ _, map_wf) s.
Proof.
  induction fuel as [|fuel IH]; intros i g s Hi Hf Hs; [lia|]. cbn [psf2_loop].
  destruct (Z.ltb_spec i (len table)); [|done]. destruct (g <? n); [|done]. cbn [andb].
  destruct (idx_Some table i) as [b Hb]; [lia|]. rewrite (idx_ok _ _ _ Hb) by lia.
  apply wp_bind. unfold wp at 1, lift. case_if E; [apply IH; lia || done|]. case_if E'; [apply IH; lia || done|].
  destruct (decode_utf8_ok table i) as (cp & j & -> & Hj); [lia|]. apply wp_bind. unfold wp at 1, lift.
  apply wp_bind. apply (wp_mono _ (λ _, map_wf)); [by case_if E2; [apply uni_map_insert_total|]|]. intros [] t Ht.
  destruct (psf2_skip_ok table (S (length table)) j) as (k & -> & Hk); [lia|unfold len; lia|].
  apply wp_bind. unfold wp at 1, lift. apply wp_bind. apply (wp_mono _ (λ _, map_wf)).
  - destruct (Z.ltb_spec k (len table)); [|done]. destruct (idx_Some table k) as [c Hc]; [lia|].
    rewrite (idx_ok _ _ _ Hc) by lia. apply wp_bind. done.
  - intros z u Hu. destruct z; apply IH; lia || done.
Qed.

Lemma psf1_pairs_total n : ∀ k table g s, (length table ≤ k)%nat → map_wf s → wp (psf1_pairs table g n) (λ _, map_wf) s.
Proof.
  induction k as [|k IH]; intros table g s Hk Hs; (destruct table as [|lo [|hi table]]; [done|done|]; cbn in Hk; try lia).
  cbn [psf1_pairs]. destruct (g <? n); [|done]. case_if E; [apply IH; [lia|done]|]. case_if E'; [apply IH; [lia|done]|].
  apply wp_bind. apply (wp_mono _ (λ _, map_wf)); [by case_if E2; [apply uni_map_insert_total|]|]. intros [] t Ht.
  apply IH; [lia|done].
Qed.

(** An operation that ends: an error leaves the map as it was. *)
Definition ends (m : TM unit) (s : Screen) : Prop :=
  outcome m (λ r t, r ≠ Panic ∧ map_wf t) s.

Lemma ends_wp m s : wp m (λ _, map_wf) s → ends m s.
Proof. intros H. apply outcome_wp. eapply wp_mono; [exact H|]. by intros [] t. Qed.

Lemma psf1_ends p data s : Forall u8 data → map_wf s → ends (init_psf1 p data) s.
Proof.
  intros Hd Hs. unfold init_psf1, ends. destruct (Z.ltb_spec (len data) 4); [done|].
  rewrite slice_ok by lia. apply outcome_step. unfold wp at 1, lift. case_if E; [done|].
  destruct (idx_Some data 2) as [mode Hm]; [lia|]. destruct (idx_Some data 3) as [cs Hcs]; [lia|].
  rewrite (idx_ok _ _ _ Hm), (idx_ok _ _ _ Hcs) by lia. apply outcome_step. unfold wp at 1. apply outcome_step. unfold wp at 1.
  pose proof (Forall_lookup_1 _ _ _ _ Hd Hcs) as Hc. unfold u8 in Hc.
  set (n := if negb (Z.land mode 1 =? 0) then 512 else 256).
  assert (0 ≤ n * cs) by (subst n; case_match; lia).
  destruct (Z.ltb_spec (len data) (4 + n * cs)); [done|].
  case_match. apply outcome_step, wp_modify. apply ends_wp. case_if E2; [|done].
  unfold parse_psf1_unicode_table. destruct (Z.ltb_spec (len data) (4 + n * cs + 2)); [done|].
  rewrite slice_ok by lia. apply wp_bind. unfold wp at 1, lift. by eapply psf1_pairs_total.
Qed.

Lemma psf2_ends p data s : Forall u8 data → map_wf s → ends (init_psf2 p data) s.
Proof.
  intros Hd Hs. unfold init_psf2, ends. destruct (Z.ltb_spec (len data) 32); [done|]. cbv zeta.
  assert (Hu : ∀ a, 0 ≤ a → a + 4 ≤ 32 → slice data a (a + 4) = Ok (rd a 4 data) ∧ 0 ≤ le_val (rd a 4 data)).
  { intros a Ha Ha'. rewrite slice_ok by lia. replace (a + 4 - a) with 4 by lia. split; [done|].
    apply le_val_bound. by apply Forall_rd. }
  repeat match goal with
  | |- context [slice data ?a (?a + 4)] =>
      let H1 := fresh in let H2 := fresh in
      destruct (Hu a) as [H1 H2]; [lia..|]; rewrite H1; apply outcome_step, wp_bind; unfold wp at 1, lift; apply wp_ret
  end.
  set (hdr := le_val (rd 8 4 data)) in *. set (n := le_val (rd 16 4 data)) in *. set (cs := le_val (rd 20 4 data)) in *.
  assert (0 ≤ n * cs) by (apply Z.mul_nonneg_nonneg; lia).
  destruct (Z.ltb_spec (len data) (hdr + n * cs)); [done|].
  case_match. apply outcome_step, wp_modify. apply ends_wp. case_if E2; [|done].
  unfold parse_psf2_unicode_table. destruct (Z.leb_spec (len data) (hdr + n * cs)); [done|].
  rewrite slice_ok by lia. apply wp_bind. unfold wp at 1, lift. apply psf2_loop_total; [lia|unfold len; lia|done].
Qed.

Module FontTheorems.

(** A PSF1 file is read as what it says: for every file of 256 glyphs and their code
    points (which fit the map), [init] returns, the picture that [glyph_bitmap] finds for
    a byte is the glyph of that number, and [glyph_for_cp], and [glyph_for_unicode] from 256 on, find for
    every code point the first glyph that lists it, or none. *)
Theorem psf1_font_read s p charsize gs cps :
  file_wf charsize gs cps → file_at s p (psf1_file charsize gs cps) → 0 ≤ p →
  map_wf s → g_uni_map_len s = 0 →
  wp (init p (len (psf1_file charsize gs cps)))
    (λ _ t,
       (∀ c g, gs !! c = Some g →
          ∃ a, glyph_bitmap (Z.of_nat c) t = (Ok (At a), t) ∧ bytes (mem t) a charsize = g) ∧
       (∀ cp, glyph_for_cp cp t = (Ok (glyph_of cps 0 cp), t)) ∧
       (∀ cp, 256 ≤ cp → glyph_for_unicode cp t = (Ok (glyph_of cps 0 cp), t))) s.
Proof.
  intros Hf Hat Hp Hmap H0. eapply wp_mono; [by apply init_file|].
  intros [] t ((Hml & Hn) & (Hfont & _ & _ & Hmem) & He & Hl). cbn in Hfont, Hmem, Hl.
  assert (He' : map_entries t = highs 0 cps) by (rewrite He; unfold map_entries; cbn [g_uni_map_len]; by rewrite H0).
  pose proof (len_file _ _ _ Hf) as Hlen. pose proof Hf as (Hcs & Hgn & _ & Hcn & Hpl & _). unfold u8 in Hcs.
  assert (2 ≤ len (table cps)) by (apply len_table; lia).
  split_and!.
  - intros c g Hg. pose proof (lookup_lt_Some _ _ _ Hg) as Hc. unfold len in Hgn.
    exists (p + (4 + Z.of_nat c * charsize)). split.
    + unfold glyph_bitmap, font. mred. rewrite Hfont. cbn [font_of f_glyphs f_num_glyphs f_charsize].
      change (w32 (256 - 1)) with 255. rewrite Z.min_l by lia. do 3 f_equal. lia.
    + rewrite Hmem. erewrite bytes_part; [by apply file_glyph|exact Hat|nia|lia|nia].
  - intros cp. unfold glyph_for_cp, font. mred. rewrite Hfont. cbn [font_of f_unicode f_unicode_len f_num_glyphs].
    rewrite (proj2 (Z.eqb_neq _ 0)), (proj2 (Z.eqb_neq (len _) 0)) by lia. cbn [orb].
    rewrite Hmem. erewrite bytes_part; [|exact Hat|lia..]. rewrite file_table by done.
    by rewrite cp_pairs_table by (done || lia).
  - intros cp Hcp. unfold glyph_for_unicode, font. mred. rewrite (proj2 (Z.ltb_ge _ _)) by done.
    rewrite uni_map_find_first by lia. rewrite drop_0.
    replace (take _ (g_uni_map t)) with (map_entries t) by done. rewrite He'.
    by rewrite first_entry_highs.
Qed.

Definition psfgen_file : list Z := match Psfgen.psf1 with Ok d => d | _ => [] end.

(** The file that psfgen writes has no glyphs: [256 as u8] is 0, the loop over the codes
    is empty, and [init] refuses the 1028 bytes with [Io]. *)
Theorem psfgen_font_refused s p data :
  Psfgen.psf1 = Ok data → file_at s p data → len data = 1028 ∧ init p (len data) s = (Err Io, s).
Proof.
  intros Hd Hat. assert (Hp : psfgen_file = data) by (unfold psfgen_file; by rewrite Hd). subst data.
  split; [by vm_compute|]. unfold init, file_at in *. mred. rewrite Hat. by vm_compute.
Qed.

Lemma psfgen_font_refused_witness :
  let s := mkScreen None [] 0 G_FB0 FbWriter_new (write_bytes ∅ 0x80400000 psfgen_file) in
  len psfgen_file = 1028 ∧ init 0x80400000 (len psfgen_file) s = (Err Io, s).
Proof.
  apply (psfgen_font_refused (mkScreen None [] 0 G_FB0 FbWriter_new (write_bytes ∅ 0x80400000 psfgen_file)) 0x80400000).
  - vm_compute. reflexivity.
  - apply bytes_write_same.
Defined.

(** The file with the glyphs of all 256 codes *)
Lemma psf1_font_read_witness :
  let gs := (λ c, match Psfgen.glyph_bitmap c with Ok g => g | _ => [] end) <$> seqZ 0 256 in
  let cps := (λ c, [c]) <$> seqZ 0 256 in
  let data := psf1_file 16 gs cps in
  let s := mkScreen None (replicate 512 (mkUniMapEntry 0 0)) 0 G_FB0 FbWriter_new (write_bytes ∅ 0x80400000 data) in
  wp (init 0x80400000 (len data))
    (λ _ t,
       (∀ c g, gs !! c = Some g →
          ∃ a, glyph_bitmap (Z.of_nat c) t = (Ok (At a), t) ∧ bytes (mem t) a 16 = g) ∧
       (∀ cp, glyph_for_cp cp t = (Ok (glyph_of cps 0 cp), t)) ∧
       (∀ cp, 256 ≤ cp → glyph_for_unicode cp t = (Ok (glyph_of cps 0 cp), t))) s.
Proof.
  intros gs cps data s. apply (psf1_font_read s 0x80400000 16 gs cps).
  - split; [easy|]. split; [by vm_compute|]. split; [apply (bool_decide_eq_true_1 _); by vm_compute|].
    split; [by vm_compute|]. split; [unfold plain; apply (bool_decide_eq_true_1 _); by vm_compute|by vm_compute].
  - apply bytes_write_same.
  - easy.
  - easy.
  - easy.
Defined.

(** Any bytes can be given to [init]: it ends, for PSF1, PSF2 and anything else, never
    reads out of the file, and keeps the map of code points within its 512 entries. *)
Theorem font_init_total s p n : Forall u8 (bytes (mem s) p n) → map_wf s → ends (init p n) s.
Proof.
  intros Hd Hs. unfold init, ends. apply outcome_step, wp_gets. set (data := bytes (mem s) p n) in *.
  destruct (Z.ltb_spec (len data) 4); [done|]. rewrite slice_ok by lia. apply outcome_step. unfold wp at 1, lift.
  case_if E; [by apply psf1_ends|]. case_if E2; [by apply psf2_ends|done].
Qed.

Lemma font_init_total_witness :
  let data := [0x72; 0xb5; 0x4a; 0x86; 0; 0; 0; 0; 32; 0; 0; 0; 1; 0; 0; 0; 1; 0; 0; 0; 1; 0; 0; 0; 1; 0; 0; 0; 8; 0; 0; 0; 0x7E; 0xE2; 0x96] in
  let s := mkScreen None (replicate 512 (mkUniMapEntry 0 0)) 0 G_FB0 FbWriter_new (write_bytes ∅ 0x80400000 data) in
  ends (init 0x80400000 35) s.
Proof.
  intros data s. apply (font_init_total s 0x80400000 35).
  - apply (bool_decide_eq_true_1 _). vm_compute. reflexivity.
  - easy.
Defined.
End FontTheorems.
