(* ===== verification/Stubs.v ===== *)
(** * init/src/syscalls.rs: the system calls as programs make them

    A wrapper puts its arguments and the number of the call in registers and executes
    [ecall]: the trap enters the kernel with these registers in its frame. What the
    wrapper returns is [a0] of the frame that the trap leaves ([answer]). A pointer is
    its address, a signed argument is in two's complement. [exit] waits for interrupts
    should the call return. *)

From S2P Require Import Prelude Process Sched Ipc Machine Lifecycle Syscall Trap.
From stdpp Require Import base list numbers gmap.
From Stdlib Require Import ZArith Lia.

Open Scope Z_scope.

(** The registers that the operands name; the others keep their values. *)
Definition call_regs (nr : Z) (args : list Z) (x : TrapFrame) : TrapFrame :=
  let arg i old := default old (args !! i) in
  mkTrapFrame
    (tf_ra x) (tf_sp x) (tf_gp x) (tf_tp x) (tf_t0 x) (tf_t1 x) (tf_t2 x) (tf_s0 x) (tf_s1 x)
    (arg 0%nat (tf_a0 x)) (arg 1%nat (tf_a1 x)) (arg 2%nat (tf_a2 x))
    (arg 3%nat (tf_a3 x)) (arg 4%nat (tf_a4 x)) (arg 5%nat (tf_a5 x)) (tf_a6 x) nr
    (tf_s2 x) (tf_s3 x) (tf_s4 x) (tf_s5 x) (tf_s6 x) (tf_s7 x) (tf_s8 x) (tf_s9 x)
    (tf_s10 x) (tf_s11 x) (tf_t3 x) (tf_t4 x) (tf_t5 x) (tf_t6 x) (tf_sepc x)
    (tf_sstatus x) (tf_scause x) (tf_stval x) (tf_satp x).

(** [ecall] in user mode *)
Definition ecall (nr : Z) (args : list Z) : MM outcome :=
  modify (λ s, set_m_tf (call_regs nr args (m_tf s)) s);; trap CAUSE_U_ECALL 0.

Definition answer (s : Machine) : Z := to_i64 (tf_a0 (m_tf s)).

Module Calls.

Definition SYS_WRITE : Z := 1.
Definition SYS_READ : Z := 2.
Definition SYS_EXIT : Z := 3.
Definition SYS_YIELD : Z := 4.
Definition SYS_GETPID : Z := 5.
Definition SYS_BRK : Z := 6.
Definition SYS_MMAP : Z := 7.
Definition SYS_OPEN : Z := 8.
Definition SYS_CLOSE : Z := 9.
Definition SYS_LSEEK : Z := 10.
Definition SYS_STAT : Z := 11.
Definition SYS_EXEC : Z := 12.
Definition SYS_SBRK : Z := 13.
Definition SYS_SPAWN : Z := 14.
Definition SYS_WAIT : Z := 15.
Definition SYS_READDIR : Z := 16.
Definition SYS_GETRING : Z := 17.
Definition SYS_DROPRING : Z := 18.
Definition SYS_CHAN_CREATE : Z := 27.
Definition SYS_CHAN_CONNECT : Z := 28.
Definition SYS_CHAN_SEND : Z := 29.
Definition SYS_CHAN_RECV : Z := 30.
Definition SYS_CHAN_CLOSE : Z := 31.
Definition SYS_CHAN_CREATE_NAMED : Z := 32.
Definition SYS_CHAN_OPEN : Z := 33.
Definition SYS_MUNMAP : Z := 34.
Definition SYS_DUP : Z := 35.
Definition SYS_PIPE : Z := 36.
Definition SYS_UNLINK : Z := 37.
Definition SYS_RENAME : Z := 38.
Definition SYS_CHDIR : Z := 39.
Definition SYS_GETCWD : Z := 40.
Definition SYS_TRUNCATE : Z := 41.
Definition SYS_ACCESS : Z := 42.
Definition SYS_GETTIMEOFDAY : Z := 43.
Definition SYS_FCNTL : Z := 44.
Definition SYS_GETUID : Z := 45.
Definition SYS_GETGID : Z := 46.
Definition SYS_UTIMENS : Z := 47.
Definition SYS_UNAME : Z := 48.
Definition SYS_NANOSLEEP : Z := 49.
Definition SYS_WRITE_FD : Z := 24.
Definition SYS_CREATE : Z := 25.
Definition SYS_MKDIR : Z := 26.
Definition SYS_KILL : Z := 22.
Definition SYS_SIGMASK : Z := 23.
Definition SYS_ACCESS2 : Z := 42.
Definition SYS_FCNTL2 : Z := 44.
Definition SYS_UTIMENS2 : Z := 47.
Definition SYS_NANOSLEEP2 : Z := 49.
Definition SYS_SNAPSHOT_CREATE : Z := 19.
Definition SYS_SNAPSHOT_ROLLBACK : Z := 20.
Definition SYS_SNAPSHOT_LIST : Z := 21.
Definition SYS_FSTAT : Z := 50.
Definition SYS_WAITPID : Z := 51.
Definition SYS_GETDENTS64 : Z := 52.
Definition SYS_IOCTL : Z := 53.
Definition SYS_MPROTECT : Z := 54.
Definition SYS_SIGACTION : Z := 55.
Definition SYS_SIGPROCMASK : Z := 56.
Definition SYS_SIGRETURN : Z := 57.
Definition SYS_EXECVE : Z := 58.
Definition SYS_GETPPID : Z := 59.
Definition SYS_SETPGID : Z := 60.
Definition SYS_SETSID : Z := 61.
Definition SYS_GETPGID : Z := 62.
Definition SYS_FORK : Z := 63.
Definition SYS_CLOCK_GETTIME : Z := 64.
Definition SYS_CLOCK_GETRES : Z := 65.
Definition SYS_ISATTY : Z := 66.
Definition SYS_GETENTROPY : Z := 67.
Definition SYS_SETUID : Z := 68.
Definition SYS_SETGID : Z := 69.
Definition SYS_FSYNC : Z := 70.
Definition SYS_TRUNCATE2 : Z := 71.
Definition SYS_FTRUNCATE : Z := 72.
Definition SYS_READLINK : Z := 73.
Definition SYS_SYMLINK : Z := 74.
Definition SYS_CHMOD : Z := 75.
Definition SYS_FCHMOD : Z := 76.
Definition SYS_GETDENTS : Z := 77.

Definition write (fd buf n : Z) : MM outcome := ecall SYS_WRITE [fd; buf; n].
Definition read (fd buf n : Z) : MM outcome := ecall SYS_READ [fd; buf; n].
Definition exit (code : Z) : MM outcome := ecall SYS_EXIT [code].
Definition yield_cpu : MM outcome := ecall SYS_YIELD [].
Definition getpid : MM outcome := ecall SYS_GETPID [].
Definition spawn (path argv ring_hint : Z) : MM outcome := ecall SYS_SPAWN [path; argv; ring_hint].
Definition wait (status_out : Z) : MM outcome := ecall SYS_WAIT [status_out].
Definition readdir (dir name_out n : Z) : MM outcome := ecall SYS_READDIR [dir; name_out; n].
Definition getring : MM outcome := ecall SYS_GETRING [].
Definition dropping (target : Z) : MM outcome := ecall SYS_DROPRING [target].
Definition open (path flags mode : Z) : MM outcome := ecall SYS_OPEN [path; flags; mode].
Definition close (fd : Z) : MM outcome := ecall SYS_CLOSE [fd].
Definition exec (path argv : Z) : MM outcome := ecall SYS_EXEC [path; argv].
Definition create (path mode reserved : Z) : MM outcome := ecall SYS_CREATE [path; mode; reserved].
Definition write_fd (fd buf n : Z) : MM outcome := ecall SYS_WRITE_FD [fd; buf; n].
Definition mkdir (path : Z) : MM outcome := ecall SYS_MKDIR [path].
Definition chan_create : MM outcome := ecall SYS_CHAN_CREATE [].
Definition chan_connect (chan_id : Z) : MM outcome := ecall SYS_CHAN_CONNECT [chan_id].
Definition chan_send (chan_id buf n : Z) : MM outcome := ecall SYS_CHAN_SEND [chan_id; buf; n].
Definition chan_recv (chan_id buf n : Z) : MM outcome := ecall SYS_CHAN_RECV [chan_id; buf; n].
Definition chan_close (chan_id : Z) : MM outcome := ecall SYS_CHAN_CLOSE [chan_id].
Definition chan_create_named (name : Z) : MM outcome := ecall SYS_CHAN_CREATE_NAMED [name].
Definition chan_open (name : Z) : MM outcome := ecall SYS_CHAN_OPEN [name].
Definition brk (addr : Z) : MM outcome := ecall SYS_BRK [addr].
Definition mmap (addr length prot flags fd offset : Z) : MM outcome := ecall SYS_MMAP [addr; length; prot; flags; fd; offset].
Definition munmap (addr length : Z) : MM outcome := ecall SYS_MUNMAP [addr; length].
Definition dup (old_fd : Z) : MM outcome := ecall SYS_DUP [old_fd].
Definition pipe (pipefd : Z) : MM outcome := ecall SYS_PIPE [pipefd].
Definition unlink (path : Z) : MM outcome := ecall SYS_UNLINK [path].
Definition rename (old_path new_path : Z) : MM outcome := ecall SYS_RENAME [old_path; new_path].
Definition chdir (path : Z) : MM outcome := ecall SYS_CHDIR [path].
Definition getcwd (buf n : Z) : MM outcome := ecall SYS_GETCWD [buf; n].
Definition getuid : MM outcome := ecall SYS_GETUID [].
Definition getgid : MM outcome := ecall SYS_GETGID [].
Definition uname (buf : Z) : MM outcome := ecall SYS_UNAME [buf].
Definition gettimeofday (tv : Z) : MM outcome := ecall SYS_GETTIMEOFDAY [tv].
Definition lseek (fd off whence : Z) : MM outcome := ecall SYS_LSEEK [fd; w64 off; whence].
Definition stat (path st_buf : Z) : MM outcome := ecall SYS_STAT [path; st_buf].
Definition sbrk (incr : Z) : MM outcome := ecall SYS_SBRK [w64 incr].
Definition kill (pid sig : Z) : MM outcome := ecall SYS_KILL [pid; sig].
Definition sigmask (how sig : Z) : MM outcome := ecall SYS_SIGMASK [how; sig].
Definition access (path mode : Z) : MM outcome := ecall SYS_ACCESS2 [path; mode].
Definition fcntl (fd cmd arg : Z) : MM outcome := ecall SYS_FCNTL2 [fd; cmd; arg].
Definition utimens (path times : Z) : MM outcome := ecall SYS_UTIMENS2 [path; times].
Definition nanosleep (req rem : Z) : MM outcome := ecall SYS_NANOSLEEP2 [req; rem].
Definition snapshot_create (name : Z) : MM outcome := ecall SYS_SNAPSHOT_CREATE [name].
Definition snapshot_rollback (id : Z) : MM outcome := ecall SYS_SNAPSHOT_ROLLBACK [id].
Definition snapshot_list (buf n : Z) : MM outcome := ecall SYS_SNAPSHOT_LIST [buf; n].
Definition fstat (fd st_buf : Z) : MM outcome := ecall SYS_FSTAT [fd; st_buf].
Definition waitpid (pid status options : Z) : MM outcome := ecall SYS_WAITPID [pid; status; options].
Definition getdents64 (fd buf n : Z) : MM outcome := ecall SYS_GETDENTS64 [fd; buf; n].
Definition ioctl (fd request arg : Z) : MM outcome := ecall SYS_IOCTL [fd; request; arg].
Definition mprotect (addr n prot : Z) : MM outcome := ecall SYS_MPROTECT [addr; n; prot].
Definition sigaction (signum act oldact : Z) : MM outcome := ecall SYS_SIGACTION [signum; act; oldact].
Definition sigprocmask (how set oldset : Z) : MM outcome := ecall SYS_SIGPROCMASK [how; set; oldset].
Definition sigreturn : MM outcome := ecall SYS_SIGRETURN [].
Definition execve (path argv envp : Z) : MM outcome := ecall SYS_EXECVE [path; argv; envp].
Definition getppid : MM outcome := ecall SYS_GETPPID [].
Definition setpgid (pid pgid : Z) : MM outcome := ecall SYS_SETPGID [pid; pgid].
Definition setsid : MM outcome := ecall SYS_SETSID [].
Definition getpgid (pid : Z) : MM outcome := ecall SYS_GETPGID [pid].
Definition fork : MM outcome := ecall SYS_FORK [].
Definition clock_gettime (clk_id ts : Z) : MM outcome := ecall SYS_CLOCK_GETTIME [clk_id; ts].
Definition clock_getres (clk_id res : Z) : MM outcome := ecall SYS_CLOCK_GETRES [clk_id; res].
Definition isatty (fd : Z) : MM outcome := ecall SYS_ISATTY [fd].
Definition getentropy (buf n : Z) : MM outcome := ecall SYS_GETENTROPY [buf; n].
Definition setuid (uid : Z) : MM outcome := ecall SYS_SETUID [uid].
Definition setgid (gid : Z) : MM outcome := ecall SYS_SETGID [gid].
Definition fsync (fd : Z) : MM outcome := ecall SYS_FSYNC [fd].
Definition truncate2 (path length : Z) : MM outcome := ecall SYS_TRUNCATE2 [path; length].
Definition ftruncate (fd length : Z) : MM outcome := ecall SYS_FTRUNCATE [fd; length].
Definition readlink (path buf bufsiz : Z) : MM outcome := ecall SYS_READLINK [path; buf; bufsiz].
Definition symlink (target linkpath : Z) : MM outcome := ecall SYS_SYMLINK [target; linkpath].
Definition chmod (path mode : Z) : MM outcome := ecall SYS_CHMOD [path; mode].
Definition fchmod (fd mode : Z) : MM outcome := ecall SYS_FCHMOD [fd; mode].

End Calls.
