(* ===== verification/StubProps.v ===== *)
(** * The wrappers of the system calls reach their handlers

    [serve c] is what the call [c] asks of the kernel, on the caller's own arguments;
    the module shows that the wrapper, the registers, the access list and the dispatcher
    together do that. *)

From S2P Require Import Prelude Process Sched Ipc Machine Lifecycle Syscall Trap TrapThms Stubs.
From stdpp Require Import base list numbers gmap.
From Stdlib Require Import ZArith Lia.

Open Scope Z_scope.

Inductive Call :=
  | C_write (fd buf n : Z)
  | C_read (fd buf n : Z)
  | C_exit (code : Z)
  | C_yield_cpu
  | C_getpid
  | C_spawn (path argv ring_hint : Z)
  | C_wait (status_out : Z)
  | C_readdir (dir name_out n : Z)
  | C_getring
  | C_dropping (target : Z)
  | C_open (path flags mode : Z)
  | C_close (fd : Z)
  | C_exec (path argv : Z)
  | C_create (path mode reserved : Z)
  | C_write_fd (fd buf n : Z)
  | C_mkdir (path : Z)
  | C_chan_create
  | C_chan_connect (chan_id : Z)
  | C_chan_send (chan_id buf n : Z)
  | C_chan_recv (chan_id buf n : Z)
  | C_chan_close (chan_id : Z)
  | C_chan_create_named (name : Z)
  | C_chan_open (name : Z)
  | C_brk (addr : Z)
  | C_mmap (addr length prot flags fd offset : Z)
  | C_munmap (addr length : Z)
  | C_dup (old_fd : Z)
  | C_pipe (pipefd : Z)
  | C_unlink (path : Z)
  | C_rename (old_path new_path : Z)
  | C_chdir (path : Z)
  | C_getcwd (buf n : Z)
  | C_getuid
  | C_getgid
  | C_uname (buf : Z)
  | C_gettimeofday (tv : Z)
  | C_lseek (fd off whence : Z)
  | C_stat (path st_buf : Z)
  | C_sbrk (incr : Z)
  | C_kill (pid sig : Z)
  | C_sigmask (how sig : Z)
  | C_access (path mode : Z)
  | C_fcntl (fd cmd arg : Z)
  | C_utimens (path times : Z)
  | C_nanosleep (req rem : Z)
  | C_snapshot_create (name : Z)
  | C_snapshot_rollback (id : Z)
  | C_snapshot_list (buf n : Z)
  | C_fstat (fd st_buf : Z)
  | C_waitpid (pid status options : Z)
  | C_getdents64 (fd buf n : Z)
  | C_ioctl (fd request arg : Z)
  | C_mprotect (addr n prot : Z)
  | C_sigaction (signum act oldact : Z)
  | C_sigprocmask (how set oldset : Z)
  | C_sigreturn
  | C_execve (path argv envp : Z)
  | C_getppid
  | C_setpgid (pid pgid : Z)
  | C_setsid
  | C_getpgid (pid : Z)
  | C_fork
  | C_clock_gettime (clk_id ts : Z)
  | C_clock_getres (clk_id res : Z)
  | C_isatty (fd : Z)
  | C_getentropy (buf n : Z)
  | C_setuid (uid : Z)
  | C_setgid (gid : Z)
  | C_fsync (fd : Z)
  | C_truncate2 (path length : Z)
  | C_ftruncate (fd length : Z)
  | C_readlink (path buf bufsiz : Z)
  | C_symlink (target linkpath : Z)
  | C_chmod (path mode : Z)
  | C_fchmod (fd mode : Z).

(** The wrapper, called *)
Definition run_call (c : Call) : MM outcome :=
  match c with
  | C_write fd buf n => Calls.write fd buf n
  | C_read fd buf n => Calls.read fd buf n
  | C_exit code => Calls.exit code
  | C_yield_cpu => Calls.yield_cpu
  | C_getpid => Calls.getpid
  | C_spawn path argv ring_hint => Calls.spawn path argv ring_hint
  | C_wait status_out => Calls.wait status_out
  | C_readdir dir name_out n => Calls.readdir dir name_out n
  | C_getring => Calls.getring
  | C_dropping target => Calls.dropping target
  | C_open path flags mode => Calls.open path flags mode
  | C_close fd => Calls.close fd
  | C_exec path argv => Calls.exec path argv
  | C_create path mode reserved => Calls.create path mode reserved
  | C_write_fd fd buf n => Calls.write_fd fd buf n
  | C_mkdir path => Calls.mkdir path
  | C_chan_create => Calls.chan_create
  | C_chan_connect chan_id => Calls.chan_connect chan_id
  | C_chan_send chan_id buf n => Calls.chan_send chan_id buf n
  | C_chan_recv chan_id buf n => Calls.chan_recv chan_id buf n
  | C_chan_close chan_id => Calls.chan_close chan_id
  | C_chan_create_named name => Calls.chan_create_named name
  | C_chan_open name => Calls.chan_open name
  | C_brk addr => Calls.brk addr
  | C_mmap addr length prot flags fd offset => Calls.mmap addr length prot flags fd offset
  | C_munmap addr length => Calls.munmap addr length
  | C_dup old_fd => Calls.dup old_fd
  | C_pipe pipefd => Calls.pipe pipefd
  | C_unlink path => Calls.unlink path
  | C_rename old_path new_path => Calls.rename old_path new_path
  | C_chdir path => Calls.chdir path
  | C_getcwd buf n => Calls.getcwd buf n
  | C_getuid => Calls.getuid
  | C_getgid => Calls.getgid
  | C_uname buf => Calls.uname buf
  | C_gettimeofday tv => Calls.gettimeofday tv
  | C_lseek fd off whence => Calls.lseek fd off whence
  | C_stat path st_buf => Calls.stat path st_buf
  | C_sbrk incr => Calls.sbrk incr
  | C_kill pid sig => Calls.kill pid sig
  | C_sigmask how sig => Calls.sigmask how sig
  | C_access path mode => Calls.access path mode
  | C_fcntl fd cmd arg => Calls.fcntl fd cmd arg
  | C_utimens path times => Calls.utimens path times
  | C_nanosleep req rem => Calls.nanosleep req rem
  | C_snapshot_create name => Calls.snapshot_create name
  | C_snapshot_rollback id => Calls.snapshot_rollback id
  | C_snapshot_list buf n => Calls.snapshot_list buf n
  | C_fstat fd st_buf => Calls.fstat fd st_buf
  | C_waitpid pid status options => Calls.waitpid pid status options
  | C_getdents64 fd buf n => Calls.getdents64 fd buf n
  | C_ioctl fd request arg => Calls.ioctl fd request arg
  | C_mprotect addr n prot => Calls.mprotect addr n prot
  | C_sigaction signum act oldact => Calls.sigaction signum act oldact
  | C_sigprocmask how set oldset => Calls.sigprocmask how set oldset
  | C_sigreturn => Calls.sigreturn
  | C_execve path argv envp => Calls.execve path argv envp
  | C_getppid => Calls.getppid
  | C_setpgid pid pgid => Calls.setpgid pid pgid
  | C_setsid => Calls.setsid
  | C_getpgid pid => Calls.getpgid pid
  | C_fork => Calls.fork
  | C_clock_gettime clk_id ts => Calls.clock_gettime clk_id ts
  | C_clock_getres clk_id res => Calls.clock_getres clk_id res
  | C_isatty fd => Calls.isatty fd
  | C_getentropy buf n => Calls.getentropy buf n
  | C_setuid uid => Calls.setuid uid
  | C_setgid gid => Calls.setgid gid
  | C_fsync fd => Calls.fsync fd
  | C_truncate2 path length => Calls.truncate2 path length
  | C_ftruncate fd length => Calls.ftruncate fd length
  | C_readlink path buf bufsiz => Calls.readlink path buf bufsiz
  | C_symlink target linkpath => Calls.symlink target linkpath
  | C_chmod path mode => Calls.chmod path mode
  | C_fchmod fd mode => Calls.fchmod fd mode
  end.

Definition i64 (z : Z) : Prop := -9223372036854775808 ≤ z < 9223372036854775808.

(** Arguments of the types that the wrappers declare *)
Definition call_wf (c : Call) : Prop :=
  match c with
  | C_write fd buf n => u64 fd ∧ u64 buf ∧ u64 n
  | C_read fd buf n => u64 fd ∧ u64 buf ∧ u64 n
  | C_exit code => u64 code
  | C_yield_cpu => True
  | C_getpid => True
  | C_spawn path argv ring_hint => u64 path ∧ u64 argv ∧ u8 ring_hint
  | C_wait status_out => u64 status_out
  | C_readdir dir name_out n => u64 dir ∧ u64 name_out ∧ u64 n
  | C_getring => True
  | C_dropping target => u8 target
  | C_open path flags mode => u64 path ∧ u64 flags ∧ u64 mode
  | C_close fd => u64 fd
  | C_exec path argv => u64 path ∧ u64 argv
  | C_create path mode reserved => u64 path ∧ u64 mode ∧ u64 reserved
  | C_write_fd fd buf n => u64 fd ∧ u64 buf ∧ u64 n
  | C_mkdir path => u64 path
  | C_chan_create => True
  | C_chan_connect chan_id => u32 chan_id
  | C_chan_send chan_id buf n => u32 chan_id ∧ u64 buf ∧ u32 n
  | C_chan_recv chan_id buf n => u32 chan_id ∧ u64 buf ∧ u32 n
  | C_chan_close chan_id => u32 chan_id
  | C_chan_create_named name => u64 name
  | C_chan_open name => u64 name
  | C_brk addr => u64 addr
  | C_mmap addr length prot flags fd offset => u64 addr ∧ u64 length ∧ u64 prot ∧ u64 flags ∧ u64 fd ∧ u64 offset
  | C_munmap addr length => u64 addr ∧ u64 length
  | C_dup old_fd => u64 old_fd
  | C_pipe pipefd => u64 pipefd
  | C_unlink path => u64 path
  | C_rename old_path new_path => u64 old_path ∧ u64 new_path
  | C_chdir path => u64 path
  | C_getcwd buf n => u64 buf ∧ u64 n
  | C_getuid => True
  | C_getgid => True
  | C_uname buf => u64 buf
  | C_gettimeofday tv => u64 tv
  | C_lseek fd off whence => u64 fd ∧ i64 off ∧ u32 whence
  | C_stat path st_buf => u64 path ∧ u64 st_buf
  | C_sbrk incr => i64 incr
  | C_kill pid sig => u32 pid ∧ u32 sig
  | C_sigmask how sig => u32 how ∧ u32 sig
  | C_access path mode => u64 path ∧ u64 mode
  | C_fcntl fd cmd arg => u64 fd ∧ u32 cmd ∧ u64 arg
  | C_utimens path times => u64 path ∧ u64 times
  | C_nanosleep req rem => u64 req ∧ u64 rem
  | C_snapshot_create name => u64 name
  | C_snapshot_rollback id => u32 id
  | C_snapshot_list buf n => u64 buf ∧ u64 n
  | C_fstat fd st_buf => u64 fd ∧ u64 st_buf
  | C_waitpid pid status options => u64 pid ∧ u64 status ∧ u32 options
  | C_getdents64 fd buf n => u64 fd ∧ u64 buf ∧ u64 n
  | C_ioctl fd request arg => u64 fd ∧ u64 request ∧ u64 arg
  | C_mprotect addr n prot => u64 addr ∧ u64 n ∧ u64 prot
  | C_sigaction signum act oldact => u32 signum ∧ u64 act ∧ u64 oldact
  | C_sigprocmask how set oldset => u32 how ∧ u64 set ∧ u64 oldset
  | C_sigreturn => True
  | C_execve path argv envp => u64 path ∧ u64 argv ∧ u64 envp
  | C_getppid => True
  | C_setpgid pid pgid => u64 pid ∧ u64 pgid
  | C_setsid => True
  | C_getpgid pid => u64 pid
  | C_fork => True
  | C_clock_gettime clk_id ts => u64 clk_id ∧ u64 ts
  | C_clock_getres clk_id res => u64 clk_id ∧ u64 res
  | C_isatty fd => u64 fd
  | C_getentropy buf n => u64 buf ∧ u64 n
  | C_setuid uid => u64 uid
  | C_setgid gid => u64 gid
  | C_fsync fd => u64 fd
  | C_truncate2 path length => u64 path ∧ u64 length
  | C_ftruncate fd length => u64 fd ∧ u64 length
  | C_readlink path buf bufsiz => u64 path ∧ u64 buf ∧ u64 bufsiz
  | C_symlink target linkpath => u64 target ∧ u64 linkpath
  | C_chmod path mode => u64 path ∧ u64 mode
  | C_fchmod fd mode => u64 fd ∧ u64 mode
  end.

(** What the kernel does for the call, on the arguments of the caller *)
Definition serve (c : Call) : MM (reply Z) :=
  match c with
  | C_write fd buf n => ret (sys_write fd buf n)
  | C_read fd buf n => sys_read fd buf n
  | C_exit code => ret (sys_exit code)
  | C_yield_cpu => ret sys_yield
  | C_getpid => ret sys_getpid
  | C_spawn path argv ring_hint => ret (sys_spawn path argv ring_hint)
  | C_wait status_out => sys_wait status_out
  | C_readdir dir name_out n => ret (sys_readdir dir name_out n)
  | C_getring => ret sys_getring
  | C_dropping target => ret (sys_dropring target)
  | C_open path flags mode => ret (sys_open path flags mode)
  | C_close fd => ret (sys_close fd)
  | C_exec path argv => ret (sys_exec path argv)
  | C_create path mode reserved => ret (sys_create path mode)
  | C_write_fd fd buf n => ret (sys_write_fd fd buf n)
  | C_mkdir path => ret (sys_mkdir path)
  | C_chan_create => ret sys_chan_create
  | C_chan_connect chan_id => ret (sys_chan_connect chan_id)
  | C_chan_send chan_id buf n => sys_chan_send chan_id buf n
  | C_chan_recv chan_id buf n => sys_chan_recv chan_id buf n
  | C_chan_close chan_id => ret (sys_chan_close chan_id)
  | C_chan_create_named name => ret (sys_chan_create_named name)
  | C_chan_open name => ret (sys_chan_open name)
  | C_brk addr => ret (sys_brk addr)
  | C_mmap addr length prot flags fd offset => ret (sys_mmap addr length prot flags)
  | C_munmap addr length => ret (sys_munmap addr length)
  | C_dup old_fd => ret (sys_dup old_fd)
  | C_pipe pipefd => ret (sys_pipe pipefd)
  | C_unlink path => ret (sys_unlink path)
  | C_rename old_path new_path => ret (sys_rename old_path new_path)
  | C_chdir path => ret (sys_chdir path)
  | C_getcwd buf n => ret (sys_getcwd buf n)
  | C_getuid => ret sys_getuid
  | C_getgid => ret sys_getgid
  | C_uname buf => ret (sys_uname buf)
  | C_gettimeofday tv => ret (sys_gettimeofday tv)
  | C_lseek fd off whence => ret (sys_lseek fd off whence)
  | C_stat path st_buf => ret (sys_stat path st_buf)
  | C_sbrk incr => ret (sys_sbrk incr)
  | C_kill pid sig => ret (sys_kill pid sig)
  | C_sigmask how sig => ret (sys_sigmask how sig)
  | C_access path mode => ret (sys_access path)
  | C_fcntl fd cmd arg => ret (sys_fcntl fd cmd arg)
  | C_utimens path times => ret (sys_utimens path times)
  | C_nanosleep req rem => sys_nanosleep req
  | C_snapshot_create name => ret (sys_snapshot_create name)
  | C_snapshot_rollback id => ret (sys_snapshot_rollback id)
  | C_snapshot_list buf n => ret (sys_snapshot_list buf n)
  | C_fstat fd st_buf => ret (sys_fstat fd st_buf)
  | C_waitpid pid status options => sys_waitpid pid status options
  | C_getdents64 fd buf n => ret (sys_getdents64 fd buf n)
  | C_ioctl fd request arg => ret (sys_ioctl fd request arg)
  | C_mprotect addr n prot => ret (sys_mprotect addr n prot)
  | C_sigaction signum act oldact => ret (to_ret0 (sigaction signum act oldact))
  | C_sigprocmask how set oldset => ret (to_ret0 (sigprocmask how set oldset))
  | C_sigreturn => ret (sigreturn;; mret 0)
  | C_execve path argv envp => ret (sys_execve path argv envp)
  | C_getppid => ret sys_getppid
  | C_setpgid pid pgid => ret sys_setpgid
  | C_setsid => ret sys_setsid
  | C_getpgid pid => ret (sys_getpgid pid)
  | C_fork => ret sys_fork
  | C_clock_gettime clk_id ts => ret (sys_clock_gettime clk_id ts)
  | C_clock_getres clk_id res => ret (sys_clock_getres clk_id res)
  | C_isatty fd => ret sys_isatty
  | C_getentropy buf n => ret (sys_getentropy buf n)
  | C_setuid uid => ret (sys_setuid uid)
  | C_setgid gid => ret (sys_setgid gid)
  | C_fsync fd => ret sys_fsync
  | C_truncate2 path length => ret (sys_truncate2 path length)
  | C_ftruncate fd length => ret (sys_ftruncate fd length)
  | C_readlink path buf bufsiz => ret (sys_readlink path)
  | C_symlink target linkpath => ret sys_symlink
  | C_chmod path mode => ret (sys_chmod path)
  | C_fchmod fd mode => ret sys_fchmod
  end.
(** The calls kept from unprivileged processes *)
Definition needs_root (c : Call) : bool :=
  match c with
  | C_spawn _ _ _ | C_wait _ | C_create _ _ _ | C_mkdir _ | C_chan_create | C_chan_create_named _
  | C_pipe _ | C_unlink _ | C_rename _ _ | C_kill _ _ | C_utimens _ _ | C_snapshot_create _
  | C_snapshot_rollback _ | C_snapshot_list _ _ | C_setuid _ | C_setgid _ | C_fsync _
  | C_symlink _ _ | C_chmod _ _ | C_fchmod _ _ => true
  | _ => false
  end.

(** ** The kernel's side *)

(** The registers that a call must leave as they are *)
Definition kept_regs (x : TrapFrame) : list Z :=
  [tf_ra x; tf_sp x; tf_gp x; tf_tp x; tf_t0 x; tf_t1 x; tf_t2 x; tf_s0 x; tf_s1 x; tf_a6 x;
   tf_s2 x; tf_s3 x; tf_s4 x; tf_s5 x; tf_s6 x; tf_s7 x; tf_s8 x; tf_s9 x; tf_s10 x; tf_s11 x;
   tf_t3 x; tf_t4 x; tf_t5 x; tf_t6 x; tf_sepc x; tf_sstatus x; tf_satp x].

(** The call as the kernel serves it: refused to unprivileged processes where it is kept from
    them; its answer goes to [a0], the program goes on after the [ecall]. *)
Definition guarded (c : Call) : MM (reply Z) :=
  ring ← cur_ring;
  if needs_root c && negb (ring <=? PROC_RING_ROOT) then mret (Reply (as_i64 Perm)) else serve c.
Definition served (c : Call) : MM outcome :=
  r ← guarded c;
  match r with
  | Reply v =>
      modify (λ s, set_m_tf (set_tf_sepc (w64 (tf_sepc (m_tf s) + 4)) (set_tf_a0 (w64 v) (m_tf s))) s);;
      trap_exit
  | Away o => mret o
  end.

Lemma w32_of_u32 x : u32 x → w32 x = x.
Proof. apply Z.mod_small. Qed.
Lemma w8_u8 x : u8 x → w8 x = x.
Proof. apply Z.mod_small. Qed.
Lemma to_i64_w64 x : i64 x → to_i64 (w64 x) = x.
Proof.
  unfold i64, to_i64, w64. intros Hx. rewrite Z.mod_mod by done. destruct (Z.leb_spec 0 x).
  - rewrite Z.mod_small by lia. by rewrite (proj2 (Z.ltb_lt _ _)) by lia.
  - rewrite <- (Z.mod_add x 1), Z.mod_small by lia. rewrite (proj2 (Z.ltb_ge _ _)) by lia. lia.
Qed.

Lemma allowed_all nr : bool_decide (nr ∈ ALL_RINGS) = true → ∀ ring, syscall_allowed nr ring = true.
Proof. intros H ring. unfold syscall_allowed. by rewrite H. Qed.
Lemma allowed_root nr : bool_decide (nr ∈ ALL_RINGS) = false → bool_decide (nr ∈ ROOT_ONLY) = true →
  ∀ ring, syscall_allowed nr ring = (ring <=? PROC_RING_ROOT).
Proof. intros H1 H2 ring. unfold syscall_allowed. by rewrite H1, H2. Qed.

Lemma ecall_serves nr args c s :
  (∀ ring, syscall_allowed nr ring = negb (needs_root c && negb (ring <=? PROC_RING_ROOT))) →
  let r := call_regs nr args (m_tf s) in
  dispatch_call nr (tf_a0 r) (tf_a1 r) (tf_a2 r) (tf_a3 r) = serve c →
  ecall nr args s = served c (set_m_tf r s).
Proof.
  intros Ha r Hd. unfold ecall. rewrite modify_bind. fold r. set (s1 := set_m_tf r s).
  unfold trap. change (has CAUSE_U_ECALL SCAUSE_INT) with false.
  change (Z.land CAUSE_U_ECALL (SCAUSE_INT - 1)) with CAUSE_U_ECALL. cbv zeta iota.
  unfold exception. change (CAUSE_U_ECALL =? CAUSE_U_ECALL) with true. cbv iota.
  assert (Hh : handle s1 = guarded c s1).
  { unfold handle, guarded. rewrite gets_bind. unfold mbind, SM_bind. destruct (cur_ring s1) as [[ring|e|] t]; [|done..].
    change (tf_a7 (m_tf s1)) with nr. rewrite Ha, negb_involutive. destruct (_ && _); [done|]. by rewrite <- Hd. }
  unfold served, mbind, SM_bind. rewrite Hh. destruct (guarded c s1) as [[[v|o]|e|] t]; done.
Qed.

(** Down to the branch of the call *)
Ltac to_branch :=
  lazy beta iota zeta delta [dispatch_call Z.eqb Pos.eqb
    Calls.SYS_ACCESS Calls.SYS_ACCESS2 Calls.SYS_BRK Calls.SYS_CHAN_CLOSE Calls.SYS_CHAN_CONNECT
    Calls.SYS_CHAN_CREATE Calls.SYS_CHAN_CREATE_NAMED Calls.SYS_CHAN_OPEN Calls.SYS_CHAN_RECV
    Calls.SYS_CHAN_SEND Calls.SYS_CHDIR Calls.SYS_CHMOD Calls.SYS_CLOCK_GETRES
    Calls.SYS_CLOCK_GETTIME Calls.SYS_CLOSE Calls.SYS_CREATE Calls.SYS_DROPRING Calls.SYS_DUP
    Calls.SYS_EXEC Calls.SYS_EXECVE Calls.SYS_EXIT Calls.SYS_FCHMOD Calls.SYS_FCNTL
    Calls.SYS_FCNTL2 Calls.SYS_FORK Calls.SYS_FSTAT Calls.SYS_FSYNC Calls.SYS_FTRUNCATE
    Calls.SYS_GETCWD Calls.SYS_GETDENTS Calls.SYS_GETDENTS64 Calls.SYS_GETENTROPY
    Calls.SYS_GETGID Calls.SYS_GETPGID Calls.SYS_GETPID Calls.SYS_GETPPID Calls.SYS_GETRING
    Calls.SYS_GETTIMEOFDAY Calls.SYS_GETUID Calls.SYS_IOCTL Calls.SYS_ISATTY Calls.SYS_KILL
    Calls.SYS_LSEEK Calls.SYS_MKDIR Calls.SYS_MMAP Calls.SYS_MPROTECT Calls.SYS_MUNMAP
    Calls.SYS_NANOSLEEP Calls.SYS_NANOSLEEP2 Calls.SYS_OPEN Calls.SYS_PIPE Calls.SYS_READ
    Calls.SYS_READDIR Calls.SYS_READLINK Calls.SYS_RENAME Calls.SYS_SBRK Calls.SYS_SETGID
    Calls.SYS_SETPGID Calls.SYS_SETSID Calls.SYS_SETUID Calls.SYS_SIGACTION Calls.SYS_SIGMASK
    Calls.SYS_SIGPROCMASK Calls.SYS_SIGRETURN Calls.SYS_SNAPSHOT_CREATE Calls.SYS_SNAPSHOT_LIST
    Calls.SYS_SNAPSHOT_ROLLBACK Calls.SYS_SPAWN Calls.SYS_STAT Calls.SYS_SYMLINK
    Calls.SYS_TRUNCATE Calls.SYS_TRUNCATE2 Calls.SYS_UNAME Calls.SYS_UNLINK Calls.SYS_UTIMENS
    Calls.SYS_UTIMENS2 Calls.SYS_WAIT Calls.SYS_WAITPID Calls.SYS_WRITE Calls.SYS_WRITE_FD
    Calls.SYS_YIELD SYS_access SYS_brk SYS_chan_close SYS_chan_connect SYS_chan_create
    SYS_chan_create_named SYS_chan_open SYS_chan_recv SYS_chan_send SYS_chdir SYS_chmod
    SYS_clock_getres SYS_clock_gettime SYS_close SYS_create SYS_dropring SYS_dup SYS_exec
    SYS_execve SYS_exit SYS_fchmod SYS_fcntl SYS_fork SYS_fstat SYS_fsync SYS_ftruncate
    SYS_getcwd SYS_getdents SYS_getdents64 SYS_getentropy SYS_getgid SYS_getpgid SYS_getpid
    SYS_getppid SYS_getring SYS_gettimeofday SYS_getuid SYS_ioctl SYS_isatty SYS_kill SYS_lseek
    SYS_mkdir SYS_mmap SYS_mprotect SYS_munmap SYS_nanosleep SYS_net_close SYS_net_connect
    SYS_net_recv SYS_net_send SYS_open SYS_pipe SYS_read SYS_readdir SYS_readlink SYS_rename
    SYS_sbrk SYS_sched_getaffinity SYS_sched_setaffinity SYS_setgid SYS_setpgid SYS_setsid
    SYS_setuid SYS_sigaction SYS_sigmask SYS_sigprocmask SYS_sigreturn SYS_snapshot_create
    SYS_snapshot_list SYS_snapshot_rollback SYS_spawn SYS_stat SYS_symlink SYS_truncate
    SYS_truncate2 SYS_uname SYS_unlink SYS_utimens SYS_wait SYS_waitpid SYS_write SYS_write_fd
    SYS_yield].

(** Down to the [ecall] of the wrapper *)
Ltac to_ecall :=
  lazy beta iota zeta delta [run_call
    Calls.write Calls.read Calls.exit Calls.yield_cpu Calls.getpid Calls.spawn Calls.wait
    Calls.readdir Calls.getring Calls.dropping Calls.open Calls.close Calls.exec Calls.create
    Calls.write_fd Calls.mkdir Calls.chan_create Calls.chan_connect Calls.chan_send
    Calls.chan_recv Calls.chan_close Calls.chan_create_named Calls.chan_open Calls.brk
    Calls.mmap Calls.munmap Calls.dup Calls.pipe Calls.unlink Calls.rename Calls.chdir
    Calls.getcwd Calls.getuid Calls.getgid Calls.uname Calls.gettimeofday Calls.lseek Calls.stat
    Calls.sbrk Calls.kill Calls.sigmask Calls.access Calls.fcntl Calls.utimens Calls.nanosleep
    Calls.snapshot_create Calls.snapshot_rollback Calls.snapshot_list Calls.fstat Calls.waitpid
    Calls.getdents64 Calls.ioctl Calls.mprotect Calls.sigaction Calls.sigprocmask
    Calls.sigreturn Calls.execve Calls.getppid Calls.setpgid Calls.setsid Calls.getpgid
    Calls.fork Calls.clock_gettime Calls.clock_getres Calls.isatty Calls.getentropy Calls.setuid
    Calls.setgid Calls.fsync Calls.truncate2 Calls.ftruncate Calls.readlink Calls.symlink
    Calls.chmod Calls.fchmod].
Ltac allowed :=
  cbn [needs_root andb negb]; rewrite ?negb_involutive;
  (apply allowed_all || apply allowed_root); vm_compute; reflexivity.
Ltac reaches :=
  to_ecall;
  match goal with |- ∃ _, _ ∧ ecall ?nr ?args ?s = served ?c _ =>
    exists (call_regs nr args (m_tf s)); split; [reflexivity|]; refine (ecall_serves nr args c s _ _)
  end;
  [intros ring; allowed
  |cbv zeta; to_branch; cbn [call_regs tf_a0 tf_a1 tf_a2 tf_a3 lookup list_lookup default from_option id serve];
   rewrite ?w32_of_u32, ?w8_u8, ?to_i64_w64 by tauto; reflexivity].

Module StubTheorems.

(** C26. A wrapper does what it is named for: the numbers and registers that the wrappers of
    the programs use, the access list and the dispatcher of the kernel agree, so that
    each of the 75 calls, with arguments of the declared types, runs its handler on these
    very arguments (calls kept from unprivileged processes answer EPERM to them), the
    answer arrives in [a0] and the program goes on after its [ecall]. *)
Theorem wrapper_reaches_handler c s : call_wf c →
  ∃ tf, kept_regs tf = kept_regs (m_tf s) ∧ run_call c s = served c (set_m_tf tf s).
Proof.
  intros Hc. destruct c; cbn [call_wf] in Hc; reaches.
Qed.

Lemma wrapper_reaches_handler_witness :
  let s := TrapTheorems.user_machine TrapTheorems.proc_a TrapFrame_zero in
  ∃ tf, kept_regs tf = kept_regs (m_tf s) ∧ run_call (C_brk (0x40001000)) s = served (C_brk (0x40001000)) (set_m_tf tf s).
Proof. apply (wrapper_reaches_handler (C_brk (0x40001000))). vm_compute. split; congruence. Defined.
End StubTheorems.
