(* ===== verification/Shell.v ===== *)
(** * init/src/main.rs, osh.rs, hello.rs, argv_test.rs: init, the shell and two test programs

    The class [Sys] lists the calls that the programs make, over an abstract state. A call
    that writes is given the object that the pointer points to and how many bytes of it are
    asked for; a call that reads answers also the bytes it stored. [sys_exec] is given the
    path, the array of arguments, as offsets into the shell's line buffer, and the buffer.
    Loops that run for as long as the system does ([loop] in [_start]) are given the
    number of rounds. A panic of a program parks it for ever. *)

From S2P Require Import Prelude.
From stdpp Require Import base list numbers strings.
From Stdlib Require Import ZArith Lia.

Open Scope Z_scope.

Class Sys (S : Type) := {
  sys_write : Z → list Z → Z → S → Z * S;
  sys_read : Z → Z → S → (Z * list Z) * S;
  sys_open : list Z → Z → Z → S → Z * S;
  sys_close : Z → S → Z * S;
  sys_readdir : list Z → Z → S → (Z * list Z) * S;
  sys_spawn : list Z → Z → S → Z * S;
  sys_wait : S → Z * S;
  sys_yield : S → S;
  sys_getring : S → Z * S;
  sys_exec : list Z → list (option Z) → list Z → S → Z * S }.

(** The bytes that a call stored at the start of a buffer *)
Definition stored {A} (buf bs : list A) : list A := bs ++ drop (length bs) buf.

(** [while n < l.len() && l[n] != c { n += 1 }] from [0], and while [l[n] == c] *)
Fixpoint until (c : Z) (l : list Z) : nat :=
  match l with [] => O | b :: l => if b =? c then O else S (until c l) end.
Fixpoint while_eq (c : Z) (l : list Z) : nat :=
  match l with [] => O | b :: l => if b =? c then S (while_eq c l) else O end.

Section Programs.
Context {St : Type} `{!Sys St}.
Abbreviation PM := (SM St).

Definition invoke {A} (f : St → A * St) : PM A := λ s, let '(a, s) := f s in (Ok a, s).
(** [write(1, p, n)]: [n] bytes of [obj] *)
Definition print (obj : list Z) (n : Z) : PM unit := invoke (sys_write 1 obj n);; mret tt.
Definition say (s : string) : PM unit := print (txt s) (len (txt s)).

(** ** main.rs *)

(** [format_dec]'s loop; the buffer has 12 bytes, the last stays 0. *)
Fixpoint dec_digits (fuel : nat) (buf : list Z) (pos : Z) (val : Z) : result (list Z) :=
  match fuel with
  | O => mret buf
  | S fuel =>
      if (0 <? val) && (0 <? pos) then
        buf ← set_idx buf (pos - 1) (48 + val mod 10);
        dec_digits fuel buf (pos - 1) (val / 10)
      else mret buf
  end.
Definition init_format_dec (n : Z) : result (list Z) :=
  let buf := zeros 12 in
  if n =? 0 then set_idx buf 10 48 else dec_digits 12 buf 11 (w64 n).

(** Is the name one of a service? [Ok None]: too short. *)
Definition is_service (name_buf : list Z) : result (Z * bool) :=
  let name_len := Z.of_nat (until 0 name_buf) in
  if name_len <? 4 then mret (name_len, false) else
  ext ← slice name_buf (name_len - 4) name_len;
  mret (name_len, bool_decide (ext = txt ".bin") || bool_decide (ext = txt ".osh")).

(** [/service/<name>] in a buffer of 96 bytes *)
Definition service_path (name_buf : list Z) (name_len : Z) : result (list Z) :=
  path ← put (zeros 96) 0 8 (txt "/service/");
  name ← slice name_buf 0 name_len;
  put path 9 (9 + name_len) name.

(** A round of the scan: the name buffer after it, [None] at the end; [services] are the pids kept. *)
Definition scan_round (name_buf : list Z) (services : list Z) : PM (option (list Z * list Z)) :=
  r ← invoke (sys_readdir (txt "/service" ++ [0]) 64);
  let name_buf := stored name_buf r.2 in
  if r.1 <=? 0 then mret None else
  '(name_len, yes) ← lift (is_service name_buf);
  if negb yes then mret (Some (name_buf, services)) else
  path ← lift (service_path name_buf name_len);
  pid ← invoke (sys_spawn path 1);
  if 0 <? pid then
    say "[init] + service ";;
    print name_buf name_len;;
    say " pid=";;
    pid_str ← lift (init_format_dec pid);
    print pid_str 12;;
    print [10] 1;;
    mret (Some (name_buf, if len services <? 16 then services ++ [w32 pid] else services))
  else print (txt "[init:ERR] spawn failed" ++ [10]) 24;; mret (Some (name_buf, services)).

Fixpoint scan (fuel : nat) (name_buf services : list Z) : PM (list Z) :=
  match fuel with
  | O => mret services
  | S fuel =>
      o ← scan_round name_buf services;
      match o with
      | Some (name_buf, services) => scan fuel name_buf services
      | None => mret services
      end
  end.

(** A round of the loop that reaps children *)
Definition reap_round : PM unit :=
  r ← invoke sys_wait;
  if 0 <? r then print (txt "[init] child exited" ++ [10]) 20 else invoke (λ s, (tt, sys_yield s)).
Fixpoint reap (fuel : nat) : PM unit :=
  match fuel with O => mret tt | S fuel => reap_round;; reap fuel end.

Definition init_start (rounds : nat) : PM unit :=
  print (txt "[init] OnyxOS init v0.3 (root space)" ++ [10]) 37;;
  scan rounds (zeros 64) [];;
  print (txt "[init] services started" ++ [10]) 24;;
  print (txt "[init] launching /bin/login" ++ [10]) 28;;
  invoke (sys_spawn (txt "/bin/login" ++ [0]) 1);;
  reap rounds.

(** ** osh.rs *)

Definition split_first_word (line : list Z) : list Z * list Z :=
  let i := until 32 line in
  let tail := drop i line in
  (take i line, drop (while_eq 32 tail) tail).

Definition HELP : list Z := txt "Commands:" ++ [10] ++ txt "  help       this help" ++ [10] ++
  txt "  echo <txt> print text" ++ [10] ++ txt "  cat <path> print file" ++ [10] ++
  txt "  ls <path>  list directory" ++ [10] ++ txt "  exec <path> run binary" ++ [10] ++
  txt "  clear      clear screen" ++ [10] ++ txt "  exit       quit" ++ [10] ++
  txt "  whoami     show ring" ++ [10] ++ txt "  pwd        print cwd" ++ [10].
Definition do_help : PM unit := print HELP (len HELP).

Fixpoint cat_loop (fuel : nat) (fd : Z) (rbuf : list Z) : PM unit :=
  match fuel with
  | O => mret tt
  | S fuel =>
      r ← invoke (sys_read fd 512);
      if r.1 <=? 0 then mret tt else
      let rbuf := stored rbuf r.2 in
      print rbuf r.1;; cat_loop fuel fd rbuf
  end.
Definition do_cat (rounds : nat) (path : list Z) : PM unit :=
  if 64 <=? len path then mret tt else
  let buf := stored (zeros 64) path in
  fd ← invoke (sys_open buf 0 0);
  if fd <? 0 then print (txt "cat: open failed" ++ [10]) 17 else
  cat_loop rounds fd (zeros 512);;
  invoke (sys_close fd);; mret tt.

Fixpoint ls_loop (fuel : nat) (dir name : list Z) : PM unit :=
  match fuel with
  | O => mret tt
  | S fuel =>
      r ← invoke (sys_readdir dir 64);
      if r.1 <=? 0 then mret tt else
      let name := stored name r.2 in
      print name (Z.of_nat (until 0 name));; print [10] 1;; ls_loop fuel dir name
  end.
Definition do_ls (rounds : nat) (path : list Z) : PM unit :=
  let dir := if bool_decide (path = []) then stored (zeros 64) (txt "/") else stored (zeros 64) (take 63 path) in
  ls_loop rounds dir (zeros 64).

(** The offsets of the words of [rest], which is at [off] of the line buffer *)
Fixpoint arg_loop (fuel : nat) (rest : list Z) (off : Z) : list Z :=
  match fuel with
  | O => []
  | S fuel =>
      let '(tok, tail) := split_first_word rest in
      if bool_decide (tok = []) then [] else off :: arg_loop fuel tail (off + (len rest - len tail))
  end.

(** [do_exec(cmdline)], [cmdline] at [off] of the buffer [buf] *)
Definition do_exec (buf cmdline : list Z) (off : Z) : PM unit :=
  let path := (split_first_word cmdline).1 in
  if 64 <=? len path then mret tt else
  let path_buf := stored (zeros 64) path in
  let argv := arg_loop 15 cmdline off in
  let argv_ptrs := stored (replicate 17 None) (Some <$> argv) in
  invoke (sys_exec path_buf argv_ptrs buf);;
  print (txt "exec: failed" ++ [10]) 13.

Definition do_whoami : PM unit :=
  ring ← invoke sys_getring;
  let msg := (if ring =? 0 then txt "kernel" else if ring =? 1 then txt "root" else
              if ring =? 2 then txt "user" else txt "unknown") ++ [10] in
  print msg (len msg).

Fixpoint strip_eol (l : list Z) : list Z :=
  match l with b :: l' => if (b =? 10) || (b =? 13) then strip_eol l' else l | [] => [] end.

(** A line typed; [false] when the shell exits. *)
Definition run_line (rounds : nat) (buf line : list Z) : PM bool :=
  let '(cmd, rest) := split_first_word line in
  let named c := bool_decide (cmd = txt c) in
  if named "help"%string then do_help;; mret true
  else if named "echo"%string then print rest (len rest);; print [10] 1;; mret true
  else if named "cat"%string then do_cat rounds rest;; mret true
  else if named "ls"%string then do_ls rounds rest;; mret true
  else if named "exec"%string then do_exec buf rest (len line - len rest);; mret true
  else if named "clear"%string then print [27; 91; 50; 74; 27; 91; 72] 7;; mret true
  else if named "exit"%string then mret false
  else if named "whoami"%string then do_whoami;; mret true
  else if named "pwd"%string then print [47; 10] 2;; mret true
  else print [63; 32] 2;; print line (len line);; print [10] 1;; mret true.

(** A round of the loop: the buffer after it, [None] when the shell exits *)
Definition shell_round (rounds : nat) (buf : list Z) : PM (option (list Z)) :=
  say "osh$ ";;
  r ← invoke (sys_read 0 256);
  if r.1 <=? 0 then mret (Some (stored buf r.2)) else
  let buf := stored buf r.2 in
  line ← lift (slice buf 0 r.1);
  let line := reverse (strip_eol (reverse line)) in
  if bool_decide (line = []) then mret (Some buf) else
  go ← run_line rounds buf line;
  mret (if go : bool then Some buf else None).

Fixpoint shell_loop (fuel rounds : nat) (buf : list Z) : PM unit :=
  match fuel with
  | O => mret tt
  | S fuel =>
      o ← shell_round rounds buf;
      match o with Some buf => shell_loop fuel rounds buf | None => mret tt end
  end.

Definition osh (fuel rounds : nat) : PM unit :=
  print (txt "OnyxShell v0.1 (user space)" ++ [10]) 30;;
  shell_loop fuel rounds (zeros 256).

(** ** hello.rs, argv_test.rs *)

Definition hello : PM unit := print (txt "Hello from Onyx!" ++ [10]) 17.

(** [write_dec]: where the digits start, and the buffer *)
Fixpoint write_dec_loop (fuel : nat) (buf : list Z) (p n : Z) : result (list Z * Z) :=
  match fuel with
  | O => mret (buf, p)
  | S fuel =>
      if (0 <? n) && (0 <? p) then
        buf ← set_idx buf (p - 1) (48 + n mod 10);
        write_dec_loop fuel buf (p - 1) (n / 10)
      else mret (buf, p)
  end.
Definition write_dec (v : Z) : PM unit :=
  if v =? 0 then
    buf ← lift (set_idx (zeros 12) 10 48); print (drop 10 buf) 1
  else
    '(buf, p) ← lift (write_dec_loop 12 (zeros 12) 11 v);
    print (drop (Z.to_nat p) buf) (12 - p).

Definition argv_test (a0 a1 : Z) : PM unit :=
  say "argv_test: a0=";; write_dec a0;; say " a1=";; write_dec a1;; print [10] 1.
End Programs.
