(* ===== verification/ShellProps.v ===== *)
(** * Init and the shell: services, words and arguments *)

From S2P Require Import Prelude Shell.
From stdpp Require Import base list numbers strings.
From Stdlib Require Import ZArith Lia.

Open Scope Z_scope.

(** ** Words *)

(** Where the words of [l] start, [l] being at [off] and [inside] a word or not *)
Fixpoint starts (l : list Z) (off : Z) (inside : bool) : list Z :=
  match l with
  | [] => []
  | b :: l =>
      if b =? 32 then starts l (off + 1) false
      else if inside then starts l (off + 1) true else off :: starts l (off + 1) true
  end.

Lemma until_le c l : (until c l ≤ length l)%nat.
Proof. induction l as [|b l IH]; cbn; [lia|]. destruct (b =? c); lia. Qed.
Lemma while_eq_le c l : (while_eq c l ≤ length l)%nat.
Proof. induction l as [|b l IH]; cbn; [lia|]. destruct (b =? c); lia. Qed.

Lemma starts_word l off : starts l off true = starts (drop (until 32 l) l) (off + Z.of_nat (until 32 l)) true.
Proof.
  revert off. induction l as [|b l IH]; intros off; [done|]. cbn [until]. destruct (b =? 32) eqn:E.
  - cbn [drop]. by rewrite Z.add_0_r.
  - cbn [starts drop]. rewrite E, IH. f_equal. lia.
Qed.
Lemma starts_spaces l off :
  starts l off false = starts (drop (while_eq 32 l) l) (off + Z.of_nat (while_eq 32 l)) false.
Proof.
  revert off. induction l as [|b l IH]; intros off; [done|]. cbn [while_eq]. destruct (b =? 32) eqn:E.
  - cbn [starts drop]. rewrite E, IH. f_equal. lia.
  - cbn [drop]. by rewrite Z.add_0_r.
Qed.
(** What follows a word is a space or the end. *)
Lemma after_word l : drop (until 32 l) l = [] ∨ ∃ t, drop (until 32 l) l = 32 :: t.
Proof.
  induction l as [|b l IH]; [by left|]. cbn [until]. destruct (Z.eqb_spec b 32) as [->|]; [right; by exists l|done].
Qed.
Lemma after_spaces l : ∃ b t, drop (while_eq 32 l) l = b :: t ∧ b ≠ 32 ∨ drop (while_eq 32 l) l = [].
Proof.
  induction l as [|b l IH]; [exists 0, []; by right|]. cbn [while_eq].
  destruct (Z.eqb_spec b 32) as [->|]; [done|]. exists b, l. by left.
Qed.

(** A line that does not start with a space *)
Definition trimmed (l : list Z) : Prop := ∀ t, l ≠ 32 :: t.

Lemma split_first_word_spec b l tok tail off : b ≠ 32 → split_first_word (b :: l) = (tok, tail) →
  tok ≠ [] ∧ trimmed tail ∧ (length tail < length (b :: l))%nat ∧
  starts (b :: l) off false = off :: starts tail (off + (len (b :: l) - len tail)) false.
Proof.
  intros Hb. unfold split_first_word. cbn [until]. rewrite (proj2 (Z.eqb_neq b 32)) by done. cbn [take drop].
  set (r := drop (until 32 l) l). intros [= <- <-].
  pose proof (until_le 32 l). pose proof (while_eq_le 32 r). assert (length r = length l - until 32 l)%nat by (subst r; apply length_drop).
  split; [done|]. split.
  { intros t Ht. destruct (after_spaces r) as (c & u & [[E Hc]|E]); congruence. }
  split; [cbn; rewrite length_drop; lia|].
  cbn [starts]. rewrite (proj2 (Z.eqb_neq b 32)) by done. f_equal. rewrite starts_word. fold r.
  destruct (after_word l) as [E|[t E]]; fold r in E.
  - by rewrite E.
  - transitivity (starts r (off + 1 + Z.of_nat (until 32 l)) false); [by rewrite E|].
    rewrite starts_spaces. f_equal. unfold len. rewrite length_drop. cbn [length]. lia.
Qed.

Lemma arg_loop_spec n : ∀ l off, trimmed l → arg_loop n l off = take n (starts l off false).
Proof.
  induction n as [|n IH]; intros l off Hl; [by rewrite take_0|]. cbn [arg_loop].
  destruct l as [|b l]; [done|]. assert (b ≠ 32) by (intros ->; by apply (Hl l)).
  destruct (split_first_word (b :: l)) as [tok tail] eqn:E.
  destruct (split_first_word_spec b l tok tail off) as (Ht & Htl & _ & ->); [done..|].
  rewrite bool_decide_eq_false_2 by done. cbn [take]. f_equal. by apply IH.
Qed.

Lemma starts_bounds l : ∀ off w o, o ∈ starts l off w → off ≤ o < off + len l.
Proof.
  induction l as [|b l IH]; intros off w o Ho; [by apply elem_of_nil in Ho|]. rewrite len_cons.
  assert (H : ∀ w, o ∈ starts l (off + 1) w → off ≤ o < off + (1 + len l)) by (intros w' H; apply IH in H; lia).
  pose proof (len_nonneg l). cbn [starts] in Ho. destruct (b =? 32); [by eapply H|]. destruct w; [by eapply H|].
  apply elem_of_cons in Ho as [->|Ho]; [lia|by eapply H].
Qed.

(** The string that a pointer to [m] is, for the kernel *)
Definition c_string (m : list Z) : list Z := take (until 0 m) m.

Lemma c_string_app l m : Forall (λ b, b ≠ 0) l → c_string (l ++ m) = l ++ c_string m.
Proof.
  unfold c_string. induction 1 as [|b l Hb _ IH]; [done|]. cbn [app until].
  rewrite (proj2 (Z.eqb_neq b 0)) by done. cbn [take]. by rewrite IH.
Qed.
Lemma c_string_zeros n : c_string (replicate n 0) = [].
Proof. by destruct n. Qed.

Lemma stored_zeros bs n : (length bs ≤ n)%nat → Forall (λ b, b ≠ 0) bs → c_string (stored (replicate n 0) bs) = bs.
Proof. intros Hn Hbs. unfold stored. by rewrite c_string_app, drop_replicate, c_string_zeros, app_nil_r by done. Qed.

(** ** Init *)

Section Init.
Context {St : Type} `{!Sys St}.

(** The scan stops at a service: the path of nine bytes is copied into a slice of eight. *)
Lemma service_path_panics name_buf n : service_path name_buf n = Panic.
Proof. reflexivity. Qed.

Lemma print_eq obj n (s s' : St) v : sys_write 1 obj n s = (v, s') → print obj n s = (Ok tt, s').
Proof. intros H. unfold print, invoke. mred. by rewrite H. Qed.

Lemma scan_stops name_buf services s r bs s' n :
  sys_readdir (txt "/service" ++ [0]) 64 s = ((r, bs), s') → 0 < r →
  is_service (stored name_buf bs) = Ok (n, true) →
  scan_round name_buf services s = (Panic, s').
Proof.
  intros Hr Hpos Hs. unfold scan_round, invoke. mred. rewrite Hr. cbn [fst snd].
  rewrite (proj2 (Z.leb_gt _ _)) by done. rewrite Hs. cbn [negb]. by rewrite service_path_panics.
Qed.
End Init.

Module ShellTheorems.

(** Init never starts a service, nor anything else once there is one: as soon as
    [/service] has an entry that is named like a service, init panics before any program
    is spawned, so that login is not started either. *)
Theorem init_stops_at_service {St} `{!Sys St} rounds (s s1 s2 : St) v r bs n :
  sys_write 1 (txt "[init] OnyxOS init v0.3 (root space)" ++ [10]) 37 s = (v, s1) →
  sys_readdir (txt "/service" ++ [0]) 64 s1 = ((r, bs), s2) → 0 < r →
  is_service (stored (zeros 64) bs) = Ok (n, true) →
  init_start (S rounds) s = (Panic, s2).
Proof.
  intros Hw Hr Hpos Hs. unfold init_start. rewrite (sm_bind_ok _ _ _ _ _ (print_eq _ _ _ _ _ Hw)).
  cbn [scan]. mred. by rewrite (scan_stops _ _ _ _ _ _ _ Hr Hpos Hs).
Qed.

(** A system whose directory has the names of a list; the programs spawned are kept. *)
#[global] Instance listed : Sys (list (list Z) * list (list Z)) := {
  sys_write := λ _ _ n s, (n, s);
  sys_read := λ _ _ s, ((0, []), s);
  sys_open := λ _ _ _ s, (-1, s);
  sys_close := λ _ s, (0, s);
  sys_readdir := λ _ _ s, match s.1 with [] => ((0, []), s) | n :: l => ((1, n ++ [0]), (l, s.2)) end;
  sys_spawn := λ p _ s, (1, (s.1, p :: s.2));
  sys_wait := λ s, (0, s);
  sys_yield := λ s, s;
  sys_getring := λ s, (1, s);
  sys_exec := λ _ _ _ s, (-1, s) }.

Lemma init_stops_at_service_witness : init_start 2 ([txt "net.bin"], []) = (Panic, ([], [])).
Proof.
  apply (init_stops_at_service 1 _ ([txt "net.bin"], []) ([], []) 37 1 (txt "net.bin" ++ [0]) 7); reflexivity.
Defined.

(** The shell's exec: the path is the first word, and the argument pointers are the first
    15 words, each where it starts, then null. But nothing ends a word: the string that
    an argument is goes on to the end of the line and beyond. *)
Theorem exec_passes_words {St} `{!Sys St} (buf l rest : list Z) off :
  trimmed l → Forall (λ b, b ≠ 0) l → (until 32 l < 64)%nat → 0 ≤ off → drop (Z.to_nat off) buf = l ++ rest →
  ∃ path argv,
    do_exec buf l off = (invoke (sys_exec path argv buf);; print (txt "exec: failed" ++ [10]) 13) ∧
    c_string path = take (until 32 l) l ∧
    argv = (Some <$> take 15 (starts l off false)) ++ replicate (17 - length (take 15 (starts l off false))) None ∧
    ∀ o, Some o ∈ argv → ∃ t, c_string (drop (Z.to_nat o) buf) = drop (Z.to_nat (o - off)) l ++ t.
Proof.
  intros Hl H0 Hw Hoff Hbuf.
  exists (stored (zeros 64) (take (until 32 l) l)), (stored (replicate 17 None) (Some <$> arg_loop 15 l off)).
  assert (Hlen : length (take (until 32 l) l) = until 32 l) by (apply length_take_le, until_le).
  rewrite arg_loop_spec by done. split_and!.
  - unfold do_exec, split_first_word. cbn [fst]. rewrite (proj2 (Z.leb_gt 64 _)) by (unfold len; lia).
    by rewrite arg_loop_spec by done.
  - apply stored_zeros; [lia|]. by apply Forall_take.
  - unfold stored. by rewrite drop_replicate, length_fmap.
  - intros o Ho. unfold stored in Ho. apply elem_of_app in Ho as [Ho|Ho].
    + apply list_elem_of_fmap in Ho as (o' & [= <-] & Ho). apply elem_of_take in Ho as (i & Ho & _).
      apply list_elem_of_lookup_2, starts_bounds in Ho. unfold len in Ho.
      exists (c_string rest). replace (Z.to_nat o) with (Z.to_nat off + Z.to_nat (o - off))%nat by lia.
      rewrite <- drop_drop, Hbuf, drop_app_le by lia. apply c_string_app. by apply Forall_drop.
    + rewrite drop_replicate in Ho. by apply elem_of_replicate in Ho as [? _].
Qed.

Lemma exec_passes_words_witness :
  let l := txt "/bin/cp a b" in
  ∃ path argv,
    do_exec (St := list (list Z) * list (list Z)) (stored (zeros 256) (txt "exec /bin/cp a b")) l 5 =
      (invoke (sys_exec path argv (stored (zeros 256) (txt "exec /bin/cp a b")));; print (txt "exec: failed" ++ [10]) 13) ∧
    c_string path = txt "/bin/cp" ∧
    argv = [Some 5; Some 13; Some 15] ++ replicate 14 None ∧
    ∀ o, Some o ∈ argv → ∃ t, c_string (drop (Z.to_nat o) (stored (zeros 256) (txt "exec /bin/cp a b"))) = drop (Z.to_nat (o - 5)) l ++ t.
Proof.
  apply (exec_passes_words (stored (zeros 256) (txt "exec /bin/cp a b")) (txt "/bin/cp a b") (zeros 240) 5).
  - intros t. discriminate.
  - apply (bool_decide_eq_true_1 _). reflexivity.
  - vm_compute. lia.
  - lia.
  - reflexivity.
Defined.
End ShellTheorems.
