(* ===== verification/Console.v ===== *)
(** * kernel/src/drivers/uart.rs, srv/klog.rs, srv/kdump.rs, srv/timer.rs, arch/smp.rs: the console, the clock, the lock

    The driver of the UART over its device registers, the log and the dump over the
    driver. A wait for the transmitter looks [patience] times at most: what is proved of it
    says how many are enough. Control registers, the current process and the counts that
    the dump shows are arguments, as are the addresses that the backtrace follows.
    The timer is over the registers of the CLINT: a 64-bit counter and a comparator per hart,
    each read and written in halves; the scheduler's part of [handle] is in [Trap]. [lock] is a
    step relation of any number of harts over the shared flag, one atomic access a step. *)

From S2P Require Import Prelude Pmm Bus Text.
From stdpp Require Import base list numbers gmap strings.
From Stdlib Require Import ZArith Lia.

Open Scope Z_scope.

(** ** uart.rs *)

Definition R_DATA : Z := 0.
Definition R_IER : Z := 1.
Definition R_IIR_FCR : Z := 2.
Definition R_LCR : Z := 3.
Definition R_MCR : Z := 4.
Definition R_LSR : Z := 5.
Definition LSR_THRE : Z := 0x20.
Definition LSR_DR : Z := 0x01.

Record Uart := mkUart { base : Z; shift : Z }.
Definition Uart_new : Uart := mkUart 0x10000000 0.
(** [MmioBlock::reg_u8]; the shift is of a 32-bit offset. *)
Definition reg (u : Uart) (off : Z) : Z := base u + w32 (Z.shiftl off (shift u)).

Section Console.
Context {D : Type} `{!Device D} (patience : nat).
Abbreviation UM := (DM Uart D).

Definition uart_init (b sh : Z) : UM unit :=
  let r := reg (mkUart b sh) in
  mmio_w 1 (r R_IER) 0x00;;
  mmio_w 1 (r R_LCR) 0x80;;
  mmio_w 1 (r R_DATA) 0x01;;
  mmio_w 1 (r R_IER) 0x00;;
  mmio_w 1 (r R_LCR) 0x03;;
  mmio_w 1 (r R_IIR_FCR) 0xC7;;
  mmio_w 1 (r R_MCR) 0x0B;;
  set_glob (λ _, mkUart b sh).
Definition init_default : UM unit := uart_init 0x10000000 0.

Definition putc (c : Z) : UM unit :=
  u ← glob id;
  wait patience (v ← mmio_r 1 (reg u R_LSR); mret (Z.land v LSR_THRE =? 0));;
  mmio_w 1 (reg u R_DATA) c.

(** A byte with the carriage return that a newline is given *)
Definition put_char (c : Z) : UM unit := (if c =? 10 then putc 13 else mret tt);; putc c.
Definition puts (s : list Z) : UM unit := each s put_char.

Definition getc : UM (option Z) :=
  u ← glob id;
  v ← mmio_r 1 (reg u R_LSR);
  if negb (Z.land v LSR_DR =? 0) then c ← mmio_r 1 (reg u R_DATA); mret (Some c) else mret None.

(** ** klog.rs *)

Inductive Level := LErr | LWrn | LInf | LDbg.
Definition level_num (l : Level) : Z := match l with LErr => 0 | LWrn => 1 | LInf => 2 | LDbg => 3 end.
Definition level_str (l : Level) : list Z :=
  match l with LDbg => txt "DBG" | LInf => txt "INF" | LWrn => txt "WRN" | LErr => txt "ERR" end.
Definition KLOG_LEVEL : Z := 3.

(** [UartWriter] overrides [write_char]: every byte goes out as it is. *)
Definition UartWriter : Write := {| write_char := λ c, [c]; write_char_ascii := λ c _, eq_refl |}.

(** [emit]; strings that are passed as pointers are read from [m]. *)
Definition emit (level : Level) (tag : list Z) (m : mem) (fmt : list Z) (args : list Arg) : UM unit :=
  if KLOG_LEVEL <? level_num level then mret tt else
  put_char 91;;
  puts (level_str level);;
  put_char 93;;
  put_char 32;;
  puts tag;;
  puts (txt ": ");;
  out ← lift (vformat (W := UartWriter) m fmt args);
  puts out;;
  put_char 10.

(** ** kdump.rs; [PanicWriter] keeps the default [write_char]. *)

Definition format (fmt : list Z) (args : list Arg) : UM unit :=
  out ← lift (vformat ∅ fmt args); puts out.

Definition MAX_BT_DEPTH : Z := 64.

(** Frame records lie below the frame pointer: the return address, then the pointer of the caller. *)
Fixpoint backtrace_loop (n : nat) (i fp : Z) : UM unit :=
  match n with
  | O => mret tt
  | S n =>
      if (fp =? 0) || negb (Z.land fp 0xf =? 0) then mret tt else
      ra ← ram_r 8 (w64 (fp - 8));
      old_fp ← ram_r 8 (w64 (fp - 16));
      format (txt "  [%d] ra=%p" ++ [10]) [USize i; U64 ra];;
      if ra =? 0 then mret tt else backtrace_loop n (i + 1) old_fp
  end.
Definition backtrace (fp : Z) : UM unit := backtrace_loop (Z.to_nat MAX_BT_DEPTH) 0 fp.

Record Csrs := mkCsrs { sepc : Z; sstatus : Z; scause : Z; stval : Z; satp : Z; sie : Z }.

Definition kdump (hartid : Z) (c : Csrs) (pid : Z) (current : option (Z * Z)) (count online fp : Z) : UM unit :=
  puts ([10] ++ txt "--- KDUMP ---" ++ [10]);;
  format (txt "hartid=%d" ++ [10]) [U64 hartid];;
  format (txt "sepc=%p sstatus=%p scause=%p stval=%p satp=%p sie=%p" ++ [10])
    [U64 (sepc c); U64 (sstatus c); U64 (scause c); U64 (stval c); U64 (satp c); U64 (sie c)];;
  (if negb (pid =? 0) then format (txt "pid=%d" ++ [10]) [U64 pid] else mret tt);;
  (match current with
   | Some (ring, parent) => format (txt "ring=%d parent=%d" ++ [10]) [Char ring; U64 parent]
   | None => mret tt
   end);;
  format (txt "processes=%d" ++ [10]) [USize count];;
  format (txt "online_harts=%d" ++ [10]) [U64 online];;
  puts (txt "Backtrace:" ++ [10]);;
  backtrace fp;;
  puts (txt "--- END KDUMP ---" ++ [10]).

(** [panic_handler] up to the delay, then the write that ends the machine; [dump] is what
    [proc::dump_all] prints. *)
Definition panic_handler (loc : option (list Z * Z * Z)) (msg : option (list Z)) (dump : list Z)
    (hartid : Z) (c : Csrs) (pid : Z) (current : option (Z * Z)) (count online fp : Z) : UM unit :=
  puts ([10; 10] ++ txt "*** KERNEL PANIC ***" ++ [10]);;
  (match loc with
   | Some (file, line, column) => format (txt "  at %s:%d:%d" ++ [10]) [Str file; U64 line; U64 column]
   | None => mret tt
   end);;
  (match msg with
   | Some msg => puts (txt "  msg: ");; puts msg;; put_char 10
   | None => mret tt
   end);;
  kdump hartid c pid current count online fp;;
  puts ([10] ++ txt "  Active processes:" ++ [10]);;
  puts dump;;
  puts ([10] ++ txt "  Rebooting in 3 seconds..." ++ [10]);;
  mmio_w 4 0x100000 0x5555.
End Console.


(** ** arch/regs.rs *)

Definition CLINT_BASE : Z := 0x02000000.
Definition CLINT_MTIMECMP : Z := CLINT_BASE + 0x4000.
Definition CLINT_MTIME : Z := CLINT_BASE + 0xBFF8.
Definition CLINT_FREQ_QEMU : Z := 10000000.
Definition clint_mtimecmp_hart (hart : Z) : Z := CLINT_BASE + 0x4000 + 8 * hart.

(** ** timer.rs *)

Record Timer := mkTimer {
  g_mtime : Z; g_mtimecmp : Z; g_freq : Z; g_tick_interval : Z; g_upticks : Z; g_jiffies : Z }.
Definition timer_off : Timer := mkTimer 0 0 CLINT_FREQ_QEMU 0 0 0.

Section Clint.
Context {D : Type} `{!Device D}.
Abbreviation KM := (DM Timer D).

(** The loop of [read_mtime] looks [fuel] times at most. *)
Fixpoint mtime_loop (fuel : nat) (at_ : Z) : KM Z :=
  match fuel with
  | O => panic
  | S fuel =>
      hi ← mmio_r 4 (at_ + 4);
      lo ← mmio_r 4 at_;
      hi2 ← mmio_r 4 (at_ + 4);
      if hi =? hi2 then mret (Z.lor (Z.shiftl hi 32) lo) else mtime_loop fuel at_
  end.
Definition read_mtime (fuel : nat) : KM Z := a ← glob g_mtime; mtime_loop fuel a.

(** The three writes to the comparator at [a] *)
Definition write_cmp (a v : Z) : KM unit :=
  mmio_w 4 (a + 4) 0xFFFFFFFF;;
  mmio_w 4 a (lo32 v);;
  mmio_w 4 (a + 4) (hi32 v).
Definition write_mtimecmp (v : Z) : KM unit := a ← glob g_mtimecmp; write_cmp a v.

(** [init] without the interrupt enable bit *)
Definition timer_init (fuel : nat) : KM unit :=
  set_glob (λ g, mkTimer (CLINT_BASE + 0xBFF8) (CLINT_BASE + 0x4000) CLINT_FREQ_QEMU (CLINT_FREQ_QEMU / 100)
    (g_upticks g) (g_jiffies g));;
  now ← read_mtime fuel;
  i ← glob g_tick_interval;
  write_mtimecmp (w64 (now + i)).

Definition init_hart (fuel : nat) (hartid : Z) : KM unit :=
  let cmp_addr := clint_mtimecmp_hart hartid in
  now ← read_mtime fuel;
  i ← glob g_tick_interval;
  write_cmp cmp_addr (w64 (now + i)).

(** [handle] up to the scheduler's tick *)
Definition timer_rearm (fuel : nat) : KM unit :=
  set_glob (λ g, mkTimer (g_mtime g) (g_mtimecmp g) (g_freq g) (g_tick_interval g) (w64 (g_upticks g + 1)) (w64 (g_jiffies g + 1)));;
  now ← read_mtime fuel;
  i ← glob g_tick_interval;
  write_mtimecmp (w64 (now + i)).

Definition uptime_us : KM Z := n ← glob g_upticks; mret (w64 (n * 10000)).
End Clint.

(** ** smp.rs: the spin lock *)

Inductive pc := Idle | Swapping | Spinning | Holding.
Record Lock := mkLock { locked : bool; at_pc : nat → pc }.

Definition goto (h : nat) (p : pc) (l : Lock) : nat → pc := λ k, if decide (k = h) then p else at_pc l k.

(** A step of hart [h]: it calls [lock]; swaps the flag for true, and holds the lock if it was false;
    looks at the flag while it spins; calls [unlock] *)
Inductive step (h : nat) : Lock → Lock → Prop :=
  | step_call l : at_pc l h = Idle → step h l (mkLock (locked l) (goto h Swapping l))
  | step_swap_taken l : at_pc l h = Swapping → locked l = true → step h l (mkLock true (goto h Spinning l))
  | step_swap_free l : at_pc l h = Swapping → locked l = false → step h l (mkLock true (goto h Holding l))
  | step_spin l : at_pc l h = Spinning → locked l = true → step h l l
  | step_retry l : at_pc l h = Spinning → locked l = false → step h l (mkLock false (goto h Swapping l))
  | step_unlock l : at_pc l h = Holding → step h l (mkLock false (goto h Idle l)).

(** [SpinLock::new], no hart at it *)
Definition lock_new : Lock := mkLock false (λ _, Idle).
Inductive reachable : Lock → Prop :=
  | reach_new : reachable lock_new
  | reach_step h l l' : reachable l → step h l l' → reachable l'.
