(* ===== verification/ConsoleProps.v ===== *)
(** * The console, the clock and the lock

    The device is any serial port that behaves as the 16550 is documented to
    ([Serial]): its status register says whether the transmitter is empty, it is
    empty again after at most [busy] looks, and a byte written when it is empty is sent.
    [Clock] is what the CLINT is documented to be: a counter that goes up, read in halves
    while it runs, and a comparator that is written in halves. *)

From S2P Require Import Prelude Pmm Bus Text Console.
From stdpp Require Import base list numbers gmap strings.
From Stdlib Require Import ZArith Lia.

Open Scope Z_scope.

(** What goes over the line for a text *)
Definition crlf (s : list Z) : list Z := concat ((λ c, if c =? 10 then [13; 10] else [c]) <$> s).

Lemma crlf_app s t : crlf (s ++ t) = crlf s ++ crlf t.
Proof. unfold crlf. by rewrite fmap_app, concat_app. Qed.

(** A serial port at [u]: [sent] is what it has sent, [busy] for how many more looks at most its
    transmitter is not empty; [limit] bounds [busy]. *)
Class Serial {D} `{!Device D} (u : Uart) (limit : nat) := {
  sent : D → list Z;
  busy : D → nat;
  busy_limit d : (busy d ≤ limit)%nat;
  look m d : ∃ v d', dev_load 1 (reg u R_LSR) m d = (v, (m, d')) ∧ sent d' = sent d ∧
    (Z.land v LSR_THRE = 0 → (busy d' < busy d)%nat) ∧ (Z.land v LSR_THRE ≠ 0 → busy d' = 0%nat);
  send c m d : busy d = 0%nat → ∃ d', dev_store 1 (reg u R_DATA) c m d = (m, d') ∧ sent d' = sent d ++ [c] }.

Section Line.
Context {D : Type} `{!Device D} (u : Uart) (limit : nat) `{!Serial u limit}.
Implicit Types (m : ram) (d : D) (p : Pmm).

(** The driver has sent [l] and changed nothing else. *)
Definition sends (l : list Z) (s s' : Drv Uart D) : Prop :=
  dv_glob s' = dv_glob s ∧ dv_ram s' = dv_ram s ∧ dv_pmm s' = dv_pmm s ∧
  sent (dv_dev s') = sent (dv_dev s) ++ l.

Lemma sends_nil s : sends [] s s.
Proof. unfold sends. by rewrite app_nil_r. Qed.
Lemma sends_app l l' s t r : sends l s t → sends l' t r → sends (l ++ l') s r.
Proof. intros (H1 & H2 & H3 & H4) (E1 & E2 & E3 & E4). unfold sends. rewrite E4, H4, app_assoc. split_and!; congruence. Qed.

Lemma wait_empty fuel : ∀ m d p, (busy d < fuel)%nat →
  wp (wait fuel (v ← mmio_r 1 (reg u R_LSR); mret (Z.land v LSR_THRE =? 0)))
    (λ _ s, sends [] (mkDrv u m d p) s ∧ busy (dv_dev s) = 0%nat) (mkDrv u m d p).
Proof.
  induction fuel as [|fuel IH]; intros m d p Hf; [lia|]. cbn [wait].
  destruct (look m d) as (v & d' & Hl & Hs & Hb & He). apply wp_bind, wp_bind. unfold wp at 1, mmio_r. cbn. rewrite Hl.
  destruct (Z.eqb_spec (Z.land v LSR_THRE) 0) as [E|E].
  - apply wp_ret. eapply wp_mono; [apply IH; specialize (Hb E); lia|].
    intros [] s ((H1 & H2 & H3 & H4) & H5). split; [|done]. unfold sends. cbn in *. by rewrite H4, Hs.
  - apply wp_ret, wp_ret. split; [|by apply He]. unfold sends. cbn. by rewrite Hs, app_nil_r.
Qed.

Lemma putc_sends patience c s : (limit < patience)%nat → dv_glob s = u →
  wp (putc patience c) (λ _, sends [c] s) s.
Proof.
  intros Hp Hu. destruct s as [g m d p]. cbn in Hu. subst g. unfold putc. apply wp_bind, wp_glob.
  apply wp_bind. eapply wp_mono; [apply wait_empty; pose proof (busy_limit d); cbn; lia|].
  intros [] [g m' d' p'] ((H1 & H2 & H3 & H4) & Hb). cbn in *. subst.
  destruct (send c m d' Hb) as (d'' & Hs & Hl). eapply wp_mmio_w; [exact Hs|].
  unfold sends. cbn. by rewrite Hl, H4, app_nil_r.
Qed.

Lemma wp_sends l l' (a : DM Uart D unit) (b : unit → DM Uart D unit) s :
  wp a (λ _, sends l s) s → (∀ t, sends l s t → wp (b tt) (λ _, sends l' t) t) → wp (a ≫= b) (λ _, sends (l ++ l') s) s.
Proof.
  intros Ha Hb. apply wp_bind. eapply wp_mono; [exact Ha|]. intros [] t Ht. eapply wp_mono; [by apply Hb|].
  intros [] r. by apply sends_app.
Qed.

Lemma put_char_sends patience c s : (limit < patience)%nat → dv_glob s = u →
  wp (put_char patience c) (λ _, sends (crlf [c]) s) s.
Proof.
  intros Hp Hu. unfold put_char, crlf. cbn. destruct (c =? 10) eqn:E.
  - apply Z.eqb_eq in E as ->. apply (wp_sends [13] [10]); [by apply putc_sends|].
    intros t (Hg & _). apply putc_sends; [done|congruence].
  - apply (wp_sends [] [c]); [by apply wp_ret, sends_nil|]. intros t (Hg & _). apply putc_sends; [done|congruence].
Qed.

Lemma puts_sends patience l : (limit < patience)%nat → ∀ s, dv_glob s = u →
  wp (puts patience l) (λ _, sends (crlf l) s) s.
Proof.
  intros Hp. unfold puts. induction l as [|c l IH]; intros s Hu; [by apply wp_ret, sends_nil|]. cbn [each].
  change (crlf (c :: l)) with (crlf ([c] ++ l)). rewrite crlf_app.
  apply wp_sends; [by apply put_char_sends|]. intros t (Hg & _). apply IH. congruence.
Qed.
End Line.

Module ConsoleTheorems.

(** C34. A log line reaches the line whole: over any serial port that empties its transmitter
    within [limit] looks, logging ends, and what is sent is the level, the tag and the
    formatted message, in order, each newline with a carriage return, no byte lost to a
    full transmitter; nothing else changes. *)
Theorem log_line_is_sent {D} `{!Device D} u limit `{!Serial u limit} patience level tag m fmt args out (s : Drv Uart D) :
  (limit < patience)%nat → dv_glob s = u → vformat (W := UartWriter) m fmt args = Ok out →
  wp (emit patience level tag m fmt args)
    (λ _, sends u limit (crlf ([91] ++ level_str level ++ [93; 32] ++ tag ++ txt ": " ++ out ++ [10])) s) s.
Proof.
  intros Hp Hu Hout. unfold emit. replace (KLOG_LEVEL <? level_num level) with false by (by destruct level).
  change [93; 32] with ([93] ++ [32]). rewrite !crlf_app, <- !app_assoc.
  assert (Hg : ∀ l t t', dv_glob t = u → sends u limit l t t' → dv_glob t' = u) by (intros l t t' H (H' & _); congruence).
  repeat match goal with
  | |- wp (put_char _ _ ≫= _) _ _ => eapply wp_sends; [by apply put_char_sends|]
  | |- wp (puts _ _ ≫= _) _ _ => eapply wp_sends; [by apply puts_sends|]
  | |- ∀ t, sends _ _ _ ?s t → _ =>
      let t := fresh "t" in let H := fresh "H" in
      intros t H; assert (dv_glob t = u) by (by eapply Hg); clear H
  end.
  apply wp_bind. unfold wp at 1, lift. rewrite Hout. eapply wp_sends; [by apply puts_sends|].
  intros t' H'. apply put_char_sends; [done|by eapply Hg].
Qed.

(** A port that is busy for one look after every byte *)
#[global] Instance slow_port : Device (list Z * bool) := {
  dev_load := λ n a m d, if d.2 : bool then (0, (m, (d.1, false))) else (0x20, (m, d));
  dev_store := λ n a v m d, (m, if d.2 : bool then d else (d.1 ++ [v], true));
  dev_run := λ m d, (m, d) }.

#[global] Program Instance slow_serial u : Serial (D := list Z * bool) u 1 := {|
  sent := fst; busy := λ d, if d.2 : bool then 1%nat else O |}.
Next Obligation. intros u [l []]; cbn; lia. Qed.
Next Obligation.
  intros u m [l []]; cbn.
  - exists 0, (l, false). cbn. split_and!; [done..|lia|done].
  - exists 0x20, (l, false). cbn. by split_and!.
Qed.
Next Obligation. intros u c m [l []]; [done|]. intros _. by exists (l ++ [c], true). Qed.

Lemma log_line_is_sent_witness :
  let s := mkDrv Uart_new ∅ ([], true) (mkPmm 0 0 0 [] [] ∅) in
  wp (emit 2 LInf (txt "net") ∅ (txt "up %d") [U64 7])
    (λ _, sends Uart_new 1 (crlf ([91] ++ level_str LInf ++ [93; 32] ++ txt "net" ++ txt ": " ++ txt "up 7" ++ [10])) s) s.
Proof.
  apply (log_line_is_sent Uart_new 1 2 LInf (txt "net") ∅ (txt "up %d") [U64 7] (txt "up 7")).
  - lia.
  - reflexivity.
  - reflexivity.
Defined.
End ConsoleTheorems.


(** A counter at [tm] and a comparator at [cmp]: [now] is the counter, [deadlines] the values that the comparator
    has had, the last first. An access takes at most [rate] ticks. The counter does not
    wrap: the documented one does after 2^64 ticks, which at ten million a second takes
    more than fifty thousand years. *)
Class Clock {D} `{!Device D} (tm cmp rate : Z) := {
  now : D → Z;
  deadlines : D → list Z;
  deadline d := default 0 (head (deadlines d));
  now_u64 d : u64 (now d);
  ticks (d d' : D) := now d ≤ now d' ≤ now d + rate;
  read_lo m d : ∃ t d', dev_load 4 tm m d = (lo32 t, (m, d')) ∧ now d ≤ t ≤ now d' ∧ ticks d d' ∧ deadlines d' = deadlines d;
  read_hi m d : ∃ t d', dev_load 4 (tm + 4) m d = (hi32 t, (m, d')) ∧ now d ≤ t ≤ now d' ∧ ticks d d' ∧ deadlines d' = deadlines d;
  write_lo v m d : ∃ d', dev_store 4 cmp v m d = (m, d') ∧ ticks d d' ∧
    deadlines d' = (hi32 (deadline d) * 4294967296 + v) :: deadlines d;
  write_hi v m d : ∃ d', dev_store 4 (cmp + 4) v m d = (m, d') ∧ ticks d d' ∧
    deadlines d' = (v * 4294967296 + lo32 (deadline d)) :: deadlines d }.

Lemma hi32_u64 t : u64 t → hi32 t = t / 4294967296.
Proof.
  unfold u64, hi32, w32. intros H. rewrite Z.shiftr_div_pow2 by lia. change (2 ^ 32) with 4294967296.
  apply Z.mod_small. Z.to_euclidean_division_equations. lia.
Qed.
Lemma halves t : u64 t → Z.lor (Z.shiftl (hi32 t) 32) (lo32 t) = t.
Proof.
  intros H. rewrite hi32_u64 by done. unfold lo32, w32. rewrite Z.shiftl_mul_pow2 by lia.
  rewrite lor_mul_pow2 by (try lia; apply Z.mod_pos_bound; lia). Z.to_euclidean_division_equations. lia.
Qed.

Section Clint.
Context {D : Type} `{!Device D} (tm cmp rate : Z) `{!Clock tm cmp rate}.
Implicit Types (g : Timer) (m : ram) (d : D) (p : Pmm).

(** A round of the loop of [read_mtime]: the counter at three times *)
Lemma mtime_round g m d p fuel : ∃ t1 t2 t3 d',
  mtime_loop (S fuel) tm (mkDrv g m d p) =
    (if hi32 t1 =? hi32 t3 then (Ok (Z.lor (Z.shiftl (hi32 t1) 32) (lo32 t2)), mkDrv g m d' p)
     else mtime_loop fuel tm (mkDrv g m d' p)) ∧
  now d ≤ t1 ≤ t2 ∧ t2 ≤ t3 ≤ now d' ∧ now d' ≤ now d + 3 * rate ∧ deadlines d' = deadlines d.
Proof.
  destruct (read_hi m d) as (t1 & d1 & E1 & H1 & K1 & L1). destruct (read_lo m d1) as (t2 & d2 & E2 & H2 & K2 & L2).
  destruct (read_hi m d2) as (t3 & d3 & E3 & H3 & K3 & L3). unfold ticks in *.
  exists t1, t2, t3, d3. split; [|repeat split; try lia; congruence].
  cbn [mtime_loop]. unfold mmio_r. mred. cbn. rewrite E1. cbn. rewrite E2. cbn. rewrite E3. by destruct (_ =? _).
Qed.

Lemma mtime_reads g m d p fuel : 6 * rate < 4294967296 → (2 ≤ fuel)%nat →
  wp (mtime_loop fuel tm) (λ t s, ∃ d', s = mkDrv g m d' p ∧ now d ≤ t ≤ now d' ∧ now d' ≤ now d + 6 * rate ∧
    deadlines d' = deadlines d) (mkDrv g m d p).
Proof.
  intros Hr Hf. destruct fuel as [|[|fuel]]; [lia..|].
  destruct (mtime_round g m d p (S fuel)) as (t1 & t2 & t3 & d1 & E & H1 & H2 & H3 & L).
  pose proof (now_u64 d) as U0. pose proof (now_u64 d1) as U1. unfold u64 in U0, U1.
  assert (u64 t1 ∧ u64 t2 ∧ u64 t3) as (V1 & V2 & V3) by (unfold u64; lia).
  unfold wp. rewrite E. rewrite (hi32_u64 t1), (hi32_u64 t3) by done.
  destruct (Z.eqb_spec (t1 / 4294967296) (t3 / 4294967296)) as [Eq|Ne].
  { exists d1. split; [done|]. replace (t1 / 4294967296) with (hi32 t2).
    - rewrite halves by done. split; [lia|]. split; [lia|done].
    - rewrite hi32_u64 by done. unfold u64 in *. Z.to_euclidean_division_equations. lia. }
  destruct (mtime_round g m d1 p fuel) as (t4 & t5 & t6 & d2 & E' & H4 & H5 & H6 & L').
  pose proof (now_u64 d2) as U2. unfold u64 in U2.
  assert (u64 t4 ∧ u64 t5 ∧ u64 t6) as (V4 & V5 & V6) by (unfold u64; lia).
  rewrite E'. rewrite (hi32_u64 t4), (hi32_u64 t6) by done. unfold u64 in *.
  assert (t4 / 4294967296 = t6 / 4294967296 ∧ t5 / 4294967296 = t4 / 4294967296) as [E1 E2]
    by (Z.to_euclidean_division_equations; lia).
  rewrite (proj2 (Z.eqb_eq _ _) E1). exists d2. split; [done|].
  rewrite <- E2, <- (hi32_u64 t5), halves by done. split; [lia|]. split; [lia|congruence].
Qed.

(** The comparator's values while [write_cmp] runs are late enough. *)
Lemma write_cmp_late g m d p v : u64 v →
  wp (write_cmp cmp v) (λ _ s, ∃ d' h, s = mkDrv g m d' p ∧ now d ≤ now d' ≤ now d + 3 * rate ∧
    deadlines d' = v :: h ++ deadlines d ∧ Forall (λ w, 0xFFFFFFFF00000000 ≤ w) h) (mkDrv g m d p).
Proof.
  intros Hv. destruct (write_hi 0xFFFFFFFF m d) as (d1 & E1 & K1 & L1).
  destruct (write_lo (lo32 v) m d1) as (d2 & E2 & K2 & L2). destruct (write_hi (hi32 v) m d2) as (d3 & E3 & K3 & L3).
  unfold ticks in *. unfold write_cmp. apply wp_bind. eapply wp_mmio_w; [exact E1|]. apply wp_bind. eapply wp_mmio_w; [exact E2|].
  eapply wp_mmio_w; [exact E3|].
  assert (Hlo : 0 ≤ lo32 (deadline d) < 4294967296) by (apply Z.mod_pos_bound; lia).
  assert (Hlv : 0 ≤ lo32 v < 4294967296) by (apply Z.mod_pos_bound; lia).
  assert (Hd1 : deadline d1 = 0xFFFFFFFF * 4294967296 + lo32 (deadline d)) by (unfold deadline; by rewrite L1).
  assert (Hh1 : hi32 (deadline d1) = 0xFFFFFFFF).
  { rewrite Hd1, hi32_u64 by (unfold u64; lia). Z.to_euclidean_division_equations. lia. }
  assert (Hd2 : deadline d2 = 0xFFFFFFFF * 4294967296 + lo32 v) by (unfold deadline at 1; by rewrite L2, Hh1).
  exists d3, [deadline d2; deadline d1]. split; [done|]. split; [lia|]. split.
  - rewrite L3. f_equal.
    + rewrite Hd2. replace (lo32 (0xFFFFFFFF * 4294967296 + lo32 v)) with (lo32 v).
      * rewrite hi32_u64 by done. unfold lo32, w32, u64 in *. Z.to_euclidean_division_equations. lia.
      * unfold lo32, w32. Z.to_euclidean_division_equations. lia.
    + by rewrite Hd1, Hd2, L2, L1, Hh1.
  - rewrite Hd1, Hd2. repeat constructor; lia.
Qed.
End Clint.

Module TimerTheorems.

(** C39. Every tick arms the next: reading the running clock in halves ends within two rounds
    with a value that the counter had, never one torn between halves, and the comparator
    is then that value and the interval; while it is written in halves it is never
    below either that or the last [2^32] values of the counter's range, so no interrupt comes early. *)
Theorem timer_arms_next {D} `{!Device D} tm cmp rate `{!Clock tm cmp rate} fuel g m (d : D) p :
  g_mtime g = tm → g_mtimecmp g = cmp → 6 * rate < 4294967296 → (2 ≤ fuel)%nat →
  0 ≤ g_tick_interval g → now d + 6 * rate + g_tick_interval g < 18446744073709551616 →
  wp (timer_rearm fuel) (λ _ s, ∃ t h,
    now d ≤ t ≤ now (dv_dev s) ∧ now (dv_dev s) ≤ now d + 9 * rate ∧
    deadlines (dv_dev s) = (t + g_tick_interval g) :: h ++ deadlines d ∧ Forall (λ w, 0xFFFFFFFF00000000 ≤ w) h ∧
    dv_ram s = m ∧ dv_pmm s = p) (mkDrv g m d p).
Proof.
  intros <- <- Hr Hf Hi Hn. unfold timer_rearm. apply wp_bind, wp_set_glob. unfold read_mtime.
  apply wp_bind, wp_bind, wp_glob. cbn [g_mtime].
  eapply wp_mono; [by apply mtime_reads|]. intros t s (d1 & -> & H1 & H2 & L1).
  apply wp_bind, wp_glob. unfold write_mtimecmp. apply wp_bind, wp_glob. cbn [g_mtimecmp g_tick_interval].
  pose proof (now_u64 d) as U0. unfold u64 in U0. rewrite w64_small by lia.
  eapply wp_mono; [apply write_cmp_late; unfold u64; lia|].
  intros [] s (d2 & h & -> & H3 & L2 & HF). exists t, h. cbn. rewrite L2, L1. repeat split; [lia..|done].
Qed.

(** A clock that goes up by one with every access and stops at its largest value *)
Definition max_time : Z := 18446744073709551615.
Definition shown (n : nat) : Z := Z.min (Z.of_nat n) max_time.
#[global] Instance counting : Device (nat * list Z) := {
  dev_load := λ n a m d, ((if a =? CLINT_MTIME + 4 then hi32 (shown d.1) else lo32 (shown d.1)), (m, (S d.1, d.2)));
  dev_store := λ n a v m d,
    let c := default 0 (head d.2) in
    (m, (S d.1, (if a =? CLINT_MTIMECMP + 4 then v * 4294967296 + lo32 c else hi32 c * 4294967296 + v) :: d.2));
  dev_run := λ m d, (m, d) }.

#[global] Program Instance counting_clock : Clock (D := nat * list Z) CLINT_MTIME CLINT_MTIMECMP 1 := {|
  now := λ d, shown d.1; deadlines := snd |}.
Next Obligation. intros [n l]. unfold shown, max_time, u64. cbn. lia. Qed.
Next Obligation.
  intros m [n l]. exists (shown n), (S n, l). cbn [dev_load counting fst snd]. unfold shown, max_time. split_and!; try done; lia.
Qed.
Next Obligation.
  intros m [n l]. exists (shown n), (S n, l). cbn [dev_load counting fst snd]. unfold shown, max_time. split_and!; try done; lia.
Qed.
Next Obligation. intros v m [n l]. eexists. cbn. split; [reflexivity|]. unfold shown, max_time. cbn. split; [lia|done]. Qed.
Next Obligation. intros v m [n l]. eexists. cbn. split; [reflexivity|]. unfold shown, max_time. cbn. split; [lia|done]. Qed.

Definition demo_clock : nat * list Z := (1000%nat, [500]).
Definition demo_timer : Timer := mkTimer CLINT_MTIME CLINT_MTIMECMP CLINT_FREQ_QEMU 100000 7 7.

Lemma timer_arms_next_witness :
  let p := mkPmm 0 0 0 [] [] ∅ in
  now demo_clock = 1000 ∧
  wp (timer_rearm 2) (λ _ s, ∃ t h,
    now demo_clock ≤ t ≤ now (dv_dev s) ∧ now (dv_dev s) ≤ now demo_clock + 9 * 1 ∧
    deadlines (dv_dev s) = (t + g_tick_interval demo_timer) :: h ++ deadlines demo_clock ∧ Forall (λ w, 0xFFFFFFFF00000000 ≤ w) h ∧
    dv_ram s = ∅ ∧ dv_pmm s = p) (mkDrv demo_timer ∅ demo_clock p).
Proof.
  split; [reflexivity|].
  apply (timer_arms_next CLINT_MTIME CLINT_MTIMECMP 1 2 demo_timer ∅ demo_clock (mkPmm 0 0 0 [] [] ∅)).
  - reflexivity.
  - reflexivity.
  - reflexivity.
  - lia.
  - easy.
  - reflexivity.
Defined.
End TimerTheorems.

(** ** The spin lock *)

(** The flag says whether a hart holds the lock, and one at most does. *)
Definition lock_inv (l : Lock) : Prop :=
  (∀ h, at_pc l h = Holding → locked l = true) ∧
  (∀ h k, at_pc l h = Holding → at_pc l k = Holding → h = k) ∧
  (locked l = true → ∃ h, at_pc l h = Holding).

Lemma goto_eq h p l : goto h p l h = p.
Proof. unfold goto. by rewrite decide_True. Qed.
Lemma goto_ne h k p l : k ≠ h → goto h p l k = at_pc l k.
Proof. intros H. unfold goto. by rewrite decide_False. Qed.

Lemma step_inv h l l' : lock_inv l → step h l l' → lock_inv l'.
Proof.
  intros (H1 & H2 & H3) Hs. unfold lock_inv.
  assert (Hgo : ∀ p k, goto h p l k = Holding → k = h ∧ p = Holding ∨ k ≠ h ∧ at_pc l k = Holding).
  { intros p k. destruct (decide (k = h)) as [->|Hk]; [rewrite goto_eq; by left|rewrite goto_ne by done; by right]. }
  assert (Hkeep : ∀ p, at_pc l h ≠ Holding → locked l = true → ∃ k, goto h p l k = Holding).
  { intros p Hh Hl. destruct (H3 Hl) as [k Hk]. exists k. rewrite goto_ne; [done|congruence]. }
  assert (Huniq : ∀ p, (p = Holding → locked l = false) → ∀ j k, goto h p l j = Holding → goto h p l k = Holding → j = k).
  { intros p Hp j k Hj Hk.
    destruct (Hgo _ _ Hj) as [[-> Ej]|[_ Ej]], (Hgo _ _ Hk) as [[-> Ek]|[_ Ek]]; [done|..|by apply H2];
      [specialize (Hp Ej); apply H1 in Ek|specialize (Hp Ek); apply H1 in Ej]; congruence. }
  assert (Hflag : ∀ p, p ≠ Holding → ∀ k, goto h p l k = Holding → locked l = true).
  { intros p Hp k Hk. destruct (Hgo _ _ Hk) as [[_ ?]|[_ Ek]]; [done|by apply H1 in Ek]. }
  destruct Hs as [l Hp|l Hp Hl|l Hp Hl|l Hp Hl|l Hp Hl|l Hp]; cbn [locked at_pc]; (split; [|split]);
    try (by apply Huniq); try done; try (by apply Hflag); try (apply Hkeep; congruence).
  - intros _. apply Hkeep; congruence.
  - intros _. exists h. apply goto_eq.
  - intros k Hk. rewrite <- Hl. by eapply Hflag, Hk.
  - intros k Hk. destruct (Hgo _ _ Hk) as [[_ ?]|[Hne Ek]]; [done|]. by destruct (Hne (H2 _ _ Ek Hp)).
Qed.

Lemma reachable_inv l : reachable l → lock_inv l.
Proof. induction 1 as [|h l l' _ IH Hs]; [by split_and!|by eapply step_inv]. Qed.

Module LockTheorems.

(** The spin lock excludes: in every state that any number of harts can reach in any
    order of their steps, one hart at most holds it; the flag is set exactly when one
    does; and when none does, a hart that wants the lock has it within two steps of its own. *)
Theorem spin_lock_excludes l : reachable l →
  (∀ h k, at_pc l h = Holding → at_pc l k = Holding → h = k) ∧
  (locked l = true ↔ ∃ h, at_pc l h = Holding) ∧
  (∀ h, locked l = false → at_pc l h = Swapping ∨ at_pc l h = Spinning →
     ∃ l1 l2, (l1 = l ∨ step h l l1) ∧ step h l1 l2 ∧ at_pc l2 h = Holding).
Proof.
  intros (H1 & H2 & H3)%reachable_inv. split; [done|]. split.
  - split; [done|]. intros [h Hh]. by eapply H1.
  - intros h Hl [Hp|Hp].
    + exists l, (mkLock true (goto h Holding l)). split; [by left|]. split; [by apply step_swap_free|]. apply goto_eq.
    + exists (mkLock false (goto h Swapping l)), (mkLock true (goto h Holding (mkLock false (goto h Swapping l)))).
      split; [right; by apply step_retry|]. split; [|apply goto_eq]. apply step_swap_free; [apply goto_eq|done].
Qed.

Lemma spin_lock_excludes_witness :
  let l := mkLock true (goto 1 Holding (mkLock false (goto 1 Swapping lock_new))) in
  (∀ h k, at_pc l h = Holding → at_pc l k = Holding → h = k) ∧
  (locked l = true ↔ ∃ h, at_pc l h = Holding) ∧
  (∀ h, locked l = false → at_pc l h = Swapping ∨ at_pc l h = Spinning →
     ∃ l1 l2, (l1 = l ∨ step h l l1) ∧ step h l1 l2 ∧ at_pc l2 h = Holding).
Proof.
  apply (spin_lock_excludes (mkLock true (goto 1 Holding (mkLock false (goto 1 Swapping lock_new))))).
  apply (reach_step 1 (mkLock false (goto 1 Swapping lock_new))); [apply (reach_step 1 lock_new); [apply reach_new|by apply step_call]|].
  by apply step_swap_free.
Defined.
End LockTheorems.
