(* ===== verification/Soc.v ===== *)
(** * kernel/src/drivers: pins, fuses, copies, interrupts and clocks of the chip

    gpio/, led.rs, pinctrl.rs, otp.rs, dma.rs, plic.rs, watchdog.rs, syscon.rs, power.rs,
    cpufreq.rs, pwm.rs and the alarm of rtc.rs. Each driver has the record of its
    globals. A handler of interrupts is a function; here it is a number, and a log has the calls
    made. Waiting with [nop] has no effect, so a delay is nothing. A function that ends in
    [loop { wfi() }] is modelled up to that loop. *)

From S2P Require Import Prelude Bus Console Rand.
From stdpp Require Import base list numbers gmap.
From Stdlib Require Import ZArith Lia.

Open Scope Z_scope.

(** ** gpio *)

Definition GPIO_BASE : Z := 0x10060000.
Definition N_PINS : Z := 32.
Definition R_INPUT_VAL : Z := 0x00.
Definition R_INPUT_EN : Z := 0x04.
Definition R_OUTPUT_EN : Z := 0x08.
Definition R_OUTPUT_VAL : Z := 0x0C.
Definition R_RISE_IE : Z := 0x18.
Definition R_RISE_IP : Z := 0x1C.
Definition R_FALL_IE : Z := 0x20.
Definition R_FALL_IP : Z := 0x24.
Definition _R_HIGH_IE : Z := 0x28.
Definition _R_HIGH_IP : Z := 0x2C.
Definition _R_LOW_IE : Z := 0x30.
Definition _R_LOW_IP : Z := 0x34.
Definition R_OUT_XOR : Z := 0x40.

(** [G_BASE], [G_PINS]; [gp_calls] has the calls of handlers with their pins. *)
Record Gpio := mkGpio { gp_base : Z; gp_pins : list (option nat); gp_calls : list (nat * Z) }.
Definition gpio_off : Gpio := mkGpio GPIO_BASE (replicate (Z.to_nat N_PINS) None) [].

Section Gpio.
Context {D : Type} `{!Device D}.
Abbreviation M := (DM Gpio D).

Definition gpio_rd (off : Z) : M Z := b ← glob gp_base; mmio_r 4 (b + off).
Definition gpio_wr (off v : Z) : M unit := b ← glob gp_base; mmio_w 4 (b + off) v.

Definition gpio_init (base : Z) : M unit :=
  set_glob (λ g, mkGpio base (gp_pins g) (gp_calls g));;
  gpio_wr R_RISE_IE 0;; gpio_wr R_FALL_IE 0;; gpio_wr _R_HIGH_IE 0;; gpio_wr _R_LOW_IE 0;;
  gpio_wr R_RISE_IP 0xFFFFFFFF;; gpio_wr R_FALL_IP 0xFFFFFFFF;; gpio_wr _R_HIGH_IP 0xFFFFFFFF;; gpio_wr _R_LOW_IP 0xFFFFFFFF.

Definition mask (pin : Z) : M Z := if N_PINS <=? pin then fail Inval else mret (Z.shiftl 1 pin).

Definition set_output (pin : Z) : M unit :=
  m ← mask pin;
  o ← gpio_rd R_OUTPUT_EN; gpio_wr R_OUTPUT_EN (Z.lor o m);;
  i ← gpio_rd R_INPUT_EN; gpio_wr R_INPUT_EN (clear32 i m).
Definition set_input (pin : Z) : M unit :=
  m ← mask pin;
  i ← gpio_rd R_INPUT_EN; gpio_wr R_INPUT_EN (Z.lor i m);;
  o ← gpio_rd R_OUTPUT_EN; gpio_wr R_OUTPUT_EN (clear32 o m).
Definition pin_write (pin value : Z) : M unit :=
  m ← mask pin;
  cur ← gpio_rd R_OUTPUT_VAL;
  gpio_wr R_OUTPUT_VAL (if negb (value =? 0) then Z.lor cur m else clear32 cur m).
Definition pin_read (pin : Z) : M Z :=
  m ← mask pin; v ← gpio_rd R_INPUT_VAL; mret (if negb (Z.land v m =? 0) then 1 else 0).
Definition pin_toggle (pin : Z) : M unit :=
  m ← mask pin; cur ← gpio_rd R_OUTPUT_VAL; gpio_wr R_OUTPUT_VAL (Z.lxor cur m).
Definition set_invert (pin : Z) (on : bool) : M unit :=
  m ← mask pin; cur ← gpio_rd R_OUT_XOR; gpio_wr R_OUT_XOR (if on then Z.lor cur m else clear32 cur m).

Definition on_edge (pin : Z) (rising : bool) (h : nat) : M unit :=
  m ← mask pin;
  pins ← glob gp_pins;
  pins ← lift (set_idx pins pin (Some h));
  set_glob (λ g, mkGpio (gp_base g) pins (gp_calls g));;
  if rising then e ← gpio_rd R_RISE_IE; gpio_wr R_RISE_IE (Z.lor e m)
  else e ← gpio_rd R_FALL_IE; gpio_wr R_FALL_IE (Z.lor e m).

(** One round of the loop of [dispatch] *)
Definition dispatch_pin (pending pin : Z) : M unit :=
  if Z.land pending (Z.shiftl 1 pin) =? 0 then mret tt else
  pins ← glob gp_pins;
  o ← lift (idx pins pin);
  match o with
  | Some h => set_glob (λ g, mkGpio (gp_base g) (gp_pins g) (gp_calls g ++ [(h, pin)]))
  | None => mret tt
  end.
Definition gpio_dispatch (rising : bool) : M unit :=
  pending ← gpio_rd (if rising then R_RISE_IP else R_FALL_IP);
  if pending =? 0 then mret tt else
  gpio_wr (if rising then R_RISE_IP else R_FALL_IP) pending;;
  each (Z.of_nat <$> seq 0 (Z.to_nat N_PINS)) (dispatch_pin pending).
End Gpio.

(** ** led.rs *)

Definition MAX_LEDS : Z := 8.
Inductive LedName := LedPower | LedActivity | LedNetwork | LedError | User1 | User2 | User3 | User4.
#[global] Instance LedName_eq_dec : EqDecision LedName.
Proof. solve_decision. Defined.
Definition led_idx (l : LedName) : Z :=
  match l with
  | LedPower => 0 | LedActivity => 1 | LedNetwork => 2 | LedError => 3
  | User1 => 4 | User2 => 5 | User3 => 6 | User4 => 7
  end.
Record LedSlot := mkLedSlot { ls_pin : Z; ls_low : bool; ls_bound : bool }.
Definition unbound : LedSlot := mkLedSlot 0 false false.

(** [G_SLOTS] and the pins *)
Record Leds := mkLeds { ld_slots : list LedSlot; ld_gpio : Gpio }.
Definition leds_off : Leds := mkLeds (replicate (Z.to_nat MAX_LEDS) unbound) gpio_off.

Section Led.
Context {D : Type} `{!Device D}.
Abbreviation M := (DM Leds D).

Definition on_pins {A} (m : DM Gpio D A) : M A := zoom ld_gpio (λ p g, mkLeds (ld_slots g) p) m.
Definition slot_of (l : LedName) : M LedSlot := s ← glob ld_slots; lift (idx s (led_idx l)).

Definition led_set (l : LedName) (on : bool) : M unit :=
  slot ← slot_of l;
  if negb (ls_bound slot) then fail NoEnt else
  let raw := if ls_low slot then negb on else on in
  on_pins (pin_write (ls_pin slot) (if raw then 1 else 0)).
Definition led_bind (l : LedName) (pin : Z) (active_low : bool) : M unit :=
  if MAX_LEDS <=? led_idx l then fail Range else
  on_pins (set_output pin);;
  s ← glob ld_slots;
  s ← lift (set_idx s (led_idx l) (mkLedSlot pin active_low true));
  set_glob (λ g, mkLeds s (ld_gpio g));;
  attempt (led_set l (bool_decide (l = LedPower)));;
  mret tt.
Definition led_toggle (l : LedName) : M unit :=
  slot ← slot_of l;
  if negb (ls_bound slot) then fail NoEnt else on_pins (pin_toggle (ls_pin slot)).
Definition led_get (l : LedName) : M bool :=
  slot ← slot_of l;
  if negb (ls_bound slot) then fail NoEnt else
  v ← on_pins (pin_read (ls_pin slot));
  let raw := negb (v =? 0) in
  mret (if ls_low slot then negb raw else raw).

Fixpoint blink (l : LedName) (n : nat) : M unit :=
  match n with
  | O => mret tt
  | S n => attempt (led_set l true);; attempt (led_set l false);; blink l n
  end.
Definition pulse_activity : M unit :=
  o ← attempt (led_set LedActivity true);
  match o with Some _ => attempt (led_set LedActivity false);; mret tt | None => mret tt end.
End Led.

(** ** pinctrl.rs *)

Definition PINCTRL_BASE : Z := 0x03020000.
Definition PADS_PER_REG : Z := 8.
Definition FUNC_BITS : Z := 3.
Definition FUNC_MASK : Z := Z.shiftl 1 FUNC_BITS - 1.
Definition reg_for_pad (pad : Z) : Z := pad / PADS_PER_REG * 4.
Definition shift_for_pad (pad : Z) : Z := pad mod PADS_PER_REG * FUNC_BITS.

(** The driver's global is its [G_BASE]. *)
Section Pinctrl.
Context {D : Type} `{!Device D}.
Abbreviation M := (DM Z D).

Definition pinctrl_init (base : Z) : M unit := set_glob (λ _, base).

Definition set_mux (pad func : Z) : M unit :=
  if (256 <=? pad) || (FUNC_MASK <? func) then fail Inval else
  let off := reg_for_pad pad in
  let sh := shift_for_pad pad in
  base ← glob id;
  cur ← mmio_r 4 (base + off);
  let next := Z.lor (clear32 cur (Z.shiftl FUNC_MASK sh)) (Z.shiftl (Z.land func FUNC_MASK) sh) in
  mmio_w 4 (base + off) next.
Definition get_mux (pad : Z) : M Z :=
  if 256 <=? pad then fail Inval else
  let off := reg_for_pad pad in
  let sh := shift_for_pad pad in
  base ← glob id;
  v ← mmio_r 4 (base + off);
  mret (Z.land (Z.shiftr v sh) FUNC_MASK).
Definition set_gpio (pad : Z) : M unit := set_mux pad 0.
Definition apply_batch (pairs : list (Z * Z)) : M unit := each pairs (λ '(pad, func), set_mux pad func).
End Pinctrl.

(** ** otp.rs *)

Definition OTP_BASE : Z := 0x03050000.
Definition OTP_SIZE : Z := 1024.
Definition OTP_ADDR : Z := 0x00.
Definition OTP_DATA : Z := 0x04.
Definition OTP_CTRL : Z := 0x08.
Definition CTRL_READ : Z := 1.
Definition CTRL_BUSY : Z := 2.
Definition CTRL_WRITE : Z := 16.

(** [G_BASE], [G_CACHE], [G_CACHED] *)
Record Otp := mkOtp { ot_base : Z; ot_cache : list Z; ot_cached : bool }.
Definition otp_off : Otp := mkOtp OTP_BASE (zeros OTP_SIZE) false.

Section Otp.
Context {D : Type} `{!Device D}.
Abbreviation M := (DM Otp D).

Definition otp_rd (off : Z) : M Z := b ← glob ot_base; mmio_r 4 (b + off).
Definition otp_wr (off v : Z) : M unit := b ← glob ot_base; mmio_w 4 (b + off) v.
(** The loop that both directions end with *)
Definition otp_wait : M unit :=
  t ← spin (Z.to_nat 100000) (v ← otp_rd OTP_CTRL; mret (negb (Z.land v CTRL_BUSY =? 0)));
  if t =? 0 then fail Io else mret tt.

Definition cache_one (i : Z) : M unit :=
  otp_wr OTP_ADDR i;;
  otp_wr OTP_CTRL CTRL_READ;;
  otp_wait;;
  v ← otp_rd OTP_DATA;
  c ← glob ot_cache;
  c ← lift (set_idx c i (w8 v));
  set_glob (λ g, mkOtp (ot_base g) c (ot_cached g)).
Definition cache_all : M unit :=
  each (Z.of_nat <$> seq 0 (Z.to_nat OTP_SIZE)) cache_one;;
  set_glob (λ g, mkOtp (ot_base g) (ot_cache g) true).
Definition otp_init (base : Z) : M unit :=
  set_glob (λ g, mkOtp base (ot_cache g) (ot_cached g));; cache_all.

Definition otp_read_byte (i : Z) : M Z :=
  if OTP_SIZE <=? i then fail Range else
  b ← glob ot_cached;
  (if b : bool then mret tt else cache_all);;
  c ← glob ot_cache;
  lift (idx c i).
Fixpoint otp_read_loop (n : nat) (i : Z) : M (list Z) :=
  match n with
  | O => mret []
  | S n => b ← otp_read_byte i; l ← otp_read_loop n (i + 1); mret (b :: l)
  end.
(** The bytes put into a slice of [n] bytes *)
Definition otp_read (start n : Z) : M (list Z) :=
  if OTP_SIZE <? w64 (start + n) then fail Range else otp_read_loop (Z.to_nat n) start.
Definition otp_read_mac : M (list Z) := otp_read 0x90 6.
Definition otp_write_byte (i val : Z) : M unit :=
  if OTP_SIZE <=? i then fail Range else
  otp_wr OTP_ADDR i;;
  otp_wr OTP_DATA val;;
  otp_wr OTP_CTRL CTRL_WRITE;;
  otp_wait;;
  c ← glob ot_cache;
  c ← lift (set_idx c i val);
  set_glob (λ g, mkOtp (ot_base g) c (ot_cached g)).
Definition is_cached : M bool := glob ot_cached.
End Otp.

(** ** dma.rs *)

Definition DMA_BASE : Z := 0x3000000.
Definition DMA_CHANNELS : Z := 4.
Definition R_NEXT_DEST : Z := 0x00.
Definition R_NEXT_CONFIG : Z := 0x04.
Definition R_NEXT_BYTES : Z := 0x08.
Definition R_NEXT_SRC : Z := 0x0C.
Definition CFG_DONE_IE : Z := 2.
Definition CFG_MEM_TO_MEM : Z := 8192.
Definition CFG_RUN : Z := 32768.

(** [G_BASE], [in_use] of [G_CHANNELS] *)
Record Dma := mkDma { dm_base : Z; dm_used : list bool }.
Definition dma_off : Dma := mkDma DMA_BASE (replicate (Z.to_nat DMA_CHANNELS) false).

Section Dma.
Context {D : Type} `{!Device D}.
Abbreviation M := (DM Dma D).

Definition dma_rd (chan off : Z) : M Z := b ← glob dm_base; mmio_r 4 (b + chan * 0x20 + off).
Definition dma_wr (chan off v : Z) : M unit := b ← glob dm_base; mmio_w 4 (b + chan * 0x20 + off) v.
Definition set_used (chan : Z) (u : bool) : M unit :=
  l ← glob dm_used; l ← lift (set_idx l chan u); set_glob (λ g, mkDma (dm_base g) l).

Definition dma_init (base : Z) : M unit :=
  set_glob (λ g, mkDma base (dm_used g));;
  each (Z.of_nat <$> seq 0 (Z.to_nat DMA_CHANNELS)) (λ c, set_used c false).

Fixpoint channel_loop (n : nat) (c : Z) : M Z :=
  match n with
  | O => fail Busy
  | S n =>
      l ← glob dm_used; u ← lift (idx l c);
      if negb u then set_used c true;; mret c else channel_loop n (c + 1)
  end.
Definition dma_alloc : M Z := channel_loop (Z.to_nat DMA_CHANNELS) 0.
Definition dma_free (chan : Z) : M unit :=
  if DMA_CHANNELS <=? chan then fail Inval else
  l ← glob dm_used; u ← lift (idx l chan);
  if negb u then fail Inval else
  dma_wr chan R_NEXT_CONFIG 0;;
  set_used chan false.

(** The registers of a transfer *)
Definition dma_start (chan src dst n cfg : Z) : M unit :=
  dma_wr chan R_NEXT_SRC (w32 src);;
  dma_wr chan R_NEXT_DEST (w32 dst);;
  dma_wr chan R_NEXT_BYTES (w32 n);;
  dma_wr chan R_NEXT_CONFIG cfg.
Definition dma_copy (dst src n : Z) : M unit :=
  if (n =? 0) || negb (n mod 4 =? 0) then fail Inval else
  chan ← dma_alloc;
  dma_start chan src dst n (Z.lor CFG_MEM_TO_MEM (Z.lor CFG_DONE_IE CFG_RUN));;
  t ← spin (Z.to_nat 10000000) (v ← dma_rd chan R_NEXT_CONFIG; mret (negb (Z.land v CFG_RUN =? 0)));
  if t =? 0 then dma_free chan;; fail Io else
  dma_free chan.
Definition dma_submit (chan src dst n : Z) : M unit :=
  if (DMA_CHANNELS <=? chan) || (n =? 0) || negb (n mod 4 =? 0) then fail Inval else
  l ← glob dm_used; u ← lift (idx l chan);
  if negb u then fail Inval else
  dma_start chan src dst n (Z.lor CFG_MEM_TO_MEM CFG_RUN).
Definition is_done (chan : Z) : M bool :=
  if DMA_CHANNELS <=? chan then mret true else
  v ← dma_rd chan R_NEXT_CONFIG; mret (Z.land v CFG_RUN =? 0).
End Dma.

(** ** plic.rs *)

Definition PLIC_BASE : Z := 0x0C000000.
Definition HART0_SMODE_CTX : Z := 1.
Definition MAX_IRQ : Z := 64.
Definition plic_smode_ctx (hart : Z) : Z := 2 * hart + 1.

(** [G_BASE], [G_HANDLERS]; [pl_calls] has the handlers called. *)
Record Plic := mkPlic { pl_base : Z; pl_handlers : list (option nat); pl_calls : list nat }.
Definition plic_off : Plic := mkPlic PLIC_BASE (replicate (Z.to_nat MAX_IRQ) None) [].

Section Plic.
Context {D : Type} `{!Device D}.
Abbreviation M := (DM Plic D).

Definition plic_init (base : Z) : M unit := set_glob (λ g, mkPlic base (pl_handlers g) (pl_calls g)).
Definition register_handler (irq : Z) (h : nat) : M unit :=
  if irq <? MAX_IRQ then
    l ← glob pl_handlers; l ← lift (set_idx l irq (Some h));
    set_glob (λ g, mkPlic (pl_base g) l (pl_calls g))
  else mret tt.

Definition claim : M Z := b ← glob pl_base; mmio_r 4 (b + 0x200004 + 0x1000 * HART0_SMODE_CTX).
Definition complete (irq : Z) : M unit := b ← glob pl_base; mmio_w 4 (b + 0x200004 + 0x1000 * HART0_SMODE_CTX) irq.
Definition plic_dispatch : M unit :=
  irq ← claim;
  if irq =? 0 then mret tt else
  (if irq <? MAX_IRQ then
     l ← glob pl_handlers; o ← lift (idx l irq);
     match o with
     | Some h => set_glob (λ g, mkPlic (pl_base g) (pl_handlers g) (pl_calls g ++ [h]))
     | None => mret tt
     end
   else mret tt);;
  complete irq.
Definition set_priority (irq prio : Z) : M unit := b ← glob pl_base; mmio_w 4 (b + 4 * irq) (Z.land prio 7).
Definition plic_enable (irq hart : Z) : M unit :=
  b ← glob pl_base;
  let addr := b + 0x2000 + 0x80 * plic_smode_ctx hart + 4 * (irq / 32) in
  v ← mmio_r 4 addr;
  mmio_w 4 addr (Z.lor v (Z.shiftl 1 (irq mod 32))).
Definition set_threshold (t : Z) : M unit := b ← glob pl_base; mmio_w 4 (b + 0x200000 + 0x1000 * HART0_SMODE_CTX) (Z.land t 7).
End Plic.

(** ** rtc.rs: the alarm *)

Definition arm_alarm {D} `{!Device D} (secs irq : Z) : DM (Rtc * Plic) D unit :=
  g ← glob fst;
  if negb (bool_decide (rt_kind g = Goldfish)) then fail NoSys else
  now ← zoom fst (λ r s, (r, s.2)) now_nanos;
  let target := w64 (now + w64 (secs * 1000000000)) in
  mmio_w 4 (rt_base g + GF_ALARM_HIGH) (hi32 target);;
  mmio_w 4 (rt_base g + GF_ALARM_LOW) (lo32 target);;
  mmio_w 4 (rt_base g + GF_IRQ_ENABLE) 1;;
  zoom snd (λ p s, (s.1, p)) (set_priority irq 4);;
  zoom snd (λ p s, (s.1, p)) (plic_enable irq 0).

(** ** watchdog.rs *)

Definition WDT_BASE : Z := 0x10070000.
Definition TIMEOUT_MAX : Z := 1000000.
Definition WDT_LO : Z := 0x00.
Definition WDT_HI : Z := 0x04.
Definition WDT_FEED : Z := 0x08.
Definition WDT_KEY : Z := 0x0C.
Definition WDT_CMP : Z := 0x10.
Definition KEY_VALID : Z := 0x51F15E5E.
Definition FEED_MAGIC : Z := 0x4C464545.

(** [G_BASE], [G_ENABLED], [G_TIMEOUT] *)
Record Wdt := mkWdt { wd_base : Z; wd_enabled : bool; wd_timeout : Z }.
Definition wdt_off : Wdt := mkWdt WDT_BASE false 0.

Section Wdt.
Context {D : Type} `{!Device D}.
Abbreviation M := (DM Wdt D).

Definition wdt_rd (off : Z) : M Z := b ← glob wd_base; mmio_r 4 (b + off).
Definition wdt_wr (off v : Z) : M unit := b ← glob wd_base; mmio_w 4 (b + off) v.
Definition wdt_init (base : Z) : M unit := set_glob (λ g, mkWdt base (wd_enabled g) (wd_timeout g)).
Definition arm (timeout_ms : Z) : M unit :=
  if (timeout_ms =? 0) || (TIMEOUT_MAX <? timeout_ms) then fail Range else
  let ticks := w32 (timeout_ms * 1000) in
  wdt_wr WDT_CMP ticks;;
  wdt_wr WDT_KEY KEY_VALID;;
  set_glob (λ g, mkWdt (wd_base g) true timeout_ms).
Definition disarm : M unit :=
  wdt_wr WDT_CMP (TIMEOUT_MAX * 1000);;
  wdt_wr WDT_KEY KEY_VALID;;
  set_glob (λ g, mkWdt (wd_base g) false (wd_timeout g)).
Definition ping : M unit := wdt_wr WDT_FEED FEED_MAGIC.
Definition is_armed : M bool := glob wd_enabled.
Definition timeout_ms : M Z := glob wd_timeout.
Definition counter : M Z :=
  lo ← wdt_rd WDT_LO; hi ← wdt_rd WDT_HI; mret (Z.lor (Z.shiftl hi 32) lo).
Definition wdt_tick : M unit := e ← glob wd_enabled; if e : bool then ping else mret tt.
End Wdt.

(** ** syscon.rs *)

Definition FINISHER_BASE : Z := 0x100000.
Definition FINISHER_PASS : Z := 0x5555.
Definition FINISHER_FAIL : Z := 0x3333.
Definition FINISHER_RESET : Z := 0x7777.
Definition FINISHER_SHUTDOWN : Z := 0x9999.
Definition FINISHER_REBOOT : Z := 0xCCCC.

Section Syscon.
Context {G D : Type} `{!Device D}.
Abbreviation M := (DM G D).

Definition poweroff : M unit := mmio_w 4 FINISHER_BASE FINISHER_SHUTDOWN.
Definition reboot : M unit := mmio_w 4 FINISHER_BASE FINISHER_REBOOT;; mmio_w 4 FINISHER_BASE FINISHER_RESET.
Definition exit_pass : M unit := mmio_w 4 FINISHER_BASE FINISHER_PASS.
Definition exit_fail (code : Z) : M unit :=
  mmio_w 4 FINISHER_BASE (Z.lor FINISHER_FAIL (Z.shiftl (Z.land code 0xFFFF) 16)).
Definition is_qemu_finisher : bool := false.
End Syscon.

(** ** power.rs *)

(** [G_DEEP_SLEEP], the interrupt enable bit of [sstatus] and the timer *)
Record Power := mkPower { pw_deep : bool; pw_sie : bool; pw_timer : Timer }.

Section Power.
(** [wfi] is what happens until the next interrupt has been served. *)
Context {D : Type} `{!Device D} (wfi : DM Power D unit).
Abbreviation M := (DM Power D).

Definition idle : M unit := wfi.
(** The loop of [sleep]: more than [fuel] interrupts that do not wake it are a sleep
    without end. *)
Fixpoint deep_loop (fuel : nat) : M unit :=
  match fuel with
  | O => panic
  | S fuel => wfi;; d ← glob pw_deep; if negb d then mret tt else deep_loop fuel
  end.
Definition sleep (fuel : nat) : M unit :=
  set_glob (λ g, mkPower true false (pw_timer g));; deep_loop fuel.
Definition wake (looks : nat) : M unit :=
  set_glob (λ g, mkPower false true (pw_timer g));;
  zoom pw_timer (λ t g, mkPower (pw_deep g) (pw_sie g) t) (init_hart looks 0).
Definition is_sleeping : M bool := glob pw_deep.
End Power.

(** ** cpufreq.rs *)

Definition CRU_BASE : Z := 0x01900000.
Definition PLL_BASE : Z := 0x01901000.
Definition R_PLL0_CTRL : Z := 0x00.
Definition R_CPU_CLK_DIV : Z := 0x10.
Definition OPPS : list (Z * Z) := [(300, 900); (500, 950); (700, 1000); (1000, 1100); (1200, 1200)].

(** [G_CRU], [G_PLL], [G_CUR_OPP] *)
Record CpuFreq := mkCpuFreq { cf_cru : Z; cf_pll : Z; cf_opp : Z }.
Definition cpufreq_off : CpuFreq := mkCpuFreq CRU_BASE PLL_BASE 1.

(** The output of PLL0 from its control register *)
Definition pll_out (pll : Z) : Z :=
  let n := Z.land (Z.shiftr pll 8) 0xFF in
  let m := Z.land pll 0xFF in
  let p := Z.land (Z.shiftr pll 16) 0x7 in
  let vco := 25 * (n + 1) / Z.max (m + 1) 1 in
  vco / Z.shiftl 1 p.

Section CpuFreq.
Context {D : Type} `{!Device D}.
Abbreviation M := (DM CpuFreq D).

Definition cpufreq_init (cru pll : Z) : M unit := set_glob (λ g, mkCpuFreq cru pll (cf_opp g)).
Definition freq_mhz : M Z :=
  p ← glob cf_pll; pll ← mmio_r 4 (p + R_PLL0_CTRL);
  c ← glob cf_cru; d ← mmio_r 4 (c + R_CPU_CLK_DIV);
  mret (pll_out pll / (Z.land d 0x1F + 1)).
Definition set_opp (i : Z) : M Z :=
  if len OPPS <=? i then fail Range else
  o ← lift (idx OPPS i);
  p ← glob cf_pll; pll ← mmio_r 4 (p + R_PLL0_CTRL);
  let div := Z.min (sat_sub (pll_out pll / o.1) 1) 0x1F in
  c ← glob cf_cru; mmio_w 4 (c + R_CPU_CLK_DIV) div;;
  set_glob (λ g, mkCpuFreq (cf_cru g) (cf_pll g) i);;
  mret o.1.
Definition cur_opp : M Z := glob cf_opp.
End CpuFreq.

(** ** pwm.rs *)

Definition PWM_BASE : Z := 0x10020000.
Definition PWM_CHANNELS : Z := 4.
Definition CLK_HZ : Z := 50000000.
Definition R_CFG : Z := 0x00.
Definition R_COUNT : Z := 0x08.
Definition R_S : Z := 0x0C.

Record PwmChannel := mkPwmChannel { pc_enabled : bool; pc_period : Z; pc_duty : Z }.
(** [G_BASE], [G_CHANNELS] *)
Record Pwm := mkPwm { pm_base : Z; pm_channels : list PwmChannel }.
Definition pwm_off : Pwm := mkPwm PWM_BASE (replicate (Z.to_nat PWM_CHANNELS) (mkPwmChannel false 0 0)).

Section Pwm.
Context {D : Type} `{!Device D}.
Abbreviation M := (DM Pwm D).

Definition pwm_wr (chan off v : Z) : M unit := b ← glob pm_base; mmio_w 4 (b + 0x10 + chan * 0x10 + off) v.
Definition pwm_init (base : Z) : M unit :=
  set_glob (λ g, mkPwm base (pm_channels g));; mmio_w 4 (base + R_CFG) 0.
Definition check_chan (chan : Z) : M unit := if PWM_CHANNELS <=? chan then fail Inval else mret tt.
(** [G_CHANNELS[chan]], and a change of it *)
Definition channel (chan : Z) : M PwmChannel := l ← glob pm_channels; lift (idx l chan).
Definition set_channel (chan : Z) (f : PwmChannel → PwmChannel) : M unit :=
  c ← channel chan;
  l ← glob pm_channels; l ← lift (set_idx l chan (f c));
  set_glob (λ g, mkPwm (pm_base g) l).

Definition set_period (chan period : Z) : M unit :=
  check_chan chan;;
  set_channel chan (λ c, mkPwmChannel (pc_enabled c) period (pc_duty c));;
  pwm_wr chan R_COUNT period.
Definition set_duty (chan duty : Z) : M unit :=
  check_chan chan;;
  c ← channel chan;
  if pc_period c <? duty then fail Range else
  set_channel chan (λ c, mkPwmChannel (pc_enabled c) (pc_period c) duty);;
  pwm_wr chan R_S duty.
Definition set_duty_percent (chan pct : Z) : M unit :=
  if 100 <? pct then fail Range else
  c ← channel chan;
  set_duty chan (pc_period c * pct / 100 mod 65536).
Definition set_freq_hz (chan hz : Z) : M unit :=
  if (hz =? 0) || (CLK_HZ / 16 <? hz) then fail Range else
  let period := CLK_HZ / hz mod 65536 in
  set_period chan period;;
  set_duty chan (period / 2).
Definition pwm_cfg (chan : Z) (on : bool) : M unit :=
  check_chan chan;;
  set_channel chan (λ c, mkPwmChannel on (pc_period c) (pc_duty c));;
  b ← glob pm_base; cur ← mmio_r 4 (b + R_CFG);
  mmio_w 4 (b + R_CFG) (if on then Z.lor cur (Z.shiftl 1 (chan + 4)) else clear32 cur (Z.shiftl 1 (chan + 4))).
Definition pwm_is_enabled (chan : Z) : M bool :=
  if PWM_CHANNELS <=? chan then mret false else c ← channel chan; mret (pc_enabled c).
End Pwm.
(** [enable], [disable] *)
Definition pwm_enable {D} `{!Device D} (chan : Z) : DM Pwm D unit := pwm_cfg chan true.
Definition pwm_disable {D} `{!Device D} (chan : Z) : DM Pwm D unit := pwm_cfg chan false.
