(* ===== verification/Buses.v ===== *)
(** * kernel/src/drivers: serial buses, panels, sound, PCI and the Canaan MAC

    i2c/, spi/, i2s.rs, mipi_dsi.rs, pci.rs, pcie.rs and canaan_eth.rs. Bytes that a
    driver stores in a slice are the list that it returns; when it fails half-way, the
    bytes stored so far are left out. Log lines and delays are left out. *)

From S2P Require Import Prelude Bus.
From stdpp Require Import base list numbers gmap.
From Stdlib Require Import ZArith Lia.

Open Scope Z_scope.

Section Waits.
Context {G D : Type} `{!Device D}.

(** Look [t] times at most until [look] answers a value; then [e]. *)
Fixpoint look_for {A} (t : nat) (e : Errno) (look : DM G D (option A)) : DM G D A :=
  match t with
  | O => fail e
  | S t => o ← look; match o with Some v => mret v | None => look_for t e look end
  end.

(** Call [f] on the elements until it answers a value. *)
Fixpoint first_some {A B} (l : list A) (f : A → DM G D (option B)) : DM G D (option B) :=
  match l with
  | [] => mret None
  | x :: l => o ← f x; match o with Some b => mret (Some b) | None => first_some l f end
  end.

(** The answers of [f], in order *)
Fixpoint answers {A B} (l : list A) (f : A → DM G D B) : DM G D (list B) :=
  match l with
  | [] => mret []
  | x :: l => b ← f x; r ← answers l f; mret (b :: r)
  end.
End Waits.

(** ** i2c *)

Definition I2C_BASE : Z := 0x10030000.
Definition I2C_TIMEOUT : Z := 1000000.
Definition R_PRESCALE_LO : Z := 0x00.
Definition R_PRESCALE_HI : Z := 0x04.
Definition R_CONTROL : Z := 0x08.
Definition R_TXRX : Z := 0x0C.
Definition R_CMD_STATUS : Z := 0x10.
Definition C_ENABLE : Z := 128.
Definition STA : Z := 128.
Definition STO : Z := 64.
Definition RD : Z := 32.
Definition WR : Z := 16.
Definition ACK : Z := 8.
Definition S_RXACK : Z := 128.
Definition S_BUSY : Z := 32.
Definition S_TIP : Z := 2.

(** The driver's global is its [G_BASE]. *)
Section I2c.
Context {D : Type} `{!Device D}.
Abbreviation M := (DM Z D).

Definition i2c_rd (off : Z) : M Z := b ← glob id; v ← mmio_r 4 (b + off); mret (Z.land v 0xFF).
Definition i2c_wr (off v : Z) : M unit := b ← glob id; mmio_w 4 (b + off) (Z.land v 0xFF).
Definition i2c_init (base prescale : Z) : M unit :=
  set_glob (λ _, base);;
  i2c_wr R_CONTROL 0;;
  i2c_wr R_PRESCALE_LO prescale;;
  i2c_wr R_PRESCALE_HI (Z.shiftr prescale 8);;
  i2c_wr R_CONTROL C_ENABLE.

Definition wait_clear (e : Errno) (bit : Z) : M unit :=
  look_for (Z.to_nat I2C_TIMEOUT) e (v ← i2c_rd R_CMD_STATUS; mret (if Z.land v bit =? 0 then Some tt else None)).
Definition wait_tip : M unit := wait_clear Io S_TIP.
Definition wait_not_busy : M unit := wait_clear Busy S_BUSY.

Definition i2c_start (addr : Z) (read : bool) : M unit :=
  i2c_wr R_TXRX (Z.lor (w8 (Z.shiftl addr 1)) (if read then 1 else 0));;
  i2c_wr R_CMD_STATUS (Z.lor STA WR);;
  wait_tip;;
  v ← i2c_rd R_CMD_STATUS;
  if negb (Z.land v S_RXACK =? 0) then fail NoEnt else mret tt.
Definition i2c_write_byte (byte : Z) (stop : bool) : M unit :=
  i2c_wr R_TXRX byte;;
  i2c_wr R_CMD_STATUS (Z.lor WR (if stop then STO else 0));;
  wait_tip;;
  v ← i2c_rd R_CMD_STATUS;
  if negb (Z.land v S_RXACK =? 0) then fail Io else mret tt.
Definition i2c_read_byte (ack stop : bool) : M Z :=
  i2c_wr R_CMD_STATUS (Z.lor (if ack then Z.lor RD ACK else RD) (if stop then STO else 0));;
  wait_tip;;
  v ← i2c_rd R_TXRX; mret (w8 v).

Fixpoint i2c_send (data : list Z) : M unit :=
  match data with
  | [] => mret tt
  | b :: data => i2c_write_byte b (match data with [] => true | _ => false end);; i2c_send data
  end.
Definition i2c_write (addr : Z) (data : list Z) : M unit :=
  match data with
  | [] => fail Inval
  | _ => i2c_start addr false;; i2c_send data;; attempt wait_not_busy;; mret tt
  end.
(** [n + 1] bytes *)
Fixpoint i2c_receive (n : nat) : M (list Z) :=
  match n with
  | O => b ← i2c_read_byte false true; mret [b]
  | S n => b ← i2c_read_byte true false; l ← i2c_receive n; mret (b :: l)
  end.
Definition i2c_read (addr : Z) (reg : option Z) (n : nat) : M (list Z) :=
  match n with
  | O => fail Inval
  | S last =>
      match reg with
      | Some r => i2c_start addr false;; i2c_write_byte r false;; i2c_start addr true
      | None => i2c_start addr true
      end;;
      l ← i2c_receive last;
      attempt wait_not_busy;;
      mret l
  end.
(** The addresses put into a slice of [room] bytes *)
Fixpoint i2c_scan_loop (rounds : nat) (addr : Z) (room : nat) : M (list Z) :=
  match rounds, room with
  | O, _ | _, O => mret []
  | S rounds, S rest =>
      o ← attempt (i2c_start addr false);
      match o with
      | Some _ => i2c_wr R_CMD_STATUS STO;; l ← i2c_scan_loop rounds (addr + 1) rest; mret (addr :: l)
      | None => i2c_scan_loop rounds (addr + 1) room
      end
  end.
Definition i2c_scan (room : nat) : M (list Z) := i2c_scan_loop 127 1 room.
End I2c.

(** ** spi *)

Definition SPI_BASE : Z := 0x10040000.
Definition SPI_TIMEOUT : Z := 1000000.
Definition MAX_CS : Z := 4.
Definition R_SCKDIV : Z := 0x00.
Definition R_CSID : Z := 0x10.
Definition R_CSDEF : Z := 0x14.
Definition R_CSMODE : Z := 0x18.
Definition R_FMT : Z := 0x40.
Definition R_TXDATA : Z := 0x48.
Definition R_RXDATA : Z := 0x4C.
Definition R_TXMARK : Z := 0x50.
Definition R_RXMARK : Z := 0x54.
Definition R_FCTRL : Z := 0x60.
Definition TX_FULL : Z := 2147483648.
Definition RX_EMPTY : Z := 2147483648.
Definition CSMODE_AUTO : Z := 0.
Definition CSMODE_HOLD : Z := 2.
Definition FMT_PROTO_SPI : Z := 0.
Definition FMT_ENDIAN_MSB : Z := 0.
Definition FMT_LEN_8 : Z := Z.shiftl 8 16.

Section Spi.
Context {D : Type} `{!Device D}.
Abbreviation M := (DM Z D).

Definition spi_rd (off : Z) : M Z := b ← glob id; mmio_r 4 (b + off).
Definition spi_wr (off v : Z) : M unit := b ← glob id; mmio_w 4 (b + off) v.
Definition spi_init (base sckdiv cs : Z) : M unit :=
  set_glob (λ _, base);;
  spi_wr R_SCKDIV sckdiv;;
  spi_wr R_CSID cs;;
  spi_wr R_CSDEF (Z.shiftl 1 (cs mod 32));;
  spi_wr R_CSMODE CSMODE_AUTO;;
  spi_wr R_FMT (Z.lor (Z.lor FMT_PROTO_SPI FMT_ENDIAN_MSB) FMT_LEN_8);;
  spi_wr R_FCTRL 0;;
  spi_wr R_TXMARK 1;;
  spi_wr R_RXMARK 0.
Definition select (cs : Z) : M unit :=
  if MAX_CS <=? cs then fail Inval else spi_wr R_CSID cs;; spi_wr R_CSMODE CSMODE_HOLD.
Definition release : M unit := spi_wr R_CSMODE CSMODE_AUTO.

(** Send one byte and answer the one that comes back. *)
Definition exchange (b : Z) : M Z :=
  look_for (Z.to_nat SPI_TIMEOUT) Io (v ← spi_rd R_TXDATA; mret (if Z.land v TX_FULL =? 0 then Some tt else None));;
  spi_wr R_TXDATA b;;
  v ← look_for (Z.to_nat SPI_TIMEOUT) Io (v ← spi_rd R_RXDATA; mret (if Z.land v RX_EMPTY =? 0 then Some v else None));
  mret (w8 v).
(** [transfer] into a slice of [n] bytes *)
Definition transfer (tx : list Z) (n : nat) : M (list Z) :=
  if negb (length tx =? n)%nat || (length tx =? 0)%nat then fail Inval else answers tx exchange.
Definition spi_write (tx : list Z) : M unit :=
  match tx with [] => fail Inval | _ => answers tx exchange;; mret tt end.
(** The chunks of at most 64 bytes of a slice of [n] *)
Fixpoint chunk_loop (rounds : nat) (n : nat) : M (list Z) :=
  match rounds with
  | O => mret []
  | S rounds =>
      match n with
      | O => mret []
      | _ => let k := Nat.min n 64 in
          l ← transfer (replicate k 0) k; r ← chunk_loop rounds (n - k); mret (l ++ r)
      end
  end.
Definition spi_read (reg : Z) (n : nat) : M (list Z) := transfer [reg] 1;; chunk_loop n n.
End Spi.

(** ** i2s.rs *)

Definition I2S_BASE : Z := 0x03090000.
Definition R_IER : Z := 0x00.
Definition R_ITER : Z := 0x08.
Definition R_CER : Z := 0x0C.
Definition R_CCR : Z := 0x10.
Definition R_TXFFR : Z := 0x18.
Definition R_LTHR : Z := 0x40.
Definition R_RTHR : Z := 0x44.
Definition R_TFF : Z := 0x7C.
Definition IER_EN : Z := 1.
Definition ITER_EN : Z := 1.
Definition CER_EN : Z := 1.
Definition TFF_EMPTY : Z := 32.

(** [G_BASE], [G_RATE] *)
Record I2s := mkI2s { is_base : Z; is_rate : Z }.
Definition i2s_off : I2s := mkI2s I2S_BASE 44100.

Section I2s.
Context {D : Type} `{!Device D}.
Abbreviation M := (DM I2s D).

Definition i2s_rd (off : Z) : M Z := b ← glob is_base; mmio_r 4 (b + off).
Definition i2s_wr (off v : Z) : M unit := b ← glob is_base; mmio_w 4 (b + off) v.
Definition i2s_init (base rate mclk_div : Z) : M unit :=
  if (base =? 0) || (rate =? 0) then fail Inval else
  set_glob (λ _, mkI2s base rate);;
  i2s_wr R_IER IER_EN;;
  i2s_wr R_ITER ITER_EN;;
  i2s_wr R_CCR (Z.lor (Z.shiftl (Z.land mclk_div 0xFF) 16) 0x10);;
  i2s_wr R_TXFFR 0x3;;
  i2s_wr R_CER CER_EN.
(** A sample is a signed number of 16 bits. *)
Fixpoint sample_loop (samples : list Z) : M unit :=
  match samples with
  | l :: r :: samples =>
      t ← spin (Z.to_nat 1000000) (v ← i2s_rd R_TFF; mret (negb (Z.land v TFF_EMPTY =? 0)));
      if t =? 0 then fail Io else
      i2s_wr R_LTHR (Z.land (w32 l) 0xFFFF);;
      i2s_wr R_RTHR (Z.land (w32 r) 0xFFFF);;
      sample_loop samples
  | _ => mret tt
  end.
Definition write_samples (samples : list Z) : M unit :=
  if negb (len samples mod 2 =? 0) then fail Inval else sample_loop samples.
Definition mute : M unit := i2s_wr R_ITER 0.
Definition unmute : M unit := i2s_wr R_ITER ITER_EN.
Definition sample_rate : M Z := glob is_rate.
End I2s.

(** ** mipi_dsi.rs *)

Definition DSI_BASE : Z := 0x03070000.
Definition DPHY_BASE : Z := 0x03071000.
Definition R_DSI_VERSION : Z := 0x00.
Definition R_DSI_PWR_UP : Z := 0x04.
Definition R_DSI_CLKMGR_CFG : Z := 0x08.
Definition R_DSI_DPI_VCID : Z := 0x0C.
Definition R_DSI_DPI_COLOR : Z := 0x10.
Definition R_DSI_PCKHDL_CFG : Z := 0x18.
Definition R_DSI_VID_MODE_CFG : Z := 0x1C.
Definition R_DSI_CMD_MODE_CFG : Z := 0x20.
Definition R_DSI_VID_PKT_SIZE : Z := 0x24.
Definition R_DSI_VID_HSA : Z := 0x30.
Definition R_DSI_VID_HBP : Z := 0x34.
Definition R_DSI_VID_HLINE : Z := 0x38.
Definition R_DSI_VID_VSA : Z := 0x3C.
Definition R_DSI_VID_VBP : Z := 0x40.
Definition R_DSI_VID_VFP : Z := 0x44.
Definition R_DSI_VID_VACTIVE : Z := 0x48.
Definition R_DSI_CMD_PKT : Z := 0x80.
Definition R_DSI_CMD_PAYLOAD : Z := 0x84.

(** [G_DSI], [G_DPHY] *)
Record Dsi := mkDsi { ds_base : Z; ds_dphy : Z }.
Definition dsi_off : Dsi := mkDsi DSI_BASE DPHY_BASE.

Section Dsi.
Context {D : Type} `{!Device D}.
Abbreviation M := (DM Dsi D).

Definition dsi_rd (off : Z) : M Z := b ← glob ds_base; mmio_r 4 (b + off).
Definition dsi_wr (off v : Z) : M unit := b ← glob ds_base; mmio_w 4 (b + off) v.
Definition dsi_init (base dphy lane_mbps : Z) : M unit :=
  if base =? 0 then fail Inval else
  set_glob (λ _, mkDsi base dphy);;
  dsi_wr R_DSI_PWR_UP 0;; dsi_wr R_DSI_CLKMGR_CFG 0x10;; dsi_wr R_DSI_DPI_VCID 0;;
  dsi_wr R_DSI_DPI_COLOR 0x05;; dsi_wr R_DSI_PCKHDL_CFG 0x04;;
  dsi_wr R_DSI_VID_MODE_CFG 0x1F01;; dsi_wr R_DSI_CMD_MODE_CFG 0;;
  dsi_wr R_DSI_VID_PKT_SIZE 480;; dsi_wr R_DSI_VID_HSA 10;; dsi_wr R_DSI_VID_HBP 40;;
  dsi_wr R_DSI_VID_HLINE 540;; dsi_wr R_DSI_VID_VSA 4;; dsi_wr R_DSI_VID_VBP 12;;
  dsi_wr R_DSI_VID_VFP 16;; dsi_wr R_DSI_VID_VACTIVE 854;;
  dsi_wr R_DSI_PWR_UP 1.
Definition send_cmd (cmd : Z) : M unit := dsi_wr R_DSI_CMD_PKT (Z.lor (Z.shiftl cmd 8) 0x05).
Definition send_data (cmd : Z) (payload : list Z) : M unit :=
  if (len payload =? 0) || (32 <? len payload) then fail Inval else
  each payload (dsi_wr R_DSI_CMD_PAYLOAD);;
  dsi_wr R_DSI_CMD_PKT (Z.lor (Z.shiftl cmd 8) 0x39).
Definition dsi_version : M Z := dsi_rd R_DSI_VERSION.
End Dsi.

(** ** pci.rs and pcie.rs: configuration space *)

Definition ECAM_BASE : Z := 0x30000000.
Definition PCI_VENDOR_ID : Z := 0x00.
Definition PCI_CLASS_REV : Z := 0x08.
Definition PCI_BAR0 : Z := 0x10.
Definition MAX_BUSES : Z := 16.
Definition MAX_DEVS : Z := 32.
Definition MAX_FUNCS : Z := 8.
Definition MAX_RESULTS : Z := 32.
Definition cfg_addr (bus dev fun_ off : Z) : Z :=
  ECAM_BASE + Z.shiftl bus 20 + Z.shiftl dev 15 + Z.shiftl fun_ 12 + off.
(** [0..n] *)
Definition upto (n : Z) : list Z := Z.of_nat <$> seq 0 (Z.to_nat n).

Record PciDev := mkPciDev {
  pd_bus : Z; pd_dev : Z; pd_func : Z; pd_vendor : Z; pd_device : Z; pd_class : Z; pd_bar0 : Z }.
Definition no_pci : PciDev := mkPciDev 0 0 0 0 0 0 0.
(** [G_DEVS], [G_N] *)
Record Pcie := mkPcie { pe_devs : list PciDev; pe_n : Z }.
Definition pcie_off : Pcie := mkPcie (replicate (Z.to_nat MAX_RESULTS) no_pci) 0.

Section Pci.
Context {G D : Type} `{!Device D}.
Abbreviation M := (DM G D).

Definition cfg_rd (bus dev fun_ off : Z) : M Z := mmio_r 4 (cfg_addr bus dev fun_ off).
Definition cfg_wr (bus dev fun_ off v : Z) : M unit := mmio_w 4 (cfg_addr bus dev fun_ off) v.

(** One round of the loop over the BARs *)
Definition vga_bar (bus dev bar_idx : Z) : M (option Z) :=
  let off := PCI_BAR0 + bar_idx * 4 in
  val ← cfg_rd bus dev 0 off;
  if (val =? 0) || (val =? 0xFFFFFFFF) then mret None else
  if negb (Z.land val 1 =? 0) then mret None else
  if Z.land val 0x6 =? 0x4 then
    if 6 <=? bar_idx + 1 then mret None else
    hi ← cfg_rd bus dev 0 (off + 4);
    mret (Some (Z.lor (Z.land val 0xFFFFFFF0) (Z.shiftl hi 32)))
  else
    let fb_pa := Z.land val 0xFFFFFFF0 in
    mret (if fb_pa =? 0 then None else Some fb_pa).
Definition absent (v : Z) : bool := (v =? 0xFFFF) || (v =? 0).
Definition vga_dev (bus dev : Z) : M (option Z) :=
  ven ← cfg_rd bus dev 0 PCI_VENDOR_ID;
  if absent (Z.land ven 0xFFFF) then mret None else
  cls ← cfg_rd bus dev 0 PCI_CLASS_REV;
  if Z.shiftr (Z.shiftr cls 16) 8 =? 0x03 then first_some (upto 6) (vga_bar bus dev) else mret None.
Definition vga_bus (bus : Z) : M (option Z) :=
  probe ← cfg_rd bus 0 0 PCI_VENDOR_ID;
  if absent (Z.land probe 0xFFFF) then mret None else first_some (upto 32) (vga_dev bus).
Definition find_vga_fb : M Z :=
  o ← first_some (upto 16) vga_bus;
  match o with Some fb => mret fb | None => fail NoEnt end.

Definition read_bar (bus dev func bar_idx : Z) : M Z :=
  let off := 0x10 + bar_idx * 4 in
  lo ← cfg_rd bus dev func off;
  if (lo =? 0) || (lo =? 0xFFFFFFFF) then mret 0 else
  if (Z.land lo 1 =? 0) && (Z.land lo 0x6 =? 0x4) then
    hi ← cfg_rd bus dev func (off + 4);
    mret (Z.lor (Z.land lo 0xFFFFFFF0) (Z.shiftl hi 32))
  else if Z.land lo 1 =? 0 then mret (Z.land lo 0xFFFFFFF0)
  else mret (Z.land lo 0xFFFC).
End Pci.

Section Pcie.
Context {D : Type} `{!Device D}.
Abbreviation M := (DM Pcie D).

Definition record (d : PciDev) : M unit :=
  n ← glob pe_n;
  if n <? MAX_RESULTS then
    l ← glob pe_devs; l ← lift (set_idx l n d); set_glob (λ g, mkPcie l (n + 1))
  else mret tt.
(** The loop over the functions [funcs] of a device whose function 0 answered [v] *)
Fixpoint func_loop (bus dev v : Z) (funcs : list Z) : M unit :=
  match funcs with
  | [] => mret tt
  | func :: funcs =>
      skip ← (if 0 <? func then vt ← cfg_rd bus dev func 0x00; mret (Z.land vt 0xFFFF =? 0xFFFF) else mret false);
      if skip : bool then func_loop bus dev v funcs else
      class_raw ← cfg_rd bus dev func 0x08;
      bar0 ← read_bar bus dev func 0;
      record (mkPciDev bus dev func (Z.land v 0xFFFF) (Z.land (Z.shiftr v 16) 0xFFFF)
        (Z.land (Z.shiftr class_raw 16) 0xFFFF) bar0);;
      stop ← (if func =? 0 then h ← cfg_rd bus dev 0 0x0E; mret (Z.land h 0x80 =? 0) else mret false);
      if stop : bool then mret tt else func_loop bus dev v funcs
  end.
Definition scan_dev (bus dev : Z) : M unit :=
  v ← cfg_rd bus dev 0 0x00;
  let vendor := Z.land v 0xFFFF in
  if (vendor =? 0) || (vendor =? 0xFFFF) then mret tt else func_loop bus dev v (upto MAX_FUNCS).
Definition pcie_scan : M Z :=
  set_glob (λ g, mkPcie (pe_devs g) 0);;
  each (upto MAX_BUSES) (λ bus, each (upto MAX_DEVS) (scan_dev bus));;
  glob pe_n.
Definition pcie_count : M Z := glob pe_n.
Definition pcie_get (i : Z) : M PciDev :=
  n ← glob pe_n; if n <=? i then fail Range else l ← glob pe_devs; lift (idx l i).
End Pcie.

(** ** canaan_eth.rs *)

Definition DWMAC_BASE : Z := 0x03040000.
Definition MDIO_BASE : Z := 0x03041000.
Definition R_MAC_CFG : Z := 0x00.
Definition R_MAC_ADDR_LO : Z := 0x04.
Definition R_MAC_ADDR_HI : Z := 0x08.
Definition R_MAC_MII_ADDR : Z := 0x10.
Definition R_MAC_MII_DATA : Z := 0x14.
Definition MII_BUSY : Z := 1.
Definition MII_WRITE : Z := 2.

(** [G_BASE], [G_MDIO], [G_MAC] *)
Record Gmac := mkGmac { gm_base : Z; gm_mdio : Z; gm_mac : list Z }.
Definition gmac_off : Gmac := mkGmac DWMAC_BASE MDIO_BASE (zeros 6).

Section Gmac.
Context {D : Type} `{!Device D}.
Abbreviation M := (DM Gmac D).

Definition gmac_rd (off : Z) : M Z := b ← glob gm_base; mmio_r 4 (b + off).
Definition gmac_wr (off v : Z) : M unit := b ← glob gm_base; mmio_w 4 (b + off) v.
(** [mac] has six bytes. *)
Definition gmac_init (base mdio_base : Z) (mac : list Z) : M unit :=
  if base =? 0 then fail Inval else
  set_glob (λ _, mkGmac base mdio_base mac);;
  gmac_wr R_MAC_CFG 1;;
  spin (Z.to_nat 100000) (v ← gmac_rd R_MAC_CFG; mret (negb (Z.land v 1 =? 0)));;
  gmac_wr R_MAC_ADDR_LO (le_val (drop 4 mac));;
  gmac_wr R_MAC_ADDR_HI (le_val (take 4 mac));;
  gmac_wr R_MAC_CFG (Z.lor 2 (Z.lor 4 (Z.lor 8 (Z.lor 256 16384)))).
(** The address word, and the wait that both directions end with *)
Definition mii_addr (phy_addr reg : Z) : Z :=
  Z.lor (Z.lor (Z.shiftl (Z.land phy_addr 0x1F) 11) (Z.shiftl (Z.land reg 0x1F) 6)) (Z.shiftl 4 2).
Definition mii_wait : M unit :=
  t ← spin (Z.to_nat 100000) (v ← gmac_rd R_MAC_MII_ADDR; mret (negb (Z.land v MII_BUSY =? 0)));
  if t =? 0 then fail Io else mret tt.
Definition mdio_read (phy_addr reg : Z) : M Z :=
  let v := mii_addr phy_addr reg in
  gmac_wr R_MAC_MII_ADDR v;;
  gmac_wr R_MAC_MII_ADDR (Z.lor v MII_BUSY);;
  mii_wait;;
  d ← gmac_rd R_MAC_MII_DATA; mret (Z.land d 0xFFFF).
Definition mdio_write (phy_addr reg data : Z) : M unit :=
  let v := mii_addr phy_addr reg in
  gmac_wr R_MAC_MII_ADDR v;;
  gmac_wr R_MAC_MII_DATA data;;
  gmac_wr R_MAC_MII_ADDR (Z.lor v (Z.lor MII_BUSY MII_WRITE));;
  mii_wait.
Definition gmac_mac : M (list Z) := glob gm_mac.
End Gmac.
