(* ===== verification/Sdhci.v ===== *)
(** * kernel/src/drivers/sdhci: the SD card host controller

    regs.rs, cmd.rs, mod.rs and block.rs, as they are written; there are no theorems here.
    A buffer is an address in RAM; the sector buffer of [read_multi] and [write_multi] is
    on the stack, at [stack]. Delays have no effect.

    What the driver would do over a host controller of the SD standard is not stated,
    because it does not address one: the standard has Software Reset at 0x2F and the
    interrupt status registers at 0x30 and 0x32, where [SOFTWARE_RESET],
    [NORMAL_INT_STATUS] and [ERROR_INT_STATUS] are 0x38, 0x3C and 0x40. And [sd_read]
    waits for the end of the transfer before it takes the sector out of the buffer, which
    a controller reports only after that. *)

From S2P Require Import Prelude Pmm Bus Rand Console Soc.
From stdpp Require Import base list numbers gmap.
From Stdlib Require Import ZArith Lia.

Open Scope Z_scope.

(** ** regs.rs *)

Definition SDMAS_SYS_ADDR : Z := 0x00.
Definition BLOCK_SIZE : Z := 0x04.
Definition BLOCK_COUNT : Z := 0x06.
Definition ARGUMENT : Z := 0x08.
Definition TRANSFER_MODE : Z := 0x0C.
Definition COMMAND : Z := 0x0E.
Definition RESPONSE0 : Z := 0x10.
Definition BUFFER_DATA : Z := 0x20.
Definition PRESENT_STATE : Z := 0x24.
Definition HOST_CONTROL : Z := 0x28.
Definition POWER_CONTROL : Z := 0x2C.
Definition CLOCK_CONTROL : Z := 0x30.
Definition TIMEOUT_CONTROL : Z := 0x34.
Definition SOFTWARE_RESET : Z := 0x38.
Definition NORMAL_INT_STATUS : Z := 0x3C.
Definition ERROR_INT_STATUS : Z := 0x40.
Definition NORMAL_INT_STATUS_ENABLE : Z := 0x44.
Definition ERROR_INT_STATUS_ENABLE : Z := 0x48.
Definition PS_CMD_INHIBIT : Z := 1.
Definition PS_DAT_INHIBIT : Z := 2.
Definition PS_BUFFER_WRITE_ENABLE : Z := 1024.
Definition PS_BUFFER_READ_ENABLE : Z := 2048.
Definition PS_CARD_INSERTED : Z := 65536.
Definition PS_CARD_STATE_STABLE : Z := 131072.
Definition CMD_RESP_NONE : Z := 0.
Definition CMD_RESP_136 : Z := 1.
Definition CMD_RESP_48 : Z := 2.
Definition CMD_RESP_48_BUSY : Z := 3.
Definition CMD_CRC_ENABLE : Z := 8.
Definition CMD_INDEX_ENABLE : Z := 16.
Definition CMD_DATA_PRESENT : Z := 32.
Definition TM_READ : Z := 16.
Definition SW_RESET_ALL : Z := 1.
Definition SW_RESET_CMD : Z := 2.
Definition SW_RESET_DAT : Z := 4.
Definition INT_CMD_COMPLETE : Z := 1.
Definition INT_TRANSFER_COMPLETE : Z := 2.
Definition INT_ERROR : Z := 32768.
Definition CLK_INTERNAL_ENABLE : Z := 1.
Definition CLK_STABLE : Z := 2.
Definition CLK_SD_CLOCK_ENABLE : Z := 4.
Definition CLK_MAX_DIV : Z := 0x3FF.
Definition PWR_BUS_POWER : Z := 1.
Definition PWR_3_3V : Z := 14.
Definition HC_DATA_WIDTH_4BIT : Z := 2.
Definition HC_HIGH_SPEED : Z := 4.
Definition CMD_GO_IDLE_STATE : Z := 0.
Definition CMD_ALL_SEND_CID : Z := 2.
Definition CMD_SEND_RELATIVE_ADDR : Z := 3.
Definition CMD_SELECT_CARD : Z := 7.
Definition CMD_SEND_IF_COND : Z := 8.
Definition CMD_SEND_CSD : Z := 9.
Definition CMD_SET_BLOCKLEN : Z := 16.
Definition CMD_READ_SINGLE_BLOCK : Z := 17.
Definition CMD_READ_MULTIPLE_BLOCK : Z := 18.
Definition CMD_WRITE_SINGLE_BLOCK : Z := 24.
Definition CMD_WRITE_MULTIPLE_BLOCK : Z := 25.
Definition CMD_APP_CMD : Z := 55.
Definition ACMD_SD_SEND_OP_COND : Z := 41.
Definition SDHCI_SECTOR_SIZE : Z := 512.
Definition SDHCI_TIMEOUT : Z := 1000000.
Definition PLIC_PRIO_SDHCI : Z := 0x07.
(** What [send_command] answers when it fails *)
Definition NO_RESPONSE : Z := 0xFFFFFFFF.

(** [G_SDHCI], and the globals of the interrupt controller *)
Record SdhciDev := mkSdhciDev { sd_base : Z; sd_rca : Z; sd_initialized : bool; sd_irq : Z; sd_plic : Plic }.
Definition sdhci_off : SdhciDev := mkSdhciDev 0 0 false PLIC_PRIO_SDHCI plic_off.

(** [x & b != 0] *)
Definition flag (x b : Z) : bool := negb (Z.land x b =? 0).

Section Sdhci.
Context {D : Type} `{!Device D}.
Abbreviation M := (DM SdhciDev D).

Definition hc_r (base off : Z) : M Z := mmio_r 4 (base + off).
Definition hc_w (base off v : Z) : M unit := mmio_w 4 (base + off) v.
Definition hc_r16 (base off : Z) : M Z := mmio_r 2 (base + off).
Definition hc_w16 (base off v : Z) : M unit := mmio_w 2 (base + off) v.

(** ** mod.rs *)

(** The loops [while timeout > 0]: look [t] times at most until there is an answer. *)
Fixpoint poll_until {A} (t : nat) (look : M (option A)) : M (option A) :=
  match t with
  | O => mret None
  | S t => o ← look; match o with Some a => mret (Some a) | None => poll_until t look end
  end.
Definition timeout : nat := Z.to_nat SDHCI_TIMEOUT.

Definition wait_idle (base : Z) : M unit :=
  poll_until timeout (ps ← hc_r base PRESENT_STATE;
    mret (if flag ps (Z.lor PS_CMD_INHIBIT PS_DAT_INHIBIT) then None else Some tt));;
  mret tt.
Definition wait_state (base bit : Z) : M bool :=
  o ← poll_until timeout (ps ← hc_r base PRESENT_STATE; mret (if flag ps bit then Some tt else None));
  mret (bool_decide (o = Some tt)).
Definition sd_reset (base bits : Z) : M unit :=
  hc_w base SOFTWARE_RESET bits;;
  poll_until timeout (v ← hc_r base SOFTWARE_RESET; mret (if flag v bits then None else Some tt));;
  mret tt.
Definition clear_interrupts (base : Z) : M unit :=
  norm ← hc_r base NORMAL_INT_STATUS;
  hc_w base NORMAL_INT_STATUS norm;;
  err ← hc_r base ERROR_INT_STATUS;
  hc_w base ERROR_INT_STATUS err.

(** The divider that [init_clock] chooses *)
Definition clock_div (base_clk_mhz : Z) : Z :=
  if (0 <? base_clk_mhz) && (50 <? base_clk_mhz) then
    let d := base_clk_mhz / (2 * 50) in
    if d =? 0 then 1 else Z.min d CLK_MAX_DIV
  else 1.
Definition init_clock (base : Z) : M unit :=
  caps0 ← hc_r base 0x40;
  let div := clock_div (Z.land (Z.shiftr caps0 8) 0xFF) in
  hc_w base CLOCK_CONTROL 0;;
  let clk_val := Z.lor (Z.shiftl div 8) CLK_INTERNAL_ENABLE in
  hc_w base CLOCK_CONTROL clk_val;;
  poll_until timeout (v ← hc_r base CLOCK_CONTROL; mret (if flag v CLK_STABLE then Some tt else None));;
  hc_w base CLOCK_CONTROL (Z.lor clk_val CLK_SD_CLOCK_ENABLE).
Definition set_power (base : Z) : M unit :=
  hc_w base POWER_CONTROL PWR_3_3V;;
  hc_w base POWER_CONTROL (Z.lor PWR_3_3V PWR_BUS_POWER).
Definition set_sdma_addr (base addr : Z) : M unit := hc_w base SDMAS_SYS_ADDR (w32 addr).

(** One look at the interrupts: an error ends the wait, and so does [done]. *)
Definition look_int (base done : Z) : M (option bool) :=
  istat ← hc_r base NORMAL_INT_STATUS;
  if flag istat INT_ERROR then mret (Some false)
  else if flag istat done then hc_w base NORMAL_INT_STATUS done;; mret (Some true)
  else mret None.
(** [bits] are the lines reset on a failure; an error is cleared first. *)
Definition wait_int (base done bits : Z) : M bool :=
  o ← poll_until timeout (look_int base done);
  match o with
  | Some true => mret true
  | Some false => clear_interrupts base;; sd_reset base bits;; mret false
  | None => sd_reset base bits;; mret false
  end.
Definition wait_transfer_complete (base : Z) : M bool := wait_int base INT_TRANSFER_COMPLETE SW_RESET_DAT.

(** ** cmd.rs *)

(** The flags that a command adds to those of its response type *)
Definition command_flags (cmd_idx : Z) : Z :=
  if cmd_idx =? CMD_GO_IDLE_STATE then 0
  else if (cmd_idx =? CMD_ALL_SEND_CID) || (cmd_idx =? CMD_SEND_CSD) then CMD_CRC_ENABLE
  else if (cmd_idx =? CMD_SEND_IF_COND) || (cmd_idx =? CMD_APP_CMD) then Z.lor CMD_CRC_ENABLE CMD_INDEX_ENABLE
  else if cmd_idx =? CMD_SEND_RELATIVE_ADDR then Z.lor CMD_CRC_ENABLE CMD_INDEX_ENABLE
  else if cmd_idx =? CMD_SELECT_CARD then Z.lor CMD_CRC_ENABLE CMD_INDEX_ENABLE
  else if cmd_idx =? CMD_SET_BLOCKLEN then Z.lor CMD_CRC_ENABLE CMD_INDEX_ENABLE
  else if (cmd_idx =? CMD_READ_SINGLE_BLOCK) || (cmd_idx =? CMD_READ_MULTIPLE_BLOCK) then Z.lor CMD_CRC_ENABLE CMD_INDEX_ENABLE
  else if (cmd_idx =? CMD_WRITE_SINGLE_BLOCK) || (cmd_idx =? CMD_WRITE_MULTIPLE_BLOCK) then Z.lor CMD_CRC_ENABLE CMD_INDEX_ENABLE
  else 0.
Definition command_word (cmd_idx resp_type : Z) (has_data : bool) : Z :=
  Z.lor (Z.lor (Z.lor (Z.shiftl (Z.land cmd_idx 0x3F) 8) resp_type) (if has_data then CMD_DATA_PRESENT else 0))
    (command_flags cmd_idx).

Definition send_command (base cmd_idx arg resp_type : Z) (has_data : bool) : M Z :=
  wait_idle base;;
  clear_interrupts base;;
  ps ← hc_r base PRESENT_STATE;
  (if flag ps PS_CMD_INHIBIT then sd_reset base SW_RESET_CMD else mret tt);;
  (if has_data then hc_w16 base BLOCK_SIZE SDHCI_SECTOR_SIZE;; hc_w16 base BLOCK_COUNT 1 else mret tt);;
  hc_w base ARGUMENT arg;;
  hc_w16 base COMMAND (command_word cmd_idx resp_type has_data);;
  ok ← wait_int base INT_CMD_COMPLETE SW_RESET_CMD;
  if negb ok then mret NO_RESPONSE else hc_r base RESPONSE0.

Definition R48 : Z := Z.lor CMD_RESP_48 (Z.lor CMD_CRC_ENABLE CMD_INDEX_ENABLE).

(** The loop of [retries] *)
Fixpoint op_cond_loop (retries : nat) (base ocr : Z) : M bool :=
  match retries with
  | O => mret false
  | S retries =>
      rca55 ← send_command base CMD_APP_CMD 0 R48 false;
      if rca55 =? NO_RESPONSE then op_cond_loop retries base ocr else
      resp41 ← send_command base ACMD_SD_SEND_OP_COND ocr (Z.lor CMD_RESP_48 CMD_CRC_ENABLE) false;
      if negb (resp41 =? NO_RESPONSE) && flag resp41 2147483648 then mret true else op_cond_loop retries base ocr
  end.

Definition card_init (base : Z) : M (option Z) :=
  send_command base CMD_GO_IDLE_STATE 0 CMD_RESP_NONE false;;
  resp8 ← send_command base CMD_SEND_IF_COND 0x000001AA R48 false;
  let sd_v2 := negb (resp8 =? NO_RESPONSE) && (Z.land resp8 0xFF =? 0xAA) in
  ok ← op_cond_loop (Z.to_nat 2000) base (if sd_v2 then 0x40FF8000 else 0x00FF8000);
  if negb ok then mret None else
  send_command base CMD_ALL_SEND_CID 0 (Z.lor CMD_RESP_136 CMD_CRC_ENABLE) false;;
  resp3 ← send_command base CMD_SEND_RELATIVE_ADDR 0 R48 false;
  if resp3 =? NO_RESPONSE then mret None else
  let rca := Z.shiftr resp3 16 in
  send_command base CMD_SEND_CSD (w32 (Z.shiftl rca 16)) (Z.lor CMD_RESP_136 CMD_CRC_ENABLE) false;;
  resp7 ← send_command base CMD_SELECT_CARD (w32 (Z.shiftl rca 16))
    (Z.lor CMD_RESP_48_BUSY (Z.lor CMD_CRC_ENABLE CMD_INDEX_ENABLE)) false;
  if resp7 =? NO_RESPONSE then mret None else
  resp16 ← send_command base CMD_SET_BLOCKLEN SDHCI_SECTOR_SIZE R48 false;
  if resp16 =? NO_RESPONSE then mret None else
  hc_w base HOST_CONTROL (Z.lor HC_DATA_WIDTH_4BIT HC_HIGH_SPEED);;
  mret (Some rca).

(** ** mod.rs: probing and setting up *)

Definition sdhci_probe (base : Z) : M bool :=
  version ← hc_r16 base 0xFE;
  if version =? 0 then mret false else
  caps ← hc_r base 0x40;
  if negb (Z.land (Z.shiftr caps 30) 0x3 =? 0) then mret false else
  sd_reset base SW_RESET_ALL;;
  ps ← hc_r base PRESENT_STATE;
  mret (flag ps PS_CARD_INSERTED).

Definition sdhci_init (base irq : Z) : M bool :=
  sd_reset base SW_RESET_ALL;;
  hc_w base NORMAL_INT_STATUS_ENABLE 0xFFFF;;
  hc_w base ERROR_INT_STATUS_ENABLE 0xFFFF;;
  init_clock base;;
  set_power base;;
  ok ← wait_state base PS_CARD_STATE_STABLE;
  if negb ok then mret false else
  hc_w base TIMEOUT_CONTROL 0x0E;;
  o ← card_init base;
  match o with
  | None => mret false
  | Some rca =>
      set_glob (λ g, mkSdhciDev base rca true irq (sd_plic g));;
      zoom sd_plic (λ p g, mkSdhciDev (sd_base g) (sd_rca g) (sd_initialized g) (sd_irq g) p)
        (set_priority irq 5;; plic_enable irq 0);;
      mret true
  end.

Definition irq_handler : M unit :=
  g ← glob id;
  if negb (sd_initialized g) then mret tt else
  istat ← hc_r (sd_base g) NORMAL_INT_STATUS;
  hc_w (sd_base g) NORMAL_INT_STATUS istat;;
  err ← hc_r (sd_base g) ERROR_INT_STATUS;
  if negb (err =? 0) then hc_w (sd_base g) ERROR_INT_STATUS err else mret tt.
Definition is_initialized : M bool := glob sd_initialized.
Definition base_addr : M Z := glob sd_base.

(** ** block.rs *)

(** The indices of the words of a sector *)
Definition word_offsets : list Z := (λ i, 4 * Z.of_nat i) <$> seq 0 128.

Definition sd_read (lba buf : Z) : M bool :=
  g ← glob id;
  if negb (sd_initialized g) then mret false else
  let base := sd_base g in
  wait_idle base;;
  hc_w16 base BLOCK_SIZE SDHCI_SECTOR_SIZE;;
  hc_w16 base BLOCK_COUNT 1;;
  set_sdma_addr base buf;;
  hc_w16 base TRANSFER_MODE TM_READ;;
  resp ← send_command base CMD_READ_SINGLE_BLOCK (w32 lba) R48 true;
  if resp =? NO_RESPONSE then mret false else
  ready ← wait_state base PS_BUFFER_READ_ENABLE;
  if negb ready then sd_reset base SW_RESET_DAT;; mret false else
  complete ← wait_transfer_complete base;
  if negb complete then mret false else
  ps ← hc_r base PRESENT_STATE;
  (if flag ps PS_BUFFER_READ_ENABLE then
     each word_offsets (λ i, w ← hc_r base BUFFER_DATA; ram_put (buf + i) (le_bytes 4 w))
   else mret tt);;
  mret true.

Definition sd_write (lba buf : Z) : M bool :=
  g ← glob id;
  if negb (sd_initialized g) then mret false else
  let base := sd_base g in
  wait_idle base;;
  hc_w16 base BLOCK_SIZE SDHCI_SECTOR_SIZE;;
  hc_w16 base BLOCK_COUNT 1;;
  set_sdma_addr base buf;;
  clear_interrupts base;;
  hc_w16 base TRANSFER_MODE 0;;
  resp ← send_command base CMD_WRITE_SINGLE_BLOCK (w32 lba) R48 true;
  if resp =? NO_RESPONSE then mret false else
  ready ← wait_state base PS_BUFFER_WRITE_ENABLE;
  if negb ready then sd_reset base SW_RESET_DAT;; mret false else
  ps ← hc_r base PRESENT_STATE;
  (if flag ps PS_BUFFER_WRITE_ENABLE then
     each word_offsets (λ i, w ← ram_r 4 (buf + i); hc_w base BUFFER_DATA w)
   else mret tt);;
  wait_transfer_complete base.

Fixpoint sd_read_loop (n : nat) (i : Z) (lba buf stack : Z) : M bool :=
  match n with
  | O => mret true
  | S n =>
      ok ← sd_read (lba + i) stack;
      if negb ok then mret false else
      l ← ram_bytes stack 512; ram_put (buf + i * SDHCI_SECTOR_SIZE) l;;
      sd_read_loop n (i + 1) lba buf stack
  end.
Definition sd_read_multi (lba n_sectors buf stack : Z) : M bool :=
  ram_put stack (zeros 512);; sd_read_loop (Z.to_nat n_sectors) 0 lba buf stack.
Fixpoint sd_write_loop (n : nat) (i : Z) (lba buf stack : Z) : M bool :=
  match n with
  | O => mret true
  | S n =>
      l ← ram_bytes (buf + i * SDHCI_SECTOR_SIZE) 512; ram_put stack l;;
      ok ← sd_write (lba + i) stack;
      if negb ok then mret false else sd_write_loop n (i + 1) lba buf stack
  end.
Definition sd_write_multi (lba n_sectors buf stack : Z) : M bool :=
  ram_put stack (zeros 512);; sd_write_loop (Z.to_nat n_sectors) 0 lba buf stack.
End Sdhci.
