(* ===== verification/Asm.v ===== *)
(** * kernel/src/arch/asm, arch/csr.rs, arch/smp.rs: the code below the kernel

    The assembly of trap_asm.rs and boot.rs is data: a list of the instructions of the text,
    in order, with the meaning the RISC-V manuals give them. Registers hold 64 bits. Memory
    is accessed in doublewords only; [c_mem] maps the address of one to its value. A
    control register keeps what is written to it. Fences and the translation of addresses
    have no effect: the kernel is mapped alike in every address space. [c_pc] is where the
    hart goes on when it leaves the code. *)

From S2P Require Import Prelude Process Sched Ipc Machine VfsProps Syscall Trap TrapThms Bus Console.
From stdpp Require Import base list numbers gmap.
From Stdlib Require Import ZArith Lia.

Open Scope Z_scope.

(** ** Harts *)

Inductive reg :=
  | X0 | Ra | Sp | Gp | Tp | T0 | T1 | T2 | S0 | S1 | A0 | A1 | A2 | A3 | A4 | A5 | A6 | A7
  | S2 | S3 | S4 | S5 | S6 | S7 | S8 | S9 | S10 | S11 | T3 | T4 | T5 | T6.
Inductive csr :=
  | SStatus | SEpc | SScratch | SAtp | SIe | STvec | SCause | STval
  | MHartid | MStatus | MEpc | MEdeleg | MIdeleg | MIe | PmpAddr0 | PmpCfg0 | Cycle | Time | Instret.
Inductive Mode := User | Supervisor | MachineMode.

Scheme Boolean Equality for reg.
Scheme Boolean Equality for csr.

Record Cpu := mkCpu { c_regs : reg → Z; c_csrs : csr → Z; c_mem : Z → Z; c_mode : Mode; c_pc : Z }.
Definition set_reg (r : reg) (v : Z) (c : Cpu) : Cpu :=
  mkCpu (λ x, if reg_beq x r && negb (reg_beq r X0) then v else c_regs c x) (c_csrs c) (c_mem c) (c_mode c) (c_pc c).
Definition set_csr (r : csr) (v : Z) (c : Cpu) : Cpu :=
  mkCpu (c_regs c) (λ x, if csr_beq x r then v else c_csrs c x) (c_mem c) (c_mode c) (c_pc c).
Definition set_mem (a v : Z) (c : Cpu) : Cpu :=
  mkCpu (c_regs c) (c_csrs c) (λ x, if x =? a then v else c_mem c x) (c_mode c) (c_pc c).
Definition go_to (m : Mode) (pc : Z) (c : Cpu) : Cpu := mkCpu (c_regs c) (c_csrs c) (c_mem c) m pc.

(** [x & m != 0], [x & !m] of 64 bits *)
Definition has_bit (x m : Z) : bool := negb (Z.land x m =? 0).
Definition clear64 (x m : Z) : Z := Z.land x (18446744073709551615 - m).

(** ** csr.rs: a function per instruction *)

Definition csr_read (r : csr) (c : Cpu) : Z := c_csrs c r.
Definition csr_write (r : csr) (v : Z) (c : Cpu) : Cpu := set_csr r v c.
Definition csr_set (r : csr) (m : Z) (c : Cpu) : Cpu := set_csr r (Z.lor (c_csrs c r) m) c.
Definition csr_clear (r : csr) (m : Z) (c : Cpu) : Cpu := set_csr r (clear64 (c_csrs c r) m) c.

Definition read_sstatus : Cpu → Z := csr_read SStatus.
Definition write_sstatus : Z → Cpu → Cpu := csr_write SStatus.
Definition set_sstatus : Z → Cpu → Cpu := csr_set SStatus.
Definition clear_sstatus : Z → Cpu → Cpu := csr_clear SStatus.
Definition read_sepc : Cpu → Z := csr_read SEpc.
Definition write_sepc : Z → Cpu → Cpu := csr_write SEpc.
Definition read_scause : Cpu → Z := csr_read SCause.
Definition read_stval : Cpu → Z := csr_read STval.
Definition read_satp : Cpu → Z := csr_read SAtp.
Definition write_satp : Z → Cpu → Cpu := csr_write SAtp.
Definition write_stvec : Z → Cpu → Cpu := csr_write STvec.
Definition read_sie : Cpu → Z := csr_read SIe.
Definition set_sie : Z → Cpu → Cpu := csr_set SIe.
Definition clear_sie : Z → Cpu → Cpu := csr_clear SIe.
Definition write_sscratch : Z → Cpu → Cpu := csr_write SScratch.
Definition read_mhartid : Cpu → Z := csr_read MHartid.
Definition read_cycle : Cpu → Z := csr_read Cycle.
Definition read_time : Cpu → Z := csr_read Time.
Definition read_instret : Cpu → Z := csr_read Instret.

(** ** Instructions *)

Inductive instr :=
  | Csrrw (rd : reg) (r : csr) (rs : reg) | Csrr (rd : reg) (r : csr) | Csrw (r : csr) (rs : reg)
  | Csrs (r : csr) (rs : reg) | Csrc (r : csr) (rs : reg)
  | Addi (rd rs : reg) (imm : Z) | Li (rd : reg) (v : Z) | La (rd : reg) (a : Z) | Mv (rd rs : reg)
  | And (rd rs1 rs2 : reg) | Or (rd rs1 rs2 : reg) | Srli (rd rs : reg) (sh : Z)
  | Sd (rs : reg) (off : Z) (base : reg) | Ld (rd : reg) (off : Z) (base : reg)
  | Sfence_vma | Sret | Mret.

Definition SIE : Z := 2.
Definition SPIE : Z := 32.
Definition SPP : Z := 256.
Definition MIE : Z := 8.
Definition MPIE : Z := 128.
Definition MPP_S : Z := 2048.
Definition MPP : Z := 6144.

(** [sret]: interrupts as before the trap, the mode that was interrupted, and user mode
    for the next time *)
Definition exec_sret (c : Cpu) : Cpu :=
  let s := c_csrs c SStatus in
  let s' := Z.lor (clear64 s (SIE + SPIE + SPP)) (SPIE + (if has_bit s SPIE then SIE else 0)) in
  go_to (if has_bit s SPP then Supervisor else User) (c_csrs c SEpc) (set_csr SStatus s' c).
(** The mode that [MPP] names *)
Definition mode_of (s : Z) : Mode :=
  if Z.land s MPP =? MPP then MachineMode else if Z.land s MPP =? MPP_S then Supervisor else User.
Definition exec_mret (c : Cpu) : Cpu :=
  let s := c_csrs c MStatus in
  let s' := Z.lor (clear64 s (MIE + MPIE + MPP)) (MPIE + (if has_bit s MPIE then MIE else 0)) in
  go_to (mode_of s) (c_csrs c MEpc) (set_csr MStatus s' c).

Definition exec (i : instr) (c : Cpu) : Cpu :=
  match i with
  | Csrrw rd r rs => set_reg rd (c_csrs c r) (set_csr r (c_regs c rs) c)
  | Csrr rd r => set_reg rd (c_csrs c r) c
  | Csrw r rs => set_csr r (c_regs c rs) c
  | Csrs r rs => set_csr r (Z.lor (c_csrs c r) (c_regs c rs)) c
  | Csrc r rs => set_csr r (clear64 (c_csrs c r) (c_regs c rs)) c
  | Addi rd rs imm => set_reg rd (w64 (c_regs c rs + imm)) c
  | Li rd v | La rd v => set_reg rd (w64 v) c
  | Mv rd rs => set_reg rd (c_regs c rs) c
  | And rd rs1 rs2 => set_reg rd (Z.land (c_regs c rs1) (c_regs c rs2)) c
  | Or rd rs1 rs2 => set_reg rd (Z.lor (c_regs c rs1) (c_regs c rs2)) c
  | Srli rd rs sh => set_reg rd (Z.shiftr (c_regs c rs) sh) c
  | Sd rs off base => set_mem (w64 (c_regs c base + off)) (c_regs c rs) c
  | Ld rd off base => set_reg rd (c_mem c (w64 (c_regs c base + off))) c
  | Sfence_vma => c
  | Sret => exec_sret c
  | Mret => exec_mret c
  end.
Fixpoint run (l : list instr) (c : Cpu) : Cpu :=
  match l with [] => c | i :: l => run l (exec i c) end.

(** ** trap_asm.rs *)

(** Up to the call of [trap_handler] *)
Definition trap_entry : list instr := [
  Csrrw Sp SScratch Sp; Addi Sp Sp (-288);
  Sd T0 32 Sp; Csrr T0 SScratch; Sd T0 8 Sp;
  Sd Ra 0 Sp; Sd Gp 16 Sp; Sd Tp 24 Sp; Sd T1 40 Sp; Sd T2 48 Sp; Sd S0 56 Sp; Sd S1 64 Sp;
  Sd A0 72 Sp; Sd A1 80 Sp; Sd A2 88 Sp; Sd A3 96 Sp; Sd A4 104 Sp; Sd A5 112 Sp; Sd A6 120 Sp; Sd A7 128 Sp;
  Sd S2 136 Sp; Sd S3 144 Sp; Sd S4 152 Sp; Sd S5 160 Sp; Sd S6 168 Sp; Sd S7 176 Sp; Sd S8 184 Sp; Sd S9 192 Sp;
  Sd S10 200 Sp; Sd S11 208 Sp; Sd T3 216 Sp; Sd T4 224 Sp; Sd T5 232 Sp; Sd T6 240 Sp;
  Li T0 (Z.shiftl 1 18); Csrs SStatus T0;
  Csrr T0 SEpc; Sd T0 248 Sp; Csrr T0 SStatus; Sd T0 256 Sp; Csrr T0 SAtp; Sd T0 280 Sp;
  Mv A0 Sp].

Definition trap_return : list instr := [
  Ld Ra 0 Sp; Ld Gp 16 Sp; Ld Tp 24 Sp; Ld T0 32 Sp; Ld T1 40 Sp; Ld T2 48 Sp; Ld S0 56 Sp; Ld S1 64 Sp;
  Ld A0 72 Sp; Ld A1 80 Sp; Ld A2 88 Sp; Ld A3 96 Sp; Ld A4 104 Sp; Ld A5 112 Sp; Ld A6 120 Sp; Ld A7 128 Sp;
  Ld S2 136 Sp; Ld S3 144 Sp; Ld S4 152 Sp; Ld S5 160 Sp; Ld S6 168 Sp; Ld S7 176 Sp; Ld S8 184 Sp; Ld S9 192 Sp;
  Ld S10 200 Sp; Ld S11 208 Sp; Ld T3 216 Sp; Ld T4 224 Sp; Ld T5 232 Sp; Ld T6 240 Sp;
  Ld T0 248 Sp; Csrw SEpc T0;
  Ld T0 256 Sp; Li T1 (-1 - Z.shiftl 1 1); And T0 T0 T1; Csrw SStatus T0;
  Addi T1 Sp 288; Csrw SScratch T1;
  Ld T0 8 Sp; Ld T1 280 Sp; Csrw SAtp T1; Sfence_vma; Mv Sp T0; Sret].

Definition sched_switch : list instr := Mv Sp A0 :: trap_return.

Definition drop_to_user : list instr := [
  Csrw SScratch Sp;
  Li T0 (Z.lor (Z.shiftl 1 1) (Z.shiftl 1 8)); Csrc SStatus T0;
  Li T0 (Z.lor (Z.shiftl 1 5) (Z.shiftl 1 18)); Csrs SStatus T0;
  Li T0 (Z.lor (Z.shiftl 1 1) (Z.shiftl 1 9)); Csrs SIe T0;
  Li T0 (Z.shiftl 8 60); Srli T1 A2 12; Or T0 T0 T1; Csrw SAtp T0; Sfence_vma;
  Csrw SEpc A0; Mv Sp A1;
  Li A0 0; Li A1 0; Li A2 0; Li A3 0; Li A4 0; Li A5 0; Li A6 0; Li A7 0;
  Li T0 0; Li T1 0; Li T2 0; Li T3 0; Li T4 0; Li T5 0; Li T6 0;
  Sret].

(** A trap: what the hart does on its own, the entry, the handler and the return. The
    handler is called as Rust code is: it leaves [sp] as it finds it. *)
Definition take_trap (cause tval : Z) (c : Cpu) : Cpu :=
  let s := c_csrs c SStatus in
  let s' := Z.lor (clear64 s (SIE + SPIE + SPP))
              ((if has_bit s SIE then SPIE else 0) + (match c_mode c with User => 0 | _ => SPP end)) in
  go_to Supervisor (c_csrs c STvec)
    (set_csr SStatus s' (set_csr SEpc (c_pc c) (set_csr SCause cause (set_csr STval tval c)))).
Definition trap_vector (handler : Cpu → Cpu) (c : Cpu) : Cpu := run trap_return (handler (run trap_entry c)).

(** The frame at an address *)
Definition frame_at (m : Z → Z) (a : Z) : TrapFrame :=
  let f i := m (w64 (a + 8 * i)) in
  mkTrapFrame (f 0) (f 1) (f 2) (f 3) (f 4) (f 5) (f 6) (f 7) (f 8) (f 9) (f 10) (f 11) (f 12) (f 13) (f 14) (f 15)
    (f 16) (f 17) (f 18) (f 19) (f 20) (f 21) (f 22) (f 23) (f 24) (f 25) (f 26) (f 27) (f 28) (f 29) (f 30) (f 31)
    (f 32) (f 33) (f 34) (f 35).
Definition tf_reg (f : TrapFrame) (r : reg) : Z :=
  match r with
  | X0 => 0 | Ra => tf_ra f | Sp => tf_sp f | Gp => tf_gp f | Tp => tf_tp f
  | T0 => tf_t0 f | T1 => tf_t1 f | T2 => tf_t2 f | S0 => tf_s0 f | S1 => tf_s1 f
  | A0 => tf_a0 f | A1 => tf_a1 f | A2 => tf_a2 f | A3 => tf_a3 f
  | A4 => tf_a4 f | A5 => tf_a5 f | A6 => tf_a6 f | A7 => tf_a7 f
  | S2 => tf_s2 f | S3 => tf_s3 f | S4 => tf_s4 f | S5 => tf_s5 f | S6 => tf_s6 f
  | S7 => tf_s7 f | S8 => tf_s8 f | S9 => tf_s9 f | S10 => tf_s10 f | S11 => tf_s11 f
  | T3 => tf_t3 f | T4 => tf_t4 f | T5 => tf_t5 f | T6 => tf_t6 f
  end.

(** What [handle] works on: the frame it is given, and the number that [hart_id] reads
    from [tp] *)
Definition set_m_hart (v : Z) (s : Machine) : Machine :=
  mkMachine v (m_proc_size s) (m_ipc s) (m_vm s) (m_heap s) (m_fs s) (m_fat s) (m_kfds s) (m_mounts s) (m_root_fs s)
    (m_dir s) (m_procbuf s) (m_upticks s) (m_online s) (m_uart_in s) (m_uart_out s) (m_tf s) (m_net s) (m_tick_polls s).
Definition current_hart (c : Cpu) : Z := c_regs c Tp.
Definition enter (c : Cpu) (s : Machine) : Machine :=
  set_m_hart (current_hart c) (set_m_tf (frame_at (c_mem c) (c_regs c A0)) s).

(** ** boot.rs *)

(** Addresses that the linker gives *)
Record Syms := mkSyms {
  sy_saved_hartid : Z; sy_saved_fdt : Z; sy_bss_start : Z; sy_bss_end : Z; sy_stack_top : Z; sy_kmain : Z;
  sy_secondary_entry : Z; sy_secondary_kmain : Z; sy_trap_entry : Z; sy_sec_stacks : Z }.

Section Boot.
Context (y : Syms).

Definition boot_save : list instr := [La T0 (sy_saved_hartid y); Sd Tp 0 T0; La T0 (sy_saved_fdt y); Sd A1 0 T0].
(** The loop at label 1: it ends at the end of the section. *)
Fixpoint bss_loop (fuel : nat) (c : Cpu) : result Cpu :=
  match fuel with
  | O => Panic
  | S fuel => if c_regs c T1 <=? c_regs c T0 then Ok c else bss_loop fuel (run [Sd X0 0 T0; Addi T0 T0 8] c)
  end.
Definition bits (l : list Z) : Z := foldr Z.lor 0 (Z.shiftl 1 <$> l).
Definition boot_rest : list instr := [
  La Sp (sy_stack_top y);
  Li T0 0x3FFFFFFF; Csrw PmpAddr0 T0; Li T0 0x9F; Csrw PmpCfg0 T0;
  Li T0 (bits [0; 2; 3; 5; 7; 8; 9; 12; 13; 15]); Csrw MEdeleg T0;
  Li T0 (bits [1; 5; 9]); Csrw MIdeleg T0; Csrw MIe X0;
  Li T0 (Z.shiftl 1 11); Csrs MStatus T0; Li T0 (Z.shiftl 1 7); Csrc MStatus T0;
  La T0 (sy_kmain y); Csrw MEpc T0;
  La T0 (sy_saved_hartid y); Ld A0 0 T0; La T0 (sy_saved_fdt y); Ld A1 0 T0;
  Csrw SAtp X0; Mret].
Definition park (c : Cpu) : Cpu := let c := exec (La T0 (sy_secondary_entry y)) c in go_to (c_mode c) (c_regs c T0) c.
Definition start (fuel : nat) (c : Cpu) : result Cpu :=
  let c := exec (Csrr Tp MHartid) c in
  if negb (c_regs c Tp =? 0) then Ok (park c) else
  let c := run boot_save c in
  let c := run [La T0 (sy_bss_start y); La T1 (sy_bss_end y)] c in
  c ← bss_loop fuel c;
  Ok (run boot_rest c).

(** ** smp.rs *)

Definition SEC_STACK_SIZE : Z := 4096.
(** [G_ONLINE_HARTS], [G_RELEASE], [G_KERNEL_ROOT_PA], [G_CPU_ONLINE] *)
Record Smp := mkSmp { sm_online : Z; sm_release : Z; sm_root : Z; sm_cpus : list bool }.
Definition smp_off : Smp := mkSmp 1 0 0 (true :: replicate 7 false).

Definition cpu_online (hart : Z) (s : Smp) : result bool := idx (sm_cpus s) hart.
Definition set_cpu_online (hart : Z) (v : bool) (s : Smp) : result Smp :=
  l ← set_idx (sm_cpus s) hart v; Ok (mkSmp (sm_online s) (sm_release s) (sm_root s) l).
Definition release_secondary_harts (s : Smp) : Smp := mkSmp (sm_online s) 1 (sm_root s) (sm_cpus s).
Definition online_harts (s : Smp) : Z := sm_online s.

(** The block of [secondary_entry]; the compiler chooses the registers of the operands. *)
Definition secondary_asm (r0 r1 r2 : reg) : list instr := [
  Mv Sp r0; Csrw MEpc r1; Li T0 (Z.shiftl 1 11); Csrs MStatus T0; Li T0 (Z.shiftl 1 12); Csrc MStatus T0;
  Li T0 (Z.shiftl 1 7); Csrc MStatus T0; Csrw SAtp r2; Sfence_vma; Mret].
(** [looks] is what the reads of [G_RELEASE] answer; a hart that is never released stays. *)
Definition secondary_entry (r0 r1 r2 : reg) (looks : list Z) (s : Smp) (c : Cpu) : result Cpu :=
  let hartid := current_hart c in
  if forallb (Z.eqb 0) looks then Panic else
  let sp := w64 (sy_sec_stacks y + (hartid + 1) * SEC_STACK_SIZE) in
  let root_pa := sm_root s in
  let satp := if negb (root_pa =? 0) then Z.lor (w64 (Z.shiftl 8 60)) (Z.shiftr root_pa 12) else 0 in
  Ok (run (secondary_asm r0 r1 r2) (set_reg r2 satp (set_reg r1 (sy_secondary_kmain y) (set_reg r0 sp c)))).
(** Up to [sched_enter_idle] *)
Definition secondary_kmain (c : Cpu) (s : Smp) : result Smp :=
  s ← set_cpu_online (current_hart c) true s;
  Ok (mkSmp (w32 (sm_online s + 1)) (sm_release s) (sm_root s) (sm_cpus s)).

(** trap.rs: [init_hart] *)
Definition trap_init_hart (c : Cpu) : Cpu :=
  let c := write_stvec (sy_trap_entry y) c in
  let hartid := current_hart c in
  let stack_top := if hartid =? 0 then sy_stack_top y else w64 (sy_sec_stacks y + (hartid + 1) * SEC_STACK_SIZE) in
  write_sscratch stack_top c.
End Boot.

(** ** idle.rs *)

Record HartState := mkHartState { hs_cpu : Cpu; hs_timer : Timer; hs_need : list bool }.
Section Idle.
Context {D : Type} `{!Device D}.
Abbreviation M := (DM HartState D).

Definition on_cpu (f : Cpu → Cpu) : M unit := set_glob (λ g, mkHartState (f (hs_cpu g)) (hs_timer g) (hs_need g)).
(** Up to the loop, and the start of a round of it, up to the wait *)
Definition sched_enter_idle (y : Syms) (looks : nat) : M unit :=
  c ← glob hs_cpu;
  let hartid := current_hart c in
  on_cpu (write_stvec (sy_trap_entry y));;
  on_cpu (write_sscratch (w64 (sy_sec_stacks y + (hartid + 1) * SEC_STACK_SIZE)));;
  zoom hs_timer (λ t g, mkHartState (hs_cpu g) t (hs_need g)) (Console.init_hart looks hartid);;
  on_cpu (set_sie (Z.lor (Z.shiftl 1 5) (Z.shiftl 1 9)));;
  on_cpu (set_sstatus SIE).
Definition idle_round (hartid : Z) : M unit :=
  g ← glob hs_need; l ← lift (set_idx g hartid false);
  set_glob (λ g, mkHartState (hs_cpu g) (hs_timer g) l).
End Idle.

(** ** What the assembly does *)

(** The slots of a frame that the entry fills, the last one first *)
Definition reg_slots : list (Z * reg) := [
  (240, T6); (232, T5); (224, T4); (216, T3); (208, S11); (200, S10); (192, S9); (184, S8); (176, S7); (168, S6);
  (160, S5); (152, S4); (144, S3); (136, S2); (128, A7); (120, A6); (112, A5); (104, A4); (96, A3); (88, A2);
  (80, A1); (72, A0); (64, S1); (56, S0); (48, T2); (40, T1); (24, Tp); (16, Gp); (0, Ra)].
Definition entry_slots (c : Cpu) : list (Z * Z) :=
  [(280, c_csrs c SAtp); (256, Z.lor (c_csrs c SStatus) (Z.shiftl 1 18)); (248, c_csrs c SEpc)] ++
  (prod_map id (c_regs c) <$> reg_slots) ++ [(8, c_regs c Sp); (32, c_regs c T0)].
Definition at_slot (l : list (Z * Z)) (k old : Z) : Z := foldr (λ p r, if k =? p.1 then p.2 else r) old l.

Lemma addr a k : 0 ≤ a → a + 288 ≤ 18446744073709551616 → 0 ≤ k < 288 → w64 (a + k) = a + k.
Proof. intros. apply Z.mod_small. lia. Qed.
Lemma eqb_add a x y : (a + x =? a + y) = (x =? y).
Proof. apply Bool.eq_iff_eq_true. rewrite !Z.eqb_eq. lia. Qed.

(** Where the frame goes: below the stack pointer kept in [sscratch] *)
Definition stack_ok (c : Cpu) : Prop := 288 ≤ c_csrs c SScratch < 18446744073709551616.

Section Entry.
Context (c : Cpu) (Hs : stack_ok c).
Definition frame_addr : Z := c_csrs c SScratch - 288.

Lemma entry_sp : w64 (c_csrs c SScratch + -288) = frame_addr.
Proof. unfold frame_addr. apply Z.mod_small. unfold stack_ok in Hs. lia. Qed.

Lemma entry_reads x : c_mem (run trap_entry c) x = at_slot ((λ p, (p.1 + frame_addr, p.2)) <$> entry_slots c) x (c_mem c x).
Proof.
  cbn -[Z.add Z.sub w64 Z.eqb Z.lor Z.shiftl]. rewrite !entry_sp. unfold stack_ok in Hs.
  rewrite !(addr frame_addr) by (unfold frame_addr; lia). by rewrite !(Z.add_comm _ frame_addr).
Qed.

Lemma entry_slot k : 0 ≤ k < 288 → c_mem (run trap_entry c) (w64 (frame_addr + k)) = at_slot (entry_slots c) k (c_mem c (frame_addr + k)).
Proof.
  intros Hk. rewrite entry_reads, addr by (unfold frame_addr, stack_ok in *; lia).
  induction (entry_slots c) as [|[o v] l IH]; [done|]. cbn [fmap list_fmap at_slot foldr fst snd].
  rewrite (Z.add_comm o), eqb_add. fold (at_slot l k (c_mem c (frame_addr + k))). by rewrite <-IH.
Qed.

Lemma entry_regs r : r ≠ T0 → r ≠ Sp → r ≠ A0 → c_regs (run trap_entry c) r = c_regs c r.
Proof. intros. by destruct r. Qed.
End Entry.

Lemma entry_frame c : stack_ok c → let f := frame_at (c_mem (run trap_entry c)) (frame_addr c) in
  (∀ r, r ≠ X0 → tf_reg f r = c_regs c r) ∧ tf_sepc f = c_csrs c SEpc ∧
  tf_sstatus f = Z.lor (c_csrs c SStatus) (Z.shiftl 1 18) ∧ tf_satp f = c_csrs c SAtp.
Proof.
  intros Hs f. split_and!; [|cbn [f frame_at tf_sepc tf_sstatus tf_satp]; rewrite (entry_slot c Hs) by lia; reflexivity..].
  intros r Hr. destruct r; [done|cbn [f tf_reg frame_at tf_ra tf_sp tf_gp tf_tp tf_t0 tf_t1 tf_t2 tf_s0 tf_s1 tf_a0 tf_a1 tf_a2
    tf_a3 tf_a4 tf_a5 tf_a6 tf_a7 tf_s2 tf_s3 tf_s4 tf_s5 tf_s6 tf_s7 tf_s8 tf_s9 tf_s10 tf_s11 tf_t3 tf_t4 tf_t5 tf_t6];
    rewrite (entry_slot c Hs) by lia; reflexivity..].
Qed.

(** The return loads the frame at [sp], and then uses [t0] and [t1] again. *)
Lemma return_regs c r : r ≠ X0 → r ≠ T0 → r ≠ T1 →
  c_regs (run trap_return c) r = tf_reg (frame_at (c_mem c) (c_regs c Sp)) r.
Proof. intros. by destruct r. Qed.
Lemma return_scratch c : let f := frame_at (c_mem c) (c_regs c Sp) in
  c_regs (run trap_return c) T0 = tf_sp f ∧ c_regs (run trap_return c) T1 = tf_satp f ∧
  c_pc (run trap_return c) = tf_sepc f ∧ c_csrs (run trap_return c) SAtp = tf_satp f ∧
  c_csrs (run trap_return c) SScratch = w64 (c_regs c Sp + 288).
Proof. by split_and!. Qed.

Lemma land_sub x m b : Z.land m b = b → has_bit (Z.land x m) b = has_bit x b.
Proof. intros H. unfold has_bit. by rewrite <-Z.land_assoc, H. Qed.

Lemma return_mode c : let f := frame_at (c_mem c) (c_regs c Sp) in
  c_mode (run trap_return c) = (if has_bit (tf_sstatus f) SPP then Supervisor else User) ∧
  has_bit (c_csrs (run trap_return c) SStatus) SIE = has_bit (tf_sstatus f) SPIE.
Proof.
  intros f. set (s := Z.land (tf_sstatus f) (w64 (-1 - Z.shiftl 1 1))). split.
  - change (c_mode (run trap_return c)) with (if has_bit s SPP then Supervisor else User). unfold s. by rewrite land_sub.
  - change (c_csrs (run trap_return c) SStatus) with
      (Z.lor (clear64 s (SIE + SPIE + SPP)) (SPIE + (if has_bit s SPIE then SIE else 0))).
    unfold has_bit at 1. rewrite Z.land_lor_distr_l. unfold clear64. rewrite <-Z.land_assoc.
    change (Z.land (_ - _) SIE) with 0. rewrite Z.land_0_r, Z.lor_0_l. unfold s. rewrite land_sub by done.
    by destruct (has_bit (tf_sstatus f) SPIE).
Qed.

(** The status after a trap from user mode, as the entry stores it *)
Lemma taken_status cause tval c : c_mode c = User → let s := Z.lor (c_csrs (take_trap cause tval c) SStatus) (Z.shiftl 1 18) in
  has_bit s SPP = false ∧ has_bit s SPIE = has_bit (c_csrs c SStatus) SIE.
Proof.
  intros Hm s. assert (s = Z.lor (Z.lor (clear64 (c_csrs c SStatus) (SIE + SPIE + SPP))
      ((if has_bit (c_csrs c SStatus) SIE then SPIE else 0) + 0)) (Z.shiftl 1 18)) as ->
    by (unfold s; cbn; by rewrite Hm).
  unfold has_bit at 1 3. rewrite !Z.land_lor_distr_l. unfold clear64. rewrite <-!Z.land_assoc.
  change (Z.land (18446744073709551615 - (SIE + SPIE + SPP)) SPP) with 0.
  change (Z.land (18446744073709551615 - (SIE + SPIE + SPP)) SPIE) with 0. rewrite Z.land_0_r, Z.lor_0_l, !Z.add_0_r.
  by destruct (has_bit (c_csrs c SStatus) SIE).
Qed.

(** Entering a program *)
Lemma drop_regs c r : c_regs c X0 = 0 →
  c_regs (run drop_to_user c) r =
    match r with
    | Sp => c_regs c A1
    | Ra | Gp | Tp | S0 | S1 | S2 | S3 | S4 | S5 | S6 | S7 | S8 | S9 | S10 | S11 => c_regs c r
    | _ => 0
    end.
Proof. intros H. by destruct r. Qed.

Lemma drop_state c : let c' := run drop_to_user c in
  c_mode c' = User ∧ c_pc c' = c_regs c A0 ∧ c_csrs c' SScratch = c_regs c Sp ∧
  c_csrs c' SAtp = Z.lor (w64 (Z.shiftl 8 60)) (Z.shiftr (c_regs c A2) 12) ∧ has_bit (c_csrs c' SStatus) SIE = true.
Proof.
  set (s := Z.lor (clear64 (c_csrs c SStatus) 258) 262176).
  assert (∀ b, Z.land 262176 b = 0 → Z.land (18446744073709551615 - 258) b = 0 → has_bit s b = false) as H0.
  { intros b H1 H2. unfold s, has_bit, clear64. by rewrite Z.land_lor_distr_l, <-Z.land_assoc, H1, H2, Z.land_0_r. }
  assert (has_bit s SPIE = true) as H1.
  { unfold s, has_bit. rewrite Z.land_lor_distr_l. change (Z.land 262176 SPIE) with 32. apply negb_true_iff, Z.eqb_neq.
    intros E. apply (f_equal (λ x, Z.testbit x 5)) in E. rewrite Z.lor_spec in E. by destruct (Z.testbit _ 5) in E. }
  intros c'. split_and!; [|done..|].
  - change (c_mode c') with (if has_bit s SPP then Supervisor else User). by rewrite H0.
  - change (c_csrs c' SStatus) with (Z.lor (clear64 s (SIE + SPIE + SPP)) (SPIE + (if has_bit s SPIE then SIE else 0))).
    rewrite H1. unfold has_bit, clear64. rewrite Z.land_lor_distr_l, <-Z.land_assoc.
    change (Z.land (_ - _) SIE) with 0. by rewrite Z.land_0_r.
Qed.

(** ** Booting *)

Lemma bss_clears n : ∀ c fuel, (n < fuel)%nat → c_regs c X0 = 0 → 0 ≤ c_regs c T0 →
  c_regs c T1 = c_regs c T0 + 8 * Z.of_nat n → c_regs c T1 < 18446744073709551616 →
  ∃ c', bss_loop fuel c = Ok c' ∧ (∀ r, r ≠ T0 → c_regs c' r = c_regs c r) ∧ c_csrs c' = c_csrs c ∧ c_mode c' = c_mode c ∧
    (∀ i, 0 ≤ i < Z.of_nat n → c_mem c' (c_regs c T0 + 8 * i) = 0) ∧
    (∀ x, ¬ (c_regs c T0 ≤ x < c_regs c T1) → c_mem c' x = c_mem c x).
Proof.
  induction n as [|n IH]; intros c [|fuel] Hf Hx H0 H1 Hw; [lia..| |lia|]; cbn [bss_loop].
  - rewrite (proj2 (Z.leb_le _ _)) by lia. exists c. split_and!; [done..|intros; lia|done].
  - rewrite (proj2 (Z.leb_gt _ _)) by lia. set (c1 := run _ c).
    assert (c_regs c1 T0 = c_regs c T0 + 8) as E0 by (cbn; apply Z.mod_small; lia).
    assert (∀ x, c_mem c1 x = if x =? c_regs c T0 then 0 else c_mem c x) as Em.
    { intros x. cbn. rewrite Hx, Z.add_0_r. unfold w64. by rewrite Z.mod_small by lia. }
    destruct (IH c1 fuel) as (c' & Hr & Hg & Hc & Hm & Hz & Ho); [lia|done|lia|change (c_regs c1 T1) with (c_regs c T1); lia|done|].
    change (c_regs c1 T1) with (c_regs c T1) in Ho. rewrite E0 in *.
    exists c'. split_and!; [done| |done|done|..].
    + intros r Hr0. rewrite Hg by done. by destruct r.
    + intros i Hi. destruct (decide (i = 0)) as [->|].
      * rewrite Z.add_0_r, Ho, Em, Z.eqb_refl by lia. done.
      * replace (c_regs c T0 + 8 * i) with (c_regs c T0 + 8 + 8 * (i - 1)) by lia. apply Hz. lia.
    + intros x Hxx. rewrite Ho, Em by lia. by rewrite (proj2 (Z.eqb_neq _ _)) by lia.
Qed.

Lemma mpp_supervisor m : Z.land m 4096 = 0 → mode_of (clear64 (Z.lor m (w64 (Z.shiftl 1 11))) (w64 (Z.shiftl 1 7))) = Supervisor.
Proof.
  intros Hm. unfold mode_of. enough (Z.land (clear64 (Z.lor m (w64 (Z.shiftl 1 11))) (w64 (Z.shiftl 1 7))) MPP = MPP_S) as -> by done.
  unfold clear64. rewrite <-Z.land_assoc. change (Z.land (_ - _) MPP) with (Z.lor 4096 2048). change (w64 (Z.shiftl 1 11)) with 2048.
  rewrite Z.land_lor_distr_l, (Z.land_lor_distr_r m), Hm, Z.lor_0_l. change (Z.land 2048 (Z.lor 4096 2048)) with 2048.
  change MPP_S with 2048. apply Z.bits_inj'. intros i _. rewrite Z.lor_spec, Z.land_spec. by destruct (Z.testbit m i), (Z.testbit 2048 i).
Qed.

(** The state in which a hart is when it comes out of the boot code *)
Lemma boot_enters_kernel y n c fuel :
  c_csrs c MHartid = 0 → c_regs c X0 = 0 → Z.land (c_csrs c MStatus) 4096 = 0 → (n < fuel)%nat →
  0 ≤ sy_bss_start y → sy_bss_end y = sy_bss_start y + 8 * Z.of_nat n → sy_bss_end y < 18446744073709551616 →
  (∀ a, a ∈ [sy_stack_top y; sy_kmain y; sy_saved_hartid y; sy_saved_fdt y] → u64 a ∧ ¬ (sy_bss_start y ≤ a < sy_bss_end y)) →
  sy_saved_hartid y ≠ sy_saved_fdt y →
  ∃ c', start y fuel c = Ok c' ∧ c_mode c' = Supervisor ∧ c_pc c' = sy_kmain y ∧
    c_regs c' A0 = 0 ∧ c_regs c' A1 = c_regs c A1 ∧ c_regs c' Sp = sy_stack_top y ∧ c_regs c' Tp = 0 ∧
    c_csrs c' SAtp = 0 ∧ c_csrs c' PmpAddr0 = 2 ^ 30 - 1 ∧ c_csrs c' PmpCfg0 = 0x9F ∧
    (∀ i, 0 ≤ i < Z.of_nat n → c_mem c' (sy_bss_start y + 8 * i) = 0).
Proof.
  intros Hh Hx Hm Hf H0 He Hw Ha Hne. unfold start. set (c1 := exec (Csrr Tp MHartid) c).
  assert (c_regs c1 Tp = 0) as Et by exact Hh. rewrite Et. cbn [negb Z.eqb].
  set (c2 := run (boot_save y) _). set (c3 := run [_; _] c2).
  assert (∀ a, a ∈ [sy_stack_top y; sy_kmain y; sy_saved_hartid y; sy_saved_fdt y] → w64 a = a) as Hww
    by (intros a Hin; apply Z.mod_small, Ha, Hin).
  assert (w64 (sy_bss_start y) = sy_bss_start y) as E0 by (apply Z.mod_small; lia).
  assert (w64 (sy_bss_end y) = sy_bss_end y) as E1 by (apply Z.mod_small; lia).
  assert (∀ a, w64 (w64 a + 0) = w64 a) as Ew by (intros a; rewrite Z.add_0_r; unfold w64; by rewrite Z.mod_mod by lia).
  destruct (bss_clears n c3 fuel) as (c4 & Hr & Hg & Hc & Hmo & Hz & Ho); [done|done|cbn; lia|cbn; lia|cbn; lia|].
  assert (c_mem c4 (sy_saved_hartid y) = 0 ∧ c_mem c4 (sy_saved_fdt y) = c_regs c A1) as [M1 M2].
  { cbn in Ho. rewrite E0, E1 in Ho.
    rewrite !Ho by (apply Ha; rewrite !elem_of_cons; tauto). cbn -[w64]. rewrite !Ew, !Hww by (rewrite !elem_of_cons; tauto).
    rewrite Z.eqb_refl, (proj2 (Z.eqb_neq _ _)) by done. by rewrite Z.eqb_refl. }
  fold c2 c3. rewrite Hr. eexists. split; [reflexivity|]. split_and!.
  - change (c_mode _) with (mode_of (clear64 (Z.lor (c_csrs c4 MStatus) (w64 (Z.shiftl 1 11))) (w64 (Z.shiftl 1 7)))). rewrite Hc.
    by apply mpp_supervisor.
  - cbn -[w64]. apply Hww. rewrite !elem_of_cons; tauto.
  - cbn -[w64]. by rewrite Ew, Hww by (rewrite !elem_of_cons; tauto).
  - cbn -[w64]. by rewrite Ew, Hww by (rewrite !elem_of_cons; tauto).
  - cbn -[w64]. apply Hww. rewrite !elem_of_cons; tauto.
  - cbn -[w64]. by rewrite Hg.
  - cbn -[w64]. by rewrite Hg.
  - done.
  - done.
  - intros i Hi. cbn in Hz. rewrite E0 in Hz. change (c_mem _ _) with (c_mem c4 (sy_bss_start y + 8 * i)). by apply Hz.
Qed.

Module AsmTheorems.

(** C10. A trap from user mode and the return from it. The handler finds a frame with every
    register of the program, its program counter, its address space and its interrupt enable,
    and the number that [hart_id] reads is what the program had in [tp]. Whatever the
    handler leaves in the frame at the end is what the program goes on with, on the same
    kernel stack: every register, the program counter and the address space, except that
    [t0] holds the stack pointer and [t1] the root of the page table. A handler that leaves the
    frame alone returns to user mode with interrupts enabled as before. *)
Theorem trap_roundtrip cause tval handler c s :
  c_mode c = User → stack_ok c →
  let c1 := run trap_entry (take_trap cause tval c) in
  let c2 := handler c1 in
  let c3 := run trap_return c2 in
  let f1 := m_tf (enter c1 s) in
  c_regs c2 Sp = c_regs c1 Sp →
  let f2 := frame_at (c_mem c2) (c_regs c1 A0) in
  (∀ r, r ≠ X0 → tf_reg f1 r = c_regs c r) ∧ tf_sepc f1 = c_pc c ∧ tf_satp f1 = c_csrs c SAtp ∧
  c_regs c1 A0 = c_csrs c SScratch - 288 ∧ m_hart (enter c1 s) = c_regs c Tp ∧
  (∀ r, r ≠ X0 → r ≠ T0 → r ≠ T1 → c_regs c3 r = tf_reg f2 r) ∧
  c_regs c3 T0 = tf_sp f2 ∧ c_regs c3 T1 = tf_satp f2 ∧ c_pc c3 = tf_sepc f2 ∧ c_csrs c3 SAtp = tf_satp f2 ∧
  c_csrs c3 SScratch = c_csrs c SScratch ∧
  (f2 = f1 → c_mode c3 = User ∧ has_bit (c_csrs c3 SStatus) SIE = has_bit (c_csrs c SStatus) SIE).
Proof.
  intros Hm Hs c1 c2 c3 f1 Hsp f2. set (c0 := take_trap cause tval c) in *.
  assert (stack_ok c0) as Hs0 by exact Hs.
  assert (c_regs c1 A0 = frame_addr c0 ∧ c_regs c1 Sp = frame_addr c0) as [Ea Es].
  { split; [change (c_regs c1 A0) with (w64 (c_csrs c0 SScratch + -288))|change (c_regs c1 Sp) with (w64 (c_csrs c0 SScratch + -288))];
      by apply entry_sp. }
  destruct (entry_frame c0 Hs0) as (F1 & F2 & F3 & F4). fold c1 in F1, F2, F3, F4.
  assert (f1 = frame_at (c_mem c1) (frame_addr c0)) as Ef by (unfold f1, enter; cbn [m_tf set_m_hart set_m_tf]; by rewrite Ea).
  assert (f2 = frame_at (c_mem c2) (c_regs c2 Sp)) as Ef2 by (unfold f2; by rewrite Hsp, Ea, Es).
  destruct (return_scratch c2) as (R1 & R2 & R3 & R4 & R5). destruct (return_mode c2) as (R6 & R7). rewrite <-Ef2 in *.
  destruct (taken_status cause tval c Hm) as (S1 & S2). fold c0 in S1, S2.
  split_and!; [by rewrite Ef|by rewrite Ef|by rewrite Ef|exact Ea|reflexivity|
    intros r ?? ?; rewrite Ef2; by apply return_regs|exact R1|exact R2|exact R3|exact R4| |].
  - unfold c3. rewrite R5, Hsp, Es. unfold frame_addr. change (c_csrs c0 SScratch) with (c_csrs c SScratch).
    rewrite Z.sub_add. apply Z.mod_small. unfold stack_ok in Hs. lia.
  - intros E. unfold c3. rewrite R6, R7, E, Ef, F3. by rewrite S1, S2.
Qed.

(** A program at 65536 with its registers numbered, and a kernel stack that ends at 8192 *)
Definition demo_cpu (tp : Z) : Cpu :=
  mkCpu (λ r, match r with X0 => 0 | Sp => 4000 | Tp => tp | T0 => 5 | T1 => 6 | A7 => SYS_kill | A0 => 8 | A1 => 9 | _ => 1 end)
    (λ r, match r with SScratch => 8192 | SStatus => SIE | SAtp => 0x8000000000080400 | _ => 0 end) (λ _, 0) User 65536.

Lemma trap_roundtrip_witness :
  let c := demo_cpu 0 in
  let c3 := trap_vector id (take_trap 9223372036854775813 0 c) in
  c_pc c3 = 65536 ∧ c_mode c3 = User ∧ (∀ r, r ≠ X0 → r ≠ T0 → r ≠ T1 → c_regs c3 r = c_regs c r) ∧
  c_regs c3 T0 = 4000 ∧ c_regs c3 T1 = 0x8000000000080400.
Proof.
  cbv zeta. destruct (trap_roundtrip 9223372036854775813 0 id (demo_cpu 0) VfsTheorems.demo_machine)
    as (F1 & F2 & F3 & _ & _ & R1 & R2 & R3 & R4 & _ & _ & Rm); [reflexivity|split; vm_compute; congruence|reflexivity|].
  split_and!.
  - etransitivity; [exact R4|exact F2].
  - exact (proj1 (Rm eq_refl)).
  - intros r H1 H2 H3. etransitivity; [exact (R1 r H1 H2 H3)|]. exact (F1 r H1).
  - etransitivity; [exact R2|]. exact (F1 Sp ltac:(done)).
  - etransitivity; [exact R3|]. exact F3.
Defined.

(** The kernel believes what a program puts in [tp]. The process of ring 2 that
    [acl_refuses] refuses may not kill another one; with 1 in [tp], the number of a hart on
    which nothing runs, its call is taken for one of the kernel's and succeeds; with 8
    every call is an index out of range. *)
Lemma forged_hart tp :
  let s := enter (run trap_entry (take_trap CAUSE_U_ECALL 0 (demo_cpu tp)))
    (TrapTheorems.user_machine TrapTheorems.proc_a TrapFrame_zero) in
  (tp = 0 → (handle s).1 = Ok (Reply (as_i64 Perm))) ∧
  (tp = 1 → (handle s).1 = Ok (Reply 0) ∧ p_pending_signals <$> g_procs (kernel (handle s).2) !! 200 = Some 512) ∧
  (tp = 8 → (handle s).1 = Panic).
Proof. split_and!; intros ->; [|split|]; vm_compute; reflexivity. Qed.
End AsmTheorems.
