(* ===== verification/Boot.v ===== *)
(** * kernel/src/srv/main: bringing the machine up

    [kmain] composes the components in the order of the source. The state of the whole
    kernel is the [Machine] of the system calls, the globals of the drivers that are
    set up at boot ([Board]), RAM and a device as drivers see them, and the screen;
    the page allocator is one, shared by the memory manager and the drivers. The
    messages of the log are left out. *)

From S2P Require Import Prelude Formats Pmm Bus Text Fdt Virtio VirtioDevs Rand Font Console Soc Buses Sdhci.
From S2P Require Import Mkimage MkimageThms YieldProps VfsProps VirtioProps ProcProps HandlerProps CallProps DispatchProps TrapThms.
From S2P Require Import Vnode Process Sched Ipc Vmm Heap Onyxfs Fat32 Net Machine Procfs Vfs Lifecycle Onx Syscall Trap.
From stdpp Require Import base list numbers strings gmap.
From Stdlib Require Import ZArith Lia.

Open Scope Z_scope.

(** ** init.rs and vfs.rs *)

Definition ONYXFS_LBA : Z := 10240.

(** [vfs::read(token, buf, size).ok()] *)
Definition read_into (token buf size : Z) : MM unit :=
  catch (vfs_read token size) (λ r, modify (pokes buf r.2)) (λ _, mret tt).
(** [let mut size = 0u32; vfs::stat(token, &mut size).ok();] *)
Definition size_of (token : Z) : MM Z := catch (vfs_stat token) mret (λ _, mret 0).

Definition setup (ndevs : Z) : MM unit :=
  (if 0 <? ndevs then ignore (mount_root 0 ONYXFS_LBA) else mret tt);;
  mount_procfs;;
  mount_ipcfs.

(** The process that runs the program that was loaded *)
Definition start_init (r : OnxLoadResult) : MM outcome :=
  on_k (modify proc_init);;
  let ring := if lr_ring r =? 1 then PROC_RING_ROOT else PROC_RING_USER in
  catch (create_user (lr_entry r) (lr_ustack r) (lr_root_pa r) PROC_PID_INIT 0 (lr_heap_brk r) ring 0 0)
    (λ _, enter_user 1) (λ _, mret Halted).

Definition launch : MM outcome :=
  catch (vfs_open (txt "/bin/init") (Z.lor PERM_READ PERM_SEEK)) (λ token,
    size ← size_of token;
    catch (on_heap (kmalloc size)) (λ img,
      read_into token img size;;
      ignore (vfs_close token);;
      catch (Onx.load img size) (λ r, on_heap (kfree img);; start_init r) (λ _, mret Halted))
    (λ _, mret Halted))
  (λ _, mret Halted).

(** ** The drivers that are set up at boot *)

Record Board := mkBoard {
  bo_fdt : Fdt; bo_uart : Uart; bo_timer : Timer; bo_plic : Plic; bo_blk : Blk; bo_sdhci : SdhciDev;
  bo_rtc : Rtc; bo_leds : Leds; bo_i2c : Z; bo_spi : Z; bo_wdt : Wdt;
  bo_rng : Rng; bo_net : NetDev; bo_con : ConDev; bo_in : InDev }.

Definition set_bo_fdt v b := mkBoard v (bo_uart b) (bo_timer b) (bo_plic b) (bo_blk b) (bo_sdhci b) (bo_rtc b) (bo_leds b)
  (bo_i2c b) (bo_spi b) (bo_wdt b) (bo_rng b) (bo_net b) (bo_con b) (bo_in b).
Definition set_bo_uart v b := mkBoard (bo_fdt b) v (bo_timer b) (bo_plic b) (bo_blk b) (bo_sdhci b) (bo_rtc b) (bo_leds b)
  (bo_i2c b) (bo_spi b) (bo_wdt b) (bo_rng b) (bo_net b) (bo_con b) (bo_in b).
Definition set_bo_timer v b := mkBoard (bo_fdt b) (bo_uart b) v (bo_plic b) (bo_blk b) (bo_sdhci b) (bo_rtc b) (bo_leds b)
  (bo_i2c b) (bo_spi b) (bo_wdt b) (bo_rng b) (bo_net b) (bo_con b) (bo_in b).
Definition set_bo_plic v b := mkBoard (bo_fdt b) (bo_uart b) (bo_timer b) v (bo_blk b) (bo_sdhci b) (bo_rtc b) (bo_leds b)
  (bo_i2c b) (bo_spi b) (bo_wdt b) (bo_rng b) (bo_net b) (bo_con b) (bo_in b).
Definition set_bo_blk v b := mkBoard (bo_fdt b) (bo_uart b) (bo_timer b) (bo_plic b) v (bo_sdhci b) (bo_rtc b) (bo_leds b)
  (bo_i2c b) (bo_spi b) (bo_wdt b) (bo_rng b) (bo_net b) (bo_con b) (bo_in b).
Definition set_bo_sdhci v b := mkBoard (bo_fdt b) (bo_uart b) (bo_timer b) (sd_plic v) (bo_blk b) v (bo_rtc b) (bo_leds b)
  (bo_i2c b) (bo_spi b) (bo_wdt b) (bo_rng b) (bo_net b) (bo_con b) (bo_in b).
Definition set_bo_rtc v b := mkBoard (bo_fdt b) (bo_uart b) (bo_timer b) (bo_plic b) (bo_blk b) (bo_sdhci b) v (bo_leds b)
  (bo_i2c b) (bo_spi b) (bo_wdt b) (bo_rng b) (bo_net b) (bo_con b) (bo_in b).
Definition set_bo_leds v b := mkBoard (bo_fdt b) (bo_uart b) (bo_timer b) (bo_plic b) (bo_blk b) (bo_sdhci b) (bo_rtc b) v
  (bo_i2c b) (bo_spi b) (bo_wdt b) (bo_rng b) (bo_net b) (bo_con b) (bo_in b).
Definition set_bo_i2c v b := mkBoard (bo_fdt b) (bo_uart b) (bo_timer b) (bo_plic b) (bo_blk b) (bo_sdhci b) (bo_rtc b)
  (bo_leds b) v (bo_spi b) (bo_wdt b) (bo_rng b) (bo_net b) (bo_con b) (bo_in b).
Definition set_bo_spi v b := mkBoard (bo_fdt b) (bo_uart b) (bo_timer b) (bo_plic b) (bo_blk b) (bo_sdhci b) (bo_rtc b)
  (bo_leds b) (bo_i2c b) v (bo_wdt b) (bo_rng b) (bo_net b) (bo_con b) (bo_in b).
Definition set_bo_wdt v b := mkBoard (bo_fdt b) (bo_uart b) (bo_timer b) (bo_plic b) (bo_blk b) (bo_sdhci b) (bo_rtc b)
  (bo_leds b) (bo_i2c b) (bo_spi b) v (bo_rng b) (bo_net b) (bo_con b) (bo_in b).
Definition set_bo_rng v b := mkBoard (bo_fdt b) (bo_uart b) (bo_timer b) (bo_plic b) (bo_blk b) (bo_sdhci b) (bo_rtc b)
  (bo_leds b) (bo_i2c b) (bo_spi b) (bo_wdt b) v (bo_net b) (bo_con b) (bo_in b).
Definition set_bo_net v b := mkBoard (bo_fdt b) (bo_uart b) (bo_timer b) (bo_plic b) (bo_blk b) (bo_sdhci b) (bo_rtc b)
  (bo_leds b) (bo_i2c b) (bo_spi b) (bo_wdt b) (bo_rng b) v (bo_con b) (bo_in b).
Definition set_bo_con v b := mkBoard (bo_fdt b) (bo_uart b) (bo_timer b) (bo_plic b) (bo_blk b) (bo_sdhci b) (bo_rtc b)
  (bo_leds b) (bo_i2c b) (bo_spi b) (bo_wdt b) (bo_rng b) (bo_net b) v (bo_in b).
Definition set_bo_in v b := mkBoard (bo_fdt b) (bo_uart b) (bo_timer b) (bo_plic b) (bo_blk b) (bo_sdhci b) (bo_rtc b)
  (bo_leds b) (bo_i2c b) (bo_spi b) (bo_wdt b) (bo_rng b) (bo_net b) (bo_con b) v.

(** The SD controller with the interrupt controller as it is *)
Definition board_sdhci (b : Board) : SdhciDev :=
  mkSdhciDev (sd_base (bo_sdhci b)) (sd_rca (bo_sdhci b)) (sd_initialized (bo_sdhci b)) (sd_irq (bo_sdhci b)) (bo_plic b).

Definition board_off : Board :=
  mkBoard (mkFdt 0 0 0 0) Uart_new timer_off plic_off blk_new sdhci_off (mkRtc 0 RtcNone) leds_off 0 0 wdt_off
    rng_new net_new con_new in_new.

(** ** early.rs *)

Definition PLIC_PRIO_UART : Z := 10.
Definition PLIC_PRIO_VIRTIO : Z := 1.
Definition MMIO_BASES : list Z :=
  [0x10001000; 0x10002000; 0x10003000; 0x10004000; 0x10005000; 0x10006000; 0x10007000; 0x10008000].

Section Probe.
Context {D : Type} `{!Device D} (dtb : gmap Z Z) (patience : nat).
Abbreviation BM := (DM Board D).

Definition on_uart {A} (m : DM Uart D A) : BM A := zoom bo_uart set_bo_uart m.
Definition on_timer {A} (m : DM Timer D A) : BM A := zoom bo_timer set_bo_timer m.
Definition on_plic {A} (m : DM Plic D A) : BM A := zoom bo_plic set_bo_plic m.
Definition on_blk {A} (m : DM Blk D A) : BM A := zoom bo_blk set_bo_blk m.
Definition on_sdhci {A} (m : DM SdhciDev D A) : BM A := zoom board_sdhci set_bo_sdhci m.

(** What the device tree says *)
Definition fdt_ask {A} (q : gmap Z Z → Fdt → result A) : BM A := f ← glob bo_fdt; lift (q dtb f).

(** [virtio::probe(b) && virtio::init(b).is_ok()] *)
Definition blk_here (b : Z) : BM bool :=
  p ← on_blk (blk_probe b);
  if p : bool then o ← attempt (on_blk (blk_init b)); mret (match o with Some _ => true | None => false end)
  else mret false.
Fixpoint count_blk (bases : list Z) (n : Z) : BM Z :=
  match bases with
  | [] => mret n
  | b :: bases => here ← blk_here b; count_blk bases (if here : bool then n + 1 else n)
  end.

Definition no_mmio : FdtMmio := mkFdtMmio 0 0 0.
Definition probe_devices : BM Z :=
  found ← fdt_ask (λ m f, find_virtio m f (replicate 8 no_mmio) 8);
  let '(devs, nfound) := found in
  let bases := filter (λ b, b ≠ 0) (mm_base <$> take (Z.to_nat nfound) devs) in
  ndevs ← count_blk bases 0;
  ndevs ← (if nfound =? 0 then count_blk MMIO_BASES ndevs else mret ndevs);
  info ← fdt_ask find_sdhci;
  (match info with
   | Some i =>
       p ← on_sdhci (sdhci_probe (mm_base i));
       if p : bool then on_sdhci (sdhci_init (mm_base i) (mm_irq i));; mret tt else mret tt
   | None => mret tt
   end);;
  mret ndevs.

(** [if let Some(info) = find() { .. }] *)
Definition if_found (q : gmap Z Z → Fdt → result (option FdtMmio)) (f : Z → BM unit) : BM unit :=
  o ← fdt_ask q; match o with Some i => f (mm_base i) | None => mret tt end.

(** A driver that recognises the device at [b] takes it, whether or not it can be set up. *)
Definition claim_dev (probe : BM bool) (init : BM unit) (next : BM unit) : BM unit :=
  p ← probe; if p : bool then attempt init;; mret tt else next.
Definition probe_virtio (b : Z) : BM unit :=
  claim_dev (zoom bo_rng set_bo_rng (rng_probe b)) (zoom bo_rng set_bo_rng (rng_init b))
  (claim_dev (zoom bo_net set_bo_net (net_probe b)) (zoom bo_net set_bo_net (VirtioDevs.net_init b))
  (claim_dev (zoom bo_con set_bo_con (con_probe b)) (zoom bo_con set_bo_con (con_init b))
  (claim_dev (zoom bo_in set_bo_in (in_probe b)) (zoom bo_in set_bo_in (in_init b)) (mret tt)))).

Definition probe_peripherals : BM unit :=
  if_found find_rtc (λ _, zoom bo_rtc set_bo_rtc rtc_probe;; mret tt);;
  if_found find_gpio (λ b,
    zoom (ld_gpio ∘ bo_leds) (λ g bo, set_bo_leds (mkLeds (ld_slots (bo_leds bo)) g) bo) (gpio_init b);;
    attempt (zoom bo_leds set_bo_leds (led_bind LedPower 5 true));; mret tt);;
  if_found find_i2c (λ b, zoom bo_i2c set_bo_i2c (i2c_init b 99));;
  if_found find_spi (λ b, zoom bo_spi set_bo_spi (spi_init b 4 0));;
  if_found find_watchdog (λ b,
    zoom bo_wdt set_bo_wdt (wdt_init b);; attempt (zoom bo_wdt set_bo_wdt (arm 3000));; mret tt);;
  each MMIO_BASES probe_virtio.

(** The interrupt controller, as [early_init] sets it up *)
Definition plic_up : BM unit :=
  base ← fdt_ask find_plic;
  on_plic (plic_init base;; set_priority PLIC_PRIO_UART 7;; set_priority PLIC_PRIO_VIRTIO 5;;
           plic_enable PLIC_PRIO_UART 0;; set_threshold 0).
End Probe.

(** ** The whole kernel *)

Record Whole (D : Type) := mkWhole { wh_m : Machine; wh_board : Board; wh_ram : ram; wh_dev : D; wh_screen : Screen }.
Arguments mkWhole {D} _ _ _ _ _.
Arguments wh_m {D} _.
Arguments wh_board {D} _.
Arguments wh_ram {D} _.
Arguments wh_dev {D} _.
Arguments wh_screen {D} _.

Section Kmain.
Context {D : Type} `{!Device D} (kernel_end : Z) (dtb : gmap Z Z) (patience : nat).
Abbreviation WM := (SM (Whole D)).

Definition on_m {A} (m : MM A) : WM A := λ s,
  let '(r, x) := m (wh_m s) in (r, mkWhole x (wh_board s) (wh_ram s) (wh_dev s) (wh_screen s)).
Definition on_screen {A} (m : SM Screen A) : WM A := λ s,
  let '(r, x) := m (wh_screen s) in (r, mkWhole (wh_m s) (wh_board s) (wh_ram s) (wh_dev s) x).
(** Drivers take their pages from the allocator of the machine. *)
Definition on_board {A} (m : DM Board D A) : WM A := λ s,
  let '(r, d) := m (mkDrv (wh_board s) (wh_ram s) (wh_dev s) (vm_pmm (m_vm (wh_m s)))) in
  (r, mkWhole (set_m_vm (mkVm (dv_pmm d) (vm_tabs (m_vm (wh_m s)))) (wh_m s)) (dv_glob d) (dv_ram d) (dv_dev d) (wh_screen s)).

(** Up to the trap vector, which is an instruction on a control register *)
Definition early_init (fdt_addr : Z) : WM unit :=
  on_board (on_uart init_default);;
  f ← on_board (glob bo_fdt);
  r ← lift (Fdt.init dtb fdt_addr f);
  on_board (set_glob (set_bo_fdt r.2));;
  mem ← on_board (fdt_ask dtb memory);
  p ← lift (pmm_init kernel_end (fm_base mem) (fm_size mem));
  on_m (modify (λ s, set_m_vm (mkVm p (vm_tabs (m_vm s))) s));;
  on_m (ignore (on_vm vmm_init));;
  on_m (modify (λ s, set_m_heap (heap_init kernel_end (vm_pmm (m_vm s)) (hp_mem (m_heap s))) s));;
  on_board (on_timer (timer_init patience));;
  on_board (plic_up dtb).

Definition FB_BANNER : list (list Z) :=
  let blank := [] in
  let row cs := concat ((λ c, [226; 150; c]) <$> cs) in
  [blank;
   row [145; 136; 128; 136; 145; 136; 128; 136; 145; 136; 145; 136; 145; 136; 145; 136];
   row [145; 136; 145; 136; 145; 136; 145; 136; 145; 145; 136; 145; 145; 132; 128; 132];
   row [145; 128; 128; 128; 145; 128; 145; 128; 145; 145; 128; 145; 145; 128; 145; 128];
   txt "  OnyxKernel v0.3 (Rust) " ++ [226; 128; 148] ++ txt " RISC-V 64 GC";
   blank].

(** The lines of the banner, centred by their number of bytes; the next position. *)
Fixpoint draw_lines (y : Z) (lines : list (list Z)) : SM Screen Z :=
  match lines with
  | [] => mret y
  | l :: lines => draw_str (w64 (FB_WIDTH - len l * 8) / 2) y l 0x00FF00 0x000000;; draw_lines (y + 16) lines
  end.
Definition init_and_draw : WM unit :=
  vga ← attempt (on_board find_vga_fb);
  fb_pa ← (match vga with
           | Some pa => if negb (pa =? 0) then mret (Some pa) else attempt (on_board (Bus.pages ((FB_SIZE + 4095) / 4096)))
           | None => attempt (on_board (Bus.pages ((FB_SIZE + 4095) / 4096)))
           end);
  on_screen (
    (match fb_pa with Some pa => attempt (fb_init pa);; mret tt | None => mret tt end);;
    on ← enabled;
    if on : bool then
      clear;;
      y ← draw_lines 40 FB_BANNER;
      draw_str 10 (y + 8) (txt "Booting...") 0x00AAAA 0x000000
    else mret tt).

(** The font reads the buffer that the file was read into. *)
Definition load_font : WM unit :=
  attempt (
    token ← on_m (vfs_open (txt "/font/default.psf") PERM_READ);
    size ← on_m (size_of token);
    if 0 <? size then
      buf ← on_m (on_heap (kmalloc size));
      on_m (read_into token buf size);;
      on_m (ignore (vfs_close token));;
      bs ← on_m (gets (peeks (Z.to_nat size) buf));
      on_screen (set_mem (λ m, write_bytes m buf bs));;
      attempt (on_screen (Font.init buf size));;
      on_m (on_heap (kfree buf))
    else on_m (ignore (vfs_close token)));;
  mret tt.

Definition kmain (fdt_addr : Z) : WM outcome :=
  early_init fdt_addr;;
  ndevs ← on_board (probe_devices dtb);
  on_board (probe_peripherals dtb);;
  mac ← on_board (zoom bo_net set_bo_net net_mac);
  on_m (modify (λ s, set_m_net (Net.net_init mac [10; 0; 2; 15] (m_net s)) s));;
  init_and_draw;;
  on_m (setup ndevs);;
  load_font;;
  on_m launch.
End Kmain.

(** ** Records stay well formed from the first process on *)

Lemma size_of_safe R `{!Coarse R} t : msafe R (size_of t).
Proof. unfold size_of. eapply catch_safe; [apply _|apply vfs_stat_safe; apply _|intros; safe_tac..]. Qed.
Lemma read_into_safe R `{!Coarse R} t buf n : msafe R (read_into t buf n).
Proof. unfold read_into. eapply catch_safe; [apply _|apply vfs_read_safe; apply _|intros; safe_tac..]. Qed.
#[local] Hint Resolve size_of_safe read_into_safe : safety.

Lemma setup_safe R `{!Coarse R} ndevs : msafe R (setup ndevs).
Proof.
  unfold setup, mount_procfs, mount_ipcfs, set_mount. apply (safe_bind _ _ _ _ anything); [|intros; safe_tac].
  destruct (0 <? ndevs); [|safe_tac]. apply ignore_safe; [apply _|]. unfold mount_root.
  eapply catch_safe; [apply _|safe_tac|intros; safe_tac|]. intros e.
  eapply catch_safe; [apply _|safe_tac|intros; safe_tac..].
Qed.

(** Resetting the table of the harts is not a quiet step. *)
Lemma start_init_safe r : load_ok r → msafe whatever (start_init r).
Proof.
  intros [Hb Hr]. unfold start_init. apply (safe_bind _ _ _ _ anything).
  { apply on_k_safe. intros k Hk. by split_and!. }
  intros _ _. eapply catch_safe; [apply _|..].
  - apply create_user_safe; [destruct (_ =? _); unfold PROC_RING_ROOT, PROC_RING_USER; lia|].
    rewrite Hb. unfold USER_HEAP_SIZE. split; lia.
  - intros _ _. unfold enter_user. apply (safe_bind _ _ _ _ anything); [safe_tac|]. intros p _.
    destruct (p =? 0); [safe_tac|]. do 2 safe_step. apply (safe_bind _ _ _ _ anything); [|intros; safe_tac].
    apply on_k_safe, set_current_safe; apply _.
  - intros e. safe_tac.
Qed.

Lemma launch_safe : msafe whatever launch.
Proof.
  unfold launch. eapply catch_safe; [apply _|apply vfs_open_safe; apply _| |intros; safe_tac]. intros token _.
  do 1 safe_step. eapply catch_safe; [apply _|apply on_heap_safe; apply _| |intros; safe_tac]. intros img _.
  do 2 safe_step. eapply catch_safe; [apply _|apply load_safe; apply _| |intros; safe_tac]. intros r Hl.
  apply (safe_bind _ _ _ _ anything); [safe_tac|]. intros _ _. by apply start_init_safe.
Qed.

(** A kernel without a process that mounts its file systems and starts the first
    process is in order, and stays so whatever happens from then on. *)
Lemma booted_records_well_formed s ndevs s' :
  g_procs (kernel s) = ∅ → length (m_kfds s) = PROC_MAX_FDS →
  rtc kstep (launch (setup ndevs s).2).2 s' → machine_ok s'.
Proof.
  intros Hp Hf H. assert (machine_ok (launch (setup ndevs s).2).2) as Hs.
  { assert (machine_ok s) as H0 by (split; [unfold procs_ok; rewrite Hp; apply map_Forall_empty|done]).
    apply launch_safe, (setup_safe whatever), H0. }
  clear Hp Hf. revert Hs. induction H as [|s1 s2 s3 H12 _ IH]; [done|]. intros Hs. apply IH. by eapply kstep_machine_ok.
Qed.

(** ** What the first process is *)

Lemma catch_Ok_inv {A B} (m : MM A) (ok : A → MM B) err s b s' :
  catch m ok err s = (Ok b, s') →
  (∃ a s1, m s = (Ok a, s1) ∧ ok a s1 = (Ok b, s')) ∨ (∃ e s1, m s = (Err e, s1) ∧ err e s1 = (Ok b, s')).
Proof. unfold catch. destruct (m s) as [[a|e|] s1]; intros H; [left|right|done]; by eauto. Qed.

Lemma on_k_Ok_inv {A} (m : KM A) s a s' :
  on_k m s = (Ok a, s') → ∃ k, m (kernel s) = (Ok a, k) ∧ kernel s' = k ∧ m_hart s' = m_hart s.
Proof.
  unfold on_k, on_ipc, onk, kernel. destruct (m (ipc_k (m_ipc s))) as [r k]. intros H. injection H as -> <-. by exists k.
Qed.

Lemma on_heap_kernel {A} (m : HM A) s r s' : on_heap m s = (r, s') → kernel s' = kernel s ∧ m_hart s' = m_hart s.
Proof. unfold on_heap. destruct (m _) as [x h]. intros H. by injection H as _ <-. Qed.

Lemma at_set_Ok_inv {A} (arr : Kernel → list A) set i v k k' :
  at_set arr set i v k = (Ok tt, k') → ∃ l, set_idx (arr k) i v = Ok l ∧ k' = set l k.
Proof. unfold at_set. destruct (set_idx (arr k) i v) as [l|e|]; intros H; simplify_eq. by exists l. Qed.

Lemma rq_update_Ok_inv h f k u k' : rq_update h f k = (Ok u, k') → ∃ l, k' = set_g_rq l k.
Proof.
  unfold rq_update. intros (r & k1 & H1 & H2)%sm_bind_Ok_inv. destruct u.
  apply at_set_Ok_inv in H2 as (l & _ & ->). unfold rq_at, at_ in H1. injection H1 as _ <-. by exists l.
Qed.

(** A record that is queued for the first time *)
Lemma enqueue_new h p k x k' u :
  enqueue h p k = (Ok u, k') → g_procs k !! p = Some x → p_on_rq x = false →
  ∃ n, g_procs k' !! p = Some (set_p_next n (set_p_on_rq true x)) ∧
    g_all_procs k' = g_all_procs k ∧ g_next_pid k' = g_next_pid k ∧ g_hart_current k' = g_hart_current k.
Proof.
  intros H Hx Hq. unfold enqueue in H. rewrite (sm_bind_ok _ _ k x k) in H by (unfold deref; by rewrite Hx).
  rewrite Hq in H. set (k1 := set_g_procs (<[p := set_p_next 0 (set_p_on_rq true x)]> (g_procs k)) k).
  rewrite (sm_bind_ok _ _ k tt (set_g_procs (<[p := set_p_on_rq true x]> (g_procs k)) k)) in H by (unfold update; by rewrite Hx).
  rewrite (sm_bind_ok _ _ _ tt k1) in H
    by (unfold update; simpl; rewrite lookup_insert_eq; unfold k1, set_g_procs; simpl; by rewrite insert_insert_eq).
  apply sm_bind_Ok_inv in H as (r & k2 & H1 & H). unfold rq_at, at_ in H1. injection H1 as _ <-.
  apply sm_bind_Ok_inv in H as ([] & k3 & H1 & H). apply rq_update_Ok_inv in H as (l & ->). simpl.
  assert (g_procs k1 !! p = Some (set_p_next 0 (set_p_on_rq true x))) as Hp by apply lookup_insert_eq.
  destruct (rq_tail r =? 0).
  { apply rq_update_Ok_inv in H1 as (l' & ->). exists 0. by split_and!. }
  apply sm_bind_Ok_inv in H1 as ([] & k4 & H1 & H2). apply rq_update_Ok_inv in H2 as (l' & ->). simpl.
  unfold update in H1. destruct (g_procs k1 !! rq_tail r) as [y|] eqn:Ey; [|done]. injection H1 as <-. simpl.
  destruct (decide (rq_tail r = p)) as [<-|Hne].
  - exists (rq_tail r). rewrite lookup_insert_eq. split_and!; [|done..]. rewrite Hp in Ey. by injection Ey as <-.
  - exists 0. rewrite lookup_insert_ne by done. by split_and!.
Qed.

(** The record that [create_user] fills in *)
Definition user_proc (entry ustack root_pa pid parent_pid heap_brk ring argc argv_sp : Z) (x : Proc) : Proc :=
  let uid := if ring <=? PROC_RING_ROOT then 0 else 1000 in
  set_p_pid pid (set_p_ring ring (set_p_state Ready (set_p_parent_pid parent_pid
    (set_p_exit_code 0 (set_p_root_pa root_pa (set_p_entry entry (set_p_ustack ustack
    (set_p_heap_brk heap_brk (set_p_uid uid (set_p_gid uid (set_p_pending_signals 0
    (set_p_signal_mask 0 (set_p_tf (start_frame entry ustack root_pa argc argv_sp) x))))))))))))).

Lemma create_user_inv entry ustack root pid ppid brk ring argc sp s u s' :
  create_user entry ustack root pid ppid brk ring argc sp s = (Ok u, s') →
  entry ≠ 0 ∧ ∃ p n h, g_procs (kernel s') !! p =
      Some (set_p_next n (set_p_on_rq true (user_proc entry ustack root pid ppid brk ring argc sp (blank_proc h)))) ∧
    g_all_procs (kernel s') = p ∧ g_next_pid (kernel s') = g_next_pid (kernel s) ∧
    g_hart_current (kernel s') = g_hart_current (kernel s) ∧ m_hart s' = m_hart s.
Proof.
  unfold create_user. destruct (Z.eqb_spec entry 0) as [->|He]; [done|]. intros H. split; [done|].
  apply sm_bind_Ok_inv in H as (p & s1 & H1 & H).
  unfold alloc_proc in H1. rewrite gets_bind in H1. apply sm_bind_Ok_inv in H1 as (q & s0 & H0 & H1).
  apply on_heap_kernel in H0 as [E0 Hh0]. rewrite gets_bind in H1.
  apply sm_bind_Ok_inv in H1 as (? & s2 & H2 & H1). apply on_k_Ok_inv in H2 as (k2 & E2 & Ek2 & Hh2). injection E2 as _ <-.
  apply sm_bind_Ok_inv in H1 as (? & s3 & H3 & H1). apply on_k_Ok_inv in H3 as (k3 & E3 & Ek3 & Hh3). injection E3 as _ <-.
  unfold mret, SM_ret in H1. injection H1 as <- <-.
  apply sm_bind_Ok_inv in H as (? & s4 & H4 & H). apply on_k_Ok_inv in H4 as (k4 & E4 & Ek4 & Hh4).
  unfold update in E4. rewrite Ek3, Ek2 in E4. simpl in E4. rewrite lookup_insert_eq in E4. injection E4 as _ <-.
  unfold hart_id in H. rewrite gets_bind in H. apply on_k_Ok_inv in H as (k5 & E5 & Ek5 & Hh5).
  eapply enqueue_new in E5 as (n & Hp & Ha & Hn & Hc);
    [|rewrite Ek4; simpl; apply lookup_insert_eq|done].
  exists q, n, (g_all_procs (kernel s0)). rewrite Ek5. split; [exact Hp|].
  rewrite Ha, Hn, Hc, Ek4. simpl. rewrite E0. split_and!; congruence.
Qed.

Lemma enter_user_new s p x o s' :
  enter_user 1 s = (Ok o, s') → g_all_procs (kernel s) = p → g_procs (kernel s) !! p = Some x → p_pid x = 1 → p_state x ≠ Free →
  o = Halted ∨
  (o = SwitchTo p ∧ g_procs (kernel s') !! p = Some (set_p_state Running x) ∧ g_next_pid (kernel s') = g_next_pid (kernel s) ∧
   (0 ≤ m_hart s' < MAX_HARTS → idx (g_hart_current (kernel s')) (m_hart s') = Ok p)).
Proof.
  intros H Ha Hx Hpid Hst. unfold enter_user in H. apply sm_bind_Ok_inv in H as (q & s1 & H1 & H).
  apply on_k_Ok_inv in H1 as (k1 & E1 & Ek1 & Hh1). unfold by_pid, find_proc, walk_fuel in E1. cbn [find_all] in E1. rewrite Ha in E1.
  destruct (Z.eqb_spec p 0) as [->|Hp]; [injection E1 as <- <-; injection H as <- <-; by left|].
  rewrite (sm_bind_ok _ _ _ x (kernel s)) in E1 by (unfold deref; by rewrite Hx). rewrite Hpid in E1. simpl in E1.
  rewrite bool_decide_eq_false_2 in E1 by done. injection E1 as <- <-.
  rewrite (proj2 (Z.eqb_neq p 0) Hp) in H. right.
  apply sm_bind_Ok_inv in H as (? & s2 & H2 & H). apply on_k_Ok_inv in H2 as (k2 & E2 & Ek2 & Hh2).
  unfold update in E2. rewrite Ek1, Hx in E2. injection E2 as _ <-.
  unfold hart_id in H. rewrite gets_bind in H.
  apply sm_bind_Ok_inv in H as (? & s3 & H3 & H). apply on_k_Ok_inv in H3 as (k3 & E3 & Ek3 & Hh3).
  unfold mret, SM_ret in H. injection H as <- <-. split; [done|]. rewrite Ek3.
  unfold set_current_for_hart in E3. rewrite <- Hh3 in E3. destruct (Z.ltb_spec (m_hart s3) MAX_HARTS) as [Hlt|Hge].
  - apply sm_bind_Ok_inv in E3 as ([] & k4 & E4 & E3). apply at_set_Ok_inv in E4 as (l & El & ->).
    assert (k3 = set_g_hart_current l (kernel s2) ∨ k3 = set_g_current p (set_g_hart_current l (kernel s2))) as Hk.
    { destruct (m_hart s3 =? 0); injection E3 as _ <-; [by right|by left]. }
    assert (∀ j, 0 ≤ m_hart s3 → j = l → idx j (m_hart s3) = Ok p) as Hl.
    { intros j _ ->. by eapply idx_set_idx. }
    destruct Hk as [-> | ->]; simpl; rewrite Ek2; simpl; rewrite lookup_insert_eq; (split_and!; [done..|]); intros; apply Hl; lia || done.
  - injection E3 as _ <-. rewrite Ek2. simpl. rewrite lookup_insert_eq. split_and!; [done..|]. intros; lia.
Qed.

Module BootTheorems.

(** C33. When the boot code is left, [/bin/init] runs and nothing else.  Either the hart
    is halted, or the file was opened, its contents were read and loaded, and the hart
    switches to a process that is current on it, has pid 1 and no parent, starts at the
    entry of the image that was loaded, in its address space and on its stack, and runs
    in ring ROOT if the image asks for ring 1 and else in ring USER, as the superuser
    in the first case only.  The process is also still marked as queued, and the pid
    that the next process is given is 1 again. *)
Theorem launch_starts_init s o s' :
  launch s = (Ok o, s') →
  o = Halted ∨
  ∃ token s1 size s2 img s3 s4 r s5 p n h ring,
    vfs_open (txt "/bin/init") (Z.lor PERM_READ PERM_SEEK) s = (Ok token, s1) ∧
    size_of token s1 = (Ok size, s2) ∧ on_heap (kmalloc size) s2 = (Ok img, s3) ∧
    (read_into token img size;; ignore (vfs_close token)) s3 = (Ok tt, s4) ∧ Onx.load img size s4 = (Ok r, s5) ∧
    o = SwitchTo p ∧ lr_entry r ≠ 0 ∧ ring = (if lr_ring r =? 1 then PROC_RING_ROOT else PROC_RING_USER) ∧
    g_procs (kernel s') !! p = Some (set_p_state Running (set_p_next n (set_p_on_rq true
      (user_proc (lr_entry r) (lr_ustack r) (lr_root_pa r) 1 0 (lr_heap_brk r) ring 0 0 (blank_proc h))))) ∧
    (0 ≤ m_hart s' < MAX_HARTS → idx (g_hart_current (kernel s')) (m_hart s') = Ok p) ∧
    (alloc_pid (kernel s')).1 = Ok 1.
Proof.
  unfold launch. intros H.
  apply catch_Ok_inv in H as [(token & s1 & Eo & H)|(e & s1 & _ & H)]; [|injection H as <- <-; by left].
  apply sm_bind_Ok_inv in H as (size & s2 & Es & H).
  apply catch_Ok_inv in H as [(img & s3 & Ek & H)|(e & s3 & _ & H)]; [|injection H as <- <-; by left].
  apply sm_bind_Ok_inv in H as (u4 & s4 & Er & H). apply sm_bind_Ok_inv in H as (u5 & s5 & Ec & H).
  apply catch_Ok_inv in H as [(r & s6 & El & H)|(e & s6 & _ & H)]; [|injection H as <- <-; by left].
  apply sm_bind_Ok_inv in H as (? & s7 & _ & H). unfold start_init in H.
  apply sm_bind_Ok_inv in H as (? & s8 & H8 & H). apply on_k_Ok_inv in H8 as (k8 & E8 & Ek8 & _). injection E8 as _ <-.
  cbv zeta in H.
  apply catch_Ok_inv in H as [(? & s9 & H9 & H)|(e & s9 & _ & H)]; [|injection H as <- <-; by left].
  apply create_user_inv in H9 as (He & p & n & h & Hp & Ha & Hn & _).
  eapply enter_user_new in H as [->|(-> & Hx & Hn' & Hc)]; [by left| |done|exact Hp|done|done].
  right. exists token, s1, size, s2, img, s3, s5, r, s6, p, n, h, (if lr_ring r =? 1 then PROC_RING_ROOT else PROC_RING_USER).
  assert ((read_into token img size;; ignore (vfs_close token)) s3 = (Ok tt, s5)) as Erc.
  { rewrite (sm_bind_ok _ _ _ _ _ Er). by destruct u5. }
  split_and!; [done..|exact Hx|exact Hc|]. unfold alloc_pid. simpl. rewrite Hn', Hn, Ek8. done.
Qed.

(** ** A boot, from the disk image to the first process *)

(** [/bin/init]: eight bytes of code for ring 1, as the converter would pack them, on
    a disk as the image builder would lay it out. *)
Definition init_code : list Z := [115; 0; 0; 0; 111; 240; 223; 255].
Definition init_header : OnxHeader :=
  mkOnxHeader ONX_MAGIC 2 0x10000 1 ONX_FLAGS_RING1 [mkOnxSegment 0x10000 8 8 80 10 4096 0 0].
Definition init_image : list Z := match onx_to_bytes_v2 init_header with Ok h => h ++ init_code | _ => [] end.

Fixpoint write_image (n : nat) (img : list Z) (lba : Z) (d : gmap (Z * Z) (list Z)) : gmap (Z * Z) (list Z) :=
  match n with
  | O => d
  | S n => write_image n (drop 512 img) (lba + 1) (<[(0, lba) := take 512 img]> d)
  end.
Definition init_disk : gmap (Z * Z) (list Z) :=
  match add_file init_image (txt "/bin/init") new_tree with
  | Ok t => match build_image false (λ _, 0) t with
            | Ok img => write_image (Z.to_nat (len img / 512)) img ONYXFS_LBA ∅
            | _ => ∅
            end
  | _ => ∅
  end.

Definition cold_kernel : Kernel :=
  mkKernel ∅ 0 (replicate 8 0) 0 (replicate 8 TrapFrame_zero) (replicate 8 false) 1 (replicate 8 (mkRunQueue false 0 0 0)).
Definition cold_machine : Machine :=
  match pmm_init 0x80400000 0x80000000 0xA00000 with
  | Ok p =>
      set_m_ipc (mkIpc cold_kernel G_CHANNELS_init)
        (set_m_fs (Onyxfs.set_fs_disk init_disk (m_fs VfsTheorems.demo_machine))
          (set_m_vm (mkVm p ∅)
            (set_m_heap (heap_init 0x80400000 p (λ _, 0)) VfsTheorems.demo_machine)))
  | _ => VfsTheorems.demo_machine
  end.
Definition mounted_machine : Machine := (setup 1 cold_machine).2.
Lemma boot_run : (launch mounted_machine).1 = Ok (SwitchTo 2151677984).
Proof. vm_compute. reflexivity. Qed.
Definition started : Machine := (launch mounted_machine).2.
(** What the boot leaves: a process of ring ROOT at the entry of the image, and the code
    of the image there. *)
Lemma launch_starts_init_witness :
  launch mounted_machine = (Ok (SwitchTo 2151677984), started) ∧
  (alloc_pid (kernel started)).1 = Ok 1 ∧ idx (g_hart_current (kernel started)) 0 = Ok 2151677984 ∧
  ((λ x, (p_pid x, p_ring x, tf_sepc (p_tf x))) <$> g_procs (kernel started) !! 2151677984) =
    Some (1, PROC_RING_ROOT, 0x10000).
Proof.
  assert (launch mounted_machine = (Ok (SwitchTo 2151677984), started)) as E.
  { unfold started. rewrite <- boot_run. apply surjective_pairing. }
  split; [exact E|]. destruct (launch_starts_init _ _ _ E) as [H|H]; [discriminate H|].
  destruct H as (token & s1 & size & s2 & img & s3 & s4 & r & s5 & p & n & h & ring & _ & _ & _ & _ & _ & Ep & _ & _ & _ & Hc & Ha).
  injection Ep as <-. split; [exact Ha|].
  assert (m_hart started = 0) as Eh by (vm_compute; reflexivity). rewrite Eh in Hc. split; [apply Hc; unfold MAX_HARTS; lia|].
  vm_compute. reflexivity.
Defined.

(** The process finds the code of the image at its entry. *)
Example init_is_loaded :
  match g_procs (kernel started) !! 2151677984 with
  | Some x => match (translate_user (p_root_pa x) 0x10000 (m_vm started)).1 with
              | Ok pa => peeks 8 pa started = init_code
              | _ => False
              end
  | None => False
  end.
Proof. vm_compute. reflexivity. Qed.
End BootTheorems.
